(* ===== verification/_CoqProject ===== *)
-Q . S2P
Prelude.v
Units.v
Ntp.v
Float32.v
Bytes.v
Slice.v
Packet.v
RtpHeaders.v
FecHeaders.v
Compose.v
Wire.v
Io.v
SortedQueue.v
FastRandom.v
Interleaver.v
DelayedReader.v
Router.v
RtpStream.v
FecReader.v
FecReaderSafe.v
FecWriter.v
FecWriterStream.v
Ring.v
IntrusiveList.v
Hashmap.v
HashmapSafe.v
HashmapRefines.v
RtcpNtp.v
RtcpEstimators.v
RtcpHeaders.v
RtcpTraverser.v
RtcpTraverserSafe.v
RtcpBuilder.v
RtcpWire.v
RtcpBuilderEncodes.v
RtcpBuilderCorrect.v
RtcpCommunicator.v
RtcpRecorder.v
RtcpProcessingSafe.v
RtcpDecodes.v
RtcpRoundtrip.v
RtcpGenerate.v
RtcpGenerateSafe.v
RtcpGenerateLive.v
RtcpGenerateStuck.v
RtcpReporter.v
RtcpReporterInv.v
RtcpReporterOps.v
RtcpReporterProcess.v
RtcpReporterIndex.v
RtcpReporterGenerate.v
RtcpReporterSession.v
RingQueue.v
MpscQueue.v
MpscQueueFifo.v
Seqlock.v
SeqlockSafe.v
SpscRingBuffer.v
SpscRingBufferFifo.v
MovStats.v
MovStatsWindow.v
Strings.v
Pct.v
SessionRouter.v
SessionRouterSafe.v
SessionRouterPanic.v
ChannelSet.v
ChannelSetRefines.v
PcmFormat.v
PcmFormatCorrect.v
SampleSpec.v
Frame.v
PcmCodec.v
PcmCodecOk.v
Depacketizer.v
DepacketizerStream.v
Packetizer.v
PacketizerStream.v
AudioStreaming.v
