(* ===== verification/Prelude.v ===== *)
(** * Roc Toolkit: a verification development

    Roc streams audio over an unreliable network.  A sender cuts the audio into RTP
    packets, numbers them, adds forward error correction (FEC) packets and may spread them
    in time; a receiver sorts them, repairs what was lost and plays them back; both
    exchange RTCP reports.  This library models the protocol and data-structure core of the
    C++ implementation (src/internal_modules) as Rocq functions, one file per component,
    and proves what makes each component correct.

    ** How the parts interact

    - Outgoing media: audio::Packetizer (frame encoder, rtp::Sequencer) -> fec::Writer
      (block encoder) -> packet::Interleaver -> packet::Shipper, which runs the composer
      chain (RTP, FECFRAME) and writes.
    - Incoming media: parser chain -> packet::Router (one route per stream) ->
      packet::SortedQueue -> rtp::Filter -> packet::DelayedReader -> fec::Reader (block
      decoder) -> rtp::TimestampInjector -> audio::Depacketizer (frame decoder), with
      rtp::LinkMeter measuring the link.
    - Control: rtcp::Communicator takes received compound packets apart with the traversers
      and tells rtcp::Reporter, and asks the reporter for blocks and packs them with the
      builder; the reporter keeps the streams and the addresses and talks to the pipeline
      through rtcp::IParticipant.
    - Below: packets own a buffer and slices of it; lists and hash maps are intrusive;
      headers are packed structs read through byte-order conversions; strings are built by
      string builders over static or growing buffers.

    A component that calls another through a C++ interface (IWriter, IReader, IComposer,
    IBlockEncoder, IBlockDecoder, IFrameEncoder, IFrameDecoder, IParticipant, the reporter)
    is parametrised by a type class, and its theorems are proved for every instance that
    keeps the interface's contract.  rtcp::Reporter discharges the reporter's contract, the
    PCM codecs those of the frame encoder and decoder, packet::Queue those of reader and
    writer.

    ** Conventions

    A w-bit integer is a [Z] and every conversion and wrap-around is written out
    ([wrap_u], [wrap_s]).  [roc_panic] and accesses that have no behaviour in C++ (NULL, out
    of range, signed overflow) are the value [Panic]; a theorem that the result is [Ok]
    therefore excludes both.  Only the sums and differences of times that the RTCP reporter
    and the depacketizer make with remote timestamps, and the packetizer with those of
    frames, wrap, as they do on the supported targets.  Recoverable failures are the
    source's own status codes and booleans.  Allocations succeed or fail as told by a
    parameter.  Methods that thread a state and may panic are written in a small monad
    (RtcpReporter.v) and verified with weakest preconditions (RtcpReporterInv.v).

    A [float] is a rational number that every operation rounds to 24 significant bits
    (Float32.v), but for raw samples, which are the bits of an IEEE 754 number
    (PcmFormat.v).

    Loops that are not structural take fuel and return [Ok None] when it runs out; every
    theorem about such a loop shows that the fuel it gives is enough: the length of the
    packet for the RTCP traversers, the capacity of the queue for moving statistics, the
    number of streams and of halvings of the stream limit for report generation, 128 for the
    digits of a 64-bit number.  The loops of the reporter, the packetizer and the depacketizer return
    [Panic] when their fuel runs out: twice the number of streams for the timeouts, a
    parameter [attempts] for the choice of a new SSRC, the number of samples of a frame that
    is written, and for a frame that is read more than the number of packets that wait.
    [Ok None] is otherwise used only to state that a loop does not end: the theorem then
    holds for every fuel.

    A call on a structure shared by threads is a sequence of single accesses to its memory,
    with the position in the call as a value of an inductive type.  One step performs one
    access of one thread; a list of steps is an execution, and theorems hold for all lists.
    Memory is sequentially consistent.

    ** Files, sources and theorems

    Packets and their wire format.
    - Units.v: roc_packet/units.h.  C35: comparison of wrapping sequence numbers.
    - Ntp.v: roc_packet/ntp.cpp.
    - Float32.v: roc_packet/units.cpp.
    - Bytes.v: roc_core/endian_ops, endian.h, with network byte order on either host.
    - Slice.v: roc_core/slice.h.
    - Packet.v: roc_packet/packet.cpp, rtp.cpp, fec.cpp.  RtpHeaders.v, FecHeaders.v:
      roc_rtp/headers.h, roc_fec/headers.h.
    - Compose.v, Wire.v: roc_rtp/composer.cpp, parser.cpp, roc_fec/composer.h, parser.h.
      C1, C2, C3: composing and parsing
      round trips for RTP, FECFRAME source and repair packets, against a specification of the
      wire format; C4: parsing arbitrary bytes is safe.

    The media path.
    - Io.v: IReader, IWriter, roc_packet/queue.cpp.  SortedQueue.v: sorted_queue.cpp.
      C5, C29: the jitter buffer delivers each packet once and in order.
    - FastRandom.v, Interleaver.v: roc_core/fast_random.cpp, roc_packet/interleaver.cpp.
      C30: no packet is lost by interleaving.
    - DelayedReader.v: delayed_reader.cpp.  C31: where reading starts.
    - Router.v: router.cpp, shipper.cpp.  C26: streams are kept apart.
    - RtpStream.v: roc_rtp/sequencer.cpp, identity.cpp, filter.cpp, link_meter.cpp,
      timestamp_extractor.cpp, timestamp_injector.cpp.  C27: numbered packets
      pass the filter; C28: what passes is one stream.
    - FecReader.v, FecReaderSafe.v: roc_fec/reader.cpp.  C6: over the RTP
      parser packets come out in stream order, and only a block with a restored packet can
      make a read panic; C36: a repair packet without block
      length, which the former excludes, makes it panic.
    - FecWriter.v, FecWriterStream.v: roc_fec/writer.cpp.  C7: what is sent is the
      specified stream of blocks.

    Audio.
    - ChannelSet.v, ChannelSetRefines.v: roc_audio/channel_set.cpp, channel_defs.h.
      C25: the words and the cached index are a set of channels.
    - PcmFormat.v, PcmFormatCorrect.v: pcm_format.cpp.
      C23: what a mapping does to a buffer; C24: widening loses
      nothing, both for whole bytes; C38: packed samples are
      misread.
    - SampleSpec.v: sample_spec.cpp, sample_format.h.
    - Frame.v: frame.cpp, iframe_encoder.h, iframe_decoder.h, with the contracts of codecs.
      PcmCodec.v, PcmCodecOk.v: pcm_mapper.cpp, pcm_encoder.cpp, pcm_decoder.cpp, which keep
      them.
    - Packetizer.v, PacketizerStream.v: packetizer.cpp.  C10: packets
      carry the samples that are written.
    - Depacketizer.v, DepacketizerStream.v: depacketizer.cpp.  C9:
      frames play the packets at their positions in the stream, whatever arrives when.
    - AudioStreaming.v: both ends together.  C8: samples arrive as the format keeps
      them.

    Concurrent data.
    - MpscQueue.v, MpscQueueFifo.v: roc_core/mpsc_queue_impl.cpp, mpsc_queue.h.
      C19: every interleaving of the calls behaves as a sequential
      queue; C33: the consumer does not get stuck.
    - Seqlock.v, SeqlockSafe.v: roc_core/seqlock_impl.cpp, seqlock.h.  C20:
      loads are whole values and the latest ones.
    - SpscRingBuffer.v, SpscRingBufferFifo.v: roc_core/spsc_byte_buffer.cpp,
      spsc_ring_buffer.h.  C21: the buffer is a bounded queue;
      C40: except when its positions wrap.

    Containers.
    - Ring.v, IntrusiveList.v: roc_core/list_impl.cpp, list.h.  C22: the pointers implement
      a sequence.
    - Hashmap.v, HashmapSafe.v, HashmapRefines.v: roc_core/hashmap_impl.cpp, hashmap.h.
      C18: the map with incremental rehashing implements an ordered map, but
      for the insertions that panic because the rehashing has stalled.
    - RingQueue.v: roc_core/ring_queue.h.  C34: the ring is a bounded deque of one element
      less than its capacity.
    - MovStats.v, MovStatsWindow.v: roc_core/mov_stats.h.  C32: the incremental statistics
      are those of the window, unless a sample is 0 before it is full.
    - Strings.v: roc_core/array.h, string_buffer.cpp, string_builder.cpp.
    - Pct.v: roc_address/pct.cpp.

    RTCP.
    - RtcpNtp.v: roc_rtcp/ntp.cpp.
      RtcpHeaders.v: roc_rtcp/headers.h.
    - RtcpTraverser.v, RtcpTraverserSafe.v: traverser.cpp, xr_traverser.cpp,
      sdes_traverser.cpp, bye_traverser.cpp.
    - RtcpBuilder.v, RtcpWire.v, RtcpBuilderEncodes.v, RtcpBuilderCorrect.v: builder.cpp.
      C15: the builder writes the encoding of the compound packet or reports that it does
      not fit.
    - RtcpCommunicator.v, RtcpProcessingSafe.v: communicator.cpp, composer.cpp, parser.cpp.
      C13: arbitrary received bytes are processed without panic, out-of-bounds access or
      endless loop.
    - RtcpRecorder.v, RtcpDecodes.v, RtcpRoundtrip.v.  C14: what the builder encodes the
      communicator reports back; C39: a padded report that is misread.
    - RtcpGenerate.v, RtcpGenerateSafe.v, RtcpGenerateLive.v, RtcpGenerateStuck.v:
      communicator.cpp.  C16: every stream of every destination is
      reported once, in order; C37: when generation does not end.
    - RtcpEstimators.v: rtt_estimator.cpp, loss_estimator.cpp, packet_counter.cpp.
    - RtcpReporter.v: reporter.cpp, reports.h, iparticipant.h.  RtcpReporterInv.v: the
      invariant, the contract of the participant, the program logic.  RtcpReporterOps.v,
      RtcpReporterProcess.v, RtcpReporterIndex.v, RtcpReporterGenerate.v: what each method
      does to the invariant.  RtcpReporterSession.v: communicator and reporter together.
      C11: no sequence of datagrams stops them; C12:
      a round of reports covers the index.  The hash maps are lists here and finite maps in
      the session router; where core::Hashmap would panic because its rehashing has stalled,
      these models panic if a parameter (the type [grant] below) says that it has, and the
      theorems name its absence as a hypothesis.

    Receiver sessions.
    - SessionRouter.v, SessionRouterSafe.v: roc_pipeline/receiver_session_router.cpp.  C17:
      the four maps and the routes agree in every reachable state, no allowed operation
      panics, and successful operations have their effect.
    - SessionRouterPanic.v: what the condition on the operations excludes: an SSRC
      without session that changes its CNAME makes the router panic.

    ** Not modelled

    - Code outside the repository (OpenFEC, libuv, sound libraries) and the thin layers over
      it: fec codecs, roc_netio, roc_sndio, target_* directories.
    - Floating-point signal processing in roc_audio (resamplers, frequency estimator,
      latency tuner, mixer, channel mapper, watchdog), and mov_var.
    - Generated tables (channel_tables.cpp, the names of the formats in pcm_format.cpp) and
      the Ragel grammars of the parsers (files with the extension .rl).
    - Weak memory orders, mutexes and threads (roc_ctl, timers), and the
      assembly of pipelines in roc_pipeline, roc_node and the public API beyond what is
      listed above.
    - Logging and printing. *)

From stdpp Require Export base tactics numbers option list relations.
From Stdlib Require Export ZArith Lia Bool.

#[global] Open Scope Z_scope.

(** * Machine integers

    A w-bit unsigned C++ integer is a [Z] in [0, 2^w); a w-bit signed one a [Z]
    in [-2^(w-1), 2^(w-1)).  Conversions are written out where the code performs
    them: [wrap_u w] is the conversion to [uintW_t] and [wrap_s w] the (two's
    complement) conversion to [intW_t]. *)

Definition wrap_u (w z : Z) : Z := z mod 2 ^ w.

Definition wrap_s (w z : Z) : Z := (z + 2 ^ (w - 1)) mod 2 ^ w - 2 ^ (w - 1).

Abbreviation u8 := (wrap_u 8).
Abbreviation u16 := (wrap_u 16).
Abbreviation u32 := (wrap_u 32).
Abbreviation u64 := (wrap_u 64).
Abbreviation s16 := (wrap_s 16).
Abbreviation s32 := (wrap_s 32).
Abbreviation s64 := (wrap_s 64).

Definition is_u (w z : Z) : Prop := 0 <= z < 2 ^ w.

Definition is_s (w z : Z) : Prop := - 2 ^ (w - 1) <= z < 2 ^ (w - 1).

#[global] Instance is_u_dec w z : Decision (is_u w z).
Proof. unfold is_u. apply _. Defined.

#[global] Instance is_s_dec w z : Decision (is_s w z).
Proof. unfold is_s. apply _. Defined.

(** * Errors

    [roc_panic] aborts the process: it is the value [Panic], which no caller
    handles.  Recoverable failures are the [bool] or [StatusCode] results of the
    source. *)

Inductive res (A : Type) : Type :=
| Ok (a : A)
| Panic.
Arguments Ok {A} a.
Arguments Panic {A}.

Definition res_bind {A B} (m : res A) (f : A -> res B) : res B :=
  match m with
  | Ok a => f a
  | Panic => Panic
  end.

Declare Scope res_scope.
Delimit Scope res_scope with res.
#[global] Open Scope res_scope.

Notation "'let*' x := m 'in' k" := (res_bind m (fun x => k))
  (at level 10, x binder, m at level 100, k at level 200,
   format "'[v' 'let*'  x  :=  m  'in' '//' k ']'") : res_scope.
Notation "'let*' ' p := m 'in' k" := (res_bind m (fun '(p) => k))
  (at level 10, p pattern, m at level 100, k at level 200) : res_scope.

(** [roc_panic_if (c)] followed by the rest of the function. *)
Definition panic_if {A} (c : bool) (k : res A) : res A := if c then Panic else k.

(** * Computations that may panic or run out of fuel *)

(** [Ok None] means that a loop was given too little fuel. *)
Abbreviation run A := (res (option A)).

Definition ret {A} (a : A) : run A := Ok (Some a).

Definition run_bind {A B} (m : run A) (f : A -> run B) : run B :=
  match m with
  | Ok (Some a) => f a
  | Ok None => Ok None
  | Panic => Panic
  end.

Notation "'let!' x := m 'in' k" := (run_bind m (fun x => k))
  (at level 10, x binder, m at level 100, k at level 200) : res_scope.
Notation "'let!' ' p := m 'in' k" := (run_bind m (fun '(p) => k))
  (at level 10, p pattern, m at level 100, k at level 200) : res_scope.

Definition lift {A} (m : res A) : run A := let* a := m in ret a.

(** [core::Array::operator[]] (src/internal_modules/roc_core/array.h): panics out of
    range, for reading and for writing. *)
Definition array_get {A} (l : list A) (i : nat) : res A :=
  match l !! i with Some x => Ok x | None => Panic end.

Definition array_set {A} (l : list A) (i : nat) (x : A) : res (list A) :=
  if decide (i < length l)%nat then Ok (<[i:=x]> l) else Panic.

(** src/internal_modules/roc_status/status_code.h *)
Inductive StatusCode : Type :=
| StatusOK
| StatusUnknown
| StatusNoData
| StatusNoMem
| StatusNoSpace
| StatusLimit
| StatusConflict.

#[global] Instance StatusCode_eq_dec : EqDecision StatusCode.
Proof. solve_decision. Defined.

(** What an operation that may have to allocate finds: memory for it, no memory, or, when it
    is an insertion into a hash map that is full, a rehashing that was left unfinished
    (HashmapRefines.v shows when): the insertion then panics. *)
Inductive grant : Type := Granted | NoMemory | Stalled.

Definition is_granted (g : grant) : bool := match g with Granted => true | _ => false end.

#[global] Instance res_eq_dec {A} `{EqDecision A} : EqDecision (res A).
Proof. solve_decision. Defined.

(** * Tactics *)


(** Case analysis on every boolean test of the goal, turning the comparisons
    into propositions. *)
Ltac reflect_bools :=
  repeat match goal with
  | H : (_ && _) = true |- _ => apply andb_true_iff in H; destruct H
  | H : (_ || _) = false |- _ => apply orb_false_iff in H; destruct H
  | H : negb _ = true |- _ => apply negb_true_iff in H
  | H : negb _ = false |- _ => apply negb_false_iff in H
  | H : (_ <? _) = true |- _ => apply Z.ltb_lt in H
  | H : (_ <? _) = false |- _ => apply Z.ltb_ge in H
  | H : (_ <=? _) = true |- _ => apply Z.leb_le in H
  | H : (_ <=? _) = false |- _ => apply Z.leb_gt in H
  | H : (_ =? _) = true |- _ => apply Z.eqb_eq in H
  | H : (_ =? _) = false |- _ => apply Z.eqb_neq in H
  end.

Ltac case_if :=
  match goal with
  | |- context [if ?b then _ else _] => destruct b eqn:?
  end; reflect_bools.

Ltac case_if_in H :=
  match type of H with
  | context [if ?b then _ else _] => destruct b eqn:?
  end; reflect_bools.

(** Decompose a successful chain of [res_bind]s and guards. *)
Ltac res_inv :=
  repeat match goal with
  | H : Ok _ = Ok _ |- _ => injection H as H; subst
  | H : Panic = Ok _ |- _ => discriminate H
  | H : Ok _ = Panic |- _ => discriminate H
  | H : panic_if ?c _ = Ok _ |- _ =>
      unfold panic_if in H; destruct c eqn:?; [discriminate H|]; reflect_bools
  | H : (if ?c then Panic else _) = Ok _ |- _ =>
      destruct c eqn:?; [discriminate H|]; reflect_bools
  | H : res_bind ?m _ = Ok _ |- _ =>
      let E := fresh "E" in
      destruct m eqn:E; simpl in H; [|discriminate H]
  end.

(** Closed goals about ranges and evaluations, used by the witnesses. *)
Ltac closed :=
  first [ apply (bool_decide_unpack _); vm_compute; exact I
        | solve [vm_compute; intuition congruence] ].

(** Linear arithmetic with [/] and [mod] eliminated. *)
Ltac zlia := Z.div_mod_to_equations; lia.

(** * Lemmas on arrays *)

Lemma array_get_ok {A} (l : list A) i x : l !! i = Some x -> array_get l i = Ok x.
Proof. unfold array_get. by intros ->. Qed.

Lemma array_set_ok {A} (l : list A) i x :
  (i < length l)%nat -> array_set l i x = Ok (<[i:=x]> l).
Proof. unfold array_set. intros. by rewrite decide_True. Qed.

(** * Lemmas on lists *)

(** Removing an element from a list without repetitions. *)
Lemma filter_id {A} `{EqDecision A} (x : A) (l : list A) : x ∉ l -> filter (.≠ x) l = l.
Proof.
  induction l as [|y l IH]; intros Hx; [done|].
  rewrite filter_cons_True by (intros ->; apply Hx; left). f_equal. apply IH.
  intros Hin. apply Hx. by right.
Qed.

Lemma filter_out {A} `{EqDecision A} (x : A) (l1 l2 : list A) :
  NoDup (l1 ++ x :: l2) -> filter (.≠ x) (l1 ++ x :: l2) = l1 ++ l2.
Proof.
  intros HN. rewrite <- Permutation_middle in HN. apply NoDup_cons in HN as [Hx _].
  rewrite elem_of_app in Hx. rewrite filter_app, filter_cons_False by naive_solver.
  rewrite !filter_id; tauto.
Qed.

(** * Lemmas on machine integers *)

Create HintDb word.

Lemma pow2_pos (w : Z) : 0 <= w -> 0 < 2 ^ w.
Proof. intros. apply Z.pow_pos_nonneg; lia. Qed.

Lemma pow2_half (w : Z) : 0 < w -> 2 ^ w = 2 * 2 ^ (w - 1).
Proof. intros. rewrite <- Z.pow_succ_r by lia. f_equal. lia. Qed.

Lemma wrap_u_range (w z : Z) : 0 <= w -> is_u w (wrap_u w z).
Proof. intros. apply Z.mod_pos_bound, pow2_pos. done. Qed.

Lemma wrap_u_small (w z : Z) : is_u w z -> wrap_u w z = z.
Proof. apply Z.mod_small. Qed.

Lemma wrap_s_range (w z : Z) : 0 < w -> is_s w (wrap_s w z).
Proof.
  intros Hw. unfold wrap_s, is_s. rewrite (pow2_half w) by lia.
  pose proof (pow2_pos (w - 1)).
  pose proof (Z.mod_pos_bound (z + 2 ^ (w - 1)) (2 * 2 ^ (w - 1))). lia.
Qed.

Lemma wrap_s_small (w z : Z) : 0 < w -> is_s w z -> wrap_s w z = z.
Proof.
  unfold wrap_s, is_s. intros Hw Hz.
  rewrite Z.mod_small; [lia|]. rewrite (pow2_half w) by lia. lia.
Qed.

(** Both conversions keep the value modulo [2^w]. *)
Lemma wrap_s_cong (w z : Z) : 0 < w -> (wrap_s w z) mod 2 ^ w = z mod 2 ^ w.
Proof.
  intros Hw. unfold wrap_s. pose proof (pow2_pos w ltac:(lia)).
  rewrite Zminus_mod_idemp_l. f_equal. lia.
Qed.

Lemma wrap_u_cong (w z : Z) : (wrap_u w z) mod 2 ^ w = z mod 2 ^ w.
Proof. apply Zmod_mod. Qed.

Lemma wrap_s_of_cong (w a b : Z) :
  0 < w -> a mod 2 ^ w = b mod 2 ^ w -> wrap_s w a = wrap_s w b.
Proof.
  intros Hw E. unfold wrap_s.
  rewrite (Zplus_mod a), (Zplus_mod b), E. done.
Qed.

Lemma wrap_s_multiple (w z : Z) : 0 < w -> exists k, wrap_s w z = z + k * 2 ^ w.
Proof.
  intros Hw. unfold wrap_s. pose proof (pow2_pos w ltac:(lia)).
  exists (- ((z + 2 ^ (w - 1)) / 2 ^ w)).
  pose proof (Z.div_mod (z + 2 ^ (w - 1)) (2 ^ w)). lia.
Qed.

(** The representative of a residue class in the signed range is unique. *)
Lemma wrap_s_unique (w a b k : Z) :
  0 < w -> is_s w b -> a = b + k * 2 ^ w -> wrap_s w a = b.
Proof.
  intros Hw Hb ->. rewrite <- (wrap_s_small w b) at 2 by done.
  apply wrap_s_of_cong; [done|]. apply Z.mod_add.
  pose proof (pow2_pos w). lia.
Qed.

Lemma wrap_s_add_wrap (w a d : Z) :
  0 < w -> is_s w d -> wrap_s w (wrap_u w (a + d) - a) = d.
Proof.
  intros Hw Hd. rewrite <- (wrap_s_small w d) at 2 by done.
  apply wrap_s_of_cong; [done|]. unfold wrap_u.
  rewrite Zminus_mod_idemp_l. f_equal. lia.
Qed.

#[export] Hint Resolve wrap_u_range wrap_s_range pow2_pos : word.
#[export] Hint Extern 1 (_ < _) => lia : word.
#[export] Hint Extern 1 (_ <= _) => lia : word.
