(* ===== verification/Units.v ===== *)
(** Packet units (src/internal_modules/roc_packet/units.h): sequence numbers,
    stream timestamps and block numbers, which wrap, and the order on them.

    The four families of the header (timestamps and extended sequence numbers at
    32 bits, sequence numbers and block numbers at 16) are the same comparison at
    two widths, so their theory is developed once, over the circle of [2^w]
    points, in [Section Circle]. *)

From S2P Require Import Prelude.

(** * The operations *)

Definition stream_timestamp_diff (a b : Z) : Z := s32 (u32 (a - b)).

Definition stream_timestamp_lt (a b : Z) : bool := stream_timestamp_diff a b <? 0.

Definition stream_timestamp_le (a b : Z) : bool := stream_timestamp_diff a b <=? 0.

Definition seqnum_diff (a b : Z) : Z := s16 (a - b).

Definition seqnum_lt (a b : Z) : bool := seqnum_diff a b <? 0.

Definition seqnum_le (a b : Z) : bool := seqnum_diff a b <=? 0.

Definition ext_seqnum_diff (a b : Z) : Z := s32 (u32 (a - b)).

Definition ext_seqnum_lt (a b : Z) : bool := ext_seqnum_diff a b <? 0.

Definition ext_seqnum_le (a b : Z) : bool := ext_seqnum_diff a b <=? 0.

Definition blknum_diff (a b : Z) : Z := s16 (a - b).

Definition blknum_lt (a b : Z) : bool := blknum_diff a b <? 0.

Definition blknum_le (a b : Z) : bool := blknum_diff a b <=? 0.

(** * Signed distance on a circle of [2^w] points *)

Section Circle.

Context (w : Z) (Hw : 1 < w).

Definition circle_diff (a b : Z) : Z := wrap_s w (a - b).

Lemma circle_diff_range a b : is_s w (circle_diff a b).
Proof using Hw. apply wrap_s_range. lia. Qed.

Lemma circle_diff_refl a : circle_diff a a = 0.
Proof using Hw.
  unfold circle_diff. rewrite Z.sub_diag, wrap_s_small; [done|lia|].
  pose proof (pow2_pos (w - 1) ltac:(lia)). unfold is_s. lia.
Qed.

(** Advancing by [d] and measuring the distance gives [d] back, wherever on the
    circle one starts and whether or not the counter wraps on the way. *)
Lemma circle_diff_advance a d : is_s w d -> circle_diff (wrap_u w (a + d)) a = d.
Proof using Hw. intros Hd. apply wrap_s_add_wrap; [lia|done]. Qed.

Lemma circle_diff_zero_iff a b : is_u w a -> is_u w b -> circle_diff a b = 0 <-> a = b.
Proof using Hw.
  intros Ha Hb. split; [|intros ->; apply circle_diff_refl].
  unfold circle_diff. intros E.
  destruct (wrap_s_multiple w (a - b)) as [k Hk]; [lia|].
  unfold is_u in *. assert (k = 0) by nia. lia.
Qed.

(** The distance is antisymmetric except between antipodes. *)
Lemma circle_diff_antisym a b :
  circle_diff a b <> - 2 ^ (w - 1) -> circle_diff b a = - circle_diff a b.
Proof using Hw.
  intros Hne. pose proof (circle_diff_range a b) as Hr. unfold circle_diff in *.
  destruct (wrap_s_multiple w (a - b)) as [k Hk]; [lia|].
  apply wrap_s_unique with k; [lia|unfold is_s in *; lia|lia].
Qed.

(** Distances add up as long as the sum is representable. *)
Lemma circle_diff_triangle a b c :
  is_s w (circle_diff a b + circle_diff b c) ->
  circle_diff a c = circle_diff a b + circle_diff b c.
Proof using Hw.
  intros Hs. unfold circle_diff in *.
  destruct (wrap_s_multiple w (a - b)) as [k1 H1]; [lia|].
  destruct (wrap_s_multiple w (b - c)) as [k2 H2]; [lia|].
  apply wrap_s_unique with (- (k1 + k2)); [lia|done|lia].
Qed.

(** A set of points is [windowed] when they all lie less than a quarter turn from
    a reference point: inside one, "before" is a strict total order. *)
Definition in_window (r a : Z) : Prop :=
  - 2 ^ (w - 2) <= circle_diff a r < 2 ^ (w - 2).

Lemma window_diff r a b :
  in_window r a -> in_window r b ->
  circle_diff a b = circle_diff a r - circle_diff b r.
Proof using Hw.
  unfold in_window. intros Ha Hb.
  assert (2 ^ (w - 1) = 2 * 2 ^ (w - 2)) as E
    by (rewrite <- Z.pow_succ_r by lia; f_equal; lia).
  pose proof (pow2_pos (w - 2) ltac:(lia)).
  assert (circle_diff r b = - circle_diff b r) as Hrb
    by (apply circle_diff_antisym; lia).
  rewrite (circle_diff_triangle a r b); [lia|]. rewrite Hrb. unfold is_s. rewrite E. lia.
Qed.

Lemma window_lt_trans r a b c :
  in_window r a -> in_window r b -> in_window r c ->
  circle_diff a b < 0 -> circle_diff b c < 0 -> circle_diff a c < 0.
Proof using Hw.
  intros Ha Hb Hc. rewrite (window_diff r a b), (window_diff r b c), (window_diff r a c) by done.
  lia.
Qed.

Lemma window_antisym r a b :
  in_window r a -> in_window r b -> circle_diff b a = - circle_diff a b.
Proof using Hw. intros. rewrite (window_diff r a b), (window_diff r b a) by done. lia. Qed.

End Circle.

Lemma wrap_s_u32 z : s32 (u32 z) = s32 z.
Proof. apply wrap_s_of_cong; [lia|]. apply wrap_u_cong. Qed.

Lemma stream_timestamp_diff_circle a b :
  stream_timestamp_diff a b = circle_diff 32 a b.
Proof. apply wrap_s_u32. Qed.

Lemma ext_seqnum_diff_circle a b : ext_seqnum_diff a b = circle_diff 32 a b.
Proof. apply wrap_s_u32. Qed.

#[export] Hint Rewrite stream_timestamp_diff_circle ext_seqnum_diff_circle : circle.

(** Within any window of half the 16-bit range, [seqnum_lt] is a strict total order that
    does not depend on where the counter wraps, and a sequence number advanced by 1 to
    32767 is always after the original one. *)
Lemma seqnum_window_order (r a b c : Z) :
  is_u 16 a -> is_u 16 b ->
  in_window 16 r a -> in_window 16 r b -> in_window 16 r c ->
  seqnum_lt a a = false
  /\ (seqnum_lt a b = true -> seqnum_lt b c = true -> seqnum_lt a c = true)
  /\ (a = b \/ seqnum_lt a b = true /\ seqnum_lt b a = false
      \/ seqnum_lt b a = true /\ seqnum_lt a b = false)
  /\ (forall d, 1 <= d < 2 ^ 15 -> seqnum_lt a (u16 (a + d)) = true).
Proof.
  intros Ua Ub Wa Wb Wc. unfold seqnum_lt. change seqnum_diff with (circle_diff 16).
  rewrite !Z.ltb_lt, !Z.ltb_ge.
  rewrite (circle_diff_refl 16) by lia. repeat split; [lia| | |].
  - apply window_lt_trans with r; done || lia.
  - rewrite (window_antisym 16 ltac:(lia) r a b) by done.
    pose proof (circle_diff_zero_iff 16 ltac:(lia) a b Ua Ub).
    destruct (Z.lt_trichotomy (circle_diff 16 a b) 0) as [|[|]]; intuition lia.
  - intros d Hd. rewrite Z.ltb_lt.
    rewrite (circle_diff_antisym 16 ltac:(lia) (u16 (a + d)) a);
      rewrite circle_diff_advance; unfold is_s; lia.
Qed.

(** C35: for sequence numbers that are less than half of the 16-bit range apart, before
    they are cut to 16 bits, [seqnum_diff] is their true distance, and [seqnum_lt] and
    [seqnum_le] compare them as they are compared without wrapping. *)
Theorem seqnum_order (x y : Z) :
  - 2 ^ 15 <= x - y < 2 ^ 15 ->
  seqnum_diff (u16 x) (u16 y) = x - y
  /\ seqnum_lt (u16 x) (u16 y) = (x <? y) /\ seqnum_le (u16 x) (u16 y) = (x <=? y).
Proof.
  intros Hxy. assert (seqnum_diff (u16 x) (u16 y) = x - y) as E.
  { unfold seqnum_diff. rewrite <- (wrap_s_small 16 (x - y)) by (unfold is_s; lia).
    unfold wrap_s, wrap_u. f_equal. rewrite Zplus_mod, Zminus_mod_idemp_l, Zminus_mod_idemp_r.
    by rewrite <- Zplus_mod. }
  unfold seqnum_lt, seqnum_le. rewrite E. split_and!; [done| |].
  - apply eq_true_iff_eq. rewrite !Z.ltb_lt. lia.
  - apply eq_true_iff_eq. rewrite !Z.leb_le. lia.
Qed.

Lemma seqnum_order_witness :
  seqnum_diff 1 65535 = 2 /\ seqnum_lt 65535 1 = true /\ seqnum_le 1 65535 = false.
Proof.
  destruct (seqnum_order 65537 65535) as (H1 & _ & H2); [lia|].
  destruct (seqnum_order 65535 65537) as (_ & H3 & _); [lia|].
  exact (conj H1 (conj H3 H2)).
Defined.
