(* ===== verification/Ntp.v ===== *)
(** NTP timestamps (src/internal_modules/roc_packet/ntp.cpp): conversion between
    nanoseconds since the Unix epoch and 64-bit NTP timestamps, across the NTP
    era change of 2036. *)

From S2P Require Import Prelude.
From Stdlib Require Import Btauto.

(** src/internal_modules/roc_core/time.h *)
Definition Second : Z := 1000000000.

Definition UnixEpoch : Z := u64 (70 * 365 + 17) * (24 * 3600).

Definition Era1 : Z :=
  u64 (66 * 365 + 16 + 37) * (24 * 3600) + 6 * 3600 + 28 * 60 + 16.

Definition bits_pack (hi lo : Z) : Z := Z.lor (u64 (Z.shiftl hi 32)) lo.

Definition bits_unpack (value : Z) : Z * Z :=
  (u32 (Z.shiftr (Z.land value 0xffffffff00000000) 32),
   u32 (Z.land value 0xffffffff)).

Definition nanoseconds_2_ntp (ns_delta : Z) : res Z :=
  panic_if (ns_delta <? 0)
    (let seconds := u64 ns_delta / Second in
     let nans := u64 (u64 ns_delta - u64 (seconds * Second)) in
     let fraction := u64 (Z.shiftl nans 32) / Second in
     Ok (bits_pack (u32 seconds) (u32 fraction))).

Definition ntp_2_nanoseconds (ntp_delta : Z) : Z :=
  let '(hi, lo) := bits_unpack ntp_delta in
  let seconds := hi in
  let nans := Z.shiftr (s64 (lo * Second)) 32 in
  s64 (seconds * Second + nans).

Definition unix_2_ntp (unix_time : Z) : res Z :=
  if unix_time <? Era1 * Second then
    nanoseconds_2_ntp (s64 (unix_time + UnixEpoch * Second))
  else
    nanoseconds_2_ntp (s64 (unix_time - Era1 * Second)).

Definition ntp_2_unix (ntp_time : Z) : Z :=
  if negb (Z.land ntp_time 0x8000000000000000 =? 0) then
    let unix_epoch_ntp := u64 (Z.shiftl UnixEpoch 32) in
    if ntp_time <? unix_epoch_ntp then
      s64 (- ntp_2_nanoseconds (u64 (unix_epoch_ntp - ntp_time)))
    else
      ntp_2_nanoseconds (u64 (ntp_time - unix_epoch_ntp))
  else
    let era1_ntp := u64 (Z.shiftl Era1 32) in
    ntp_2_nanoseconds (u64 (ntp_time + era1_ntp)).

(** * Closed forms *)

Lemma bits_pack_eq hi lo : is_u 32 hi -> is_u 32 lo -> bits_pack hi lo = hi * 2 ^ 32 + lo.
Proof.
  unfold is_u, bits_pack. intros Hh Hl. rewrite Z.shiftl_mul_pow2 by lia.
  rewrite wrap_u_small by (unfold is_u; lia).
  rewrite <- Z.lxor_lor, <- Z.add_nocarry_lxor; [lia| |];
    apply Z.bits_inj'; intros n Hn; rewrite Z.land_spec, Z.bits_0;
    (destruct (Z.lt_ge_cases n 32);
     [rewrite Z.mul_pow2_bits_low by lia; done|]);
    rewrite <- (Z.mod_small lo (2 ^ 32)), Z.mod_pow2_bits_high by lia;
    apply andb_false_r.
Qed.

Lemma bits_unpack_eq v : is_u 64 v -> bits_unpack v = (v / 2 ^ 32, v mod 2 ^ 32).
Proof.
  unfold is_u, bits_unpack. intros Hv.
  assert (Z.land v 0xffffffff = v mod 2 ^ 32) as ->
    by (rewrite <- (Z.land_ones v 32) by lia; done).
  assert (Z.shiftr (Z.land v 0xffffffff00000000) 32 = v / 2 ^ 32) as ->.
  { rewrite Z.shiftr_land, Z.shiftr_div_pow2 by lia.
    change (Z.shiftr 0xffffffff00000000 32) with (Z.ones 32).
    rewrite Z.land_ones by lia. apply Z.mod_small. zlia. }
  rewrite !wrap_u_small; unfold is_u; [done|zlia|zlia].
Qed.

Lemma top_bit_set v : is_u 64 v -> negb (Z.land v 0x8000000000000000 =? 0) = (2 ^ 63 <=? v).
Proof.
  unfold is_u. intros Hv.
  assert (Z.land v 0x8000000000000000 = (v / 2 ^ 63) * 2 ^ 63) as ->.
  { change 0x8000000000000000 with (Z.shiftl 1 63).
    rewrite <- (Z.shiftl_mul_pow2 (v / 2 ^ 63) 63), <- Z.shiftr_div_pow2 by lia.
    apply Z.bits_inj'; intros n Hn. rewrite Z.land_spec, !Z.shiftl_spec by lia.
    destruct (Z.lt_ge_cases n 63); [rewrite !(Z.testbit_neg_r _ (n - 63)) by lia; btauto|].
    rewrite Z.shiftr_spec by lia. replace (n - 63 + 63) with n by lia.
    destruct (decide (n = 63)) as [->|]; [rewrite andb_true_r; done|].
    rewrite <- (Z.mod_small v (2 ^ 64)), Z.mod_pow2_bits_high by lia. done. }
  destruct (2 ^ 63 <=? v) eqn:E; reflect_bools.
  - apply negb_true_iff, Z.eqb_neq. zlia.
  - apply negb_false_iff, Z.eqb_eq. zlia.
Qed.

(** Seen as rationals, the conversions are multiplications by [2^32 / 10^9] and
    back, each rounded down. *)
Lemma nanoseconds_2_ntp_eq ns :
  0 <= ns < 2 ^ 32 * Second -> nanoseconds_2_ntp ns = Ok (ns * 2 ^ 32 / Second).
Proof.
  unfold nanoseconds_2_ntp, panic_if, Second. intros Hns.
  rewrite (proj2 (Z.ltb_ge _ _)) by lia.
  rewrite (wrap_u_small 64 ns) by (unfold is_u; lia).
  rewrite (wrap_u_small 64 (_ * _)) by (unfold is_u; zlia).
  rewrite (wrap_u_small 64 (ns - _)) by (unfold is_u; zlia).
  rewrite Z.shiftl_mul_pow2 by lia.
  rewrite (wrap_u_small 64 (_ * _)) by (unfold is_u; zlia).
  rewrite !(wrap_u_small 32) by (unfold is_u; zlia).
  rewrite bits_pack_eq by (unfold is_u; zlia). f_equal. zlia.
Qed.

Lemma ntp_2_nanoseconds_eq v : is_u 64 v -> ntp_2_nanoseconds v = v * Second / 2 ^ 32.
Proof.
  intros Hv. unfold ntp_2_nanoseconds. rewrite bits_unpack_eq by done.
  unfold is_u, Second in *. cbv beta iota zeta.
  rewrite (wrap_s_small 64 (_ * 1000000000)) by (done || (unfold is_s; zlia)).
  rewrite Z.shiftr_div_pow2 by lia.
  rewrite wrap_s_small by (done || (unfold is_s; zlia)). zlia.
Qed.

(** Converting a Unix time between 20 Jan 1968 and 26 Feb 2104 to NTP and back never
    panics and loses at most one nanosecond, rounding down; the two NTP eras are
    told apart by the top bit of the timestamp. *)
Theorem ntp_unix_roundtrip (t : Z) :
  (2 ^ 31 - UnixEpoch) * Second <= t < (Era1 + 2 ^ 31) * Second ->
  exists n, unix_2_ntp t = Ok n /\ is_u 64 n /\ t - 1 <= ntp_2_unix n <= t.
Proof.
  unfold unix_2_ntp, UnixEpoch, Era1, wrap_u. intros Ht.
  change ((66 * 365 + 16 + 37) mod 2 ^ 64) with 24143 in *.
  change ((70 * 365 + 17) mod 2 ^ 64) with 25567 in *.
  unfold Second in *. simpl Z.mul in Ht. simpl Z.sub in Ht.
  destruct (Z.ltb_spec t ((24143 * (24 * 3600) + 6 * 3600 + 28 * 60 + 16) * 1000000000)).
  - rewrite wrap_s_small by (done || (unfold is_s; lia)).
    rewrite nanoseconds_2_ntp_eq by (unfold Second; lia).
    eexists; split; [done|]. unfold Second.
    assert (2 ^ 63 <= (t + 25567 * (24 * 3600) * 1000000000) * 2 ^ 32 / 1000000000 < 2 ^ 64)
      as Hn by zlia.
    set (n := _ / _) in *. assert (is_u 64 n) by (unfold is_u; lia).
    split; [done|]. unfold ntp_2_unix. rewrite top_bit_set by done.
    rewrite (proj2 (Z.leb_le _ _)) by lia.
    change (u64 (Z.shiftl UnixEpoch 32)) with (2208988800 * 2 ^ 32). cbv zeta.
    destruct (Z.ltb_spec n (2208988800 * 2 ^ 32)).
    + rewrite (wrap_u_small 64), ntp_2_nanoseconds_eq by (unfold is_u in *; lia).
      unfold Second. rewrite wrap_s_small by (done || (unfold is_s; zlia)). subst n. zlia.
    + rewrite (wrap_u_small 64), ntp_2_nanoseconds_eq by (unfold is_u in *; lia).
      unfold Second. subst n. zlia.
  - rewrite wrap_s_small by (done || (unfold is_s; lia)).
    rewrite nanoseconds_2_ntp_eq by (unfold Second; lia).
    eexists; split; [done|]. unfold Second.
    match goal with |- context [is_u 64 ?x] => set (n := x) end.
    assert (0 <= n < 2 ^ 63) as Hn by (subst n; zlia).
    assert (is_u 64 n) by (unfold is_u; lia).
    split; [done|]. unfold ntp_2_unix. rewrite top_bit_set by done.
    rewrite (proj2 (Z.leb_gt _ _)) by lia.
    change (u64 (Z.shiftl Era1 32)) with (2085978496 * 2 ^ 32). cbv zeta.
    rewrite (wrap_u_small 64), ntp_2_nanoseconds_eq by (unfold is_u in *; lia).
    unfold Second. subst n. zlia.
Qed.

Lemma ntp_unix_roundtrip_witness :
  exists n, unix_2_ntp 1700000000123456789 = Ok n
    /\ is_u 64 n /\ 1700000000123456788 <= ntp_2_unix n <= 1700000000123456789.
Proof. apply (ntp_unix_roundtrip 1700000000123456789). closed. Defined.
