(* ===== verification/Float32.v ===== *)
(** Conversions between stream timestamps and durations
    (src/internal_modules/roc_packet/units.cpp), which compute in [float].

    A [float] is the rational it stands for.  Every operation rounds its exact result to
    the nearest number with 24 significant bits, ties to even, as IEEE 754 binary32 does in
    the range of the normal numbers; the conversions stay in that range, since they only
    multiply and divide 64-bit integers.  Converting a [float] to an integer type that
    cannot hold it is undefined, here [Panic]. *)

From Stdlib Require Import QArith Qabs Qround.
From S2P Require Import Prelude Ntp.

#[local] Open Scope Z_scope.

(** * Rounding *)

(** The integer nearest to [n / d]. *)
Definition round_half_even (n d : Z) : Z :=
  let q := n / d in
  let r := n mod d in
  if 2 * r <? d then q
  else if d <? 2 * r then q + 1
  else if Z.even q then q else q + 1.

(** The exponent of the last of 24 significant bits of [a / d]. *)
Definition ulp_exponent (a d : Z) : Z :=
  let k := Z.log2 a - Z.log2 d in
  let below := if 0 <=? k then a <? d * 2 ^ k else a * 2 ^ (- k) <? d in
  (if below then k - 1 else k) - 23.

(** [m * 2 ^ e] *)
Definition f32_value (m e : Z) : Q :=
  if 0 <=? e then Qmake (m * 2 ^ e) 1 else Qmake m (Z.to_pos (2 ^ (- e))).

Definition round_f32 (q : Q) : Q :=
  let a := Z.abs (Qnum q) in
  let d := Zpos (Qden q) in
  if a =? 0 then 0%Q
  else
    let e := ulp_exponent a d in
    let m := if 0 <=? e then round_half_even a (d * 2 ^ e)
             else round_half_even (a * 2 ^ (- e)) d in
    f32_value (Z.sgn (Qnum q) * m) e.

Definition f32_of_Z (z : Z) : Q := round_f32 (inject_Z z).

Definition f32_div (x y : Q) : Q := round_f32 (x / y).

Definition f32_mul (x y : Q) : Q := round_f32 (x * y).

(** [roundf]: halves away from zero; the result is an integer. *)
Definition roundf (x : Q) : Z :=
  Z.sgn (Qnum x) * ((2 * Z.abs (Qnum x) + Zpos (Qden x)) / (2 * Zpos (Qden x))).

(** * Conversions *)

(** A [float] limit of an integer type. *)
Definition f32_limit (z : Z) : Z := Qfloor (f32_of_Z z).

Definition ns_2_stream_timestamp (ns sample_rate : Z) : res Z :=
  panic_if (ns <? 0)
    (panic_if (sample_rate =? 0)
       (let ts := roundf (f32_mul (f32_div (f32_of_Z ns) (f32_of_Z Second))
                            (f32_of_Z sample_rate)) in
        let ts := Z.min ts (f32_limit (2 ^ 32 - 1)) in
        let ts := Z.max ts (f32_limit 0) in
        panic_if (negb (bool_decide (is_u 32 ts))) (Ok ts))).

Definition stream_timestamp_2_ns (ts sample_rate : Z) : res Z :=
  panic_if (sample_rate =? 0)
    (let ns := roundf (f32_mul (f32_div (f32_of_Z ts) (f32_of_Z sample_rate))
                         (f32_of_Z Second)) in
     panic_if (negb (bool_decide (is_s 64 ns))) (Ok ns)).

Definition ns_2_stream_timestamp_delta (ns sample_rate : Z) : res Z :=
  panic_if (sample_rate =? 0)
    (let ts := roundf (f32_mul (f32_div (f32_of_Z ns) (f32_of_Z Second))
                         (f32_of_Z sample_rate)) in
     let ts := Z.min ts (f32_limit (2 ^ 31 - 1)) in
     let ts := Z.max ts (f32_limit (- 2 ^ 31)) in
     panic_if (negb (bool_decide (is_s 32 ts))) (Ok ts)).

Definition stream_timestamp_delta_2_ns (ts sample_rate : Z) : res Z :=
  panic_if (sample_rate =? 0)
    (let ns := roundf (f32_mul (f32_div (f32_of_Z ts) (f32_of_Z sample_rate))
                         (f32_of_Z Second)) in
     panic_if (negb (bool_decide (is_s 64 ns))) (Ok ns)).

(** * Ranges *)

(** [0 <= q <= 2 ^ k] *)
Definition below (k : Z) (q : Q) : Prop := 0 <= Qnum q <= 2 ^ k * Zpos (Qden q).

Lemma below_inject k z : 0 <= z <= 2 ^ k -> below k (inject_Z z).
Proof. unfold below. simpl. lia. Qed.

Lemma round_half_even_le n d z : 0 < d -> n <= z * d -> round_half_even n d <= z.
Proof.
  intros Hd Hn. unfold round_half_even.
  pose proof (Z.div_mod n d ltac:(lia)). pose proof (Z.mod_pos_bound n d Hd).
  assert (n / d <= z) by (apply Z.div_le_upper_bound; lia).
  destruct (Z.eq_dec (n / d) z) as [E|].
  - replace (n mod d) with 0 by nia. case_if; lia.
  - repeat case_if; lia.
Qed.

Lemma round_half_even_nonneg n d : 0 < d -> 0 <= n -> 0 <= round_half_even n d.
Proof.
  intros Hd Hn. unfold round_half_even.
  pose proof (Z.div_pos n d Hn Hd). repeat case_if; lia.
Qed.

(** [2 ^ (e + 23) <= a / d] *)
Lemma ulp_exponent_low a d :
  0 < a -> 0 < d ->
  let e := ulp_exponent a d + 23 in
  if 0 <=? e then d * 2 ^ e <= a else d <= a * 2 ^ (- e).
Proof.
  intros Ha Hd. unfold ulp_exponent.
  pose proof (Z.log2_spec a Ha) as [La _]. pose proof (Z.log2_spec d Hd) as [_ Ld].
  pose proof (Z.log2_nonneg a) as Na. pose proof (Z.log2_nonneg d) as Nd.
  set (la := Z.log2 a) in *. set (ld := Z.log2 d) in *.
  cbv zeta. rewrite Z.sub_add.
  assert (forall j, 0 <= j -> 2 ^ (Z.succ j) = 2 * 2 ^ j) as Hs
    by (intros; rewrite Z.pow_succ_r by lia; lia).
  destruct (0 <=? la - ld) eqn:E1; reflect_bools.
  - destruct (a <? d * 2 ^ (la - ld)) eqn:E; reflect_bools.
    + destruct (0 <=? la - ld - 1) eqn:E2; reflect_bools.
      * assert (2 ^ la = 2 ^ (Z.succ ld) * 2 ^ (la - ld - 1)) as Hla
          by (rewrite <- Z.pow_add_r by lia; f_equal; lia).
        transitivity (2 ^ la); [|done]. rewrite Hla.
        apply Z.mul_le_mono_nonneg_r; [apply Z.pow_nonneg|]; lia.
      * assert (la = ld) as Hll by lia. replace (- (la - ld - 1)) with 1 by lia.
        rewrite Hll in *. rewrite Hs in Ld by lia. lia.
    + rewrite (proj2 (Z.leb_le 0 (la - ld))) by lia. lia.
  - destruct (a * 2 ^ (- (la - ld)) <? d) eqn:E; reflect_bools.
    + rewrite (proj2 (Z.leb_gt 0 (la - ld - 1))) by lia.
      assert (2 ^ (Z.succ ld) = 2 ^ la * 2 ^ (- (la - ld - 1))) as Hl
        by (rewrite <- Z.pow_add_r by lia; f_equal; lia).
      assert (0 < 2 ^ (- (la - ld - 1))) by (apply Z.pow_pos_nonneg; lia). nia.
    + rewrite (proj2 (Z.leb_gt 0 (la - ld))) by lia. lia.
Qed.

Lemma ulp_exponent_le a d k :
  0 < a -> 0 < d -> 0 <= k -> a <= 2 ^ k * d -> ulp_exponent a d <= k.
Proof.
  intros Ha Hd Hk Hle. pose proof (ulp_exponent_low a d Ha Hd) as He. cbv zeta in He.
  destruct (Z.le_gt_cases (ulp_exponent a d) k) as [|Hgt]; [done|exfalso].
  rewrite (proj2 (Z.leb_le 0 (ulp_exponent a d + 23))) in He by lia.
  assert (2 ^ k < 2 ^ (ulp_exponent a d + 23)) by (apply Z.pow_lt_mono_r; lia). nia.
Qed.

Lemma f32_value_below k m e :
  e <= k -> 0 <= k -> 0 <= m <= 2 ^ (k - e) -> below k (f32_value m e).
Proof.
  intros Hek Hk Hm. unfold below, f32_value. case_if; simpl.
  - assert (2 ^ k = 2 ^ (k - e) * 2 ^ e) as -> by (rewrite <- Z.pow_add_r by lia; f_equal; lia).
    assert (0 < 2 ^ e) by (apply Z.pow_pos_nonneg; lia). nia.
  - rewrite Z2Pos.id by (apply Z.pow_pos_nonneg; lia).
    rewrite <- Z.pow_add_r by lia. by replace (k + - e) with (k - e) by lia.
Qed.

Lemma round_f32_below k q : 0 <= k -> below k q -> below k (round_f32 q).
Proof.
  intros Hk [Hn Hle]. unfold round_f32. rewrite Z.abs_eq by done. case_if.
  { unfold below. simpl. pose proof (Z.pow_pos_nonneg 2 k ltac:(lia) Hk). lia. }
  set (a := Qnum q) in *. set (d := Zpos (Qden q)) in *.
  assert (0 < d) as Hd by done. assert (0 < a) as Ha by lia.
  pose proof (ulp_exponent_le a d k Ha Hd Hk Hle) as He.
  set (e := ulp_exponent a d) in *. rewrite Z.sgn_pos, Z.mul_1_l by done.
  apply f32_value_below; [done..|].
  assert (forall j, 0 <= j -> 0 < 2 ^ j) as Hp by (intros; apply Z.pow_pos_nonneg; lia).
  case_if.
  - pose proof (Hp e ltac:(lia)). split; [apply round_half_even_nonneg; nia|].
    apply round_half_even_le; [nia|].
    assert (2 ^ k = 2 ^ (k - e) * 2 ^ e) as Hke by (rewrite <- Z.pow_add_r by lia; f_equal; lia).
    rewrite Hke in Hle. lia.
  - pose proof (Hp (- e) ltac:(lia)). split; [apply round_half_even_nonneg; nia|].
    apply round_half_even_le; [done|].
    replace (k - e) with (k + - e) by lia. rewrite Z.pow_add_r by lia. nia.
Qed.

Lemma roundf_below k q : 0 <= k -> below k q -> 0 <= roundf q <= 2 ^ k.
Proof.
  intros Hk [Hn Hle]. unfold roundf. rewrite Z.abs_eq by done.
  pose proof (Z.pow_pos_nonneg 2 k ltac:(lia) Hk).
  set (d := Zpos (Qden q)) in *. assert (0 < d) as Hd by done.
  destruct (Z.eq_dec (Qnum q) 0) as [->|]; [simpl; lia|]. rewrite Z.sgn_pos by lia.
  rewrite Z.mul_1_l. split; [apply Z.div_pos; lia|].
  apply Z.lt_succ_r, Z.div_lt_upper_bound; lia.
Qed.

(** Dividing by a number that is at least one. *)
Definition at_least_one (q : Q) : Prop := Zpos (Qden q) <= Qnum q.

Lemma below_div k x y : below k x -> at_least_one y -> below k (x / y).
Proof.
  unfold below, at_least_one, Qdiv, Qinv. intros [Hx0 Hx] Hy.
  destruct y as [[|yn|yn] yd]; simpl in *; try lia.
  rewrite Pos2Z.inj_mul. set (p := 2 ^ k) in *. clearbody p. destruct x as [xn xd]. simpl in *.
  split; [lia|]. transitivity (xn * Z.pos yn); nia.
Qed.

Lemma below_mul j k x y : 0 <= j -> 0 <= k -> below j x -> below k y -> below (j + k) (x * y).
Proof.
  unfold below. intros Hj Hk [Hx0 Hx] [Hy0 Hy]. rewrite Z.pow_add_r by done. destruct x, y. simpl in *.
  rewrite Pos2Z.inj_mul. split; [lia|].
  transitivity ((2 ^ j * Z.pos Qden) * (2 ^ k * Z.pos Qden0)); [apply Z.mul_le_mono_nonneg; lia|lia].
Qed.

Lemma round_half_even_ge n d z : 0 < d -> z * d <= n -> z <= round_half_even n d.
Proof.
  intros Hd Hn. unfold round_half_even.
  assert (z <= n / d) by (apply Z.div_le_lower_bound; lia). repeat case_if; lia.
Qed.

Lemma f32_of_Z_at_least_one z : 1 <= z -> at_least_one (f32_of_Z z).
Proof.
  intros Hz. unfold f32_of_Z, round_f32, inject_Z. cbn [Qnum Qden]. rewrite Z.abs_eq by lia.
  case_if; [lia|]. pose proof (ulp_exponent_low z 1 ltac:(lia) ltac:(lia)) as Hl. cbv zeta in Hl.
  set (e := ulp_exponent z 1) in *. rewrite Z.sgn_pos, Z.mul_1_l by lia.
  unfold at_least_one, f32_value. case_if; simpl.
  - rewrite (proj2 (Z.leb_le 0 (e + 23))) in Hl by lia.
    assert (1 <= round_half_even z (1 * 2 ^ e)).
    { apply round_half_even_ge; [assert (0 < 2 ^ e) by (apply Z.pow_pos_nonneg; lia); lia|].
      assert (2 ^ e <= 2 ^ (e + 23)) by (apply Z.pow_le_mono_r; lia). lia. }
    assert (0 < 2 ^ e) by (apply Z.pow_pos_nonneg; lia).
    destruct (1 * 2 ^ e) eqn:?; try lia; nia.
  - rewrite Z2Pos.id by (apply Z.pow_pos_nonneg; lia). apply round_half_even_ge; [lia|].
    assert (0 < 2 ^ (- e)) by (apply Z.pow_pos_nonneg; lia). nia.
Qed.

Lemma f32_of_Z_below k z : 0 <= k -> 0 <= z <= 2 ^ k -> below k (f32_of_Z z).
Proof. intros. by apply round_f32_below, below_inject. Qed.

(** Every timestamp of a stream whose rate is known can be converted. *)
Lemma stream_timestamp_2_ns_ok ts sample_rate :
  is_u 32 ts -> 0 < sample_rate ->
  exists ns, stream_timestamp_2_ns ts sample_rate = Ok ns /\ 0 <= ns <= 2 ^ 62.
Proof.
  intros Hts Hr. unfold stream_timestamp_2_ns, panic_if. rewrite (proj2 (Z.eqb_neq _ _)) by lia.
  set (ns := roundf _). assert (0 <= ns <= 2 ^ 62) as Hns.
  { apply (roundf_below (32 + 30)); [lia|]. apply round_f32_below; [lia|].
    apply below_mul; [lia..| |by apply f32_of_Z_below].
    apply round_f32_below; [lia|]. apply below_div; [|apply f32_of_Z_at_least_one; lia].
    apply f32_of_Z_below; [lia|]. unfold is_u in Hts. lia. }
  exists ns. rewrite bool_decide_true by (unfold is_s; lia). done.
Qed.
