(* ===== verification/Bytes.v ===== *)
(** Byte order and raw memory (src/internal_modules/roc_core/endian_ops.{h,cpp},
    endian.h): the conversions between host and network byte order that every
    header accessor goes through, and the byte memory the accessors read and write.

    A wire header in the source is a packed struct laid over a byte buffer: its
    integer members are loaded and stored in the byte order of the CPU and passed
    through [ntoh*] and [hton*].  [load]/[store] model the CPU's accesses at either
    byte order; the theorems show that the composition is the big-endian (network)
    encoding whatever the CPU is. *)

From S2P Require Import Prelude.

(** * EndianOps *)

(** [ROC_CPU_ENDIAN] *)
Inductive cpu_endian : Type := CPU_LE | CPU_BE.

#[global] Instance cpu_endian_eq_dec : EqDecision cpu_endian.
Proof. solve_decision. Defined.

Definition reverse_octets_16 (v : Z) : Z :=
  Z.lor (u16 (Z.land (u16 (Z.shiftr v 8)) 0xff))
        (u16 (Z.shiftl (Z.land v 0xff) 8)).

Definition reverse_octets_32 (v : Z) : Z :=
  Z.lor (Z.lor (Z.lor (Z.shiftr (Z.land v 0xff000000) 24)
                      (Z.shiftr (Z.land v 0x00ff0000) 8))
               (u32 (Z.shiftl (Z.land v 0x0000ff00) 8)))
        (u32 (Z.shiftl (Z.land v 0x000000ff) 24)).

Definition reverse_octets_64 (v : Z) : Z :=
  Z.lor (Z.lor (Z.lor (Z.lor (Z.lor (Z.lor (Z.lor
    (Z.shiftr (Z.land v 0xff00000000000000) 56)
    (Z.shiftr (Z.land v 0x00ff000000000000) 40))
    (Z.shiftr (Z.land v 0x0000ff0000000000) 24))
    (Z.shiftr (Z.land v 0x000000ff00000000) 8))
    (u64 (Z.shiftl (Z.land v 0x00000000ff000000) 8)))
    (u64 (Z.shiftl (Z.land v 0x0000000000ff0000) 24)))
    (u64 (Z.shiftl (Z.land v 0x000000000000ff00) 40)))
    (u64 (Z.shiftl (Z.land v 0x00000000000000ff) 56)).

Definition swap_native_be (e : cpu_endian) (reverse : Z -> Z) (v : Z) : Z :=
  match e with CPU_BE => v | CPU_LE => reverse v end.

Definition ntoh16u (e : cpu_endian) (v : Z) : Z := swap_native_be e reverse_octets_16 v.

Definition ntoh32u (e : cpu_endian) (v : Z) : Z := swap_native_be e reverse_octets_32 v.

Definition ntoh64u (e : cpu_endian) (v : Z) : Z := swap_native_be e reverse_octets_64 v.

Definition hton16u (e : cpu_endian) (v : Z) : Z := swap_native_be e reverse_octets_16 v.

Definition hton32u (e : cpu_endian) (v : Z) : Z := swap_native_be e reverse_octets_32 v.

Definition hton64u (e : cpu_endian) (v : Z) : Z := swap_native_be e reverse_octets_64 v.

(** * Byte strings and their values *)

(** A byte buffer: a list of integers in [0, 256). *)
Abbreviation bytes := (list Z).

Definition is_byte (b : Z) : Prop := is_u 8 b.

#[global] Instance is_byte_dec b : Decision (is_byte b).
Proof. unfold is_byte. apply _. Defined.

Fixpoint le_bytes (n : nat) (v : Z) : bytes :=
  match n with
  | O => []
  | S n => v mod 256 :: le_bytes n (v / 256)
  end.

Fixpoint le_value (bs : bytes) : Z :=
  match bs with
  | [] => 0
  | b :: bs => b + 256 * le_value bs
  end.

(** Network byte order. *)
Definition be_bytes (n : nat) (v : Z) : bytes := reverse (le_bytes n v).

Definition be_value (bs : bytes) : Z := le_value (reverse bs).

(** What the CPU does for a load or store of an [n]-byte integer. *)
Definition load (e : cpu_endian) (n : nat) (m : bytes) (off : nat) : Z :=
  let bs := take n (drop off m) in
  match e with CPU_LE => le_value bs | CPU_BE => be_value bs end.

Definition overwrite (m : bytes) (off : nat) (bs : bytes) : bytes :=
  take off m ++ bs ++ drop (off + length bs) m.

Definition store (e : cpu_endian) (n : nat) (m : bytes) (off : nat) (v : Z) : bytes :=
  overwrite m off (match e with CPU_LE => le_bytes n v | CPU_BE => be_bytes n v end).

(** * Lemmas on byte strings *)

Lemma length_le_bytes n v : length (le_bytes n v) = n.
Proof. revert v. induction n; intros; simpl; [done|]. by rewrite IHn. Qed.

Lemma length_be_bytes n v : length (be_bytes n v) = n.
Proof. unfold be_bytes. by rewrite length_reverse, length_le_bytes. Qed.

Lemma le_bytes_Forall n v : Forall is_byte (le_bytes n v).
Proof.
  revert v. induction n; intros; simpl; constructor; [|done].
  unfold is_byte, is_u. zlia.
Qed.

Lemma be_bytes_Forall n v : Forall is_byte (be_bytes n v).
Proof. apply Forall_reverse, le_bytes_Forall. Qed.

Lemma pow2_bytes_S (n : nat) : 2 ^ (8 * Z.of_nat (S n)) = 256 * 2 ^ (8 * Z.of_nat n).
Proof. rewrite Nat2Z.inj_succ, Z.mul_succ_r, Z.pow_add_r by lia. lia. Qed.

Lemma le_value_le_bytes n v : is_u (8 * Z.of_nat n) v -> le_value (le_bytes n v) = v.
Proof.
  unfold is_u. revert v. induction n as [|n IH]; intros v Hv; [simpl in *; lia|].
  rewrite pow2_bytes_S in Hv. simpl. rewrite IH by zlia. zlia.
Qed.

Lemma le_bytes_le_value bs : Forall is_byte bs -> le_bytes (length bs) (le_value bs) = bs.
Proof.
  unfold is_byte, is_u. induction 1 as [|b bs Hb _ IH]; [done|]. simpl.
  f_equal; [zlia|]. transitivity (le_bytes (length bs) (le_value bs)); [|done].
  f_equal. zlia.
Qed.

Lemma le_value_range bs : Forall is_byte bs -> is_u (8 * Z.of_nat (length bs)) (le_value bs).
Proof.
  unfold is_byte, is_u. induction 1 as [|b bs Hb _ IH]; [simpl; lia|].
  simpl length. rewrite pow2_bytes_S. simpl. lia.
Qed.

Lemma be_value_be_bytes n v : is_u (8 * Z.of_nat n) v -> be_value (be_bytes n v) = v.
Proof. unfold be_value, be_bytes. rewrite reverse_involutive. apply le_value_le_bytes. Qed.

Lemma be_value_range bs : Forall is_byte bs -> is_u (8 * Z.of_nat (length bs)) (be_value bs).
Proof.
  intros H. unfold be_value. rewrite <- length_reverse.
  by apply le_value_range, Forall_reverse.
Qed.

Lemma be_bytes_be_value bs : Forall is_byte bs -> be_bytes (length bs) (be_value bs) = bs.
Proof.
  intros H. unfold be_bytes, be_value. rewrite <- (length_reverse bs).
  rewrite le_bytes_le_value by by apply Forall_reverse. apply reverse_involutive.
Qed.

(** * reverse_octets reverses the bytes *)

Lemma land_byte v k : 0 <= k -> Z.land v (Z.shiftl 255 k) = (v / 2 ^ k) mod 256 * 2 ^ k.
Proof.
  intros Hk. change 256 with (2 ^ 8). change 255 with (Z.ones 8).
  rewrite <- Z.land_ones, <- Z.shiftr_div_pow2, <- Z.shiftl_mul_pow2 by lia.
  apply Z.bits_inj'; intros n Hn. rewrite Z.land_spec, !Z.shiftl_spec by lia.
  destruct (Z.lt_ge_cases n k).
  - rewrite !(Z.testbit_neg_r _ (n - k)) by lia. apply andb_false_r.
  - rewrite Z.land_spec, Z.shiftr_spec by lia. do 2 f_equal. lia.
Qed.

Lemma lor_low_high a b k : 0 <= k -> 0 <= a < 2 ^ k -> Z.lor a (b * 2 ^ k) = a + b * 2 ^ k.
Proof.
  intros Hk Ha. rewrite Z.lor_comm, Z.add_comm.
  rewrite <- Z.lxor_lor, <- Z.add_nocarry_lxor; [done| |];
    apply Z.bits_inj'; intros n Hn; rewrite Z.land_spec, Z.bits_0;
    (destruct (Z.lt_ge_cases n k);
     [by rewrite Z.mul_pow2_bits_low by lia|]);
    rewrite <- (Z.mod_small a (2 ^ k)), Z.mod_pow2_bits_high by lia;
    apply andb_false_r.
Qed.

Lemma wrap_u_shift_byte w v k j :
  0 <= k -> 0 <= j -> k + j + 8 <= w ->
  wrap_u w (Z.shiftl (Z.land v (Z.shiftl 255 k)) j) = (v / 2 ^ k) mod 256 * 2 ^ (k + j).
Proof.
  intros Hk Hj Hw. rewrite land_byte, Z.shiftl_mul_pow2 by lia.
  rewrite <- Z.mul_assoc, <- Z.pow_add_r by lia. apply wrap_u_small. unfold is_u.
  pose proof (Z.mod_pos_bound (v / 2 ^ k) 256).
  pose proof (pow2_pos (k + j)). pose proof (Z.pow_le_mono_r 2 (k + j + 8) w).
  rewrite (Z.pow_add_r 2 (k + j) 8) in * by lia. nia.
Qed.

Lemma shiftr_byte v k j :
  0 <= j <= k -> Z.shiftr (Z.land v (Z.shiftl 255 k)) j = (v / 2 ^ k) mod 256 * 2 ^ (k - j).
Proof.
  intros Hk. rewrite land_byte, Z.shiftr_div_pow2 by lia.
  replace (2 ^ k) with (2 ^ (k - j) * 2 ^ j) at 2
    by (rewrite <- Z.pow_add_r by lia; f_equal; lia).
  rewrite Z.mul_assoc. apply Z.div_mul. pose proof (pow2_pos j). lia.
Qed.

(** An integer of n bytes is the little-endian value of n bytes. *)
Lemma le_decompose n v :
  is_u (8 * Z.of_nat n) v ->
  exists bs, length bs = n /\ Forall is_byte bs /\ v = le_value bs.
Proof.
  intros Hv. exists (le_bytes n v).
  rewrite length_le_bytes, le_value_le_bytes by done. auto using le_bytes_Forall.
Qed.

(** The k-th octet of a value, as the masks of the source extract it. *)
Lemma octet_le_value k bs :
  Forall is_byte bs -> (k < length bs)%nat ->
  le_value bs / 2 ^ (8 * Z.of_nat k) mod 256 = bs !!! k.
Proof.
  intros H. revert k. induction H as [|b bs Hb _ IH]; intros k Hk; [simpl in Hk; lia|].
  unfold is_byte, is_u in Hb. destruct k as [|k]; cbn [le_value].
  - change (2 ^ (8 * Z.of_nat 0)) with 1. rewrite Z.div_1_r. simpl. zlia.
  - simpl in Hk. rewrite pow2_bytes_S.
    rewrite <- Z.div_div by (pose proof (pow2_pos (8 * Z.of_nat k)); lia).
    replace ((b + 256 * le_value bs) / 256) with (le_value bs) by zlia.
    apply IH. lia.
Qed.

(** Write a value as its octets [b0], [b1], ... *)
Ltac octets n v Hv :=
  let bs := fresh "bs" in
  destruct (le_decompose n v Hv) as (bs & ? & ? & ->);
  repeat match goal with
  | H : length ?l = S _ |- _ => destruct l; [discriminate H|injection H as H]
  | H : length ?l = O |- _ => apply nil_length_inv in H; subst l
  end;
  repeat match goal with H : Forall is_byte (_ :: _) |- _ => inv H end.

Lemma reverse_octets_16_eq v : is_u 16 v -> reverse_octets_16 v = be_value (le_bytes 2 v).
Proof.
  unfold is_u. intros Hv. unfold reverse_octets_16.
  rewrite (wrap_u_small 16 (Z.shiftr v 8))
    by (unfold is_u; rewrite Z.shiftr_div_pow2 by lia; zlia).
  change 0xff with (Z.shiftl 255 0).
  rewrite (wrap_u_shift_byte 16 v 0 8), land_byte, Z.shiftr_div_pow2 by lia.
  rewrite (wrap_u_small 16) by (unfold is_u; simpl Z.pow; zlia).
  simpl Z.add. rewrite lor_low_high by (simpl Z.pow; zlia).
  unfold be_value. simpl. zlia.
Qed.

Ltac solve_bytes := repeat first [assumption | apply Forall_nil_2 | apply Forall_cons_2].

Ltac reverse_octets :=
  rewrite !shiftr_byte, !wrap_u_shift_byte by lia;
  repeat match goal with
  | |- context [le_value ?bs / 2 ^ ?k mod 256] =>
      let i := eval vm_compute in (Z.to_nat (k / 8)) in
      change (le_value bs / 2 ^ k) with (le_value bs / 2 ^ (8 * Z.of_nat i));
      rewrite (octet_le_value i bs) by (solve [solve_bytes] || (simpl; lia));
      cbn [lookup_total list_lookup_total]
  end;
  match goal with |- context [le_bytes ?n (le_value ?bs)] =>
    change n with (length bs); rewrite le_bytes_le_value by solve_bytes end;
  unfold is_byte, is_u in *;
  repeat match goal with
  | |- context [Z.lor ?a (?b * 2 ^ ?k)] =>
      lazymatch a with
      | context [Z.lor _ _] => fail
      | _ => rewrite (lor_low_high a b k) by (simpl Z.pow; lia)
      end
  end;
  unfold be_value; simpl; lia.

Lemma reverse_octets_32_eq v : is_u 32 v -> reverse_octets_32 v = be_value (le_bytes 4 v).
Proof.
  intros Hv. octets 4%nat v Hv. unfold reverse_octets_32.
  change 0xff000000 with (Z.shiftl 255 24). change 0xff0000 with (Z.shiftl 255 16).
  change 0xff00 with (Z.shiftl 255 8). change 0xff with (Z.shiftl 255 0).
  reverse_octets.
Qed.

Lemma reverse_octets_64_eq v : is_u 64 v -> reverse_octets_64 v = be_value (le_bytes 8 v).
Proof.
  intros Hv. octets 8%nat v Hv. unfold reverse_octets_64.
  change 0xff00000000000000 with (Z.shiftl 255 56).
  change 0xff000000000000 with (Z.shiftl 255 48).
  change 0xff0000000000 with (Z.shiftl 255 40).
  change 0xff00000000 with (Z.shiftl 255 32).
  change 0xff000000 with (Z.shiftl 255 24). change 0xff0000 with (Z.shiftl 255 16).
  change 0xff00 with (Z.shiftl 255 8). change 0xff with (Z.shiftl 255 0).
  reverse_octets.
Qed.

(** * Memory *)

(** The [n] bytes at offset [off]. *)
Definition slice_of (m : bytes) (off n : nat) : bytes := take n (drop off m).

Lemma length_slice_of m off n :
  (off + n <= length m)%nat -> length (slice_of m off n) = n.
Proof. intros. unfold slice_of. rewrite length_take, length_drop. lia. Qed.

Lemma slice_of_Forall P m off n : Forall P m -> Forall P (slice_of m off n).
Proof. intros. by apply Forall_take, Forall_drop. Qed.

Lemma length_overwrite m off bs :
  (off + length bs <= length m)%nat -> length (overwrite m off bs) = length m.
Proof.
  intros. unfold overwrite. rewrite !length_app, length_take, length_drop. lia.
Qed.

Lemma overwrite_Forall P m off bs :
  Forall P m -> Forall P bs -> Forall P (overwrite m off bs).
Proof. intros. unfold overwrite. rewrite !Forall_app. auto using Forall_take, Forall_drop. Qed.

Lemma slice_overwrite_same m off bs :
  (off + length bs <= length m)%nat -> slice_of (overwrite m off bs) off (length bs) = bs.
Proof.
  intros H. unfold slice_of, overwrite.
  rewrite drop_app_ge by (rewrite length_take; lia).
  rewrite length_take. replace (off - off `min` length m)%nat with O by lia.
  rewrite drop_0. apply take_app_length.
Qed.

(** Pointwise view of an overwritten buffer. *)
Lemma lookup_overwrite m off bs i :
  (off + length bs <= length m)%nat ->
  overwrite m off bs !! i =
    if decide (off <= i < off + length bs)%nat then bs !! (i - off)%nat else m !! i.
Proof.
  intros H. unfold overwrite. case_decide.
  - rewrite lookup_app_r, length_take, lookup_app_l by (rewrite ?length_take; lia).
    f_equal. lia.
  - destruct (decide (i < off)%nat).
    + rewrite lookup_app_l, lookup_take_lt by (rewrite ?length_take; lia). done.
    + rewrite lookup_app_r, length_take, lookup_app_r, lookup_drop
        by (rewrite ?length_take; lia).
      f_equal. lia.
Qed.

Lemma slice_overwrite_disjoint m off bs off' n :
  (off + length bs <= length m)%nat ->
  (off' + n <= off \/ off + length bs <= off')%nat ->
  slice_of (overwrite m off bs) off' n = slice_of m off' n.
Proof.
  intros H D. apply list_eq. intros i. unfold slice_of.
  destruct (decide (i < n)%nat); [|rewrite !lookup_take_ge by lia; done].
  rewrite !lookup_take_lt, !lookup_drop, lookup_overwrite by lia.
  rewrite decide_False by lia. done.
Qed.

(** Writing inside a larger slice is writing to the slice. *)
Lemma slice_overwrite_inside m off bs off' n :
  (off' + n <= length m)%nat -> (off' <= off)%nat -> (off + length bs <= off' + n)%nat ->
  slice_of (overwrite m off bs) off' n = overwrite (slice_of m off' n) (off - off') bs.
Proof.
  intros H H1 H2. apply list_eq. intros i.
  rewrite lookup_overwrite by (rewrite length_slice_of; lia). unfold slice_of.
  destruct (decide (i < n)%nat).
  - rewrite !lookup_take_lt, !lookup_drop, lookup_overwrite by lia.
    destruct (decide (off <= off' + i < off + length bs)%nat).
    + rewrite decide_True by lia. f_equal. lia.
    + rewrite decide_False by lia. done.
  - rewrite lookup_take_ge by lia. rewrite decide_False by lia.
    rewrite lookup_take_ge by lia. done.
Qed.

(** Writing into a region that was just written. *)
Lemma overwrite_overwrite m off bs i bs' :
  (off + length bs <= length m)%nat -> (i + length bs' <= length bs)%nat ->
  overwrite (overwrite m off bs) (off + i) bs' = overwrite m off (overwrite bs i bs').
Proof.
  intros H1 H2. apply list_eq. intros j.
  rewrite (lookup_overwrite (overwrite m off bs)), !(lookup_overwrite m);
    rewrite ?length_overwrite; try lia.
  destruct (decide (off + i <= j < off + i + length bs')%nat).
  - rewrite decide_True by lia. rewrite lookup_overwrite by lia.
    rewrite decide_True by lia. f_equal. lia.
  - destruct (decide (off <= j < off + length bs)%nat); [|done].
    rewrite lookup_overwrite by lia. rewrite decide_False by lia. done.
Qed.

(** Consecutive writes are one write. *)
Lemma overwrite_app m off bs bs' :
  (off + length bs + length bs' <= length m)%nat ->
  overwrite (overwrite m off bs) (off + length bs) bs' = overwrite m off (bs ++ bs').
Proof.
  intros H. apply list_eq. intros j.
  rewrite (lookup_overwrite (overwrite m off bs)), !(lookup_overwrite m);
    rewrite ?length_overwrite, ?length_app; try lia.
  destruct (decide (off + length bs <= j < off + length bs + length bs')%nat).
  - rewrite decide_True by lia. rewrite lookup_app_r by lia. f_equal. lia.
  - destruct (decide (off <= j < off + length bs)%nat).
    + rewrite decide_True by lia. by rewrite lookup_app_l by lia.
    + by rewrite decide_False by lia.
Qed.

Lemma overwrite_comm m off bs off' bs' :
  (off + length bs <= length m)%nat -> (off' + length bs' <= length m)%nat ->
  (off + length bs <= off' \/ off' + length bs' <= off)%nat ->
  overwrite (overwrite m off bs) off' bs' = overwrite (overwrite m off' bs') off bs.
Proof.
  intros H H' D. apply list_eq. intros j.
  rewrite !lookup_overwrite; rewrite ?length_overwrite; try lia.
  repeat case_decide; done || lia.
Qed.

Lemma overwrite_nil m off : overwrite m off [] = m.
Proof. unfold overwrite. simpl. rewrite Nat.add_0_r. apply take_drop. Qed.

Lemma slice_of_slice_of m off n i k :
  (i + k <= n)%nat -> slice_of (slice_of m off n) i k = slice_of m (off + i) k.
Proof.
  intros H. apply list_eq. intros j. unfold slice_of.
  destruct (decide (j < k)%nat); [|rewrite !lookup_take_ge by lia; done].
  rewrite !lookup_take_lt, !lookup_drop, lookup_take_lt, lookup_drop by lia. f_equal. lia.
Qed.

(** The two halves of a concatenation. *)
Lemma slice_of_split m d n A B :
  (d + n <= length m)%nat -> slice_of m d n = A ++ B ->
  slice_of m d (length A) = A /\ slice_of m (d + length A) (length B) = B.
Proof.
  intros Hn HW.
  assert (n = (length A + length B)%nat) as ->
    by (rewrite <- length_app, <- HW, length_slice_of; done).
  pose proof (slice_of_slice_of m d (length A + length B) 0 (length A)) as H1.
  rewrite Nat.add_0_r in H1.
  rewrite <- H1, <- (slice_of_slice_of m d (length A + length B) (length A)), HW by lia.
  unfold slice_of. rewrite drop_0, take_app_length, drop_app_length.
  split; [done|apply firstn_all].
Qed.

Lemma lookup_total_slice_of m off n i :
  (i < n)%nat -> slice_of m off n !!! i = m !!! (off + i)%nat.
Proof.
  intros H. rewrite !list_lookup_total_alt. f_equal. unfold slice_of.
  rewrite lookup_take_lt, lookup_drop by done. done.
Qed.

Lemma lookup_total_overwrite m off bs i :
  (off + length bs <= length m)%nat -> (i < length bs)%nat ->
  overwrite m off bs !!! (off + i)%nat = bs !!! i.
Proof.
  intros H Hi. rewrite !list_lookup_total_alt, lookup_overwrite by done.
  rewrite decide_True by lia. do 2 f_equal. lia.
Qed.

Lemma lookup_total_overwrite_0 m off bs :
  (off + length bs <= length m)%nat -> (0 < length bs)%nat ->
  overwrite m off bs !!! off = bs !!! O.
Proof.
  intros. rewrite <- (lookup_total_overwrite m off bs 0) by done. f_equal. lia.
Qed.

Lemma overwrite_overwrite_0 m off bs bs' :
  (off + length bs <= length m)%nat -> (length bs' <= length bs)%nat ->
  overwrite (overwrite m off bs) off bs' = overwrite m off (overwrite bs 0 bs').
Proof.
  intros. rewrite <- overwrite_overwrite by (simpl; lia). f_equal. lia.
Qed.

Lemma slice_of_0_all m : slice_of m 0 (length m) = m.
Proof. unfold slice_of. rewrite drop_0. apply firstn_all. Qed.

(** * Host and network byte order *)

Section Network.

(** One of the three widths: [n] bytes and the [reverse_octets_] of that width. *)
Context (n : nat) (reverse_octets : Z -> Z).
Hypothesis reverse_octets_ok :
  forall v, is_u (8 * Z.of_nat n) v -> reverse_octets v = be_value (le_bytes n v).

Lemma load_net e m off :
  Forall is_byte m -> (off + n <= length m)%nat ->
  swap_native_be e reverse_octets (load e n m off) = be_value (slice_of m off n).
Proof using reverse_octets_ok.
  intros Hm Hoff. unfold load. fold (slice_of m off n).
  pose proof (length_slice_of m off n Hoff) as Hl.
  pose proof (slice_of_Forall is_byte m off n Hm) as Hb.
  destruct e; simpl; [|done]. rewrite reverse_octets_ok.
  - rewrite <- (le_bytes_le_value (slice_of m off n) Hb) at 2. by rewrite Hl.
  - pose proof (le_value_range _ Hb) as Hr. by rewrite Hl in Hr.
Qed.

Lemma store_net e m off v :
  is_u (8 * Z.of_nat n) v ->
  store e n m off (swap_native_be e reverse_octets v) = overwrite m off (be_bytes n v).
Proof using reverse_octets_ok.
  intros Hv. unfold store. destruct e; simpl; [|done]. f_equal.
  rewrite reverse_octets_ok by done. unfold be_bytes, be_value.
  pose proof (le_bytes_le_value (reverse (le_bytes n v))) as Hr.
  rewrite length_reverse, length_le_bytes in Hr.
  apply Hr, Forall_reverse, le_bytes_Forall.
Qed.

End Network.

Definition load16_net := load_net 2 reverse_octets_16 reverse_octets_16_eq.

Definition load32_net := load_net 4 reverse_octets_32 reverse_octets_32_eq.

Definition store16_net := store_net 2 reverse_octets_16 reverse_octets_16_eq.

Definition store32_net := store_net 4 reverse_octets_32 reverse_octets_32_eq.

Definition load64_net := load_net 8 reverse_octets_64 reverse_octets_64_eq.

Definition store64_net := store_net 8 reverse_octets_64 reverse_octets_64_eq.

(** A 16-, 32- or 64-bit field that one machine stores through [hton*] and
    another loads through [ntoh*] arrives unchanged, whatever the byte order of
    either CPU, and the bytes in between are the big-endian encoding. *)
Theorem network_order_interop (e1 e2 : cpu_endian) (m : bytes) (off : nat) (v16 v32 v64 : Z) :
  Forall is_byte m -> (off + 8 <= length m)%nat ->
  is_u 16 v16 -> is_u 32 v32 -> is_u 64 v64 ->
  ntoh16u e2 (load e2 2 (store e1 2 m off (hton16u e1 v16)) off) = v16
  /\ ntoh32u e2 (load e2 4 (store e1 4 m off (hton32u e1 v32)) off) = v32
  /\ ntoh64u e2 (load e2 8 (store e1 8 m off (hton64u e1 v64)) off) = v64
  /\ slice_of (store e1 4 m off (hton32u e1 v32)) off 4
     = [v32 / 2 ^ 24; v32 / 2 ^ 16 mod 256; v32 / 2 ^ 8 mod 256; v32 mod 256].
Proof.
  intros Hm Ho H1 H2 H3. unfold ntoh16u, ntoh32u, ntoh64u, hton16u, hton32u, hton64u.
  rewrite store16_net, store32_net, store64_net by done.
  assert (forall k v, (k <= 8)%nat ->
    Forall is_byte (overwrite m off (be_bytes k v))
    /\ (off + k <= length (overwrite m off (be_bytes k v)))%nat
    /\ slice_of (overwrite m off (be_bytes k v)) off k = be_bytes k v) as Hk.
  { intros k v Hk. repeat split.
    - apply overwrite_Forall; auto using be_bytes_Forall.
    - rewrite length_overwrite; rewrite ?length_be_bytes; lia.
    - rewrite <- (length_be_bytes k v) at 2.
      apply slice_overwrite_same. rewrite length_be_bytes. lia. }
  rewrite load16_net, load32_net, load64_net by (apply Hk; lia).
  rewrite (proj2 (proj2 (Hk 2%nat v16 ltac:(lia)))), (proj2 (proj2 (Hk 8%nat v64 ltac:(lia)))).
  rewrite !(proj2 (proj2 (Hk 4%nat v32 ltac:(lia)))).
  rewrite !be_value_be_bytes by done. repeat split.
  unfold is_u in *. unfold be_bytes. cbn -[Z.div Z.modulo Z.pow Z.mul].
  rewrite <- (Z.mod_small (v32 / 2 ^ 24) 256) by zlia.
  rewrite !Z.div_div by lia. done.
Qed.

Lemma network_order_interop_witness :
  ntoh32u CPU_BE (load CPU_BE 4 (store CPU_LE 4 (replicate 9 0) 1
    (hton32u CPU_LE 305419896)) 1) = 305419896.
Proof.
  apply (network_order_interop CPU_LE CPU_BE (replicate 9 0) 1 1 305419896 2);
    closed.
Defined.

(** * Bit fields

    The header classes pack several fields into one integer member.  Reading is
    [(x >> shift) & mask]; writing clears the field and ors the new value in, both
    at the width [w] of the member.  Every mask is [2^k - 1] for the field's
    width k. *)

Definition bitfield_get (x shift mask : Z) : Z := Z.land (Z.shiftr x shift) mask.

Definition bitfield_set (w x shift mask v : Z) : Z :=
  let x := Z.land x (wrap_u w (Z.lnot (Z.shiftl mask shift))) in
  wrap_u w (Z.lor x (Z.shiftl v shift)).

Lemma wrap_u_spec w z i : 0 <= w -> Z.testbit (wrap_u w z) i = (i <? w) && Z.testbit z i.
Proof.
  intros Hw. unfold wrap_u. destruct (Z.ltb_spec i w).
  - rewrite Z.mod_pow2_bits_low by lia. done.
  - rewrite Z.mod_pow2_bits_high by lia. done.
Qed.

Lemma is_u_bits_high w z i : is_u w z -> 0 <= w <= i -> Z.testbit z i = false.
Proof. intros Hz Hi. rewrite <- (wrap_u_small w z), wrap_u_spec by done || lia. zlia. Qed.

(** Membership of a bit in the field of width [k] at [shift]. *)
Definition in_field (shift k i : Z) : bool := (shift <=? i) && (i <? shift + k).

Lemma bitfield_set_spec w x shift k v i :
  0 <= shift -> 0 <= k -> shift + k <= w -> is_u k v -> 0 <= i < w ->
  Z.testbit (bitfield_set w x shift (Z.ones k) v) i =
    if in_field shift k i then Z.testbit v (i - shift) else Z.testbit x i.
Proof.
  intros Hs Hk Hw Hv Hi. unfold bitfield_set, in_field.
  rewrite wrap_u_spec, Z.lor_spec, Z.land_spec, wrap_u_spec, Z.lnot_spec by lia.
  rewrite !Z.shiftl_spec, (proj2 (Z.ltb_lt i w)) by lia.
  destruct (Z.leb_spec shift i); simpl.
  - rewrite Z.testbit_ones_nonneg by lia.
    destruct (Z.ltb_spec i (shift + k)).
    + rewrite (proj2 (Z.ltb_lt _ _)) by lia. simpl. by rewrite andb_false_r.
    + rewrite (proj2 (Z.ltb_ge _ _)), (is_u_bits_high k v) by done || lia.
      simpl. by rewrite andb_true_r, orb_false_r.
  - rewrite !(Z.testbit_neg_r _ (i - shift)) by lia. simpl.
    by rewrite andb_true_r, orb_false_r.
Qed.

Lemma bitfield_set_range w x shift mask v : 0 <= w -> is_u w (bitfield_set w x shift mask v).
Proof. apply wrap_u_range. Qed.

Lemma bitfield_get_spec x shift k i :
  0 <= shift -> 0 <= k -> 0 <= i ->
  Z.testbit (bitfield_get x shift (Z.ones k)) i = (i <? k) && Z.testbit x (i + shift).
Proof.
  intros. unfold bitfield_get.
  rewrite Z.land_spec, Z.shiftr_spec, Z.testbit_ones_nonneg by lia. apply andb_comm.
Qed.

Lemma bitfield_get_set w x shift k v :
  0 <= shift -> 0 <= k -> shift + k <= w -> is_u k v ->
  bitfield_get (bitfield_set w x shift (Z.ones k) v) shift (Z.ones k) = v.
Proof.
  intros Hs Hk Hw Hv. apply Z.bits_inj'; intros i Hi.
  rewrite bitfield_get_spec by lia. destruct (Z.ltb_spec i k); simpl.
  - rewrite bitfield_set_spec by done || lia. unfold in_field.
    rewrite (proj2 (Z.leb_le _ _)), (proj2 (Z.ltb_lt _ _)) by lia. simpl. f_equal. lia.
  - symmetry. apply (is_u_bits_high k); done || lia.
Qed.

Lemma bitfield_get_set_other w x shift k v shift' k' :
  0 <= shift -> 0 <= k -> shift + k <= w -> is_u k v ->
  0 <= shift' -> 0 <= k' -> shift' + k' <= w -> is_u w x ->
  shift' + k' <= shift \/ shift + k <= shift' ->
  bitfield_get (bitfield_set w x shift (Z.ones k) v) shift' (Z.ones k')
  = bitfield_get x shift' (Z.ones k').
Proof.
  intros Hs Hk Hw Hv Hs' Hk' Hw' Hx D. apply Z.bits_inj'; intros i Hi.
  rewrite !bitfield_get_spec by lia. destruct (Z.ltb_spec i k'); simpl; [|done].
  rewrite bitfield_set_spec by done || lia. unfold in_field.
  destruct (Z.leb_spec shift (i + shift')), (Z.ltb_spec (i + shift') (shift + k)); done || lia.
Qed.

Lemma bitfield_get_range x shift k : 0 <= k -> is_u k (bitfield_get x shift (Z.ones k)).
Proof. intros. unfold bitfield_get. rewrite Z.land_ones by done. by apply wrap_u_range. Qed.

(** The test of a flag bit, [x & (1 << k)]. *)
Lemma flag_test x k :
  0 <= k -> negb (Z.land x (Z.shiftl 1 k) =? 0) = (x / 2 ^ k mod 2 =? 1).
Proof.
  intros Hk. rewrite <- Z.testbit_spec' by done.
  assert (Z.land x (Z.shiftl 1 k) = Z.b2z (Z.testbit x k) * 2 ^ k) as ->.
  { rewrite <- Z.shiftl_mul_pow2 by done. apply Z.bits_inj'; intros i Hi.
    rewrite Z.land_spec, !Z.shiftl_spec by done.
    destruct (Z.lt_trichotomy i k) as [|[->|]].
    - rewrite !(Z.testbit_neg_r _ (i - k)) by lia. apply andb_false_r.
    - rewrite Z.sub_diag, Z.b2z_bit0, andb_true_r. done.
    - replace (i - k) with (Z.succ (i - k - 1)) by lia.
      rewrite Z.b2z_bit0 || idtac. destruct (Z.testbit x k); simpl Z.b2z;
        rewrite ?Z.bits_0, (Z.bits_above_log2 1) by (simpl; lia); by rewrite andb_false_r. }
  pose proof (pow2_pos k Hk). destruct (Z.testbit x k); simpl Z.b2z.
  - apply negb_true_iff, Z.eqb_neq. lia.
  - done.
Qed.
