(* ===== verification/Slice.v ===== *)
(** Slices (src/internal_modules/roc_core/slice.h): views of a sub-range of a
    fixed-size byte buffer.

    A slice is an offset and a size into its buffer; the buffer's bytes live in the
    packet that owns it (see Packet.v), so that slices of one buffer alias the same
    memory, as in the source.  Only [Slice<uint8_t>] is used by the protocol code,
    so [sizeof(T)] is 1.  Sizes are of objects in memory and do not overflow. *)

From S2P Require Import Prelude.

Record Slice : Type := mkSlice {
  (** [data_], as an offset from the start of the buffer; [None] is the null pointer *)
  sl_data : option nat;
  sl_size : nat;
  (** [buffer_->size()] *)
  sl_buf_size : nat;
}.

#[global] Instance Slice_eq_dec : EqDecision Slice.
Proof. solve_decision. Defined.

Definition slice_empty : Slice := mkSlice None 0 0.

(** [Slice(const BufferPtr&)] for a buffer of the given size *)
Definition slice_whole (buf_size : nat) : Slice := mkSlice (Some O) buf_size buf_size.

(** [Slice(Buffer&, from, to)] *)
Definition slice_range (buf_size from to : nat) : res Slice :=
  panic_if (to <? from)%nat
    (panic_if (buf_size <? to)%nat
       (Ok (mkSlice (Some from) (to - from) buf_size))).

(** [operator bool] *)
Definition slice_bool (s : Slice) : bool := match sl_data s with Some _ => true | None => false end.

Definition slice_data (s : Slice) : res nat :=
  match sl_data s with None => Panic | Some d => Ok d end.

Definition slice_data_end (s : Slice) : res nat :=
  match sl_data s with None => Panic | Some d => Ok (d + sl_size s)%nat end.

Definition slice_capacity (s : Slice) : nat :=
  match sl_data s with None => O | Some d => sl_buf_size s - d end.

Definition slice_reslice (s : Slice) (from to : nat) : res Slice :=
  let cap := slice_capacity s in
  panic_if (to <? from)%nat
    (panic_if (cap <? to)%nat
       (match sl_data s with
        | Some d => Ok (mkSlice (Some (d + from)%nat) (to - from) (sl_buf_size s))
        | None => Ok s
        end)).

(** Returns the offset of the first element of the extended range. *)
Definition slice_extend (s : Slice) (add_sz : nat) : res (nat * Slice) :=
  match sl_data s with
  | None => Panic
  | Some d =>
      panic_if (add_sz =? 0)%nat
        (let ret := (d + sl_size s)%nat in
         let* s' := slice_reslice s 0 (sl_size s + add_sz) in
         Ok (ret, s'))
  end.

Definition slice_subslice (s : Slice) (from to : nat) : res Slice :=
  panic_if (to <? from)%nat
    (panic_if (sl_size s <? to)%nat
       (Ok (mkSlice (match sl_data s with Some d => Some (d + from)%nat | None => None end)
                    (to - from) (sl_buf_size s)))).

(** [operator[]]: the offset of the element *)
Definition slice_index (s : Slice) (i : nat) : res nat :=
  match sl_data s with
  | None => Panic
  | Some d => panic_if (sl_size s <? i)%nat (Ok (d + i)%nat)
  end.

(** * Invariant *)

(** The slice lies within its buffer. *)
Definition slice_wf (s : Slice) : Prop :=
  match sl_data s with
  | Some d => (d + sl_size s <= sl_buf_size s)%nat
  | None => sl_size s = O
  end.

#[global] Instance slice_wf_dec s : Decision (slice_wf s).
Proof. unfold slice_wf. destruct (sl_data s); apply _. Defined.

Ltac nat_bools :=
  repeat match goal with
  | H : (_ <? _)%nat = true |- _ => apply Nat.ltb_lt in H
  | H : (_ <? _)%nat = false |- _ => apply Nat.ltb_ge in H
  | H : (_ <=? _)%nat = true |- _ => apply Nat.leb_le in H
  | H : (_ <=? _)%nat = false |- _ => apply Nat.leb_gt in H
  | H : (_ =? _)%nat = true |- _ => apply Nat.eqb_eq in H
  | H : (_ =? _)%nat = false |- _ => apply Nat.eqb_neq in H
  end.

Lemma slice_reslice_wf s from to s' :
  slice_wf s -> slice_reslice s from to = Ok s' ->
  slice_wf s' /\ slice_bool s' = slice_bool s /\ (slice_bool s = true -> sl_size s' = to - from)%nat.
Proof.
  destruct s as [[d|] n b]; unfold slice_wf, slice_bool, slice_reslice, slice_capacity;
    simpl; intros Hs H; res_inv; nat_bools; simpl in *; split_and!; done || lia.
Qed.

Lemma slice_subslice_wf s from to s' :
  slice_wf s -> slice_subslice s from to = Ok s' ->
  slice_wf s' /\ slice_bool s' = slice_bool s /\ sl_size s' = (to - from)%nat
  /\ sl_buf_size s' = sl_buf_size s.
Proof.
  destruct s as [[d|] n b]; unfold slice_wf, slice_bool, slice_subslice;
    simpl; intros Hs H; res_inv; nat_bools; simpl in *; split_and!; done || lia.
Qed.

(** The successful cases as equations, for the proofs that run the code. *)
Lemma slice_reslice_ok d n b from to :
  (from <= to)%nat -> (to <= b - d)%nat ->
  slice_reslice (mkSlice (Some d) n b) from to = Ok (mkSlice (Some (d + from)%nat) (to - from) b).
Proof.
  intros H1 H2. unfold slice_reslice, slice_capacity, panic_if. simpl.
  rewrite (proj2 (Nat.ltb_ge _ _) H1), (proj2 (Nat.ltb_ge _ _) H2). done.
Qed.

Lemma slice_subslice_ok d n b from to :
  (from <= to)%nat -> (to <= n)%nat ->
  slice_subslice (mkSlice (Some d) n b) from to = Ok (mkSlice (Some (d + from)%nat) (to - from) b).
Proof.
  intros H1 H2. unfold slice_subslice, panic_if. simpl.
  rewrite (proj2 (Nat.ltb_ge _ _) H1), (proj2 (Nat.ltb_ge _ _) H2). done.
Qed.

Inductive slice_step : Slice -> Slice -> Prop :=
| step_reslice s from to s' : slice_reslice s from to = Ok s' -> slice_step s s'
| step_extend s n p s' : slice_extend s n = Ok (p, s') -> slice_step s s'
| step_subslice s from to s' : slice_subslice s from to = Ok s' -> slice_step s s'.

Lemma slice_step_wf s s' :
  slice_step s s' -> slice_wf s ->
  slice_wf s' /\ sl_buf_size s' = sl_buf_size s /\ (slice_capacity s' <= slice_capacity s)%nat.
Proof.
  intros [[[d|] n b] from to s1 H | [[d|] n b] k p s1 H | [[d|] n b] from to s1 H];
    unfold slice_extend, slice_subslice, slice_reslice, slice_wf, slice_capacity in *;
    simpl in *; res_inv; nat_bools; simpl in *; intros; split_and!; done || lia.
Qed.

(** Whatever sequence of reslicing, extending and subslicing is applied to a slice
    of a buffer, every slice obtained lies within that buffer (a request that would
    leave it panics instead), and it only ever loses capacity. *)
Theorem slice_stays_in_buffer (s s' : Slice) :
  slice_wf s -> rtc slice_step s s' ->
  slice_wf s' /\ sl_buf_size s' = sl_buf_size s /\ (slice_capacity s' <= slice_capacity s)%nat.
Proof.
  intros Hs. induction 1 as [|s1 s2 s3 Hstep _ IH]; [done|].
  destruct (slice_step_wf _ _ Hstep Hs) as (W & B & C). destruct (IH W) as (? & ? & ?).
  split_and!; [done|congruence|lia].
Qed.

Lemma slice_stays_in_buffer_witness :
  slice_wf (mkSlice (Some 4%nat) 6 10).
Proof.
  apply (slice_stays_in_buffer (slice_whole 10)); [closed|].
  apply rtc_once. by apply step_subslice with 4%nat 10%nat.
Defined.

(** [operator[]] guards with [i > size()], so the element one past the end of the
    slice is handed out; every larger index panics and every smaller one is inside. *)
Theorem slice_index_bound (d n b i : nat) :
  slice_index (mkSlice (Some d) n b) i = if (i <=? n)%nat then Ok (d + i)%nat else Panic.
Proof.
  unfold slice_index, panic_if. simpl.
  destruct (Nat.ltb_spec n i), (Nat.leb_spec i n); done || lia.
Qed.
