(* ===== verification/Packet.v ===== *)
(** Packets (src/internal_modules/roc_packet/packet.{h,cpp}, rtp.{h,cpp},
    fec.{h,cpp}, rtcp.h): the packet object that travels through the pipelines, its
    flags, its protocol parts and the packet order.

    [pkt_mem] is the content of the packet's buffer: the slices [buffer_],
    [rtp.header], [rtp.payload], ... are offsets into it and alias each other. *)

From S2P Require Import Prelude Units Bytes Slice.

(** * Data *)

Inductive FecScheme : Type := FEC_None | FEC_ReedSolomon_M8 | FEC_LDPC_Staircase.

#[global] Instance FecScheme_eq_dec : EqDecision FecScheme.
Proof. solve_decision. Defined.

Record RTP : Type := mkRTP {
  source_id : Z;            (* uint32_t *)
  seqnum : Z;               (* uint16_t *)
  stream_timestamp : Z;     (* uint32_t *)
  duration : Z;             (* uint32_t *)
  capture_timestamp : Z;    (* int64_t, nanoseconds *)
  marker : bool;
  payload_type : Z;         (* unsigned *)
  rtp_header : Slice;
  rtp_payload : Slice;
  rtp_padding : Slice;
}.

Definition RTP_zero : RTP := mkRTP 0 0 0 0 0 false 0 slice_empty slice_empty slice_empty.

Record FEC : Type := mkFEC {
  fec_scheme : FecScheme;
  encoding_symbol_id : Z;   (* size_t *)
  source_block_number : Z;  (* uint16_t *)
  source_block_length : Z;  (* size_t *)
  block_length : Z;         (* size_t *)
  fec_payload_id : Slice;
  fec_payload : Slice;
}.

Definition FEC_zero : FEC := mkFEC FEC_None 0 0 0 0 slice_empty slice_empty.

(** Addresses are opaque to the packet code: it only tests whether one is set. *)
Record UDP : Type := mkUDP {
  src_addr : option Z;
  dst_addr : option Z;
  receive_timestamp : Z;
  queue_timestamp : Z;
}.

Definition UDP_zero : UDP := mkUDP None None 0 0.

(** [Packet::Flag] *)
Definition FlagUDP : Z := Z.shiftl 1 0.
Definition FlagRTP : Z := Z.shiftl 1 1.
Definition FlagFEC : Z := Z.shiftl 1 2.
Definition FlagRTCP : Z := Z.shiftl 1 3.
Definition FlagAudio : Z := Z.shiftl 1 4.
Definition FlagRepair : Z := Z.shiftl 1 5.
Definition FlagControl : Z := Z.shiftl 1 6.
Definition FlagPrepared : Z := Z.shiftl 1 7.
Definition FlagComposed : Z := Z.shiftl 1 8.
Definition FlagRestored : Z := Z.shiftl 1 9.

Record Packet : Type := mkPacket {
  flags_ : Z;
  udp_ : UDP;
  rtp_ : RTP;
  fec_ : FEC;
  rtcp_payload : Slice;
  buffer_ : Slice;
  pkt_mem : bytes;
}.

#[global] Instance RTP_eq_dec : EqDecision RTP.
Proof. solve_decision. Defined.

#[global] Instance FEC_eq_dec : EqDecision FEC.
Proof. solve_decision. Defined.

#[global] Instance UDP_eq_dec : EqDecision UDP.
Proof. solve_decision. Defined.

#[global] Instance Packet_eq_dec : EqDecision Packet.
Proof. solve_decision. Defined.

Definition Packet_new : Packet :=
  mkPacket 0 UDP_zero RTP_zero FEC_zero slice_empty slice_empty [].

(** Assignments to one member, the rest unchanged. *)
Definition with_flags (p : Packet) (f : Z) : Packet :=
  mkPacket f (udp_ p) (rtp_ p) (fec_ p) (rtcp_payload p) (buffer_ p) (pkt_mem p).

Definition with_udp (p : Packet) (u : UDP) : Packet :=
  mkPacket (flags_ p) u (rtp_ p) (fec_ p) (rtcp_payload p) (buffer_ p) (pkt_mem p).

Definition with_rtp (p : Packet) (r : RTP) : Packet :=
  mkPacket (flags_ p) (udp_ p) r (fec_ p) (rtcp_payload p) (buffer_ p) (pkt_mem p).

Definition with_fec (p : Packet) (f : FEC) : Packet :=
  mkPacket (flags_ p) (udp_ p) (rtp_ p) f (rtcp_payload p) (buffer_ p) (pkt_mem p).

Definition with_buffer (p : Packet) (b : Slice) : Packet :=
  mkPacket (flags_ p) (udp_ p) (rtp_ p) (fec_ p) (rtcp_payload p) b (pkt_mem p).

Definition with_mem (p : Packet) (m : bytes) : Packet :=
  mkPacket (flags_ p) (udp_ p) (rtp_ p) (fec_ p) (rtcp_payload p) (buffer_ p) m.

(** * Operations *)

Definition add_flags (p : Packet) (fl : Z) : res Packet :=
  panic_if (negb (Z.land (flags_ p) fl =? 0))
    (Ok (with_flags p (Z.lor (flags_ p) fl))).

Definition has_flags (p : Packet) (fl : Z) : bool := negb (Z.land (flags_ p) fl =? 0).

Definition packet_udp (p : Packet) : option UDP :=
  if has_flags p FlagUDP then Some (udp_ p) else None.

Definition packet_rtp (p : Packet) : option RTP :=
  if has_flags p FlagRTP then Some (rtp_ p) else None.

Definition packet_fec (p : Packet) : option FEC :=
  if has_flags p FlagFEC then Some (fec_ p) else None.

Definition packet_rtcp (p : Packet) : option Slice :=
  if has_flags p FlagRTCP then Some (rtcp_payload p) else None.

Definition packet_buffer (p : Packet) : res Slice :=
  if slice_bool (buffer_ p) then Ok (buffer_ p) else Panic.

Definition set_buffer (p : Packet) (d : Slice) : res Packet :=
  panic_if (slice_bool (buffer_ p)) (Ok (with_buffer p d)).

Definition packet_payload (p : Packet) : res Slice :=
  panic_if (negb (slice_bool (buffer_ p)))
    (match packet_rtp p with
     | Some r => Ok (rtp_payload r)
     | None =>
         match packet_rtcp p with
         | Some r => Ok r
         | None =>
             match packet_fec p with
             | Some f => Ok (fec_payload f)
             | None => Ok (buffer_ p)
             end
         end
     end).

Definition packet_has_source_id (p : Packet) : bool :=
  match packet_rtp p with Some _ => true | None => false end.

Definition packet_source_id (p : Packet) : Z :=
  match packet_rtp p with Some r => source_id r | None => 0 end.

Definition packet_stream_timestamp (p : Packet) : Z :=
  match packet_rtp p with Some r => stream_timestamp r | None => 0 end.

Definition packet_duration (p : Packet) : Z :=
  match packet_rtp p with Some r => duration r | None => 0 end.

Definition packet_capture_timestamp (p : Packet) : Z :=
  match packet_rtp p with Some r => capture_timestamp r | None => 0 end.

Definition packet_receive_timestamp (p : Packet) : Z :=
  match packet_udp p with Some u => receive_timestamp u | None => 0 end.

Definition rtp_compare (a b : RTP) : Z :=
  if seqnum_lt (seqnum a) (seqnum b) then -1
  else if seqnum a =? seqnum b then 0
  else 1.

Definition fec_compare (a b : FEC) : Z :=
  if blknum_lt (source_block_number a) (source_block_number b) then -1
  else if source_block_number a =? source_block_number b then
    if encoding_symbol_id a <? encoding_symbol_id b then -1
    else if encoding_symbol_id a =? encoding_symbol_id b then 0
    else 1
  else 1.

Definition packet_compare (a b : Packet) : Z :=
  match packet_rtp a, packet_rtp b with
  | Some ra, Some rb => rtp_compare ra rb
  | _, _ =>
      match packet_fec a, packet_fec b with
      | Some fa, Some fb => fec_compare fa fb
      | _, _ => 0
      end
  end.

(** * Lemmas *)

Lemma has_flags_with_flags p f fl : has_flags (with_flags p f) fl = negb (Z.land f fl =? 0).
Proof. done. Qed.

(** [add_flags] on a packet without the flag: it is set, the others keep their value. *)
Lemma add_flags_ok p fl :
  has_flags p fl = false -> add_flags p fl = Ok (with_flags p (Z.lor (flags_ p) fl)).
Proof. unfold has_flags, add_flags, panic_if. by intros ->. Qed.

Lemma has_flags_lor p f1 f2 fl :
  has_flags (with_flags p (Z.lor f1 f2)) fl
  = has_flags (with_flags p f1) fl || has_flags (with_flags p f2) fl.
Proof.
  unfold has_flags. simpl. rewrite Z.land_lor_distr_l.
  destruct (Z.eqb_spec (Z.lor (Z.land f1 fl) (Z.land f2 fl)) 0) as [E|E].
  - apply Z.lor_eq_0_iff in E as [-> ->]. done.
  - destruct (Z.eqb_spec (Z.land f1 fl) 0) as [E1|]; [|done].
    destruct (Z.eqb_spec (Z.land f2 fl) 0) as [E2|]; [|done].
    by rewrite E1, E2 in E.
Qed.

(** Packets whose positions lie in one window of sequence numbers (the stream
    positions a receiver holds at one time): there, [compare] is a strict order
    whose equality is equality of positions. *)
Definition rtp_in_window (r : Z) (p : Packet) : Prop :=
  has_flags p FlagRTP = true /\ is_u 16 (seqnum (rtp_ p)) /\ in_window 16 r (seqnum (rtp_ p)).

Lemma rtp_in_window_compare r a b :
  rtp_in_window r a -> rtp_in_window r b ->
  packet_compare a b = Z.sgn (circle_diff 16 (seqnum (rtp_ a)) (seqnum (rtp_ b))).
Proof.
  intros (Fa & Ua & Wa) (Fb & Ub & Wb). unfold packet_compare, packet_rtp.
  rewrite Fa, Fb. unfold rtp_compare, seqnum_lt. change seqnum_diff with (circle_diff 16).
  pose proof (circle_diff_zero_iff 16 ltac:(lia) _ _ Ua Ub).
  destruct (Z.ltb_spec (circle_diff 16 (seqnum (rtp_ a)) (seqnum (rtp_ b))) 0).
  - symmetry. by apply Z.sgn_neg.
  - destruct (Z.eqb_spec (seqnum (rtp_ a)) (seqnum (rtp_ b))) as [E|E].
    + rewrite (proj2 H E). done.
    + symmetry. apply Z.sgn_pos. intuition lia.
Qed.
