(* ===== verification/RtpHeaders.v ===== *)
(** RTP headers (src/internal_modules/roc_rtp/headers.h): the packed header classes
    as accessors on the bytes at an offset [b] of a buffer [m].

    The setters return the new buffer content.  Layout of [Header]: [flags_] at 0,
    [mpt_] at 1, [seqnum_] at 2, [timestamp_] at 4, [ssrc_[]] at 8. *)

From S2P Require Import Prelude Bytes.

Section Header.

(** Byte order of the machine that runs the code. *)
Context (host : cpu_endian).

Definition V2 : Z := 2.

Definition sizeof_Header : nat := 12.

Definition sizeof_ExtentionHeader : nat := 4.

Definition hdr_flags (m : bytes) (b : nat) : Z := m !!! b.

Definition hdr_mpt (m : bytes) (b : nat) : Z := m !!! (b + 1)%nat.

Definition hdr_clear (m : bytes) (b : nat) : bytes :=
  overwrite m b (replicate sizeof_Header 0).

Definition hdr_version (m : bytes) (b : nat) : Z := bitfield_get (hdr_flags m b) 6 0x3.

Definition hdr_set_version (m : bytes) (b : nat) (v : Z) : res bytes :=
  panic_if (negb (Z.land v 0x3 =? v))
    (Ok (overwrite m b [bitfield_set 8 (hdr_flags m b) 6 0x3 (u8 v)])).

Definition hdr_has_padding (m : bytes) (b : nat) : bool :=
  negb (Z.land (hdr_flags m b) (Z.shiftl 0x1 5) =? 0).

Definition hdr_set_padding (m : bytes) (b : nat) (v : bool) : bytes :=
  overwrite m b [bitfield_set 8 (hdr_flags m b) 5 0x1 (if v then 1 else 0)].

Definition hdr_has_extension (m : bytes) (b : nat) : bool :=
  negb (Z.land (hdr_flags m b) (Z.shiftl 0x1 4) =? 0).

Definition hdr_payload_type (m : bytes) (b : nat) : Z := bitfield_get (hdr_mpt m b) 0 0x7f.

Definition hdr_set_payload_type (m : bytes) (b : nat) (pt : Z) : res bytes :=
  panic_if (negb (Z.land pt 0x7f =? pt))
    (Ok (overwrite m (b + 1) [bitfield_set 8 (hdr_mpt m b) 0 0x7f pt])).

Definition hdr_marker (m : bytes) (b : nat) : bool :=
  negb (Z.land (hdr_mpt m b) (Z.shiftl 0x1 7) =? 0).

Definition hdr_set_marker (m : bytes) (b : nat) (v : bool) : bytes :=
  overwrite m (b + 1) [bitfield_set 8 (hdr_mpt m b) 7 0x1 (if v then 1 else 0)].

Definition hdr_seqnum (m : bytes) (b : nat) : Z := ntoh16u host (load host 2 m (b + 2)).

Definition hdr_set_seqnum (m : bytes) (b : nat) (sn : Z) : bytes :=
  store host 2 m (b + 2) (hton16u host sn).

Definition hdr_timestamp (m : bytes) (b : nat) : Z := ntoh32u host (load host 4 m (b + 4)).

Definition hdr_set_timestamp (m : bytes) (b : nat) (ts : Z) : bytes :=
  store host 4 m (b + 4) (hton32u host ts).

Definition hdr_ssrc (m : bytes) (b : nat) : Z := ntoh32u host (load host 4 m (b + 8)).

Definition hdr_set_ssrc (m : bytes) (b : nat) (s : Z) : bytes :=
  store host 4 m (b + 8) (hton32u host s).

Definition hdr_num_csrc (m : bytes) (b : nat) : Z := bitfield_get (hdr_flags m b) 0 0xf.

Definition hdr_header_size (m : bytes) (b : nat) : nat :=
  (sizeof_Header + Z.to_nat (hdr_num_csrc m b) * 4)%nat.

Definition hdr_csrc (m : bytes) (b : nat) (index : nat) : res Z :=
  panic_if (hdr_num_csrc m b <=? Z.of_nat index)
    (Ok (ntoh32u host (load host 4 m (b + 8 + (index + 1) * 4)))).

(** [ExtentionHeader]: [type_] at 0, [len_] at 2. *)
Definition ext_type (m : bytes) (b : nat) : Z := ntoh16u host (load host 2 m b).

Definition ext_data_size (m : bytes) (b : nat) : nat :=
  Z.to_nat (u32 (Z.shiftl (ntoh16u host (load host 2 m (b + 2))) 2)).

End Header.
