(* ===== verification/FecHeaders.v ===== *)
(** FECFRAME payload ids (src/internal_modules/roc_fec/headers.h): the three packed
    header classes that the FEC composer and parser templates are instantiated with,
    as accessors on the bytes at offset [b] of a buffer [m]. *)

From S2P Require Import Prelude Bytes Slice Packet.

(** The [PayloadID] template argument. *)
Inductive PayloadID : Type :=
| LDPC_Source_PayloadID
| LDPC_Repair_PayloadID
| RS8M_PayloadID.

Inductive PayloadID_Type : Type := Source | Repair.

Inductive PayloadID_Pos : Type := Header | Footer.

#[global] Instance PayloadID_eq_dec : EqDecision PayloadID.
Proof. solve_decision. Defined.

#[global] Instance PayloadID_Type_eq_dec : EqDecision PayloadID_Type.
Proof. solve_decision. Defined.

#[global] Instance PayloadID_Pos_eq_dec : EqDecision PayloadID_Pos.
Proof. solve_decision. Defined.

Section PayloadID.

Context (host : cpu_endian).

(** [sizeof(PayloadID)] *)
Definition pid_size (t : PayloadID) : nat :=
  match t with
  | LDPC_Source_PayloadID => 6
  | LDPC_Repair_PayloadID => 8
  | RS8M_PayloadID => 6
  end.

Definition pid_fec_scheme (t : PayloadID) : FecScheme :=
  match t with
  | LDPC_Source_PayloadID | LDPC_Repair_PayloadID => FEC_LDPC_Staircase
  | RS8M_PayloadID => FEC_ReedSolomon_M8
  end.

Definition pid_clear (t : PayloadID) (m : bytes) (b : nat) : bytes :=
  overwrite m b (replicate (pid_size t) 0).

Definition pid_sbn (t : PayloadID) (m : bytes) (b : nat) : Z :=
  match t with
  | LDPC_Source_PayloadID | LDPC_Repair_PayloadID => ntoh16u host (load host 2 m b)
  | RS8M_PayloadID =>
      Z.lor (Z.lor (u32 (Z.shiftl (m !!! b) 16)) (u32 (Z.shiftl (m !!! (b + 1)%nat) 8)))
            (m !!! (b + 2)%nat)
  end.

Definition pid_set_sbn (t : PayloadID) (m : bytes) (b : nat) (val : Z) : res bytes :=
  match t with
  | LDPC_Source_PayloadID | LDPC_Repair_PayloadID =>
      Ok (store host 2 m b (hton16u host (u16 val)))
  | RS8M_PayloadID =>
      panic_if (negb (Z.shiftr val 24 =? 0))
        (let m := overwrite m b [u8 (Z.land (Z.shiftr val 16) 0xff)] in
         let m := overwrite m (b + 1) [u8 (Z.land (Z.shiftr val 8) 0xff)] in
         Ok (overwrite m (b + 2) [u8 (Z.land val 0xff)]))
  end.

Definition pid_esi (t : PayloadID) (m : bytes) (b : nat) : Z :=
  match t with
  | LDPC_Source_PayloadID | LDPC_Repair_PayloadID => ntoh16u host (load host 2 m (b + 2))
  | RS8M_PayloadID => m !!! (b + 3)%nat
  end.

Definition pid_set_esi (t : PayloadID) (m : bytes) (b : nat) (val : Z) : res bytes :=
  match t with
  | LDPC_Source_PayloadID | LDPC_Repair_PayloadID =>
      Ok (store host 2 m (b + 2) (hton16u host val))
  | RS8M_PayloadID =>
      panic_if (negb (Z.shiftr val 8 =? 0)) (Ok (overwrite m (b + 3) [u8 val]))
  end.

Definition pid_k (t : PayloadID) (m : bytes) (b : nat) : Z :=
  ntoh16u host (load host 2 m (b + 4)).

Definition pid_set_k (t : PayloadID) (m : bytes) (b : nat) (val : Z) : bytes :=
  store host 2 m (b + 4) (hton16u host val).

Definition pid_n (t : PayloadID) (m : bytes) (b : nat) : Z :=
  match t with
  | LDPC_Source_PayloadID => 0
  | LDPC_Repair_PayloadID => ntoh16u host (load host 2 m (b + 6))
  | RS8M_PayloadID => 255
  end.

Definition pid_set_n (t : PayloadID) (m : bytes) (b : nat) (val : Z) : bytes :=
  match t with
  | LDPC_Source_PayloadID => m
  | LDPC_Repair_PayloadID => store host 2 m (b + 6) (hton16u host val)
  | RS8M_PayloadID => m
  end.

End PayloadID.
