(* ===== verification/Compose.v ===== *)
(** Packet composers and parsers: the IComposer and IParser hierarchies
    (src/internal_modules/roc_rtp/composer.cpp, parser.cpp, roc_fec/composer.h,
    parser.h) and the wire format they implement.

    A composer or parser object holds a pointer to the next one, so a chain of them
    is an inductive value and the virtual methods are functions that recurse on it. *)

From S2P Require Import Prelude Bytes Slice Packet RtpHeaders FecHeaders.

(** * Composers *)

Inductive IComposer : Type :=
| RtpComposer (inner : option IComposer)
| FecComposer (pid : PayloadID) (type : PayloadID_Type) (pos : PayloadID_Pos)
              (inner : option IComposer).

Section Composer.

Context (host : cpu_endian).

(** [AlignOps::pad_as] (src/internal_modules/roc_core/align_ops.cpp) *)
Definition pad_as (size alignment : nat) : nat :=
  if (alignment =? 0)%nat then 0%nat
  else
    let new_size := (size / alignment * alignment)%nat in
    let new_size := if (new_size <? size)%nat then (new_size + alignment)%nat else new_size in
    (new_size - size)%nat.

(** The last composer of a chain shifts the buffer so that the payload, which begins
    [header_size] bytes after it, is aligned. *)
Definition align_finish (buffer : Slice) (header_size payload_alignment : nat)
    : res (bool * Slice) :=
  let padding := pad_as header_size payload_alignment in
  if (slice_capacity buffer <? padding)%nat then Ok (false, buffer)
  else let* buffer := slice_reslice buffer padding padding in Ok (true, buffer).

(** [rtp::Composer::align]; [addr] is the address of the start of the buffer, [inner]
    the inner composer's [align]. *)
Definition rtp_composer_align (inner : option (nat -> res (bool * Slice))) (addr : nat)
    (buffer : Slice) (header_size payload_alignment : nat) : res (bool * Slice) :=
  let* data := slice_data buffer in
  panic_if (negb ((addr + data) mod payload_alignment =? 0)%nat)
    (let header_size := (header_size + sizeof_Header)%nat in
     match inner with
     | None => align_finish buffer header_size payload_alignment
     | Some inner => inner header_size
     end).

Definition fec_composer_align (pid : PayloadID) (pos : PayloadID_Pos)
    (inner : option (nat -> res (bool * Slice))) (addr : nat)
    (buffer : Slice) (header_size payload_alignment : nat) : res (bool * Slice) :=
  let* data := slice_data buffer in
  panic_if (negb ((addr + data) mod payload_alignment =? 0)%nat)
    (let header_size :=
       match pos with
       | Header => (header_size + pid_size pid)%nat
       | Footer => header_size
       end in
     match inner with
     | None => align_finish buffer header_size payload_alignment
     | Some inner => inner header_size
     end).

(** The virtual method: the composer's class selects the implementation. *)
Fixpoint composer_align (c : IComposer) (addr : nat) (buffer : Slice)
    (header_size payload_alignment : nat) : res (bool * Slice) :=
  match c with
  | RtpComposer inner =>
      rtp_composer_align
        match inner with
        | Some i => Some (fun header_size => composer_align i addr buffer header_size payload_alignment)
        | None => None
        end addr buffer header_size payload_alignment
  | FecComposer pid _ pos inner =>
      fec_composer_align pid pos
        match inner with
        | Some i => Some (fun header_size => composer_align i addr buffer header_size payload_alignment)
        | None => None
        end addr buffer header_size payload_alignment
  end.

(** [rtp::Composer::prepare]: the result, the packet and the [buffer] argument after
    the call. *)
Definition rtp_composer_prepare (inner : option (Packet -> Slice -> nat -> res (bool * Packet * Slice)))
    (packet : Packet) (buffer : Slice) (payload_size : nat) : res (bool * Packet * Slice) :=
  let* header := slice_subslice buffer 0 0 in
  if (slice_capacity header <? sizeof_Header)%nat then Ok (false, packet, buffer)
  else
    let* header := slice_reslice header 0 sizeof_Header in
    let* payload := slice_subslice header (sl_size header) (sl_size header) in
    let* '(ok, packet, payload) :=
      match inner with
      | None =>
          if (slice_capacity payload <? payload_size)%nat then Ok (false, packet, payload)
          else let* payload := slice_reslice payload 0 payload_size in
               Ok (true, packet, payload)
      | Some inner => inner packet payload payload_size
      end in
    if negb ok then Ok (false, packet, buffer)
    else
      let* packet := add_flags packet FlagRTP in
      let r := rtp_ packet in
      let packet := with_rtp packet
        (mkRTP (source_id r) (seqnum r) (stream_timestamp r) (duration r)
               (capture_timestamp r) (marker r) (payload_type r)
               header payload (rtp_padding r)) in
      let* buffer := slice_reslice buffer 0 (sl_size header + sl_size payload) in
      Ok (true, packet, buffer).

Definition fec_composer_prepare (pid : PayloadID) (type : PayloadID_Type) (pos : PayloadID_Pos)
    (inner : option (Packet -> Slice -> nat -> res (bool * Packet * Slice)))
    (packet : Packet) (buffer : Slice) (payload_size : nat) : res (bool * Packet * Slice) :=
  let* payload_id := slice_subslice buffer 0 0 in
  let no_space :=
    match pos with
    | Header => (slice_capacity payload_id <? pid_size pid)%nat
    | Footer => false
    end in
  if no_space then Ok (false, packet, buffer)
  else
    let* payload_id :=
      match pos with
      | Header => slice_reslice payload_id 0 (pid_size pid)
      | Footer => Ok payload_id
      end in
    let* payload := slice_subslice payload_id (sl_size payload_id) (sl_size payload_id) in
    let* '(ok, packet, payload) :=
      match inner with
      | Some inner => inner packet payload payload_size
      | None => let* payload := slice_reslice payload 0 payload_size in
                Ok (true, packet, payload)
      end in
    if negb ok then Ok (false, packet, buffer)
    else
      let* '(ok, payload_id) :=
        match pos with
        | Header => Ok (true, payload_id)
        | Footer =>
            let* payload_id := slice_subslice payload (sl_size payload) (sl_size payload) in
            if (slice_capacity payload_id <? pid_size pid)%nat then Ok (false, payload_id)
            else let* payload_id := slice_reslice payload_id 0 (pid_size pid) in
                 Ok (true, payload_id)
        end in
      if negb ok then Ok (false, packet, buffer)
      else
        let* packet :=
          match type with
          | Repair => add_flags packet FlagRepair
          | Source => Ok packet
          end in
        let* packet := add_flags packet FlagFEC in
        let f := fec_ packet in
        let packet := with_fec packet
          (mkFEC (pid_fec_scheme pid) (encoding_symbol_id f) (source_block_number f)
                 (source_block_length f) (block_length f) payload_id payload) in
        let* buffer := slice_reslice buffer 0 (sl_size payload_id + sl_size payload) in
        Ok (true, packet, buffer).

Fixpoint composer_prepare (c : IComposer) (packet : Packet) (buffer : Slice)
    (payload_size : nat) : res (bool * Packet * Slice) :=
  match c with
  | RtpComposer inner =>
      rtp_composer_prepare
        match inner with Some i => Some (composer_prepare i) | None => None end
        packet buffer payload_size
  | FecComposer pid type pos inner =>
      fec_composer_prepare pid type pos
        match inner with Some i => Some (composer_prepare i) | None => None end
        packet buffer payload_size
  end.

Definition rtp_composer_pad (inner : option (Packet -> nat -> res (bool * Packet)))
    (packet : Packet) (padding_size : nat) : res (bool * Packet) :=
  match inner with
  | Some inner => inner packet padding_size
  | None =>
      match packet_rtp packet with
      | None => Panic
      | Some r =>
          panic_if (slice_bool (rtp_padding r))
            (let payload_size := sl_size (rtp_payload r) in
             if (payload_size <? padding_size)%nat then Ok (false, packet)
             else
               let* padding :=
                 slice_subslice (rtp_payload r) (payload_size - padding_size) payload_size in
               let* payload := slice_subslice (rtp_payload r) 0 (payload_size - padding_size) in
               Ok (true, with_rtp packet
                     (mkRTP (source_id r) (seqnum r) (stream_timestamp r) (duration r)
                            (capture_timestamp r) (marker r) (payload_type r)
                            (rtp_header r) payload padding)))
      end
  end.

(** The tail of a FEC packet cannot be padded. *)
Definition fec_composer_pad (inner : option (Packet -> nat -> res (bool * Packet)))
    (packet : Packet) (padding_size : nat) : res (bool * Packet) :=
  match inner with
  | Some inner => inner packet padding_size
  | None => Ok (false, packet)
  end.

Fixpoint composer_pad (c : IComposer) (packet : Packet) (padding_size : nat)
    : res (bool * Packet) :=
  match c with
  | RtpComposer inner =>
      rtp_composer_pad match inner with Some i => Some (composer_pad i) | None => None end
        packet padding_size
  | FecComposer _ _ _ inner =>
      fec_composer_pad match inner with Some i => Some (composer_pad i) | None => None end
        packet padding_size
  end.

(** The padding octets: zeros and, last, their number. *)
Definition write_padding (m : bytes) (padding_data padding_size : nat) : bytes :=
  let m := if (1 <? padding_size)%nat
           then overwrite m padding_data (replicate (padding_size - 1) 0) else m in
  overwrite m (padding_data + (padding_size - 1)) [u8 (Z.of_nat padding_size)].

Definition rtp_composer_compose (inner : option (Packet -> res (bool * Packet)))
    (packet : Packet) : res (bool * Packet) :=
  match packet_rtp packet with
  | None => Panic
  | Some r =>
      panic_if (negb (sl_size (rtp_header r) =? sizeof_Header)%nat)
        (let* b := slice_data (rtp_header r) in
         let m := hdr_clear (pkt_mem packet) b in
         let* m := hdr_set_version m b V2 in
         let m := hdr_set_ssrc host m b (source_id r) in
         let m := hdr_set_seqnum host m b (seqnum r) in
         let m := hdr_set_timestamp host m b (stream_timestamp r) in
         let m := hdr_set_marker m b (marker r) in
         let* m := hdr_set_payload_type m b (u8 (payload_type r)) in
         let padding_size := sl_size (rtp_padding r) in
         let* '(ok, m) :=
           if (0 <? padding_size)%nat then
             let m := hdr_set_padding m b true in
             let* padding_data := slice_data (rtp_padding r) in
             if (255 <? padding_size)%nat then Ok (false, m)
             else Ok (true, write_padding m padding_data padding_size)
           else Ok (true, m) in
         let packet := with_mem packet m in
         if negb ok then Ok (false, packet)
         else
           match inner with
           | Some inner => inner packet
           | None => Ok (true, packet)
           end)
  end.

Definition fec_composer_compose (pid : PayloadID)
    (inner : option (Packet -> res (bool * Packet))) (packet : Packet) : res (bool * Packet) :=
  match packet_fec packet with
  | None => Panic
  | Some f =>
      panic_if (negb (sl_size (fec_payload_id f) =? pid_size pid)%nat)
        (let* b := slice_data (fec_payload_id f) in
         let m := pid_clear pid (pkt_mem packet) b in
         panic_if (negb (Z.shiftr (encoding_symbol_id f) 16 =? 0))
           (let* m := pid_set_esi host pid m b (u16 (encoding_symbol_id f)) in
            let* m := pid_set_sbn host pid m b (source_block_number f) in
            panic_if (negb (Z.shiftr (source_block_length f) 16 =? 0))
              (let m := pid_set_k host pid m b (u16 (source_block_length f)) in
               panic_if (negb (Z.shiftr (block_length f) 16 =? 0))
                 (let m := pid_set_n host pid m b (u16 (block_length f)) in
                  let packet := with_mem packet m in
                  match inner with
                  | Some inner => inner packet
                  | None => Ok (true, packet)
                  end))))
  end.

Fixpoint composer_compose (c : IComposer) (packet : Packet) : res (bool * Packet) :=
  match c with
  | RtpComposer inner =>
      rtp_composer_compose match inner with Some i => Some (composer_compose i) | None => None end
        packet
  | FecComposer pid _ _ inner =>
      fec_composer_compose pid
        match inner with Some i => Some (composer_compose i) | None => None end packet
  end.

End Composer.

(** * Parsers *)

Inductive IParser : Type :=
| RtpParser (inner : option IParser)
| FecParser (pid : PayloadID) (type : PayloadID_Type) (pos : PayloadID_Pos)
            (inner : option IParser).

Section Parser.

Context (host : cpu_endian).

(** [encoding_map_.find_by_pt(pt)->packet_flags]: the packet flags of a payload type
    the receiver knows, [None] for one it does not. *)
Context (find_by_pt : Z -> option Z).

(** Reading [n] bytes at the offset [b] of a buffer has no behaviour when they are not
    all in the buffer. *)
Definition readable (m : bytes) (b n : nat) : res () :=
  panic_if (length m <? b + n)%nat (Ok ()).

(** Size of the RTP header with CSRCs and extension, [None] when the buffer is
    shorter. *)
Definition rtp_header_size (m : bytes) (b size : nat) : res (option nat) :=
  let* _ := readable m b sizeof_Header in
  let header_size := hdr_header_size m b in
  let header_size :=
    if hdr_has_extension m b then (header_size + sizeof_ExtentionHeader)%nat
    else header_size in
  if (size <? header_size)%nat then Ok None
  else
    let* header_size :=
      if hdr_has_extension m b then
        let extension := (b + hdr_header_size m b)%nat in
        let* _ := readable m extension sizeof_ExtentionHeader in
        Ok (header_size + ext_data_size host m extension)%nat
      else Ok header_size in
    if (size <? header_size)%nat then Ok None else Ok (Some header_size).

(** Size of the padding at the end of a payload that ends at [payload_end] (relative
    to [b]), [None] when it is malformed. *)
Definition rtp_pad_size (m : bytes) (b payload_begin payload_end : nat) : res (option nat) :=
  if hdr_has_padding m b then
    if (payload_begin =? payload_end)%nat then Ok None
    else
      let* _ := readable m (b + (payload_end - 1)) 1 in
      let pad_size := Z.to_nat (m !!! (b + (payload_end - 1))%nat) in
      if (pad_size =? 0)%nat then Ok None
      else if (payload_end - payload_begin <? pad_size)%nat then Ok None
      else Ok (Some pad_size)
  else Ok (Some 0%nat).

Definition rtp_parser_parse (inner : option (Packet -> Slice -> res (bool * Packet)))
    (packet : Packet) (buffer : Slice) : res (bool * Packet) :=
  if (sl_size buffer <? sizeof_Header)%nat then Ok (false, packet)
  else
    let* b := slice_data buffer in
    let m := pkt_mem packet in
    let* _ := readable m b sizeof_Header in
    if negb (hdr_version m b =? V2) then Ok (false, packet)
    else
      let* header_size := rtp_header_size m b (sl_size buffer) in
      match header_size with
      | None => Ok (false, packet)
      | Some header_size =>
          let* pad_size := rtp_pad_size m b header_size (sl_size buffer) in
          match pad_size with
          | None => Ok (false, packet)
          | Some pad_size =>
              let payload_begin := header_size in
              let payload_end := (sl_size buffer - pad_size)%nat in
              let* packet := add_flags packet FlagRTP in
              let r := rtp_ packet in
              let* header := slice_subslice buffer 0 header_size in
              let* payload := slice_subslice buffer payload_begin payload_end in
              let* padding :=
                if (pad_size =? 0)%nat then Ok (rtp_padding r)
                else slice_subslice buffer payload_end (payload_end + pad_size) in
              let packet := with_rtp packet
                (mkRTP (hdr_ssrc host m b) (hdr_seqnum host m b) (hdr_timestamp host m b)
                       (duration r) (capture_timestamp r) (hdr_marker m b)
                       (hdr_payload_type m b) header payload padding) in
              let* packet :=
                match find_by_pt (hdr_payload_type m b) with
                | Some fl => add_flags packet fl
                | None => Ok packet
                end in
              match inner with
              | Some inner => inner packet payload
              | None => Ok (true, packet)
              end
          end
      end.

Definition fec_parser_parse (pid : PayloadID) (type : PayloadID_Type) (pos : PayloadID_Pos)
    (inner : option (Packet -> Slice -> res (bool * Packet)))
    (packet : Packet) (buffer : Slice) : res (bool * Packet) :=
  if (sl_size buffer <? pid_size pid)%nat then Ok (false, packet)
  else
    let* data := slice_data buffer in
    let m := pkt_mem packet in
    let b := match pos with
             | Header => data
             | Footer => (data + sl_size buffer - pid_size pid)%nat
             end in
    let* _ := readable m b (pid_size pid) in
    let* packet :=
      match type with
      | Repair => add_flags packet FlagRepair
      | Source => Ok packet
      end in
    let* packet := add_flags packet FlagFEC in
    let f := fec_ packet in
    let* payload :=
      match pos with
      | Header => slice_subslice buffer (pid_size pid) (sl_size buffer)
      | Footer => slice_subslice buffer 0 (sl_size buffer - pid_size pid)
      end in
    let packet := with_fec packet
      (mkFEC (pid_fec_scheme pid) (pid_esi host pid m b) (u16 (pid_sbn host pid m b))
             (pid_k host pid m b) (pid_n host pid m b) (fec_payload_id f) payload) in
    match inner with
    | Some inner => inner packet payload
    | None => Ok (true, packet)
    end.

Fixpoint parser_parse (p : IParser) (packet : Packet) (buffer : Slice)
    : res (bool * Packet) :=
  match p with
  | RtpParser inner =>
      rtp_parser_parse match inner with Some i => Some (parser_parse i) | None => None end
        packet buffer
  | FecParser pid type pos inner =>
      fec_parser_parse pid type pos
        match inner with Some i => Some (parser_parse i) | None => None end packet buffer
  end.

End Parser.
