(* ===== verification/Wire.v ===== *)
(** The wire format of media packets and the correctness of the composers and
    parsers of Compose.v against it.

    The specification is a set of functions from field values to byte strings
    (RFC 3550 5.1 for RTP, RFC 6816 5.1 and RFC 5510 5.1 for FECFRAME).  Composing
    writes exactly these bytes; parsing them gives the fields back; hence the round
    trip through the three protocol stacks that the endpoints instantiate
    (sender_endpoint.cpp, receiver_endpoint.cpp): RTP, FECFRAME source packets (RTP
    with a FEC footer) and FECFRAME repair packets (a FEC header). *)

From S2P Require Import Prelude Bytes Slice Packet RtpHeaders FecHeaders Compose.

(** One virtual call: select the implementation and unfold it. *)
Ltac simpl_compose :=
  cbn [composer_compose]; unfold rtp_composer_compose, fec_composer_compose.

Ltac simpl_prepare :=
  cbn [composer_prepare]; unfold rtp_composer_prepare, fec_composer_prepare.

Ltac simpl_parse :=
  cbn [parser_parse]; unfold rtp_parser_parse, fec_parser_parse; cbn [sl_size].

(** * Specification *)

Definition rtp_wire_header (r : RTP) (padded : bool) : bytes :=
  [128 + (if padded then 32 else 0); (if marker r then 128 else 0) + payload_type r]
  ++ be_bytes 2 (seqnum r) ++ be_bytes 4 (stream_timestamp r) ++ be_bytes 4 (source_id r).

Definition padding_wire (n : nat) : bytes :=
  match n with
  | O => []
  | S k => replicate k 0 ++ [Z.of_nat n]
  end.

Definition pid_wire (t : PayloadID) (f : FEC) : bytes :=
  match t with
  | LDPC_Source_PayloadID =>
      be_bytes 2 (source_block_number f) ++ be_bytes 2 (encoding_symbol_id f)
      ++ be_bytes 2 (source_block_length f)
  | LDPC_Repair_PayloadID =>
      be_bytes 2 (source_block_number f) ++ be_bytes 2 (encoding_symbol_id f)
      ++ be_bytes 2 (source_block_length f) ++ be_bytes 2 (block_length f)
  | RS8M_PayloadID =>
      be_bytes 3 (source_block_number f) ++ be_bytes 1 (encoding_symbol_id f)
      ++ be_bytes 2 (source_block_length f)
  end.

(** The bytes that a slice shows of the buffer [m]. *)
Definition slice_bytes (m : bytes) (s : Slice) : bytes :=
  match sl_data s with
  | Some d => slice_of m d (sl_size s)
  | None => []
  end.

(** Field values that fit their wire fields. *)
Definition rtp_valid (r : RTP) : Prop :=
  is_u 32 (source_id r) /\ is_u 16 (seqnum r) /\ is_u 32 (stream_timestamp r)
  /\ is_u 7 (payload_type r).

Definition fec_valid (t : PayloadID) (f : FEC) : Prop :=
  is_u 16 (source_block_number f) /\ is_u 16 (source_block_length f)
  /\ is_u 16 (block_length f)
  /\ match t with
     | RS8M_PayloadID => is_u 8 (encoding_symbol_id f)
     | _ => is_u 16 (encoding_symbol_id f)
     end.

#[global] Instance rtp_valid_dec r : Decision (rtp_valid r).
Proof. unfold rtp_valid. apply _. Defined.

#[global] Instance fec_valid_dec t f : Decision (fec_valid t f).
Proof. unfold fec_valid. destruct t; apply _. Defined.

Lemma length_rtp_wire_header r padded : length (rtp_wire_header r padded) = 12%nat.
Proof. done. Qed.

Lemma length_pid_wire t f : length (pid_wire t f) = pid_size t.
Proof. by destruct t. Qed.

Lemma length_padding_wire n : length (padding_wire n) = n.
Proof. destruct n; simpl; [done|]. rewrite length_app, length_replicate. simpl. lia. Qed.

Lemma rtp_wire_header_Forall r padded :
  rtp_valid r -> Forall is_byte (rtp_wire_header r padded).
Proof.
  intros (_ & _ & _ & Hp). unfold is_u in Hp. unfold rtp_wire_header.
  repeat apply Forall_app_2; auto using be_bytes_Forall.
  repeat constructor; unfold is_byte, is_u; destruct padded, (marker r); lia.
Qed.

Lemma padding_wire_Forall n : (n <= 255)%nat -> Forall is_byte (padding_wire n).
Proof.
  intros Hn. destruct n as [|k]; [constructor|]. apply Forall_app_2.
  - by apply Forall_replicate.
  - repeat constructor; unfold is_byte, is_u; lia.
Qed.

Lemma pid_wire_Forall t f : Forall is_byte (pid_wire t f).
Proof. destruct t; repeat apply Forall_app_2; auto using be_bytes_Forall. Qed.

(** * Composing writes the wire format *)

Lemma mpt_with_pt (mk : bool) pt :
  is_u 7 pt ->
  bitfield_set 8 (if mk then 128 else 0) 0 0x7f pt = (if mk then 128 else 0) + pt.
Proof.
  unfold is_u. intros Hp. unfold bitfield_set. rewrite !Z.shiftl_0_r.
  destruct mk; cbv zeta iota.
  - replace (Z.land 128 (u8 (Z.lnot 0x7f))) with (1 * 2 ^ 7) by done.
    rewrite Z.lor_comm, (lor_low_high pt 1 7) by lia. rewrite wrap_u_small; unfold is_u; lia.
  - replace (Z.land 0 (u8 (Z.lnot 0x7f))) with 0 by done.
    rewrite Z.lor_0_l, wrap_u_small; unfold is_u; lia.
Qed.

Lemma land_ones_fits k v : 0 <= k -> is_u k v -> (Z.land v (Z.ones k) =? v) = true.
Proof. intros Hk Hv. rewrite Z.land_ones by done. apply Z.eqb_eq, Z.mod_small, Hv. Qed.

Lemma shiftr_fits k v : 0 <= k -> is_u k v -> (Z.shiftr v k =? 0) = true.
Proof.
  intros Hk Hv. rewrite Z.shiftr_div_pow2 by done. by apply Z.eqb_eq, Z.div_small.
Qed.

(** The setters used by [compose], on a header whose bytes are [H]: each one is an
    overwrite inside the header. *)
Section InHeader.

Context (host : cpu_endian) (m : bytes) (b : nat) (H : bytes).
Hypothesis (HL : length H = 12%nat) (Hb : (b + 12 <= length m)%nat).

Lemma in_set_version :
  hdr_set_version (overwrite m b H) b V2
  = Ok (overwrite m b (overwrite H 0 [bitfield_set 8 (H !!! O) 6 0x3 2])).
Proof using HL Hb.
  unfold hdr_set_version, hdr_flags. simpl panic_if.
  rewrite lookup_total_overwrite_0, overwrite_overwrite_0 by (simpl; lia). done.
Qed.

Lemma in_set_padding v :
  hdr_set_padding (overwrite m b H) b v
  = overwrite m b (overwrite H 0 [bitfield_set 8 (H !!! O) 5 0x1 (if v then 1 else 0)]).
Proof using HL Hb.
  unfold hdr_set_padding, hdr_flags.
  rewrite lookup_total_overwrite_0, overwrite_overwrite_0 by (simpl; lia). done.
Qed.

Lemma in_set_marker v :
  hdr_set_marker (overwrite m b H) b v
  = overwrite m b (overwrite H 1 [bitfield_set 8 (H !!! 1%nat) 7 0x1 (if v then 1 else 0)]).
Proof using HL Hb.
  unfold hdr_set_marker, hdr_mpt.
  rewrite lookup_total_overwrite, overwrite_overwrite by (simpl; lia). done.
Qed.

Lemma in_set_payload_type pt :
  is_u 7 pt ->
  hdr_set_payload_type (overwrite m b H) b pt
  = Ok (overwrite m b (overwrite H 1 [bitfield_set 8 (H !!! 1%nat) 0 0x7f pt])).
Proof using HL Hb.
  intros Hp. unfold hdr_set_payload_type, hdr_mpt.
  rewrite (land_ones_fits 7) by (done || lia). simpl panic_if.
  rewrite lookup_total_overwrite, overwrite_overwrite by (simpl; lia). done.
Qed.

Lemma in_set_seqnum sn :
  is_u 16 sn ->
  hdr_set_seqnum host (overwrite m b H) b sn = overwrite m b (overwrite H 2 (be_bytes 2 sn)).
Proof using HL Hb.
  intros Hs. unfold hdr_set_seqnum, hton16u.
  rewrite store16_net, overwrite_overwrite by (done || (simpl; lia)). done.
Qed.

Lemma in_set_timestamp ts :
  is_u 32 ts ->
  hdr_set_timestamp host (overwrite m b H) b ts
  = overwrite m b (overwrite H 4 (be_bytes 4 ts)).
Proof using HL Hb.
  intros Hs. unfold hdr_set_timestamp, hton32u.
  rewrite store32_net, overwrite_overwrite by (done || (simpl; lia)). done.
Qed.

Lemma in_set_ssrc s :
  is_u 32 s ->
  hdr_set_ssrc host (overwrite m b H) b s = overwrite m b (overwrite H 8 (be_bytes 4 s)).
Proof using HL Hb.
  intros Hs. unfold hdr_set_ssrc, hton32u.
  rewrite store32_net, overwrite_overwrite by (done || (simpl; lia)). done.
Qed.

End InHeader.

(** The header part of [Composer::compose]. *)
Definition rtp_write_header (host : cpu_endian) (m : bytes) (b : nat) (r : RTP) : res bytes :=
  let m := hdr_clear m b in
  let* m := hdr_set_version m b V2 in
  let m := hdr_set_ssrc host m b (source_id r) in
  let m := hdr_set_seqnum host m b (seqnum r) in
  let m := hdr_set_timestamp host m b (stream_timestamp r) in
  let m := hdr_set_marker m b (marker r) in
  hdr_set_payload_type m b (u8 (payload_type r)).

Lemma rtp_write_header_wire host m b r :
  (b + 12 <= length m)%nat -> rtp_valid r ->
  rtp_write_header host m b r = Ok (overwrite m b (rtp_wire_header r false)).
Proof.
  intros Hb (Hs & Hn & Ht & Hp). unfold rtp_write_header, hdr_clear.
  rewrite in_set_version by (done || lia). unfold res_bind.
  rewrite in_set_ssrc, in_set_seqnum, in_set_timestamp, in_set_marker by (done || lia).
  rewrite (wrap_u_small 8 (payload_type r)) by (unfold is_u in *; lia).
  rewrite in_set_payload_type by (done || lia). f_equal. f_equal.
  destruct r as [ssrc sn ts ? ? mk pt ? ? ?]. simpl in Hp.
  unfold rtp_wire_header. cbn -[Z.div Z.modulo bitfield_set Z.add].
  rewrite <- (mpt_with_pt mk pt Hp). by destruct mk.
Qed.

Lemma write_padding_wire m pd ps :
  (1 <= ps <= 255)%nat -> (pd + ps <= length m)%nat ->
  write_padding m pd ps = overwrite m pd (padding_wire ps).
Proof.
  intros Hps Hpd. unfold write_padding.
  rewrite wrap_u_small by (unfold is_u; lia).
  destruct ps as [|[|k]]; [lia| |].
  - simpl. by rewrite Nat.add_0_r.
  - rewrite (proj2 (Nat.ltb_lt _ _)) by lia.
    apply list_eq. intros i.
    rewrite !lookup_overwrite; rewrite ?length_overwrite; rewrite ?length_padding_wire;
      rewrite ?length_replicate; simpl length; try lia.
    simpl padding_wire. replace (S (S k) - 1)%nat with (S k) by lia.
    destruct (decide (pd + S k <= i < pd + S k + 1)%nat).
    + rewrite decide_True by lia. replace (i - (pd + S k))%nat with O by lia.
      replace (i - pd)%nat with (length (0 :: replicate k 0))
        by (simpl; rewrite length_replicate; lia).
      change (0 :: replicate k 0 ++ [Z.of_nat (S (S k))])
        with ((0 :: replicate k 0) ++ [Z.of_nat (S (S k))]).
      rewrite lookup_app_r by lia. by rewrite Nat.sub_diag.
    + destruct (decide (pd <= i < pd + S k)%nat).
      * rewrite decide_True by lia.
        change (0 :: replicate k 0 ++ [Z.of_nat (S (S k))])
          with (replicate (S k) 0 ++ [Z.of_nat (S (S k))]).
        rewrite lookup_app_l; [done|]. rewrite length_replicate. lia.
      * rewrite decide_False by lia. done.
Qed.

(** What [rtp::Composer::compose] leaves in the buffer. *)
Definition rtp_written (m : bytes) (b : nat) (r : RTP) (pd : nat) : bytes :=
  let ps := sl_size (rtp_padding r) in
  overwrite (overwrite m b (rtp_wire_header r (0 <? ps)%nat)) pd (padding_wire ps).

(** The packet's RTP part is laid out at [b] with its padding (if any) at [pd]. *)
Definition rtp_layout (m : bytes) (r : RTP) (b pd : nat) : Prop :=
  sl_data (rtp_header r) = Some b /\ sl_size (rtp_header r) = 12%nat
  /\ (b + 12 <= pd)%nat /\ (pd + sl_size (rtp_padding r) <= length m)%nat
  /\ (sl_size (rtp_padding r) <= 255)%nat
  /\ ((0 < sl_size (rtp_padding r))%nat -> sl_data (rtp_padding r) = Some pd).

Lemma rtp_compose_wire host inner packet b pd :
  has_flags packet FlagRTP = true -> rtp_valid (rtp_ packet) ->
  rtp_layout (pkt_mem packet) (rtp_ packet) b pd ->
  composer_compose host (RtpComposer inner) packet =
    let packet' := with_mem packet (rtp_written (pkt_mem packet) b (rtp_ packet) pd) in
    match inner with
    | Some inner => composer_compose host inner packet'
    | None => Ok (true, packet')
    end.
Proof.
  intros HF HV (L1 & L2 & L3 & L4 & L5 & L6). simpl_compose.
  unfold packet_rtp. rewrite HF, L2. cbn [negb Nat.eqb sizeof_Header panic_if].
  unfold slice_data at 1. rewrite L1. cbv zeta. unfold res_bind at 1.
  pose proof (rtp_write_header_wire host (pkt_mem packet) b (rtp_ packet) ltac:(lia) HV) as HW.
  unfold rtp_write_header in HW. unfold res_bind at 1.
  destruct (hdr_set_version (hdr_clear (pkt_mem packet) b) b V2) as [m1|]; [|discriminate].
  unfold res_bind in HW. rewrite HW. unfold res_bind, rtp_written.
  destruct (sl_size (rtp_padding (rtp_ packet))) as [|ps] eqn:E.
  - change (0 <? 0)%nat with false. simpl padding_wire. rewrite overwrite_nil. by destruct inner.
  - change (0 <? S ps)%nat with true. cbv iota. unfold slice_data. rewrite L6 by lia.
    rewrite (proj2 (Nat.ltb_ge _ _)) by lia.
    rewrite in_set_padding by (done || lia).
    rewrite write_padding_wire; [|lia|rewrite length_overwrite; cbn; lia].
    by destruct inner.
Qed.

(** The octets of a value as [set_sbn] of the Reed-Solomon payload id extracts them. *)
Lemma octet_u8 v k : 0 <= k -> u8 (Z.land (Z.shiftr v k) 0xff) = v / 2 ^ k mod 256.
Proof.
  intros Hk. change 0xff with (Z.ones 8). rewrite Z.land_ones, Z.shiftr_div_pow2 by lia.
  apply Zmod_mod.
Qed.

Lemma be_bytes_3 v : be_bytes 3 v = [v / 2 ^ 16 mod 256; v / 2 ^ 8 mod 256; v mod 256].
Proof. unfold be_bytes. cbn -[Z.div Z.modulo Z.pow]. by rewrite Z.div_div by lia. Qed.

Section InPayloadID.

Context (host : cpu_endian) (t : PayloadID) (m : bytes) (b : nat) (H : bytes).
Hypothesis (HL : length H = pid_size t) (Hb : (b + pid_size t <= length m)%nat).

Lemma in_set_esi v :
  match t with RS8M_PayloadID => is_u 8 v | _ => is_u 16 v end ->
  pid_set_esi host t (overwrite m b H) b v
  = Ok (overwrite m b (match t with
                       | RS8M_PayloadID => overwrite H 3 (be_bytes 1 v)
                       | _ => overwrite H 2 (be_bytes 2 v)
                       end)).
Proof using HL Hb.
  intros Hv. destruct t; unfold pid_set_esi, hton16u; simpl in *.
  - by rewrite store16_net, overwrite_overwrite by (done || (simpl; lia)).
  - by rewrite store16_net, overwrite_overwrite by (done || (simpl; lia)).
  - rewrite shiftr_fits by (done || lia). simpl panic_if.
    by rewrite overwrite_overwrite by (simpl; lia).
Qed.

Lemma in_set_sbn v :
  is_u 16 v ->
  pid_set_sbn host t (overwrite m b H) b v
  = Ok (overwrite m b (match t with
                       | RS8M_PayloadID => overwrite H 0 (be_bytes 3 v)
                       | _ => overwrite H 0 (be_bytes 2 v)
                       end)).
Proof using HL Hb.
  intros Hv. destruct t; unfold pid_set_sbn, hton16u; simpl in HL, Hb.
  - rewrite wrap_u_small by done.
    by rewrite store16_net, overwrite_overwrite_0 by (done || (simpl; lia)).
  - rewrite wrap_u_small by done.
    by rewrite store16_net, overwrite_overwrite_0 by (done || (simpl; lia)).
  - rewrite (shiftr_fits 24) by (lia || (unfold is_u in *; lia)). simpl panic_if.
    rewrite !octet_u8 by lia. change (Z.land v 0xff) with (Z.land v (Z.ones 8)).
    rewrite Z.land_ones by lia. rewrite (wrap_u_small 8 (v mod 2 ^ 8)) by (unfold is_u; zlia).
    rewrite be_bytes_3. f_equal.
    rewrite (overwrite_app (overwrite m b H) b [_] [_])
      by (rewrite length_overwrite; simpl; lia). cbn [app].
    rewrite (overwrite_app (overwrite m b H) b [_; _] [_])
      by (rewrite length_overwrite; simpl; lia).
    by rewrite overwrite_overwrite_0 by (simpl; lia).
Qed.

Lemma in_set_k v :
  is_u 16 v ->
  pid_set_k host t (overwrite m b H) b v = overwrite m b (overwrite H 4 (be_bytes 2 v)).
Proof using HL Hb.
  intros Hv. unfold pid_set_k, hton16u.
  by rewrite store16_net, overwrite_overwrite by (done || (destruct t; simpl in *; lia)).
Qed.

Lemma in_set_n v :
  is_u 16 v ->
  pid_set_n host t (overwrite m b H) b v
  = overwrite m b (match t with
                   | LDPC_Repair_PayloadID => overwrite H 6 (be_bytes 2 v)
                   | _ => H
                   end).
Proof using HL Hb.
  intros Hv. destruct t; try done. unfold pid_set_n, hton16u. simpl in *.
  by rewrite store16_net, overwrite_overwrite by (done || (simpl; lia)).
Qed.

End InPayloadID.

Lemma fec_compose_wire host pid type pos inner packet b :
  has_flags packet FlagFEC = true -> fec_valid pid (fec_ packet) ->
  sl_data (fec_payload_id (fec_ packet)) = Some b ->
  sl_size (fec_payload_id (fec_ packet)) = pid_size pid ->
  (b + pid_size pid <= length (pkt_mem packet))%nat ->
  composer_compose host (FecComposer pid type pos inner) packet =
    let packet' := with_mem packet (overwrite (pkt_mem packet) b (pid_wire pid (fec_ packet))) in
    match inner with
    | Some inner => composer_compose host inner packet'
    | None => Ok (true, packet')
    end.
Proof.
  intros HF (Hsbn & Hk & Hn & Hesi) L1 L2 Hb. simpl_compose.
  unfold packet_fec. rewrite HF, L2, Nat.eqb_refl. cbn [negb panic_if].
  unfold slice_data. rewrite L1. cbv zeta. unfold res_bind at 1.
  assert (is_u 16 (encoding_symbol_id (fec_ packet))) as Hesi'
    by (destruct pid; unfold is_u in *; lia).
  rewrite !shiftr_fits by (done || lia). cbn [negb panic_if].
  rewrite !(wrap_u_small 16) by done. unfold pid_clear.
  rewrite in_set_esi; [|by rewrite length_replicate|done|done]. unfold res_bind at 1.
  rewrite in_set_sbn; [|by destruct pid|done|done]. unfold res_bind at 1.
  rewrite in_set_k; [|by destruct pid|done|done].
  rewrite in_set_n; [|by destruct pid|done|done].
  replace (overwrite (pkt_mem packet) b _) with
    (overwrite (pkt_mem packet) b (pid_wire pid (fec_ packet))); [by destruct inner|].
  f_equal. destruct (fec_ packet), pid; done.
Qed.

(** * Parsing the wire format *)

(** Reading a header at [d] of a buffer whose bytes from [d] on are [W]. *)
Section ReadHeader.

Context (host : cpu_endian) (m : bytes) (d n : nat) (r : RTP) (padded : bool) (rest : bytes).
Hypothesis (Hm : Forall is_byte m) (Hn : (d + n <= length m)%nat) (HV : rtp_valid r).
Hypothesis (HW : slice_of m d n = rtp_wire_header r padded ++ rest).

Lemma read_size : (n = 12 + length rest)%nat.
Proof using Hn HW.
  apply (f_equal length) in HW. rewrite length_slice_of, length_app in HW by done.
  done.
Qed.

Lemma read_flags : hdr_flags m d = 128 + (if padded then 32 else 0).
Proof using Hn HW.
  pose proof read_size. unfold hdr_flags.
  rewrite <- (Nat.add_0_r d) at 1. rewrite <- (lookup_total_slice_of m d n) by lia.
  by rewrite HW.
Qed.

Lemma read_mpt : hdr_mpt m d = (if marker r then 128 else 0) + payload_type r.
Proof using Hn HW.
  pose proof read_size. unfold hdr_mpt.
  rewrite <- (lookup_total_slice_of m d n) by lia. by rewrite HW.
Qed.

Lemma read_seqnum : hdr_seqnum host m d = seqnum r.
Proof using Hn HW HV Hm.
  pose proof read_size. unfold hdr_seqnum, ntoh16u. rewrite load16_net by (done || lia).
  rewrite <- (slice_of_slice_of m d n) by lia. rewrite HW.
  apply (be_value_be_bytes 2), HV.
Qed.

Lemma read_timestamp : hdr_timestamp host m d = stream_timestamp r.
Proof using Hn HW HV Hm.
  pose proof read_size. unfold hdr_timestamp, ntoh32u. rewrite load32_net by (done || lia).
  rewrite <- (slice_of_slice_of m d n) by lia. rewrite HW.
  apply (be_value_be_bytes 4), HV.
Qed.

Lemma read_ssrc : hdr_ssrc host m d = source_id r.
Proof using Hn HW HV Hm.
  pose proof read_size. unfold hdr_ssrc, ntoh32u. rewrite load32_net by (done || lia).
  rewrite <- (slice_of_slice_of m d n) by lia. rewrite HW.
  apply (be_value_be_bytes 4), HV.
Qed.

Lemma read_payload_type : hdr_payload_type m d = payload_type r.
Proof using Hn HW HV.
  unfold hdr_payload_type, bitfield_get. rewrite read_mpt, Z.shiftr_0_r.
  change 0x7f with (Z.ones 7). rewrite Z.land_ones by lia.
  destruct HV as (_ & _ & _ & Hp). unfold is_u in Hp. destruct (marker r); zlia.
Qed.

Lemma read_marker : hdr_marker m d = marker r.
Proof using Hn HW HV.
  unfold hdr_marker. rewrite read_mpt, flag_test by lia.
  destruct HV as (_ & _ & _ & Hp). unfold is_u in Hp.
  destruct (marker r); [apply Z.eqb_eq|apply Z.eqb_neq]; zlia.
Qed.

Lemma read_has_padding : hdr_has_padding m d = padded.
Proof using Hn HW. unfold hdr_has_padding. rewrite read_flags. by destruct padded. Qed.

Lemma readable_ok (l : bytes) b k : (b + k <= length l)%nat -> readable l b k = Ok ().
Proof using. intros Hk. unfold readable. by rewrite (proj2 (Nat.ltb_ge _ _)). Qed.

Lemma read_header_size : rtp_header_size host m d n = Ok (Some 12%nat).
Proof using Hn HW.
  pose proof read_size. unfold rtp_header_size.
  rewrite readable_ok by (unfold sizeof_Header; lia). cbn [res_bind]. unfold hdr_has_extension, hdr_header_size, hdr_num_csrc.
  rewrite read_flags. replace (negb _) with false by by destruct padded.
  replace (bitfield_get _ _ _) with 0 by by destruct padded.
  cbn [sizeof_Header Nat.add Nat.mul Z.to_nat].
  rewrite (proj2 (Nat.ltb_ge _ _)) by lia. cbn [res_bind].
  by rewrite (proj2 (Nat.ltb_ge _ _)) by lia.
Qed.

End ReadHeader.

Lemma padding_wire_last ps : (0 < ps)%nat -> padding_wire ps !!! (ps - 1)%nat = Z.of_nat ps.
Proof.
  destruct ps as [|k]; [lia|]. intros _. simpl. rewrite Nat.sub_0_r.
  rewrite list_lookup_total_alt, lookup_app_r by by rewrite length_replicate.
  by rewrite length_replicate, Nat.sub_diag.
Qed.

Lemma read_pad_size m d n r pl ps :
  Forall is_byte m -> (d + n <= length m)%nat -> (ps <= 255)%nat ->
  slice_of m d n = rtp_wire_header r (0 <? ps)%nat ++ pl ++ padding_wire ps ->
  rtp_pad_size m d 12 n = Ok (Some ps).
Proof.
  intros Hm Hn Hps HW. unfold rtp_pad_size.
  pose proof (read_size m d n r _ _ Hn HW) as Hsz.
  rewrite length_app, length_padding_wire in Hsz.
  rewrite (read_has_padding m d n r _ _ Hn HW).
  destruct (Nat.ltb_spec 0 ps); [|do 2 f_equal; lia].
  rewrite (proj2 (Nat.eqb_neq _ _)) by lia. rewrite readable_ok by lia. cbn [res_bind].
  assert (m !!! (d + (n - 1))%nat = Z.of_nat ps) as ->.
  { rewrite <- (lookup_total_slice_of m d n), HW by lia.
    rewrite lookup_total_app_r by (rewrite length_rtp_wire_header; lia).
    rewrite lookup_total_app_r by (rewrite length_rtp_wire_header; lia).
    rewrite length_rtp_wire_header. rewrite <- (padding_wire_last ps) by done.
    f_equal. lia. }
  rewrite Nat2Z.id.
  rewrite (proj2 (Nat.eqb_neq _ _)), (proj2 (Nat.ltb_ge _ _)) by lia. done.
Qed.

(** The packet produced by [rtp::Parser] from the wire bytes of [r]. *)
Definition rtp_parsed (packet : Packet) (r : RTP) (d cap npl ps : nat) : Packet :=
  let old := rtp_ packet in
  with_rtp (with_flags packet (Z.lor (flags_ packet) FlagRTP))
    (mkRTP (source_id r) (seqnum r) (stream_timestamp r) (duration old) (capture_timestamp old)
       (marker r) (payload_type r)
       (mkSlice (Some d) 12 cap) (mkSlice (Some (d + 12)%nat) npl cap)
       (if (ps =? 0)%nat then rtp_padding old else mkSlice (Some (d + 12 + npl)%nat) ps cap)).

Lemma rtp_parse_wire host find_by_pt inner packet r d n cap pl ps :
  Forall is_byte (pkt_mem packet) -> (d + n <= length (pkt_mem packet))%nat ->
  rtp_valid r -> (ps <= 255)%nat -> has_flags packet FlagRTP = false ->
  slice_of (pkt_mem packet) d n = rtp_wire_header r (0 <? ps)%nat ++ pl ++ padding_wire ps ->
  parser_parse host find_by_pt (RtpParser inner) packet (mkSlice (Some d) n cap) =
    let* packet' :=
      match find_by_pt (payload_type r) with
      | Some fl => add_flags (rtp_parsed packet r d cap (length pl) ps) fl
      | None => Ok (rtp_parsed packet r d cap (length pl) ps)
      end in
    match inner with
    | Some inner => parser_parse host find_by_pt inner packet'
                      (mkSlice (Some (d + 12)%nat) (length pl) cap)
    | None => Ok (true, packet')
    end.
Proof.
  intros Hm Hn HV Hps HF HW.
  pose proof (read_size _ d n r _ _ Hn HW) as Hsz.
  rewrite length_app, length_padding_wire in Hsz.
  simpl_parse. rewrite (proj2 (Nat.ltb_ge n sizeof_Header)) by (unfold sizeof_Header; lia).
  unfold slice_data at 1. cbn [sl_data res_bind].
  rewrite readable_ok by (unfold sizeof_Header; lia). cbn [res_bind].
  unfold hdr_version. rewrite (read_flags _ d n r _ _ Hn HW).
  replace (negb _) with false by by destruct (0 <? ps)%nat.
  rewrite (read_header_size _ _ d n r _ _ Hn HW). cbn [res_bind].
  rewrite (read_pad_size _ d n r pl ps Hm Hn Hps HW).
  rewrite add_flags_ok by done. cbn [res_bind].
  rewrite !slice_subslice_ok by lia. cbn [res_bind].
  rewrite (read_ssrc host _ d n r _ _ Hm Hn HV HW), (read_seqnum host _ d n r _ _ Hm Hn HV HW),
    (read_timestamp host _ d n r _ _ Hm Hn HV HW), (read_marker _ d n r _ _ Hn HV HW),
    (read_payload_type _ d n r _ _ Hn HV HW).
  unfold rtp_parsed. rewrite Nat.add_0_r, Nat.sub_0_r.
  replace (n - ps - 12)%nat with (length pl) by lia.
  replace (d + (n - ps))%nat with (d + 12 + length pl)%nat by lia.
  replace (n - ps + ps - (n - ps))%nat with ps by lia.
  by destruct (ps =? 0)%nat, inner; cbn [res_bind].
Qed.

(** [block_length] as it arrives: the formats other than the LDPC repair payload id do
    not carry it. *)
Definition wire_block_length (t : PayloadID) (f : FEC) : Z :=
  match t with
  | LDPC_Source_PayloadID => 0
  | LDPC_Repair_PayloadID => block_length f
  | RS8M_PayloadID => 255
  end.

(** A 16-bit field of the payload id at [b]. *)
Lemma read_pid16 host m b n W i v :
  Forall is_byte m -> (b + n <= length m)%nat -> slice_of m b n = W ->
  is_u 16 v -> (i + 2 <= n)%nat -> slice_of W i 2 = be_bytes 2 v ->
  ntoh16u host (load host 2 m (b + i)) = v.
Proof.
  intros Hm Hb HW Hv Hi E. unfold ntoh16u. rewrite load16_net by (done || lia).
  rewrite <- (slice_of_slice_of m b n), HW, E by lia.
  by apply (be_value_be_bytes 2).
Qed.

(** The three octets of the Reed-Solomon block number. *)
Lemma rs8m_sbn v :
  is_u 16 v ->
  Z.lor (Z.lor (u32 (Z.shiftl (v / 2 ^ 16 mod 256) 16)) (u32 (Z.shiftl (v / 2 ^ 8 mod 256) 8)))
        (v mod 256) = v.
Proof.
  unfold is_u. intros Hv. rewrite !Z.shiftl_mul_pow2 by lia.
  rewrite !(wrap_u_small 32) by (unfold is_u; zlia).
  replace (v / 2 ^ 16 mod 256) with 0 by zlia. rewrite Z.lor_0_l, Z.lor_comm.
  rewrite lor_low_high by zlia. zlia.
Qed.

Lemma read_payload_id host t m b f :
  Forall is_byte m -> (b + pid_size t <= length m)%nat -> fec_valid t f ->
  slice_of m b (pid_size t) = pid_wire t f ->
  pid_esi host t m b = encoding_symbol_id f
  /\ u16 (pid_sbn host t m b) = source_block_number f
  /\ pid_k host t m b = source_block_length f
  /\ pid_n host t m b = wire_block_length t f.
Proof.
  intros Hm Hb (Hs & Hk & Hn & He) HW. unfold pid_esi, pid_sbn, pid_k, pid_n.
  pose proof (fun i v => read_pid16 host m b _ _ i v Hm Hb HW) as HR.
  pose proof (HR 0%nat (source_block_number f)) as HR0. rewrite Nat.add_0_r in HR0.
  destruct t; simpl pid_size in *; split_and!; try (apply HR; done || lia); try done.
  - rewrite HR0; [by apply wrap_u_small|done|lia|done].
  - rewrite HR0; [by apply wrap_u_small|done|lia|done].
  - rewrite <- (lookup_total_slice_of m b 6), HW by lia.
    unfold is_u in He. cbn -[Z.div Z.modulo]. zlia.
  - rewrite <- (Nat.add_0_r b) at 1. rewrite <- !(lookup_total_slice_of m b 6), HW by lia.
    cbn [pid_wire]. rewrite be_bytes_3. cbn [app lookup_total list_lookup_total].
    rewrite rs8m_sbn by done. by apply wrap_u_small.
Qed.

(** The packet produced by [fec::Parser] from the payload id of [f]. *)
Definition fec_parsed (packet : Packet) (pid : PayloadID) (type : PayloadID_Type) (f : FEC)
    (payload : Slice) : Packet :=
  let fl := match type with Repair => Z.lor (flags_ packet) FlagRepair | Source => flags_ packet end in
  with_fec (with_flags packet (Z.lor fl FlagFEC))
    (mkFEC (pid_fec_scheme pid) (encoding_symbol_id f) (source_block_number f)
       (source_block_length f) (wire_block_length pid f) (fec_payload_id (fec_ packet)) payload).

(** Where the payload id and the payload are in a FECFRAME packet of [n] bytes at [d]. *)
Definition fec_split (pid : PayloadID) (pos : PayloadID_Pos) (d n : nat) : nat * nat :=
  match pos with
  | Header => (d, d + pid_size pid)%nat
  | Footer => (d + (n - pid_size pid), d)%nat
  end.

Lemma fec_parse_wire host find_by_pt pid type pos inner packet f d n cap b pd :
  fec_split pid pos d n = (b, pd) ->
  Forall is_byte (pkt_mem packet) -> (d + n <= length (pkt_mem packet))%nat ->
  (pid_size pid <= n)%nat -> fec_valid pid f ->
  has_flags packet FlagRepair = false -> has_flags packet FlagFEC = false ->
  slice_of (pkt_mem packet) b (pid_size pid) = pid_wire pid f ->
  parser_parse host find_by_pt (FecParser pid type pos inner) packet (mkSlice (Some d) n cap) =
    let payload := mkSlice (Some pd) (n - pid_size pid) cap in
    let packet' := fec_parsed packet pid type f payload in
    match inner with
    | Some inner => parser_parse host find_by_pt inner packet' payload
    | None => Ok (true, packet')
    end.
Proof.
  intros Hsp Hm Hn Hsz HV HR HF HW. simpl_parse.
  rewrite (proj2 (Nat.ltb_ge _ _)) by lia. unfold slice_data. cbn [sl_data res_bind].
  assert (match pos with Header => d | Footer => (d + n - pid_size pid)%nat end = b
          /\ (b + pid_size pid <= length (pkt_mem packet))%nat) as [-> Hb].
  { destruct pos; injection Hsp as <- <-; lia. }
  rewrite readable_ok by done. cbn [res_bind].
  destruct (read_payload_id host pid _ b f Hm Hb HV HW) as (-> & -> & -> & ->).
  assert (match pos with
          | Header => slice_subslice (mkSlice (Some d) n cap) (pid_size pid) n
          | Footer => slice_subslice (mkSlice (Some d) n cap) 0 (n - pid_size pid)
          end = Ok (mkSlice (Some pd) (n - pid_size pid) cap)) as ->.
  { destruct pos; injection Hsp as <- <-; rewrite slice_subslice_ok by lia;
      by rewrite ?Nat.add_0_r, ?Nat.sub_0_r. }
  assert (has_flags (with_flags packet (Z.lor (flags_ packet) FlagRepair)) FlagFEC = false) as HF'.
  { rewrite has_flags_lor. change (has_flags (with_flags packet (flags_ packet)) FlagFEC)
      with (has_flags packet FlagFEC). by rewrite HF. }
  destruct type; cbn [res_bind].
  - rewrite add_flags_ok by done. by destruct inner.
  - rewrite (add_flags_ok packet) by done. cbn [res_bind]. rewrite add_flags_ok by done.
    by destruct inner.
Qed.

(** * Preparing a packet lays it out *)

Definition with_rtp_slices (r : RTP) (header payload : Slice) : RTP :=
  mkRTP (source_id r) (seqnum r) (stream_timestamp r) (duration r) (capture_timestamp r)
    (marker r) (payload_type r) header payload (rtp_padding r).

Lemma rtp_prepare_layout packet d n cap k :
  has_flags packet FlagRTP = false -> (d + 12 + k <= cap)%nat ->
  composer_prepare (RtpComposer None) packet (mkSlice (Some d) n cap) k =
    Ok (true,
        with_rtp (with_flags packet (Z.lor (flags_ packet) FlagRTP))
          (with_rtp_slices (rtp_ packet) (mkSlice (Some d) 12 cap)
             (mkSlice (Some (d + 12)%nat) k cap)),
        mkSlice (Some d) (12 + k) cap).
Proof.
  intros HF Hc. simpl_prepare.
  rewrite slice_subslice_ok by lia. cbn [res_bind]. rewrite Nat.add_0_r, Nat.sub_0_r.
  unfold slice_capacity at 1. cbn [sl_data sl_buf_size].
  rewrite (proj2 (Nat.ltb_ge _ _)) by (unfold sizeof_Header; lia).
  rewrite slice_reslice_ok by (unfold sizeof_Header; lia). cbn [res_bind sl_size].
  rewrite slice_subslice_ok by lia. cbn [res_bind].
  unfold slice_capacity. cbn [sl_data sl_buf_size].
  replace (d + 0 + (sizeof_Header - 0))%nat with (d + 12)%nat by (unfold sizeof_Header; lia).
  rewrite (proj2 (Nat.ltb_ge _ _)) by lia.
  rewrite slice_reslice_ok by lia. cbn [res_bind negb].
  rewrite add_flags_ok by done. cbn [res_bind sl_size].
  rewrite slice_reslice_ok by (unfold sizeof_Header; lia). cbn [res_bind].
  rewrite !Nat.add_0_r, !Nat.sub_0_r. done.
Qed.

Definition with_fec_slices (f : FEC) (pid : PayloadID) (payload_id payload : Slice) : FEC :=
  mkFEC (pid_fec_scheme pid) (encoding_symbol_id f) (source_block_number f)
    (source_block_length f) (block_length f) payload_id payload.

Lemma fec_rtp_prepare_layout pid packet d n cap k :
  has_flags packet FlagRTP = false -> has_flags packet FlagFEC = false ->
  (d + 12 + k + pid_size pid <= cap)%nat ->
  composer_prepare (FecComposer pid Source Footer (Some (RtpComposer None))) packet
      (mkSlice (Some d) n cap) k =
    Ok (true,
        with_fec
          (with_flags
             (with_rtp packet (with_rtp_slices (rtp_ packet) (mkSlice (Some d) 12 cap)
                                 (mkSlice (Some (d + 12)%nat) k cap)))
             (Z.lor (Z.lor (flags_ packet) FlagRTP) FlagFEC))
          (with_fec_slices (fec_ packet) pid
             (mkSlice (Some (d + (12 + k))%nat) (pid_size pid) cap)
             (mkSlice (Some d) (12 + k) cap)),
        mkSlice (Some d) (pid_size pid + (12 + k)) cap).
Proof.
  intros HF HF2 Hc.
  change (composer_prepare (FecComposer pid Source Footer (Some (RtpComposer None))) packet
      (mkSlice (Some d) n cap) k) with
    (let* payload_id := slice_subslice (mkSlice (Some d) n cap) 0 0 in
     let* payload := slice_subslice payload_id (sl_size payload_id) (sl_size payload_id) in
     let* '(ok, packet, payload) :=
       composer_prepare (RtpComposer None) packet payload k in
     if negb ok then Ok (false, packet, mkSlice (Some d) n cap)
     else
       let* '(ok, payload_id) :=
         let* payload_id := slice_subslice payload (sl_size payload) (sl_size payload) in
         if (slice_capacity payload_id <? pid_size pid)%nat then Ok (false, payload_id)
         else let* payload_id := slice_reslice payload_id 0 (pid_size pid) in
              Ok (true, payload_id) in
       if negb ok then Ok (false, packet, mkSlice (Some d) n cap)
       else
         let* packet := add_flags packet FlagFEC in
         let* buffer := slice_reslice (mkSlice (Some d) n cap) 0
                          (sl_size payload_id + sl_size payload) in
         Ok (true, with_fec packet (with_fec_slices (fec_ packet) pid payload_id payload), buffer)).
  rewrite slice_subslice_ok by lia. cbn [res_bind sl_size]. rewrite Nat.add_0_r, Nat.sub_0_r.
  rewrite slice_subslice_ok by lia. cbn [res_bind]. rewrite Nat.add_0_r, Nat.sub_0_r.
  rewrite rtp_prepare_layout by (done || lia). cbn [res_bind negb sl_size].
  rewrite slice_subslice_ok by lia. cbn [res_bind].
  unfold slice_capacity. cbn [sl_data sl_buf_size].
  rewrite (proj2 (Nat.ltb_ge _ _)) by lia. rewrite slice_reslice_ok by lia.
  cbn [res_bind negb]. rewrite add_flags_ok.
  2: { change (has_flags (with_flags packet (Z.lor (flags_ packet) FlagRTP)) FlagFEC = false).
       rewrite has_flags_lor. change (with_flags packet (flags_ packet)) with packet || idtac.
       unfold has_flags at 1. simpl flags_. fold (has_flags packet FlagFEC). by rewrite HF2. }
  cbn [res_bind sl_size]. rewrite slice_reslice_ok by lia. cbn [res_bind].
  rewrite !Nat.add_0_r, !Nat.sub_0_r. done.
Qed.

Lemma fec_repair_prepare_layout pid packet d n cap k :
  has_flags packet FlagRepair = false -> has_flags packet FlagFEC = false ->
  (d + pid_size pid + k <= cap)%nat ->
  composer_prepare (FecComposer pid Repair Header None) packet (mkSlice (Some d) n cap) k =
    Ok (true,
        with_fec (with_flags packet (Z.lor (Z.lor (flags_ packet) FlagRepair) FlagFEC))
          (with_fec_slices (fec_ packet) pid (mkSlice (Some d) (pid_size pid) cap)
             (mkSlice (Some (d + pid_size pid)%nat) k cap)),
        mkSlice (Some d) (pid_size pid + k) cap).
Proof.
  intros HR HF Hc. simpl_prepare.
  rewrite slice_subslice_ok by lia. cbn [res_bind]. rewrite Nat.add_0_r, Nat.sub_0_r.
  unfold slice_capacity at 1. cbn [sl_data sl_buf_size].
  rewrite (proj2 (Nat.ltb_ge _ _)) by lia.
  rewrite slice_reslice_ok by lia. cbn [res_bind sl_size].
  rewrite slice_subslice_ok by lia. cbn [res_bind].
  rewrite slice_reslice_ok by lia. cbn [res_bind negb].
  rewrite (add_flags_ok packet) by done. cbn [res_bind]. rewrite add_flags_ok.
  2: { rewrite has_flags_lor. unfold has_flags at 1. simpl flags_.
       fold (has_flags packet FlagFEC). by rewrite HF. }
  cbn [res_bind sl_size]. rewrite slice_reslice_ok by lia. cbn [res_bind].
  rewrite !Nat.add_0_r, !Nat.sub_0_r. done.
Qed.

(** * Round trips *)

(** The sender between [prepare] and [compose]: the sequencer, FEC writer and encoder
    fill in the fields of the protocol parts and the payload bytes. *)
Definition fill_rtp (p : Packet) (r : RTP) : Packet :=
  with_rtp p (mkRTP (source_id r) (seqnum r) (stream_timestamp r) (duration r)
    (capture_timestamp r) (marker r) (payload_type r)
    (rtp_header (rtp_ p)) (rtp_payload (rtp_ p)) (rtp_padding (rtp_ p))).

Definition fill_fec (p : Packet) (f : FEC) : Packet :=
  with_fec p (mkFEC (fec_scheme (fec_ p)) (encoding_symbol_id f) (source_block_number f)
    (source_block_length f) (block_length f) (fec_payload_id (fec_ p)) (fec_payload (fec_ p))).

Definition fill_payload (p : Packet) (s : Slice) (pl : bytes) : Packet :=
  match sl_data s with
  | Some d => with_mem p (overwrite (pkt_mem p) d pl)
  | None => p
  end.

(** The payload type's flags, when known, do not overlap the ones the parsers set. *)
Definition encoding_flags_ok (find_by_pt : Z -> option Z) : Prop :=
  forall pt fl, find_by_pt pt = Some fl ->
    Z.land (Z.lor (Z.lor FlagRTP FlagFEC) FlagRepair) fl = 0.

(** The header fields of an RTP packet. *)
Definition rtp_fields (r : RTP) : Z * Z * Z * bool * Z :=
  (source_id r, seqnum r, stream_timestamp r, marker r, payload_type r).

Definition fec_fields (f : FEC) : Z * Z * Z :=
  (encoding_symbol_id f, source_block_number f, source_block_length f).

Lemma rtp_valid_ext r r' : rtp_fields r = rtp_fields r' -> rtp_valid r -> rtp_valid r'.
Proof. unfold rtp_fields, rtp_valid. intros E. by inv E. Qed.

Lemma rtp_wire_header_ext r r' padded :
  rtp_fields r = rtp_fields r' -> rtp_wire_header r padded = rtp_wire_header r' padded.
Proof. unfold rtp_fields, rtp_wire_header. intros E. by inv E. Qed.

(** The bytes of header, payload and padding written one after another. *)
Lemma slice_of_pieces m d h pl pad :
  (d + length h + length pl + length pad <= length m)%nat ->
  slice_of
    (overwrite (overwrite (overwrite m (d + length h) pl) d h) (d + length h + length pl) pad)
    d (length h + length pl + length pad) = h ++ pl ++ pad.
Proof.
  intros H. apply list_eq. intros i. unfold slice_of.
  destruct (decide (i < length h + length pl + length pad)%nat).
  - rewrite lookup_take_lt, lookup_drop by done.
    rewrite !lookup_overwrite; rewrite ?length_overwrite; rewrite ?length_overwrite; try lia.
    destruct (decide (i < length h)%nat).
    + rewrite decide_False, decide_True, lookup_app_l by lia. f_equal. lia.
    + rewrite lookup_app_r by lia. destruct (decide (i < length h + length pl)%nat).
      * rewrite decide_False, decide_False, decide_True, lookup_app_l by lia. f_equal. lia.
      * rewrite decide_True, lookup_app_r by lia. f_equal. lia.
  - rewrite lookup_take_ge by lia. symmetry. apply lookup_ge_None. rewrite !length_app. lia.
Qed.

Lemma rtp_pad_layout packet d cap k ps :
  has_flags packet FlagRTP = true -> rtp_padding (rtp_ packet) = slice_empty ->
  rtp_payload (rtp_ packet) = mkSlice (Some d) (k + ps) cap ->
  composer_pad (RtpComposer None) packet ps =
    Ok (true, with_rtp packet
      (mkRTP (source_id (rtp_ packet)) (seqnum (rtp_ packet)) (stream_timestamp (rtp_ packet))
         (duration (rtp_ packet)) (capture_timestamp (rtp_ packet)) (marker (rtp_ packet))
         (payload_type (rtp_ packet)) (rtp_header (rtp_ packet))
         (mkSlice (Some d) k cap) (mkSlice (Some (d + k)%nat) ps cap))).
Proof.
  intros HF HP HL. cbn [composer_pad]. unfold rtp_composer_pad. unfold packet_rtp. rewrite HF, HP, HL.
  cbn [slice_bool slice_empty sl_data panic_if sl_size]. cbv zeta.
  rewrite (proj2 (Nat.ltb_ge _ _)) by lia.
  rewrite !slice_subslice_ok by lia. cbn [res_bind].
  rewrite Nat.add_0_r, Nat.sub_0_r. replace (k + ps - ps)%nat with k by lia.
  by replace (k + ps - k)%nat with ps by lia.
Qed.

(** The flags added for a known payload type. *)
Definition add_encoding (find_by_pt : Z -> option Z) (pt : Z) (p : Packet) : Packet :=
  match find_by_pt pt with
  | Some fl => with_flags p (Z.lor (flags_ p) fl)
  | None => p
  end.

Lemma encoding_flags_add find_by_pt pt p :
  encoding_flags_ok find_by_pt ->
  Z.ldiff (flags_ p) (Z.lor (Z.lor FlagRTP FlagFEC) FlagRepair) = 0 ->
  match find_by_pt pt with
  | Some fl => add_flags p fl
  | None => Ok p
  end = Ok (add_encoding find_by_pt pt p).
Proof.
  intros HE Hp. unfold add_encoding.
  destruct (find_by_pt pt) as [fl|] eqn:HF; [|done].
  specialize (HE _ _ HF). apply add_flags_ok. unfold has_flags.
  apply negb_false_iff, Z.eqb_eq. apply Z.bits_inj'; intros i Hi.
  apply (f_equal (fun z => Z.testbit z i)) in HE, Hp.
  rewrite Z.land_spec, Z.bits_0 in *. rewrite Z.ldiff_spec in Hp.
  destruct (Z.testbit (flags_ p) i); [|done]. simpl in *.
  by rewrite (proj1 (negb_false_iff _) Hp) in HE.
Qed.

Lemma add_encoding_keeps find_by_pt pt p fl :
  rtp_ (add_encoding find_by_pt pt p) = rtp_ p
  /\ fec_ (add_encoding find_by_pt pt p) = fec_ p
  /\ pkt_mem (add_encoding find_by_pt pt p) = pkt_mem p
  /\ (has_flags p fl = true -> has_flags (add_encoding find_by_pt pt p) fl = true).
Proof.
  unfold add_encoding. destruct (find_by_pt pt); [|done]. split_and!; [done..|].
  intros H. rewrite has_flags_lor. unfold has_flags at 1. simpl flags_.
  fold (has_flags p fl). by rewrite H.
Qed.

(** C1: an RTP packet prepared, optionally padded, filled and composed by the sender
    on one machine and parsed by the receiver on another (of either byte order) keeps
    its source id, sequence number, timestamp, marker, payload type, payload bytes and
    padding; composing and parsing succeed and the bytes sent are the RFC 3550 encoding. *)
Theorem rtp_roundtrip (host1 host2 : cpu_endian) (find_by_pt : Z -> option Z)
    (m : bytes) (d ps : nat) (r : RTP) (pl : bytes) :
  Forall is_byte m -> Forall is_byte pl -> rtp_valid r -> (ps <= 255)%nat ->
  (d + 12 + length pl + ps <= length m)%nat -> encoding_flags_ok find_by_pt ->
  exists p1 buf p2 p3 p4,
    composer_prepare (RtpComposer None) (with_mem Packet_new m)
      (mkSlice (Some d) 0 (length m)) (length pl + ps) = Ok (true, p1, buf)
    /\ composer_pad (RtpComposer None) p1 ps = Ok (true, p2)
    /\ composer_compose host1 (RtpComposer None)
         (fill_payload (fill_rtp p2 r) (rtp_payload (rtp_ p2)) pl) = Ok (true, p3)
    /\ slice_of (pkt_mem p3) d (sl_size buf)
       = rtp_wire_header r (0 <? ps)%nat ++ pl ++ padding_wire ps
    /\ parser_parse host2 find_by_pt (RtpParser None)
         (with_mem Packet_new (pkt_mem p3)) buf = Ok (true, p4)
    /\ rtp_fields (rtp_ p4) = rtp_fields r
    /\ has_flags p4 FlagRTP = true
    /\ slice_of (pkt_mem p4) (d + 12) (sl_size (rtp_payload (rtp_ p4))) = pl
    /\ slice_bytes (pkt_mem p4) (rtp_payload (rtp_ p4)) = pl
    /\ slice_bytes (pkt_mem p4) (rtp_padding (rtp_ p4)) = padding_wire ps.
Proof.
  intros Hm Hpl HV Hps Hlen HE.
  set (m3 := overwrite (overwrite (overwrite m (d + 12) pl) d (rtp_wire_header r (0 <? ps)%nat))
               (d + 12 + length pl) (padding_wire ps)).
  assert (slice_of m3 d (12 + length pl + ps)
          = rtp_wire_header r (0 <? ps)%nat ++ pl ++ padding_wire ps) as Hw.
  { pose proof (slice_of_pieces m d (rtp_wire_header r (0 <? ps)%nat) pl (padding_wire ps)) as H.
    rewrite length_rtp_wire_header, length_padding_wire in H. apply H. lia. }
  assert (length m3 = length m) as Hl3.
  { unfold m3. rewrite !length_overwrite;
      rewrite ?length_rtp_wire_header, ?length_padding_wire; rewrite ?length_overwrite;
      rewrite ?length_rtp_wire_header; rewrite ?length_overwrite; lia. }
  do 5 eexists. split; [apply rtp_prepare_layout; [done|lia]|].
  split; [by apply rtp_pad_layout with (d := (d + 12)%nat) (k := length pl)|].
  split.
  { rewrite (rtp_compose_wire host1 None _ d (d + 12 + length pl)); [reflexivity|done| |].
    - done.
    - repeat split; cbn; rewrite ?length_overwrite; cbn; lia. }
  assert (Forall is_byte m3) as Hb3.
  { unfold m3. auto using overwrite_Forall, rtp_wire_header_Forall, padding_wire_Forall. }
  split; [cbn [sl_size]; rewrite Nat.add_assoc; exact Hw|].
  split.
  { cbn [pkt_mem with_mem]. rewrite (rtp_parse_wire host2 find_by_pt None _ r d _ _ pl ps);
      [|exact Hb3|cbn [pkt_mem with_mem]; change (d + (12 + (length pl + ps)) <= length m3)%nat; lia
       |done|done|done|rewrite Nat.add_assoc; exact Hw].
    rewrite encoding_flags_add by done. reflexivity. }
  match goal with |- context [add_encoding ?f ?pt ?p] =>
    destruct (add_encoding_keeps f pt p FlagRTP) as (-> & _ & -> & ->); [|done] end.
  assert (slice_of m3 (d + 12) (length pl) = pl
          /\ slice_of m3 (d + 12 + length pl) ps = padding_wire ps) as [Hpl3 Hps3].
  { rewrite <- !(slice_of_slice_of m3 d (12 + length pl + ps) 12), Hw by lia.
    replace (d + 12 + length pl)%nat with (d + (12 + length pl))%nat by lia.
    rewrite <- (slice_of_slice_of m3 d (12 + length pl + ps)), Hw by lia. unfold slice_of.
    rewrite drop_app_length' by done. rewrite take_app_length. split; [done|].
    rewrite app_assoc, drop_app_length' by (by rewrite length_app, length_rtp_wire_header).
    apply take_ge. by rewrite length_padding_wire. }
  split_and!; [done..| | |].
  - exact Hpl3.
  - exact Hpl3.
  - unfold rtp_parsed. cbn [rtp_ with_rtp rtp_padding]. destruct (Nat.eqb_spec ps 0) as [->|]; [done|].
    exact Hps3.
Qed.

Lemma rtp_roundtrip_witness :
  exists m3 buf p4,
    parser_parse CPU_BE (fun _ => Some FlagAudio) (RtpParser None) (with_mem Packet_new m3) buf
      = Ok (true, p4)
    /\ rtp_fields (rtp_ p4) = (77, 65535, 4294967295, true, 11)
    /\ slice_of (pkt_mem p4) 14 (sl_size (rtp_payload (rtp_ p4))) = [1; 2; 3; 4]
    /\ slice_bytes (pkt_mem p4) (rtp_padding (rtp_ p4)) = [0; 0; 3].
Proof.
  destruct (rtp_roundtrip CPU_LE CPU_BE (fun _ => Some FlagAudio) (replicate 32 0) 2 3
    (mkRTP 77 65535 4294967295 0 0 true 11 slice_empty slice_empty slice_empty) [1; 2; 3; 4])
    as (p1 & buf & p2 & p3 & p4 & _ & _ & _ & _ & H1 & H2 & _ & H3 & _ & H4);
    [closed..|intros ? ? [= <-]; done|].
  by exists (pkt_mem p3), buf, p4.
Defined.

(** C2: a FECFRAME source packet (RTP with a Reed-Solomon or LDPC payload id as footer)
    prepared, filled and composed by the sender and parsed by the receiver, whatever
    the byte order of either, keeps its RTP fields, its position in the FEC block
    (block number, symbol id, block length) and its payload bytes. *)
Theorem fec_source_roundtrip (host1 host2 : cpu_endian) (find_by_pt : Z -> option Z)
    (pid : PayloadID) (m : bytes) (d : nat) (r : RTP) (f : FEC) (pl : bytes) :
  Forall is_byte m -> Forall is_byte pl -> rtp_valid r -> fec_valid pid f ->
  (d + 12 + length pl + pid_size pid <= length m)%nat -> encoding_flags_ok find_by_pt ->
  exists p1 buf p3 p4,
    composer_prepare (FecComposer pid Source Footer (Some (RtpComposer None)))
      (with_mem Packet_new m) (mkSlice (Some d) 0 (length m)) (length pl) = Ok (true, p1, buf)
    /\ composer_compose host1 (FecComposer pid Source Footer (Some (RtpComposer None)))
         (fill_payload (fill_fec (fill_rtp p1 r) f) (rtp_payload (rtp_ p1)) pl) = Ok (true, p3)
    /\ slice_of (pkt_mem p3) d (sl_size buf)
       = rtp_wire_header r false ++ pl ++ pid_wire pid f
    /\ parser_parse host2 find_by_pt (FecParser pid Source Footer (Some (RtpParser None)))
         (with_mem Packet_new (pkt_mem p3)) buf = Ok (true, p4)
    /\ rtp_fields (rtp_ p4) = rtp_fields r
    /\ fec_fields (fec_ p4) = fec_fields f
    /\ fec_scheme (fec_ p4) = pid_fec_scheme pid
    /\ slice_of (pkt_mem p4) (d + 12) (sl_size (rtp_payload (rtp_ p4))) = pl.
Proof.
  intros Hm Hpl HV HVf Hlen HE.
  set (m3 := overwrite (overwrite (overwrite (overwrite m (d + 12) pl) (d + (12 + length pl))
               (pid_wire pid f)) d (rtp_wire_header r false)) (d + 12) []).
  assert (slice_of m3 d (12 + length pl + pid_size pid)
          = rtp_wire_header r false ++ pl ++ pid_wire pid f) as Hw.
  { pose proof (slice_of_pieces m d (rtp_wire_header r false) pl (pid_wire pid f)) as H.
    rewrite length_rtp_wire_header, length_pid_wire in H.
    rewrite <- H by lia. unfold m3. rewrite overwrite_nil, Nat.add_assoc. f_equal.
    apply overwrite_comm; rewrite ?length_overwrite;
      rewrite ?length_pid_wire, ?length_rtp_wire_header; lia. }
  assert (length m3 = length m) as Hl3.
  { unfold m3. rewrite overwrite_nil, !length_overwrite;
      rewrite ?length_overwrite; rewrite ?length_overwrite;
      rewrite ?length_pid_wire, ?length_rtp_wire_header; lia. }
  assert (Forall is_byte m3) as Hb3.
  { unfold m3. auto using overwrite_Forall, rtp_wire_header_Forall, pid_wire_Forall. }
  do 4 eexists. split; [apply fec_rtp_prepare_layout; [done..|lia]|].
  split.
  { rewrite (fec_compose_wire host1 pid Source Footer _ _ (d + (12 + length pl)));
      [|done|done|done|done|cbn; rewrite length_overwrite; lia].
    rewrite (rtp_compose_wire host1 None _ d (d + 12)); [reflexivity|done|done|].
    repeat split; cbn; rewrite ?length_overwrite; rewrite ?length_pid_wire;
      rewrite ?length_overwrite; lia. }
  assert (d + (12 + length pl + pid_size pid) <= length m3)%nat as Hn3 by lia.
  pose proof (slice_of_split m3 d _ (rtp_wire_header r false ++ pl) (pid_wire pid f) Hn3) as Hsp.
  rewrite <- app_assoc in Hsp. destruct (Hsp Hw) as [Hw1 Hw2]. clear Hsp.
  rewrite length_app, length_rtp_wire_header in Hw1, Hw2. rewrite length_pid_wire in Hw2.
  destruct (slice_of_split m3 d (12 + length pl) (rtp_wire_header r false) pl) as [_ Hw3];
    [lia|done|]. rewrite length_rtp_wire_header in Hw3.
  cbn [sl_size].
  replace (pid_size pid + (12 + length pl))%nat with (12 + length pl + pid_size pid)%nat by lia.
  split; [exact Hw|]. split.
  { match goal with |- context [with_mem Packet_new (pkt_mem ?x)] =>
      change (with_mem Packet_new (pkt_mem x)) with (with_mem Packet_new m3) end.
    rewrite (fec_parse_wire host2 find_by_pt pid Source Footer _ _ f d _ _
               (d + (12 + length pl)) d);
      [|cbn [fec_split]; do 2 f_equal; lia|exact Hb3|exact Hn3|lia|done|done|done|exact Hw2].
    cbv zeta.
    replace (12 + length pl + pid_size pid - pid_size pid)%nat with (12 + length pl)%nat by lia.
    rewrite (rtp_parse_wire host2 find_by_pt None _ r d _ _ pl 0);
      [|exact Hb3|cbn [fec_parsed with_fec with_flags with_mem pkt_mem]; lia|done|lia|done
       |cbn [padding_wire]; rewrite app_nil_r; exact Hw1].
    rewrite encoding_flags_add by done. reflexivity. }
  match goal with |- context [add_encoding ?g ?pt ?p] =>
    destruct (add_encoding_keeps g pt p FlagRTP) as (-> & -> & -> & _) end.
  split_and!; [done..|exact Hw3].
Qed.

Lemma fec_source_roundtrip_witness :
  exists m3 buf p4,
    parser_parse CPU_LE (fun _ => None)
      (FecParser RS8M_PayloadID Source Footer (Some (RtpParser None)))
      (with_mem Packet_new m3) buf = Ok (true, p4)
    /\ rtp_fields (rtp_ p4) = (77, 65535, 4294967295, true, 11)
    /\ fec_fields (fec_ p4) = (7, 65534, 20).
Proof.
  destruct (fec_source_roundtrip CPU_LE CPU_LE (fun _ => None) RS8M_PayloadID (replicate 32 0) 2
    (mkRTP 77 65535 4294967295 0 0 true 11 slice_empty slice_empty slice_empty)
    (mkFEC FEC_None 7 65534 20 30 slice_empty slice_empty) [1; 2; 3; 4])
    as (p1 & buf & p3 & p4 & _ & _ & _ & H1 & H2 & H3 & _); [closed..|done|].
  by exists (pkt_mem p3), buf, p4.
Defined.



(** * Arbitrary input *)

(** [s] lies within [buf]. *)
Definition slice_inside (s buf : Slice) : Prop :=
  exists d0 d, sl_data s = Some d0 /\ sl_data buf = Some d
    /\ (d <= d0)%nat /\ (d0 + sl_size s <= d + sl_size buf)%nat.

Lemma rtp_header_size_total host m b n :
  (12 <= n)%nat -> (b + n <= length m)%nat ->
  exists size, rtp_header_size host m b n = Ok size
               /\ forall h, size = Some h -> (12 <= h <= n)%nat.
Proof.
  intros Hn Hm. unfold rtp_header_size, hdr_header_size. unfold sizeof_Header at 1.
  rewrite readable_ok by lia. cbn [res_bind]. cbv zeta. unfold sizeof_Header, sizeof_ExtentionHeader.
  set (k := (Z.to_nat (hdr_num_csrc m b) * 4)%nat).
  destruct (hdr_has_extension m b); cbn [res_bind].
  - destruct (Nat.ltb_spec n (12 + k + 4)); [by eexists|].
    rewrite readable_ok by lia. cbn [res_bind].
    generalize (ext_data_size host m (b + (12 + k))). intros e.
    destruct (Nat.ltb_spec n (12 + k + 4 + e)); [by eexists|].
    eexists. split; [reflexivity|]. intros h [= <-]. lia.
  - destruct (Nat.ltb_spec n (12 + k)); [by eexists|].
    eexists. split; [reflexivity|]. intros h [= <-]. lia.
Qed.

Lemma rtp_pad_size_total m b h n :
  (h <= n)%nat -> (b + n <= length m)%nat ->
  exists size, rtp_pad_size m b h n = Ok size
               /\ forall ps, size = Some ps -> (h + ps <= n)%nat.
Proof.
  intros Hn Hm. unfold rtp_pad_size.
  destruct (hdr_has_padding m b); [|by eexists; split; [reflexivity|]; intros ps [= <-]; lia].
  destruct (Nat.eqb_spec h n); [by eexists|]. rewrite readable_ok by lia. cbn [res_bind]. cbv zeta.
  destruct (Z.to_nat _ =? 0)%nat; [by eexists|].
  destruct (Nat.ltb_spec (n - h) (Z.to_nat (m !!! (b + (n - 1))%nat))); [by eexists|].
  eexists. split; [reflexivity|]. intros ps [= <-]. lia.
Qed.

(** [rtp::Parser] on any bytes: no panic; on success header, payload and padding are
    consecutive and fill the buffer. *)
Lemma rtp_parse_any host find_by_pt packet d n cap :
  Z.ldiff (flags_ packet) (Z.lor FlagFEC FlagRepair) = 0 -> encoding_flags_ok find_by_pt ->
  (d + n <= length (pkt_mem packet))%nat ->
  exists ok p', parser_parse host find_by_pt (RtpParser None) packet (mkSlice (Some d) n cap)
                = Ok (ok, p')
    /\ (ok = false -> p' = packet)
    /\ (ok = true -> exists h ps, (12 <= h)%nat /\ (h + ps <= n)%nat
          /\ rtp_header (rtp_ p') = mkSlice (Some d) h cap
          /\ rtp_payload (rtp_ p') = mkSlice (Some (d + h)%nat) (n - ps - h) cap
          /\ fec_ p' = fec_ packet /\ buffer_ p' = buffer_ packet
          /\ exists pt, flags_ p' = flags_ (add_encoding find_by_pt pt
                (with_flags packet (Z.lor (flags_ packet) FlagRTP)))).
Proof.
  intros HF HE Hd.
  assert (has_flags packet FlagRTP = false) as HR.
  { unfold has_flags. apply negb_false_iff, Z.eqb_eq, Z.bits_inj'; intros i Hi.
    apply (f_equal (fun z => Z.testbit z i)) in HF. rewrite Z.ldiff_spec in HF.
    rewrite Z.land_spec, Z.bits_0 in *. unfold FlagRTP. rewrite Z.shiftl_spec by done.
    destruct (decide (i = 1)) as [->|]; [simpl in HF |- *; by rewrite andb_true_r in HF |- *|].
    destruct (decide (i = 0)) as [->|]; [apply andb_false_r|].
    replace (i - 1) with (Z.succ (i - 2)) by lia.
    rewrite (Z.bits_above_log2 1) by (simpl; lia). apply andb_false_r. }
  simpl_parse. destruct (Nat.ltb_spec n sizeof_Header) as [|Hn]; [by do 2 eexists|].
  unfold slice_data. cbn [sl_data res_bind].
  rewrite readable_ok by lia. cbn [res_bind].
  destruct (negb (hdr_version (pkt_mem packet) d =? V2)); [by do 2 eexists|].
  destruct (rtp_header_size_total host (pkt_mem packet) d n Hn Hd) as (hs & -> & Eh).
  cbn [res_bind]. destruct hs as [h|]; [|by do 2 eexists]. specialize (Eh h eq_refl).
  destruct (rtp_pad_size_total (pkt_mem packet) d h n) as (pss & -> & Ep); [lia|done|].
  cbn [res_bind]. destruct pss as [ps|]; [|by do 2 eexists]. specialize (Ep ps eq_refl).
  rewrite add_flags_ok by done. cbn [res_bind].
  rewrite !slice_subslice_ok by lia. cbn [res_bind].
  assert (forall x, exists s,
    (if (ps =? 0)%nat then Ok x else Ok (mkSlice (Some (d + (n - ps))%nat)
       (n - ps + ps - (n - ps)) cap)) = Ok s) as Hpad
    by (intros x; destruct (ps =? 0)%nat; eauto).
  match goal with |- context [if (ps =? 0)%nat then Ok ?x else _] =>
    destruct (Hpad x) as [s ->] end. cbn [res_bind].
  rewrite encoding_flags_add; [|done|].
  2: { cbn [with_rtp with_flags flags_]. apply Z.bits_inj'; intros i Hi.
       apply (f_equal (fun z => Z.testbit z i)) in HF. rewrite !Z.ldiff_spec, !Z.lor_spec in *.
       rewrite Z.bits_0 in *. destruct (Z.testbit (flags_ packet) i), (Z.testbit FlagRTP i),
         (Z.testbit FlagFEC i), (Z.testbit FlagRepair i); done. }
  cbn [res_bind]. do 2 eexists. split; [reflexivity|]. split; [done|]. intros _.
  match goal with |- context [add_encoding ?g ?pt ?p] =>
    destruct (add_encoding_keeps g pt p FlagRTP) as (-> & -> & _ & _) end.
  exists h, ps. unfold add_encoding. destruct (find_by_pt _) as [fl|] eqn:Efl; cbn;
    rewrite Nat.add_0_r, Nat.sub_0_r; split_and!; try (done || lia); eexists;
    rewrite Efl; reflexivity.
Qed.

(** The parser stacks that endpoints instantiate. *)
Definition endpoint_parser (pid : PayloadID) (k : nat) : IParser :=
  match k with
  | O => RtpParser None
  | S O => FecParser pid Source Footer (Some (RtpParser None))
  | _ => FecParser pid Repair Header None
  end.

(** C4: whatever bytes a datagram contains, no endpoint's parser panics on it or reads a
    byte outside of the buffer that the datagram lies in, and when it accepts the packet,
    the RTP header is at least 12 bytes and the payload it hands on lies within the
    datagram. *)
Theorem parser_total (host : cpu_endian) (find_by_pt : Z -> option Z) (pid : PayloadID)
    (k : nat) (m : bytes) (d n : nat) :
  encoding_flags_ok find_by_pt -> (d + n <= length m)%nat ->
  exists ok p',
    parser_parse host find_by_pt (endpoint_parser pid k) (with_mem Packet_new m)
      (mkSlice (Some d) n (length m)) = Ok (ok, p')
    /\ (ok = true ->
        ((k < 2)%nat -> slice_inside (rtp_payload (rtp_ p')) (mkSlice (Some d) n (length m))
                        /\ (12 <= sl_size (rtp_header (rtp_ p')))%nat)
        /\ ((0 < k)%nat -> slice_inside (fec_payload (fec_ p')) (mkSlice (Some d) n (length m)))).
Proof.
  intros HE Hd. destruct k as [|[|k]]; cbn [endpoint_parser].
  - destruct (rtp_parse_any host find_by_pt (with_mem Packet_new m) d n (length m))
      as (ok & p' & E & _ & HP); [done|done|done|].
    exists ok, p'. split; [done|]. intros Hok. split; [intros _|lia].
    destruct (HP Hok) as (h & ps & ? & ? & -> & -> & _ & _ & _). split; [|done].
    do 2 eexists. cbn. split_and!; [done|done|lia|lia].
  - simpl_parse. destruct (Nat.ltb_spec n (pid_size pid)); [by do 2 eexists|].
    unfold slice_data. cbn [sl_data res_bind pkt_mem with_mem].
    rewrite readable_ok by lia. cbn [res_bind]. rewrite add_flags_ok by done. cbn [res_bind].
    rewrite slice_subslice_ok by lia. cbn [res_bind]. rewrite Nat.add_0_r, Nat.sub_0_r.
    match goal with |- context [if _ then Ok (false, ?p) else _] =>
      destruct (rtp_parse_any host find_by_pt p d (n - pid_size pid) (length m))
        as (ok & p' & E & _ & HP); [done|done|cbn [pkt_mem with_mem with_fec with_flags]; lia|] end.
    exists ok, p'. split; [exact E|]. intros Hok.
    destruct (HP Hok) as (h & ps & ? & ? & -> & -> & -> & _ & _).
    split; intros _; [split; [|done]|]; do 2 eexists; cbn; split_and!; done || lia.
  - simpl_parse. destruct (Nat.ltb_spec n (pid_size pid)); [by do 2 eexists|].
    unfold slice_data. cbn [sl_data res_bind pkt_mem with_mem].
    rewrite readable_ok by lia. cbn [res_bind]. rewrite add_flags_ok by done. cbn [res_bind].
    rewrite add_flags_ok by done. cbn [res_bind].
    rewrite slice_subslice_ok by lia. cbn [res_bind]. do 2 eexists. split; [reflexivity|].
    intros _. split; [lia|]. intros _. do 2 eexists. cbn. split_and!; done || lia.
Qed.

Lemma parser_total_witness :
  exists ok p', parser_parse CPU_LE (fun _ => Some FlagAudio) (RtpParser None)
    (with_mem Packet_new [0xbf; 1; 2; 3; 4; 5; 6; 7; 8; 9; 10; 11; 200])
    (mkSlice (Some 0%nat) 13 13) = Ok (ok, p').
Proof.
  destruct (parser_total CPU_LE (fun _ => Some FlagAudio) RS8M_PayloadID 0
    [0xbf; 1; 2; 3; 4; 5; 6; 7; 8; 9; 10; 11; 200] 0 13) as (ok & p' & H & _);
    [intros ? ? [= <-]; done|closed|].
  by exists ok, p'.
Defined.
