(* ===== verification/Io.v ===== *)
(** Packet readers and writers: the interfaces IReader and IWriter
    (src/internal_modules/roc_packet/ireader.h, iwriter.h) and the plain FIFO queue
    that implements both (queue.cpp).

    An object of a class that implements an interface is a state; the virtual method
    takes it and returns it.  A [PacketPtr] is an optional packet, [None] is NULL.  A
    component that holds a reference to another keeps that object's state in its own
    record and is parametrised by the type and its instance. *)

From S2P Require Import Prelude Bytes Slice Packet.

(** * Interfaces *)

Abbreviation PacketPtr := (option Packet).

Class IReader (R : Type) : Type :=
  read : R -> res (StatusCode * PacketPtr * R).

Class IWriter (W : Type) : Type :=
  write : W -> PacketPtr -> res (StatusCode * W).

(** A sequence of writes, each of which must succeed. *)
Fixpoint write_all `{IWriter W} (s : W) (ps : list Packet) : res (option W) :=
  match ps with
  | [] => Ok (Some s)
  | p :: ps =>
      let* '(code, s) := write s (Some p) in
      match code with
      | StatusOK => write_all s ps
      | _ => Ok None
      end
  end.

(** Reads until the reader reports anything but [StatusOK], at most [fuel] times. *)
Fixpoint drain `{IReader R} (fuel : nat) (s : R) : res (list Packet * StatusCode * R) :=
  match fuel with
  | O => Ok ([], StatusOK, s)
  | S fuel =>
      let* '(code, pp, s) := read s in
      match code, pp with
      | StatusOK, Some p =>
          let* '(ps, code, s) := drain fuel s in Ok (p :: ps, code, s)
      | _, _ => Ok ([], code, s)
      end
  end.

(** What a lossless first-in first-out writer promises: writing succeeds and appends
    to its content. *)
Class FifoWriter (W : Type) `{IWriter W} : Type := {
  content : W -> list Packet;
  fifo_write s p : exists s', write s (Some p) = Ok (StatusOK, s') /\ content s' = content s ++ [p]
}.

(** * Queue *)

Record Queue : Type := mkQueue { queue_list : list Packet }.

Definition queue_read (q : Queue) : res (StatusCode * PacketPtr * Queue) :=
  match queue_list q with
  | [] => Ok (StatusNoData, None, q)
  | p :: l => Ok (StatusOK, Some p, mkQueue l)
  end.

Definition queue_write (q : Queue) (packet : PacketPtr) : res (StatusCode * Queue) :=
  match packet with
  | None => Panic
  | Some p => Ok (StatusOK, mkQueue (queue_list q ++ [p]))
  end.

Definition queue_size (q : Queue) : nat := length (queue_list q).

#[global] Instance Queue_reader : IReader Queue := queue_read.
#[global] Instance Queue_writer : IWriter Queue := queue_write.

#[global] Instance Queue_fifo : FifoWriter Queue.
Proof. exists queue_list. intros s p. by exists (mkQueue (queue_list s ++ [p])). Defined.

(** * Lemmas *)

Lemma write_all_app `{IWriter W} (s s' : W) ps qs :
  write_all s ps = Ok (Some s') -> write_all s (ps ++ qs) = write_all s' qs.
Proof.
  revert s. induction ps as [|p ps IH]; intros s E; simpl in *; [by injection E as ->|].
  destruct (write s (Some p)) as [[code s1]|]; [|done]. simpl in *.
  destruct code; by try apply IH.
Qed.

Lemma fifo_write_all `{FifoWriter W} (s : W) ps :
  exists s', write_all s ps = Ok (Some s') /\ content s' = content s ++ ps.
Proof.
  revert s. induction ps as [|p ps IH]; intros s; simpl.
  - exists s. by rewrite app_nil_r.
  - destruct (fifo_write s p) as (s1 & -> & E1). simpl.
    destruct (IH s1) as (s2 & E2 & E3). exists s2. split; [done|].
    by rewrite E3, E1, <- app_assoc.
Qed.
