(* ===== verification/SortedQueue.v ===== *)
(** The sorted packet queue (src/internal_modules/roc_packet/sorted_queue.cpp), the
    jitter buffer of the receiver: packets go in in network order and come out in
    stream order, duplicates removed. *)

From stdpp Require Import sorting.
From S2P Require Import Prelude Units Bytes Slice Packet Io.

(** [sq_list] is [list_] from front to back: the latest packet first. *)
Record SortedQueue : Type := mkSortedQueue {
  sq_list : list Packet;
  sq_latest : PacketPtr;
  sq_max_size : nat
}.

Definition sq_new (max_size : nat) : SortedQueue := mkSortedQueue [] None max_size.

(** Take [list_.back()] out. *)
Fixpoint pop_back (l : list Packet) : option (list Packet * Packet) :=
  match l with
  | [] => None
  | p :: l =>
      match pop_back l with
      | None => Some ([], p)
      | Some (l, q) => Some (p :: l, q)
      end
  end.

Definition sq_read (q : SortedQueue) : res (StatusCode * PacketPtr * SortedQueue) :=
  match pop_back (sq_list q) with
  | Some (l, p) => Ok (StatusOK, Some p, mkSortedQueue l (sq_latest q) (sq_max_size q))
  | None => Ok (StatusNoData, None, q)
  end.

(** The loop over the list from its front: the list with the packet inserted before
    the first packet that it is after, [None] when it is a duplicate. *)
Fixpoint sq_insert (packet : Packet) (l : list Packet) : option (list Packet) :=
  match l with
  | [] => Some [packet]
  | pos :: rest =>
      let cmp := packet_compare packet pos in
      if cmp <? 0 then
        match sq_insert packet rest with
        | Some rest => Some (pos :: rest)
        | None => None
        end
      else if cmp =? 0 then None
      else Some (packet :: pos :: rest)
  end.

(** [latest_] when [packet] arrives. *)
Definition sq_update_latest (latest : PacketPtr) (packet : Packet) : PacketPtr :=
  match latest with
  | None => Some packet
  | Some l => if packet_compare l packet <=? 0 then Some packet else Some l
  end.

Definition sq_write (q : SortedQueue) (packet : PacketPtr) : res (StatusCode * SortedQueue) :=
  match packet with
  | None => Panic
  | Some packet =>
      if (0 <? sq_max_size q)%nat && (length (sq_list q) =? sq_max_size q)%nat
      then Ok (StatusOK, q)
      else
        let latest := sq_update_latest (sq_latest q) packet in
        match sq_insert packet (sq_list q) with
        | None => Ok (StatusOK, mkSortedQueue (sq_list q) latest (sq_max_size q))
        | Some l => Ok (StatusOK, mkSortedQueue l latest (sq_max_size q))
        end
  end.

Definition sq_size (q : SortedQueue) : nat := length (sq_list q).

Definition sq_head (q : SortedQueue) : PacketPtr := last (sq_list q).

Definition sq_tail (q : SortedQueue) : PacketPtr := head (sq_list q).

#[global] Instance SortedQueue_reader : IReader SortedQueue := sq_read.
#[global] Instance SortedQueue_writer : IWriter SortedQueue := sq_write.

Lemma sq_write_total q p : exists q', sq_write q (Some p) = Ok (StatusOK, q').
Proof.
  unfold sq_write. destruct (_ && _); [by eexists|].
  destruct (sq_insert p (sq_list q)); by eexists.
Qed.

Lemma sq_insert_length p l l' : sq_insert p l = Some l' -> length l' = S (length l).
Proof.
  revert l'. induction l as [|x l IH]; intros l'; cbn; [by intros [= <-]|].
  destruct (_ <? 0).
  - destruct (sq_insert p l) as [r|]; intros [= <-]. cbn. by rewrite IH.
  - by destruct (_ =? 0); [|intros [= <-]].
Qed.

Lemma sq_write_size q p code q' :
  sq_write q (Some p) = Ok (code, q') -> (sq_size q' <= S (sq_size q))%nat.
Proof.
  unfold sq_write, sq_size. destruct (_ && _); [intros [= <- <-]; lia|].
  destruct (sq_insert p (sq_list q)) as [l|] eqn:E; intros [= <- <-]; cbn; [|lia].
  by rewrite (sq_insert_length _ _ _ E).
Qed.

Lemma pop_back_spec l :
  match pop_back l with
  | None => l = []
  | Some (l', p) => l = l' ++ [p]
  end.
Proof.
  induction l as [|x l IH]; simpl; [done|]. destruct (pop_back l) as [[l' q]|]; by subst.
Qed.

Lemma pop_back_app l p : pop_back (l ++ [p]) = Some (l, p).
Proof. induction l as [|x l IH]; [done|]. simpl. by rewrite IH. Qed.

Lemma sq_read_total q :
  exists code pp q', sq_read q = Ok (code, pp, q')
    /\ forall x, x ∈ sq_list q' -> x ∈ sq_list q.
Proof.
  unfold sq_read. pose proof (pop_back_spec (sq_list q)) as HB.
  destruct (pop_back (sq_list q)) as [[l p]|]; do 3 eexists; (split; [reflexivity|]); [|done].
  cbn. rewrite HB. set_solver.
Qed.

(** * Packets that [compare] orders *)

(** On the packets of [P], [compare] is the order of the integer [key]. *)
Class Ordered (P : Packet -> Prop) (key : Packet -> Z) : Prop :=
  compare_key a b : P a -> P b -> packet_compare a b = Z.sgn (key a - key b).

(** RTP packets whose sequence numbers lie in a window around [r]. *)
Definition rtp_key (r : Z) (p : Packet) : Z := circle_diff 16 (seqnum (rtp_ p)) r.

#[global] Instance rtp_ordered r : Ordered (rtp_in_window r) (rtp_key r).
Proof.
  intros a b Ha Hb. rewrite (rtp_in_window_compare r) by done.
  by rewrite (window_diff 16 ltac:(lia) r) by (apply Ha || apply Hb).
Qed.

(** Repair packets whose block numbers lie in a window around [r]: ordered by block and
    then by encoding symbol. *)
Definition fec_in_window (r : Z) (p : Packet) : Prop :=
  has_flags p FlagRTP = false /\ has_flags p FlagFEC = true
  /\ is_u 16 (source_block_number (fec_ p)) /\ in_window 16 r (source_block_number (fec_ p))
  /\ is_u 32 (encoding_symbol_id (fec_ p)).

Definition fec_key (r : Z) (p : Packet) : Z :=
  circle_diff 16 (source_block_number (fec_ p)) r * 2 ^ 32 + encoding_symbol_id (fec_ p).

#[global] Instance fec_ordered r : Ordered (fec_in_window r) (fec_key r).
Proof.
  intros a b (Ra & Fa & Ua & Wa & Ea) (Rb & Fb & Ub & Wb & Eb).
  unfold packet_compare, packet_rtp, packet_fec. rewrite Ra, Fa, Fb.
  unfold fec_compare, blknum_lt, fec_key. change blknum_diff with (circle_diff 16).
  pose proof (circle_diff_zero_iff 16 ltac:(lia) _ _ Ua Ub) as HZ.
  rewrite (window_diff 16 ltac:(lia) r _ _ Wa Wb) in HZ |- *. unfold is_u in *.
  destruct (Z.ltb_spec (circle_diff 16 (source_block_number (fec_ a)) r
    - circle_diff 16 (source_block_number (fec_ b)) r) 0); [symmetry; apply Z.sgn_neg; lia|].
  destruct (Z.eqb_spec (source_block_number (fec_ a)) (source_block_number (fec_ b))) as [E|E].
  - apply HZ in E.
    destruct (Z.ltb_spec (encoding_symbol_id (fec_ a)) (encoding_symbol_id (fec_ b)));
      [symmetry; apply Z.sgn_neg; lia|].
    destruct (Z.eqb_spec (encoding_symbol_id (fec_ a)) (encoding_symbol_id (fec_ b)));
      symmetry; [apply Z.sgn_null|apply Z.sgn_pos]; lia.
  - symmetry. apply Z.sgn_pos. intuition lia.
Qed.

(** * Correctness *)

Section Sorted.

Context (P : Packet -> Prop) (key : Packet -> Z) `{HO : Ordered P key}.

(** Front to back, each packet is after the next ones. *)
Definition descending (l : list Packet) : Prop := StronglySorted (fun a b => key b < key a) l.

Lemma compare_lt a b : P a -> P b -> packet_compare a b < 0 <-> key a < key b.
Proof using HO. intros. rewrite (compare_key a b) by done. lia. Qed.

Lemma compare_eq a b : P a -> P b -> packet_compare a b = 0 <-> key a = key b.
Proof using HO. intros. rewrite (compare_key a b) by done. lia. Qed.

Lemma compare_le a b : P a -> P b -> packet_compare a b <= 0 <-> key a <= key b.
Proof using HO. intros. rewrite (compare_key a b) by done. lia. Qed.

(** What one insertion does: a packet at a new position is added and the order kept, a
    packet at a position the list has is refused. *)
Lemma sq_insert_spec p l :
  P p -> Forall P l -> descending l ->
  match sq_insert p l with
  | None => exists q, q ∈ l /\ key q = key p
  | Some l' => descending l' /\ l' ≡ₚ p :: l /\ Forall P l' /\ (forall q, q ∈ l -> key q <> key p)
  end.
Proof using HO.
  intros Hp. induction l as [|x l IH]; intros Hl Hs; simpl.
  { split_and!; [by repeat constructor|done|by repeat constructor|set_solver]. }
  apply Forall_cons in Hl as [Hx Hl]. apply StronglySorted_inv in Hs as [Hs Hxl].
  specialize (IH Hl Hs). rewrite Forall_forall in Hxl.
  destruct (Z.ltb_spec (packet_compare p x) 0) as [Hc|Hc].
  - apply compare_lt in Hc; [|done..]. destruct (sq_insert p l) as [l'|].
    + destruct IH as (D & Pm & F & N). split_and!.
      * constructor; [done|]. rewrite Pm. apply Forall_cons. split; [done|].
        by apply Forall_forall.
      * rewrite Pm. apply Permutation_swap.
      * by constructor.
      * intros q [->|Hq]%elem_of_cons; [lia|by apply N].
    + destruct IH as (q & Hq & E). exists q. set_solver.
  - destruct (Z.eqb_spec (packet_compare p x) 0) as [E|E].
    + exists x. apply compare_eq in E; [|done..]. set_solver.
    + assert (key x < key p) as Hk
        by (pose proof (compare_lt p x Hp Hx); pose proof (compare_eq p x Hp Hx); lia).
      split_and!; [|done|by repeat constructor|].
      * repeat constructor; [done|by apply Forall_forall|done|].
        apply Forall_forall. intros y Hy. specialize (Hxl y Hy). lia.
      * intros q [->|Hq]%elem_of_cons; [lia|]. specialize (Hxl q Hq). lia.
Qed.

(** The invariant: the list is strictly descending, within the limit, and no packet of
    it is after [latest_]. *)
Record sq_inv (q : SortedQueue) : Prop := {
  sq_inv_P : Forall P (sq_list q);
  sq_inv_sorted : descending (sq_list q);
  sq_inv_size : (0 < sq_max_size q)%nat -> (length (sq_list q) <= sq_max_size q)%nat;
  sq_inv_latest :
    match sq_latest q with
    | None => sq_list q = []
    | Some l => P l /\ forall x, x ∈ sq_list q -> key x <= key l
    end
}.

Lemma sq_new_inv m : sq_inv (sq_new m).
Proof. split; simpl; [constructor|constructor|lia|done]. Qed.

Lemma sq_read_inv q code pp q' : sq_inv q -> sq_read q = Ok (code, pp, q') -> sq_inv q'.
Proof.
  intros [I1 I2 I3 I4]. unfold sq_read. pose proof (pop_back_spec (sq_list q)) as HB.
  destruct (pop_back (sq_list q)) as [[l p]|]; intros [= <- <- <-]; [|by split].
  rewrite HB in *. apply Forall_app in I1 as [I1 _].
  apply StronglySorted_app_1_l in I2. rewrite length_app in I3. simpl in I3.
  split; simpl; [done|done|lia|].
  destruct (sq_latest q); [|by destruct l]. destruct I4 as [? I4]. split; [done|].
  intros x Hx. apply I4. set_solver.
Qed.

Lemma sq_write_inv q p code q' :
  P p -> sq_inv q -> sq_write q (Some p) = Ok (code, q') -> sq_inv q'.
Proof using HO.
  intros Hp HI. unfold sq_write.
  destruct (_ && _) eqn:EF; [by intros [= <- <-]|].
  destruct HI as [I1 I2 I3 I4].
  assert (exists l, sq_update_latest (sq_latest q) p = Some l /\ P l /\ key p <= key l
                    /\ (forall x, x ∈ sq_list q -> key x <= key l)) as (l & -> & L1 & L2 & L3).
  { unfold sq_update_latest. destruct (sq_latest q) as [l|]; [|exists p; rewrite I4; set_solver by lia].
    destruct I4 as [Hl I4]. destruct (Z.leb_spec (packet_compare l p) 0) as [Hc|Hc].
    - apply compare_le in Hc; [|done..]. exists p. split_and!; [done|done|lia|].
      intros x Hx. specialize (I4 x Hx). lia.
    - pose proof (compare_le l p Hl Hp). exists l. split_and!; [done|done|lia|done]. }
  pose proof (sq_insert_spec p (sq_list q) Hp I1 I2) as HS.
  destruct (sq_insert p (sq_list q)) as [l'|]; intros [= <- <-].
  - destruct HS as (D & Pm & F & N). split; simpl; [done|done| |].
    + intros Hm. specialize (I3 Hm). rewrite Pm. simpl.
      apply andb_false_iff in EF as [EF|EF];
        [apply Nat.ltb_ge in EF; lia|apply Nat.eqb_neq in EF; lia].
    + split; [done|]. intros x. rewrite Pm. intros [->|Hx]%elem_of_cons; [lia|by apply L3].
  - split; simpl; done.
Qed.

(** Queues reached by writing packets of [P] and reading, in any order. *)
Inductive sq_reach (m : nat) : SortedQueue -> Prop :=
| sq_reach_new : sq_reach m (sq_new m)
| sq_reach_write q p code q' :
    sq_reach m q -> P p -> sq_write q (Some p) = Ok (code, q') -> sq_reach m q'
| sq_reach_read q code pp q' :
    sq_reach m q -> sq_read q = Ok (code, pp, q') -> sq_reach m q'.

Lemma sq_reach_inv m q : sq_reach m q -> sq_inv q.
Proof using HO. induction 1; eauto using sq_new_inv, sq_write_inv, sq_read_inv. Qed.

(** [p] is in [ps] and nothing at its position is before it there. *)
Definition first_copy (ps : list Packet) (p : Packet) : Prop :=
  exists before after, ps = before ++ p :: after
    /\ forall p', p' ∈ before -> packet_compare p' p <> 0.

Lemma first_copy_snoc ps p x :
  Forall P (ps ++ [p]) ->
  first_copy (ps ++ [p]) x <->
  first_copy ps x \/ x = p /\ forall p', p' ∈ ps -> key p' <> key p.
Proof using HO.
  intros [HP [Hp _]%Forall_cons]%Forall_app. rewrite Forall_forall in HP. split.
  - intros (b & a & E & N). destruct a as [|y a _] using rev_ind.
    + apply app_inj_tail in E as [-> ->]. right. split; [done|]. intros p' Hp'.
      rewrite <- compare_eq by auto. by apply N.
    + rewrite app_comm_cons, app_assoc in E. apply app_inj_tail in E as [-> _].
      left. by exists b, a.
  - intros [(b & a & -> & N)|[-> N]].
    + exists b, (a ++ [p]). by rewrite <- app_assoc.
    + exists ps, []. split; [done|]. intros p' Hp'. rewrite compare_eq by auto. by apply N.
Qed.

(** Writing [ps] to an unlimited empty queue: it holds the first copy of each
    position, and every position of [ps]. *)
Lemma sq_write_all ps :
  Forall P ps ->
  exists q, write_all (sq_new 0) ps = Ok (Some q) /\ sq_inv q /\ sq_max_size q = O
    /\ (length (sq_list q) <= length ps)%nat
    /\ (forall x, x ∈ sq_list q <-> first_copy ps x)
    /\ (forall p, p ∈ ps -> exists x, x ∈ sq_list q /\ key x = key p).
Proof using HO.
  induction ps as [|p ps IH] using rev_ind; intros HP.
  { exists (sq_new 0). split_and!; [done|apply sq_new_inv|done|simpl; lia| |set_solver].
    intros x. split; [set_solver|]. by intros ([] & ? & ? & _). }
  pose proof HP as [HP1 [Hp _]%Forall_cons]%Forall_app.
  destruct (IH HP1) as (q & E & HI & Hm & HN & HL & HK).
  setoid_rewrite first_copy_snoc; [|done].
  rewrite (write_all_app _ q) by done. simpl.
  change (write q (Some p)) with (sq_write q (Some p)).
  destruct (sq_write q (Some p)) as [[code q']|] eqn:EW.
  2: { unfold sq_write in EW. destruct (_ && _), (sq_insert p (sq_list q)); done. }
  pose proof (sq_write_inv _ _ _ _ Hp HI EW) as HI'.
  unfold sq_write in EW. rewrite Hm in EW. cbn [Nat.ltb Nat.leb andb] in EW.
  pose proof (sq_insert_spec p (sq_list q) Hp (sq_inv_P _ HI) (sq_inv_sorted _ HI)) as HS.
  destruct (sq_insert p (sq_list q)) as [l'|]; injection EW as <- <-;
    eexists; (split; [reflexivity|]); (split; [done|]); (split; [done|]); cbn [sq_list].
  - destruct HS as (_ & Pm & _ & N). rewrite length_app.
    split; [by rewrite Pm, (Nat.add_comm (length ps)); simpl; lia|split].
    + intros x. rewrite Pm, elem_of_cons, HL. split; [|tauto].
      intros [->|?]; [right|by left]. split; [done|]. intros p' Hp' Ek.
      destruct (HK p' Hp') as (x & Hx & Ex). apply (N x Hx). congruence.
    + intros p' [Hp'|Hp']%elem_of_app.
      * destruct (HK p' Hp') as (x & Hx & Ex). exists x. rewrite Pm. set_solver.
      * exists p. rewrite Pm. set_solver.
  - destruct HS as (y & Hy & Ey). rewrite length_app. split; [lia|split].
    + intros x. rewrite HL. split; [by left|]. intros [?|[-> N]]; [done|].
      apply HL in Hy as (b & a & -> & _). destruct (N y); [set_solver|done].
    + intros p' [Hp'|Hp']%elem_of_app; [by apply HK|]. exists y. set_solver.
Qed.

(** Reading until there is no data returns the list from its back. *)
Lemma sq_drain l latest m fuel :
  (length l < fuel)%nat ->
  drain fuel (mkSortedQueue l latest m) = Ok (reverse l, StatusNoData, mkSortedQueue [] latest m).
Proof.
  revert fuel. induction l as [|p l IH] using rev_ind; intros [|fuel] Hf; [simpl in Hf; lia|done|simpl in Hf; lia|].
  rewrite length_app in Hf. simpl in Hf. simpl.
  change (read (mkSortedQueue (l ++ [p]) latest m))
    with (sq_read (mkSortedQueue (l ++ [p]) latest m)).
  unfold sq_read. cbn [sq_list]. rewrite pop_back_app. cbn [res_bind sq_latest sq_max_size].
  rewrite IH by lia. simpl. by rewrite reverse_app.
Qed.

Lemma descending_reverse l :
  Forall P l -> descending l -> StronglySorted (fun a b => packet_compare a b < 0) (reverse l).
Proof using HO.
  induction l as [|x l IH]; intros HP HD; [constructor|].
  apply Forall_cons in HP as [Hx HP]. apply StronglySorted_inv in HD as [HD Hxl].
  rewrite reverse_cons, StronglySorted_app. split_and!; [|by apply IH|by repeat constructor].
  intros a b Ha Hb%list_elem_of_singleton. subst b. rewrite elem_of_reverse in Ha.
  rewrite Forall_forall in *. apply compare_lt; auto.
Qed.

Lemma descending_compare l :
  Forall P l -> descending l -> StronglySorted (fun a b => packet_compare b a < 0) l.
Proof using HO.
  induction l as [|x l IH]; intros HP HD; [constructor|].
  apply Forall_cons in HP as [Hx HP]. apply StronglySorted_inv in HD as [HD Hxl].
  constructor; [by apply IH|]. rewrite Forall_forall in *. intros y Hy. apply compare_lt; auto.
Qed.

(** C5: whatever order the packets of a window arrive in, and however often each
    arrives, reading the queue until it reports no data returns exactly one packet for
    each position, the first that arrived, in strictly increasing stream order; and the
    queue is then empty. *)
Theorem sorted_queue_stream (ps : list Packet) :
  Forall P ps ->
  exists q out q',
    write_all (sq_new 0) ps = Ok (Some q)
    /\ drain (S (length ps)) q = Ok (out, StatusNoData, q') /\ sq_list q' = []
    /\ StronglySorted (fun a b => packet_compare a b < 0) out
    /\ (forall p, p ∈ out <-> first_copy ps p).
Proof using HO.
  intros HP. destruct (sq_write_all ps HP) as (q & E & HI & Hm & HN & HL & HK).
  destruct HI as [I1 I2 _ _]. destruct q as [l latest m]. cbn [sq_list] in *.
  exists (mkSortedQueue l latest m), (reverse l), (mkSortedQueue [] latest m).
  split_and!; [done| |done|by apply descending_reverse|].
  - apply sq_drain. lia.
  - intros p. by rewrite elem_of_reverse.
Qed.

(** C29: whatever reads and writes of packets of a window led to the queue's state, its
    list is strictly ordered and never longer than the limit, [latest()] is not before
    any packet it holds, and reading reports no data only when it is empty and otherwise
    removes [head()], which is before every packet that stays. *)
Theorem sorted_queue_reachable (m : nat) (q : SortedQueue) :
  sq_reach m q ->
  StronglySorted (fun a b => packet_compare b a < 0) (sq_list q)
  /\ ((0 < sq_max_size q)%nat -> (sq_size q <= sq_max_size q)%nat)
  /\ (forall l x, sq_latest q = Some l -> x ∈ sq_list q -> packet_compare x l <= 0)
  /\ (sq_read q = Ok (StatusNoData, None, q) /\ sq_size q = O
      \/ exists p q', sq_read q = Ok (StatusOK, Some p, q') /\ sq_head q = Some p
           /\ sq_list q = sq_list q' ++ [p]
           /\ forall x, x ∈ sq_list q' -> packet_compare p x < 0).
Proof using HO.
  intros [I1 I2 I3 I4]%sq_reach_inv. split_and!; [|done| |].
  - by apply descending_compare.
  - intros l x El Hx. rewrite El in I4. destruct I4 as [Hl I4].
    rewrite Forall_forall in I1. apply compare_le; auto.
  - unfold sq_read, sq_size, sq_head. pose proof (pop_back_spec (sq_list q)) as HB.
    destruct (pop_back (sq_list q)) as [[l p]|]; [right|left; by rewrite HB].
    rewrite HB in *. do 2 eexists. split; [reflexivity|]. rewrite last_snoc.
    split_and!; [done|done|]. cbn [sq_list]. intros x Hx.
    apply Forall_app in I1 as [I1 [Hp _]%Forall_cons]. rewrite Forall_forall in I1.
    apply compare_lt; [done|by apply I1|].
    apply (StronglySorted_app_1_elem_of _ _ _ _ _ I2 Hx). set_solver.
Qed.

End Sorted.

Definition rtp_packet (sn : Z) : Packet :=
  with_rtp (with_flags Packet_new FlagRTP)
    (mkRTP 7 sn 0 0 0 false 0 slice_empty slice_empty slice_empty).

Lemma rtp_packet_window r sn :
  bool_decide (is_u 16 sn /\ - 2 ^ 14 <= circle_diff 16 sn r < 2 ^ 14) = true ->
  rtp_in_window r (rtp_packet sn).
Proof. intros [? ?]%bool_decide_eq_true. done. Qed.

Lemma sorted_queue_stream_witness :
  exists q out q',
    write_all (sq_new 0) (map rtp_packet [65535; 1; 0; 65535; 2; 1]) = Ok (Some q)
    /\ drain 7 q = Ok (out, StatusNoData, q')
    /\ map (fun p => seqnum (rtp_ p)) out = [65535; 0; 1; 2].
Proof.
  destruct (sorted_queue_stream (rtp_in_window 0) (rtp_key 0)
    (map rtp_packet [65535; 1; 0; 65535; 2; 1])) as (q & out & q' & E1 & E2 & _).
  - by repeat apply Forall_cons_2; try apply Forall_nil_2; apply rtp_packet_window.
  - exists q, out, q'. split_and!; [done|done|]. vm_compute in E1. injection E1 as <-.
    vm_compute in E2. by injection E2 as <- <-.
Defined.

Lemma sorted_queue_reachable_witness :
  exists q, sq_list q = map rtp_packet [0; 65535]
    /\ StronglySorted (fun a b => packet_compare b a < 0) (sq_list q).
Proof.
  eexists (mkSortedQueue _ _ 2). split; [reflexivity|].
  apply (sorted_queue_reachable (rtp_in_window 0) (rtp_key 0) 2).
  eapply (sq_reach_write _ _ (mkSortedQueue [rtp_packet 65535] (Some (rtp_packet 65535)) 2)
            (rtp_packet 0)); [|by apply rtp_packet_window|vm_compute; reflexivity].
  eapply (sq_reach_write _ _ (sq_new 2)); [apply sq_reach_new| |vm_compute; reflexivity].
  by apply rtp_packet_window.
Defined.
