(* ===== verification/FastRandom.v ===== *)
(** The pseudo-random generator (src/internal_modules/roc_core/fast_random.cpp):
    splitmix32 on a global 32-bit state and the bounded draw on top of it.

    The global [rng_state] is threaded explicitly, one call at a time.  The monotonic
    clock that seeds it is the parameter [clock]. *)

From S2P Require Import Prelude.

Section FastRandom.

(** [core::timestamp(ClockMonotonic)] at the time of the first call. *)
Context (clock : Z).

(** Returns the number and the new [rng_state]. *)
Definition fast_random (rng_state : Z) : Z * Z :=
  let rng_state := if rng_state =? 0 then u32 clock else rng_state in
  let z := rng_state in
  let rng_state := u32 (rng_state + 0x9E3779B9) in
  let z := Z.lxor z (Z.shiftr z 16) in
  let z := u32 (z * 0x21F0AAAD) in
  let z := Z.lxor z (Z.shiftr z 15) in
  let z := u32 (z * 0x735A2D97) in
  let z := Z.lxor z (Z.shiftr z 15) in
  (z, rng_state).

(** The do-while loop, [None] when it needs more than [fuel] iterations. *)
Fixpoint fast_random_loop (fuel : nat) (range rng_state : Z) : option (Z * Z) :=
  match fuel with
  | O => None
  | S fuel =>
      let '(z, rng_state) := fast_random rng_state in
      let r := z mod range in
      if u64 (- range) <? u64 (z - r) then fast_random_loop fuel range rng_state
      else Some (r, rng_state)
  end.

Definition fast_random_range (fuel : nat) (from to rng_state : Z) : res (option (Z * Z)) :=
  panic_if (to <? from)
    (let range := u64 (to - from + 1) in
     match fast_random_loop fuel range rng_state with
     | None => Ok None
     | Some (r, rng_state) =>
         let ret := u32 (from + u32 r) in
         panic_if (ret <? from) (panic_if (to <? ret) (Ok (Some (ret, rng_state))))
     end).

Lemma lxor_shiftr_range w z k : 0 <= w -> 0 <= k -> is_u w z -> is_u w (Z.lxor z (Z.shiftr z k)).
Proof.
  intros Hw Hk [Hz1 Hz2]. unfold is_u.
  assert (0 <= Z.shiftr z k) by by apply Z.shiftr_nonneg.
  assert (Z.shiftr z k < 2 ^ w).
  { rewrite Z.shiftr_div_pow2 by done. pose proof (pow2_pos k Hk).
    apply Z.le_lt_trans with z; [|done]. apply Z.div_le_upper_bound; nia. }
  split; [by apply Z.lxor_nonneg|].
  destruct (decide (Z.lxor z (Z.shiftr z k) = 0)) as [->|Hne]; [by apply pow2_pos|].
  apply Z.log2_lt_pow2; [pose proof (Z.lxor_nonneg z (Z.shiftr z k)); lia|].
  destruct (decide (w = 0)) as [->|]; [exfalso; apply Hne; change (2 ^ 0) with 1 in *;
    by replace z with 0 by lia; rewrite Z.shiftr_0_l|].
  eapply Z.le_lt_trans; [by apply Z.log2_lxor|].
  apply Z.max_lub_lt; (destruct (decide (z = 0)) as [->|]; [rewrite ?Z.shiftr_0_l; simpl; lia|]).
  - apply Z.log2_lt_pow2; lia.
  - destruct (decide (Z.shiftr z k = 0)) as [->|]; [simpl; lia|]. apply Z.log2_lt_pow2; lia.
Qed.

Lemma fast_random_u32 st : is_u 32 (fst (fast_random st)).
Proof.
  unfold fast_random. cbn [fst]. apply lxor_shiftr_range; [lia|lia|]. apply wrap_u_range. lia.
Qed.

Lemma range_draw (fuel : nat) (from to st : Z) :
  (0 < fuel)%nat -> 0 <= from <= to -> to < 2 ^ 32 ->
  exists ret, fast_random_range fuel from to st = Ok (Some (ret, snd (fast_random st)))
    /\ from <= ret <= to
    /\ ret = from + fst (fast_random st) mod (to - from + 1).
Proof.
  intros Hf Hft Hto. destruct fuel as [|fuel]; [lia|].
  unfold fast_random_range. rewrite (proj2 (Z.ltb_ge to from)) by lia. cbn [panic_if].
  rewrite (wrap_u_small 64) by (unfold is_u; lia). cbn [fast_random_loop].
  pose proof (fast_random_u32 st) as HZ. destruct (fast_random st) as [z st'].
  cbn [fst snd] in *. unfold is_u in HZ.
  pose proof (Z.mod_pos_bound z (to - from + 1) ltac:(lia)) as HR.
  pose proof (Z.mod_le z (to - from + 1) ltac:(lia) ltac:(lia)) as HL.
  replace (u64 (- (to - from + 1))) with (2 ^ 64 - (to - from + 1)).
  2: { unfold wrap_u. rewrite <- (Z.mod_add _ 1), Z.mod_small by lia. lia. }
  rewrite (wrap_u_small 64) by (unfold is_u; lia).
  rewrite (proj2 (Z.ltb_ge _ _)) by lia.
  rewrite (wrap_u_small 32 (z mod _)) by (unfold is_u; lia).
  rewrite (wrap_u_small 32) by (unfold is_u; lia).
  rewrite !(proj2 (Z.ltb_ge _ _)) by lia. cbn [panic_if].
  exists (from + z mod (to - from + 1)). split_and!; [done|lia|lia|done].
Qed.

(** [fast_random_range] terminates after one draw, without panic, with a number of
    the requested range: the remainder of the number drawn.  The condition for drawing
    again never holds, because it is evaluated on 64-bit integers. *)
Theorem fast_random_range_one_draw (from to st : Z) :
  0 <= from <= to -> to < 2 ^ 32 ->
  exists ret, (forall fuel, (0 < fuel)%nat ->
      fast_random_range fuel from to st = Ok (Some (ret, snd (fast_random st))))
    /\ from <= ret <= to
    /\ ret = from + fst (fast_random st) mod (to - from + 1).
Proof.
  intros Hft Hto. destruct (range_draw 1 from to st) as (ret & _ & HR & HE); [lia..|].
  exists ret. split; [|done]. intros fuel Hf.
  by destruct (range_draw fuel from to st) as (ret' & -> & _ & ->); [lia..|subst].
Qed.

End FastRandom.

Lemma fast_random_range_one_draw_witness :
  exists ret, fast_random_range 12345 1 10 20 0 = Ok (Some (ret, snd (fast_random 12345 0)))
    /\ 10 <= ret <= 20.
Proof.
  destruct (fast_random_range_one_draw 12345 10 20 0) as (ret & H1 & H2 & _); [lia..|].
  exists ret. split; [|done]. apply H1. lia.
Defined.
