(* ===== verification/Interleaver.v ===== *)
(** The packet interleaver (src/internal_modules/roc_packet/interleaver.cpp): packets
    of a block are put into the slots of a delay line in order and sent in the order of
    a random permutation, so that a burst of losses on the network becomes scattered
    losses of the stream. *)

From S2P Require Import Prelude Bytes Slice Packet Io FastRandom.

(** * Model *)

Record Interleaver (W : Type) : Type := mkInterleaver {
  il_writer : W;
  il_block_size : nat;
  il_send_seq : list nat;
  il_packets : list PacketPtr;
  il_next_2_put : nat;
  il_next_2_send : nat;
  il_valid : bool
}.

Arguments mkInterleaver {W}.
Arguments il_writer {W}.
Arguments il_block_size {W}.
Arguments il_send_seq {W}.
Arguments il_packets {W}.
Arguments il_next_2_put {W}.
Arguments il_next_2_send {W}.
Arguments il_valid {W}.

(** The second loop of [reinit_seq_]: [i] counts down to 0; [rng] is the state of the
    generator. *)
Fixpoint shuffle (clock : Z) (i : nat) (send_seq : list nat) (rng : Z) : res (list nat * Z) :=
  match i with
  | O => Ok (send_seq, rng)
  | S i' =>
      let* r := fast_random_range clock 1 0 (u32 (u32 (Z.of_nat i) - 1)) rng in
      match r with
      | None => Panic
      | Some (j, rng) =>
          let j := Z.to_nat j in
          let* buff := array_get send_seq i' in
          let* other := array_get send_seq j in
          let* send_seq := array_set send_seq i' other in
          let* send_seq := array_set send_seq j buff in
          shuffle clock i' send_seq rng
      end
  end.

Definition reinit_seq (clock : Z) (block_size : nat) (rng : Z) : res (list nat * Z) :=
  shuffle clock block_size (seq 0 block_size) rng.

Section Interleaver.

Context {W : Type} `{HW : IWriter W}.

(** [alloc1] and [alloc2] tell whether the two arrays could be allocated. *)
Definition interleaver_new (clock : Z) (alloc1 alloc2 : bool) (writer : W) (block_sz : nat)
    (rng : Z) : res (Interleaver W * Z) :=
  panic_if (block_sz =? 0)%nat
    (if negb alloc1 then Ok (mkInterleaver writer block_sz [] [] 0 0 false, rng)
     else if negb alloc2 then
       Ok (mkInterleaver writer block_sz (replicate block_sz 0%nat) [] 0 0 false, rng)
     else
       let* '(send_seq, rng) := reinit_seq clock block_sz rng in
       Ok (mkInterleaver writer block_sz send_seq (replicate block_sz None) 0 0 true, rng)).

Definition il_with (il : Interleaver W) (writer : W) (packets : list PacketPtr)
    (next_2_put next_2_send : nat) : Interleaver W :=
  mkInterleaver writer (il_block_size il) (il_send_seq il) packets next_2_put next_2_send
    (il_valid il).

(** The while loop of [write]; [None] when it needs more than [fuel] iterations. *)
Fixpoint interleaver_send (fuel : nat) (il : Interleaver W)
    : res (option (StatusCode * Interleaver W)) :=
  match fuel with
  | O => Ok None
  | S fuel =>
      let* slot := array_get (il_send_seq il) (il_next_2_send il) in
      let* p := array_get (il_packets il) slot in
      match p with
      | None => Ok (Some (StatusOK, il))
      | Some p =>
          let* '(code, writer) := write (il_writer il) (Some p) in
          let il := il_with il writer (il_packets il) (il_next_2_put il) (il_next_2_send il) in
          match code with
          | StatusOK =>
              let* packets := array_set (il_packets il) slot None in
              interleaver_send fuel
                (il_with il writer packets (il_next_2_put il)
                   ((il_next_2_send il + 1) mod il_block_size il))
          | _ => Ok (Some (code, il))
          end
      end
  end.

(** The loop sends each slot at most once, so [S block_size] iterations are enough. *)
Definition interleaver_write (il : Interleaver W) (p : PacketPtr)
    : res (StatusCode * Interleaver W) :=
  panic_if (negb (il_valid il))
    (let* packets := array_set (il_packets il) (il_next_2_put il) p in
     let* r := interleaver_send (S (il_block_size il))
       (il_with il (il_writer il) packets ((il_next_2_put il + 1) mod il_block_size il)
          (il_next_2_send il)) in
     match r with Some r => Ok r | None => Panic end).

(** The loop of [flush] from slot [i], [n] slots to go. *)
Fixpoint interleaver_flush_loop (n i : nat) (il : Interleaver W)
    : res (StatusCode * Interleaver W) :=
  match n with
  | O => Ok (StatusOK, il_with il (il_writer il) (il_packets il) 0 0)
  | S n =>
      let* p := array_get (il_packets il) i in
      match p with
      | None => interleaver_flush_loop n (S i) il
      | Some p =>
          let* '(code, writer) := write (il_writer il) (Some p) in
          let il := il_with il writer (il_packets il) (il_next_2_put il) (il_next_2_send il) in
          match code with
          | StatusOK =>
              let* packets := array_set (il_packets il) i None in
              interleaver_flush_loop n (S i)
                (il_with il writer packets (il_next_2_put il) (il_next_2_send il))
          | _ => Ok (code, il)
          end
      end
  end.

Definition interleaver_flush (il : Interleaver W) : res (StatusCode * Interleaver W) :=
  panic_if (negb (il_valid il)) (interleaver_flush_loop (il_block_size il) 0 il).

#[global] Instance Interleaver_writer : IWriter (Interleaver W) := interleaver_write.

End Interleaver.

(** * The order of sending is a permutation *)

Lemma swap_permutation {A} (l : list A) i j x y :
  l !! i = Some x -> l !! j = Some y -> <[j:=x]> (<[i:=y]> l) ≡ₚ l.
Proof.
  intros Hi Hj. destruct (decide (i = j)) as [->|Hne].
  - rewrite Hi in Hj. injection Hj as ->. by rewrite list_insert_insert_eq, list_insert_id.
  - apply lookup_lt_Some in Hi as Li. apply lookup_lt_Some in Hj as Lj.
    rewrite Permutation_inj. split; [by rewrite !length_insert|].
    exists (fun k => if decide (k = i) then j else if decide (k = j) then i else k).
    split; [intros a b; repeat case_decide; congruence|].
    intros k. destruct (decide (k = i)) as [->|]; [|destruct (decide (k = j)) as [->|]].
    + rewrite list_lookup_insert_ne, list_lookup_insert_eq; done.
    + rewrite list_lookup_insert_eq; [done|by rewrite length_insert].
    + by rewrite !list_lookup_insert_ne.
Qed.

Lemma shuffle_permutation clock i l rng :
  (i <= length l)%nat -> Z.of_nat (length l) < 2 ^ 32 ->
  exists l' rng', shuffle clock i l rng = Ok (l', rng') /\ l' ≡ₚ l.
Proof.
  revert l rng. induction i as [|i IH]; intros l rng Hi Hl; simpl; [by exists l, rng|].
  replace (u32 (u32 (Z.of_nat (S i)) - 1)) with (Z.of_nat i)
    by (rewrite (wrap_u_small 32 (Z.of_nat _)), wrap_u_small; unfold is_u; lia).
  destruct (range_draw clock 1 0 (Z.of_nat i) rng) as (j & E & Hj & _); [lia..|].
  rewrite E. cbn [res_bind].
  destruct (lookup_lt_is_Some_2 l i) as [x Hx]; [lia|].
  destruct (lookup_lt_is_Some_2 l (Z.to_nat j)) as [y Hy]; [lia|].
  rewrite (array_get_ok _ _ x), (array_get_ok _ _ y) by done. cbn [res_bind].
  rewrite array_set_ok by lia. cbn [res_bind].
  rewrite array_set_ok by (rewrite length_insert; lia). cbn [res_bind].
  destruct (IH (<[Z.to_nat j:=x]> (<[i:=y]> l)) (snd (fast_random clock rng)))
    as (l' & rng' & E' & P); [rewrite !length_insert; lia..|].
  exists l', rng'. split; [done|]. rewrite P. by apply swap_permutation.
Qed.

(** * Nothing is lost *)

Lemma omap_ext_elem {A B} (f g : A -> option B) (l : list A) :
  (forall x, x ∈ l -> f x = g x) -> omap f l = omap g l.
Proof.
  induction l as [|x l IH]; intros HE; [done|]. cbn. rewrite (HE x) by set_solver.
  rewrite IH by set_solver. done.
Qed.

Lemma omap_none {A B} (f : A -> option B) (l : list A) : (forall x, x ∈ l -> f x = None) -> omap f l = [].
Proof.
  induction l as [|x l IH]; intros HE; [done|]. cbn. rewrite (HE x) by set_solver.
  apply IH. set_solver.
Qed.

Lemma omap_lookup_seq {A} (l : list A) m : (length l <= m)%nat -> omap (l !!.) (seq 0 m) = l.
Proof.
  revert m. induction l as [|x l IH] using rev_ind; intros m Hm.
  { by apply omap_none. }
  rewrite length_app in Hm. simpl in Hm.
  replace m with (length l + S (m - length l - 1))%nat by lia.
  rewrite seq_app, omap_app. cbn. rewrite list_lookup_middle by done.
  rewrite (omap_none _ (seq (S _) _)).
  - f_equal. rewrite (omap_ext_elem _ (l !!.)); [by apply IH|].
    intros i Hi%elem_of_seq. by rewrite lookup_app_l by lia.
  - intros i Hi%elem_of_seq. apply lookup_ge_None_2. rewrite length_app. simpl. lia.
Qed.

Section Lossless.

Context {W : Type} `{HF : FifoWriter W}.
Context (n : nat) (sigma : list nat).
Hypothesis (Hn : (0 < n)%nat) (Hs : sigma ≡ₚ seq 0 n).

Lemma sigma_NoDup : NoDup sigma.
Proof using Hn Hs. rewrite Hs. apply NoDup_ListNoDup, seq_NoDup. Qed.

Lemma sigma_elem i : i ∈ sigma <-> (i < n)%nat.
Proof using Hn Hs. rewrite Hs, elem_of_seq. lia. Qed.

Lemma sigma_length : length sigma = n.
Proof using Hn Hs. by rewrite Hs, length_seq. Qed.

(** The delay line when the block so far is [ps] and [j] packets of it were sent. *)
Definition line (ps : list Packet) (j : nat) : list PacketPtr :=
  map (fun i => if decide (i ∈ take j sigma) then None else ps !! i) (seq 0 n).

Lemma line_lookup ps j i :
  (i < n)%nat -> line ps j !! i = Some (if decide (i ∈ take j sigma) then None else ps !! i).
Proof using Hn Hs.
  intros Hi. unfold line. rewrite list_lookup_fmap.
  by rewrite (lookup_seq_lt 0 n i Hi).
Qed.

Lemma line_length ps j : length (line ps j) = n.
Proof. unfold line. by rewrite length_fmap, length_seq. Qed.

Lemma line_put ps j p :
  (length ps < n)%nat -> Forall (fun i => (i < length ps)%nat) (take j sigma) ->
  <[length ps := Some p]> (line ps j) = line (ps ++ [p]) j.
Proof using Hn Hs.
  intros Hl HF'. apply list_eq_same_length with n;
    [by rewrite line_length|by rewrite length_insert, line_length|].
  intros i x y Hi Hx Hy. rewrite line_lookup in Hy by done. injection Hy as <-.
  rewrite Forall_forall in HF'. destruct (decide (i = length ps)) as [->|Hne].
  - rewrite list_lookup_insert_eq in Hx by (by rewrite line_length). injection Hx as <-.
    rewrite decide_False by (intros Hi'%HF'; lia). by rewrite list_lookup_middle.
  - rewrite list_lookup_insert_ne, line_lookup in Hx by done. injection Hx as <-.
    case_decide; [done|]. destruct (decide (i < length ps)%nat).
    + by rewrite lookup_app_l.
    + rewrite !lookup_ge_None_2; [done|rewrite length_app; simpl; lia|lia].
Qed.

Lemma line_send ps j s :
  sigma !! j = Some s -> <[s := None]> (line ps j) = line ps (S j).
Proof using Hn Hs.
  intros Hj. assert (s < n)%nat as Hsn by (by apply sigma_elem, list_elem_of_lookup_2 with j).
  apply list_eq_same_length with n;
    [by rewrite line_length|by rewrite length_insert, line_length|].
  intros i x y Hi Hx Hy. rewrite line_lookup in Hy by done. injection Hy as <-.
  rewrite (take_S_r _ _ _ Hj). destruct (decide (i = s)) as [->|Hne].
  - rewrite list_lookup_insert_eq in Hx by (by rewrite line_length). injection Hx as <-.
    rewrite decide_True by set_solver. done.
  - rewrite list_lookup_insert_ne, line_lookup in Hx by done. injection Hx as <-.
    by apply decide_ext; set_solver.
Qed.

Lemma line_empty : line [] 0 = replicate n None.
Proof using Hn Hs.
  apply list_eq_same_length with n; [by rewrite length_replicate|apply line_length|].
  intros i x y Hi. rewrite line_lookup, lookup_replicate by done.
  rewrite decide_False by (rewrite take_0; set_solver). intros [= <-] [-> _]. done.
Qed.

Lemma line_full ps : line ps n = replicate n None.
Proof using Hn Hs.
  apply list_eq_same_length with n; [by rewrite length_replicate|apply line_length|].
  intros i x y Hi. rewrite line_lookup, lookup_replicate by done.
  rewrite take_ge by (by rewrite sigma_length). rewrite decide_True by (by apply sigma_elem).
  intros [= <-] [-> _]. done.
Qed.

(** What was sent of the block [ps] when [j] packets were. *)
Definition sent (ps : list Packet) (j : nat) : list Packet := omap (ps !!.) (take j sigma).

Abbreviation state w ps put j := (mkInterleaver w n sigma (line ps j) put (j mod n) true).

(** The loop of [write] sends the packets that are there, in the order of [sigma], up to
    the first that is not. *)
Lemma send_loop fuel j w ps put base :
  (n - j < fuel)%nat -> (j <= n)%nat -> (length ps <= n)%nat ->
  Forall (fun i => (i < length ps)%nat) (take j sigma) -> content w = base ++ sent ps j ->
  exists j' w', interleaver_send fuel (state w ps put j)
      = Ok (Some (StatusOK, state w' ps put j'))
    /\ (j' <= n)%nat /\ Forall (fun i => (i < length ps)%nat) (take j' sigma)
    /\ content w' = base ++ sent ps j'
    /\ (j' = n \/ exists s, sigma !! j' = Some s /\ (length ps <= s)%nat).
Proof using Hn Hs.
  revert j w. induction fuel as [|fuel IH]; intros j w Hf Hj Hps HT HC; [lia|].
  cbn [interleaver_send il_send_seq il_next_2_send il_packets il_writer il_next_2_put].
  destruct (decide (j = n)) as [->|Hne].
  { rewrite Nat.Div0.mod_same. destruct (lookup_lt_is_Some_2 sigma 0) as [s Hs0];
      [rewrite sigma_length; lia|].
    rewrite (array_get_ok _ _ s) by done. cbn [res_bind].
    assert (s < n)%nat by (by apply sigma_elem, list_elem_of_lookup_2 with 0%nat).
    rewrite line_full, (array_get_ok _ _ None) by (by apply lookup_replicate).
    cbn [res_bind]. rewrite <- (line_full ps). exists n, w. rewrite Nat.Div0.mod_same.
    split_and!; [done|done|done|done|by left]. }
  rewrite (Nat.mod_small j) by lia.
  destruct (lookup_lt_is_Some_2 sigma j) as [s Hsj]; [rewrite sigma_length; lia|].
  rewrite (array_get_ok _ _ s) by done. cbn [res_bind].
  assert (s < n)%nat by (by apply sigma_elem, list_elem_of_lookup_2 with j).
  assert (s ∉ take j sigma) as Hnt.
  { intros Hin. apply list_elem_of_lookup in Hin as [i Hi].
    apply lookup_take_Some in Hi as [Hi Hij].
    pose proof (NoDup_lookup _ _ _ _ sigma_NoDup Hi Hsj). lia. }
  erewrite array_get_ok by (by apply line_lookup). cbn [res_bind].
  rewrite decide_False by done. destruct (ps !! s) as [p|] eqn:Ep.
  2: { exists j, w. rewrite (Nat.mod_small j) by lia. split_and!; [done|done|done|done|].
       right. exists s. split; [done|]. by apply lookup_ge_None. }
  destruct (fifo_write w p) as (w1 & E1 & C1). rewrite E1. cbn [res_bind].
  unfold il_with.
  cbn [il_block_size il_send_seq il_packets il_next_2_put il_next_2_send il_valid].
  rewrite array_set_ok by (by rewrite line_length). cbn [res_bind].
  rewrite (line_send _ _ _ Hsj), Nat.add_1_r. apply IH; [lia|lia|done| |].
  - rewrite (take_S_r _ _ _ Hsj). apply Forall_app. split; [done|]. constructor; [|done].
    by apply lookup_lt_Some in Ep.
  - unfold sent. rewrite (take_S_r _ _ _ Hsj), omap_app, C1, HC. cbn. rewrite Ep.
    by rewrite <- app_assoc.
Qed.

(** Between calls: [ps] is the block so far, not complete, and the loop has stopped at a
    packet that is not there yet. *)
Definition waiting (il : Interleaver W) (base ps : list Packet) : Prop :=
  exists j w, il = state w ps (length ps) j /\ (length ps < n)%nat
    /\ Forall (fun i => (i < length ps)%nat) (take j sigma)
    /\ content w = base ++ sent ps j.

Lemma waiting_start w : waiting (state w [] 0 0) (content w) [].
Proof using Hn Hs.
  exists 0%nat, w. split_and!; [done|simpl; lia|constructor|by rewrite app_nil_r].
Qed.

(** One write continues the block, or completes it, and then all of it is sent. *)
Lemma waiting_write il base ps p :
  waiting il base ps ->
  exists il', write il (Some p) = Ok (StatusOK, il')
    /\ (waiting il' base (ps ++ [p])
        \/ length (ps ++ [p]) = n /\ waiting il' (base ++ sent (ps ++ [p]) n) []).
Proof using Hn Hs.
  intros (j & w & -> & Hl & HT & HC).
  assert (j < n)%nat as Hj.
  { destruct (decide (j < n)%nat); [done|]. rewrite take_ge in HT by (rewrite sigma_length; lia).
    rewrite Forall_forall in HT. specialize (HT (length ps) (proj2 (sigma_elem _) Hl)). lia. }
  change (write (state w ps (length ps) j) (Some p))
    with (interleaver_write (state w ps (length ps) j) (Some p)).
  unfold interleaver_write, il_with.
  cbn [il_block_size il_send_seq il_packets il_next_2_put il_next_2_send il_valid il_writer
       negb panic_if].
  rewrite array_set_ok by (by rewrite line_length). cbn [res_bind].
  rewrite line_put by done.
  assert (Forall (fun i => (i < length (ps ++ [p]))%nat) (take j sigma)) as HT'
    by (eapply Forall_impl; [exact HT|]; intros i Hi; cbn in *; rewrite length_app; cbn; lia).
  destruct (send_loop (S n) j w (ps ++ [p]) ((length ps + 1) mod n) base)
    as (j' & w' & E & Hj' & HT2 & HC2 & Hend); [lia|lia|rewrite length_app; simpl; lia|done| |].
  { rewrite HC. f_equal. apply omap_ext_elem. intros i Hi. rewrite Forall_forall in HT.
    by rewrite lookup_app_l by (by apply HT). }
  rewrite E. cbn [res_bind]. eexists. split; [reflexivity|].
  destruct Hend as [->|(s & Hsj & Hge)].
  - right. assert (length (ps ++ [p]) = n) as Hfull.
    { rewrite take_ge in HT2 by (rewrite sigma_length; lia). rewrite Forall_forall in HT2.
      assert (n - 1 ∈ sigma)%nat as Hin by (apply sigma_elem; lia). specialize (HT2 _ Hin).
      rewrite length_app in *. simpl in *. lia. }
    split; [done|]. exists 0%nat, w'. rewrite line_full, line_empty.
    rewrite length_app in Hfull. simpl in Hfull. rewrite Hfull, Nat.Div0.mod_same.
    rewrite Nat.Div0.mod_0_l. split_and!; [done|simpl; lia|constructor|].
    rewrite HC2. by rewrite app_nil_r.
  - left. assert (s < n)%nat by (by apply sigma_elem, list_elem_of_lookup_2 with j').
    exists j', w'. split_and!; [|lia|done|done].
    rewrite length_app in *. simpl in *. by rewrite (Nat.mod_small (length ps + 1)) by lia.
Qed.

(** [flush] sends what is left in the order of the slots and empties the line. *)
Lemma flush_loop k w (packets : list PacketPtr) put send :
  length packets = n -> (k <= n)%nat ->
  exists w', interleaver_flush_loop k (n - k) (mkInterleaver w n sigma packets put send true)
      = Ok (StatusOK, mkInterleaver w' n sigma
              (take (n - k) packets ++ replicate k None) 0 0 true)
    /\ content w' = content w ++ omap id (drop (n - k) packets).
Proof using Hn Hs.
  revert w packets. induction k as [|k IH]; intros w packets Hl Hk.
  { exists w. simpl. rewrite Nat.sub_0_r, take_ge, drop_ge by lia. unfold il_with. simpl.
    by rewrite !app_nil_r. }
  cbn [interleaver_flush_loop il_packets].
  destruct (lookup_lt_is_Some_2 packets (n - S k)) as [x Hx]; [lia|].
  rewrite (array_get_ok _ _ x) by done. cbn [res_bind].
  rewrite (drop_S _ _ _ Hx). replace (S (n - S k)) with (n - k)%nat by lia.
  assert (forall l : list PacketPtr, length l = n -> l !! (n - S k)%nat = Some None ->
    take (n - k) l ++ replicate k None = take (n - S k) l ++ replicate (S k) None) as Htk.
  { intros l Hll Hlx. replace (n - k)%nat with (S (n - S k)) by lia.
    rewrite (take_S_r _ _ _ Hlx), <- app_assoc. done. }
  destruct x as [p|].
  - cbn [il_writer]. destruct (fifo_write w p) as (w1 & -> & C1). cbn [res_bind]. unfold il_with.
    cbn [il_block_size il_send_seq il_packets il_next_2_put il_next_2_send il_valid].
    rewrite array_set_ok by lia. cbn [res_bind].
    destruct (IH w1 (<[(n - S k)%nat:=None]> packets)) as (w2 & -> & C2);
      [by rewrite length_insert|lia|]. exists w2.
    rewrite Htk; [|by rewrite length_insert|by apply list_lookup_insert_eq; lia].
    rewrite take_insert_ge by lia. split; [done|].
    rewrite C2, C1, drop_insert_lt by lia. cbn. by rewrite <- app_assoc.
  - destruct (IH w packets Hl ltac:(lia)) as (w2 & -> & C2). exists w2.
    rewrite Htk by done. by rewrite C2.
Qed.

Lemma omap_line ps j :
  omap id (line ps j)
  = omap (fun i => if decide (i ∈ take j sigma) then None else ps !! i) (seq 0 n).
Proof.
  unfold line. clear Hn Hs. generalize (take j sigma) as t. intros t.
  induction (seq 0 n) as [|i l IH]; [done|]. cbn.
  destruct (decide _); [exact IH|]. destruct (ps !! i); cbn; [f_equal|]; exact IH.
Qed.

(** What was sent and what is in the line make up the block. *)
Lemma sent_line ps j :
  (length ps <= n)%nat -> sent ps j ++ omap id (line ps j) ≡ₚ ps.
Proof using Hn Hs.
  intros Hl. rewrite omap_line, <- Hs.
  set (f := fun i => if decide (i ∈ take j sigma) then None else ps !! i).
  pose proof (omap_app f (take j sigma) (drop j sigma)) as HA. rewrite take_drop in HA.
  rewrite HA. subst f. clear HA.
  rewrite (omap_none _ (take j sigma)) by (intros i Hi; by rewrite decide_True).
  rewrite (omap_ext_elem _ (ps !!.) (drop j sigma)).
  2: { intros i Hi. rewrite decide_False; [done|]. intros Hi'. pose proof sigma_NoDup as HN.
       rewrite <- (take_drop j sigma) in HN. apply NoDup_app in HN as (_ & HN & _).
       by apply (HN i). }
  unfold sent. rewrite app_nil_l, <- omap_app, take_drop, Hs. by rewrite omap_lookup_seq.
Qed.

(** Whole blocks go out as blocks; the rest waits. *)
Lemma waiting_write_all ps il base cur :
  waiting il base cur ->
  exists il' out rest, write_all il ps = Ok (Some il') /\ waiting il' (base ++ out) rest
    /\ cur ++ ps ≡ₚ out ++ rest
    /\ exists m, length out = (m * n)%nat /\ out ≡ₚ take (m * n) (cur ++ ps).
Proof using Hn Hs.
  revert il base cur. induction ps as [|p ps IH]; intros il base cur HW0; simpl.
  { exists il, [], cur. rewrite !app_nil_r. split_and!; [done|done|done|]. by exists 0%nat. }
  destruct (waiting_write il base cur p HW0) as (il1 & -> & [H1|[Hfull H1]]); cbn [res_bind].
  - destruct (IH il1 base (cur ++ [p]) H1) as (il2 & out & rest & HE).
    exists il2, out, rest. by rewrite <- app_assoc in HE.
  - assert (sent (cur ++ [p]) n ≡ₚ cur ++ [p]) as HS.
    { rewrite <- (sent_line (cur ++ [p]) n) at 2 by lia. rewrite line_full.
      rewrite (omap_none id); [by rewrite app_nil_r|]. intros x [-> _]%elem_of_replicate. done. }
    destruct (IH il1 _ [] H1) as (il2 & out & rest & -> & HW2 & HP & m & Hm & Ho).
    exists il2, (sent (cur ++ [p]) n ++ out), rest.
    assert (cur ++ p :: ps = (cur ++ [p]) ++ ps) as Eps by by rewrite <- app_assoc.
    rewrite Eps, app_assoc. split_and!; [done|done| |].
    + rewrite HS, <- (app_assoc (cur ++ [p]) out rest). by rewrite <- HP.
    + exists (S m). rewrite length_app, HS, Hm, Hfull. split; [lia|].
      rewrite take_app_ge, Hfull by lia. replace (S m * n - n)%nat with (m * n)%nat by lia.
      by rewrite Ho.
Qed.

Lemma waiting_flush il base ps :
  waiting il base ps ->
  exists w, interleaver_flush il = Ok (StatusOK, state w [] 0 0)
    /\ content w ≡ₚ base ++ ps.
Proof using Hn Hs.
  intros (j & w & -> & Hl & _ & HC). unfold interleaver_flush. cbn [il_valid negb panic_if il_block_size].
  destruct (flush_loop n w (line ps j) (length ps) (j mod n)) as (w' & E & C);
    [apply line_length|done|]. rewrite Nat.sub_diag in E, C. rewrite E.
  exists w'. rewrite line_empty, Nat.Div0.mod_0_l. split; [done|].
  rewrite C, HC, drop_0, <- app_assoc. by rewrite sent_line by lia.
Qed.

End Lossless.

(** C30: an interleaver over a lossless writer loses, duplicates and reorders within a
    block only.  It can be built for any block size that fits 32 bits; then any packets
    can be written to it; what has been passed on after that contains every complete
    block, and nothing else; and after a flush it is all the packets. *)
Theorem interleaver_lossless {W} `{FifoWriter W} (clock rng : Z) (w : W) (n : nat)
    (ps : list Packet) :
  (0 < n)%nat -> Z.of_nat n < 2 ^ 32 ->
  exists il rng' il1 il2,
    interleaver_new clock true true w n rng = Ok (il, rng')
    /\ il_send_seq il ≡ₚ seq 0 n
    /\ write_all il ps = Ok (Some il1)
    /\ interleaver_flush il1 = Ok (StatusOK, il2)
    /\ content (il_writer il2) ≡ₚ content w ++ ps
    /\ exists out rest m, content (il_writer il1) = content w ++ out ++ rest
         /\ out ≡ₚ take (m * n) ps /\ rest ⊆+ drop (m * n) ps
         /\ (length ps < m * n + n)%nat.
Proof.
  intros Hn Hn32.
  destruct (shuffle_permutation clock n (seq 0 n) rng) as (sigma & rng' & ES & HP);
    [by rewrite length_seq|by rewrite length_seq|].
  assert (interleaver_new clock true true w n rng
          = Ok (mkInterleaver w n sigma (line n sigma [] 0) 0 (0 mod n) true, rng')) as EN.
  { unfold interleaver_new, reinit_seq. rewrite (proj2 (Nat.eqb_neq n 0)) by lia.
    cbn [panic_if negb]. rewrite ES. cbn [res_bind].
    by rewrite line_empty, Nat.Div0.mod_0_l. }
  destruct (waiting_write_all n sigma Hn HP ps _ _ _ (waiting_start n sigma Hn HP w))
    as (il1 & out & rest & EW & HW1 & HPm & m & Hm & Ho). rewrite app_nil_l in HPm, Ho.
  destruct (waiting_flush n sigma Hn HP _ _ _ HW1) as (w2 & EF & C2).
  do 4 eexists. split; [exact EN|]. cbn [il_send_seq]. split; [done|].
  split; [exact EW|]. split; [exact EF|]. cbn [il_writer].
  split; [by rewrite C2, <- app_assoc, <- HPm|].
  destruct HW1 as (j & w1 & -> & Hl & _ & HC). cbn [il_writer].
  assert (rest ≡ₚ drop (m * n) ps) as HR.
  { apply (Permutation_app_inv_l out). rewrite <- HPm, Ho. by rewrite take_drop. }
  exists out, (sent sigma rest j), m. split_and!; [by rewrite HC, <- app_assoc|done| |].
  - rewrite <- HR. rewrite <- (sent_line n sigma Hn HP rest j) at 2 by lia.
    apply submseteq_inserts_r. done.
  - apply (f_equal length) in HC. apply Permutation_length in HPm.
    rewrite length_app in HPm. lia.
Qed.

Lemma interleaver_lossless_witness :
  exists il rng' il1,
    interleaver_new 5 true true (mkQueue []) 3 77 = Ok (il, rng')
    /\ write_all il (replicate 7 Packet_new) = Ok (Some il1).
Proof.
  destruct (interleaver_lossless 5 77 (mkQueue []) 3 (replicate 7 Packet_new))
    as (il & rng' & il1 & il2 & E1 & _ & E2 & _); [lia..|].
  exists il, rng', il1. exact (conj E1 E2).
Defined.
