(* ===== verification/DelayedReader.v ===== *)
(** The delayed reader (src/internal_modules/roc_packet/delayed_reader.cpp): holds the
    packets of a new stream back until they span the target latency. *)

From S2P Require Import Prelude Units Bytes Slice Packet Io SortedQueue.

Record DelayedReader (R : Type) : Type := mkDelayedReader {
  dr_reader : R;
  dr_queue : SortedQueue;
  dr_delay : Z;
  dr_started : bool;
  dr_valid : bool
}.

Arguments mkDelayedReader {R}.
Arguments dr_reader {R}.
Arguments dr_queue {R}.
Arguments dr_delay {R}.
Arguments dr_started {R}.
Arguments dr_valid {R}.

Section DelayedReader.

Context {R : Type} `{HR : IReader R}.

(** [ns_2_stream_timestamp] is the conversion of the sample spec. *)
Definition delayed_reader_new (ns_2_stream_timestamp : Z -> Z) (reader : R) (target_delay : Z)
    : DelayedReader R :=
  mkDelayedReader reader (sq_new 0)
    (if 0 <? target_delay then ns_2_stream_timestamp target_delay else 0) false true.

Definition dr_with (dr : DelayedReader R) (reader : R) (queue : SortedQueue) (started : bool)
    : DelayedReader R :=
  mkDelayedReader reader queue (dr_delay dr) started (dr_valid dr).

(** [queue_size_]: the span of the queue, from the timestamp of its head to the end of
    its tail. *)
Definition queue_span (q : SortedQueue) : Z :=
  match sq_tail q, sq_head q with
  | Some tail, Some head =>
      let qs := stream_timestamp_diff
        (u32 (packet_stream_timestamp tail + packet_duration tail))
        (packet_stream_timestamp head) in
      if qs <? 0 then 0 else u32 qs
  | _, _ => 0
  end.

(** The loop of [fetch_packets_]: packets of the reader go to the queue until it has no
    more.  [None] when that takes more than [fuel] iterations. *)
Fixpoint fetch_loop (fuel : nat) (dr : DelayedReader R)
    : res (option (StatusCode * DelayedReader R)) :=
  match fuel with
  | O => Ok None
  | S fuel =>
      let* '(code, pp, reader) := read (dr_reader dr) in
      let dr := dr_with dr reader (dr_queue dr) (dr_started dr) in
      match code with
      | StatusOK =>
          let* '(code, queue) := sq_write (dr_queue dr) pp in
          match code with
          | StatusOK => fetch_loop fuel (dr_with dr reader queue (dr_started dr))
          | _ => Panic
          end
      | StatusNoData => Ok (Some (StatusOK, dr))
      | _ => Ok (Some (code, dr))
      end
  end.

Definition fetch_packets (fuel : nat) (dr : DelayedReader R)
    : res (option (StatusCode * DelayedReader R)) :=
  let* r := fetch_loop fuel dr in
  match r with
  | Some (StatusOK, dr) =>
      if queue_span (dr_queue dr) <? dr_delay dr then Ok (Some (StatusNoData, dr))
      else Ok (Some (StatusOK, dr))
  | _ => Ok r
  end.

(** The loop of [read_queued_packet_] on the queue. *)
Fixpoint trim_loop (fuel : nat) (delay : Z) (q : SortedQueue)
    : res (option (StatusCode * PacketPtr * SortedQueue)) :=
  match fuel with
  | O => Ok None
  | S fuel =>
      let* '(code, pp, q) := sq_read q in
      match code with
      | StatusOK =>
          if queue_span q <? delay then Ok (Some (StatusOK, pp, q)) else trim_loop fuel delay q
      | _ => Ok (Some (code, pp, q))
      end
  end.

Definition read_queued_packet (fuel : nat) (dr : DelayedReader R)
    : res (option (StatusCode * PacketPtr * DelayedReader R)) :=
  let* r := trim_loop fuel (dr_delay dr) (dr_queue dr) in
  match r with
  | Some (code, pp, q) => Ok (Some (code, pp, dr_with dr (dr_reader dr) q (dr_started dr)))
  | None => Ok None
  end.

(** The part of [read] after the start. *)
Definition delayed_reader_next (fuel : nat) (dr : DelayedReader R)
    : res (option (StatusCode * PacketPtr * DelayedReader R)) :=
  if negb (sq_size (dr_queue dr) =? 0)%nat then read_queued_packet fuel dr
  else
    let* '(code, pp, reader) := read (dr_reader dr) in
    Ok (Some (code, pp, dr_with dr reader (dr_queue dr) (dr_started dr))).

(** [None] when one of the loops needs more than [fuel] iterations. *)
Definition delayed_reader_read (fuel : nat) (dr : DelayedReader R)
    : res (option (StatusCode * PacketPtr * DelayedReader R)) :=
  panic_if (negb (dr_valid dr))
    (if negb (dr_started dr) then
       let* r := fetch_packets fuel dr in
       match r with
       | Some (StatusOK, dr) =>
           delayed_reader_next fuel (dr_with dr (dr_reader dr) (dr_queue dr) true)
       | Some (code, dr) => Ok (Some (code, None, dr))
       | None => Ok None
       end
     else delayed_reader_next fuel dr).

End DelayedReader.

(** * Correctness *)

(** Fetching from a queue of packets moves them all. *)
Lemma fetch_loop_queue ps fuel (dr : DelayedReader Queue) :
  dr_reader dr = mkQueue ps -> (length ps < fuel)%nat ->
  exists q, write_all (dr_queue dr) ps = Ok (Some q)
    /\ fetch_loop fuel dr = Ok (Some (StatusOK, dr_with dr (mkQueue []) q (dr_started dr))).
Proof.
  revert fuel dr. induction ps as [|p ps IH]; intros [|fuel] dr ER Hf; simpl in Hf; try lia;
    cbn [fetch_loop write_all]; rewrite ER.
  - by exists (dr_queue dr).
  - change (read (mkQueue (p :: ps))) with (Ok (StatusOK, Some p, mkQueue ps)). cbn [res_bind].
    change (write (dr_queue dr) (Some p)) with (sq_write (dr_queue dr) (Some p)).
    unfold dr_with at 1. cbn [dr_queue]. destruct (sq_write_total (dr_queue dr) p) as [q1 ->].
    cbn [res_bind].
    destruct (IH fuel (dr_with dr (mkQueue ps) q1 (dr_started dr))) as (q2 & E1 & E2);
      [done|lia|]. exists q2. by split.
Qed.

(** Reading a queue of positive delay: packets are taken from the head until what stays
    spans less than the delay; the last one taken is returned. *)
Lemma trim_loop_spec delay l latest m fuel :
  0 < delay -> l <> [] -> (length l < fuel)%nat ->
  exists l' p dropped, l = l' ++ p :: dropped
    /\ trim_loop fuel delay (mkSortedQueue l latest m)
       = Ok (Some (StatusOK, Some p, mkSortedQueue l' latest m))
    /\ queue_span (mkSortedQueue l' latest m) < delay
    /\ forall d1 d2, dropped = d1 ++ d2 -> d2 <> [] ->
         delay <= queue_span (mkSortedQueue (l' ++ p :: d1) latest m).
Proof.
  intros Hd. revert fuel. induction l as [|p l IH] using rev_ind; intros [|fuel] Hl Hf; try lia;
    [done|].
  rewrite length_app in Hf. simpl in Hf. cbn [trim_loop]. unfold sq_read. cbn [sq_list].
  rewrite pop_back_app. cbn [res_bind sq_latest sq_max_size].
  destruct (Z.ltb_spec (queue_span (mkSortedQueue l latest m)) delay) as [Hs|Hs].
  - exists l, p, []. split_and!; [done|done|done|]. by intros [|] [|].
  - destruct (IH fuel) as (l' & p' & dropped & -> & E & Hq & HD); [|lia|].
    { intros ->. cbn in Hs. lia. }
    exists l', p', (dropped ++ [p]). rewrite <- app_assoc. split_and!; [done|done|done|].
    intros d1 d2 Ed Hne. destruct d2 as [|y d2 _] using rev_ind; [done|].
    rewrite app_assoc in Ed. apply app_inj_tail in Ed as [-> _].
    destruct d2; [by rewrite app_nil_r in Hs|]. by apply (HD d1 (p0 :: d2)).
Qed.

Lemma trim_loop_drops_all l latest m fuel :
  (length l < fuel)%nat ->
  trim_loop fuel 0 (mkSortedQueue l latest m)
  = Ok (Some (StatusNoData, None, mkSortedQueue [] latest m)).
Proof.
  revert fuel. induction l as [|p l IH] using rev_ind; intros [|fuel] Hf; try (simpl in Hf; lia); [done|].
  rewrite length_app in Hf. simpl in Hf. cbn [trim_loop]. unfold sq_read. cbn [sq_list].
  rewrite pop_back_app. cbn [res_bind sq_latest sq_max_size].
  rewrite (proj2 (Z.ltb_ge _ _)); [apply IH; lia|].
  unfold queue_span. destruct (sq_tail _); [|done]. destruct (sq_head _); [|done]. cbv zeta.
  destruct (_ <? 0); [done|]. apply wrap_u_range. lia.
Qed.

Lemma sq_insert_nonempty p l l' : sq_insert p l = Some l' -> l' <> [].
Proof.
  destruct l as [|x l]; cbn; [by intros [= <-]|]. destruct (_ <? 0).
  - by destruct (sq_insert p l); [intros [= <-]|].
  - by destruct (_ =? 0); [|intros [= <-]].
Qed.

Lemma sq_write_nonempty q p code q' :
  sq_max_size q = O -> sq_write q (Some p) = Ok (code, q') ->
  sq_list q' <> [] /\ sq_max_size q' = O.
Proof.
  intros Hm. unfold sq_write. rewrite Hm. cbn [Nat.ltb Nat.leb andb].
  destruct (sq_insert p (sq_list q)) as [l|] eqn:EI; intros [= <- <-]; cbn.
  - by apply sq_insert_nonempty in EI.
  - split; [|done]. intros El. by rewrite El in EI.
Qed.

Lemma sq_write_all_nonempty ps q q1 :
  sq_max_size q = O -> ps <> [] \/ sq_list q <> [] -> write_all q ps = Ok (Some q1) ->
  sq_list q1 <> [].
Proof.
  revert q. induction ps as [|p ps IH]; intros q Hm Hp E.
  { injection E as <-. by destruct Hp. }
  cbn [write_all] in E. change (write q (Some p)) with (sq_write q (Some p)) in E.
  destruct (sq_write_total q p) as [q' EW]. rewrite EW in E. cbn [res_bind] in E.
  apply sq_write_nonempty in EW as [HN Hm']; [|done]. by eapply IH; [..|exact E]; auto.
Qed.

Lemma sq_write_all_length ps q q1 :
  write_all q ps = Ok (Some q1) ->
  (length (sq_list q1) <= length ps + length (sq_list q))%nat.
Proof.
  revert q. induction ps as [|p ps IH]; intros q E; [by injection E as <-|].
  cbn [write_all] in E. change (write q (Some p)) with (sq_write q (Some p)) in E.
  unfold sq_write in E. destruct (_ && _); cbn [res_bind] in E; [apply IH in E; simpl; lia|].
  destruct (sq_insert p (sq_list q)) as [l|] eqn:EI; cbn [res_bind] in E; apply IH in E;
    cbn [sq_list] in E; simpl; [|lia].
  apply sq_insert_length in EI. lia.
Qed.

Lemma sq_write_all_max_size ps q q1 :
  write_all q ps = Ok (Some q1) -> sq_max_size q1 = sq_max_size q.
Proof.
  revert q. induction ps as [|p ps IH]; intros q E; [by injection E as <-|].
  cbn [write_all] in E. change (write q (Some p)) with (sq_write q (Some p)) in E.
  unfold sq_write in E. destruct (_ && _); cbn [res_bind] in E; [by apply IH|].
  by destruct (sq_insert p (sq_list q)); cbn [res_bind] in E; apply IH in E.
Qed.

(** C31: a reader with a positive delay reads all packets that are available into its
    queue.  While they span less than the delay it returns nothing and keeps them all.
    As soon as they span the delay it starts: it returns the packet such that the ones
    after it, which it keeps, span less than the delay, and drops only packets that are
    more than the delay ahead. *)
Theorem delayed_reader_start (ps : list Packet) (dr : DelayedReader Queue) (fuel : nat) :
  dr_valid dr = true -> dr_started dr = false -> 0 < dr_delay dr ->
  dr_reader dr = mkQueue ps ->
  (length ps + length (sq_list (dr_queue dr)) + 1 < fuel)%nat ->
  exists q, write_all (dr_queue dr) ps = Ok (Some q)
    /\ (queue_span q < dr_delay dr ->
        delayed_reader_read fuel dr
        = Ok (Some (StatusNoData, None, dr_with dr (mkQueue []) q false)))
    /\ (dr_delay dr <= queue_span q ->
        exists l p dropped, sq_list q = l ++ p :: dropped
          /\ (let q' := mkSortedQueue l (sq_latest q) (sq_max_size q) in
              delayed_reader_read fuel dr
              = Ok (Some (StatusOK, Some p, dr_with dr (mkQueue []) q' true))
              /\ queue_span q' < dr_delay dr)
          /\ forall d1 d2, dropped = d1 ++ d2 -> d2 <> [] ->
               dr_delay dr
               <= queue_span (mkSortedQueue (l ++ p :: d1) (sq_latest q) (sq_max_size q))).
Proof.
  intros HV HS Hd ER Hf. destruct (fetch_loop_queue ps fuel dr ER) as (q & EW & EF); [lia|].
  exists q. split; [done|]. pose proof (sq_write_all_length _ _ _ EW) as HL.
  unfold delayed_reader_read, fetch_packets. rewrite HV, HS, EF.
  cbn [negb panic_if res_bind dr_with dr_queue dr_delay]. split; intros Hq.
  { rewrite (proj2 (Z.ltb_lt _ _)) by done. cbn [res_bind]. by rewrite HS. }
  rewrite (proj2 (Z.ltb_ge _ _)) by done. cbn [res_bind]. unfold delayed_reader_next, dr_with.
  cbn [dr_queue dr_reader dr_delay dr_started dr_valid].
  destruct q as [l latest m]. assert (l <> []) as Hne by (intros ->; cbn in Hq; lia).
  cbn [sq_list] in *.
  rewrite (proj2 (Nat.eqb_neq _ 0)) by (by destruct l).
  cbn [negb]. unfold read_queued_packet. cbn [dr_queue dr_delay dr_reader dr_started].
  destruct (trim_loop_spec (dr_delay dr) l latest m fuel) as (l' & p & dropped & -> & ET & HQ & HD);
    [done|done|lia|]. rewrite ET. cbn [res_bind].
  exists l', p, dropped. split_and!; done.
Qed.

(** With a zero delay, the first read loses every packet that is available: it moves
    them to the queue, then discards the queue to its end and reports that there is no
    data. *)
Theorem delayed_reader_zero_delay (ps : list Packet) (dr : DelayedReader Queue) (fuel : nat) :
  dr_valid dr = true -> dr_started dr = false -> dr_delay dr = 0 ->
  dr_reader dr = mkQueue ps -> ps <> [] -> sq_max_size (dr_queue dr) = O ->
  (length ps + length (sq_list (dr_queue dr)) + 1 < fuel)%nat ->
  exists latest,
    delayed_reader_read fuel dr
    = Ok (Some (StatusNoData, None, dr_with dr (mkQueue []) (mkSortedQueue [] latest 0) true)).
Proof.
  intros HV HS Hd ER Hne Hm Hf.
  destruct (fetch_loop_queue ps fuel dr ER) as (q & EW & EF); [lia|].
  pose proof (sq_write_all_nonempty _ _ _ Hm (or_introl Hne) EW) as HN.
  pose proof (sq_write_all_length _ _ _ EW) as HL.
  assert (0 <= queue_span q) as Hspan.
  { unfold queue_span. destruct (sq_tail q), (sq_head q); try done. cbv zeta.
    destruct (_ <? 0); [done|]. apply wrap_u_range. lia. }
  exists (sq_latest q). unfold delayed_reader_read, fetch_packets. rewrite HV, HS, EF.
  cbn [negb panic_if res_bind dr_with dr_queue dr_delay]. rewrite Hd.
  rewrite (proj2 (Z.ltb_ge _ _)) by done. cbn [res_bind]. unfold delayed_reader_next, dr_with.
  cbn [dr_queue dr_reader dr_delay dr_started dr_valid].
  pose proof (sq_write_all_max_size _ _ _ EW) as Hmq. rewrite Hm in Hmq.
  destruct q as [l latest m]. cbn [sq_list sq_max_size sq_latest] in *. subst m.
  rewrite (proj2 (Nat.eqb_neq _ 0)) by (by destruct l).
  cbn [negb]. unfold read_queued_packet. cbn [dr_queue dr_delay dr_reader dr_started].
  rewrite Hd, trim_loop_drops_all by lia. done.
Qed.

Definition demo_packet (sn : Z) : Packet :=
  with_rtp (with_flags Packet_new FlagRTP)
    (mkRTP 7 sn (sn * 100) 100 0 false 0 slice_empty slice_empty slice_empty).

Definition demo_reader (delay : Z) : DelayedReader Queue :=
  delayed_reader_new (fun ns => ns) (mkQueue (map demo_packet [3; 1; 2; 4; 5])) delay.

Lemma delayed_reader_start_witness :
  exists p dr', delayed_reader_read 10 (demo_reader 300) = Ok (Some (StatusOK, Some p, dr'))
    /\ dr_started dr' = true /\ queue_span (dr_queue dr') < 300.
Proof.
  destruct (delayed_reader_start (map demo_packet [3; 1; 2; 4; 5]) (demo_reader 300) 10)
    as (q & E & _ & H); [done..|simpl; lia|].
  vm_compute in E. injection E as <-.
  destruct H as (l & p & d & _ & (E & Hs) & _); [vm_compute; discriminate|].
  do 2 eexists. split; [exact E|]. split; [reflexivity|exact Hs].
Defined.

Lemma delayed_reader_zero_delay_witness :
  exists dr', delayed_reader_read 10 (demo_reader 0) = Ok (Some (StatusNoData, None, dr'))
    /\ queue_size (dr_reader dr') = O /\ sq_size (dr_queue dr') = O.
Proof.
  destruct (delayed_reader_zero_delay (map demo_packet [3; 1; 2; 4; 5]) (demo_reader 0) 10)
    as (latest & E); [done..|simpl; lia|].
  eexists. split; [exact E|split; reflexivity].
Defined.
