(* ===== verification/Router.v ===== *)
(** Routing packets: the router that splits what arrives at an endpoint into streams
    (src/internal_modules/roc_packet/router.cpp) and the shipper that completes outgoing
    packets (shipper.cpp). *)

From stdpp Require Import sorting.
From S2P Require Import Prelude Bytes Slice Packet Io RtpHeaders FecHeaders Compose.

(** * Router *)

Record Route (W : Type) : Type := mkRoute {
  rt_writer : W;
  rt_flags : Z;
  rt_source : Z;
  rt_has_source : bool;
  rt_is_started : bool
}.

Arguments mkRoute {W}.
Arguments rt_writer {W}.
Arguments rt_flags {W}.
Arguments rt_source {W}.
Arguments rt_has_source {W}.
Arguments rt_is_started {W}.

Section Router.

Context {W : Type} `{HW : IWriter W}.

Record Router : Type := mkRouter { routes : list (Route W) }.

(** [alloc] tells whether the array of routes can grow. *)
Definition add_route (alloc : bool) (r : Router) (writer : W) (flags : Z) : bool * Router :=
  if alloc then (true, mkRouter (routes r ++ [mkRoute writer flags 0 false false]))
  else (false, r).

(** [find_route_]: the position of the first route whose flags are all among [flags]. *)
Fixpoint find_route (rs : list (Route W)) (flags : Z) : option nat :=
  match rs with
  | [] => None
  | route :: rs =>
      if Z.land (rt_flags route) flags =? rt_flags route then Some O
      else match find_route rs flags with Some n => Some (S n) | None => None end
  end.

Definition router_has_source_id (r : Router) (flags : Z) : bool :=
  match find_route (routes r) flags with
  | Some n => match routes r !! n with Some route => rt_has_source route | None => false end
  | None => false
  end.

Definition router_get_source_id (r : Router) (flags : Z) : Z :=
  match find_route (routes r) flags with
  | Some n =>
      match routes r !! n with
      | Some route => if rt_has_source route then rt_source route else 0
      | None => 0
      end
  | None => 0
  end.

Definition allow_route (route : Route W) (packet : Packet) : bool * Route W :=
  if packet_has_source_id packet then
    if rt_has_source route then
      if negb (rt_source route =? packet_source_id packet) then (false, route)
      else (true, route)
    else if rt_is_started route then (false, route)
    else
      (true, mkRoute (rt_writer route) (rt_flags route) (packet_source_id packet) true true)
  else
    if rt_has_source route then (false, route)
    else if negb (rt_is_started route) then
      (true, mkRoute (rt_writer route) (rt_flags route) (rt_source route) false true)
    else (true, route).

(** The packet with its time of queueing. *)
Definition stamp (now : Z) (packet : Packet) : Packet :=
  match packet_udp packet with
  | Some u => with_udp packet (mkUDP (src_addr u) (dst_addr u) (receive_timestamp u) now)
  | None => packet
  end.

(** [now] is the clock at the time of the call. *)
Definition router_write (now : Z) (r : Router) (packet : PacketPtr) : res (StatusCode * Router) :=
  match packet with
  | None => Panic
  | Some packet =>
      match find_route (routes r) (flags_ packet) with
      | None => Ok (StatusOK, r)
      | Some n =>
          let* route := array_get (routes r) n in
          let '(allowed, route) := allow_route route packet in
          if allowed then
            let* '(code, writer) := write (rt_writer route) (Some (stamp now packet)) in
            let route := mkRoute writer (rt_flags route) (rt_source route)
                           (rt_has_source route) (rt_is_started route) in
            let* rs := array_set (routes r) n route in
            Ok (code, mkRouter rs)
          else Ok (StatusOK, r)
      end
  end.

(** A sequence of writes, each with the time it happens. *)
Fixpoint router_write_all (r : Router) (ps : list (Z * Packet)) : res Router :=
  match ps with
  | [] => Ok r
  | (now, p) :: ps =>
      let* '(code, r) := router_write now r (Some p) in router_write_all r ps
  end.

End Router.

Arguments Router : clear implicits.

(** * Shipper *)

Record Shipper (W : Type) : Type := mkShipper {
  sh_composer : IComposer;
  sh_writer : W;
  sh_outbound_address : option Z
}.

Arguments mkShipper {W}.
Arguments sh_composer {W}.
Arguments sh_writer {W}.
Arguments sh_outbound_address {W}.

(** The first statement of [Shipper::write]: give the packet its destination. *)
Definition ship_address (outbound_address : option Z) (packet : Packet) : res Packet :=
  match outbound_address with
  | None => Ok packet
  | Some _ =>
      let* packet :=
        if negb (has_flags packet FlagUDP) then add_flags packet FlagUDP else Ok packet in
      match packet_udp packet with
      | None => Panic
      | Some u =>
          match dst_addr u with
          | None => Ok (with_udp packet (mkUDP (src_addr u) outbound_address
                                           (receive_timestamp u) (queue_timestamp u)))
          | Some _ => Ok packet
          end
      end
  end.

(** The next two: compose the packet unless that was done. *)
Definition ship_compose (host : cpu_endian) (composer : IComposer) (packet : Packet)
    : res Packet :=
  panic_if (negb (has_flags packet FlagPrepared))
    (if negb (has_flags packet FlagComposed) then
       let* '(ok, packet) := composer_compose host composer packet in
       panic_if (negb ok) (add_flags packet FlagComposed)
     else Ok packet).

Definition shipper_write `{IWriter W} (host : cpu_endian) (s : Shipper W) (packet : PacketPtr)
    : res (StatusCode * Shipper W) :=
  match packet with
  | None => Panic
  | Some packet =>
      let* packet := ship_address (sh_outbound_address s) packet in
      let* packet := ship_compose host (sh_composer s) packet in
      let* '(code, writer) := write (sh_writer s) (Some packet) in
      Ok (code, mkShipper (sh_composer s) writer (sh_outbound_address s))
  end.

(** * Correctness of the router *)

Section RouterCorrect.

Context {W : Type} `{HF : FifoWriter W}.

(** The packets of [l] form one stream that fits the route. *)
Definition one_stream (route : Route W) (l : list Packet) : Prop :=
  forall p, p ∈ l ->
    Z.land (rt_flags route) (flags_ p) = rt_flags route
    /\ packet_has_source_id p = rt_has_source route
    /\ (rt_has_source route = true -> packet_source_id p = rt_source route).

(** What a route has: packets of one stream, in the order they were written, none before
    it was started. *)
Record route_inv (written : list Packet) (route : Route W) : Prop := {
  ri_stream : one_stream route (content (rt_writer route));
  ri_order : content (rt_writer route) `sublist_of` written;
  ri_started : rt_is_started route = false -> content (rt_writer route) = [] /\ rt_has_source route = false
}.

Lemma stamp_flags now p : flags_ (stamp now p) = flags_ p.
Proof. unfold stamp. by destruct (packet_udp p). Qed.

Lemma stamp_has_source_id now p : packet_has_source_id (stamp now p) = packet_has_source_id p.
Proof. unfold stamp. by destruct (packet_udp p). Qed.

Lemma stamp_source_id now p : packet_source_id (stamp now p) = packet_source_id p.
Proof. unfold stamp. by destruct (packet_udp p). Qed.

Lemma find_route_lookup (rs : list (Route W)) flags n :
  find_route rs flags = Some n ->
  exists route, rs !! n = Some route /\ Z.land (rt_flags route) flags = rt_flags route.
Proof.
  revert n. induction rs as [|route rs IH]; intros n; cbn; [done|].
  destruct (Z.eqb_spec (Z.land (rt_flags route) flags) (rt_flags route)); [intros [= <-]; by exists route|].
  destruct (find_route rs flags) as [k|]; [|done]. intros [= <-]. by apply IH.
Qed.

Lemma allow_route_keeps (route route' : Route W) p b :
  allow_route route p = (b, route') ->
  rt_writer route' = rt_writer route /\ rt_flags route' = rt_flags route.
Proof.
  unfold allow_route. intros E.
  repeat match type of E with context [if ?c then _ else _] => destruct c end;
    injection E as <- <-; done.
Qed.

Lemma allow_route_inv written (route route' : Route W) p :
  route_inv written route -> Z.land (rt_flags route) (flags_ p) = rt_flags route ->
  allow_route route p = (true, route') ->
  one_stream route' (content (rt_writer route) ++ [p])
  /\ rt_is_started route' = true.
Proof.
  intros [I1 I2 I3] HF'. unfold allow_route.
  destruct (packet_has_source_id p) eqn:Es, (rt_has_source route) eqn:Er.
  - destruct (Z.eqb_spec (rt_source route) (packet_source_id p)) as [E|]; [|done].
    intros [= <-]. split.
    + intros q [Hq|Hq%list_elem_of_singleton]%elem_of_app; [by apply I1|subst q].
      by rewrite Er.
    + destruct (rt_is_started route) eqn:E2; [done|]. by destruct (I3 eq_refl).
  - destruct (rt_is_started route) eqn:E2; [done|]. intros [= <-].
    destruct (I3 eq_refl) as [-> _]. split; [|done].
    intros q Hq%list_elem_of_singleton. by subst q.
  - done.
  - destruct (rt_is_started route) eqn:E2; intros [= <-].
    + split; [|done]. intros q [Hq|Hq%list_elem_of_singleton]%elem_of_app; [by apply I1|subst q].
      by rewrite Er.
    + destruct (I3 eq_refl) as [-> _]. split; [|done].
      intros q Hq%list_elem_of_singleton. by subst q.
Qed.

Lemma route_inv_more written x (route : Route W) :
  route_inv written route -> route_inv (written ++ [x]) route.
Proof. intros [I1 I2 I3]. split; [done| |done]. by apply sublist_inserts_r. Qed.

Lemma router_write_inv now (r : Router W) p written :
  Forall (route_inv written) (routes r) ->
  exists r', router_write now r (Some p) = Ok (StatusOK, r')
    /\ Forall (route_inv (written ++ [stamp now p])) (routes r').
Proof.
  intros HI. unfold router_write.
  assert (Forall (route_inv (written ++ [stamp now p])) (routes r)) as HI'
    by (eapply Forall_impl; [exact HI|]; intros; by apply route_inv_more).
  destruct (find_route (routes r) (flags_ p)) as [n|] eqn:EF; [|by eexists].
  destruct (find_route_lookup _ _ _ EF) as (route & El & Hf).
  rewrite (array_get_ok _ _ route) by done. cbn [res_bind].
  assert (route_inv written route) as HR by (by eapply Forall_lookup_1; [exact HI|exact El]).
  destruct (allow_route route p) as [[] route'] eqn:EA; [|by eexists].
  destruct (allow_route_keeps _ _ _ _ EA) as [Ew Ef].
  destruct (allow_route_inv _ _ _ _ HR Hf EA) as [HS HT].
  destruct (fifo_write (rt_writer route') (stamp now p)) as (w' & -> & C). cbn [res_bind].
  rewrite array_set_ok by (by apply lookup_lt_Some in El). cbn [res_bind].
  eexists. split; [reflexivity|]. cbn [routes]. apply Forall_insert; [done|].
  split; cbn [rt_writer rt_is_started]; [|rewrite C, Ew; by apply sublist_app; [apply HR|]|by rewrite HT].
  rewrite C, Ew. intros q [Hq|Hq%list_elem_of_singleton]%elem_of_app; unfold one_stream in HS; cbn in *.
  - apply HS. set_solver.
  - subst q. rewrite stamp_flags, stamp_has_source_id, stamp_source_id. apply HS. set_solver.
Qed.

(** C26: whatever packets are written to a router with lossless writers behind its
    routes, every write succeeds, and each writer gets packets of one stream only: all
    have the route's flags, and either all have the one source id that the router
    reports for the route or none has a source id; they come in the order in which they
    were written, each at most once. *)
Theorem router_separates_streams (r : Router W) (ps : list (Z * Packet)) :
  (forall route, route ∈ routes r ->
     content (rt_writer route) = [] /\ rt_is_started route = false /\ rt_has_source route = false) ->
  exists r', router_write_all r ps = Ok r'
    /\ forall route, route ∈ routes r' ->
         one_stream route (content (rt_writer route))
         /\ content (rt_writer route) `sublist_of` map (fun '(now, p) => stamp now p) ps.
Proof.
  intros H0.
  assert (forall qs r written, Forall (route_inv written) (routes r) ->
    exists r', router_write_all r qs = Ok r'
      /\ Forall (route_inv (written ++ map (fun '(now, p) => stamp now p) qs)) (routes r')) as HK.
  { induction qs as [|[now p] qs IH]; intros r1 written HI; cbn [router_write_all map].
    - exists r1. by rewrite app_nil_r.
    - destruct (router_write_inv now r1 p written HI) as (r2 & -> & H2). cbn [res_bind].
      destruct (IH r2 _ H2) as (r3 & E & H3). exists r3. by rewrite <- app_assoc in H3. }
  destruct (HK ps r []) as (r' & E & HI).
  { apply Forall_forall. intros route Hr. destruct (H0 route Hr) as (E1 & E2 & E3).
    split; rewrite ?E1; [intros q Hq; set_solver|apply sublist_nil_l|done]. }
  exists r'. split; [done|]. intros route Hr. rewrite Forall_forall in HI.
  by destruct (HI route Hr).
Qed.

End RouterCorrect.

Definition demo_router : Router Queue :=
  snd (add_route true (snd (add_route true (mkRouter []) (mkQueue []) FlagAudio))
         (mkQueue []) FlagRepair).

Definition demo_routed (fl src : Z) : Packet :=
  with_rtp (with_flags Packet_new (Z.lor (Z.lor FlagRTP FlagUDP) fl))
    (mkRTP src 0 0 0 0 false 0 slice_empty slice_empty slice_empty).

Lemma router_separates_streams_witness :
  exists r', router_write_all demo_router
      [(1, demo_routed FlagAudio 7); (2, demo_routed FlagRepair 7); (3, demo_routed FlagAudio 8)]
    = Ok r'
    /\ map (fun route => length (content (rt_writer route))) (routes r') = [1; 1]%nat.
Proof.
  destruct (router_separates_streams demo_router
      [(1, demo_routed FlagAudio 7); (2, demo_routed FlagRepair 7); (3, demo_routed FlagAudio 8)])
    as (r' & E & _).
  - intros route Hr. repeat (apply elem_of_cons in Hr as [->|Hr]; [done|]). by apply elem_of_nil in Hr.
  - exists r'. split; [done|]. vm_compute in E. by injection E as <-.
Defined.

(** * Correctness of the shipper *)

(** Composing writes to the buffer only. *)
Lemma composer_compose_keeps host c p ok p' :
  composer_compose host c p = Ok (ok, p') -> flags_ p' = flags_ p /\ udp_ p' = udp_ p.
Proof.
  revert c p ok p'. fix IH 1. intros [inner|pid type pos inner] p ok p'; cbn [composer_compose].
  - unfold rtp_composer_compose, res_bind, panic_if. intros H.
    destruct inner as [i|]; repeat case_match; simplify_eq; try done;
      by apply IH in H.
  - unfold fec_composer_compose, res_bind, panic_if. intros H.
    destruct inner as [i|]; repeat case_match; simplify_eq; try done;
      by apply IH in H.
Qed.

Lemma has_flags_add p fl p' fl' :
  add_flags p fl = Ok p' -> has_flags p' fl' = has_flags p fl' || negb (Z.land fl fl' =? 0).
Proof.
  unfold add_flags. intros E. res_inv. subst. rewrite has_flags_lor. f_equal.
Qed.

Lemma ship_address_done a p p' :
  ship_address (Some a) p = Ok p' ->
  has_flags p' FlagUDP = true /\ is_Some (dst_addr (udp_ p'))
  /\ (forall fl, Z.land FlagUDP fl = 0 -> has_flags p' fl = has_flags p fl).
Proof.
  unfold ship_address. intros E. res_inv.
  rename a0 into q. rename E0 into Eq. unfold packet_udp in E.
  destruct (has_flags q FlagUDP) eqn:Eu; [|done].
  assert (forall fl, Z.land FlagUDP fl = 0 -> has_flags q fl = has_flags p fl) as HK.
  { intros fl Hfl. destruct (has_flags p FlagUDP); cbn in Eq; [by res_inv|].
    rewrite (has_flags_add _ _ _ fl Eq), Hfl. apply orb_false_r. }
  destruct (dst_addr (udp_ q)) eqn:Ed; res_inv; by split_and!.
Qed.

(** Once a packet has its destination and is composed, shipping it again does nothing. *)
Lemma ship_address_again addr p :
  (addr <> None -> has_flags p FlagUDP = true /\ is_Some (dst_addr (udp_ p))) ->
  ship_address addr p = Ok p.
Proof.
  intros H. destruct addr as [a|]; [|done]. destruct H as [Hu [d Hd]]; [done|].
  unfold ship_address, packet_udp. rewrite Hu. cbn [negb res_bind]. by rewrite Hu, Hd.
Qed.

Lemma ship_compose_done host c p p' :
  ship_compose host c p = Ok p' ->
  has_flags p' FlagPrepared = true /\ has_flags p' FlagComposed = true
  /\ udp_ p' = udp_ p /\ (has_flags p FlagUDP = true -> has_flags p' FlagUDP = true).
Proof.
  unfold ship_compose. intros E. res_inv.
  destruct (has_flags p FlagComposed) eqn:Ec; cbn in E; [by res_inv|].
  destruct (composer_compose host c p) as [[ok q]|] eqn:EC; [|done]. cbn in E. res_inv. subst ok.
  apply composer_compose_keeps in EC as [Ef Eu].
  assert (forall fl, has_flags q fl = has_flags p fl) as HQ by (intros; unfold has_flags; by rewrite Ef).
  rewrite !(has_flags_add _ _ _ _ E), !HQ. split_and!; [by rewrite Heqb|by rewrite orb_true_r| |].
  - unfold add_flags in E. by res_inv.
  - by intros ->.
Qed.

(** A shipper passes on packets that are complete: with a destination when it has
    one to give, prepared and composed.  Shipping such a packet again passes it on
    unchanged: it is never composed twice and a destination is never replaced. *)
Theorem shipper_write_complete {W} `{FifoWriter W} (host : cpu_endian) (s s' : Shipper W)
    (p : Packet) (code : StatusCode) :
  shipper_write host s (Some p) = Ok (code, s') ->
  code = StatusOK
  /\ exists p', content (sh_writer s') = content (sh_writer s) ++ [p']
    /\ has_flags p' FlagPrepared = true /\ has_flags p' FlagComposed = true
    /\ (sh_outbound_address s <> None ->
        has_flags p' FlagUDP = true /\ is_Some (dst_addr (udp_ p')))
    /\ exists s'', shipper_write host s' (Some p') = Ok (StatusOK, s'')
         /\ content (sh_writer s'') = content (sh_writer s') ++ [p'].
Proof.
  unfold shipper_write at 1. intros E.
  destruct (ship_address (sh_outbound_address s) p) as [p1|] eqn:E1; [|done].
  cbn [res_bind] in E.
  destruct (ship_compose host (sh_composer s) p1) as [p2|] eqn:E2; [|done].
  cbn [res_bind] in E. destruct (fifo_write (sh_writer s) p2) as (w & Ew & Cw).
  rewrite Ew in E. cbn [res_bind] in E. injection E as <- <-. split; [done|].
  destruct (ship_compose_done _ _ _ _ E2) as (HP & HC & Hu & HU).
  exists p2. cbn [sh_writer]. split; [done|]. split; [done|]. split; [done|].
  assert (sh_outbound_address s <> None ->
          has_flags p2 FlagUDP = true /\ is_Some (dst_addr (udp_ p2))) as HA.
  { intros Ha. destruct (sh_outbound_address s) as [a|]; [|done].
    destruct (ship_address_done _ _ _ E1) as (H1 & H2 & _). rewrite Hu. auto. }
  split; [done|]. destruct (fifo_write w p2) as (w' & Ew' & Cw').
  exists (mkShipper (sh_composer s) w' (sh_outbound_address s)). unfold shipper_write.
  cbn [sh_outbound_address sh_composer sh_writer]. rewrite ship_address_again by done.
  cbn [res_bind]. unfold ship_compose. rewrite HP, HC. cbn [negb panic_if res_bind].
  by rewrite Ew'.
Qed.

Lemma shipper_write_complete_witness :
  exists p',
    shipper_write CPU_LE (mkShipper (RtpComposer None) (mkQueue []) (Some 1))
      (Some (with_flags Packet_new (Z.lor FlagPrepared FlagComposed)))
    = Ok (StatusOK, mkShipper (RtpComposer None) (mkQueue [p']) (Some 1))
    /\ has_flags p' FlagUDP = true.
Proof.
  set (p := with_flags Packet_new (Z.lor FlagPrepared FlagComposed)).
  set (p' := with_udp (with_flags p (Z.lor (flags_ p) FlagUDP)) (mkUDP None (Some 1) 0 0)).
  exists p'. assert (shipper_write CPU_LE (mkShipper (RtpComposer None) (mkQueue []) (Some 1)) (Some p)
    = Ok (StatusOK, mkShipper (RtpComposer None) (mkQueue [p']) (Some 1))) as E by reflexivity.
  split; [done|]. destruct (shipper_write_complete _ _ _ _ _ E) as (_ & q & Eq & _ & _ & HU & _).
  injection Eq as <-. by apply HU.
Defined.
