(* ===== verification/RtpStream.v ===== *)
(** RTP streams (src/internal_modules/roc_rtp): the sequencer that numbers outgoing
    packets (sequencer.cpp, identity.cpp), the filter that validates incoming ones
    (filter.cpp), the link meter (link_meter.cpp), and the two ends of the mapping between
    capture time and stream time (timestamp_extractor.cpp, timestamp_injector.cpp).

    The conversions between stream timestamps and nanoseconds of the sample spec, which
    use floating point, and the sample count of the payload decoder are parameters. *)

From S2P Require Import Prelude Units Bytes Slice Packet Io FastRandom.

(** * Identity and sequencer *)

Record Identity : Type := mkIdentity {
  id_ssrc : Z;
  id_valid : bool
}.

(** [change_ssrc], with the state of the generator; the loop of the generator is given
    [fuel] iterations. *)
Definition change_ssrc (clock : Z) (fuel : nat) (identity : Identity) (rng : Z)
    : res (option (Identity * Z)) :=
  let* r := fast_random_range clock fuel 1 (u32 (-1)) rng in
  match r with
  | Some (ssrc, rng) => Ok (Some (mkIdentity (u32 ssrc) (id_valid identity), rng))
  | None => Ok None
  end.

Definition identity_ssrc (identity : Identity) : res Z :=
  panic_if (negb (id_valid identity)) (Ok (id_ssrc identity)).

Record Sequencer : Type := mkSequencer {
  seq_identity : Identity;
  seq_payload_type : Z;
  seq_seqnum : Z;
  seq_stream_ts : Z;
  seq_valid : bool
}.

Definition sequencer_new (clock : Z) (fuel : nat) (identity : Identity) (payload_type rng : Z)
    : res (option (Sequencer * Z)) :=
  let* r := fast_random_range clock fuel 0 (u16 (-1)) rng in
  match r with
  | None => Ok None
  | Some (sn, rng) =>
      let* r := fast_random_range clock fuel 0 (u32 (-1)) rng in
      match r with
      | None => Ok None
      | Some (ts, rng) =>
          Ok (Some (mkSequencer identity payload_type (u16 sn) (u32 ts) true, rng))
      end
  end.

Definition sequencer_next (s : Sequencer) (packet : Packet) (capture_ts dur : Z)
    : res (Packet * Sequencer) :=
  match packet_rtp packet with
  | None => Panic
  | Some r =>
      let* ssrc := identity_ssrc (seq_identity s) in
      Ok (with_rtp packet
            (mkRTP ssrc (seq_seqnum s) (seq_stream_ts s) dur capture_ts (marker r)
                   (seq_payload_type s) (rtp_header r) (rtp_payload r) (rtp_padding r)),
          mkSequencer (seq_identity s) (seq_payload_type s) (u16 (seq_seqnum s + 1))
            (u32 (seq_stream_ts s + dur)) (seq_valid s))
  end.

(** * Filter *)

Record FilterConfig : Type := mkFilterConfig {
  max_sn_jump : Z;
  max_ts_jump : Z
}.

Record Filter (R : Type) : Type := mkFilter {
  flt_reader : R;
  flt_prev : option RTP;  (** [prev_packet_rtp_] when [has_prev_packet_] *)
  flt_config : FilterConfig
}.

Arguments mkFilter {R}.
Arguments flt_reader {R}.
Arguments flt_prev {R}.
Arguments flt_config {R}.

Section Filter.

Context (stream_timestamp_delta_2_ns : Z -> Z).
(** [decoder_.decoded_sample_count] of the bytes of a payload. *)
Context (decoded_sample_count : bytes -> Z).

(** The 16-bit distance is negated as an [int], which cannot overflow, and converted back;
    the 32-bit one is negated as it is, which has no behaviour for the least value. *)
Definition validate_sequence (config : FilterConfig) (prev next : RTP) : res bool :=
  if negb (source_id prev =? source_id next) then Ok false
  else if negb (payload_type next =? payload_type prev) then Ok false
  else
    let sn_dist := seqnum_diff (seqnum next) (seqnum prev) in
    let sn_dist := if sn_dist <? 0 then s16 (- sn_dist) else sn_dist in
    if max_sn_jump config <? u64 sn_dist then Ok false
    else
      let ts_dist := stream_timestamp_diff (stream_timestamp next) (stream_timestamp prev) in
      let* ts_dist :=
        if ts_dist <? 0 then panic_if (ts_dist =? - 2 ^ 31) (Ok (- ts_dist)) else Ok ts_dist in
      if max_ts_jump config <? stream_timestamp_delta_2_ns ts_dist then Ok false
      else if capture_timestamp next <? 0 then Ok false
      else if (capture_timestamp next =? 0) && negb (capture_timestamp prev =? 0) then Ok false
      else Ok true.

(** [validate_]: whether the packet is accepted, and the previous packet to remember. *)
Definition filter_validate (config : FilterConfig) (prev : option RTP) (packet : Packet)
    : res (bool * option RTP) :=
  if negb (has_flags packet FlagRTP) then Ok (false, prev)
  else if negb (has_flags packet FlagAudio) then Ok (false, prev)
  else
    match prev with
    | None => Ok (true, Some (rtp_ packet))
    | Some p =>
        let* valid := validate_sequence config p (rtp_ packet) in
        if negb valid then Ok (false, prev)
        else if rtp_compare p (rtp_ packet) <? 0 then Ok (true, Some (rtp_ packet))
        else Ok (true, prev)
    end.

(** [populate_] *)
Definition filter_populate (packet : Packet) : res Packet :=
  let r := rtp_ packet in
  if duration r =? 0 then
    let* d := slice_data (rtp_payload r) in
    let dur := u32 (decoded_sample_count (slice_of (pkt_mem packet) d (sl_size (rtp_payload r)))) in
    Ok (with_rtp packet
          (mkRTP (source_id r) (seqnum r) (stream_timestamp r) dur (capture_timestamp r)
                 (marker r) (payload_type r) (rtp_header r) (rtp_payload r) (rtp_padding r)))
  else Ok packet.

Definition filter_read `{IReader R} (f : Filter R) : res (StatusCode * PacketPtr * Filter R) :=
  let* '(code, pp, reader) := read (flt_reader f) in
  match code with
  | StatusOK =>
      match pp with
      | None => Panic
      | Some packet =>
          let* '(ok, prev) := filter_validate (flt_config f) (flt_prev f) packet in
          let f := mkFilter reader prev (flt_config f) in
          if ok then
            let* packet := filter_populate packet in Ok (StatusOK, Some packet, f)
          else Ok (StatusNoData, None, f)
      end
  | _ => Ok (code, None, mkFilter reader (flt_prev f) (flt_config f))
  end.

End Filter.

(** * Link meter *)

Record LinkMetrics : Type := mkLinkMetrics {
  ext_first_seqnum : Z;
  ext_last_seqnum : Z;
  total_packets : Z;
  lost_packets : Z;
  lm_jitter : Z;
  lm_rtt : Z
}.

Record Encoding : Type := mkEncoding {
  enc_payload_type : Z;
  enc_packet_flags : Z
}.

Record LinkMeter (W R : Type) : Type := mkLinkMeter {
  lm_encoding : option Encoding;
  lm_writer : option W;
  lm_reader : option R;
  first_packet : bool;
  has_metrics : bool;
  lm_metrics : LinkMetrics;
  first_seqnum : Z;
  last_seqnum_hi : Z;
  last_seqnum_lo : Z
}.

Arguments mkLinkMeter {W R}.
Arguments lm_encoding {W R}.
Arguments lm_writer {W R}.
Arguments lm_reader {W R}.
Arguments first_packet {W R}.
Arguments has_metrics {W R}.
Arguments lm_metrics {W R}.
Arguments first_seqnum {W R}.
Arguments last_seqnum_hi {W R}.
Arguments last_seqnum_lo {W R}.

Section LinkMeter.

Context {W R : Type} `{HW : IWriter W} `{HR : IReader R}.
Context (find_by_pt : Z -> option Encoding).

Definition link_meter_new : LinkMeter W R :=
  mkLinkMeter None None None true false (mkLinkMetrics 0 0 0 0 0 0) 0 0 0.

Definition link_meter_process_report (lm : LinkMeter W R) (report_rtt : Z) : LinkMeter W R :=
  let m := lm_metrics lm in
  mkLinkMeter (lm_encoding lm) (lm_writer lm) (lm_reader lm) (first_packet lm) (has_metrics lm)
    (mkLinkMetrics (ext_first_seqnum m) (ext_last_seqnum m) (total_packets m) (lost_packets m)
       (lm_jitter m) report_rtt)
    (first_seqnum lm) (last_seqnum_hi lm) (last_seqnum_lo lm).

Definition update_metrics (lm : LinkMeter W R) (pkt_seqnum : Z) : LinkMeter W R :=
  let first_seqnum :=
    if (first_packet lm || (seqnum_diff pkt_seqnum (first_seqnum lm) <? 0))
       && (last_seqnum_hi lm =? 0)
    then pkt_seqnum else first_seqnum lm in
  let after := first_packet lm || (0 <? seqnum_diff pkt_seqnum (last_seqnum_lo lm)) in
  let last_seqnum_hi :=
    if after && (pkt_seqnum <? last_seqnum_lo lm) then u32 (last_seqnum_hi lm + u16 (-1))
    else last_seqnum_hi lm in
  let last_seqnum_lo := if after then pkt_seqnum else last_seqnum_lo lm in
  let m := lm_metrics lm in
  mkLinkMeter (lm_encoding lm) (lm_writer lm) (lm_reader lm) false true
    (mkLinkMetrics first_seqnum (u32 (last_seqnum_hi + last_seqnum_lo)) (total_packets m)
       (lost_packets m) (lm_jitter m) (lm_rtt m))
    first_seqnum last_seqnum_hi last_seqnum_lo.

Definition lm_with_encoding (lm : LinkMeter W R) (encoding : option Encoding) : LinkMeter W R :=
  mkLinkMeter encoding (lm_writer lm) (lm_reader lm) (first_packet lm) (has_metrics lm)
    (lm_metrics lm) (first_seqnum lm) (last_seqnum_hi lm) (last_seqnum_lo lm).

Definition lm_with_io (lm : LinkMeter W R) (writer : option W) (reader : option R)
    : LinkMeter W R :=
  mkLinkMeter (lm_encoding lm) writer reader (first_packet lm) (has_metrics lm)
    (lm_metrics lm) (first_seqnum lm) (last_seqnum_hi lm) (last_seqnum_lo lm).

Definition link_meter_write (lm : LinkMeter W R) (packet : PacketPtr)
    : res (StatusCode * LinkMeter W R) :=
  match lm_writer lm, packet with
  | Some writer, Some p =>
      let lm :=
        match packet_rtp p with
        | None => lm
        | Some r =>
            let known :=
              match lm_encoding lm with
              | Some e => enc_payload_type e =? payload_type r
              | None => false
              end in
            let lm := if known then lm else lm_with_encoding lm (find_by_pt (payload_type r)) in
            match lm_encoding lm with
            | Some _ => update_metrics lm (seqnum r)
            | None => lm
            end
        end in
      let* '(code, writer) := write writer (Some p) in
      Ok (code, lm_with_io lm (Some writer) (lm_reader lm))
  | _, _ => Panic
  end.

Definition link_meter_read (lm : LinkMeter W R) : res (StatusCode * PacketPtr * LinkMeter W R) :=
  match lm_reader lm with
  | None => Panic
  | Some reader =>
      let* '(code, pp, reader) := read reader in
      Ok (code, pp, lm_with_io lm (lm_writer lm) (Some reader))
  end.

End LinkMeter.

(** * Timestamp mapping *)

Record TimestampExtractor (W : Type) : Type := mkTimestampExtractor {
  te_writer : W;
  te_has_ts : bool;
  te_capt_ts : Z;
  te_rtp_ts : Z
}.

Arguments mkTimestampExtractor {W}.
Arguments te_writer {W}.
Arguments te_has_ts {W}.
Arguments te_capt_ts {W}.
Arguments te_rtp_ts {W}.

Definition extractor_write `{IWriter W} (te : TimestampExtractor W) (pkt : PacketPtr)
    : res (StatusCode * TimestampExtractor W) :=
  match pkt with
  | None => Panic
  | Some p =>
      match packet_rtp p with
      | None => Panic
      | Some r =>
          panic_if (capture_timestamp r <? 0)
            (let te :=
               if negb (capture_timestamp r =? 0)
               then mkTimestampExtractor (te_writer te) true (capture_timestamp r)
                      (stream_timestamp r)
               else te in
             let* '(code, writer) := write (te_writer te) pkt in
             Ok (code, mkTimestampExtractor writer (te_has_ts te) (te_capt_ts te) (te_rtp_ts te)))
      end
  end.

Definition get_mapping (ns_2_stream_timestamp_delta : Z -> Z) {W} (te : TimestampExtractor W)
    (capture_ts : Z) : res Z :=
  panic_if (capture_ts <=? 0)
    (panic_if (negb (te_has_ts te))
       (let dn := ns_2_stream_timestamp_delta (s64 (capture_ts - te_capt_ts te)) in
        Ok (u32 (te_rtp_ts te + u32 dn)))).

Record TimestampInjector (R : Type) : Type := mkTimestampInjector {
  ti_reader : R;
  ti_has_ts : bool;
  ti_capt_ts : Z;
  ti_rtp_ts : Z;
  ti_n_drops : Z
}.

Arguments mkTimestampInjector {R}.
Arguments ti_reader {R}.
Arguments ti_has_ts {R}.
Arguments ti_capt_ts {R}.
Arguments ti_rtp_ts {R}.
Arguments ti_n_drops {R}.

Definition injector_read `{IReader R} (stream_timestamp_delta_2_ns : Z -> Z)
    (ti : TimestampInjector R) : res (StatusCode * PacketPtr * TimestampInjector R) :=
  let* '(code, pp, reader) := read (ti_reader ti) in
  let ti := mkTimestampInjector reader (ti_has_ts ti) (ti_capt_ts ti) (ti_rtp_ts ti)
              (ti_n_drops ti) in
  match code with
  | StatusOK =>
      match pp with
      | None => Panic
      | Some p =>
          match packet_rtp p with
          | None => Panic
          | Some r =>
              panic_if (negb (capture_timestamp r =? 0))
                (if ti_has_ts ti then
                   let rtp_dn := stream_timestamp_diff (stream_timestamp r) (ti_rtp_ts ti) in
                   let cts := s64 (ti_capt_ts ti + stream_timestamp_delta_2_ns rtp_dn) in
                   Ok (code, Some (with_rtp p
                         (mkRTP (source_id r) (seqnum r) (stream_timestamp r) (duration r) cts
                            (marker r) (payload_type r) (rtp_header r) (rtp_payload r)
                            (rtp_padding r))), ti)
                 else Ok (code, pp, ti))
          end
      end
  | _ => Ok (code, pp, ti)
  end.

Definition update_mapping {R} (ti : TimestampInjector R) (capture_ts rtp_ts : Z)
    : TimestampInjector R :=
  if capture_ts <=? 0
  then mkTimestampInjector (ti_reader ti) (ti_has_ts ti) (ti_capt_ts ti) (ti_rtp_ts ti)
         (ti_n_drops ti + 1)
  else mkTimestampInjector (ti_reader ti) true capture_ts rtp_ts (ti_n_drops ti).

(** * The link meter counts cycles of 65535 *)

Section ExtendedSeqnum.

Context {W R : Type}.

Definition feed (lm : LinkMeter W R) (xs : list Z) : LinkMeter W R :=
  fold_left (fun lm x => update_metrics lm (u16 x)) xs lm.

(** Packets at the unwrapped positions [xs], none half a cycle or more away from the
    furthest position before it, which is [M] at the start. *)
Fixpoint arrives (M : Z) (xs : list Z) : Prop :=
  match xs with
  | [] => True
  | x :: xs => - 2 ^ 15 < x - M < 2 ^ 15 /\ arrives (Z.max M x) xs
  end.

Lemma seqnum_diff_u16 x y : - 2 ^ 15 < x - y < 2 ^ 15 -> seqnum_diff (u16 x) (u16 y) = x - y.
Proof.
  intros H. unfold seqnum_diff.
  apply wrap_s_unique with (y / 2 ^ 16 - x / 2 ^ 16); [lia|unfold is_s; lia|].
  unfold wrap_u. zlia.
Qed.

(** The meter after a packet at the furthest position [M]. *)
Definition lm_at (lm : LinkMeter W R) (M : Z) : Prop :=
  first_packet lm = false /\ 0 <= M /\ last_seqnum_lo lm = u16 M
  /\ last_seqnum_hi lm = u32 (65535 * (M / 2 ^ 16)).

Lemma update_metrics_at lm M x :
  lm_at lm M -> - 2 ^ 15 < x - M < 2 ^ 15 -> lm_at (update_metrics lm (u16 x)) (Z.max M x).
Proof.
  intros (HF & HM & HL & HH) Hx. unfold lm_at, update_metrics. cbn. rewrite HF, HL, HH.
  cbn [orb]. rewrite seqnum_diff_u16 by done.
  destruct (Z.ltb_spec 0 (x - M)) as [Hlt|Hge]; cbn [andb].
  - rewrite Z.max_r by lia. split_and!; [done|lia|done|].
    destruct (Z.ltb_spec (u16 x) (u16 M)) as [Hc|Hc]; unfold wrap_u in *.
    + assert (x / 2 ^ 16 = M / 2 ^ 16 + 1) as -> by zlia.
      rewrite Zplus_mod_idemp_l. f_equal. change ((-1) mod 2 ^ 16) with 65535. lia.
    + assert (x / 2 ^ 16 = M / 2 ^ 16) as -> by zlia. done.
  - rewrite Z.max_l by lia. done.
Qed.

Lemma feed_at lm M xs :
  lm_at lm M -> arrives M xs -> lm_at (feed lm xs) (fold_left Z.max xs M).
Proof.
  revert lm M. induction xs as [|x xs IH]; intros lm M HA HX; [done|].
  destruct HX as [Hx HX]. cbn. apply IH; [by apply update_metrics_at|done].
Qed.

Lemma feed_metrics lm x xs :
  let lm' := feed lm (x :: xs) in
  ext_last_seqnum (lm_metrics lm') = u32 (last_seqnum_hi lm' + last_seqnum_lo lm')
  /\ has_metrics lm' = true.
Proof. revert lm x. induction xs as [|y xs IH]; intros lm x; [done|]. apply (IH (update_metrics lm (u16 x)) y). Qed.

(** When the packets of a stream arrive with less than half a cycle of reordering,
    the low part the link meter keeps is the highest sequence number, but the extended
    highest sequence number that it reports falls behind by one for every completed
    cycle: it is [M - M / 2^16] where the furthest packet is number [M], so that it
    equals the number of the packet only in the first cycle. *)
Theorem link_meter_ext_seqnum (x0 : Z) (xs : list Z) :
  is_u 16 x0 -> arrives x0 xs ->
  let lm := feed link_meter_new (x0 :: xs) in
  let M := fold_left Z.max xs x0 in
  has_metrics lm = true
  /\ last_seqnum_lo lm = u16 M
  /\ ext_last_seqnum (lm_metrics lm) = u32 (M - M / 2 ^ 16).
Proof.
  intros Hx HX lm M.
  assert (lm_at (update_metrics link_meter_new (u16 x0)) x0) as H0.
  { unfold lm_at, update_metrics, link_meter_new. cbn. rewrite (wrap_u_small 16) by done.
    unfold is_u in Hx. rewrite (proj2 (Z.ltb_ge x0 0)) by lia. rewrite Z.div_small by done.
    split_and!; done || lia. }
  destruct (feed_at _ _ _ H0 HX) as (_ & HM & HL & HH).
  destruct (feed_metrics link_meter_new x0 xs) as [HE HM'].
  split; [done|]. split; [exact HL|]. subst lm M. rewrite HE.
  change (feed link_meter_new (x0 :: xs)) with (feed (update_metrics link_meter_new (u16 x0)) xs).
  rewrite HL, HH. unfold wrap_u. rewrite Zplus_mod_idemp_l. f_equal. zlia.
Qed.

End ExtendedSeqnum.

Lemma link_meter_ext_seqnum_witness :
  ext_last_seqnum (lm_metrics (feed (@link_meter_new Queue Queue) [65534; 65535; 65537; 65536]))
  = 65536.
Proof.
  destruct (@link_meter_ext_seqnum Queue Queue 65534 [65535; 65537; 65536]) as (_ & _ & E).
  - split; lia.
  - cbn. lia.
  - exact E.
Defined.

(** * The filter lets one consistent stream through *)

Section FilterCorrect.

Context (delta_2_ns : Z -> Z) (decoded_sample_count : bytes -> Z).

(** [n] reads from a queue of packets; the packets that come through. *)
Fixpoint filter_reads (n : nat) (f : Filter Queue) : res (list Packet * Filter Queue) :=
  match n with
  | O => Ok ([], f)
  | S n =>
      let* '(code, pp, f) := filter_read delta_2_ns decoded_sample_count f in
      let* '(ps, f) := filter_reads n f in
      match code, pp with
      | StatusOK, Some p => Ok (p :: ps, f)
      | _, _ => Ok (ps, f)
      end
  end.

Definition same_stream (a b : RTP) : Prop :=
  source_id a = source_id b /\ payload_type a = payload_type b.

(** Each packet is RTP audio and follows some packet before it. *)
Definition consistent (max_jump : Z) (l : list Packet) : Prop :=
  forall a p b, l = a ++ p :: b ->
    has_flags p FlagRTP = true /\ has_flags p FlagAudio = true
    /\ (a <> [] -> exists q, q ∈ a /\ same_stream (rtp_ q) (rtp_ p)
          /\ Z.abs (seqnum_diff (seqnum (rtp_ p)) (seqnum (rtp_ q))) <= max_jump).

Definition prev_known (acc : list Packet) (prev : option RTP) : Prop :=
  match prev with
  | None => acc = []
  | Some r => exists q, q ∈ acc /\ same_stream (rtp_ q) r /\ seqnum (rtp_ q) = seqnum r
  end.

Lemma validate_sequence_sound config prev next :
  max_sn_jump config < 2 ^ 15 -> validate_sequence delta_2_ns config prev next = Ok true ->
  same_stream prev next
  /\ Z.abs (seqnum_diff (seqnum next) (seqnum prev)) <= max_sn_jump config.
Proof.
  intros HJ. unfold validate_sequence. cbv zeta.
  destruct (Z.eqb_spec (source_id prev) (source_id next)); [|done].
  destruct (Z.eqb_spec (payload_type next) (payload_type prev)); [|done]. cbn [negb].
  destruct (Z.ltb_spec (max_sn_jump config)
    (u64 (if seqnum_diff (seqnum next) (seqnum prev) <? 0
          then s16 (- seqnum_diff (seqnum next) (seqnum prev))
          else seqnum_diff (seqnum next) (seqnum prev)))) as [|Hd]; [done|]. intros _.
  split; [done|].
  pose proof (circle_diff_range 16 ltac:(lia) (seqnum next) (seqnum prev)) as Hr.
  change (circle_diff 16) with seqnum_diff in Hr. unfold is_s in Hr.
  set (d := seqnum_diff (seqnum next) (seqnum prev)) in *.
  destruct (Z.ltb_spec d 0).
  - destruct (decide (d = - 2 ^ 15)) as [E|E].
    + rewrite E in Hd. vm_compute (u64 (s16 (- - 2 ^ 15))) in Hd. lia.
    + rewrite wrap_s_small, wrap_u_small in Hd by (unfold is_u, is_s; lia). lia.
  - rewrite wrap_u_small in Hd by (unfold is_u; lia). lia.
Qed.

Lemma filter_populate_keeps p p' :
  filter_populate decoded_sample_count p = Ok p' ->
  flags_ p' = flags_ p /\ same_stream (rtp_ p') (rtp_ p) /\ seqnum (rtp_ p') = seqnum (rtp_ p).
Proof.
  unfold filter_populate. destruct (_ =? 0); [|by intros [= <-]].
  destruct (slice_data _); [|done]. by intros [= <-].
Qed.

Lemma filter_validate_step config prev acc p ok prev' p' :
  max_sn_jump config < 2 ^ 15 -> prev_known acc prev -> consistent (max_sn_jump config) acc ->
  filter_validate delta_2_ns config prev p = Ok (ok, prev') ->
  if ok then
    filter_populate decoded_sample_count p = Ok p' ->
    prev_known (acc ++ [p']) prev' /\ consistent (max_sn_jump config) (acc ++ [p'])
  else prev' = prev.
Proof.
  intros HJ HP HC. unfold filter_validate.
  destruct (has_flags p FlagRTP) eqn:E1; [|by intros [= <- <-]].
  destruct (has_flags p FlagAudio) eqn:E2; [|by intros [= <- <-]]. cbn [negb].
  assert (forall a x b, acc ++ [p'] = a ++ x :: b ->
    (b = [] /\ a = acc /\ x = p') \/ exists b', acc = a ++ x :: b') as Hsplit.
  { intros a x b E. destruct b as [|y b _] using rev_ind.
    - apply app_inj_tail in E as [-> ->]. by left.
    - right. rewrite app_comm_cons, app_assoc in E. apply app_inj_tail in E as [-> _]. by exists b. }
  destruct prev as [r|].
  - destruct (validate_sequence delta_2_ns config r (rtp_ p)) as [[]|] eqn:EV; cbn [negb res_bind];
      [|by intros [= <- <-]|done].
    destruct (validate_sequence_sound _ _ _ HJ EV) as [HS Hd].
    destruct HP as (q & Hq & Sq & Nq). intros E.
    assert (ok = true) as -> by (by destruct (_ <? 0); injection E).
    intros Hpop. apply filter_populate_keeps in Hpop as (Hf & Hs & Hn). split.
    + destruct (_ <? 0); injection E as <-; [exists p'|exists q]; set_solver.
    + intros a x b [(-> & -> & ->)|[b' ->]]%Hsplit; [|by destruct (HC a x b')].
      unfold has_flags in *. rewrite Hf. split_and!; [done|done|]. intros _. exists q.
      rewrite Hn, Nq. unfold same_stream in *. split; [done|]. intuition congruence.
  - intros [= <- <-] Hpop. apply filter_populate_keeps in Hpop as (Hf & Hs & Hn).
    cbn in HP. subst acc. split.
    + exists p'. set_solver.
    + intros a x b [(-> & -> & ->)|[b' E]]%Hsplit; [|by destruct a].
      unfold has_flags in *. by rewrite Hf.
Qed.

Lemma filter_reads_consistent n f acc outs f' :
  max_sn_jump (flt_config f) < 2 ^ 15 -> prev_known acc (flt_prev f) ->
  consistent (max_sn_jump (flt_config f)) acc ->
  filter_reads n f = Ok (outs, f') -> consistent (max_sn_jump (flt_config f)) (acc ++ outs).
Proof.
  revert f acc outs. induction n as [|n IH]; intros f acc outs HJ HP HC E; cbn in E.
  { injection E as <- <-. by rewrite app_nil_r. }
  unfold filter_read in E. destruct (flt_reader f) as [[|p l]]; cbn in E.
  - res_inv. destruct a as [ps f2]. res_inv. subst.
    by apply (IH (mkFilter (mkQueue []) (flt_prev f) (flt_config f))) with (acc := acc) in E0.
  - destruct (filter_validate delta_2_ns (flt_config f) (flt_prev f) p) as [[[] prev']|] eqn:EV;
      [| |done]; cbn [res_bind] in E.
    + destruct (filter_populate decoded_sample_count p) as [p'|] eqn:EP; [|done]. cbn in E.
      res_inv. destruct a as [ps f2]. res_inv. subst.
      destruct (filter_validate_step _ _ _ _ _ _ p' HJ HP HC EV EP) as [HP' HC'].
      apply (IH (mkFilter (mkQueue l) prev' (flt_config f))) with (acc := acc ++ [p']) in E0;
        [|done..]. by rewrite <- app_assoc in E0.
    + pose proof (filter_validate_step _ _ _ _ _ _ p HJ HP HC EV) as ->. cbn in E.
      res_inv. destruct a as [ps f2]. res_inv. subst.
      by apply (IH (mkFilter (mkQueue l) (flt_prev f) (flt_config f))) with (acc := acc) in E0.
Qed.

Lemma consistent_same_stream j l x p :
  consistent j (x :: l) -> p ∈ x :: l -> same_stream (rtp_ x) (rtp_ p).
Proof.
  intros HC Hp. apply list_elem_of_lookup in Hp as [i Hi]. revert p Hi.
  induction (lt_wf i) as [i _ IH]. intros p Hi. destruct i as [|i]; [by injection Hi as ->|].
  destruct (list_elem_of_split_length _ _ _ Hi) as (a & b & E & Ha).
  destruct (HC a p b E) as (_ & _ & HQ).
  destruct HQ as (q & Hq & [S1 S2] & _); [by destruct a|].
  apply list_elem_of_lookup in Hq as [k Hk].
  assert ((x :: l) !! k = Some q) as Hk' by (rewrite E; by apply lookup_app_l_Some).
  destruct (IH k) with q as [T1 T2]; [apply lookup_lt_Some in Hk; lia|done|].
  split; congruence.
Qed.

(** C28: whatever packets reach the filter, those it lets through are RTP audio packets
    of one source and one payload type, and the sequence number of each but the first is
    at most the configured jump away from that of one let through earlier. *)
Theorem filter_stream_consistent (n : nat) (config : FilterConfig) (ps outs : list Packet)
    (f' : Filter Queue) :
  max_sn_jump config < 2 ^ 15 ->
  filter_reads n (mkFilter (mkQueue ps) None config) = Ok (outs, f') ->
  consistent (max_sn_jump config) outs
  /\ forall p q, p ∈ outs -> q ∈ outs -> same_stream (rtp_ p) (rtp_ q).
Proof.
  intros HJ E.
  assert (consistent (max_sn_jump config) outs) as HC.
  { by apply filter_reads_consistent with (acc := []) in E; [..|intros [] ? ? ?]. }
  split; [done|]. intros p q Hp Hq. destruct outs as [|x l]; [set_solver|].
  destruct (consistent_same_stream _ _ _ _ HC Hp), (consistent_same_stream _ _ _ _ HC Hq).
  split; congruence.
Qed.

End FilterCorrect.

Definition audio_packet (src sn ts cts : Z) : Packet :=
  with_rtp (with_flags Packet_new (Z.lor FlagRTP FlagAudio))
    (mkRTP src sn ts 100 cts false 0 slice_empty slice_empty slice_empty).

Lemma filter_stream_consistent_witness :
  exists outs f',
    filter_reads (fun d => d) (fun _ => 0) 4
      (mkFilter (mkQueue [audio_packet 7 65535 0 0; audio_packet 8 0 100 0;
                          audio_packet 7 1 200 0; audio_packet 7 500 300 0])
         None (mkFilterConfig 100 1000)) = Ok (outs, f')
    /\ map (fun p => seqnum (rtp_ p)) outs = [65535; 1] /\ consistent 100 outs.
Proof.
  do 2 eexists. split; [vm_compute; reflexivity|]. split; [reflexivity|].
  refine (proj1 (filter_stream_consistent (fun d => d) (fun _ => 0) 4 (mkFilterConfig 100 1000)
    [audio_packet 7 65535 0 0; audio_packet 8 0 100 0;
     audio_packet 7 1 200 0; audio_packet 7 500 300 0] _ _ _ _)); [done|vm_compute; reflexivity].
Defined.

(** * What the sequencer numbers the filter accepts *)

(** Packets numbered one after the other; each comes with its capture time and duration. *)
Fixpoint sequence (s : Sequencer) (ps : list (Packet * Z * Z)) : res (list Packet * Sequencer) :=
  match ps with
  | [] => Ok ([], s)
  | (p, cts, dur) :: ps =>
      let* '(p, s) := sequencer_next s p cts dur in
      let* '(ps, s) := sequence s ps in
      Ok (p :: ps, s)
  end.

Section SequencerFilter.

Context (delta_2_ns : Z -> Z) (decoded_sample_count : bytes -> Z) (config : FilterConfig).

(** A packet that the packetizer hands over: RTP audio with as many samples as it says,
    its duration within the filter's limit. *)
Definition outgoing (x : Packet * Z * Z) : Prop :=
  let '(p, cts, dur) := x in
  has_flags p FlagRTP = true /\ has_flags p FlagAudio = true
  /\ 0 < dur < 2 ^ 31 /\ delta_2_ns dur <= max_ts_jump config
  /\ exists d, sl_data (rtp_payload (rtp_ p)) = Some d
       /\ decoded_sample_count (slice_of (pkt_mem p) d (sl_size (rtp_payload (rtp_ p)))) = dur.

(** What the receiver's parser makes of a packet: the header does not hold its duration
    and its capture time, which are left at 0. *)
Definition received (p : Packet) : Packet :=
  let r := rtp_ p in
  with_rtp p (mkRTP (source_id r) (seqnum r) (stream_timestamp r) 0 0 (marker r)
    (payload_type r) (rtp_header r) (rtp_payload r) (rtp_padding r)).

(** The packet without its capture time. *)
Definition without_capture (p : Packet) : Packet :=
  let r := rtp_ p in
  with_rtp p (mkRTP (source_id r) (seqnum r) (stream_timestamp r) (duration r) 0 (marker r)
    (payload_type r) (rtp_header r) (rtp_payload r) (rtp_padding r)).

(** [r] is the packet received that was numbered just before [s] numbers the next. *)
Definition just_before (s : Sequencer) (r : RTP) : Prop :=
  exists dur,
    source_id r = id_ssrc (seq_identity s) /\ payload_type r = seq_payload_type s
    /\ is_u 16 (seqnum r) /\ seq_seqnum s = u16 (seqnum r + 1)
    /\ seq_stream_ts s = u32 (stream_timestamp r + dur)
    /\ 0 < dur < 2 ^ 31 /\ delta_2_ns dur <= max_ts_jump config /\ capture_timestamp r = 0.

Lemma numbered_next s p cts dur :
  id_valid (seq_identity s) = true -> has_flags p FlagRTP = true ->
  sequencer_next s p cts dur =
    Ok (with_rtp p (mkRTP (id_ssrc (seq_identity s)) (seq_seqnum s) (seq_stream_ts s) dur cts
          (marker (rtp_ p)) (seq_payload_type s) (rtp_header (rtp_ p)) (rtp_payload (rtp_ p))
          (rtp_padding (rtp_ p))),
        mkSequencer (seq_identity s) (seq_payload_type s) (u16 (seq_seqnum s + 1))
          (u32 (seq_stream_ts s + dur)) (seq_valid s)).
Proof.
  intros HV HR. unfold sequencer_next, packet_rtp, identity_ssrc. by rewrite HR, HV.
Qed.

Lemma accepts_next s r r' :
  1 <= max_sn_jump config -> just_before s r ->
  source_id r' = id_ssrc (seq_identity s) -> payload_type r' = seq_payload_type s ->
  seqnum r' = seq_seqnum s -> stream_timestamp r' = seq_stream_ts s -> capture_timestamp r' = 0 ->
  validate_sequence delta_2_ns config r r' = Ok true /\ (rtp_compare r r' <? 0) = true.
Proof.
  intros HJ (dur & H1 & H2 & H3 & H4 & H5 & H6 & H7 & H8) E1 E2 E3 E4 E5.
  assert (seqnum_diff (u16 (seqnum r + 1)) (seqnum r) = 1) as D1
    by (apply (circle_diff_advance 16); [lia|unfold is_s; lia]).
  assert (seqnum_diff (seqnum r) (u16 (seqnum r + 1)) = -1) as D2.
  { change seqnum_diff with (circle_diff 16) in *.
    rewrite (circle_diff_antisym 16 ltac:(lia) (u16 (seqnum r + 1))); rewrite D1; lia. }
  split.
  - unfold validate_sequence. rewrite E1, E2, E3, E4, H1, H2, H4, H5, D1. rewrite !Z.eqb_refl.
    cbn [negb]. change (1 <? 0) with false. change (u64 1) with 1.
    rewrite (proj2 (Z.ltb_ge _ 1)) by done.
    rewrite stream_timestamp_diff_circle, (circle_diff_advance 32) by (unfold is_s; lia).
    rewrite (proj2 (Z.ltb_ge dur 0)) by lia. cbn [res_bind].
    rewrite (proj2 (Z.ltb_ge (max_ts_jump config) _)) by done.
    by rewrite E5, H8.
  - unfold rtp_compare, seqnum_lt. rewrite E3, H4, D2. done.
Qed.

(** One packet through the sequencer, the network and the filter. *)
Lemma filter_accepts f s p cts dur :
  1 <= max_sn_jump config -> flt_config f = config ->
  id_valid (seq_identity s) = true -> is_u 16 (seq_seqnum s) -> outgoing (p, cts, dur) ->
  (flt_prev f = None \/ exists r, flt_prev f = Some r /\ just_before s r) ->
  exists p' s', sequencer_next s p cts dur = Ok (p', s')
    /\ id_valid (seq_identity s') = true /\ is_u 16 (seq_seqnum s')
    /\ just_before s' (rtp_ (received p'))
    /\ forall l, flt_reader f = mkQueue (received p' :: l) ->
         filter_read delta_2_ns decoded_sample_count f
         = Ok (StatusOK, Some (without_capture p'),
               mkFilter (mkQueue l) (Some (rtp_ (received p'))) config).
Proof.
  intros HJ HC HV HU (O1 & O2 & O4 & O5 & d & Od & Oc) HP. rewrite (numbered_next _ _ _ _ HV O1).
  do 2 eexists. split; [reflexivity|]. split; [done|]. split; [apply wrap_u_range; lia|].
  split; [exists dur; cbn; split_and!; done || apply O4 || lia|].
  intros l El. unfold filter_read. rewrite El. cbn [read Queue_reader queue_read res_bind queue_list].
  set (p' := with_rtp p _).
  assert (filter_validate delta_2_ns (flt_config f) (flt_prev f) (received p')
          = Ok (true, Some (rtp_ (received p')))) as ->.
  { unfold filter_validate. change (has_flags (received p') ?x) with (has_flags p x).
    rewrite O1, O2, HC. cbn [negb].
    destruct HP as [->|(r & -> & HB)]; [done|].
    edestruct (accepts_next s r (rtp_ (received p'))) as [-> HL]; [done..|].
    cbn [res_bind negb]. by rewrite HL. }
  cbn [res_bind]. unfold filter_populate. cbn. unfold slice_data. rewrite Od. cbn. rewrite Oc, HC.
  by rewrite (wrap_u_small 32 dur) by (unfold is_u; lia).
Qed.

(** C27: a stream numbered by the sequencer passes the receiver's filter completely and in
    order, from whatever random sequence number and timestamp it starts and however often
    they wrap, and gets back the durations that do not travel with it, when each packet is
    shorter than the filter's timestamp limit and the filter accepts a jump of one.  The
    capture times do not travel either: the filter sees 0 in every packet. *)
Theorem sequencer_filter (ps : list (Packet * Z * Z)) (s : Sequencer) :
  1 <= max_sn_jump config -> id_valid (seq_identity s) = true -> is_u 16 (seq_seqnum s) ->
  Forall outgoing ps ->
  exists outs s' f', sequence s ps = Ok (outs, s') /\ length outs = length ps
    /\ filter_reads delta_2_ns decoded_sample_count (length ps)
         (mkFilter (mkQueue (map received outs)) None config)
       = Ok (map without_capture outs, f').
Proof.
  intros HJ HV HU HO.
  assert (forall prev, (prev = None \/ exists r, prev = Some r /\ just_before s r) ->
    exists outs s' f', sequence s ps = Ok (outs, s') /\ length outs = length ps
      /\ filter_reads delta_2_ns decoded_sample_count (length ps)
           (mkFilter (mkQueue (map received outs)) prev config)
         = Ok (map without_capture outs, f')) as HK; [|by apply HK; left].
  revert s HV HU. induction ps as [|[[p cts] dur] ps IH]; intros s HV HU prev HP.
  { by exists [], s, (mkFilter (mkQueue []) prev config). }
  apply Forall_cons in HO as [Hp HO].
  destruct (filter_accepts (mkFilter (mkQueue []) prev config) s p cts dur)
    as (p' & s' & E1 & HV' & HU' & HB & _); [done..|].
  destruct (IH HO s' HV' HU' (Some (rtp_ (received p')))) as (outs & s2 & f2 & E2 & HL & E3);
    [right; by eexists|].
  exists (p' :: outs), s2, f2. cbn [sequence]. rewrite E1. cbn [res_bind]. rewrite E2.
  cbn [length map]. split; [done|]. split; [by rewrite HL|].
  destruct (filter_accepts (mkFilter (mkQueue (received p' :: map received outs)) prev config)
    s p cts dur) as (p2 & s3 & E4 & _ & _ & _ & HF); [done..|].
  rewrite E1 in E4. injection E4 as <- <-. cbn [filter_reads]. rewrite (HF (map received outs)) by done.
  cbn [res_bind]. by rewrite E3.
Qed.

End SequencerFilter.

(** A packet with four bytes of payload. *)
Definition media_packet : Packet :=
  with_rtp (with_mem (with_flags Packet_new (Z.lor FlagRTP FlagAudio)) [1; 2; 3; 4])
    (mkRTP 0 0 0 0 0 false 0 slice_empty (mkSlice (Some 0%nat) 4 4) slice_empty).

Lemma sequencer_filter_witness :
  exists outs s' f',
    sequence (mkSequencer (mkIdentity 7 true) 10 65535 (2 ^ 32 - 50) true)
      [(media_packet, 5, 4); (media_packet, 6, 4)] = Ok (outs, s')
    /\ filter_reads (fun d => d) (fun bs => Z.of_nat (length bs)) 2
         (mkFilter (mkQueue (map received outs)) None (mkFilterConfig 1 100))
       = Ok (map without_capture outs, f')
    /\ map (fun p => (seqnum (rtp_ p), duration (rtp_ p))) (map without_capture outs)
       = [(65535, 4); (0, 4)].
Proof.
  destruct (sequencer_filter (fun d => d) (fun bs => Z.of_nat (length bs)) (mkFilterConfig 1 100)
      [(media_packet, 5, 4); (media_packet, 6, 4)]
      (mkSequencer (mkIdentity 7 true) 10 65535 (2 ^ 32 - 50) true))
    as (outs & s' & f' & E1 & _ & E2); [cbn; lia|done|split; cbn; lia| |].
  - repeat apply Forall_cons_2; [..|by apply Forall_nil_2];
      (split_and!; [done|done|lia|lia|cbn; lia|exists 0%nat; done]).
  - exists outs, s', f'. split; [exact E1|]. split; [exact E2|].
    vm_compute in E1. injection E1 as <- _. reflexivity.
Defined.
