(* ===== verification/FecReader.v ===== *)
(** The FEC reader (src/internal_modules/roc_fec/reader.cpp): collects the source and
    repair packets of one block at a time, returns source packets in order, and asks the
    decoder for those that are missing.

    The block decoder is the interface IBlockDecoder (its implementation calls the
    OpenFEC library).  Allocations succeed or fail as told by a list of booleans that the
    reader consumes, one for each; when the list is empty they succeed. *)

From S2P Require Import Prelude Units Bytes Slice Packet Io SortedQueue RtpHeaders FecHeaders.
From S2P Require Import Compose.

(** * Arrays of packets *)

(** [core::Array<PacketPtr>]: the elements and the capacity. *)
Record PacketArray : Type := mkArray {
  ar_items : list PacketPtr;
  ar_cap : nat
}.

Definition ar_size (a : PacketArray) : nat := length (ar_items a).

(** The next allocation. *)
Definition allocate (alloc : list bool) : bool * list bool :=
  match alloc with
  | [] => (true, [])
  | b :: alloc => (b, alloc)
  end.

(** [Array::resize]: memory is allocated only above the capacity. *)
Definition ar_resize (a : PacketArray) (new_size : nat) (alloc : list bool)
    : bool * PacketArray * list bool :=
  if (new_size <=? ar_cap a)%nat
  then (true, mkArray (resize new_size None (ar_items a)) (ar_cap a), alloc)
  else
    let '(ok, alloc) := allocate alloc in
    if ok then (true, mkArray (resize new_size None (ar_items a)) new_size, alloc)
    else (false, a, alloc).

Definition ar_clear (a : PacketArray) : PacketArray :=
  mkArray (replicate (ar_size a) None) (ar_cap a).

Definition ar_get (a : PacketArray) (n : nat) : run PacketPtr := lift (array_get (ar_items a) n).

Definition ar_set (a : PacketArray) (n : nat) (p : PacketPtr) : run PacketArray :=
  lift (let* l := array_set (ar_items a) n p in Ok (mkArray l (ar_cap a))).

(** * The decoder *)

Class IBlockDecoder (D : Type) : Type := {
  max_block_length : D -> nat;
  decoder_begin : D -> nat -> nat -> nat -> bool * D;
  decoder_set : D -> nat -> bytes -> D;
  decoder_repair : D -> nat -> option bytes * D;
  decoder_end : D -> D
}.

Section Reader.

Context {D RS RR : Type} `{HD : IBlockDecoder D} `{HRS : IReader RS} `{HRR : IReader RR}.

(** The parser of restored packets, the limit on block number jumps and the FEC scheme,
    fixed at construction. *)
Context (host : cpu_endian) (find_by_pt : Z -> option Z) (parser : IParser).
Context (max_sbn_jump : nat) (session_scheme : FecScheme).

(** * State *)

Record Reader : Type := mkReader {
  rd_decoder : D;
  rd_source_reader : RS;
  rd_repair_reader : RR;
  rd_source_queue : SortedQueue;
  rd_repair_queue : SortedQueue;
  rd_source_block : PacketArray;
  rd_repair_block : PacketArray;
  rd_alive : bool;
  rd_started : bool;
  rd_can_repair : bool;
  rd_next_packet : nat;
  rd_cur_sbn : Z;
  rd_payload_size : nat;
  rd_source_block_resized : bool;
  rd_repair_block_resized : bool;
  rd_payload_resized : bool;
  rd_n_packets : Z;
  rd_alloc : list bool
}.

Definition set_decoder (x : D) (rd : Reader) : Reader :=
  mkReader x (rd_source_reader rd) (rd_repair_reader rd) (rd_source_queue rd)
    (rd_repair_queue rd) (rd_source_block rd) (rd_repair_block rd) (rd_alive rd)
    (rd_started rd) (rd_can_repair rd) (rd_next_packet rd) (rd_cur_sbn rd) (rd_payload_size rd)
    (rd_source_block_resized rd) (rd_repair_block_resized rd) (rd_payload_resized rd)
    (rd_n_packets rd) (rd_alloc rd).

Definition set_source_reader (x : RS) (rd : Reader) : Reader :=
  mkReader (rd_decoder rd) x (rd_repair_reader rd) (rd_source_queue rd) (rd_repair_queue rd)
    (rd_source_block rd) (rd_repair_block rd) (rd_alive rd) (rd_started rd) (rd_can_repair rd)
    (rd_next_packet rd) (rd_cur_sbn rd) (rd_payload_size rd) (rd_source_block_resized rd)
    (rd_repair_block_resized rd) (rd_payload_resized rd) (rd_n_packets rd) (rd_alloc rd).

Definition set_repair_reader (x : RR) (rd : Reader) : Reader :=
  mkReader (rd_decoder rd) (rd_source_reader rd) x (rd_source_queue rd) (rd_repair_queue rd)
    (rd_source_block rd) (rd_repair_block rd) (rd_alive rd) (rd_started rd) (rd_can_repair rd)
    (rd_next_packet rd) (rd_cur_sbn rd) (rd_payload_size rd) (rd_source_block_resized rd)
    (rd_repair_block_resized rd) (rd_payload_resized rd) (rd_n_packets rd) (rd_alloc rd).

Definition set_source_queue (x : SortedQueue) (rd : Reader) : Reader :=
  mkReader (rd_decoder rd) (rd_source_reader rd) (rd_repair_reader rd) x (rd_repair_queue rd)
    (rd_source_block rd) (rd_repair_block rd) (rd_alive rd) (rd_started rd) (rd_can_repair rd)
    (rd_next_packet rd) (rd_cur_sbn rd) (rd_payload_size rd) (rd_source_block_resized rd)
    (rd_repair_block_resized rd) (rd_payload_resized rd) (rd_n_packets rd) (rd_alloc rd).

Definition set_repair_queue (x : SortedQueue) (rd : Reader) : Reader :=
  mkReader (rd_decoder rd) (rd_source_reader rd) (rd_repair_reader rd) (rd_source_queue rd) x
    (rd_source_block rd) (rd_repair_block rd) (rd_alive rd) (rd_started rd) (rd_can_repair rd)
    (rd_next_packet rd) (rd_cur_sbn rd) (rd_payload_size rd) (rd_source_block_resized rd)
    (rd_repair_block_resized rd) (rd_payload_resized rd) (rd_n_packets rd) (rd_alloc rd).

Definition set_source_block (x : PacketArray) (rd : Reader) : Reader :=
  mkReader (rd_decoder rd) (rd_source_reader rd) (rd_repair_reader rd) (rd_source_queue rd)
    (rd_repair_queue rd) x (rd_repair_block rd) (rd_alive rd) (rd_started rd)
    (rd_can_repair rd) (rd_next_packet rd) (rd_cur_sbn rd) (rd_payload_size rd)
    (rd_source_block_resized rd) (rd_repair_block_resized rd) (rd_payload_resized rd)
    (rd_n_packets rd) (rd_alloc rd).

Definition set_repair_block (x : PacketArray) (rd : Reader) : Reader :=
  mkReader (rd_decoder rd) (rd_source_reader rd) (rd_repair_reader rd) (rd_source_queue rd)
    (rd_repair_queue rd) (rd_source_block rd) x (rd_alive rd) (rd_started rd)
    (rd_can_repair rd) (rd_next_packet rd) (rd_cur_sbn rd) (rd_payload_size rd)
    (rd_source_block_resized rd) (rd_repair_block_resized rd) (rd_payload_resized rd)
    (rd_n_packets rd) (rd_alloc rd).

Definition set_alive (x : bool) (rd : Reader) : Reader :=
  mkReader (rd_decoder rd) (rd_source_reader rd) (rd_repair_reader rd) (rd_source_queue rd)
    (rd_repair_queue rd) (rd_source_block rd) (rd_repair_block rd) x (rd_started rd)
    (rd_can_repair rd) (rd_next_packet rd) (rd_cur_sbn rd) (rd_payload_size rd)
    (rd_source_block_resized rd) (rd_repair_block_resized rd) (rd_payload_resized rd)
    (rd_n_packets rd) (rd_alloc rd).

Definition set_started (x : bool) (rd : Reader) : Reader :=
  mkReader (rd_decoder rd) (rd_source_reader rd) (rd_repair_reader rd) (rd_source_queue rd)
    (rd_repair_queue rd) (rd_source_block rd) (rd_repair_block rd) (rd_alive rd) x
    (rd_can_repair rd) (rd_next_packet rd) (rd_cur_sbn rd) (rd_payload_size rd)
    (rd_source_block_resized rd) (rd_repair_block_resized rd) (rd_payload_resized rd)
    (rd_n_packets rd) (rd_alloc rd).

Definition set_can_repair (x : bool) (rd : Reader) : Reader :=
  mkReader (rd_decoder rd) (rd_source_reader rd) (rd_repair_reader rd) (rd_source_queue rd)
    (rd_repair_queue rd) (rd_source_block rd) (rd_repair_block rd) (rd_alive rd)
    (rd_started rd) x (rd_next_packet rd) (rd_cur_sbn rd) (rd_payload_size rd)
    (rd_source_block_resized rd) (rd_repair_block_resized rd) (rd_payload_resized rd)
    (rd_n_packets rd) (rd_alloc rd).

Definition set_next_packet (x : nat) (rd : Reader) : Reader :=
  mkReader (rd_decoder rd) (rd_source_reader rd) (rd_repair_reader rd) (rd_source_queue rd)
    (rd_repair_queue rd) (rd_source_block rd) (rd_repair_block rd) (rd_alive rd)
    (rd_started rd) (rd_can_repair rd) x (rd_cur_sbn rd) (rd_payload_size rd)
    (rd_source_block_resized rd) (rd_repair_block_resized rd) (rd_payload_resized rd)
    (rd_n_packets rd) (rd_alloc rd).

Definition set_cur_sbn (x : Z) (rd : Reader) : Reader :=
  mkReader (rd_decoder rd) (rd_source_reader rd) (rd_repair_reader rd) (rd_source_queue rd)
    (rd_repair_queue rd) (rd_source_block rd) (rd_repair_block rd) (rd_alive rd)
    (rd_started rd) (rd_can_repair rd) (rd_next_packet rd) x (rd_payload_size rd)
    (rd_source_block_resized rd) (rd_repair_block_resized rd) (rd_payload_resized rd)
    (rd_n_packets rd) (rd_alloc rd).

Definition set_payload_size (x : nat) (rd : Reader) : Reader :=
  mkReader (rd_decoder rd) (rd_source_reader rd) (rd_repair_reader rd) (rd_source_queue rd)
    (rd_repair_queue rd) (rd_source_block rd) (rd_repair_block rd) (rd_alive rd)
    (rd_started rd) (rd_can_repair rd) (rd_next_packet rd) (rd_cur_sbn rd) x
    (rd_source_block_resized rd) (rd_repair_block_resized rd) (rd_payload_resized rd)
    (rd_n_packets rd) (rd_alloc rd).

Definition set_source_block_resized (x : bool) (rd : Reader) : Reader :=
  mkReader (rd_decoder rd) (rd_source_reader rd) (rd_repair_reader rd) (rd_source_queue rd)
    (rd_repair_queue rd) (rd_source_block rd) (rd_repair_block rd) (rd_alive rd)
    (rd_started rd) (rd_can_repair rd) (rd_next_packet rd) (rd_cur_sbn rd) (rd_payload_size rd)
    x (rd_repair_block_resized rd) (rd_payload_resized rd) (rd_n_packets rd) (rd_alloc rd).

Definition set_repair_block_resized (x : bool) (rd : Reader) : Reader :=
  mkReader (rd_decoder rd) (rd_source_reader rd) (rd_repair_reader rd) (rd_source_queue rd)
    (rd_repair_queue rd) (rd_source_block rd) (rd_repair_block rd) (rd_alive rd)
    (rd_started rd) (rd_can_repair rd) (rd_next_packet rd) (rd_cur_sbn rd) (rd_payload_size rd)
    (rd_source_block_resized rd) x (rd_payload_resized rd) (rd_n_packets rd) (rd_alloc rd).

Definition set_payload_resized (x : bool) (rd : Reader) : Reader :=
  mkReader (rd_decoder rd) (rd_source_reader rd) (rd_repair_reader rd) (rd_source_queue rd)
    (rd_repair_queue rd) (rd_source_block rd) (rd_repair_block rd) (rd_alive rd)
    (rd_started rd) (rd_can_repair rd) (rd_next_packet rd) (rd_cur_sbn rd) (rd_payload_size rd)
    (rd_source_block_resized rd) (rd_repair_block_resized rd) x (rd_n_packets rd) (rd_alloc rd).

Definition set_n_packets (x : Z) (rd : Reader) : Reader :=
  mkReader (rd_decoder rd) (rd_source_reader rd) (rd_repair_reader rd) (rd_source_queue rd)
    (rd_repair_queue rd) (rd_source_block rd) (rd_repair_block rd) (rd_alive rd)
    (rd_started rd) (rd_can_repair rd) (rd_next_packet rd) (rd_cur_sbn rd) (rd_payload_size rd)
    (rd_source_block_resized rd) (rd_repair_block_resized rd) (rd_payload_resized rd) x
    (rd_alloc rd).

Definition set_alloc (x : list bool) (rd : Reader) : Reader :=
  mkReader (rd_decoder rd) (rd_source_reader rd) (rd_repair_reader rd) (rd_source_queue rd)
    (rd_repair_queue rd) (rd_source_block rd) (rd_repair_block rd) (rd_alive rd)
    (rd_started rd) (rd_can_repair rd) (rd_next_packet rd) (rd_cur_sbn rd) (rd_payload_size rd)
    (rd_source_block_resized rd) (rd_repair_block_resized rd) (rd_payload_resized rd)
    (rd_n_packets rd) x.

Definition reader_new (decoder : D) (source_reader : RS) (repair_reader : RR)
    (alloc : list bool) : Reader :=
  mkReader decoder source_reader repair_reader (sq_new 0) (sq_new 0) (mkArray [] 0) (mkArray [] 0)
    true false false 0 0 0 false false false 0 alloc.

(** * Validation *)

(** [*pp->fec()]: the packets of the two queues have the FEC part, see [fetch_source_loop]. *)
Definition the_fec (pp : Packet) : run FEC :=
  match packet_fec pp with Some f => ret f | None => Panic end.

(** [validate_fec_packet_] *)
Definition rd_validate_fec_packet (pp : Packet) (rd : Reader) : run (bool * Reader) :=
  match packet_fec pp with
  | None => Panic
  | Some f =>
      if decide (fec_scheme f = session_scheme) then ret (true, rd)
      else ret (false, set_alive false rd)
  end.

Definition validate_sbn_sequence (f : FEC) (rd : Reader) : bool * Reader :=
  let blk_dist := blknum_diff (source_block_number f) (rd_cur_sbn rd) in
  let blk_dist := if blk_dist <? 0 then s16 (- blk_dist) else blk_dist in
  if Z.of_nat max_sbn_jump <? u64 blk_dist then (false, set_alive false rd) else (true, rd).

Definition validate_incoming_source_packet (f : FEC) : bool :=
  if negb (encoding_symbol_id f <? source_block_length f) then false
  else if source_block_length f =? 0 then false
  else if negb (block_length f =? 0) && negb (source_block_length f <=? block_length f) then false
  else if (sl_size (fec_payload f) =? 0)%nat then false
  else true.

Definition validate_incoming_repair_packet (f : FEC) : bool :=
  if negb (source_block_length f <=? encoding_symbol_id f) then false
  else if source_block_length f =? 0 then false
  else if negb (block_length f =? 0) && negb (encoding_symbol_id f <? block_length f) then false
  else if negb (block_length f =? 0) && negb (source_block_length f <=? block_length f) then false
  else if (sl_size (fec_payload f) =? 0)%nat then false
  else true.

Definition can_update_payload_size (new_payload_size : nat) (rd : Reader) : bool :=
  if (rd_payload_size rd =? new_payload_size)%nat then true
  else if rd_payload_resized rd then false
  else true.

Definition update_payload_size (new_payload_size : nat) (rd : Reader) : bool * Reader :=
  if (rd_payload_size rd =? new_payload_size)%nat then (true, set_payload_resized true rd)
  else (true, set_payload_resized true (set_payload_size new_payload_size rd)).

Definition can_update_source_block_size (new_sblen : nat) (rd : Reader) : bool * Reader :=
  let cur_sblen := ar_size (rd_source_block rd) in
  if (cur_sblen =? new_sblen)%nat then (true, rd)
  else if rd_source_block_resized rd then (false, rd)
  else if (max_block_length (rd_decoder rd) <? new_sblen)%nat then (false, set_alive false rd)
  else (true, rd).

Definition update_source_block_size (new_sblen : nat) (rd : Reader) : bool * Reader :=
  let cur_sblen := ar_size (rd_source_block rd) in
  if (cur_sblen =? new_sblen)%nat then (true, set_source_block_resized true rd)
  else
    let '(ok, a, alloc) := ar_resize (rd_source_block rd) new_sblen (rd_alloc rd) in
    let rd := set_alloc alloc (set_source_block a rd) in
    if ok then (true, set_source_block_resized true rd)
    else (false, set_alive false rd).

Definition can_update_repair_block_size (new_blen : nat) (rd : Reader) : bool * Reader :=
  let cur_blen := (ar_size (rd_source_block rd) + ar_size (rd_repair_block rd))%nat in
  if (new_blen =? cur_blen)%nat then (true, rd)
  else if rd_repair_block_resized rd then (false, rd)
  else if (max_block_length (rd_decoder rd) <? new_blen)%nat then (false, set_alive false rd)
  else (true, rd).

Definition update_repair_block_size (new_blen : nat) (rd : Reader) : run (bool * Reader) :=
  let cur_sblen := ar_size (rd_source_block rd) in
  let cur_rblen := ar_size (rd_repair_block rd) in
  let cur_blen := (cur_sblen + cur_rblen)%nat in
  if (new_blen =? cur_blen)%nat then ret (true, set_repair_block_resized true rd)
  else
    panic_if (negb (cur_sblen <? new_blen)%nat)
      (let new_rblen := (new_blen - cur_sblen)%nat in
       let '(ok, a, alloc) := ar_resize (rd_repair_block rd) new_rblen (rd_alloc rd) in
       let rd := set_alloc alloc (set_repair_block a rd) in
       if ok then ret (true, set_repair_block_resized true rd)
       else ret (false, set_alive false rd)).

(** * Filling the block *)

Definition process_source_packet (f : FEC) (rd : Reader) : bool * Reader :=
  if negb (validate_incoming_source_packet f) then (false, rd)
  else if negb (can_update_payload_size (sl_size (fec_payload f)) rd) then (false, rd)
  else
    let sblen := Z.to_nat (source_block_length f) in
    let '(ok, rd) := can_update_source_block_size sblen rd in
    if negb ok then (false, rd)
    else
      let '(ok, rd) := update_payload_size (sl_size (fec_payload f)) rd in
      if negb ok then (false, rd) else update_source_block_size sblen rd.

Definition process_repair_packet (f : FEC) (rd : Reader) : run (bool * Reader) :=
  if negb (validate_incoming_repair_packet f) then ret (false, rd)
  else if negb (can_update_payload_size (sl_size (fec_payload f)) rd) then ret (false, rd)
  else
    let sblen := Z.to_nat (source_block_length f) in
    let blen := Z.to_nat (block_length f) in
    let '(ok, rd) := can_update_source_block_size sblen rd in
    if negb ok then ret (false, rd)
    else
      let '(ok, rd) := can_update_repair_block_size blen rd in
      if negb ok then ret (false, rd)
      else
        let '(ok, rd) := update_payload_size (sl_size (fec_payload f)) rd in
        if negb ok then ret (false, rd)
        else
          let '(ok, rd) := update_source_block_size sblen rd in
          if negb ok then ret (false, rd) else update_repair_block_size blen rd.

(** Take the head out of a queue; it is there, so this succeeds. *)
Definition queue_pop (q : SortedQueue) : run SortedQueue :=
  let! '(code, pp, q) := lift (sq_read q) in
  match code with StatusOK => ret q | _ => Panic end.

Fixpoint fill_source_loop (fuel : nat) (rd : Reader) : run Reader :=
  match fuel with
  | O => Ok None
  | S fuel =>
      match sq_head (rd_source_queue rd) with
      | None => ret rd
      | Some pp =>
          let! f := the_fec pp in
          let '(ok, rd) := validate_sbn_sequence f rd in
          if negb ok then ret rd
          else if negb (blknum_le (source_block_number f) (rd_cur_sbn rd)) then ret rd
          else
            let! q := queue_pop (rd_source_queue rd) in
            let rd := set_source_queue q rd in
            if blknum_lt (source_block_number f) (rd_cur_sbn rd) then fill_source_loop fuel rd
            else
              panic_if (negb (source_block_number f =? rd_cur_sbn rd))
                (let '(ok, rd) := process_source_packet f rd in
                 if negb ok then fill_source_loop fuel rd
                 else
                   panic_if (negb (source_block_length f =? Z.of_nat (ar_size (rd_source_block rd))))
                     (panic_if (negb (encoding_symbol_id f <? Z.of_nat (ar_size (rd_source_block rd))))
                       (let p_num := Z.to_nat (encoding_symbol_id f) in
                        let! old := ar_get (rd_source_block rd) p_num in
                        match old with
                        | Some _ => fill_source_loop fuel rd
                        | None =>
                            let! a := ar_set (rd_source_block rd) p_num (Some pp) in
                            fill_source_loop fuel (set_source_block a (set_can_repair true rd))
                        end)))
      end
  end.

(** Every iteration takes a packet out of the queue or is the last. *)
Definition fill_source_block (rd : Reader) : run Reader :=
  fill_source_loop (S (sq_size (rd_source_queue rd))) rd.

Fixpoint fill_repair_loop (fuel : nat) (rd : Reader) : run Reader :=
  match fuel with
  | O => Ok None
  | S fuel =>
      match sq_head (rd_repair_queue rd) with
      | None => ret rd
      | Some pp =>
          let! f := the_fec pp in
          let '(ok, rd) := validate_sbn_sequence f rd in
          if negb ok then ret rd
          else if negb (blknum_le (source_block_number f) (rd_cur_sbn rd)) then ret rd
          else
            let! q := queue_pop (rd_repair_queue rd) in
            let rd := set_repair_queue q rd in
            if blknum_lt (source_block_number f) (rd_cur_sbn rd) then fill_repair_loop fuel rd
            else
              panic_if (negb (source_block_number f =? rd_cur_sbn rd))
                (let! '(ok, rd) := process_repair_packet f rd in
                 if negb ok then fill_repair_loop fuel rd
                 else
                   let sblen := ar_size (rd_source_block rd) in
                   let rblen := ar_size (rd_repair_block rd) in
                   panic_if (negb (source_block_length f =? Z.of_nat sblen))
                     (panic_if (negb (Z.of_nat sblen <=? encoding_symbol_id f))
                       (panic_if (negb (encoding_symbol_id f <? Z.of_nat (sblen + rblen)))
                         (let p_num := Z.to_nat (encoding_symbol_id f - source_block_length f) in
                          let! old := ar_get (rd_repair_block rd) p_num in
                          match old with
                          | Some _ => fill_repair_loop fuel rd
                          | None =>
                              let! a := ar_set (rd_repair_block rd) p_num (Some pp) in
                              fill_repair_loop fuel (set_repair_block a (set_can_repair true rd))
                          end))))
      end
  end.

Definition fill_repair_block (rd : Reader) : run Reader :=
  fill_repair_loop (S (sq_size (rd_repair_queue rd))) rd.

Definition fill_block (rd : Reader) : run Reader :=
  let! rd := fill_source_block rd in fill_repair_block rd.

Definition rd_next_block (rd : Reader) : run Reader :=
  let rd := set_source_block (ar_clear (rd_source_block rd)) rd in
  let rd := set_repair_block (ar_clear (rd_repair_block rd)) rd in
  let rd := set_next_packet 0 (set_cur_sbn (u16 (rd_cur_sbn rd + 1)) rd) in
  let rd := set_payload_resized false
              (set_repair_block_resized false (set_source_block_resized false rd)) in
  fill_block (set_can_repair false rd).

(** * Repair *)

(** The bytes of the packet's FEC payload. *)
Definition fec_payload_bytes (pp : Packet) : run bytes :=
  let! f := the_fec pp in
  let! d := lift (slice_data (fec_payload f)) in
  ret (slice_of (pkt_mem pp) d (sl_size (fec_payload f))).

(** Give the decoder the packets of a block that are there, the first at index [n]. *)
Fixpoint set_packets (items : list PacketPtr) (n : nat) (decoder : D) : run D :=
  match items with
  | [] => ret decoder
  | None :: items => set_packets items (S n) decoder
  | Some pp :: items =>
      let! bs := fec_payload_bytes pp in
      set_packets items (S n) (decoder_set decoder n bs)
  end.

Definition parse_repaired_packet (buffer : bytes) (rd : Reader) : run (PacketPtr * Reader) :=
  let '(ok, alloc) := allocate (rd_alloc rd) in
  let rd := set_alloc alloc rd in
  if negb ok then ret (None, rd)
  else
    let s := slice_whole (length buffer) in
    let! '(ok, pp) := lift (parser_parse host find_by_pt parser (with_mem Packet_new buffer) s) in
    if negb ok then ret (None, rd)
    else
      let! pp := lift (set_buffer pp s) in
      let! pp := lift (add_flags pp FlagRestored) in
      ret (Some pp, rd).

(** The last loop of [try_repair_], from position [n] on. *)
Fixpoint repair_packets (items : list PacketPtr) (n : nat) (rd : Reader) : run Reader :=
  match items with
  | [] => ret rd
  | Some _ :: items => repair_packets items (S n) rd
  | None :: items =>
      let '(buffer, decoder) := decoder_repair (rd_decoder rd) n in
      let rd := set_decoder decoder rd in
      match buffer with
      | None => repair_packets items (S n) rd
      | Some buffer =>
          let! '(pp, rd) := parse_repaired_packet buffer rd in
          match pp with
          | None => repair_packets items (S n) rd
          | Some pp =>
              let! a := ar_set (rd_source_block rd) n (Some pp) in
              repair_packets items (S n) (set_source_block a rd)
          end
      end
  end.

Definition try_repair (rd : Reader) : run Reader :=
  if negb (rd_can_repair rd) then ret rd
  else if negb (rd_source_block_resized rd) || negb (rd_repair_block_resized rd)
          || negb (rd_payload_resized rd) then ret rd
  else
    let sblen := ar_size (rd_source_block rd) in
    let rblen := ar_size (rd_repair_block rd) in
    let '(ok, decoder) := decoder_begin (rd_decoder rd) sblen rblen (rd_payload_size rd) in
    let rd := set_decoder decoder rd in
    if negb ok then ret (set_alive false rd)
    else
      let! decoder := set_packets (ar_items (rd_source_block rd)) 0 (rd_decoder rd) in
      let! decoder := set_packets (ar_items (rd_repair_block rd)) sblen decoder in
      let! rd := repair_packets (ar_items (rd_source_block rd)) 0 (set_decoder decoder rd) in
      ret (set_can_repair false (set_decoder (decoder_end (rd_decoder rd)) rd)).

(** * Reading *)

(** The position of the first packet of the block from [pos] on. *)
Fixpoint first_packet_from (items : list PacketPtr) (pos : nat) : nat :=
  match items with
  | [] => pos
  | Some _ :: _ => pos
  | None :: items => first_packet_from items (S pos)
  end.

(** The do-while loop of [get_next_packet_]. *)
Fixpoint next_packet_loop (fuel : nat) (pp : PacketPtr) (rd : Reader)
    : run (StatusCode * PacketPtr * Reader) :=
  match fuel with
  | O => Ok None
  | S fuel =>
      if negb (rd_alive rd) then ret (StatusOK, pp, rd)
      else
        let advance pp rd :=
          let! rd :=
            if (rd_next_packet rd =? ar_size (rd_source_block rd))%nat then rd_next_block rd
            else ret rd in
          match pp with
          | Some _ => ret (StatusOK, pp, rd)
          | None => next_packet_loop fuel pp rd
          end in
        match pp with
        | Some _ => advance pp (set_next_packet (S (rd_next_packet rd)) rd)
        | None =>
            let! rd := try_repair rd in
            let pos := first_packet_from
                         (drop (rd_next_packet rd) (ar_items (rd_source_block rd)))
                         (rd_next_packet rd) in
            if (pos =? ar_size (rd_source_block rd))%nat then
              if (sq_size (rd_source_queue rd) =? 0)%nat then ret (StatusNoData, None, rd)
              else advance None (set_next_packet pos rd)
            else
              let! pp := ar_get (rd_source_block rd) pos in
              advance pp (set_next_packet (S pos) rd)
        end
  end.

Definition get_next_packet (fuel : nat) (rd : Reader) : run (StatusCode * PacketPtr * Reader) :=
  let! rd := fill_block rd in
  let! pp := ar_get (rd_source_block rd) (rd_next_packet rd) in
  next_packet_loop fuel pp rd.

Fixpoint drop_repair_loop (fuel : nat) (rd : Reader) : run Reader :=
  match fuel with
  | O => Ok None
  | S fuel =>
      match sq_head (rd_repair_queue rd) with
      | None => ret rd
      | Some pp =>
          let! f := the_fec pp in
          if negb (blknum_lt (source_block_number f) (rd_cur_sbn rd)) then ret rd
          else
            let! q := queue_pop (rd_repair_queue rd) in
            drop_repair_loop fuel (set_repair_queue q rd)
      end
  end.

Definition drop_repair_packets_from_prev_blocks (rd : Reader) : run Reader :=
  drop_repair_loop (S (sq_size (rd_repair_queue rd))) rd.

Definition try_start (rd : Reader) : run (bool * Reader) :=
  match sq_head (rd_source_queue rd) with
  | None => ret (false, rd)
  | Some pp =>
      let! f := the_fec pp in
      let '(ok, rd) := process_source_packet f rd in
      if negb ok then ret (false, rd)
      else
        let! rd := drop_repair_packets_from_prev_blocks
                     (set_cur_sbn (source_block_number f) rd) in
        if 0 <? encoding_symbol_id f then ret (false, rd) else ret (true, set_started true rd)
  end.

(** [fetch_packets_] from the source reader to the source queue. *)
Fixpoint fetch_source_loop (fuel : nat) (rd : Reader) : run (StatusCode * Reader) :=
  match fuel with
  | O => Ok None
  | S fuel =>
      let! '(code, pp, reader) := lift (read (rd_source_reader rd)) in
      let rd := set_source_reader reader rd in
      match code, pp with
      | StatusOK, None => Panic
      | StatusOK, Some pp =>
          let! '(ok, rd) := rd_validate_fec_packet pp rd in
          if negb ok then ret (StatusOK, rd)
          else
            let! '(code, q) := lift (sq_write (rd_source_queue rd) (Some pp)) in
            match code with
            | StatusOK => fetch_source_loop fuel (set_source_queue q rd)
            | _ => Panic
            end
      | StatusNoData, _ => ret (StatusOK, rd)
      | _, _ => ret (code, rd)
      end
  end.

(** The same from the repair reader to the repair queue. *)
Fixpoint fetch_repair_loop (fuel : nat) (rd : Reader) : run (StatusCode * Reader) :=
  match fuel with
  | O => Ok None
  | S fuel =>
      let! '(code, pp, reader) := lift (read (rd_repair_reader rd)) in
      let rd := set_repair_reader reader rd in
      match code, pp with
      | StatusOK, None => Panic
      | StatusOK, Some pp =>
          let! '(ok, rd) := rd_validate_fec_packet pp rd in
          if negb ok then ret (StatusOK, rd)
          else
            let! '(code, q) := lift (sq_write (rd_repair_queue rd) (Some pp)) in
            match code with
            | StatusOK => fetch_repair_loop fuel (set_repair_queue q rd)
            | _ => Panic
            end
      | StatusNoData, _ => ret (StatusOK, rd)
      | _, _ => ret (code, rd)
      end
  end.

Definition fetch_all_packets (fuel : nat) (rd : Reader) : run (StatusCode * Reader) :=
  let! '(code, rd) := fetch_source_loop fuel rd in
  match code with
  | StatusOK => fetch_repair_loop fuel rd
  | _ => ret (code, rd)
  end.

(** [read_] *)
Definition reader_read_ (fuel : nat) (rd : Reader) : run (StatusCode * PacketPtr * Reader) :=
  let! '(code, rd) := fetch_all_packets fuel rd in
  match code with
  | StatusOK =>
      let! rd :=
        if rd_started rd then ret rd
        else let! '(st, rd) := try_start rd in ret (set_started st rd) in
      if negb (rd_started rd) then
        let! '(code, pp, q) := lift (sq_read (rd_source_queue rd)) in
        ret (code, pp, set_source_queue q rd)
      else get_next_packet fuel rd
  | _ => ret (code, None, rd)
  end.

Definition reader_read (fuel : nat) (rd : Reader) : run (StatusCode * PacketPtr * Reader) :=
  if negb (rd_alive rd) then ret (StatusNoData, None, rd)
  else
    let! '(code, pp, rd) := reader_read_ fuel rd in
    let rd := match code with StatusOK => set_n_packets (u32 (rd_n_packets rd + 1)) rd | _ => rd end in
    if negb (rd_alive rd) then ret (StatusNoData, None, rd) else ret (code, pp, rd).

End Reader.
