(* ===== verification/FecReaderSafe.v ===== *)
(** What the FEC reader of FecReader.v guarantees when it parses restored packets as RTP
    packets: as long as repair packets carry a block length and the block in progress holds
    no packet that was restored before, it never panics, and it returns source packets in
    stream order.  Without the two conditions it does panic, which is shown as well. *)

From S2P Require Import Prelude Units Bytes Slice Packet Io SortedQueue RtpHeaders FecHeaders.
From S2P Require Import Compose Wire FecReader.

(** * Reasoning about computations *)

(** [m] does not panic, has enough fuel, and what it returns satisfies [Q]. *)
Definition wp {A} (m : run A) (Q : A -> Prop) : Prop :=
  match m with
  | Ok (Some a) => Q a
  | _ => False
  end.

Lemma wp_ret {A} (a : A) (Q : A -> Prop) : Q a -> wp (ret a) Q.
Proof. done. Qed.

Lemma wp_bind {A B} (m : run A) (f : A -> run B) (Q : B -> Prop) :
  wp m (fun a => wp (f a) Q) -> wp (run_bind m f) Q.
Proof. by destruct m as [[a|]|]. Qed.

Lemma wp_mono {A} (m : run A) (P Q : A -> Prop) : wp m P -> (forall a, P a -> Q a) -> wp m Q.
Proof. destruct m as [[a|]|]; cbn; auto. Qed.

Lemma wp_lift {A} (m : res A) (Q : A -> Prop) :
  (exists a, m = Ok a /\ Q a) -> wp (lift m) Q.
Proof. by intros (a & -> & H). Qed.

(** [m] has enough fuel; what it returns satisfies [Q], and it may panic only if [K]. *)
Definition wp_or {A} (K : Prop) (m : run A) (Q : A -> Prop) : Prop :=
  match m with
  | Ok (Some a) => Q a
  | Ok None => False
  | Panic => K
  end.

Lemma wp_or_bind {A B} (K : Prop) (m : run A) (f : A -> run B) (Q : B -> Prop) :
  wp_or K m (fun a => wp_or K (f a) Q) -> wp_or K (run_bind m f) Q.
Proof. by destruct m as [[a|]|]. Qed.

Lemma wp_or_mono {A} (K K' : Prop) (m : run A) (P Q : A -> Prop) :
  wp_or K m P -> (K -> K') -> (forall a, P a -> Q a) -> wp_or K' m Q.
Proof. destruct m as [[a|]|]; cbn; auto. Qed.

Lemma wp_or_wp {A} (K : Prop) (m : run A) (P Q : A -> Prop) :
  wp m P -> (forall a, P a -> Q a) -> wp_or K m Q.
Proof. destruct m as [[a|]|]; cbn; auto; done. Qed.

(** * Arrays *)

Lemma resize_lookup (l : list PacketPtr) n i p :
  resize n None l !! i = Some (Some p) -> l !! i = Some (Some p).
Proof.
  destruct (decide (i < n)%nat) as [Hi|Hi].
  - destruct (decide (i < length l)%nat).
    + by rewrite lookup_resize by lia.
    + rewrite lookup_resize_new by lia. done.
  - rewrite lookup_resize_old by lia. done.
Qed.

Lemma ar_resize_spec a n alloc ok a' alloc' :
  ar_resize a n alloc = (ok, a', alloc') ->
  (forall i p, ar_items a' !! i = Some (Some p) -> ar_items a !! i = Some (Some p))
  /\ (if ok then ar_size a' = n else a' = a).
Proof.
  unfold ar_resize, ar_size. destruct (n <=? ar_cap a)%nat.
  - intros [= <- <- <-]. cbn. split; [intros; by eapply resize_lookup|apply length_resize].
  - destruct (allocate alloc) as [[] al]; intros [= <- <- <-]; cbn; [|done].
    split; [intros; by eapply resize_lookup|apply length_resize].
Qed.

Lemma ar_get_wp a n (Q : PacketPtr -> Prop) :
  (n < ar_size a)%nat -> (forall x, ar_items a !! n = Some x -> Q x) -> wp (ar_get a n) Q.
Proof.
  intros Hn HQ. destruct (lookup_lt_is_Some_2 (ar_items a) n Hn) as [x Hx].
  unfold ar_get. apply wp_lift. exists x. split; [by apply array_get_ok|auto].
Qed.

Lemma ar_set_wp a n p (Q : PacketArray -> Prop) :
  (n < ar_size a)%nat -> Q (mkArray (<[n:=p]> (ar_items a)) (ar_cap a)) -> wp (ar_set a n p) Q.
Proof.
  intros Hn HQ. unfold ar_set. apply wp_lift. rewrite array_set_ok by done. by eexists.
Qed.

(** * The invariant *)

Section Safe.

Context {D RS RR : Type} `{HD : IBlockDecoder D}.
Context (host : cpu_endian) (find_by_pt : Z -> option Z) (parser : IParser).
Context (max_sbn_jump : nat) (session_scheme : FecScheme).

Abbreviation Reader := (Reader (D := D) (RS := RS) (RR := RR)).

(** A packet with a FEC part as a parser fills it in. *)
Definition good (p : Packet) : Prop :=
  has_flags p FlagFEC = true /\ is_u 16 (source_block_number (fec_ p))
  /\ 0 <= encoding_symbol_id (fec_ p) /\ 0 <= source_block_length (fec_ p)
  /\ 0 <= block_length (fec_ p) /\ slice_bool (fec_payload (fec_ p)) = true.

Definition good_repair (p : Packet) : Prop := good p /\ block_length (fec_ p) <> 0.

(** A packet the decoder can be given. *)
Definition has_payload (p : Packet) : Prop :=
  has_flags p FlagFEC = true /\ slice_bool (fec_payload (fec_ p)) = true.

(** A packet at position [i] of the source block [sbn]: one that arrived is that of the
    position; one that was restored may have no FEC part. *)
Definition source_item (sbn : Z) (i : nat) (p : Packet) : Prop :=
  (has_flags p FlagFEC = true -> slice_bool (fec_payload (fec_ p)) = true)
  /\ (has_flags p FlagRestored = false -> has_flags p FlagFEC = true
      /\ source_block_number (fec_ p) = sbn /\ encoding_symbol_id (fec_ p) = Z.of_nat i).

Definition src_item (rd : Reader) (i : nat) : option PacketPtr := ar_items (rd_source_block rd) !! i.

Definition rep_item (rd : Reader) (i : nat) : option PacketPtr := ar_items (rd_repair_block rd) !! i.

Definition src_size (rd : Reader) : nat := ar_size (rd_source_block rd).

Record inv (rd : Reader) : Prop := {
  inv_sq : Forall good (sq_list (rd_source_queue rd));
  inv_rq : Forall good_repair (sq_list (rd_repair_queue rd));
  inv_sbn : is_u 16 (rd_cur_sbn rd);
  inv_src i p : src_item rd i = Some (Some p) ->
    source_item (rd_cur_sbn rd) i p /\ rd_source_block_resized rd = true;
  inv_rep i p : rep_item rd i = Some (Some p) -> has_payload p;
  inv_next0 : (0 < rd_next_packet rd)%nat -> rd_source_block_resized rd = true;
  inv_next : rd_started rd = true -> (rd_next_packet rd < src_size rd)%nat
}.

(** The source block holds a packet without FEC part. *)
Definition dirty (rd : Reader) : Prop :=
  exists i p, src_item rd i = Some (Some p) /\ has_flags p FlagFEC = false.

Definition same_inputs (rd rd' : Reader) : Prop :=
  rd_source_reader rd' = rd_source_reader rd /\ rd_repair_reader rd' = rd_repair_reader rd.

Lemma same_inputs_trans rd1 rd2 rd3 :
  same_inputs rd1 rd2 -> same_inputs rd2 rd3 -> same_inputs rd1 rd3.
Proof. intros [] []. split; congruence. Qed.

(** Steps that keep the position and do not add packets to the block. *)
Record frame (rd rd' : Reader) : Prop := {
  fr_sq : rd_source_queue rd' = rd_source_queue rd;
  fr_rq : rd_repair_queue rd' = rd_repair_queue rd;
  fr_sbn : rd_cur_sbn rd' = rd_cur_sbn rd;
  fr_next : rd_next_packet rd' = rd_next_packet rd;
  fr_started : rd_started rd' = rd_started rd;
  fr_src i p : src_item rd' i = Some (Some p) -> src_item rd i = Some (Some p);
  fr_rep i p : rep_item rd' i = Some (Some p) -> rep_item rd i = Some (Some p);
  fr_resized : rd_source_block_resized rd = true ->
    rd_source_block_resized rd' = true /\ src_size rd' = src_size rd;
  fr_size : src_size rd' = src_size rd \/ (0 < src_size rd')%nat;
  fr_alive : rd_alive rd' = true -> rd_alive rd = true;
  fr_in : same_inputs rd rd'
}.

Lemma frame_refl rd : frame rd rd.
Proof. split; auto. by split. Qed.

Lemma frame_trans rd1 rd2 rd3 : frame rd1 rd2 -> frame rd2 rd3 -> frame rd1 rd3.
Proof.
  intros [A1 A2 A3 A4 A5 A6 A7 A8 A9 A10 A11] [B1 B2 B3 B4 B5 B6 B7 B8 B9 B10 B11].
  split; try congruence; [auto|auto| | |auto|by eapply same_inputs_trans].
  - intros HR. destruct (A8 HR) as [HR2 ->%symmetry]. destruct (B8 HR2) as [? ->]. done.
  - destruct B9 as [->|]; auto.
Qed.

Lemma frame_inv rd rd' : inv rd -> frame rd rd' -> inv rd'.
Proof.
  intros [I1 I2 I3 I4 I5 I6 I7] [F1 F2 F3 F4 F5 F6 F7 F8 F9 _ _].
  split; rewrite ?F1, ?F2, ?F3, ?F4, ?F5; auto.
  - intros i p Hp%F6. destruct (I4 i p Hp) as [? HR]. split; [done|]. by apply F8.
  - eauto.
  - intros Hn. by apply F8, I6.
  - intros Hs. specialize (I7 Hs). destruct (rd_source_block_resized rd) eqn:ER.
    + destruct (F8 eq_refl) as [_ ->]. done.
    + assert (rd_next_packet rd = O) as E
        by (destruct (rd_next_packet rd); [done|]; specialize (I6 ltac:(lia)); congruence).
      rewrite E in *. destruct F9 as [->|]; lia.
Qed.

Ltac framed := solve [split; cbn; auto; first [done | by split]].

Lemma frame_alive rd : frame rd (set_alive false rd).
Proof. framed. Qed.

Lemma frame_payload n rd : frame rd (snd (update_payload_size n rd)).
Proof. unfold update_payload_size. destruct (_ =? _)%nat; framed. Qed.

Lemma frame_can_source n rd ok rd' :
  can_update_source_block_size n rd = (ok, rd') ->
  frame rd rd' /\ (ok = true -> rd' = rd /\ (src_size rd = n \/ rd_source_block_resized rd = false)).
Proof.
  unfold can_update_source_block_size. fold (src_size rd).
  destruct (Nat.eqb_spec (src_size rd) n); [intros [= <- <-]; split; [apply frame_refl|naive_solver]|].
  destruct (rd_source_block_resized rd) eqn:ER; [intros [= <- <-]; split; [apply frame_refl|naive_solver]|].
  destruct (_ <? n)%nat; intros [= <- <-]; (split; [auto using frame_refl, frame_alive|naive_solver]).
Qed.

Lemma frame_can_repair n rd ok rd' :
  can_update_repair_block_size n rd = (ok, rd') -> frame rd rd' /\ (ok = true -> rd' = rd).
Proof.
  unfold can_update_repair_block_size.
  destruct (_ =? _)%nat; [intros [= <- <-]; split; [apply frame_refl|naive_solver]|].
  destruct (rd_repair_block_resized rd); [intros [= <- <-]; split; [apply frame_refl|naive_solver]|].
  destruct (_ <? n)%nat; intros [= <- <-]; (split; [auto using frame_refl, frame_alive|naive_solver]).
Qed.

Lemma frame_source n rd ok rd' :
  (0 < n)%nat -> src_size rd = n \/ rd_source_block_resized rd = false ->
  update_source_block_size n rd = (ok, rd') ->
  frame rd rd'
  /\ (ok = true -> src_size rd' = n /\ rd_source_block_resized rd' = true).
Proof.
  intros Hn HS. unfold update_source_block_size. fold (src_size rd).
  destruct (Nat.eqb_spec (src_size rd) n) as [E|E]; [intros [= <- <-]; by split; [framed|]|].
  destruct HS as [|HS]; [done|].
  destruct (ar_resize _ _ _) as [[b a] al] eqn:EA. destruct (ar_resize_spec _ _ _ _ _ _ EA) as [H1 H2].
  destruct b; intros [= <- <-].
  - split; [|done]. split; cbn; auto; [congruence| |by split]. right. unfold src_size. cbn. lia.
  - subst a. by split; [framed|].
Qed.

Lemma frame_repair n rd :
  (src_size rd < n)%nat ->
  wp (update_repair_block_size n rd) (fun '(ok, rd') =>
    frame rd rd'
    /\ (ok = true -> (src_size rd' + ar_size (rd_repair_block rd') = n)%nat
                    /\ src_size rd' = src_size rd
                    /\ rd_source_block_resized rd' = rd_source_block_resized rd)).
Proof.
  intros Hn. unfold update_repair_block_size. fold (src_size rd).
  destruct (Nat.eqb_spec n (src_size rd + ar_size (rd_repair_block rd))).
  { apply wp_ret. split; [framed|]. intros _. unfold src_size. cbn. auto. }
  rewrite (proj2 (Nat.ltb_lt _ _)) by done. cbn [negb panic_if].
  destruct (ar_resize _ _ _) as [[b a] al] eqn:EA. destruct (ar_resize_spec _ _ _ _ _ _ EA) as [H1 H2].
  destruct b; apply wp_ret.
  - split; [framed|]. intros _. unfold src_size in *. cbn. rewrite H2. split; [lia|done].
  - subst a. by split; [framed|].
Qed.

Lemma process_source_spec f rd ok rd' :
  0 <= encoding_symbol_id f -> 0 <= source_block_length f ->
  process_source_packet f rd = (ok, rd') ->
  frame rd rd'
  /\ (ok = true ->
      source_block_length f = Z.of_nat (src_size rd')
      /\ encoding_symbol_id f < source_block_length f
      /\ rd_source_block_resized rd' = true).
Proof.
  intros He Hs. unfold process_source_packet, validate_incoming_source_packet. cbv zeta.
  destruct (Z.ltb_spec (encoding_symbol_id f) (source_block_length f)) as [Hlt|];
    cbn [negb]; [|by intros [= <- <-]; split; [apply frame_refl|]].
  destruct (Z.eqb_spec (source_block_length f) 0); cbn [negb];
    [by intros [= <- <-]; split; [apply frame_refl|]|].
  destruct (_ && _); cbn [negb]; [by intros [= <- <-]; split; [apply frame_refl|]|].
  destruct (_ =? 0)%nat; cbn [negb]; [by intros [= <- <-]; split; [apply frame_refl|]|].
  destruct (can_update_payload_size _ _); cbn [negb]; [|by intros [= <- <-]; split; [apply frame_refl|]].
  destruct (can_update_source_block_size _ rd) as [b1 rd1] eqn:E1.
  destruct (frame_can_source _ _ _ _ E1) as [F1 H1].
  destruct b1; cbn [negb]; [|by intros [= <- <-]].
  destruct (H1 eq_refl) as [-> HS]. clear H1 F1.
  pose proof (frame_payload (sl_size (fec_payload f)) rd) as F2.
  assert (exists rd2, update_payload_size (sl_size (fec_payload f)) rd = (true, rd2)) as [rd2 E2]
    by (unfold update_payload_size; destruct (_ =? _)%nat; by eexists).
  rewrite E2 in *. cbn [negb snd] in *. intros E3.
  destruct (frame_source (Z.to_nat (source_block_length f)) rd2 ok rd') as [F3 H3]; [lia| |done|].
  { unfold update_payload_size in E2. destruct (_ =? _)%nat; by injection E2 as <-. }
  split; [by eapply frame_trans|]. intros Hok. destruct (H3 Hok). split_and!; [lia|done|done].
Qed.

Lemma process_repair_spec f rd :
  0 <= source_block_length f -> block_length f <> 0 -> 0 <= block_length f ->
  wp (process_repair_packet f rd) (fun '(ok, rd') =>
    frame rd rd'
    /\ (ok = true ->
        source_block_length f = Z.of_nat (src_size rd')
        /\ source_block_length f <= encoding_symbol_id f
        /\ encoding_symbol_id f < Z.of_nat (src_size rd' + ar_size (rd_repair_block rd'))
        /\ rd_source_block_resized rd' = true)).
Proof.
  intros Hs Hb Hb'. unfold process_repair_packet, validate_incoming_repair_packet. cbv zeta.
  rewrite (proj2 (Z.eqb_neq (block_length f) 0)) by done. cbn [negb andb].
  destruct (Z.leb_spec (source_block_length f) (encoding_symbol_id f)) as [He|];
    cbn [negb]; [|by apply wp_ret; split; [apply frame_refl|]].
  destruct (Z.eqb_spec (source_block_length f) 0); cbn [negb];
    [by apply wp_ret; split; [apply frame_refl|]|].
  destruct (Z.ltb_spec (encoding_symbol_id f) (block_length f)) as [Hlt|];
    cbn [negb]; [|by apply wp_ret; split; [apply frame_refl|]].
  destruct (_ <=? _); cbn [negb]; [|by apply wp_ret; split; [apply frame_refl|]].
  destruct (_ =? 0)%nat; cbn [negb]; [by apply wp_ret; split; [apply frame_refl|]|].
  destruct (can_update_payload_size _ _); cbn [negb]; [|by apply wp_ret; split; [apply frame_refl|]].
  destruct (can_update_source_block_size _ rd) as [b1 rd1] eqn:E1.
  destruct (frame_can_source _ _ _ _ E1) as [F1 H1].
  destruct b1; cbn [negb]; [|by apply wp_ret].
  destruct (H1 eq_refl) as [-> HS]. clear H1 F1.
  destruct (can_update_repair_block_size _ rd) as [b1 rd1] eqn:E1'.
  destruct (frame_can_repair _ _ _ _ E1') as [F1 H1].
  destruct b1; cbn [negb]; [|by apply wp_ret].
  rewrite (H1 eq_refl). clear H1 F1 E1' rd1.
  pose proof (frame_payload (sl_size (fec_payload f)) rd) as F2.
  assert (exists rd2, update_payload_size (sl_size (fec_payload f)) rd = (true, rd2)) as [rd2 E2]
    by (unfold update_payload_size; destruct (_ =? _)%nat; by eexists).
  rewrite E2 in *. cbn [negb snd] in *.
  destruct (update_source_block_size _ rd2) as [b3 rd3] eqn:E3.
  destruct (frame_source (Z.to_nat (source_block_length f)) rd2 b3 rd3) as [F3 H3]; [lia| |done|].
  { unfold update_payload_size in E2. destruct (_ =? _)%nat; by injection E2 as <-. }
  destruct b3; cbn [negb]; [|by apply wp_ret; split; [eapply frame_trans|]].
  destruct (H3 eq_refl) as [H3a H3b].
  eapply wp_mono; [apply frame_repair; lia|]. intros [ok rd4] [F4 H4].
  split; [eauto using frame_trans|]. intros Hok. destruct (H4 Hok) as (H4a & H4b & H4c).
  rewrite H4c. split_and!; [lia|done|lia|done].
Qed.

(** * Filling the block *)

Lemma the_fec_wp p (Q : FEC -> Prop) : has_flags p FlagFEC = true -> Q (fec_ p) -> wp (the_fec p) Q.
Proof. intros HF HQ. unfold the_fec, packet_fec. by rewrite HF. Qed.

(** The head of a queue and the queue without it. *)
Lemma sq_head_pop (q : SortedQueue) p :
  sq_head q = Some p ->
  exists l, sq_list q = l ++ [p]
    /\ queue_pop q = ret (mkSortedQueue l (sq_latest q) (sq_max_size q)).
Proof.
  unfold sq_head, queue_pop, sq_read. intros Hl. pose proof (pop_back_spec (sq_list q)) as HB.
  destruct (pop_back (sq_list q)) as [[l p']|]; [|by rewrite HB in Hl].
  rewrite HB, last_snoc in Hl. injection Hl as ->. by exists l.
Qed.

Lemma blknum_between a b :
  is_u 16 a -> is_u 16 b -> blknum_le a b = true -> blknum_lt a b = false -> a = b.
Proof.
  unfold blknum_le, blknum_lt. change blknum_diff with (circle_diff 16). intros Ha Hb H1 H2.
  reflect_bools. apply (circle_diff_zero_iff 16); [lia|done|done|lia].
Qed.

Hypothesis (Hjump : Z.of_nat max_sbn_jump < 2 ^ 15).

Lemma validate_sbn_frame f rd ok rd' :
  validate_sbn_sequence max_sbn_jump f rd = (ok, rd') ->
  frame rd rd'
  /\ (if ok then rd' = rd
        /\ Z.abs (blknum_diff (source_block_number f) (rd_cur_sbn rd)) <= Z.of_nat max_sbn_jump
      else rd_alive rd' = false).
Proof using Hjump.
  unfold validate_sbn_sequence. cbv zeta.
  pose proof (circle_diff_range 16 ltac:(lia) (source_block_number f) (rd_cur_sbn rd)) as Hr.
  change (circle_diff 16) with blknum_diff in Hr. unfold is_s in Hr.
  set (d := blknum_diff (source_block_number f) (rd_cur_sbn rd)) in *.
  destruct (Z.ltb_spec (Z.of_nat max_sbn_jump) (u64 (if d <? 0 then s16 (- d) else d))) as [|Hd];
    intros [= <- <-]; [split; [apply frame_alive|done]|].
  split; [apply frame_refl|]. split; [done|]. destruct (Z.ltb_spec d 0).
  - destruct (decide (d = - 2 ^ 15)) as [E|E].
    + rewrite E in Hd. vm_compute (u64 (s16 (- - 2 ^ 15))) in Hd. lia.
    + rewrite wrap_s_small, wrap_u_small in Hd by (unfold is_u, is_s; lia). lia.
  - rewrite wrap_u_small in Hd by (unfold is_u; lia). lia.
Qed.

(** What filling does to the reader: the position and the sizes stay as [frame] says, the
    queues lose packets, and packets of which [G] holds enter the block. *)
Record filled (G : Packet -> Prop) (rd rd' : Reader) : Prop := {
  fl_inv : inv rd';
  fl_sbn : rd_cur_sbn rd' = rd_cur_sbn rd;
  fl_next : rd_next_packet rd' = rd_next_packet rd;
  fl_started : rd_started rd' = rd_started rd;
  fl_resized : rd_source_block_resized rd = true ->
    rd_source_block_resized rd' = true /\ src_size rd' = src_size rd;
  fl_alive : rd_alive rd' = true -> rd_alive rd = true;
  fl_queue : rd_source_queue rd' = rd_source_queue rd
    \/ (sq_size (rd_source_queue rd') < sq_size (rd_source_queue rd))%nat;
  fl_in : same_inputs rd rd';
  fl_items i p : src_item rd' i = Some (Some p) -> src_item rd i = Some (Some p) \/ G p
}.

Lemma filled_refl G rd : inv rd -> filled G rd rd.
Proof. split; auto. by split. Qed.

Lemma filled_trans G rd1 rd2 rd3 : filled G rd1 rd2 -> filled G rd2 rd3 -> filled G rd1 rd3.
Proof.
  intros [A1 A2 A3 A4 A5 A6 A7 A8 A9] [B1 B2 B3 B4 B5 B6 B7 B8 B9].
  split; try congruence; [|auto| |by eapply same_inputs_trans|naive_solver].
  - intros HR. destruct (A5 HR) as [HR2 E2]. destruct (B5 HR2) as [? E3]. split; congruence.
  - destruct A7 as [<-|A7]; [done|]. right. destruct B7 as [->|B7]; lia.
Qed.

Lemma frame_filled G rd rd' : inv rd -> frame rd rd' -> filled G rd rd'.
Proof.
  intros HI HF. split; [by eapply frame_inv|apply HF..|left; apply HF|apply HF|].
  intros i p Hp. left. by apply HF.
Qed.

Lemma set_source_queue_inv rd q :
  inv rd -> Forall good (sq_list q) -> inv (set_source_queue q rd).
Proof. intros [] HQ. by split. Qed.

Lemma set_repair_queue_inv rd q :
  inv rd -> Forall good_repair (sq_list q) -> inv (set_repair_queue q rd).
Proof. intros [] HQ. by split. Qed.

Lemma can_repair_filled G b rd : inv rd -> filled G rd (set_can_repair b rd).
Proof. intros HI. apply frame_filled; [done|framed]. Qed.

(** After filling, the queue holds packets of later blocks only, and these are close. *)
Definition settled (rd : Reader) : Prop :=
  rd_alive rd = true -> forall p, sq_head (rd_source_queue rd) = Some p ->
  1 <= blknum_diff (source_block_number (fec_ p)) (rd_cur_sbn rd) <= Z.of_nat max_sbn_jump.

(** A packet of the current block goes to its place. *)
Lemma put_source_inv (G : Packet -> Prop) rd n p :
  inv rd -> source_item (rd_cur_sbn rd) n p -> rd_source_block_resized rd = true -> G p ->
  filled G rd (set_source_block
    (mkArray (<[n:=Some p]> (ar_items (rd_source_block rd))) (ar_cap (rd_source_block rd))) rd).
Proof.
  intros [I1 I2 I3 I4 I5 I6 I7] HP HR HG.
  assert (forall l : list PacketPtr, length (<[n:=Some p]> l) = length l) as HL
    by (intros; apply length_insert).
  split; cbn; [|done..|intros; split; [done|]; unfold src_size, ar_size; cbn; apply HL|done|by left|done|].
  2: { unfold src_item. cbn. intros i q Hq.
       apply list_lookup_insert_Some in Hq as [(-> & [= <-] & _)|[_ Hq]]; auto. }
  split; cbn; auto.
  - unfold src_item. cbn. intros i q Hq. apply list_lookup_insert_Some in Hq as [(-> & [= <-] & _)|[_ Hq]].
    + by split.
    + by apply I4.
  - unfold src_size, ar_size. cbn. intros HS. rewrite HL. by apply I7.
Qed.

Lemma put_repair_inv G rd n p :
  inv rd -> has_payload p ->
  filled G rd (set_repair_block
    (mkArray (<[n:=Some p]> (ar_items (rd_repair_block rd))) (ar_cap (rd_repair_block rd)))
    (set_can_repair true rd)).
Proof.
  intros [I1 I2 I3 I4 I5 I6 I7] HP. split; cbn; auto; [|by split]. split; cbn; auto.
  unfold rep_item. cbn. intros i q Hq.
  apply list_lookup_insert_Some in Hq as [(-> & [= <-] & _)|[_ Hq]]; [done|]. by apply (I5 i).
Qed.

Lemma fill_source_wp fuel rd :
  inv rd -> (sq_size (rd_source_queue rd) < fuel)%nat ->
  wp (fill_source_loop max_sbn_jump fuel rd) (fun rd' => filled has_payload rd rd' /\ settled rd').
Proof using Hjump.
  revert rd. induction fuel as [|fuel IH]; intros rd HI Hfuel; [lia|]. cbn [fill_source_loop].
  destruct (sq_head (rd_source_queue rd)) as [pp|] eqn:EH.
  2: { apply wp_ret. split; [by apply filled_refl|]. unfold settled. by rewrite EH. }
  destruct (sq_head_pop _ _ EH) as (l & El & EP).
  pose proof (inv_sq _ HI) as HQ. rewrite El in HQ. apply Forall_app in HQ as [HQ [HG _]%Forall_cons].
  destruct HG as (HF & HU & HE & HS & HB & HP). apply wp_bind, the_fec_wp; [done|].
  destruct (validate_sbn_sequence max_sbn_jump (fec_ pp) rd) as [b1 rd1] eqn:E1.
  destruct (validate_sbn_frame _ _ _ _ E1) as [F1 H1].
  destruct b1; cbn [negb].
  2: { apply wp_ret. split; [by apply frame_filled|]. unfold settled. congruence. }
  destruct H1 as [-> Hd]. clear F1 E1.
  destruct (blknum_le _ _) eqn:Ele; cbn [negb].
  2: { apply wp_ret. split; [by apply filled_refl|]. intros _ p. rewrite EH. intros [= <-].
       unfold blknum_le in Ele. reflect_bools. lia. }
  rewrite EP. cbn [run_bind ret].
  set (rd1 := set_source_queue _ rd).
  assert (inv rd1) as HI1 by (by apply set_source_queue_inv).
  assert (S (sq_size (rd_source_queue rd1)) = sq_size (rd_source_queue rd)) as Hsz
    by (unfold sq_size; rewrite El, length_app; cbn; lia).
  assert (forall rd', filled has_payload rd1 rd' -> filled has_payload rd rd') as HK.
  { intros rd' [A1 A2 A3 A4 A5 A6 A7 A8 A9]. split; [done..| |done|done].
    right. destruct A7 as [->|A7]; lia. }
  assert (forall rd2, filled has_payload rd1 rd2 ->
    wp (fill_source_loop max_sbn_jump fuel rd2) (fun rd' => filled has_payload rd rd' /\ settled rd')) as HR.
  { intros rd2 L2. eapply wp_mono; [apply IH; [apply L2|]|].
    - destruct (fl_queue _ _ _ L2) as [->|]; lia.
    - intros rd' [L' Hs']. split; [|done]. apply HK. by eapply filled_trans. }
  destruct (blknum_lt _ _) eqn:Elt; [by apply HR, filled_refl|].
  pose proof (blknum_between _ _ HU (inv_sbn _ HI) Ele Elt) as Hsbn. rewrite Hsbn.
  change (rd_cur_sbn rd1) with (rd_cur_sbn rd). rewrite Z.eqb_refl. cbn [negb panic_if].
  destruct (process_source_packet (fec_ pp) rd1) as [b2 rd2] eqn:E2.
  destruct (process_source_spec _ _ _ _ HE HS E2) as [F2 H2].
  pose proof (frame_filled has_payload _ _ HI1 F2) as L2.
  destruct b2; cbn [negb]; [|by apply HR].
  destruct (H2 eq_refl) as (H2a & H2b & H2c). unfold src_size in H2a.
  rewrite H2a, Z.eqb_refl. cbn [negb panic_if]. rewrite H2a in H2b.
  rewrite (proj2 (Z.ltb_lt _ _)) by done. cbn [negb panic_if].
  apply wp_bind, ar_get_wp; [lia|]. intros [old|] Hold; [by apply HR|].
  apply wp_bind, ar_set_wp; [lia|]. apply HR.
  assert (source_item (rd_cur_sbn rd2) (Z.to_nat (encoding_symbol_id (fec_ pp))) pp) as HSI.
  { split; [done|]. intros _. rewrite (fl_sbn _ _ _ L2). split_and!; [done|done|lia]. }
  pose proof (can_repair_filled has_payload true rd2 (fl_inv _ _ _ L2)) as L3.
  pose proof (put_source_inv has_payload (set_can_repair true rd2) _ pp (fl_inv _ _ _ L3) HSI H2c
    (conj HF HP)) as L4.
  eauto using filled_trans.
Qed.

(** Filling the repair block does not touch the source queue. *)
Record filled_repair (G : Packet -> Prop) (rd rd' : Reader) : Prop := {
  fr_filled : filled G rd rd';
  fr_queue : rd_source_queue rd' = rd_source_queue rd
}.

Lemma filled_repair_trans G rd1 rd2 rd3 :
  filled_repair G rd1 rd2 -> filled_repair G rd2 rd3 -> filled_repair G rd1 rd3.
Proof. intros [] []. split; [by eapply filled_trans|congruence]. Qed.

Lemma fill_repair_wp fuel rd :
  inv rd -> (sq_size (rd_repair_queue rd) < fuel)%nat ->
  wp (fill_repair_loop max_sbn_jump fuel rd) (filled_repair has_payload rd).
Proof using Hjump.
  revert rd. induction fuel as [|fuel IH]; intros rd HI Hfuel; [lia|]. cbn [fill_repair_loop].
  assert (forall rd', frame rd rd' -> filled_repair has_payload rd rd') as HFR
    by (intros rd' HF; split; [by apply frame_filled|apply HF]).
  destruct (sq_head (rd_repair_queue rd)) as [pp|] eqn:EH; [|by apply wp_ret, HFR, frame_refl].
  destruct (sq_head_pop _ _ EH) as (l & El & EP).
  pose proof (inv_rq _ HI) as HQ. rewrite El in HQ. apply Forall_app in HQ as [HQ [HG _]%Forall_cons].
  destruct HG as [(HF & HU & HE & HS & HB & HP) HB0]. apply wp_bind, the_fec_wp; [done|].
  destruct (validate_sbn_sequence max_sbn_jump (fec_ pp) rd) as [b1 rd1] eqn:E1.
  destruct (validate_sbn_frame _ _ _ _ E1) as [F1 H1].
  destruct b1; cbn [negb]; [|by apply wp_ret, HFR].
  destruct H1 as [-> _]. clear F1 E1.
  destruct (blknum_le _ _) eqn:Ele; cbn [negb]; [|by apply wp_ret, HFR, frame_refl].
  rewrite EP. cbn [run_bind ret].
  set (rd1 := set_repair_queue _ rd).
  assert (inv rd1) as HI1 by (by apply set_repair_queue_inv).
  assert (filled_repair has_payload rd rd1) as L1 by (split; [split; auto; by split|done]).
  assert (sq_size (rd_repair_queue rd1) < fuel)%nat as Hsz
    by (unfold sq_size in *; rewrite El, length_app in Hfuel; cbn in *; lia).
  assert (forall rd2, filled_repair has_payload rd1 rd2 -> rd_repair_queue rd2 = rd_repair_queue rd1 ->
    wp (fill_repair_loop max_sbn_jump fuel rd2) (filled_repair has_payload rd)) as HR.
  { intros rd2 L2 EQ. eapply wp_mono; [apply IH; [apply L2|by rewrite EQ]|].
    intros rd' L'. eauto using filled_repair_trans. }
  destruct (blknum_lt _ _) eqn:Elt; [by apply HR; [split; [apply filled_refl|]|]|].
  rewrite (blknum_between _ _ HU (inv_sbn _ HI) Ele Elt).
  change (rd_cur_sbn rd1) with (rd_cur_sbn rd). rewrite Z.eqb_refl. cbn [negb panic_if].
  apply wp_bind. eapply wp_mono; [by apply process_repair_spec|]. intros [b2 rd2] [F2 H2].
  assert (filled_repair has_payload rd1 rd2) as L2 by (split; [by apply frame_filled|apply F2]).
  pose proof (fr_rq _ _ F2) as EQ2.
  destruct b2; cbn [negb]; [|by apply HR].
  destruct (H2 eq_refl) as (H2a & H2b & H2c & H2d). unfold src_size in *. cbv zeta.
  rewrite H2a, Z.eqb_refl. rewrite H2a in H2b.
  rewrite (proj2 (Z.leb_le _ _)), (proj2 (Z.ltb_lt _ _)) by done. cbn [negb panic_if].
  apply wp_bind, ar_get_wp; [lia|]. intros [old|] Hold; [by apply HR|].
  apply wp_bind, ar_set_wp; [lia|]. apply HR; [|done].
  pose proof (put_repair_inv has_payload rd2 (Z.to_nat (encoding_symbol_id (fec_ pp)
    - Z.of_nat (ar_size (rd_source_block rd2)))) pp (fl_inv _ _ _ (fr_filled _ _ _ L2)) (conj HF HP)) as L3.
  eapply filled_repair_trans; [exact L2|]. by split.
Qed.

Lemma fill_block_wp rd :
  inv rd -> wp (fill_block max_sbn_jump rd) (fun rd' => filled has_payload rd rd' /\ settled rd').
Proof using Hjump.
  intros HI. unfold fill_block. apply wp_bind.
  eapply wp_mono; [apply fill_source_wp; [done|lia]|].
  intros rd1 [L1 S1]. eapply wp_mono; [apply fill_repair_wp; [apply L1|lia]|].
  intros rd2 [L2 EQ]. split; [by eapply filled_trans|]. unfold settled.
  rewrite EQ, (fl_sbn _ _ _ L2). intros HA. apply S1. by apply (fl_alive _ _ _ L2).
Qed.

(** * The next block *)

Lemma cleared_item (a : PacketArray) i p : ar_items (ar_clear a) !! i <> Some (Some p).
Proof. unfold ar_clear. cbn. intros [E _]%lookup_replicate. done. Qed.

Lemma cleared_size a : ar_size (ar_clear a) = ar_size a.
Proof. unfold ar_clear, ar_size. cbn. apply length_replicate. Qed.

Lemma next_block_wp rd :
  inv rd -> (0 < src_size rd)%nat ->
  wp (rd_next_block max_sbn_jump rd) (fun rd' =>
    inv rd' /\ rd_cur_sbn rd' = u16 (rd_cur_sbn rd + 1) /\ rd_next_packet rd' = O
    /\ rd_started rd' = rd_started rd /\ settled rd'
    /\ (rd_alive rd' = true -> rd_alive rd = true)
    /\ (rd_source_queue rd' = rd_source_queue rd
        \/ (sq_size (rd_source_queue rd') < sq_size (rd_source_queue rd))%nat)
    /\ same_inputs rd rd' /\ ~ dirty rd').
Proof using Hjump.
  intros [I1 I2 I3 I4 I5 I6 I7] Hs. unfold rd_next_block. cbv zeta.
  eapply wp_mono; [apply fill_block_wp|intros rd' [[] ?]; split_and!; try done].
  2: { intros (i & p & [Hp|[Hp _]]%fl_items0 & HF); [|congruence].
       unfold src_item in Hp. cbn in Hp. by apply cleared_item in Hp. }
  split; cbn; auto.
  - apply wrap_u_range. lia.
  - unfold src_item. cbn. intros i p Hp. by apply cleared_item in Hp.
  - unfold rep_item. cbn. intros i p Hp. by apply cleared_item in Hp.
  - lia.
  - intros _. change (0 < ar_size (ar_clear (rd_source_block rd)))%nat. by rewrite cleared_size.
Qed.

(** * Repair *)

(** The parser accepts or refuses any repaired buffer; if what it accepts has a FEC part
    then with a payload. *)
Definition parser_ok : Prop := forall buffer, exists ok p,
  parser_parse host find_by_pt parser (with_mem Packet_new buffer) (slice_whole (length buffer))
    = Ok (ok, p)
  /\ (ok = true -> (has_flags p FlagFEC = true -> slice_bool (fec_payload (fec_ p)) = true)
                  /\ slice_bool (buffer_ p) = false /\ has_flags p FlagRestored = false).

Lemma fec_payload_bytes_wp p : has_payload p -> wp (fec_payload_bytes p) (fun _ => True).
Proof.
  intros [HF HP]. unfold fec_payload_bytes. apply wp_bind, the_fec_wp; [done|].
  apply wp_bind, wp_lift. unfold slice_data, slice_bool in *.
  destruct (sl_data (fec_payload (fec_ p))); [by eexists|done].
Qed.

(** The only packets that the decoder cannot be given are those without FEC part. *)
Lemma set_packets_wp items n d :
  (forall i p, items !! i = Some (Some p) ->
     has_flags p FlagFEC = true -> slice_bool (fec_payload (fec_ p)) = true) ->
  wp_or (exists i p, items !! i = Some (Some p) /\ has_flags p FlagFEC = false)
    (set_packets items n d) (fun _ => True).
Proof.
  revert n d. induction items as [|[p|] items IH]; intros n d HP; cbn [set_packets]; [done|..].
  - destruct (has_flags p FlagFEC) eqn:HF.
    + apply wp_or_bind. eapply wp_or_wp; [apply fec_payload_bytes_wp; split; [done|by apply (HP 0%nat)]|].
      intros bs _. eapply wp_or_mono; [apply IH; intros i; apply (HP (S i))| |done].
      intros (i & q & Hq). by exists (S i), q.
    + unfold fec_payload_bytes, the_fec, packet_fec. rewrite HF. by exists 0%nat, p.
  - eapply wp_or_mono; [apply IH; intros i; apply (HP (S i))| |done].
    intros (i & q & Hq). by exists (S i), q.
Qed.

Lemma parse_repaired_wp buffer rd :
  parser_ok ->
  wp (parse_repaired_packet host find_by_pt parser buffer rd) (fun '(pp, rd') =>
    frame rd rd'
    /\ forall p, pp = Some p ->
       (has_flags p FlagFEC = true -> slice_bool (fec_payload (fec_ p)) = true)
       /\ has_flags p FlagRestored = true).
Proof.
  intros HP. unfold parse_repaired_packet. destruct (allocate (rd_alloc rd)) as [[] al]; cbn [negb].
  2: { apply wp_ret. split; [framed|done]. }
  destruct (HP buffer) as (ok & p & E & HO). apply wp_bind, wp_lift. exists (ok, p).
  split; [done|]. destruct ok; cbn [negb]; [|by apply wp_ret; split; [framed|]].
  destruct (HO eq_refl) as (HL & HB & HR).
  apply wp_bind, wp_lift. unfold set_buffer. rewrite HB. cbn [panic_if]. eexists.
  split; [reflexivity|]. apply wp_bind, wp_lift.
  rewrite add_flags_ok by done. eexists. split; [reflexivity|]. apply wp_ret.
  split; [framed|]. intros q [= <-].
  assert (forall fl, has_flags (with_flags (with_buffer p (slice_whole (length buffer)))
    (Z.lor (flags_ (with_buffer p (slice_whole (length buffer)))) FlagRestored)) fl
    = has_flags p fl || negb (Z.land FlagRestored fl =? 0)) as HK
    by (intros; rewrite has_flags_lor; done).
  rewrite !HK, orb_true_r. split; [|done]. change (negb (Z.land FlagRestored FlagFEC =? 0)) with false.
  rewrite orb_false_r. exact HL.
Qed.

Abbreviation filled_any := (filled_repair (fun _ => True)).

Lemma frame_filled_repair rd rd' : inv rd -> frame rd rd' -> filled_any rd rd'.
Proof. intros HI HF. split; [by apply frame_filled|apply HF]. Qed.

Lemma repair_packets_wp items n rd :
  parser_ok -> inv rd -> rd_source_block_resized rd = true ->
  (n + length items <= src_size rd)%nat ->
  wp (repair_packets host find_by_pt parser items n rd) (filled_any rd).
Proof.
  intros HP. revert n rd. induction items as [|[q|] items IH]; intros n rd HI HR HL;
    cbn [repair_packets length] in *.
  - by apply wp_ret, frame_filled_repair, frame_refl.
  - apply IH; [done|done|lia].
  - destruct (decoder_repair (rd_decoder rd) n) as [buffer d].
    assert (frame rd (set_decoder d rd)) as F0 by framed.
    assert (forall rd1, filled_any rd rd1 ->
      wp (repair_packets host find_by_pt parser items (S n) rd1) (filled_any rd)) as HK.
    { intros rd1 L1. destruct (fl_resized _ _ _ (fr_filled _ _ _ L1) HR) as [HR1 HS1].
      eapply wp_mono; [apply IH; [apply L1|done|lia]|]. eauto using filled_repair_trans. }
    destruct buffer as [buffer|]; [|by apply HK, frame_filled_repair].
    apply wp_bind. eapply wp_mono; [by apply parse_repaired_wp|]. intros [pp rd1] [F1 HPP].
    assert (filled_any rd rd1) as L1
      by (apply frame_filled_repair; [done|by eapply frame_trans]).
    destruct pp as [p|]; [|by apply HK].
    destruct (fl_resized _ _ _ (fr_filled _ _ _ L1) HR) as [HR1 HS1].
    apply wp_bind, ar_set_wp; [fold (src_size rd1); lia|]. apply HK.
    eapply filled_repair_trans; [exact L1|]. split; [|done].
    apply put_source_inv; [apply L1| |done|done].
    destruct (HPP p eq_refl) as [H1 H2]. split; [done|]. rewrite H2. done.
Qed.

Lemma try_repair_wp rd :
  parser_ok -> inv rd -> wp_or (dirty rd) (try_repair host find_by_pt parser rd) (filled_any rd).
Proof.
  intros HP HI. pose proof (frame_filled_repair _ _ HI (frame_refl rd)) as L0. unfold try_repair.
  destruct (rd_can_repair rd); cbn [negb]; [|done].
  destruct (rd_source_block_resized rd) eqn:HR; cbn [negb orb]; [|done].
  destruct (negb (rd_repair_block_resized rd) || negb (rd_payload_resized rd)); [done|].
  destruct (decoder_begin _ _ _ _) as [ok d].
  destruct ok; cbn [negb].
  2: { apply frame_filled_repair; [done|framed]. }
  apply wp_or_bind. eapply wp_or_mono; [apply set_packets_wp|done|].
  { intros i p Hp. by destruct (inv_src _ HI i p Hp) as [[? _] _]. }
  intros d1 _. apply wp_or_bind. eapply wp_or_mono; [apply set_packets_wp| |].
  { intros i p Hp _. by apply (inv_rep _ HI i). }
  { intros (i & p & Hp & HF). destruct (inv_rep _ HI i p Hp). congruence. }
  intros d2 _. eapply wp_or_wp; [|intros ? H; exact H]. apply wp_bind.
  assert (filled_any rd (set_decoder d2 (set_decoder d rd))) as L1
    by (apply frame_filled_repair; [done|framed]).
  eapply wp_mono; [apply repair_packets_wp; [done|apply L1|done|done]|].
  intros rd2 L2. apply wp_ret. do 2 (eapply filled_repair_trans; [eassumption|]).
  apply frame_filled_repair; [apply L2|framed].
Qed.

(** * Reading in order *)

Lemma first_packet_from_spec items n :
  (n <= length items)%nat ->
  let pos := first_packet_from (drop n items) n in
  (n <= pos <= length items)%nat
  /\ (pos <> length items -> exists p, items !! pos = Some (Some p)).
Proof.
  assert (forall l k, let pos := first_packet_from l k in
    (k <= pos <= k + length l)%nat
    /\ (pos <> (k + length l)%nat -> exists p, l !! (pos - k)%nat = Some (Some p))) as HK.
  { induction l as [|[p|] l IH]; intros k; cbn [first_packet_from length].
    - split; [lia|]. lia.
    - split; [lia|]. intros _. rewrite Nat.sub_diag. by exists p.
    - destruct (IH (S k)) as [H1 H2]. split; [lia|]. intros Hne.
      destruct H2 as [p Hp]; [lia|]. exists p.
      by replace (first_packet_from l (S k) - k)%nat
        with (S (first_packet_from l (S k) - S k)) by lia. }
  intros Hn. destruct (HK (drop n items) n) as [H1 H2]. rewrite length_drop in *.
  split; [lia|]. intros Hne. destruct H2 as [p Hp]; [lia|]. exists p.
  rewrite lookup_drop in Hp. rewrite <- Hp. f_equal. lia.
Qed.

(** Between a reader at packet [n] of block [B] and the reader [rd'] at block [B'], the
    packet [p] was passed: unless it was restored, its position is in between. *)
Definition passed (B : Z) (n : nat) (p : Packet) (B' : Z) (rd' : Reader) : Prop :=
  has_flags p FlagRestored = false ->
  exists Bp e, B <= Bp <= B' /\ source_block_number (fec_ p) = u16 Bp
    /\ encoding_symbol_id (fec_ p) = Z.of_nat e
    /\ (Bp = B -> (n <= e)%nat) /\ (Bp = B' -> (e < rd_next_packet rd')%nat).

(** The reader moved forward, and the packet it returned is on the way. *)
Definition forward (B : Z) (rd : Reader) (pp : PacketPtr) (rd' : Reader) : Prop :=
  inv rd' /\ rd_started rd' = rd_started rd /\ same_inputs rd rd'
  /\ exists B', B <= B' /\ rd_cur_sbn rd' = u16 B'
     /\ (B' = B -> (rd_next_packet rd <= rd_next_packet rd')%nat)
     /\ (rd_alive rd' = true -> forall p, pp = Some p -> passed B (rd_next_packet rd) p B' rd').

Lemma set_next_inv rd n p :
  inv rd -> src_item rd n = Some (Some p) -> (S n < src_size rd)%nat -> inv (set_next_packet (S n) rd).
Proof.
  intros [I1 I2 I3 I4 I5 I6 I7] Hp Hn. destruct (I4 n p Hp) as [_ HR]. split; cbn; auto.
Qed.

(** The next block starts at position 0, wherever the reader was in the current one. *)
Lemma next_block_skips_position (rd : Reader) n :
  rd_next_block max_sbn_jump (set_next_packet n rd) = rd_next_block max_sbn_jump rd.
Proof. destruct rd. unfold rd_next_block. apply (f_equal (fill_block max_sbn_jump)). reflexivity. Qed.

(** After the packet at position [n] of the block is taken. *)
Lemma take_packet_wp rd B n p :
  inv rd -> rd_cur_sbn rd = u16 B -> src_item rd n = Some (Some p) ->
  wp (let! rd' := if (S n =? src_size rd)%nat then rd_next_block max_sbn_jump rd
                  else ret (set_next_packet (S n) rd) in
      ret (StatusOK, Some p, rd'))
    (fun '(code, pp, rd') =>
       inv rd' /\ rd_started rd' = rd_started rd /\ same_inputs rd rd'
       /\ exists B', B <= B' /\ rd_cur_sbn rd' = u16 B'
         /\ (B' = B -> (S n <= rd_next_packet rd')%nat)
         /\ forall q, pp = Some q -> passed B n q B' rd').
Proof.
  intros HI HB Hp. pose proof (lookup_lt_Some _ _ _ Hp : (n < src_size rd)%nat) as Hlt.
  destruct (inv_src _ HI n p Hp) as [[_ HS] HR].
  destruct (Nat.eqb_spec (S n) (src_size rd)) as [E|E].
  - apply wp_bind. eapply wp_mono; [apply next_block_wp; [done|lia]|].
    intros rd' (HI' & HB' & HN' & HT' & _ & _ & _ & HIn' & _). apply wp_ret.
    split; [done|]. split; [done|]. split; [done|].
    exists (B + 1). split; [lia|]. split.
    { rewrite HB', HB. unfold wrap_u. by rewrite Zplus_mod_idemp_l. }
    split; [lia|]. intros q [= <-] Hres. destruct (HS Hres) as (_ & H1 & H2).
    exists B, n. rewrite H1. split_and!; [lia|lia|done|done|done|lia].
  - apply wp_bind, wp_ret, wp_ret. split; [apply set_next_inv with p; [done|done|lia]|].
    split; [done|]. split; [done|]. exists B. split_and!; [lia|done|done|].
    intros q [= <-] Hres. destruct (HS Hres) as (_ & H1 & H2).
    exists B, n. rewrite H1. split_and!; [lia|lia|done|done|done|cbn; lia].
Qed.

Lemma forward_weaken B rd n (code : StatusCode) pp rd' :
  (rd_next_packet rd <= n)%nat -> forall rd0 : Reader, rd_started rd0 = rd_started rd ->
  same_inputs rd rd0 ->
  (inv rd' /\ rd_started rd' = rd_started rd0 /\ same_inputs rd0 rd'
   /\ exists B', B <= B' /\ rd_cur_sbn rd' = u16 B'
     /\ (B' = B -> (S n <= rd_next_packet rd')%nat)
     /\ forall q, pp = Some q -> passed B n q B' rd') ->
  forward B rd pp rd'.
Proof.
  intros Hn rd0 E EI (HI & HS & HIn & B' & H1 & H2 & H3 & H4). split; [done|].
  split; [congruence|]. split; [by eapply same_inputs_trans|].
  exists B'. split_and!; [done|done|intros HE; specialize (H3 HE); lia|].
  intros _ p Hp Hres. destruct (H4 p Hp Hres) as (Bp & e & K1 & K2 & K3 & K4 & K5).
  exists Bp, e. split_and!; done || lia.
Qed.

(** The number of further iterations of the loop of [get_next_packet_]: each goes to the
    next block, which brings the head of the queue closer or takes packets out of the
    queue. *)
Definition head_dist (rd : Reader) : nat :=
  match sq_head (rd_source_queue rd) with
  | Some p => Z.to_nat (blknum_diff (source_block_number (fec_ p)) (rd_cur_sbn rd))
  | None => O
  end.

Definition iterations (rd : Reader) : nat :=
  if rd_alive rd then S (sq_size (rd_source_queue rd) * S max_sbn_jump + head_dist rd)%nat else O.

Lemma head_dist_bound rd :
  settled rd -> rd_alive rd = true -> (head_dist rd <= max_sbn_jump)%nat.
Proof.
  unfold settled, head_dist. intros HS HA.
  destruct (sq_head (rd_source_queue rd)); [|lia]. specialize (HS HA _ eq_refl). lia.
Qed.

Lemma blknum_diff_next a b :
  1 <= blknum_diff a b -> blknum_diff a (u16 (b + 1)) = blknum_diff a b - 1.
Proof.
  change blknum_diff with (circle_diff 16). intros H1.
  pose proof (circle_diff_range 16 ltac:(lia) a b) as Hr. unfold is_s in Hr.
  assert (circle_diff 16 (u16 (b + 1)) b = 1) as D1
    by (apply circle_diff_advance; [lia|unfold is_s; lia]).
  assert (circle_diff 16 b (u16 (b + 1)) = -1) as D2
    by (rewrite (circle_diff_antisym 16 ltac:(lia) (u16 (b + 1))); rewrite D1; lia).
  rewrite (circle_diff_triangle 16 ltac:(lia) a b); rewrite D2; [lia|unfold is_s; lia].
Qed.

Lemma iterations_decrease (rd rd1 rd2 : Reader) :
  rd_alive rd = true -> settled rd -> rd_source_queue rd1 = rd_source_queue rd ->
  rd_cur_sbn rd1 = rd_cur_sbn rd -> sq_size (rd_source_queue rd1) <> O ->
  settled rd2 -> rd_cur_sbn rd2 = u16 (rd_cur_sbn rd1 + 1) ->
  rd_source_queue rd2 = rd_source_queue rd1
    \/ (sq_size (rd_source_queue rd2) < sq_size (rd_source_queue rd1))%nat ->
  (iterations rd2 < iterations rd)%nat.
Proof.
  intros HA HS EQ EB Hne HS2 EB2 HQ. unfold iterations. rewrite HA.
  destruct (rd_alive rd2) eqn:HA2; [|lia].
  pose proof (head_dist_bound _ HS2 HA2) as Hd2. rewrite EQ in *.
  destruct HQ as [HQ|HQ]; [|nia]. rewrite HQ in *.
  assert (head_dist rd2 < head_dist rd)%nat; [|lia].
  unfold head_dist, settled in *. rewrite HQ in *.
  destruct (sq_head (rd_source_queue rd)) as [p|] eqn:EH.
  - specialize (HS HA p eq_refl). specialize (HS2 HA2 p eq_refl).
    rewrite EB2, EB, blknum_diff_next in * by lia. lia.
  - unfold sq_head in EH. apply last_None in EH. unfold sq_size in Hne. by rewrite EH in Hne.
Qed.

Lemma next_packet_none_wp fuel rd B :
  parser_ok -> inv rd -> rd_started rd = true -> rd_cur_sbn rd = u16 B -> settled rd ->
  (iterations rd < fuel)%nat ->
  wp_or (dirty rd) (next_packet_loop host find_by_pt parser max_sbn_jump fuel None rd)
    (fun '(code, pp, rd') => forward B rd pp rd').
Proof.
  intros HP. revert rd B. induction fuel as [|fuel IH]; intros rd B HI HS HB Hset Hf; [lia|].
  cbn [next_packet_loop]. destruct (rd_alive rd) eqn:HA; cbn [negb].
  2: { split; [done|]. split; [done|]. split; [done|]. exists B.
       split_and!; [lia|done|lia|done]. }
  apply wp_or_bind. eapply wp_or_mono; [by apply try_repair_wp|done|]. intros rd1 [L1 EQ1].
  destruct L1 as [HI1 HB1 HN1 HS1 _ _ _ HIn1 _]. rewrite HS in HS1. pose proof HB1 as HB1'. rewrite HB in HB1.
  pose proof (inv_next _ HI1 HS1) as Hlt.
  destruct (first_packet_from_spec (ar_items (rd_source_block rd1)) (rd_next_packet rd1))
    as [Hpos Hfound]; [unfold src_size, ar_size in Hlt; lia|].
  set (pos := first_packet_from _ _) in *. change (length (ar_items ?a)) with (ar_size a) in *.
  fold (src_size rd1) in *.
  destruct (Nat.eqb_spec pos (src_size rd1)) as [E|E].
  - destruct (Nat.eqb_spec (sq_size (rd_source_queue rd1)) 0) as [Ez|Hne].
    { split; [done|]. split; [congruence|]. split; [done|]. exists B.
      split_and!; [lia|done|lia|done]. }
    cbn [rd_next_packet set_next_packet]. rewrite E.
    change (ar_size (rd_source_block (set_next_packet (src_size rd1) rd1))) with (src_size rd1).
    rewrite Nat.eqb_refl. apply wp_or_bind.
    rewrite next_block_skips_position.
    eapply wp_or_wp; [apply next_block_wp; [done|lia]|].
    intros rd2 (HI2 & HB2 & HN2 & HS2 & Hset2 & _ & HQ2 & HIn2 & Hclean2).
    pose proof (iterations_decrease rd rd1 rd2 HA Hset EQ1 HB1' Hne Hset2 HB2 HQ2) as Hdec.
    eapply wp_or_mono; [apply (IH rd2 (B + 1)); [done|congruence| |done|lia]|done|].
    { rewrite HB2, HB1. unfold wrap_u. by rewrite Zplus_mod_idemp_l. }
    intros [[code pp] rd3] (HI3 & HS3 & HIn3 & B' & H1 & H2 & H3 & H4). split; [done|].
    split; [congruence|]. split; [eauto using same_inputs_trans|]. exists B'. split_and!; [lia|done|lia|].
    intros HA3 p Hp Hres. destruct (H4 HA3 p Hp Hres) as (Bp & e & K1 & K2 & K3 & K4 & K5).
    exists Bp, e. split_and!; done || lia.
  - destruct (Hfound E) as [p Hp]. eapply wp_or_wp; [|intros ? H; exact H].
    apply wp_bind, ar_get_wp; [fold (src_size rd1); lia|].
    intros x Hx. rewrite Hp in Hx. injection Hx as <-.
    change (ar_size (rd_source_block (set_next_packet (S pos) rd1))) with (src_size rd1).
    cbn [rd_next_packet set_next_packet].
    rewrite next_block_skips_position.
    eapply wp_mono; [by apply (take_packet_wp rd1 B pos p)|].
    intros [[code pp] rd2] H2. eapply (forward_weaken B rd pos code pp rd2); [lia| |exact HIn1|exact H2]. congruence.
Qed.

Lemma get_next_packet_wp fuel rd B :
  parser_ok -> inv rd -> rd_started rd = true -> rd_cur_sbn rd = u16 B ->
  (S (sq_size (rd_source_queue rd)) * S max_sbn_jump < fuel)%nat ->
  wp_or (dirty rd) (get_next_packet host find_by_pt parser max_sbn_jump fuel rd)
    (fun '(code, pp, rd') => forward B rd pp rd').
Proof.
  intros HP HI HS HB Hf. unfold get_next_packet. apply wp_or_bind.
  eapply wp_or_wp; [by apply fill_block_wp|].
  intros rd1 [[HI1 HB1 HN1 HS1 _ _ HQ1 HIn1 HG1] Hset].
  rewrite HS in HS1. rewrite HB in HB1.
  assert (dirty rd1 -> dirty rd) as Hdirty.
  { intros (i & p & [Hp|[Hp _]]%HG1 & HF); [by exists i, p|congruence]. }
  pose proof (inv_next _ HI1 HS1) as Hlt. apply wp_or_bind.
  eapply wp_or_wp; [apply (ar_get_wp _ _ (fun x => src_item rd1 (rd_next_packet rd1) = Some x)); done|].
  assert (sq_size (rd_source_queue rd1) <= sq_size (rd_source_queue rd))%nat as Hsz
    by (destruct HQ1 as [->|]; lia).
  intros [p|] Hx.
  - eapply wp_or_wp; [|intros ? H; exact H].
    destruct fuel as [|fuel]; [lia|]. cbn [next_packet_loop]. destruct (rd_alive rd1) eqn:EA; cbn [negb].
    + change (ar_size (rd_source_block (set_next_packet (S (rd_next_packet rd1)) rd1)))
        with (src_size rd1).
      cbn [rd_next_packet set_next_packet].
      rewrite next_block_skips_position.
      eapply wp_mono; [by apply (take_packet_wp rd1 B (rd_next_packet rd1) p)|].
      intros [[code pp] rd2] H2.
      eapply (forward_weaken B rd (rd_next_packet rd1) code pp rd2);
        [lia| |exact HIn1|exact H2]. congruence.
    + apply wp_ret. split; [done|]. split; [congruence|]. split; [done|]. exists B.
      split_and!; [lia|done|lia|congruence].
  - eapply wp_or_mono; [apply (next_packet_none_wp fuel rd1 B); [done..|]|done|].
    + unfold iterations. destruct (rd_alive rd1) eqn:EA; [|lia].
      pose proof (head_dist_bound _ Hset EA). nia.
    + intros [[code pp] rd2] (H1 & H2 & HIn2 & H3). split; [done|]. split; [congruence|].
      split; [by eapply same_inputs_trans|]. by rewrite HN1 in H3.
Qed.

(** * Starting *)

(** Before decoding has started the block is empty. *)
Definition idle (rd : Reader) : Prop :=
  rd_started rd = false -> rd_next_packet rd = O /\ forall i p, src_item rd i <> Some (Some p).

Definition ready (rd : Reader) : Prop := inv rd /\ idle rd.

Lemma drop_repair_wp fuel rd :
  inv rd -> (sq_size (rd_repair_queue rd) < fuel)%nat ->
  wp (drop_repair_loop fuel rd) (fun rd' => exists q, rd' = set_repair_queue q rd /\ inv rd').
Proof.
  revert rd. induction fuel as [|fuel IH]; intros rd HI Hf; [lia|]. cbn [drop_repair_loop].
  assert (exists q, rd = set_repair_queue q rd /\ inv rd) as HN
    by (exists (rd_repair_queue rd); by destruct rd).
  destruct (sq_head (rd_repair_queue rd)) as [pp|] eqn:EH; [|by apply wp_ret].
  destruct (sq_head_pop _ _ EH) as (l & El & EP).
  pose proof (inv_rq _ HI) as HQ. rewrite El in HQ. apply Forall_app in HQ as [HQ [HG _]%Forall_cons].
  apply wp_bind, the_fec_wp; [apply HG|].
  destruct (blknum_lt _ _); cbn [negb]; [|by apply wp_ret].
  rewrite EP. cbn [run_bind ret]. eapply wp_mono; [apply IH; [by apply set_repair_queue_inv|]|].
  { unfold sq_size in *. rewrite El, length_app in Hf. cbn in *. lia. }
  intros rd' (q & -> & HI'). by exists q.
Qed.

Lemma try_start_wp rd :
  ready rd -> rd_started rd = false ->
  wp (try_start rd) (fun '(st, rd') => ready (set_started st rd')
    /\ rd_source_queue rd' = rd_source_queue rd /\ same_inputs rd rd' /\ ~ dirty rd').
Proof.
  intros [HI Hid] HS. destruct (Hid HS) as [HN HE].
  assert (ready (set_started false rd)) as HR0.
  { split; [|by intros _]. destruct HI. by split. }
  assert (forall rd', (forall i p, src_item rd' i <> Some (Some p)) -> ~ dirty rd') as Hno
    by (intros rd' HE' (i & p & Hp & _); by apply HE' in Hp).
  unfold try_start. destruct (sq_head (rd_source_queue rd)) as [pp|] eqn:EH;
    [|apply wp_ret; split_and!; [done|done|done|by apply Hno]].
  destruct (sq_head_pop _ _ EH) as (l & El & _).
  pose proof (inv_sq _ HI) as HQ. rewrite El in HQ. apply Forall_app in HQ as [_ [HG _]%Forall_cons].
  destruct HG as (HF & HU & HE' & HSb & HB & HP). apply wp_bind, the_fec_wp; [done|].
  destruct (process_source_packet (fec_ pp) rd) as [ok rd1] eqn:E1.
  destruct (process_source_spec _ _ _ _ HE' HSb E1) as [F1 H1].
  pose proof (frame_inv _ _ HI F1) as HI1.
  assert (forall i p, src_item rd1 i <> Some (Some p)) as HE1
    by (intros i p Hp%(fr_src _ _ F1); by apply HE in Hp).
  assert (rd_next_packet rd1 = O) as HN1 by (rewrite (fr_next _ _ F1); done).
  destruct ok; cbn [negb].
  2: { apply wp_ret. split; [|split_and!; [apply F1|apply F1|by apply Hno]].
       split; [|by intros _]. destruct HI1. by split. }
  destruct (H1 eq_refl) as (Ha & Hb & Hc).
  assert (inv (set_cur_sbn (source_block_number (fec_ pp)) rd1)) as HI2.
  { destruct HI1 as [I1 I2 I3 I4 I5 I6 I7]. split; cbn; auto. intros i p Hp. by apply HE1 in Hp. }
  apply wp_bind. unfold drop_repair_packets_from_prev_blocks.
  eapply wp_mono; [apply drop_repair_wp; [done|cbn; lia]|]. intros rd2 (q & -> & HI3).
  destruct (0 <? _); apply wp_ret.
  - split; [|split_and!; [apply F1|apply F1|by apply Hno]]. split; [|by intros _].
    destruct HI3. by split.
  - split; [|split_and!; [apply F1|apply F1|by apply Hno]].
    split; [|done]. destruct HI3 as [I1 I2 I3 I4 I5 I6 I7]. split; cbn; auto.
    intros _. rewrite HN1. unfold src_size in *. cbn. lia.
Qed.

End Safe.

(** * The whole reader *)

Section SafeReader.

Context {D : Type} `{HD : IBlockDecoder D}.
Context (host : cpu_endian) (find_by_pt : Z -> option Z) (parser : IParser).
Context (max_sbn_jump : nat) (session_scheme : FecScheme).

Abbreviation QReader := (Reader (D := D) (RS := Queue) (RR := Queue)).

Lemma sq_write_good (P : Packet -> Prop) q p code q' :
  Forall P (sq_list q) -> P p -> sq_write q (Some p) = Ok (code, q') ->
  code = StatusOK /\ Forall P (sq_list q').
Proof.
  intros HQ HP. unfold sq_write. destruct (_ && _); [by intros [= <- <-]|].
  assert (forall l, Forall P l ->
    match sq_insert p l with Some l' => Forall P l' | None => True end) as HI.
  { induction l as [|x l IH]; intros Hl; cbn; [by constructor|].
    apply Forall_cons in Hl as [Hx Hl]. specialize (IH Hl). destruct (_ <? 0).
    - destruct (sq_insert p l); [by constructor|done].
    - destruct (_ =? 0); [done|]. by repeat constructor. }
  specialize (HI _ HQ). destruct (sq_insert p (sq_list q)); by intros [= <- <-].
Qed.

(** The packets waiting at the reader's two inputs are as parsers produce them. *)
Definition inputs_good (rd : QReader) : Prop :=
  Forall good (queue_list (rd_source_reader rd))
  /\ Forall good_repair (queue_list (rd_repair_reader rd)).

Definition safe (rd : QReader) : Prop := ready rd /\ inputs_good rd.

Lemma validate_fec_safe p rd :
  safe rd -> has_flags p FlagFEC = true ->
  wp (rd_validate_fec_packet session_scheme p rd) (fun '(ok, rd') =>
    (rd' = rd \/ rd' = set_alive false rd) /\ safe rd').
Proof.
  intros HS HF. unfold rd_validate_fec_packet, packet_fec. rewrite HF.
  destruct (decide _); apply wp_ret; [by auto|]. split; [by right|].
  destruct HS as [[HI Hid] [H1 H2]]. split; [|done]. split; [|done].
  by eapply frame_inv, frame_alive.
Qed.

(** Fetching keeps the position of the reader. *)
Definition same_position (rd rd' : QReader) : Prop :=
  rd_started rd' = rd_started rd /\ rd_cur_sbn rd' = rd_cur_sbn rd
  /\ rd_next_packet rd' = rd_next_packet rd /\ rd_source_block rd' = rd_source_block rd.

Lemma fetch_source_wp fuel rd :
  safe rd -> (queue_size (rd_source_reader rd) < fuel)%nat ->
  wp (fetch_source_loop session_scheme fuel rd)
    (fun '(code, rd') => code = StatusOK /\ safe rd' /\ same_position rd rd'
       /\ rd_repair_reader rd' = rd_repair_reader rd
       /\ (sq_size (rd_source_queue rd')
           <= sq_size (rd_source_queue rd) + queue_size (rd_source_reader rd))%nat).
Proof.
  revert rd. induction fuel as [|fuel IH]; intros rd HS Hf; [lia|]. cbn [fetch_source_loop].
  destruct (rd_source_reader rd) as [[|p l]] eqn:ER; apply wp_bind, wp_lift; cbn [read].
  - exists (StatusNoData, None, mkQueue []). split; [done|]. apply wp_ret.
    split; [done|]. split; [|split; [done|split; [done|cbn; lia]]].
    destruct HS as [[[] Hid] [H1 H2]]. split; [by split; [split|]|]. by split; [constructor|].
  - exists (StatusOK, Some p, mkQueue l). split; [done|].
    destruct HS as [[HI Hid] [H1 H2]]. rewrite ER in H1. cbn [queue_list] in H1.
    apply Forall_cons in H1 as [Hp H1].
    assert (safe (set_source_reader (mkQueue l) rd)) as HS1.
    { split; [|by split]. split; [|done]. destruct HI. by split. }
    apply wp_bind. eapply wp_mono; [apply validate_fec_safe; [done|apply Hp]|].
    intros [ok rd1] [Hrd1 HS2].
    assert (same_position rd rd1 /\ rd_repair_reader rd1 = rd_repair_reader rd
            /\ rd_source_queue rd1 = rd_source_queue rd /\ rd_source_reader rd1 = mkQueue l)
      as (HP1 & HR1 & HQ1 & HL1) by (by destruct Hrd1 as [->| ->]).
    rewrite ?ER in Hf. cbn in Hf.
    destruct ok; cbn [negb].
    2: { apply wp_ret. split_and!; try done. rewrite HQ1. lia. }
    destruct HS2 as [[HI2 Hid2] HG2].
    apply wp_bind, wp_lift. destruct (sq_write_total (rd_source_queue rd1) p) as [q EW].
    exists (StatusOK, q). split; [done|].
    destruct (sq_write_good good _ _ _ _ (inv_sq _ HI2) Hp EW) as [_ HQ].
    pose proof (sq_write_size _ _ _ _ EW) as Hsz. rewrite HQ1 in Hsz.
    eapply wp_mono; [apply IH|].
    + split; [|done]. split; [by apply set_source_queue_inv|done].
    + cbn. rewrite HL1. cbn. lia.
    + intros [c rd'] (-> & HS' & HP' & HR' & HZ'). split; [done|]. split; [done|].
      destruct HP1 as (? & ? & ? & ?), HP' as (? & ? & ? & ?). cbn in *. rewrite HL1 in HZ'. cbn in HZ'.
      split_and!; [by split_and!; congruence|congruence|rewrite ?ER; cbn; lia].
Qed.

Lemma fetch_repair_wp fuel rd :
  safe rd -> (queue_size (rd_repair_reader rd) < fuel)%nat ->
  wp (fetch_repair_loop session_scheme fuel rd)
    (fun '(code, rd') => code = StatusOK /\ safe rd' /\ same_position rd rd'
       /\ rd_source_queue rd' = rd_source_queue rd).
Proof.
  revert rd. induction fuel as [|fuel IH]; intros rd HS Hf; [lia|]. cbn [fetch_repair_loop].
  destruct (rd_repair_reader rd) as [[|p l]] eqn:ER; apply wp_bind, wp_lift; cbn [read].
  - exists (StatusNoData, None, mkQueue []). split; [done|]. apply wp_ret.
    split; [done|]. split; [|done].
    destruct HS as [[[] Hid] [H1 H2]]. split; [by split; [split|]|]. by split; [|constructor].
  - exists (StatusOK, Some p, mkQueue l). split; [done|].
    destruct HS as [[HI Hid] [H1 H2]]. rewrite ER in H2. cbn [queue_list] in H2.
    apply Forall_cons in H2 as [Hp H2].
    assert (safe (set_repair_reader (mkQueue l) rd)) as HS1.
    { split; [|by split]. split; [|done]. destruct HI. by split. }
    apply wp_bind. eapply wp_mono; [apply validate_fec_safe; [done|apply Hp]|].
    intros [ok rd1] [Hrd1 HS2].
    assert (same_position rd rd1 /\ rd_source_queue rd1 = rd_source_queue rd
            /\ rd_repair_reader rd1 = mkQueue l)
      as (HP1 & HQ1 & HL1) by (by destruct Hrd1 as [->| ->]).
    rewrite ?ER in Hf. cbn in Hf.
    destruct ok; cbn [negb]; [|by apply wp_ret].
    destruct HS2 as [[HI2 Hid2] HG2].
    apply wp_bind, wp_lift. destruct (sq_write_total (rd_repair_queue rd1) p) as [q EW].
    exists (StatusOK, q). split; [done|].
    destruct (sq_write_good good_repair _ _ _ _ (inv_rq _ HI2) Hp EW) as [_ HQ].
    eapply wp_mono; [apply IH|].
    + split; [|done]. split; [by apply set_repair_queue_inv|done].
    + cbn. rewrite HL1. cbn. lia.
    + intros [c rd'] (-> & HS' & HP' & HQ'). split; [done|]. split; [done|].
      destruct HP1 as (? & ? & ? & ?), HP' as (? & ? & ? & ?). cbn in *.
      split; [by split_and!; congruence|congruence].
Qed.

(** Fuel that is enough for one read. *)
Definition enough_fuel (rd : QReader) : nat :=
  S (S (sq_size (rd_source_queue rd) + queue_size (rd_source_reader rd))
     * S max_sbn_jump + queue_size (rd_repair_reader rd)).

(** [read_] *)
Lemma read_safe fuel rd B :
  Z.of_nat max_sbn_jump < 2 ^ 15 -> parser_ok host find_by_pt parser -> safe rd ->
  (enough_fuel rd <= fuel)%nat -> (rd_started rd = true -> rd_cur_sbn rd = u16 B) ->
  wp_or (dirty rd) (reader_read_ host find_by_pt parser max_sbn_jump session_scheme fuel rd)
    (fun '(code, pp, rd') => safe rd'
       /\ (rd_started rd = true ->
           rd_started rd' = true
           /\ exists B', B <= B' /\ rd_cur_sbn rd' = u16 B'
             /\ (B' = B -> (rd_next_packet rd <= rd_next_packet rd')%nat)
             /\ (rd_alive rd' = true ->
                 forall p, pp = Some p -> passed B (rd_next_packet rd) p B' rd'))).
Proof.
  intros HJ HP HS Hf HB0. unfold enough_fuel in Hf. unfold reader_read_, fetch_all_packets.
  apply wp_or_bind, wp_or_bind. eapply wp_or_wp; [apply fetch_source_wp; [done|nia]|].
  intros [c1 rd1] (-> & HS1 & (P1 & P2 & P3 & P4) & HR1 & HZ1).
  eapply wp_or_wp; [apply fetch_repair_wp; [done|rewrite HR1; nia]|].
  intros [c2 rd2] (-> & HS2 & (Q1 & Q2 & Q3 & Q4) & HQ2).
  assert (dirty rd2 -> dirty rd) as Hdirty by (unfold dirty, src_item; by rewrite Q4, P4).
  assert (rd_started rd2 = rd_started rd /\ rd_cur_sbn rd2 = rd_cur_sbn rd
          /\ rd_next_packet rd2 = rd_next_packet rd) as (R1 & R2 & R3) by (split_and!; congruence).
  destruct (rd_started rd2) eqn:ES; cbn [run_bind ret].
  - rewrite ES. cbn [negb].
    destruct HS2 as [[HI2 Hid2] [G1 G2]].
    assert (rd_cur_sbn rd2 = u16 B) as EB by (rewrite R2; auto).
    eapply wp_or_mono; [apply (get_next_packet_wp host find_by_pt parser max_sbn_jump HJ fuel rd2 B);
      [done..|rewrite HQ2; nia]|done|].
    intros [[code pp] rd3] HF3. split.
    + destruct HF3 as (HI3 & HS3 & [HIn1 HIn2] & _). split.
      * split; [done|]. unfold idle. congruence.
      * split; congruence.
    + intros _. destruct HF3 as (_ & HS3 & _ & H3). rewrite R3 in H3. split; [congruence|done].
  - apply wp_or_bind, wp_or_bind.
    eapply wp_or_wp; [apply (try_start_wp max_sbn_jump rd2); [apply HS2|done]|].
    intros [st rd3] (HR3 & EQ3 & [HIn1 HIn2] & Hclean3). cbn [wp_or ret].
    assert (safe (set_started st rd3)) as HS3.
    { split; [done|]. destruct HS2 as [_ [G1 G2]]. split; cbn; congruence. }
    change (rd_started (set_started st rd3)) with st. destruct st; cbn [negb].
    + destruct HS3 as [[HI3 Hid3] [G1 G2]].
      assert (rd_cur_sbn (set_started true rd3) = u16 (rd_cur_sbn (set_started true rd3))) as EB
        by (symmetry; apply wrap_u_small, HI3).
      eapply wp_or_mono; [apply (get_next_packet_wp host find_by_pt parser max_sbn_jump HJ fuel _
        _ HP HI3 eq_refl EB); cbn [rd_source_queue set_started]; rewrite EQ3, HQ2; nia|done|].
      intros [[code pp] rd4] (HI4 & HS4 & [HIn3 HIn4] & _). split; [|congruence].
      split; [split; [done|unfold idle; rewrite HS4; done]|]. split; congruence.
    + eapply wp_or_wp; [|intros ? H; exact H].
      apply wp_bind, wp_lift. destruct (sq_read_total (rd_source_queue (set_started false rd3)))
        as (code & pp & q & E & HQ). exists (code, pp, q). split; [done|].
      apply wp_ret. split; [|congruence]. destruct HS3 as [[HI3 Hid3] HG3].
      split; [|done]. split; [|done]. apply set_source_queue_inv; [done|].
      apply Forall_forall. intros x Hx. pose proof (inv_sq _ HI3) as HA.
      rewrite Forall_forall in HA. by apply HA, HQ.
Qed.

Lemma set_n_packets_safe n rd : safe rd -> safe (set_n_packets n rd).
Proof. intros [[[] Hid] HG]. by split; [split; [split|]|]. Qed.

(** One read, with the parser of repaired packets as a parameter. *)
Lemma read_any_parser (rd : QReader) (fuel : nat) (B : Z) :
  Z.of_nat max_sbn_jump < 2 ^ 15 -> parser_ok host find_by_pt parser -> safe rd ->
  (enough_fuel rd <= fuel)%nat -> (rd_started rd = true -> rd_cur_sbn rd = u16 B) ->
  wp_or (dirty rd) (reader_read host find_by_pt parser max_sbn_jump session_scheme fuel rd)
    (fun '(code, pp, rd') => safe rd'
       /\ (rd_started rd = true ->
        rd_started rd' = true
        /\ exists B', B <= B' /\ rd_cur_sbn rd' = u16 B'
           /\ (B' = B -> (rd_next_packet rd <= rd_next_packet rd')%nat)
           /\ forall p, pp = Some p -> passed B (rd_next_packet rd) p B' rd')).
Proof.
  intros HJ HP HS Hf HB0. unfold reader_read. destruct (rd_alive rd); cbn [negb].
  2: { split; [done|]. intros HT. split; [done|]. exists B.
       split_and!; [lia|auto|lia|done]. }
  apply wp_or_bind. eapply wp_or_mono; [by apply (read_safe fuel rd B)|done|].
  intros [[code pp] rd1] (HS1 & HO1).
  set (rd2 := match code with StatusOK => _ | _ => _ end).
  assert (safe rd2 /\ rd_started rd2 = rd_started rd1 /\ rd_cur_sbn rd2 = rd_cur_sbn rd1
          /\ rd_next_packet rd2 = rd_next_packet rd1 /\ rd_alive rd2 = rd_alive rd1)
    as (HS2 & E1 & E2 & E3 & E4).
  { subst rd2. by destruct code; split_and!; try done; apply set_n_packets_safe. }
  assert (rd_started rd = true -> rd_started rd2 = true
    /\ exists B', B <= B' /\ rd_cur_sbn rd2 = u16 B'
      /\ (B' = B -> (rd_next_packet rd <= rd_next_packet rd2)%nat)
      /\ (rd_alive rd2 = true -> forall p, pp = Some p -> passed B (rd_next_packet rd) p B' rd2))
    as HO2.
  { intros HT. destruct (HO1 HT) as (K1 & B' & K2 & K3 & K4 & K5).
    split; [congruence|]. exists B'. rewrite E2, E3, E4. split_and!; [done..|].
    unfold passed. rewrite E3. exact K5. }
  destruct (rd_alive rd2) eqn:EA; cbn [negb]; (split; [done|]); intros HT;
    destruct (HO2 HT) as (K1 & B' & K2 & K3 & K4 & K5); (split; [done|]); exists B';
    split_and!; auto; done.
Qed.

End SafeReader.

(** The encodings that are registered all have the flag of audio (encoding.cpp,
    encoding_map.cpp). *)
Definition encodings_audio (find_by_pt : Z -> option Z) : Prop :=
  forall pt fl, find_by_pt pt = Some fl -> fl = FlagAudio.

(** The parser that receiver_session.cpp passes to the reader. *)
Lemma rtp_parser_ok host find_by_pt :
  encodings_audio find_by_pt -> parser_ok host find_by_pt (RtpParser None).
Proof.
  intros HE buffer. unfold slice_whole.
  destruct (rtp_parse_any host find_by_pt (with_mem Packet_new buffer) 0 (length buffer)
    (length buffer)) as (ok & p & E & _ & HP); [done| |cbn; lia|].
  { by intros pt fl ->%HE. }
  exists ok, p. split; [done|]. intros Hok.
  destruct (HP Hok) as (_ & _ & _ & _ & _ & _ & _ & HB & pt & HF).
  rewrite HB. unfold has_flags. rewrite HF. unfold add_encoding.
  destruct (find_by_pt pt) as [fl|] eqn:Efl; [apply HE in Efl as ->|]; done.
Qed.


(** * A decoder for examples *)

(** It "repairs" the symbols of the given positions with the given bytes. *)
Record DemoDecoder : Type := mkDemoDecoder { repairs : list (nat * bytes) }.

Fixpoint assoc (n : nat) (l : list (nat * bytes)) : option bytes :=
  match l with
  | [] => None
  | (k, v) :: l => if (k =? n)%nat then Some v else assoc n l
  end.

#[global] Instance DemoDecoder_decoder : IBlockDecoder DemoDecoder := {|
  max_block_length _ := 255%nat;
  decoder_begin d _ _ _ := (true, d);
  decoder_set d _ _ := d;
  decoder_repair d n := (assoc n (repairs d), d);
  decoder_end d := d
|}.

(** A packet with the given FEC fields and a payload of one byte. *)
Definition fec_packet (sbn esi sblen blen : Z) : Packet :=
  with_fec (with_mem (with_flags Packet_new FlagFEC) [42])
    (mkFEC FEC_LDPC_Staircase esi sbn sblen blen slice_empty (mkSlice (Some 0%nat) 1 1)).

Abbreviation DemoReader := (Reader (D := DemoDecoder) (RS := Queue) (RR := Queue)).

Definition demo_fec_reader (d : list (nat * bytes)) (source repair : list Packet) : DemoReader :=
  reader_new (mkDemoDecoder d) (mkQueue source) (mkQueue repair) [].

Lemma demo_safe d source repair :
  Forall good source -> Forall good_repair repair -> safe (demo_fec_reader d source repair).
Proof.
  intros HS HR. split; [|by split]. split.
  - split; cbn; try done; try lia.
  - intros _. by split.
Qed.

(** Of the packets 0 to 2 of block 7 the first arrives; the decoder restores the second. *)
Definition demo_restoring : DemoReader :=
  demo_fec_reader [(1%nat, [0x80; 10; 0; 1; 0; 0; 0; 0; 0; 0; 0; 7])] [fec_packet 7 0 3 0]
    [fec_packet 7 3 3 4].


(** * Repair packets without a block length *)

Lemma process_repair_zero {D RS RR} `{IBlockDecoder D}
    (rd : Reader (D := D) (RS := RS) (RR := RR)) (f : FEC) :
  source_block_length f = Z.of_nat (ar_size (rd_source_block rd)) ->
  (0 < ar_size (rd_source_block rd))%nat -> source_block_length f <= encoding_symbol_id f ->
  block_length f = 0 -> sl_size (fec_payload f) = rd_payload_size rd ->
  (0 < rd_payload_size rd)%nat -> rd_repair_block_resized rd = false ->
  process_repair_packet f rd = Panic.
Proof.
  intros Esb Hs He Eb Ep Hp Hr. unfold process_repair_packet.
  assert (validate_incoming_repair_packet f = true) as ->.
  { unfold validate_incoming_repair_packet. rewrite Eb, Ep. cbn.
    rewrite (proj2 (Z.leb_le _ _)), (proj2 (Z.eqb_neq _ 0)), (proj2 (Nat.eqb_neq _ 0)) by lia. done. }
  unfold can_update_payload_size. rewrite Ep, Nat.eqb_refl. cbv zeta. cbn [negb].
  unfold can_update_source_block_size. cbv zeta. rewrite Esb, Nat2Z.id, Nat.eqb_refl. cbn [negb].
  unfold can_update_repair_block_size. cbv zeta. rewrite Eb, Hr. change (Z.to_nat 0) with 0%nat.
  rewrite (proj2 (Nat.eqb_neq 0 _)) by lia. change (?a <? 0)%nat with false. cbn [negb].
  unfold update_payload_size. rewrite Nat.eqb_refl. cbn [negb].
  unfold update_source_block_size. cbv zeta.
  change (rd_source_block (set_payload_resized true rd)) with (rd_source_block rd).
  rewrite Nat.eqb_refl. cbn [negb]. unfold update_repair_block_size. cbv zeta.
  change (rd_source_block (set_source_block_resized true (set_payload_resized true rd)))
    with (rd_source_block rd).
  rewrite (proj2 (Nat.eqb_neq 0 _)) by lia. done.
Qed.


(** A reader in the middle of block 7 with a repair packet of block length 0 queued. *)
Definition demo_zero_block : DemoReader :=
  set_repair_queue (mkSortedQueue [fec_packet 7 2 2 0] None 0)
    (set_source_block (mkArray [None; None] 2) (set_payload_size 1 (set_cur_sbn 7
      (demo_fec_reader [] [] [])))).


(** * Restored packets without a FEC part *)

Lemma set_packets_panic {D} `{IBlockDecoder D} items n (d : D) i p :
  items !! i = Some (Some p) -> has_flags p FlagFEC = false -> set_packets items n d = Panic.
Proof.
  revert n d i. induction items as [|x items IH]; intros n d [|i] Hp HF; [done|done|..]; cbn in Hp.
  - injection Hp as ->. cbn. unfold fec_payload_bytes, the_fec, packet_fec. by rewrite HF.
  - destruct x as [q|]; cbn; [|by eapply IH].
    destruct (fec_payload_bytes q) as [[bs|]|] eqn:E; cbn; [by eapply IH| |done].
    unfold fec_payload_bytes, the_fec, lift in E. destruct (packet_fec q); [|done]. cbn in E.
    by destruct (slice_data _).
Qed.

(** When the source block holds a packet without a FEC part, such as one restored
    with the RTP parser that the receiver passes to the reader, a further attempt to
    repair the block crashes. *)
Theorem fec_reader_restored_packet {D RS RR} `{IBlockDecoder D} (host : cpu_endian)
    (find_by_pt : Z -> option Z) (parser : IParser)
    (rd : Reader (D := D) (RS := RS) (RR := RR)) (i : nat) (p : Packet) :
  ar_items (rd_source_block rd) !! i = Some (Some p) -> has_flags p FlagFEC = false ->
  rd_can_repair rd = true -> rd_source_block_resized rd = true ->
  rd_repair_block_resized rd = true -> rd_payload_resized rd = true ->
  fst (decoder_begin (rd_decoder rd) (ar_size (rd_source_block rd))
         (ar_size (rd_repair_block rd)) (rd_payload_size rd)) = true ->
  try_repair host find_by_pt parser rd = Panic.
Proof.
  intros Hp HF H1 H2 H3 H4 H5. unfold try_repair. rewrite H1, H2, H3, H4. cbn [negb orb].
  destruct (decoder_begin _ _ _ _) as [ok d]. cbn in H5. subst ok. cbn [negb].
  change (rd_source_block (set_decoder d rd)) with (rd_source_block rd).
  by rewrite (set_packets_panic _ _ _ i p).
Qed.

(** The bytes of an RTP packet without payload. *)
Definition rtp_bytes : bytes := [0x80; 10; 0; 1; 0; 0; 0; 0; 0; 0; 0; 7].

(** Three reads of a block of four packets, of which the first arrives in time, the
    second can be repaired and the fourth arrives late. *)
Definition partial_repair_run : run (list StatusCode) :=
  let read rd := reader_read CPU_LE (fun _ => None) (RtpParser None) 100 FEC_LDPC_Staircase 1000 rd in
  let! '(c1, p1, rd) := read (demo_fec_reader [(1%nat, rtp_bytes)] [fec_packet 7 0 4 0]
                                 [fec_packet 7 4 4 5]) in
  let! '(c2, p2, rd) := read rd in
  let! '(c3, p3, rd) := read (set_source_reader (mkQueue [fec_packet 7 3 4 0]) rd) in
  ret [c1; c2; c3].

(** A reader whose block holds a packet without a FEC part. *)
Definition demo_restored : DemoReader :=
  set_source_block (mkArray [Some Packet_new; None] 2) (set_can_repair true
    (set_source_block_resized true (set_repair_block_resized true (set_payload_resized true
      (demo_fec_reader [] [] []))))).

Lemma fec_reader_restored_packet_witness :
  try_repair CPU_LE (fun _ => None) (RtpParser None) demo_restored = Panic
  /\ partial_repair_run = Panic.
Proof.
  split; [|vm_compute; reflexivity].
  by apply (fec_reader_restored_packet CPU_LE (fun _ => None) (RtpParser None) _ 0 Packet_new).
Defined.
