(* ===== verification/FecWriter.v ===== *)
(** The FEC writer (src/internal_modules/roc_fec/writer.cpp): numbers the source packets
    of a stream block by block, passes them on, and after each block adds the repair
    packets that the block encoder computes.

    The encoder (IBlockEncoder, implemented on top of the OpenFEC library) keeps
    references to the payloads it is given and reads and writes them in [fill]; the model
    gives [fill] the bytes the payloads have at that moment.  A source packet is composed
    after its payload is given to the encoder, so what the encoder reads is the composed
    payload.  Components behind the writer do not change the payload of a packet they are
    given.  The packet factory (packet_factory.cpp) allocates from pools that may be
    exhausted. *)

From S2P Require Import Prelude Units Bytes Slice Packet Io RtpHeaders FecHeaders.
From S2P Require Import Compose FecReader.

(** * Interfaces *)

Class IBlockEncoder (E : Type) : Type := {
  encoder_alignment : E -> nat;
  encoder_max_block_length : E -> nat;
  encoder_begin : E -> nat -> nat -> nat -> bool * E;
  encoder_set : E -> nat -> Slice -> res E;
  encoder_fill : E -> (nat -> option bytes) -> res ((nat -> bytes) * E);
  encoder_end : E -> E
}.

(** [new_packet] and [new_packet_buffer]: whether there is a packet object, and the
    content of a fresh buffer. *)
Class IPacketFactory (F : Type) : Type := {
  new_packet : F -> bool * F;
  new_packet_buffer : F -> option bytes * F
}.

Section Writer.

Context {E F W : Type} `{HE : IBlockEncoder E} `{HF : IPacketFactory F} `{HW : IWriter W}.

(** The composers and the scheme are fixed at construction; [buf_addr] is the address of
    the data of a packet buffer. *)
Context (host : cpu_endian) (source_composer repair_composer : IComposer).
Context (session_scheme : FecScheme) (buf_addr : nat).

(** * State *)

Record Writer : Type := mkWriter {
  wr_cur_sblen : nat;
  wr_next_sblen : nat;
  wr_cur_rblen : nat;
  wr_next_rblen : nat;
  wr_cur_payload_size : nat;
  wr_encoder : E;
  wr_writer : W;
  wr_factory : F;
  wr_repair_block : PacketArray;
  wr_first_packet : bool;
  wr_cur_sbn : Z;                 (* uint16_t *)
  wr_cur_block_repair_sn : Z;     (* uint16_t *)
  wr_cur_packet : nat;
  wr_valid : bool;
  wr_alive : bool;
  wr_alloc : list bool;
  (** the payloads of the current block's source packets, to which the encoder refers *)
  wr_source_payloads : list bytes
}.

Definition wr_set_encoder (x : E) (w : Writer) : Writer :=
  mkWriter (wr_cur_sblen w) (wr_next_sblen w) (wr_cur_rblen w) (wr_next_rblen w)
    (wr_cur_payload_size w) x (wr_writer w) (wr_factory w) (wr_repair_block w)
    (wr_first_packet w) (wr_cur_sbn w) (wr_cur_block_repair_sn w) (wr_cur_packet w)
    (wr_valid w) (wr_alive w) (wr_alloc w) (wr_source_payloads w).

Definition wr_set_writer (x : W) (w : Writer) : Writer :=
  mkWriter (wr_cur_sblen w) (wr_next_sblen w) (wr_cur_rblen w) (wr_next_rblen w)
    (wr_cur_payload_size w) (wr_encoder w) x (wr_factory w) (wr_repair_block w)
    (wr_first_packet w) (wr_cur_sbn w) (wr_cur_block_repair_sn w) (wr_cur_packet w)
    (wr_valid w) (wr_alive w) (wr_alloc w) (wr_source_payloads w).

Definition wr_set_factory (x : F) (w : Writer) : Writer :=
  mkWriter (wr_cur_sblen w) (wr_next_sblen w) (wr_cur_rblen w) (wr_next_rblen w)
    (wr_cur_payload_size w) (wr_encoder w) (wr_writer w) x (wr_repair_block w)
    (wr_first_packet w) (wr_cur_sbn w) (wr_cur_block_repair_sn w) (wr_cur_packet w)
    (wr_valid w) (wr_alive w) (wr_alloc w) (wr_source_payloads w).

Definition wr_set_repair_block (x : PacketArray) (w : Writer) : Writer :=
  mkWriter (wr_cur_sblen w) (wr_next_sblen w) (wr_cur_rblen w) (wr_next_rblen w)
    (wr_cur_payload_size w) (wr_encoder w) (wr_writer w) (wr_factory w) x
    (wr_first_packet w) (wr_cur_sbn w) (wr_cur_block_repair_sn w) (wr_cur_packet w)
    (wr_valid w) (wr_alive w) (wr_alloc w) (wr_source_payloads w).

Definition wr_set_alive (x : bool) (w : Writer) : Writer :=
  mkWriter (wr_cur_sblen w) (wr_next_sblen w) (wr_cur_rblen w) (wr_next_rblen w)
    (wr_cur_payload_size w) (wr_encoder w) (wr_writer w) (wr_factory w) (wr_repair_block w)
    (wr_first_packet w) (wr_cur_sbn w) (wr_cur_block_repair_sn w) (wr_cur_packet w)
    (wr_valid w) x (wr_alloc w) (wr_source_payloads w).

Definition wr_set_first_packet (x : bool) (w : Writer) : Writer :=
  mkWriter (wr_cur_sblen w) (wr_next_sblen w) (wr_cur_rblen w) (wr_next_rblen w)
    (wr_cur_payload_size w) (wr_encoder w) (wr_writer w) (wr_factory w) (wr_repair_block w)
    x (wr_cur_sbn w) (wr_cur_block_repair_sn w) (wr_cur_packet w)
    (wr_valid w) (wr_alive w) (wr_alloc w) (wr_source_payloads w).

Definition wr_set_alloc (x : list bool) (w : Writer) : Writer :=
  mkWriter (wr_cur_sblen w) (wr_next_sblen w) (wr_cur_rblen w) (wr_next_rblen w)
    (wr_cur_payload_size w) (wr_encoder w) (wr_writer w) (wr_factory w) (wr_repair_block w)
    (wr_first_packet w) (wr_cur_sbn w) (wr_cur_block_repair_sn w) (wr_cur_packet w)
    (wr_valid w) (wr_alive w) x (wr_source_payloads w).

(** The position in the block and the payloads of its source packets. *)
Definition wr_set_position (n : nat) (payloads : list bytes) (w : Writer) : Writer :=
  mkWriter (wr_cur_sblen w) (wr_next_sblen w) (wr_cur_rblen w) (wr_next_rblen w)
    (wr_cur_payload_size w) (wr_encoder w) (wr_writer w) (wr_factory w) (wr_repair_block w)
    (wr_first_packet w) (wr_cur_sbn w) (wr_cur_block_repair_sn w) n
    (wr_valid w) (wr_alive w) (wr_alloc w) payloads.

Definition wr_set_sizes (sblen rblen payload_size : nat) (w : Writer) : Writer :=
  mkWriter sblen (wr_next_sblen w) rblen (wr_next_rblen w)
    payload_size (wr_encoder w) (wr_writer w) (wr_factory w) (wr_repair_block w)
    (wr_first_packet w) (wr_cur_sbn w) (wr_cur_block_repair_sn w) (wr_cur_packet w)
    (wr_valid w) (wr_alive w) (wr_alloc w) (wr_source_payloads w).

(** [resize] *)
Definition writer_resize (sblen rblen : nat) (w : Writer) : bool * Writer :=
  if (wr_next_sblen w =? sblen)%nat && (wr_next_rblen w =? rblen)%nat then (true, w)
  else if (sblen =? 0)%nat then (false, w)
  else if (encoder_max_block_length (wr_encoder w) <? sblen + rblen)%nat then (false, w)
  else
    (true,
     mkWriter (wr_cur_sblen w) sblen (wr_cur_rblen w) rblen
       (wr_cur_payload_size w) (wr_encoder w) (wr_writer w) (wr_factory w) (wr_repair_block w)
       (wr_first_packet w) (wr_cur_sbn w) (wr_cur_block_repair_sn w) (wr_cur_packet w)
       (wr_valid w) (wr_alive w) (wr_alloc w) (wr_source_payloads w)).

(** The constructor; [sbn] and [repair_sn] are the two random numbers it draws. *)
Definition writer_new (n_source_packets n_repair_packets : nat) (encoder : E) (writer : W)
    (factory : F) (alloc : list bool) (sbn repair_sn : Z) : Writer :=
  let '(ok, w) := writer_resize n_source_packets n_repair_packets
    (mkWriter 0 0 0 0 0 encoder writer factory (mkArray [] 0) true (u16 sbn) (u16 repair_sn) 0
       false true alloc []) in
  mkWriter (wr_cur_sblen w) (wr_next_sblen w) (wr_cur_rblen w) (wr_next_rblen w)
    (wr_cur_payload_size w) (wr_encoder w) (wr_writer w) (wr_factory w) (wr_repair_block w)
    (wr_first_packet w) (wr_cur_sbn w) (wr_cur_block_repair_sn w) (wr_cur_packet w)
    ok (wr_alive w) (wr_alloc w) (wr_source_payloads w).

(** * Packets *)

(** [fill_packet_fec_fields_] *)
Definition fill_packet_fec_fields (pp : Packet) (pack_n : Z) (w : Writer) : Packet :=
  let f := fec_ pp in
  with_fec pp
    (mkFEC (fec_scheme f) pack_n (wr_cur_sbn w) (Z.of_nat (wr_cur_sblen w))
       (Z.of_nat (wr_cur_sblen w + wr_cur_rblen w)) (fec_payload_id f) (fec_payload f)).

Definition wr_validate_fec_packet (pp : Packet) : res FEC :=
  panic_if (negb (has_flags pp FlagPrepared))
    (panic_if (has_flags pp FlagComposed)
       (match packet_fec pp with
        | None => Panic
        | Some f => if decide (fec_scheme f = session_scheme) then Ok f else Panic
        end)).

(** * Blocks *)

Definition apply_sizes (sblen rblen payload_size : nat) (w : Writer) : bool * Writer :=
  if (payload_size =? 0)%nat then (false, wr_set_alive false w)
  else
    let '(ok, w) :=
      if negb (ar_size (wr_repair_block w) =? rblen)%nat then
        let '(ok, a, alloc) := ar_resize (wr_repair_block w) rblen (wr_alloc w) in
        (ok, wr_set_alloc alloc (wr_set_repair_block a w))
      else (true, w) in
    if negb ok then (false, wr_set_alive false w)
    else (true, wr_set_sizes sblen rblen payload_size w).

Definition begin_block (f : FEC) (w : Writer) : bool * Writer :=
  let '(ok, w) :=
    apply_sizes (wr_next_sblen w) (wr_next_rblen w) (sl_size (fec_payload f)) w in
  if negb ok then (false, w)
  else
    let '(ok, encoder) :=
      encoder_begin (wr_encoder w) (wr_cur_sblen w) (wr_cur_rblen w) (wr_cur_payload_size w) in
    let w := wr_set_encoder encoder w in
    if ok then (true, w) else (false, wr_set_alive false w).

(** [make_repair_packet_]: the packet, when everything it needs can be had. *)
Definition make_repair_packet (pack_n : Z) (w : Writer) : res (PacketPtr * Writer) :=
  let '(ok, factory) := new_packet (wr_factory w) in
  let w := wr_set_factory factory w in
  if negb ok then Ok (None, w)
  else
    let '(mem, factory) := new_packet_buffer (wr_factory w) in
    let w := wr_set_factory factory w in
    match mem with
    | None => Ok (None, w)
    | Some mem =>
        let* '(ok, buffer) :=
          composer_align repair_composer buf_addr (slice_whole (length mem)) 0
            (encoder_alignment (wr_encoder w)) in
        if negb ok then Ok (None, w)
        else
          let* '(ok, packet, buffer) :=
            composer_prepare repair_composer (with_mem Packet_new mem) buffer
              (wr_cur_payload_size w) in
          if negb ok then Ok (None, w)
          else
            let* packet := add_flags packet FlagPrepared in
            let* packet := set_buffer packet buffer in
            let* _ := wr_validate_fec_packet packet in
            Ok (Some (fill_packet_fec_fields packet (u16 (u16 (Z.of_nat (wr_cur_sblen w)) + pack_n)) w),
                w)
    end.

(** The loops over the repair block, from index [i] with [n] packets to go. *)
Fixpoint make_repair_packets (n i : nat) (w : Writer) : res Writer :=
  match n with
  | O => Ok w
  | S n =>
      let* '(rp, w) := make_repair_packet (u16 (Z.of_nat i)) w in
      match rp with
      | None => make_repair_packets n (S i) w
      | Some _ =>
          let* items := array_set (ar_items (wr_repair_block w)) i rp in
          make_repair_packets n (S i)
            (wr_set_repair_block (mkArray items (ar_cap (wr_repair_block w))) w)
      end
  end.

Fixpoint set_repair_packets (n i : nat) (w : Writer) : res Writer :=
  match n with
  | O => Ok w
  | S n =>
      let* rp := array_get (ar_items (wr_repair_block w)) i in
      match rp with
      | None => set_repair_packets n (S i) w
      | Some rp =>
          match packet_fec rp with
          | None => Panic
          | Some f =>
              let* encoder := encoder_set (wr_encoder w) (wr_cur_sblen w + i) (fec_payload f) in
              set_repair_packets n (S i) (wr_set_encoder encoder w)
          end
      end
  end.

(** The bytes of a packet's FEC payload. *)
Definition payload_bytes (p : Packet) : bytes :=
  match sl_data (fec_payload (fec_ p)) with
  | Some d => slice_of (pkt_mem p) d (sl_size (fec_payload (fec_ p)))
  | None => []
  end.

(** The buffers of the block as [encoder_.fill()] sees them. *)
Definition block_memory (w : Writer) (i : nat) : option bytes :=
  if (i <? wr_cur_sblen w)%nat then wr_source_payloads w !! i
  else match ar_items (wr_repair_block w) !! (i - wr_cur_sblen w)%nat with
       | Some (Some rp) => Some (payload_bytes rp)
       | _ => None
       end.

(** The packet after [fill] has stored [bs] in its payload. *)
Definition store_payload (bs : bytes) (p : Packet) : Packet :=
  match sl_data (fec_payload (fec_ p)) with
  | Some d => with_mem p (overwrite (pkt_mem p) d bs)
  | None => p
  end.

Definition encode_repair_packets (w : Writer) : res Writer :=
  let* w := set_repair_packets (wr_cur_rblen w) 0 w in
  let* '(filled, encoder) := encoder_fill (wr_encoder w) (block_memory w) in
  let items := imap (fun i rp => store_payload (filled (wr_cur_sblen w + i)%nat) <$> rp)
                 (ar_items (wr_repair_block w)) in
  Ok (wr_set_repair_block (mkArray items (ar_cap (wr_repair_block w)))
        (wr_set_encoder encoder w)).

Fixpoint compose_repair_packets (n i : nat) (w : Writer) : res Writer :=
  match n with
  | O => Ok w
  | S n =>
      let* rp := array_get (ar_items (wr_repair_block w)) i in
      match rp with
      | None => compose_repair_packets n (S i) w
      | Some rp =>
          let* '(ok, rp) := composer_compose host repair_composer rp in
          panic_if (negb ok)
            (let* rp := add_flags rp FlagComposed in
             let* items := array_set (ar_items (wr_repair_block w)) i (Some rp) in
             compose_repair_packets n (S i)
               (wr_set_repair_block (mkArray items (ar_cap (wr_repair_block w))) w))
      end
  end.

Fixpoint write_repair_packets (n i : nat) (w : Writer) : res Writer :=
  match n with
  | O => Ok w
  | S n =>
      let* rp := array_get (ar_items (wr_repair_block w)) i in
      match rp with
      | None => write_repair_packets n (S i) w
      | Some rp =>
          let* '(code, writer) := write (wr_writer w) (Some rp) in
          panic_if (bool_decide (code <> StatusOK))
            (let* items := array_set (ar_items (wr_repair_block w)) i None in
             write_repair_packets n (S i)
               (wr_set_repair_block (mkArray items (ar_cap (wr_repair_block w)))
                  (wr_set_writer writer w)))
      end
  end.

Definition end_block (w : Writer) : res Writer :=
  let* w := make_repair_packets (wr_cur_rblen w) 0 w in
  let* w := encode_repair_packets w in
  let* w := compose_repair_packets (wr_cur_rblen w) 0 w in
  let* w := write_repair_packets (wr_cur_rblen w) 0 w in
  Ok (wr_set_encoder (encoder_end (wr_encoder w)) w).

Definition next_block (w : Writer) : Writer :=
  mkWriter (wr_cur_sblen w) (wr_next_sblen w) (wr_cur_rblen w) (wr_next_rblen w)
    (wr_cur_payload_size w) (wr_encoder w) (wr_writer w) (wr_factory w) (wr_repair_block w)
    (wr_first_packet w) (u16 (wr_cur_sbn w + 1))
    (u16 (wr_cur_block_repair_sn w + u16 (Z.of_nat (wr_cur_rblen w)))) 0
    (wr_valid w) (wr_alive w) (wr_alloc w) [].

(** * Writing *)

Definition validate_source_packet (f : FEC) (w : Writer) : bool * Writer :=
  if negb (sl_size (fec_payload f) =? wr_cur_payload_size w)%nat
  then (false, wr_set_alive false w) else (true, w).

Definition write_source_packet (pp : Packet) (w : Writer) : res (StatusCode * Writer) :=
  let* encoder := encoder_set (wr_encoder w) (wr_cur_packet w) (fec_payload (fec_ pp)) in
  let w := wr_set_encoder encoder w in
  let pp := fill_packet_fec_fields pp (u16 (Z.of_nat (wr_cur_packet w))) w in
  let* '(ok, pp) := composer_compose host source_composer pp in
  panic_if (negb ok)
    (let* pp := add_flags pp FlagComposed in
     let* '(code, writer) := write (wr_writer w) (Some pp) in
     Ok (code,
         wr_set_position (wr_cur_packet w) (wr_source_payloads w ++ [payload_bytes pp])
           (wr_set_writer writer w))).

Definition writer_write (w : Writer) (pp : PacketPtr) : res (StatusCode * Writer) :=
  panic_if (negb (wr_valid w))
    (match pp with
     | None => Panic
     | Some pp =>
         if negb (wr_alive w) then Ok (StatusOK, w)
         else
           let* f := wr_validate_fec_packet pp in
           let w := if wr_first_packet w then wr_set_first_packet false w else w in
           let '(ok, w) := if (wr_cur_packet w =? 0)%nat then begin_block f w else (true, w) in
           if negb ok then Ok (StatusOK, w)
           else
             let '(ok, w) := validate_source_packet f w in
             if negb ok then Ok (StatusOK, w)
             else
               let* '(code, w) := write_source_packet pp w in
               panic_if (bool_decide (code <> StatusOK))
                 (let w := wr_set_position (S (wr_cur_packet w)) (wr_source_payloads w) w in
                  if (wr_cur_packet w =? wr_cur_sblen w)%nat then
                    let* w := end_block w in Ok (StatusOK, next_block w)
                  else Ok (StatusOK, w))
     end).

#[global] Instance Writer_writer : IWriter Writer := writer_write.

End Writer.
