(* ===== verification/FecWriterStream.v ===== *)
(** What the FEC writer of FecWriter.v sends: every source packet, numbered within its
    block and composed, and behind each block the repair packets computed from the
    composed payloads of the block. *)

From S2P Require Import Prelude Units Bytes Slice Packet Io RtpHeaders FecHeaders.
From S2P Require Import Compose Wire FecReader FecWriter.

(** * What the writer relies on *)

(** A block encoder: [enc_code k r n srcs j] is the [j]-th repair payload of a block with
    source payloads [srcs].  It accepts blocks of up to [encoder_max_block_length]
    packets, and payloads that are aligned as it asks. *)
Class BlockEncoder (E : Type) `{IBlockEncoder E} (buf_addr : nat) : Type := {
  enc_code : nat -> nat -> nat -> list bytes -> nat -> bytes;
  enc_sizes : E -> nat * nat * nat;
  enc_limits e := (encoder_max_block_length e, encoder_alignment e);
  enc_begin_ok e k r n :
    (0 < k)%nat -> (k + r <= encoder_max_block_length e)%nat -> (0 < n)%nat ->
    exists e', encoder_begin e k r n = (true, e') /\ enc_sizes e' = (k, r, n)
               /\ enc_limits e' = enc_limits e;
  enc_set_ok e k r n i d cap :
    enc_sizes e = (k, r, n) -> (i < k + r)%nat ->
    ((buf_addr + d) mod encoder_alignment e = 0)%nat ->
    exists e', encoder_set e i (mkSlice (Some d) n cap) = Ok e' /\ enc_sizes e' = (k, r, n)
               /\ enc_limits e' = enc_limits e;
  enc_fill_ok e k r n mem srcs :
    enc_sizes e = (k, r, n) -> length srcs = k ->
    (forall i s, srcs !! i = Some s -> mem i = Some s /\ length s = n) ->
    (forall j, (j < r)%nat -> exists s, mem (k + j)%nat = Some s /\ length s = n) ->
    exists f e', encoder_fill e mem = Ok (f, e')
                 /\ (forall j, (j < r)%nat -> f (k + j)%nat = enc_code k r n srcs j)
                 /\ enc_limits e' = enc_limits e;
  enc_code_length k r n srcs j : (j < r)%nat -> length (enc_code k r n srcs j) = n;
  enc_end_ok e : enc_limits (encoder_end e) = enc_limits e
}.

(** A packet factory that never runs out and whose buffers hold at least [size] bytes. *)
Class SupplyingFactory (F : Type) `{IPacketFactory F} (size : nat) : Prop := {
  factory_packet f : exists f', new_packet f = (true, f');
  factory_buffer f : exists m f', new_packet_buffer f = (Some m, f') /\ (size <= length m)%nat
}.

Lemma length_rtp_written m b rt pd :
  (b + 12 <= length m)%nat -> (pd + sl_size (rtp_padding rt) <= length m)%nat ->
  length (rtp_written m b rt pd) = length m.
Proof.
  intros H1 H2. unfold rtp_written.
  assert (length (overwrite m b (rtp_wire_header rt (0 <? sl_size (rtp_padding rt))%nat)) = length m)
    as E by (rewrite length_overwrite; rewrite ?length_rtp_wire_header; lia).
  cbv zeta. rewrite length_overwrite; rewrite ?length_padding_wire; lia.
Qed.

Section Stream.

Context {E F W : Type} (host : cpu_endian) (pid_s pid_r : PayloadID) (buf_addr : nat).
Context (k r psz align : nat).
Context `{HE : BlockEncoder E buf_addr} `{HW : FifoWriter W}.
Context `{HF : SupplyingFactory F (pad_as (pid_size pid_r) align + pid_size pid_r + psz)}.

Abbreviation source_composer := (FecComposer pid_s Source Footer (Some (RtpComposer None))).
Abbreviation repair_composer := (FecComposer pid_r Repair Header None).
Abbreviation scheme := (pid_fec_scheme pid_s).
Abbreviation Writer := (Writer (E := E) (F := F) (W := W)).

(** * Source packets *)

(** The start of the FEC payload of a packet, and of its RTP padding. *)
Definition payload_start (p : Packet) : nat := default 0%nat (sl_data (fec_payload (fec_ p))).

Definition padding_start (p : Packet) : nat :=
  default (payload_start p + 12)%nat (sl_data (rtp_padding (rtp_ p))).

(** A packet as the packetizer hands it over: prepared by the source composer, with a FEC
    payload of [psz] bytes in which the RTP header, payload and padding lie, and the
    payload id behind it. *)
Record source_packet (p : Packet) : Prop := {
  sp_prepared : has_flags p FlagPrepared = true;
  sp_composed : has_flags p FlagComposed = false;
  sp_fec : has_flags p FlagFEC = true;
  sp_rtp : has_flags p FlagRTP = true;
  sp_scheme : fec_scheme (fec_ p) = scheme;
  sp_valid : rtp_valid (rtp_ p);
  sp_layout : rtp_layout (pkt_mem p) (rtp_ p) (payload_start p) (padding_start p);
  sp_payload : exists cap, fec_payload (fec_ p) = mkSlice (Some (payload_start p)) psz cap;
  sp_id_data : sl_data (fec_payload_id (fec_ p)) = Some (payload_start p + psz)%nat;
  sp_id_size : sl_size (fec_payload_id (fec_ p)) = pid_size pid_s;
  sp_inside : (payload_start p + psz + pid_size pid_s <= length (pkt_mem p))%nat;
  sp_aligned : ((buf_addr + payload_start p) mod align = 0)%nat
}.

Definition position (f : FEC) (sbn : Z) (esi : nat) : FEC :=
  mkFEC (fec_scheme f) (Z.of_nat esi) sbn (Z.of_nat k) (Z.of_nat (k + r))
    (fec_payload_id f) (fec_payload f).

(** The packet as it is sent: at position [i] of block [sbn], with the payload id and the
    RTP header in place. *)
Definition sent_source (sbn : Z) (i : nat) (p : Packet) : Packet :=
  let p' := with_fec p (position (fec_ p) sbn i) in
  let m := overwrite (pkt_mem p) (payload_start p + psz) (pid_wire pid_s (fec_ p')) in
  with_flags (with_mem p' (rtp_written m (payload_start p) (rtp_ p) (padding_start p)))
    (Z.lor (flags_ p) FlagComposed).

(** * Repair packets *)

(** A repair packet at [d], number [j] of block [sbn], before it is composed. *)
Record made_repair (sbn : Z) (j : nat) (q : Packet) : Prop := {
  mr_flags : flags_ q = Z.lor (Z.lor FlagRepair FlagFEC) FlagPrepared;
  mr_fields : exists d cap,
    fec_ q = mkFEC (pid_fec_scheme pid_r) (Z.of_nat (k + j)) sbn (Z.of_nat k) (Z.of_nat (k + r))
               (mkSlice (Some d) (pid_size pid_r) cap)
               (mkSlice (Some (d + pid_size pid_r)%nat) psz cap)
    /\ buffer_ q = mkSlice (Some d) (pid_size pid_r + psz) cap
    /\ (d + pid_size pid_r + psz <= length (pkt_mem q))%nat
    /\ ((buf_addr + (d + pid_size pid_r)) mod align = 0)%nat
}.

(** The packet as it is sent, with the payload [bs]: its buffer holds the payload id and
    the payload. *)
Record sent_repair (sbn : Z) (j : nat) (bs : bytes) (q : Packet) : Prop := {
  sr_flags : flags_ q = Z.lor (Z.lor (Z.lor FlagRepair FlagFEC) FlagPrepared) FlagComposed;
  sr_esi : encoding_symbol_id (fec_ q) = Z.of_nat (k + j);
  sr_sbn : source_block_number (fec_ q) = sbn;
  sr_sblen : source_block_length (fec_ q) = Z.of_nat k;
  sr_blen : block_length (fec_ q) = Z.of_nat (k + r);
  sr_wire : exists d,
    sl_data (buffer_ q) = Some d
    /\ slice_of (pkt_mem q) d (sl_size (buffer_ q)) = pid_wire pid_r (fec_ q) ++ bs
}.

(** * The stream *)

(** [stream sbn i srcs ps out]: with [i] packets of block [sbn], of payloads [srcs], sent
    so far, the packets [ps] are sent as [out]. *)
Inductive stream : Z -> nat -> list bytes -> list Packet -> list Packet -> Prop :=
| stream_nil sbn i srcs : stream sbn i srcs [] []
| stream_source sbn i srcs p ps out :
    (S i < k)%nat ->
    stream sbn (S i) (srcs ++ [payload_bytes (sent_source sbn i p)]) ps out ->
    stream sbn i srcs (p :: ps) (sent_source sbn i p :: out)
| stream_block sbn i srcs p ps rs out :
    S i = k -> length rs = r ->
    (forall j q, rs !! j = Some q ->
       sent_repair sbn j
         (enc_code k r psz (srcs ++ [payload_bytes (sent_source sbn i p)]) j) q) ->
    stream (u16 (sbn + 1)) 0 [] ps out ->
    stream sbn i srcs (p :: ps) (sent_source sbn i p :: rs ++ out).

(** * Sizes and limits *)

(** Blocks of [k] and [r] packets can be numbered in the fields of the payload ids. *)
Definition block_fits (pid : PayloadID) : Prop :=
  Z.of_nat (k + r) <= match pid with RS8M_PayloadID => 2 ^ 8 | _ => 2 ^ 16 - 1 end.

#[global] Instance block_fits_dec pid : Decision (block_fits pid).
Proof. unfold block_fits. apply _. Defined.

Context (Hk : (0 < k)%nat) (Hpsz : (0 < psz)%nat) (Halign : (0 < align)%nat).
Context (Haddr : (buf_addr mod align = 0)%nat).
Context (Hfit_s : block_fits pid_s) (Hfit_r : block_fits pid_r).
Context (Hscheme : pid_fec_scheme pid_r = scheme).

Lemma block_fits_valid pid f sbn esi :
  block_fits pid -> is_u 16 sbn -> (esi < k + r)%nat -> fec_valid pid (position f sbn esi).
Proof.
  unfold block_fits, fec_valid, is_u. intros Hf Hs He. cbn. destruct pid; lia.
Qed.

Lemma pad_as_aligned size : ((size + pad_as size align) mod align = 0)%nat.
Proof.
  unfold pad_as. rewrite (proj2 (Nat.eqb_neq align 0)) by lia. cbv zeta.
  pose proof (Nat.div_mod_eq size align). pose proof (Nat.mod_upper_bound size align ltac:(lia)).
  destruct (Nat.ltb_spec (size / align * align) size) as [Hlt|Hge].
  - replace (size + _)%nat with ((size / align + 1) * align)%nat by lia.
    apply Nat.Div0.mod_mul.
  - replace (size + _)%nat with (size / align * align)%nat by lia. apply Nat.Div0.mod_mul.
Qed.

Lemma aligned_add a : (a mod align = 0)%nat -> ((buf_addr + a) mod align = 0)%nat.
Proof. intros Ha. by rewrite Nat.Div0.add_mod, Haddr, Ha, Nat.Div0.mod_0_l. Qed.

(** * Composing one packet *)

Lemma compose_source sbn i p :
  source_packet p -> is_u 16 sbn -> (i < k + r)%nat ->
  exists p',
    composer_compose host source_composer (with_fec p (position (fec_ p) sbn i)) = Ok (true, p')
    /\ add_flags p' FlagComposed = Ok (sent_source sbn i p).
Proof.
  intros HP Hs Hi. destruct HP. eexists. split.
  - rewrite (fec_compose_wire host pid_s Source Footer _ _ (payload_start p + psz));
      [|done|by apply block_fits_valid|done|done|cbn; lia].
    cbv zeta. rewrite (rtp_compose_wire host None _ (payload_start p) (padding_start p));
      [reflexivity|done|done|].
    destruct sp_layout0 as (L1 & L2 & L3 & L4 & L5 & L6). repeat split; try done.
    cbn. rewrite length_overwrite; [done|]. rewrite length_pid_wire. lia.
  - by rewrite add_flags_ok.
Qed.

(** The payload of the packet that is sent still has [psz] bytes. *)
Lemma sent_payload_length sbn i p :
  source_packet p -> length (payload_bytes (sent_source sbn i p)) = psz.
Proof.
  intros HP. destruct HP. destruct sp_payload0 as [cap Hp].
  destruct sp_layout0 as (L1 & L2 & L3 & L4 & L5 & L6).
  unfold payload_bytes. change (fec_payload (fec_ (sent_source sbn i p))) with (fec_payload (fec_ p)).
  rewrite Hp. cbn [sl_data sl_size]. rewrite length_slice_of; [done|].
  cbn [sent_source pkt_mem with_flags with_mem]. rewrite length_rtp_written;
    rewrite length_overwrite; rewrite ?length_pid_wire; lia.
Qed.

(** * States between writes *)

(** The sizes of the current block are in effect. *)
Record in_block (sbn : Z) (i : nat) (srcs : list bytes) (w : Writer) : Prop := {
  ib_sblen : wr_cur_sblen w = k;
  ib_rblen : wr_cur_rblen w = r;
  ib_psz : wr_cur_payload_size w = psz;
  ib_enc : enc_sizes (wr_encoder w) = (k, r, psz);
  ib_pos : wr_cur_packet w = i;
  ib_srcs : wr_source_payloads w = srcs;
  ib_len : length srcs = i;
  ib_sizes : Forall (fun s => length s = psz) srcs;
  ib_sbn : wr_cur_sbn w = sbn;
  ib_size : ar_size (wr_repair_block w) = r
}.

(** What no write changes. *)
Record steady (w : Writer) : Prop := {
  st_next_sblen : wr_next_sblen w = k;
  st_next_rblen : wr_next_rblen w = r;
  st_valid : wr_valid w = true;
  st_alive : wr_alive w = true;
  st_alloc : wr_alloc w = [];
  st_max : (k + r <= encoder_max_block_length (wr_encoder w))%nat;
  st_align : encoder_alignment (wr_encoder w) = align
}.

Definition no_repair (w : Writer) : Prop :=
  ar_items (wr_repair_block w) = replicate (ar_size (wr_repair_block w)) None.

(** * Beginning a block *)

Lemma begin_block_ok w f sbn :
  steady w -> no_repair w -> sl_size (fec_payload f) = psz ->
  wr_cur_sbn w = sbn -> wr_cur_packet w = 0%nat -> wr_source_payloads w = [] ->
  exists w', begin_block f w = (true, w') /\ steady w' /\ no_repair w' /\ in_block sbn 0 [] w'
             /\ wr_writer w' = wr_writer w.
Proof.
  intros [] HN Hf Hs Hc Hp. unfold begin_block. rewrite st_next_sblen0, st_next_rblen0, Hf.
  assert (exists a, apply_sizes k r psz w
            = (true, wr_set_sizes k r psz (wr_set_alloc [] (wr_set_repair_block a w)))
          /\ ar_items a = replicate r None) as (a & -> & Ha).
  { unfold apply_sizes. rewrite (proj2 (Nat.eqb_neq psz 0)) by lia.
    destruct (Nat.eqb_spec (ar_size (wr_repair_block w)) r) as [E1|E1]; cbn [negb].
    - exists (wr_repair_block w). rewrite <- st_alloc0. split; [by destruct w|by rewrite HN, E1].
    - rewrite st_alloc0. unfold ar_resize, allocate.
      rewrite HN, resize_replicate.
      destruct (r <=? _)%nat; cbn [negb]; eexists; by split. }
  cbn [negb wr_encoder wr_cur_sblen wr_cur_rblen wr_cur_payload_size wr_set_sizes wr_set_alloc
       wr_set_repair_block].
  destruct (enc_begin_ok (wr_encoder w) k r psz) as (e' & -> & He & Hl); [done..|].
  apply pair_eq in Hl as [Hm Hal]. eexists. split; [reflexivity|].
  split; [split; cbn; try done; lia|].
  split; [unfold no_repair, ar_size; cbn; by rewrite Ha, length_replicate|].
  split; [|done]. split; cbn; try done. unfold ar_size. by rewrite Ha, length_replicate.
Qed.

(** * Source packets *)

Lemma u16_small n : (n < k + r)%nat -> u16 (Z.of_nat n) = Z.of_nat n.
Proof. intros. apply wrap_u_small. unfold block_fits, is_u in *. destruct pid_s; lia. Qed.

Lemma fill_fields_position sbn i srcs w p n :
  in_block sbn i srcs w -> (n < k + r)%nat ->
  fill_packet_fec_fields p (Z.of_nat n) w = with_fec p (position (fec_ p) sbn n).
Proof. intros [] Hn. unfold fill_packet_fec_fields. by rewrite ib_sblen0, ib_rblen0, ib_sbn0. Qed.

Lemma write_source_ok w p sbn i srcs :
  steady w -> no_repair w -> in_block sbn i srcs w -> (i < k)%nat -> is_u 16 sbn -> source_packet p ->
  exists w',
    write_source_packet host source_composer p w = Ok (StatusOK, w') /\ steady w' /\ no_repair w'
    /\ in_block sbn (S i) (srcs ++ [payload_bytes (sent_source sbn i p)])
         (wr_set_position (S (wr_cur_packet w')) (wr_source_payloads w') w')
    /\ wr_cur_packet w' = i
    /\ content (wr_writer w') = content (wr_writer w) ++ [sent_source sbn i p].
Proof.
  intros [] HN HB Hi Hs HP. pose proof HB as []. destruct (sp_payload p HP) as [cap Hpl].
  unfold write_source_packet. rewrite ib_pos0, Hpl.
  destruct (enc_set_ok (wr_encoder w) k r psz i (payload_start p) cap)
    as (e' & -> & He & Hl); [done|lia|rewrite st_align0; apply HP|].
  apply pair_eq in Hl as [Hm Hal]. cbn [res_bind].
  change (wr_cur_packet (wr_set_encoder e' w)) with (wr_cur_packet w).
  rewrite ib_pos0, u16_small by lia.
  rewrite (fill_fields_position sbn i srcs); [|by split|lia].
  destruct (compose_source sbn i p HP Hs ltac:(lia)) as (p' & -> & Ea). cbn [res_bind negb panic_if].
  rewrite Ea. cbn [res_bind].
  destruct (fifo_write (wr_writer w) (sent_source sbn i p)) as (s' & Ew & Ec).
  cbn [wr_writer wr_set_encoder]. rewrite Ew. cbn [res_bind].
  eexists. split; [reflexivity|]. split; [split; cbn; done || lia|]. split; [exact HN|].
  split; [|by split].
  split; cbn; try done; [by rewrite ib_srcs0|..].
  - rewrite length_app. cbn. lia.
  - apply Forall_app. split; [done|]. by apply Forall_singleton, sent_payload_length.
Qed.

(** * Repair packets *)

Lemma validate_made p :
  has_flags p FlagPrepared = true -> has_flags p FlagComposed = false ->
  has_flags p FlagFEC = true -> fec_scheme (fec_ p) = scheme ->
  wr_validate_fec_packet scheme p = Ok (fec_ p).
Proof.
  intros P1 P2 P3 P4. unfold wr_validate_fec_packet, packet_fec. rewrite P1, P2, P3.
  cbn. by rewrite decide_True.
Qed.

Lemma make_repair_packet_ok w sbn srcs j :
  steady w -> in_block sbn k srcs w -> (j < r)%nat ->
  exists q f', make_repair_packet repair_composer scheme buf_addr (u16 (Z.of_nat j)) w
               = Ok (Some q, wr_set_factory f' w)
            /\ made_repair sbn j q.
Proof.
  intros [] HB Hj. pose proof HB as []. unfold make_repair_packet.
  destruct (factory_packet (wr_factory w)) as (f1 & ->). cbn [negb wr_factory wr_set_factory].
  destruct (factory_buffer f1) as (m & f2 & -> & Hm).
  cbn [wr_encoder wr_set_factory]. rewrite st_align0. cbn [composer_align].
  unfold fec_composer_align, slice_whole. cbn [slice_data sl_data res_bind].
  rewrite Nat.add_0_r, Haddr. cbn [negb Nat.eqb panic_if]. rewrite Nat.add_0_l.
  unfold align_finish, slice_capacity. cbn [sl_data sl_buf_size].
  rewrite (proj2 (Nat.ltb_ge _ _)) by lia. rewrite slice_reslice_ok by lia. cbn [res_bind negb].
  rewrite Nat.add_0_l, Nat.sub_diag. cbn [wr_cur_payload_size wr_set_factory]. rewrite ib_psz0.
  rewrite fec_repair_prepare_layout by (done || lia). cbn [res_bind negb].
  rewrite add_flags_ok by done. cbn [res_bind].
  unfold set_buffer. cbn [panic_if slice_bool sl_data buffer_ with_flags with_fec with_mem Packet_new
    slice_empty res_bind].
  rewrite validate_made by done. cbn [res_bind].
  unfold fill_packet_fec_fields.
  cbn [wr_cur_sblen wr_cur_rblen wr_cur_sbn wr_set_factory fec_ with_fec with_buffer with_flags].
  rewrite ib_sblen0, ib_rblen0, ib_sbn0, (u16_small k), (u16_small j), <- Nat2Z.inj_add, u16_small by lia.
  eexists _, f2. split; [reflexivity|]. split; [done|]. cbn.
  eexists _, _. split; [reflexivity|]. split; [reflexivity|]. split; [lia|].
  apply aligned_add. rewrite Nat.add_comm. apply pad_as_aligned.
Qed.

(** A repair packet whose payload the encoder has filled in, composed. *)
Lemma compose_repair sbn j bs q :
  made_repair sbn j q -> (j < r)%nat -> is_u 16 sbn -> length bs = psz ->
  exists q1 q2,
    composer_compose host repair_composer (store_payload bs q) = Ok (true, q1)
    /\ add_flags q1 FlagComposed = Ok q2 /\ sent_repair sbn j bs q2.
Proof.
  intros [Hfl (d & cap & Hf & Hb & Hlen & _)] Hj Hs Hbs.
  assert (store_payload bs q = with_mem q (overwrite (pkt_mem q) (d + pid_size pid_r) bs)) as Hst
    by (unfold store_payload; by rewrite Hf).
  assert (has_flags q FlagFEC = true) as HF1 by (unfold has_flags; by rewrite Hfl).
  assert (has_flags q FlagComposed = false) as HF2 by (unfold has_flags; by rewrite Hfl).
  eexists _, _. split.
  - rewrite Hst, (fec_compose_wire host pid_r Repair Header None _ d).
    + reflexivity.
    + exact HF1.
    + cbn [fec_ with_mem]. rewrite Hf. by apply (block_fits_valid pid_r FEC_zero); [..|lia].
    + cbn. by rewrite Hf.
    + cbn. by rewrite Hf.
    + cbn. rewrite length_overwrite; lia.
  - split; [by apply add_flags_ok|]. split; cbn; rewrite ?Hf, ?Hfl; try done.
    exists d. rewrite Hb. split; [done|]. cbn [sl_size].
    pose proof (slice_of_pieces (pkt_mem q) d
      (pid_wire pid_r (mkFEC (pid_fec_scheme pid_r) (Z.of_nat (k + j)) sbn (Z.of_nat k)
               (Z.of_nat (k + r)) (mkSlice (Some d) (pid_size pid_r) cap)
               (mkSlice (Some (d + pid_size pid_r)%nat) psz cap))) bs []) as HP.
    rewrite length_pid_wire, overwrite_nil, app_nil_r, !Nat.add_0_r, Hbs in HP. apply HP. lia.
Qed.

(** * The loops over the repair block *)

Definition all_made (sbn : Z) (qs : list Packet) : Prop :=
  forall j q, qs !! j = Some q -> made_repair sbn j q.

Lemma made_snoc sbn qs q : all_made sbn qs -> made_repair sbn (length qs) q -> all_made sbn (qs ++ [q]).
Proof.
  intros HQ Hq j q' Hj. apply lookup_app_Some in Hj as [Hj|[Hle Hj]]; [by apply HQ|].
  apply list_lookup_singleton_Some in Hj as [? ->]. by replace j with (length qs) by lia.
Qed.

(** Replacing the element behind a prefix. *)
Lemma array_set_middle {A} (l1 l2 : list A) (x y : A) :
  array_set (l1 ++ x :: l2) (length l1) y = Ok ((l1 ++ [y]) ++ l2).
Proof.
  rewrite array_set_ok by (rewrite length_app; cbn; lia).
  rewrite <- (Nat.add_0_r (length l1)), insert_app_r. cbn. by rewrite <- app_assoc.
Qed.

Lemma array_get_middle {A} (l1 l2 : list A) (x : A) : array_get (l1 ++ x :: l2) (length l1) = Ok x.
Proof. apply array_get_ok. by rewrite lookup_app_r, Nat.sub_diag by lia. Qed.

Lemma make_repair_packets_ok n : forall w sbn srcs qs,
  steady w -> in_block sbn k srcs w -> (length qs + n = r)%nat -> all_made sbn qs ->
  ar_items (wr_repair_block w) = (Some <$> qs) ++ replicate n None ->
  exists w' qs',
    make_repair_packets repair_composer scheme buf_addr n (length qs) w = Ok w'
    /\ steady w' /\ in_block sbn k srcs w' /\ wr_writer w' = wr_writer w
    /\ length qs' = r /\ all_made sbn qs' /\ ar_items (wr_repair_block w') = Some <$> qs'.
Proof.
  induction n as [|n IH]; intros w sbn srcs qs HS HB Hn HQ Hit; cbn [make_repair_packets].
  - exists w, qs. split_and!; try done; [lia|]. by rewrite Hit, app_nil_r.
  - destruct (make_repair_packet_ok w sbn srcs (length qs) HS HB ltac:(lia)) as (q & f' & -> & Hq).
    cbn [res_bind wr_repair_block wr_set_factory]. rewrite Hit. cbn [replicate].
    pose proof (array_set_middle (Some <$> qs) (replicate n None) None (Some q)) as Ha.
    rewrite length_fmap in Ha. rewrite Ha. cbn [res_bind].
    replace (S (length qs)) with (length (qs ++ [q])) by (rewrite length_app; cbn; lia).
    destruct HS, HB.
    match goal with |- context [make_repair_packets _ _ _ n _ ?w1] =>
      apply (IH w1 sbn srcs (qs ++ [q])) end; [by split|split; try done|..].
    + unfold ar_size. cbn. rewrite !length_app, length_fmap, length_replicate. cbn. lia.
    + rewrite length_app. cbn. lia.
    + by apply made_snoc.
    + cbn. by rewrite fmap_app.
Qed.

Lemma set_repair_packets_ok n : forall i (w : Writer) sbn qs,
  enc_sizes (wr_encoder w) = (k, r, psz) -> wr_cur_sblen w = k ->
  encoder_alignment (wr_encoder w) = align ->
  (i + n = r)%nat -> length qs = r -> all_made sbn qs ->
  ar_items (wr_repair_block w) = Some <$> qs ->
  exists e', set_repair_packets n i w = Ok (wr_set_encoder e' w)
             /\ enc_sizes e' = (k, r, psz) /\ enc_limits e' = enc_limits (wr_encoder w).
Proof.
  induction n as [|n IH]; intros i w sbn qs He Hc Hal Hn Hlen HQ Hit; cbn [set_repair_packets].
  - exists (wr_encoder w). split; [by destruct w|done].
  - destruct (lookup_lt_is_Some_2 qs i ltac:(lia)) as [q Hq].
    rewrite Hit, (array_get_ok _ i (Some q)) by (by rewrite list_lookup_fmap, Hq). cbn [res_bind].
    destruct (HQ i q Hq) as [Hfl (d & cap & Hf & _ & _ & Hd)].
    assert (packet_fec q = Some (fec_ q)) as ->
      by (unfold packet_fec, has_flags; by rewrite Hfl).
    rewrite Hf, Hc. cbn [fec_payload].
    destruct (enc_set_ok (wr_encoder w) k r psz (k + i) (d + pid_size pid_r) cap)
      as (e1 & -> & E1 & E2); [done|lia|by rewrite Hal|]. cbn [res_bind].
    destruct (IH (S i) (wr_set_encoder e1 w) sbn qs) as (e2 & -> & E3 & E4); try done; [|lia|].
    + apply pair_eq in E2 as [_ E2]. cbn. by rewrite E2.
    + exists e2. split_and!; [done..|]. rewrite E4. exact E2.
Qed.

(** The repair packets with the payloads [code] in place, [sbn] of them from [i] on. *)
Definition all_filled (sbn : Z) (code : nat -> bytes) (i : nat) (qs : list Packet) : Prop :=
  forall j q, qs !! j = Some q ->
    exists q0, made_repair sbn (i + j) q0 /\ q = store_payload (code (i + j)%nat) q0.

Definition all_sent (sbn : Z) (code : nat -> bytes) (qs : list Packet) : Prop :=
  forall j q, qs !! j = Some q -> sent_repair sbn j (code j) q.

Lemma sent_snoc sbn code qs q :
  all_sent sbn code qs -> sent_repair sbn (length qs) (code (length qs)) q ->
  all_sent sbn code (qs ++ [q]).
Proof.
  intros HQ Hq j q' Hj. apply lookup_app_Some in Hj as [Hj|[Hle Hj]]; [by apply HQ|].
  apply list_lookup_singleton_Some in Hj as [? ->]. by replace j with (length qs) by lia.
Qed.

Lemma compose_repair_packets_ok n : forall (w : Writer) sbn code qs todo,
  is_u 16 sbn -> (forall j, (j < r)%nat -> length (code j) = psz) ->
  length todo = n -> (length qs + n = r)%nat ->
  all_sent sbn code qs -> all_filled sbn code (length qs) todo ->
  ar_items (wr_repair_block w) = (Some <$> qs) ++ (Some <$> todo) ->
  exists a qs',
    compose_repair_packets host repair_composer n (length qs) w = Ok (wr_set_repair_block a w)
    /\ length qs' = r /\ all_sent sbn code qs' /\ ar_items a = Some <$> qs'.
Proof.
  induction n as [|n IH]; intros w sbn code qs todo Hs Hc Ht Hn HQ HF' Hit;
    cbn [compose_repair_packets].
  - apply nil_length_inv in Ht as ->. exists (wr_repair_block w), qs.
    split_and!; [by destruct w|lia|done|]. by rewrite Hit, app_nil_r.
  - destruct todo as [|q todo]; [done|]. cbn in Ht. rewrite Hit. cbn [fmap list_fmap].
    pose proof (array_get_middle (Some <$> qs) (Some <$> todo) (Some q)) as Hg.
    rewrite length_fmap in Hg. rewrite Hg. cbn [res_bind].
    destruct (HF' 0%nat q eq_refl) as (q0 & Hm & ->). rewrite Nat.add_0_r in *.
    destruct (compose_repair sbn (length qs) (code (length qs)) q0)
      as (q1 & q2 & -> & Ea & Hsent); [done|lia|done|apply Hc; lia|].
    cbn [res_bind negb panic_if]. rewrite Ea. cbn [res_bind].
    pose proof (array_set_middle (Some <$> qs) (Some <$> todo)
      (Some (store_payload (code (length qs)) q0)) (Some q2)) as Ha.
    rewrite length_fmap in Ha. rewrite Ha. cbn [res_bind].
    assert (length (qs ++ [q2]) = S (length qs)) as Hl by (rewrite length_app; cbn; lia).
    rewrite <- Hl.
    match goal with |- context [compose_repair_packets _ _ n _ ?w1] =>
      destruct (IH w1 sbn code (qs ++ [q2]) todo) as (a & qs' & -> & ?) end;
      [done|done|lia|lia|by apply sent_snoc| |cbn; by rewrite fmap_app|by exists a, qs'].
    intros j q Hj. rewrite Hl. destruct (HF' (S j) q Hj) as (q' & Hq').
    replace (length qs + S j)%nat with (S (length qs) + j)%nat in Hq' by lia. by exists q'.
Qed.

Lemma write_repair_packets_ok n : forall i (w : Writer) todo,
  length todo = n ->
  ar_items (wr_repair_block w) = replicate i None ++ (Some <$> todo) ->
  exists a w',
    write_repair_packets n i w = Ok (wr_set_repair_block a (wr_set_writer w' w))
    /\ content w' = content (wr_writer w) ++ todo /\ ar_items a = replicate (i + n) None.
Proof.
  induction n as [|n IH]; intros i w todo Ht Hit; cbn [write_repair_packets].
  - apply nil_length_inv in Ht as ->. exists (wr_repair_block w), (wr_writer w).
    rewrite Nat.add_0_r, Hit, !app_nil_r. split_and!; [by destruct w|done..].
  - destruct todo as [|q todo]; [done|]. cbn in Ht. rewrite Hit. cbn [fmap list_fmap].
    pose proof (array_get_middle (replicate i None) (Some <$> todo) (Some q)) as Hg.
    rewrite length_replicate in Hg. rewrite Hg. cbn [res_bind].
    destruct (fifo_write (wr_writer w) q) as (w1 & -> & Ec). cbn [res_bind].
    rewrite bool_decide_false by naive_solver. cbn [panic_if].
    pose proof (array_set_middle (replicate i None) (Some <$> todo) (Some q) None) as Ha.
    rewrite length_replicate in Ha. rewrite Ha. cbn [res_bind].
    match goal with |- context [write_repair_packets n _ ?w1] =>
      destruct (IH (S i) w1 todo) as (a & w' & -> & Ec' & Hr) end; [lia| |].
    + cbn [wr_repair_block wr_set_repair_block ar_items]. f_equal.
      change [None] with (replicate 1 (None : PacketPtr)).
      rewrite <- replicate_add. f_equal. lia.
    + exists a, w'. split_and!; [done| |rewrite Hr; f_equal; lia].
      rewrite Ec'. cbn. by rewrite Ec, <- app_assoc.
Qed.

(** * Ending a block *)

Lemma imap_filled sbn code qs :
  all_made sbn qs -> length qs = r ->
  exists qs' : list Packet,
    imap (fun i (rp : PacketPtr) => store_payload (code (k + i)%nat) <$> rp) (Some <$> qs)
    = Some <$> qs'
    /\ length qs' = r /\ all_filled sbn (fun j => code (k + j)%nat) 0 qs'.
Proof.
  intros HQ Hl. exists (imap (fun i q => store_payload (code (k + i)%nat) q) qs).
  split_and!; [|by rewrite length_imap|].
  - apply list_eq. intros i. rewrite list_lookup_imap, !list_lookup_fmap, list_lookup_imap.
    by destruct (qs !! i).
  - intros j q Hj. rewrite list_lookup_imap in Hj.
    destruct (qs !! j) as [q0|] eqn:E0; [|done]. injection Hj as <-. exists q0. split; [by apply HQ|done].
Qed.

Lemma block_memory_source (w : Writer) sbn srcs i s :
  in_block sbn k srcs w -> srcs !! i = Some s -> block_memory w i = Some s /\ length s = psz.
Proof.
  intros [] Hi. pose proof (lookup_lt_Some _ _ _ Hi). unfold block_memory.
  rewrite ib_sblen0, (proj2 (Nat.ltb_lt _ _)), ib_srcs0 by lia.
  split; [done|]. by apply (Forall_lookup_1 _ _ _ _ ib_sizes0 Hi).
Qed.

Lemma block_memory_repair (w : Writer) sbn srcs qs j :
  in_block sbn k srcs w -> all_made sbn qs -> length qs = r -> (j < r)%nat ->
  ar_items (wr_repair_block w) = Some <$> qs ->
  exists s, block_memory w (k + j) = Some s /\ length s = psz.
Proof.
  intros [] HQ Hl Hj Hit. destruct (lookup_lt_is_Some_2 qs j ltac:(lia)) as [q Hq].
  unfold block_memory. rewrite ib_sblen0, (proj2 (Nat.ltb_ge _ _)), Hit by lia.
  replace (k + j - k)%nat with j by lia. rewrite list_lookup_fmap, Hq. cbn [fmap option_fmap option_map].
  eexists. split; [done|]. destruct (HQ j q Hq) as [_ (d & cap & Hf & _ & Hd & _)].
  unfold payload_bytes. rewrite Hf. cbn [fec_payload sl_data sl_size]. by rewrite length_slice_of by lia.
Qed.

Lemma encode_repair_packets_ok (w : Writer) sbn srcs qs :
  steady w -> in_block sbn k srcs w -> all_made sbn qs -> length qs = r ->
  ar_items (wr_repair_block w) = Some <$> qs ->
  exists e qs' cap code,
    encode_repair_packets w
    = Ok (wr_set_repair_block (mkArray (Some <$> qs') cap) (wr_set_encoder e w))
    /\ length qs' = r /\ all_filled sbn code 0 qs' /\ enc_limits e = enc_limits (wr_encoder w)
    /\ forall j, (j < r)%nat -> code j = enc_code k r psz srcs j.
Proof.
  intros HS HB HQ Hl Hit. pose proof HS as []. pose proof HB as [].
  unfold encode_repair_packets. rewrite ib_rblen0.
  destruct (set_repair_packets_ok r 0 w sbn qs) as (e1 & -> & E1 & L1); [done..|].
  cbn [res_bind wr_encoder wr_set_encoder].
  destruct (enc_fill_ok e1 k r psz (block_memory (wr_set_encoder e1 w)) srcs)
    as (f & e2 & -> & Hf & L2); [done|done|..].
  - intros i s. by apply (block_memory_source _ sbn).
  - intros j Hj. by apply (block_memory_repair _ sbn srcs qs).
  - cbn [res_bind wr_cur_sblen wr_repair_block wr_set_encoder]. rewrite ib_sblen0, Hit.
    destruct (imap_filled sbn f qs HQ Hl) as (qs' & -> & Hl' & HF').
    eexists e2, qs', _, _. split; [reflexivity|]. split_and!; [done|exact HF'|by rewrite L2|exact Hf].
Qed.

Lemma end_block_ok (w : Writer) sbn srcs :
  steady w -> no_repair w -> in_block sbn k srcs w -> is_u 16 sbn ->
  exists w' rs,
    end_block host repair_composer scheme buf_addr w = Ok w' /\ steady w' /\ no_repair w'
    /\ wr_cur_sbn w' = sbn /\ wr_cur_rblen w' = r
    /\ length rs = r /\ all_sent sbn (enc_code k r psz srcs) rs
    /\ content (wr_writer w') = content (wr_writer w) ++ rs.
Proof.
  intros HS HN HB Hs. pose proof (ib_rblen _ _ _ _ HB) as Hr. pose proof (ib_size _ _ _ _ HB) as Hsz.
  unfold end_block. rewrite Hr.
  destruct (make_repair_packets_ok r w sbn srcs []) as (w1 & qs & E1 & HS1 & HB1 & W1 & L1 & Q1 & I1);
    [done|done|done|by intros ? ?|by rewrite HN, Hsz|].
  cbn [length] in E1. rewrite E1. cbn [res_bind].
  destruct (encode_repair_packets_ok w1 sbn srcs qs)
    as (e & qs1 & cap & code & -> & L2 & F2 & Lim & HC); [done..|].
  cbn [res_bind wr_cur_rblen wr_set_repair_block wr_set_encoder]. rewrite (ib_rblen _ _ _ _ HB1).
  match goal with |- context [compose_repair_packets _ _ _ _ ?w2] =>
    destruct (compose_repair_packets_ok r w2 sbn code [] qs1)
      as (a3 & qs3 & E3 & L3 & S3 & I3) end;
    [done| |done|done|by intros ? ?|exact F2|done|].
  { intros j Hj. rewrite HC by done. by apply enc_code_length. }
  cbn [length] in E3. rewrite E3. cbn [res_bind].
  cbn [wr_cur_rblen wr_set_repair_block wr_set_encoder]. rewrite (ib_rblen _ _ _ _ HB1).
  match goal with |- context [write_repair_packets _ _ ?w3] =>
    destruct (write_repair_packets_ok r 0 w3 qs3) as (a4 & w4 & -> & C4 & I4) end; [done|exact I3|].
  cbn [res_bind]. eexists _, qs3. split; [reflexivity|]. destruct HS1, HB1.
  apply pair_eq in Lim as [Hm Ha]. cbn in C4. rewrite W1 in C4.
  pose proof (enc_end_ok e) as Hend. apply pair_eq in Hend as [Hm2 Ha2].
  split; [split; cbn; try done; [by rewrite Hm2, Hm|by rewrite Ha2, Ha]|].
  split; [unfold no_repair, ar_size; cbn; by rewrite I4, length_replicate|].
  split_and!; [done|done|done| |exact C4].
  intros j q Hj. rewrite <- HC; [by apply S3|]. apply lookup_lt_Some in Hj. lia.
Qed.

(** * Writing *)

#[local] Instance stream_writer : IWriter Writer :=
  writer_write host source_composer repair_composer scheme buf_addr.

(** Between two writes, with [i] packets of block [sbn] sent. *)
Record between (sbn : Z) (i : nat) (srcs : list bytes) (w : Writer) : Prop := {
  bt_steady : steady w;
  bt_no_repair : no_repair w;
  bt_u16 : is_u 16 sbn;
  bt_lt : (i < k)%nat;
  bt_sbn : wr_cur_sbn w = sbn;
  bt_pos : wr_cur_packet w = i;
  bt_srcs : wr_source_payloads w = srcs;
  bt_start : i = 0%nat -> srcs = [];
  bt_block : (0 < i)%nat -> in_block sbn i srcs w
}.

(** The block is open when the packet is taken. *)
Lemma open_block_ok (w : Writer) sbn i srcs p :
  between sbn i srcs w -> source_packet p ->
  exists w', (if (wr_cur_packet w =? 0)%nat then begin_block (fec_ p) w else (true, w)) = (true, w')
    /\ steady w' /\ no_repair w' /\ in_block sbn i srcs w' /\ wr_writer w' = wr_writer w.
Proof.
  intros [] HP. destruct (sp_payload p HP) as [cap Hpl].
  destruct (Nat.eqb_spec (wr_cur_packet w) 0) as [E0|E0].
  - rewrite bt_pos0 in E0. subst i. rewrite E0 in *. rewrite bt_start0 in * by done.
    destruct (begin_block_ok w (fec_ p) sbn) as (w' & E1 & ?); try done; [by rewrite Hpl|by exists w'].
  - exists w. split_and!; try done. apply bt_block0. lia.
Qed.

Lemma write_step (w : Writer) sbn i srcs p :
  between sbn i srcs w -> source_packet p ->
  exists w' out sbn' i' srcs',
    write w (Some p) = Ok (StatusOK, w')
    /\ content (wr_writer w') = content (wr_writer w) ++ out
    /\ between sbn' i' srcs' w'
    /\ forall ps rest, stream sbn' i' srcs' ps rest -> stream sbn i srcs (p :: ps) (out ++ rest).
Proof.
  intros HBt HP. destruct (sp_payload p HP) as [cap Hpl].
  destruct (bt_steady _ _ _ _ HBt) as [_ _ Hv Ha _ _ _].
  unfold write, stream_writer, writer_write. rewrite Hv, Ha. cbn [negb panic_if].
  rewrite validate_made by apply HP. cbn [res_bind].
  set (w0 := if wr_first_packet w then wr_set_first_packet false w else w).
  assert (between sbn i srcs w0 /\ wr_writer w0 = wr_writer w) as [HB0 HW0].
  { unfold w0. destruct (wr_first_packet w); [|done]. split; [|done]. destruct HBt as [[]].
    split; try done. intros Hi. by destruct (bt_block0 Hi). }
  clearbody w0. destruct (open_block_ok w0 sbn i srcs p HB0 HP) as (w1 & -> & S1 & N1 & B1 & W1).
  cbn [negb]. unfold validate_source_packet. rewrite Hpl, (ib_psz _ _ _ _ B1). cbn [sl_size].
  rewrite Nat.eqb_refl. cbn [negb].
  destruct (write_source_ok w1 p sbn i srcs) as (w2 & -> & S2 & N2 & B2 & P2 & C2);
    [done..|apply HB0|apply HB0|done|].
  cbn [res_bind]. rewrite bool_decide_false by naive_solver. cbn [panic_if].
  rewrite W1, HW0 in C2. set (q := sent_source sbn i p) in *. set (srcs2 := srcs ++ _) in *.
  set (w3 := wr_set_position (S (wr_cur_packet w2)) (wr_source_payloads w2) w2) in *.
  assert (steady w3) as S3 by (by destruct S2). assert (no_repair w3) as N3 by exact N2.
  rewrite (ib_pos _ _ _ _ B2), (ib_sblen _ _ _ _ B2).
  pose proof (bt_lt _ _ _ _ HB0) as Hi. destruct (Nat.eqb_spec (S i) k) as [Ek|Ek].
  - rewrite Ek in B2.
    destruct (end_block_ok w3 sbn srcs2) as (w4 & rs & -> & S4 & N4 & Hsbn & Hr & Lr & Hrs & C4);
      [done..|apply HB0|]. cbn [res_bind].
    exists (next_block w4), (q :: rs), (u16 (sbn + 1)), 0%nat, []. split; [done|].
    split; [cbn; rewrite C4; cbn; by rewrite C2, <- app_assoc|]. split.
    + destruct S4. split; try done; [|cbn; by rewrite Hsbn|lia]. apply wrap_u_range. lia.
    + intros ps rest Hst. by apply stream_block.
  - exists w3, [q], sbn, (S i), srcs2. split; [done|]. split; [exact C2|]. split.
    + destruct B2. split; try done; [apply HB0|lia].
    + intros ps rest Hst. apply stream_source; [lia|done].
Qed.

Lemma write_stream ps : forall (w : Writer) sbn i srcs,
  between sbn i srcs w -> Forall source_packet ps ->
  exists w' out,
    write_all w ps = Ok (Some w') /\ content (wr_writer w') = content (wr_writer w) ++ out
    /\ stream sbn i srcs ps out.
Proof.
  induction ps as [|p ps IH]; intros w sbn i srcs HB HP; cbn [write_all].
  - exists w, []. rewrite app_nil_r. split_and!; [done..|]. constructor.
  - apply Forall_cons in HP as [Hp HP].
    destruct (write_step w sbn i srcs p HB Hp) as (w1 & o1 & sbn1 & i1 & srcs1 & -> & C1 & B1 & Hst).
    cbn [res_bind]. destruct (IH w1 sbn1 i1 srcs1 B1 HP) as (w2 & o2 & E2 & C2 & S2).
    exists w2, (o1 ++ o2). split_and!; [done| |by apply Hst]. by rewrite C2, C1, app_assoc.
Qed.

End Stream.


(** A writer for empty blocks counts as valid when there are no repair packets either:
    [resize] compares with the sizes the constructor has just set to zero before it
    checks them. *)
Lemma fec_writer_empty_blocks {E F W} `{IBlockEncoder E} `{IPacketFactory F} `{IWriter W}
    (encoder : E) (writer : W) (factory : F) r alloc sbn repair_sn :
  wr_valid (writer_new 0 r encoder writer factory alloc sbn repair_sn) = (r =? 0)%nat.
Proof. by destruct r. Qed.

(** * An encoder with parity packets *)

(** Every repair payload is the exclusive or of the source payloads. *)
Record ParityEncoder : Type := mkParityEncoder { parity_sizes : nat * nat * nat }.

Definition parity (n : nat) (srcs : list bytes) : bytes :=
  resize n 0 (foldr (zip_with Z.lxor) (replicate n 0) srcs).

#[global] Instance ParityEncoder_encoder : IBlockEncoder ParityEncoder := {|
  encoder_alignment _ := 8%nat;
  encoder_max_block_length _ := 100%nat;
  encoder_begin _ k r n := (true, mkParityEncoder (k, r, n));
  encoder_set e _ _ := Ok e;
  encoder_fill e mem :=
    let '(k, r, n) := parity_sizes e in
    Ok (fun _ => parity n (omap mem (seq 0 k)), e);
  encoder_end e := e
|}.

Lemma omap_lookup (mem : nat -> option bytes) srcs : forall i,
  (forall j s, srcs !! j = Some s -> mem (i + j)%nat = Some s) ->
  omap mem (seq i (length srcs)) = srcs.
Proof.
  induction srcs as [|s srcs IH]; intros i H; [done|]. cbn.
  pose proof (H 0%nat s eq_refl) as H0. rewrite Nat.add_0_r in H0. rewrite H0. f_equal. apply IH.
  intros j s' Hj. rewrite <- (H (S j) s' Hj). f_equal. lia.
Qed.

#[global] Instance ParityEncoder_ok addr : BlockEncoder ParityEncoder addr.
Proof.
  unshelve eapply (Build_BlockEncoder _ _ _ (fun _ _ n srcs _ => parity n srcs) parity_sizes).
  - intros e k r n _ _ _. by eexists.
  - intros e k r n i d cap He _ _. by exists e.
  - intros e k r n mem srcs He Hl Hm _. cbn. rewrite He. eexists _, e. split; [done|].
    split; [|done]. intros j _. rewrite <- Hl, (omap_lookup mem srcs 0); [done|].
    intros i s Hi. by apply Hm.
  - intros k r n srcs j _. apply length_resize.
  - done.
Defined.

(** Buffers of 64 bytes, without end. *)
#[global] Instance unit_factory : IPacketFactory unit := {|
  new_packet f := (true, f);
  new_packet_buffer f := (Some (replicate 64 0), f)
|}.

#[global] Instance unit_supplies n : (n <= 64)%nat -> SupplyingFactory unit n.
Proof. intros Hn. split; intros f; [by exists f|]. by exists (replicate 64 0), f. Qed.

(** An RTP packet with one byte of payload, prepared for LDPC. *)
Definition prepared_packet (sn : Z) : Packet :=
  match composer_prepare (FecComposer LDPC_Source_PayloadID Source Footer (Some (RtpComposer None)))
          (with_mem Packet_new (replicate 32 7)) (mkSlice (Some 0%nat) 0 32) 1 with
  | Ok (_, p, _) =>
      with_flags (with_rtp p (mkRTP 5 sn 0 0 0 false 10 (rtp_header (rtp_ p)) (rtp_payload (rtp_ p))
                                (rtp_padding (rtp_ p))))
        (Z.lor (flags_ p) FlagPrepared)
  | Panic => Packet_new
  end.

