(* ===== verification/Ring.v ===== *)
(** Doubly linked chains of nodes, as the intrusive containers build them: the list
    (roc_core/list_impl.cpp) and the bucket and insertion order lists of the hash map
    (roc_core/hashmap_impl.cpp).

    A chain is given by the functions from a node to its successor and to its
    predecessor, [None] being NULL; updating one pointer of one node is updating one of
    the functions at that node. *)

From stdpp Require Export functions list.
From S2P Require Import Prelude.

(** Read a pointer that was or was not updated. *)
Ltac fn_simpl :=
  repeat (rewrite fn_lookup_insert || rewrite fn_lookup_insert_ne by (done || congruence || set_solver)).

(** The same where the pointers are compared by hypotheses. *)
Ltac fn_case := repeat (rewrite fn_lookup_insert || rewrite fn_lookup_insert_ne by congruence).

Section Chain.

Context {P : Type} `{EqDecision P}.

Implicit Types (nxt prv : P -> option P) (x y n : P) (l : list P).

Definition linked nxt prv x y : Prop := nxt x = Some y /\ prv y = Some x.

(** Following the pointers from [x], the nodes are [l] and then [y]. *)
Fixpoint chain nxt prv x l y : Prop :=
  match l with
  | [] => linked nxt prv x y
  | z :: l => linked nxt prv x z /\ chain nxt prv z l y
  end.

Lemma chain_app nxt prv x l1 z l2 y :
  chain nxt prv x (l1 ++ z :: l2) y <-> chain nxt prv x l1 z /\ chain nxt prv z l2 y.
Proof.
  revert x. induction l1 as [|a l1 IH]; intros x; cbn; [done|]. rewrite IH. tauto.
Qed.

(** A chain depends on the successors of its nodes but the last and the predecessors of
    its nodes but the first. *)
Lemma chain_frame nxt prv nxt' prv' x l y :
  chain nxt prv x l y ->
  (forall a, a ∈ x :: l -> nxt' a = nxt a) -> (forall a, a ∈ l ++ [y] -> prv' a = prv a) ->
  chain nxt' prv' x l y.
Proof.
  revert x. induction l as [|z l IH]; intros x; cbn.
  - intros [H1 H2] Hn Hp. split; [rewrite Hn|rewrite Hp]; done || set_solver.
  - intros [[H1 H2] H3] Hn Hp. split.
    + split; [rewrite Hn|rewrite Hp]; done || set_solver.
    + apply IH; [done|..]; intros a Ha; [apply Hn|apply Hp]; set_solver.
Qed.

Lemma default_last_cons x z l : default x (last (z :: l)) = default z (last l).
Proof.
  destruct l as [|a l]; [done|]. cbn [last]. change (last (z :: a :: l)) with (last (a :: l)).
  destruct (last (a :: l)) eqn:E; [done|]. by apply last_None in E.
Qed.

(** The last node before [y]. *)
Lemma chain_last nxt prv x l y : chain nxt prv x l y -> prv y = Some (default x (last l)).
Proof.
  revert x. induction l as [|z l IH]; intros x; cbn; [by intros []|].
  intros [_ H]. rewrite (IH z H). f_equal. symmetry. apply default_last_cons.
Qed.

Lemma chain_first nxt prv x l y : chain nxt prv x l y -> nxt x = Some (default y (head l)).
Proof. by destruct l; cbn; [intros []|intros [[] _]]. Qed.

Lemma default_last x l : x :: l = removelast (x :: l) ++ [default x (last l)].
Proof.
  revert x. induction l as [|z l IH]; intros x; [done|].
  change (removelast (x :: z :: l)) with (x :: removelast (z :: l)).
  rewrite (IH z) at 1. cbn [app]. by rewrite (default_last_cons x z l).
Qed.

(** Appending the node [n] to a chain that ends before [y]. *)
Lemma chain_append nxt prv x l y n :
  chain nxt prv x l y -> NoDup (x :: l) -> y ∉ l -> n ∉ x :: l -> n <> y ->
  chain (<[default x (last l):=Some n]> (<[n:=Some y]> nxt))
        (<[y:=Some n]> (<[n:=Some (default x (last l))]> prv)) x (l ++ [n]) y.
Proof.
  intros HC HN Hy Hn Hny. destruct (decide (l = [])) as [->|Hl].
  - cbn in *. split; split; fn_simpl; done.
  - destruct (exists_last Hl) as (l' & z & ->). rewrite last_snoc. cbn [default from_option].
    apply chain_app in HC as [H1 H2]. rewrite <- app_assoc. cbn [app].
    apply chain_app. split.
    + apply (chain_frame nxt prv); [done|..]; intros a Ha; [|by fn_simpl].
      assert (a <> z).
      { intros ->. rewrite app_comm_cons in HN. apply NoDup_app in HN as (_ & HN & _).
        apply (HN z); set_solver. }
      by fn_simpl.
    + cbn. split; split; fn_simpl; done.
Qed.

Lemma last_in x l : default x (last l) ∈ x :: l.
Proof.
  assert (default x (last l) ∈ removelast (x :: l) ++ [default x (last l)]) as H by set_solver.
  by rewrite <- default_last in H.
Qed.

(** Making a chain end before [q] instead of [y]. *)
Lemma chain_retarget nxt prv x l y q :
  chain nxt prv x l y -> NoDup (x :: l) -> q ∉ l ->
  chain (<[default x (last l):=Some q]> nxt) (<[q:=Some (default x (last l))]> prv) x l q.
Proof.
  intros HC HN Hq. destruct (decide (l = [])) as [->|Hl].
  - cbn in *. split; fn_simpl; done.
  - destruct (exists_last Hl) as (l' & z & ->). rewrite last_snoc. cbn [default from_option].
    apply chain_app in HC as [H1 H2]. apply chain_app. split; [|cbn; split; fn_simpl; done].
    apply (chain_frame nxt prv); [done|..]; intros a Ha; [|by fn_simpl].
    assert (a <> z).
    { intros ->. rewrite app_comm_cons in HN. apply NoDup_app in HN as (_ & HN & _).
      apply (HN z); set_solver. }
    by fn_simpl.
Qed.

(** Taking the node [n] out of a chain. *)
Lemma chain_remove nxt prv x l1 n l2 y :
  chain nxt prv x (l1 ++ n :: l2) y -> NoDup (x :: l1 ++ n :: l2) -> y ∉ l1 ++ n :: l2 ->
  let p := default x (last l1) in
  let q := default y (head l2) in
  prv n = Some p /\ nxt n = Some q
  /\ chain (<[p:=Some q]> nxt) (<[q:=Some p]> prv) x (l1 ++ l2) y.
Proof.
  intros HC HN Hy p q. apply chain_app in HC as [H1 H2].
  split; [by apply (chain_last nxt _ x)|]. split; [by apply (chain_first _ prv _ _ y)|].
  rewrite app_comm_cons in HN. apply NoDup_app in HN as (N1 & N12 & N2).
  pose proof (last_in x l1) as Hp. fold p in Hp.
  destruct l2 as [|z l2]; cbn in q; subst q.
  - rewrite app_nil_r. apply (chain_retarget nxt prv x l1 n); set_solver.
  - cbn in H2. destruct H2 as [_ H2]. apply chain_app. split.
    + apply (chain_retarget nxt prv x l1 n); [done|done|]. intros Hz. apply (N12 z); set_solver.
    + assert (z ∉ l2) by (inv N2 as [|? ? ? N3]; by inv N3).
      apply (chain_frame nxt prv); [done|..]; intros a Ha; [|by fn_simpl].
      rewrite fn_lookup_insert_ne; [done|]. intros <-. apply (N12 p); set_solver.
Qed.

(** Inserting the node [n] before [y] in the middle of a chain. *)
Lemma chain_insert nxt prv x l1 y l2 e n :
  chain nxt prv x (l1 ++ y :: l2) e -> NoDup (x :: l1 ++ y :: l2) -> e ∉ l1 ++ y :: l2 ->
  n ∉ x :: l1 ++ y :: l2 -> n <> e ->
  let p := default x (last l1) in
  chain (<[p:=Some n]> (<[n:=Some y]> nxt)) (<[y:=Some n]> (<[n:=Some p]> prv))
    x (l1 ++ n :: y :: l2) e.
Proof.
  intros HC HN He Hn Hne p. apply chain_app in HC as [H1 H2].
  rewrite app_comm_cons in HN. apply NoDup_app in HN as (N1 & N12 & N2).
  pose proof (last_in x l1) as Hp. fold p in Hp.
  change (l1 ++ n :: y :: l2) with (l1 ++ [n] ++ y :: l2). rewrite app_assoc.
  apply chain_app. split.
  - apply chain_append; [done|done|..]; [|set_solver..]. intros Hy. apply (N12 y); set_solver.
  - assert (y ∉ l2) by (by inv N2).
    apply (chain_frame nxt prv); [done|..]; intros a Ha; [|by fn_simpl].
    rewrite fn_lookup_insert_ne; [by fn_simpl|]. intros <-. apply (N12 p); set_solver.
Qed.

(** Inserting anywhere: before the first node of [l2], or before the end of the chain. *)
Lemma chain_insert_at nxt prv x l1 l2 e n :
  chain nxt prv x (l1 ++ l2) e -> NoDup (x :: l1 ++ l2) -> e ∉ l1 ++ l2 ->
  n ∉ x :: l1 ++ l2 -> n <> e ->
  let p := default x (last l1) in
  let y := default e (head l2) in
  prv y = Some p
  /\ chain (<[p:=Some n]> (<[n:=Some y]> nxt)) (<[y:=Some n]> (<[n:=Some p]> prv))
       x (l1 ++ n :: l2) e.
Proof.
  intros HC HN He Hn Hne p y. destruct l2 as [|z l2]; cbn in y; subst y.
  - rewrite app_nil_r in *. split; [by apply (chain_last nxt _ x)|]. by apply chain_append.
  - split; [apply chain_app in HC as [H1 _]; by apply (chain_last nxt _ x)|]. by apply chain_insert.
Qed.

(** * Rings without a head node *)

(** The nodes of [l] are linked in a circle. *)
Definition ring nxt prv l : Prop :=
  match l with [] => True | h :: t => chain nxt prv h t h end.

Lemma ring_frame nxt prv nxt' prv' l :
  ring nxt prv l -> (forall a, a ∈ l -> nxt' a = nxt a /\ prv' a = prv a) -> ring nxt' prv' l.
Proof.
  destruct l as [|h t]; [done|]. cbn. intros HC Ha.
  apply (chain_frame nxt prv); [done|..]; intros a Hin; apply Ha; set_solver.
Qed.

(** Appending a node behind the last one, that is, before the first. *)
Lemma ring_append nxt prv h t n :
  ring nxt prv (h :: t) -> NoDup (h :: t) -> n ∉ h :: t ->
  exists p, p ∈ h :: t /\ prv h = Some p
    /\ ring (<[p:=Some n]> (<[n:=Some h]> nxt)) (<[h:=Some n]> (<[n:=Some p]> prv)) (h :: t ++ [n]).
Proof.
  cbn. intros HC HN Hn. exists (default h (last t)). split; [apply last_in|].
  split; [by apply (chain_last nxt _ h)|]. apply chain_append; [done|done|by inv HN|done|set_solver].
Qed.

Lemma ring_remove nxt prv l1 n l2 :
  ring nxt prv (l1 ++ n :: l2) -> NoDup (l1 ++ n :: l2) ->
  exists p q, prv n = Some p /\ nxt n = Some q /\ p ∈ l1 ++ n :: l2 /\ q ∈ l1 ++ n :: l2
    /\ (q = n <-> l1 = [] /\ l2 = []) /\ (l1 = [] -> l2 = [] \/ head l2 = Some q)
    /\ ring (<[p:=Some q]> nxt) (<[q:=Some p]> prv) (l1 ++ l2).
Proof.
  destruct l1 as [|x l1]; cbn [app].
  - intros HC HN. exists (default n (last l2)), (default n (head l2)).
    split; [by apply (chain_last nxt _ n)|]. split; [by apply (chain_first _ prv _ _ n)|].
    split; [apply last_in|]. apply NoDup_cons in HN as [Hn HN].
    destruct l2 as [|z l2]; cbn.
    + set_solver.
    + split; [set_solver|]. split; [set_solver|]. split; [by right|].
      rewrite (default_last_cons n z l2). cbn in HC. destruct HC as [_ HC].
      apply (chain_retarget nxt prv z l2 n); [done|done|by inv HN].
  - intros HC HN. cbn [ring] in HC. pose proof HN as HN'. apply NoDup_cons in HN' as [Hx _].
    destruct (chain_remove nxt prv x l1 n l2 x HC HN Hx) as (Hp & Hq & HC').
    exists (default x (last l1)), (default x (head l2)).
    pose proof (last_in x l1). split_and!; [done|done|set_solver|destruct l2; set_solver| |done|done].
    split; [|naive_solver]. intros E. rewrite app_comm_cons in HN.
    apply NoDup_app in HN as (_ & H1 & H2). apply NoDup_cons in H2 as [H2 _].
    exfalso. destruct l2 as [|z l2]; cbn in E; subst; [apply (H1 n)|]; set_solver.
Qed.

End Chain.
