(* ===== verification/IntrusiveList.v ===== *)
(** The intrusive doubly linked list (src/internal_modules/roc_core/list_impl.cpp,
    list.h, list_node.h): a ring of nodes through the list's own head node.

    All lists and elements live in one store: an element's node may be in one list at a
    time, and the pointers of a node stay as they are when it leaves a list.  Following a
    NULL pointer crashes, which is [Panic].  The ownership policy, a template parameter
    that counts references to the elements, is left out. *)

From S2P Require Import Prelude Ring.

(** * The store *)

(** [ListData*]: the head of list [l] or the node of element [n]. *)
Inductive Ptr : Type :=
| Head (l : nat)
| Node (n : nat).

#[global] Instance Ptr_eq_dec : EqDecision Ptr.
Proof. solve_decision. Defined.

#[global] Instance Node_inj : Inj eq eq Node.
Proof. by intros ? ? [= ->]. Qed.

(** The members [prev], [next] and [list] of each [ListData], and [size_] of each list. *)
Record Store : Type := mkStore {
  ld_prev : Ptr -> option Ptr;
  ld_next : Ptr -> option Ptr;
  ld_list : Ptr -> option nat;
  list_size : nat -> nat
}.

(** Constructed lists and elements that are in no list. *)
Definition store_init : Store :=
  mkStore (fun p => match p with Head l => Some (Head l) | Node _ => None end)
          (fun p => match p with Head l => Some (Head l) | Node _ => None end)
          (fun p => match p with Head l => Some l | Node _ => None end)
          (fun _ => 0%nat).

Definition deref (p : option Ptr) : res Ptr :=
  match p with Some p => Ok p | None => Panic end.

(** * ListImpl *)

Definition check_is_member {A} (node : Ptr) (list : option nat) (st : Store) (k : res A) : res A :=
  panic_if (bool_decide (ld_list st node <> list)) k.

Definition impl_contains (l : nat) (node : Ptr) (st : Store) : bool :=
  bool_decide (ld_list st node = Some l).

Definition impl_front (l : nat) (st : Store) : option Ptr :=
  if (list_size st l =? 0)%nat then None else ld_next st (Head l).

Definition impl_back (l : nat) (st : Store) : option Ptr :=
  if (list_size st l =? 0)%nat then None else ld_prev st (Head l).

Definition impl_nextof (l : nat) (node : Ptr) (st : Store) : res (option Ptr) :=
  check_is_member node (Some l) st
    (if decide (ld_next st node = Some (Head l)) then Ok None else Ok (ld_next st node)).

Definition impl_prevof (l : nat) (node : Ptr) (st : Store) : res (option Ptr) :=
  check_is_member node (Some l) st
    (if decide (ld_prev st node = Some (Head l)) then Ok None else Ok (ld_prev st node)).

Definition impl_insert (l : nat) (node_new node_before : Ptr) (st : Store) : res Store :=
  check_is_member node_new None st
    (check_is_member node_before (Some l) st
       (let next := <[node_new:=Some node_before]> (ld_next st) in
        let prev := <[node_new:=ld_prev st node_before]> (ld_prev st) in
        let* p := deref (prev node_before) in
        let next := <[p:=Some node_new]> next in
        let prev := <[node_before:=Some node_new]> prev in
        Ok (mkStore prev next (<[node_new:=Some l]> (ld_list st))
              (<[l:=S (list_size st l)]> (list_size st))))).

Definition impl_remove (l : nat) (node : Ptr) (st : Store) : res Store :=
  check_is_member node (Some l) st
    (let* p := deref (ld_prev st node) in
     let next := <[p:=ld_next st node]> (ld_next st) in
     let* n := deref (next node) in
     let prev := <[n:=ld_prev st node]> (ld_prev st) in
     Ok (mkStore prev next (<[node:=None]> (ld_list st))
           (<[l:=(list_size st l - 1)%nat]> (list_size st)))).

Definition impl_pop_front (l : nat) (st : Store) : res (Ptr * Store) :=
  panic_if (list_size st l =? 0)%nat
    (let* node := deref (ld_next st (Head l)) in
     let* st := impl_remove l node st in Ok (node, st)).

Definition impl_pop_back (l : nat) (st : Store) : res (Ptr * Store) :=
  panic_if (list_size st l =? 0)%nat
    (let* node := deref (ld_prev st (Head l)) in
     let* st := impl_remove l node st in Ok (node, st)).

(** * List *)

Definition push_front (l n : nat) (st : Store) : res Store :=
  let* before := deref (ld_next st (Head l)) in impl_insert l (Node n) before st.

Definition push_back (l n : nat) (st : Store) : res Store :=
  impl_insert l (Node n) (Head l) st.

Definition insert_before (l n before : nat) (st : Store) : res Store :=
  impl_insert l (Node n) (Node before) st.

Definition insert_after (l n after : nat) (st : Store) : res Store :=
  let* before := deref (ld_next st (Node after)) in impl_insert l (Node n) before st.

Definition list_remove (l n : nat) (st : Store) : res Store := impl_remove l (Node n) st.

(** The loop of the destructor. *)
Fixpoint list_clear (fuel : nat) (l : nat) (st : Store) : res (option Store) :=
  if (list_size st l =? 0)%nat then Ok (Some st)
  else
    match fuel with
    | O => Ok None
    | S fuel => let* '(node, st) := impl_pop_back l st in list_clear fuel l st
    end.

(** * Operations on the store *)

Inductive list_op : Type :=
| PushFront (l n : nat)
| PushBack (l n : nat)
| InsertBefore (l n before : nat)
| InsertAfter (l n after : nat)
| Remove (l n : nat)
| PopFront (l : nat)
| PopBack (l : nat)
| Clear (l : nat)
| Front (l : nat)
| Back (l : nat)
| NextOf (l n : nat)
| PrevOf (l n : nat)
| Contains (l n : nat)
| Size (l : nat).

(** What an operation returns. *)
Inductive list_result : Type :=
| RVoid
| RElem (n : option nat)
| RBool (b : bool)
| RSize (n : nat).

(** [from_node_data_]; the head of a list is never returned. *)
Definition elem (p : option Ptr) : list_result :=
  RElem (match p with Some (Node n) => Some n | _ => None end).

Definition exec (op : list_op) (st : Store) : res (list_result * Store) :=
  let void r := let* st := r in Ok (RVoid, st) in
  match op with
  | PushFront l n => void (push_front l n st)
  | PushBack l n => void (push_back l n st)
  | InsertBefore l n before => void (insert_before l n before st)
  | InsertAfter l n after => void (insert_after l n after st)
  | Remove l n => void (list_remove l n st)
  | PopFront l => let* '(p, st) := impl_pop_front l st in Ok (elem (Some p), st)
  | PopBack l => let* '(p, st) := impl_pop_back l st in Ok (elem (Some p), st)
  | Clear l =>
      let* r := list_clear (list_size st l) l st in
      match r with Some st => Ok (RVoid, st) | None => Panic end
  | Front l => Ok (elem (impl_front l st), st)
  | Back l => Ok (elem (impl_back l st), st)
  | NextOf l n => let* p := impl_nextof l (Node n) st in Ok (elem p, st)
  | PrevOf l n => let* p := impl_prevof l (Node n) st in Ok (elem p, st)
  | Contains l n => Ok (RBool (impl_contains l (Node n) st), st)
  | Size l => Ok (RSize (list_size st l), st)
  end.

(** * Specification: the elements of each list, in order, and the list of each element *)

Record Lists : Type := mkLists {
  elems : nat -> list nat;
  owner : nat -> option nat
}.

Definition lists_init : Lists := mkLists (fun _ => []) (fun _ => None).

(** Put [n] before the first element equal to [m]. *)
Fixpoint put_before (n m : nat) (xs : list nat) : list nat :=
  match xs with
  | [] => []
  | x :: xs => if decide (x = m) then n :: x :: xs else x :: put_before n m xs
  end.

Fixpoint put_after (n m : nat) (xs : list nat) : list nat :=
  match xs with
  | [] => []
  | x :: xs => if decide (x = m) then x :: n :: xs else x :: put_after n m xs
  end.

(** The elements next to the first element equal to [n]. *)
Fixpoint succ_of (n : nat) (xs : list nat) : option nat :=
  match xs with
  | [] => None
  | x :: xs => if decide (x = n) then head xs else succ_of n xs
  end.

Fixpoint pred_of (n : nat) (prev : option nat) (xs : list nat) : option nat :=
  match xs with
  | [] => None
  | x :: xs => if decide (x = n) then prev else pred_of n (Some x) xs
  end.

(** [n] joins list [l], whose elements become [xs]. *)
Definition join (l n : nat) (xs : list nat) (s : Lists) : Lists :=
  mkLists (<[l:=xs]> (elems s)) (<[n:=Some l]> (owner s)).

Definition leave (l n : nat) (s : Lists) : Lists :=
  mkLists (<[l:=filter (.≠ n) (elems s l)]> (elems s)) (<[n:=None]> (owner s)).

Definition spec (op : list_op) (s : Lists) : res (list_result * Lists) :=
  let add l n xs :=
    panic_if (bool_decide (owner s n <> None)) (Ok (RVoid, join l n xs s)) in
  let need {A} l n (k : res A) : res A := panic_if (bool_decide (owner s n <> Some l)) k in
  match op with
  | PushFront l n => add l n (n :: elems s l)
  | PushBack l n => add l n (elems s l ++ [n])
  | InsertBefore l n m => need l m (add l n (put_before n m (elems s l)))
  | InsertAfter l n m => need l m (add l n (put_after n m (elems s l)))
  | Remove l n => need l n (Ok (RVoid, leave l n s))
  | PopFront l =>
      match head (elems s l) with
      | Some n => Ok (RElem (Some n), leave l n s)
      | None => Panic
      end
  | PopBack l =>
      match last (elems s l) with
      | Some n => Ok (RElem (Some n), leave l n s)
      | None => Panic
      end
  | Clear l =>
      Ok (RVoid, mkLists (<[l:=[]]> (elems s))
                   (fun n => if decide (owner s n = Some l) then None else owner s n))
  | Front l => Ok (RElem (head (elems s l)), s)
  | Back l => Ok (RElem (last (elems s l)), s)
  | NextOf l n => need l n (Ok (RElem (succ_of n (elems s l)), s))
  | PrevOf l n => need l n (Ok (RElem (pred_of n None (elems s l)), s))
  | Contains l n => Ok (RBool (bool_decide (owner s n = Some l)), s)
  | Size l => Ok (RSize (length (elems s l)), s)
  end.

(** The element after which another is inserted is in the list, which [insert_after]
    does not check. *)
Definition op_ok (op : list_op) (s : Lists) : Prop :=
  match op with
  | InsertAfter l _ m => owner s m = Some l
  | _ => True
  end.

(** * The store implements the specification *)

Record represents (st : Store) (s : Lists) : Prop := {
  rp_chain l : chain (ld_next st) (ld_prev st) (Head l) (Node <$> elems s l) (Head l);
  rp_nodup l : NoDup (elems s l);
  rp_size l : list_size st l = length (elems s l);
  rp_head l : ld_list st (Head l) = Some l;
  rp_owner n : ld_list st (Node n) = owner s n;
  rp_member l n : owner s n = Some l <-> n ∈ elems s l
}.

Lemma represents_init : represents store_init lists_init.
Proof. split; try done; [intros l; constructor|]. intros l n. cbn. split; [done|]. by intros ?%elem_of_nil. Qed.

Section Represents.

Context (st : Store) (s : Lists) (HR : represents st s).

Lemma nodup_ring l : NoDup (Head l :: (Node <$> elems s l)).
Proof using HR.
  apply NoDup_cons. split; [|apply NoDup_fmap_2; [apply _|apply HR]].
  intros (n & ? & _)%list_elem_of_fmap. done.
Qed.

Lemma head_not_elem l l' : Head l' ∉ Node <$> elems s l.
Proof. intros (n & ? & _)%list_elem_of_fmap. done. Qed.

(** Pointers of list [l]'s nodes are not pointers of another list's. *)
Lemma other_list l l' p : l <> l' -> p ∈ Head l :: (Node <$> elems s l) ->
  p ∉ Head l' :: (Node <$> elems s l').
Proof using HR.
  intros Hl [->|(n & -> & Hn)%list_elem_of_fmap]%elem_of_cons
    [E|(n' & E & Hn')%list_elem_of_fmap]%elem_of_cons; simplify_eq.
  apply (rp_member st s HR) in Hn, Hn'. congruence.
Qed.

Lemma free_node l n : owner s n = None -> Node n ∉ Head l :: (Node <$> elems s l).
Proof using HR.
  intros Hn [E|(n' & E & Hn')%list_elem_of_fmap]%elem_of_cons; simplify_eq.
  apply (rp_member st s HR) in Hn'. congruence.
Qed.

(** The pointer of the first element of [xs], or the end of list [l]. *)
Definition first_ptr (l : nat) (xs : list nat) : Ptr := default (Head l) (Node <$> head xs).

Lemma head_fmap_Node xs : head (Node <$> xs) = Node <$> head xs.
Proof. by destruct xs. Qed.

Lemma impl_insert_ok l n xs1 xs2 :
  owner s n = None -> elems s l = xs1 ++ xs2 ->
  exists st', impl_insert l (Node n) (first_ptr l xs2) st = Ok st'
              /\ represents st' (join l n (xs1 ++ n :: xs2) s).
Proof using HR.
  intros Hn Hxs. unfold impl_insert, check_is_member.
  rewrite (rp_owner st s HR), Hn, bool_decide_false by naive_solver. cbn [panic_if].
  assert (ld_list st (first_ptr l xs2) = Some l) as Hb.
  { unfold first_ptr. destruct xs2 as [|m xs2]; cbn; [apply HR|].
    rewrite (rp_owner st s HR). apply (rp_member st s HR). rewrite Hxs. set_solver. }
  rewrite bool_decide_false by (rewrite Hb; naive_solver). cbn [panic_if]. cbv zeta.
  pose proof (nodup_ring l) as HN. pose proof (free_node l n Hn) as Hf.
  pose proof (head_not_elem l l) as Hh. pose proof (rp_chain st s HR l) as HC.
  rewrite Hxs, fmap_app in HN, Hf, Hh, HC.
  assert (first_ptr l xs2 <> Node n) as Hne
    by (intros E; rewrite E, (rp_owner st s HR) in Hb; congruence).
  destruct (chain_insert_at _ _ _ _ _ _ (Node n) HC HN Hh Hf ltac:(done)) as [Hp HC'].
  rewrite head_fmap_Node in Hp, HC'. fold (first_ptr l xs2) in Hp, HC'.
  rewrite fn_lookup_insert_ne by done. rewrite Hp. cbn [deref res_bind].
  eexists. split; [reflexivity|].
  assert (forall l', l' <> l -> elems (join l n (xs1 ++ n :: xs2) s) l' = elems s l') as Hj
    by (intros l' Hl'; cbn; by rewrite fn_lookup_insert_ne).
  split.
  - intros l'. destruct (decide (l' = l)) as [->|Hl'].
    + cbn. rewrite fn_lookup_insert, fmap_app, fmap_cons. exact HC'.
    + rewrite Hj by done. apply (chain_frame (ld_next st) (ld_prev st)); [apply HR|..];
        intros a Ha; cbn.
      * rewrite !fn_lookup_insert_ne; [done|intros <-; by apply (free_node l' n)|].
        intros <-. apply (other_list l l' _ ltac:(done)) in Ha; [done|]. rewrite Hxs, fmap_app.
        pose proof (last_in (Head l) (Node <$> xs1)). set_solver.
      * rewrite !fn_lookup_insert_ne; [done|intros <-; apply (free_node l' n Hn); set_solver|].
        intros <-. apply (other_list l l' (first_ptr l xs2)); [done|..|set_solver].
        rewrite Hxs, fmap_app. unfold first_ptr. destruct xs2; set_solver.
  - intros l'. destruct (decide (l' = l)) as [->|Hl']; [|rewrite Hj by done; apply HR].
    cbn. rewrite fn_lookup_insert, <- Permutation_middle. apply NoDup_cons.
    split; [|rewrite <- Hxs; apply HR].
    intros Hin. assert (n ∈ elems s l) as Hin' by (rewrite Hxs; set_solver).
    apply (rp_member st s HR) in Hin'. congruence.
  - intros l'. destruct (decide (l' = l)) as [->|Hl'].
    + cbn. fn_simpl. rewrite (rp_size st s HR), Hxs, !length_app. cbn. lia.
    + rewrite Hj by done. cbn. fn_simpl. apply HR.
  - intros l'. cbn. fn_simpl. apply HR.
  - intros n'. cbn. destruct (decide (n' = n)) as [->|Hn']; fn_simpl; [done|]. apply HR.
  - intros l' n'. destruct (decide (l' = l)) as [->|Hl'].
    + cbn. rewrite fn_lookup_insert. destruct (decide (n' = n)) as [->|Hn'].
      * rewrite fn_lookup_insert. set_solver.
      * rewrite fn_lookup_insert_ne, (rp_member st s HR), Hxs by done. set_solver.
    + rewrite Hj by done. cbn. destruct (decide (n' = n)) as [->|Hn'].
      * rewrite fn_lookup_insert, <- (rp_member st s HR). naive_solver.
      * rewrite fn_lookup_insert_ne by done. apply HR.
Qed.

Lemma impl_remove_ok l n :
  owner s n = Some l ->
  exists st', impl_remove l (Node n) st = Ok st' /\ represents st' (leave l n s).
Proof using HR.
  intros Hn. unfold impl_remove, check_is_member.
  rewrite (rp_owner st s HR), Hn, bool_decide_false by naive_solver. cbn [panic_if]. cbv zeta.
  pose proof Hn as Hin. apply (rp_member st s HR) in Hin.
  apply list_elem_of_split in Hin as (xs1 & xs2 & Hxs).
  pose proof (nodup_ring l) as HN. pose proof (head_not_elem l l) as Hh.
  pose proof (rp_chain st s HR l) as HC. pose proof (rp_nodup st s HR l) as HND.
  rewrite Hxs in HN, Hh, HC, HND. rewrite fmap_app, fmap_cons in HN, Hh, HC.
  destruct (chain_remove _ _ _ _ _ _ _ HC HN Hh) as (Hp & Hq & HC').
  rewrite Hp, Hq. cbn [deref res_bind].
  pose proof (last_in (Head l) (Node <$> xs1)) as Hlast.
  rewrite fn_lookup_insert_ne.
  2: { intros E. rewrite E in Hlast. rewrite app_comm_cons in HN.
       apply NoDup_app in HN as (_ & HN & _). apply (HN (Node n)); set_solver. }
  rewrite Hq. cbn [deref res_bind]. eexists. split; [reflexivity|].
  assert (elems (leave l n s) l = xs1 ++ xs2) as Hl
    by (cbn; rewrite fn_lookup_insert, Hxs; by apply filter_out).
  assert (forall l', l' <> l -> elems (leave l n s) l' = elems s l') as Hj
    by (intros l' Hl'; cbn; by rewrite fn_lookup_insert_ne).
  split.
  - intros l'. destruct (decide (l' = l)) as [->|Hl'].
    + rewrite Hl, fmap_app. exact HC'.
    + rewrite Hj by done. apply (chain_frame (ld_next st) (ld_prev st)); [apply HR|..];
        intros a Ha; cbn; (rewrite fn_lookup_insert_ne; [done|intros <-]).
      * apply (other_list l l' (default (Head l) (last (Node <$> xs1)))); [done| |exact Ha].
        rewrite Hxs, fmap_app, fmap_cons. set_solver.
      * apply (other_list l l' (default (Head l) (head (Node <$> xs2)))); [done| |set_solver].
        rewrite Hxs, fmap_app, fmap_cons. destruct xs2; set_solver.
  - intros l'. destruct (decide (l' = l)) as [->|Hl']; [|rewrite Hj by done; apply HR].
    rewrite Hl. rewrite <- Permutation_middle in HND. by apply NoDup_cons in HND as [_ ?].
  - intros l'. destruct (decide (l' = l)) as [->|Hl'].
    + rewrite Hl. cbn. fn_simpl. rewrite (rp_size st s HR), Hxs, !length_app. cbn. lia.
    + rewrite Hj by done. cbn. fn_simpl. apply HR.
  - intros l'. cbn. fn_simpl. apply HR.
  - intros n'. cbn. destruct (decide (n' = n)) as [->|Hn']; fn_simpl; [done|]. apply HR.
  - intros l' n'. cbn [owner leave]. rewrite <- Permutation_middle in HND.
    apply NoDup_cons in HND as [Hnot _]. destruct (decide (l' = l)) as [->|Hl'].
    + rewrite Hl. destruct (decide (n' = n)) as [->|Hn'].
      * rewrite fn_lookup_insert. naive_solver.
      * rewrite fn_lookup_insert_ne, (rp_member st s HR), Hxs by done. set_solver.
    + rewrite Hj by done. destruct (decide (n' = n)) as [->|Hn'].
      * rewrite fn_lookup_insert, <- (rp_member st s HR), Hn. naive_solver.
      * rewrite fn_lookup_insert_ne by done. apply HR.
Qed.

(** What the pointers are. *)
Definition last_ptr (l : nat) (xs : list nat) : Ptr := default (Head l) (Node <$> last xs).

Lemma last_fmap_Node xs : last (Node <$> xs) = Node <$> last xs.
Proof. apply fmap_last. Qed.

Lemma next_head l : ld_next st (Head l) = Some (first_ptr l (elems s l)).
Proof using HR.
  rewrite (chain_first _ _ _ _ _ (rp_chain st s HR l)). by rewrite head_fmap_Node.
Qed.

Lemma prev_head l : ld_prev st (Head l) = Some (last_ptr l (elems s l)).
Proof using HR.
  rewrite (chain_last _ _ _ _ _ (rp_chain st s HR l)). by rewrite last_fmap_Node.
Qed.

Lemma next_elem l n xs1 xs2 :
  elems s l = xs1 ++ n :: xs2 -> ld_next st (Node n) = Some (first_ptr l xs2).
Proof using HR.
  intros Hxs. pose proof (rp_chain st s HR l) as HC.
  rewrite Hxs, fmap_app, fmap_cons, chain_app in HC. destruct HC as [_ HC].
  rewrite (chain_first _ _ _ _ _ HC). by rewrite head_fmap_Node.
Qed.

Lemma prev_elem l n xs1 xs2 :
  elems s l = xs1 ++ n :: xs2 -> ld_prev st (Node n) = Some (last_ptr l xs1).
Proof using HR.
  intros Hxs. pose proof (rp_chain st s HR l) as HC.
  rewrite Hxs, fmap_app, fmap_cons, chain_app in HC. destruct HC as [HC _].
  rewrite (chain_last _ _ _ _ _ HC). by rewrite last_fmap_Node.
Qed.

(** An element of list [l] splits it, and does not occur in the first part. *)
Lemma elem_split l n :
  owner s n = Some l -> exists xs1 xs2, elems s l = xs1 ++ n :: xs2 /\ n ∉ xs1.
Proof using HR.
  intros Hn. apply (rp_member st s HR), list_elem_of_split in Hn as (xs1 & xs2 & Hxs).
  exists xs1, xs2. split; [done|]. pose proof (rp_nodup st s HR l) as HN. rewrite Hxs in HN.
  apply NoDup_app in HN as (_ & HN & _). intros Hin. apply (HN n Hin). set_solver.
Qed.

Lemma impl_insert_panic l n b : owner s n <> None -> impl_insert l (Node n) b st = Panic.
Proof using HR.
  intros Hn. unfold impl_insert, check_is_member. rewrite (rp_owner st s HR).
  by rewrite bool_decide_true.
Qed.

Lemma impl_pop_front_ok l n xs :
  elems s l = n :: xs ->
  exists st', impl_pop_front l st = Ok (Node n, st') /\ represents st' (leave l n s).
Proof using HR.
  intros Hxs. unfold impl_pop_front. rewrite (rp_size st s HR), next_head, Hxs. cbn.
  destruct (impl_remove_ok l n) as (st' & -> & ?); [apply (rp_member st s HR); rewrite Hxs; set_solver|].
  by exists st'.
Qed.

Lemma impl_pop_back_ok l n xs :
  elems s l = xs ++ [n] ->
  exists st', impl_pop_back l st = Ok (Node n, st') /\ represents st' (leave l n s).
Proof using HR.
  intros Hxs. unfold impl_pop_back. rewrite (rp_size st s HR), prev_head, Hxs, length_app.
  rewrite (proj2 (Nat.eqb_neq _ 0)) by (cbn; lia). unfold last_ptr. rewrite last_snoc. cbn.
  destruct (impl_remove_ok l n) as (st' & -> & ?); [apply (rp_member st s HR); rewrite Hxs; set_solver|].
  by exists st'.
Qed.

Lemma impl_pop_panic l : elems s l = [] -> impl_pop_front l st = Panic /\ impl_pop_back l st = Panic.
Proof using HR.
  intros Hxs. unfold impl_pop_front, impl_pop_back. by rewrite (rp_size st s HR), Hxs.
Qed.

End Represents.

(** * Lemmas on the specification *)

Lemma put_before_split n m xs1 xs2 :
  m ∉ xs1 -> put_before n m (xs1 ++ m :: xs2) = xs1 ++ n :: m :: xs2.
Proof.
  induction xs1 as [|x xs1 IH]; intros Hm; cbn; [by rewrite decide_True|].
  rewrite decide_False by set_solver. f_equal. apply IH. set_solver.
Qed.

Lemma put_after_split n m xs1 xs2 :
  m ∉ xs1 -> put_after n m (xs1 ++ m :: xs2) = xs1 ++ m :: n :: xs2.
Proof.
  induction xs1 as [|x xs1 IH]; intros Hm; cbn; [by rewrite decide_True|].
  rewrite decide_False by set_solver. f_equal. apply IH. set_solver.
Qed.

Lemma succ_of_split n xs1 xs2 : n ∉ xs1 -> succ_of n (xs1 ++ n :: xs2) = head xs2.
Proof.
  induction xs1 as [|x xs1 IH]; intros Hn; cbn; [by rewrite decide_True|].
  rewrite decide_False by set_solver. apply IH. set_solver.
Qed.

Lemma pred_of_split n xs1 xs2 : forall p,
  n ∉ xs1 -> pred_of n p (xs1 ++ n :: xs2) = match last xs1 with Some x => Some x | None => p end.
Proof.
  induction xs1 as [|x xs1 IH]; intros p Hn; cbn; [by rewrite decide_True|].
  rewrite decide_False by set_solver. rewrite IH by set_solver.
  destruct xs1 as [|y xs1]; [done|]. cbn [last]. destruct (last (y :: xs1)) eqn:E; [done|].
  by apply last_None in E.
Qed.

Lemma represents_ext st s s' :
  represents st s -> (forall l, elems s l = elems s' l) -> (forall n, owner s n = owner s' n) ->
  represents st s'.
Proof.
  intros HR He Ho. split; intros l; intros; rewrite <- ?He, <- ?Ho; apply HR.
Qed.

(** * Refinement *)

(** The destructor's loop empties the list. *)
Lemma list_clear_ok k : forall l st s,
  represents st s -> length (elems s l) = k ->
  exists st', list_clear k l st = Ok (Some st')
    /\ represents st' (mkLists (<[l:=[]]> (elems s))
                         (fun n => if decide (owner s n = Some l) then None else owner s n)).
Proof.
  induction k as [|k IH]; intros l st s HR Hk.
  - apply nil_length_inv in Hk. exists st. cbn. rewrite (rp_size st s HR), Hk. cbn.
    split; [done|]. apply (represents_ext st s); [done|..].
    + intros l'. cbn. destruct (decide (l' = l)) as [->|Hl']; fn_simpl; done.
    + intros n. cbn. case_decide as Hn; [|done]. apply (rp_member st s HR) in Hn.
      rewrite Hk in Hn. by apply elem_of_nil in Hn.
  - cbn [list_clear]. rewrite (rp_size st s HR), Hk. cbn [Nat.eqb].
    destruct (exists_last (l := elems s l)) as (xs & n & Hxs); [by intros E; rewrite E in Hk|].
    destruct (impl_pop_back_ok st s HR l n xs Hxs) as (st1 & -> & HR1). cbn [res_bind].
    pose proof (rp_nodup st s HR l) as HN. rewrite Hxs in HN.
    assert (elems (leave l n s) l = xs) as Hl.
    { cbn. rewrite fn_lookup_insert, Hxs, filter_out by done. apply app_nil_r. }
    destruct (IH l st1 (leave l n s) HR1) as (st2 & -> & HR2).
    { rewrite Hl. rewrite Hxs, length_app in Hk. cbn in Hk. lia. }
    exists st2. split; [done|]. apply (represents_ext _ _ _ HR2).
    + intros l'. cbn. destruct (decide (l' = l)) as [->|Hl']; fn_simpl; done.
    + intros n'. cbn. destruct (decide (n' = n)) as [->|Hn']; fn_simpl; [|done].
      assert (owner s n = Some l) as -> by (apply (rp_member st s HR); rewrite Hxs; set_solver).
      rewrite (decide_True (P := Some l = Some l)) by done. by case_decide.
Qed.

(** One operation: the same result, or a panic in both. *)
Definition agrees (r : res (list_result * Store)) (r' : res (list_result * Lists)) : Prop :=
  match r' with
  | Ok (v, s') => exists st', r = Ok (v, st') /\ represents st' s'
  | Panic => r = Panic
  end.

(** Adding an element where the specification does. *)
Lemma agrees_add st s l n xs1 xs2 (r : res Store) xs :
  represents st s -> elems s l = xs1 ++ xs2 -> xs = xs1 ++ n :: xs2 ->
  r = impl_insert l (Node n) (first_ptr l xs2) st ->
  agrees (let* st := r in Ok (RVoid, st))
    (panic_if (bool_decide (owner s n <> None)) (Ok (RVoid, join l n xs s))).
Proof.
  intros HR Hxs -> ->. destruct (decide (owner s n = None)) as [Hn|Hn].
  - rewrite bool_decide_false by naive_solver. cbn.
    destruct (impl_insert_ok st s HR l n xs1 xs2 Hn Hxs) as (st' & -> & HR'). by exists st'.
  - rewrite bool_decide_true by done. cbn. by rewrite (impl_insert_panic st s).
Qed.

Lemma elem_first l xs : elem (Some (first_ptr l xs)) = RElem (head xs).
Proof. by destruct xs. Qed.

Lemma elem_last l xs : elem (Some (last_ptr l xs)) = RElem (last xs).
Proof. unfold last_ptr. by destruct (last xs). Qed.

Lemma check_is_member_agrees {A} st s l n (k : res A) :
  represents st s ->
  check_is_member (Node n) (Some l) st k = panic_if (bool_decide (owner s n <> Some l)) k.
Proof. intros HR. unfold check_is_member. by rewrite (rp_owner st s HR). Qed.

Lemma first_ptr_head l xs : (first_ptr l xs = Head l) <-> xs = [].
Proof. by destruct xs. Qed.

Lemma last_ptr_head l xs : (last_ptr l xs = Head l) <-> xs = [].
Proof. unfold last_ptr. rewrite <- last_None. by destruct (last xs). Qed.

Lemma agrees_query st s l n (v : list_result) (p : option Ptr) :
  represents st s -> elem p = v ->
  agrees (let* p := panic_if (bool_decide (owner s n <> Some l)) (Ok p) in Ok (elem p, st))
    (panic_if (bool_decide (owner s n <> Some l)) (Ok (v, s))).
Proof. intros HR <-. destruct (bool_decide _); cbn; [done|]. by exists st. Qed.

Lemma exec_agrees op st s : represents st s -> op_ok op s -> agrees (exec op st) (spec op s).
Proof.
  intros HR Hop. destruct op as [l n|l n|l n m|l n m|l n|l|l|l|l|l|l n|l n|l n|l]; cbn [exec spec].
  - unfold push_front. rewrite (next_head st s HR). cbn [deref res_bind].
    by apply (agrees_add st s l n [] (elems s l)).
  - apply (agrees_add st s l n (elems s l) []); try done. by rewrite app_nil_r.
  - destruct (decide (owner s m = Some l)) as [Hm|Hm].
    + rewrite bool_decide_false by naive_solver. cbn [panic_if].
      destruct (elem_split st s HR l m Hm) as (xs1 & xs2 & Hxs & Hnot).
      apply (agrees_add st s l n xs1 (m :: xs2)); try done. by rewrite Hxs, put_before_split.
    + rewrite bool_decide_true by done. cbn. unfold insert_before, impl_insert.
      rewrite (check_is_member_agrees st s) by done. rewrite bool_decide_true by done.
      unfold check_is_member. by destruct (bool_decide _).
  - cbn in Hop. rewrite bool_decide_false by naive_solver. cbn [panic_if].
    destruct (elem_split st s HR l m Hop) as (xs1 & xs2 & Hxs & Hnot).
    unfold insert_after. rewrite (next_elem st s HR l m xs1 xs2) by done. cbn [deref res_bind].
    apply (agrees_add st s l n (xs1 ++ [m]) xs2); try done; [by rewrite Hxs, <- app_assoc|].
    by rewrite Hxs, put_after_split, <- app_assoc.
  - destruct (decide (owner s n = Some l)) as [Hm|Hm].
    + rewrite bool_decide_false by naive_solver. cbn [panic_if].
      destruct (impl_remove_ok st s HR l n Hm) as (st' & E & HR'). unfold list_remove. rewrite E.
      by exists st'.
    + rewrite bool_decide_true by done. cbn. unfold list_remove, impl_remove.
      rewrite (check_is_member_agrees st s) by done. by rewrite bool_decide_true.
  - destruct (elems s l) as [|n xs] eqn:Hxs; cbn.
    + by rewrite (proj1 (impl_pop_panic st s HR l Hxs)).
    + destruct (impl_pop_front_ok st s HR l n xs Hxs) as (st' & -> & HR'). by exists st'.
  - destruct (last (elems s l)) as [n|] eqn:Hl; cbn.
    + apply last_Some in Hl as [xs Hxs].
      destruct (impl_pop_back_ok st s HR l n xs Hxs) as (st' & -> & HR'). by exists st'.
    + apply last_None in Hl. by rewrite (proj2 (impl_pop_panic st s HR l Hl)).
  - destruct (list_clear_ok (length (elems s l)) l st s HR eq_refl) as (st' & E & HR').
    rewrite (rp_size st s HR), E. by exists st'.
  - exists st. split; [|done]. unfold impl_front. rewrite (rp_size st s HR), (next_head st s HR).
    destruct (elems s l) eqn:E; [done|]. by rewrite <- (elem_first l).
  - exists st. split; [|done]. unfold impl_back. rewrite (rp_size st s HR), (prev_head st s HR).
    rewrite <- (elem_last l). destruct (elems s l) eqn:E; done.
  - unfold impl_nextof. rewrite (check_is_member_agrees st s) by done.
    destruct (decide (owner s n = Some l)) as [Hm|Hm]; [|by rewrite bool_decide_true by done].
    destruct (elem_split st s HR l n Hm) as (xs1 & xs2 & Hxs & Hnot).
    rewrite (next_elem st s HR l n xs1 xs2), Hxs, succ_of_split by done.
    destruct xs2; cbn; rewrite ?decide_True, ?decide_False by done; by apply (agrees_query st s l n).
  - unfold impl_prevof. rewrite (check_is_member_agrees st s) by done.
    destruct (decide (owner s n = Some l)) as [Hm|Hm]; [|by rewrite bool_decide_true by done].
    destruct (elem_split st s HR l n Hm) as (xs1 & xs2 & Hxs & Hnot).
    rewrite (prev_elem st s HR l n xs1 xs2), Hxs, pred_of_split by done. unfold last_ptr.
    destruct (last xs1); cbn; rewrite ?decide_True, ?decide_False by done; by apply (agrees_query st s l n).
  - exists st. unfold impl_contains. by rewrite (rp_owner st s HR).
  - exists st. by rewrite (rp_size st s HR).
Qed.

Fixpoint run_ops {S} (step : list_op -> S -> res (list_result * S)) (ops : list list_op) (s : S)
    : res (list list_result * S) :=
  match ops with
  | [] => Ok ([], s)
  | op :: ops =>
      let* '(v, s) := step op s in
      let* '(vs, s) := run_ops step ops s in
      Ok (v :: vs, s)
  end.

Fixpoint ops_ok (ops : list list_op) (s : Lists) : Prop :=
  match ops with
  | [] => True
  | op :: ops =>
      op_ok op s /\ match spec op s with Ok (_, s) => ops_ok ops s | Panic => True end
  end.

Lemma run_agrees ops : forall st s,
  represents st s -> ops_ok ops s ->
  match run_ops spec ops s with
  | Ok (vs, s') => exists st', run_ops exec ops st = Ok (vs, st') /\ represents st' s'
  | Panic => run_ops exec ops st = Panic
  end.
Proof.
  induction ops as [|op ops IH]; intros st s HR Hok; cbn; [by exists st|].
  destruct Hok as [H1 H2]. pose proof (exec_agrees op st s HR H1) as HA. unfold agrees in HA.
  destruct (spec op s) as [[v s1]|]; cbn; [|by rewrite HA].
  destruct HA as (st1 & -> & HR1). cbn. specialize (IH st1 s1 HR1 H2).
  destruct (run_ops spec ops s1) as [[vs s2]|]; cbn; [|by rewrite IH].
  destruct IH as (st2 & -> & HR2). by exists st2.
Qed.

(** C22: whatever sequence of operations is applied to any number of intrusive lists
    that share their elements, in which [insert_after] is only called with a position that
    is in the list, every operation returns what it returns on plain sequences of elements
    with an owner each, the pointers keep representing these sequences, and the operations
    panic exactly when an element is not in the list it should be in, or already in one.
    The precondition of [insert_after] is its documented one, and the only one that the
    code does not check ([insert_after_removed] shows what it then does). *)
Theorem intrusive_list_refines (ops : list list_op) :
  ops_ok ops lists_init ->
  match run_ops spec ops lists_init with
  | Ok (vs, s) => exists st, run_ops exec ops store_init = Ok (vs, st) /\ represents st s
  | Panic => run_ops exec ops store_init = Panic
  end.
Proof. apply run_agrees, represents_init. Qed.

(** Operations on two lists that exchange elements. *)
Definition demo_ops : list list_op :=
  [PushBack 0 1; PushFront 0 2; InsertAfter 0 3 2; PushBack 1 4; Remove 0 3; PushBack 1 3;
   InsertBefore 1 5 3; NextOf 1 5; PrevOf 1 4; PopBack 1; Clear 1; Front 0; Size 0; PopFront 0].

Lemma intrusive_list_refines_witness :
  exists st, run_ops exec demo_ops store_init
    = Ok ([RVoid; RVoid; RVoid; RVoid; RVoid; RVoid; RVoid; RElem (Some 3%nat); RElem None;
           RElem (Some 3%nat); RVoid; RElem (Some 2%nat); RSize 2; RElem (Some 2%nat)], st).
Proof.
  pose proof (intrusive_list_refines demo_ops) as H.
  destruct (H ltac:(vm_compute; by split_and!)) as (st & E & _). by exists st.
Defined.

(** [insert_after] accepts an element that has left the list: its [next] pointer is still
    set, and only that node is checked. *)
Lemma insert_after_removed :
  exists vs st,
    run_ops exec [PushBack 0 1; PushBack 0 2; Remove 0 1; InsertAfter 0 3 1; Front 0] store_init
    = Ok (vs, st) /\ last vs = Some (RElem (Some 3%nat)).
Proof. eexists _, _. split; [vm_compute; reflexivity|reflexivity]. Qed.
