(* ===== verification/Hashmap.v ===== *)
(** The intrusive hash map (src/internal_modules/roc_core/hashmap_impl.cpp, hashmap.h,
    hashmap_node.h): buckets that are rings of nodes, a ring of all nodes in insertion
    order, and rehashing that moves a few nodes to the new buckets with each operation.

    An element is identified by a number; its key and the key's hash are functions of it.
    A bucket array is identified by a number too, 0 for the preallocated one: a pointer to
    a bucket is the array and the index, and the address range check of
    [member_of_bucket_array_] compares both.  Following a NULL pointer crashes, which is
    [Panic].  The results of allocations are a list of booleans as in FecReader.v. *)

From S2P Require Import Ring Prelude.

Section Hashmap.

(** [T::key()] of an element, [T::key_hash] and [T::key_equal]. *)
Context {K : Type} `{EqDecision K} (key_of : nat -> K) (key_hash : K -> Z).

Context (num_preallocated_buckets : Z).

(** * State *)

(** A pointer in the ring of all nodes: [None] is [&all_head_]. *)
Abbreviation all_ptr := (option nat).

(** A pointer to a bucket. *)
Abbreviation bucket_ptr := (nat * Z)%type.

Record HashmapImpl : Type := mkHashmap {
  (* members of the nodes *)
  bucket_prev : nat -> option nat;
  bucket_next : nat -> option nat;
  all_prev : all_ptr -> option all_ptr;
  all_next : all_ptr -> option all_ptr;
  node_hash : nat -> Z;
  node_bucket : nat -> option bucket_ptr;
  (* the heads of the buckets *)
  bucket_head : bucket_ptr -> option nat;
  (* members of the map *)
  curr_buckets : option nat;
  n_curr_buckets : Z;
  prev_buckets : option nat;
  n_prev_buckets : Z;
  hm_size : Z;
  rehash_pos : Z;
  rehash_remain_nodes : Z;
  (* the arena: allocation results and the number of the next array *)
  hm_alloc : list bool;
  next_array : nat
}.

Definition hashmap_new (alloc : list bool) : HashmapImpl :=
  mkHashmap (fun _ => None) (fun _ => None)
    (fun p => match p with None => Some None | Some _ => None end)
    (fun p => match p with None => Some None | Some _ => None end)
    (fun _ => 0) (fun _ => None) (fun _ => None) None 0 None 0 0 0 0 alloc 1%nat.

(** Assignments to some members, the rest unchanged. *)
Definition with_bucket_links (prev next : nat -> option nat) (h : HashmapImpl) : HashmapImpl :=
  mkHashmap prev next (all_prev h) (all_next h) (node_hash h) (node_bucket h) (bucket_head h)
    (curr_buckets h) (n_curr_buckets h) (prev_buckets h) (n_prev_buckets h) (hm_size h)
    (rehash_pos h) (rehash_remain_nodes h) (hm_alloc h) (next_array h).

Definition with_all_links (prev next : all_ptr -> option all_ptr) (h : HashmapImpl) : HashmapImpl :=
  mkHashmap (bucket_prev h) (bucket_next h) prev next (node_hash h) (node_bucket h) (bucket_head h)
    (curr_buckets h) (n_curr_buckets h) (prev_buckets h) (n_prev_buckets h) (hm_size h)
    (rehash_pos h) (rehash_remain_nodes h) (hm_alloc h) (next_array h).

Definition with_node_hash (f : nat -> Z) (h : HashmapImpl) : HashmapImpl :=
  mkHashmap (bucket_prev h) (bucket_next h) (all_prev h) (all_next h) f (node_bucket h)
    (bucket_head h) (curr_buckets h) (n_curr_buckets h) (prev_buckets h) (n_prev_buckets h)
    (hm_size h) (rehash_pos h) (rehash_remain_nodes h) (hm_alloc h) (next_array h).

Definition with_node_bucket (f : nat -> option bucket_ptr) (h : HashmapImpl) : HashmapImpl :=
  mkHashmap (bucket_prev h) (bucket_next h) (all_prev h) (all_next h) (node_hash h) f
    (bucket_head h) (curr_buckets h) (n_curr_buckets h) (prev_buckets h) (n_prev_buckets h)
    (hm_size h) (rehash_pos h) (rehash_remain_nodes h) (hm_alloc h) (next_array h).

Definition with_bucket_head (f : bucket_ptr -> option nat) (h : HashmapImpl) : HashmapImpl :=
  mkHashmap (bucket_prev h) (bucket_next h) (all_prev h) (all_next h) (node_hash h)
    (node_bucket h) f (curr_buckets h) (n_curr_buckets h) (prev_buckets h) (n_prev_buckets h)
    (hm_size h) (rehash_pos h) (rehash_remain_nodes h) (hm_alloc h) (next_array h).

Definition with_size (n : Z) (h : HashmapImpl) : HashmapImpl :=
  mkHashmap (bucket_prev h) (bucket_next h) (all_prev h) (all_next h) (node_hash h)
    (node_bucket h) (bucket_head h) (curr_buckets h) (n_curr_buckets h) (prev_buckets h)
    (n_prev_buckets h) n (rehash_pos h) (rehash_remain_nodes h) (hm_alloc h) (next_array h).

(** [n_prev_buckets_], [rehash_pos_] and [rehash_remain_nodes_]. *)
Definition with_rehash (n_prev pos remain : Z) (h : HashmapImpl) : HashmapImpl :=
  mkHashmap (bucket_prev h) (bucket_next h) (all_prev h) (all_next h) (node_hash h)
    (node_bucket h) (bucket_head h) (curr_buckets h) (n_curr_buckets h) (prev_buckets h)
    n_prev (hm_size h) pos remain (hm_alloc h) (next_array h).

(** * Sizes *)

Definition LoadFactorNum : Z := 13.
Definition LoadFactorDen : Z := 2.

Definition buckets_capacity (n_buckets : Z) : Z := n_buckets * LoadFactorNum / LoadFactorDen.

Definition hm_capacity (h : HashmapImpl) : Z := buckets_capacity (n_curr_buckets h).

Definition prime_counts : list Z :=
  [5; 11; 23; 53; 97; 193; 389; 769; 1543; 3079; 6151; 12289; 24593; 49157; 98317; 196613;
   393241; 786433].

Definition min_arena_count : Z := 23.

(** The first loop of [get_next_bucket_size_], over the counts that have a successor in
    the table. *)
Fixpoint next_embedded (counts : list Z) (current_count : Z) : option Z :=
  match counts with
  | c :: (c' :: _) as rest =>
      if num_preallocated_buckets <? c then None
      else if (current_count <? c) && (num_preallocated_buckets <? c') then Some c
      else next_embedded rest current_count
  | _ => None
  end.

(** The second loop. *)
Fixpoint next_arena (counts : list Z) (current_count : Z) : option Z :=
  match counts with
  | [] => None
  | c :: rest =>
      if c <? min_arena_count then next_arena rest current_count
      else if current_count <? c then Some c
      else next_arena rest current_count
  end.

Definition get_next_bucket_size (current_count : Z) : res Z :=
  match
    if current_count <? num_preallocated_buckets
    then next_embedded prime_counts current_count else None
  with
  | Some c => Ok c
  | None =>
      match next_arena prime_counts current_count with
      | Some c => Ok c
      | None =>
          panic_if (u64 (current_count * 3) <? current_count) (Ok (u64 (current_count * 3)))
      end
  end.

(** * Buckets *)

Definition member_of_bucket_array (buckets : option nat) (n_buckets : Z) (node : nat)
    (h : HashmapImpl) : bool :=
  if n_buckets =? 0 then false
  else
    match node_bucket h node, buckets with
    | Some (a, i), Some b => (a =? b)%nat && (0 <=? i) && (i <? n_buckets)
    | _, _ => false
    end.

Definition hm_contains (node : nat) (h : HashmapImpl) : bool :=
  member_of_bucket_array (curr_buckets h) (n_curr_buckets h) node h
  || member_of_bucket_array (prev_buckets h) (n_prev_buckets h) node h.

(** The pointer to the bucket of a hash in an array; the remainder is taken with a
    divisor that is not 0. *)
Definition select_bucket_in (buckets : option nat) (n_buckets hash : Z) : res bucket_ptr :=
  match buckets with
  | None => Panic
  | Some b => Ok (b, hash mod n_buckets)
  end.

Definition select_bucket (hash : Z) (h : HashmapImpl) : res bucket_ptr :=
  panic_if (n_curr_buckets h =? 0) (select_bucket_in (curr_buckets h) (n_curr_buckets h) hash).

Definition follow {A} (p : option A) : res A := match p with Some x => Ok x | None => Panic end.

Definition bucket_insert (bucket : bucket_ptr) (node : nat) (h : HashmapImpl) : res HashmapImpl :=
  let* h :=
    match bucket_head h bucket with
    | Some head =>
        let next := <[node:=Some head]> (bucket_next h) in
        let prev := <[node:=bucket_prev h head]> (bucket_prev h) in
        let* last := follow (prev head) in
        let next := <[last:=Some node]> next in
        let prev := <[head:=Some node]> prev in
        Ok (with_bucket_links prev next h)
    | None =>
        Ok (with_bucket_head (<[bucket:=Some node]> (bucket_head h))
              (with_bucket_links (<[node:=Some node]> (bucket_prev h))
                 (<[node:=Some node]> (bucket_next h)) h))
    end in
  Ok (with_node_bucket (<[node:=Some bucket]> (node_bucket h)) h).

Definition bucket_remove (node : nat) (h : HashmapImpl) : res HashmapImpl :=
  let* bucket := follow (node_bucket h node) in
  let h :=
    if decide (bucket_head h bucket = Some node) then
      if decide (bucket_next h node <> Some node)
      then with_bucket_head (<[bucket:=bucket_next h node]> (bucket_head h)) h
      else with_bucket_head (<[bucket:=None]> (bucket_head h)) h
    else h in
  let* p := follow (bucket_prev h node) in
  let next := <[p:=bucket_next h node]> (bucket_next h) in
  let* n := follow (next node) in
  let prev := <[n:=bucket_prev h node]> (bucket_prev h) in
  let h := with_bucket_links prev next h in
  let* h :=
    if member_of_bucket_array (prev_buckets h) (n_prev_buckets h) node h then
      panic_if (negb (0 <? rehash_remain_nodes h))
        (Ok (with_rehash (n_prev_buckets h) (rehash_pos h) (rehash_remain_nodes h - 1) h))
    else Ok h in
  Ok (with_node_bucket (<[node:=None]> (node_bucket h)) h).

(** The do-while loop of [find_in_bucket_]. *)
Fixpoint find_loop (fuel : nat) (head node : nat) (hash : Z) (key : K) (h : HashmapImpl)
    : run (option nat) :=
  match fuel with
  | O => Ok None
  | S fuel =>
      if (node_hash h node =? hash) && bool_decide (key_of node = key) then ret (Some node)
      else
        let! node := lift (follow (bucket_next h node)) in
        if (node =? head)%nat then ret None else find_loop fuel head node hash key h
  end.

Definition find_in_bucket (fuel : nat) (bucket : bucket_ptr) (hash : Z) (key : K)
    (h : HashmapImpl) : run (option nat) :=
  match bucket_head h bucket with
  | Some head => find_loop fuel head head hash key h
  | None => ret None
  end.

Definition find_in_array (buckets : option nat) (n_buckets hash : Z) (key : K) (h : HashmapImpl)
    : run (option nat) :=
  if n_buckets =? 0 then ret None
  else
    let! bucket := lift (select_bucket_in buckets n_buckets hash) in
    find_in_bucket (Z.to_nat (hm_size h)) bucket hash key h.

Definition find_node (hash : Z) (key : K) (h : HashmapImpl) : run (option nat) :=
  let! elem := find_in_array (curr_buckets h) (n_curr_buckets h) hash key h in
  match elem with
  | Some _ => ret elem
  | None => find_in_array (prev_buckets h) (n_prev_buckets h) hash key h
  end.

(** * The ring of all nodes *)

Definition all_list_insert (node : nat) (h : HashmapImpl) : res HashmapImpl :=
  let next := <[Some node:=Some None]> (all_next h) in
  let prev := <[Some node:=all_prev h None]> (all_prev h) in
  let* last := follow (prev None) in
  Ok (with_all_links (<[None:=Some (Some node)]> prev) (<[last:=Some (Some node)]> next) h).

Definition all_list_remove (node : nat) (h : HashmapImpl) : res HashmapImpl :=
  let* p := follow (all_prev h (Some node)) in
  let next := <[p:=all_next h (Some node)]> (all_next h) in
  let* n := follow (next (Some node)) in
  Ok (with_all_links (<[n:=all_prev h (Some node)]> (all_prev h)) next h).

Definition hm_front (h : HashmapImpl) : option all_ptr :=
  if hm_size h =? 0 then None else all_next h None.

Definition hm_back (h : HashmapImpl) : option all_ptr :=
  if hm_size h =? 0 then None else all_prev h None.

Definition hm_nextof (node : nat) (h : HashmapImpl) : res (option all_ptr) :=
  panic_if (negb (hm_contains node h))
    (if decide (all_next h (Some node) = Some None) then Ok None
     else Ok (all_next h (Some node))).

Definition hm_prevof (node : nat) (h : HashmapImpl) : res (option all_ptr) :=
  panic_if (negb (hm_contains node h))
    (if decide (all_prev h (Some node) = Some None) then Ok None
     else Ok (all_prev h (Some node))).

(** * Rehashing *)

Definition migrate_node (node : nat) (h : HashmapImpl) : res HashmapImpl :=
  let* h := bucket_remove node h in
  let* bucket := select_bucket (node_hash h node) h in
  bucket_insert bucket node h.

(** The loop of [proceed_rehash_]. *)
Fixpoint rehash_loop (fuel : nat) (num_migrations : Z) (h : HashmapImpl) : run HashmapImpl :=
  match fuel with
  | O => Ok None
  | S fuel =>
      panic_if (negb (rehash_pos h <? n_prev_buckets h))
        (match prev_buckets h with
         | None => Panic
         | Some b =>
             match bucket_head h (b, rehash_pos h) with
             | None =>
                 let pos := rehash_pos h + 1 in
                 if pos =? n_prev_buckets h then
                   panic_if (negb (rehash_remain_nodes h =? 0))
                     (ret (with_rehash 0 0 (rehash_remain_nodes h) h))
                 else
                   rehash_loop fuel num_migrations
                     (with_rehash (n_prev_buckets h) pos (rehash_remain_nodes h) h)
             | Some head =>
                 if num_migrations =? 0 then ret h
                 else
                   let! h := lift (migrate_node head h) in
                   rehash_loop fuel (num_migrations - 1) h
             end
         end)
  end.

Definition proceed_rehash (in_insert : bool) (h : HashmapImpl) : run HashmapImpl :=
  if rehash_remain_nodes h =? 0 then ret h
  else
    let num_migrations :=
      if in_insert then
        let inserts_until_rehash := hm_capacity h - hm_size h in
        if inserts_until_rehash =? 0 then rehash_remain_nodes h
        else (rehash_remain_nodes h + inserts_until_rehash - 1) / inserts_until_rehash
      else 1 in
    rehash_loop (Z.to_nat (n_prev_buckets h + rehash_remain_nodes h) + 1) num_migrations h.

(** * Growing *)

Definition hm_allocate (h : HashmapImpl) : bool * list bool :=
  match hm_alloc h with
  | [] => (true, [])
  | b :: alloc => (b, alloc)
  end.

(** [realloc_buckets_]; the memory of a new array is set to NULL. *)
Definition realloc_buckets (n_buckets : Z) (h : HashmapImpl) : res (bool * HashmapImpl) :=
  panic_if (negb (0 <? n_buckets))
    (panic_if (negb (rehash_pos h =? 0))
       (panic_if (negb (rehash_remain_nodes h =? 0))
          (let embedded :=
             (n_buckets <=? num_preallocated_buckets)
             && bool_decide (curr_buckets h <> Some 0%nat) in
           let '(ok, alloc) := if embedded then (true, hm_alloc h) else hm_allocate h in
           let buckets := if embedded then 0%nat else next_array h in
           let next := if embedded then next_array h else S (next_array h) in
           if negb ok then
             Ok (false, mkHashmap (bucket_prev h) (bucket_next h) (all_prev h) (all_next h)
                   (node_hash h) (node_bucket h) (bucket_head h) (curr_buckets h)
                   (n_curr_buckets h) (prev_buckets h) (n_prev_buckets h) (hm_size h)
                   (rehash_pos h) (rehash_remain_nodes h) alloc (next_array h))
           else
             let heads := fun p : bucket_ptr =>
               if (fst p =? buckets)%nat then None else bucket_head h p in
             let prev := match prev_buckets h with
                         | Some a => if (a =? 0)%nat then Some a else None
                         | None => None
                         end in
             let '(prev, n_prev, pos, remain) :=
               match curr_buckets h with
               | Some c => (Some c, n_curr_buckets h, 0, hm_size h)
               | None => (prev, n_prev_buckets h, rehash_pos h, rehash_remain_nodes h)
               end in
             Ok (true, mkHashmap (bucket_prev h) (bucket_next h) (all_prev h) (all_next h)
                   (node_hash h) (node_bucket h) heads (Some buckets) n_buckets prev n_prev
                   (hm_size h) pos remain alloc next)))).

(** The do-while loop of [grow]. *)
Fixpoint grow_size (fuel : nat) (n_buckets size : Z) : run Z :=
  match fuel with
  | O => Ok None
  | S fuel =>
      let! n_buckets := lift (get_next_bucket_size n_buckets) in
      if buckets_capacity n_buckets <=? size then grow_size fuel n_buckets size
      else ret n_buckets
  end.

Definition hm_grow (h : HashmapImpl) : run (bool * HashmapImpl) :=
  let cap := buckets_capacity (n_curr_buckets h) in
  panic_if (negb (hm_size h <=? cap))
    (if hm_size h =? cap then
       let! n_buckets := grow_size 2 (n_curr_buckets h) (hm_size h) in
       let! '(ok, h) := lift (realloc_buckets n_buckets h) in
       if negb ok then ret (false, h)
       else
         let new_cap := buckets_capacity (n_curr_buckets h) in
         panic_if (negb (hm_size h <? new_cap)) (ret (true, h))
     else ret (true, h)).

(** * Insertion and removal *)

Definition hm_insert (node : nat) (hash : Z) (key : K) (h : HashmapImpl)
    : run (bool * HashmapImpl) :=
  let! '(ok, h) :=
    if buckets_capacity (n_curr_buckets h) <=? hm_size h then hm_grow h else ret (true, h) in
  if negb ok then ret (false, h)
  else
    panic_if (bool_decide (node_bucket h node <> None))
      (let! dup := find_node hash key h in
       panic_if (bool_decide (dup <> None))
         (let! bucket := lift (select_bucket hash h) in
          let h := with_node_hash (<[node:=hash]> (node_hash h)) h in
          let! h := lift (bucket_insert bucket node h) in
          let! h := lift (all_list_insert node h) in
          let h := with_size (hm_size h + 1) h in
          let! h := proceed_rehash true h in
          ret (true, h))).

Definition hm_remove (node : nat) (skip_rehash : bool) (h : HashmapImpl) : run HashmapImpl :=
  panic_if (negb (hm_contains node h))
    (let! h := lift (bucket_remove node h) in
     let! h := lift (all_list_remove node h) in
     let h := with_size (hm_size h - 1) h in
     if skip_rehash then ret h else proceed_rehash false h).

(** * Hashmap<T> *)

Definition hashmap_find (key : K) (h : HashmapImpl) : run (option nat) :=
  find_node (key_hash key) key h.

Definition hashmap_insert (n : nat) (h : HashmapImpl) : run (bool * HashmapImpl) :=
  hm_insert n (key_hash (key_of n)) (key_of n) h.

Definition hashmap_remove (n : nat) (h : HashmapImpl) : run HashmapImpl := hm_remove n false h.

(** The loop of the destructor. *)
Fixpoint hashmap_clear (fuel : nat) (h : HashmapImpl) : run HashmapImpl :=
  match hm_front h with
  | Some (Some n) =>
      match fuel with
      | O => Ok None
      | S fuel => let! h := hm_remove n true h in hashmap_clear fuel h
      end
  | _ => ret h
  end.

End Hashmap.
