(* ===== verification/HashmapSafe.v ===== *)
(** The hash map of Hashmap.v is a map from keys to elements that remembers the order of
    insertion: an invariant that ties the pointers, the two bucket arrays and the
    rehashing counters to the list of elements, and what the operations do to that list. *)

From S2P Require Import IntrusiveList Ring Prelude Hashmap.

(** * Buckets *)

(** The bucket [b] of the current or of the previous array. *)
Definition bucket_of (buckets : option nat) (n : Z) (b : nat * Z) : Prop :=
  buckets = Some (fst b) /\ 0 <= snd b < n.

Definition in_curr (h : HashmapImpl) (b : nat * Z) : Prop :=
  bucket_of (curr_buckets h) (n_curr_buckets h) b.

Definition in_prev (h : HashmapImpl) (b : nat * Z) : Prop :=
  bucket_of (prev_buckets h) (n_prev_buckets h) b.

(** The rings of the buckets are the lists [B]. *)
Record buckets_hold (h : HashmapImpl) (B : nat * Z -> list nat) : Prop := {
  bh_head b : in_curr h b \/ in_prev h b -> bucket_head h b = head (B b);
  bh_ring b : ring (bucket_next h) (bucket_prev h) (B b);
  bh_nodup b : NoDup (B b);
  bh_member n b : node_bucket h n = Some b <-> n ∈ B b;
  bh_valid b n : n ∈ B b -> in_curr h b \/ in_prev h b
}.

(** The members that moving a node between buckets does not change. *)
Record same_map (h h' : HashmapImpl) : Prop := {
  sm_all_prev : all_prev h' = all_prev h;
  sm_all_next : all_next h' = all_next h;
  sm_hash : node_hash h' = node_hash h;
  sm_curr : curr_buckets h' = curr_buckets h;
  sm_n_curr : n_curr_buckets h' = n_curr_buckets h;
  sm_prev : prev_buckets h' = prev_buckets h;
  sm_n_prev : n_prev_buckets h' = n_prev_buckets h;
  sm_size : hm_size h' = hm_size h;
  sm_pos : rehash_pos h' = rehash_pos h;
  sm_alloc : hm_alloc h' = hm_alloc h;
  sm_next_array : next_array h' = next_array h
}.

Lemma same_map_trans h1 h2 h3 : same_map h1 h2 -> same_map h2 h3 -> same_map h1 h3.
Proof. intros [] []. split; congruence. Qed.

Lemma other_bucket h B b b' n :
  buckets_hold h B -> n ∈ B b -> b' <> b -> n ∉ B b'.
Proof. intros [] Hn Hb Hn'. apply bh_member0 in Hn, Hn'. congruence. Qed.

(** Rings of other buckets do not change when only pointers of [b]'s nodes and of a node
    in no bucket do. *)
Lemma other_rings h B b nxt prv :
  buckets_hold h B ->
  (forall a, node_bucket h a <> None -> a ∉ B b ->
     nxt a = bucket_next h a /\ prv a = bucket_prev h a) ->
  forall b', b' <> b -> ring nxt prv (B b').
Proof.
  intros HB Ha b' Hb. apply (ring_frame (bucket_next h) (bucket_prev h)); [apply HB|].
  intros a Hin. apply Ha.
  - apply (bh_member h B HB) in Hin. congruence.
  - by apply (other_bucket h B b').
Qed.

Lemma bucket_insert_ok h B b n :
  buckets_hold h B -> in_curr h b \/ in_prev h b -> node_bucket h n = None ->
  exists h', bucket_insert b n h = Ok h' /\ buckets_hold h' (<[b:=B b ++ [n]]> B)
    /\ same_map h h' /\ rehash_remain_nodes h' = rehash_remain_nodes h
    /\ node_bucket h' = <[n:=Some b]> (node_bucket h).
Proof.
  intros HB Hv Hn. unfold bucket_insert. rewrite (bh_head h B HB b Hv).
  assert (forall b', n ∉ B b') as Hfree
    by (intros b' Hin; apply (bh_member h B HB) in Hin; congruence).
  assert (exists nxt prv heads,
    (match head (B b) with
     | Some head =>
         let* last := follow (<[n:=bucket_prev h head]> (bucket_prev h) head) in
         Ok (with_bucket_links (<[head:=Some n]> (<[n:=bucket_prev h head]> (bucket_prev h)))
               (<[last:=Some n]> (<[n:=Some head]> (bucket_next h))) h)
     | None => Ok (with_bucket_head (<[b:=Some n]> (bucket_head h))
              (with_bucket_links (<[n:=Some n]> (bucket_prev h)) (<[n:=Some n]> (bucket_next h)) h))
     end) = Ok (with_bucket_head heads (with_bucket_links prv nxt h))
    /\ ring nxt prv (B b ++ [n])
    /\ (forall a, a <> n -> a ∉ B b -> nxt a = bucket_next h a /\ prv a = bucket_prev h a)
    /\ heads b = head (B b ++ [n]) /\ forall b', b' <> b -> heads b' = bucket_head h b')
    as (nxt & prv & heads & E & HR & Hfr & Hh & Hh').
  { pose proof (bh_ring h B HB b) as HR. pose proof (bh_nodup h B HB b) as HN.
    pose proof (Hfree b) as Hnb. pose proof (bh_head h B HB b Hv) as Hhead.
    destruct (B b) as [|x t]; cbn [head app] in *.
    - eexists _, _, _. split; [reflexivity|]. split; [split; fn_case; done|].
      split; [intros a Ha _; by fn_case|]. split; [by fn_case|]. intros b' Hb'. by fn_case.
    - destruct (ring_append _ _ _ _ n HR HN Hnb) as (p & Hp & Hpx & HR').
      rewrite fn_lookup_insert_ne, Hpx by set_solver. cbn [follow res_bind].
      eexists _, _, (bucket_head h). split; [reflexivity|]. split; [exact HR'|].
      split; [|by split]. intros a Ha Hin.
      assert (p <> a) by (by intros ->). assert (x <> a) by (intros ->; set_solver).
      unfold insert, fn_insert. by rewrite !decide_False by done. }
  rewrite E. cbn [res_bind]. eexists. split; [reflexivity|]. split; [|by split].
  split; cbn.
  - intros b' Hv'. destruct (decide (b' = b)) as [->|Hb']; [by rewrite fn_lookup_insert|].
    rewrite fn_lookup_insert_ne, Hh' by done. by apply HB.
  - intros b'. destruct (decide (b' = b)) as [->|Hb']; [by rewrite fn_lookup_insert|].
    rewrite fn_lookup_insert_ne by done. apply (other_rings h B b); [done| |done].
    intros a Ha Hin. apply Hfr; [|done]. by intros ->.
  - intros b'. destruct (decide (b' = b)) as [->|Hb']; fn_case; [|apply HB].
    rewrite <- Permutation_cons_append. apply NoDup_cons. split; [apply Hfree|apply HB].
  - intros a b'. destruct (decide (a = n)) as [->|Ha]; fn_case.
    + destruct (decide (b' = b)) as [->|Hb']; fn_case; [set_solver|].
      split; [intros [= <-]; done|]. intros Hin. by apply Hfree in Hin.
    + rewrite (bh_member h B HB). destruct (decide (b' = b)) as [->|Hb']; fn_case; set_solver.
  - intros b' a. destruct (decide (b' = b)) as [->|Hb']; fn_case; [done|]. by apply HB.
Qed.

(** The elements of [B b] but [n]. *)
Definition drop_from (b : nat * Z) (n : nat) (B : nat * Z -> list nat) : nat * Z -> list nat :=
  <[b:=filter (.≠ n) (B b)]> B.

(** The assignments of [bucket_remove_] to the links and to the head of the bucket. *)
Lemma bucket_unlink_ok h B b n :
  buckets_hold h B -> node_bucket h n = Some b ->
  exists nxt prv p q,
    bucket_prev h n = Some p /\ bucket_next h n = Some q
    /\ nxt = <[p:=Some q]> (bucket_next h) /\ prv = <[q:=Some p]> (bucket_prev h)
    /\ nxt n = Some q
    /\ ring nxt prv (filter (.≠ n) (B b))
    /\ (forall a, a ∉ B b -> nxt a = bucket_next h a /\ prv a = bucket_prev h a)
    /\ (if decide (bucket_head h b = Some n)
        then if decide (Some q <> Some n) then Some q else None
        else bucket_head h b) = head (filter (.≠ n) (B b)).
Proof.
  intros HB Hn. pose proof Hn as Hin. apply (bh_member h B HB) in Hin.
  pose proof (bh_valid h B HB b n Hin) as Hv. rewrite (bh_head h B HB b Hv).
  apply list_elem_of_split in Hin as (l1 & l2 & Hl).
  pose proof (bh_ring h B HB b) as HR. pose proof (bh_nodup h B HB b) as HN. rewrite Hl in *.
  rewrite filter_out by done.
  destruct (ring_remove _ _ l1 n l2 HR HN) as (p & q & Hp & Hq & Hpin & Hqin & Hqn & Hhd & HR').
  exists (<[p:=Some q]> (bucket_next h)), (<[q:=Some p]> (bucket_prev h)), p, q.
  split_and!; try done.
  - destruct (decide (p = n)) as [->|]; [by rewrite fn_lookup_insert|by rewrite fn_lookup_insert_ne].
  - intros a Ha. assert (p <> a) by (by intros ->). assert (q <> a) by (by intros ->).
    by rewrite !fn_lookup_insert_ne.
  - destruct l1 as [|x l1]; cbn [head app].
    + rewrite decide_True by done. destruct (decide (Some q <> Some n)) as [Hd|Hd].
      * destruct Hhd as [-> | ->]; [done| |done]. exfalso. apply Hd. f_equal. by apply Hqn.
      * apply dec_stable in Hd. injection Hd as ->. by destruct (proj1 Hqn eq_refl) as [_ ->].
    + rewrite decide_False; [done|]. intros [= ->]. cbn in HN. apply NoDup_cons in HN as [HN _].
      apply HN. apply elem_of_app. right. left.
Qed.

Lemma member_of_spec buckets n node h :
  member_of_bucket_array buckets n node h = true
  <-> exists b, node_bucket h node = Some b /\ bucket_of buckets n b.
Proof.
  unfold member_of_bucket_array, bucket_of. destruct (Z.eqb_spec n 0) as [->|Hn].
  - split; [done|]. intros ([a i] & _ & _ & H). cbn in H. lia.
  - destruct (node_bucket h node) as [[a i]|]; [|split; [done|by intros (b & ? & _)]].
    destruct buckets as [b|]; [|split; [done|by intros (? & _ & ? & _)]].
    rewrite !andb_true_iff, Nat.eqb_eq, Z.leb_le, Z.ltb_lt. split.
    + intros [[-> ?] ?]. by exists (b, i).
    + intros (b' & [= <-] & [= ->] & ?). cbn in *. lia.
Qed.

Lemma contains_spec h B n :
  buckets_hold h B -> hm_contains n h = true <-> node_bucket h n <> None.
Proof.
  intros HB. unfold hm_contains. rewrite orb_true_iff, !member_of_spec. split.
  - intros [(b & -> & _)|(b & -> & _)]; done.
  - destruct (node_bucket h n) as [b|] eqn:E; [|done]. intros _.
    destruct (bh_valid h B HB b n) as [?|?]; [by apply (bh_member h B HB)|left|right]; by exists b.
Qed.

Lemma bucket_remove_ok h B b n :
  buckets_hold h B -> node_bucket h n = Some b ->
  (member_of_bucket_array (prev_buckets h) (n_prev_buckets h) n h = true ->
   0 < rehash_remain_nodes h) ->
  exists h', bucket_remove n h = Ok h' /\ buckets_hold h' (drop_from b n B) /\ same_map h h'
    /\ rehash_remain_nodes h'
       = rehash_remain_nodes h
         - (if member_of_bucket_array (prev_buckets h) (n_prev_buckets h) n h then 1 else 0)
    /\ node_bucket h' = <[n:=None]> (node_bucket h).
Proof.
  intros HB Hn Hrem. unfold bucket_remove. rewrite Hn. cbn [follow res_bind].
  destruct (bucket_unlink_ok h B b n HB Hn)
    as (nxt & prv & p & q & Hp & Hq & -> & -> & Hnq & HR & Hfr & Hhd).
  set (heads := if decide (bucket_head h b = Some n)
                then <[b:=if decide (Some q <> Some n) then Some q else None]> (bucket_head h)
                else bucket_head h).
  assert ((if decide (bucket_head h b = Some n)
           then if decide (bucket_next h n <> Some n)
                then with_bucket_head (<[b:=bucket_next h n]> (bucket_head h)) h
                else with_bucket_head (<[b:=None]> (bucket_head h)) h
           else h) = with_bucket_head heads h) as ->.
  { unfold heads. rewrite Hq. destruct (decide (bucket_head h b = Some n)).
    - by destruct (decide (Some q <> Some n)).
    - by destruct h. }
  cbn [with_bucket_head bucket_prev bucket_next]. rewrite Hp. cbn [follow res_bind].
  rewrite Hq, Hnq. cbn [follow res_bind].
  assert (heads b = head (filter (.≠ n) (B b))) as Hheads.
  { unfold heads. rewrite <- Hhd. destruct (decide (bucket_head h b = Some n)); [|done].
    by rewrite fn_lookup_insert. }
  assert (forall b', b' <> b -> heads b' = bucket_head h b') as Hheads'.
  { intros b' Hb'. unfold heads. destruct (decide (bucket_head h b = Some n)); [|done].
    by rewrite fn_lookup_insert_ne. }
  match goal with |- context [member_of_bucket_array _ _ n ?h1] =>
    change (member_of_bucket_array (prev_buckets h1) (n_prev_buckets h1) n h1)
      with (member_of_bucket_array (prev_buckets h) (n_prev_buckets h) n h) end.
  assert (forall remain, exists h',
    h' = with_node_bucket (<[n:=None]> (node_bucket h))
           (with_rehash (n_prev_buckets h) (rehash_pos h) remain
              (with_bucket_links (<[q:=Some p]> (bucket_prev h)) (<[p:=Some q]> (bucket_next h))
                 (with_bucket_head heads h)))
    /\ buckets_hold h' (drop_from b n B) /\ same_map h h'
    /\ node_bucket h' = <[n:=None]> (node_bucket h)) as Hok.
  { intros remain. eexists. split; [reflexivity|]. split; [|by split].
    split; cbn; unfold drop_from.
    - intros b' Hv'. destruct (decide (b' = b)) as [->|Hb']; [by rewrite fn_lookup_insert|].
      rewrite fn_lookup_insert_ne, Hheads' by done. by apply HB.
    - intros b'. destruct (decide (b' = b)) as [->|Hb']; [by rewrite fn_lookup_insert|].
      rewrite fn_lookup_insert_ne by done. apply (other_rings h B b); [done| |done].
      intros a _ Hin. by apply Hfr.
    - intros b'. destruct (decide (b' = b)) as [->|Hb']; fn_case; [|apply HB].
      apply NoDup_filter, HB.
    - intros a b'. destruct (decide (a = n)) as [->|Ha]; fn_case.
      + destruct (decide (b' = b)) as [->|Hb']; fn_case.
        * rewrite list_elem_of_filter. naive_solver.
        * rewrite <- (bh_member h B HB), Hn. naive_solver.
      + rewrite (bh_member h B HB). destruct (decide (b' = b)) as [->|Hb']; fn_case; [|done].
        rewrite list_elem_of_filter. naive_solver.
    - intros b' a. destruct (decide (b' = b)) as [->|Hb']; fn_case; [|by apply HB].
      rewrite list_elem_of_filter. intros [_ ?]. by apply (bh_valid h B HB b a). }
  destruct (member_of_bucket_array (prev_buckets h) (n_prev_buckets h) n h).
  - cbn [rehash_remain_nodes with_bucket_links with_bucket_head].
    rewrite (proj2 (Z.ltb_lt _ _)) by auto. cbn [negb panic_if res_bind].
    destruct (Hok (rehash_remain_nodes h - 1)) as (h' & E & H1 & H2 & H3).
    exists h'. split; [by rewrite E|]. split_and!; [done|done|by rewrite E|done].
  - cbn [res_bind]. destruct (Hok (rehash_remain_nodes h)) as (h' & E & H1 & H2 & H3).
    exists h'. split; [by rewrite E|]. split_and!; [done|done|rewrite E; cbn; lia|done].
Qed.

(** * The ring of all nodes *)

Definition all_ring (h : HashmapImpl) (all : list nat) : Prop :=
  chain (all_next h) (all_prev h) None (Some <$> all) None.

Lemma nodup_all (all : list nat) : NoDup all -> NoDup (None :: (Some <$> all)).
Proof.
  intros HN. apply NoDup_cons. split; [|by apply (NoDup_fmap_2 _)].
  by intros (n & ? & _)%list_elem_of_fmap.
Qed.

Lemma head_not_node (all : list nat) : None ∉ Some <$> all.
Proof. by intros (n & ? & _)%list_elem_of_fmap. Qed.

Lemma all_list_insert_ok h all n :
  all_ring h all -> NoDup all -> n ∉ all ->
  exists nxt prv, all_list_insert n h = Ok (with_all_links prv nxt h)
    /\ all_ring (with_all_links prv nxt h) (all ++ [n]).
Proof.
  intros HC HN Hn. unfold all_list_insert.
  assert (Some n ∉ None :: (Some <$> all)) as Hn'.
  { intros [?|(m & [= ->] & ?)%list_elem_of_fmap]%elem_of_cons; done. }
  unfold all_ring in HC. rewrite <- (app_nil_r (Some <$> all)) in HC.
  pose proof (nodup_all all HN) as HN'. rewrite <- (app_nil_r (Some <$> all)) in HN', Hn'.
  destruct (chain_insert_at _ _ _ _ _ _ (Some n) HC HN') as [Hp HC'];
    [rewrite app_nil_r; apply head_not_node|done|done|].
  cbn [head default from_option] in Hp, HC'. rewrite fn_lookup_insert_ne by done.
  rewrite Hp. cbn [follow res_bind]. eexists _, _. split; [reflexivity|].
  unfold all_ring. cbn [all_next all_prev with_all_links]. rewrite fmap_app. exact HC'.
Qed.

Lemma all_list_remove_ok h all n :
  all_ring h all -> NoDup all -> n ∈ all ->
  exists nxt prv, all_list_remove n h = Ok (with_all_links prv nxt h)
    /\ all_ring (with_all_links prv nxt h) (filter (.≠ n) all).
Proof.
  intros HC HN Hn. apply list_elem_of_split in Hn as (l1 & l2 & ->).
  unfold all_list_remove, all_ring in *. rewrite filter_out by done.
  pose proof (nodup_all _ HN) as HN'. pose proof (head_not_node (l1 ++ n :: l2)) as Hh.
  rewrite fmap_app, fmap_cons in HC, HN', Hh.
  destruct (chain_remove _ _ _ _ _ _ _ HC HN' Hh) as (Hp & Hq & HC').
  rewrite Hp, Hq. cbn [follow res_bind]. rewrite fn_lookup_insert_ne.
  2: { intros E. pose proof (last_in None (Some <$> l1)) as Hl. rewrite E in Hl.
       rewrite app_comm_cons in HN'. apply NoDup_app in HN' as (_ & HN' & _).
       apply (HN' (Some n) Hl). left. }
  rewrite Hq. cbn [follow res_bind]. eexists _, _. split; [reflexivity|].
  cbn [all_next all_prev with_all_links]. rewrite fmap_app. exact HC'.
Qed.

(** * Searching *)

Section Search.

Context {K : Type} `{EqDecision K} (key_of : nat -> K) (key_hash : K -> Z).

(** The first node of a list that has the key. *)
Definition matches (h : HashmapImpl) (hash : Z) (key : K) (n : nat) : Prop :=
  node_hash h n = hash /\ key_of n = key.

#[global] Instance matches_dec h hash key n : Decision (matches h hash key n).
Proof. unfold matches. apply _. Defined.

Definition first_match (h : HashmapImpl) (hash : Z) (key : K) (l : list nat) : option nat :=
  snd <$> list_find (matches h hash key) l.

Lemma first_match_cons h hash key n l :
  first_match h hash key (n :: l)
  = if decide (matches h hash key n) then Some n else first_match h hash key l.
Proof.
  unfold first_match. cbn. destruct (decide (matches h hash key n)); [done|].
  by destruct (list_find _ l) as [[]|].
Qed.

Lemma find_loop_ok fuel : forall h head n l hash key,
  chain (bucket_next h) (bucket_prev h) n l head -> head ∉ l -> (length l < fuel)%nat ->
  find_loop key_of fuel head n hash key h = ret (first_match h hash key (n :: l)).
Proof.
  induction fuel as [|fuel IH]; intros h hd n l hash key HC Hl Hf; [lia|].
  cbn [find_loop]. rewrite first_match_cons.
  assert ((node_hash h n =? hash) && bool_decide (key_of n = key)
          = bool_decide (matches h hash key n)) as ->.
  { apply eq_iff_eq_true. by rewrite andb_true_iff, Z.eqb_eq, !bool_decide_eq_true. }
  destruct (decide (matches h hash key n)) as [Hm|Hm];
    [by rewrite bool_decide_true|rewrite bool_decide_false by done].
  destruct l as [|m l]; cbn [chain] in HC.
  - destruct HC as [-> _]. cbn. by rewrite Nat.eqb_refl.
  - destruct HC as [[-> _] HC]. cbn [follow lift res_bind run_bind ret].
    rewrite (proj2 (Nat.eqb_neq _ _)) by (intros ->; apply Hl; left).
    apply IH; [done| |cbn in Hf; lia]. intros Hin. apply Hl. by right.
Qed.

Lemma find_in_bucket_ok fuel h B b hash key :
  buckets_hold h B -> in_curr h b \/ in_prev h b -> (length (B b) <= fuel)%nat ->
  find_in_bucket key_of fuel b hash key h = ret (first_match h hash key (B b)).
Proof.
  intros HB Hv Hf. unfold find_in_bucket. rewrite (bh_head h B HB b Hv).
  pose proof (bh_ring h B HB b) as HR. pose proof (bh_nodup h B HB b) as HN.
  destruct (B b) as [|x t]; [done|]. cbn [head]. apply find_loop_ok; [done| |done].
  by apply NoDup_cons in HN as [? _].
Qed.

End Search.

(** * The invariant *)

Section Holds.

Context {K : Type} `{EqDecision K} (key_of : nat -> K) (key_hash : K -> Z) (num_pre : Z).

(** The elements that rehashing has not moved yet. *)
Definition pending (h : HashmapImpl) (n : nat) : Prop :=
  exists b, node_bucket h n = Some b /\ in_prev h b.

(** The arrays and counters. *)
Record arrays_ok (h : HashmapImpl) (B : nat * Z -> list nat) : Prop := {
  ao_n_curr : 0 <= n_curr_buckets h;
  ao_n_prev : 0 <= n_prev_buckets h;
  ao_curr : 0 < n_curr_buckets h <-> curr_buckets h <> None;
  ao_prev : 0 < n_prev_buckets h -> prev_buckets h <> None /\ 0 < n_curr_buckets h;
  ao_distinct a : curr_buckets h = Some a -> prev_buckets h <> Some a;
  ao_old a : curr_buckets h = Some a \/ prev_buckets h = Some a -> (a < next_array h)%nat;
  ao_next : (0 < next_array h)%nat;
  ao_first : curr_buckets h = None -> prev_buckets h = None;
  ao_pos : 0 <= rehash_pos h;
  ao_pos_lt : 0 < n_prev_buckets h -> rehash_pos h < n_prev_buckets h;
  ao_pos_0 : n_prev_buckets h = 0 -> rehash_pos h = 0;
  ao_moved a i : prev_buckets h = Some a -> 0 <= i < rehash_pos h -> B (a, i) = [];
  ao_index b n : n ∈ B b -> in_curr h b -> snd b = node_hash h n mod n_curr_buckets h;
  ao_prev_index b n : n ∈ B b -> in_prev h b -> snd b = node_hash h n mod n_prev_buckets h
}.

(** The map holds the elements [all], inserted in this order. *)
Record holds (h : HashmapImpl) (B : nat * Z -> list nat) (all : list nat) : Prop := {
  ho_buckets : buckets_hold h B;
  ho_arrays : arrays_ok h B;
  ho_all : all_ring h all;
  ho_nodup : NoDup all;
  ho_member n : n ∈ all <-> node_bucket h n <> None;
  ho_hash n : n ∈ all -> node_hash h n = key_hash (key_of n);
  ho_keys n m : n ∈ all -> m ∈ all -> key_of n = key_of m -> n = m;
  ho_size : hm_size h = Z.of_nat (length all);
  ho_remain : exists pl, NoDup pl /\ (forall n, n ∈ pl <-> pending h n)
                         /\ rehash_remain_nodes h = Z.of_nat (length pl);
  ho_cap : hm_size h <= hm_capacity h
}.

Lemma in_curr_not_prev h B b : arrays_ok h B -> in_curr h b -> in_prev h b -> False.
Proof. intros HA [H1 _] [H2 _]. by apply (ao_distinct h B HA (fst b)). Qed.

(** ** Searching *)

Lemma bucket_size_le h B all b : holds h B all -> (length (B b) <= Z.to_nat (hm_size h))%nat.
Proof.
  intros HH. rewrite (ho_size h B all HH), Nat2Z.id. apply submseteq_length, NoDup_submseteq.
  - apply HH.
  - intros n Hn. apply (ho_member h B all HH).
    apply (bh_member h B (ho_buckets h B all HH)) in Hn. congruence.
Qed.

Lemma first_match_Some (h : HashmapImpl) hash key l n :
  first_match key_of h hash key l = Some n -> n ∈ l /\ matches key_of h hash key n.
Proof.
  unfold first_match. destruct (list_find _ l) as [[i m]|] eqn:E; [|done]. intros [= <-].
  apply list_find_Some in E as (H1 & H2 & _). split; [by eapply list_elem_of_lookup_2|done].
Qed.

Lemma first_match_None (h : HashmapImpl) hash key l :
  first_match key_of h hash key l = None -> forall n, n ∈ l -> ~ matches key_of h hash key n.
Proof.
  unfold first_match. destruct (list_find _ l) as [[i m]|] eqn:E; [done|]. intros _.
  apply list_find_None in E. rewrite Forall_forall in E. exact E.
Qed.

(** Looking through one array finds the elements in its buckets. *)
Lemma find_in_array_ok h B all buckets n_buckets key :
  holds h B all -> 0 <= n_buckets ->
  (0 < n_buckets -> exists a, buckets = Some a) ->
  (forall b, bucket_of buckets n_buckets b -> in_curr h b \/ in_prev h b) ->
  (forall b n, n ∈ B b -> bucket_of buckets n_buckets b -> snd b = node_hash h n mod n_buckets) ->
  exists r, find_in_array key_of buckets n_buckets (key_hash key) key h = ret r
    /\ match r with
       | Some n => n ∈ all /\ key_of n = key
       | None => forall n b, node_bucket h n = Some b -> bucket_of buckets n_buckets b ->
                   key_of n <> key
       end.
Proof.
  intros HH Hn Hb Hv Hidx. unfold find_in_array. destruct (Z.eqb_spec n_buckets 0) as [->|H0].
  - exists None. split; [done|]. intros n b _ [_ H]. lia.
  - destruct Hb as [a ->]; [lia|]. cbn [select_bucket_in lift res_bind run_bind ret].
    assert (bucket_of (Some a) n_buckets (a, key_hash key mod n_buckets)) as Hbk.
    { split; [done|]. cbn. apply Z.mod_pos_bound. lia. }
    pose proof (ho_buckets h B all HH) as HB.
    rewrite (find_in_bucket_ok key_of _ h B) by (done || auto || by apply (bucket_size_le h B all)).
    eexists. split; [reflexivity|]. destruct (first_match _ _ _ _ _) as [n|] eqn:E.
    + apply first_match_Some in E as [Hin [_ Hk]]. split; [|done].
      apply (ho_member h B all HH). apply (bh_member h B HB) in Hin. congruence.
    + intros n [a' i] Hnb [[= <-] Hi] Hk. cbn in Hi.
      assert (n ∈ all) as Hin by (apply (ho_member h B all HH); congruence).
      apply (bh_member h B HB) in Hnb as Hnb'.
      pose proof (Hidx (a, i) n Hnb' (conj eq_refl Hi)) as Hmod. cbn in Hmod.
      rewrite (ho_hash h B all HH n Hin), Hk in Hmod. subst i.
      apply (first_match_None _ _ _ _ E n Hnb'). split; [|done].
      by rewrite (ho_hash h B all HH n Hin), Hk.
Qed.

Lemma find_node_ok h B all key :
  holds h B all ->
  exists r, find_node key_of (key_hash key) key h = ret r
    /\ match r with
       | Some n => n ∈ all /\ key_of n = key
       | None => forall n, n ∈ all -> key_of n <> key
       end.
Proof.
  intros HH. pose proof (ho_arrays h B all HH) as HA. pose proof (ho_buckets h B all HH) as HB.
  unfold find_node.
  destruct (find_in_array_ok h B all (curr_buckets h) (n_curr_buckets h) key HH)
    as (r & -> & Hr); [apply HA| |by left|intros b n ? ?; by apply (ao_index h B HA)|].
  { intros Hpos. apply (ao_curr h B HA) in Hpos. destruct (curr_buckets h); [by eexists|done]. }
  cbn [run_bind ret]. destruct r as [n|]; [by exists (Some n)|].
  destruct (find_in_array_ok h B all (prev_buckets h) (n_prev_buckets h) key HH)
    as (r & -> & Hr'); [apply HA| |by right|intros b n ? ?; by apply (ao_prev_index h B HA)|].
  { intros Hpos. apply (ao_prev h B HA) in Hpos as [? _]. destruct (prev_buckets h); [by eexists|done]. }
  exists r. split; [done|]. destruct r as [n|]; [done|]. intros n Hin.
  apply (ho_member h B all HH) in Hin. destruct (node_bucket h n) as [b|] eqn:E; [|done].
  destruct (bh_valid h B HB b n) as [Hc|Hp]; [by apply (bh_member h B HB)|..].
  - by apply (Hr n b).
  - by apply (Hr' n b).
Qed.

(** ** Moving one node *)

Lemma same_in_curr h h' b : same_map h h' -> in_curr h' b <-> in_curr h b.
Proof. intros []. unfold in_curr. by rewrite sm_curr0, sm_n_curr0. Qed.

Lemma same_in_prev h h' b : same_map h h' -> in_prev h' b <-> in_prev h b.
Proof. intros []. unfold in_prev. by rewrite sm_prev0, sm_n_prev0. Qed.

(** The buckets after [n] has moved from [b] to [c]. *)
Definition moved (b c : nat * Z) (n : nat) (B : nat * Z -> list nat) : nat * Z -> list nat :=
  <[c:=drop_from b n B c ++ [n]]> (drop_from b n B).

Lemma elem_of_drop_from b n B x m :
  (forall x, n ∈ B x -> x = b) -> m ∈ drop_from b n B x <-> m <> n /\ m ∈ B x.
Proof.
  intros Hb. unfold drop_from. destruct (decide (x = b)) as [->|Hx]; fn_case.
  - by rewrite list_elem_of_filter.
  - split; [|by intros []]. intros Hm. split; [|done]. intros ->. by apply Hb in Hm.
Qed.

Lemma elem_of_moved b c n B x m :
  (forall x, n ∈ B x -> x = b) ->
  m ∈ moved b c n B x <-> (m = n /\ x = c) \/ (m <> n /\ m ∈ B x).
Proof.
  intros Hb. unfold moved. destruct (decide (x = c)) as [->|Hx]; fn_case.
  - rewrite elem_of_app, list_elem_of_singleton, elem_of_drop_from by done.
    destruct (decide (m = n)); naive_solver.
  - rewrite elem_of_drop_from by done. naive_solver.
Qed.

(** What only depends on the buckets of the nodes. *)
Lemma arrays_ok_same h h' B B' :
  arrays_ok h B -> same_map h h' ->
  (forall b n, n ∈ B' b -> in_prev h b -> n ∈ B b) ->
  (forall b n, n ∈ B' b -> in_curr h b -> snd b = node_hash h n mod n_curr_buckets h) ->
  arrays_ok h' B'.
Proof.
  intros HA HS Hp Hc. pose proof HS as [].
  assert (forall i, 0 <= i < rehash_pos h -> 0 <= i < n_prev_buckets h) as Hpos.
  { intros i Hi. pose proof (ao_pos_0 h B HA). pose proof (ao_n_prev h B HA).
    pose proof (ao_pos_lt h B HA). destruct (decide (n_prev_buckets h = 0)); intuition lia. }
  destruct HA. split;
    rewrite ?sm_curr0, ?sm_n_curr0, ?sm_prev0, ?sm_n_prev0, ?sm_pos0, ?sm_next_array0; auto.
  - intros a i Ha Hi. destruct (B' (a, i)) as [|m l] eqn:E; [done|].
    assert (m ∈ B (a, i)) as Hm.
    { apply Hp; [rewrite E; left|]. split; [done|]. by apply Hpos. }
    rewrite (ao_moved0 a i Ha Hi) in Hm. by apply not_elem_of_nil in Hm.
  - intros b n Hn Hb. rewrite sm_hash0. apply Hc; [done|]. by apply (same_in_curr h h').
  - intros b n Hn Hb. rewrite sm_hash0. apply (same_in_prev h h') in Hb; [|done]. auto.
Qed.

Lemma migrate_node_ok h B all n b :
  holds h B all -> node_bucket h n = Some b -> in_prev h b ->
  exists h' B', migrate_node n h = Ok h' /\ holds h' B' all /\ same_map h h'
    /\ rehash_remain_nodes h' = rehash_remain_nodes h - 1.
Proof.
  intros HH Hn Hp. pose proof (ho_buckets h B all HH) as HB. pose proof (ho_arrays h B all HH) as HA.
  destruct (ho_remain h B all HH) as (pl & Npl & Epl & Hrem).
  assert (n ∈ pl) as Hpl by (apply Epl; by exists b).
  assert (0 < n_prev_buckets h) as Hprev by (destruct Hp as [_ ?]; lia).
  destruct (ao_prev h B HA Hprev) as [_ Hcurr].
  assert (member_of_bucket_array (prev_buckets h) (n_prev_buckets h) n h = true) as Hmem
    by (apply member_of_spec; by exists b).
  unfold migrate_node.
  destruct (bucket_remove_ok h B b n HB Hn) as (h1 & -> & HB1 & S1 & R1 & N1).
  { intros _. rewrite Hrem. apply list_elem_of_split in Hpl as (? & ? & ->).
    rewrite length_app. cbn. lia. }
  rewrite Hmem in R1. cbn [res_bind]. unfold select_bucket, select_bucket_in.
  pose proof (ao_curr h B HA) as Hc. destruct (curr_buckets h) as [c|] eqn:Ec; [|naive_solver].
  pose proof S1 as []. rewrite sm_n_curr0, sm_curr0, sm_hash0, Ec, (proj2 (Z.eqb_neq _ 0)) by lia.
  cbn [panic_if res_bind].
  set (bc := (c, node_hash h n mod n_curr_buckets h)).
  assert (in_curr h bc) as Hbc.
  { split; [done|]. cbn. apply Z.mod_pos_bound. lia. }
  destruct (bucket_insert_ok h1 (drop_from b n B) bc n HB1) as (h2 & -> & HB2 & S2 & R2 & N2).
  { left. by apply (same_in_curr h h1). }
  { rewrite N1. by rewrite fn_lookup_insert. }
  exists h2, (moved b bc n B). split; [done|]. pose proof (same_map_trans _ _ _ S1 S2) as S12.
  assert (forall x, n ∈ B x -> x = b) as Hb
    by (intros x Hx; apply (bh_member h B HB) in Hx; congruence).
  assert (forall m, m <> n -> node_bucket h2 m = node_bucket h m) as Hother.
  { intros m Hm. rewrite N2, N1. by fn_case. }
  assert (node_bucket h2 n = Some bc) as Hnew by (rewrite N2; by fn_case).
  split; [|split; [done|lia]].
  pose proof S12 as []. split.
  - exact HB2.
  - apply (arrays_ok_same h h2 B); [done|done|..].
    + intros x m Hm Hx. apply elem_of_moved in Hm as [[-> ->]|[_ Hm]]; [|done|done].
      by destruct (in_curr_not_prev h B bc).
    + intros x m Hm Hx. apply elem_of_moved in Hm as [[-> ->]|[_ Hm]]; [done| |done].
      by apply (ao_index h B HA).
  - unfold all_ring. rewrite sm_all_prev1, sm_all_next1. apply HH.
  - apply HH.
  - intros m. rewrite (ho_member h B all HH). destruct (decide (m = n)) as [->|Hm].
    + rewrite Hn, Hnew. done.
    + by rewrite Hother.
  - intros m Hm. rewrite sm_hash1. by apply (ho_hash h B all HH).
  - apply HH.
  - rewrite sm_size1. apply HH.
  - exists (filter (.≠ n) pl). split_and!; [by apply NoDup_filter|..].
    + intros m. rewrite list_elem_of_filter, Epl. unfold pending.
      destruct (decide (m = n)) as [->|Hm].
      * split; [naive_solver|]. intros (x & Hx & Hx'). rewrite Hnew in Hx. injection Hx as <-.
        apply (same_in_prev h h2) in Hx'; [|done]. by destruct (in_curr_not_prev h B bc).
      * rewrite Hother by done. setoid_rewrite (same_in_prev h h2 _ S12). naive_solver.
    + rewrite R2, R1, Hrem. apply list_elem_of_split in Hpl as (l1 & l2 & ->).
      rewrite filter_out, !length_app by done. cbn. lia.
  - rewrite sm_size1. unfold hm_capacity. rewrite sm_n_curr1. apply HH.
Qed.

(** ** The rehashing loop *)

Lemma rehash_advance h B all a :
  holds h B all -> prev_buckets h = Some a -> rehash_pos h + 1 < n_prev_buckets h ->
  B (a, rehash_pos h) = [] ->
  holds (with_rehash (n_prev_buckets h) (rehash_pos h + 1) (rehash_remain_nodes h) h) B all.
Proof.
  intros [] Ha Hlt He. split; try done.
  - by destruct ho_buckets0.
  - destruct ho_arrays0. split; cbn; try done; try lia.
    intros a' i Ha' Hi. destruct (decide (i = rehash_pos h)) as [->|Hne]; [congruence|].
    apply ao_moved0; [done|lia].
Qed.

Lemma rehash_finish h B all :
  holds h B all -> (forall b, in_prev h b -> B b = []) ->
  rehash_remain_nodes h = 0 /\ holds (with_rehash 0 0 (rehash_remain_nodes h) h) B all.
Proof.
  intros HH He. pose proof (ho_buckets h B all HH) as HB.
  assert (forall n, ~ pending h n) as Hnone.
  { intros n (b & Hn & Hb). apply (bh_member h B HB) in Hn. rewrite (He b Hb) in Hn.
    by apply not_elem_of_nil in Hn. }
  destruct (ho_remain h B all HH) as (pl & Npl & Epl & Hrem).
  assert (pl = []) as ->.
  { destruct pl as [|n pl]; [done|]. destruct (Hnone n). apply Epl. left. }
  split; [done|]. destruct HH. split; try done.
  - destruct HB. split; try done.
    + intros b [Hb|[_ Hb]]; [apply bh_head0; by left|cbn in Hb; lia].
    + intros b n Hn. left. destruct (bh_valid0 b n Hn) as [?|Hp]; [done|].
      rewrite (He b Hp) in Hn. by apply not_elem_of_nil in Hn.
  - destruct ho_arrays0. split; cbn; try done; try lia.
    intros b n _ [_ Hb]. cbn in Hb. lia.
  - exists []. split_and!; [constructor| |done]. intros n. split; [by intros ?%not_elem_of_nil|].
    intros (b & _ & _ & Hb). cbn in Hb. lia.
Qed.

Lemma rehash_loop_ok fuel : forall m h B all,
  holds h B all -> 0 < n_prev_buckets h -> 0 <= m ->
  n_prev_buckets h - rehash_pos h + rehash_remain_nodes h < Z.of_nat fuel ->
  exists h' B', rehash_loop fuel m h = ret h' /\ holds h' B' all
    /\ hm_size h' = hm_size h
    /\ (n_curr_buckets h' = n_curr_buckets h /\ hm_alloc h' = hm_alloc h)
    /\ rehash_remain_nodes h' <= rehash_remain_nodes h
    /\ (rehash_remain_nodes h <= m -> rehash_remain_nodes h' = 0)
    /\ (rehash_remain_nodes h' = 0 -> rehash_pos h' = 0).
Proof.
  induction fuel as [|fuel IH]; intros m h B all HH Hnp Hm Hf.
  { pose proof (ao_pos_lt h B (ho_arrays h B all HH) Hnp).
    destruct (ho_remain h B all HH) as (pl & _ & _ & Hr). lia. }
  pose proof (ho_arrays h B all HH) as HA. pose proof (ho_buckets h B all HH) as HB.
  pose proof (ao_pos_lt h B HA Hnp) as Hlt. pose proof (ao_pos h B HA) as Hpos.
  cbn [rehash_loop]. rewrite (proj2 (Z.ltb_lt _ _)) by done. cbn [negb panic_if].
  destruct (ao_prev h B HA Hnp) as [Hp _]. destruct (prev_buckets h) as [a|] eqn:Ea; [|done].
  assert (in_prev h (a, rehash_pos h)) as Hin by (split; [done|cbn; lia]).
  rewrite (bh_head h B HB) by (by right). destruct (B (a, rehash_pos h)) as [|n l] eqn:EB; cbn [head].
  - destruct (Z.eqb_spec (rehash_pos h + 1) (n_prev_buckets h)) as [E|E].
    + destruct (rehash_finish h B all HH) as [Hz HH'].
      { intros [a' i] [Ha' Hi]. cbn in Ha', Hi. assert (a' = a) as -> by congruence.
        destruct (decide (i = rehash_pos h)) as [->|Hne]; [done|].
        apply (ao_moved h B HA); [done|lia]. }
      rewrite Hz in *. cbn [Z.eqb negb panic_if]. eexists _, B. split; [reflexivity|].
      split; [exact HH'|]. by split_and!.
    + destruct (IH m _ B all (rehash_advance h B all a HH Ea ltac:(lia) EB))
        as (h' & B' & -> & H1 & H2 & H3 & H4 & H5 & H6); [done|done|cbn; lia|].
      by exists h', B'.
  - assert (node_bucket h n = Some (a, rehash_pos h)) as Hn
      by (apply (bh_member h B HB); rewrite EB; left).
    destruct (Z.eqb_spec m 0) as [->|Hm0].
    + destruct (ho_remain h B all HH) as (pl & _ & Epl & Hrem).
      assert (n ∈ pl) as Hpl by (apply Epl; by exists (a, rehash_pos h)).
      destruct pl; [by apply not_elem_of_nil in Hpl|]. cbn in Hrem.
      exists h, B. split_and!; try done; lia.
    + destruct (migrate_node_ok h B all n (a, rehash_pos h) HH Hn Hin)
        as (h1 & B1 & -> & HH1 & S1 & R1). cbn [lift res_bind run_bind ret].
      pose proof S1 as []. destruct (IH (m - 1) h1 B1 all HH1)
        as (h' & B' & -> & H1 & H2 & H3 & H4 & H5 & H6); [lia|lia|lia|].
      destruct H3 as [H3 H3']. exists h', B'. split_and!; try done; congruence || lia.
Qed.

Lemma proceed_rehash_ok h B all in_insert :
  holds h B all ->
  exists h' B', proceed_rehash in_insert h = ret h' /\ holds h' B' all
    /\ hm_size h' = hm_size h
    /\ (n_curr_buckets h' = n_curr_buckets h /\ hm_alloc h' = hm_alloc h)
    /\ rehash_remain_nodes h' <= rehash_remain_nodes h
    /\ (in_insert = true -> hm_size h = hm_capacity h -> rehash_remain_nodes h' = 0)
    /\ ((rehash_remain_nodes h = 0 -> rehash_pos h = 0) ->
        rehash_remain_nodes h' = 0 -> rehash_pos h' = 0).
Proof.
  intros HH. unfold proceed_rehash. destruct (Z.eqb_spec (rehash_remain_nodes h) 0) as [Hz|Hz].
  { exists h, B. by split_and!. }
  destruct (ho_remain h B all HH) as (pl & Npl & Epl & Hrem).
  assert (0 < n_prev_buckets h) as Hnp.
  { destruct pl as [|n pl]; [by rewrite Hrem in Hz|].
    destruct (proj1 (Epl n)) as (b & _ & _ & Hb); [left|]. lia. }
  pose proof (ho_cap h B all HH). pose proof (ao_pos h B (ho_arrays h B all HH)).
  set (m := if in_insert then _ else 1).
  assert (0 <= m) as Hm.
  { unfold m. destruct in_insert; [|lia]. cbv zeta. case_if; [lia|]. apply Z.div_pos; lia. }
  destruct (rehash_loop_ok (Z.to_nat (n_prev_buckets h + rehash_remain_nodes h) + 1) m h B all HH Hnp Hm)
    as (h' & B' & -> & H1 & H2 & H3 & H4 & H5 & H6); [lia|].
  destruct H3. exists h', B'. split_and!; try done. intros -> Hfull. apply H5. unfold m. cbv zeta.
  rewrite Hfull, Z.sub_diag. cbn. lia.
Qed.

(** ** Growing *)

Lemma next_embedded_gt counts c n : next_embedded num_pre counts c = Some n -> c < n.
Proof.
  induction counts as [|x counts IH]; [done|]. cbn. destruct counts as [|y counts]; [done|].
  destruct (num_pre <? x); [done|]. destruct ((c <? x) && (num_pre <? y)) eqn:E; [|exact IH].
  intros [= <-]. apply andb_true_iff in E as [E _]. by apply Z.ltb_lt.
Qed.

Lemma next_arena_gt counts c n : next_arena counts c = Some n -> c < n.
Proof.
  induction counts as [|x counts IH]; [done|]. cbn. repeat case_if; auto. by intros [= <-].
Qed.

Lemma next_arena_None counts c :
  next_arena counts c = None -> forall n, n ∈ counts -> n < min_arena_count \/ n <= c.
Proof.
  induction counts as [|x counts IH]; cbn; [by intros _ n ?%not_elem_of_nil|].
  intros E n [->|Hn]%elem_of_cons; destruct (Z.ltb_spec x min_arena_count), (Z.ltb_spec c x);
    try done; auto.
Qed.

Lemma get_next_bucket_size_ok c :
  0 <= c < 2 ^ 62 -> exists n, get_next_bucket_size num_pre c = Ok n /\ c < n.
Proof.
  intros Hc. unfold get_next_bucket_size.
  destruct (if c <? num_pre then next_embedded num_pre prime_counts c else None) as [n|] eqn:E.
  { exists n. split; [done|]. case_if_in E; [by apply next_embedded_gt in E|done]. }
  destruct (next_arena prime_counts c) as [n|] eqn:E2.
  { exists n. split; [done|]. by apply next_arena_gt in E2. }
  assert (786433 <= c).
  { destruct (next_arena_None _ _ E2 786433) as [H|]; [|unfold min_arena_count in H; lia|done].
    apply (bool_decide_unpack _). vm_compute. exact I. }
  rewrite wrap_u_small by (unfold is_u; lia). rewrite (proj2 (Z.ltb_ge _ _)) by lia.
  eexists. split; [reflexivity|]. lia.
Qed.

Lemma capacity_mono n m : n < m -> buckets_capacity n < buckets_capacity m.
Proof. intros. unfold buckets_capacity, LoadFactorNum, LoadFactorDen. zlia. Qed.

Lemma nothing_pending h B all b n :
  holds h B all -> rehash_remain_nodes h = 0 -> n ∈ B b -> in_curr h b.
Proof.
  intros HH Hz Hn. destruct (ho_remain h B all HH) as (pl & _ & Epl & Hrem).
  pose proof (ho_buckets h B all HH) as HB.
  destruct (bh_valid h B HB b n Hn) as [|Hp]; [done|]. exfalso.
  assert (n ∈ pl) as Hin by (apply Epl; exists b; split; [by apply (bh_member h B HB)|done]).
  destruct pl; [by apply not_elem_of_nil in Hin|]. cbn in Hrem. lia.
Qed.

(** Whether a new array of [n] buckets is the embedded one. *)
Definition embeds (n : Z) (h : HashmapImpl) : bool :=
  (n <=? num_pre) && bool_decide (curr_buckets h <> Some 0%nat).

(** No allocation fails. *)
Definition all_granted (h : HashmapImpl) : Prop := Forall (fun b : bool => b = true) (hm_alloc h).

Lemma realloc_buckets_ok h B all n :
  holds h B all -> rehash_remain_nodes h = 0 -> rehash_pos h = 0 -> 0 < n ->
  hm_size h < buckets_capacity n ->
  exists h', let ok := embeds n h || fst (hm_allocate h) in
    realloc_buckets num_pre n h = Ok (ok, h') /\ holds h' B all
    /\ hm_size h' = hm_size h /\ (all_granted h -> all_granted h')
    /\ (if ok : bool then n_curr_buckets h' = n else n_curr_buckets h' = n_curr_buckets h)
    /\ (if ok then True else rehash_remain_nodes h' = 0)
    /\ (rehash_remain_nodes h' = 0 -> rehash_pos h' = 0).
Proof.
  intros HH Hz Hpos Hn Hcap. unfold realloc_buckets.
  rewrite (proj2 (Z.eqb_eq _ _) Hz), (proj2 (Z.eqb_eq _ _) Hpos), (proj2 (Z.ltb_lt 0 n)) by done.
  cbn [negb panic_if].
  pose proof (ho_buckets h B all HH) as HB. pose proof (ho_arrays h B all HH) as HA.
  fold (embeds n h). set (embedded := embeds n h).
  set (buckets := if embedded then 0%nat else next_array h).
  assert (curr_buckets h <> Some buckets) as Hfresh.
  { unfold buckets. destruct embedded eqn:E.
    - apply andb_true_iff in E as [_ E]. by apply bool_decide_eq_true in E.
    - intros E'. pose proof (ao_old h B HA _ (or_introl E')). lia. }
  assert (exists alloc, (if embedded then (true, hm_alloc h) else hm_allocate h)
              = (embedded || fst (hm_allocate h), alloc)
            /\ (all_granted h -> Forall (fun b : bool => b = true) alloc)) as (alloc & -> & Hal).
  { destruct embedded; [by eexists|]. unfold hm_allocate, all_granted.
    destruct (hm_alloc h); [by eexists|]. eexists. split; [done|]. by intros [_ ?]%Forall_cons. }
  destruct (embedded || fst (hm_allocate h)); cbn [negb]; cycle 1.
  { eexists _. cbn zeta. split; [reflexivity|]. split; [|by split_and!]. destruct HH. split; try done.
    - by destruct HB.
    - by destruct HA. }
  assert (forall b m, m ∈ B b -> in_curr h b) as Hcurr
    by (intros b m; by apply (nothing_pending h B all)).
  destruct (curr_buckets h) as [c|] eqn:Ec.
  - eexists _. cbn zeta. split; [reflexivity|]. split; [|by split_and!].
    assert (0 < n_curr_buckets h) as Hnc by (apply (ao_curr h B HA); congruence).
    pose proof (ao_next h B HA) as Hna. destruct HH. split; try done.
    + destruct HB. split; try done; cbn.
      * intros b [[Hb _]|[Hb Hi]]; cbn in *.
        -- injection Hb as Hb. rewrite <- Hb, Nat.eqb_refl.
           destruct (B b) as [|m l] eqn:E; [done|]. destruct (Hcurr b m) as [Hb' _]; [rewrite E; left|].
           congruence.
        -- rewrite (proj2 (Nat.eqb_neq (fst b) buckets)) by congruence. apply bh_head0. left.
           split; [congruence|done].
      * intros b m Hm. right. destruct (Hcurr b m Hm) as [Hb Hi]. split; [cbn; congruence|done].
    + destruct HA. split; cbn; try done; try lia.
      * intros a [= <-]. congruence.
      * intros a [[= <-]|[= <-]]; [unfold buckets; destruct embedded; lia|].
        pose proof (ao_old0 c (or_introl Ec)). destruct embedded; lia.
      * unfold buckets. destruct embedded; lia.
      * intros b m Hm [Hb _]. destruct (Hcurr b m Hm) as [Hb' _]. cbn in Hb. congruence.
      * intros b m Hm _. apply ao_index0; [done|]. by apply Hcurr with m.
    + exists all. split_and!; [done| |done]. intros m. rewrite ho_member0. unfold pending. cbn.
      split; [|intros (b & -> & _); done]. destruct (node_bucket h m) as [b|] eqn:E; [|done].
      intros _. exists b. split; [done|]. destruct (Hcurr b m) as [Hb Hi];
        [by apply (bh_member h B HB)|]. split; [cbn; congruence|done].
    + cbn. unfold hm_capacity. cbn. lia.
  - assert (n_curr_buckets h = 0) as Hnc.
    { pose proof (ao_n_curr h B HA). destruct (decide (n_curr_buckets h = 0)); [done|].
      assert (0 < n_curr_buckets h) as HH0 by lia. apply (ao_curr h B HA) in HH0. done. }
    assert (n_prev_buckets h = 0) as Hnp.
    { pose proof (ao_n_prev h B HA). destruct (decide (n_prev_buckets h = 0)); [done|].
      destruct (ao_prev h B HA ltac:(lia)). lia. }
    assert (forall b, B b = []) as Hempty.
    { intros b. destruct (B b) as [|m l] eqn:E; [done|]. destruct (Hcurr b m) as [? _]; [rewrite E; left|].
      congruence. }
    eexists _. cbn zeta. split; [reflexivity|]. split; [|by split_and!].
    pose proof (ao_next h B HA) as Hna. destruct HH. split; try done.
    + destruct HB. split; try done; cbn.
      * intros b [[Hb _]|[_ Hi]]; cbn in *; [|lia].
        injection Hb as Hb. by rewrite <- Hb, Nat.eqb_refl, Hempty.
      * intros b m Hm. rewrite Hempty in Hm. by apply not_elem_of_nil in Hm.
    + destruct HA. split; cbn; try done; try lia.
      * intros a _. by rewrite ao_first0.
      * intros a [[= <-]|H]; [unfold buckets; destruct embedded; lia|]. by rewrite ao_first0 in H.
      * unfold buckets. destruct embedded; lia.
      * intros b m Hm. rewrite Hempty in Hm. by apply not_elem_of_nil in Hm.
      * intros b m Hm. rewrite Hempty in Hm. by apply not_elem_of_nil in Hm.
    + exists []. split_and!; [constructor| |done]. intros m. split; [by intros ?%not_elem_of_nil|].
      intros (b & Hb & _). cbn in Hb. apply (bh_member h B HB) in Hb. by rewrite Hempty in Hb.
    + cbn. unfold hm_capacity. cbn. lia.
Qed.

(** Between operations: when the map is full, all nodes have been moved. *)
Record ready (h : HashmapImpl) (B : nat * Z -> list nat) (all : list nat) : Prop := {
  rd_holds : holds h B all;
  rd_full : hm_size h = hm_capacity h -> rehash_remain_nodes h = 0
}.

(** A rehashing that has moved everything has ended. *)
Definition unstalled (h : HashmapImpl) : Prop := rehash_remain_nodes h = 0 -> rehash_pos h = 0.

(** What an insertion finds. *)
Definition hm_growth (h : HashmapImpl) : grant :=
  if hm_size h =? hm_capacity h then
    if negb (rehash_pos h =? 0) then Stalled
    else
      match get_next_bucket_size num_pre (n_curr_buckets h) with
      | Ok n => if embeds n h || fst (hm_allocate h) then Granted else NoMemory
      | Panic => Stalled
      end
  else Granted.

Lemma hm_grow_ok h B all :
  ready h B all -> hm_size h = hm_capacity h -> hm_size h < 2 ^ 60 ->
  match hm_growth h with
  | Stalled => hm_grow num_pre h = Panic
  | g =>
      exists ok h', hm_grow num_pre h = ret (ok, h') /\ ready h' B all /\ hm_size h' = hm_size h
        /\ (ok = true <-> g = Granted) /\ (ok = true -> hm_size h' < hm_capacity h')
        /\ (all_granted h -> all_granted h') /\ unstalled h'
  end.
Proof.
  intros [HH Hfull] Hcap Hsz. specialize (Hfull Hcap).
  pose proof (ho_arrays h B all HH) as HA. pose proof (ao_n_curr h B HA) as Hnc.
  unfold hm_growth. rewrite (proj2 (Z.eqb_eq _ _) Hcap).
  unfold hm_grow. unfold hm_capacity in Hcap. cbv zeta. rewrite <- Hcap.
  rewrite Z.leb_refl, Z.eqb_refl. cbn [negb panic_if grow_size].
  assert (n_curr_buckets h < 2 ^ 62) as Hb.
  { unfold buckets_capacity, LoadFactorNum, LoadFactorDen in Hcap. zlia. }
  destruct (get_next_bucket_size_ok (n_curr_buckets h)) as (n & -> & Hn); [lia|].
  cbn [lift res_bind run_bind ret]. pose proof (capacity_mono _ _ Hn) as Hm.
  rewrite (proj2 (Z.leb_gt _ _)) by lia. cbn [run_bind ret].
  destruct (Z.eqb_spec (rehash_pos h) 0) as [Hst|Hst]; cbn [negb].
  2: { unfold realloc_buckets. rewrite (proj2 (Z.ltb_lt 0 n)) by lia. cbn [negb panic_if].
       by rewrite (proj2 (Z.eqb_neq _ _) Hst). }
  destruct (realloc_buckets_ok h B all n HH Hfull Hst ltac:(lia) ltac:(lia))
    as (h' & -> & HH' & S' & A' & N' & R' & P'). cbn [lift res_bind run_bind ret].
  destruct (embeds n h || fst (hm_allocate h)); cbn [negb].
  - rewrite N', S', (proj2 (Z.ltb_lt _ _)) by lia. cbn [negb panic_if].
    exists true, h'. unfold hm_capacity. rewrite N', S'. split_and!; try done; [|lia].
    split; [done|]. unfold hm_capacity. rewrite N'. lia.
  - exists false, h'. by split_and!.
Qed.

(** ** Insertion *)

Lemma hm_insert_node_ok h B all n b :
  holds h B all -> hm_size h < hm_capacity h -> n ∉ all ->
  (forall m, m ∈ all -> key_of m <> key_of n) ->
  in_curr h b -> snd b = key_hash (key_of n) mod n_curr_buckets h ->
  exists h1 h2 B',
    bucket_insert b n (with_node_hash (<[n:=key_hash (key_of n)]> (node_hash h)) h) = Ok h1
    /\ all_list_insert n h1 = Ok h2
    /\ holds (with_size (hm_size h2 + 1) h2) B' (all ++ [n])
    /\ hm_size h2 = hm_size h /\ n_curr_buckets h2 = n_curr_buckets h
    /\ rehash_remain_nodes h2 = rehash_remain_nodes h /\ rehash_pos h2 = rehash_pos h
    /\ hm_alloc h2 = hm_alloc h.
Proof.
  intros HH Hlt Hn Hkey Hb Hidx. pose proof (ho_buckets h B all HH) as HB.
  pose proof (ho_arrays h B all HH) as HA.
  set (h0 := with_node_hash (<[n:=key_hash (key_of n)]> (node_hash h)) h).
  assert (node_bucket h n = None) as Hnone.
  { destruct (node_bucket h n) eqn:E; [|done]. exfalso. apply Hn, (ho_member h B all HH). congruence. }
  assert (forall x, n ∉ B x) as Hfree
    by (intros x Hx; apply (bh_member h B HB) in Hx; congruence).
  assert (buckets_hold h0 B) as HB0 by (by destruct HB).
  destruct (bucket_insert_ok h0 B b n HB0) as (h1 & E1 & HB1 & S1 & R1 & N1); [by left|done|].
  pose proof S1 as [].
  destruct (all_list_insert_ok h1 all n) as (nxt & prv & E2 & C2); [|apply HH|done|].
  { unfold all_ring. rewrite sm_all_prev0, sm_all_next0. apply HH. }
  exists h1, (with_all_links prv nxt h1), (<[b:=B b ++ [n]]> B). split; [done|]. split; [done|].
  split; [|exact (conj sm_size0 (conj sm_n_curr0 (conj R1 (conj sm_pos0 sm_alloc0))))].
  assert (forall x m, m ∈ (<[b:=B b ++ [n]]> B : nat * Z -> list nat) x
            <-> m ∈ B x \/ (m = n /\ x = b)) as HB'.
  { intros x m. destruct (decide (x = b)) as [->|Hx]; fn_case; [|naive_solver].
    rewrite elem_of_app, list_elem_of_singleton. naive_solver. }
  split.
  - by destruct HB1.
  - assert (arrays_ok h1 (<[b:=B b ++ [n]]> B)) as HA1; [|by destruct HA1].
    apply (arrays_ok_same h0 h1 B); [|done|..].
    + destruct HA. split; try done; intros x m Hm Hx; cbn; rewrite fn_lookup_insert_ne; auto;
        intros ->; by apply Hfree in Hm.
    + intros x m [?|[-> ->]]%HB' Hx; [done|]. by destruct (in_curr_not_prev h B b).
    + intros x m [Hm|[-> ->]]%HB' Hx; cbn; fn_case; [|done].
      rewrite fn_lookup_insert_ne by (intros ->; by apply Hfree in Hm). by apply (ao_index h B HA).
  - exact C2.
  - rewrite <- Permutation_cons_append. apply NoDup_cons. split; [done|apply HH].
  - intros m. cbn. rewrite N1, elem_of_app, list_elem_of_singleton, (ho_member h B all HH).
    destruct (decide (m = n)) as [->|Hm]; fn_case; [naive_solver|]. cbn. naive_solver.
  - intros m Hm. cbn. rewrite sm_hash0. cbn. destruct (decide (m = n)) as [->|Hne]; fn_case; [done|].
    apply (ho_hash h B all HH). apply elem_of_app in Hm as [| ->%list_elem_of_singleton]; done.
  - intros m m' [Hm| ->%list_elem_of_singleton]%elem_of_app [Hm'| ->%list_elem_of_singleton]%elem_of_app Hk;
      [by apply (ho_keys h B all HH)|by destruct (Hkey m)|by destruct (Hkey m')|done].
  - cbn. rewrite sm_size0. cbn. rewrite (ho_size h B all HH), length_app. cbn. lia.
  - destruct (ho_remain h B all HH) as (pl & Npl & Epl & Hrem). exists pl. split; [done|].
    split; [|cbn; by rewrite R1]. intros m. rewrite Epl. unfold pending. cbn. rewrite N1.
    destruct (decide (m = n)) as [->|Hm].
    + rewrite fn_lookup_insert, Hnone. split; [by intros (x & ? & _)|].
      intros (x & [= <-] & Hx). apply (same_in_prev h0 h1) in Hx; [|done].
      by destruct (in_curr_not_prev h B b).
    + rewrite fn_lookup_insert_ne by done. setoid_rewrite (same_in_prev h0 h1 _ S1 : in_prev (with_size _ (with_all_links _ _ h1)) _ <-> _). done.
  - cbn. unfold hm_capacity in *. cbn. rewrite sm_size0, sm_n_curr0. cbn. lia.
Qed.

(** [hm_insert] once there is room. *)
Lemma insert_with_room h B all n :
  ready h B all -> hm_size h < hm_capacity h -> n ∉ all ->
  (forall m, m ∈ all -> key_of m <> key_of n) ->
  exists h' B',
    panic_if (bool_decide (node_bucket h n <> None))
      (let! dup := find_node key_of (key_hash (key_of n)) (key_of n) h in
       panic_if (bool_decide (dup <> None))
         (let! bucket := lift (select_bucket (key_hash (key_of n)) h) in
          let h := with_node_hash (<[n:=key_hash (key_of n)]> (node_hash h)) h in
          let! h := lift (bucket_insert bucket n h) in
          let! h := lift (all_list_insert n h) in
          let h := with_size (hm_size h + 1) h in
          let! h := proceed_rehash true h in
          ret (true, h))) = ret (true, h')
    /\ ready h' B' (all ++ [n]) /\ (all_granted h -> all_granted h') /\ (unstalled h -> unstalled h').
Proof.
  intros [HH Hfull] Hlt Hn Hkey. pose proof (ho_arrays h B all HH) as HA.
  rewrite bool_decide_false by (rewrite <- (ho_member h B all HH); done). cbn [panic_if].
  destruct (find_node_ok h B all (key_of n) HH) as (r & -> & Hr). cbn [run_bind ret].
  destruct r as [m|]; [by destruct Hr as [Hm ?]; destruct (Hkey m Hm)|].
  rewrite bool_decide_false by (by intros []). cbn [panic_if].
  assert (0 < n_curr_buckets h) as Hnc.
  { pose proof (ao_n_curr h B HA). pose proof (ho_size h B all HH).
    destruct (decide (n_curr_buckets h = 0)) as [E|]; [|lia].
    unfold hm_capacity, buckets_capacity in Hlt. rewrite E in Hlt.
    change (0 * LoadFactorNum / LoadFactorDen) with 0 in Hlt. lia. }
  unfold select_bucket, select_bucket_in. rewrite (proj2 (Z.eqb_neq _ 0)) by lia. cbn [panic_if].
  pose proof (proj1 (ao_curr h B HA) Hnc) as Hc. destruct (curr_buckets h) as [c|] eqn:Ec; [|done].
  cbn [lift res_bind run_bind ret].
  destruct (hm_insert_node_ok h B all n (c, key_hash (key_of n) mod n_curr_buckets h) HH Hlt Hn Hkey)
    as (h1 & h2 & B' & E1 & E2 & HH' & S2 & N2 & R2 & P2 & A2).
  { split; [done|]. cbn. apply Z.mod_pos_bound. lia. }
  { done. }
  cbv zeta. rewrite E1. cbn [lift res_bind run_bind ret]. rewrite E2. cbn [lift res_bind run_bind ret].
  destruct (proceed_rehash_ok _ B' _ true HH') as (h3 & B3 & -> & H1 & H2 & [H3 H3'] & H4 & H5 & H6).
  cbn [run_bind ret]. exists h3, B3. split; [done|]. cbn in H2, H3, H3', H6.
  split; [|split; [unfold all_granted; by rewrite H3', A2|]].
  - split; [done|]. unfold hm_capacity. rewrite H2, H3. intros E. by apply H5.
  - intros Hst. exact (H6 ltac:(cbn; by rewrite R2, P2)).
Qed.

Lemma hashmap_insert_ok h B all n :
  ready h B all -> hm_size h < 2 ^ 60 -> n ∉ all -> (forall m, m ∈ all -> key_of m <> key_of n) ->
  match hm_growth h with
  | Stalled => hashmap_insert key_of key_hash num_pre n h = Panic
  | g =>
      exists ok h' B', hashmap_insert key_of key_hash num_pre n h = ret (ok, h')
        /\ (ok = true <-> g = Granted) /\ ready h' B' (if ok then all ++ [n] else all)
        /\ (all_granted h -> all_granted h') /\ (unstalled h -> unstalled h')
  end.
Proof.
  intros HR Hsz Hn Hkey. unfold hashmap_insert, hm_insert.
  pose proof (ho_cap h B all (rd_holds h B all HR)) as Hcap. unfold hm_capacity in Hcap.
  destruct (Z.leb_spec (buckets_capacity (n_curr_buckets h)) (hm_size h)) as [Hle|Hlt].
  - pose proof (hm_grow_ok h B all HR ltac:(unfold hm_capacity; lia) Hsz) as HG.
    destruct (hm_growth h); [| |by rewrite HG].
    all: destruct HG as (ok & h1 & -> & HR1 & S1 & Hok & L1 & A1 & U1); cbn [run_bind ret].
    all: destruct ok; cbn [negb]; [|exists false, h1, B; done].
    all: destruct (insert_with_room h1 B all n HR1 (L1 eq_refl) Hn Hkey) as (h2 & B2 & E & HR2 & A2 & U2).
    all: exists true, h2, B2; split_and!; [exact E| |done|by intros ?%A1%A2|intros _; by apply U2].
    all: exact Hok.
  - unfold hm_growth, hm_capacity. rewrite (proj2 (Z.eqb_neq _ _)) by lia. cbn [run_bind ret negb].
    destruct (insert_with_room h B all n HR Hlt Hn Hkey) as (h2 & B2 & E & HR2 & A2 & U2).
    exists true, h2, B2. by split_and!.
Qed.

(** An element that is there, or has a key that is there, must not be inserted. *)
Lemma insert_duplicate h B all n (k : run (bool * HashmapImpl)) :
  holds h B all -> (exists m, m ∈ all /\ key_of m = key_of n) ->
  panic_if (bool_decide (node_bucket h n <> None))
    (let! dup := find_node key_of (key_hash (key_of n)) (key_of n) h in
     panic_if (bool_decide (dup <> None)) k) = Panic.
Proof.
  intros HH (m & Hm & Hk). destruct (bool_decide (node_bucket h n <> None)); [done|].
  cbn [panic_if]. destruct (find_node_ok h B all (key_of n) HH) as (r & -> & Hr).
  cbn [run_bind ret]. destruct r as [m'|]; [done|]. by destruct (Hr m Hm).
Qed.

Lemma hashmap_insert_duplicate h B all n :
  ready h B all -> hm_size h < 2 ^ 60 -> (exists m, m ∈ all /\ key_of m = key_of n) ->
  match hm_growth h with
  | NoMemory =>
      exists h', hashmap_insert key_of key_hash num_pre n h = ret (false, h') /\ ready h' B all
        /\ (all_granted h -> all_granted h') /\ (unstalled h -> unstalled h')
  | _ => hashmap_insert key_of key_hash num_pre n h = Panic
  end.
Proof.
  intros HR Hsz Hdup. unfold hashmap_insert, hm_insert.
  pose proof (ho_cap h B all (rd_holds h B all HR)) as Hcap. unfold hm_capacity in Hcap.
  destruct (Z.leb_spec (buckets_capacity (n_curr_buckets h)) (hm_size h)) as [Hle|Hlt].
  - pose proof (hm_grow_ok h B all HR ltac:(unfold hm_capacity; lia) Hsz) as HG.
    destruct (hm_growth h); [| |by rewrite HG].
    all: destruct HG as (ok & h1 & -> & HR1 & _ & Hok & _ & A1 & U1); cbn [run_bind ret].
    + rewrite (proj2 Hok eq_refl). cbn [negb]. apply (insert_duplicate h1 B all); [apply HR1|done].
    + destruct ok; [by discriminate (proj1 Hok eq_refl)|]. exists h1. by split_and!.
  - unfold hm_growth, hm_capacity. rewrite (proj2 (Z.eqb_neq _ _)) by lia. cbn [run_bind ret negb].
    apply (insert_duplicate h B all); [apply HR|done].
Qed.

(** ** Removal *)

Lemma hashmap_remove_ok h B all n :
  ready h B all -> n ∈ all ->
  exists h' B', hashmap_remove n h = ret h' /\ ready h' B' (filter (.≠ n) all)
    /\ (all_granted h -> all_granted h')
    /\ ((pending h n -> rehash_remain_nodes h = 1 -> rehash_pos h = 0) -> unstalled h -> unstalled h').
Proof.
  intros [HH Hfull] Hn. unfold hashmap_remove, hm_remove.
  pose proof (ho_buckets h B all HH) as HB. pose proof (ho_arrays h B all HH) as HA.
  pose proof (proj1 (ho_member h B all HH n) Hn) as Hne.
  rewrite (proj2 (contains_spec h B n HB) Hne). cbn [negb panic_if].
  destruct (node_bucket h n) as [b|] eqn:Hb; [|done].
  destruct (ho_remain h B all HH) as (pl & Npl & Epl & Hrem).
  set (mem := member_of_bucket_array (prev_buckets h) (n_prev_buckets h) n h).
  assert (mem = true <-> n ∈ pl) as Hmem
    by (unfold mem; rewrite member_of_spec, Epl; unfold pending; reflexivity).
  destruct (bucket_remove_ok h B b n HB Hb) as (h1 & E1 & HB1 & S1 & R1 & N1).
  { fold mem. rewrite Hmem, Hrem. intros Hin. destruct pl; [by apply not_elem_of_nil in Hin|]. cbn. lia. }
  rewrite E1. cbn [lift res_bind run_bind ret]. pose proof S1 as [].
  destruct (all_list_remove_ok h1 all n) as (nxt & prv & E2 & C2); [|apply HH|done|].
  { unfold all_ring. rewrite sm_all_prev0, sm_all_next0. apply HH. }
  rewrite E2. cbn [lift res_bind run_bind ret].
  set (h2 := with_size _ _).
  assert (forall x, n ∈ B x -> x = b) as Hb'
    by (intros x Hx; apply (bh_member h B HB) in Hx; congruence).
  assert (length (filter (.≠ n) all) = length all - 1)%nat as Hlen.
  { pose proof (ho_nodup h B all HH) as HN. apply list_elem_of_split in Hn as (l1 & l2 & ->).
    rewrite filter_out, !length_app by done. cbn. lia. }
  assert (0 < length all)%nat as Hpos.
  { destruct all; [by apply not_elem_of_nil in Hn|]. cbn. lia. }
  assert (hm_size h2 = hm_size h - 1) as Hs2 by (cbn; rewrite sm_size0; lia).
  assert (holds h2 (drop_from b n B) (filter (.≠ n) all)) as HH2.
  { split.
    - by destruct HB1.
    - assert (arrays_ok h1 (drop_from b n B)) as HA1; [|by destruct HA1].
      apply (arrays_ok_same h h1 B); [done|done|..].
      + intros x m Hm _. by apply elem_of_drop_from in Hm as [_ ?].
      + intros x m Hm Hx. apply elem_of_drop_from in Hm as [_ Hm]; [|done]. by apply (ao_index h B HA).
    - exact C2.
    - apply NoDup_filter, HH.
    - intros m. cbn. rewrite N1, list_elem_of_filter, (ho_member h B all HH).
      destruct (decide (m = n)) as [->|Hm]; fn_case; [naive_solver|]. naive_solver.
    - intros m [_ Hm]%list_elem_of_filter. cbn. rewrite sm_hash0. by apply (ho_hash h B all HH).
    - intros m m' [_ Hm]%list_elem_of_filter [_ Hm']%list_elem_of_filter.
      by apply (ho_keys h B all HH).
    - rewrite Hs2, (ho_size h B all HH), Hlen. lia.
    - exists (filter (.≠ n) pl). split_and!; [by apply NoDup_filter|..].
      + intros m. rewrite list_elem_of_filter, Epl. unfold pending. cbn. rewrite N1.
        destruct (decide (m = n)) as [->|Hm].
        * rewrite fn_lookup_insert. naive_solver.
        * rewrite fn_lookup_insert_ne by done.
          setoid_rewrite (same_in_prev h h1 _ S1 : in_prev h2 _ <-> _). naive_solver.
      + cbn. rewrite R1. fold mem. destruct mem.
        * pose proof (proj1 Hmem eq_refl) as Hin. apply list_elem_of_split in Hin as (l1 & l2 & ->).
          rewrite filter_out by done. rewrite Hrem, !length_app. cbn. lia.
        * rewrite filter_id; [lia|]. by intros ?%Hmem.
    - rewrite Hs2. unfold hm_capacity, h2. cbn. rewrite sm_n_curr0. pose proof (ho_cap h B all HH).
      unfold hm_capacity in *. lia. }
  destruct (proceed_rehash_ok h2 _ _ false HH2) as (h3 & B3 & -> & H1 & H2 & [H3 H3'] & H4 & _ & H6).
  exists h3, B3. split; [done|].
  split; [|split; [intros Ha; unfold all_granted; rewrite H3'; cbn; by rewrite sm_alloc0|]].
  - split; [done|]. unfold hm_capacity. rewrite H2, H3, Hs2. unfold h2. cbn. rewrite sm_n_curr0.
    pose proof (ho_cap h B all HH). unfold hm_capacity in *. lia.
  - intros Hlast Hst. red. apply H6. unfold h2. cbn. rewrite R1, sm_pos0. fold mem. destruct mem; [|rewrite Z.sub_0_r; done].
    intros Hz. apply Hlast; [|lia]. by apply Epl, Hmem.
Qed.

Lemma hashmap_remove_panic h B all n :
  holds h B all -> n ∉ all -> hashmap_remove n h = Panic.
Proof.
  intros HH Hn. unfold hashmap_remove, hm_remove.
  destruct (hm_contains n h) eqn:E; [|done]. exfalso.
  apply (contains_spec h B n (ho_buckets h B all HH)) in E. by apply Hn, (ho_member h B all HH).
Qed.

(** ** Queries *)

Definition node_elem (p : option (option nat)) : option nat :=
  match p with Some (Some n) => Some n | _ => None end.

Lemma head_fmap_Some (l : list nat) : head (Some <$> l) = Some <$> head l.
Proof. by destruct l. Qed.

Lemma size_zero h B all : holds h B all -> (hm_size h =? 0) = bool_decide (all = []).
Proof.
  intros HH. rewrite (ho_size h B all HH). by destruct all.
Qed.

Lemma hm_front_ok h B all : holds h B all -> node_elem (hm_front h) = head all.
Proof.
  intros HH. unfold hm_front. rewrite (size_zero h B all HH).
  rewrite (chain_first _ _ _ _ _ (ho_all h B all HH)), head_fmap_Some. by destruct all.
Qed.

Lemma hm_back_ok h B all : holds h B all -> node_elem (hm_back h) = last all.
Proof.
  intros HH. unfold hm_back. rewrite (size_zero h B all HH).
  rewrite (chain_last _ _ _ _ _ (ho_all h B all HH)), fmap_last.
  destruct all as [|n all]; [done|]. rewrite bool_decide_false by done. by destruct (last (n :: all)).
Qed.

Lemma all_split h B all n :
  holds h B all -> n ∈ all -> exists l1 l2, all = l1 ++ n :: l2 /\ n ∉ l1.
Proof.
  intros HH Hn. apply list_elem_of_split in Hn as (l1 & l2 & ->). exists l1, l2. split; [done|].
  pose proof (ho_nodup h B _ HH) as HN. apply NoDup_app in HN as (_ & HN & _).
  intros Hin. apply (HN n Hin). left.
Qed.

Lemma hm_nextof_ok h B all n :
  holds h B all -> n ∈ all ->
  exists p, hm_nextof n h = Ok p /\ node_elem p = succ_of n all.
Proof.
  intros HH Hn. pose proof (ho_buckets h B all HH) as HB. unfold hm_nextof.
  rewrite (proj2 (contains_spec h B n HB)) by (by apply (ho_member h B all HH)). cbn [negb panic_if].
  destruct (all_split h B all n HH Hn) as (l1 & l2 & -> & Hnot). rewrite succ_of_split by done.
  pose proof (ho_all h B _ HH) as HC. unfold all_ring in HC.
  rewrite fmap_app, fmap_cons, chain_app in HC. destruct HC as [_ HC].
  rewrite (chain_first _ _ _ _ _ HC), head_fmap_Some. destruct l2 as [|m l2]; cbn.
  - rewrite decide_True by done. by eexists.
  - rewrite decide_False by done. by eexists.
Qed.

Lemma hm_prevof_ok h B all n :
  holds h B all -> n ∈ all ->
  exists p, hm_prevof n h = Ok p /\ node_elem p = pred_of n None all.
Proof.
  intros HH Hn. pose proof (ho_buckets h B all HH) as HB. unfold hm_prevof.
  rewrite (proj2 (contains_spec h B n HB)) by (by apply (ho_member h B all HH)). cbn [negb panic_if].
  destruct (all_split h B all n HH Hn) as (l1 & l2 & -> & Hnot). rewrite pred_of_split by done.
  pose proof (ho_all h B _ HH) as HC. unfold all_ring in HC.
  rewrite fmap_app, fmap_cons, chain_app in HC. destruct HC as [HC _].
  rewrite (chain_last _ _ _ _ _ HC), fmap_last. destruct (last l1) as [m|]; cbn.
  - rewrite decide_False by done. by eexists.
  - rewrite decide_True by done. by eexists.
Qed.

Lemma hm_neighbour_panic h B all n :
  holds h B all -> n ∉ all -> hm_nextof n h = Panic /\ hm_prevof n h = Panic.
Proof.
  intros HH Hn. unfold hm_nextof, hm_prevof. destruct (hm_contains n h) eqn:E; [|done]. exfalso.
  apply (contains_spec h B n (ho_buckets h B all HH)) in E. by apply Hn, (ho_member h B all HH).
Qed.

(** The element with a key. *)
Definition with_key (key : K) (all : list nat) : option nat :=
  snd <$> list_find (fun n => key_of n = key) all.

Lemma hashmap_find_ok h B all key :
  holds h B all -> hashmap_find key_of key_hash key h = ret (with_key key all).
Proof.
  intros HH. unfold hashmap_find.
  destruct (find_node_ok h B all key HH) as (r & -> & Hr). unfold ret. do 2 f_equal.
  unfold with_key. destruct (list_find _ all) as [[i m]|] eqn:E; cbn.
  - apply list_find_Some in E as (Hi & Hk & _). apply list_elem_of_lookup_2 in Hi.
    destruct r as [n|]; [|by destruct (Hr m Hi)]. destruct Hr as [Hn Hkn]. f_equal.
    apply (ho_keys h B all HH); congruence.
  - destruct r as [n|]; [|done]. destruct Hr as [Hn Hkn]. apply list_find_None in E.
    rewrite Forall_forall in E. by destruct (E n Hn).
Qed.

End Holds.
