(* ===== verification/HashmapRefines.v ===== *)
(** The hash map against its specification: sequences of operations on the map of
    Hashmap.v and on the list of its elements, and the state from which it cannot grow. *)

From S2P Require Import IntrusiveList Ring Prelude Hashmap HashmapSafe.

Section Refines.

Context {K : Type} `{EqDecision K} (key_of : nat -> K) (key_hash : K -> Z) (num_pre : Z).

(** * Operations *)

Inductive hm_op : Type :=
| HInsert (n : nat)
| HRemove (n : nat)
| HFind (key : K)
| HFront
| HBack
| HNextOf (n : nat)
| HPrevOf (n : nat)
| HSize.

Inductive hm_result : Type :=
| HVoid
| HBool (b : bool)
| HElem (n : option nat)
| HCount (n : Z).

Definition hm_exec (op : hm_op) (h : HashmapImpl) : run (hm_result * HashmapImpl) :=
  match op with
  | HInsert n =>
      let! '(ok, h) := hashmap_insert key_of key_hash num_pre n h in ret (HBool ok, h)
  | HRemove n => let! h := hashmap_remove n h in ret (HVoid, h)
  | HFind key => let! r := hashmap_find key_of key_hash key h in ret (HElem r, h)
  | HFront => ret (HElem (node_elem (hm_front h)), h)
  | HBack => ret (HElem (node_elem (hm_back h)), h)
  | HNextOf n => let! p := lift (hm_nextof n h) in ret (HElem (node_elem p), h)
  | HPrevOf n => let! p := lift (hm_prevof n h) in ret (HElem (node_elem p), h)
  | HSize => ret (HCount (hm_size h), h)
  end.

(** The same on the list of elements in the order of insertion.  What an insertion finds is
    given. *)
Definition hm_spec (g : grant) (op : hm_op) (all : list nat) : res (hm_result * list nat) :=
  match op with
  | HInsert n =>
      match g with
      | Stalled => Panic
      | NoMemory => Ok (HBool false, all)
      | Granted =>
          match with_key key_of (key_of n) all with
          | None => Ok (HBool true, all ++ [n])
          | Some _ => Panic
          end
      end
  | HRemove n => if decide (n ∈ all) then Ok (HVoid, filter (.≠ n) all) else Panic
  | HFind key => Ok (HElem (with_key key_of key all), all)
  | HFront => Ok (HElem (head all), all)
  | HBack => Ok (HElem (last all), all)
  | HNextOf n => if decide (n ∈ all) then Ok (HElem (succ_of n all), all) else Panic
  | HPrevOf n => if decide (n ∈ all) then Ok (HElem (pred_of n None all), all) else Panic
  | HSize => Ok (HCount (Z.of_nat (length all)), all)
  end.

(** The operation does not remove the last element that an unfinished rehashing has still
    to move. *)
Definition keeps_rehashing (op : hm_op) (h : HashmapImpl) : bool :=
  match op with
  | HRemove n =>
      negb (member_of_bucket_array (prev_buckets h) (n_prev_buckets h) n h)
      || negb (rehash_remain_nodes h =? 1) || (rehash_pos h =? 0)
  | _ => true
  end.

Lemma with_key_None key all :
  with_key key_of key all = None <-> forall m, m ∈ all -> key_of m <> key.
Proof.
  unfold with_key. rewrite fmap_None, list_find_None, Forall_forall. done.
Qed.

Lemma with_key_Some key all m :
  with_key key_of key all = Some m -> exists m, m ∈ all /\ key_of m = key.
Proof.
  unfold with_key. destruct (list_find _ all) as [[i x]|] eqn:E; [|done]. intros _. exists x.
  apply list_find_Some in E as (Hi & Hk & _). split; [by eapply list_elem_of_lookup_2|done].
Qed.

Lemma ready_new alloc : ready key_of key_hash (hashmap_new alloc) (fun _ => []) [].
Proof.
  assert (forall n : nat, n ∉ ([] : list nat)) as Hnil by (intros n; apply not_elem_of_nil).
  split; [|done]. split; try done.
  - split; try done.
    + intros b. apply NoDup_nil_2.
    + intros n b. split; [done|]. by intros ?%Hnil.
    + by intros b n ?%Hnil.
  - split; try done; cbn; lia || (intros; by exfalso; eapply Hnil) || (by intros a []).
  - apply NoDup_nil_2.
  - intros n. split; [by intros ?%Hnil|done].
  - by intros n ?%Hnil.
  - by intros n m ?%Hnil.
  - exists []. split_and!; [apply NoDup_nil_2| |done]. intros n. split; [by intros ?%Hnil|].
    by intros (b & ? & _).
Qed.

(** What an operation keeps besides the elements. *)
Definition op_keeps (op : hm_op) (h h' : HashmapImpl) : Prop :=
  (all_granted h -> all_granted h') /\ (keeps_rehashing op h = true -> unstalled h -> unstalled h').

Lemma op_keeps_refl op h : op_keeps op h h.
Proof. by split. Qed.

(** One operation: the same result, or a panic in both. *)
Lemma hm_exec_agrees op h B all :
  ready key_of key_hash h B all -> hm_size h < 2 ^ 60 ->
  match hm_spec (hm_growth num_pre h) op all with
  | Ok (v, all') =>
      exists h' B', hm_exec op h = ret (v, h') /\ ready key_of key_hash h' B' all' /\ op_keeps op h h'
  | Panic => hm_exec op h = Panic
  end.
Proof.
  intros HR Hsz. pose proof (rd_holds _ _ _ _ _ HR) as HH.
  destruct op as [n|n|key| | |n|n|]; cbn [hm_exec hm_spec].
  - destruct (with_key key_of (key_of n) all) as [m|] eqn:E.
    + apply with_key_Some in E.
      pose proof (hashmap_insert_duplicate key_of key_hash num_pre h B all n HR Hsz E) as HI.
      destruct (hm_growth num_pre h); [by rewrite HI| |by rewrite HI].
      destruct HI as (h' & -> & HR' & Ha & Hu). exists h', B. by split_and!.
    + rewrite with_key_None in E.
      pose proof (hashmap_insert_ok key_of key_hash num_pre h B all n HR Hsz) as HI.
      destruct (hm_growth num_pre h); [| |by rewrite HI; [|intros Hn; apply (E n Hn)|]].
      all: destruct HI as (ok & h' & B' & -> & Hok & HR' & Ha & Hu); [by intros Hn; apply (E n Hn)|done|].
      * rewrite (proj2 Hok eq_refl) in *. by exists h', B'.
      * destruct ok; [by discriminate (proj1 Hok eq_refl)|]. by exists h', B'.
  - destruct (decide (n ∈ all)) as [Hn|Hn].
    + destruct (hashmap_remove_ok key_of key_hash h B all n HR Hn) as (h' & B' & -> & HR' & Ha & Hu).
      exists h', B'. split_and!; try done. split; [done|]. intros Hop. apply Hu. intros Hp Hr.
      apply member_of_spec in Hp. cbn [keeps_rehashing] in Hop. rewrite Hp, Hr in Hop. by apply Z.eqb_eq.
    + by rewrite (hashmap_remove_panic key_of key_hash h B all n HH Hn).
  - rewrite (hashmap_find_ok key_of key_hash h B all key HH). exists h, B. auto using op_keeps_refl.
  - rewrite (hm_front_ok key_of key_hash h B all HH). exists h, B. auto using op_keeps_refl.
  - rewrite (hm_back_ok key_of key_hash h B all HH). exists h, B. auto using op_keeps_refl.
  - destruct (decide (n ∈ all)) as [Hn|Hn].
    + destruct (hm_nextof_ok key_of key_hash h B all n HH Hn) as (p & -> & <-). exists h, B. auto using op_keeps_refl.
    + by rewrite (proj1 (hm_neighbour_panic key_of key_hash h B all n HH Hn)).
  - destruct (decide (n ∈ all)) as [Hn|Hn].
    + destruct (hm_prevof_ok key_of key_hash h B all n HH Hn) as (p & -> & <-). exists h, B. auto using op_keeps_refl.
    + by rewrite (proj2 (hm_neighbour_panic key_of key_hash h B all n HH Hn)).
  - rewrite (ho_size _ _ _ _ _ HH). exists h, B. auto using op_keeps_refl.
Qed.

(** * Sequences of operations *)

Fixpoint hm_run (ops : list hm_op) (h : HashmapImpl) : run (list hm_result * HashmapImpl) :=
  match ops with
  | [] => ret ([], h)
  | op :: ops =>
      let! '(v, h) := hm_exec op h in
      let! '(vs, h) := hm_run ops h in
      ret (v :: vs, h)
  end.

(** The same on the list of elements, with what each operation finds. *)
Fixpoint hm_run_spec (gs : list grant) (ops : list hm_op) (all : list nat)
    : res (list hm_result * list nat) :=
  match ops with
  | [] => Ok ([], all)
  | op :: ops =>
      let* '(v, all) := hm_spec (default Granted (head gs)) op all in
      let* '(vs, all) := hm_run_spec (tail gs) ops all in
      Ok (v :: vs, all)
  end.

(** What the operations of a run find, and whether all of them keep the rehashing. *)
Fixpoint hm_growths (ops : list hm_op) (h : HashmapImpl) : list grant :=
  match ops with
  | [] => []
  | op :: ops =>
      hm_growth num_pre h
      :: match hm_exec op h with Ok (Some (_, h)) => hm_growths ops h | _ => [] end
  end.

Fixpoint all_keep_rehashing (ops : list hm_op) (h : HashmapImpl) : bool :=
  match ops with
  | [] => true
  | op :: ops =>
      keeps_rehashing op h
      && match hm_exec op h with Ok (Some (_, h)) => all_keep_rehashing ops h | _ => true end
  end.

Lemma hm_spec_length g op all v all' :
  hm_spec g op all = Ok (v, all') -> (length all' <= S (length all))%nat.
Proof.
  destruct op as [n|n|key| | |n|n|], g; cbn; repeat case_match; try done; intros [= <- <-];
    rewrite ?length_app; cbn; try lia.
  all: pose proof (length_filter (.≠ n) all); lia.
Qed.

Lemma hm_run_agrees ops : forall h B all,
  ready key_of key_hash h B all -> hm_size h + Z.of_nat (length ops) <= 2 ^ 60 ->
  match hm_run_spec (hm_growths ops h) ops all with
  | Ok (vs, all') => exists h' B', hm_run ops h = ret (vs, h') /\ ready key_of key_hash h' B' all'
  | Panic => hm_run ops h = Panic
  end.
Proof.
  induction ops as [|op ops IH]; intros h B all HR Hsz; cbn; [by exists h, B|]. cbn [length] in Hsz.
  pose proof (hm_exec_agrees op h B all HR ltac:(lia)) as HA.
  destruct (hm_spec (hm_growth num_pre h) op all) as [[v all1]|] eqn:Es; cbn; [|by rewrite HA].
  destruct HA as (h1 & B1 & -> & HR1 & _). cbn.
  specialize (IH h1 B1 all1 HR1). rewrite (ho_size _ _ _ _ _ (rd_holds _ _ _ _ _ HR1)) in IH.
  rewrite (ho_size _ _ _ _ _ (rd_holds _ _ _ _ _ HR)) in Hsz. apply hm_spec_length in Es.
  specialize (IH ltac:(lia)).
  destruct (hm_run_spec _ ops all1) as [[vs all2]|]; cbn; [|by rewrite IH].
  destruct IH as (h2 & B2 & -> & HR2). by exists h2, B2.
Qed.

Lemma hm_growth_granted h : all_granted h -> hm_growth num_pre h <> NoMemory.
Proof.
  unfold all_granted, hm_growth, hm_allocate. intros Ha. repeat case_match; try done.
  - subst. cbn in *. by rewrite orb_true_r in *.
  - apply Forall_cons in Ha as [-> _]. cbn in *. by rewrite orb_true_r in *.
Qed.

Lemma hm_growth_unstalled h B all :
  ready key_of key_hash h B all -> hm_size h < 2 ^ 60 -> unstalled h -> hm_growth num_pre h <> Stalled.
Proof.
  intros [HH Hfull] Hsz Hu. unfold hm_growth.
  destruct (Z.eqb_spec (hm_size h) (hm_capacity h)) as [E|]; [|done].
  rewrite (Hu (Hfull E)). cbn [Z.eqb negb].
  pose proof (ao_n_curr _ _ (ho_arrays _ _ _ _ _ HH)).
  destruct (get_next_bucket_size_ok num_pre (n_curr_buckets h)) as (n & -> & _); [|by case_match].
  unfold hm_capacity, buckets_capacity, LoadFactorNum, LoadFactorDen in E. zlia.
Qed.

(** When the memory lasts, and when no rehashing is left unfinished. *)
Lemma hm_growths_ok ops : forall h B all,
  ready key_of key_hash h B all -> hm_size h + Z.of_nat (length ops) <= 2 ^ 60 ->
  (all_granted h -> NoMemory ∉ hm_growths ops h)
  /\ (unstalled h -> all_keep_rehashing ops h = true -> Stalled ∉ hm_growths ops h).
Proof.
  induction ops as [|op ops IH]; intros h B all HR Hsz; cbn [hm_growths all_keep_rehashing length] in *.
  { split; intros; apply not_elem_of_nil. }
  pose proof (hm_exec_agrees op h B all HR ltac:(lia)) as HA.
  pose proof (hm_growth_granted h) as Hg. pose proof (hm_growth_unstalled h B all HR ltac:(lia)) as Hs.
  destruct (hm_spec (hm_growth num_pre h) op all) as [[v all1]|] eqn:Es.
  2: { rewrite HA. split; intros; rewrite list_elem_of_singleton; intros E; [by apply Hg|by apply Hs]. }
  destruct HA as (h1 & B1 & -> & HR1 & Ka & Ku). cbn [ret].
  rewrite (ho_size _ _ _ _ _ (rd_holds _ _ _ _ _ HR)) in Hsz. apply hm_spec_length in Es.
  destruct (IH h1 B1 all1 HR1) as [H1 H2].
  { rewrite (ho_size _ _ _ _ _ (rd_holds _ _ _ _ _ HR1)). lia. }
  split.
  - intros Ha [E|E]%elem_of_cons; [by apply Hg|by apply H1; [apply Ka|]].
  - intros Hu [Hk Hks]%andb_true_iff [E|E]%elem_of_cons; [by apply Hs|by apply H2; [apply Ku| |]].
Qed.

End Refines.

(** C18: an intrusive hash map is a map from keys to elements that keeps the order of
    insertion: whatever the hash function, the allocations that fail and the sequence of
    operations, every operation returns what it returns on the list of elements, across
    growth and incremental rehashing.  An insertion fails and changes nothing when the map is
    full and a larger array cannot be allocated.  It panics when the key is there already,
    and when the map is full and its last rehashing has stalled, which can only happen when
    an earlier operation removed the last element that the rehashing had to move; any other
    operation panics exactly when its element is not in the map. *)
Theorem hashmap_refines {K} `{EqDecision K} (key_of : nat -> K) (key_hash : K -> Z) (num_pre : Z)
    (alloc : list bool) (ops : list (hm_op (K := K))) :
  Z.of_nat (length ops) <= 2 ^ 60 ->
  let gs := hm_growths key_of key_hash num_pre ops (hashmap_new alloc) in
  match hm_run_spec key_of gs ops [] with
  | Ok (vs, all) =>
      exists h B, hm_run key_of key_hash num_pre ops (hashmap_new alloc) = ret (vs, h)
                  /\ ready key_of key_hash h B all
  | Panic => hm_run key_of key_hash num_pre ops (hashmap_new alloc) = Panic
  end
  /\ (Forall (fun b => b = true) alloc -> NoMemory ∉ gs)
  /\ (all_keep_rehashing key_of key_hash num_pre ops (hashmap_new alloc) = true -> Stalled ∉ gs).
Proof.
  intros Hl gs. pose proof (ready_new key_of key_hash alloc) as HR. split.
  - by apply hm_run_agrees with (B := fun _ => []).
  - destruct (hm_growths_ok key_of key_hash num_pre ops (hashmap_new alloc) _ [] HR Hl) as [H1 H2].
    split; [exact H1|]. by apply H2.
Qed.

(** A map from numbers to themselves, with 6 embedded buckets; the third growth fails. *)
Definition demo_hash_ops : list (hm_op (K := nat)) :=
  (HInsert <$> seq 0 40) ++ [HRemove 7; HNextOf 6; HPrevOf 8; HFind 39%nat; HFind 7%nat; HSize]
  ++ (HInsert <$> seq 40 111).

Definition demo_hash_allocs : list bool := [true; false].

Lemma hashmap_refines_witness :
  exists vs h, hm_run (fun n => n) Z.of_nat 6 demo_hash_ops (hashmap_new demo_hash_allocs) = ret (vs, h)
    /\ take 6 (drop 40 vs) = [HVoid; HElem (Some 8%nat); HElem (Some 6%nat); HElem (Some 39%nat);
                              HElem None; HCount 39]
    /\ drop 155 vs = [HBool true; HBool false].
Proof.
  destruct (hashmap_refines (fun n => n) Z.of_nat 6 demo_hash_allocs demo_hash_ops) as [H _];
    [vm_compute; discriminate|].
  cbv zeta in H.
  let r := eval vm_compute in (hm_growths (fun n : nat => n) Z.of_nat 6 demo_hash_ops (hashmap_new demo_hash_allocs)) in
  assert (hm_growths (fun n : nat => n) Z.of_nat 6 demo_hash_ops (hashmap_new demo_hash_allocs) = r) as Eg
    by (vm_compute; reflexivity).
  rewrite Eg in H.
  match type of H with match ?s with _ => _ end =>
    let r := eval vm_compute in s in assert (s = r) as E by (vm_compute; reflexivity) end.
  rewrite E in H. destruct H as (h & B & Hr & _). eexists _, h. split; [exact Hr|]. split; reflexivity.
Defined.

(** A map whose rehashing has nothing left to move but has not been ended, because
    the last element to move was removed, panics on the first insertion that has to grow
    it. *)
Theorem hashmap_stalled_growth {K} `{EqDecision K} (key_of : nat -> K) (key_hash : K -> Z)
    (num_pre : Z) (h : HashmapImpl) (n : nat) :
  hm_size h = hm_capacity h -> 0 <= n_curr_buckets h < 2 ^ 62 -> rehash_pos h <> 0 ->
  hashmap_insert key_of key_hash num_pre n h = Panic.
Proof.
  intros Hs Hn Hp. unfold hashmap_insert, hm_insert, hm_grow. unfold hm_capacity in Hs.
  cbv zeta. rewrite <- Hs, !Z.leb_refl, Z.eqb_refl.
  cbn [negb panic_if grow_size].
  destruct (get_next_bucket_size_ok num_pre _ Hn) as (m & -> & Hm).
  cbn [lift res_bind run_bind ret]. pose proof (capacity_mono _ _ Hm).
  rewrite (proj2 (Z.leb_gt _ _)) by lia. cbn [run_bind ret]. unfold realloc_buckets.
  rewrite (proj2 (Z.ltb_lt 0 m)) by lia. cbn [negb panic_if].
  by rewrite (proj2 (Z.eqb_neq _ _) Hp).
Qed.

(** 41 insertions, 12 removals that leave nothing to move, and insertions until the map
    is full: the next insertion panics. *)
Definition stall_ops : list (hm_op (K := nat)) :=
  (HInsert <$> seq 0 41) ++ (HRemove <$> [4; 9; 14; 19; 24; 29; 3; 8; 13; 18; 23; 28]%nat)
  ++ (HInsert <$> seq 50 120).

Definition stalled_map : HashmapImpl :=
  match hm_run (fun n => n) Z.of_nat 6 stall_ops (hashmap_new []) with
  | Ok (Some (_, h)) => h
  | _ => hashmap_new []
  end.

Lemma hashmap_stalled_growth_witness :
  hm_size stalled_map = 149
  /\ hashmap_insert (fun n => n) Z.of_nat 6 200 stalled_map = Panic.
Proof.
  split; [vm_compute; reflexivity|].
  apply (hashmap_stalled_growth (fun n => n) Z.of_nat 6 stalled_map 200).
  - vm_compute. reflexivity.
  - apply (bool_decide_unpack _). vm_compute. exact I.
  - apply (bool_decide_unpack _). vm_compute. exact I.
Defined.
