(* ===== verification/RtcpNtp.v ===== *)
(** NTP timestamps in RTCP reports (src/internal_modules/roc_rtcp/ntp.cpp): most
    fields of a report hold only the middle 32 bits of a 64-bit NTP timestamp. *)

From S2P Require Import Prelude.

Definition ntp_clamp_64 (value max_value : Z) : Z :=
  if max_value <? value then max_value else value.

Definition ntp_clamp_32 (value max_value : Z) : Z :=
  let value := u64 (value + 0x8000) in
  let value := Z.land value 0xFFFFFFFFFFFF0000 in
  let value :=
    if Z.land max_value 0xFFFFFFFFFFFF0000 <? value
    then Z.land max_value 0xFFFFFFFFFFFF0000 else value in
  Z.land value 0x0000FFFFFFFF0000.

Definition ntp_extend (base value : Z) : res Z :=
  panic_if (negb (Z.land value 0xFFFF00000000FFFF =? 0))
    (let extended_value := Z.lor (Z.land base 0xFFFF000000000000) value in
     let wrapped_forward :=
       Z.lor (Z.land (u64 (base - 0x0001000000000000)) 0xFFFF000000000000) value in
     let wrapped_backward :=
       Z.lor (Z.land (u64 (base + 0x0001000000000000)) 0xFFFF000000000000) value in
     if (Z.abs (s64 (u64 (extended_value - base)))
           <=? Z.abs (s64 (u64 (wrapped_forward - base))))
        && (Z.abs (s64 (u64 (extended_value - base)))
              <=? Z.abs (s64 (u64 (wrapped_backward - base))))
     then Ok extended_value
     else if Z.abs (s64 (u64 (wrapped_forward - base)))
               <=? Z.abs (s64 (u64 (wrapped_backward - base)))
     then Ok wrapped_forward
     else Ok wrapped_backward).

(** * The masks *)

(** Masking with [n] ones at bit [k]. *)
Lemma land_field v n k :
  0 <= n -> 0 <= k -> Z.land v (Z.shiftl (Z.ones n) k) = (v / 2 ^ k) mod 2 ^ n * 2 ^ k.
Proof.
  intros Hn Hk.
  rewrite <- Z.land_ones, <- Z.shiftr_div_pow2, <- Z.shiftl_mul_pow2 by lia.
  apply Z.bits_inj'; intros i Hi. rewrite Z.land_spec, !Z.shiftl_spec by lia.
  destruct (Z.lt_ge_cases i k).
  - rewrite !(Z.testbit_neg_r _ (i - k)) by lia. apply andb_false_r.
  - rewrite Z.land_spec, Z.shiftr_spec by lia. do 2 f_equal. lia.
Qed.

Lemma land_middle v : Z.land v 0x0000FFFFFFFF0000 = (v / 2 ^ 16) mod 2 ^ 32 * 2 ^ 16.
Proof. apply (land_field v 32 16); lia. Qed.

Lemma land_high48 v : is_u 64 v -> Z.land v 0xFFFFFFFFFFFF0000 = v / 2 ^ 16 * 2 ^ 16.
Proof.
  unfold is_u. intros Hv. transitivity ((v / 2 ^ 16) mod 2 ^ 48 * 2 ^ 16); [by apply (land_field v 48 16)|].
  rewrite (Z.mod_small (v / 2 ^ 16)) by zlia. done.
Qed.

Lemma land_high16 v : is_u 64 v -> Z.land v 0xFFFF000000000000 = v / 2 ^ 48 * 2 ^ 48.
Proof.
  unfold is_u. intros Hv. transitivity ((v / 2 ^ 48) mod 2 ^ 16 * 2 ^ 48); [by apply (land_field v 16 48)|].
  rewrite (Z.mod_small (v / 2 ^ 48)) by zlia. done.
Qed.

(** The outer bits of a value that has only middle ones. *)
Lemma land_outer v : Z.land (v mod 2 ^ 32 * 2 ^ 16) 0xFFFF00000000FFFF = 0.
Proof.
  apply Z.bits_inj'; intros i Hi. rewrite Z.land_spec, Z.bits_0.
  destruct (Z.lt_ge_cases i 16); [by rewrite Z.mul_pow2_bits_low|].
  rewrite Z.mul_pow2_bits by lia. destruct (Z.lt_ge_cases (i - 16) 32).
  - change 0xFFFF00000000FFFF with (Z.lor (Z.shiftl (Z.ones 16) 48) (Z.ones 16)).
    rewrite Z.lor_spec, Z.shiftl_spec, (Z.testbit_neg_r _ (i - 48)), Z.ones_spec_high by lia.
    apply andb_false_r.
  - by rewrite Z.mod_pow2_bits_high by lia.
Qed.

Lemma lor_high16 h v : 0 <= v < 2 ^ 48 -> Z.lor (h * 2 ^ 48) v = h * 2 ^ 48 + v.
Proof.
  intros Hv. rewrite <- Z.lxor_lor, <- Z.add_nocarry_lxor; [done| |];
    apply Z.bits_inj'; intros i Hi; rewrite Z.land_spec, Z.bits_0;
    (destruct (Z.lt_ge_cases i 48);
     [by rewrite Z.mul_pow2_bits_low by lia|]);
    rewrite <- (Z.mod_small v (2 ^ 48)), Z.mod_pow2_bits_high by lia;
    apply andb_false_r.
Qed.

(** A 64-bit difference, as [int64_t(a - b)] computes it, is the signed value
    congruent to it. *)
Lemma s64_u64 a d k : is_s 64 d -> a = d + k * 2 ^ 64 -> s64 (u64 a) = d.
Proof.
  intros Hd ->. rewrite <- (wrap_s_small 64 d) at 2 by done.
  apply wrap_s_of_cong; [done|]. rewrite wrap_u_cong. apply Z.mod_add. lia.
Qed.

(** The candidate with high bits [B + i], seen from the reference [B * 2^48 + r]. *)
Lemma candidate_distance B i v r :
  0 <= v < 2 ^ 48 -> 0 <= r < 2 ^ 48 -> -1 <= i <= 1 ->
  s64 (u64 ((B + i) mod 2 ^ 16 * 2 ^ 48 + v - (B * 2 ^ 48 + r))) = v - r + i * 2 ^ 48.
Proof.
  intros Hv Hr Hi. apply s64_u64 with (- ((B + i) / 2 ^ 16)); [unfold is_s; lia|].
  pose proof (Z.div_mod (B + i) (2 ^ 16)). lia.
Qed.

Lemma high16_shifted base i :
  0 <= base < 2 ^ 64 -> (base + i * 2 ^ 48) mod 2 ^ 64 / 2 ^ 48 = (base / 2 ^ 48 + i) mod 2 ^ 16.
Proof. intros. zlia. Qed.

(** A 64-bit time of which only the middle 32 bits were transmitted is recovered,
    up to its 16 low bits, from any reference time less than 2^15 seconds before or
    after it, across any wrap of the reference or of the transmitted bits. *)
Theorem ntp_extend_recovers (base orig : Z) :
  is_u 64 base -> is_u 64 orig ->
  Z.abs (s64 (orig / 2 ^ 16 * 2 ^ 16 - base)) < 2 ^ 47 ->
  ntp_extend base (Z.land orig 0x0000FFFFFFFF0000) = Ok (orig / 2 ^ 16 * 2 ^ 16).
Proof.
  unfold is_u. intros Hb Ho Hd. unfold ntp_extend.
  rewrite land_middle, land_outer. simpl negb. unfold panic_if.
  rewrite !land_high16 by (assumption || apply wrap_u_range; lia).
  set (v := (orig / 2 ^ 16) mod 2 ^ 32 * 2 ^ 16).
  assert (0 <= v < 2 ^ 48) by (subst v; zlia). rewrite !lor_high16 by done.
  assert (orig / 2 ^ 16 * 2 ^ 16 = orig / 2 ^ 48 * 2 ^ 48 + v) as Ht by (subst v; zlia).
  rewrite Ht in *. clearbody v.
  change (base - 0x0001000000000000) with (base + (-1) * 2 ^ 48).
  change (base + 0x0001000000000000) with (base + 1 * 2 ^ 48).
  rewrite (high16_shifted base (-1) Hb : u64 (base + -1 * 2 ^ 48) / 2 ^ 48 = _),
    (high16_shifted base 1 Hb : u64 (base + 1 * 2 ^ 48) / 2 ^ 48 = _).
  replace (base / 2 ^ 48 * 2 ^ 48) with ((base / 2 ^ 48 + 0) mod 2 ^ 16 * 2 ^ 48) by zlia.
  set (B := base / 2 ^ 48) in *. set (r := base mod 2 ^ 48).
  assert (base = B * 2 ^ 48 + r) as Hbase by (subst B r; zlia).
  assert (0 <= r < 2 ^ 48) by (subst r; zlia).
  assert (0 <= orig / 2 ^ 48 < 2 ^ 16) by zlia. assert (0 <= B < 2 ^ 16) by (subst B; zlia).
  clearbody B r. subst base. rewrite !candidate_distance by lia.
  revert Hd. generalize dependent (orig / 2 ^ 48). intros O _ HO.
  unfold s64, wrap_s. intros Hd.
  repeat case_if; f_equal; zlia.
Qed.

Lemma ntp_extend_recovers_witness :
  ntp_extend 0xAAAB111122221111 (Z.land 0xAAAAFFFFEEEEAAAA 0x0000FFFFFFFF0000)
  = Ok 0xAAAAFFFFEEEE0000.
Proof. apply (ntp_extend_recovers 0xAAAB111122221111 0xAAAAFFFFEEEEAAAA); closed. Defined.

(** [ntp_clamp_32] rounds a time to the nearest unit of 2^-16 seconds and
    saturates it to the given maximum of at most 48 bits, except for the last 2^15
    values of the 64-bit range: there the rounding addition wraps around and the
    result is zero instead of the maximum. *)
Theorem ntp_clamp_32_saturates (value max_value : Z) :
  is_u 64 value -> is_u 48 max_value ->
  ntp_clamp_32 value max_value =
    if value <? 2 ^ 64 - 2 ^ 15
    then Z.min ((value + 2 ^ 15) / 2 ^ 16) (max_value / 2 ^ 16) * 2 ^ 16
    else 0.
Proof.
  unfold is_u. intros Hv Hm. unfold ntp_clamp_32. change 0x8000 with (2 ^ 15).
  rewrite (land_high48 max_value) by (unfold is_u; lia).
  rewrite land_high48, land_middle by (apply wrap_u_range; lia). unfold wrap_u.
  destruct (Z.ltb_spec value (2 ^ 64 - 2 ^ 15)).
  - rewrite (Z.mod_small (value + 2 ^ 15)) by lia. case_if; zlia.
  - replace ((value + 2 ^ 15) mod 2 ^ 64) with (value + 2 ^ 15 - 2 ^ 64) by zlia.
    case_if; zlia.
Qed.

Lemma ntp_clamp_32_saturates_witness :
  ntp_clamp_32 0xBBBBBBBBBBBBBBBB 0xAAAAAAA90000 = 0xAAAAAAA90000
  /\ ntp_clamp_32 0xFFFFFFFFFFFFFFFF 0xAAAAAAA90000 = 0.
Proof.
  split.
  - apply (ntp_clamp_32_saturates 0xBBBBBBBBBBBBBBBB 0xAAAAAAA90000); closed.
  - apply (ntp_clamp_32_saturates 0xFFFFFFFFFFFFFFFF 0xAAAAAAA90000); closed.
Defined.
