(* ===== verification/RtcpEstimators.v ===== *)
(** The statistics that the RTCP reporter keeps for a stream: round-trip time
    (roc_rtcp/rtt_estimator.cpp), fractional loss (loss_estimator.cpp) and packet count
    (packet_counter.cpp). *)

From Stdlib Require Import QArith.
From S2P Require Import Prelude Float32.

#[local] Open Scope Z_scope.

(** * Round-trip time *)

Module RttEstimator.

Record RttMetrics : Type := mkRttMetrics { clock_offset : Z; rtt : Z }.

(** [config_] is not read by any method. *)
Record t : Type := mk {
  metrics_ : RttMetrics;
  has_metrics_ : bool;
  first_report_ts_ : Z;
  last_report_ts_ : Z
}.

Definition make : t := mk (mkRttMetrics 0 0) false 0 0.

Definition update (local_report_ts remote_report_ts remote_reply_ts local_reply_ts : Z) (e : t)
  : t :=
  if negb (local_report_ts <=? local_reply_ts) || negb (remote_report_ts <=? remote_reply_ts)
  then e
  else if local_report_ts <=? last_report_ts_ e then e
  else
    let clock_offset :=
      Z.quot (s64 (s64 (remote_report_ts - local_report_ts)
                   + s64 (remote_reply_ts - local_reply_ts))) 2 in
    let rtt := s64 (s64 (local_reply_ts - local_report_ts)
                    - s64 (remote_reply_ts - remote_report_ts)) in
    if rtt <? 0 then e
    else
      mk (mkRttMetrics clock_offset rtt) true
        (if first_report_ts_ e =? 0 then local_report_ts else first_report_ts_ e)
        local_report_ts.

(** A measured round-trip time is not negative. *)
Definition wf (e : t) : Prop := 0 <= rtt (metrics_ e).

Lemma wf_make : wf make.
Proof. done. Qed.

Lemma wf_update t1 t2 t3 t4 e : wf e -> wf (update t1 t2 t3 t4 e).
Proof. intros He. unfold update. repeat case_if; done. Qed.

(** An exchange of reports with a peer whose clock is ahead by [theta]: our report leaves
    at [t1] and travels for [d1], the peer holds it for [h], its reply travels for [d2]. *)
Section Exchange.

Variables (t1 theta d1 h d2 : Z).

Definition exchange (e : t) : t :=
  update t1 (t1 + d1 + theta) (t1 + d1 + h + theta) (t1 + d1 + h + d2) e.

Hypothesis Ht1 : 0 < t1 < 2 ^ 61.
Hypothesis Htheta : - 2 ^ 60 < theta < 2 ^ 60.
Hypothesis Hd1 : 0 <= d1 < 2 ^ 60.
Hypothesis Hd2 : 0 <= d2 < 2 ^ 60.
Hypothesis Hh : 0 <= h < 2 ^ 60.

Lemma exchange_eq e :
  last_report_ts_ e < t1 ->
  exchange e = mk (mkRttMetrics (Z.quot (2 * theta + (d1 - d2)) 2) (d1 + d2)) true
                 (if first_report_ts_ e =? 0 then t1 else first_report_ts_ e) t1.
Proof using All.
  intros Hnew. unfold exchange, update.
  rewrite !(proj2 (Z.leb_le _ _)) by lia. rewrite (proj2 (Z.leb_gt _ _)) by lia. cbn [negb orb].
  rewrite !(wrap_s_small 64) by (try lia; unfold is_s; rewrite ?(wrap_s_small 64) by (unfold is_s; lia); lia).
  replace (t1 + d1 + h + d2 - t1 - (t1 + d1 + h + theta - (t1 + d1 + theta)))
    with (d1 + d2) by lia.
  rewrite (proj2 (Z.ltb_ge _ _)) by lia.
  replace (t1 + d1 + theta - t1 + (t1 + d1 + h + theta - (t1 + d1 + h + d2)))
    with (2 * theta + (d1 - d2)) by lia. done.
Qed.

End Exchange.

End RttEstimator.

(** * Fractional loss *)

Module LossEstimator.

Record t : Type := mk { prev_total_ : Z; prev_lost_ : Z }.

Definition make : t := mk 0 0.

(** The numbers of packets are a [uint64_t] and an [int64_t]; the result is a [float]. *)
Definition update (total_packets lost_packets : Z) (e : t) : Q * t :=
  let fract_loss :=
    if prev_total_ e <? total_packets
    then f32_div (f32_of_Z (s64 (lost_packets - prev_lost_ e)))
           (f32_of_Z (u64 (total_packets - prev_total_ e)))
    else 0%Q in
  let fract_loss := if Qle_bool 0 fract_loss then fract_loss else 0%Q in
  (fract_loss, mk total_packets lost_packets).

End LossEstimator.

(** * Packet count *)

Module PacketCounter.

Record t : Type := mk {
  first_update_ : bool;
  begin64_ : Z;
  end64_hi_ : Z;
  end64_lo_ : Z;
  counter_ : Z
}.

Definition make : t := mk true 0 0 0 0.

Definition update (begin end_ : Z) (c : t) : Z * t :=
  let c := if first_update_ c || negb (begin =? begin64_ c)
           then mk false begin 0 end_ (counter_ c) else c in
  let c :=
    if 0 <? s32 (u32 (end_ - end64_lo_ c)) then
      mk (first_update_ c) (begin64_ c)
        (if end_ <? end64_lo_ c then u64 (end64_hi_ c + (2 ^ 32 - 1)) else end64_hi_ c)
        end_ (counter_ c)
    else c in
  let end64 := u64 (end64_hi_ c + end64_lo_ c) in
  let c :=
    if begin64_ c <=? end64
    then mk (first_update_ c) (begin64_ c) (end64_hi_ c) (end64_lo_ c) (u64 (end64 - begin64_ c))
    else c in
  (counter_ c, c).

(** Updates with the low halves of the positions [es]. *)
Fixpoint track (begin : Z) (es : list Z) (c : t) : Z * t :=
  match es with
  | [] => (counter_ c, c)
  | e :: es => track begin es (update begin (u32 e) c).2
  end.

(** The state after following a stream from [begin] to the 64-bit position [e]: every
    time the position passed a multiple of [2 ^ 32], the counter was given one less. *)
Definition at_position (begin e : Z) (c : t) : Prop :=
  c = mk false begin (e / 2 ^ 32 * (2 ^ 32 - 1)) (e mod 2 ^ 32)
        (e - e / 2 ^ 32 - begin).

Lemma update_first begin e c :
  0 <= begin <= e -> e < 2 ^ 32 -> first_update_ c = true ->
  at_position begin e (update begin (u32 e) c).2.
Proof.
  intros Hb He Hf. unfold update, at_position. rewrite Hf. cbn [orb end64_lo_].
  rewrite (wrap_u_small 32 e) by (unfold is_u; lia). rewrite Z.sub_diag.
  change (0 <? s32 (u32 0)) with false. cbn [first_update_ begin64_ end64_hi_ end64_lo_ counter_].
  rewrite (Z.div_small e), (Z.mod_small e) by lia.
  rewrite Z.add_0_l, (wrap_u_small 64 e) by (unfold is_u; lia).
  rewrite (proj2 (Z.leb_le _ _)) by lia. simpl.
  rewrite (wrap_u_small 64) by (unfold is_u; lia). f_equal. lia.
Qed.

(** One step of less than half the range. *)
Lemma update_step begin e e' c :
  0 <= begin <= e -> e <= e' < e + 2 ^ 31 -> e' < 2 ^ 62 -> at_position begin e c ->
  begin <= e - e / 2 ^ 32 ->
  at_position begin e' (update begin (u32 e') c).2.
Proof.
  intros Hb He He' Hc Hbe. rewrite Hc. unfold update, at_position.
  cbn [first_update_ begin64_ end64_hi_ end64_lo_ counter_ orb].
  rewrite Z.eqb_refl. cbn [negb].
  pose proof (Z.div_mod e (2 ^ 32) ltac:(lia)) as De.
  pose proof (Z.mod_pos_bound e (2 ^ 32) ltac:(lia)) as Me.
  pose proof (Z.div_mod e' (2 ^ 32) ltac:(lia)) as De'.
  pose proof (Z.mod_pos_bound e' (2 ^ 32) ltac:(lia)) as Me'.
  assert (0 <= e / 2 ^ 32) as Hq by (apply Z.div_pos; lia).
  change (u32 e') with (e' mod 2 ^ 32).
  cbn [first_update_ begin64_ end64_hi_ end64_lo_ counter_].
  set (q := e / 2 ^ 32) in *. set (r := e mod 2 ^ 32) in *.
  set (q' := e' / 2 ^ 32) in *. set (r' := e' mod 2 ^ 32) in *.
  assert (q' = q \/ q' = q + 1) as Hqq by lia.
  assert (u32 (r' - r) = e' - e) as Hu.
  { unfold wrap_u. symmetry. apply Z.mod_unique_pos with (q - q'); lia. }
  rewrite Hu, (wrap_s_small 32) by (unfold is_s; lia).
  assert (forall x, 0 <= x < 2 ^ 64 -> u64 x = x) as H64
    by (intros; apply wrap_u_small; unfold is_u; lia).
  destruct (Z.eq_dec e' e) as [E|].
  - rewrite (proj2 (Z.ltb_ge _ _)) by lia. subst q' r'. rewrite E. fold q r.
    cbn [first_update_ begin64_ end64_hi_ end64_lo_ counter_]. rewrite !H64 by (rewrite ?H64; lia).
    rewrite (proj2 (Z.leb_le _ _)) by lia. simpl. f_equal. lia.
  - rewrite (proj2 (Z.ltb_lt _ _)) by lia.
    cbn [first_update_ begin64_ end64_hi_ end64_lo_ counter_].
    destruct (r' <? r) eqn:Er; reflect_bools.
    + assert (q' = q + 1) as -> by lia. rewrite (H64 (q * _ + _)) by lia.
      rewrite !H64 by (rewrite ?H64; lia).
      rewrite (proj2 (Z.leb_le _ _)) by lia. simpl. f_equal; lia.
    + assert (q' = q) as -> by lia. rewrite !H64 by (rewrite ?H64; lia).
      rewrite (proj2 (Z.leb_le _ _)) by lia. simpl. f_equal; lia.
Qed.

(** A stream advances by less than half the range between two updates. *)
Fixpoint advances (e : Z) (es : list Z) : Prop :=
  match es with
  | [] => True
  | e' :: es => e <= e' < e + 2 ^ 31 /\ e' < 2 ^ 62 /\ advances e' es
  end.

Lemma track_position begin e es c :
  0 <= begin < 2 ^ 31 -> begin <= e -> at_position begin e c -> advances e es ->
  at_position begin (default e (last es)) (track begin es c).2.
Proof.
  intros Hb. revert e c. induction es as [|e' es IH]; intros e c He Hc Ha; [done|].
  destruct Ha as (He' & Hmax & Ha). cbn [track].
  assert (begin <= e - e / 2 ^ 32) as Hbe.
  { pose proof (Z.div_mod e (2 ^ 32) ltac:(lia)). pose proof (Z.mod_pos_bound e (2 ^ 32) ltac:(lia)).
    assert (0 <= e / 2 ^ 32) by (apply Z.div_pos; lia).
    destruct (Z.eq_dec (e / 2 ^ 32) 0); nia. }
  replace (default e (last (e' :: es))) with (default e' (last es))
    by (rewrite last_cons; by destruct (last es)).
  apply IH; [lia| |done]. apply (update_step begin e); done || lia.
Qed.

End PacketCounter.

(** The round-trip time is right, and the clock offset is off by no more than half the
    difference of the two delays.  When reports are exchanged with a peer whose clock is
    ahead by [theta] and the two ways take [d1] and [d2], the estimator measures exactly
    [d1 + d2], however long the peer holds the report, and twice the error of the offset is
    [d1 - d2] up to one; for equal delays there is no error. *)
Theorem rtt_estimator_measures (t1 theta d1 h d2 : Z) (e : RttEstimator.t) :
  0 < t1 < 2 ^ 61 -> - 2 ^ 60 < theta < 2 ^ 60 -> 0 <= d1 < 2 ^ 60 -> 0 <= d2 < 2 ^ 60 ->
  0 <= h < 2 ^ 60 -> RttEstimator.last_report_ts_ e < t1 ->
  let e' := RttEstimator.exchange t1 theta d1 h d2 e in
  let m := RttEstimator.metrics_ e' in
  RttEstimator.has_metrics_ e' = true
  /\ RttEstimator.rtt m = d1 + d2
  /\ Z.abs (2 * (RttEstimator.clock_offset m - theta) - (d1 - d2)) <= 1
  /\ (d1 = d2 -> RttEstimator.clock_offset m = theta).
Proof.
  intros. subst e' m. rewrite RttEstimator.exchange_eq by done.
  cbn [RttEstimator.metrics_ RttEstimator.has_metrics_ RttEstimator.rtt RttEstimator.clock_offset]. split_and!; [done|done| |].
  - pose proof (Z.quot_rem' (2 * theta + (d1 - d2)) 2).
    pose proof (Z.rem_bound_abs (2 * theta + (d1 - d2)) 2 ltac:(lia)). lia.
  - intros ->. rewrite Z.sub_diag, Z.add_0_r, Z.mul_comm. by apply Z.quot_mul.
Qed.

Lemma rtt_estimator_measures_witness :
  let m := RttEstimator.metrics_ (RttEstimator.exchange 1000 (-70) 30 500 41 RttEstimator.make) in
  RttEstimator.rtt m = 71 /\ Z.abs (2 * (RttEstimator.clock_offset m - -70) - (30 - 41)) <= 1.
Proof.
  destruct (rtt_estimator_measures 1000 (-70) 30 500 41 RttEstimator.make) as (_ & H1 & H2 & _);
    [lia|lia|lia|lia|lia|reflexivity|].
  split; [exact H1|exact H2].
Defined.

(** The packet counter falls behind by one every time the 32-bit position wraps.  It
    follows a stream that advances by less than half the range between updates, but adds
    2^32 - 1 instead of 2^32 when the position passes a multiple of 2^32. *)
Theorem packet_counter_loses_wraps (begin e : Z) (es : list Z) :
  0 <= begin < 2 ^ 31 -> begin <= e < 2 ^ 32 -> PacketCounter.advances e es ->
  let final := default e (last es) in
  (PacketCounter.track begin (e :: es) PacketCounter.make).1 = (final - begin) - final / 2 ^ 32.
Proof.
  intros Hb He Ha. cbn [PacketCounter.track].
  assert (PacketCounter.at_position begin e (PacketCounter.update begin (u32 e) PacketCounter.make).2)
    as Hp by (apply PacketCounter.update_first; [lia|lia|done]).
  pose proof (PacketCounter.track_position begin e es _ Hb (proj1 He) Hp Ha) as Hq.
  assert (forall l c, (PacketCounter.track begin l c).1 = PacketCounter.counter_ (PacketCounter.track begin l c).2)
    as Hfst by (induction l; intros; [done|simpl; auto]).
  cbv zeta. rewrite Hfst, Hq. simpl. lia.
Qed.

Lemma packet_counter_loses_wraps_witness :
  PacketCounter.advances 4294967290 [4294967300; 6442440000; 8589900000; 8589934600]
  /\ (PacketCounter.track 0 [4294967290; 4294967300; 6442440000; 8589900000; 8589934600] PacketCounter.make).1
     = 8589934600 - 0 - 2.
Proof.
  assert (PacketCounter.advances 4294967290 [4294967300; 6442440000; 8589900000; 8589934600]) as Ha
    by (cbn [PacketCounter.advances]; lia).
  split; [exact Ha|].
  apply (packet_counter_loses_wraps 0 4294967290 [4294967300; 6442440000; 8589900000; 8589934600]); [lia|lia|exact Ha].
Defined.
