(* ===== verification/RtcpHeaders.v ===== *)
(** RTCP headers (src/internal_modules/roc_rtcp/headers.h): the packed header classes
    as accessors on the bytes at an offset [b] of a buffer [m].

    As in RtpHeaders.v, the setters return the new content of the buffer.  A header
    object that the source passes by reference is the byte string of its size, read and
    written at offset 0.  The prefix of a name is the class: [ph_] PacketHeader, [rrb_]
    ReceptionReportBlock, [rr_] and [sr_] the report packets, [sdc_] and [sdi_] the
    SDES chunk and item headers, [bys_] and [byr_] the BYE source and reason headers,
    [xr_] XrPacket, [xb_] XrBlockHeader, [rrtr_], [dls_], [dlrr_], [mi_], [dm_], [qm_]
    the XR blocks. *)

From S2P Require Import Prelude Bytes RtcpNtp.
From Stdlib Require Import QArith.

#[local] Open Scope Z_scope.

(** * Constants *)

Definition MaxPacketBlocks : Z := 31.

Definition MaxTextLen : nat := 255.

Definition MaxDelay : Z := 0x0000FFFFFFFFFFFF.

Definition MetricUnavail_64 : Z := 0xFFFFFFFFFFFFFFFF.

Definition MetricUnavail_32 : Z := 0x0000FFFFFFFF0000.

Definition RTCP_V2 : Z := 2.

Definition RTCP_SR : Z := 200.
Definition RTCP_RR : Z := 201.
Definition RTCP_SDES : Z := 202.
Definition RTCP_BYE : Z := 203.
Definition RTCP_APP : Z := 204.
Definition RTCP_XR : Z := 207.

Definition SDES_CNAME : Z := 1.

Definition XR_RRTR : Z := 4.
Definition XR_DLRR : Z := 5.
Definition XR_MEASUREMENT_INFO : Z := 14.
Definition XR_DELAY_METRICS : Z := 16.
Definition XR_QUEUE_METRICS : Z := 220.

Definition sizeof_PacketHeader : nat := 4.
Definition sizeof_ReceptionReportBlock : nat := 24.
Definition sizeof_ReceiverReportPacket : nat := 8.
Definition sizeof_SenderReportPacket : nat := 28.
Definition sizeof_SdesChunkHeader : nat := 4.
Definition sizeof_SdesItemHeader : nat := 2.
Definition sizeof_SdesPacket : nat := 4.
Definition sizeof_ByeSourceHeader : nat := 4.
Definition sizeof_ByeReasonHeader : nat := 1.
Definition sizeof_ByePacket : nat := 4.
Definition sizeof_XrPacket : nat := 8.
Definition sizeof_XrBlockHeader : nat := 4.
Definition sizeof_XrRrtrBlock : nat := 12.
Definition sizeof_XrDlrrSubblock : nat := 12.
Definition sizeof_XrDlrrBlock : nat := 4.
Definition sizeof_XrMeasurementInfoBlock : nat := 32.
Definition sizeof_XrDelayMetricsBlock : nat := 28.
Definition sizeof_XrQueueMetricsBlock : nat := 16.

(** * Helpers *)

(** [get_bit_field<T>] and [set_bit_field<T>] for a [w]-bit [T]; the masks and shifts
    of the callers keep [mask << shift] within [size_t]. *)
Definition get_bit_field (v0 shift mask : Z) : Z := Z.land (Z.shiftr v0 shift) mask.

Definition set_bit_field (w v0 v1 shift mask : Z) : Z :=
  let v0 := Z.land v0 (wrap_u w (Z.lnot (Z.shiftl mask shift))) in
  Z.lor v0 (wrap_u w (Z.shiftl (Z.land v1 mask) shift)).

Definition size_t_2_rtcp_length (x : nat) : res Z :=
  panic_if (x <? 4)%nat
    (panic_if (65535 <? Z.of_nat x)
       (panic_if (negb (x mod 4 =? 0)%nat)
          (Ok (u16 (u16 (Z.of_nat x) / 4 - 1))))).

Definition rtcp_length_2_size_t (x : Z) : nat := Z.to_nat ((x + 1) * 4).

Definition padding_len (size min_padding : nat) : nat :=
  let size_to_pad := Z.of_nat (size + min_padding) in
  let rest := Z.land size_to_pad 0x03 in
  (min_padding + Z.to_nat (if negb (rest =? 0)%Z then 4 - rest else 0))%nat.

(** The offset of the block of [blk_size] bytes at [block_index] after a header of
    [pkt_size] bytes. *)
Definition get_block_by_index (blk_size pkt_size pkt block_index num_blocks : nat) : res nat :=
  if (num_blocks <=? block_index)%nat then Panic
  else Ok (pkt + pkt_size + block_index * blk_size)%nat.

Section Headers.

(** Byte order of the machine that runs the code. *)
Context (host : cpu_endian).

(** * PacketHeader: [count_] at 0, [type_] at 1, [length_] at 2 *)

Definition ph_count_ (m : bytes) (b : nat) : Z := m !!! b.

Definition ph_counter (m : bytes) (b : nat) : nat :=
  Z.to_nat (get_bit_field (ph_count_ m b) 0 0x1F).

Definition ph_set_counter (m : bytes) (b : nat) (c : nat) : res bytes :=
  panic_if (MaxPacketBlocks <? Z.of_nat c)
    (Ok (overwrite m b [set_bit_field 8 (ph_count_ m b) (u8 (Z.of_nat c)) 0 0x1F])).

Definition ph_inc_counter (m : bytes) (b : nat) : res bytes :=
  ph_set_counter m b (ph_counter m b + 1).

Definition ph_version (m : bytes) (b : nat) : Z := get_bit_field (ph_count_ m b) 6 0x03.

Definition ph_set_version (m : bytes) (b : nat) (v : Z) : res bytes :=
  panic_if (negb (Z.land v 0x03 =? v))
    (Ok (overwrite m b [set_bit_field 8 (ph_count_ m b) v 6 0x03])).

Definition ph_has_padding (m : bytes) (b : nat) : bool :=
  negb (get_bit_field (ph_count_ m b) 5 0x01 =? 0).

Definition ph_set_padding (m : bytes) (b : nat) (v : bool) : bytes :=
  overwrite m b [set_bit_field 8 (ph_count_ m b) (if v then 1 else 0) 5 0x01].

Definition ph_type (m : bytes) (b : nat) : Z := m !!! (b + 1)%nat.

Definition ph_set_type (m : bytes) (b : nat) (t : Z) : res bytes :=
  panic_if (negb ((t =? 0) || ((RTCP_SR <=? t) && (t <=? RTCP_XR))))
    (Ok (overwrite m (b + 1) [t])).

Definition ph_len_words (m : bytes) (b : nat) : Z := ntoh16u host (load host 2 m (b + 2)).

Definition ph_set_len_words (m : bytes) (b : nat) (len : Z) : bytes :=
  store host 2 m (b + 2) (hton16u host len).

Definition ph_len_bytes (m : bytes) (b : nat) : nat := rtcp_length_2_size_t (ph_len_words m b).

Definition ph_set_len_bytes (m : bytes) (b : nat) (len : nat) : res bytes :=
  let* w := size_t_2_rtcp_length len in
  Ok (ph_set_len_words m b w).

Definition ph_reset (m : bytes) (b : nat) (t : Z) : res bytes :=
  let m := overwrite m b [0] in
  let m := overwrite m (b + 1) [0] in
  let m := store host 2 m (b + 2) 0 in
  let* m := ph_set_version m b RTCP_V2 in
  ph_set_type m b t.

(** * NtpTimestamp64: [high_] at 0, [low_] at 4 *)

Definition ntp64_value (m : bytes) (b : nat) : Z :=
  Z.lor (u64 (Z.shiftl (ntoh32u host (load host 4 m b)) 32))
        (ntoh32u host (load host 4 m (b + 4))).

Definition ntp64_set_value (m : bytes) (b : nat) (t : Z) : bytes :=
  let m := store host 4 m b (hton32u host (u32 (Z.shiftr t 32))) in
  store host 4 m (b + 4) (hton32u host (u32 t)).

(** * NtpTimestamp32: [mid_] at 0 *)

Definition ntp32_value (m : bytes) (b : nat) : Z :=
  u64 (Z.shiftl (ntoh32u host (load host 4 m b)) 16).

(** The argument of [hton32u] is a [uint32_t]. *)
Definition ntp32_set_value (m : bytes) (b : nat) (t : Z) : bytes :=
  store host 4 m b (hton32u host (u32 (Z.shiftr t 16))).

(** * ReceptionReportBlock: [ssrc_] at 0, [losses_] at 4, [last_seq_] at 8, [jitter_]
    at 12, [last_sr_] at 16, [delay_last_sr_] at 20 *)

Definition rrb_reset (m : bytes) (b : nat) : bytes :=
  let m := store host 4 m b 0 in
  let m := store host 4 m (b + 4) 0 in
  let m := store host 4 m (b + 8) 0 in
  let m := store host 4 m (b + 12) 0 in
  let m := ntp32_set_value m (b + 16) 0 in
  ntp32_set_value m (b + 20) 0.

Definition rrb_ssrc (m : bytes) (b : nat) : Z := ntoh32u host (load host 4 m b).

Definition rrb_set_ssrc (m : bytes) (b : nat) (s : Z) : bytes :=
  store host 4 m b (hton32u host s).

(** A [float] is its rational value: multiplying a value of [0, 1] by 256 and dividing
    an 8-bit integer by 256 are exact in binary floating point.  NaN is excluded. *)
Definition rrb_fract_loss (m : bytes) (b : nat) : Q :=
  let losses := ntoh32u host (load host 4 m (b + 4)) in
  let fract_loss8 := get_bit_field losses 24 0xFF in
  Qmake fract_loss8 256.

Definition rrb_set_fract_loss (m : bytes) (b : nat) (fract_loss : Q) : bytes :=
  let fract_loss := if Qle_bool fract_loss 1 then fract_loss else 1%Q in
  let fract_loss := if Qle_bool 0 fract_loss then fract_loss else 0%Q in
  let fract_loss8 := Qnum fract_loss * 256 / Zpos (Qden fract_loss) in
  let fract_loss8 := if 0xFF <? fract_loss8 then 0xFF else fract_loss8 in
  let losses := ntoh32u host (load host 4 m (b + 4)) in
  let losses := set_bit_field 32 losses fract_loss8 24 0xFF in
  store host 4 m (b + 4) (hton32u host losses).

Definition rrb_cum_loss (m : bytes) (b : nat) : Z :=
  let losses := ntoh32u host (load host 4 m (b + 4)) in
  let cum_loss := get_bit_field losses 0 0xFFFFFF in
  let cum_loss :=
    if negb (Z.land cum_loss (Z.shiftl 1 23) =? 0)
    then Z.lor cum_loss (u32 (Z.lnot 0xFFFFFF)) else cum_loss in
  s32 cum_loss.

Definition rrb_set_cum_loss (m : bytes) (b : nat) (cum_loss : Z) : bytes :=
  let cum_loss :=
    if 0x7FFFFF <? cum_loss then 0x7FFFFF
    else if cum_loss <? - 0x7FFFFF - 1 then - 0x7FFFFF - 1
    else cum_loss in
  let losses := ntoh32u host (load host 4 m (b + 4)) in
  let losses := set_bit_field 32 losses (u32 cum_loss) 0 0xFFFFFF in
  store host 4 m (b + 4) (hton32u host losses).

Definition rrb_last_seqnum (m : bytes) (b : nat) : Z := ntoh32u host (load host 4 m (b + 8)).

Definition rrb_set_last_seqnum (m : bytes) (b : nat) (x : Z) : bytes :=
  store host 4 m (b + 8) (hton32u host x).

Definition rrb_jitter (m : bytes) (b : nat) : Z := ntoh32u host (load host 4 m (b + 12)).

Definition rrb_set_jitter (m : bytes) (b : nat) (x : Z) : bytes :=
  store host 4 m (b + 12) (hton32u host x).

Definition rrb_last_sr (m : bytes) (b : nat) : Z := ntp32_value m (b + 16).

Definition rrb_set_last_sr (m : bytes) (b : nat) (x : Z) : bytes := ntp32_set_value m (b + 16) x.

Definition rrb_delay_last_sr (m : bytes) (b : nat) : Z := ntp32_value m (b + 20).

Definition rrb_set_delay_last_sr (m : bytes) (b : nat) (x : Z) : bytes :=
  ntp32_set_value m (b + 20) (ntp_clamp_32 x MaxDelay).

(** * ReceiverReportPacket: the packet header, [ssrc_] at 4 *)

Definition rr_reset (m : bytes) (b : nat) : res bytes :=
  let* m := ph_reset m b RTCP_RR in
  Ok (store host 4 m (b + 4) 0).

Definition rr_ssrc (m : bytes) (b : nat) : Z := ntoh32u host (load host 4 m (b + 4)).

Definition rr_set_ssrc (m : bytes) (b : nat) (s : Z) : bytes :=
  store host 4 m (b + 4) (hton32u host s).

Definition rr_num_blocks (m : bytes) (b : nat) : nat := ph_counter m b.

Definition rr_get_block (m : bytes) (b i : nat) : res nat :=
  get_block_by_index sizeof_ReceptionReportBlock sizeof_ReceiverReportPacket b i
    (ph_counter m b).

(** * SenderReportPacket: the packet header, [ssrc_] at 4, [ntp_timestamp_] at 8,
    [rtp_timestamp_] at 16, [packet_cnt_] at 20, [bytes_cnt_] at 24 *)

Definition sr_reset (m : bytes) (b : nat) : res bytes :=
  let* m := ph_reset m b RTCP_SR in
  let m := store host 4 m (b + 4) 0 in
  let m := ntp64_set_value m (b + 8) 0 in
  let m := store host 4 m (b + 16) 0 in
  let m := store host 4 m (b + 20) 0 in
  Ok (store host 4 m (b + 24) 0).

Definition sr_ssrc (m : bytes) (b : nat) : Z := ntoh32u host (load host 4 m (b + 4)).

Definition sr_set_ssrc (m : bytes) (b : nat) (s : Z) : bytes :=
  store host 4 m (b + 4) (hton32u host s).

Definition sr_ntp_timestamp (m : bytes) (b : nat) : Z := ntp64_value m (b + 8).

Definition sr_set_ntp_timestamp (m : bytes) (b : nat) (t : Z) : bytes :=
  ntp64_set_value m (b + 8) t.

Definition sr_rtp_timestamp (m : bytes) (b : nat) : Z := ntoh32u host (load host 4 m (b + 16)).

Definition sr_set_rtp_timestamp (m : bytes) (b : nat) (t : Z) : bytes :=
  store host 4 m (b + 16) (hton32u host t).

Definition sr_packet_count (m : bytes) (b : nat) : Z := ntoh32u host (load host 4 m (b + 20)).

Definition sr_set_packet_count (m : bytes) (b : nat) (cnt : Z) : bytes :=
  store host 4 m (b + 20) (hton32u host cnt).

Definition sr_byte_count (m : bytes) (b : nat) : Z := ntoh32u host (load host 4 m (b + 24)).

Definition sr_set_byte_count (m : bytes) (b : nat) (cnt : Z) : bytes :=
  store host 4 m (b + 24) (hton32u host cnt).

Definition sr_num_blocks (m : bytes) (b : nat) : nat := ph_counter m b.

Definition sr_get_block (m : bytes) (b i : nat) : res nat :=
  get_block_by_index sizeof_ReceptionReportBlock sizeof_SenderReportPacket b i
    (ph_counter m b).

(** * SDES *)

(** SdesChunkHeader: [ssrc_] at 0 *)
Definition sdc_reset (m : bytes) (b : nat) : bytes := store host 4 m b 0.

Definition sdc_ssrc (m : bytes) (b : nat) : Z := ntoh32u host (load host 4 m b).

Definition sdc_set_ssrc (m : bytes) (b : nat) (s : Z) : bytes :=
  store host 4 m b (hton32u host s).

(** SdesItemHeader: [type_] at 0, [len_] at 1 *)
Definition sdi_reset (m : bytes) (b : nat) : bytes := overwrite (overwrite m (b + 1) [0]) b [0].

Definition sdi_type (m : bytes) (b : nat) : Z := m !!! b.

Definition sdi_set_type (m : bytes) (b : nat) (t : Z) : bytes := overwrite m b [u8 t].

Definition sdi_text_len (m : bytes) (b : nat) : nat := Z.to_nat (m !!! (b + 1)%nat).

Definition sdi_set_text_len (m : bytes) (b : nat) (len : nat) : res bytes :=
  panic_if (MaxTextLen <? len)%nat
    (Ok (overwrite m (b + 1) [u8 (Z.of_nat len)])).

Definition sdi_text (b : nat) : nat := (b + sizeof_SdesItemHeader)%nat.

Definition sdes_reset (m : bytes) (b : nat) : res bytes := ph_reset m b RTCP_SDES.

(** * BYE *)

(** ByeSourceHeader: [ssrc_] at 0 *)
Definition bys_reset (m : bytes) (b : nat) : bytes := store host 4 m b 0.

Definition bys_ssrc (m : bytes) (b : nat) : Z := ntoh32u host (load host 4 m b).

Definition bys_set_ssrc (m : bytes) (b : nat) (s : Z) : bytes :=
  store host 4 m b (hton32u host s).

(** ByeReasonHeader: [len_] at 0 *)
Definition byr_reset (m : bytes) (b : nat) : bytes := overwrite m b [0].

Definition byr_text_len (m : bytes) (b : nat) : nat := Z.to_nat (m !!! b).

Definition byr_set_text_len (m : bytes) (b : nat) (len : nat) : res bytes :=
  panic_if (MaxTextLen <? len)%nat
    (Ok (overwrite m b [u8 (Z.of_nat len)])).

Definition byr_text (b : nat) : nat := (b + sizeof_ByeReasonHeader)%nat.

Definition bye_reset (m : bytes) (b : nat) : res bytes := ph_reset m b RTCP_BYE.

(** * XR *)

(** XrPacket: the packet header, [ssrc_] at 4 *)
Definition xr_reset (m : bytes) (b : nat) : res bytes :=
  let* m := ph_reset m b RTCP_XR in
  Ok (store host 4 m (b + 4) 0).

Definition xr_ssrc (m : bytes) (b : nat) : Z := ntoh32u host (load host 4 m (b + 4)).

Definition xr_set_ssrc (m : bytes) (b : nat) (ssrc : Z) : bytes :=
  store host 4 m (b + 4) (hton32u host ssrc).

(** XrBlockHeader: [block_type_] at 0, [type_specific_] at 1, [length_] at 2 *)
Definition xb_block_type (m : bytes) (b : nat) : Z := m !!! b.

Definition xb_set_block_type (m : bytes) (b : nat) (bt : Z) : bytes := overwrite m b [u8 bt].

Definition xb_type_specific (m : bytes) (b : nat) : Z := m !!! (b + 1)%nat.

Definition xb_set_type_specific (m : bytes) (b : nat) (t : Z) : bytes := overwrite m (b + 1) [t].

Definition xb_reset (m : bytes) (b : nat) (bt : Z) : bytes :=
  let m := overwrite m (b + 1) [0] in
  let m := overwrite m b [0] in
  let m := store host 2 m (b + 2) 0 in
  xb_set_block_type m b bt.

Definition xb_len_words (m : bytes) (b : nat) : Z := ntoh16u host (load host 2 m (b + 2)).

Definition xb_set_len_words (m : bytes) (b : nat) (len : Z) : bytes :=
  store host 2 m (b + 2) (hton16u host len).

Definition xb_len_bytes (m : bytes) (b : nat) : nat := rtcp_length_2_size_t (xb_len_words m b).

Definition xb_set_len_bytes (m : bytes) (b : nat) (len : nat) : res bytes :=
  let* w := size_t_2_rtcp_length len in
  Ok (xb_set_len_words m b w).

(** XrRrtrBlock: the block header, [ntp_timestamp_] at 4 *)
Definition rrtr_reset (m : bytes) (b : nat) : bytes :=
  ntp64_set_value (xb_reset m b XR_RRTR) (b + 4) 0.

Definition rrtr_ntp_timestamp (m : bytes) (b : nat) : Z := ntp64_value m (b + 4).

Definition rrtr_set_ntp_timestamp (m : bytes) (b : nat) (t : Z) : bytes :=
  ntp64_set_value m (b + 4) t.

(** XrDlrrSubblock: [ssrc_] at 0, [last_rr_] at 4, [delay_last_rr_] at 8 *)
Definition dls_reset (m : bytes) (b : nat) : bytes :=
  let m := store host 4 m b 0 in
  let m := ntp32_set_value m (b + 4) 0 in
  ntp32_set_value m (b + 8) 0.

Definition dls_ssrc (m : bytes) (b : nat) : Z := ntoh32u host (load host 4 m b).

Definition dls_set_ssrc (m : bytes) (b : nat) (ssrc : Z) : bytes :=
  store host 4 m b (hton32u host ssrc).

Definition dls_last_rr (m : bytes) (b : nat) : Z := ntp32_value m (b + 4).

Definition dls_set_last_rr (m : bytes) (b : nat) (x : Z) : bytes := ntp32_set_value m (b + 4) x.

Definition dls_delay_last_rr (m : bytes) (b : nat) : Z := ntp32_value m (b + 8).

Definition dls_set_delay_last_rr (m : bytes) (b : nat) (x : Z) : bytes :=
  ntp32_set_value m (b + 8) (ntp_clamp_32 x MaxDelay).

(** XrDlrrBlock: the block header, then the sub-blocks *)
Definition dlrr_reset (m : bytes) (b : nat) : bytes := xb_reset m b XR_DLRR.

Definition dlrr_num_subblocks (m : bytes) (b : nat) : nat :=
  ((xb_len_bytes m b - sizeof_XrBlockHeader) / sizeof_XrDlrrSubblock)%nat.

Definition dlrr_get_subblock (m : bytes) (b i : nat) : res nat :=
  get_block_by_index sizeof_XrDlrrSubblock sizeof_XrDlrrBlock b i (dlrr_num_subblocks m b).

(** XrMeasurementInfoBlock: the block header, [ssrc_] at 4, [reserved_] at 8,
    [first_seq_] at 10, [interval_first_seq_] at 12, [interval_last_seq_] at 16,
    [interval_duration_] at 20, [cum_duration_] at 24 *)
Definition mi_reset (m : bytes) (b : nat) : bytes :=
  let m := xb_reset m b XR_MEASUREMENT_INFO in
  let m := store host 4 m (b + 4) 0 in
  let m := store host 2 m (b + 8) 0 in
  let m := store host 2 m (b + 10) 0 in
  let m := store host 4 m (b + 12) 0 in
  let m := store host 4 m (b + 16) 0 in
  let m := ntp32_set_value m (b + 20) 0 in
  ntp64_set_value m (b + 24) 0.

Definition mi_ssrc (m : bytes) (b : nat) : Z := ntoh32u host (load host 4 m (b + 4)).

Definition mi_set_ssrc (m : bytes) (b : nat) (ssrc : Z) : bytes :=
  store host 4 m (b + 4) (hton32u host ssrc).

Definition mi_first_seq (m : bytes) (b : nat) : Z := ntoh16u host (load host 2 m (b + 10)).

Definition mi_set_first_seq (m : bytes) (b : nat) (x : Z) : bytes :=
  store host 2 m (b + 10) (hton16u host x).

Definition mi_interval_first_seq (m : bytes) (b : nat) : Z :=
  ntoh32u host (load host 4 m (b + 12)).

Definition mi_set_interval_first_seq (m : bytes) (b : nat) (x : Z) : bytes :=
  store host 4 m (b + 12) (hton32u host x).

Definition mi_interval_last_seq (m : bytes) (b : nat) : Z :=
  ntoh32u host (load host 4 m (b + 16)).

Definition mi_set_interval_last_seq (m : bytes) (b : nat) (x : Z) : bytes :=
  store host 4 m (b + 16) (hton32u host x).

Definition mi_interval_duration (m : bytes) (b : nat) : Z := ntp32_value m (b + 20).

Definition mi_set_interval_duration (m : bytes) (b : nat) (x : Z) : bytes :=
  ntp32_set_value m (b + 20) (ntp_clamp_32 x MaxDelay).

Definition mi_cum_duration (m : bytes) (b : nat) : Z := ntp64_value m (b + 24).

Definition mi_set_cum_duration (m : bytes) (b : nat) (t : Z) : bytes :=
  ntp64_set_value m (b + 24) t.

(** XrDelayMetricsBlock: the block header, [ssrc_] at 4, [mean_rtt_] at 8, [min_rtt_]
    at 12, [max_rtt_] at 16, [e2e_latency_] at 20 *)
Definition dm_reset (m : bytes) (b : nat) : bytes :=
  let m := xb_reset m b XR_DELAY_METRICS in
  let m := store host 4 m (b + 4) 0 in
  let m := ntp32_set_value m (b + 8) MetricUnavail_32 in
  let m := ntp32_set_value m (b + 12) MetricUnavail_32 in
  let m := ntp32_set_value m (b + 16) MetricUnavail_32 in
  ntp64_set_value m (b + 20) MetricUnavail_64.

Definition dm_metric_flag (m : bytes) (b : nat) : Z :=
  get_bit_field (xb_type_specific m b) 6 0x03.

Definition dm_set_metric_flag (m : bytes) (b : nat) (f : Z) : bytes :=
  xb_set_type_specific m b (set_bit_field 8 (xb_type_specific m b) f 6 0x03).

Definition dm_ssrc (m : bytes) (b : nat) : Z := ntoh32u host (load host 4 m (b + 4)).

Definition dm_set_ssrc (m : bytes) (b : nat) (ssrc : Z) : bytes :=
  store host 4 m (b + 4) (hton32u host ssrc).

Definition dm_has_mean_rtt (m : bytes) (b : nat) : bool :=
  negb (ntp32_value m (b + 8) =? MetricUnavail_32).

Definition dm_mean_rtt (m : bytes) (b : nat) : Z := ntp32_value m (b + 8).

Definition dm_set_mean_rtt (m : bytes) (b : nat) (x : Z) : bytes :=
  ntp32_set_value m (b + 8) (ntp_clamp_32 x (MetricUnavail_32 - 1)).

Definition dm_has_min_rtt (m : bytes) (b : nat) : bool :=
  negb (ntp32_value m (b + 12) =? MetricUnavail_32).

Definition dm_min_rtt (m : bytes) (b : nat) : Z := ntp32_value m (b + 12).

Definition dm_set_min_rtt (m : bytes) (b : nat) (x : Z) : bytes :=
  ntp32_set_value m (b + 12) (ntp_clamp_32 x (MetricUnavail_32 - 1)).

Definition dm_has_max_rtt (m : bytes) (b : nat) : bool :=
  negb (ntp32_value m (b + 16) =? MetricUnavail_32).

Definition dm_max_rtt (m : bytes) (b : nat) : Z := ntp32_value m (b + 16).

Definition dm_set_max_rtt (m : bytes) (b : nat) (x : Z) : bytes :=
  ntp32_set_value m (b + 16) (ntp_clamp_32 x (MetricUnavail_32 - 1)).

Definition dm_has_e2e_latency (m : bytes) (b : nat) : bool :=
  negb (ntp64_value m (b + 20) =? MetricUnavail_64).

Definition dm_e2e_latency (m : bytes) (b : nat) : Z := ntp64_value m (b + 20).

Definition dm_set_e2e_latency (m : bytes) (b : nat) (t : Z) : bytes :=
  ntp64_set_value m (b + 20) (ntp_clamp_64 t (MetricUnavail_64 - 1)).

(** XrQueueMetricsBlock: the block header, [ssrc_] at 4, [niq_latency_] at 8,
    [niq_stalling_] at 12 *)
Definition qm_reset (m : bytes) (b : nat) : bytes :=
  let m := xb_reset m b XR_QUEUE_METRICS in
  let m := store host 4 m (b + 4) 0 in
  let m := ntp32_set_value m (b + 8) MetricUnavail_32 in
  ntp32_set_value m (b + 12) MetricUnavail_32.

Definition qm_metric_flag (m : bytes) (b : nat) : Z :=
  get_bit_field (xb_type_specific m b) 6 0x03.

Definition qm_set_metric_flag (m : bytes) (b : nat) (f : Z) : bytes :=
  xb_set_type_specific m b (set_bit_field 8 (xb_type_specific m b) f 6 0x03).

Definition qm_ssrc (m : bytes) (b : nat) : Z := ntoh32u host (load host 4 m (b + 4)).

Definition qm_set_ssrc (m : bytes) (b : nat) (ssrc : Z) : bytes :=
  store host 4 m (b + 4) (hton32u host ssrc).

Definition qm_has_niq_latency (m : bytes) (b : nat) : bool :=
  negb (ntp32_value m (b + 8) =? MetricUnavail_32).

Definition qm_niq_latency (m : bytes) (b : nat) : Z := ntp32_value m (b + 8).

Definition qm_set_niq_latency (m : bytes) (b : nat) (t : Z) : bytes :=
  ntp32_set_value m (b + 8) (ntp_clamp_32 t (MetricUnavail_32 - 1)).

Definition qm_has_niq_stalling (m : bytes) (b : nat) : bool :=
  negb (ntp32_value m (b + 12) =? MetricUnavail_32).

Definition qm_niq_stalling (m : bytes) (b : nat) : Z := ntp32_value m (b + 12).

Definition qm_set_niq_stalling (m : bytes) (b : nat) (t : Z) : bytes :=
  ntp32_set_value m (b + 12) (ntp_clamp_32 t (MetricUnavail_32 - 1)).

End Headers.
