(* ===== verification/RtcpTraverser.v ===== *)
(** RTCP traversers (src/internal_modules/roc_rtcp/traverser.cpp, xr_traverser.cpp,
    sdes_traverser.cpp, bye_traverser.cpp): iterators over a received compound packet
    and over the elements of its XR, SDES and BYE packets.

    The bytes come from the network: nothing is known of them.  The traversers only
    read, so the memory [m] of the buffer is a parameter.  Accesses through a pointer
    into a slice go through [deref], which fails when the object does not lie inside
    the slice: a run without [Panic] neither panics nor reads out of bounds. *)

From S2P Require Import Prelude Bytes Slice RtcpHeaders.

(** The difference of two [size_t]. *)
Definition size_sub (a b : nat) : Z := u64 (Z.of_nat a - Z.of_nat b).

(** [subslice] with a bound that may be the result of an underflow. *)
Definition subslice_to (s : Slice) (to : Z) : res Slice :=
  if Z.of_nat (sl_size s) <? to then Panic else slice_subslice s 0 (Z.to_nat to).

(** The object of [size] bytes at position [pos] of the slice, as an offset. *)
Definition deref (s : Slice) (pos size : nat) : res nat :=
  let* off := slice_index s pos in
  panic_if (sl_size s <? pos + size)%nat (Ok off).

(** The zero-terminated string in a [char] array. *)
Fixpoint c_str (text : bytes) : bytes :=
  match text with
  | [] => []
  | c :: text => if c =? 0 then [] else c :: c_str text
  end.

(** Copy of [text_len] bytes of text, limited by the end of the slice and by the size
    of the [char] array, followed by a zero. *)
Definition copy_text (m : bytes) (buf : Slice) (text text_len : nat) (array : bytes) : res bytes :=
  let* data_end := slice_data_end buf in
  let text_len := Nat.min text_len (Z.to_nat (size_sub data_end text)) in
  let text_len := Nat.min text_len (length array - 1) in
  Ok (overwrite array 0 (slice_of m text text_len ++ [0])).

Section Traversers.

Context (host : cpu_endian).
(** The content of the buffer that the slices refer to. *)
Context (m : bytes).

(** * XrTraverser *)

Inductive XrState : Type :=
| XR_BEGIN | RRTR_BLOCK | DLRR_BLOCK | MEASUREMENT_INFO_BLOCK | DELAY_METRICS_BLOCK
| QUEUE_METRICS_BLOCK | XR_END.

#[global] Instance XrState_eq_dec : EqDecision XrState.
Proof. solve_decision. Defined.

Record XrTraverser : Type := mkXrTraverser {
  xt_buf : Slice;
  xt_parsed : bool;
  xt_blocks_count : nat;
}.

Record XrIterator : Type := mkXrIterator {
  xi_state : XrState;
  xi_buf : Slice;
  xi_cur_pos : nat;
  (** [cur_blk_header_], as an offset *)
  xi_cur_blk_header : option nat;
  xi_cur_blk_len : nat;
  xi_error : bool;
}.

Definition xr_traverser (buf : Slice) : res XrTraverser :=
  panic_if (negb (slice_bool buf)) (Ok (mkXrTraverser buf false 0)).

Definition xr_iterator (t : XrTraverser) : XrIterator :=
  mkXrIterator XR_BEGIN (xt_buf t) 0 None 0 false.

Definition check_rrtr (len : nat) : bool := negb (len <? sizeof_XrRrtrBlock)%nat.

Definition check_dlrr (hdr len : nat) : bool :=
  negb (len <? sizeof_XrDlrrBlock
               + dlrr_num_subblocks host m hdr * sizeof_XrDlrrSubblock)%nat.

Definition check_measurement_info (len : nat) : bool :=
  negb (len <? sizeof_XrMeasurementInfoBlock)%nat.

Definition check_delay_metrics (len : nat) : bool :=
  negb (len <? sizeof_XrDelayMetricsBlock)%nat.

Definition check_queue_metrics (len : nat) : bool := (len =? sizeof_XrQueueMetricsBlock)%nat.

(** The [switch] on the block type: the state to return in, or [None] to skip the
    block, and whether it is invalid. *)
Definition xr_switch (hdr len : nat) : option XrState * bool :=
  let found (c : bool) (s : XrState) := if c then (Some s, false) else (None, true) in
  let t := xb_block_type m hdr in
  if t =? XR_RRTR then found (check_rrtr len) RRTR_BLOCK
  else if t =? XR_DLRR then found (check_dlrr hdr len) DLRR_BLOCK
  else if t =? XR_MEASUREMENT_INFO then
    found (check_measurement_info len) MEASUREMENT_INFO_BLOCK
  else if t =? XR_DELAY_METRICS then found (check_delay_metrics len) DELAY_METRICS_BLOCK
  else if t =? XR_QUEUE_METRICS then found (check_queue_metrics len) QUEUE_METRICS_BLOCK
  else (None, false).

Definition xi_fail (it : XrIterator) : XrIterator :=
  mkXrIterator XR_END (xi_buf it) (xi_cur_pos it) (xi_cur_blk_header it) (xi_cur_blk_len it) true.

Definition xi_stop (s : XrState) (it : XrIterator) : XrIterator :=
  mkXrIterator s (xi_buf it) (xi_cur_pos it) (xi_cur_blk_header it) (xi_cur_blk_len it)
    (xi_error it).

Definition xi_move (it : XrIterator) (n : nat) : XrIterator :=
  mkXrIterator (xi_state it) (xi_buf it) (xi_cur_pos it + n) (xi_cur_blk_header it)
    (xi_cur_blk_len it) (xi_error it).

(** The loop that skips blocks until a known type is found. *)
Fixpoint xr_block_loop (fuel : nat) (it : XrIterator) : run XrIterator :=
  match fuel with
  | O => Ok None
  | S fuel =>
      let size := sl_size (xi_buf it) in
      if (xi_cur_pos it =? size)%nat then ret (xi_stop XR_END it)
      else if (size <? xi_cur_pos it + sizeof_XrBlockHeader)%nat then ret (xi_fail it)
      else
        let! hdr := lift (deref (xi_buf it) (xi_cur_pos it) sizeof_XrBlockHeader) in
        let len := xb_len_bytes host m hdr in
        let it := mkXrIterator (xi_state it) (xi_buf it) (xi_cur_pos it) (Some hdr) len
                    (xi_error it) in
        if (size <? xi_cur_pos it + len)%nat then ret (xi_fail it)
        else
          match xr_switch hdr len with
          | (Some s, _) => ret (xi_stop s it)
          | (None, invalid) =>
              xr_block_loop fuel
                (mkXrIterator (xi_state it) (xi_buf it) (xi_cur_pos it + len) (Some hdr) len
                   (xi_error it || invalid))
          end
  end.

Definition xr_next (fuel : nat) (it : XrIterator) : run XrIterator :=
  match xi_state it with
  | XR_END => ret it
  | XR_BEGIN =>
      let it := xi_move it sizeof_XrPacket in
      if (sl_size (xi_buf it) <? xi_cur_pos it)%nat then ret (xi_fail it)
      else xr_block_loop fuel it
  | _ => xr_block_loop fuel (xi_move it (xi_cur_blk_len it))
  end.

(** [while (iter.next() != END) blocks_count_++] *)
Fixpoint xr_count (fuel : nat) (it : XrIterator) (n : nat) : run nat :=
  match fuel with
  | O => Ok None
  | S fuel' =>
      let! it := xr_next fuel it in
      match xi_state it with
      | XR_END => ret n
      | _ => xr_count fuel' it (n + 1)
      end
  end.

(** The removal of padding that the three element traversers share; [hdr_size] is the
    size of their packet header. *)
Definition remove_padding (buf : Slice) (packet_len hdr_size hdr : nat) : res (option Slice) :=
  if ph_has_padding m hdr then
    let* last := deref buf (packet_len - 1) 1 in
    let padding_len := m !!! last in
    if (padding_len <? 1) || (size_sub packet_len hdr_size <? padding_len) then Ok None
    else
      let* buf' := subslice_to buf (u64 (Z.of_nat packet_len - padding_len)) in
      Ok (Some buf')
  else Ok (Some buf).

(** [parse()]: the traverser and the result. *)
Definition xr_parse (fuel : nat) (t : XrTraverser) : run (XrTraverser * bool) :=
  if xt_parsed t then Panic
  else
    let buf := xt_buf t in
    if (sl_size buf <? sizeof_XrPacket)%nat then ret (t, false)
    else
      let! hdr := lift (deref buf 0 sizeof_XrPacket) in
      if negb (ph_type m hdr =? RTCP_XR) then ret (t, false)
      else
        let packet_len := ph_len_bytes host m hdr in
        if (sl_size buf <? packet_len)%nat then ret (t, false)
        else
          let! r := lift (remove_padding buf packet_len sizeof_XrPacket hdr) in
          match r with
          | None => ret (t, false)
          | Some buf =>
              let t := mkXrTraverser buf false (xt_blocks_count t) in
              let! n := xr_count fuel (xr_iterator t) 0 in
              ret (mkXrTraverser buf true (xt_blocks_count t + n), true)
          end.

Definition xr_iter (t : XrTraverser) : res XrIterator :=
  panic_if (negb (xt_parsed t)) (Ok (xr_iterator t)).

Definition xr_packet (t : XrTraverser) : res nat :=
  panic_if (negb (xt_parsed t)) (slice_data (xt_buf t)).

(** The getters of the iterator return a reference to the current block, as an offset. *)
Definition xi_get (want : XrState -> bool) (it : XrIterator) : res nat :=
  panic_if (negb (want (xi_state it)))
    (match xi_cur_blk_header it with Some hdr => Ok hdr | None => Panic end).

Definition get_rrtr := xi_get (fun s => match s with RRTR_BLOCK => true | _ => false end).

Definition get_dlrr := xi_get (fun s => match s with DLRR_BLOCK => true | _ => false end).

Definition get_measurement_info :=
  xi_get (fun s => match s with MEASUREMENT_INFO_BLOCK => true | _ => false end).

Definition get_delay_metrics :=
  xi_get (fun s => match s with DELAY_METRICS_BLOCK => true | _ => false end).

Definition get_queue_metrics :=
  xi_get (fun s => match s with QUEUE_METRICS_BLOCK => true | _ => false end).

(** * SdesTraverser *)

Inductive SdesState : Type := SDES_BEGIN | SDES_CHUNK | SDES_ITEM | SDES_END.

#[global] Instance SdesState_eq_dec : EqDecision SdesState.
Proof. solve_decision. Defined.

Record SdesTraverser : Type := mkSdesTraverser {
  st_buf : Slice;
  st_parsed : bool;
  st_chunks_count : nat;
}.

Record SdesIterator : Type := mkSdesIterator {
  si_traverser : SdesTraverser;
  si_state : SdesState;
  si_buf : Slice;
  si_cur_pos : nat;
  si_cur_chunk : nat;
  si_cur_item_len : nat;
  si_error : bool;
  si_parsed_ssrc : Z;
  si_parsed_item_type : Z;
  (** [parsed_item_text_]; only its first byte is initialized by the constructor *)
  si_parsed_item_text : bytes;
}.

Definition sdes_traverser (buf : Slice) : res SdesTraverser :=
  panic_if (negb (slice_bool buf)) (Ok (mkSdesTraverser buf false 0)).

Definition sdes_parse (t : SdesTraverser) : res (SdesTraverser * bool) :=
  panic_if (st_parsed t)
    (let buf := st_buf t in
     if (sl_size buf <? sizeof_SdesPacket)%nat then Ok (t, false)
     else
       let* hdr := deref buf 0 sizeof_SdesPacket in
       if negb (ph_type m hdr =? RTCP_SDES) then Ok (t, false)
       else
         let packet_len := ph_len_bytes host m hdr in
         if (sl_size buf <? packet_len)%nat then Ok (t, false)
         else
           let chunks_count := ph_counter m hdr in
           let t := mkSdesTraverser buf false chunks_count in
           if MaxPacketBlocks <? Z.of_nat chunks_count then Ok (t, false)
           else
             let* r := remove_padding buf packet_len sizeof_SdesPacket hdr in
             match r with
             | None => Ok (t, false)
             | Some buf => Ok (mkSdesTraverser buf true chunks_count, true)
             end).

Definition sdes_iter (t : SdesTraverser) : res SdesIterator :=
  panic_if (negb (st_parsed t))
    (Ok (mkSdesIterator t SDES_BEGIN (st_buf t) 0 0 0 false 0 0 (replicate (MaxTextLen + 1) 0))).

Definition si_fail (it : SdesIterator) : SdesIterator :=
  mkSdesIterator (si_traverser it) SDES_END (si_buf it) (si_cur_pos it) (si_cur_chunk it)
    (si_cur_item_len it) true (si_parsed_ssrc it) (si_parsed_item_type it)
    (si_parsed_item_text it).

(** State, position and chunk index of an iterator updated. *)
Definition si_at (it : SdesIterator) (s : SdesState) (pos chunk : nat) : SdesIterator :=
  mkSdesIterator (si_traverser it) s (si_buf it) pos chunk
    (si_cur_item_len it) (si_error it) (si_parsed_ssrc it) (si_parsed_item_type it)
    (si_parsed_item_text it).

Definition parse_chunk (it : SdesIterator) : res SdesIterator :=
  let* hdr := deref (si_buf it) (si_cur_pos it) sizeof_SdesChunkHeader in
  Ok (mkSdesIterator (si_traverser it) (si_state it) (si_buf it) (si_cur_pos it)
        (si_cur_chunk it) (si_cur_item_len it) (si_error it)
        (sdc_ssrc host m hdr) (si_parsed_item_type it) (si_parsed_item_text it)).

Definition parse_item (it : SdesIterator) : res SdesIterator :=
  let* hdr := deref (si_buf it) (si_cur_pos it) sizeof_SdesItemHeader in
  let* text := copy_text m (si_buf it) (sdi_text hdr) (sdi_text_len m hdr)
                 (si_parsed_item_text it) in
  Ok (mkSdesIterator (si_traverser it) (si_state it) (si_buf it) (si_cur_pos it)
        (si_cur_chunk it) (si_cur_item_len it) (si_error it)
        (si_parsed_ssrc it) (sdi_type m hdr) text).

(** [do { cur_pos_++; } while (cur_pos_ < buf_.size() && (cur_pos_ & 0x03))]: at most
    four rounds. *)
Fixpoint skip_chunk_padding (fuel size pos : nat) : nat :=
  match fuel with
  | O => pos
  | S fuel =>
      let pos := (pos + 1)%nat in
      if (pos <? size)%nat && negb (Z.land (Z.of_nat pos) 0x03 =? 0)
      then skip_chunk_padding fuel size pos else pos
  end.

(** The part of [next_element_] for the [BEGIN] and [CHUNK] states. *)
Definition sdes_next_chunk (it : SdesIterator) : res SdesIterator :=
  if (si_cur_chunk it =? st_chunks_count (si_traverser it))%nat then
    Ok (si_at it SDES_END (si_cur_pos it) (si_cur_chunk it))
  else if (sl_size (si_buf it) <? si_cur_pos it + sizeof_SdesChunkHeader)%nat then Ok (si_fail it)
  else parse_chunk (si_at it SDES_CHUNK (si_cur_pos it) (si_cur_chunk it)).

(** The part of [next_element_] for the [ITEM] state. *)
Definition sdes_next_item (it : SdesIterator) : res SdesIterator :=
  let size := sl_size (si_buf it) in
  let pos := si_cur_pos it in
  if (pos =? size)%nat then sdes_next_chunk (si_at it SDES_CHUNK pos (si_cur_chunk it + 1))
  else
    let* item := deref (si_buf it) pos 1 in
    if m !!! item =? 0 then
      sdes_next_chunk
        (si_at it SDES_CHUNK (skip_chunk_padding 4 size pos) (si_cur_chunk it + 1))
    else if (size <? pos + sizeof_SdesItemHeader)%nat then Ok (si_fail it)
    else
      let* hdr := deref (si_buf it) pos sizeof_SdesItemHeader in
      let len := (sizeof_SdesItemHeader + sdi_text_len m hdr)%nat in
      let it := mkSdesIterator (si_traverser it) (si_state it) (si_buf it) pos
                  (si_cur_chunk it) len (si_error it) (si_parsed_ssrc it)
                  (si_parsed_item_type it) (si_parsed_item_text it) in
      if (size <? pos + len)%nat then Ok (si_fail it)
      else parse_item it.

Definition sdes_next (it : SdesIterator) : res SdesIterator :=
  match si_state it with
  | SDES_END => Ok it
  | SDES_BEGIN =>
      let it := si_at it SDES_BEGIN (si_cur_pos it + sizeof_PacketHeader) (si_cur_chunk it) in
      if (sl_size (si_buf it) <? si_cur_pos it)%nat then Ok (si_fail it)
      else sdes_next_chunk it
  | SDES_CHUNK =>
      sdes_next_item
        (si_at it SDES_ITEM (si_cur_pos it + sizeof_SdesChunkHeader) (si_cur_chunk it))
  | SDES_ITEM =>
      sdes_next_item
        (si_at it SDES_ITEM (si_cur_pos it + si_cur_item_len it) (si_cur_chunk it))
  end.

Definition sdes_get_chunk (it : SdesIterator) : res Z :=
  match si_state it with SDES_CHUNK => Ok (si_parsed_ssrc it) | _ => Panic end.

(** Type and text of the item. *)
Definition sdes_get_item (it : SdesIterator) : res (Z * bytes) :=
  match si_state it with
  | SDES_ITEM => Ok (si_parsed_item_type it, c_str (si_parsed_item_text it))
  | _ => Panic
  end.

(** * ByeTraverser *)

Inductive ByeState : Type := BYE_BEGIN | BYE_SSRC | BYE_REASON | BYE_END.

#[global] Instance ByeState_eq_dec : EqDecision ByeState.
Proof. solve_decision. Defined.

Record ByeTraverser : Type := mkByeTraverser {
  bt_buf : Slice;
  bt_parsed : bool;
  bt_ssrc_count : nat;
}.

Record ByeIterator : Type := mkByeIterator {
  bi_traverser : ByeTraverser;
  bi_state : ByeState;
  bi_buf : Slice;
  bi_cur_pos : nat;
  bi_cur_ssrc : nat;
  bi_error : bool;
  bi_parsed_ssrc : Z;
  (** [parsed_reason_]; only its first byte is initialized by the constructor *)
  bi_parsed_reason : bytes;
}.

Definition bye_traverser (buf : Slice) : res ByeTraverser :=
  panic_if (negb (slice_bool buf)) (Ok (mkByeTraverser buf false 0)).

Definition bye_parse (t : ByeTraverser) : res (ByeTraverser * bool) :=
  panic_if (bt_parsed t)
    (let buf := bt_buf t in
     if (sl_size buf <? sizeof_ByePacket)%nat then Ok (t, false)
     else
       let* hdr := deref buf 0 sizeof_ByePacket in
       if negb (ph_type m hdr =? RTCP_BYE) then Ok (t, false)
       else
         let packet_len := ph_len_bytes host m hdr in
         if (sl_size buf <? packet_len)%nat then Ok (t, false)
         else
           let ssrc_count := ph_counter m hdr in
           let t := mkByeTraverser buf false ssrc_count in
           if MaxPacketBlocks <? Z.of_nat ssrc_count then Ok (t, false)
           else
             let* r := remove_padding buf packet_len sizeof_ByePacket hdr in
             match r with
             | None => Ok (t, false)
             | Some buf => Ok (mkByeTraverser buf true ssrc_count, true)
             end).

Definition bye_iter (t : ByeTraverser) : res ByeIterator :=
  panic_if (negb (bt_parsed t))
    (Ok (mkByeIterator t BYE_BEGIN (bt_buf t) 0 0 false 0 (replicate (MaxTextLen + 1) 0))).

Definition bi_at (it : ByeIterator) (s : ByeState) (pos ssrc : nat) : ByeIterator :=
  mkByeIterator (bi_traverser it) s (bi_buf it) pos ssrc (bi_error it) (bi_parsed_ssrc it)
    (bi_parsed_reason it).

Definition bi_fail (it : ByeIterator) : ByeIterator :=
  mkByeIterator (bi_traverser it) BYE_END (bi_buf it) (bi_cur_pos it) (bi_cur_ssrc it) true
    (bi_parsed_ssrc it) (bi_parsed_reason it).

Definition parse_ssrc (it : ByeIterator) : res ByeIterator :=
  let* hdr := deref (bi_buf it) (bi_cur_pos it) sizeof_ByeSourceHeader in
  Ok (mkByeIterator (bi_traverser it) (bi_state it) (bi_buf it) (bi_cur_pos it)
        (bi_cur_ssrc it) (bi_error it) (bys_ssrc host m hdr) (bi_parsed_reason it)).

Definition parse_reason (it : ByeIterator) : res ByeIterator :=
  let* hdr := deref (bi_buf it) (bi_cur_pos it) sizeof_ByeReasonHeader in
  let* text := copy_text m (bi_buf it) (byr_text hdr) (byr_text_len m hdr)
                 (bi_parsed_reason it) in
  Ok (mkByeIterator (bi_traverser it) (bi_state it) (bi_buf it) (bi_cur_pos it)
        (bi_cur_ssrc it) (bi_error it) (bi_parsed_ssrc it) text).

(** The part of [next_element_] for the [BEGIN] and [SSRC] states. *)
Definition bye_next_ssrc (it : ByeIterator) : res ByeIterator :=
  let size := sl_size (bi_buf it) in
  let pos := bi_cur_pos it in
  if (bi_cur_ssrc it =? bt_ssrc_count (bi_traverser it))%nat then
    if (pos <? size)%nat then
      if (size <? pos + sizeof_ByeReasonHeader)%nat then Ok (bi_fail it)
      else
        let* reason := deref (bi_buf it) pos sizeof_ByeReasonHeader in
        if (size <? pos + sizeof_ByeReasonHeader + byr_text_len m reason)%nat
        then Ok (bi_fail it)
        else parse_reason (bi_at it BYE_REASON pos (bi_cur_ssrc it))
    else Ok (bi_at it BYE_END pos (bi_cur_ssrc it))
  else if (size <? pos + sizeof_ByeSourceHeader)%nat then Ok (bi_fail it)
  else parse_ssrc (bi_at it BYE_SSRC pos (bi_cur_ssrc it)).

Definition bye_next (it : ByeIterator) : res ByeIterator :=
  match bi_state it with
  | BYE_END => Ok it
  | BYE_BEGIN =>
      let it := bi_at it BYE_BEGIN (bi_cur_pos it + sizeof_ByePacket) (bi_cur_ssrc it) in
      if (sl_size (bi_buf it) <? bi_cur_pos it)%nat then Ok (bi_fail it)
      else bye_next_ssrc it
  | BYE_SSRC =>
      bye_next_ssrc
        (bi_at it BYE_SSRC (bi_cur_pos it + sizeof_ByeSourceHeader) (bi_cur_ssrc it + 1))
  | BYE_REASON => Ok (bi_at it BYE_END (bi_cur_pos it) (bi_cur_ssrc it))
  end.

Definition bye_get_ssrc (it : ByeIterator) : res Z :=
  match bi_state it with BYE_SSRC => Ok (bi_parsed_ssrc it) | _ => Panic end.

Definition bye_get_reason (it : ByeIterator) : res bytes :=
  match bi_state it with BYE_REASON => Ok (c_str (bi_parsed_reason it)) | _ => Panic end.

(** * Traverser *)

Inductive TrState : Type := TR_BEGIN | TR_SR | TR_RR | TR_XR | TR_SDES | TR_BYE | TR_END.

#[global] Instance TrState_eq_dec : EqDecision TrState.
Proof. solve_decision. Defined.

Record Traverser : Type := mkTraverser {
  tr_buf : Slice;
  tr_parsed : bool;
}.

Record TrIterator : Type := mkTrIterator {
  ti_state : TrState;
  ti_buf : Slice;
  ti_cur_pos : nat;
  ti_cur_pkt_len : nat;
  ti_cur_pkt_slice : Slice;
  ti_error : bool;
}.

Definition traverser (buf : Slice) : res Traverser :=
  panic_if (negb (slice_bool buf)) (Ok (mkTraverser buf false)).

Definition tr_parse (t : Traverser) : res (Traverser * bool) :=
  panic_if (tr_parsed t)
    (if (sl_size (tr_buf t) <? sizeof_PacketHeader)%nat then Ok (t, false)
     else Ok (mkTraverser (tr_buf t) true, true)).

Definition tr_iter (t : Traverser) : res TrIterator :=
  panic_if (negb (tr_parsed t)) (Ok (mkTrIterator TR_BEGIN (tr_buf t) 0 0 slice_empty false)).

(** [remove_padding_()]: the new [cur_pkt_slice_], or [None] for [false]. *)
Definition tr_remove_padding (buf cur_pkt_slice : Slice) (hdr len : nat) : res (option Slice) :=
  if ph_has_padding m hdr then
    let* last := deref cur_pkt_slice (len - 1) 1 in
    let padding_len := m !!! last in
    if (padding_len <? 1) || (size_sub len sizeof_PacketHeader <? padding_len) then Ok None
    else
      let* s := subslice_to buf (u64 (Z.of_nat len - padding_len)) in
      Ok (Some s)
  else Ok (Some cur_pkt_slice).

Definition check_sr (cur_pkt_slice : Slice) : res bool :=
  let* sr := deref cur_pkt_slice 0 sizeof_PacketHeader in
  Ok (negb (sl_size cur_pkt_slice
            <? sizeof_SenderReportPacket
               + sr_num_blocks m sr * sizeof_ReceptionReportBlock)%nat).

Definition check_rr (cur_pkt_slice : Slice) : res bool :=
  let* rr := deref cur_pkt_slice 0 sizeof_PacketHeader in
  Ok (negb (sl_size cur_pkt_slice
            <? sizeof_ReceiverReportPacket
               + rr_num_blocks m rr * sizeof_ReceptionReportBlock)%nat).

(** [!remove_padding_() || !check()]: the slice left in [cur_pkt_slice_] and whether
    the packet is valid. *)
Definition tr_check_report (check : Slice -> res bool) (buf s : Slice) (hdr len : nat)
  : res (Slice * bool) :=
  let* r := tr_remove_padding buf s hdr len in
  match r with
  | None => Ok (s, false)
  | Some s' => let* ok := check s' in Ok (s', ok)
  end.

(** The [switch] on the packet type: the state to return in, or [None] to skip the
    packet; [cur_pkt_slice_]; whether the packet is invalid. *)
Definition tr_switch (buf s : Slice) (hdr len : nat) : res (option TrState * Slice * bool) :=
  let t := ph_type m hdr in
  if t =? RTCP_SR then
    let* '(s, ok) := tr_check_report check_sr buf s hdr len in
    Ok (if ok then (Some TR_SR, s, false) else (None, s, true))
  else if t =? RTCP_RR then
    let* '(s, ok) := tr_check_report check_rr buf s hdr len in
    Ok (if ok then (Some TR_RR, s, false) else (None, s, true))
  else if t =? RTCP_SDES then Ok (Some TR_SDES, s, false)
  else if t =? RTCP_BYE then Ok (Some TR_BYE, s, false)
  else if t =? RTCP_XR then Ok (Some TR_XR, s, false)
  else Ok (None, s, false).

Definition ti_fail (it : TrIterator) (len : nat) : TrIterator :=
  mkTrIterator TR_END (ti_buf it) (ti_cur_pos it) len (ti_cur_pkt_slice it) true.

(** The loop that skips packets until a known type is found. *)
Fixpoint tr_packet_loop (fuel : nat) (it : TrIterator) : run TrIterator :=
  match fuel with
  | O => Ok None
  | S fuel =>
      let size := sl_size (ti_buf it) in
      let pos := ti_cur_pos it in
      if (pos =? size)%nat then
        ret (mkTrIterator TR_END (ti_buf it) pos (ti_cur_pkt_len it) (ti_cur_pkt_slice it)
               (ti_error it))
      else if (size <? pos + sizeof_PacketHeader)%nat then ret (ti_fail it (ti_cur_pkt_len it))
      else
        let! hdr := lift (deref (ti_buf it) pos sizeof_PacketHeader) in
        let len := ph_len_bytes host m hdr in
        if negb (ph_version m hdr =? RTCP_V2) then ret (ti_fail it len)
        else if (size <? pos + len)%nat then ret (ti_fail it len)
        else
          let! s := lift (slice_subslice (ti_buf it) pos (pos + len)) in
          let! r := lift (tr_switch (ti_buf it) s hdr len) in
          match r with
          | (Some st, s, _) => ret (mkTrIterator st (ti_buf it) pos len s (ti_error it))
          | (None, s, invalid) =>
              tr_packet_loop fuel
                (mkTrIterator (ti_state it) (ti_buf it) (pos + len) len s
                   (ti_error it || invalid))
          end
  end.

Definition tr_next (fuel : nat) (it : TrIterator) : run TrIterator :=
  match ti_state it with
  | TR_END => ret it
  | TR_BEGIN => tr_packet_loop fuel it
  | _ =>
      tr_packet_loop fuel
        (mkTrIterator (ti_state it) (ti_buf it) (ti_cur_pos it + ti_cur_pkt_len it)
           (ti_cur_pkt_len it) (ti_cur_pkt_slice it) (ti_error it))
  end.

(** The getters of the iterator. *)
Definition get_sr (it : TrIterator) : res nat :=
  match ti_state it with TR_SR => slice_data (ti_cur_pkt_slice it) | _ => Panic end.

Definition get_rr (it : TrIterator) : res nat :=
  match ti_state it with TR_RR => slice_data (ti_cur_pkt_slice it) | _ => Panic end.

Definition get_xr (it : TrIterator) : res XrTraverser :=
  match ti_state it with TR_XR => xr_traverser (ti_cur_pkt_slice it) | _ => Panic end.

Definition get_sdes (it : TrIterator) : res SdesTraverser :=
  match ti_state it with TR_SDES => sdes_traverser (ti_cur_pkt_slice it) | _ => Panic end.

Definition get_bye (it : TrIterator) : res ByeTraverser :=
  match ti_state it with TR_BYE => bye_traverser (ti_cur_pkt_slice it) | _ => Panic end.

End Traversers.
