(* ===== verification/RtcpTraverserSafe.v ===== *)
(** Safety and termination of the RTCP traversers on arbitrary bytes: the invariants
    of the four iterators, and one lemma per iterator saying that advancing it neither
    panics nor reads outside the packet, keeps the invariant, and makes progress. *)

From S2P Require Import Prelude Bytes Slice RtcpHeaders RtcpTraverser.

(** A slice of the memory [m] that is not null. *)
Definition slice_in (m : bytes) (s : Slice) : Prop :=
  slice_wf s /\ slice_bool s = true /\ sl_buf_size s = length m.

(** Offset of the first byte. *)
Definition sl_off (s : Slice) : nat := default O (sl_data s).

#[global] Instance slice_in_dec m s : Decision (slice_in m s).
Proof. unfold slice_in. apply _. Defined.

Lemma slice_in_fits m s : slice_in m s -> (sl_off s + sl_size s <= length m)%nat.
Proof.
  destruct s as [[d|] n k]; intros (W & B & <-); [exact W|discriminate B].
Qed.

Lemma slice_in_data m s : slice_in m s -> sl_data s = Some (sl_off s).
Proof. destruct s as [[d|] n k]; intros (_ & B & _); [done|discriminate B]. Qed.

Lemma slice_index_ok m s pos :
  slice_in m s -> (pos <= sl_size s)%nat -> slice_index s pos = Ok (sl_off s + pos)%nat.
Proof.
  intros Hs H. unfold slice_index. rewrite (slice_in_data m s Hs). unfold panic_if.
  by rewrite (proj2 (Nat.ltb_ge _ _)).
Qed.

Lemma deref_ok m s pos size :
  slice_in m s -> (pos + size <= sl_size s)%nat -> deref s pos size = Ok (sl_off s + pos)%nat.
Proof.
  intros Hs H. unfold deref. rewrite (slice_index_ok m) by (done || lia). simpl.
  unfold panic_if. by rewrite (proj2 (Nat.ltb_ge _ _)).
Qed.

Lemma subslice_in m s from to :
  slice_in m s -> (from <= to)%nat -> (to <= sl_size s)%nat ->
  exists s', slice_subslice s from to = Ok s' /\ slice_in m s'
    /\ sl_off s' = (sl_off s + from)%nat /\ sl_size s' = (to - from)%nat.
Proof.
  destruct s as [[d|] n k]; intros (W & B & E) H1 H2; [|discriminate B].
  eexists. rewrite slice_subslice_ok by done. split; [done|].
  unfold slice_in, slice_wf, slice_bool, sl_off in *. simpl in *. split_and!; done || lia.
Qed.

Lemma subslice_to_in m s (to : Z) :
  slice_in m s -> 0 <= to <= Z.of_nat (sl_size s) ->
  exists s', subslice_to s to = Ok s' /\ slice_in m s'
    /\ sl_off s' = sl_off s /\ sl_size s' = Z.to_nat to.
Proof.
  intros Hs H. unfold subslice_to. rewrite (proj2 (Z.ltb_ge _ _)) by lia.
  destruct (subslice_in m s 0 (Z.to_nat to)) as (s' & E & Hs' & Ho & Hn); [done|lia|lia|].
  exists s'. split_and!; try done; lia.
Qed.

Lemma size_sub_small a b : (b <= a)%nat -> Z.of_nat a < 2 ^ 64 -> size_sub a b = Z.of_nat a - Z.of_nat b.
Proof. intros. apply wrap_u_small. unfold is_u. lia. Qed.

Section Safe.

Context (host : cpu_endian) (m : bytes).
Hypothesis Hbytes : Forall is_byte m.

Lemma lookup_total_byte i : is_byte (m !!! i).
Proof using Hbytes.
  rewrite list_lookup_total_alt. destruct (m !! i) eqn:E; simpl.
  - eapply Forall_lookup_1 in Hbytes; eauto.
  - unfold is_byte, is_u. vm_compute. split; congruence.
Qed.

Lemma len_bytes_range (b : nat) :
  (b + 4 <= length m)%nat ->
  (4 <= ph_len_bytes host m b)%nat /\ Z.of_nat (ph_len_bytes host m b) <= 2 ^ 18.
Proof using Hbytes.
  intros Hb. unfold ph_len_bytes, ph_len_words, rtcp_length_2_size_t, ntoh16u.
  rewrite load16_net by (done || lia).
  pose proof (be_value_range (slice_of m (b + 2) 2) (slice_of_Forall _ _ _ _ Hbytes)) as R.
  rewrite length_slice_of in R by lia. unfold is_u in R. simpl in R. lia.
Qed.

Lemma ph_counter_le b : (ph_counter m b <= 31)%nat.
Proof using.
  unfold ph_counter, get_bit_field. change 0x1F with (Z.ones 5). rewrite Z.land_ones by lia.
  zlia.
Qed.

Lemma copy_text_ok buf text len array :
  slice_in m buf -> (0 < length array)%nat ->
  exists array', copy_text m buf text len array = Ok array' /\ length array' = length array.
Proof using.
  intros Hs Ha. unfold copy_text, slice_data_end. rewrite (slice_in_data m buf Hs).
  eexists. split; [done|]. apply length_overwrite. rewrite length_app. simpl.
  unfold slice_of. rewrite length_take. lia.
Qed.

Lemma copy_text_terminated buf text len array array' :
  copy_text m buf text len array = Ok array' -> 0 ∈ array'.
Proof using.
  unfold copy_text. destruct (slice_data_end buf); simpl; [|done]. intros [= <-].
  unfold overwrite. rewrite !elem_of_app, list_elem_of_singleton. tauto.
Qed.

(** The array of a text holds a string. *)
Definition text_ok (array : bytes) : Prop := length array = (MaxTextLen + 1)%nat /\ 0 ∈ array.

Lemma length_c_str array : 0 ∈ array -> (length (c_str array) < length array)%nat.
Proof using.
  induction array as [|c array IH]; intros Hin; [by apply not_elem_of_nil in Hin|].
  simpl. case_if; simpl; [lia|]. apply elem_of_cons in Hin as [?|Hin]; [lia|].
  specialize (IH Hin). lia.
Qed.

Lemma text_ok_length array : text_ok array -> (length (c_str array) <= MaxTextLen)%nat.
Proof using. intros [Hl Hz]. pose proof (length_c_str array Hz). lia. Qed.

(** * Padding *)

(** The result of removing the padding: the buffer or a shorter one with the same
    start that still holds the header. *)
Lemma remove_padding_ok buf packet_len hdr_size hdr :
  slice_in m buf -> (1 <= hdr_size <= packet_len)%nat -> (packet_len <= sl_size buf)%nat ->
  Z.of_nat packet_len <= 2 ^ 18 ->
  exists r, remove_padding m buf packet_len hdr_size hdr = Ok r /\
    match r with
    | None => True
    | Some buf' =>
        slice_in m buf' /\ sl_off buf' = sl_off buf
        /\ (hdr_size <= sl_size buf' <= sl_size buf)%nat
    end.
Proof using Hbytes.
  intros Hs Hh Hl Hz. unfold remove_padding. destruct (ph_has_padding m hdr).
  - rewrite (deref_ok m) by (done || lia). cbn [res_bind].
    pose proof (lookup_total_byte (sl_off buf + (packet_len - 1))) as HB.
    unfold is_byte, is_u in HB. set (p := m !!! _) in *.
    rewrite size_sub_small by lia. case_if; [by exists None|].
    match goal with H : _ || _ = false |- _ => apply orb_false_iff in H; destruct H | _ => idtac end.
    reflect_bools. rewrite wrap_u_small by (unfold is_u; lia).
    destruct (subslice_to_in m buf (Z.of_nat packet_len - p)) as (s' & -> & Hs' & Ho & Hn);
      [done|lia|].
    exists (Some s'). split; [done|]. split_and!; done || lia.
  - exists (Some buf). split_and!; done || lia.
Qed.

(** * XR *)

Definition xr_block_fits (s : XrState) (hdr len : nat) : Prop :=
  match s with
  | RRTR_BLOCK => (sizeof_XrRrtrBlock <= len)%nat
  | DLRR_BLOCK =>
      (sizeof_XrDlrrBlock + dlrr_num_subblocks host m hdr * sizeof_XrDlrrSubblock <= len)%nat
  | MEASUREMENT_INFO_BLOCK => (sizeof_XrMeasurementInfoBlock <= len)%nat
  | DELAY_METRICS_BLOCK => (sizeof_XrDelayMetricsBlock <= len)%nat
  | QUEUE_METRICS_BLOCK => (sizeof_XrQueueMetricsBlock <= len)%nat
  | _ => True
  end.

(** The current block of an iterator that is on a block. *)
Definition xi_on_block (it : XrIterator) : Prop :=
  let hdr := (sl_off (xi_buf it) + xi_cur_pos it)%nat in
  xi_cur_blk_header it = Some hdr
  /\ (4 <= xi_cur_blk_len it)%nat
  /\ (sizeof_XrPacket <= xi_cur_pos it)%nat
  /\ (xi_cur_pos it + xi_cur_blk_len it <= sl_size (xi_buf it))%nat
  /\ xr_block_fits (xi_state it) hdr (xi_cur_blk_len it).

Definition xi_ok (it : XrIterator) : Prop :=
  slice_in m (xi_buf it) /\
  match xi_state it with
  | XR_BEGIN => xi_cur_pos it = O
  | XR_END => True
  | _ => xi_on_block it
  end.

(** Bytes left: decreases with every element. *)
Definition xi_rank (it : XrIterator) : nat :=
  match xi_state it with
  | XR_END => O
  | _ => S (sl_size (xi_buf it) - xi_cur_pos it)
  end.

Lemma xr_switch_fits hdr len s e : xr_switch host m hdr len = (Some s, e) ->
  xr_block_fits s hdr len /\ s <> XR_BEGIN /\ s <> XR_END.
Proof using.
  unfold xr_switch, check_rrtr, check_dlrr, check_measurement_info, check_delay_metrics,
    check_queue_metrics. intros H.
  repeat (case_if_in H; simplify_eq); nat_bools; simpl; split_and!; done || lia.
Qed.

Lemma xb_len_bytes_range (b : nat) :
  (b + 4 <= length m)%nat -> (4 <= xb_len_bytes host m b)%nat.
Proof using Hbytes. apply len_bytes_range. Qed.

Lemma xr_block_loop_ok fuel it :
  slice_in m (xi_buf it) -> (sizeof_XrPacket <= xi_cur_pos it)%nat ->
  (xi_cur_pos it <= sl_size (xi_buf it))%nat ->
  (sl_size (xi_buf it) - xi_cur_pos it < fuel)%nat ->
  exists it', xr_block_loop host m fuel it = ret it' /\ xi_buf it' = xi_buf it /\ xi_ok it'
    /\ xi_state it' <> XR_BEGIN
    /\ (xi_state it' <> XR_END -> (xi_cur_pos it <= xi_cur_pos it')%nat).
Proof using Hbytes.
  revert it. induction fuel as [|fuel IH]; intros it Hs H8 Hp Hf; [lia|].
  simpl xr_block_loop. case_if; nat_bools.
  { eexists. split_and!; try done. }
  case_if; nat_bools.
  { eexists. split_and!; try done. }
  rewrite (deref_ok m) by (done || unfold sizeof_XrBlockHeader in *; lia). simpl.
  set (hdr := (sl_off (xi_buf it) + xi_cur_pos it)%nat) in *.
  pose proof (slice_in_fits _ _ Hs). unfold sizeof_XrBlockHeader in *.
  pose proof (xb_len_bytes_range hdr ltac:(lia)).
  case_if; nat_bools.
  { eexists. split_and!; try done. }
  destruct (xr_switch host m hdr (xb_len_bytes host m hdr)) as [[s|] e] eqn:Esw.
  - apply xr_switch_fits in Esw as (Hfit & Hb & He).
    eexists. split; [done|]. split; [done|]. split; [|split; [done|simpl; lia]].
    split; [done|]. simpl. destruct s; try done; repeat split; simpl; done || lia.
  - destruct (IH (mkXrIterator (xi_state it) (xi_buf it) (xi_cur_pos it + xb_len_bytes host m hdr)
       (Some hdr) (xb_len_bytes host m hdr) (xi_error it || e))) as (it' & -> & Hb & Hok & Hnb & Hpos);
      simpl; try done; try lia.
    exists it'. split_and!; try done. simpl in Hpos. intros. specialize (Hpos ltac:(done)). lia.
Qed.

Lemma xr_loop_progress fuel it it0 :
  slice_in m (xi_buf it) -> (sizeof_XrPacket <= xi_cur_pos it <= sl_size (xi_buf it))%nat ->
  xi_buf it = xi_buf it0 -> (xi_cur_pos it0 < xi_cur_pos it)%nat -> xi_state it0 <> XR_END ->
  (sl_size (xi_buf it) < fuel)%nat ->
  exists it', xr_block_loop host m fuel it = ret it' /\ xi_buf it' = xi_buf it0 /\ xi_ok it'
    /\ xi_state it' <> XR_BEGIN /\ (xi_state it' = XR_END \/ xi_rank it' < xi_rank it0)%nat.
Proof using Hbytes.
  intros Hs Hp Hb Hlt Hst Hf.
  destruct (xr_block_loop_ok fuel it) as (it' & E & Hb' & Hok & Hnb & Hpos); try done; try lia.
  exists it'. split_and!; try done; [congruence|].
  unfold xi_rank. rewrite Hb', Hb in *.
  destruct (xi_state it') eqn:E1; destruct (xi_state it0); try tauto; right;
    specialize (Hpos ltac:(done)); lia.
Qed.

Lemma xr_next_ok fuel it :
  xi_ok it -> (sl_size (xi_buf it) < fuel)%nat ->
  exists it', xr_next host m fuel it = ret it' /\ xi_buf it' = xi_buf it /\ xi_ok it'
    /\ xi_state it' <> XR_BEGIN /\ (xi_state it' = XR_END \/ xi_rank it' < xi_rank it)%nat.
Proof using Hbytes.
  intros [Hs Hst] Hf. unfold xr_next.
  destruct (xi_state it) eqn:E; simpl in *;
    try (destruct Hst as (_ & ? & ? & ? & _);
         apply xr_loop_progress; simpl; try done; try lia; congruence).
  - case_if; nat_bools.
    + eexists. split_and!; try done. by left.
    + apply xr_loop_progress; simpl; unfold sizeof_XrPacket in *; try done; try lia; congruence.
  - exists it. split_and!; try done; [|congruence|by left]. split; [done|]. by rewrite E.
Qed.

Lemma xr_count_ok fuel it n :
  xi_ok it -> (sl_size (xi_buf it) < fuel - xi_rank it)%nat ->
  exists k, xr_count host m fuel it n = ret k.
Proof using Hbytes.
  revert it n. induction fuel as [|fuel IH]; intros it n Hok Hf; [lia|].
  cbn [xr_count]. destruct (xr_next_ok (S fuel) it) as (it' & -> & Hb & Hok' & _ & Hr);
    [done|lia|]. simpl run_bind.
  destruct (decide (xi_state it' = XR_END)) as [->|Hne]; [by exists n|].
  destruct Hr as [|Hr]; [done|].
  destruct (IH it' (n + 1)%nat) as [k Hk]; [done|rewrite Hb; lia|].
  exists k. by destruct (xi_state it').
Qed.

(** Enough rounds for any loop over the elements of a packet in [buf]. *)
Definition fuel_for (buf : Slice) : nat := 2 * sl_size buf + 3.

Lemma xr_parse_ok fuel t :
  (fuel_for (xt_buf t) <= fuel)%nat -> slice_in m (xt_buf t) -> xt_parsed t = false ->
  (ph_len_bytes host m (sl_off (xt_buf t)) = sl_size (xt_buf t)) ->
  exists t' ok, xr_parse host m fuel t = ret (t', ok)
    /\ (ok = true -> xt_parsed t' = true /\ slice_in m (xt_buf t')
         /\ sl_off (xt_buf t') = sl_off (xt_buf t)
         /\ (sizeof_XrPacket <= sl_size (xt_buf t') <= sl_size (xt_buf t))%nat).
Proof using Hbytes.
  intros Hfuel Hs Hp Hlen. unfold xr_parse. rewrite Hp.
  pose proof (slice_in_fits _ _ Hs).
  case_if; nat_bools; [by exists t, false|].
  unfold sizeof_XrPacket in *. rewrite (deref_ok m) by (done || lia). simpl.
  rewrite Nat.add_0_r, Hlen. case_if; [by exists t, false|].
  rewrite Nat.ltb_irrefl.
  destruct (len_bytes_range (sl_off (xt_buf t)) ltac:(lia)) as [_ Hz]. rewrite Hlen in Hz.
  destruct (remove_padding_ok (xt_buf t) (sl_size (xt_buf t)) 8 (sl_off (xt_buf t)))
    as (r & -> & Hr); [done|lia|lia|lia|]. simpl.
  destruct r as [buf|]; [|by exists t, false].
  destruct Hr as (Hb & Ho & Hn).
  destruct (xr_count_ok fuel (xr_iterator (mkXrTraverser buf false (xt_blocks_count t))) 0)
    as [k Hk]; [by split|unfold fuel_for, xi_rank in *; simpl; lia|].
  rewrite Hk. simpl. by eexists _, true.
Qed.

(** * SDES *)

Definition si_ok (it : SdesIterator) : Prop :=
  slice_in m (si_buf it) /\ text_ok (si_parsed_item_text it) /\
  match si_state it with
  | SDES_BEGIN => si_cur_pos it = O
  | SDES_CHUNK =>
      (4 <= si_cur_pos it)%nat /\ (si_cur_pos it + sizeof_SdesChunkHeader <= sl_size (si_buf it))%nat
  | SDES_ITEM =>
      (4 <= si_cur_pos it)%nat /\ (2 <= si_cur_item_len it)%nat
      /\ (si_cur_pos it + si_cur_item_len it <= sl_size (si_buf it))%nat
  | SDES_END => True
  end.

Definition si_rank (it : SdesIterator) : nat :=
  match si_state it with
  | SDES_END => O
  | _ => S (sl_size (si_buf it) - si_cur_pos it)
  end.

(** What holds of the iterator [it'] that follows [it], when [it] stood before [pos]. *)
Definition si_after (it : SdesIterator) (pos : nat) (it' : SdesIterator) : Prop :=
  si_buf it' = si_buf it /\ si_ok it' /\ si_state it' <> SDES_BEGIN
  /\ (si_state it' <> SDES_END -> (pos <= si_cur_pos it')%nat).

Lemma sdes_next_chunk_ok it :
  slice_in m (si_buf it) -> text_ok (si_parsed_item_text it) ->
  (4 <= si_cur_pos it)%nat ->
  exists it', sdes_next_chunk host m it = Ok it' /\ si_after it (si_cur_pos it) it'.
Proof using.
  intros Hs Ht H4. unfold sdes_next_chunk. case_if; nat_bools.
  { eexists. split; [done|]. by split_and!. }
  case_if; nat_bools.
  { eexists. split; [done|]. by split_and!. }
  unfold parse_chunk. simpl. rewrite (deref_ok m) by done. simpl.
  eexists. split; [done|]. by split_and!.
Qed.

Lemma skip_chunk_padding_range fuel size pos :
  (pos < size)%nat -> (pos <= skip_chunk_padding fuel size pos <= size)%nat.
Proof using.
  revert pos. induction fuel as [|fuel IH]; intros pos Hp; simpl; [lia|].
  case_if; nat_bools; [|lia]. specialize (IH (pos + 1)%nat). lia.
Qed.

Lemma sdes_next_item_ok it :
  slice_in m (si_buf it) -> text_ok (si_parsed_item_text it) ->
  si_state it = SDES_ITEM ->
  (4 <= si_cur_pos it <= sl_size (si_buf it))%nat ->
  exists it', sdes_next_item host m it = Ok it' /\ si_after it (si_cur_pos it) it'.
Proof using.
  intros Hs Ht Hst H4. unfold sdes_next_item. case_if; nat_bools.
  { apply (sdes_next_chunk_ok (si_at it SDES_CHUNK _ _)); simpl; done || lia. }
  rewrite (deref_ok m) by (done || lia). cbn [res_bind]. case_if.
  { cbv zeta. pose proof (skip_chunk_padding_range 4 (sl_size (si_buf it)) (si_cur_pos it) ltac:(lia)).
    generalize dependent (skip_chunk_padding 4 (sl_size (si_buf it)) (si_cur_pos it)).
    intros pos Hpos.
    destruct (sdes_next_chunk_ok (si_at it SDES_CHUNK pos (si_cur_chunk it + 1)))
      as (it' & -> & Hb & Hok & Hnb & Hp); simpl in *; try done; try lia.
    exists it'. do 4 (split; [done|]). intros Hne. specialize (Hp Hne). lia. }
  case_if; nat_bools.
  { eexists. split; [done|]. by split_and!. }
  unfold sizeof_SdesItemHeader in *. rewrite (deref_ok m) by (done || lia). cbn [res_bind].
  case_if; nat_bools.
  { eexists. split; [done|]. by split_and!. }
  unfold parse_item. simpl. rewrite (deref_ok m) by (done || unfold sizeof_SdesItemHeader; lia).
  simpl.
  destruct (copy_text_ok (si_buf it) (sdi_text (sl_off (si_buf it) + si_cur_pos it))
    (sdi_text_len m (sl_off (si_buf it) + si_cur_pos it)) (si_parsed_item_text it))
    as (a & Ec & Ha); [done|destruct Ht; unfold MaxTextLen in *; lia|].
  rewrite Ec. simpl. eexists. split; [done|]. unfold si_after, si_ok. simpl. rewrite Hst.
  apply copy_text_terminated in Ec. destruct Ht. split_and!; try done; try lia.
  split; [congruence|done].
Qed.

Lemma sdes_next_ok it :
  si_ok it ->
  exists it', sdes_next host m it = Ok it' /\ si_buf it' = si_buf it /\ si_ok it'
    /\ si_state it' <> SDES_BEGIN /\ (si_state it' = SDES_END \/ si_rank it' < si_rank it)%nat.
Proof using.
  intros (Hs & Ht & Hst). unfold sdes_next.
  assert (forall it0 it' pos, si_after it0 pos it' -> si_buf it0 = si_buf it ->
    (si_cur_pos it < pos)%nat -> (pos <= sl_size (si_buf it))%nat -> si_state it <> SDES_END ->
    si_buf it' = si_buf it /\ si_ok it' /\ si_state it' <> SDES_BEGIN
    /\ (si_state it' = SDES_END \/ si_rank it' < si_rank it)%nat) as Hprog.
  { intros it0 it' pos (Hb & Hok & Hnb & Hpos) Hb0 Hlt Hle Hne.
    split_and!; try done; [congruence|].
    unfold si_rank. rewrite Hb, Hb0. destruct (si_state it'), (si_state it); try tauto;
      right; specialize (Hpos ltac:(done)); lia. }
  destruct (si_state it) eqn:E.
  - simpl. case_if; nat_bools.
    { eexists. split; [done|]. split_and!; try done. by left. }
    unfold sizeof_PacketHeader in *.
    edestruct (sdes_next_chunk_ok (si_at it SDES_BEGIN (si_cur_pos it + 4) (si_cur_chunk it)))
      as (it' & -> & Ha); simpl; try done; try lia.
    exists it'. split; [done|]. eapply (Hprog _ _ _ Ha); simpl in *; done || lia.
  - destruct Hst. unfold sizeof_SdesChunkHeader in *.
    edestruct (sdes_next_item_ok (si_at it SDES_ITEM (si_cur_pos it + 4) (si_cur_chunk it)))
      as (it' & -> & Ha); simpl; try done; try lia.
    exists it'. split; [done|]. eapply (Hprog _ _ _ Ha); simpl in *; done || lia.
  - destruct Hst as (? & ? & ?).
    edestruct (sdes_next_item_ok (si_at it SDES_ITEM (si_cur_pos it + si_cur_item_len it)
      (si_cur_chunk it))) as (it' & -> & Ha); simpl; try done; try lia.
    exists it'. split; [done|]. eapply (Hprog _ _ _ Ha); simpl in *; done || lia.
  - exists it. unfold si_ok. rewrite E. split_and!; try done. by left.
Qed.

Lemma sdes_parse_ok t :
  slice_in m (st_buf t) -> st_parsed t = false ->
  ph_len_bytes host m (sl_off (st_buf t)) = sl_size (st_buf t) ->
  exists t' ok, sdes_parse host m t = Ok (t', ok)
    /\ (ok = true -> exists it, sdes_iter t' = Ok it /\ si_ok it
          /\ (sl_size (si_buf it) <= sl_size (st_buf t))%nat).
Proof using Hbytes.
  intros Hs Hp Hlen. unfold sdes_parse. rewrite Hp. unfold panic_if.
  pose proof (slice_in_fits _ _ Hs).
  case_if; nat_bools; [by exists t, false|].
  unfold sizeof_SdesPacket in *. rewrite (deref_ok m) by (done || lia). simpl.
  rewrite Nat.add_0_r, Hlen. case_if; [by exists t, false|].
  rewrite Nat.ltb_irrefl. case_if; [by eexists _, false|].
  destruct (len_bytes_range (sl_off (st_buf t)) ltac:(lia)) as [_ Hz]. rewrite Hlen in Hz.
  destruct (remove_padding_ok (st_buf t) (sl_size (st_buf t)) 4 (sl_off (st_buf t)))
    as (r & -> & Hr); [done|lia|lia|lia|]. simpl.
  destruct r as [buf|]; [|by eexists _, false].
  destruct Hr as (Hb & Ho & Hn). eexists _, true. split; [done|]. intros _.
  eexists. split; [done|]. split; [|simpl; lia].
  split; [done|]. split; [|done]. split; [done|]. by apply list_elem_of_lookup_2 with O.
Qed.

(** * BYE *)

Definition bi_ok (it : ByeIterator) : Prop :=
  slice_in m (bi_buf it) /\ length (bi_parsed_reason it) = (MaxTextLen + 1)%nat /\
  match bi_state it with
  | BYE_BEGIN => bi_cur_pos it = O
  | BYE_SSRC => (bi_cur_pos it + sizeof_ByeSourceHeader <= sl_size (bi_buf it))%nat
  | _ => True
  end.

Definition bi_rank (it : ByeIterator) : nat :=
  match bi_state it with
  | BYE_END => O
  | BYE_REASON => 1
  | _ => 2 + (sl_size (bi_buf it) - bi_cur_pos it)
  end.

Ltac bye_done :=
  eexists; split_and!; try done;
  first [left; unfold bi_rank; simpl; lia | right; done].

Lemma bye_next_ssrc_ok it :
  slice_in m (bi_buf it) -> length (bi_parsed_reason it) = (MaxTextLen + 1)%nat ->
  exists it', bye_next_ssrc host m it = Ok it' /\ bi_buf it' = bi_buf it /\ bi_ok it'
    /\ bi_state it' <> BYE_BEGIN
    /\ (bi_rank it' < 2 \/ bi_state it' = BYE_SSRC /\ bi_cur_pos it' = bi_cur_pos it)%nat.
Proof using.
  intros Hs Ht. unfold bye_next_ssrc. case_if; nat_bools.
  - case_if; nat_bools; [|bye_done].
    case_if; nat_bools; [bye_done|].
    rewrite (deref_ok m) by done. cbn [res_bind].
    case_if; nat_bools; [bye_done|].
    unfold parse_reason. simpl. rewrite (deref_ok m) by done. simpl.
    destruct (copy_text_ok (bi_buf it) (byr_text (sl_off (bi_buf it) + bi_cur_pos it))
      (byr_text_len m (sl_off (bi_buf it) + bi_cur_pos it)) (bi_parsed_reason it))
      as (a & -> & Ha); [done|rewrite Ht; unfold MaxTextLen; lia|].
    simpl. rewrite <- Ha in Ht. bye_done.
  - case_if; nat_bools; [bye_done|].
    unfold parse_ssrc. simpl. rewrite (deref_ok m) by done. simpl.
    bye_done.
Qed.

Lemma bye_next_ok it :
  bi_ok it ->
  exists it', bye_next host m it = Ok it' /\ bi_buf it' = bi_buf it /\ bi_ok it'
    /\ bi_state it' <> BYE_BEGIN /\ (bi_state it' = BYE_END \/ bi_rank it' < bi_rank it)%nat.
Proof using.
  intros (Hs & Ht & Hst). unfold bye_next. destruct (bi_state it) eqn:E.
  - simpl. case_if; nat_bools; [eexists; split_and!; try done; by left|].
    unfold sizeof_ByePacket in *.
    edestruct (bye_next_ssrc_ok (bi_at it BYE_BEGIN (bi_cur_pos it + 4) (bi_cur_ssrc it)))
      as (it' & -> & Hb & Hok & Hnb & Hr); try done.
    exists it'. split_and!; try done. right. unfold bi_rank at 2. rewrite E.
    destruct Hr as [|[Hs' Hp]]; [lia|]. unfold bi_rank. rewrite Hs', Hb, Hp. simpl in *. lia.
  - unfold sizeof_ByeSourceHeader in *.
    edestruct (bye_next_ssrc_ok (bi_at it BYE_SSRC (bi_cur_pos it + 4) (bi_cur_ssrc it + 1)))
      as (it' & -> & Hb & Hok & Hnb & Hr); try done.
    exists it'. split_and!; try done. right. unfold bi_rank at 2. rewrite E.
    destruct Hr as [|[Hs' Hp]]; [lia|]. unfold bi_rank. rewrite Hs', Hb, Hp. simpl in *. lia.
  - eexists. split; [done|]. split_and!; try done. by left.
  - exists it. unfold bi_ok. rewrite E. split_and!; try done. by left.
Qed.

Lemma bye_parse_ok t :
  slice_in m (bt_buf t) -> bt_parsed t = false ->
  ph_len_bytes host m (sl_off (bt_buf t)) = sl_size (bt_buf t) ->
  exists t' ok, bye_parse host m t = Ok (t', ok)
    /\ (ok = true -> exists it, bye_iter t' = Ok it /\ bi_ok it
          /\ (sl_size (bi_buf it) <= sl_size (bt_buf t))%nat).
Proof using Hbytes.
  intros Hs Hp Hlen. unfold bye_parse. rewrite Hp. unfold panic_if.
  pose proof (slice_in_fits _ _ Hs).
  case_if; nat_bools; [by exists t, false|].
  unfold sizeof_ByePacket in *. rewrite (deref_ok m) by (done || lia). simpl.
  rewrite Nat.add_0_r, Hlen. case_if; [by exists t, false|].
  rewrite Nat.ltb_irrefl. case_if; [by eexists _, false|].
  destruct (len_bytes_range (sl_off (bt_buf t)) ltac:(lia)) as [_ Hz]. rewrite Hlen in Hz.
  destruct (remove_padding_ok (bt_buf t) (sl_size (bt_buf t)) 4 (sl_off (bt_buf t)))
    as (r & -> & Hr); [done|lia|lia|lia|]. simpl.
  destruct r as [buf|]; [|by eexists _, false].
  destruct Hr as (Hb & Ho & Hn). eexists _, true. split; [done|]. intros _.
  eexists. split; [done|]. split_and!; try done; simpl; try lia.
Qed.

(** * Compound packets *)

(** What holds of the packet an iterator is on: reports lie in memory together with all
    their blocks, the other packets are exactly the bytes their header announces. *)
Definition pkt_fits (st : TrState) (s : Slice) : Prop :=
  slice_in m s /\
  match st with
  | TR_SR =>
      (sizeof_SenderReportPacket + sr_num_blocks m (sl_off s) * sizeof_ReceptionReportBlock
       <= sl_size s)%nat
  | TR_RR =>
      (sizeof_ReceiverReportPacket + rr_num_blocks m (sl_off s) * sizeof_ReceptionReportBlock
       <= sl_size s)%nat
  | _ => ph_len_bytes host m (sl_off s) = sl_size s
  end.

Definition ti_ok (it : TrIterator) : Prop :=
  slice_in m (ti_buf it) /\
  match ti_state it with
  | TR_BEGIN => ti_cur_pos it = O
  | TR_END => True
  | st =>
      (4 <= ti_cur_pkt_len it)%nat
      /\ (ti_cur_pos it + ti_cur_pkt_len it <= sl_size (ti_buf it))%nat
      /\ pkt_fits st (ti_cur_pkt_slice it)
      /\ (sl_size (ti_cur_pkt_slice it) <= sl_size (ti_buf it))%nat
  end.

Definition ti_rank (it : TrIterator) : nat :=
  match ti_state it with
  | TR_END => O
  | TR_BEGIN => 2 + sl_size (ti_buf it)
  | _ => 1 + (sl_size (ti_buf it) - ti_cur_pos it)
  end.

Lemma tr_remove_padding_ok buf s hdr len :
  slice_in m buf -> slice_in m s -> sl_size s = len -> (4 <= len <= sl_size buf)%nat ->
  Z.of_nat len <= 2 ^ 18 ->
  exists r, tr_remove_padding m buf s hdr len = Ok r /\
    match r with
    | None => True
    | Some s' => slice_in m s' /\ (4 <= sl_size s' <= len)%nat
    end.
Proof using Hbytes.
  intros Hb Hs Hn Hl Hz. unfold tr_remove_padding. destruct (ph_has_padding m hdr).
  - rewrite (deref_ok m) by (done || lia). cbn [res_bind].
    pose proof (lookup_total_byte (sl_off s + (len - 1))) as HB.
    unfold is_byte, is_u in HB. set (p := m !!! _) in *. unfold sizeof_PacketHeader.
    rewrite size_sub_small by lia. case_if; [by exists None|].
    rewrite wrap_u_small by (unfold is_u; lia).
    destruct (subslice_to_in m buf (Z.of_nat len - p)) as (s' & -> & Hs' & Ho & Hn'); [done|lia|].
    exists (Some s'). split; [done|]. split_and!; done || lia.
  - exists (Some s). split_and!; done || lia.
Qed.

Lemma tr_check_report_ok check buf s hdr len :
  slice_in m buf -> slice_in m s -> sl_size s = len -> (4 <= len <= sl_size buf)%nat ->
  Z.of_nat len <= 2 ^ 18 ->
  (forall s, slice_in m s -> (4 <= sl_size s)%nat -> exists ok, check s = Ok ok) ->
  exists s' ok, tr_check_report m check buf s hdr len = Ok (s', ok)
    /\ slice_in m s' /\ (4 <= sl_size s' <= len)%nat /\ (ok = true -> check s' = Ok true).
Proof using Hbytes.
  intros Hb Hs Hn Hl Hz Hc. unfold tr_check_report.
  destruct (tr_remove_padding_ok buf s hdr len) as (r & -> & Hr); try done.
  cbn [res_bind]. destruct r as [s'|]; [|exists s, false; split_and!; done || lia].
  destruct Hr as [Hs' Hn']. destruct (Hc s') as [ok Hok]; [done|lia|]. rewrite Hok. simpl.
  exists s', ok. split_and!; try done; try lia; congruence.
Qed.

Lemma check_sr_ok s :
  slice_in m s -> (4 <= sl_size s)%nat ->
  exists ok, check_sr m s = Ok ok /\ (ok = true -> pkt_fits TR_SR s).
Proof using.
  intros Hs H4. unfold check_sr. rewrite (deref_ok m) by done. simpl.
  eexists. split; [done|]. intros H. reflect_bools. nat_bools.
  rewrite Nat.add_0_r in H. split; [done|]. exact H.
Qed.

Lemma check_rr_ok s :
  slice_in m s -> (4 <= sl_size s)%nat ->
  exists ok, check_rr m s = Ok ok /\ (ok = true -> pkt_fits TR_RR s).
Proof using.
  intros Hs H4. unfold check_rr. rewrite (deref_ok m) by done. simpl.
  eexists. split; [done|]. intros H. reflect_bools. nat_bools.
  rewrite Nat.add_0_r in H. split; [done|]. exact H.
Qed.

Lemma tr_switch_ok buf s hdr len :
  slice_in m buf -> slice_in m s -> sl_off s = hdr -> sl_size s = len ->
  ph_len_bytes host m hdr = len -> (4 <= len <= sl_size buf)%nat -> Z.of_nat len <= 2 ^ 18 ->
  exists o s' e, tr_switch m buf s hdr len = Ok (o, s', e)
    /\ (sl_size s' <= len)%nat
    /\ (forall st, o = Some st -> pkt_fits st s' /\ st <> TR_BEGIN /\ st <> TR_END).
Proof using Hbytes.
  intros Hb Hs Ho Hn Hp Hl Hz. unfold tr_switch.
  assert (forall check st,
    (forall s, slice_in m s -> (4 <= sl_size s)%nat ->
       exists ok, check s = Ok ok /\ (ok = true -> pkt_fits st s)) ->
    st <> TR_BEGIN -> st <> TR_END ->
    exists o s' e, (let* '(s, ok) := tr_check_report m check buf s hdr len in
       Ok (if ok then (Some st, s, false) else (None, s, true))) = Ok (o, s', e)
      /\ (sl_size s' <= len)%nat
      /\ (forall st, o = Some st -> pkt_fits st s' /\ st <> TR_BEGIN /\ st <> TR_END)) as Hrep.
  { intros check st Hc Hst1 Hst2.
    destruct (tr_check_report_ok check buf s hdr len) as (s' & ok & -> & Hs' & Hn' & Hok); try done.
    { intros s0 H1 H2. destruct (Hc s0 H1 H2) as (ok & E & _). by exists ok. }
    simpl. destruct ok; eexists _, _, _; (split; [done|]); (split; [lia|]); intros st' [= <-].
    specialize (Hok eq_refl). split_and!; try done.
    destruct (Hc s' Hs' ltac:(lia)) as (ok & E & Hfit). rewrite Hok in E. injection E as <-. auto. }
  case_if; [apply Hrep; done || apply check_sr_ok|].
  case_if; [apply Hrep; done || apply check_rr_ok|].
  assert (ph_len_bytes host m (sl_off s) = sl_size s) as Hfit by (rewrite Ho, Hn; done).
  repeat (case_if; [eexists _, _, _; (split; [done|]); (split; [lia|]);
                    intros st [= <-]; split_and!; done|]).
  eexists _, _, _. split; [done|]. split; [lia|]. done.
Qed.

(** The iterator that follows: on a packet at or after [pos], or at the end. *)
Definition ti_after (it : TrIterator) (pos : nat) (it' : TrIterator) : Prop :=
  ti_buf it' = ti_buf it /\ ti_ok it' /\ ti_state it' <> TR_BEGIN
  /\ (ti_state it' <> TR_END -> (pos <= ti_cur_pos it')%nat).

Lemma tr_packet_loop_ok fuel it :
  slice_in m (ti_buf it) -> (ti_cur_pos it <= sl_size (ti_buf it))%nat ->
  (sl_size (ti_buf it) - ti_cur_pos it < fuel)%nat ->
  exists it', tr_packet_loop host m fuel it = ret it' /\ ti_after it (ti_cur_pos it) it'.
Proof using Hbytes.
  revert it. induction fuel as [|fuel IH]; intros it Hs Hp Hf; [lia|].
  cbn [tr_packet_loop]. cbv zeta.
  case_if; nat_bools; [eexists; by split_and!|].
  case_if; nat_bools; [eexists; by split_and!|].
  rewrite (deref_ok m) by done. unfold lift. cbn [res_bind ret run_bind].
  set (hdr := (sl_off (ti_buf it) + ti_cur_pos it)%nat).
  pose proof (slice_in_fits _ _ Hs). unfold sizeof_PacketHeader in *.
  destruct (len_bytes_range hdr ltac:(lia)) as [H4 Hz].
  case_if; nat_bools; [eexists; by split_and!|].
  case_if; nat_bools; [eexists; by split_and!|].
  set (len := ph_len_bytes host m hdr) in *.
  destruct (subslice_in m (ti_buf it) (ti_cur_pos it) (ti_cur_pos it + len))
    as (s & -> & Hs' & Ho & Hn); [done|lia|lia|]. cbn [res_bind ret run_bind].
  destruct (tr_switch_ok (ti_buf it) s hdr len) as (o & s' & e & -> & Hn' & Hfit);
    try done; try lia. cbn [res_bind ret run_bind].
  destruct o as [st|].
  - destruct (Hfit st eq_refl) as (Hf' & Hb & He). eexists. split; [done|].
    unfold ti_after, ti_ok. simpl. split; [done|]. split; [|done].
    split; [done|]. destruct st; try done; split_and!; done || lia.
  - destruct (IH (mkTrIterator (ti_state it) (ti_buf it) (ti_cur_pos it + len) len s'
      (ti_error it || e))) as (it' & -> & Hb & Hok & Hnb & Hpos); simpl in *; try done; try lia.
    exists it'. do 4 (split; [done|]). intros Hne. specialize (Hpos Hne). lia.
Qed.

Lemma tr_next_ok fuel it :
  ti_ok it -> (sl_size (ti_buf it) < fuel)%nat ->
  exists it', tr_next host m fuel it = ret it' /\ ti_buf it' = ti_buf it /\ ti_ok it'
    /\ (ti_state it' = TR_END \/ ti_rank it' < ti_rank it)%nat.
Proof using Hbytes.
  intros [Hs Hst] Hf. unfold tr_next.
  assert (forall it0, ti_buf it0 = ti_buf it -> (ti_cur_pos it0 <= sl_size (ti_buf it))%nat ->
    (ti_state it = TR_BEGIN \/ ti_state it <> TR_END /\ ti_cur_pos it < ti_cur_pos it0)%nat ->
    exists it', tr_packet_loop host m fuel it0 = ret it' /\ ti_buf it' = ti_buf it /\ ti_ok it'
    /\ (ti_state it' = TR_END \/ ti_rank it' < ti_rank it)%nat) as Hprog.
  { intros it0 Hb0 Hp0 Hlt.
    destruct (tr_packet_loop_ok fuel it0) as (it' & E & Hb & Hok & Hnb & Hpos);
      rewrite ?Hb0; try done; try lia.
    exists it'. split; [done|]. split; [congruence|]. split; [done|].
    unfold ti_rank. rewrite Hb, Hb0.
    destruct (ti_state it') eqn:E'; try tauto; right;
      specialize (Hpos ltac:(done)); destruct Hlt as [->|[? ?]]; try lia;
      destruct (ti_state it); try done; lia. }
  destruct (ti_state it) eqn:E;
    try (destruct Hst as (? & ? & _); apply Hprog; simpl; [done|lia|right; split; [done|lia]]).
  - apply Hprog; auto. lia.
  - exists it. unfold ti_ok. rewrite E. split_and!; try done. by left.
Qed.

End Safe.
