(* ===== verification/RtcpBuilder.v ===== *)
(** RTCP builder (src/internal_modules/roc_rtcp/builder.cpp): writes a compound packet
    into a slice, element by element, under a state machine that enforces the order of
    the calls.

    The state holds the content of the buffer next to the fields of the class.  The
    header objects that the callers pass are byte strings of the size of their class. *)

From S2P Require Import Prelude Bytes Slice RtcpHeaders RtcpTraverser.

(** The fields of [Config] that the builder reads. *)
Record BuilderConfig : Type := mkBuilderConfig {
  enable_sr_rr : bool;
  enable_xr : bool;
  enable_sdes : bool;
}.

Inductive BuilderState : Type :=
| TOP
| SR_HEAD | SR_REPORT
| RR_HEAD | RR_REPORT
| XR_HEAD | XR_DLRR_HEAD | XR_DLRR_REPORT
| SDES_HEAD | SDES_CHUNK_
| BYE_HEAD | BYE_SSRC_ | BYE_REASON_
| LAST.

#[global] Instance BuilderState_eq_dec : EqDecision BuilderState.
Proof. solve_decision. Defined.

Record Builder : Type := mkBuilder {
  b_state : BuilderState;
  (** content of the buffer of [result_slice_] *)
  b_mem : bytes;
  b_result : Slice;
  b_cur_pkt_slice : Slice;
  (** [cur_pkt_header_] and [cur_xr_block_header_], as offsets *)
  b_cur_pkt_header : option nat;
  b_cur_xr_block_header : option nat;
  b_sr_written : bool;
  b_rr_written : bool;
  b_cname_written : bool;
  b_truncated : bool;
  b_config : BuilderConfig;
}.

Section Builder.

Context (host : cpu_endian).

(** * Field updates *)

Definition b_set_state (s : BuilderState) (b : Builder) : Builder :=
  mkBuilder s (b_mem b) (b_result b) (b_cur_pkt_slice b) (b_cur_pkt_header b)
    (b_cur_xr_block_header b) (b_sr_written b) (b_rr_written b) (b_cname_written b)
    (b_truncated b) (b_config b).

Definition b_set_mem (m : bytes) (b : Builder) : Builder :=
  mkBuilder (b_state b) m (b_result b) (b_cur_pkt_slice b) (b_cur_pkt_header b)
    (b_cur_xr_block_header b) (b_sr_written b) (b_rr_written b) (b_cname_written b)
    (b_truncated b) (b_config b).

Definition b_set_result (s : Slice) (b : Builder) : Builder :=
  mkBuilder (b_state b) (b_mem b) s (b_cur_pkt_slice b) (b_cur_pkt_header b)
    (b_cur_xr_block_header b) (b_sr_written b) (b_rr_written b) (b_cname_written b)
    (b_truncated b) (b_config b).

Definition b_set_pkt (s : Slice) (h : option nat) (b : Builder) : Builder :=
  mkBuilder (b_state b) (b_mem b) (b_result b) s h
    (b_cur_xr_block_header b) (b_sr_written b) (b_rr_written b) (b_cname_written b)
    (b_truncated b) (b_config b).

Definition b_set_xr_block (h : option nat) (b : Builder) : Builder :=
  mkBuilder (b_state b) (b_mem b) (b_result b) (b_cur_pkt_slice b) (b_cur_pkt_header b)
    h (b_sr_written b) (b_rr_written b) (b_cname_written b) (b_truncated b) (b_config b).

Definition b_set_written (sr rr cname : bool) (b : Builder) : Builder :=
  mkBuilder (b_state b) (b_mem b) (b_result b) (b_cur_pkt_slice b) (b_cur_pkt_header b)
    (b_cur_xr_block_header b) sr rr cname (b_truncated b) (b_config b).

Definition b_truncate (b : Builder) : Builder :=
  mkBuilder (b_state b) (b_mem b) (b_result b) (b_cur_pkt_slice b) (b_cur_pkt_header b)
    (b_cur_xr_block_header b) (b_sr_written b) (b_rr_written b) (b_cname_written b)
    true (b_config b).

(** * Construction and destruction *)

(** [Builder(config, result)]; [mem] is the content of the buffer of [result]. *)
Definition builder_new (config : BuilderConfig) (mem : bytes) (result : Slice) : res Builder :=
  panic_if (negb (slice_bool result))
    (let* result := slice_reslice result 0 0 in
     Ok (mkBuilder TOP mem result slice_empty None None false false false false config)).

(** [~Builder()]: returns when none of its checks panics. *)
Definition builder_delete (b : Builder) : res unit :=
  panic_if (negb (bool_decide (b_state b = TOP)) && negb (bool_decide (b_state b = LAST)))
    (panic_if (negb (b_truncated b) && (sl_size (b_result b) =? 0)%nat)
       (panic_if (enable_sr_rr (b_config b) && negb (b_sr_written b) && negb (b_rr_written b))
          (panic_if (enable_sdes (b_config b) && negb (b_cname_written b))
             (Ok tt)))).

Definition is_ok (b : Builder) : bool := negb (b_truncated b).

(** * Packets and blocks *)

(** A method that starts with [roc_panic_if_msg(state_ != s1 && state_ != s2 ...)]. *)
Definition in_state {A} (l : list BuilderState) (b : Builder) (k : res A) : res A :=
  panic_if (negb (bool_decide (b_state b ∈ l))) k.

(** [begin_packet_(size)]: the offset of the packet header, or [None] for [NULL]. *)
Definition begin_packet (size : nat) (b : Builder) : res (option nat * Builder) :=
  panic_if (size <? sizeof_PacketHeader)%nat
    (if b_truncated b then Ok (None, b)
     else
       let* cur := slice_subslice (b_result b) (sl_size (b_result b)) (sl_size (b_result b)) in
       let b := b_set_pkt cur (b_cur_pkt_header b) b in
       if (slice_capacity cur - sl_size cur <? size)%nat then Ok (None, b_truncate b)
       else
         let* '(p, cur) := slice_extend cur size in
         Ok (Some p, b_set_pkt cur (Some p) b)).

Definition add_block (size : nat) (b : Builder) : res (option nat * Builder) :=
  if b_truncated b then Ok (None, b)
  else
    let cur := b_cur_pkt_slice b in
    if (slice_capacity cur - sl_size cur <? size)%nat then Ok (None, b_truncate b)
    else
      let* '(p, cur) := slice_extend cur size in
      Ok (Some p, b_set_pkt cur (b_cur_pkt_header b) b).

(** A dereference of [cur_pkt_header_] and of [cur_xr_block_header_]. *)
Definition with_header (b : Builder) (f : bytes -> nat -> res bytes) : res Builder :=
  match b_cur_pkt_header b with
  | None => Panic
  | Some h => let* m := f (b_mem b) h in Ok (b_set_mem m b)
  end.

Definition with_xr_block (b : Builder) (f : bytes -> nat -> res bytes) : res Builder :=
  match b_cur_xr_block_header b with
  | None => Panic
  | Some h => let* m := f (b_mem b) h in Ok (b_set_mem m b)
  end.

Definition end_packet (b : Builder) : res Builder :=
  if b_truncated b then Ok b
  else
    let n := sl_size (b_cur_pkt_slice b) in
    panic_if ((n <? sizeof_PacketHeader)%nat || negb (n mod 4 =? 0)%nat)
      (let* b := with_header b (fun m h => ph_set_len_bytes host m h n) in
       let* '(p, r) := slice_extend (b_result b) n in
       Ok (b_set_result r b)).

(** [memcpy] of a header object to the place that [begin_packet_] or [add_block_]
    returned, and the rest of the method; nothing when they returned [NULL]. *)
Definition when_ptr (r : res (option nat * Builder)) (k : nat -> Builder -> res Builder)
  : res Builder :=
  let* '(p, b) := r in
  match p with None => Ok b | Some p => k p b end.

Definition copy_to (obj : bytes) (p : nat) (b : Builder) : Builder :=
  b_set_mem (overwrite (b_mem b) p obj) b.

(** * SR and RR *)

Definition begin_sr (sr : bytes) (b : Builder) : res Builder :=
  in_state [TOP] b
    (panic_if (negb (enable_sr_rr (b_config b)))
       (let b := b_set_state SR_HEAD b in
        let b := b_set_written true (b_rr_written b) (b_cname_written b) b in
        when_ptr (begin_packet sizeof_SenderReportPacket b) (fun p b => Ok (copy_to sr p b)))).

(** The body shared by [add_sr_report] and [add_rr_report]. *)
Definition add_report (report : bytes) (b : Builder) : res Builder :=
  when_ptr (add_block sizeof_ReceptionReportBlock b) (fun p b =>
    let b := copy_to report p b in
    let* b := with_header b (fun m h => ph_set_len_bytes host m h (sl_size (b_cur_pkt_slice b))) in
    with_header b ph_inc_counter).

Definition add_sr_report (report : bytes) (b : Builder) : res Builder :=
  in_state [SR_HEAD; SR_REPORT] b (add_report report (b_set_state SR_REPORT b)).

Definition end_sr (b : Builder) : res Builder :=
  in_state [SR_HEAD; SR_REPORT] b (end_packet (b_set_state TOP b)).

Definition begin_rr (rr : bytes) (b : Builder) : res Builder :=
  in_state [TOP] b
    (panic_if (negb (enable_sr_rr (b_config b)))
       (let b := b_set_state RR_HEAD b in
        let b := b_set_written (b_sr_written b) true (b_cname_written b) b in
        when_ptr (begin_packet sizeof_ReceiverReportPacket b) (fun p b => Ok (copy_to rr p b)))).

Definition add_rr_report (report : bytes) (b : Builder) : res Builder :=
  in_state [RR_HEAD; RR_REPORT] b (add_report report (b_set_state RR_REPORT b)).

Definition end_rr (b : Builder) : res Builder :=
  in_state [RR_HEAD; RR_REPORT] b (end_packet (b_set_state TOP b)).

(** [config_.enable_sr_rr && !sr_written_ && !rr_written_] *)
Definition report_missing (b : Builder) : bool :=
  enable_sr_rr (b_config b) && negb (b_sr_written b) && negb (b_rr_written b).

(** * SDES *)

Definition begin_sdes (b : Builder) : res Builder :=
  in_state [TOP] b
    (panic_if (negb (enable_sdes (b_config b)))
       (panic_if (report_missing b)
          (let b := b_set_state SDES_HEAD b in
           when_ptr (begin_packet sizeof_SdesPacket b) (fun p b =>
             let* m := sdes_reset host (b_mem b) p in
             Ok (b_set_mem m b))))).

Definition begin_sdes_chunk (ssrc : Z) (b : Builder) : res Builder :=
  in_state [SDES_HEAD] b
    (let b := b_set_state SDES_CHUNK_ b in
     let b := b_set_written (b_sr_written b) (b_rr_written b) false b in
     when_ptr (add_block sizeof_SdesChunkHeader b) (fun p b =>
       let m := sdc_reset host (b_mem b) p in
       let m := sdc_set_ssrc host m p ssrc in
       with_header (b_set_mem m b) ph_inc_counter)).

(** [text] is the zero-terminated string of the item without its terminator. *)
Definition add_sdes_item (type : Z) (text : bytes) (b : Builder) : res Builder :=
  in_state [SDES_CHUNK_] b
    (let text_size := length text in
     let total_size := (sizeof_SdesItemHeader + text_size)%nat in
     panic_if (MaxTextLen <? text_size)%nat
       (let* b :=
          if type =? SDES_CNAME then
            panic_if (text_size =? 0)%nat
              (panic_if (b_cname_written b)
                 (Ok (b_set_written (b_sr_written b) (b_rr_written b) true b)))
          else Ok b in
        when_ptr (add_block total_size b) (fun p b =>
          let m := sdi_reset (b_mem b) p in
          let m := sdi_set_type m p type in
          let* m := sdi_set_text_len m p text_size in
          Ok (b_set_mem (overwrite m (sdi_text p) text) b)))).

Definition end_sdes_chunk (b : Builder) : res Builder :=
  in_state [SDES_CHUNK_] b
    (panic_if (negb (b_cname_written b))
       (let b := b_set_state SDES_HEAD b in
        let padding_size := padding_len (sl_size (b_cur_pkt_slice b)) 1 in
        when_ptr (add_block padding_size b) (fun p b =>
          Ok (copy_to (replicate padding_size 0) p b)))).

Definition end_sdes (b : Builder) : res Builder :=
  in_state [SDES_HEAD] b (end_packet (b_set_state TOP b)).

(** * BYE *)

Definition begin_bye (b : Builder) : res Builder :=
  in_state [TOP] b
    (panic_if (report_missing b)
       (let b := b_set_state BYE_HEAD b in
        when_ptr (begin_packet sizeof_ByePacket b) (fun p b =>
          let* m := bye_reset host (b_mem b) p in
          Ok (b_set_mem m b)))).

Definition add_bye_ssrc (ssrc : Z) (b : Builder) : res Builder :=
  in_state [BYE_HEAD; BYE_SSRC_] b
    (let b := b_set_state BYE_SSRC_ b in
     when_ptr (add_block sizeof_ByeSourceHeader b) (fun p b =>
       let m := bys_reset host (b_mem b) p in
       let m := bys_set_ssrc host m p ssrc in
       with_header (b_set_mem m b) ph_inc_counter)).

Definition add_bye_reason (reason : bytes) (b : Builder) : res Builder :=
  in_state [BYE_SSRC_] b
    (let text_size := length reason in
     let total_size := (sizeof_ByeReasonHeader + text_size)%nat in
     let padding_size := padding_len total_size 0 in
     panic_if (MaxTextLen <? text_size)%nat
       (let b := b_set_state BYE_REASON_ b in
        when_ptr (add_block (total_size + padding_size) b) (fun p b =>
          let m := byr_reset (b_mem b) p in
          let* m := byr_set_text_len m p text_size in
          let m := overwrite m (byr_text p) reason in
          Ok (b_set_mem (overwrite m (byr_text p + text_size) (replicate padding_size 0)) b)))).

Definition end_bye (b : Builder) : res Builder :=
  in_state [BYE_SSRC_; BYE_REASON_] b (end_packet (b_set_state TOP b)).

(** * XR *)

Definition begin_xr (xr : bytes) (b : Builder) : res Builder :=
  in_state [TOP] b
    (panic_if (negb (enable_xr (b_config b)))
       (panic_if (report_missing b)
          (let b := b_set_state XR_HEAD b in
           when_ptr (begin_packet sizeof_XrPacket b) (fun p b => Ok (copy_to xr p b))))).

(** The body shared by the methods that add a block of fixed size. *)
Definition add_xr_block (size : nat) (blk : bytes) (b : Builder) : res Builder :=
  in_state [XR_HEAD] b
    (when_ptr (add_block size b) (fun p b =>
       let b := b_set_xr_block (Some p) (copy_to blk p b) in
       with_xr_block b (fun m h => xb_set_len_bytes host m h size))).

Definition add_xr_rrtr := add_xr_block sizeof_XrRrtrBlock.

Definition begin_xr_dlrr (dlrr : bytes) (b : Builder) : res Builder :=
  in_state [XR_HEAD] b
    (let b := b_set_state XR_DLRR_HEAD b in
     when_ptr (add_block sizeof_XrDlrrBlock b) (fun p b =>
       Ok (b_set_xr_block (Some p) (copy_to dlrr p b)))).

Definition add_xr_dlrr_report (report : bytes) (b : Builder) : res Builder :=
  in_state [XR_DLRR_HEAD; XR_DLRR_REPORT] b
    (let b := b_set_state XR_DLRR_REPORT b in
     when_ptr (add_block sizeof_XrDlrrSubblock b) (fun p b => Ok (copy_to report p b))).

Definition end_xr_dlrr (b : Builder) : res Builder :=
  in_state [XR_DLRR_HEAD; XR_DLRR_REPORT] b
    (let b := b_set_state XR_HEAD b in
     if b_truncated b then Ok b
     else
       let* data_end := slice_data_end (b_cur_pkt_slice b) in
       with_xr_block b (fun m h => xb_set_len_bytes host m h (data_end - h))).

Definition add_xr_measurement_info := add_xr_block sizeof_XrMeasurementInfoBlock.

Definition add_xr_delay_metrics := add_xr_block sizeof_XrDelayMetricsBlock.

Definition add_xr_queue_metrics := add_xr_block sizeof_XrQueueMetricsBlock.

Definition end_xr (b : Builder) : res Builder :=
  in_state [XR_HEAD] b (end_packet (b_set_state TOP b)).

(** * Padding *)

Definition add_padding (padding_len : nat) (b : Builder) : res Builder :=
  in_state [TOP] b
    (panic_if (negb (padding_len mod 4 =? 0)%nat || (padding_len <? 1)%nat
               || (255 <? padding_len)%nat)
       (let b := b_set_state LAST b in
        if b_truncated b then Ok b
        else
          let* b := with_header b (fun m h => Ok (ph_set_padding m h true)) in
          let* b := with_header b (fun m h =>
            ph_set_len_bytes host m h (ph_len_bytes host m h + padding_len)) in
          let r := b_result b in
          if (slice_capacity r - sl_size r <? padding_len)%nat then Ok (b_truncate b)
          else
            let* '(p, r) := slice_extend r padding_len in
            let m := overwrite (b_mem b) p (replicate (padding_len - 1) 0) in
            let m := overwrite m (p + (padding_len - 1)) [u8 (Z.of_nat padding_len)] in
            Ok (b_set_result r (b_set_mem m b)))).

End Builder.
