(* ===== verification/RtcpWire.v ===== *)
(** Compound RTCP packets as data: their wire encoding, the calls of the builder that
    produce them (RtcpBuilder.v) and the calls of the traversers that read them back
    (RtcpTraverser.v).

    A report or block object is described by the bytes after its header; the header is
    what the constructors of headers.h leave: version 2, the type, everything else
    zero. *)

From S2P Require Import Prelude Bytes Slice RtcpHeaders RtcpTraverser RtcpBuilder.

(** * Description *)

(** [ts] is the type-specific byte of the block header. *)
Inductive xr_block : Type :=
| BlkRrtr (ts : Z) (body : bytes)
| BlkDlrr (ts : Z) (subblocks : list bytes)
| BlkMeasurementInfo (ts : Z) (body : bytes)
| BlkDelayMetrics (ts : Z) (body : bytes)
| BlkQueueMetrics (ts : Z) (body : bytes).

Inductive rtcp_pkt : Type :=
| PktSr (body : bytes) (reports : list bytes)
| PktRr (body : bytes) (reports : list bytes)
| PktXr (body : bytes) (blocks : list xr_block)
| PktSdes (chunks : list (Z * list (Z * bytes)))
| PktBye (ssrcs : list Z) (reason : option bytes).

#[global] Instance xr_block_eq_dec : EqDecision xr_block.
Proof. solve_decision. Defined.

#[global] Instance rtcp_pkt_eq_dec : EqDecision rtcp_pkt.
Proof. solve_decision. Defined.

(** The bytes of a new header object. *)
Definition new_header (t : Z) : bytes := [0x80; t; 0; 0].

Definition new_block (t ts : Z) : bytes := [t; ts; 0; 0].

(** * Encoding *)

(** Length field: in words, minus one. *)
Definition enc_len (size : nat) : bytes := be_bytes 2 (Z.of_nat size / 4 - 1).

Definition enc_xr_block (blk : xr_block) : bytes :=
  let enc t ts body := [t; ts] ++ enc_len (4 + length body) ++ body in
  match blk with
  | BlkRrtr ts body => enc XR_RRTR ts body
  | BlkDlrr ts subs => enc XR_DLRR ts (concat subs)
  | BlkMeasurementInfo ts body => enc XR_MEASUREMENT_INFO ts body
  | BlkDelayMetrics ts body => enc XR_DELAY_METRICS ts body
  | BlkQueueMetrics ts body => enc XR_QUEUE_METRICS ts body
  end.

Definition enc_item (item : Z * bytes) : bytes :=
  [item.1; Z.of_nat (length item.2)] ++ item.2.

Definition enc_chunk (chunk : Z * list (Z * bytes)) : bytes :=
  let items := be_bytes 4 chunk.1 ++ concat (map enc_item chunk.2) in
  items ++ replicate (padding_len (length items) 1) 0.

Definition enc_reason (reason : option bytes) : bytes :=
  match reason with
  | None => []
  | Some text =>
      [Z.of_nat (length text)] ++ text ++ replicate (padding_len (1 + length text) 0) 0
  end.

(** Type, counter and body of a packet. *)
Definition pkt_type (p : rtcp_pkt) : Z :=
  match p with
  | PktSr _ _ => RTCP_SR
  | PktRr _ _ => RTCP_RR
  | PktXr _ _ => RTCP_XR
  | PktSdes _ => RTCP_SDES
  | PktBye _ _ => RTCP_BYE
  end.

Definition pkt_count (p : rtcp_pkt) : nat :=
  match p with
  | PktSr _ reports | PktRr _ reports => length reports
  | PktXr _ _ => 0
  | PktSdes chunks => length chunks
  | PktBye ssrcs _ => length ssrcs
  end.

Definition pkt_body (p : rtcp_pkt) : bytes :=
  match p with
  | PktSr body reports | PktRr body reports => body ++ concat reports
  | PktXr body blocks => body ++ concat (map enc_xr_block blocks)
  | PktSdes chunks => concat (map enc_chunk chunks)
  | PktBye ssrcs reason => concat (map (be_bytes 4) ssrcs) ++ enc_reason reason
  end.

(** Padding bytes: zeros, then their number. *)
Definition enc_padding (pad : nat) : bytes :=
  if (pad =? 0)%nat then [] else replicate (pad - 1) 0 ++ [Z.of_nat pad].

Definition pkt_size (p : rtcp_pkt) (pad : nat) : nat := (4 + length (pkt_body p) + pad)%nat.

Definition enc_pkt (p : rtcp_pkt) (pad : nat) : bytes :=
  [0x80 + (if (pad =? 0)%nat then 0 else 0x20) + Z.of_nat (pkt_count p); pkt_type p]
  ++ enc_len (pkt_size p pad) ++ pkt_body p ++ enc_padding pad.

(** A compound packet; the padding, if any, is that of its last packet. *)
Fixpoint enc_compound (ps : list rtcp_pkt) (pad : nat) : bytes :=
  match ps with
  | [] => []
  | [p] => enc_pkt p pad
  | p :: ps => enc_pkt p 0 ++ enc_compound ps pad
  end.

(** * Valid descriptions *)

Definition bytes_of_len (n : nat) (bs : bytes) : bool :=
  (length bs =? n)%nat && forallb (fun b => bool_decide (is_byte b)) bs.

Definition is_text (text : bytes) : bool :=
  (length text <=? MaxTextLen)%nat
  && forallb (fun b => bool_decide (is_byte b) && negb (b =? 0)) text.

Definition is_u32 (v : Z) : bool := bool_decide (is_u 32 v).

Definition valid_block (blk : xr_block) : bool :=
  match blk with
  | BlkRrtr ts body => bool_decide (is_byte ts) && bytes_of_len 8 body
  | BlkDlrr ts subs => bool_decide (is_byte ts) && forallb (bytes_of_len 12) subs
  | BlkMeasurementInfo ts body => bool_decide (is_byte ts) && bytes_of_len 28 body
  | BlkDelayMetrics ts body => bool_decide (is_byte ts) && bytes_of_len 24 body
  | BlkQueueMetrics ts body => bool_decide (is_byte ts) && bytes_of_len 12 body
  end.

(** Every item has a non-zero type; one of them is the CNAME, which is not empty. *)
Definition valid_item (item : Z * bytes) : bool :=
  (1 <=? item.1) && (item.1 <=? 255) && is_text item.2
  && (negb (item.1 =? SDES_CNAME) || negb (length item.2 =? 0)%nat).

Definition count_cname (items : list (Z * bytes)) : nat :=
  length (List.filter (fun it => it.1 =? SDES_CNAME) items).

Definition valid_chunk (chunk : Z * list (Z * bytes)) : bool :=
  is_u32 chunk.1 && forallb valid_item chunk.2 && (count_cname chunk.2 =? 1)%nat.

Definition valid_pkt (p : rtcp_pkt) : bool :=
  (pkt_count p <=? 31)%nat && (Z.of_nat (pkt_size p 0) <=? 65535) &&
  match p with
  | PktSr body reports => bytes_of_len 24 body && forallb (bytes_of_len 24) reports
  | PktRr body reports => bytes_of_len 4 body && forallb (bytes_of_len 24) reports
  | PktXr body blocks => bytes_of_len 4 body && forallb valid_block blocks
  | PktSdes chunks => forallb valid_chunk chunks
  | PktBye ssrcs reason =>
      negb (length ssrcs =? 0)%nat && forallb is_u32 ssrcs
      && match reason with None => true | Some text => is_text text end
  end.

(** * The builder's calls *)

Section Build.

Context (host : cpu_endian).

(** A sequence of calls, one per element. *)
Fixpoint each {A} (f : A -> Builder -> res Builder) (l : list A) (b : Builder) : res Builder :=
  match l with
  | [] => Ok b
  | x :: l => let* b := f x b in each f l b
  end.

Definition build_block (blk : xr_block) (b : Builder) : res Builder :=
  match blk with
  | BlkRrtr ts body => add_xr_rrtr host (new_block XR_RRTR ts ++ body) b
  | BlkDlrr ts subs =>
      let* b := begin_xr_dlrr (new_block XR_DLRR ts) b in
      let* b := each add_xr_dlrr_report subs b in
      end_xr_dlrr host b
  | BlkMeasurementInfo ts body =>
      add_xr_measurement_info host (new_block XR_MEASUREMENT_INFO ts ++ body) b
  | BlkDelayMetrics ts body =>
      add_xr_delay_metrics host (new_block XR_DELAY_METRICS ts ++ body) b
  | BlkQueueMetrics ts body =>
      add_xr_queue_metrics host (new_block XR_QUEUE_METRICS ts ++ body) b
  end.

Definition build_chunk (chunk : Z * list (Z * bytes)) (b : Builder) : res Builder :=
  let* b := begin_sdes_chunk host chunk.1 b in
  let* b := each (fun item => add_sdes_item item.1 item.2) chunk.2 b in
  end_sdes_chunk b.

Definition build_pkt (p : rtcp_pkt) (b : Builder) : res Builder :=
  match p with
  | PktSr body reports =>
      let* b := begin_sr (new_header RTCP_SR ++ body) b in
      let* b := each (add_sr_report host) reports b in
      end_sr host b
  | PktRr body reports =>
      let* b := begin_rr (new_header RTCP_RR ++ body) b in
      let* b := each (add_rr_report host) reports b in
      end_rr host b
  | PktXr body blocks =>
      let* b := begin_xr (new_header RTCP_XR ++ body) b in
      let* b := each build_block blocks b in
      end_xr host b
  | PktSdes chunks =>
      let* b := begin_sdes host b in
      let* b := each build_chunk chunks b in
      end_sdes host b
  | PktBye ssrcs reason =>
      let* b := begin_bye host b in
      let* b := each (add_bye_ssrc host) ssrcs b in
      let* b := match reason with None => Ok b | Some text => add_bye_reason text b end in
      end_bye host b
  end.

(** A compound packet with the given padding, from the construction of the builder to
    its destruction. *)
Definition build (config : BuilderConfig) (mem : bytes) (result : Slice)
    (ps : list rtcp_pkt) (pad : nat) : res Builder :=
  let* b := builder_new config mem result in
  let* b := each build_pkt ps b in
  let* b := if (pad =? 0)%nat then Ok b else add_padding host pad b in
  let* u := builder_delete b in
  Ok b.

End Build.
