(* ===== verification/RtcpBuilderEncodes.v ===== *)
(** The builder produces the encoding: for every valid description of a compound
    packet, the calls of the builder (RtcpBuilder.v) either write exactly its encoding
    (RtcpWire.v) or report that it does not fit, and never panic. *)

From S2P Require Import Prelude Bytes Slice RtcpHeaders RtcpTraverser RtcpBuilder RtcpWire.

(** * Header fields of a packet being built *)

(** The counter of a version 2 header without padding. *)
Lemma counter_inc (k : nat) :
  (k < 31)%nat ->
  Z.to_nat (get_bit_field (0x80 + Z.of_nat k) 0 0x1F) = k
  /\ set_bit_field 8 (0x80 + Z.of_nat k) (u8 (Z.of_nat (k + 1))) 0 0x1F = 0x80 + Z.of_nat (k + 1).
Proof. intros Hk. do 31 (destruct k as [|k]; [by vm_compute|]). lia. Qed.

Lemma size_to_length n :
  (4 <= n)%nat -> Z.of_nat n <= 65535 -> (n mod 4 = 0)%nat ->
  size_t_2_rtcp_length n = Ok (Z.of_nat n / 4 - 1) /\ is_u 16 (Z.of_nat n / 4 - 1).
Proof.
  intros H4 Hz Hm. unfold size_t_2_rtcp_length, panic_if, is_u.
  rewrite (proj2 (Nat.ltb_ge _ _)), (proj2 (Z.ltb_ge _ _)), Hm by lia. simpl.
  rewrite (wrap_u_small 16 (Z.of_nat n)), wrap_u_small by (unfold is_u; zlia).
  split; [done|zlia].
Qed.

Lemma mod4_add (a b : nat) :
  (a mod 4 = 0)%nat -> (b mod 4 = 0)%nat -> ((a + b) mod 4 = 0)%nat.
Proof. intros Ha Hb. by rewrite <- Nat.Div0.add_mod_idemp_l, Ha. Qed.

Lemma padding_len_spec size min :
  ((size + padding_len size min) mod 4 = 0 /\ min <= padding_len size min < min + 4)%nat.
Proof.
  unfold padding_len. change 0x03 with (Z.ones 2). rewrite Z.land_ones by lia.
  change (2 ^ 2) with 4. pose proof (Z.mod_pos_bound (Z.of_nat (size + min)) 4 ltac:(lia)).
  split; [|case_if; lia].
  apply Nat2Z.inj. rewrite Nat2Z.inj_mod. case_if; zlia.
Qed.

(** Only the size modulo 4 matters. *)
Lemma padding_len_shift a b min :
  (a mod 4 = 0)%nat -> padding_len (a + b) min = padding_len b min.
Proof.
  intros Ha. unfold padding_len. change 0x03 with (Z.ones 2). rewrite !Z.land_ones by lia.
  change (2 ^ 2) with 4.
  replace (Z.of_nat (a + b + min) mod 4) with (Z.of_nat (b + min) mod 4); [done|].
  pose proof (Nat.Div0.div_mod a 4) as Hd. rewrite Ha in Hd. zlia.
Qed.

Lemma slice_of_app_r m d n k (A B : bytes) :
  slice_of m d n = A -> slice_of m (d + n) k = B -> slice_of m d (n + k) = A ++ B.
Proof.
  intros <- <-. unfold slice_of. rewrite <- take_take_drop, drop_drop. done.
Qed.

Lemma forallb_byte bs : forallb (fun b => bool_decide (is_byte b)) bs = true -> Forall is_byte bs.
Proof.
  intros H. apply Forall_forall. intros x Hx. rewrite forallb_forall in H.
  specialize (H x (proj1 (list_elem_of_In _ _) Hx)). by apply bool_decide_eq_true_1 in H.
Qed.

Lemma bytes_of_len_inv n bs : bytes_of_len n bs = true -> length bs = n /\ Forall is_byte bs.
Proof.
  unfold bytes_of_len. intros H. apply andb_true_iff in H as [Hl Hb].
  split; [by apply Nat.eqb_eq|by apply forallb_byte].
Qed.

Lemma is_text_inv text :
  is_text text = true ->
  (length text <= 255)%nat /\ Forall is_byte text /\ Forall (fun c => c <> 0) text.
Proof.
  unfold is_text. intros H. apply andb_true_iff in H as [Hl Hb].
  split; [by apply Nat.leb_le|]. rewrite <- Forall_and. apply Forall_forall. intros x Hx.
  rewrite forallb_forall in Hb. specialize (Hb x (proj1 (list_elem_of_In _ _) Hx)).
  apply andb_true_iff in Hb as [Hb Hn]. apply bool_decide_eq_true_1 in Hb. split; [done|].
  by apply negb_true_iff, Z.eqb_neq in Hn.
Qed.

Lemma forallb_elem {A} (f : A -> bool) l x : forallb f l = true -> x ∈ l -> f x = true.
Proof. intros H Hx. rewrite forallb_forall in H. by apply H, list_elem_of_In. Qed.

(** * Writes of header objects *)

(** A write that covers the previous one. *)
Lemma overwrite_same_size m p bs bs' :
  (p + length bs <= length m)%nat -> length bs' = length bs ->
  overwrite (overwrite m p bs) p bs' = overwrite m p bs'.
Proof.
  intros H E. rewrite overwrite_overwrite_0 by lia. f_equal.
  unfold overwrite. simpl. rewrite drop_ge by lia. by rewrite app_nil_r.
Qed.

Lemma store_zero e n m p : store e n m p 0 = overwrite m p (replicate n 0).
Proof.
  assert (le_bytes n 0 = replicate n 0) as H.
  { induction n as [|n IH]; [done|]. simpl. f_equal. exact IH. }
  unfold store. destruct e; rewrite ?H; try done. unfold be_bytes. rewrite H.
  by rewrite reverse_replicate.
Qed.

Lemma overwrite_next m p bs k bs' :
  length bs = k -> (p + k + length bs' <= length m)%nat ->
  overwrite (overwrite m p bs) (p + k) bs' = overwrite m p (bs ++ bs').
Proof. intros <- H. by apply overwrite_app. Qed.

Lemma ph_reset_eq e m p t :
  (p + 4 <= length m)%nat -> t = 0 \/ RTCP_SR <= t <= RTCP_XR ->
  ph_reset e m p t = Ok (overwrite m p (new_header t)).
Proof.
  intros Hp Ht. unfold ph_reset. rewrite store_zero. cbn [replicate].
  rewrite (overwrite_next m p [0]) by (simpl; lia).
  rewrite (overwrite_next m p) by (simpl; lia). cbn [app].
  unfold ph_set_version, ph_count_. rewrite lookup_total_overwrite_0 by (simpl; lia).
  cbn [lookup_total list_lookup_total].
  change (set_bit_field 8 0 RTCP_V2 6 0x03) with 0x80.
  change (Z.land RTCP_V2 3 =? RTCP_V2) with true. cbn [negb panic_if res_bind].
  rewrite overwrite_overwrite_0 by (simpl; lia).
  change (overwrite [0; 0; 0; 0] 0 [0x80]) with [0x80; 0; 0; 0].
  unfold ph_set_type. rewrite (proj2 (negb_false_iff _)).
  - cbn [panic_if]. rewrite overwrite_overwrite by (simpl; lia). done.
  - unfold RTCP_SR, RTCP_XR in *. apply orb_true_iff. rewrite andb_true_iff. lia.
Qed.

Lemma ssrc_write_eq e m p s :
  (p + 4 <= length m)%nat -> is_u 32 s ->
  store e 4 (store e 4 m p 0) p (hton32u e s) = overwrite m p (be_bytes 4 s).
Proof.
  intros Hp Hs. rewrite store_zero. unfold hton32u. rewrite store32_net by done.
  apply overwrite_same_size; rewrite ?length_be_bytes, length_replicate; done || lia.
Qed.

Lemma u8_of_nat (n : nat) : (n <= 255)%nat -> u8 (Z.of_nat n) = Z.of_nat n.
Proof. intros. apply wrap_u_small. unfold is_u. lia. Qed.

Lemma sdes_item_write_eq m p type text :
  (p + (2 + length text) <= length m)%nat -> is_byte type -> (length text <= 255)%nat ->
  (let* m := sdi_set_text_len (sdi_set_type (sdi_reset m p) p type) p (length text) in
   Ok (overwrite m (sdi_text p) text))
  = Ok (overwrite m p (enc_item (type, text))).
Proof.
  intros Hp Ht Hl. unfold sdi_set_text_len, sdi_set_type, sdi_reset, sdi_text, panic_if.
  unfold MaxTextLen, sizeof_SdesItemHeader. rewrite (proj2 (Nat.ltb_ge _ _)) by lia. cbn [res_bind].
  rewrite (overwrite_comm m (p + 1) [0] p [0]) by (simpl; lia).
  rewrite (overwrite_next m p [0]) by (simpl; lia). cbn [app].
  rewrite (overwrite_overwrite_0 m p) by (simpl; lia).
  rewrite (overwrite_overwrite m p) by (rewrite ?length_overwrite; simpl; lia).
  rewrite overwrite_next by (rewrite ?length_overwrite; simpl; lia).
  rewrite u8_of_nat, (wrap_u_small 8 type) by done. done.
Qed.

Lemma bye_reason_write_eq m p text :
  (p + length (enc_reason (Some text)) <= length m)%nat -> (length text <= 255)%nat ->
  (let* m := byr_set_text_len (byr_reset m p) p (length text) in
   let m := overwrite m (byr_text p) text in
   Ok (overwrite m (byr_text p + length text)
         (replicate (padding_len (sizeof_ByeReasonHeader + length text) 0) 0)))
  = Ok (overwrite m p (enc_reason (Some text))).
Proof.
  unfold enc_reason. rewrite !length_app, length_replicate. cbn [length]. intros Hp Hl.
  unfold byr_set_text_len, byr_reset, byr_text, panic_if, MaxTextLen, sizeof_ByeReasonHeader.
  rewrite (proj2 (Nat.ltb_ge _ _)) by lia. cbn [res_bind].
  rewrite overwrite_same_size by (simpl; lia).
  rewrite (overwrite_next m p) by (simpl; lia).
  rewrite <- Nat.add_assoc, (overwrite_next m p)
    by (rewrite ?length_replicate, ?length_app; cbn [length]; lia).
  rewrite u8_of_nat by done. by rewrite <- app_assoc.
Qed.

Section Encodes.

Context (host : cpu_endian).
(** Start of the result slice in its buffer, and size of the buffer. *)
Context (d cap : nat).

(** The finished packets [pre] and the packet being written [cur]. *)
Record wrote (b : Builder) (pre cur : bytes) : Prop := {
  w_truncated : b_truncated b = false;
  w_result : b_result b = mkSlice (Some d) (length pre) cap;
  w_slice : b_cur_pkt_slice b = mkSlice (Some (d + length pre)%nat) (length cur) cap;
  w_header : b_cur_pkt_header b = Some (d + length pre)%nat;
  w_mem : length (b_mem b) = cap;
  w_bytes : Forall is_byte (b_mem b);
  w_fits : (d + length pre + length cur <= cap)%nat;
  w_content : slice_of (b_mem b) d (length pre + length cur) = pre ++ cur;
}.

(** It did not fit: the result is what was finished before. *)
Record cut (b : Builder) : Prop := {
  cut_truncated : b_truncated b = true;
  cut_mem : length (b_mem b) = cap;
  cut_bytes : Forall is_byte (b_mem b);
  cut_result : exists n, b_result b = mkSlice (Some d) n cap /\ (d + n <= cap)%nat;
}.

(** [None]: it did not fit. *)
Definition Rep (b : Builder) (o : option (bytes * bytes)) : Prop :=
  match o with
  | None => cut b
  | Some (pre, cur) => wrote b pre cur
  end.

Lemma wrote_truncate b pre cur : wrote b pre cur -> cut (b_truncate b).
Proof.
  intros W. split; simpl; try apply W; [done|]. exists (length pre). split; [apply W|].
  pose proof (w_fits _ _ _ W). lia.
Qed.

Lemma cut_same b b' :
  b_truncated b' = b_truncated b -> b_mem b' = b_mem b -> b_result b' = b_result b -> cut b -> cut b'.
Proof. intros H1 H2 H3 C. split; rewrite ?H1, ?H2, ?H3; apply C. Qed.

(** The fields that writing does not touch. *)
Definition ctl (b : Builder) :=
  (b_state b, (b_sr_written b, b_rr_written b, b_cname_written b), b_config b,
   b_cur_xr_block_header b).

Definition fits (n : nat) : bool := (d + n <=? cap)%nat.

Lemma wrote_cur b pre cur :
  wrote b pre cur ->
  slice_of (b_mem b) d (length pre) = pre
  /\ slice_of (b_mem b) (d + length pre) (length cur) = cur.
Proof.
  intros W. apply (slice_of_split _ _ (length pre + length cur)).
  - rewrite (w_mem _ _ _ W). pose proof (w_fits _ _ _ W). lia.
  - apply (w_content _ _ _ W).
Qed.

(** Overwriting part of the current packet. *)
Lemma wrote_write b pre cur i bs :
  wrote b pre cur -> Forall is_byte bs -> (i + length bs <= length cur)%nat ->
  wrote (b_set_mem (overwrite (b_mem b) (d + length pre + i) bs) b) pre (overwrite cur i bs).
Proof.
  intros W Hb Hi. destruct (wrote_cur _ _ _ W) as [Hpre Hcur].
  pose proof (w_fits _ _ _ W). pose proof (w_mem _ _ _ W).
  split; simpl; try apply W.
  - rewrite length_overwrite by lia. apply W.
  - rewrite length_overwrite by lia. done.
  - apply overwrite_Forall; [apply W|done].
  - rewrite length_overwrite by lia. lia.
  - rewrite length_overwrite by lia. apply slice_of_app_r.
    + rewrite slice_overwrite_disjoint by lia. done.
    + rewrite slice_overwrite_inside by lia. rewrite Hcur. f_equal. lia.
Qed.

(** Appending to the current packet. *)
Lemma wrote_extend b pre cur obj :
  wrote b pre cur -> Forall is_byte obj -> (d + length pre + length cur + length obj <= cap)%nat ->
  let b' := b_set_pkt (mkSlice (Some (d + length pre)%nat) (length cur + length obj) cap)
              (b_cur_pkt_header b) b in
  wrote (copy_to obj (d + length pre + length cur) b') pre (cur ++ obj).
Proof.
  intros W Hb Hf b'. pose proof (w_mem _ _ _ W).
  assert (length (cur ++ obj) = (length cur + length obj)%nat) as Hl by apply length_app.
  split; simpl; try apply W.
  - by rewrite Hl.
  - rewrite length_overwrite by lia. done.
  - apply overwrite_Forall; [apply W|done].
  - lia.
  - rewrite Hl, Nat.add_assoc, app_assoc. apply slice_of_app_r.
    + rewrite slice_overwrite_disjoint by lia. apply W.
    + rewrite Nat.add_assoc. apply slice_overwrite_same. lia.
Qed.

(** * Packet primitives *)

(** Case analysis on [add_block]. *)
Lemma add_block_cases b o size :
  Rep b o -> (0 < size)%nat ->
  (exists b', add_block size b = Ok (None, b') /\ Rep b' None /\ ctl b' = ctl b
     /\ forall pre cur, o = Some (pre, cur) -> fits (length pre + length cur + size) = false)
  \/ exists pre cur b', o = Some (pre, cur)
     /\ fits (length pre + length cur + size) = true
     /\ add_block size b = Ok (Some (d + length pre + length cur)%nat, b')
     /\ ctl b' = ctl b /\ (d + length pre + length cur + size <= length (b_mem b'))%nat
     /\ forall obj, length obj = size -> Forall is_byte obj ->
          wrote (copy_to obj (d + length pre + length cur) b') pre (cur ++ obj).
Proof.
  intros HR Hs. destruct o as [[pre cur]|]; simpl in HR.
  - unfold add_block. rewrite (w_truncated _ _ _ HR), (w_slice _ _ _ HR).
    unfold slice_capacity. cbn [sl_data sl_size sl_buf_size].
    pose proof (w_fits _ _ _ HR) as Hf. destruct (fits (length pre + length cur + size)) eqn:E.
    + right. pose proof E as Hle. apply Nat.leb_le in Hle. rewrite (proj2 (Nat.ltb_ge _ _)) by lia.
      unfold slice_extend, panic_if. simpl. rewrite (proj2 (Nat.eqb_neq _ _)) by lia.
      rewrite slice_reslice_ok by lia. simpl.
      exists pre, cur. eexists. split_and!; try done.
      * simpl. rewrite (w_mem _ _ _ HR). lia.
      * intros obj <- Hobj. rewrite Nat.add_0_r, Nat.sub_0_r. apply wrote_extend; done || lia.
    + left. pose proof E as Hle. apply Nat.leb_gt in Hle. rewrite (proj2 (Nat.ltb_lt _ _)) by lia.
      eexists. split_and!; try done; [by eapply wrote_truncate|]. by intros ? ? [= <- <-].
  - left. unfold add_block. rewrite (cut_truncated _ HR). exists b. split_and!; done.
Qed.

(** The packet being built after the finished ones, whatever its length field: header
    with counter [n] and type [t], and [body]. *)
Definition InPkt (b : Builder) (out : option bytes) (t : Z) (n : nat) (body : bytes) : Prop :=
  exists l, length l = 2%nat /\ Forall is_byte l /\
    Rep b (match out with
           | None => None
           | Some pre =>
               if fits (length pre + (4 + length body))
               then Some (pre, [0x80 + Z.of_nat n; t] ++ l ++ body) else None
           end).

Lemma in_pkt_add b out t n body obj :
  InPkt b out t n body -> (0 < length obj)%nat ->
  (exists b', add_block (length obj) b = Ok (None, b') /\ ctl b' = ctl b
     /\ b_truncated b' = true
     /\ forall n, InPkt b' out t n (body ++ obj))
  \/ exists p b', add_block (length obj) b = Ok (Some p, b') /\ ctl b' = ctl b
     /\ (p + length obj <= length (b_mem b'))%nat
     /\ (Forall is_byte obj ->
         InPkt (copy_to obj p b') out t n (body ++ obj) /\ b_truncated (copy_to obj p b') = false
         /\ exists h, b_cur_pkt_header b' = Some h /\ p = (h + 4 + length body)%nat).
Proof.
  intros (l & Hl & Hlb & HR) Ho.
  destruct (add_block_cases b _ (length obj) HR Ho)
    as [(b' & E & HR' & Hc & Hno)|(pre & cur & b' & Ho' & Hf & E & Hc & Hm & Hw)].
  - left. exists b'. split_and!; try done; [apply HR'|]. intros n'. exists l. split_and!; try done.
    destruct out as [pre|]; [|done]. case_if; [|done].
    exfalso. destruct (fits (length pre + (4 + length body))) eqn:Ef; [|].
    + specialize (Hno _ _ eq_refl).
      rewrite !length_app in Hno. simpl in Hno. rewrite Hl in Hno.
      unfold fits in *. rewrite length_app in *. nat_bools. simpl in *. lia.
    + unfold fits in *. rewrite length_app in *. nat_bools. simpl in *. lia.
  - right. eexists _, b'. split; [exact E|]. split; [done|]. split; [lia|]. intros Hobj.
    destruct out as [pre0|]; [|done]. destruct (fits (length pre0 + (4 + length body))) eqn:Ef; [|done].
    injection Ho' as -> <-. specialize (Hw obj eq_refl Hobj).
    split; [|split; [apply Hw|]].
    + exists l. split_and!; try done.
      cbn [length app] in Hf. rewrite length_app, Hl in Hf.
      assert (fits (length pre + (4 + length (body ++ obj))) = true) as ->
        by (unfold fits in *; rewrite length_app; nat_bools; apply Nat.leb_le; lia).
      simpl in *. rewrite <- app_assoc in Hw. done.
    + eexists. split; [apply (w_header _ _ _ Hw)|]. cbn [length app]. rewrite length_app, Hl. lia.
Qed.

(** Adding an object and updating the header afterwards. *)
Lemma in_pkt_add_then b out t n n' body obj k f :
  InPkt b out t n body -> (0 < length obj)%nat -> Forall is_byte obj ->
  (forall p b1, (p + length obj <= length (b_mem b1))%nat -> k p b1 = f (copy_to obj p b1)) ->
  (forall b2, InPkt b2 out t n (body ++ obj) -> b_truncated b2 = false ->
     exists b3, f b2 = Ok b3 /\ ctl b3 = ctl b2 /\ InPkt b3 out t n' (body ++ obj)) ->
  exists b', when_ptr (add_block (length obj) b) k = Ok b' /\ ctl b' = ctl b
    /\ InPkt b' out t n' (body ++ obj).
Proof.
  intros HI Ho Hb Hk Hf.
  destruct (in_pkt_add b out t n body obj HI Ho)
    as [(b' & -> & Hc & Ht & HI')|(p & b' & -> & Hc & Hm & Hw)]; simpl.
  - exists b'. auto.
  - destruct (Hw Hb) as (HI' & Ht & _). rewrite Hk by done.
    destruct (Hf _ HI' Ht) as (b3 & -> & Hc3 & HI3). exists b3. split_and!; try done.
    by rewrite Hc3.
Qed.

Lemma in_pkt_add_obj b out t n body obj k :
  InPkt b out t n body -> (0 < length obj)%nat -> Forall is_byte obj ->
  (forall p b1, (p + length obj <= length (b_mem b1))%nat -> k p b1 = Ok (copy_to obj p b1)) ->
  exists b', when_ptr (add_block (length obj) b) k = Ok b' /\ ctl b' = ctl b
    /\ InPkt b' out t n (body ++ obj).
Proof. intros. eapply (in_pkt_add_then _ _ _ _ _ _ _ _ Ok); eauto. Qed.

(** An untruncated builder inside a packet. *)
Lemma in_pkt_wrote b out t n body :
  InPkt b out t n body -> b_truncated b = false ->
  exists pre l, out = Some pre /\ length l = 2%nat /\ Forall is_byte l
    /\ fits (length pre + (4 + length body)) = true
    /\ wrote b pre ([0x80 + Z.of_nat n; t] ++ l ++ body).
Proof.
  intros (l & Hl & Hlb & HR) Ht. destruct out as [pre|]; [|destruct HR; congruence].
  destruct (fits (length pre + (4 + length body))) eqn:E; [|destruct HR; congruence].
  exists pre, l. split_and!; done.
Qed.

Lemma wrote_in_pkt b pre t n l body :
  wrote b pre ([0x80 + Z.of_nat n; t] ++ l ++ body) -> length l = 2%nat -> Forall is_byte l ->
  InPkt b (Some pre) t n body.
Proof.
  intros W Hl Hb. exists l. split_and!; try done.
  assert (fits (length pre + (4 + length body)) = true) as ->; [|done].
  pose proof (w_fits _ _ _ W) as Hf. apply Nat.leb_le. cbn [length app] in Hf.
  rewrite length_app, Hl in Hf. lia.
Qed.

Lemma header_inc b out t n body :
  InPkt b out t n body -> b_truncated b = false -> (n < 31)%nat ->
  exists b', with_header b ph_inc_counter = Ok b' /\ ctl b' = ctl b
    /\ InPkt b' out t (n + 1) body /\ b_truncated b' = false.
Proof.
  intros HI Ht Hn. destruct (in_pkt_wrote _ _ _ _ _ HI Ht) as (pre & l & -> & Hl & Hlb & Hf & W).
  unfold with_header. rewrite (w_header _ _ _ W).
  assert (b_mem b !!! (d + length pre)%nat = 0x80 + Z.of_nat n) as Hcnt.
  { destruct (wrote_cur _ _ _ W) as [_ Hcur].
    rewrite <- (Nat.add_0_r (d + length pre)).
    rewrite <- (lookup_total_slice_of _ _ (length ([0x80 + Z.of_nat n; t] ++ l ++ body)))
      by (simpl; lia).
    by rewrite Hcur. }
  unfold ph_inc_counter, ph_set_counter, ph_counter, ph_count_. rewrite Hcnt.
  destruct (counter_inc n Hn) as [-> ->]. unfold panic_if, MaxPacketBlocks.
  rewrite (proj2 (Z.ltb_ge _ _)) by lia. simpl. eexists. split; [done|]. split; [done|].
  split; [|done]. apply wrote_in_pkt with l; try done.
  pose proof (wrote_write b pre _ 0 [0x80 + Z.of_nat (n + 1)] W) as W'.
  rewrite Nat.add_0_r in W'. apply W'; [|simpl; lia].
  repeat constructor; lia.
Qed.

(** The length field. *)
Lemma header_len b out t n body size :
  InPkt b out t n body -> b_truncated b = false ->
  (4 <= size)%nat -> Z.of_nat size <= 65535 -> (size mod 4 = 0)%nat ->
  exists b' pre, with_header b (fun m h => ph_set_len_bytes host m h size) = Ok b'
    /\ ctl b' = ctl b /\ out = Some pre /\ fits (length pre + (4 + length body)) = true
    /\ wrote b' pre ([0x80 + Z.of_nat n; t] ++ enc_len size ++ body).
Proof.
  intros HI Ht H4 Hz Hm.
  destruct (in_pkt_wrote _ _ _ _ _ HI Ht) as (pre & l & -> & Hl & Hlb & Hf & W).
  unfold with_header. rewrite (w_header _ _ _ W). unfold ph_set_len_bytes.
  destruct (size_to_length size H4 Hz Hm) as [-> Hu]. simpl.
  unfold ph_set_len_words, hton16u. rewrite store16_net by done.
  eexists _, pre. split_and!; try done.
  pose proof (wrote_write b pre _ 2 (enc_len size) W) as W'.
  destruct l as [|l1 [|l2 [|]]]; try discriminate Hl.
  unfold enc_len in *. cbv [overwrite] in W'. cbn [app take length drop] in W'.
  rewrite length_be_bytes in W'. cbn [Nat.add drop] in W'.
  apply W'; [apply be_bytes_Forall|simpl; lia].
Qed.

Lemma in_pkt_size b out t n body :
  InPkt b out t n body -> b_truncated b = false ->
  sl_size (b_cur_pkt_slice b) = (4 + length body)%nat.
Proof.
  intros HI Ht. destruct (in_pkt_wrote _ _ _ _ _ HI Ht) as (pre & l & -> & Hl & Hlb & Hf & W).
  rewrite (w_slice _ _ _ W). cbn [sl_size]. rewrite !length_app, Hl. done.
Qed.

(** * Finished packets *)

(** The finished packets; the last one apart, for its header is still reachable. *)
Definition Top (b : Builder) (o : option (bytes * bytes)) : Prop :=
  match o with
  | None => cut b
  | Some (pre, last) =>
      b_truncated b = false
      /\ b_result b = mkSlice (Some d) (length pre + length last) cap
      /\ length (b_mem b) = cap /\ Forall is_byte (b_mem b)
      /\ (d + length pre + length last <= cap)%nat
      /\ slice_of (b_mem b) d (length pre + length last) = pre ++ last
      /\ (last <> [] -> b_cur_pkt_header b = Some (d + length pre)%nat)
  end.

Definition flat (o : option (bytes * bytes)) : option bytes :=
  match o with None => None | Some (pre, last) => Some (pre ++ last) end.

(** The next packet, if it fits. *)
Definition next_pkt (out : option bytes) (pkt : bytes) : option (bytes * bytes) :=
  match out with
  | None => None
  | Some pre => if fits (length pre + length pkt) then Some (pre, pkt) else None
  end.

Lemma top_begin b o t l body k size :
  Top b o -> length l = 2%nat -> Forall is_byte l -> Forall is_byte body -> is_byte t ->
  size = (4 + length body)%nat ->
  (forall p b1, (p + size <= length (b_mem b1))%nat ->
     k p b1 = Ok (copy_to ([0x80; t] ++ l ++ body) p b1)) ->
  exists b', when_ptr (begin_packet size b) k = Ok b' /\ ctl b' = ctl b
    /\ InPkt b' (flat o) t 0 body.
Proof.
  intros HT Hl Hlb Hb Hbt -> Hk. unfold begin_packet, panic_if.
  change (4 + length body <? sizeof_PacketHeader)%nat with (4 + length body <? 4)%nat.
  rewrite (proj2 (Nat.ltb_ge _ _)) by lia.
  destruct o as [[pre last]|]; simpl in HT.
  - destruct HT as (Ht & Hr & Hm & Hmb & Hf & Hc & _). rewrite Ht, Hr. cbn [sl_size].
    rewrite slice_subslice_ok by lia. cbn [res_bind]. rewrite Nat.sub_diag.
    unfold slice_capacity. cbn [sl_data sl_buf_size sl_size].
    assert (length (pre ++ last) = (length pre + length last)%nat) as Hpl by apply length_app.
    destruct (fits (length (pre ++ last) + (4 + length body))) eqn:E.
    + pose proof E as Hle. apply Nat.leb_le in Hle. rewrite (proj2 (Nat.ltb_ge _ _)) by lia.
      unfold slice_extend, panic_if. cbn [sl_data sl_size].
      rewrite (proj2 (Nat.eqb_neq _ _)) by lia. rewrite slice_reslice_ok by lia.
      cbn [res_bind when_ptr]. unfold when_ptr. cbn [res_bind]. rewrite Hk by (simpl; lia).
      eexists. split; [done|]. split; [done|]. apply wrote_in_pkt with l; try done.
      set (obj := [0x80 + Z.of_nat 0; t] ++ l ++ body).
      assert (length obj = 4 + length body)%nat as Hlo
        by (subst obj; cbn [length app]; rewrite length_app, Hl; lia).
      assert (Forall is_byte obj) as Hob
        by (apply Forall_cons_2; [by vm_compute|apply Forall_cons_2; [done|by apply Forall_app]]).
      change ([0x80; t] ++ l ++ body) with obj. clearbody obj.
      split; simpl; rewrite ?Hpl, ?Hlo, ?Nat.add_0_r; try done.
      * rewrite length_overwrite; done || lia.
      * by apply overwrite_Forall.
      * lia.
      * rewrite <- Hlo. apply slice_of_app_r.
        -- rewrite slice_overwrite_disjoint by lia. done.
        -- apply slice_overwrite_same. lia.
    + pose proof E as Hle. apply Nat.leb_gt in Hle. rewrite (proj2 (Nat.ltb_lt _ _)) by lia.
      eexists. split; [done|]. split; [done|]. exists l. split_and!; try done.
      cbn [flat]. rewrite E. split; simpl; try done. eexists. split; [done|lia].
  - rewrite (cut_truncated _ HT). exists b. split; [done|]. split; [done|]. by exists l.
Qed.

(** Starting with a new header object that is followed by [body]. *)
Lemma top_begin_copy b o t body size :
  Top b o -> Forall is_byte body -> is_byte t -> (4 + length body)%nat = size ->
  exists b', when_ptr (begin_packet size b) (fun p b => Ok (copy_to (new_header t ++ body) p b)) = Ok b'
    /\ ctl b' = ctl b /\ InPkt b' (flat o) t 0 body.
Proof. intros. apply top_begin with [0; 0]; try done. by repeat constructor. Qed.

Lemma in_pkt_end b out t n body :
  InPkt b out t n body -> ((4 + length body) mod 4 = 0)%nat -> Z.of_nat (4 + length body) <= 65535 ->
  exists b', end_packet host b = Ok b' /\ ctl b' = ctl b
    /\ Top b' (next_pkt out ([0x80 + Z.of_nat n; t] ++ enc_len (4 + length body) ++ body)).
Proof.
  intros HI Hm Hz. unfold end_packet.
  assert (length ([0x80 + Z.of_nat n; t] ++ enc_len (4 + length body) ++ body)
    = (4 + length body)%nat) as Hl
    by (rewrite !length_app; unfold enc_len; rewrite length_be_bytes; done).
  destruct (b_truncated b) eqn:Ht.
  - exists b. split; [done|]. split; [done|]. destruct HI as (l & ? & ? & HR).
    destruct out as [pre|]; [|done]. unfold next_pkt. rewrite Hl. cbn [Rep] in HR.
    destruct (fits _); [|done]. simpl in HR. pose proof (w_truncated _ _ _ HR). congruence.
  - rewrite (in_pkt_size _ _ _ _ _ HI Ht), Hm. simpl negb. unfold panic_if.
    rewrite (proj2 (Nat.ltb_ge _ _)) by (unfold sizeof_PacketHeader; lia). cbn [orb].
    destruct (header_len b out t n body (4 + length body) HI Ht ltac:(lia) Hz Hm)
      as (b' & pre & -> & Hc & -> & Hf & W).
    cbn [res_bind]. rewrite (w_result _ _ _ W). unfold slice_extend, panic_if. cbn [sl_data sl_size].
    rewrite (proj2 (Nat.eqb_neq _ _)) by lia. pose proof Hf as Hle. apply Nat.leb_le in Hle.
    rewrite slice_reslice_ok by lia. cbn [res_bind].
    eexists. split; [done|]. split; [done|]. unfold next_pkt. rewrite Hl, Hf.
    set (pkt := _ ++ _ ++ _) in *.
    assert (length pkt = 4 + length body)%nat as Hl' by done.
    pose proof (w_content _ _ _ W). clearbody pkt.
    simpl. rewrite Hl' in *. split_and!; try apply W; try done.
    + rewrite Nat.add_0_r. f_equal. lia.
    + lia.
    + intros _. apply W.
Qed.

(** * Control fields *)

(** Only the control fields changed. *)
Definition same_data (b b' : Builder) : Prop :=
  b_mem b' = b_mem b /\ b_result b' = b_result b /\ b_cur_pkt_slice b' = b_cur_pkt_slice b
  /\ b_cur_pkt_header b' = b_cur_pkt_header b /\ b_truncated b' = b_truncated b.

Lemma wrote_same b b' pre cur : same_data b b' -> wrote b pre cur -> wrote b' pre cur.
Proof.
  intros (E1 & E2 & E3 & E4 & E5) W.
  split; rewrite ?E1, ?E2, ?E3, ?E4, ?E5; apply W.
Qed.

Lemma in_pkt_same b b' out t n body :
  same_data b b' -> InPkt b out t n body -> InPkt b' out t n body.
Proof.
  intros Hs (l & Hl & Hb & HR). exists l. split_and!; try done.
  assert (forall o, Rep b o -> Rep b' o) as H; [|by apply H].
  intros [[pre cur]|]; [by apply wrote_same|].
  destruct Hs as (E1 & E2 & _ & _ & E5). by apply cut_same.
Qed.

Lemma top_same b b' o : same_data b b' -> Top b o -> Top b' o.
Proof.
  intros (E1 & E2 & E3 & E4 & E5). destruct o as [[pre last]|]; simpl;
    [by rewrite E1, E2, E4, E5|by apply cut_same].
Qed.

Lemma ctl_inv b b' :
  ctl b' = ctl b ->
  b_state b' = b_state b /\ b_sr_written b' = b_sr_written b /\ b_rr_written b' = b_rr_written b
  /\ b_cname_written b' = b_cname_written b /\ b_config b' = b_config b
  /\ b_cur_xr_block_header b' = b_cur_xr_block_header b.
Proof. unfold ctl. intros H. by simplify_eq. Qed.

(** Once the packet did not fit, nothing more fits. *)
Lemma in_pkt_truncated b out t n body n' obj :
  InPkt b out t n body -> b_truncated b = true -> InPkt b out t n' (body ++ obj).
Proof.
  intros (l & Hl & Hb & HR) Ht. exists l. split_and!; try done.
  destruct out as [pre|]; [|done].
  destruct (fits (length pre + (4 + length body))) eqn:Hf;
    [pose proof (w_truncated _ _ _ HR); congruence|].
  assert (fits (length pre + (4 + length (body ++ obj))) = false) as ->; [|done].
  apply Nat.leb_gt in Hf. apply Nat.leb_gt. rewrite length_app. lia.
Qed.

Lemma in_pkt_truncated_inv b b' out t n body t' n' obj :
  InPkt b out t n body -> InPkt b' out t' n' (body ++ obj) ->
  b_truncated b' = false -> b_truncated b = false.
Proof.
  intros HI HI' Ht. destruct (b_truncated b) eqn:E; [|done].
  destruct (in_pkt_truncated b out t n body n obj HI E) as (l & _ & _ & HR).
  destruct (in_pkt_wrote _ _ _ _ _ HI' Ht) as (pre & l' & -> & _ & _ & Hf & _).
  rewrite Hf in HR. pose proof (w_truncated _ _ _ HR). congruence.
Qed.

Lemma in_state_ok {A} l b (k : res A) : b_state b ∈ l -> in_state l b k = k.
Proof. intros H. unfold in_state, panic_if. by rewrite bool_decide_true. Qed.

(** A sequence of calls that each append to the packet and add [k] to the counter. *)
Lemma each_in_pkt {A} (f : A -> Builder -> res Builder) (enc : A -> bytes) (k : nat)
    (S : Builder -> bytes -> Prop) out t l :
  (forall x b n body, x ∈ l -> InPkt b out t n body -> S b body -> (n + k <= 31)%nat ->
     Z.of_nat (4 + length (body ++ enc x)) <= 65535 ->
     exists b', f x b = Ok b' /\ InPkt b' out t (n + k) (body ++ enc x) /\ S b' (body ++ enc x)) ->
  forall b n body, InPkt b out t n body -> S b body -> (n + k * length l <= 31)%nat ->
    Z.of_nat (4 + length (body ++ concat (map enc l))) <= 65535 ->
    exists b', each f l b = Ok b' /\ InPkt b' out t (n + k * length l) (body ++ concat (map enc l))
      /\ S b' (body ++ concat (map enc l)).
Proof.
  induction l as [|x l IH]; intros Hf b n body HI HS Hn Hz; simpl.
  - exists b. rewrite app_nil_r, Nat.mul_0_r, Nat.add_0_r. done.
  - simpl in Hz, Hn. rewrite !length_app in Hz.
    destruct (Hf x b n body) as (b1 & -> & HI1 & HS1); try done; [left|lia|rewrite length_app; lia|].
    simpl. rewrite app_assoc. replace (n + k * Datatypes.S (length l))%nat with (n + k + k * length l)%nat by lia.
    apply IH; try done; [|lia|rewrite !length_app; lia].
    intros. apply Hf; try done. by right.
Qed.

(** * Reports *)

Lemma add_report_ok report b out t n body :
  InPkt b out t n body -> bytes_of_len 24 report = true -> (n + 1 <= 31)%nat ->
  (length body mod 4 = 0)%nat -> Z.of_nat (4 + length (body ++ report)) <= 65535 ->
  exists b', add_report host report b = Ok b' /\ ctl b' = ctl b
    /\ InPkt b' out t (n + 1) (body ++ report).
Proof.
  intros HI Hr Hn Hm Hz. destruct (bytes_of_len_inv _ _ Hr) as [Hl Hb].
  unfold add_report, sizeof_ReceptionReportBlock. rewrite <- Hl.
  eapply (in_pkt_add_then _ _ _ _ _ _ _ _ (fun b =>
    let* b := with_header b (fun m h => ph_set_len_bytes host m h (sl_size (b_cur_pkt_slice b))) in
    with_header b ph_inc_counter)); try done; [lia|].
  intros b2 HI2 Ht. cbv beta. rewrite (in_pkt_size _ _ _ _ _ HI2 Ht).
  destruct (header_len b2 out t n (body ++ report) (4 + length (body ++ report)))
    as (b3 & pre & -> & Hc3 & -> & Hf & W); try done; [lia| |].
  { apply mod4_add; [done|]. rewrite length_app, Hl. by apply mod4_add. }
  simpl. destruct (header_inc b3 (Some pre) t n (body ++ report)) as (b4 & -> & Hc4 & HI4 & _).
  { apply wrote_in_pkt with (enc_len (4 + length (body ++ report))); try done.
    apply be_bytes_Forall. }
  { apply W. }
  { lia. }
  exists b4. split; [done|]. split; [congruence|done].
Qed.

(** * Packets *)

Definition has_chunks (p : rtcp_pkt) : bool :=
  match p with PktSdes (_ :: _) => true | _ => false end.

(** The state of the builder after the packet [p]. *)
Definition after_pkt (b b' : Builder) (o : option (bytes * bytes)) (p : rtcp_pkt) : Prop :=
  Top b' (next_pkt (flat o) (enc_pkt p 0)) /\ b_state b' = TOP /\ b_config b' = b_config b
  /\ report_missing b' = false
  /\ ((b_cname_written b || has_chunks p) = true -> b_cname_written b' = true).

Lemma sized_pkt p t n body b out :
  pkt_type p = t -> pkt_count p = n -> pkt_body p = body ->
  InPkt b out t n body -> Z.of_nat (pkt_size p 0) <= 65535 -> (length body mod 4 = 0)%nat ->
  exists b', end_packet host b = Ok b' /\ ctl b' = ctl b /\ Top b' (next_pkt out (enc_pkt p 0)).
Proof.
  intros <- <- <- HI Hz Hm. unfold pkt_size in Hz. rewrite Nat.add_0_r in Hz.
  destruct (in_pkt_end _ _ _ _ _ HI) as (b' & -> & Hc & HT); [|done|].
  { by apply mod4_add. }
  exists b'. split_and!; try done. unfold enc_pkt, pkt_size, enc_padding.
  rewrite Nat.add_0_r, Z.add_0_r, app_nil_r. done.
Qed.

Lemma each_reports step (st : list BuilderState) out t l :
  (forall r b, step r b = in_state st b (add_report host r (b_set_state (nth 1 st TOP) b))) ->
  nth 1 st TOP ∈ st -> forallb (bytes_of_len 24) l = true ->
  forall b body, InPkt b out t 0 body -> b_state b ∈ st -> (length body mod 4 = 0)%nat ->
    (length l <= 31)%nat -> Z.of_nat (4 + length (body ++ concat l)) <= 65535 ->
    exists b', each step l b = Ok b' /\ InPkt b' out t (length l) (body ++ concat l)
      /\ b_state b' ∈ st /\ (length (body ++ concat l) mod 4 = 0)%nat
      /\ (b_config b', b_sr_written b', b_rr_written b', b_cname_written b')
         = (b_config b, b_sr_written b, b_rr_written b, b_cname_written b).
Proof.
  intros Hstep Hst Hl b body HI Hs Hm Hn Hz.
  pose proof (each_in_pkt step id 1 (fun b' body => b_state b' ∈ st /\ (length body mod 4 = 0)%nat
    /\ (b_config b', b_sr_written b', b_rr_written b', b_cname_written b')
         = (b_config b, b_sr_written b, b_rr_written b, b_cname_written b)) out t l) as H.
  rewrite map_id in H. rewrite Nat.mul_1_l in H.
  refine (H _ b 0%nat body HI _ _ Hz); clear H; [|done|lia].
  intros r b0 n body0 Hr HI0 (Hs0 & Hm0 & Hfl) Hn0 Hz0. rewrite Hstep, in_state_ok by done.
  pose proof (forallb_elem _ _ _ Hl Hr) as Hlr.
  destruct (add_report_ok r (b_set_state (nth 1 st TOP) b0) out t n body0) as (b1 & -> & Hc & HI1);
    try done.
  { by apply in_pkt_same with b0. }
  exists b1. apply ctl_inv in Hc as (E1 & E2 & E3 & E4 & E5 & _).
  simpl in E1, E2, E3, E4, E5. split; [done|]. split; [done|]. rewrite E1, E2, E3, E4, E5. split_and!; try done.
  destruct (bytes_of_len_inv _ _ Hlr) as [Hl' _]. unfold id.
  rewrite length_app, Hl'. by apply mod4_add.
Qed.

Lemma concat_len_mod4 (l : list bytes) n :
  Forall (fun x => (length x mod 4 = 0)%nat) l -> (n mod 4 = 0)%nat ->
  ((n + length (concat l)) mod 4 = 0)%nat.
Proof.
  intros H. revert n. induction H as [|x l Hx _ IH]; intros n Hn; simpl.
  - by rewrite Nat.add_0_r.
  - rewrite length_app, Nat.add_assoc. apply IH.
    by apply mod4_add.
Qed.

Definition flags (b : Builder) :=
  (b_config b, b_sr_written b, b_rr_written b, b_cname_written b).

(** SR and RR packets, from the state and flags their [begin] method sets. *)
Lemma report_pkt_ok p step st0 st1 size body reports b o :
  Top b o -> b_state b = st0 -> is_byte (pkt_type p) ->
  pkt_count p = length reports -> pkt_body p = body ++ concat reports ->
  (forall r b, step r b = in_state [st0; st1] b (add_report host r (b_set_state st1 b))) ->
  Forall is_byte body -> (4 + length body)%nat = size -> (length body mod 4 = 0)%nat ->
  forallb (bytes_of_len 24) reports = true -> (pkt_count p <= 31)%nat ->
  Z.of_nat (pkt_size p 0) <= 65535 ->
  exists b',
    (let* b := when_ptr (begin_packet size b)
                 (fun q b => Ok (copy_to (new_header (pkt_type p) ++ body) q b)) in
     let* b := each step reports b in
     in_state [st0; st1] b (end_packet host (b_set_state TOP b))) = Ok b'
    /\ Top b' (next_pkt (flat o) (enc_pkt p 0)) /\ b_state b' = TOP /\ flags b' = flags b.
Proof.
  intros HT Hs Ht Hcnt Hbody Hstep Hb Hsz Hm Hr Hn Hz.
  destruct (top_begin_copy b o (pkt_type p) body size) as (b1 & -> & Hc & HI); try done.
  cbn [res_bind]. apply ctl_inv in Hc as (E1 & E2 & E3 & E4 & E5 & _).
  destruct (each_reports step [st0; st1] (flat o) (pkt_type p) reports)
    with (b := b1) (body := body) as (b2 & -> & HI2 & Hs2 & Hm2 & Hfl); try done.
  { right. left. }
  { rewrite E1, Hs. left. }
  { lia. }
  { unfold pkt_size in Hz. rewrite Hbody in Hz. lia. }
  cbn [res_bind]. rewrite in_state_ok by done.
  destruct (sized_pkt p (pkt_type p) (length reports) (body ++ concat reports)
    (b_set_state TOP b2) (flat o)) as (b3 & -> & Hc3 & HT3); try done.
  { by apply in_pkt_same with b2. }
  exists b3. apply ctl_inv in Hc3 as (F1 & F2 & F3 & F4 & F5 & _). simpl in F1, F2, F3, F4, F5.
  unfold flags. rewrite F2, F3, F4, F5, Hfl, E2, E3, E4, E5. done.
Qed.

Lemma build_sr_ok body reports b o :
  Top b o -> b_state b = TOP -> enable_sr_rr (b_config b) = true ->
  valid_pkt (PktSr body reports) = true ->
  exists b', build_pkt host (PktSr body reports) b = Ok b' /\ after_pkt b b' o (PktSr body reports).
Proof.
  intros HT Hs He HV. unfold valid_pkt in HV. reflect_bools. nat_bools.
  destruct (bytes_of_len_inv 24 body) as [Hl Hb]; [done|].
  unfold build_pkt, begin_sr. rewrite in_state_ok by (rewrite Hs; left).
  rewrite He. cbn [negb panic_if].
  edestruct (report_pkt_ok (PktSr body reports) (add_sr_report host) SR_HEAD SR_REPORT
    sizeof_SenderReportPacket body reports) with (o := o) as (b' & E & HT' & Hs' & Hfl);
    cycle -1; [rewrite E|first [done|by apply (top_same b)|by rewrite Hl]..].
  exists b'. split; [done|]. unfold flags in Hfl. simpl in Hfl. injection Hfl as F1 F2 F3 F4.
  unfold after_pkt, report_missing. rewrite F1, F2, F4, andb_false_r, orb_false_r. done.
Qed.

Lemma build_rr_ok body reports b o :
  Top b o -> b_state b = TOP -> enable_sr_rr (b_config b) = true ->
  valid_pkt (PktRr body reports) = true ->
  exists b', build_pkt host (PktRr body reports) b = Ok b' /\ after_pkt b b' o (PktRr body reports).
Proof.
  intros HT Hs He HV. unfold valid_pkt in HV. reflect_bools. nat_bools.
  destruct (bytes_of_len_inv 4 body) as [Hl Hb]; [done|].
  unfold build_pkt, begin_rr. rewrite in_state_ok by (rewrite Hs; left).
  rewrite He. cbn [negb panic_if].
  edestruct (report_pkt_ok (PktRr body reports) (add_rr_report host) RR_HEAD RR_REPORT
    sizeof_ReceiverReportPacket body reports) with (o := o) as (b' & E & HT' & Hs' & Hfl);
    cycle -1; [rewrite E|first [done|by apply (top_same b)|by rewrite Hl]..].
  exists b'. split; [done|]. unfold flags in Hfl. simpl in Hfl. injection Hfl as F1 F2 F3 F4.
  unfold after_pkt, report_missing. rewrite F1, F3, F4, andb_false_r, orb_false_r. done.
Qed.

(** * XR *)

(** The state and flags between the blocks of an XR packet. *)
Definition in_xr (fl : BuilderConfig * bool * bool * bool) (b : Builder) (body : bytes) : Prop :=
  b_state b = XR_HEAD /\ flags b = fl /\ (length body mod 4 = 0)%nat.

Lemma xb_set_len_eq m p size :
  (4 <= size)%nat -> Z.of_nat size <= 65535 -> (size mod 4 = 0)%nat ->
  xb_set_len_bytes host m p size = Ok (overwrite m (p + 2) (enc_len size)).
Proof.
  intros H4 Hz Hm. unfold xb_set_len_bytes, xb_set_len_words, hton16u.
  destruct (size_to_length size H4 Hz Hm) as [-> Hu]. simpl. by rewrite store16_net.
Qed.

Lemma flags_ctl b b' : ctl b' = ctl b -> flags b' = flags b.
Proof. intros H. apply ctl_inv in H as (_ & E2 & E3 & E4 & E5 & _). unfold flags. congruence. Qed.

Lemma add_xr_block_ok t ts bd size b out n body fl :
  InPkt b out RTCP_XR n body -> in_xr fl b body -> is_byte t -> is_byte ts -> Forall is_byte bd ->
  (4 + length bd)%nat = size -> (length bd mod 4 = 0)%nat -> Z.of_nat size <= 65535 ->
  exists b', add_xr_block host size (new_block t ts ++ bd) b = Ok b'
    /\ InPkt b' out RTCP_XR n (body ++ [t; ts] ++ enc_len size ++ bd)
    /\ in_xr fl b' (body ++ [t; ts] ++ enc_len size ++ bd).
Proof.
  intros HI (Hs & Hfl & Hm) Ht Hts Hb <- Hbd Hz. unfold add_xr_block.
  rewrite in_state_ok by (rewrite Hs; left).
  set (obj := [t; ts] ++ enc_len (4 + length bd) ++ bd).
  assert (length obj = (4 + length bd)%nat) as Hl
    by (subst obj; rewrite !length_app; unfold enc_len; rewrite length_be_bytes; done).
  assert (Forall is_byte obj) as Hob.
  { apply Forall_cons_2; [done|]. apply Forall_cons_2; [done|].
    apply Forall_app. split; [apply be_bytes_Forall|done]. }
  assert (length (body ++ obj) mod 4 = 0)%nat as Hm'.
  { rewrite length_app, Hl. apply mod4_add; [done|]. by apply mod4_add. }
  replace (add_block (4 + length bd) b) with (add_block (length obj) b) by (by rewrite Hl).
  destruct (in_pkt_add b out RTCP_XR n body obj HI)
    as [(b1 & -> & Hc & Ht1 & HI1)|(p & b1 & -> & Hc & Hmem & Hw)]; [lia| |]; cbn [when_ptr res_bind];
    unfold when_ptr; cbn [res_bind].
  - exists b1. split; [done|]. split; [done|]. split_and!; try done.
    + apply ctl_inv in Hc as (-> & _). done.
    + by rewrite (flags_ctl _ _ Hc).
  - destruct (Hw Hob) as (HI1 & _ & _). unfold with_xr_block. cbn [b_cur_xr_block_header b_set_xr_block].
    rewrite xb_set_len_eq by (lia || by apply mod4_add).
    cbn [res_bind b_mem b_set_xr_block copy_to b_set_mem].
    rewrite overwrite_overwrite
      by (rewrite ?length_app; unfold new_block, enc_len; rewrite ?length_be_bytes; simpl; lia).
    assert (overwrite (new_block t ts ++ bd) 2 (enc_len (4 + length bd)) = obj) as ->.
    { unfold overwrite, enc_len. rewrite length_be_bytes. done. }
    eexists. split; [done|]. split; [by apply in_pkt_same with (copy_to obj p b1)|].
    split_and!; try done.
    + apply ctl_inv in Hc as (Hs1 & _). simpl. by rewrite Hs1.
    + rewrite <- Hfl, <- (flags_ctl _ _ Hc). done.
Qed.

(** Within a DLRR block that starts after [k] bytes of body. *)
Definition in_dlrr (fl : BuilderConfig * bool * bool * bool) (out : option bytes) (k : nat)
    (b : Builder) (body : bytes) : Prop :=
  b_state b ∈ [XR_DLRR_HEAD; XR_DLRR_REPORT] /\ flags b = fl /\ (length body mod 4 = 0)%nat
  /\ (forall pre, out = Some pre -> b_truncated b = false ->
        b_cur_xr_block_header b = Some (d + length pre + 4 + k)%nat).

Lemma begin_dlrr_ok ts b out n body fl :
  InPkt b out RTCP_XR n body -> in_xr fl b body -> is_byte ts ->
  exists b', begin_xr_dlrr (new_block XR_DLRR ts) b = Ok b'
    /\ InPkt b' out RTCP_XR n (body ++ new_block XR_DLRR ts)
    /\ in_dlrr fl out (length body) b' (body ++ new_block XR_DLRR ts).
Proof.
  intros HI (Hs & Hfl & Hm) Hts. unfold begin_xr_dlrr.
  rewrite in_state_ok by (rewrite Hs; left).
  assert (length (body ++ new_block XR_DLRR ts) mod 4 = 0)%nat as Hm'
    by (rewrite length_app; by apply mod4_add).
  assert (Forall is_byte (new_block XR_DLRR ts)) as Hob by (repeat apply Forall_cons_2; done).
  destruct (in_pkt_add (b_set_state XR_DLRR_HEAD b) out RTCP_XR n body (new_block XR_DLRR ts))
    as [(b1 & E & Hc & Ht1 & HI1)|(p & b1 & E & Hc & Hmem & Hw)];
    [by apply in_pkt_same with b|simpl; lia| |];
    change (length (new_block XR_DLRR ts)) with sizeof_XrDlrrBlock in E; rewrite E;
    unfold when_ptr; cbn [res_bind]; pose proof (flags_ctl _ _ Hc) as Hfl1;
    apply ctl_inv in Hc as (Hs1 & _).
  - exists b1. split; [done|]. split; [done|]. split; [rewrite Hs1; left|].
    split; [by rewrite Hfl1|]. split; [done|]. intros. congruence.
  - destruct (Hw Hob) as (HI1 & Ht1 & h & Hh & Hp). eexists. split; [done|].
    split; [by apply in_pkt_same with (copy_to (new_block XR_DLRR ts) p b1)|].
    split; [simpl; rewrite Hs1; left|]. split; [rewrite <- Hfl; exact Hfl1|]. split; [done|].
    intros pre -> _. simpl. f_equal. rewrite Hp.
    destruct (in_pkt_wrote _ _ _ _ _ HI1 Ht1) as (pre' & l & [= <-] & _ & _ & _ & W).
    pose proof (w_header _ _ _ W) as Hw'. simpl in Hw'. rewrite Hh in Hw'. injection Hw' as ->. lia.
Qed.

Lemma add_dlrr_ok sub b out n body fl k :
  InPkt b out RTCP_XR n body -> in_dlrr fl out k b body -> bytes_of_len 12 sub = true ->
  exists b', add_xr_dlrr_report sub b = Ok b' /\ InPkt b' out RTCP_XR n (body ++ sub)
    /\ in_dlrr fl out k b' (body ++ sub).
Proof.
  intros HI (Hs & Hfl & Hm & Hx) Hsub. destruct (bytes_of_len_inv _ _ Hsub) as [Hl Hb].
  unfold add_xr_dlrr_report. rewrite in_state_ok by done. unfold sizeof_XrDlrrSubblock.
  rewrite <- Hl.
  destruct (in_pkt_add_obj (b_set_state XR_DLRR_REPORT b) out RTCP_XR n body sub
    (fun p b => Ok (copy_to sub p b))) as (b1 & -> & Hc & HI1); try done.
  { by apply in_pkt_same with b. }
  { lia. }
  exists b1. split; [done|]. split; [done|]. pose proof (flags_ctl _ _ Hc) as Hfl1.
  apply ctl_inv in Hc as (Hs1 & _ & _ & _ & _ & Hx1).
  split; [rewrite Hs1; right; left|]. split; [by rewrite Hfl1|]. split.
  - rewrite length_app, Hl. by apply mod4_add.
  - intros pre Hpre Ht. rewrite Hx1. simpl. apply Hx; [done|].
    by apply (in_pkt_truncated_inv b b1 out RTCP_XR n body RTCP_XR n sub).
Qed.

Lemma end_dlrr_ok ts subs b out n body fl :
  InPkt b out RTCP_XR n (body ++ new_block XR_DLRR ts ++ subs) ->
  in_dlrr fl out (length body) b (body ++ new_block XR_DLRR ts ++ subs) ->
  Z.of_nat (4 + length subs) <= 65535 -> (length body mod 4 = 0)%nat ->
  exists b', end_xr_dlrr host b = Ok b'
    /\ InPkt b' out RTCP_XR n (body ++ [XR_DLRR; ts] ++ enc_len (4 + length subs) ++ subs)
    /\ in_xr fl b' (body ++ [XR_DLRR; ts] ++ enc_len (4 + length subs) ++ subs).
Proof.
  intros HI (Hs & Hfl & Hm & Hx) Hz Hbm. unfold end_xr_dlrr. rewrite in_state_ok by done.
  set (old := body ++ new_block XR_DLRR ts ++ subs) in *.
  set (new := body ++ [XR_DLRR; ts] ++ enc_len (4 + length subs) ++ subs).
  assert (length new = length old) as Hlen
    by (subst old new; rewrite !length_app; unfold enc_len; by rewrite length_be_bytes).
  cbn [b_truncated b_set_state]. destruct (b_truncated b) eqn:Ht.
  - eexists. split; [done|]. split; [|rewrite <- Hfl; split_and!; [done..|by rewrite Hlen]].
    apply in_pkt_same with b; [done|].
    destruct HI as (l & Hl & Hlb & HR). exists l. split_and!; try done. rewrite Hlen.
    destruct out as [pre|]; [|done]. destruct (fits _); [|done].
    pose proof (w_truncated _ _ _ HR). congruence.
  - destruct (in_pkt_wrote _ _ _ _ _ HI Ht) as (pre & l & -> & Hl & Hlb & Hf & W).
    specialize (Hx pre eq_refl eq_refl).
    cbn [b_cur_pkt_slice b_set_state]. rewrite (w_slice _ _ _ W). cbn [slice_data_end sl_data sl_size].
    unfold slice_data_end. cbn [sl_data sl_size res_bind].
    unfold with_xr_block. cbn [b_cur_xr_block_header b_set_state]. rewrite Hx.
    assert (length old = (length body + (4 + length subs))%nat) as Hold
      by (subst old; by rewrite !length_app).
    assert (length ([0x80 + Z.of_nat n; RTCP_XR] ++ l ++ old) = (4 + length old)%nat) as Hcur
      by (by rewrite !length_app, Hl).
    rewrite Hcur.
    replace (d + length pre + (4 + length old) - (d + length pre + 4 + length body))%nat
      with (4 + length subs)%nat by lia.
    rewrite xb_set_len_eq; [|lia|done|].
    2: { rewrite Hold, <- Nat.Div0.add_mod_idemp_l, Hbm in Hm. done. }
    cbn [res_bind]. eexists. split; [done|].
    split; [|rewrite <- Hfl; split_and!; [done..|by rewrite Hlen]].
    pose proof (wrote_write b pre _ (4 + length body + 2) (enc_len (4 + length subs)) W
      (be_bytes_Forall _ _)) as W'.
    replace (d + length pre + 4 + length body + 2)%nat
      with (d + length pre + (4 + length body + 2))%nat by lia.
    apply wrote_in_pkt with l; try done.
    apply wrote_same with (b_set_mem (overwrite (b_mem b) (d + length pre + (4 + length body + 2))
      (enc_len (4 + length subs))) b); [done|].
    replace ([0x80 + Z.of_nat n; RTCP_XR] ++ l ++ new) with
      (overwrite ([0x80 + Z.of_nat n; RTCP_XR] ++ l ++ old) (4 + length body + 2)
         (enc_len (4 + length subs))).
    { apply W'. rewrite Hcur. unfold enc_len. rewrite length_be_bytes. lia. }
    destruct l as [|l1 [|l2 [|]]]; try discriminate Hl. subst old new.
    assert (overwrite (body ++ new_block XR_DLRR ts ++ subs) (length body + 2)
       (enc_len (4 + length subs)) = body ++ [XR_DLRR; ts] ++ enc_len (4 + length subs) ++ subs) as <-;
      [|done].
    unfold overwrite, enc_len. rewrite length_be_bytes.
    rewrite take_app_ge, drop_app_ge by lia.
    replace (length body + 2 - length body)%nat with 2%nat by lia.
    replace (length body + 2 + 2 - length body)%nat with 4%nat by lia.
    by rewrite <- app_assoc.
Qed.

Lemma build_block_ok blk b out n body fl :
  InPkt b out RTCP_XR n body -> in_xr fl b body -> valid_block blk = true -> (n <= 31)%nat ->
  Z.of_nat (4 + length (body ++ enc_xr_block blk)) <= 65535 ->
  exists b', build_block host blk b = Ok b' /\ InPkt b' out RTCP_XR n (body ++ enc_xr_block blk)
    /\ in_xr fl b' (body ++ enc_xr_block blk).
Proof.
  intros HI HX HV Hn Hz. pose proof HX as (_ & _ & Hm).
  assert (forall t ts bd size k, bytes_of_len k bd = true -> (k mod 4 = 0)%nat -> is_byte t ->
    is_byte ts -> (4 + k)%nat = size -> Z.of_nat size <= 65535 ->
    exists b', add_xr_block host size (new_block t ts ++ bd) b = Ok b'
      /\ InPkt b' out RTCP_XR n (body ++ [t; ts] ++ enc_len (4 + length bd) ++ bd)
      /\ in_xr fl b' (body ++ [t; ts] ++ enc_len (4 + length bd) ++ bd)) as Hfix.
  { intros t ts bd size k Hbd Hk Ht Hts <- Hs. destruct (bytes_of_len_inv _ _ Hbd) as [<- Hb].
    by apply add_xr_block_ok. }
  destruct blk as [ts bd|ts subs|ts bd|ts bd|ts bd]; simpl in HV;
    apply andb_true_iff in HV as [Hts HV]; apply bool_decide_eq_true_1 in Hts;
    try (eapply Hfix; done).
  cbn [enc_xr_block build_block] in *. rewrite !length_app in Hz.
  destruct (begin_dlrr_ok ts b out n body fl) as (b1 & -> & HI1 & HD1); try done. cbn [res_bind].
  destruct (each_in_pkt add_xr_dlrr_report id 0 (in_dlrr fl out (length body)) out RTCP_XR subs)
    with (b := b1) (n := n) (body := body ++ new_block XR_DLRR ts) as (b2 & -> & HI2 & HD2); try done.
  { intros sub b0 n0 body0 Hin HI0 HD0 _ _. rewrite Nat.add_0_r.
    apply add_dlrr_ok; try done. by apply (forallb_elem _ subs). }
  { lia. }
  { rewrite map_id, !length_app. unfold enc_len in Hz. rewrite length_be_bytes in Hz. simpl in *. lia. }
  cbn [res_bind]. rewrite map_id, Nat.mul_0_l, Nat.add_0_r, <- app_assoc in *.
  apply end_dlrr_ok; try done. lia.
Qed.

Lemma build_xr_ok body blocks b o :
  Top b o -> b_state b = TOP -> enable_xr (b_config b) = true -> report_missing b = false ->
  valid_pkt (PktXr body blocks) = true ->
  exists b', build_pkt host (PktXr body blocks) b = Ok b' /\ after_pkt b b' o (PktXr body blocks).
Proof.
  intros HT Hs He Hrep HV. unfold valid_pkt in HV. reflect_bools. nat_bools.
  destruct (bytes_of_len_inv 4 body) as [Hl Hb]; [done|].
  unfold build_pkt, begin_xr. rewrite in_state_ok by (rewrite Hs; left).
  rewrite He, Hrep. cbn [negb panic_if].
  destruct (top_begin_copy (b_set_state XR_HEAD b) o RTCP_XR body sizeof_XrPacket)
    as (b1 & -> & Hc & HI); try done; [by apply (top_same b)|by rewrite Hl|]. cbn [res_bind].
  pose proof (flags_ctl _ _ Hc) as Hfl. apply ctl_inv in Hc as (Hs1 & _).
  unfold pkt_size in *. simpl pkt_body in *. rewrite Nat.add_0_r in *.
  destruct (each_in_pkt (build_block host) enc_xr_block 0 (in_xr (flags b)) (flat o) RTCP_XR blocks)
    with (b := b1) (n := 0%nat) (body := body) as (b2 & -> & HI2 & HX2); try done.
  { intros blk b0 n0 body0 Hin HI0 HX0 Hn0 Hz0. rewrite Nat.add_0_r.
    apply build_block_ok; try done; [by apply (forallb_elem _ blocks)|lia]. }
  { split_and!; [done|done|by rewrite Hl]. }
  cbn [res_bind]. destruct HX2 as (Hs2 & Hfl2 & Hm2). rewrite Nat.mul_0_l in HI2.
  unfold end_xr. rewrite in_state_ok by (rewrite Hs2; left).
  destruct (sized_pkt (PktXr body blocks) RTCP_XR 0 (body ++ concat (map enc_xr_block blocks))
    (b_set_state TOP b2) (flat o)) as (b3 & -> & Hc3 & HT3); try done.
  { by apply in_pkt_same with b2. }
  { unfold pkt_size. simpl pkt_body. by rewrite Nat.add_0_r. }
  exists b3. split; [done|]. pose proof (flags_ctl _ _ Hc3) as Hfl3.
  apply ctl_inv in Hc3 as (Hs3 & _). change (flags (b_set_state TOP b2)) with (flags b2) in Hfl3.
  rewrite Hfl2 in Hfl3. unfold flags in Hfl3. injection Hfl3 as F1 F2 F3 F4.
  unfold after_pkt, report_missing in *. rewrite F1, F2, F3, F4, orb_false_r. done.
Qed.

(** * SDES *)

(** A call that writes a 4-byte source identifier and counts it. *)
Lemma add_ssrc_ok ssrc b out t n body :
  InPkt b out t n body -> is_u 32 ssrc -> (n + 1 <= 31)%nat ->
  exists b', when_ptr (add_block 4 b) (fun p b =>
      with_header (b_set_mem (store host 4 (store host 4 (b_mem b) p 0) p (hton32u host ssrc)) b)
        ph_inc_counter) = Ok b'
    /\ ctl b' = ctl b /\ InPkt b' out t (n + 1) (body ++ be_bytes 4 ssrc).
Proof.
  intros HI Hu Hn. change 4%nat with (length (be_bytes 4 ssrc)) at 1.
  apply (in_pkt_add_then _ _ _ n _ _ _ _ (fun b => with_header b ph_inc_counter)); try done.
  - simpl. lia.
  - apply be_bytes_Forall.
  - intros p b1 Hp. rewrite ssrc_write_eq by done. done.
  - intros b2 HI2 Ht. destruct (header_inc b2 out t n _ HI2 Ht) as (b3 & -> & Hc & HI3 & _); [lia|].
    by exists b3.
Qed.

Definition sr_flags (b : Builder) := (b_config b, b_sr_written b, b_rr_written b).

Lemma add_item_ok type text b out n body :
  InPkt b out RTCP_SDES n body -> b_state b = SDES_CHUNK_ -> valid_item (type, text) = true ->
  (type = SDES_CNAME -> b_cname_written b = false) ->
  exists b', add_sdes_item type text b = Ok b'
    /\ InPkt b' out RTCP_SDES n (body ++ enc_item (type, text))
    /\ b_state b' = SDES_CHUNK_ /\ sr_flags b' = sr_flags b
    /\ b_cname_written b' = b_cname_written b || (type =? SDES_CNAME).
Proof.
  intros HI Hs HV Hc. unfold valid_item in HV. simpl in HV.
  apply andb_true_iff in HV as [HV Hne]. reflect_bools.
  destruct (is_text_inv text) as (Hl & Htb & _); [done|].
  unfold add_sdes_item. rewrite in_state_ok by (rewrite Hs; left).
  unfold MaxTextLen. rewrite (proj2 (Nat.ltb_ge _ _)) by lia. cbn [panic_if].
  assert (exists b0,
    (if type =? SDES_CNAME
     then panic_if (length text =? 0)%nat (panic_if (b_cname_written b)
            (Ok (b_set_written (b_sr_written b) (b_rr_written b) true b)))
     else Ok b) = Ok b0 /\ same_data b b0 /\ b_state b0 = b_state b /\ sr_flags b0 = sr_flags b
    /\ b_cname_written b0 = b_cname_written b || (type =? SDES_CNAME)) as (b0 & -> & Hd & Hs0 & Hf0 & Hc0).
  { destruct (Z.eqb_spec type SDES_CNAME) as [E|E].
    - rewrite Hc by done. rewrite orb_true_r.
      apply orb_true_iff in Hne as [Hne|Hne]; apply negb_true_iff in Hne;
        [discriminate Hne|].
      rewrite Hne. cbn [panic_if]. eexists. split; [done|]. by split_and!.
    - exists b. rewrite orb_false_r. by split_and!. }
  cbn [res_bind]. assert (is_byte type) as Hty by (unfold is_byte, is_u; lia).
  destruct (in_pkt_add_obj b0 out RTCP_SDES n body (enc_item (type, text))
    (fun p b =>
       let m := sdi_set_type (sdi_reset (b_mem b) p) p type in
       let* m := sdi_set_text_len m p (length text) in
       Ok (b_set_mem (overwrite m (sdi_text p) text) b))) as (b1 & E1 & Hc1 & HI1).
  - by apply in_pkt_same with b.
  - simpl. lia.
  - apply Forall_cons_2; [done|]. apply Forall_cons_2; [unfold is_byte, is_u; simpl; lia|done].
  - intros p b1 Hp. cbv zeta.
    pose proof (sdes_item_write_eq (b_mem b1) p type text Hp Hty Hl) as Hw.
    destruct (sdi_set_text_len (sdi_set_type (sdi_reset (b_mem b1) p) p type) p (length text));
      simpl in Hw |- *; [|discriminate Hw]. injection Hw as Hw. unfold copy_to. rewrite <- Hw. done.
  - exists b1. apply ctl_inv in Hc1 as (F1 & F2 & F3 & F4 & F5 & _).
    split; [exact E1|]. split; [done|]. unfold sr_flags in *. rewrite F1, F2, F3, F4, F5, Hs0, Hf0. done.
Qed.

Lemma each_items_ok items b out n body :
  InPkt b out RTCP_SDES n body -> b_state b = SDES_CHUNK_ -> forallb valid_item items = true ->
  (count_cname items + Nat.b2n (b_cname_written b) = 1)%nat ->
  exists b', each (fun item => add_sdes_item item.1 item.2) items b = Ok b'
    /\ InPkt b' out RTCP_SDES n (body ++ concat (map enc_item items))
    /\ b_state b' = SDES_CHUNK_ /\ sr_flags b' = sr_flags b /\ b_cname_written b' = true.
Proof.
  revert b body. induction items as [|[type text] items IH]; intros b body HI Hs HV Hn;
    cbn [each map concat fst snd].
  - exists b. rewrite app_nil_r. split_and!; try done. simpl in Hn. destruct (b_cname_written b); done.
  - simpl in HV. apply andb_true_iff in HV as [HV1 HV2]. unfold count_cname in Hn. simpl in Hn.
    destruct (add_item_ok type text b out n body) as (b1 & -> & HI1 & Hs1 & Hf1 & Hc1); try done.
    { intros ->. simpl in Hn. destruct (b_cname_written b); [simpl in Hn; lia|done]. }
    cbn [res_bind]. rewrite app_assoc. rewrite <- Hf1. apply IH; try done. rewrite Hc1.
    unfold count_cname. destruct (type =? SDES_CNAME); simpl in *; destruct (b_cname_written b);
      simpl in *; lia.
Qed.

(** Between the chunks of an SDES packet. *)
Definition in_sdes (b0 b : Builder) (body : bytes) : Prop :=
  b_state b = SDES_HEAD /\ sr_flags b = sr_flags b0 /\ (length body mod 4 = 0)%nat
  /\ (b_cname_written b0 = true \/ body <> [] -> b_cname_written b = true).

Lemma build_chunk_ok chunk b0 b out n body :
  InPkt b out RTCP_SDES n body -> in_sdes b0 b body -> valid_chunk chunk = true ->
  (n + 1 <= 31)%nat ->
  exists b', build_chunk host chunk b = Ok b'
    /\ InPkt b' out RTCP_SDES (n + 1) (body ++ enc_chunk chunk)
    /\ in_sdes b0 b' (body ++ enc_chunk chunk).
Proof.
  intros HI (Hs & Hf & Hm & _) HV Hn. unfold valid_chunk in HV. reflect_bools. nat_bools.
  destruct chunk as [ssrc items]. cbn [fst snd] in *.
  assert (is_u 32 ssrc) as Hu by (by apply (bool_decide_eq_true_1 (is_u 32 ssrc))).
  unfold build_chunk, begin_sdes_chunk. rewrite in_state_ok by (rewrite Hs; left).
  destruct (add_ssrc_ok ssrc (b_set_written (b_sr_written (b_set_state SDES_CHUNK_ b))
    (b_rr_written (b_set_state SDES_CHUNK_ b)) false (b_set_state SDES_CHUNK_ b)) out RTCP_SDES n body)
    as (b1 & E & Hc1 & HI1); try done; [by apply in_pkt_same with b|].
  unfold sizeof_SdesChunkHeader, sdc_set_ssrc, sdc_reset. cbn [fst snd]. rewrite E. cbn [res_bind].
  apply ctl_inv in Hc1 as (F1 & F2 & F3 & F4 & F5 & _). simpl in F1, F2, F3, F4, F5.
  destruct (each_items_ok items b1 out (n + 1) (body ++ be_bytes 4 ssrc))
    as (b2 & -> & HI2 & Hs2 & Hf2 & Hc2); try done; [rewrite F4; simpl; lia|].
  cbn [res_bind]. unfold end_sdes_chunk. rewrite in_state_ok by (rewrite Hs2; left).
  rewrite Hc2. cbn [negb panic_if b_cur_pkt_slice b_set_state].
  set (its := be_bytes 4 ssrc ++ concat (map enc_item items)).
  assert (enc_chunk (ssrc, items) = its ++ replicate (padding_len (length its) 1) 0) as Henc by done.
  rewrite <- app_assoc in HI2. fold its in HI2. rewrite Henc, app_assoc. clearbody its.
  destruct (padding_len_spec (length its) 1) as [Hp1 Hp2].
  assert (length ((body ++ its) ++ replicate (padding_len (length its) 1) 0%Z) mod 4 = 0)%nat as Hm'.
  { rewrite !length_app, length_replicate, <- Nat.add_assoc. by apply mod4_add. }
  assert ((body ++ its) ++ replicate (padding_len (length its) 1) 0 <> []) as Hne.
  { intros Hnil. apply (f_equal length) in Hnil. rewrite !length_app, length_replicate in Hnil.
    simpl in Hnil. lia. }
  destruct (b_truncated b2) eqn:Ht2.
  - unfold when_ptr, add_block. cbn [b_truncated b_set_state]. rewrite Ht2. cbn [res_bind].
    eexists. split; [done|]. split.
    + apply in_pkt_same with b2; [done|]. by apply in_pkt_truncated with (n + 1)%nat.
    + split_and!; try done. simpl. unfold sr_flags in *. simpl. rewrite Hf2, <- Hf, F2, F3, F5. done.
  - rewrite (in_pkt_size _ _ _ _ _ HI2 Ht2), length_app, Nat.add_assoc.
    rewrite padding_len_shift by (by apply mod4_add).
    set (pad := padding_len (length its) 1) in *. clearbody pad.
    replace (add_block pad (b_set_state SDES_HEAD b2))
      with (add_block (length (replicate pad 0)) (b_set_state SDES_HEAD b2))
      by (by rewrite length_replicate).
    destruct (in_pkt_add_obj (b_set_state SDES_HEAD b2) out RTCP_SDES (n + 1) (body ++ its)
      (replicate pad 0) (fun p b => Ok (copy_to (replicate pad 0) p b))) as (b3 & E3 & Hc3 & HI3); try done.
    + by apply in_pkt_same with b2.
    + rewrite length_replicate. lia.
    + apply Forall_replicate. by vm_compute.
    + rewrite E3. exists b3. split; [done|]. split; [done|].
      apply ctl_inv in Hc3 as (G1 & G2 & G3 & G4 & G5 & _). simpl in G1, G2, G3, G4, G5.
      split; [done|]. split_and!; try done; [|by rewrite G4].
      unfold sr_flags in *. rewrite G2, G3, G5, Hf2, <- Hf, F2, F3, F5. done.
Qed.

Lemma build_sdes_ok chunks b o :
  Top b o -> b_state b = TOP -> enable_sdes (b_config b) = true -> report_missing b = false ->
  valid_pkt (PktSdes chunks) = true ->
  exists b', build_pkt host (PktSdes chunks) b = Ok b' /\ after_pkt b b' o (PktSdes chunks).
Proof.
  intros HT Hs He Hrep HV. unfold valid_pkt in HV. reflect_bools. nat_bools.
  unfold build_pkt, begin_sdes. rewrite in_state_ok by (rewrite Hs; left).
  rewrite He, Hrep. cbn [negb panic_if].
  destruct (top_begin (b_set_state SDES_HEAD b) o RTCP_SDES [0; 0] []
    (fun p b => let* m := sdes_reset host (b_mem b) p in Ok (b_set_mem m b)) sizeof_SdesPacket)
    as (b1 & -> & Hc & HI); try done.
  { by apply (top_same b). }
  { by repeat constructor. }
  { intros p b1 Hp. unfold sdes_reset.
    rewrite ph_reset_eq by (done || (right; unfold RTCP_SR, RTCP_SDES, RTCP_XR; lia)). done. }
  cbn [res_bind]. apply ctl_inv in Hc as (E1 & E2 & E3 & E4 & E5 & _). simpl in E1, E2, E3, E4, E5.
  unfold pkt_size in *. simpl pkt_body in *. rewrite Nat.add_0_r in *. simpl pkt_count in *.
  destruct (each_in_pkt (build_chunk host) enc_chunk 1 (in_sdes b) (flat o) RTCP_SDES chunks)
    with (b := b1) (n := 0%nat) (body := ([] : bytes)) as (b2 & -> & HI2 & HX2); try done.
  { intros c b0 n0 body0 Hin HI0 HX0 Hn0 Hz0.
    apply build_chunk_ok; try done. by apply (forallb_elem _ chunks). }
  { split_and!; try done.
    - unfold sr_flags. by rewrite E2, E3, E5.
    - intros [Ht|Ht]; [by rewrite E4|done]. }
  { lia. }
  cbn [res_bind]. destruct HX2 as (Hs2 & Hf2 & Hm2 & Hc2). rewrite Nat.mul_1_l in HI2.
  unfold end_sdes. rewrite in_state_ok by (rewrite Hs2; left).
  destruct (sized_pkt (PktSdes chunks) RTCP_SDES (length chunks) (concat (map enc_chunk chunks))
    (b_set_state TOP b2) (flat o)) as (b3 & -> & Hc3 & HT3); try done.
  { by apply in_pkt_same with b2. }
  { unfold pkt_size. simpl pkt_body. by rewrite Nat.add_0_r. }
  exists b3. split; [done|]. apply ctl_inv in Hc3 as (F1 & F2 & F3 & F4 & F5 & _).
  simpl in F1, F2, F3, F4, F5. unfold sr_flags in Hf2. injection Hf2 as G1 G2 G3.
  unfold after_pkt, report_missing in *. rewrite F1, F2, F3, F4, F5, G1, G2, G3. split_and!; try done.
  intros Hor. apply Hc2. apply orb_true_iff in Hor as [Hor|Hor]; [by left|right].
  destruct chunks as [|c chunks]; [discriminate Hor|].
  cbn [map concat app]. intros Hnil.
  apply (f_equal length) in Hnil. unfold enc_chunk in Hnil. rewrite !length_app in Hnil.
  rewrite length_be_bytes in Hnil. simpl in Hnil. lia.
Qed.

(** * BYE *)

Lemma each_bye_ssrc_ok s0 ssrcs b out :
  InPkt b out RTCP_BYE 0 [] -> b_state b = BYE_HEAD -> forallb is_u32 (s0 :: ssrcs) = true ->
  (length (s0 :: ssrcs) <= 31)%nat ->
  exists b', each (add_bye_ssrc host) (s0 :: ssrcs) b = Ok b'
    /\ InPkt b' out RTCP_BYE (length (s0 :: ssrcs)) (concat (map (be_bytes 4) (s0 :: ssrcs)))
    /\ b_state b' = BYE_SSRC_ /\ flags b' = flags b.
Proof.
  intros HI Hs HV Hn.
  assert (length (concat (map (be_bytes 4) (s0 :: ssrcs))) = 4 * length (s0 :: ssrcs))%nat as Hlen.
  { clear. induction (s0 :: ssrcs) as [|s l IH]; [done|].
    cbn [map concat length]. rewrite length_app, IH, length_be_bytes. lia. }
  destruct (each_in_pkt (add_bye_ssrc host) (be_bytes 4) 1
    (fun b' body => b_state b' ∈ [BYE_HEAD; BYE_SSRC_] /\ flags b' = flags b
       /\ (body <> [] -> b_state b' = BYE_SSRC_)) out RTCP_BYE (s0 :: ssrcs))
    with (b := b) (n := 0%nat) (body := ([] : bytes)) as (b2 & E & HI2 & _ & Hf2 & Hs2).
  - intros s b' n body Hin HI' (Hs' & Hf' & _) Hn' _. unfold add_bye_ssrc.
    rewrite in_state_ok by done.
    assert (is_u 32 s) as Hu
      by (apply (bool_decide_eq_true_1 (is_u 32 s)); by apply (forallb_elem is_u32 (s0 :: ssrcs))).
    destruct (add_ssrc_ok s (b_set_state BYE_SSRC_ b') out RTCP_BYE n body)
      as (b'' & E'' & Hc'' & HI''); try done; [by apply in_pkt_same with b'|].
    exists b''. split; [exact E''|]. split; [done|]. pose proof (flags_ctl _ _ Hc'') as Hf''.
    apply ctl_inv in Hc'' as (Hs'' & _). rewrite Hs'', Hf''. split_and!; try done. right. left.
  - done.
  - split_and!; try done. rewrite Hs. left.
  - lia.
  - cbn [app]. rewrite Hlen. lia.
  - exists b2. split; [exact E|]. rewrite Nat.mul_1_l in HI2. split; [done|].
    split; [|done]. by apply Hs2.
Qed.

Lemma add_bye_reason_ok text b out n body :
  InPkt b out RTCP_BYE n body -> b_state b = BYE_SSRC_ -> is_text text = true ->
  exists b', add_bye_reason text b = Ok b'
    /\ InPkt b' out RTCP_BYE n (body ++ enc_reason (Some text))
    /\ b_state b' = BYE_REASON_ /\ flags b' = flags b
    /\ (length (enc_reason (Some text)) mod 4 = 0)%nat.
Proof.
  intros HI Hs HV. destruct (is_text_inv text) as (Hl & Htb & _); [done|].
  destruct (padding_len_spec (1 + length text) 0) as [Hp _].
  assert (length (enc_reason (Some text)) = (1 + length text + padding_len (1 + length text) 0)%nat)
    as Hlen by (cbn [enc_reason]; rewrite !length_app, length_replicate; cbn [length]; lia).
  unfold add_bye_reason. rewrite in_state_ok by (rewrite Hs; left).
  unfold MaxTextLen. rewrite (proj2 (Nat.ltb_ge _ _)) by lia. cbn [panic_if].
  destruct (in_pkt_add_obj (b_set_state BYE_REASON_ b) out RTCP_BYE n body
    (enc_reason (Some text)) (fun p b =>
       let m := byr_reset (b_mem b) p in
       let* m := byr_set_text_len m p (length text) in
       let m := overwrite m (byr_text p) text in
       Ok (b_set_mem (overwrite m (byr_text p + length text)
         (replicate (padding_len (sizeof_ByeReasonHeader + length text) 0) 0)) b)))
    as (b3 & E3 & Hc3 & HI3).
  - by apply in_pkt_same with b.
  - lia.
  - cbn [enc_reason]. apply Forall_cons_2; [unfold is_byte, is_u; lia|].
    apply Forall_app. split; [done|]. apply Forall_replicate. by vm_compute.
  - intros p b' Hp'. cbv zeta. pose proof (bye_reason_write_eq (b_mem b') p text Hp' Hl) as Hw.
    destruct (byr_set_text_len (byr_reset (b_mem b') p) p (length text)); simpl in Hw |- *;
      [|discriminate Hw]. injection Hw as Hw. unfold copy_to. rewrite <- Hw. done.
  - rewrite Hlen in E3. exists b3. split; [exact E3|]. split; [done|].
    pose proof (flags_ctl _ _ Hc3) as Hf3. apply ctl_inv in Hc3 as (Hs3 & _).
    rewrite Hs3, Hf3, Hlen. done.
Qed.

Lemma build_bye_ok ssrcs reason b o :
  Top b o -> b_state b = TOP -> report_missing b = false ->
  valid_pkt (PktBye ssrcs reason) = true ->
  exists b', build_pkt host (PktBye ssrcs reason) b = Ok b' /\ after_pkt b b' o (PktBye ssrcs reason).
Proof.
  intros HT Hs Hrep HV. unfold valid_pkt in HV. reflect_bools. nat_bools.
  unfold build_pkt, begin_bye. rewrite in_state_ok by (rewrite Hs; left).
  rewrite Hrep. cbn [negb panic_if].
  destruct (top_begin (b_set_state BYE_HEAD b) o RTCP_BYE [0; 0] []
    (fun p b => let* m := bye_reset host (b_mem b) p in Ok (b_set_mem m b)) sizeof_ByePacket)
    as (b1 & -> & Hc & HI); try done.
  { by apply (top_same b). }
  { by repeat constructor. }
  { intros p b1 Hp. unfold bye_reset.
    rewrite ph_reset_eq by (done || (right; unfold RTCP_SR, RTCP_BYE, RTCP_XR; lia)). done. }
  cbn [res_bind]. pose proof (flags_ctl _ _ Hc) as Hfl. apply ctl_inv in Hc as (Hs1 & _).
  destruct ssrcs as [|s0 ssrcs]; [done|].
  destruct (each_bye_ssrc_ok s0 ssrcs b1 (flat o)) as (b2 & -> & HI2 & Hs2 & Hfl2); try done.
  cbn [res_bind]. rewrite Hfl in Hfl2. change (flags (b_set_state BYE_HEAD b)) with (flags b) in Hfl2.
  assert (length (concat (map (be_bytes 4) (s0 :: ssrcs))) mod 4 = 0)%nat as Hm.
  { apply (concat_len_mod4 (map (be_bytes 4) (s0 :: ssrcs)) 0); [|done].
    apply Forall_map, Forall_forall. intros x Hx. cbn [compose]. by rewrite length_be_bytes. }
  set (body := concat (map (be_bytes 4) (s0 :: ssrcs))) in *.
  assert (exists b3, match reason with None => Ok b2 | Some text => add_bye_reason text b2 end = Ok b3
    /\ InPkt b3 (flat o) RTCP_BYE (length (s0 :: ssrcs)) (body ++ enc_reason reason)
    /\ b_state b3 ∈ [BYE_SSRC_; BYE_REASON_] /\ flags b3 = flags b
    /\ (length (enc_reason reason) mod 4 = 0)%nat) as (b3 & -> & HI3 & Hs3 & Hfl3 & Hm3).
  { destruct reason as [text|].
    - destruct (add_bye_reason_ok text b2 (flat o) (length (s0 :: ssrcs)) body)
        as (b3 & E3 & HI3 & Hs3 & Hf3 & Hm3); try done.
      exists b3. rewrite Hs3, Hf3. split_and!; try done. right. left.
    - exists b2. cbn [enc_reason]. rewrite app_nil_r. split_and!; try done. rewrite Hs2. left. }
  cbn [res_bind]. unfold end_bye. rewrite in_state_ok by done.
  destruct (sized_pkt (PktBye (s0 :: ssrcs) reason) RTCP_BYE (length (s0 :: ssrcs))
    (body ++ enc_reason reason) (b_set_state TOP b3) (flat o)) as (b4 & -> & Hc4 & HT4); try done.
  { by apply in_pkt_same with b3. }
  { rewrite length_app. by apply mod4_add. }
  exists b4. split; [done|]. pose proof (flags_ctl _ _ Hc4) as Hfl4.
  apply ctl_inv in Hc4 as (Hs4 & _). change (flags (b_set_state TOP b3)) with (flags b3) in Hfl4.
  rewrite Hfl3 in Hfl4. unfold flags in Hfl4. injection Hfl4 as F1 F2 F3 F4.
  unfold after_pkt, report_missing in *. rewrite F1, F2, F3, F4, orb_false_r. done.
Qed.

End Encodes.
