(* ===== verification/RtcpBuilderCorrect.v ===== *)
(** Correctness of the RTCP builder: compound packets and padding. *)

From S2P Require Import Prelude Bytes Slice RtcpHeaders RtcpTraverser RtcpTraverserSafe.
From S2P Require Import RtcpBuilder RtcpWire RtcpBuilderEncodes.

(** * Valid compound packets *)

(** The packets that the configuration allows. *)
Definition allowed (config : BuilderConfig) (p : rtcp_pkt) : bool :=
  match p with
  | PktSr _ _ | PktRr _ _ => enable_sr_rr config
  | PktXr _ _ => enable_xr config
  | PktSdes _ => enable_sdes config
  | PktBye _ _ => true
  end.

Definition is_report (p : rtcp_pkt) : bool :=
  match p with PktSr _ _ | PktRr _ _ => true | _ => false end.

(** The first packet is a report and an SDES packet is present, unless the configuration
    disables them; the padding is a multiple of 4 of one byte (0 for none). *)
Definition valid_compound (config : BuilderConfig) (ps : list rtcp_pkt) (pad : nat) : bool :=
  forallb valid_pkt ps && forallb (allowed config) ps
  && match ps with
     | [] => false
     | p :: _ => negb (enable_sr_rr config) || is_report p
     end
  && (negb (enable_sdes config) || existsb has_chunks ps)
  && (pad mod 4 =? 0)%nat && (pad <=? 255)%nat
  && match last ps with
     | None => false
     | Some p => Z.of_nat (pkt_size p pad) <=? 65535
     end.

Lemma enc_compound_snoc qs p pad :
  enc_compound (qs ++ [p]) pad = concat (map (fun q => enc_pkt q 0) qs) ++ enc_pkt p pad.
Proof.
  induction qs as [|q qs IH]; [done|]. cbn [map concat app].
  rewrite <- app_assoc, <- IH. cbn [enc_compound]. by destruct (qs ++ [p]) eqn:E; [destruct qs|].
Qed.

Lemma length_enc_pkt p pad : length (enc_pkt p pad) = pkt_size p pad.
Proof.
  unfold enc_pkt, pkt_size, enc_padding, enc_len. rewrite !length_app, length_be_bytes.
  destruct (Nat.eqb_spec pad 0); simpl; rewrite ?length_app, ?length_replicate; simpl; lia.
Qed.

Lemma enc_len_value size :
  (4 <= size)%nat -> Z.of_nat size <= 65535 -> (size mod 4 = 0)%nat ->
  rtcp_length_2_size_t (be_value (enc_len size)) = size.
Proof.
  intros H4 Hz Hm. unfold enc_len.
  rewrite be_value_be_bytes by (apply size_to_length; done).
  unfold rtcp_length_2_size_t. pose proof (Nat.Div0.div_mod size 4) as Hd. rewrite Hm in Hd. zlia.
Qed.

Lemma padding_flag (n : nat) :
  (n <= 31)%nat -> set_bit_field 8 (0x80 + 0 + Z.of_nat n) 1 5 0x01 = 0x80 + 0x20 + Z.of_nat n.
Proof. intros Hn. do 32 (destruct n as [|n]; [by vm_compute|]). lia. Qed.

(** * Sizes *)

Lemma concat_mod4 {A} (f : A -> bytes) (P : A -> bool) l :
  (forall x, P x = true -> (length (f x) mod 4 = 0)%nat) -> forallb P l = true ->
  (length (concat (map f l)) mod 4 = 0)%nat.
Proof.
  intros Hf Hl. apply (concat_len_mod4 (map f l) 0); [|done].
  apply Forall_map, Forall_forall. intros x Hx. apply Hf. by apply (forallb_elem _ l).
Qed.

Lemma enc_len_length n : length (enc_len n) = 2%nat.
Proof. apply length_be_bytes. Qed.

Lemma xr_block_mod4 blk : valid_block blk = true -> (length (enc_xr_block blk) mod 4 = 0)%nat.
Proof.
  intros HV. assert (forall t ts bd, (length bd mod 4 = 0)%nat ->
    (length ([t; ts] ++ enc_len (4 + length bd) ++ bd) mod 4 = 0)%nat) as H.
  { intros t ts bd Hb. rewrite !length_app, enc_len_length, Nat.add_assoc. by apply mod4_add. }
  destruct blk; simpl in HV; apply andb_true_iff in HV as [_ HV]; apply H;
    try (destruct (bytes_of_len_inv _ _ HV) as [-> _]; done).
  rewrite <- (map_id subblocks).
  apply (concat_mod4 id (bytes_of_len 12)); [|done].
  intros x Hx. unfold id. by destruct (bytes_of_len_inv _ _ Hx) as [-> _].
Qed.

Lemma chunk_mod4 c : (length (enc_chunk c) mod 4 = 0)%nat.
Proof. unfold enc_chunk. rewrite length_app, length_replicate. apply padding_len_spec. Qed.

Lemma pkt_mod4 p : valid_pkt p = true -> (pkt_size p 0 mod 4 = 0)%nat.
Proof.
  intros HV. unfold valid_pkt in HV. apply andb_true_iff in HV as [_ HV].
  unfold pkt_size. rewrite Nat.add_0_r. apply mod4_add; [done|].
  assert (forall l, forallb (bytes_of_len 24) l = true -> (length (concat l) mod 4 = 0)%nat) as Hrep.
  { intros l Hl. rewrite <- (map_id l). apply (concat_mod4 id (bytes_of_len 24)); [|done].
    intros x Hx. unfold id. by destruct (bytes_of_len_inv _ _ Hx) as [-> _]. }
  destruct p; simpl pkt_body; rewrite ?length_app; try (apply andb_true_iff in HV as [HV1 HV2]).
  - destruct (bytes_of_len_inv _ _ HV1) as [-> _]. apply mod4_add; auto.
  - destruct (bytes_of_len_inv _ _ HV1) as [-> _]. apply mod4_add; auto.
  - destruct (bytes_of_len_inv _ _ HV1) as [-> _]. apply mod4_add; [done|].
    by apply (concat_mod4 enc_xr_block valid_block); [apply xr_block_mod4|].
  - apply (concat_mod4 enc_chunk valid_chunk); [|done]. intros. apply chunk_mod4.
  - apply mod4_add.
    + apply (concat_mod4 (be_bytes 4) (fun _ => true)); [by intros; rewrite length_be_bytes|].
      by apply forallb_forall.
    + destruct reason as [text|]; [|done]. cbn [enc_reason].
      rewrite !length_app, length_replicate, Nat.add_assoc. apply padding_len_spec.
Qed.

Section Compound.

Context (host : cpu_endian) (d cap : nat).

#[local] Notation Top := (Top d cap).
#[local] Notation next_pkt := (next_pkt d cap).
#[local] Notation fits := (fits d cap).

Lemma build_pkt_ok p b o :
  Top b o -> b_state b = TOP -> allowed (b_config b) p = true -> valid_pkt p = true ->
  (report_missing b = false \/ is_report p = true) ->
  exists b', build_pkt host p b = Ok b' /\ after_pkt d cap b b' o p.
Proof.
  intros HT Hs Ha HV Hr. destruct p; simpl in Ha, Hr.
  - by apply build_sr_ok.
  - by apply build_rr_ok.
  - apply build_xr_ok; try done. by destruct Hr.
  - apply build_sdes_ok; try done. by destruct Hr.
  - apply build_bye_ok; try done. by destruct Hr.
Qed.

(** The packets so far, after those of the list. *)
Fixpoint steps (o : option (bytes * bytes)) (ps : list rtcp_pkt) : option (bytes * bytes) :=
  match ps with
  | [] => o
  | p :: ps => steps (next_pkt (flat o) (enc_pkt p 0)) ps
  end.

Lemma steps_none ps : steps None ps = None.
Proof. by induction ps. Qed.

Lemma steps_snoc pre last qs p :
  steps (Some (pre, last)) (qs ++ [p]) =
    let out := (pre ++ last) ++ concat (map (fun q => enc_pkt q 0) qs) in
    if fits (length out + length (enc_pkt p 0)) then Some (out, enc_pkt p 0) else None.
Proof.
  revert pre last. induction qs as [|q qs IH]; intros pre last; cbn [map concat app steps flat].
  - rewrite app_nil_r. done.
  - cbn [RtcpBuilderEncodes.next_pkt]. destruct (fits _) eqn:E.
    + rewrite IH. by rewrite <- app_assoc.
    + rewrite steps_none. cbv zeta.
      destruct (fits (length ((pre ++ last) ++ enc_pkt q 0 ++ concat (map (λ q0, enc_pkt q0 0) qs))
        + length (enc_pkt p 0))) eqn:E2; [|done].
      unfold RtcpBuilderEncodes.fits in *. rewrite !length_app in *. nat_bools. lia.
Qed.

Lemma build_all_ok ps b o :
  Top b o -> b_state b = TOP -> forallb valid_pkt ps = true ->
  forallb (allowed (b_config b)) ps = true ->
  (report_missing b = false \/ match ps with [] => False | p :: _ => is_report p = true end) ->
  exists b', each (build_pkt host) ps b = Ok b' /\ Top b' (steps o ps) /\ b_state b' = TOP
    /\ b_config b' = b_config b /\ report_missing b' = false
    /\ ((b_cname_written b || existsb has_chunks ps) = true -> b_cname_written b' = true).
Proof.
  revert b o. induction ps as [|p ps IH]; intros b o HT Hs HV Ha Hr; simpl in *.
  - exists b. rewrite orb_false_r. destruct Hr; [|done]. split_and!; done.
  - apply andb_true_iff in HV as [HV1 HV2]. apply andb_true_iff in Ha as [Ha1 Ha2].
    destruct (build_pkt_ok p b o) as (b1 & -> & HT1 & Hs1 & Hc1 & Hr1 & Hn1); try done. simpl.
    destruct (IH b1 _ HT1) as (b2 & E & HT2 & Hs2 & Hc2 & Hr2 & Hn2); try done; [by rewrite Hc1|auto|].
    exists b2. split_and!; try done; [congruence|].
    intros Hor. apply Hn2. rewrite orb_assoc in Hor. apply orb_true_iff in Hor as [Hor| ->];
      [|apply orb_true_r]. by rewrite Hn1.
Qed.

(** * Padding *)

Lemma top_write b pre last i bs :
  Top b (Some (pre, last)) -> Forall is_byte bs -> (i + length bs <= length last)%nat ->
  (0 < length last)%nat ->
  Top (b_set_mem (overwrite (b_mem b) (d + length pre + i) bs) b) (Some (pre, overwrite last i bs)).
Proof.
  intros (Ht & Hr & Hm & Hb & Hf & Hc & Hh) Hbs Hi Hpos.
  destruct (slice_of_split (b_mem b) d (length pre + length last) pre last) as [H1 H2]; [lia|done|].
  assert (length (overwrite last i bs) = length last) as Hl by (by apply length_overwrite).
  simpl. rewrite Hl. split_and!; try done.
  - rewrite length_overwrite by lia. done.
  - by apply overwrite_Forall.
  - apply slice_of_app_r.
    + rewrite slice_overwrite_disjoint by lia. done.
    + rewrite slice_overwrite_inside by lia. rewrite H2. f_equal. lia.
  - intros _. apply Hh. by destruct last; [simpl in Hpos; lia|].
Qed.

(** Reading the header of the last packet. *)
Lemma top_header b pre p :
  Top b (Some (pre, enc_pkt p 0)) -> Z.of_nat (pkt_size p 0) <= 65535 -> (pkt_size p 0 mod 4 = 0)%nat ->
  b_cur_pkt_header b = Some (d + length pre)%nat
  /\ b_mem b !!! (d + length pre)%nat = 0x80 + 0 + Z.of_nat (pkt_count p)
  /\ ph_len_bytes host (b_mem b) (d + length pre) = pkt_size p 0.
Proof.
  intros (Ht & Hr & Hm & Hb & Hf & Hc & Hh) Hz Hm4.
  destruct (slice_of_split (b_mem b) d (length pre + length (enc_pkt p 0)) pre (enc_pkt p 0))
    as [_ H2]; [lia|done|]. rewrite length_enc_pkt in *.
  assert (4 <= pkt_size p 0)%nat by (unfold pkt_size; lia).
  split_and!.
  - by apply Hh.
  - rewrite <- (Nat.add_0_r (d + length pre)), <- (lookup_total_slice_of _ _ (pkt_size p 0)), H2 by lia.
    done.
  - unfold ph_len_bytes, ph_len_words, ntoh16u. rewrite load16_net by (done || lia).
    rewrite <- (slice_of_slice_of _ _ (pkt_size p 0)), H2 by lia.
    assert (slice_of (enc_pkt p 0) 2 2 = enc_len (pkt_size p 0)) as ->; [|by apply enc_len_value].
    apply (take_app_length' (enc_len (pkt_size p 0))). symmetry. apply length_be_bytes.
Qed.

Lemma len_bytes_flag m h c :
  Forall is_byte m -> is_byte c -> (h + 4 <= length m)%nat ->
  ph_len_bytes host (overwrite m h [c]) h = ph_len_bytes host m h.
Proof.
  intros Hm Hc Hh. unfold ph_len_bytes, ph_len_words, ntoh16u.
  rewrite !load16_net; try done; try (rewrite ?length_overwrite; simpl; lia).
  - by rewrite slice_overwrite_disjoint by (simpl; lia).
  - apply overwrite_Forall; [done|]. by repeat apply Forall_cons_2.
Qed.

(** Appending the padding to the last packet. *)
Lemma top_extend b pre last bs :
  Top b (Some (pre, last)) -> last <> [] -> Forall is_byte bs ->
  (d + length pre + length last + length bs <= cap)%nat ->
  Top (b_set_result (mkSlice (Some d) (length pre + (length last + length bs)) cap)
         (b_set_mem (overwrite (b_mem b) (d + (length pre + length last)) bs) b))
      (Some (pre, last ++ bs)).
Proof.
  intros (Ht & Hr & Hm & Hb & Hf & Hc & Hh) Hl Hbs Hfit. simpl. rewrite length_app.
  split_and!; try done.
  - rewrite length_overwrite by lia. done.
  - by apply overwrite_Forall.
  - lia.
  - rewrite app_assoc, (Nat.add_assoc (length pre)). apply slice_of_app_r.
    + rewrite slice_overwrite_disjoint by lia. done.
    + apply slice_overwrite_same. lia.
  - intros _. by apply Hh.
Qed.

Lemma top_truncate b pre last : Top b (Some (pre, last)) -> cut d cap (b_truncate b).
Proof. intros (_ & Hr & Hm & Hb & Hf & _). split; simpl; try done. eexists. split; [done|lia]. Qed.

Lemma add_padding_ok p pad b pre :
  Top b (Some (pre, enc_pkt p 0)) -> b_state b = TOP -> (pkt_count p <= 31)%nat ->
  Z.of_nat (pkt_size p pad) <= 65535 -> (pkt_size p 0 mod 4 = 0)%nat ->
  (pad mod 4 = 0)%nat -> (1 <= pad <= 255)%nat ->
  exists b', add_padding host pad b = Ok b' /\ b_state b' = LAST
    /\ flags b' = flags b
    /\ Top b' (if fits (length pre + length (enc_pkt p pad)) then Some (pre, enc_pkt p pad) else None).
Proof.
  intros HT Hs Hn Hz Hm Hp4 Hp.
  assert (pkt_size p pad = (pkt_size p 0 + pad)%nat) as Hsz by (unfold pkt_size; lia).
  destruct (top_header b pre p HT) as (Hh & Hcnt & Hlen); [lia|done|].
  unfold add_padding. rewrite in_state_ok by (rewrite Hs; left).
  rewrite Hp4, (proj2 (Nat.ltb_ge pad 1)), (proj2 (Nat.ltb_ge 255 pad)) by lia.
  cbn [negb orb panic_if Nat.eqb]. pose proof HT as (Ht & Hr & Hmem & Hb & Hf & Hc & _).
  cbn [b_truncated b_set_state]. rewrite Ht. unfold with_header at 1. cbn [b_cur_pkt_header b_set_state].
  rewrite Hh. cbn [res_bind b_mem b_set_state]. unfold ph_set_padding, ph_count_. rewrite Hcnt, padding_flag by done.
  set (c := 0x80 + 0x20 + Z.of_nat (pkt_count p)).
  assert (is_byte c) as Hcb by (unfold is_byte, is_u; subst c; lia).
  assert (4 <= pkt_size p 0)%nat as H4 by (unfold pkt_size; lia). rewrite length_enc_pkt in Hf.
  pose proof (top_write b pre (enc_pkt p 0) 0 [c] HT) as HT1.
  rewrite length_enc_pkt, Nat.add_0_r in HT1.
  specialize (HT1 (Forall_cons_2 _ _ _ Hcb (Forall_nil_2 _)) ltac:(simpl; lia) ltac:(lia)).
  unfold with_header. cbn [b_cur_pkt_header b_set_state b_set_mem b_mem]. rewrite Hh.
  rewrite len_bytes_flag, Hlen, <- Hsz by (done || lia). unfold ph_set_len_bytes.
  destruct (size_to_length (pkt_size p pad)) as [-> Hu]; [lia|done|rewrite Hsz; by apply mod4_add|].
  cbn [res_bind]. unfold ph_set_len_words, hton16u. rewrite store16_net by done.
  fold (enc_len (pkt_size p pad)).
  pose proof (top_write _ pre _ 2 (enc_len (pkt_size p pad)) HT1 (be_bytes_Forall _ _)) as HT2.
  assert (length (overwrite (enc_pkt p 0) 0 [c]) = pkt_size p 0) as Hl1
    by (rewrite length_overwrite; rewrite length_enc_pkt; simpl; done || lia).
  rewrite Hl1 in HT2. specialize (HT2 ltac:(unfold enc_len; rewrite length_be_bytes; lia) ltac:(lia)).
  cbn [b_mem b_set_mem] in HT2.
  set (hd := overwrite (overwrite (enc_pkt p 0) 0 [c]) 2 (enc_len (pkt_size p pad))) in *.
  assert (hd = [c; pkt_type p] ++ enc_len (pkt_size p pad) ++ pkt_body p) as Hhd.
  { subst hd. unfold enc_pkt, enc_padding. cbn [Nat.eqb]. rewrite app_nil_r.
    unfold overwrite, enc_len. rewrite !length_be_bytes. done. }
  assert (length hd = pkt_size p 0) as Hlhd
    by (rewrite Hhd; unfold enc_len, pkt_size; rewrite !length_app, length_be_bytes; simpl; lia).
  assert (enc_pkt p pad = hd ++ enc_padding pad) as Henc.
  { rewrite Hhd. unfold enc_pkt. rewrite (proj2 (Nat.eqb_neq pad 0)) by lia. by rewrite <- !app_assoc. }
  cbn [b_result b_set_state b_set_mem]. rewrite Hr, length_enc_pkt. unfold slice_capacity.
  cbn [sl_data sl_size sl_buf_size].
  assert (length (enc_padding pad) = pad) as Hlp
    by (unfold enc_padding; rewrite (proj2 (Nat.eqb_neq pad 0)) by lia;
        rewrite length_app, length_replicate; simpl; lia).
  pose proof HT2 as (_ & _ & Hmem2 & _ & _ & _ & _). cbn [b_mem b_set_mem] in Hmem2.
  rewrite Henc, length_app, Hlhd, Hlp.
  destruct (fits (length pre + (pkt_size p 0 + pad))) eqn:Ef;
    unfold RtcpBuilderEncodes.fits in Ef; nat_bools.
  - rewrite (proj2 (Nat.ltb_ge _ _)) by lia. unfold slice_extend, panic_if. cbn [sl_data sl_size].
    rewrite (proj2 (Nat.eqb_neq _ _)), slice_reslice_ok by lia.
    cbn [res_bind]. rewrite overwrite_next by (rewrite ?length_replicate; simpl; lia).
    rewrite u8_of_nat by lia.
    assert (replicate (pad - 1) 0 ++ [Z.of_nat pad] = enc_padding pad) as ->
      by (unfold enc_padding; by rewrite (proj2 (Nat.eqb_neq pad 0)) by lia).
    pose proof (top_extend _ pre hd (enc_padding pad) HT2) as HT3.
    rewrite Hlhd, Hlp, Nat.add_0_r, Nat.sub_0_r, <- Nat.add_assoc in *.
    eexists. split; [done|]. split; [done|]. split; [done|].
    eapply top_same; [|apply HT3].
    + by split_and!.
    + intros ->. simpl in Hlhd. lia.
    + unfold enc_padding. rewrite (proj2 (Nat.eqb_neq pad 0)) by lia. apply Forall_app. split.
      * apply Forall_replicate. by vm_compute.
      * apply Forall_cons_2; [unfold is_byte, is_u; lia|done].
    + lia.
  - rewrite (proj2 (Nat.ltb_lt _ _)) by lia. eexists. split; [done|]. split; [done|]. split; [done|].
    eapply cut_same; [..|apply (top_truncate _ _ _ HT2)]; done.
Qed.

Lemma finish_ok qs p pad b :
  Top b (steps (Some ([], [])) (qs ++ [p])) -> b_state b = TOP -> valid_pkt p = true ->
  Z.of_nat (pkt_size p pad) <= 65535 -> (pad mod 4 = 0)%nat -> (pad <= 255)%nat ->
  exists b', (if (pad =? 0)%nat then Ok b else add_padding host pad b) = Ok b'
    /\ b_state b' ∈ [TOP; LAST] /\ flags b' = flags b
    /\ Top b' (if fits (length (enc_compound (qs ++ [p]) pad))
                then Some (concat (map (fun q => enc_pkt q 0) qs), enc_pkt p pad) else None).
Proof.
  intros HT Hs HV Hz Hp4 Hp. rewrite steps_snoc in HT. cbn [app] in HT.
  set (pre := concat _) in *. rewrite enc_compound_snoc, length_app. fold pre.
  destruct (Nat.eqb_spec pad 0) as [->|Hpad].
  - exists b. split; [done|]. split; [rewrite Hs; left|]. split; done.
  - assert (length (enc_pkt p 0) <= length (enc_pkt p pad))%nat as Hle
      by (rewrite !length_enc_pkt; unfold pkt_size; lia).
    destruct (fits (length pre + length (enc_pkt p 0))) eqn:Ef.
    + unfold valid_pkt in HV. pose proof (pkt_mod4 p) as Hm. unfold valid_pkt in Hm.
      specialize (Hm HV). reflect_bools. nat_bools.
      destruct (add_padding_ok p pad b pre) as (b' & E & Hs' & Hf & HT'); try done; [lia|].
      exists b'. split_and!; try done. rewrite Hs'. right. left.
    + unfold add_padding. rewrite in_state_ok by (rewrite Hs; left).
      rewrite Hp4, (proj2 (Nat.ltb_ge pad 1)), (proj2 (Nat.ltb_ge 255 pad)) by lia.
      cbn [negb orb panic_if Nat.eqb b_truncated b_set_state]. simpl in HT. rewrite (cut_truncated _ _ _ HT).
      eexists. split; [done|]. split; [right; left|]. split; [done|].
      unfold RtcpBuilderEncodes.fits in *. nat_bools.
      rewrite (proj2 (Nat.leb_gt _ _)) by lia. by eapply cut_same; [..|exact HT].
Qed.

Lemma delete_ok b o :
  Top b o -> b_state b ∈ [TOP; LAST] -> report_missing b = false ->
  (enable_sdes (b_config b) = true -> b_cname_written b = true) ->
  match o with Some (_, last) => last <> [] | None => True end ->
  builder_delete b = Ok tt.
Proof.
  intros HT Hs Hr Hc Ho. unfold builder_delete.
  assert (negb (bool_decide (b_state b = TOP)) && negb (bool_decide (b_state b = LAST)) = false) as ->.
  { rewrite !elem_of_cons in Hs. destruct Hs as [->|[->|Hn]]; [done|done|].
    by apply not_elem_of_nil in Hn. }
  cbn [panic_if]. assert (negb (b_truncated b) && (sl_size (b_result b) =? 0)%nat = false) as ->.
  { destruct o as [[pre last]|]; [|by rewrite (cut_truncated _ _ _ HT)].
    destruct HT as (_ & -> & _). cbn [sl_size]. apply andb_false_iff. right. apply Nat.eqb_neq.
    destruct last; [done|simpl; lia]. }
  cbn [panic_if]. unfold report_missing in Hr. rewrite Hr. cbn [panic_if].
  destruct (enable_sdes (b_config b)); [by rewrite Hc|done].
Qed.

End Compound.

(** Construction, calls and destruction of the builder, by the position reached. *)
Lemma build_correct (host : cpu_endian) (config : BuilderConfig) (mem : bytes)
    (result : Slice) (ps : list rtcp_pkt) (pad : nat) :
  slice_in mem result -> Forall is_byte mem -> valid_compound config ps pad = true ->
  exists b, build host config mem result ps pad = Ok b /\
    let wire := enc_compound ps pad in
    if (length wire <=? slice_capacity result)%nat
    then is_ok b = true
         /\ b_result b = mkSlice (sl_data result) (length wire) (length mem)
         /\ length (b_mem b) = length mem /\ Forall is_byte (b_mem b)
         /\ slice_of (b_mem b) (sl_off result) (length wire) = wire
    else is_ok b = false /\ length (b_mem b) = length mem /\ Forall is_byte (b_mem b)
         /\ exists n, b_result b = mkSlice (sl_data result) n (length mem)
                /\ (sl_off result + n <= length mem)%nat.
Proof.
  intros Hin Hmem HV. unfold valid_compound in HV.
  apply andb_true_iff in HV as [HV Hlast]. reflect_bools. nat_bools.
  destruct ps as [|p0 ps0] eqn:Eps; [done|]. rewrite <- Eps in *.
  destruct (exists_last (l := ps)) as (qs & p & Hps); [by rewrite Eps|].
  pose proof (slice_in_fits _ _ Hin) as Hfit. destruct result as [[d|] n cap]; [|by destruct Hin as (_ & ? & _)].
  destruct Hin as (_ & _ & Hcap). simpl in Hcap, Hfit. unfold sl_off in Hfit. simpl in Hfit.
  unfold build, builder_new. cbn [slice_bool sl_data negb panic_if].
  rewrite slice_reslice_ok by lia. cbn [res_bind]. rewrite Nat.add_0_r, Nat.sub_diag.
  set (b0 := mkBuilder TOP mem _ _ _ _ _ _ _ _ _).
  assert (Top d cap b0 (Some ([], []))) as HT0.
  { simpl. split_and!; try done; lia. }
  destruct (build_all_ok host d cap ps b0 (Some ([], []))) as (b1 & -> & HT1 & Hs1 & Hc1 & Hr1 & Hn1);
    try done.
  { rewrite Eps. unfold report_missing. simpl. destruct (enable_sr_rr config); auto. }
  cbn [res_bind]. rewrite Hps in HT1, Hlast. rewrite last_snoc in Hlast. apply Z.leb_le in Hlast.
  assert (valid_pkt p = true) as HVp
    by (apply (forallb_elem _ ps); [done|rewrite Hps; apply elem_of_app; right; left]).
  destruct (finish_ok host d cap qs p pad b1) as (b2 & -> & Hs2 & Hf2 & HT2); try done.
  cbn [res_bind]. unfold flags in Hf2. injection Hf2 as F1 F2 F3 F4.
  rewrite (delete_ok d cap b2 _ HT2); try done.
  - exists b2. split; [done|]. cbv zeta. rewrite Hps. unfold slice_capacity. cbn [sl_data sl_buf_size].
    unfold fits in HT2. set (wire := enc_compound (qs ++ [p]) pad) in *.
    destruct (Nat.leb_spec (d + length wire) cap); destruct (Nat.leb_spec (length wire) (cap - d)); try lia.
    + destruct HT2 as (Ht2 & Hres & Hm2 & Hb2 & _ & Hcont & _).
      assert (length wire = length (concat (map (λ q, enc_pkt q 0) qs)) + length (enc_pkt p pad))%nat as Hl
        by (subst wire; by rewrite enc_compound_snoc, length_app).
      split_and!; [unfold is_ok; by rewrite Ht2|by rewrite Hres, Hl, Hcap|by rewrite Hm2|done|].
      transitivity (slice_of (b_mem b2) d (length wire)); [done|]. rewrite Hl, Hcont. subst wire. by rewrite enc_compound_snoc.
    + simpl in HT2. destruct HT2 as [Ht2 Hm2 Hb2 (k & Hk & Hkc)]. split; [unfold is_ok; by rewrite Ht2|].
      split; [by rewrite Hm2|]. split; [done|]. exists k. cbn [sl_data]. rewrite Hk, Hcap.
      split; [done|]. unfold sl_off. simpl. lia.
  - unfold report_missing in *. by rewrite F1, F2, F3.
  - rewrite F1, Hc1, F4. intros He. apply Hn1. simpl. cbn in He. rewrite He in H2. done.
  - destruct (fits d cap _); [|done]. intros Hnil. apply (f_equal length) in Hnil.
    rewrite length_enc_pkt in Hnil. unfold pkt_size in Hnil. simpl in Hnil. lia.
Qed.

(** C15: for every valid description of a compound packet, running the builder from its
    construction to its destruction never panics.  When the encoding fits into the
    slice the builder reports success and the slice holds exactly the encoding;
    otherwise it reports failure. *)
Theorem rtcp_builder_encodes (host : cpu_endian) (config : BuilderConfig) (mem : bytes)
    (result : Slice) (ps : list rtcp_pkt) (pad : nat) :
  slice_in mem result -> Forall is_byte mem -> valid_compound config ps pad = true ->
  exists b, build host config mem result ps pad = Ok b /\
    let wire := enc_compound ps pad in
    if (length wire <=? slice_capacity result)%nat
    then is_ok b = true
         /\ b_result b = mkSlice (sl_data result) (length wire) (length mem)
         /\ length (b_mem b) = length mem
         /\ slice_of (b_mem b) (sl_off result) (length wire) = wire
    else is_ok b = false.
Proof.
  intros Hin Hmem HV. destruct (build_correct host config mem result ps pad) as (b & E & Hb); try done.
  exists b. split; [done|]. cbv zeta in *. destruct (_ <=? _)%nat; [|apply Hb].
  destruct Hb as (H1 & H2 & H3 & _ & H4). done.
Qed.

(** A receiver report with one block, the CNAME and a goodbye. *)
Definition sample_compound : list rtcp_pkt :=
  [PktRr [0; 0; 0; 7] [replicate 23 0 ++ [9]];
   PktSdes [(7, [(SDES_CNAME, [99; 110])])];
   PktBye [7; 8] (Some [111; 107; 33; 33])].

Definition sample_config : BuilderConfig := mkBuilderConfig true true true.

Lemma rtcp_builder_encodes_witness :
  (exists b, build CPU_LE sample_config (replicate 100 0) (slice_whole 100) sample_compound 8 = Ok b
     /\ is_ok b = true /\ slice_of (b_mem b) 0 76 = enc_compound sample_compound 8)
  /\ exists b, build CPU_LE sample_config (replicate 60 0) (slice_whole 60) sample_compound 8 = Ok b
     /\ is_ok b = false.
Proof.
  split.
  - destruct (rtcp_builder_encodes CPU_LE sample_config (replicate 100 0) (slice_whole 100)
      sample_compound 8) as (b & E & H); [closed|closed|reflexivity|].
    exists b. split; [exact E|]. cbn in H. destruct H as (H1 & _ & _ & H2). split; [exact H1|exact H2].
  - apply (rtcp_builder_encodes CPU_LE sample_config (replicate 60 0) (slice_whole 60)
      sample_compound 8); [closed|closed|reflexivity].
Defined.
