(* ===== verification/RtcpCommunicator.v ===== *)
(** RTCP communicator (src/internal_modules/roc_rtcp/communicator.cpp), with the RTCP
    composer and parser (composer.cpp, parser.cpp): takes received compound packets
    apart and hands their blocks to the reporter, and asks the reporter for blocks and
    packs them into compound packets.

    The reporter is an interface here: a state and the methods of the class [Reporter]
    that the communicator calls.  Header objects are byte strings; a reference to a
    report block inside a packet is the bytes of the block.  Times are nanoseconds as
    64-bit integers, addresses are opaque. *)

From S2P Require Import Prelude Bytes Slice Packet Io Compose FecWriter.
From S2P Require Import RtcpHeaders RtcpTraverser RtcpTraverserSafe RtcpBuilder RtcpWire.

(** * Reporter interface *)

Class IReporter (R : Type) : Type := {
  (** processing *)
  begin_processing : option Z -> Z -> R -> res (StatusCode * R);
  process_cname : Z -> Z * bytes -> R -> res R;
  process_sr : bytes -> R -> res R;
  process_reception_block : Z -> bytes -> R -> res R;
  process_dlrr_subblock : bytes -> bytes -> R -> res R;
  process_rrtr_block : bytes -> bytes -> R -> res R;
  process_measurement_info_block : bytes -> bytes -> R -> res R;
  process_delay_metrics_block : bytes -> bytes -> R -> res R;
  process_queue_metrics_block : bytes -> bytes -> R -> res R;
  process_goodbye : Z -> R -> res R;
  end_processing : R -> res (StatusCode * R);
  (** generation *)
  is_sending : R -> bool;
  is_receiving : R -> bool;
  begin_generation : Z -> R -> res (StatusCode * R);
  num_dest_addresses : R -> nat;
  num_sending_streams : nat -> R -> nat;
  num_receiving_streams : nat -> R -> nat;
  generate_dest_address : nat -> R -> res (option Z * R);
  generate_cname : R -> res (Z * (Z * bytes) * R);
  generate_sr : R -> res (bytes * R);
  generate_rr : R -> res (bytes * R);
  generate_reception_block : nat -> nat -> R -> res (bytes * R);
  generate_xr : R -> res (bytes * R);
  generate_dlrr_subblock : nat -> nat -> R -> res (bytes * R);
  generate_rrtr_block : R -> res (bytes * R);
  generate_measurement_info_block : nat -> nat -> R -> res (bytes * R);
  generate_delay_metrics_block : nat -> nat -> R -> res (bytes * R);
  generate_queue_metrics_block : nat -> nat -> R -> res (bytes * R);
  need_goodbye : R -> bool;
  generate_goodbye_ssrc : R -> res (Z * R);
  end_generation : R -> res (StatusCode * R);
}.

(** * Composer and parser *)

Definition rtcp_composer_align (addr : nat) (buffer : Slice)
    (header_size payload_alignment : nat) : res (bool * Slice) :=
  let* data := slice_data buffer in
  panic_if (negb ((addr + data) mod payload_alignment =? 0)%nat)
    (let padding := pad_as header_size payload_alignment in
     if (slice_capacity buffer <? padding)%nat then Ok (false, buffer)
     else
       let* buffer := slice_reslice buffer padding padding in
       Ok (true, buffer)).

Definition rtcp_composer_prepare (packet : Packet) (buffer : Slice) (payload_size : nat)
  : res (bool * Packet * Slice) :=
  let* buffer := slice_reslice buffer 0 payload_size in
  let* packet := add_flags packet FlagControl in
  let* packet := add_flags packet FlagRTCP in
  Ok (true,
      mkPacket (flags_ packet) (udp_ packet) (rtp_ packet) (fec_ packet) buffer
        (buffer_ packet) (pkt_mem packet),
      buffer).

Definition rtcp_composer_pad (packet : Packet) (padding_size : nat) : res (bool * Packet) :=
  Ok (false, packet).

Definition rtcp_composer_compose (packet : Packet) : res (bool * Packet) :=
  match packet_rtcp packet with
  | None => Panic
  | Some payload =>
      if negb (slice_bool payload) then Ok (false, packet)
      else if (sl_size payload =? 0)%nat then Ok (false, packet)
      else Ok (true, packet)
  end.

Definition rtcp_parser_parse (packet : Packet) (buffer : Slice) : res (bool * Packet) :=
  panic_if (negb (slice_bool buffer))
    (let* packet := add_flags packet FlagControl in
     let* packet := add_flags packet FlagRTCP in
     Ok (true,
         mkPacket (flags_ packet) (udp_ packet) (rtp_ packet) (fec_ packet) buffer
           (buffer_ packet) (pkt_mem packet))).

Section Processing.

Context (host : cpu_endian) {R : Type} `{IReporter R}.
(** The buffer of the packet being processed. *)
Context (m : bytes).

(** The methods below return the reporter and what they add to [error_count_]. *)

(** * Elements of SDES, BYE and XR packets *)

(** [while ((state = iter.next()) != END)] of [process_description_]; [chunk] is
    [sdes_chunk]. *)
Fixpoint description_loop (fuel : nat) (it : SdesIterator) (chunk : Z) (r : R)
  : run (R * nat) :=
  match fuel with
  | O => Ok None
  | S fuel =>
      let! it := lift (sdes_next host m it) in
      match si_state it with
      | SDES_END => ret (r, if si_error it then 1%nat else 0%nat)
      | SDES_CHUNK =>
          let! chunk := lift (sdes_get_chunk it) in
          description_loop fuel it chunk r
      | SDES_ITEM =>
          let! item := lift (sdes_get_item it) in
          if negb (item.1 =? SDES_CNAME) then description_loop fuel it chunk r
          else if bool_decide (item.2 = []) then description_loop fuel it chunk r
          else
            let! r := lift (process_cname chunk item r) in
            description_loop fuel it chunk r
      | SDES_BEGIN => description_loop fuel it chunk r
      end
  end.

Definition process_description (fuel : nat) (sdes : SdesTraverser) (r : R) : run (R * nat) :=
  let! it := lift (sdes_iter sdes) in
  description_loop fuel it 0 r.

Fixpoint goodbye_loop (fuel : nat) (it : ByeIterator) (r : R) : run (R * nat) :=
  match fuel with
  | O => Ok None
  | S fuel =>
      let! it := lift (bye_next host m it) in
      match bi_state it with
      | BYE_END => ret (r, if bi_error it then 1%nat else 0%nat)
      | BYE_SSRC =>
          let! ssrc := lift (bye_get_ssrc it) in
          let! r := lift (process_goodbye ssrc r) in
          goodbye_loop fuel it r
      | _ => goodbye_loop fuel it r
      end
  end.

Definition process_goodbye_ (fuel : nat) (bye : ByeTraverser) (r : R) : run (R * nat) :=
  let! it := lift (bye_iter bye) in
  goodbye_loop fuel it r.

(** [for (size_t n = 0; n < num; n++)] *)
Fixpoint for_blocks (num n : nat) (f : nat -> R -> res R) (r : R) : res R :=
  match num with
  | O => Ok r
  | S num =>
      let* r := f n r in
      for_blocks num (n + 1) f r
  end.

Definition process_sender_report (sr : nat) (r : R) : res R :=
  let* r := process_sr (slice_of m sr sizeof_SenderReportPacket) r in
  for_blocks (sr_num_blocks m sr) 0 (fun n r =>
    let* blk := sr_get_block m sr n in
    process_reception_block (sr_ssrc host m sr) (slice_of m blk sizeof_ReceptionReportBlock) r) r.

Definition process_receiver_report (rr : nat) (r : R) : res R :=
  for_blocks (rr_num_blocks m rr) 0 (fun n r =>
    let* blk := rr_get_block m rr n in
    process_reception_block (rr_ssrc host m rr) (slice_of m blk sizeof_ReceptionReportBlock) r) r.

(** The [switch] of [process_extended_report_]. *)
Definition process_xr_block (xr : XrTraverser) (it : XrIterator) (r : R) : res R :=
  let* p := xr_packet xr in
  let packet := slice_of m p sizeof_XrPacket in
  match xi_state it with
  | DLRR_BLOCK =>
      let* dlrr := get_dlrr it in
      for_blocks (dlrr_num_subblocks host m dlrr) 0 (fun n r =>
        let* blk := dlrr_get_subblock host m dlrr n in
        process_dlrr_subblock packet (slice_of m blk sizeof_XrDlrrSubblock) r) r
  | RRTR_BLOCK =>
      let* blk := get_rrtr it in
      process_rrtr_block packet (slice_of m blk sizeof_XrRrtrBlock) r
  | MEASUREMENT_INFO_BLOCK =>
      let* blk := get_measurement_info it in
      process_measurement_info_block packet (slice_of m blk sizeof_XrMeasurementInfoBlock) r
  | DELAY_METRICS_BLOCK =>
      let* blk := get_delay_metrics it in
      process_delay_metrics_block packet (slice_of m blk sizeof_XrDelayMetricsBlock) r
  | QUEUE_METRICS_BLOCK =>
      let* blk := get_queue_metrics it in
      process_queue_metrics_block packet (slice_of m blk sizeof_XrQueueMetricsBlock) r
  | _ => Ok r
  end.

Fixpoint extended_report_loop (fuel : nat) (xr : XrTraverser) (it : XrIterator) (r : R)
  : run (R * nat) :=
  match fuel with
  | O => Ok None
  | S fuel' =>
      let! it := xr_next host m fuel it in
      match xi_state it with
      | XR_END => ret (r, if xi_error it then 1%nat else 0%nat)
      | _ =>
          let! r := lift (process_xr_block xr it r) in
          extended_report_loop fuel' xr it r
      end
  end.

Definition process_extended_report (fuel : nat) (xr : XrTraverser) (r : R) : run (R * nat) :=
  let! it := lift (xr_iter xr) in
  extended_report_loop fuel xr it r.

(** * The three passes over a compound packet *)

(** [while ((state = iter.next()) != END) switch (state)], where [f] handles the packets
    of the states it knows. *)
Fixpoint packet_loop (fuel : nat) (f : TrIterator -> R -> run (R * nat)) (it : TrIterator)
    (r : R) (errors : nat) : run (R * nat) :=
  match fuel with
  | O => Ok None
  | S fuel' =>
      let! it := tr_next host m fuel it in
      match ti_state it with
      | TR_END => ret (r, if ti_error it then (errors + 1)%nat else errors)
      | _ =>
          let! '(r, n) := f it r in
          packet_loop fuel' f it r (errors + n)
      end
  end.

Definition description_packet (fuel : nat) (it : TrIterator) (r : R) : run (R * nat) :=
  match ti_state it with
  | TR_SDES =>
      let! sdes := lift (get_sdes it) in
      let! '(sdes, ok) := lift (sdes_parse host m sdes) in
      if ok then process_description fuel sdes r else ret (r, 1%nat)
  | _ => ret (r, O)
  end.

Definition report_packet (fuel : nat) (it : TrIterator) (r : R) : run (R * nat) :=
  match ti_state it with
  | TR_SR =>
      let! sr := lift (get_sr it) in
      let! r := lift (process_sender_report sr r) in
      ret (r, O)
  | TR_RR =>
      let! rr := lift (get_rr it) in
      let! r := lift (process_receiver_report rr r) in
      ret (r, O)
  | TR_XR =>
      let! xr := lift (get_xr it) in
      let! '(xr, ok) := xr_parse host m fuel xr in
      if ok then process_extended_report fuel xr r else ret (r, 1%nat)
  | _ => ret (r, O)
  end.

Definition goodbye_packet (fuel : nat) (it : TrIterator) (r : R) : run (R * nat) :=
  match ti_state it with
  | TR_BYE =>
      let! bye := lift (get_bye it) in
      let! '(bye, ok) := lift (bye_parse host m bye) in
      if ok then process_goodbye_ fuel bye r else ret (r, 1%nat)
  | _ => ret (r, O)
  end.

(** [process_all_descriptions_], [process_all_reports_] and [process_all_goodbyes_] *)
Definition process_all (f : nat -> TrIterator -> R -> run (R * nat)) (fuel : nat) (t : Traverser)
    (r : R) : run (R * nat) :=
  let! it := lift (tr_iter t) in
  packet_loop fuel (f fuel) it r 0.

Definition process_all_descriptions := process_all description_packet.

Definition process_all_reports := process_all report_packet.

Definition process_all_goodbyes := process_all goodbye_packet.

(** The passes of [process_packet] over a parsed compound packet. *)
Definition process_passes (fuel : nat) (t : Traverser) (r : R) : run (R * nat) :=
  let! '(r, n1) := process_all_descriptions fuel t r in
  let! '(r, n2) := process_all_reports fuel t r in
  let! '(r, n3) := process_all_goodbyes fuel t r in
  ret (r, (n1 + n2 + n3)%nat).

End Processing.

(** * Communicator *)

Record Communicator (R : Type) : Type := mkCommunicator {
  c_config : BuilderConfig;
  c_report_interval : Z;
  c_reporter : R;
  c_next_deadline : Z;
  c_dest_addr_count : nat;
  c_dest_addr_index : nat;
  c_send_stream_count : nat;
  c_send_stream_index : nat;
  c_recv_stream_count : nat;
  c_recv_stream_index : nat;
  c_max_pkt_streams : nat;
  c_cur_pkt_send_stream : nat;
  c_cur_pkt_recv_stream : nat;
  c_error_count : nat;
  c_processed_packet_count : nat;
  c_generated_packet_count : nat;
}.

Arguments mkCommunicator {R}.
Arguments c_config {R}.
Arguments c_report_interval {R}.
Arguments c_reporter {R}.
Arguments c_next_deadline {R}.
Arguments c_dest_addr_count {R}.
Arguments c_dest_addr_index {R}.
Arguments c_send_stream_count {R}.
Arguments c_send_stream_index {R}.
Arguments c_recv_stream_count {R}.
Arguments c_recv_stream_index {R}.
Arguments c_max_pkt_streams {R}.
Arguments c_cur_pkt_send_stream {R}.
Arguments c_cur_pkt_recv_stream {R}.
Arguments c_error_count {R}.
Arguments c_processed_packet_count {R}.
Arguments c_generated_packet_count {R}.

(** A communicator whose reporter is valid. *)
Definition communicator_new {R} (config : BuilderConfig) (report_interval : Z) (r : R)
  : Communicator R :=
  mkCommunicator config report_interval r 0 0 0 0 0 0 0 (Z.to_nat MaxPacketBlocks) 0 0 0 0 0.

Section Process.

Context (host : cpu_endian) {R : Type} `{IReporter R}.

(** Reporter and counters of a communicator updated. *)
Definition c_processed (c : Communicator R) (r : R) (errors : nat) : Communicator R :=
  mkCommunicator (c_config c) (c_report_interval c) r (c_next_deadline c)
    (c_dest_addr_count c) (c_dest_addr_index c) (c_send_stream_count c) (c_send_stream_index c)
    (c_recv_stream_count c) (c_recv_stream_index c) (c_max_pkt_streams c)
    (c_cur_pkt_send_stream c) (c_cur_pkt_recv_stream c) (c_error_count c + errors)
    (c_processed_packet_count c + 1) (c_generated_packet_count c).

Definition process_packet (fuel : nat) (packet : PacketPtr) (current_time : Z)
    (c : Communicator R) : run (StatusCode * Communicator R) :=
  match packet with
  | None => Panic
  | Some packet =>
      match packet_udp packet, packet_rtcp packet with
      | Some udp, Some payload =>
          if current_time <=? 0 then Panic
          else
            let m := pkt_mem packet in
            let! t := lift (traverser payload) in
            let! '(t, ok) := lift (tr_parse t) in
            if negb ok then ret (StatusOK, c_processed c (c_reporter c) 1)
            else
              let! '(status, r) := lift (begin_processing (src_addr udp) current_time (c_reporter c)) in
              match status with
              | StatusOK =>
                  let! '(r, errors) := process_passes host m fuel t r in
                  let! '(status, r) := lift (end_processing r) in
                  ret (status, c_processed c r errors)
              | _ => ret (status, c_processed c r 0)
              end
      | _, _ => Panic
      end
  end.

End Process.
