(* ===== verification/RtcpRecorder.v ===== *)
(** What the communicator tells the reporter about a received packet, as a list of
    events, and a reporter that only records them. *)

From S2P Require Import Prelude Bytes Slice Io.
From S2P Require Import RtcpHeaders RtcpTraverser RtcpBuilder RtcpCommunicator.

(** * What the reporter is told *)

Inductive event : Type :=
| EvCname (ssrc : Z) (item : Z * bytes)
| EvSr (sr : bytes)
| EvBlock (ssrc : Z) (blk : bytes)
| EvDlrr (xr blk : bytes)
| EvRrtr (xr blk : bytes)
| EvMeasurementInfo (xr blk : bytes)
| EvDelayMetrics (xr blk : bytes)
| EvQueueMetrics (xr blk : bytes)
| EvGoodbye (ssrc : Z).

Definition deliver `{IReporter R} (e : event) (r : R) : res R :=
  match e with
  | EvCname ssrc item => process_cname ssrc item r
  | EvSr sr => process_sr sr r
  | EvBlock ssrc blk => process_reception_block ssrc blk r
  | EvDlrr xr blk => process_dlrr_subblock xr blk r
  | EvRrtr xr blk => process_rrtr_block xr blk r
  | EvMeasurementInfo xr blk => process_measurement_info_block xr blk r
  | EvDelayMetrics xr blk => process_delay_metrics_block xr blk r
  | EvQueueMetrics xr blk => process_queue_metrics_block xr blk r
  | EvGoodbye ssrc => process_goodbye ssrc r
  end.

Fixpoint deliver_all `{IReporter R} (es : list event) (r : R) : res R :=
  match es with
  | [] => Ok r
  | e :: es => let* r := deliver e r in deliver_all es r
  end.

Lemma deliver_all_app `{IReporter R} es1 es2 (r : R) :
  deliver_all (es1 ++ es2) r = (let* r := deliver_all es1 r in deliver_all es2 r).
Proof.
  revert r. induction es1 as [|e es1 IH]; intros r; [done|]. simpl.
  destruct (deliver e r); simpl; [apply IH|done].
Qed.

(** * The recorder *)

Definition recorder : Type := list event.

Definition record (e : event) (r : recorder) : res recorder := Ok (r ++ [e]).

(** It has no streams of its own, so it generates nothing. *)
#[global] Instance recorder_reporter : IReporter recorder := {|
  begin_processing _ _ r := Ok (StatusOK, r);
  process_cname ssrc item := record (EvCname ssrc item);
  process_sr sr := record (EvSr sr);
  process_reception_block ssrc blk := record (EvBlock ssrc blk);
  process_dlrr_subblock xr blk := record (EvDlrr xr blk);
  process_rrtr_block xr blk := record (EvRrtr xr blk);
  process_measurement_info_block xr blk := record (EvMeasurementInfo xr blk);
  process_delay_metrics_block xr blk := record (EvDelayMetrics xr blk);
  process_queue_metrics_block xr blk := record (EvQueueMetrics xr blk);
  process_goodbye ssrc := record (EvGoodbye ssrc);
  end_processing r := Ok (StatusOK, r);
  is_sending _ := false;
  is_receiving _ := false;
  begin_generation _ r := Ok (StatusOK, r);
  num_dest_addresses _ := O;
  num_sending_streams _ _ := O;
  num_receiving_streams _ _ := O;
  generate_dest_address _ r := Ok (None, r);
  generate_cname r := Ok (0, (SDES_CNAME, []), r);
  generate_sr r := Ok ([], r);
  generate_rr r := Ok ([], r);
  generate_reception_block _ _ r := Ok ([], r);
  generate_xr r := Ok ([], r);
  generate_dlrr_subblock _ _ r := Ok ([], r);
  generate_rrtr_block r := Ok ([], r);
  generate_measurement_info_block _ _ r := Ok ([], r);
  generate_delay_metrics_block _ _ r := Ok ([], r);
  generate_queue_metrics_block _ _ r := Ok ([], r);
  need_goodbye _ := false;
  generate_goodbye_ssrc r := Ok (0, r);
  end_generation r := Ok (StatusOK, r);
|}.

Lemma deliver_recorder e (r : recorder) : deliver e r = Ok (r ++ [e]).
Proof. by destruct e. Qed.

Lemma deliver_all_recorder es (r : recorder) : deliver_all es r = Ok (r ++ es).
Proof.
  revert r. induction es as [|e es IH]; intros r; simpl; [by rewrite app_nil_r|].
  rewrite deliver_recorder. simpl. by rewrite IH, <- app_assoc.
Qed.
