(* ===== verification/RtcpProcessingSafe.v ===== *)
(** Processing of received RTCP packets is safe and terminates: whatever bytes a
    compound packet holds, the communicator takes it apart without panicking, reading
    out of bounds or looping, and leaves the reporter idle. *)

From S2P Require Import Prelude Bytes Slice Packet Io.
From S2P Require Import RtcpHeaders RtcpTraverser RtcpTraverserSafe RtcpBuilder RtcpWire RtcpCommunicator.
From S2P Require Import RtcpRecorder.

Definition is_bytes (n : nat) (bs : bytes) : Prop := length bs = n /\ Forall is_byte bs.

(** A time in nanoseconds since the Unix epoch, with room for one more. *)
Definition is_time (time : Z) : Prop := 0 < time < 2 ^ 63 - 1.

(** What the reporter promises: between [begin_processing] and [end_processing] it
    accepts any blocks, and names that fit a text item. *)
Class ProcessingReporter (R : Type) `{IReporter R} : Type := {
  idle : R -> Prop;
  processing : R -> Prop;
  (** The time at which a call may be made. *)
  may_begin : Z -> R -> Prop;
  begin_processing_ok addr time r :
    idle r -> may_begin time r ->
    exists status r', begin_processing addr time r = Ok (status, r')
      /\ (if decide (status = StatusOK) then processing r' else idle r');
  process_cname_ok ssrc text r :
    processing r -> text <> [] -> (length text <= MaxTextLen)%nat ->
    exists r', process_cname ssrc (SDES_CNAME, text) r = Ok r' /\ processing r';
  process_sr_ok sr r :
    processing r -> is_bytes sizeof_SenderReportPacket sr ->
    exists r', process_sr sr r = Ok r' /\ processing r';
  process_reception_block_ok ssrc blk r :
    processing r -> is_bytes sizeof_ReceptionReportBlock blk ->
    exists r', process_reception_block ssrc blk r = Ok r' /\ processing r';
  process_dlrr_subblock_ok xr blk r :
    processing r -> is_bytes sizeof_XrPacket xr -> is_bytes sizeof_XrDlrrSubblock blk ->
    exists r', process_dlrr_subblock xr blk r = Ok r' /\ processing r';
  process_rrtr_block_ok xr blk r :
    processing r -> is_bytes sizeof_XrPacket xr -> is_bytes sizeof_XrRrtrBlock blk ->
    exists r', process_rrtr_block xr blk r = Ok r' /\ processing r';
  process_measurement_info_block_ok xr blk r :
    processing r -> is_bytes sizeof_XrPacket xr -> is_bytes sizeof_XrMeasurementInfoBlock blk ->
    exists r', process_measurement_info_block xr blk r = Ok r' /\ processing r';
  process_delay_metrics_block_ok xr blk r :
    processing r -> is_bytes sizeof_XrPacket xr -> is_bytes sizeof_XrDelayMetricsBlock blk ->
    exists r', process_delay_metrics_block xr blk r = Ok r' /\ processing r';
  process_queue_metrics_block_ok xr blk r :
    processing r -> is_bytes sizeof_XrPacket xr -> is_bytes sizeof_XrQueueMetricsBlock blk ->
    exists r', process_queue_metrics_block xr blk r = Ok r' /\ processing r';
  process_goodbye_ok ssrc r :
    processing r -> exists r', process_goodbye ssrc r = Ok r' /\ processing r';
  end_processing_ok r :
    processing r -> exists status r', end_processing r = Ok (status, r') /\ idle r';
}.

Section Safe.

Context (host : cpu_endian) {R : Type} `{ProcessingReporter R}.
Context (m : bytes).
Hypothesis Hbytes : Forall is_byte m.

(** The outcome of a pass over some elements. *)
Definition passes (x : run (R * nat)) : Prop :=
  exists r n, x = ret (r, n) /\ processing r.

Lemma is_bytes_slice off n : (off + n <= length m)%nat -> is_bytes n (slice_of m off n).
Proof using Hbytes. intros. split; [by apply length_slice_of|by apply slice_of_Forall]. Qed.

Lemma description_loop_ok fuel it chunk r :
  si_ok m it -> (si_rank it < fuel)%nat -> processing r ->
  passes (description_loop host m fuel it chunk r).
Proof using.
  revert it chunk r. induction fuel as [|fuel IH]; intros it chunk r Hok Hf Hr; [lia|].
  cbn [description_loop].
  destruct (sdes_next_ok host m it Hok) as (it' & -> & _ & Hok' & Hnb & Hrank).
  unfold lift. cbn [res_bind ret run_bind]. destruct (si_state it') eqn:E.
  - done.
  - unfold sdes_get_chunk. rewrite E. cbn [res_bind ret run_bind].
    apply IH; try done. destruct Hrank as [?|?]; [congruence|lia].
  - unfold sdes_get_item. rewrite E. cbn [res_bind ret run_bind fst snd].
    assert (forall r, processing r -> passes (description_loop host m fuel it' chunk r)) as Hrec.
    { intros r' Hr'. apply IH; try done. destruct Hrank as [?|?]; [congruence|lia]. }
    case_if; [by apply Hrec|]. case_bool_decide as Hnil; [by apply Hrec|].
    rewrite Heqb. destruct (process_cname_ok chunk (c_str (si_parsed_item_text it')) r Hr Hnil)
      as (r' & -> & Hr'); [by destruct Hok' as (_ & Ht & _); apply text_ok_length in Ht|]. cbn [res_bind ret run_bind]. by apply Hrec.
  - by eexists _, _.
Qed.

Lemma goodbye_loop_ok fuel it r :
  bi_ok m it -> (bi_rank it < fuel)%nat -> processing r ->
  passes (goodbye_loop host m fuel it r).
Proof using.
  revert it r. induction fuel as [|fuel IH]; intros it r Hok Hf Hr; [lia|].
  cbn [goodbye_loop].
  destruct (bye_next_ok host m it Hok) as (it' & -> & _ & Hok' & Hnb & Hrank).
  unfold lift. cbn [res_bind ret run_bind]. destruct (bi_state it') eqn:E.
  - done.
  - unfold bye_get_ssrc. rewrite E. cbn [res_bind ret run_bind].
    destruct (process_goodbye_ok (bi_parsed_ssrc it') r Hr) as (r' & -> & Hr').
    cbn [res_bind ret run_bind]. apply IH; try done. destruct Hrank as [?|?]; [congruence|lia].
  - apply IH; try done. destruct Hrank as [?|?]; [congruence|lia].
  - by eexists _, _.
Qed.

Lemma for_blocks_ok num n f r :
  processing r ->
  (forall i r, (n <= i < n + num)%nat -> processing r -> exists r', f i r = Ok r' /\ processing r') ->
  exists r', for_blocks num n f r = Ok r' /\ processing r'.
Proof using.
  revert n r. induction num as [|num IH]; intros n r Hr Hf; simpl; [by exists r|].
  destruct (Hf n r) as (r1 & -> & Hr1); [lia|done|]. simpl. apply IH; [done|].
  intros. apply Hf; [lia|done].
Qed.

Lemma get_block_ok blk_size pkt_size p n num :
  (n < num)%nat -> get_block_by_index blk_size pkt_size p n num = Ok (p + pkt_size + n * blk_size)%nat.
Proof using. intros. unfold get_block_by_index. by rewrite (proj2 (Nat.leb_gt _ _)). Qed.

Lemma reception_blocks_ok ssrc get hdr p num r :
  processing r -> (forall n, get n = get_block_by_index sizeof_ReceptionReportBlock hdr p n num) ->
  (p + hdr + num * sizeof_ReceptionReportBlock <= length m)%nat ->
  exists r', for_blocks num 0 (fun n r =>
    let* blk := get n in
    process_reception_block ssrc (slice_of m blk sizeof_ReceptionReportBlock) r) r = Ok r'
    /\ processing r'.
Proof using Hbytes.
  intros Hr Hget Hfit. apply for_blocks_ok; [done|]. intros i r' Hi Hr'.
  rewrite Hget, get_block_ok by lia. simpl. apply process_reception_block_ok; [done|].
  apply is_bytes_slice. nia.
Qed.

Lemma report_fits st s :
  pkt_fits host m st s -> (sl_off s + sl_size s <= length m)%nat.
Proof using. intros [Hs _]. by apply slice_in_fits. Qed.

Lemma process_sender_report_ok s r :
  processing r -> pkt_fits host m TR_SR s ->
  exists r', process_sender_report host m (sl_off s) r = Ok r' /\ processing r'.
Proof using Hbytes.
  intros Hr HF. pose proof (report_fits _ _ HF) as Hlen. destruct HF as [_ Hn].
  unfold process_sender_report.
  destruct (process_sr_ok (slice_of m (sl_off s) sizeof_SenderReportPacket) r Hr) as (r1 & -> & Hr1).
  { apply is_bytes_slice. lia. }
  simpl. apply reception_blocks_ok with sizeof_SenderReportPacket (sl_off s); try done.
  unfold sr_num_blocks in *. lia.
Qed.

Lemma process_receiver_report_ok s r :
  processing r -> pkt_fits host m TR_RR s ->
  exists r', process_receiver_report host m (sl_off s) r = Ok r' /\ processing r'.
Proof using Hbytes.
  intros Hr HF. pose proof (report_fits _ _ HF) as Hlen. destruct HF as [_ Hn].
  apply reception_blocks_ok with sizeof_ReceiverReportPacket (sl_off s); try done.
  unfold rr_num_blocks in *. lia.
Qed.

Lemma process_xr_block_ok t it r :
  xt_parsed t = true -> slice_in m (xt_buf t) -> (sizeof_XrPacket <= sl_size (xt_buf t))%nat ->
  xi_ok host m it -> processing r ->
  exists r', process_xr_block host m t it r = Ok r' /\ processing r'.
Proof using Hbytes.
  intros Hp Hs H8 [Hsi Hst] Hr. unfold process_xr_block, xr_packet. rewrite Hp.
  cbn [negb panic_if]. unfold slice_data. rewrite (slice_in_data m) by done. cbn [res_bind].
  pose proof (slice_in_fits _ _ Hs). pose proof (slice_in_fits _ _ Hsi).
  assert (is_bytes sizeof_XrPacket (slice_of m (sl_off (xt_buf t)) sizeof_XrPacket)) as Hx
    by (apply is_bytes_slice; lia).
  unfold get_rrtr, get_dlrr, get_measurement_info, get_delay_metrics, get_queue_metrics, xi_get.
  destruct (xi_state it) eqn:E; try (by exists r); destruct Hst as (Hh & H4 & _ & Hfit & Hblk);
    rewrite Hh, E in *; cbn [negb panic_if res_bind xr_block_fits] in *.
  - apply process_rrtr_block_ok; try done. apply is_bytes_slice. lia.
  - apply for_blocks_ok; [done|]. intros i r' Hi Hr'. unfold dlrr_get_subblock.
    rewrite get_block_ok by lia. simpl. apply process_dlrr_subblock_ok; try done.
    apply is_bytes_slice. unfold sizeof_XrDlrrBlock, sizeof_XrDlrrSubblock in *. nia.
  - apply process_measurement_info_block_ok; try done. apply is_bytes_slice. lia.
  - apply process_delay_metrics_block_ok; try done. apply is_bytes_slice. lia.
  - apply process_queue_metrics_block_ok; try done. apply is_bytes_slice. lia.
Qed.

Lemma extended_report_loop_ok fuel t it r :
  xt_parsed t = true -> slice_in m (xt_buf t) -> (sizeof_XrPacket <= sl_size (xt_buf t))%nat ->
  xi_ok host m it -> (sl_size (xi_buf it) + xi_rank it < fuel)%nat -> processing r ->
  passes (extended_report_loop host m fuel t it r).
Proof using Hbytes.
  intros Hp Hs H8. revert it r. induction fuel as [|fuel IH]; intros it r Hok Hf Hr; [lia|].
  cbn [extended_report_loop].
  destruct (xr_next_ok host m Hbytes (S fuel) it Hok) as (it' & -> & Hb & Hok' & _ & Hrank); [lia|].
  cbn [run_bind ret].
  destruct (decide (xi_state it' = XR_END)) as [->|Hne]; [by eexists _, _|].
  destruct Hrank as [?|Hrank]; [done|].
  destruct (process_xr_block_ok t it' r) as (r' & Hx & Hr'); try done.
  rewrite Hx. unfold lift. cbn [res_bind ret run_bind].
  specialize (IH it' r' Hok' ltac:(rewrite Hb; lia) Hr'). by destruct (xi_state it').
Qed.

(** A pass over the packet an iterator is on. *)
Lemma description_packet_ok fuel it r :
  ti_ok host m it -> ti_state it <> TR_END -> ti_state it <> TR_BEGIN ->
  (fuel_for (ti_buf it) <= fuel)%nat -> processing r ->
  passes (description_packet host m fuel it r).
Proof using Hbytes.
  intros [Hs Hst] _ _ Hf Hr. unfold description_packet.
  destruct (ti_state it) eqn:E; try (by eexists _, _).
  destruct Hst as (_ & _ & [Hps Hlen] & Hsz). unfold get_sdes, sdes_traverser. rewrite E.
  destruct Hps as (Hw & Hb & Hbs). rewrite Hb. cbn [negb panic_if]. unfold lift at 1.
  cbn [res_bind ret run_bind].
  destruct (sdes_parse_ok host m Hbytes (mkSdesTraverser (ti_cur_pkt_slice it) false 0))
    as (t' & ok & -> & Hok); try done. unfold lift. cbn [res_bind ret run_bind].
  destruct ok; [|by eexists _, _]. destruct (Hok eq_refl) as (si & Hi & Hsi & Hn).
  unfold process_description. rewrite Hi. unfold lift. cbn [res_bind ret run_bind].
  apply description_loop_ok; try done. cbn [st_buf] in Hn. unfold fuel_for, si_rank in *.
  destruct (si_state si); lia.
Qed.

Lemma goodbye_packet_ok fuel it r :
  ti_ok host m it -> ti_state it <> TR_END -> ti_state it <> TR_BEGIN ->
  (fuel_for (ti_buf it) <= fuel)%nat -> processing r ->
  passes (goodbye_packet host m fuel it r).
Proof using Hbytes.
  intros [Hs Hst] _ _ Hf Hr. unfold goodbye_packet.
  destruct (ti_state it) eqn:E; try (by eexists _, _).
  destruct Hst as (_ & _ & [Hps Hlen] & Hsz). unfold get_bye, bye_traverser. rewrite E.
  destruct Hps as (Hw & Hb & Hbs). rewrite Hb. cbn [negb panic_if]. unfold lift at 1.
  cbn [res_bind ret run_bind].
  destruct (bye_parse_ok host m Hbytes (mkByeTraverser (ti_cur_pkt_slice it) false 0))
    as (t' & ok & -> & Hok); try done. unfold lift. cbn [res_bind ret run_bind].
  destruct ok; [|by eexists _, _]. destruct (Hok eq_refl) as (bi & Hi & Hbi & Hn).
  unfold process_goodbye_. rewrite Hi. unfold lift. cbn [res_bind ret run_bind].
  apply goodbye_loop_ok; try done. cbn [bt_buf] in Hn. unfold fuel_for, bi_rank in *.
  destruct (bi_state bi); lia.
Qed.

Lemma report_packet_ok fuel it r :
  ti_ok host m it -> ti_state it <> TR_END -> ti_state it <> TR_BEGIN ->
  (fuel_for (ti_buf it) <= fuel)%nat -> processing r ->
  passes (report_packet host m fuel it r).
Proof using Hbytes.
  intros [Hs Hst] _ _ Hf Hr. unfold report_packet.
  destruct (ti_state it) eqn:E; try (by eexists _, _);
    destruct Hst as (_ & _ & HF & Hsz); pose proof HF as [Hps Hlen].
  - unfold get_sr, slice_data. rewrite E, (slice_in_data m) by done. unfold lift.
    cbn [res_bind ret run_bind].
    destruct (process_sender_report_ok _ r Hr HF) as (r' & -> & Hr').
    cbn [res_bind ret run_bind]. by eexists _, _.
  - unfold get_rr, slice_data. rewrite E, (slice_in_data m) by done. unfold lift.
    cbn [res_bind ret run_bind].
    destruct (process_receiver_report_ok _ r Hr HF) as (r' & -> & Hr').
    cbn [res_bind ret run_bind]. by eexists _, _.
  - unfold get_xr, xr_traverser. rewrite E. pose proof Hps as (_ & Hb & _). rewrite Hb.
    cbn [negb panic_if]. unfold lift at 1. cbn [res_bind ret run_bind].
    destruct (xr_parse_ok host m Hbytes fuel (mkXrTraverser (ti_cur_pkt_slice it) false 0))
      as (t' & ok & -> & Hok); try done.
    { unfold fuel_for in *. cbn [xt_buf]. lia. }
    cbn [res_bind ret run_bind]. destruct ok; [|by eexists _, _].
    destruct (Hok eq_refl) as (Hp & Hxs & _ & H8 & Hle). unfold process_extended_report, xr_iter.
    rewrite Hp. unfold lift. cbn [negb panic_if res_bind ret run_bind].
    cbn [xt_buf] in Hle. apply extended_report_loop_ok; try done.
    unfold xi_rank, fuel_for in *. simpl. lia.
Qed.

Lemma packet_loop_ok fuel f it r errors :
  ti_ok host m it -> (sl_size (ti_buf it) + ti_rank it < fuel)%nat -> processing r ->
  (forall it' r, ti_ok host m it' -> ti_buf it' = ti_buf it -> ti_state it' <> TR_END ->
     ti_state it' <> TR_BEGIN -> processing r -> passes (f it' r)) ->
  passes (packet_loop host m fuel f it r errors).
Proof using Hbytes.
  revert it r errors. induction fuel as [|fuel IH]; intros it r errors Hok Hf Hr Hp; [lia|].
  cbn [packet_loop].
  destruct (tr_next_ok host m Hbytes (S fuel) it Hok) as (it' & -> & Hb & Hok' & Hrank); [lia|].
  cbn [run_bind ret].
  destruct (decide (ti_state it' = TR_END)) as [->|Hne]; [by eexists _, _|].
  destruct Hrank as [?|Hrank]; [done|].
  assert (ti_state it' <> TR_BEGIN) as Hnb.
  { intros Eb. revert Hrank. unfold ti_rank. rewrite Eb, Hb. destruct (ti_state it); lia. }
  destruct (Hp it' r Hok' Hb Hne Hnb Hr) as (r' & n & Hfr & Hr'). rewrite Hfr.
  cbn [run_bind ret].
  assert (passes (packet_loop host m fuel f it' r' (errors + n))) as Hrec.
  { apply IH; try done; [rewrite Hb; lia|]. intros. apply Hp; try done. congruence. }
  by destruct (ti_state it').
Qed.

Lemma process_all_ok f fuel t r :
  slice_in m (tr_buf t) -> tr_parsed t = true -> (fuel_for (tr_buf t) <= fuel)%nat -> processing r ->
  (forall it r, ti_ok host m it -> ti_state it <> TR_END -> ti_state it <> TR_BEGIN ->
     (fuel_for (ti_buf it) <= fuel)%nat -> processing r -> passes (f fuel it r)) ->
  passes (process_all host m f fuel t r).
Proof using Hbytes.
  intros Hs Hp Hf Hr Hfp. unfold process_all, tr_iter. rewrite Hp. unfold lift.
  cbn [negb panic_if res_bind ret run_bind].
  apply packet_loop_ok; try done.
  - unfold fuel_for, ti_rank in *. simpl. lia.
  - intros it r' Hok Hb Hne Hnb Hr'. apply Hfp; try done. by rewrite Hb.
Qed.

Lemma process_passes_ok fuel t r :
  slice_in m (tr_buf t) -> tr_parsed t = true -> (fuel_for (tr_buf t) <= fuel)%nat -> processing r ->
  passes (process_passes host m fuel t r).
Proof using Hbytes.
  intros Hs Hp Hf Hr. unfold process_passes.
  destruct (process_all_ok (description_packet host m) fuel t r) as (r1 & n1 & E1 & Hr1); try done;
    [apply description_packet_ok|].
  destruct (process_all_ok (report_packet host m) fuel t r1) as (r2 & n2 & E2 & Hr2); try done;
    [apply report_packet_ok|].
  destruct (process_all_ok (goodbye_packet host m) fuel t r2) as (r3 & n3 & E3 & Hr3); try done;
    [apply goodbye_packet_ok|].
  unfold process_all_descriptions, process_all_reports, process_all_goodbyes.
  rewrite E1. cbn [run_bind ret]. rewrite E2. cbn [run_bind ret]. rewrite E3. cbn [run_bind ret].
  by eexists _, _.
Qed.

End Safe.

Lemma process_packet_safe (host : cpu_endian) {R : Type} `{ProcessingReporter R}
    (p : Packet) (payload : Slice) (current_time : Z) (c : Communicator R) :
  has_flags p FlagUDP = true -> packet_rtcp p = Some payload ->
  Forall is_byte (pkt_mem p) -> slice_in (pkt_mem p) payload ->
  0 < current_time -> may_begin current_time (c_reporter c) -> idle (c_reporter c) ->
  exists status c', process_packet host (fuel_for payload) (Some p) current_time c = ret (status, c')
    /\ idle (c_reporter c')
    /\ c_processed_packet_count c' = (c_processed_packet_count c + 1)%nat.
Proof.
  intros Hu Hp Hb Hs Ht Hmay Hi. unfold process_packet, packet_udp. rewrite Hu, Hp.
  rewrite (proj2 (Z.leb_gt _ _)) by lia. unfold traverser. pose proof Hs as (_ & Hbool & _).
  rewrite Hbool. unfold lift at 1. cbn [negb panic_if res_bind ret run_bind].
  unfold tr_parse. cbn [tr_parsed panic_if tr_buf].
  destruct (sl_size payload <? sizeof_PacketHeader)%nat; unfold lift at 1;
    cbn [negb panic_if res_bind ret run_bind].
  { eexists _, _. split; [done|]. split; [done|done]. }
  destruct (begin_processing_ok (src_addr (udp_ p)) current_time (c_reporter c) Hi Hmay)
    as (status & r & -> & Hr). unfold lift at 1. cbn [res_bind ret run_bind].
  destruct (decide (status = StatusOK)) as [->|Hne].
  - destruct (process_passes_ok host (pkt_mem p) Hb (fuel_for payload) (mkTraverser payload true) r)
      as (r' & n & -> & Hr'); try done. cbn [run_bind ret].
    destruct (end_processing_ok r' Hr') as (st & r'' & -> & Hi'). unfold lift. cbn [res_bind ret run_bind].
    by eexists _, _.
  - destruct status; try done; by eexists _, _.
Qed.

(** C13: a received RTCP packet with arbitrary bytes is processed in a bounded number of
    steps without panicking or reading outside its buffer, whatever the reporter does
    with the blocks as long as it accepts them; the reporter is left idle, so the next
    packet can be processed. *)
Theorem rtcp_processing_safe (host : cpu_endian) {R : Type} `{ProcessingReporter R}
    (p : Packet) (payload : Slice) (current_time : Z) (c : Communicator R) :
  has_flags p FlagUDP = true -> packet_rtcp p = Some payload ->
  Forall is_byte (pkt_mem p) -> slice_in (pkt_mem p) payload ->
  0 < current_time -> may_begin current_time (c_reporter c) -> idle (c_reporter c) ->
  exists status c', process_packet host (fuel_for payload) (Some p) current_time c = ret (status, c')
    /\ idle (c_reporter c')
    /\ c_processed_packet_count c' = (c_processed_packet_count c + 1)%nat.
Proof. apply process_packet_safe. Qed.

(** The recorder keeps the promise. *)
#[global] Instance recorder_processing : ProcessingReporter recorder.
Proof.
  refine {| idle := fun _ => True; processing := fun _ => True; may_begin := fun _ _ => True |};
    intros; (eexists; split; [done|done]) || (eexists _, _; split; [done|]; done).
Defined.

(** An unknown packet type, then a goodbye that announces two sources and holds one. *)
Definition sample_rtcp_packet : Packet :=
  let m := [0x80; 199; 0; 0] ++ [0x82; 203; 0; 1; 0; 0; 0; 7] in
  mkPacket (Z.lor FlagUDP (Z.lor FlagControl FlagRTCP)) UDP_zero RTP_zero FEC_zero
    (slice_whole 12) (slice_whole 12) m.

Lemma rtcp_processing_safe_witness :
  exists c',
    process_packet CPU_LE (fuel_for (slice_whole 12)) (Some sample_rtcp_packet) 1
      (communicator_new (mkBuilderConfig true true true) 1 ([] : recorder)) = ret (StatusOK, c')
    /\ c_processed_packet_count c' = 1%nat /\ c_error_count c' = 1%nat /\ c_reporter c' = [EvGoodbye 7].
Proof.
  destruct (rtcp_processing_safe CPU_LE sample_rtcp_packet (slice_whole 12) 1
    (communicator_new (mkBuilderConfig true true true) 1 ([] : recorder)))
    as (status & c' & E & _ & Hn); [reflexivity|reflexivity|closed|closed|lia|exact I|exact I|].
  exists c'. revert Hn.
  vm_compute in E. injection E as <- <-. intros Hn. split; [vm_compute; reflexivity|].
  split; [exact Hn|]. split; reflexivity.
Defined.
