(* ===== verification/RtcpDecodes.v ===== *)
(** The traversers read the encoding back: over memory that holds the encoding of a
    packet (RtcpWire.v), the iterators yield the elements of its description, and the
    communicator's passes hand exactly these elements to the reporter. *)

From S2P Require Import Prelude Bytes Slice Packet Io.
From S2P Require Import RtcpHeaders RtcpTraverser RtcpTraverserSafe RtcpBuilder RtcpWire.
From S2P Require Import RtcpBuilderEncodes RtcpBuilderCorrect RtcpCommunicator RtcpRecorder.

(** * The events of a packet *)

(** The header of a packet on the wire. *)
Definition wire_header (p : rtcp_pkt) (pad : nat) : bytes :=
  [0x80 + (if (pad =? 0)%nat then 0 else 0x20) + Z.of_nat (pkt_count p); pkt_type p]
  ++ enc_len (pkt_size p pad).

Definition chunk_events (chunk : Z * list (Z * bytes)) : list event :=
  map (EvCname chunk.1) (List.filter (fun item => item.1 =? SDES_CNAME) chunk.2).

Definition block_events (xr : bytes) (blk : xr_block) : list event :=
  match blk with
  | BlkRrtr _ _ => [EvRrtr xr (enc_xr_block blk)]
  | BlkDlrr _ subs => map (EvDlrr xr) subs
  | BlkMeasurementInfo _ _ => [EvMeasurementInfo xr (enc_xr_block blk)]
  | BlkDelayMetrics _ _ => [EvDelayMetrics xr (enc_xr_block blk)]
  | BlkQueueMetrics _ _ => [EvQueueMetrics xr (enc_xr_block blk)]
  end.

(** The events of the three passes: names, reports, goodbyes. *)
Definition description_events (pad : nat) (p : rtcp_pkt) : list event :=
  match p with PktSdes chunks => concat (map chunk_events chunks) | _ => [] end.

Definition report_events (pad : nat) (p : rtcp_pkt) : list event :=
  match p with
  | PktSr body reports =>
      EvSr (wire_header p pad ++ body) :: map (EvBlock (be_value (take 4 body))) reports
  | PktRr body reports => map (EvBlock (be_value (take 4 body))) reports
  | PktXr body blocks => concat (map (block_events (wire_header p pad ++ body)) blocks)
  | _ => []
  end.

Definition goodbye_events (pad : nat) (p : rtcp_pkt) : list event :=
  match p with PktBye ssrcs _ => map EvGoodbye ssrcs | _ => [] end.

(** The events of a compound packet; the padding is that of the last packet. *)
Fixpoint compound_events (ev : nat -> rtcp_pkt -> list event) (ps : list rtcp_pkt) (pad : nat)
  : list event :=
  match ps with
  | [] => []
  | [p] => ev pad p
  | p :: ps => ev O p ++ compound_events ev ps pad
  end.

(** * Reading bytes that are known *)

(** The memory holds [bs] at [off]. *)
Definition holds_at (m : bytes) (off : nat) (bs : bytes) : Prop :=
  slice_of m off (length bs) = bs /\ (off + length bs <= length m)%nat.

Lemma holds_at_app m off a b :
  holds_at m off (a ++ b) <-> holds_at m off a /\ holds_at m (off + length a) b.
Proof.
  unfold holds_at. rewrite length_app. split.
  - intros [E H]. destruct (slice_of_split m off (length a + length b) a b) as [E1 E2]; [lia|done|].
    split; split; done || lia.
  - intros [[E1 H1] [E2 H2]]. split; [|lia]. by apply slice_of_app_r.
Qed.

Lemma holds_at_cons m off c bs :
  holds_at m off (c :: bs) -> m !!! off = c /\ holds_at m (off + 1) bs.
Proof.
  intros Hh. pose proof Hh as [E H]. split.
  - rewrite <- (Nat.add_0_r off), <- (lookup_total_slice_of m off (length (c :: bs)) 0), E
      by (simpl; lia). done.
  - change (c :: bs) with ([c] ++ bs) in Hh. apply holds_at_app in Hh as [_ Hh]. done.
Qed.

Lemma holds_at_sub m off bs i n :
  holds_at m off bs -> (i + n <= length bs)%nat -> slice_of m (off + i) n = slice_of bs i n.
Proof. intros [E H] Hi. rewrite <- (slice_of_slice_of m off (length bs)), E by lia. done. Qed.

Lemma holds_at_eq m off off' bs : holds_at m off bs -> off = off' -> holds_at m off' bs.
Proof. by intros Hh <-. Qed.

Section Read.

Context (host : cpu_endian) (m : bytes).
Hypothesis Hbytes : Forall is_byte m.

Lemma read32 off v : holds_at m off (be_bytes 4 v) -> is_u 32 v -> ntoh32u host (load host 4 m off) = v.
Proof using Hbytes.
  intros [E H] Hv. rewrite length_be_bytes in *. unfold ntoh32u.
  rewrite load32_net, E by done. by apply be_value_be_bytes.
Qed.

Lemma read32_bytes off bs :
  holds_at m off bs -> length bs = 4%nat -> ntoh32u host (load host 4 m off) = be_value bs.
Proof using Hbytes.
  intros [E H] Hl. rewrite Hl in *. unfold ntoh32u. by rewrite load32_net, E.
Qed.

Lemma read_len off size :
  holds_at m off (enc_len size) -> (4 <= size)%nat -> Z.of_nat size <= 65535 -> (size mod 4 = 0)%nat ->
  rtcp_length_2_size_t (ntoh16u host (load host 2 m off)) = size.
Proof using Hbytes.
  intros [E H] H4 Hz Hm. rewrite enc_len_length in *. unfold ntoh16u.
  rewrite load16_net, E by done. by apply enc_len_value.
Qed.

(** The fields of a packet header. *)
Lemma header_fields (pad n : nat) :
  (n <= 31)%nat ->
  let c := 0x80 + (if (pad =? 0)%nat then 0 else 0x20) + Z.of_nat n in
  get_bit_field c 6 0x03 = 2
  /\ get_bit_field c 5 0x01 = (if (pad =? 0)%nat then 0 else 1)
  /\ Z.to_nat (get_bit_field c 0 0x1F) = n.
Proof using.
  intros Hn. cbv zeta. destruct (pad =? 0)%nat; do 32 (destruct n as [|n]; [by vm_compute|]); lia.
Qed.

Lemma read_header p pad off :
  holds_at m off (wire_header p pad) -> (pkt_count p <= 31)%nat ->
  Z.of_nat (pkt_size p pad) <= 65535 -> (pkt_size p pad mod 4 = 0)%nat ->
  ph_version m off = RTCP_V2 /\ ph_type m off = pkt_type p /\ ph_counter m off = pkt_count p
  /\ ph_has_padding m off = negb (pad =? 0)%nat /\ ph_len_bytes host m off = pkt_size p pad.
Proof using Hbytes.
  intros HH Hn Hz Hm. unfold wire_header in HH.
  apply holds_at_cons in HH as [Hc HH]. apply holds_at_cons in HH as [Ht HH].
  destruct (header_fields pad (pkt_count p) Hn) as (F1 & F2 & F3).
  unfold ph_version, ph_type, ph_counter, ph_has_padding, ph_count_. rewrite Hc, F1, F2, F3, Ht.
  split_and!; try done; [by destruct (pad =? 0)%nat|].
  unfold ph_len_bytes, ph_len_words. rewrite <- Nat.add_assoc in HH.
  apply read_len; try done. unfold pkt_size. lia.
Qed.

End Read.

Section Elements.

Context (host : cpu_endian) {R : Type} `{IReporter R}.
Context (m : bytes) (buf : Slice).
Hypothesis Hbytes : Forall is_byte m.
Hypothesis Hbuf : slice_in m buf.

#[local] Notation off := (sl_off buf).
#[local] Notation size := (sl_size buf).

(** The outcome of a pass that delivers [es] without finding errors. *)
Definition delivers (x : run (R * nat)) (es : list event) (r : R) : Prop :=
  x = (let! r := lift (deliver_all es r) in ret (r, O)).

Lemma delivers_cons x e es r :
  (forall r', deliver e r = Ok r' -> delivers (x r') es r') ->
  delivers (let! r := lift (deliver e r) in x r) (e :: es) r.
Proof using.
  unfold delivers. intros Hx. simpl. destruct (deliver e r) as [r'|] eqn:E; simpl; [|done].
  by rewrite (Hx r').
Qed.

(** * BYE *)

Section Bye.

Context (reason : option bytes).
Hypothesis Hreason : match reason with None => True | Some text => is_text text = true end.

(** An iterator about to read the next element at [pos]. *)
Definition bye_at (it : ByeIterator) (l : list Z) : Prop :=
  bi_buf it = buf /\ bi_error it = false /\ length (bi_parsed_reason it) = (MaxTextLen + 1)%nat
  /\ bt_ssrc_count (bi_traverser it) = (bi_cur_ssrc it + length l)%nat
  /\ holds_at m (off + bi_cur_pos it) (concat (map (be_bytes 4) l) ++ enc_reason reason)
  /\ (bi_cur_pos it + length (concat (map (be_bytes 4) l) ++ enc_reason reason) = size)%nat.

Lemma bye_last it fuel r :
  bye_at it [] -> (2 <= fuel)%nat ->
  delivers (let! it := lift (bye_next_ssrc host m it) in
            match bi_state it with
            | BYE_END => ret (r, if bi_error it then 1%nat else 0%nat)
            | BYE_SSRC =>
                let! ssrc := lift (bye_get_ssrc it) in
                let! r := lift (process_goodbye ssrc r) in
                goodbye_loop host m fuel it r
            | _ => goodbye_loop host m fuel it r
            end) [] r.
Proof using Hbuf Hreason.
  intros (Hb & He & Hl & Hn & Hh & Hsz) Hf. unfold bye_next_ssrc. rewrite Hb, Hn.
  simpl length. rewrite Nat.add_0_r, Nat.eqb_refl. cbn [map concat app] in Hh, Hsz.
  destruct reason as [text|].
  - destruct (is_text_inv text) as (Ht & _ & _); [done|].
    cbn [enc_reason] in Hh, Hsz. apply holds_at_cons in Hh as [Hc Hh].
    rewrite !length_app in Hsz. cbn [length] in Hsz.
    rewrite (proj2 (Nat.ltb_lt _ _)) by lia. unfold sizeof_ByeReasonHeader.
    rewrite (proj2 (Nat.ltb_ge _ _)) by lia. rewrite (deref_ok m) by (done || lia).
    cbn [res_bind]. unfold byr_text_len. rewrite Hc, Nat2Z.id.
    rewrite (proj2 (Nat.ltb_ge _ _)) by lia. unfold parse_reason.
    cbn [bi_at bi_buf bi_cur_pos]. rewrite Hb, (deref_ok m) by (done || unfold sizeof_ByeReasonHeader; lia).
    cbn [res_bind bi_at bi_parsed_reason bi_state bi_error bi_traverser bi_cur_ssrc bi_parsed_ssrc].
    destruct (copy_text_ok m buf (byr_text (off + bi_cur_pos it)) (byr_text_len m (off + bi_cur_pos it))
      (bi_parsed_reason it)) as (a & Ea & _); [done|rewrite Hl; unfold MaxTextLen; lia|].
    rewrite Ea. unfold lift. cbn [res_bind ret run_bind bi_state].
    destruct fuel as [|[|fuel]]; [lia|lia|]. cbn [goodbye_loop]. unfold bye_next. cbn [bi_state].
    unfold lift. cbn [res_bind ret run_bind bi_at bi_state bi_error]. rewrite He. done.
  - cbn [enc_reason length] in Hsz. rewrite (proj2 (Nat.ltb_ge _ _)) by lia.
    unfold lift. cbn [res_bind ret run_bind bi_at bi_state bi_error]. rewrite He. done.
Qed.

Lemma goodbye_reads l it it0 fuel r :
  bye_next host m it = bye_next_ssrc host m it0 -> bye_at it0 l -> forallb is_u32 l = true ->
  (length l + 3 <= fuel)%nat ->
  delivers (goodbye_loop host m fuel it r) (map EvGoodbye l) r.
Proof using Hbuf Hreason Hbytes.
  revert it it0 fuel r. induction l as [|s l IH]; intros it it0 fuel r Hnext Hat Hu Hf;
    (destruct fuel as [|fuel]; [simpl in Hf; lia|]); cbn [goodbye_loop map]; rewrite Hnext.
  { apply bye_last; [done|simpl in Hf; lia]. }
  simpl in Hu. apply andb_true_iff in Hu as [Hs Hu]. apply (bool_decide_eq_true_1 (is_u 32 s)) in Hs.
  destruct Hat as (Hb & He & Hl & Hn & Hh & Hsz).
  cbn [map concat] in Hh, Hsz. rewrite <- app_assoc in Hh, Hsz.
  apply holds_at_app in Hh as [Hh1 Hh2]. rewrite length_app, length_be_bytes in *. cbn [length] in *.
  unfold bye_next_ssrc. rewrite (proj2 (Nat.eqb_neq _ _)) by lia. rewrite Hb.
  unfold sizeof_ByeSourceHeader. rewrite (proj2 (Nat.ltb_ge _ _)) by lia.
  unfold parse_ssrc. cbn [bi_at bi_buf bi_cur_pos]. rewrite Hb, (deref_ok m)
    by (done || unfold sizeof_ByeSourceHeader; lia).
  unfold lift at 1. cbn [res_bind ret run_bind bi_at bi_state]. unfold bye_get_ssrc. cbn [bi_state bi_parsed_ssrc].
  unfold bys_ssrc. rewrite (read32 host m Hbytes _ s) by done. unfold lift at 1. cbn [res_bind ret run_bind].
  apply (delivers_cons _ (EvGoodbye s)). intros r' _.
  eapply IH; [unfold bye_next; cbn [bi_state]; reflexivity| |done|simpl in Hf; lia].
  unfold bye_at. cbn [bi_at bi_buf bi_error bi_parsed_reason bi_traverser bi_cur_ssrc bi_cur_pos].
  unfold sizeof_ByeSourceHeader. split_and!; try done; try lia.
  by rewrite Nat.add_assoc.
Qed.

End Bye.

(** * XR *)

(** Blocks of equal size in a row. *)
Lemma holds_at_concat n (l : list bytes) pos i x :
  holds_at m pos (concat l) -> Forall (fun x => length x = n) l -> l !! i = Some x ->
  slice_of m (pos + i * n) n = x.
Proof using.
  revert pos i. induction l as [|y l IH]; intros pos i Hh Hl Hi; [done|].
  inv Hl. cbn [concat] in Hh. apply holds_at_app in Hh as [[E _] Hh2].
  destruct i as [|i]; simpl in Hi.
  - injection Hi as ->. by rewrite Nat.mul_0_l, Nat.add_0_r.
  - rewrite <- (IH _ i Hh2) by done. f_equal. lia.
Qed.

Lemma for_blocks_deliver (g : bytes -> event) (l : list bytes) n f r :
  (forall i x r, l !! i = Some x -> f (n + i)%nat r = deliver (g x) r) ->
  for_blocks (length l) n f r = deliver_all (map g l) r.
Proof using.
  revert n r. induction l as [|x l IH]; intros n r Hf; [done|]. simpl.
  rewrite <- (Nat.add_0_r n), (Hf O x) by done.
  destruct (deliver (g x) r) as [r'|]; [|done]. simpl. apply IH. intros i y r0 Hi.
  rewrite <- (Hf (S i) y) by done. f_equal. lia.
Qed.

Definition block_state (blk : xr_block) : XrState :=
  match blk with
  | BlkRrtr _ _ => RRTR_BLOCK
  | BlkDlrr _ _ => DLRR_BLOCK
  | BlkMeasurementInfo _ _ => MEASUREMENT_INFO_BLOCK
  | BlkDelayMetrics _ _ => DELAY_METRICS_BLOCK
  | BlkQueueMetrics _ _ => QUEUE_METRICS_BLOCK
  end.

(** A block as type, specific byte and body. *)
Definition block_parts (blk : xr_block) : Z * Z * bytes :=
  match blk with
  | BlkRrtr ts body => (XR_RRTR, ts, body)
  | BlkDlrr ts subs => (XR_DLRR, ts, concat subs)
  | BlkMeasurementInfo ts body => (XR_MEASUREMENT_INFO, ts, body)
  | BlkDelayMetrics ts body => (XR_DELAY_METRICS, ts, body)
  | BlkQueueMetrics ts body => (XR_QUEUE_METRICS, ts, body)
  end.

Lemma enc_block_parts blk :
  enc_xr_block blk =
    let '(t, ts, body) := block_parts blk in [t; ts] ++ enc_len (4 + length body) ++ body.
Proof using. by destruct blk. Qed.

Lemma length_enc_block blk : length (enc_xr_block blk) = (4 + length (block_parts blk).2)%nat.
Proof using.
  rewrite enc_block_parts. destruct (block_parts blk) as [[t ts] body].
  rewrite !length_app, enc_len_length. cbn [length snd]. lia.
Qed.

Lemma concat_length n (l : list bytes) :
  Forall (fun x => length x = n) l -> length (concat l) = (n * length l)%nat.
Proof using. induction 1 as [|x l Hx _ IH]; [simpl; lia|]. simpl. rewrite length_app, IH, Hx. lia. Qed.

Lemma forallb_len n l : forallb (bytes_of_len n) l = true -> Forall (fun x => length x = n) l.
Proof using.
  intros Hl. apply Forall_forall. intros x Hx.
  by destruct (bytes_of_len_inv n x (forallb_elem _ _ _ Hl Hx)).
Qed.

(** Type and length of a block that is in memory. *)
Lemma block_header blk pos :
  holds_at m pos (enc_xr_block blk) -> valid_block blk = true ->
  Z.of_nat (length (enc_xr_block blk)) <= 65535 ->
  xb_block_type m pos = (block_parts blk).1.1
  /\ xb_len_bytes host m pos = length (enc_xr_block blk)
  /\ holds_at m (pos + 4) (block_parts blk).2.
Proof using Hbytes.
  intros Hh HV Hz. pose proof (xr_block_mod4 blk HV) as Hm. rewrite length_enc_block in *.
  rewrite enc_block_parts in Hh. destruct (block_parts blk) as [[t ts] body]. cbn [fst snd] in *.
  apply holds_at_cons in Hh as [Ht Hh]. apply holds_at_cons in Hh as [_ Hh].
  apply holds_at_app in Hh as [Hlen Hh]. rewrite enc_len_length, <- !Nat.add_assoc in *.
  split; [exact Ht|]. split; [|exact Hh]. unfold xb_len_bytes, xb_len_words.
  apply read_len; try done. lia.
Qed.

Lemma switch_block blk pos :
  holds_at m pos (enc_xr_block blk) -> valid_block blk = true ->
  Z.of_nat (length (enc_xr_block blk)) <= 65535 ->
  xr_switch host m pos (length (enc_xr_block blk)) = (Some (block_state blk), false)
  /\ (forall ts subs, blk = BlkDlrr ts subs -> dlrr_num_subblocks host m pos = length subs).
Proof using Hbytes.
  intros Hh HV Hz. destruct (block_header blk pos Hh HV Hz) as (Ht & Hl & _).
  assert (forall ts subs, blk = BlkDlrr ts subs -> dlrr_num_subblocks host m pos = length subs) as Hsub.
  { intros ts subs ->. unfold dlrr_num_subblocks. rewrite Hl, length_enc_block. cbn [block_parts snd].
    simpl in HV. apply andb_true_iff in HV as [_ HV].
    rewrite (concat_length 12) by (by apply forallb_len). unfold sizeof_XrBlockHeader, sizeof_XrDlrrSubblock.
    rewrite Nat.add_comm, Nat.add_sub, Nat.mul_comm. by apply Nat.div_mul. }
  split; [|done]. unfold xr_switch. rewrite Ht, length_enc_block.
  destruct blk as [ts bd|ts subs|ts bd|ts bd|ts bd]; simpl in HV; apply andb_true_iff in HV as [_ HV];
    try (destruct (bytes_of_len_inv _ _ HV) as [Hbd _]; cbn [block_parts fst snd]; rewrite Hbd; done).
  cbn [block_parts fst snd block_state]. unfold check_dlrr. rewrite (Hsub ts subs) by done.
  rewrite (concat_length 12) by (by apply forallb_len).
  unfold sizeof_XrDlrrBlock, sizeof_XrDlrrSubblock.
  change (XR_DLRR =? XR_RRTR) with false. change (XR_DLRR =? XR_DLRR) with true. cbv iota.
  by rewrite (proj2 (Nat.ltb_ge _ _)) by lia.
Qed.

Lemma xr_block_found blk fuel it :
  xi_buf it = buf -> holds_at m (off + xi_cur_pos it) (enc_xr_block blk) -> valid_block blk = true ->
  Z.of_nat (length (enc_xr_block blk)) <= 65535 ->
  (xi_cur_pos it + length (enc_xr_block blk) <= size)%nat ->
  xr_block_loop host m (S fuel) it =
    ret (mkXrIterator (block_state blk) buf (xi_cur_pos it) (Some (off + xi_cur_pos it)%nat)
           (length (enc_xr_block blk)) (xi_error it)).
Proof using Hbytes Hbuf.
  intros Hb Hh HV Hz Hfit. pose proof (length_enc_block blk) as Hl4.
  cbn [xr_block_loop]. rewrite Hb.
  rewrite (proj2 (Nat.eqb_neq _ _)) by lia. unfold sizeof_XrBlockHeader.
  rewrite (proj2 (Nat.ltb_ge _ _)), (deref_ok m) by (done || lia).
  unfold lift. cbn [res_bind ret run_bind xi_cur_pos].
  destruct (block_header blk _ Hh HV Hz) as (_ & Hl & _). rewrite Hl.
  rewrite (proj2 (Nat.ltb_ge _ _)) by lia.
  destruct (switch_block blk _ Hh HV Hz) as [-> _]. done.
Qed.

Lemma process_block xr t blk it pos r :
  xt_parsed t = true -> slice_of m (sl_off (xt_buf t)) sizeof_XrPacket = xr -> slice_in m (xt_buf t) ->
  xi_state it = block_state blk -> xi_cur_blk_header it = Some pos ->
  holds_at m pos (enc_xr_block blk) -> valid_block blk = true ->
  Z.of_nat (length (enc_xr_block blk)) <= 65535 ->
  process_xr_block host m t it r = deliver_all (block_events xr blk) r.
Proof using Hbytes.
  intros Hp <- Hs Hst Hhd Hh HV Hz. unfold process_xr_block, xr_packet. rewrite Hp.
  cbn [negb panic_if]. unfold slice_data. rewrite (slice_in_data m) by done. cbn [res_bind].
  destruct (switch_block blk pos Hh HV Hz) as [_ Hsub].
  destruct (block_header blk pos Hh HV Hz) as (_ & _ & Hbody).
  assert (forall n, (4 + length (block_parts blk).2)%nat = n -> slice_of m pos n = enc_xr_block blk) as Hall.
  { intros n <-. rewrite <- length_enc_block. apply Hh. }
  unfold get_rrtr, get_dlrr, get_measurement_info, get_delay_metrics, get_queue_metrics, xi_get.
  rewrite Hst, Hhd.
  destruct blk as [ts bd|ts subs|ts bd|ts bd|ts bd]; simpl in HV; apply andb_true_iff in HV as [_ HV];
    cbn [block_state negb panic_if res_bind];
    try (destruct (bytes_of_len_inv _ _ HV) as [Hbd _]; rewrite Hall by (cbn [block_parts snd]; by rewrite Hbd);
         cbn [block_events deliver_all deliver]; by destruct (_ : res R)).
  rewrite (Hsub ts subs) by done. apply for_blocks_deliver. intros i x r' Hi. cbn [Nat.add].
  unfold dlrr_get_subblock, get_block_by_index. rewrite (Hsub ts subs) by done.
  rewrite (proj2 (Nat.leb_gt _ _)) by (by apply lookup_lt_Some in Hi). cbn [res_bind deliver].
  unfold sizeof_XrDlrrBlock, sizeof_XrDlrrSubblock.
  rewrite (holds_at_concat 12 subs) with (x := x); [done|exact Hbody|by apply forallb_len|done].
Qed.

Lemma extended_reads xr t blocks it it0 fuel r :
  xt_parsed t = true -> slice_of m (sl_off (xt_buf t)) sizeof_XrPacket = xr -> slice_in m (xt_buf t) ->
  (forall f, xr_next host m f it = xr_block_loop host m f it0) ->
  xi_buf it0 = buf -> xi_error it0 = false -> forallb valid_block blocks = true ->
  holds_at m (off + xi_cur_pos it0) (concat (map enc_xr_block blocks)) ->
  (xi_cur_pos it0 + length (concat (map enc_xr_block blocks)) = size)%nat -> Z.of_nat size <= 65535 ->
  (length blocks < fuel)%nat ->
  delivers (extended_report_loop host m fuel t it r) (concat (map (block_events xr) blocks)) r.
Proof using Hbytes Hbuf.
  intros Hp Hx Hs. revert it it0 fuel r. induction blocks as [|blk blocks IH];
    intros it it0 fuel r Hnext Hb He HV Hh Hsz Hz Hf;
    (destruct fuel as [|fuel]; [simpl in Hf; lia|]); cbn [extended_report_loop map concat] in *; rewrite Hnext.
  - simpl in Hsz. cbn [xr_block_loop]. rewrite Hb.
    rewrite (proj2 (Nat.eqb_eq _ _)) by lia. cbn [run_bind ret xi_stop xi_state xi_error].
    rewrite He. done.
  - simpl in HV. apply andb_true_iff in HV as [HV1 HV2]. rewrite length_app in Hsz.
    apply holds_at_app in Hh as [Hh1 Hh2].
    rewrite (xr_block_found blk) by (done || lia). cbn [run_bind ret xi_state].
    set (it1 := mkXrIterator _ _ _ _ _ _).
    assert (process_xr_block host m t it1 r = deliver_all (block_events xr blk) r) as Hpb
      by (apply process_block with (off + xi_cur_pos it0)%nat; done || lia).
    assert (forall r', delivers (extended_report_loop host m fuel t it1 r')
      (concat (map (block_events xr) blocks)) r') as Hrec.
    { intros r'. apply (IH it1 (xi_move it1 (xi_cur_blk_len it1))); try done;
        cbn [xi_move it1 xi_cur_pos xi_cur_blk_len].
      - intros f. unfold xr_next. cbn [it1 xi_state]. by destruct blk.
      - by rewrite Nat.add_assoc.
      - lia.
      - simpl in Hf. lia. }
    unfold delivers in *. rewrite deliver_all_app, Hpb.
    transitivity (let! r := lift (deliver_all (block_events xr blk) r) in
      extended_report_loop host m fuel t it1 r); [by destruct blk|].
    destruct (deliver_all (block_events xr blk) r) as [r'|]; [|done]. simpl. apply Hrec.
Qed.

(** * SDES *)

Lemma c_str_text text rest : Forall (fun c => c <> 0) text -> c_str (text ++ 0 :: rest) = text.
Proof using.
  induction 1 as [|c text Hc _ IH]; [done|]. simpl. rewrite (proj2 (Z.eqb_neq _ _)) by done.
  by rewrite IH.
Qed.

(** From the first zero byte after the items to the next chunk. *)
Lemma skip_padding_ok fuel pos pad :
  (1 <= pad <= fuel)%nat -> (pad <= 4)%nat -> ((pos + pad) mod 4 = 0)%nat -> (pos + pad <= size)%nat ->
  skip_chunk_padding fuel size pos = (pos + pad)%nat.
Proof using.
  revert pos pad. induction fuel as [|fuel IH]; intros pos pad Hp H4 Hm Hs; [lia|].
  cbn [skip_chunk_padding]. change 0x03 with (Z.ones 2). rewrite Z.land_ones by lia.
  pose proof Hm as HmZ. apply (f_equal Z.of_nat) in HmZ. rewrite Nat2Z.inj_mod in HmZ.
  change (Z.of_nat 4) with 4 in HmZ. change (2 ^ 2) with 4.
  destruct (decide (pad = 1)%nat) as [->|Hn].
  - rewrite HmZ. by rewrite andb_false_r.
  - rewrite (proj2 (Nat.ltb_lt _ _)), (proj2 (Z.eqb_neq _ _)) by (lia || zlia). cbn [andb negb].
    replace (pos + pad)%nat with (pos + 1 + (pad - 1))%nat in * by lia. apply IH; done || lia.
Qed.

Section Sdes.

Hypothesis Hmem : Z.of_nat (length m) < 2 ^ 64.

(** The copy of a text that lies in the slice. *)
Lemma copy_text_reads pos text array :
  holds_at m pos text -> is_text text = true -> length array = (MaxTextLen + 1)%nat ->
  (off <= pos)%nat -> (pos + length text <= off + size)%nat ->
  exists array', copy_text m buf pos (length text) array = Ok array'
    /\ length array' = (MaxTextLen + 1)%nat /\ c_str array' = text.
Proof using Hbuf Hmem.
  intros [Hh _] Ht Ha Hlo Hhi. destruct (is_text_inv text Ht) as (Hl & _ & Hz).
  pose proof (slice_in_fits m buf Hbuf) as Hfit. unfold MaxTextLen in *.
  unfold copy_text, slice_data_end. rewrite (slice_in_data m buf Hbuf). cbn [res_bind].
  rewrite size_sub_small by lia. rewrite !Nat.min_l by lia. rewrite Hh.
  eexists. split; [done|]. rewrite length_overwrite by (rewrite length_app; simpl; lia).
  split; [done|]. unfold overwrite. rewrite take_0. cbn [app]. rewrite <- app_assoc.
  by apply c_str_text.
Qed.

(** An iterator about to read the next chunk. *)
Definition chunk_at (it : SdesIterator) (cs : list (Z * list (Z * bytes))) : Prop :=
  si_buf it = buf /\ si_error it = false /\ length (si_parsed_item_text it) = (MaxTextLen + 1)%nat
  /\ st_chunks_count (si_traverser it) = (si_cur_chunk it + length cs)%nat
  /\ (si_cur_pos it mod 4 = 0)%nat
  /\ holds_at m (off + si_cur_pos it) (concat (map enc_chunk cs))
  /\ (si_cur_pos it + length (concat (map enc_chunk cs)) = size)%nat.

(** An iterator about to read the next item, with [pad] bytes after the items. *)
Definition item_at (it : SdesIterator) (items : list (Z * bytes)) (pad : nat)
    (cs : list (Z * list (Z * bytes))) : Prop :=
  let rest := concat (map enc_item items) ++ replicate pad 0 ++ concat (map enc_chunk cs) in
  si_buf it = buf /\ si_error it = false /\ length (si_parsed_item_text it) = (MaxTextLen + 1)%nat
  /\ si_state it = SDES_ITEM
  /\ st_chunks_count (si_traverser it) = (si_cur_chunk it + 1 + length cs)%nat
  /\ (1 <= pad <= 4)%nat
  /\ ((si_cur_pos it + length (concat (map enc_item items)) + pad) mod 4 = 0)%nat
  /\ holds_at m (off + si_cur_pos it) rest /\ (si_cur_pos it + length rest = size)%nat.

Lemma items_end it pad cs :
  item_at it [] pad cs ->
  exists it1, sdes_next_item host m it = sdes_next_chunk host m it1 /\ chunk_at it1 cs.
Proof using Hbuf.
  intros (Hb & He & Ht & _ & Hn & Hpad & Hmod & Hh & Hsz). cbn [map concat app length] in *.
  rewrite Nat.add_0_r in Hmod. rewrite length_app, length_replicate in Hsz.
  assert (m !!! (off + si_cur_pos it)%nat = 0) as H0.
  { destruct pad as [|pad]; [lia|]. by apply holds_at_cons in Hh as [-> _]. }
  apply holds_at_app in Hh as [_ Hh]. rewrite length_replicate in Hh.
  exists (si_at it SDES_CHUNK (si_cur_pos it + pad) (si_cur_chunk it + 1)). split.
  - unfold sdes_next_item. rewrite Hb, (proj2 (Nat.eqb_neq _ _)), (deref_ok m) by (done || lia).
    cbn [res_bind]. rewrite H0. cbn [Z.eqb]. rewrite (skip_padding_ok 4 _ pad) by (done || lia). done.
  - unfold chunk_at. cbn [si_at si_buf si_error si_parsed_item_text si_traverser si_cur_chunk si_cur_pos].
    split_and!; try done; try lia. by rewrite Nat.add_assoc.
Qed.

Lemma item_found item items it pad cs :
  item_at it (item :: items) pad cs -> valid_item item = true ->
  exists it1, sdes_next_item host m it = Ok it1 /\ si_state it1 = SDES_ITEM
    /\ sdes_get_item it1 = Ok item
    /\ item_at (si_at it1 SDES_ITEM (si_cur_pos it1 + si_cur_item_len it1) (si_cur_chunk it1)) items pad cs.
Proof using Hbuf Hmem.
  intros (Hb & He & Ht & Hst & Hn & Hpad & Hmod & Hh & Hsz) HV. cbn [map concat] in *.
  destruct item as [type text]. unfold valid_item in HV. cbn [fst snd] in HV.
  apply andb_true_iff in HV as [HV _]. apply andb_true_iff in HV as [HV Htext].
  apply andb_true_iff in HV as [H1 H2]. apply Z.leb_le in H1, H2.
  rewrite <- app_assoc in Hh, Hsz. change (enc_item (type, text)) with ([type; Z.of_nat (length text)] ++ text) in Hh, Hsz, Hmod.
  rewrite <- !app_assoc in Hh. apply holds_at_cons in Hh as [Hc1 Hh]. apply holds_at_cons in Hh as [Hc2 Hh].
  cbn [app] in Hh. apply holds_at_app in Hh as [Htx Hh].
  rewrite !length_app in Hsz. rewrite !length_app in Hmod. cbn [length] in Hsz, Hmod.
  unfold sdes_next_item. rewrite Hb, (proj2 (Nat.eqb_neq _ _)), (deref_ok m _ _ 1) by (done || lia).
  cbn [res_bind]. rewrite Hc1, (proj2 (Z.eqb_neq _ _)) by lia. unfold sizeof_SdesItemHeader.
  rewrite (proj2 (Nat.ltb_ge _ _)), (deref_ok m) by (done || lia). cbn [res_bind].
  unfold sdi_text_len. rewrite Hc2, Nat2Z.id. rewrite (proj2 (Nat.ltb_ge _ _)) by lia.
  unfold parse_item. cbn [si_buf si_cur_pos si_parsed_item_text]. rewrite (deref_ok m) by (done || unfold sizeof_SdesItemHeader; lia).
  cbn [res_bind]. unfold sdi_text_len, sdi_type, sdi_text. rewrite Hc2, Nat2Z.id, Hc1.
  destruct (copy_text_reads (off + si_cur_pos it + sizeof_SdesItemHeader) text (si_parsed_item_text it))
    as (arr & -> & Hl & Hs); try done; unfold sizeof_SdesItemHeader; try lia.
  { by rewrite <- !Nat.add_assoc in *. }
  cbn [res_bind]. eexists. split; [done|]. split; [done|]. unfold sdes_get_item. cbn [si_state si_parsed_item_type si_parsed_item_text].
  rewrite Hst, Hs. split; [done|].
  unfold item_at. cbn [si_at si_buf si_error si_parsed_item_text si_state si_traverser si_cur_chunk si_cur_pos si_cur_item_len].
  rewrite !length_app. split_and!; try done; try lia.
  - etransitivity; [|exact Hmod]. apply (f_equal (fun n => n mod 4)%nat). lia.
  - eapply holds_at_eq; [exact Hh|lia].
Qed.

Lemma items_read cs es N items it it0 pad fuel chunk r :
  (forall it it1 fuel r, sdes_next host m it = sdes_next_chunk host m it1 -> chunk_at it1 cs ->
     (N <= fuel)%nat -> delivers (description_loop host m fuel it chunk r) es r) ->
  sdes_next host m it = sdes_next_item host m it0 -> item_at it0 items pad cs ->
  forallb valid_item items = true -> (N + length items <= fuel)%nat ->
  delivers (description_loop host m fuel it chunk r) (chunk_events (chunk, items) ++ es) r.
Proof using Hbuf Hmem.
  intros Hcs. revert it it0 fuel r. induction items as [|item items IH];
    intros it it0 fuel r Hnext Hat HV Hf.
  { destruct (items_end it0 pad cs Hat) as (it1 & E & Hat1).
    cbn [chunk_events]. unfold chunk_events. simpl. eapply Hcs; [by rewrite Hnext|done|simpl in Hf; lia]. }
  simpl in HV. apply andb_true_iff in HV as [HV HVs].
  destruct (item_found item items it0 pad cs Hat HV) as (it1 & E & Hst & Hget & Hat1).
  assert (forall r, delivers (description_loop host m (fuel - 1) it1 chunk r)
    (chunk_events (chunk, items) ++ es) r) as Hrec.
  { intros r'. eapply IH; [|done|done|simpl in Hf; lia]. unfold sdes_next. by rewrite Hst. }
  destruct fuel as [|fuel]; [simpl in Hf; lia|]. replace (S fuel - 1)%nat with fuel in Hrec by lia.
  cbn [description_loop]. rewrite Hnext, E. unfold lift at 1. cbn [res_bind ret run_bind].
  rewrite Hst, Hget. unfold lift at 1. cbn [res_bind ret run_bind].
  unfold chunk_events in *. cbn [fst snd List.filter] in *.
  destruct (item.1 =? SDES_CNAME) eqn:Ec; cbn [negb]; [|apply Hrec].
  unfold valid_item in HV. rewrite Ec in HV. cbn [negb orb] in HV.
  apply andb_true_iff in HV as [_ HV]. apply negb_true_iff, Nat.eqb_neq in HV.
  rewrite bool_decide_eq_false_2 by (intros E0; by rewrite E0 in HV). cbn [map app].
  apply (delivers_cons _ (EvCname chunk item)). intros r' _. apply Hrec.
Qed.

Lemma description_reads cs it it0 fuel chunk r :
  sdes_next host m it = sdes_next_chunk host m it0 -> chunk_at it0 cs ->
  forallb valid_chunk cs = true -> (length (concat (map enc_chunk cs)) < fuel)%nat ->
  delivers (description_loop host m fuel it chunk r) (concat (map chunk_events cs)) r.
Proof using Hbuf Hmem Hbytes.
  revert it it0 fuel chunk r. induction cs as [|[ssrc items] cs IH];
    intros it it0 fuel chunk r Hnext Hat HV Hf;
    (destruct fuel as [|fuel]; [simpl in Hf; lia|]); cbn [description_loop]; rewrite Hnext;
    destruct Hat as (Hb & He & Ht & Hn & Hmod & Hh & Hsz).
  { unfold sdes_next_chunk. rewrite Hn. cbn [length]. rewrite Nat.add_0_r, Nat.eqb_refl.
    unfold lift. cbn [res_bind ret run_bind si_at si_state si_error]. by rewrite He. }
  cbn [forallb map concat length] in *. apply andb_true_iff in HV as [HV HVs].
  unfold valid_chunk in HV. cbn [fst snd] in HV. apply andb_true_iff in HV as [HV _].
  apply andb_true_iff in HV as [Hs Hit]. apply (bool_decide_eq_true_1 (is_u 32 ssrc)) in Hs.
  set (its := concat (map enc_item items)) in *.
  set (pad := padding_len (length (be_bytes 4 ssrc ++ its)) 1) in *.
  change (enc_chunk (ssrc, items)) with ((be_bytes 4 ssrc ++ its) ++ replicate pad 0) in *.
  destruct (padding_len_spec (length (be_bytes 4 ssrc ++ its)) 1) as [Hp1 Hp2]. fold pad in Hp1, Hp2.
  rewrite <- !app_assoc in Hh. apply holds_at_app in Hh as [Hh1 Hh2].
  rewrite !length_app, length_be_bytes, length_replicate in *. clearbody pad.
  unfold sdes_next_chunk. rewrite (proj2 (Nat.eqb_neq _ _)) by lia. rewrite Hb.
  unfold sizeof_SdesChunkHeader. rewrite (proj2 (Nat.ltb_ge _ _)) by lia.
  unfold parse_chunk. cbn [si_at si_buf si_cur_pos]. rewrite Hb, (deref_ok m)
    by (done || unfold sizeof_SdesChunkHeader; lia).
  unfold lift at 1. cbn [res_bind ret run_bind si_state]. unfold sdes_get_chunk at 1. cbn [si_state si_parsed_ssrc].
  unfold sdc_ssrc. rewrite (read32 host m Hbytes _ ssrc) by done. unfold lift at 1. cbn [res_bind ret run_bind].
  eapply (items_read cs _ (S (length (concat (map enc_chunk cs)))) items _ _ pad);
    [|unfold sdes_next; cbn [si_state]; reflexivity| |done|].
  - intros it1 it2 fuel' r' Hnext' Hat' Hf'. by apply (IH it1 it2).
  - unfold item_at. cbn [si_at si_buf si_error si_parsed_item_text si_state si_traverser si_cur_chunk si_cur_pos].
    fold its. rewrite !length_app, length_replicate. unfold sizeof_SdesChunkHeader.
    split_and!; try done; try lia.
    + replace (si_cur_pos it0 + 4 + length its + pad)%nat with (si_cur_pos it0 + (4 + length its + pad))%nat by lia.
      by apply mod4_add.
    + eapply holds_at_eq; [exact Hh2|lia].
  - assert (2 * length items <= length its)%nat; [|lia].
    subst its. clear. induction items as [|i items IH]; [done|]. simpl. rewrite length_app. lia.
Qed.

End Sdes.

End Elements.
