(* ===== verification/RtcpRoundtrip.v ===== *)
(** Round trip of RTCP: what the builder encodes, the communicator's passes decode.
    Over the elements read in RtcpDecodes.v, the packets of a compound packet are found
    one after the other and each pass hands exactly its events to the reporter. *)

From S2P Require Import Prelude Bytes Slice Packet Io.
From S2P Require Import RtcpHeaders RtcpTraverser RtcpTraverserSafe RtcpBuilder RtcpWire.
From S2P Require Import RtcpBuilderEncodes RtcpBuilderCorrect RtcpCommunicator RtcpRecorder RtcpDecodes.

Section Packets.

Context (host : cpu_endian) {R : Type} `{IReporter R}.
Context (m : bytes).
Hypothesis Hbytes : Forall is_byte m.

(** * One packet *)

Definition padded (p : rtcp_pkt) (pad : nat) : Prop :=
  valid_pkt p = true /\ (pad mod 4 = 0)%nat /\ (pad <= 255)%nat /\ Z.of_nat (pkt_size p pad) <= 65535.

(** The slice is the packet. *)
Definition pkt_in (s : Slice) (p : rtcp_pkt) (pad : nat) : Prop :=
  slice_in m s /\ sl_size s = pkt_size p pad /\ holds_at m (sl_off s) (enc_pkt p pad) /\ padded p pad.

Lemma padded_count p pad : padded p pad -> (pkt_count p <= 31)%nat.
Proof using.
  intros [HV _]. unfold valid_pkt in HV. apply andb_true_iff in HV as [HV _].
  apply andb_true_iff in HV as [HV _]. by apply Nat.leb_le.
Qed.

Lemma padded_mod4 p pad : padded p pad -> (pkt_size p pad mod 4 = 0)%nat.
Proof using.
  intros (HV & Hp & _). apply pkt_mod4 in HV. unfold pkt_size in *. rewrite Nat.add_0_r in HV.
  by apply mod4_add.
Qed.

Lemma enc_pkt_parts p pad : enc_pkt p pad = wire_header p pad ++ pkt_body p ++ enc_padding pad.
Proof using. unfold enc_pkt, wire_header. by rewrite <- app_assoc. Qed.

Lemma length_wire_header p pad : length (wire_header p pad) = 4%nat.
Proof using. unfold wire_header. by rewrite length_app, enc_len_length. Qed.

Lemma length_enc_padding pad : length (enc_padding pad) = pad.
Proof using.
  unfold enc_padding. destruct (Nat.eqb_spec pad 0) as [->|]; [done|].
  rewrite length_app, length_replicate. simpl. lia.
Qed.

(** Header and body of a packet in memory. *)
Lemma pkt_read p pad pos :
  holds_at m pos (enc_pkt p pad) -> padded p pad ->
  ph_version m pos = RTCP_V2 /\ ph_type m pos = pkt_type p /\ ph_counter m pos = pkt_count p
  /\ ph_has_padding m pos = negb (pad =? 0)%nat /\ ph_len_bytes host m pos = pkt_size p pad
  /\ holds_at m pos (wire_header p pad) /\ holds_at m (pos + 4) (pkt_body p)
  /\ holds_at m (pos + 4 + length (pkt_body p)) (enc_padding pad).
Proof using Hbytes.
  intros Hh Hp. rewrite enc_pkt_parts in Hh. apply holds_at_app in Hh as [Hh Hh2].
  rewrite length_wire_header in Hh2. apply holds_at_app in Hh2 as [Hh2 Hh3].
  destruct (read_header host m Hbytes p pad pos Hh) as (E1 & E2 & E3 & E4 & E5);
    [by eapply padded_count|apply Hp|by apply padded_mod4|]. by split_and!.
Qed.

(** The last byte counts the padding. *)
Lemma padding_read pos pad :
  holds_at m pos (enc_padding pad) -> pad <> O -> m !!! (pos + (pad - 1))%nat = Z.of_nat pad.
Proof using.
  intros Hh Hn. unfold enc_padding in Hh. rewrite (proj2 (Nat.eqb_neq _ _)) in Hh by done.
  apply holds_at_app in Hh as [_ Hh]. rewrite length_replicate in Hh.
  by apply holds_at_cons in Hh as [-> _].
Qed.

Lemma unpad s p pad hdr_size :
  pkt_in s p pad -> (1 <= hdr_size <= 4 + length (pkt_body p))%nat ->
  exists s', remove_padding m s (pkt_size p pad) hdr_size (sl_off s) = Ok (Some s')
    /\ slice_in m s' /\ sl_off s' = sl_off s /\ sl_size s' = pkt_size p 0.
Proof using host Hbytes.
  intros (Hs & Hn & Hh & Hp) Hsz. destruct (pkt_read p pad _ Hh Hp) as (_ & _ & _ & Hpad & _ & _ & _ & Hh3).
  destruct Hp as (_ & _ & H255 & Hz). unfold remove_padding. rewrite Hpad. unfold pkt_size in *.
  destruct (Nat.eqb_spec pad 0) as [->|Hne]; cbn [negb].
  - exists s. by split_and!.
  - rewrite (deref_ok m) by (done || lia). cbn [res_bind].
    replace (sl_off s + (4 + length (pkt_body p) + pad - 1))%nat
      with (sl_off s + 4 + length (pkt_body p) + (pad - 1))%nat by lia.
    rewrite (padding_read _ pad) by done.
    rewrite size_sub_small, (proj2 (Z.ltb_ge _ _)), (proj2 (Z.ltb_ge _ _)) by lia. cbn [orb].
    rewrite wrap_u_small by (unfold is_u; lia).
    destruct (subslice_to_in m s (Z.of_nat (4 + length (pkt_body p) + pad) - Z.of_nat pad))
      as (s' & -> & Hs' & Ho & Hn'); [done|lia|].
    exists s'. split_and!; done || lia.
Qed.

Lemma valid_pkt_inv p : valid_pkt p = true ->
  match p with
  | PktSr body reports => length body = 24%nat /\ forallb (bytes_of_len 24) reports = true
  | PktRr body reports => length body = 4%nat /\ forallb (bytes_of_len 24) reports = true
  | PktXr body blocks => length body = 4%nat /\ forallb valid_block blocks = true
  | PktSdes chunks => forallb valid_chunk chunks = true
  | PktBye ssrcs reason =>
      forallb is_u32 ssrcs = true
      /\ match reason with None => True | Some text => is_text text = true end
  end.
Proof using.
  intros HV. unfold valid_pkt in HV. apply andb_true_iff in HV as [_ HV].
  destruct p as [body reports|body reports|body blocks|chunks|ssrcs reason];
    [apply andb_true_iff in HV as [HV1 HV2]; split; [by destruct (bytes_of_len_inv _ _ HV1)|done]..|done|].
  apply andb_true_iff in HV as [HV1 HV2]. apply andb_true_iff in HV1 as [_ HV1].
  split; [done|]. by destruct reason.
Qed.

(** The passes over one packet. *)
Lemma goodbye_packet_reads it ssrcs reason pad fuel r :
  ti_state it = TR_BYE -> pkt_in (ti_cur_pkt_slice it) (PktBye ssrcs reason) pad ->
  (sl_size (ti_cur_pkt_slice it) + 3 <= fuel)%nat ->
  delivers (goodbye_packet host m fuel it r) (map EvGoodbye ssrcs) r.
Proof using Hbytes.
  set (s := ti_cur_pkt_slice it). set (p := PktBye ssrcs reason). intros Hst Hin Hf.
  destruct (unpad s p pad sizeof_ByePacket) as (s' & Eu & Hs' & Ho & Hn'); [done|unfold sizeof_ByePacket; lia|].
  destruct Hin as (Hs & Hn & Hh & Hp). destruct (valid_pkt_inv p (proj1 Hp)) as [Hu Hr].
  destruct (pkt_read p pad _ Hh Hp) as (_ & Ht & Hc & _ & Hl & _ & Hbody & _).
  pose proof (padded_count _ _ Hp) as H31.
  unfold goodbye_packet, get_bye, bye_traverser. rewrite Hst. fold s. pose proof Hs as (_ & -> & _).
  cbn [negb panic_if res_bind lift ret run_bind]. unfold bye_parse. cbn [bt_parsed bt_buf panic_if].
  rewrite (proj2 (Nat.ltb_ge _ _)) by (unfold sizeof_ByePacket; rewrite Hn; unfold pkt_size; lia).
  rewrite (deref_ok m) by (done || unfold sizeof_ByePacket; rewrite Hn; unfold pkt_size; lia).
  cbn [res_bind]. rewrite Nat.add_0_r, Ht, Hl, Hn, Nat.ltb_irrefl. cbn [pkt_type p Z.eqb negb].
  rewrite Hc, (proj2 (Z.ltb_ge _ _)) by (unfold MaxPacketBlocks; lia).
  rewrite Eu. cbn [res_bind run_bind ret lift]. unfold process_goodbye_, bye_iter.
  cbn [bt_parsed negb panic_if res_bind run_bind ret lift bt_buf].
  unfold pkt_size in *. cbn [pkt_body p] in *. rewrite length_app in *.
  eapply (goodbye_reads host m s' Hbytes Hs' reason Hr).
  - unfold bye_next. cbn [bi_at bi_state bi_cur_pos bi_buf bi_cur_ssrc bt_buf]. unfold sizeof_ByePacket.
    rewrite (proj2 (Nat.ltb_ge _ _)) by lia. reflexivity.
  - unfold bye_at. cbn [bi_at bi_buf bi_error bi_parsed_reason bi_traverser bi_cur_ssrc bi_cur_pos bt_ssrc_count bt_buf].
    rewrite length_app. split_and!; try done; try lia. by rewrite Ho.
  - done.
  - assert (length ssrcs <= length (concat (map (be_bytes 4) ssrcs)))%nat; [|lia].
    clear. induction ssrcs as [|x l IH]; [done|]. cbn [map concat]. rewrite length_app, length_be_bytes.
    cbn [length]. lia.
Qed.

Lemma extended_packet_reads it body blocks pad fuel r :
  ti_state it = TR_XR -> pkt_in (ti_cur_pkt_slice it) (PktXr body blocks) pad ->
  (fuel_for (ti_cur_pkt_slice it) <= fuel)%nat ->
  delivers (report_packet host m fuel it r)
    (concat (map (block_events (wire_header (PktXr body blocks) pad ++ body)) blocks)) r.
Proof using Hbytes.
  set (s := ti_cur_pkt_slice it). set (p := PktXr body blocks). intros Hst Hin Hf.
  pose proof Hin as (_ & _ & _ & Hp). destruct (valid_pkt_inv p (proj1 Hp)) as [Hlb HV].
  assert (length (pkt_body p) = 4 + length (concat (map enc_xr_block blocks)))%nat as Hbl
    by (cbn [pkt_body p]; by rewrite length_app, Hlb).
  destruct (unpad s p pad sizeof_XrPacket) as (s' & Eu & Hs' & Ho & Hn'); [done|unfold sizeof_XrPacket; lia|].
  destruct Hin as (Hs & Hn & Hh & _).
  destruct (pkt_read p pad _ Hh Hp) as (_ & Ht & Hc & _ & Hl & Hhdr & Hbody & _).
  assert (sizeof_XrPacket <= sl_size s)%nat as H8 by (unfold sizeof_XrPacket; rewrite Hn; unfold pkt_size; lia).
  unfold report_packet, get_xr, xr_traverser. rewrite Hst. fold s. pose proof Hs as (_ & -> & _).
  cbn [negb panic_if res_bind lift ret run_bind]. unfold xr_parse. cbn [xt_parsed xt_buf].
  rewrite (proj2 (Nat.ltb_ge _ _)), (deref_ok m) by (done || lia).
  cbn [res_bind lift ret run_bind]. rewrite Nat.add_0_r, Ht, Hl, Hn, Nat.ltb_irrefl. cbn [pkt_type p Z.eqb negb].
  rewrite Eu. cbn [res_bind run_bind ret lift xt_blocks_count].
  assert (sl_size s' <= sl_size s)%nat as Hle by (rewrite Hn, Hn'; unfold pkt_size; lia).
  destruct (xr_count_ok host m Hbytes fuel (xr_iterator (mkXrTraverser s' false 0)) 0) as [k Hk];
    [by split|unfold fuel_for, xi_rank in *; simpl; lia|].
  rewrite Hk. cbn [res_bind run_bind ret lift]. unfold process_extended_report, xr_iter.
  cbn [xt_parsed negb panic_if res_bind run_bind ret lift xt_buf].
  destruct Hp as (_ & _ & _ & Hz). unfold pkt_size in *. cbn [pkt_body p] in Hbody.
  pose proof Hbody as Hbody'. apply holds_at_app in Hbody' as [Hb1 Hb2]. rewrite Hlb in Hb2.
  eapply (extended_reads host m s' Hbytes Hs').
  - done.
  - cbn [xt_buf]. rewrite Ho. unfold sizeof_XrPacket. change 8%nat with (4 + 4)%nat.
    assert (holds_at m (sl_off s) (wire_header p pad ++ body)) as [E _].
    { apply holds_at_app. by rewrite length_wire_header. }
    rewrite length_app, length_wire_header, Hlb in E. exact E.
  - done.
  - intros f. unfold xr_next. cbn [xr_iterator xi_state xi_move xi_buf xi_cur_pos xt_buf].
    rewrite (proj2 (Nat.ltb_ge _ _)) by (unfold sizeof_XrPacket; lia). reflexivity.
  - done.
  - done.
  - done.
  - cbn [xi_move xi_cur_pos xr_iterator]. eapply holds_at_eq; [exact Hb2|]. rewrite Ho. unfold sizeof_XrPacket. lia.
  - cbn [xi_move xi_cur_pos xr_iterator]. unfold sizeof_XrPacket. lia.
  - lia.
  - assert (length blocks <= length (concat (map enc_xr_block blocks)))%nat; [|unfold fuel_for in Hf; lia].
    clear. induction blocks as [|x l IH]; [done|]. cbn [map concat]. rewrite length_app, length_enc_block.
    cbn [length]. lia.
Qed.

(** The reception blocks after the fixed part of a report. *)
Lemma reception_blocks_read ssrc fixed p hdr reports r :
  forallb (bytes_of_len 24) reports = true -> holds_at m (p + fixed) (concat reports) ->
  ph_counter m hdr = length reports ->
  for_blocks (ph_counter m hdr) 0 (fun n r =>
    let* blk := get_block_by_index sizeof_ReceptionReportBlock fixed p n (ph_counter m hdr) in
    process_reception_block ssrc (slice_of m blk sizeof_ReceptionReportBlock) r) r
  = deliver_all (map (EvBlock ssrc) reports) r.
Proof using.
  intros HV Hh Hc. rewrite Hc. apply for_blocks_deliver. intros i x r' Hi. cbn [Nat.add].
  unfold get_block_by_index. rewrite (proj2 (Nat.leb_gt _ _)) by (by apply lookup_lt_Some in Hi).
  cbn [res_bind deliver]. unfold sizeof_ReceptionReportBlock.
  rewrite (holds_at_concat m 24 reports) with (x := x); [done|done|by apply forallb_len|done].
Qed.

Lemma report_ssrc body rest pos :
  holds_at m pos (body ++ rest) -> (4 <= length body)%nat ->
  ntoh32u host (load host 4 m pos) = be_value (take 4 body).
Proof using Hbytes.
  intros Hh H4. apply read32_bytes; [done| |rewrite length_take; lia].
  rewrite <- (take_drop 4 body), <- app_assoc in Hh. by apply holds_at_app in Hh as [Hh _].
Qed.

Lemma report_packet_reads it p pad fuel r :
  ti_state it = match p with PktSr _ _ => TR_SR | _ => TR_RR end -> is_report p = true ->
  slice_in m (ti_cur_pkt_slice it) ->
  holds_at m (sl_off (ti_cur_pkt_slice it)) (enc_pkt p pad) -> padded p pad ->
  delivers (report_packet host m fuel it r) (report_events pad p) r.
Proof using Hbytes.
  intros Hst Hrep Hs Hh Hp. destruct (pkt_read p pad _ Hh Hp) as (_ & _ & Hc & _ & _ & Hhdr & Hbody & _).
  pose proof (valid_pkt_inv p (proj1 Hp)) as HV. set (pos := sl_off (ti_cur_pkt_slice it)) in *.
  destruct p as [body reports|body reports| | |]; try done; destruct HV as [Hlb HV];
    cbn [pkt_body pkt_count] in *; pose proof Hbody as Hb; apply holds_at_app in Hb as [Hb1 Hb2];
    rewrite Hlb in Hb2; unfold report_packet, delivers; rewrite Hst;
    unfold get_sr, get_rr, slice_data; rewrite Hst, (slice_in_data m) by done; fold pos;
    cbn [lift res_bind ret run_bind report_events].
  - unfold process_sender_report, sr_get_block, sr_num_blocks, sr_ssrc.
    rewrite (report_ssrc body (concat reports)) by (done || lia).
    assert (slice_of m pos sizeof_SenderReportPacket = wire_header (PktSr body reports) pad ++ body) as ->.
    { assert (holds_at m pos (wire_header (PktSr body reports) pad ++ body)) as [E _].
      { apply holds_at_app. by rewrite length_wire_header. }
      rewrite length_app, length_wire_header, Hlb in E. exact E. }
    cbn [deliver_all deliver]. destruct (process_sr _ r) as [r'|]; [|done]. cbn [res_bind].
    rewrite (reception_blocks_read _ _ _ pos reports); [done|done| |done].
    eapply holds_at_eq; [exact Hb2|]. unfold sizeof_SenderReportPacket. lia.
  - unfold process_receiver_report, rr_get_block, rr_num_blocks, rr_ssrc.
    rewrite (report_ssrc body (concat reports)) by (done || lia).
    rewrite (reception_blocks_read _ _ _ pos reports); [done|done| |done].
    eapply holds_at_eq; [exact Hb2|]. unfold sizeof_ReceiverReportPacket. lia.
Qed.

(** * The packets of a compound packet *)

Definition pkt_state (p : rtcp_pkt) : TrState :=
  match p with
  | PktSr _ _ => TR_SR | PktRr _ _ => TR_RR | PktXr _ _ => TR_XR
  | PktSdes _ => TR_SDES | PktBye _ _ => TR_BYE
  end.

(** [remove_padding_] of the compound packet's iterator cuts the slice at the start of
    the compound packet: a padded report is read back only when it is there. *)
Definition readable (p : rtcp_pkt) (pad pos : nat) : Prop :=
  pad = O \/ is_report p = false \/ pos = O.

(** The iterator is on the packet. *)
Definition on_pkt (buf : Slice) (pos : nat) (p : rtcp_pkt) (pad : nat) (it : TrIterator) : Prop :=
  ti_state it = pkt_state p /\ ti_buf it = buf /\ ti_cur_pos it = pos
  /\ ti_cur_pkt_len it = pkt_size p pad /\ ti_error it = false
  /\ slice_in m (ti_cur_pkt_slice it) /\ sl_off (ti_cur_pkt_slice it) = (sl_off buf + pos)%nat
  /\ (is_report p = false -> sl_size (ti_cur_pkt_slice it) = pkt_size p pad).

Lemma report_size p : is_report p = true -> valid_pkt p = true ->
  pkt_size p 0 = ((match p with PktSr _ _ => sizeof_SenderReportPacket | _ => sizeof_ReceiverReportPacket end)
                  + pkt_count p * sizeof_ReceptionReportBlock)%nat.
Proof using.
  intros Hrep HV. pose proof (valid_pkt_inv p HV) as Hi. unfold pkt_size.
  destruct p as [body reports|body reports| | |]; try done; destruct Hi as [Hlb Hr];
    cbn [pkt_body pkt_count]; rewrite length_app, Hlb, (concat_length 24) by (by apply forallb_len);
    unfold sizeof_SenderReportPacket, sizeof_ReceiverReportPacket, sizeof_ReceptionReportBlock; lia.
Qed.

Lemma tr_unpad buf s p pad pos :
  slice_in m buf -> (pos + pkt_size p pad <= sl_size buf)%nat -> sl_off s = (sl_off buf + pos)%nat ->
  pkt_in s p pad -> (pad = O \/ pos = O) ->
  exists s', tr_remove_padding m buf s (sl_off s) (pkt_size p pad) = Ok (Some s')
    /\ slice_in m s' /\ sl_off s' = sl_off s /\ (pkt_size p 0 <= sl_size s')%nat.
Proof using Hbytes host.
  intros Hbuf Hfit Ho (Hs & Hn & Hh & Hp) Hpos.
  destruct (pkt_read p pad _ Hh Hp) as (_ & _ & _ & Hpad & _ & _ & _ & Hh3).
  destruct Hp as (_ & _ & H255 & Hz). unfold tr_remove_padding. rewrite Hpad. unfold pkt_size in *.
  destruct (Nat.eqb_spec pad 0) as [->|Hne]; cbn [negb].
  { exists s. split_and!; done || lia. }
  destruct Hpos as [Hz0|Hz0]; [done|]. subst pos. rewrite (deref_ok m) by (done || lia). cbn [res_bind].
  replace (sl_off s + (4 + length (pkt_body p) + pad - 1))%nat
    with (sl_off s + 4 + length (pkt_body p) + (pad - 1))%nat by lia.
  rewrite (padding_read _ pad) by done. unfold sizeof_PacketHeader.
  rewrite size_sub_small, (proj2 (Z.ltb_ge _ _)), (proj2 (Z.ltb_ge _ _)) by lia. cbn [orb].
  rewrite wrap_u_small by (unfold is_u; lia).
  destruct (subslice_to_in m buf (Z.of_nat (4 + length (pkt_body p) + pad) - Z.of_nat pad))
    as (s' & -> & Hs' & Ho' & Hn'); [done|lia|].
  exists s'. split_and!; done || lia.
Qed.

Lemma packet_found buf p pad it fuel :
  slice_in m buf -> ti_buf it = buf -> ti_error it = false ->
  holds_at m (sl_off buf + ti_cur_pos it) (enc_pkt p pad) -> padded p pad ->
  (ti_cur_pos it + pkt_size p pad <= sl_size buf)%nat -> readable p pad (ti_cur_pos it) ->
  exists it', tr_packet_loop host m (S fuel) it = ret it' /\ on_pkt buf (ti_cur_pos it) p pad it'.
Proof using Hbytes.
  intros Hbuf Hb He Hh Hp Hfit Hread. set (pos := ti_cur_pos it) in *.
  destruct (pkt_read p pad _ Hh Hp) as (Hv & Ht & Hc & _ & Hl & _ & _ & _).
  cbn [tr_packet_loop]. cbv zeta. rewrite Hb, He. fold pos. unfold sizeof_PacketHeader.
  assert (4 <= pkt_size p pad)%nat as H4 by (unfold pkt_size; lia).
  rewrite (proj2 (Nat.eqb_neq _ _)), (proj2 (Nat.ltb_ge _ _)), (deref_ok m) by (done || lia).
  cbn [lift res_bind ret run_bind]. rewrite Hv, Hl. cbn [RTCP_V2 Z.eqb Pos.eqb negb].
  rewrite (proj2 (Nat.ltb_ge _ _)) by lia.
  destruct (subslice_in m buf pos (pos + pkt_size p pad)) as (s & -> & Hs & Ho & Hn); [done|lia|lia|].
  cbn [lift res_bind ret run_bind].
  assert (pkt_in s p pad) as Hin by (unfold pkt_in; rewrite Ho; split_and!; done || lia).
  destruct (is_report p) eqn:Hrep.
  - destruct (tr_unpad buf s p pad pos) as (s' & Eu & Hs' & Ho' & Hn'); try done.
    { destruct Hread as [?|[?|?]]; [by left|congruence|by right]. }
    rewrite <- Ho. unfold tr_switch. rewrite Ho, Ht, <- Ho.
    rewrite (report_size p) in Hn' by (done || apply Hp).
    exists (mkTrIterator (pkt_state p) buf pos (pkt_size p pad) s' false). split.
    + destruct p as [body reports|body reports| | |]; try done; cbn [pkt_type RTCP_SR RTCP_RR Z.eqb Pos.eqb];
        unfold tr_check_report; rewrite Eu; cbn [res_bind]; unfold check_sr, check_rr;
        rewrite (deref_ok m) by (done || unfold sizeof_PacketHeader, sizeof_SenderReportPacket, sizeof_ReceiverReportPacket in *; lia);
        cbn [res_bind]; unfold sr_num_blocks, rr_num_blocks; rewrite Nat.add_0_r, Ho', Ho, Hc;
        rewrite (proj2 (Nat.ltb_ge _ _)) by done; done.
    + unfold on_pkt. cbn [ti_state ti_buf ti_cur_pos ti_cur_pkt_len ti_cur_pkt_slice ti_error].
      rewrite Ho'. split_and!; done || congruence.
  - exists (mkTrIterator (pkt_state p) buf pos (pkt_size p pad) s false). split.
    + unfold tr_switch. rewrite Ht. by destruct p.
    + unfold on_pkt. cbn [ti_state ti_buf ti_cur_pos ti_cur_pkt_len ti_cur_pkt_slice ti_error].
      split_and!; done || lia.
Qed.

Hypothesis Hmem : Z.of_nat (length m) < 2 ^ 64.

Lemma description_packet_reads it chunks pad fuel r :
  ti_state it = TR_SDES -> pkt_in (ti_cur_pkt_slice it) (PktSdes chunks) pad ->
  (sl_size (ti_cur_pkt_slice it) + 3 <= fuel)%nat ->
  delivers (description_packet host m fuel it r) (concat (map chunk_events chunks)) r.
Proof using Hbytes Hmem.
  set (s := ti_cur_pkt_slice it). set (p := PktSdes chunks). intros Hst Hin Hf.
  destruct (unpad s p pad sizeof_SdesPacket) as (s' & Eu & Hs' & Ho & Hn'); [done|unfold sizeof_SdesPacket; lia|].
  destruct Hin as (Hs & Hn & Hh & Hp). pose proof (valid_pkt_inv p (proj1 Hp)) as HV. cbn [p] in HV.
  destruct (pkt_read p pad _ Hh Hp) as (_ & Ht & Hc & _ & Hl & _ & Hbody & _).
  pose proof (padded_count _ _ Hp) as H31.
  unfold description_packet, get_sdes, sdes_traverser. rewrite Hst. fold s. pose proof Hs as (_ & -> & _).
  cbn [negb panic_if res_bind lift ret run_bind]. unfold sdes_parse. cbn [st_parsed st_buf panic_if].
  rewrite (proj2 (Nat.ltb_ge _ _)) by (unfold sizeof_SdesPacket; rewrite Hn; unfold pkt_size; lia).
  rewrite (deref_ok m) by (done || unfold sizeof_SdesPacket; rewrite Hn; unfold pkt_size; lia).
  cbn [res_bind]. rewrite Nat.add_0_r, Ht, Hl, Hn, Nat.ltb_irrefl. cbn [pkt_type p Z.eqb negb].
  rewrite Hc, (proj2 (Z.ltb_ge _ _)) by (unfold MaxPacketBlocks; lia).
  rewrite Eu. cbn [res_bind run_bind ret lift]. unfold process_description, sdes_iter.
  cbn [st_parsed negb panic_if res_bind run_bind ret lift st_buf].
  unfold pkt_size in *. cbn [pkt_body p] in *.
  eapply (description_reads host m s' Hbytes Hs' Hmem).
  - unfold sdes_next. cbn [si_at si_state si_cur_pos si_buf si_cur_chunk st_buf]. unfold sizeof_PacketHeader.
    rewrite (proj2 (Nat.ltb_ge _ _)) by lia. reflexivity.
  - unfold chunk_at. cbn [si_at si_buf si_error si_parsed_item_text si_traverser si_cur_chunk si_cur_pos st_chunks_count st_buf].
    split_and!; try done; try lia. by rewrite Ho.
  - done.
  - lia.
Qed.

(** The padding of the first of the packets. *)
Definition first_pad (ps : list rtcp_pkt) (pad : nat) : nat := match ps with [] => pad | _ => O end.

Lemma enc_compound_cons p ps pad :
  enc_compound (p :: ps) pad = enc_pkt p (first_pad ps pad) ++ enc_compound ps pad.
Proof using. destruct ps; [|done]. simpl. by rewrite app_nil_r. Qed.

Lemma compound_events_cons ev p ps pad :
  compound_events ev (p :: ps) pad = ev (first_pad ps pad) p ++ compound_events ev ps pad.
Proof using. destruct ps; [|done]. simpl. by rewrite app_nil_r. Qed.

(** Every packet is valid and can be read back at its position. *)
Fixpoint compound_ok (ps : list rtcp_pkt) (pad pos : nat) : Prop :=
  match ps with
  | [] => True
  | p :: ps =>
      padded p (first_pad ps pad) /\ readable p (first_pad ps pad) pos
      /\ compound_ok ps pad (pos + pkt_size p (first_pad ps pad))
  end.

Lemma packet_loop_reads buf f ev ps pad it it0 fuel r :
  (forall it pos p pad r, on_pkt buf pos p pad it -> holds_at m (sl_off buf + pos) (enc_pkt p pad) ->
     padded p pad -> (pkt_size p pad <= sl_size buf)%nat -> delivers (f it r) (ev pad p) r) ->
  slice_in m buf -> (forall fu, tr_next host m fu it = tr_packet_loop host m fu it0) ->
  ti_buf it0 = buf -> ti_error it0 = false -> compound_ok ps pad (ti_cur_pos it0) ->
  holds_at m (sl_off buf + ti_cur_pos it0) (enc_compound ps pad) ->
  (ti_cur_pos it0 + length (enc_compound ps pad) = sl_size buf)%nat -> (length ps < fuel)%nat ->
  delivers (packet_loop host m fuel f it r 0) (compound_events ev ps pad) r.
Proof using Hbytes.
  intros Hfev Hbuf. revert it it0 fuel r. induction ps as [|p ps IH];
    intros it it0 fuel r Hnext Hb He Hok Hh Hsz Hf;
    (destruct fuel as [|fuel]; [simpl in Hf; lia|]); cbn [packet_loop]; rewrite Hnext.
  { cbn [enc_compound length] in Hsz. cbn [tr_packet_loop]. rewrite Hb, (proj2 (Nat.eqb_eq _ _)) by lia.
    cbn [run_bind ret res_bind ti_state ti_error]. by rewrite He. }
  rewrite enc_compound_cons in Hh, Hsz. rewrite compound_events_cons. cbn [compound_ok] in Hok.
  set (fp := first_pad ps pad) in *. destruct Hok as (Hp & Hread & Hok).
  rewrite length_app, length_enc_pkt in Hsz. apply holds_at_app in Hh as [Hh1 Hh2]. rewrite length_enc_pkt in Hh2.
  destruct (packet_found buf p fp it0 fuel) as (it1 & -> & Hon); try done; [lia|].
  cbn [run_bind ret res_bind].
  pose proof (Hfev it1 (ti_cur_pos it0) p fp r Hon Hh1 Hp ltac:(lia)) as Hd. unfold delivers in *.
  transitivity (let! '(r, n) := f it1 r in packet_loop host m fuel f it1 r (0 + n));
    [destruct Hon as [-> _]; by destruct p|].
  rewrite Hd, deliver_all_app. destruct (deliver_all (ev fp p) r) as [r'|]; [|done].
  cbn [lift res_bind run_bind ret Nat.add].
  destruct Hon as (Hst & Hb1 & Hpos & Hlen & He1 & _).
  apply (IH it1 (mkTrIterator (ti_state it1) buf (ti_cur_pos it0 + pkt_size p fp) (pkt_size p fp)
    (ti_cur_pkt_slice it1) false)); cbn [ti_buf ti_cur_pos ti_error]; try done.
  - intros fu. unfold tr_next. rewrite Hb1, Hpos, Hlen, He1, Hst. by destruct p.
  - by rewrite Nat.add_assoc.
  - lia.
  - simpl in Hf. lia.
Qed.

(** * The passes *)

Section Passes.

Context (buf : Slice) (ps : list rtcp_pkt) (pad fuel : nat).
Hypothesis Hbuf : slice_in m buf.
Hypothesis Hok : compound_ok ps pad 0.
Hypothesis Hh : holds_at m (sl_off buf) (enc_compound ps pad).
Hypothesis Hsz : sl_size buf = length (enc_compound ps pad).
Hypothesis Hf : (fuel_for buf <= fuel)%nat.

Lemma count_le_size qs q : (length qs <= length (enc_compound qs q))%nat.
Proof using.
  clear. induction qs as [|p qs IH]; [done|]. rewrite enc_compound_cons, length_app, length_enc_pkt.
  unfold pkt_size. cbn [length]. lia.
Qed.

(** A pass ignores the packets without events and reads the other ones. *)
Lemma pass_reads f ev r :
  (forall p pad it r, ti_state it = pkt_state p ->
     (ev pad p = [] /\ f fuel it r = ret (r, O)) \/
     (slice_in m (ti_cur_pkt_slice it) -> holds_at m (sl_off (ti_cur_pkt_slice it)) (enc_pkt p pad) ->
      padded p pad -> (is_report p = false -> sl_size (ti_cur_pkt_slice it) = pkt_size p pad) ->
      (pkt_size p pad <= sl_size buf)%nat -> delivers (f fuel it r) (ev pad p) r)) ->
  delivers (process_all host m f fuel (mkTraverser buf true) r) (compound_events ev ps pad) r.
Proof using Hbytes Hbuf Hok Hh Hsz Hf Hmem.
  intros Hcase. pose proof (count_le_size ps pad) as Hps. unfold fuel_for in Hf.
  unfold process_all, tr_iter. cbn [tr_parsed negb panic_if lift res_bind ret run_bind tr_buf].
  apply (packet_loop_reads buf (f fuel) ev ps pad _ (mkTrIterator TR_BEGIN buf 0 0 slice_empty false));
    cbn [ti_buf ti_cur_pos ti_error]; try done; [|by rewrite Nat.add_0_r|lia..].
  intros it pos p q r0 (Hst & _ & _ & _ & _ & Hs & Ho & Hn) Hhp Hp Hle.
  destruct (Hcase p q it r0 Hst) as [[-> ->]|Hd]; [done|]. rewrite <- Ho in Hhp. by apply Hd.
Qed.

Lemma descriptions_read r :
  delivers (process_all_descriptions host m fuel (mkTraverser buf true) r)
    (compound_events description_events ps pad) r.
Proof using Hbytes Hbuf Hok Hh Hsz Hf Hmem.
  apply pass_reads. intros p q it r' Hst. unfold fuel_for in Hf.
  destruct p as [| | |chunks|]; try (left; unfold description_packet; by rewrite Hst).
  right. intros Hs Hhp Hp Hn Hle.
  apply (description_packet_reads it chunks q); [done| |rewrite Hn by done; lia].
  unfold pkt_in. rewrite Hn by done. by split_and!.
Qed.

Lemma reports_read r :
  delivers (process_all_reports host m fuel (mkTraverser buf true) r)
    (compound_events report_events ps pad) r.
Proof using Hbytes Hbuf Hok Hh Hsz Hf Hmem.
  apply pass_reads. intros p q it r' Hst. unfold fuel_for in Hf.
  destruct p as [body reports|body reports|body blocks| |];
    try (left; unfold report_packet; by rewrite Hst); right; intros Hs Hhp Hp Hn Hle;
    [by apply report_packet_reads..|].
  apply (extended_packet_reads it body blocks q); [done| |unfold fuel_for; rewrite Hn by done; lia].
  unfold pkt_in. rewrite Hn by done. by split_and!.
Qed.

Lemma goodbyes_read r :
  delivers (process_all_goodbyes host m fuel (mkTraverser buf true) r)
    (compound_events goodbye_events ps pad) r.
Proof using Hbytes Hbuf Hok Hh Hsz Hf Hmem.
  apply pass_reads. intros p q it r' Hst. unfold fuel_for in Hf.
  destruct p as [| | | |ssrcs reason]; try (left; unfold goodbye_packet; by rewrite Hst).
  right. intros Hs Hhp Hp Hn Hle.
  apply (goodbye_packet_reads it ssrcs reason q); [done| |rewrite Hn by done; lia].
  unfold pkt_in. rewrite Hn by done. by split_and!.
Qed.

Lemma passes_read r :
  delivers (process_passes host m fuel (mkTraverser buf true) r)
    (compound_events description_events ps pad ++ compound_events report_events ps pad
     ++ compound_events goodbye_events ps pad) r.
Proof using Hbytes Hbuf Hok Hh Hsz Hf Hmem.
  unfold process_passes, delivers. rewrite descriptions_read, !deliver_all_app.
  destruct (deliver_all _ r) as [r1|]; [|done]. cbn [lift res_bind run_bind ret].
  rewrite reports_read, deliver_all_app.
  destruct (deliver_all _ r1) as [r2|]; [|done]. cbn [lift res_bind run_bind ret].
  rewrite goodbyes_read. by destruct (deliver_all _ r2).
Qed.

End Passes.

End Packets.

(** The padding of the last packet can be removed by the iterator. *)
Definition padding_kept (ps : list rtcp_pkt) (pad : nat) : bool :=
  (pad =? 0)%nat || (length ps =? 1)%nat
  || match last ps with Some p => negb (is_report p) | None => true end.

Lemma compound_ok_intro ps pad pos :
  forallb valid_pkt ps = true -> (pad mod 4 = 0)%nat -> (pad <= 255)%nat ->
  (forall p, last ps = Some p ->
     Z.of_nat (pkt_size p pad) <= 65535
     /\ (pad = O \/ is_report p = false \/ length ps = 1%nat /\ pos = O)) ->
  compound_ok ps pad pos.
Proof.
  intros HV Hm H255 Hlast. revert pos Hlast. induction ps as [|p ps IH]; intros pos Hlast; [done|].
  simpl in HV. apply andb_true_iff in HV as [HV HVs]. cbn [compound_ok].
  destruct ps as [|q ps]; cbn [first_pad].
  - destruct (Hlast p eq_refl) as [Hz Hr]. unfold padded, readable. split_and!; try done. tauto.
  - unfold padded, readable. split_and!; try done; [lia| |by left|].
    + unfold valid_pkt in HV. apply andb_true_iff in HV as [HV _]. apply andb_true_iff in HV as [_ HV].
      by apply Z.leb_le.
    + apply IH; [done|]. intros p' Hp'. destruct (Hlast p' Hp') as [Hz [Hr|[Hr|[Hr _]]]]; [auto..|done].
Qed.

(** C14: a compound packet that the builder wrote is read back by the communicator: the
    traverser accepts it, and the three passes hand the reporter the names, then the
    reports and blocks, then the goodbyes of the description, in order and bytewise
    equal, and find no errors.  If there is padding, which belongs to the last packet, that
    packet is not a sender or receiver report, or it is the only one: the iterator misreads
    a padded report that follows other packets. *)
Theorem rtcp_roundtrip (host : cpu_endian) (config : BuilderConfig) (mem : bytes)
    (result : Slice) (ps : list rtcp_pkt) (pad : nat) {R : Type} `{IReporter R} (r : R) :
  slice_in mem result -> Forall is_byte mem -> Z.of_nat (length mem) < 2 ^ 64 ->
  valid_compound config ps pad = true -> padding_kept ps pad = true ->
  (length (enc_compound ps pad) <= slice_capacity result)%nat ->
  exists b t, build host config mem result ps pad = Ok b /\ is_ok b = true
    /\ traverser (b_result b) = Ok t /\ tr_parse t = Ok (mkTraverser (b_result b) true, true)
    /\ process_passes host (b_mem b) (fuel_for (b_result b)) (mkTraverser (b_result b) true) r
       = (let! r := lift (deliver_all
                      (compound_events description_events ps pad
                       ++ compound_events report_events ps pad
                       ++ compound_events goodbye_events ps pad) r) in
          ret (r, O)).
Proof.
  intros Hin Hbytes Hlen HV Hpad Hcap.
  destruct (build_correct host config mem result ps pad) as (b & Hb & Hres); try done.
  cbv zeta in Hres. rewrite (proj2 (Nat.leb_le _ _)) in Hres by done.
  destruct Hres as (Hok & Hr & Hl & Hbs & Hw). set (wire := enc_compound ps pad) in *.
  unfold valid_compound in HV. apply andb_true_iff in HV as [HV Hlast]. reflect_bools. nat_bools.
  pose proof (slice_in_data _ _ Hin) as Hd. unfold slice_capacity in Hcap. rewrite Hd in Hcap.
  pose proof (slice_in_fits _ _ Hin) as Hfit. destruct Hin as (_ & _ & Hbsz).
  assert (slice_in (b_mem b) (b_result b)) as Hs.
  { rewrite Hr, Hd. unfold slice_in, slice_wf, slice_bool. simpl. split_and!; done || lia. }
  assert (4 <= length wire)%nat as Hw4.
  { subst wire. destruct ps as [|p ps]; [done|].
    rewrite enc_compound_cons, length_app, length_enc_pkt. unfold pkt_size. lia. }
  assert (sl_off (b_result b) = sl_off result) as Ho by (rewrite Hr; unfold sl_off; by rewrite Hd).
  exists b, (mkTraverser (b_result b) false). split; [done|]. split; [done|].
  unfold traverser. pose proof Hs as (_ & -> & _). split; [done|].
  unfold tr_parse. cbn [tr_parsed panic_if tr_buf]. rewrite (proj2 (Nat.ltb_ge _ _))
    by (rewrite Hr; unfold sizeof_PacketHeader; simpl; lia). split; [done|].
  apply (passes_read host (b_mem b) Hbs); try done; [by rewrite Hl| | |by rewrite Hr].
  - apply compound_ok_intro; try done. intros p Hp. rewrite Hp in Hlast. apply Z.leb_le in Hlast.
    split; [done|]. unfold padding_kept in Hpad. rewrite Hp in Hpad.
    apply orb_true_iff in Hpad as [Hpad|Hpad]; [apply orb_true_iff in Hpad as [Hpad|Hpad]|];
      nat_bools; [by left| |right; left; by apply negb_true_iff]. by right; right.
  - rewrite Ho. split; [done|]. unfold wire in *. lia.
Qed.

(** The compound packet of the builder's example, read back by the recorder. *)
Lemma rtcp_roundtrip_witness :
  exists b, build CPU_LE sample_config (replicate 100 0) (slice_whole 100) sample_compound 8 = Ok b
    /\ process_passes CPU_LE (b_mem b) (fuel_for (b_result b)) (mkTraverser (b_result b) true) ([] : recorder)
       = ret ([EvCname 7 (SDES_CNAME, [99; 110]); EvBlock 7 (replicate 23 0 ++ [9]);
               EvGoodbye 7; EvGoodbye 8], O).
Proof.
  destruct (rtcp_roundtrip CPU_LE sample_config (replicate 100 0) (slice_whole 100) sample_compound 8
    ([] : recorder)) as (b & t & Hb & _ & _ & _ & Hp); [closed|closed|closed|reflexivity|reflexivity| |].
  - apply Nat.leb_le. reflexivity.
  - exists b. split; [exact Hb|]. rewrite Hp. reflexivity.
Defined.

(** C39: the iterator cuts a padded report at the start of the compound packet, not at
    the report: whenever [remove_padding_] accepts a padded report, the slice the report
    is then read from starts where the compound packet starts. *)
Theorem rtcp_padded_report_misplaced (m : bytes) (buf s s' : Slice) (hdr len : nat) :
  slice_in m buf -> ph_has_padding m hdr = true ->
  tr_remove_padding m buf s hdr len = Ok (Some s') -> sl_off s' = sl_off buf.
Proof.
  intros Hbuf Hpad Hr. unfold tr_remove_padding in Hr. rewrite Hpad in Hr. res_inv.
  destruct (deref s (len - 1) 1) as [last|]; [|done]. cbn [res_bind] in Hr.
  case_if_in Hr; [done|]. unfold subslice_to in Hr. case_if_in Hr; [done|].
  destruct buf as [[d|] n cap]; [|by destruct Hbuf as (_ & ? & _)].
  unfold slice_subslice in Hr. res_inv. unfold sl_off. simpl. lia.
Qed.

(** Two receiver reports with one block each and the name between them. *)
Definition padded_reports : list rtcp_pkt :=
  [PktRr [0; 0; 0; 7] [replicate 23 0 ++ [9]];
   PktSdes [(7, [(SDES_CNAME, [99; 110])])];
   PktRr [0; 0; 0; 8] [replicate 23 0 ++ [11]]].

(** With four bytes of padding the block of the first report is delivered twice and the
    one of the second report is lost; without padding both are delivered. *)
Lemma rtcp_padded_report_misplaced_witness :
  let wire pad := enc_compound padded_reports pad in
  let read pad := process_passes CPU_LE (wire pad) 1000
    (mkTraverser (slice_whole (length (wire pad))) true) ([] : recorder) in
  let name := EvCname 7 (SDES_CNAME, [99; 110]) in
  let block ssrc n := EvBlock ssrc (replicate 23 0 ++ [n]) in
  read O = ret ([name; block 7 9; block 8 11], O)
  /\ read 4%nat = ret ([name; block 7 9; block 7 9], O)
  /\ sl_off (mkSlice (Some O) 32 84) = sl_off (slice_whole 84).
Proof.
  cbv zeta. split; [vm_compute; reflexivity|]. split; [vm_compute; reflexivity|].
  apply (rtcp_padded_report_misplaced (enc_compound padded_reports 4) (slice_whole 84)
    (mkSlice (Some 48%nat) 36 84) _ 48 36); [closed|vm_compute; reflexivity|vm_compute; reflexivity].
Defined.
