(* ===== verification/RtcpGenerate.v ===== *)
(** RTCP communicator, generation (src/internal_modules/roc_rtcp/communicator.cpp): asks
    the reporter for blocks, packs them with the builder into compound packets, as many
    as the streams of every destination address need, and writes them.

    The reporter, the packet factory and the packet writer are interfaces; the composer
    is a parameter, of which only [prepare] is called.  The loops that search for a
    packet size and that go over the addresses take fuel. *)

From S2P Require Import Prelude Bytes Slice Packet Io FecWriter.
From S2P Require Import RtcpHeaders RtcpTraverser RtcpBuilder RtcpWire RtcpCommunicator.

Inductive PacketType : Type := PacketType_Reports | PacketType_Goodbye.

#[global] Instance PacketType_eq_dec : EqDecision PacketType.
Proof. solve_decision. Defined.

Section Payload.

Context (host : cpu_endian) {R : Type} `{IReporter R}.

(** * Field updates *)

Definition c_set_reporter (r : R) (c : Communicator R) : Communicator R :=
  mkCommunicator (c_config c) (c_report_interval c) r (c_next_deadline c)
    (c_dest_addr_count c) (c_dest_addr_index c) (c_send_stream_count c) (c_send_stream_index c)
    (c_recv_stream_count c) (c_recv_stream_index c) (c_max_pkt_streams c)
    (c_cur_pkt_send_stream c) (c_cur_pkt_recv_stream c) (c_error_count c)
    (c_processed_packet_count c) (c_generated_packet_count c).

Definition c_set_deadline (t : Z) (c : Communicator R) : Communicator R :=
  mkCommunicator (c_config c) (c_report_interval c) (c_reporter c) t
    (c_dest_addr_count c) (c_dest_addr_index c) (c_send_stream_count c) (c_send_stream_index c)
    (c_recv_stream_count c) (c_recv_stream_index c) (c_max_pkt_streams c)
    (c_cur_pkt_send_stream c) (c_cur_pkt_recv_stream c) (c_error_count c)
    (c_processed_packet_count c) (c_generated_packet_count c).

Definition c_set_addr (count index : nat) (c : Communicator R) : Communicator R :=
  mkCommunicator (c_config c) (c_report_interval c) (c_reporter c) (c_next_deadline c)
    count index (c_send_stream_count c) (c_send_stream_index c)
    (c_recv_stream_count c) (c_recv_stream_index c) (c_max_pkt_streams c)
    (c_cur_pkt_send_stream c) (c_cur_pkt_recv_stream c) (c_error_count c)
    (c_processed_packet_count c) (c_generated_packet_count c).

(** Count and index of the sending and of the receiving streams. *)
Definition c_set_streams (send_count send_index recv_count recv_index : nat) (c : Communicator R)
  : Communicator R :=
  mkCommunicator (c_config c) (c_report_interval c) (c_reporter c) (c_next_deadline c)
    (c_dest_addr_count c) (c_dest_addr_index c) send_count send_index
    recv_count recv_index (c_max_pkt_streams c)
    (c_cur_pkt_send_stream c) (c_cur_pkt_recv_stream c) (c_error_count c)
    (c_processed_packet_count c) (c_generated_packet_count c).

Definition c_set_max (n : nat) (c : Communicator R) : Communicator R :=
  mkCommunicator (c_config c) (c_report_interval c) (c_reporter c) (c_next_deadline c)
    (c_dest_addr_count c) (c_dest_addr_index c) (c_send_stream_count c) (c_send_stream_index c)
    (c_recv_stream_count c) (c_recv_stream_index c) n
    (c_cur_pkt_send_stream c) (c_cur_pkt_recv_stream c) (c_error_count c)
    (c_processed_packet_count c) (c_generated_packet_count c).

(** The numbers of streams in the current packet. *)
Definition c_set_cur (send recv : nat) (c : Communicator R) : Communicator R :=
  mkCommunicator (c_config c) (c_report_interval c) (c_reporter c) (c_next_deadline c)
    (c_dest_addr_count c) (c_dest_addr_index c) (c_send_stream_count c) (c_send_stream_index c)
    (c_recv_stream_count c) (c_recv_stream_index c) (c_max_pkt_streams c)
    send recv (c_error_count c)
    (c_processed_packet_count c) (c_generated_packet_count c).

Definition c_set_counts (errors processed generated : nat) (c : Communicator R) : Communicator R :=
  mkCommunicator (c_config c) (c_report_interval c) (c_reporter c) (c_next_deadline c)
    (c_dest_addr_count c) (c_dest_addr_index c) (c_send_stream_count c) (c_send_stream_index c)
    (c_recv_stream_count c) (c_recv_stream_index c) (c_max_pkt_streams c)
    (c_cur_pkt_send_stream c) (c_cur_pkt_recv_stream c) errors processed generated.

(** * Limit of streams per packet *)

Definition next_send_stream (new_stream_index : nat) (c : Communicator R) : bool * Communicator R :=
  let n := Nat.max (c_cur_pkt_send_stream c) (new_stream_index - c_send_stream_index c + 1) in
  if (c_max_pkt_streams c <=? n + c_cur_pkt_recv_stream c)%nat then (false, c)
  else (true, c_set_cur n (c_cur_pkt_recv_stream c) c).

Definition next_recv_stream (new_stream_index : nat) (c : Communicator R) : bool * Communicator R :=
  let n := Nat.max (c_cur_pkt_recv_stream c) (new_stream_index - c_recv_stream_index c + 1) in
  if (c_max_pkt_streams c <=? c_cur_pkt_send_stream c + n)%nat then (false, c)
  else (true, c_set_cur (c_cur_pkt_send_stream c) n c).

(** * Payload *)

(** A call of the reporter that fills a header object. *)
Definition ask {A} (f : R -> res (A * R)) (c : Communicator R) : res (A * Communicator R) :=
  let* '(x, r) := f (c_reporter c) in Ok (x, c_set_reporter r c).

(** [for (stream_index = index; stream_index < count; stream_index++)] with the [break]
    when the packet has no room for the stream; [num] is [count - index]. *)
Fixpoint stream_loop (next : nat -> Communicator R -> bool * Communicator R)
    (add : nat -> Communicator R -> Builder -> res (Communicator R * Builder))
    (num index : nat) (c : Communicator R) (b : Builder) : res (Communicator R * Builder) :=
  match num with
  | O => Ok (c, b)
  | S num =>
      let '(ok, c) := next index c in
      if ok then
        let* '(c, b) := add index c b in
        stream_loop next add num (index + 1) c b
      else Ok (c, b)
  end.

Definition send_streams add (c : Communicator R) : Builder -> res (Communicator R * Builder) :=
  stream_loop next_send_stream add (c_send_stream_count c - c_send_stream_index c)
    (c_send_stream_index c) c.

Definition recv_streams add (c : Communicator R) : Builder -> res (Communicator R * Builder) :=
  stream_loop next_recv_stream add (c_recv_stream_count c - c_recv_stream_index c)
    (c_recv_stream_index c) c.

(** The reception block of one stream, for [add_sr_report] or [add_rr_report]. *)
Definition add_reception (add_report : bytes -> Builder -> res Builder) (stream_index : nat)
    (c : Communicator R) (b : Builder) : res (Communicator R * Builder) :=
  let* '(blk, c) := ask (generate_reception_block (c_dest_addr_index c) stream_index) c in
  let* b := add_report blk b in
  Ok (c, b).

Definition generate_standard_report (c : Communicator R) (b : Builder)
  : res (Communicator R * Builder) :=
  if is_sending (c_reporter c) then
    let* '(sr, c) := ask generate_sr c in
    let* b := begin_sr sr b in
    let* '(c, b) :=
      if is_receiving (c_reporter c) then recv_streams (add_reception (add_sr_report host)) c b
      else Ok (c, b) in
    let* b := end_sr host b in
    Ok (c, b)
  else
    let* '(rr, c) := ask generate_rr c in
    let* b := begin_rr rr b in
    let* '(c, b) :=
      if is_receiving (c_reporter c) then recv_streams (add_reception (add_rr_report host)) c b
      else Ok (c, b) in
    let* b := end_rr host b in
    Ok (c, b).

Definition add_dlrr (stream_index : nat) (c : Communicator R) (b : Builder)
  : res (Communicator R * Builder) :=
  let* '(blk, c) := ask (generate_dlrr_subblock (c_dest_addr_index c) stream_index) c in
  let* b := add_xr_dlrr_report blk b in
  Ok (c, b).

(** The three blocks of one receiving stream. *)
Definition add_metrics (stream_index : nat) (c : Communicator R) (b : Builder)
  : res (Communicator R * Builder) :=
  let* '(mi, c) := ask (generate_measurement_info_block (c_dest_addr_index c) stream_index) c in
  let* b := add_xr_measurement_info host mi b in
  let* '(dm, c) := ask (generate_delay_metrics_block (c_dest_addr_index c) stream_index) c in
  let* b := add_xr_delay_metrics host dm b in
  let* '(qm, c) := ask (generate_queue_metrics_block (c_dest_addr_index c) stream_index) c in
  let* b := add_xr_queue_metrics host qm b in
  Ok (c, b).

(** [is_sending() && send_stream_index_ < send_stream_count_] *)
Definition has_dlrr (c : Communicator R) : bool :=
  is_sending (c_reporter c) && (c_send_stream_index c <? c_send_stream_count c)%nat.

Definition generate_extended_report (c : Communicator R) (b : Builder)
  : res (Communicator R * Builder) :=
  if has_dlrr c || is_receiving (c_reporter c) then
    let* '(xr, c) := ask generate_xr c in
    let* b := begin_xr xr b in
    let* '(c, b) :=
      if has_dlrr c then
        let* b := begin_xr_dlrr (new_block XR_DLRR 0) b in
        let* '(c, b) := send_streams add_dlrr c b in
        let* b := end_xr_dlrr host b in
        Ok (c, b)
      else Ok (c, b) in
    let* '(c, b) :=
      if is_receiving (c_reporter c) then
        let* '(rrtr, c) := ask generate_rrtr_block c in
        let* b := add_xr_rrtr host rrtr b in
        recv_streams add_metrics c b
      else Ok (c, b) in
    let* b := end_xr host b in
    Ok (c, b)
  else Ok (c, b).

Definition generate_empty_report (c : Communicator R) (b : Builder)
  : res (Communicator R * Builder) :=
  let* '(rr, c) := ask generate_rr c in
  let* b := begin_rr rr b in
  let* b := end_rr host b in
  Ok (c, b).

Definition generate_description (c : Communicator R) (b : Builder)
  : res (Communicator R * Builder) :=
  let* b := begin_sdes host b in
  let* '(ssrc, item, c) := ask generate_cname c in
  let* b := begin_sdes_chunk host ssrc b in
  let* b := add_sdes_item item.1 item.2 b in
  let* b := end_sdes_chunk b in
  let* b := end_sdes host b in
  Ok (c, b).

Definition generate_goodbye_ (c : Communicator R) (b : Builder)
  : res (Communicator R * Builder) :=
  let* b := begin_bye host b in
  let* '(ssrc, c) := ask generate_goodbye_ssrc c in
  let* b := add_bye_ssrc host ssrc b in
  let* b := end_bye host b in
  Ok (c, b).

Definition generate_reports_payload (c : Communicator R) (b : Builder)
  : res (Communicator R * Builder) :=
  let* '(c, b) := if enable_sr_rr (c_config c) then generate_standard_report c b else Ok (c, b) in
  let* '(c, b) := if enable_xr (c_config c) then generate_extended_report c b else Ok (c, b) in
  let* '(c, b) := if enable_sdes (c_config c) then generate_description c b else Ok (c, b) in
  if need_goodbye (c_reporter c) then generate_goodbye_ c b else Ok (c, b).

Definition generate_goodbye_payload (c : Communicator R) (b : Builder)
  : res (Communicator R * Builder) :=
  let* '(c, b) := if enable_sr_rr (c_config c) then generate_empty_report c b else Ok (c, b) in
  let* '(c, b) := if enable_sdes (c_config c) then generate_description c b else Ok (c, b) in
  generate_goodbye_ c b.

Definition generate_payload (packet_type : PacketType) : Communicator R -> Builder ->
    res (Communicator R * Builder) :=
  match packet_type with
  | PacketType_Reports => generate_reports_payload
  | PacketType_Goodbye => generate_goodbye_payload
  end.

(** The loop that looks for a number of streams that fits: status, communicator, and
    the payload as content of its buffer and slice. *)
Fixpoint generate_packet_payload (fuel : nat) (packet_type : PacketType) (c : Communicator R)
    (mem : bytes) (payload : Slice) : run (StatusCode * Communicator R * bytes * Slice) :=
  match fuel with
  | O => Ok None
  | S fuel =>
      let c := c_set_cur 0 0 c in
      let! b := lift (builder_new (c_config c) mem payload) in
      let! '(c, b) := lift (generate_payload packet_type c b) in
      let! _ := lift (builder_delete b) in
      let cur := (c_cur_pkt_send_stream c + c_cur_pkt_recv_stream c)%nat in
      if negb (is_ok b) then
        if (cur <=? 1)%nat then ret (StatusNoSpace, c_set_max 1 c, b_mem b, b_result b)
        else generate_packet_payload fuel packet_type (c_set_max (cur - 1) c) (b_mem b) (b_result b)
      else
        ret (StatusOK,
             c_set_streams (c_send_stream_count c) (c_send_stream_index c + c_cur_pkt_send_stream c)
               (c_recv_stream_count c) (c_recv_stream_index c + c_cur_pkt_recv_stream c) c,
             b_mem b, b_result b)
  end.

End Payload.

(** * Packets *)

Section Generate.

Context (host : cpu_endian) {R F W : Type} `{IReporter R} `{IPacketFactory F} `{IWriter W}.
(** [packet_composer_.prepare()] *)
Context (prepare : Packet -> Slice -> nat -> res (bool * Packet * Slice)).

(** The communicator with the objects it refers to. *)
Record GenState : Type := mkGenState {
  g_comm : Communicator R;
  g_factory : F;
  g_writer : W;
}.

Definition g_set_comm (c : Communicator R) (g : GenState) : GenState :=
  mkGenState c (g_factory g) (g_writer g).

Definition begin_packet_generation (current_time : Z) (c : Communicator R)
  : res (StatusCode * Communicator R) :=
  let* '(status, r) := begin_generation current_time (c_reporter c) in
  let c := c_set_reporter r c in
  match status with
  | StatusOK => Ok (StatusOK, c_set_addr 0 0 (c_set_streams 0 0 0 0 c))
  | _ => Ok (status, c)
  end.

Definition end_packet_generation (c : Communicator R) : res (StatusCode * Communicator R) :=
  ask end_generation c.

Definition continue_packet_generation (c : Communicator R) : bool * Communicator R :=
  if (c_send_stream_count c <=? c_send_stream_index c)%nat
     && (c_recv_stream_count c <=? c_recv_stream_index c)%nat then
    let c := if (c_dest_addr_count c =? 0)%nat
             then c_set_addr (num_dest_addresses (c_reporter c)) 0 c
             else c_set_addr (c_dest_addr_count c) (c_dest_addr_index c + 1) c in
    if (c_dest_addr_count c <=? c_dest_addr_index c)%nat then (false, c)
    else
      let r := c_reporter c in
      let send := if is_sending r then num_sending_streams (c_dest_addr_index c) r else O in
      let recv := if is_receiving r then num_receiving_streams (c_dest_addr_index c) r else O in
      (true, c_set_streams send 0 recv 0 (c_set_cur 0 0 c))
  else (true, c).

(** The composed packet: [prepare] has to make room for exactly the payload, which is
    then copied. *)
Definition fill_packet (packet : Packet) (packet_buffer payload_buffer : Slice) (payload_mem : bytes)
    (c : Communicator R) : res (StatusCode * Packet * Communicator R) :=
  let* packet_buffer := slice_reslice packet_buffer 0 0 in
  let* '(ok, packet, packet_buffer) := prepare packet packet_buffer (sl_size payload_buffer) in
  if negb ok then Ok (StatusNoSpace, packet, c)
  else
    let* packet := add_flags packet FlagPrepared in
    let* packet := set_buffer packet packet_buffer in
    match packet_rtcp packet with
    | None => Panic
    | Some payload =>
        panic_if (negb (slice_bool payload) || negb (sl_size payload =? sl_size payload_buffer)%nat)
          (let* dst := slice_data payload in
           let* src := slice_data payload_buffer in
           let data := slice_of payload_mem src (sl_size payload_buffer) in
           let packet := with_mem packet (overwrite (pkt_mem packet) dst data) in
           let* packet := add_flags packet FlagUDP in
           let* '(addr, c) := ask (generate_dest_address (c_dest_addr_index c)) c in
           let udp := mkUDP (src_addr (udp_ packet)) addr (receive_timestamp (udp_ packet))
                        (queue_timestamp (udp_ packet)) in
           Ok (StatusOK, with_udp packet udp, c))
    end.

(** [generate_packet_]: status, packet and state. *)
Definition generate_packet (fuel : nat) (packet_type : PacketType) (g : GenState)
  : run (StatusCode * PacketPtr * GenState) :=
  let '(ok, factory) := new_packet (g_factory g) in
  if negb ok then ret (StatusNoMem, None, mkGenState (g_comm g) factory (g_writer g))
  else
    let '(mem, factory) := new_packet_buffer factory in
    match mem with
    | None => ret (StatusNoMem, Some Packet_new, mkGenState (g_comm g) factory (g_writer g))
    | Some mem =>
        let! payload_buffer := lift (slice_reslice (slice_whole (length mem)) 0 0) in
        let! '(status, c, mem, payload_buffer) :=
          generate_packet_payload host fuel packet_type (g_comm g) mem payload_buffer in
        let g := mkGenState c factory (g_writer g) in
        match status with
        | StatusOK =>
            let '(packet_mem, factory) := new_packet_buffer factory in
            let g := mkGenState c factory (g_writer g) in
            match packet_mem with
            | None => ret (StatusNoMem, Some Packet_new, g)
            | Some packet_mem =>
                let! '(status, packet, c) :=
                  lift (fill_packet (with_mem Packet_new packet_mem) (slice_whole (length packet_mem))
                          payload_buffer mem c) in
                ret (status, Some packet, g_set_comm c g)
            end
        | _ => ret (status, Some Packet_new, g)
        end
    end.

Definition write_generated_packet (packet : PacketPtr) (g : GenState) : res (StatusCode * GenState) :=
  let* '(status, w) := write (g_writer g) packet in
  Ok (status, mkGenState (g_comm g) (g_factory g) w).

(** [while (continue_packet_generation_())]: the status the loop ends with. *)
Fixpoint generate_loop (fuel : nat) (packet_type : PacketType) (g : GenState)
  : run (StatusCode * GenState) :=
  match fuel with
  | O => Ok None
  | S fuel' =>
      let '(more, c) := continue_packet_generation (g_comm g) in
      let g := g_set_comm c g in
      if negb more then ret (StatusOK, g)
      else
        let! '(status, packet, g) := generate_packet fuel packet_type g in
        match status with
        | StatusOK =>
            let! '(status, g) := lift (write_generated_packet packet g) in
            match status with
            | StatusOK =>
                let c := g_comm g in
                generate_loop fuel' packet_type
                  (g_set_comm (c_set_counts (c_error_count c) (c_processed_packet_count c)
                                 (c_generated_packet_count c + 1) c) g)
            | _ => ret (status, g)
            end
        | _ => ret (status, g)
        end
  end.

(** [log_stats_()]; [allow] is the answer of [log_limiter_]. *)
Definition log_stats (allow : bool) (c : Communicator R) : Communicator R :=
  if allow then c_set_counts 0 0 0 c else c.

Definition generate_packets (fuel : nat) (allow : bool) (packet_type : PacketType) (current_time : Z)
    (g : GenState) : run (StatusCode * GenState) :=
  let! '(status, c) := lift (begin_packet_generation current_time (g_comm g)) in
  let g := g_set_comm c g in
  match status with
  | StatusOK =>
      let! '(status, g) := generate_loop fuel packet_type g in
      let! '(e_status, c) := lift (end_packet_generation (g_comm g)) in
      let status := match status, e_status with StatusOK, _ => e_status | _, _ => status end in
      ret (status, g_set_comm (log_stats allow c) g)
  | _ => ret (status, g)
  end.

Definition generation_deadline (current_time : Z) (c : Communicator R) : res (Z * Communicator R) :=
  panic_if (current_time <=? 0)
    (let c := if c_next_deadline c =? 0 then c_set_deadline current_time c else c in
     Ok (c_next_deadline c, c)).

(** The remainder truncates and is undefined for a zero interval. *)
Definition generate_reports (fuel : nat) (allow : bool) (current_time : Z) (g : GenState)
  : run (StatusCode * GenState) :=
  if current_time <=? 0 then Panic
  else
    let c := g_comm g in
    let c := if c_next_deadline c =? 0 then c_set_deadline current_time c else c in
    if current_time <? c_next_deadline c then ret (StatusOK, g_set_comm c g)
    else if c_report_interval c =? 0 then Panic
    else
      let deadline :=
        s64 (s64 (current_time + c_report_interval c)
             - Z.rem (s64 (current_time - c_next_deadline c)) (c_report_interval c)) in
      generate_packets fuel allow PacketType_Reports current_time
        (g_set_comm (c_set_deadline deadline c) g).

Definition generate_goodbye (fuel : nat) (allow : bool) (current_time : Z) (g : GenState)
  : run (StatusCode * GenState) :=
  if current_time <=? 0 then Panic
  else generate_packets fuel allow PacketType_Goodbye current_time g.

End Generate.
