(* ===== verification/RtcpGenerateSafe.v ===== *)
(** Generation of RTCP reports: the payload of every packet is the encoding of a valid
    compound packet (RtcpWire.v), and every stream of every destination address is
    reported. *)

From S2P Require Import Prelude Bytes Slice Packet Io FecWriter.
From S2P Require Import RtcpHeaders RtcpTraverser RtcpTraverserSafe RtcpBuilder RtcpWire.
From S2P Require Import RtcpBuilderEncodes RtcpBuilderCorrect RtcpCommunicator RtcpGenerate.

(** * What the reporter promises *)

(** What the blocks of a reporter are about: the address that the reports of an index go to,
    and the SSRC, as it is sent, of a sending or a receiving stream of that address. *)
Class ReportedStreams (R : Type) : Type := {
  dest_of : nat -> R -> option Z;
  send_ssrc : nat -> nat -> R -> bytes;
  recv_ssrc : nat -> nat -> R -> bytes;
}.

(** The streams to report do not change. *)
Record same_streams `{IReporter R} `{ReportedStreams R} (r r' : R) : Prop := {
  same_sending : is_sending r' = is_sending r;
  same_receiving : is_receiving r' = is_receiving r;
  same_addresses : num_dest_addresses r' = num_dest_addresses r;
  same_send_streams a : num_sending_streams a r' = num_sending_streams a r;
  same_recv_streams a : num_receiving_streams a r' = num_receiving_streams a r;
  same_goodbye : need_goodbye r' = need_goodbye r;
  same_dest a : dest_of a r' = dest_of a r;
  same_send_ssrc a i : send_ssrc a i r' = send_ssrc a i r;
  same_recv_ssrc a i : recv_ssrc a i r' = recv_ssrc a i r;
}.

#[global] Instance same_streams_refl `{IReporter R} `{ReportedStreams R} : Reflexive same_streams.
Proof. by intros r. Qed.

#[global] Instance same_streams_trans `{IReporter R} `{ReportedStreams R} : Transitive same_streams.
Proof. intros r1 r2 r3 [] []. split; etransitivity; eauto. Qed.

(** A bytewise description of an XR block object. *)
Definition is_block (t : Z) (mk : Z -> bytes -> xr_block) (blk : bytes) : Prop :=
  exists ts body, blk = new_block t ts ++ body /\ valid_block (mk ts body) = true.

(** The same for a block of a stream, whose body starts with the SSRC of the stream. *)
Definition is_stream_block (t : Z) (mk : Z -> bytes -> xr_block) (ssrc blk : bytes) : Prop :=
  exists ts body, blk = new_block t ts ++ body /\ valid_block (mk ts body) = true /\ take 4 body = ssrc.

Definition is_header (t : Z) (n : nat) (pkt : bytes) : Prop :=
  exists body, pkt = new_header t ++ body /\ bytes_of_len n body = true.

(** Between [begin_generation] and [end_generation] the reporter fills every header and
    block it is asked for, for the streams it has, each with the SSRC of its stream. *)
Class GenerationReporter (R : Type) `{IReporter R} `{ReportedStreams R} : Type := {
  generating : R -> Prop;
  finished : R -> Prop;
  answers {A} (ok : R -> Prop) (P : A -> Prop) (f : R -> res (A * R)) : Prop :=
    forall r, generating r -> ok r ->
      exists x r', f r = Ok (x, r') /\ P x /\ generating r' /\ same_streams r r';
  generate_dest_address_ok a dest :
    answers (fun r => a < num_dest_addresses r /\ dest_of a r = dest)%nat
      (fun addr => addr = dest) (generate_dest_address a);
  generate_cname_ok :
    answers (fun _ => True)
      (fun x : Z * (Z * bytes) => x.2.1 = SDES_CNAME /\ valid_chunk (x.1, [x.2]) = true) generate_cname;
  generate_sr_ok :
    answers (fun r => is_sending r = true) (is_header RTCP_SR 24) generate_sr;
  generate_rr_ok : answers (fun _ => True) (is_header RTCP_RR 4) generate_rr;
  generate_reception_block_ok a i ssrc :
    answers (fun r => is_receiving r = true /\ a < num_dest_addresses r
                      /\ i < num_receiving_streams a r /\ recv_ssrc a i r = ssrc)%nat
      (fun blk => bytes_of_len 24 blk = true /\ take 4 blk = ssrc) (generate_reception_block a i);
  generate_xr_ok :
    answers (fun r => is_sending r = true \/ is_receiving r = true) (is_header RTCP_XR 4) generate_xr;
  generate_dlrr_subblock_ok a i ssrc :
    answers (fun r => is_sending r = true /\ a < num_dest_addresses r
                      /\ i < num_sending_streams a r /\ send_ssrc a i r = ssrc)%nat
      (fun blk => bytes_of_len 12 blk = true /\ take 4 blk = ssrc) (generate_dlrr_subblock a i);
  generate_rrtr_block_ok :
    answers (fun r => is_receiving r = true) (is_block XR_RRTR BlkRrtr) generate_rrtr_block;
  generate_measurement_info_block_ok a i ssrc :
    answers (fun r => is_receiving r = true /\ a < num_dest_addresses r
                      /\ i < num_receiving_streams a r /\ recv_ssrc a i r = ssrc)%nat
      (is_stream_block XR_MEASUREMENT_INFO BlkMeasurementInfo ssrc) (generate_measurement_info_block a i);
  generate_delay_metrics_block_ok a i ssrc :
    answers (fun r => is_receiving r = true /\ a < num_dest_addresses r
                      /\ i < num_receiving_streams a r /\ recv_ssrc a i r = ssrc)%nat
      (is_stream_block XR_DELAY_METRICS BlkDelayMetrics ssrc) (generate_delay_metrics_block a i);
  generate_queue_metrics_block_ok a i ssrc :
    answers (fun r => is_receiving r = true /\ a < num_dest_addresses r
                      /\ i < num_receiving_streams a r /\ recv_ssrc a i r = ssrc)%nat
      (is_stream_block XR_QUEUE_METRICS BlkQueueMetrics ssrc) (generate_queue_metrics_block a i);
  generate_goodbye_ssrc_ok :
    answers (fun _ => True) (fun ssrc => is_u 32 ssrc) generate_goodbye_ssrc;
  end_generation_ok r :
    generating r -> exists status r', end_generation r = Ok (status, r') /\ finished r';
}.

(** * Sizes *)

Definition is_dlrr (blk : xr_block) : bool := match blk with BlkDlrr _ _ => true | _ => false end.

Lemma forallb_Forall {A} (f : A -> bool) l : Forall (fun x => f x = true) l -> forallb f l = true.
Proof. induction 1 as [|x l Hx _ IH]; [done|]. simpl. by rewrite Hx. Qed.

Lemma concat_length_eq n (l : list bytes) :
  Forall (fun x => bytes_of_len n x = true) l -> length (concat l) = (n * length l)%nat.
Proof.
  induction 1 as [|x l Hx _ IH]; [simpl; lia|]. simpl. rewrite length_app, IH.
  destruct (bytes_of_len_inv _ _ Hx) as [-> _]. lia.
Qed.

Lemma valid_report p k :
  (match p with
   | PktSr body reports =>
       bytes_of_len 24 body = true /\ Forall (fun x => bytes_of_len 24 x = true) reports /\ length reports = k
   | PktRr body reports =>
       bytes_of_len 4 body = true /\ Forall (fun x => bytes_of_len 24 x = true) reports /\ length reports = k
   | _ => False
   end) -> (k <= 31)%nat ->
  valid_pkt p = true /\ is_report p = true /\ pkt_count p = k
  /\ (length (enc_pkt p 0) <= 28 + 24 * k)%nat.
Proof.
  intros Hp Hk. rewrite length_enc_pkt. unfold valid_pkt, pkt_size.
  destruct p as [body reports|body reports| | |]; try done; destruct Hp as (Hb & Hr & <-);
    cbn [pkt_count pkt_body is_report]; rewrite length_app, (concat_length_eq 24) by done;
    destruct (bytes_of_len_inv _ _ Hb) as [Hl _]; rewrite Hl, Hb, (forallb_Forall _ reports) by done;
    rewrite (proj2 (Nat.leb_le _ _)), (proj2 (Z.leb_le _ _)) by lia; split_and!; done || lia.
Qed.

(** The streams that a compound packet reports on. *)
Definition block_sends (blk : xr_block) : nat :=
  match blk with BlkDlrr _ subs => length subs | _ => O end.

Definition pkt_sends (p : rtcp_pkt) : nat :=
  match p with PktXr _ blocks => list_sum (map block_sends blocks) | _ => O end.

Definition pkt_recvs (p : rtcp_pkt) : nat := if is_report p then pkt_count p else O.

Definition reported_sends (ps : list rtcp_pkt) : nat := list_sum (map pkt_sends ps).

Definition reported_recvs (ps : list rtcp_pkt) : nat := list_sum (map pkt_recvs ps).

(** The blocks of a compound packet that are about a stream, by the SSRCs they start with. *)
Inductive stream_block : Type := Reception | Dlrr | MeasurementInfo | DelayMetrics | QueueMetrics.

Definition block_ssrcs (k : stream_block) (blk : xr_block) : list bytes :=
  match k, blk with
  | Dlrr, BlkDlrr _ subs => map (take 4) subs
  | MeasurementInfo, BlkMeasurementInfo _ body => [take 4 body]
  | DelayMetrics, BlkDelayMetrics _ body => [take 4 body]
  | QueueMetrics, BlkQueueMetrics _ body => [take 4 body]
  | _, _ => []
  end.

Definition pkt_ssrcs (k : stream_block) (p : rtcp_pkt) : list bytes :=
  match k, p with
  | Reception, (PktSr _ reports | PktRr _ reports) => map (take 4) reports
  | _, PktXr _ blocks => concat (map (block_ssrcs k) blocks)
  | _, _ => []
  end.

Definition about (k : stream_block) (ps : list rtcp_pkt) : list bytes := concat (map (pkt_ssrcs k) ps).

Definition unpadded (ps : list rtcp_pkt) : bytes := concat (map (fun p => enc_pkt p 0) ps).

Lemma enc_compound_unpadded ps : enc_compound ps 0 = unpadded ps.
Proof.
  induction ps as [|p [|q ps] IH]; [done|unfold unpadded; simpl; by rewrite app_nil_r|].
  cbn [enc_compound] in *. by rewrite IH.
Qed.

Lemma no_dlrr_sends blocks : existsb is_dlrr blocks = false -> list_sum (map block_sends blocks) = O.
Proof.
  induction blocks as [|blk blocks IH]; [done|]. simpl. intros Hb. apply orb_false_iff in Hb as [H1 H2].
  rewrite IH by done. by destruct blk.
Qed.

Lemma valid_xr body blocks n :
  bytes_of_len 4 body = true -> forallb valid_block blocks = true ->
  (length (concat (map enc_xr_block blocks)) <= n)%nat -> Z.of_nat n <= 60000 ->
  valid_pkt (PktXr body blocks) = true /\ (length (enc_pkt (PktXr body blocks) 0) <= 8 + n)%nat.
Proof.
  intros Hb HV Hn Hz. rewrite length_enc_pkt. unfold valid_pkt, pkt_size. cbn [pkt_body pkt_count].
  rewrite length_app. destruct (bytes_of_len_inv _ _ Hb) as [Hl _]. rewrite Hl, Hb, HV.
  rewrite (proj2 (Nat.leb_le _ _)), (proj2 (Z.leb_le _ _)) by lia. split; [done|lia].
Qed.

Lemma valid_sdes chunk :
  valid_chunk chunk = true -> (exists item, chunk.2 = [item]) ->
  valid_pkt (PktSdes [chunk]) = true /\ (length (enc_pkt (PktSdes [chunk]) 0) <= 272)%nat.
Proof.
  intros HV [item Hi]. destruct chunk as [ssrc items]. cbn [snd] in Hi. subst items.
  assert (length item.2 <= 255)%nat as Ht.
  { unfold valid_chunk in HV. reflect_bools. unfold valid_item in *. cbn [fst snd forallb] in *. reflect_bools.
    by destruct (is_text_inv item.2) as [Hl _]. }
  assert (length (enc_chunk (ssrc, [item])) <= 265)%nat as Hl.
  { unfold enc_chunk. cbn [fst snd map concat]. rewrite app_nil_r. set (its := be_bytes 4 ssrc ++ enc_item item).
    destruct (padding_len_spec (length its) 1) as [_ Hp]. rewrite length_app, length_replicate.
    assert (length its = 6 + length item.2)%nat as -> by (subst its; rewrite length_app, length_be_bytes; done).
    assert (length its = 6 + length item.2)%nat as Hits by (subst its; rewrite length_app, length_be_bytes; done).
    rewrite Hits in Hp. lia. }
  rewrite length_enc_pkt. unfold valid_pkt, pkt_size. cbn [pkt_body pkt_count map concat length forallb].
  rewrite app_nil_r, HV. rewrite (proj2 (Nat.leb_le _ _)), (proj2 (Z.leb_le _ _)) by lia. split; [done|lia].
Qed.

Lemma valid_compound_intro config p ps :
  forallb valid_pkt (p :: ps) = true -> forallb (allowed config) (p :: ps) = true ->
  is_report p = true -> (enable_sdes config = true -> existsb has_chunks (p :: ps) = true) ->
  valid_compound config (p :: ps) 0 = true.
Proof.
  intros HV Ha Hr Hs. unfold valid_compound. rewrite HV, Ha, Hr, orb_true_r.
  assert (negb (enable_sdes config) || existsb has_chunks (p :: ps) = true) as ->
    by (destruct (enable_sdes config); [by apply Hs|done]).
  cbn [andb Nat.modulo]. destruct (last (p :: ps)) as [q|] eqn:El; [|by apply last_None in El].
  rewrite last_Some in El. destruct El as [l' El]. rewrite El, forallb_app in HV.
  apply andb_true_iff in HV as [_ HV]. simpl in HV. rewrite andb_true_r in HV. unfold valid_pkt in HV.
  apply andb_true_iff in HV as [HV _]. by apply andb_true_iff in HV as [_ HV].
Qed.

Section Payload.

Context (host : cpu_endian) {R : Type} `{GenerationReporter R}.
(** The communicator when the payload of a packet is started. *)
Context (c0 : Communicator R).

(** The communicator while the payload is written: only the reporter and the numbers of
    streams in the packet change. *)
Definition at_ (r : R) (s q : nat) : Communicator R := c_set_cur s q (c_set_reporter r c0).

(** The reporter still reports the same streams. *)
Definition good (r : R) : Prop := generating r /\ same_streams (c_reporter c0) r.

Lemma ask_ok {A} ok (P : A -> Prop) f r s q :
  answers ok P f -> good r -> ok r ->
  exists x r', ask f (at_ r s q) = Ok (x, at_ r' s q) /\ P x /\ good r'.
Proof using.
  intros Hf [Hg Hs] Hok. destruct (Hf r Hg Hok) as (x & r' & E & HP & Hg' & Hs').
  exists x, r'. unfold ask. cbn [at_ c_set_cur c_set_reporter c_reporter]. rewrite E.
  split; [done|]. split; [done|]. split; [done|]. by transitivity r.
Qed.

(** * The loops over the streams *)

Lemma each_app {A} (f : A -> Builder -> res Builder) l1 l2 b :
  each f (l1 ++ l2) b = (let* b := each f l1 b in each f l2 b).
Proof using.
  revert b. induction l1 as [|x l1 IH]; intros b; [done|]. simpl.
  destruct (f x b); simpl; [apply IH|done].
Qed.

(** [C r n]: the communicator with [n] streams of the loop's kind in the packet; [room]
    is the limit for them, less the streams of the other kind. *)
Lemma stream_loop_spec {A} next add (C : R -> nat -> Communicator R) (f : A -> Builder -> res Builder)
    (P : nat -> A -> Prop) (base count room : nat) num idx r n :
  (forall idx r n, next idx (C r n) =
     let n' := Nat.max n (idx - base + 1) in
     if (room <=? n')%nat then (false, C r n) else (true, C r n')) ->
  (forall idx r n, good r -> (base <= idx < count)%nat ->
     exists x r', P idx x /\ good r' /\ forall b, add idx (C r n) b = (let* b := f x b in Ok (C r' n, b))) ->
  good r -> (base <= idx)%nat -> (idx + num = count)%nat -> (idx - base <= n < room)%nat ->
  exists xs r', length xs = Nat.min num (room - 1 - (idx - base))
    /\ Forall2 P (seq idx (length xs)) xs /\ good r'
    /\ forall b, stream_loop next add num idx (C r n) b =
       (let* b := each f xs b in Ok (C r' (Nat.max n (idx - base + length xs)), b)).
Proof using.
  intros Hnext Hadd. revert idx r n. induction num as [|num IH]; intros idx r n Hr Hb Hc Hn.
  { exists [], r. simpl. rewrite Nat.max_l by lia. split_and!; done || lia. }
  cbn [stream_loop]. rewrite Hnext. cbv zeta. destruct (Nat.leb_spec room (Nat.max n (idx - base + 1))).
  - exists [], r. cbn [length each res_bind]. rewrite (Nat.max_l n (idx - base + 0)) by lia. split_and!; done || lia.
  - destruct (Hadd idx r (Nat.max n (idx - base + 1)) Hr) as (x & r1 & HP & Hr1 & Ex); [lia|].
    destruct (IH (idx + 1)%nat r1 (Nat.max n (idx - base + 1))) as (xs & r2 & Hl & HPs & Hr2 & E);
      try done; try lia.
    exists (x :: xs), r2. rewrite Nat.add_1_r in HPs. cbn [length each seq].
    split_and!; [lia|by constructor|done|]. intros b.
    rewrite Ex. destruct (f x b) as [b1|]; cbn [res_bind]; [|done]. rewrite E.
    destruct (each f xs b1); cbn [res_bind]; [|done]. f_equal. f_equal. f_equal. lia.
Qed.

(** The counts are those of the reporter, and the limit leaves room for one stream. *)
Hypothesis Haddr : (c_dest_addr_index c0 < num_dest_addresses (c_reporter c0))%nat.
Hypothesis Hsend : c_send_stream_count c0 =
  (if is_sending (c_reporter c0) then num_sending_streams (c_dest_addr_index c0) (c_reporter c0) else O).
Hypothesis Hrecv : c_recv_stream_count c0 =
  (if is_receiving (c_reporter c0) then num_receiving_streams (c_dest_addr_index c0) (c_reporter c0) else O).
Hypothesis Hmax : (1 <= c_max_pkt_streams c0 <= 31)%nat.

#[local] Notation limit := (c_max_pkt_streams c0).
(** The streams that are left to report. *)
#[local] Notation sends := (c_send_stream_count c0 - c_send_stream_index c0)%nat.
#[local] Notation recvs := (c_recv_stream_count c0 - c_recv_stream_index c0)%nat.
(** The SSRCs of the current address. *)
#[local] Notation recv_ssrc_at i := (recv_ssrc (c_dest_addr_index c0) i (c_reporter c0)).
#[local] Notation send_ssrc_at i := (send_ssrc (c_dest_addr_index c0) i (c_reporter c0)).

(** The SSRCs of the next [n] streams. *)
Definition next_recvs (n : nat) : list bytes :=
  map (fun i => recv_ssrc (c_dest_addr_index c0) i (c_reporter c0)) (seq (c_recv_stream_index c0) n).

Definition next_sends (n : nat) : list bytes :=
  map (fun i => send_ssrc (c_dest_addr_index c0) i (c_reporter c0)) (seq (c_send_stream_index c0) n).

Lemma sized_ssrcs {A} n (P : A -> Prop) (tag : nat -> bytes) (ssrc : A -> bytes) idx xs :
  Forall2 (fun i x => P x /\ ssrc x = tag i) (seq idx n) xs ->
  Forall P xs /\ map ssrc xs = map tag (seq idx n).
Proof using.
  intros Hxs. split.
  - eapply Forall2_Forall_r; [exact Hxs|]. apply Forall_true. by intros i x [? _].
  - induction Hxs as [|i x js xs [_ E] _ IH]; [done|]. cbn [map]. by rewrite E, IH.
Qed.

Lemma recv_streams_spec {A} add (f : A -> Builder -> res Builder) (P : nat -> A -> Prop) r s q :
  (forall idx r n, good r -> is_receiving r = true ->
     (idx < num_receiving_streams (c_dest_addr_index c0) r)%nat ->
     exists x r', P idx x /\ good r' /\ forall b, add idx (at_ r s n) b = (let* b := f x b in Ok (at_ r' s n, b))) ->
  good r -> (s + q < limit)%nat ->
  exists xs r', length xs = Nat.min recvs (limit - s - 1)
    /\ Forall2 P (seq (c_recv_stream_index c0) (length xs)) xs /\ good r'
    /\ forall b, recv_streams add (at_ r s q) b =
       (let* b := each f xs b in Ok (at_ r' s (Nat.max q (length xs)), b)).
Proof using All.
  intros Hadd Hr Hlim. unfold recv_streams. cbn [at_ c_set_cur c_set_reporter c_recv_stream_count c_recv_stream_index].
  destruct (decide (c_recv_stream_index c0 <= c_recv_stream_count c0)%nat) as [Hle|Hgt].
  - destruct (stream_loop_spec next_recv_stream add (fun r n => at_ r s n) f P (c_recv_stream_index c0)
      (c_recv_stream_count c0) (limit - s) recvs (c_recv_stream_index c0) r q) as (xs & r' & Hl & HP & Hr' & E);
      try done; try lia.
    + intros idx r1 n. unfold next_recv_stream.
      cbn [at_ c_set_cur c_set_reporter c_recv_stream_index c_max_pkt_streams c_cur_pkt_send_stream c_cur_pkt_recv_stream].
      cbv zeta. destruct (Nat.leb_spec limit (s + Nat.max n (idx - c_recv_stream_index c0 + 1)));
        destruct (Nat.leb_spec (limit - s) (Nat.max n (idx - c_recv_stream_index c0 + 1))); done || lia.
    + intros idx r1 n Hr1 Hi. pose proof Hr1 as [_ Hs]. apply Hadd; [done|..].
      * rewrite (same_receiving _ _ Hs). destruct (is_receiving (c_reporter c0)); [done|lia].
      * rewrite (same_recv_streams _ _ Hs). destruct (is_receiving (c_reporter c0)); lia.
    + exists xs, r'. rewrite Nat.sub_diag in *. split_and!; try done. lia.
  - exists [], r. replace recvs with O by lia. simpl. rewrite Nat.max_0_r. by split_and!.
Qed.

Lemma send_streams_spec {A} add (f : A -> Builder -> res Builder) (P : nat -> A -> Prop) r s q :
  (forall idx r n, good r -> is_sending r = true ->
     (idx < num_sending_streams (c_dest_addr_index c0) r)%nat ->
     exists x r', P idx x /\ good r' /\ forall b, add idx (at_ r n q) b = (let* b := f x b in Ok (at_ r' n q, b))) ->
  good r -> (s + q < limit)%nat ->
  exists xs r', length xs = Nat.min sends (limit - q - 1)
    /\ Forall2 P (seq (c_send_stream_index c0) (length xs)) xs /\ good r'
    /\ forall b, send_streams add (at_ r s q) b =
       (let* b := each f xs b in Ok (at_ r' (Nat.max s (length xs)) q, b)).
Proof using All.
  intros Hadd Hr Hlim. unfold send_streams. cbn [at_ c_set_cur c_set_reporter c_send_stream_count c_send_stream_index].
  destruct (decide (c_send_stream_index c0 <= c_send_stream_count c0)%nat) as [Hle|Hgt].
  - destruct (stream_loop_spec next_send_stream add (fun r n => at_ r n q) f P (c_send_stream_index c0)
      (c_send_stream_count c0) (limit - q) sends (c_send_stream_index c0) r s) as (xs & r' & Hl & HP & Hr' & E);
      try done; try lia.
    + intros idx r1 n. unfold next_send_stream.
      cbn [at_ c_set_cur c_set_reporter c_send_stream_index c_max_pkt_streams c_cur_pkt_send_stream c_cur_pkt_recv_stream].
      cbv zeta. destruct (Nat.leb_spec limit (Nat.max n (idx - c_send_stream_index c0 + 1) + q));
        destruct (Nat.leb_spec (limit - q) (Nat.max n (idx - c_send_stream_index c0 + 1))); done || lia.
    + intros idx r1 n Hr1 Hi. pose proof Hr1 as [_ Hs]. apply Hadd; [done|..].
      * rewrite (same_sending _ _ Hs). destruct (is_sending (c_reporter c0)); [done|lia].
      * rewrite (same_send_streams _ _ Hs). destruct (is_sending (c_reporter c0)); lia.
    + exists xs, r'. rewrite Nat.sub_diag in *. split_and!; try done. lia.
  - exists [], r. replace sends with O by lia. simpl. rewrite Nat.max_0_r. by split_and!.
Qed.

(** * The packets of the payload *)

Lemma add_reception_spec add_report idx r s q :
  good r -> is_receiving r = true -> (idx < num_receiving_streams (c_dest_addr_index c0) r)%nat ->
  exists x r', (bytes_of_len 24 x = true /\ take 4 x = recv_ssrc_at idx) /\ good r'
    /\ forall b, add_reception add_report idx (at_ r s q) b =
         (let* b := add_report x b in Ok (at_ r' s q, b)).
Proof using All.
  intros Hr Hi Hx. destruct (ask_ok _ _ _ r s q (generate_reception_block_ok (c_dest_addr_index c0) idx (recv_ssrc_at idx)) Hr)
    as (x & r' & E & HP & Hr').
  { split_and!; [done|by rewrite (same_addresses _ _ (proj2 Hr))|done|apply (same_recv_ssrc _ _ (proj2 Hr))]. }
  exists x, r'. split; [done|]. split; [done|]. intros b. unfold add_reception.
  cbn [at_ c_set_cur c_set_reporter c_dest_addr_index]. by rewrite E.
Qed.

(** The reception blocks of a report, if there are any streams. *)
Lemma receptions_spec add_report r :
  good r ->
  exists xs r', length xs = Nat.min recvs (limit - 1)
    /\ Forall (fun x => bytes_of_len 24 x = true) xs /\ map (take 4) xs = next_recvs (length xs) /\ good r'
    /\ forall b, (if is_receiving r then recv_streams (add_reception add_report) (at_ r 0 0) b
                 else Ok (at_ r 0 0, b))
         = (let* b := each add_report xs b in Ok (at_ r' 0 (length xs), b)).
Proof using All.
  intros Hr. destruct (is_receiving r) eqn:Ei.
  - destruct (recv_streams_spec (add_reception add_report) add_report
      (fun i x => bytes_of_len 24 x = true /\ take 4 x = recv_ssrc_at i) r 0 0)
      as (xs & r' & Hl & HP & Hr' & E); [|done|lia|].
    { intros idx r1 n Hr1 Hi1 Hx. by apply add_reception_spec. }
    apply sized_ssrcs in HP as [HP HT].
    exists xs, r'. rewrite Nat.sub_0_r in Hl. by split_and!.
  - exists [], r. rewrite (same_receiving _ _ (proj2 Hr)) in Ei. rewrite Ei in Hrecv.
    replace recvs with O by lia. by split_and!.
Qed.

Lemma standard_report_spec r :
  good r ->
  exists p r', valid_pkt p = true /\ is_report p = true /\ pkt_count p = Nat.min recvs (limit - 1)
    /\ (length (enc_pkt p 0) <= 28 + 24 * pkt_count p)%nat
    /\ pkt_ssrcs Reception p = next_recvs (pkt_count p) /\ good r'
    /\ forall b, generate_standard_report host (at_ r 0 0) b =
         (let* b := build_pkt host p b in Ok (at_ r' 0 (pkt_count p), b)).
Proof using All.
  intros Hr. unfold generate_standard_report.
  change (is_sending (c_reporter (at_ r 0 0))) with (is_sending r).
  destruct (is_sending r) eqn:Es.
  - destruct (ask_ok _ _ _ r 0 0 generate_sr_ok Hr Es) as (x & r1 & -> & (body & -> & Hb) & Hr1).
    cbn [res_bind]. change (is_receiving (c_reporter (at_ r1 0 0))) with (is_receiving r1).
    destruct (receptions_spec (add_sr_report host) r1 Hr1) as (xs & r2 & Hl & HP & HT & Hr2 & E).
    destruct (valid_report (PktSr body xs) (length xs)) as (HV & Hrep & Hc & Hsz); [done|lia|].
    exists (PktSr body xs), r2. rewrite Hc. split_and!; try done. intros b.
    cbn [build_pkt]. destruct (begin_sr _ b) as [b1|]; cbn [res_bind]; [|done]. rewrite E.
    destruct (each (add_sr_report host) xs b1) as [b2|]; cbn [res_bind]; [|done].
    by destruct (end_sr host b2).
  - destruct (ask_ok _ _ _ r 0 0 generate_rr_ok Hr I) as (x & r1 & -> & (body & -> & Hb) & Hr1).
    cbn [res_bind]. change (is_receiving (c_reporter (at_ r1 0 0))) with (is_receiving r1).
    destruct (receptions_spec (add_rr_report host) r1 Hr1) as (xs & r2 & Hl & HP & HT & Hr2 & E).
    destruct (valid_report (PktRr body xs) (length xs)) as (HV & Hrep & Hc & Hsz); [done|lia|].
    exists (PktRr body xs), r2. rewrite Hc. split_and!; try done. intros b.
    cbn [build_pkt]. destruct (begin_rr _ b) as [b1|]; cbn [res_bind]; [|done]. rewrite E.
    destruct (each (add_rr_report host) xs b1) as [b2|]; cbn [res_bind]; [|done].
    by destruct (end_rr host b2).
Qed.

(** One receiving stream adds three blocks. *)
Definition metrics (x : list xr_block) : Prop :=
  forallb valid_block x = true /\ length (concat (map enc_xr_block x)) = 76%nat
  /\ existsb is_dlrr x = false.

(** All of them are about the stream. *)
Definition metrics_of (ssrc : bytes) (x : list xr_block) : Prop :=
  forall k, concat (map (block_ssrcs k) x) = match k with Reception | Dlrr => [] | _ => [ssrc] end.

Lemma fixed_length ts body n mk :
  (mk = BlkRrtr /\ n = 12%nat \/ mk = BlkMeasurementInfo /\ n = 32%nat
   \/ mk = BlkDelayMetrics /\ n = 28%nat \/ mk = BlkQueueMetrics /\ n = 16%nat) ->
  valid_block (mk ts body) = true ->
  length (enc_xr_block (mk ts body)) = n /\ is_dlrr (mk ts body) = false.
Proof using.
  intros Hmk HV. destruct Hmk as [[-> ->]|[[-> ->]|[[-> ->]|[-> ->]]]]; simpl in HV;
    apply andb_true_iff in HV as [_ HV]; destruct (bytes_of_len_inv _ _ HV) as [Hl _];
    cbn [enc_xr_block is_dlrr]; rewrite !length_app, enc_len_length, Hl; done.
Qed.

Lemma add_metrics_spec idx r s q :
  good r -> is_receiving r = true -> (idx < num_receiving_streams (c_dest_addr_index c0) r)%nat ->
  exists x r', (metrics x /\ metrics_of (recv_ssrc_at idx) x) /\ good r'
    /\ forall b, add_metrics host idx (at_ r s q) b =
         (let* b := each (build_block host) x b in Ok (at_ r' s q, b)).
Proof using All.
  intros Hr Hi Hx. set (a := c_dest_addr_index c0) in *.
  assert (forall r', good r' ->
    is_receiving r' = true /\ (a < num_dest_addresses r')%nat /\ (idx < num_receiving_streams a r')%nat
    /\ recv_ssrc a idx r' = recv_ssrc a idx (c_reporter c0)) as Hok.
  { intros r' [_ Hg]. destruct Hr as [_ Hs].
    rewrite (same_receiving _ _ Hg), (same_recv_streams _ _ Hg), (same_addresses _ _ Hg), (same_recv_ssrc _ _ Hg).
    rewrite (same_receiving _ _ Hs) in Hi. rewrite (same_recv_streams _ _ Hs) in Hx. by split_and!. }
  destruct (ask_ok _ _ _ r s q (generate_measurement_info_block_ok a idx _) Hr (Hok r Hr))
    as (x1 & r1 & E1 & (t1 & d1 & -> & V1 & T1) & Hr1).
  destruct (ask_ok _ _ _ r1 s q (generate_delay_metrics_block_ok a idx _) Hr1 (Hok r1 Hr1))
    as (x2 & r2 & E2 & (t2 & d2 & -> & V2 & T2) & Hr2).
  destruct (ask_ok _ _ _ r2 s q (generate_queue_metrics_block_ok a idx _) Hr2 (Hok r2 Hr2))
    as (x3 & r3 & E3 & (t3 & d3 & -> & V3 & T3) & Hr3).
  exists [BlkMeasurementInfo t1 d1; BlkDelayMetrics t2 d2; BlkQueueMetrics t3 d3], r3.
  split; [|split; [done|]].
  - destruct (fixed_length t1 d1 32 BlkMeasurementInfo) as [L1 _]; [tauto|done|].
    destruct (fixed_length t2 d2 28 BlkDelayMetrics) as [L2 _]; [tauto|done|].
    destruct (fixed_length t3 d3 16 BlkQueueMetrics) as [L3 _]; [tauto|done|].
    split; [unfold metrics; cbn [forallb map concat existsb is_dlrr]; by rewrite V1, V2, V3, !length_app, L1, L2, L3|].
    intros k. fold a. destruct k; cbn; by rewrite ?T1, ?T2, ?T3.
  - intros b. unfold add_metrics.
    change (c_dest_addr_index (at_ r s q)) with a. rewrite E1. cbn [res_bind each build_block].
    destruct (add_xr_measurement_info _ _ b) as [b1|]; cbn [res_bind]; [|done].
    change (c_dest_addr_index (at_ r1 s q)) with a. rewrite E2. cbn [res_bind].
    destruct (add_xr_delay_metrics _ _ b1) as [b2|]; cbn [res_bind]; [|done].
    change (c_dest_addr_index (at_ r2 s q)) with a. rewrite E3. cbn [res_bind].
    by destruct (add_xr_queue_metrics _ _ b2).
Qed.

Lemma add_dlrr_spec idx r s q :
  good r -> is_sending r = true -> (idx < num_sending_streams (c_dest_addr_index c0) r)%nat ->
  exists x r', (bytes_of_len 12 x = true /\ take 4 x = send_ssrc_at idx) /\ good r'
    /\ forall b, add_dlrr idx (at_ r s q) b = (let* b := add_xr_dlrr_report x b in Ok (at_ r' s q, b)).
Proof using All.
  intros Hr Hi Hx. destruct (ask_ok _ _ _ r s q (generate_dlrr_subblock_ok (c_dest_addr_index c0) idx (send_ssrc_at idx)) Hr)
    as (x & r' & E & HP & Hr').
  { split_and!; [done|by rewrite (same_addresses _ _ (proj2 Hr))|done|apply (same_send_ssrc _ _ (proj2 Hr))]. }
  exists x, r'. split; [done|]. split; [done|]. intros b. unfold add_dlrr.
  change (c_dest_addr_index (at_ r s q)) with (c_dest_addr_index c0). by rewrite E.
Qed.

Lemma no_dlrr r s q : good r -> has_dlrr (at_ r s q) = false -> sends = O.
Proof using All.
  intros [_ Hs] Hd. unfold has_dlrr in Hd. change (c_reporter (at_ r s q)) with r in Hd.
  rewrite (same_sending _ _ Hs) in Hd.
  change (c_send_stream_index (at_ r s q)) with (c_send_stream_index c0) in Hd.
  change (c_send_stream_count (at_ r s q)) with (c_send_stream_count c0) in Hd.
  apply andb_false_iff in Hd as [Hd|Hd]; [rewrite Hd in Hsend; lia|apply Nat.ltb_ge in Hd; lia].
Qed.

(** The DLRR block. *)
Lemma dlrr_spec r q :
  good r -> (q < limit)%nat ->
  exists subs r', length subs = Nat.min sends (limit - q - 1)
    /\ Forall (fun x => bytes_of_len 12 x = true) subs /\ map (take 4) subs = next_sends (length subs) /\ good r'
    /\ forall b, (if has_dlrr (at_ r 0 q) then
                   let* b := begin_xr_dlrr (new_block XR_DLRR 0) b in
                   let* '(c, b) := send_streams add_dlrr (at_ r 0 q) b in
                   let* b := end_xr_dlrr host b in
                   Ok (c, b)
                 else Ok (at_ r 0 q, b))
         = (let* b := each (build_block host) (if has_dlrr (at_ r 0 q) then [BlkDlrr 0 subs] else []) b in
            Ok (at_ r' (length subs) q, b)).
Proof using All.
  intros Hr Hq. destruct (has_dlrr (at_ r 0 q)) eqn:Ed.
  - destruct (send_streams_spec add_dlrr add_xr_dlrr_report
      (fun i x => bytes_of_len 12 x = true /\ take 4 x = send_ssrc_at i) r 0 q)
      as (xs & r' & Hl & HP & Hr' & E); [|done|done|].
    { intros idx r1 n Hr1 Hi1 Hx. by apply add_dlrr_spec. }
    apply sized_ssrcs in HP as [HP HT].
    exists xs, r'. split_and!; try done. intros b. cbn [each build_block].
    destruct (begin_xr_dlrr _ b) as [b1|]; cbn [res_bind]; [|done]. rewrite E.
    destruct (each add_xr_dlrr_report xs b1) as [b2|]; cbn [res_bind]; [|done].
    by destruct (end_xr_dlrr host b2).
  - exists [], r. by rewrite (no_dlrr r 0 q Hr Ed).
Qed.

Lemma each_concat {B} (f : B -> Builder -> res Builder) (ls : list (list B)) b :
  each (fun l => each f l) ls b = each f (concat ls) b.
Proof using.
  revert b. induction ls as [|l ls IH]; intros b; [done|]. cbn [each concat]. rewrite each_app.
  destruct (each f l b); cbn [res_bind]; [apply IH|done].
Qed.

(** The metrics of the next [n] receiving streams. *)
Definition metrics_about (n : nat) (blocks : list xr_block) : Prop :=
  forall k, concat (map (block_ssrcs k) blocks) = match k with Reception | Dlrr => [] | _ => next_recvs n end.

Lemma metrics_about_concat xs :
  Forall2 (fun i x => metrics_of (recv_ssrc_at i) x) (seq (c_recv_stream_index c0) (length xs)) xs ->
  metrics_about (length xs) (concat xs).
Proof using.
  unfold metrics_about, next_recvs. generalize (c_recv_stream_index c0) as idx.
  induction xs as [|x xs IH]; intros idx Hxs k; cbn [length seq concat map] in *; [by destruct k|].
  apply Forall2_cons in Hxs as [Hx Hxs]. rewrite map_app, concat_app, (Hx k), (IH _ Hxs k). by destruct k.
Qed.

(** The blocks of the receiving streams. *)
Lemma metrics_spec r s q :
  good r -> (s + q < limit)%nat ->
  exists blocks r' k, k = Nat.min recvs (limit - s - 1) /\ forallb valid_block blocks = true
    /\ (length (concat (map enc_xr_block blocks)) <= 12 + 76 * k)%nat
    /\ existsb is_dlrr blocks = false /\ metrics_about k blocks /\ good r'
    /\ forall b, (if is_receiving r then
                   let* '(rrtr, c) := ask generate_rrtr_block (at_ r s q) in
                   let* b := add_xr_rrtr host rrtr b in
                   recv_streams (add_metrics host) c b
                 else Ok (at_ r s q, b))
         = (let* b := each (build_block host) blocks b in Ok (at_ r' s (Nat.max q k), b)).
Proof using All.
  intros Hr Hq. destruct (is_receiving r) eqn:Ei.
  - destruct (ask_ok _ _ _ r s q generate_rrtr_block_ok Hr Ei) as (x & r1 & E1 & (t & d & -> & V) & Hr1).
    destruct (recv_streams_spec (add_metrics host) (fun x => each (build_block host) x)
      (fun i x => metrics x /\ metrics_of (recv_ssrc_at i) x) r1 s q)
      as (xs & r' & Hl & HPT & Hr' & E); [|done|done|].
    { intros idx r2 n Hr2 Hi2 Hx. by apply add_metrics_spec. }
    assert (Forall metrics xs) as HP.
    { eapply Forall2_Forall_r; [exact HPT|]. apply Forall_true. by intros i x [? _]. }
    assert (metrics_about (length xs) (BlkRrtr t d :: concat xs)) as HT.
    { intros k. cbn [map concat]. replace (block_ssrcs k (BlkRrtr t d)) with ([] : list bytes) by (by destruct k).
      apply metrics_about_concat. eapply Forall2_impl; [exact HPT|]. by intros i x [_ ?]. }
    destruct (fixed_length t d 12 BlkRrtr) as [L1 _]; [tauto|done|].
    assert (forallb valid_block (concat xs) = true /\ existsb is_dlrr (concat xs) = false
      /\ length (concat (map enc_xr_block (concat xs))) = (76 * length xs)%nat) as (HV & Hd & Hlen).
    { clear -HP. induction HP as [|x xs (H1 & H2 & H3) _ (IH1 & IH2 & IH3)]; [done|].
      cbn [concat length]. rewrite forallb_app, existsb_app, map_app, concat_app, length_app, H1, H2, H3, IH1, IH2, IH3.
      split_and!; done || lia. }
    exists (BlkRrtr t d :: concat xs), r', (length xs). cbn [forallb existsb is_dlrr map concat].
    rewrite V, HV, Hd, length_app, L1, Hlen. split_and!; try done. intros b.
    rewrite E1. cbn [res_bind each build_block].
    destruct (add_xr_rrtr _ _ b) as [b1|]; cbn [res_bind]; [|done]. by rewrite E, (each_concat (build_block host)).
  - exists [], r, O. rewrite (same_receiving _ _ (proj2 Hr)) in Ei. rewrite Ei in Hrecv.
    replace recvs with O by lia. rewrite Nat.max_0_r. split_and!; try done; try (simpl; lia). by intros [].
Qed.

(** What the packets of a payload are about, and packets that are about no stream. *)
Definition reports_about (ks kr : nat) (ps : list rtcp_pkt) : Prop :=
  forall k, about k ps = match k with Dlrr => next_sends ks | _ => next_recvs kr end.

Definition extended_about (ks kr : nat) (ps : list rtcp_pkt) : Prop :=
  forall k, about k ps = match k with Dlrr => next_sends ks | Reception => [] | _ => next_recvs kr end.

Definition about_none (ps : list rtcp_pkt) : Prop := forall k, about k ps = [].

Lemma extended_report_spec r q :
  good r -> (q < limit)%nat ->
  exists ps r' ks kr, ks = Nat.min sends (limit - q - 1) /\ kr = Nat.min recvs (limit - ks - 1)
    /\ forallb valid_pkt ps = true /\ reported_sends ps = ks /\ reported_recvs ps = O
    /\ forallb (fun p => match p with PktXr _ _ => true | _ => false end) ps = true
    /\ (length (unpadded ps) <= 24 + 12 * ks + 76 * kr)%nat /\ extended_about ks kr ps /\ good r'
    /\ forall b, generate_extended_report host (at_ r 0 q) b =
         (let* b := each (build_pkt host) ps b in Ok (at_ r' ks (Nat.max q kr), b)).
Proof using All.
  intros Hr Hq. unfold generate_extended_report.
  change (c_reporter (at_ r 0 q)) with r.
  destruct (has_dlrr (at_ r 0 q) || is_receiving r) eqn:Eg.
  - assert (is_sending r = true \/ is_receiving r = true) as Hx.
    { unfold has_dlrr in Eg. change (c_reporter (at_ r 0 q)) with r in Eg.
      destruct (is_sending r), (is_receiving r); tauto. }
    destruct (ask_ok _ _ _ r 0 q generate_xr_ok Hr Hx) as (x & r1 & -> & (body & -> & Hb) & Hr1). cbn [res_bind].
    destruct (dlrr_spec r1 q Hr1 Hq) as (subs & r2 & Hls & HPs & HTs & Hr2 & E2).
    destruct (metrics_spec r2 (length subs) q Hr2) as (blocks & r3 & k & Hk & HV & Hlen & Hd & HTm & Hr3 & E3); [lia|].
    set (dl := if has_dlrr (at_ r1 0 q) then [BlkDlrr 0 subs] else []) in *.
    assert (has_dlrr (at_ r1 0 q) = false -> length subs = O) as Hnd.
    { intros Hd1. rewrite Hls, (no_dlrr r1 0 q Hr1 Hd1). done. }
    assert (forallb valid_block dl = true /\ (length (concat (map enc_xr_block dl)) <= 4 + 12 * length subs)%nat
      /\ list_sum (map block_sends dl) = length subs) as (HVd & Hld & Hsd).
    { subst dl. destruct (has_dlrr (at_ r1 0 q)); [|rewrite Hnd by done; split_and!; done || (simpl; lia)].
      cbn [forallb map concat valid_block enc_xr_block]. rewrite (forallb_Forall _ subs HPs), !length_app, enc_len_length,
        (concat_length_eq 12 subs) by done. simpl. split_and!; done || lia. }
    destruct (valid_xr body (dl ++ blocks) (16 + 12 * length subs + 76 * k)) as [HVp Hlp];
      [done|by rewrite forallb_app, HVd, HV| |lia|].
    { rewrite map_app, concat_app, length_app. lia. }
    exists [PktXr body (dl ++ blocks)], r3, (length subs), k. unfold reported_sends, reported_recvs, unpadded.
    cbn [forallb map concat list_sum foldr pkt_sends pkt_recvs is_report]. rewrite HVp, app_nil_r, map_app, list_sum_app, Hsd,
      (no_dlrr_sends blocks) by done.
    split_and!; try done; try lia.
    { intros kd. unfold about. cbn [map concat]. rewrite app_nil_r.
      assert (pkt_ssrcs kd (PktXr body (dl ++ blocks)) = concat (map (block_ssrcs kd) (dl ++ blocks))) as ->
        by (destruct kd; [|done..]; cbn [pkt_ssrcs];
            rewrite map_app, concat_app, (HTm Reception), app_nil_r; by subst dl; case_match).
      rewrite map_app, concat_app, (HTm kd).
      assert (concat (map (block_ssrcs kd) dl) = match kd with Dlrr => next_sends (length subs) | _ => [] end) as ->.
      { subst dl. destruct (has_dlrr (at_ r1 0 q)); [by destruct kd; cbn; rewrite ?app_nil_r|].
        rewrite Hnd by done. by destruct kd. }
      destruct kd; by rewrite ?app_nil_r. }
    intros b. cbn [each build_pkt].
    destruct (begin_xr _ b) as [b1|]; cbn [res_bind]; [|done]. rewrite E2, each_app.
    destruct (each (build_block host) dl b1) as [b2|]; cbn [res_bind]; [|done].
    change (is_receiving (c_reporter (at_ r2 (length subs) q))) with (is_receiving r2). rewrite E3.
    destruct (each (build_block host) blocks b2) as [b3|]; cbn [res_bind]; [|done].
    by destruct (end_xr host b3).
  - apply orb_false_iff in Eg as [Ed Ei]. exists [], r, O, O. rewrite (no_dlrr r 0 q Hr Ed). destruct Hr as [Hg Hs].
    rewrite (same_receiving _ _ Hs) in Ei. rewrite Ei in Hrecv. replace recvs with O by lia.
    rewrite Nat.max_0_r. split_and!; try done; [simpl; lia|]. by intros [].
Qed.

Lemma description_spec r s q :
  good r ->
  exists p r', valid_pkt p = true /\ has_chunks p = true /\ (length (enc_pkt p 0) <= 272)%nat
    /\ pkt_sends p = O /\ pkt_recvs p = O /\ (exists chunks, p = PktSdes chunks) /\ good r'
    /\ forall b, generate_description host (at_ r s q) b =
         (let* b := build_pkt host p b in Ok (at_ r' s q, b)).
Proof using.
  intros Hr. destruct (ask_ok _ _ _ r s q generate_cname_ok Hr I) as (x & r' & E & [Ht HV] & Hr').
  destruct x as [ssrc item]. cbn [fst snd] in *.
  destruct (valid_sdes (ssrc, [item]) HV) as [HVp Hlen]; [by exists item|].
  exists (PktSdes [(ssrc, [item])]), r'. split_and!; try done; [by eexists|]. intros b.
  unfold generate_description. cbn [build_pkt each]. destruct (begin_sdes host b) as [b1|]; cbn [res_bind]; [|done].
  rewrite E. cbn [res_bind]. unfold build_chunk. cbn [fst snd each].
  destruct (begin_sdes_chunk host ssrc b1) as [b2|]; cbn [res_bind]; [|done].
  destruct (add_sdes_item item.1 item.2 b2) as [b3|]; cbn [res_bind]; [|done].
  destruct (end_sdes_chunk b3) as [b4|]; cbn [res_bind]; [|done].
  by destruct (end_sdes host b4).
Qed.

Lemma goodbye_spec r s q :
  good r ->
  exists ssrc r', is_u 32 ssrc /\ good r'
    /\ forall b, generate_goodbye_ host (at_ r s q) b =
         (let* b := build_pkt host (PktBye [ssrc] None) b in Ok (at_ r' s q, b)).
Proof using.
  intros Hr. destruct (ask_ok _ _ _ r s q generate_goodbye_ssrc_ok Hr I) as (ssrc & r' & E & Hs & Hr').
  exists ssrc, r'. split_and!; try done. intros b. unfold generate_goodbye_. cbn [build_pkt each].
  destruct (begin_bye host b) as [b1|]; cbn [res_bind]; [|done]. rewrite E. cbn [res_bind].
  destruct (add_bye_ssrc host ssrc b1) as [b2|]; cbn [res_bind]; [|done]. by destruct (end_bye host b2).
Qed.

Lemma valid_bye ssrc :
  is_u 32 ssrc -> valid_pkt (PktBye [ssrc] None) = true /\ length (enc_pkt (PktBye [ssrc] None) 0) = 8%nat.
Proof using.
  intros Hs. rewrite length_enc_pkt. unfold valid_pkt, pkt_size.
  cbn [pkt_body pkt_count map concat enc_reason length forallb app].
  rewrite !app_nil_r, length_be_bytes. unfold is_u32. by rewrite bool_decide_true.
Qed.

Lemma unpadded_app ps qs : unpadded (ps ++ qs) = unpadded ps ++ unpadded qs.
Proof using. unfold unpadded. by rewrite map_app, concat_app. Qed.

Lemma reported_app ps qs :
  reported_sends (ps ++ qs) = (reported_sends ps + reported_sends qs)%nat
  /\ reported_recvs (ps ++ qs) = (reported_recvs ps + reported_recvs qs)%nat.
Proof using. unfold reported_sends, reported_recvs. by rewrite !map_app, !list_sum_app. Qed.

Lemma about_app k ps qs : about k (ps ++ qs) = about k ps ++ about k qs.
Proof using. unfold about. by rewrite map_app, concat_app. Qed.

(** The packets after the reports: the description and, after a change of the source
    identifier, the goodbye. *)
Lemma tail_spec r s q :
  good r ->
  exists ps r', forallb valid_pkt ps = true /\ forallb (allowed (c_config c0)) ps = true
    /\ (enable_sdes (c_config c0) = true -> existsb has_chunks ps = true)
    /\ (length (unpadded ps) <= 280)%nat /\ reported_sends ps = O /\ reported_recvs ps = O
    /\ about_none ps /\ good r'
    /\ forall b, (let* '(c, b) := if enable_sdes (c_config (at_ r s q)) then generate_description host (at_ r s q) b
                                 else Ok (at_ r s q, b) in
                 if need_goodbye (c_reporter c) then generate_goodbye_ host c b else Ok (c, b))
         = (let* b := each (build_pkt host) ps b in Ok (at_ r' s q, b)).
Proof using All.
  intros Hr. change (c_config (at_ r s q)) with (c_config c0).
  assert (exists ds r1, forallb valid_pkt ds = true /\ forallb (allowed (c_config c0)) ds = true
    /\ (enable_sdes (c_config c0) = true -> existsb has_chunks ds = true)
    /\ (length (unpadded ds) <= 272)%nat /\ reported_sends ds = O /\ reported_recvs ds = O
    /\ about_none ds /\ good r1
    /\ forall b, (if enable_sdes (c_config c0) then generate_description host (at_ r s q) b else Ok (at_ r s q, b))
         = (let* b := each (build_pkt host) ds b in Ok (at_ r1 s q, b)))
    as (ds & r1 & V1 & A1 & C1 & L1 & S1 & R1 & N1 & Hr1 & E1).
  { destruct (enable_sdes (c_config c0)) eqn:Esd; [|exists [], r; split_and!; done || (simpl; lia)].
    destruct (description_spec r s q Hr) as (p & r1 & V & C & L & S & Q & (chunks & Hp) & Hr1 & E).
    exists [p], r1. unfold unpadded, reported_sends, reported_recvs. cbn [forallb map concat existsb list_sum foldr each].
    rewrite V, C, S, Q, app_nil_r. split_and!; try done.
    - subst p. cbn [allowed]. by rewrite Esd.
    - subst p. by intros [].
    - intros b. rewrite E. by destruct (build_pkt host p b). }
  destruct (need_goodbye r1) eqn:Eg.
  - destruct (goodbye_spec r1 s q Hr1) as (ssrc & r2 & Hu & Hr2 & E2).
    destruct (valid_bye ssrc Hu) as [V2 L2]. exists (ds ++ [PktBye [ssrc] None]), r2.
    rewrite !forallb_app, existsb_app, unpadded_app, length_app, V1, A1. cbn [forallb existsb allowed]. rewrite V2.
    destruct (reported_app ds [PktBye [ssrc] None]) as [-> ->]. rewrite S1, R1.
    split_and!; try done.
    + intros Hs. by rewrite C1.
    + unfold unpadded at 2. cbn [map concat]. rewrite app_nil_r, L2. lia.
    + intros k. rewrite about_app, (N1 k). by destruct k.
    + intros b. rewrite E1, each_app. destruct (each (build_pkt host) ds b) as [b1|]; cbn [res_bind]; [|done].
      change (c_reporter (at_ r1 s q)) with r1. rewrite Eg, E2. cbn [each]. by destruct (build_pkt host _ b1).
  - exists ds, r1. split_and!; try done; [lia|]. intros b. rewrite E1.
    destruct (each (build_pkt host) ds b) as [b1|]; cbn [res_bind]; [|done].
    change (c_reporter (at_ r1 s q)) with r1. by rewrite Eg.
Qed.

Hypothesis Hconfig : enable_sr_rr (c_config c0) = true /\ enable_xr (c_config c0) = true.

(** The whole payload: the report, the extended report and the rest. *)
Lemma reports_payload_spec r :
  good r ->
  exists ps r', valid_compound (c_config c0) ps 0 = true
    /\ reported_recvs ps = Nat.min recvs (limit - 1)
    /\ reported_sends ps = Nat.min sends (limit - reported_recvs ps - 1)
    /\ (length (enc_compound ps 0) <= 332 + 100 * reported_recvs ps + 12 * reported_sends ps)%nat
    /\ reports_about (reported_sends ps) (reported_recvs ps) ps /\ good r'
    /\ forall b, generate_reports_payload host (at_ r 0 0) b =
         (let* b := each (build_pkt host) ps b in Ok (at_ r' (reported_sends ps) (reported_recvs ps), b)).
Proof using All.
  intros Hr. destruct Hconfig as [Hsr Hxr].
  destruct (standard_report_spec r Hr) as (p & r1 & V1 & P1 & K1 & L1 & T1 & Hr1 & E1).
  destruct (extended_report_spec r1 (pkt_count p) Hr1) as (xs & r2 & ks & kr & Hks & Hkr & V2 & S2 & R2 & X2 & L2 & T2 & Hr2 & E2);
    [lia|].
  destruct (tail_spec r2 ks (Nat.max (pkt_count p) kr) Hr2) as (ts & r3 & V3 & A3 & C3 & L3 & S3 & R3 & T3 & Hr3 & E3).
  assert (kr = pkt_count p) as Hkp by lia. rewrite Hkp in L2, T2. rewrite Hkp, Nat.max_id in E2, E3.
  exists (p :: xs ++ ts), r3. change (p :: xs ++ ts) with ([p] ++ xs ++ ts).
  destruct (reported_app [p] (xs ++ ts)) as [-> ->]. destruct (reported_app xs ts) as [-> ->].
  rewrite S2, R2, S3, R3, enc_compound_unpadded, !unpadded_app, !length_app.
  assert (reported_sends [p] = O /\ reported_recvs [p] = pkt_count p /\ unpadded [p] = enc_pkt p 0) as (-> & -> & ->).
  { unfold reported_sends, reported_recvs, unpadded, pkt_recvs. cbn [map concat list_sum foldr]. rewrite P1, app_nil_r.
    destruct p; try done; simpl; split_and!; done || lia. }
  rewrite !Nat.add_0_r, Nat.add_0_l. split_and!; try done; try lia.
  - apply valid_compound_intro; [|..|done|].
    + cbn [forallb]. by rewrite V1, forallb_app, V2, V3.
    + cbn [forallb]. rewrite forallb_app, A3, andb_true_r. apply andb_true_iff. split; [by destruct p|].
      clear -X2 Hxr. induction xs as [|x xs IH]; [done|]. cbn [forallb] in *. apply andb_true_iff in X2 as [H1 H2].
      rewrite IH by done. destruct x; try done. simpl. by rewrite Hxr.
    + intros Hs. cbn [existsb]. rewrite existsb_app, C3 by done. by rewrite !orb_true_r.
  - intros k. rewrite !about_app, (T2 k), (T3 k), app_nil_r. unfold about. cbn [map concat]. rewrite app_nil_r.
    destruct k; [by rewrite app_nil_r|..]; by destruct p.
  - intros b. unfold generate_reports_payload. change (c_config (at_ r 0 0)) with (c_config c0). rewrite Hsr, E1.
    cbn [app each]. destruct (build_pkt host p b) as [b1|]; cbn [res_bind]; [|done].
    change (c_config (at_ r1 0 (pkt_count p))) with (c_config c0). rewrite Hxr, E2, each_app.
    destruct (each (build_pkt host) xs b1) as [b2|]; cbn [res_bind]; [|done]. apply E3.
Qed.

End Payload.
