(* ===== verification/RtcpGenerateLive.v ===== *)
(** Generation of RTCP reports terminates and covers every stream: the search for a
    packet size ends with a packet that fits, every packet reports at least one of the
    streams that are left, and the loop over the destination addresses ends when all of
    them are reported. *)

From S2P Require Import Prelude Bytes Slice Packet Io FecWriter.
From S2P Require Import RtcpHeaders RtcpTraverser RtcpTraverserSafe RtcpBuilder RtcpWire.
From S2P Require Import RtcpBuilderEncodes RtcpBuilderCorrect RtcpCommunicator RtcpRecorder.
From S2P Require Import RtcpGenerate RtcpGenerateSafe.

(** A payload of two streams fits into this many bytes. *)
Definition min_payload : nat := 532.

(** A factory that does not run out: packets, and buffers that hold a payload. *)
Class SteadyFactory (F : Type) `{IPacketFactory F} : Type := {
  buffer_size : nat;
  buffer_size_min : (min_payload <= buffer_size)%nat;
  steady_packet f : exists f', new_packet f = (true, f');
  steady_buffer f : exists mem f', new_packet_buffer f = (Some mem, f')
    /\ length mem = buffer_size /\ Forall is_byte mem;
}.

(** The packet carries the encoding of a compound packet to the address of an index. *)
Definition carries {R} `{ReportedStreams R} (config : BuilderConfig) (r : R) (p : Packet)
    (d : nat * list rtcp_pkt) : Prop :=
  valid_compound config d.2 0 = true /\ has_flags p FlagUDP = true /\ dst_addr (udp_ p) = dest_of d.1 r /\
  exists payload, packet_rtcp p = Some payload
    /\ slice_of (pkt_mem p) (sl_off payload) (sl_size payload) = enc_compound d.2 0.

(** What packets are about, with the index of the address that each goes to. *)
Definition sent_about (k : stream_block) (ds : list (nat * list rtcp_pkt)) : list (nat * bytes) :=
  concat (map (fun d => map (pair d.1) (about k d.2)) ds).

Section Live.

Context (host : cpu_endian) {R : Type} `{GenerationReporter R}.

(** * One payload *)

Definition sends_left (c : Communicator R) : nat := c_send_stream_count c - c_send_stream_index c.

Definition recvs_left (c : Communicator R) : nat := c_recv_stream_count c - c_recv_stream_index c.

(** The streams of an address. *)
Definition addr_sends (r : R) (a : nat) : nat := if is_sending r then num_sending_streams a r else O.

Definition addr_recvs (r : R) (a : nat) : nat := if is_receiving r then num_receiving_streams a r else O.

(** The communicator while it generates the packets of an address. *)
Record ready (c : Communicator R) : Prop := {
  ready_generating : generating (c_reporter c);
  ready_addr : (c_dest_addr_index c < num_dest_addresses (c_reporter c))%nat;
  ready_send : c_send_stream_count c = addr_sends (c_reporter c) (c_dest_addr_index c);
  ready_recv : c_recv_stream_count c = addr_recvs (c_reporter c) (c_dest_addr_index c);
  ready_max : (2 <= c_max_pkt_streams c <= 31)%nat;
  ready_config : enable_sr_rr (c_config c) = true /\ enable_xr (c_config c) = true;
}.

(** The effect of the packets that report on [s] sending and [q] receiving streams. *)
Record advanced (s q : nat) (c c' : Communicator R) : Prop := {
  adv_config : c_config c' = c_config c;
  adv_addr : c_dest_addr_index c' = c_dest_addr_index c /\ c_dest_addr_count c' = c_dest_addr_count c;
  adv_send : c_send_stream_count c' = c_send_stream_count c /\ sends_left c = (s + sends_left c')%nat;
  adv_recv : c_recv_stream_count c' = c_recv_stream_count c /\ recvs_left c = (q + recvs_left c')%nat;
  adv_streams : same_streams (c_reporter c) (c_reporter c');
  adv_index : c_send_stream_index c' = (c_send_stream_index c + s)%nat
    /\ c_recv_stream_index c' = (c_recv_stream_index c + q)%nat;
}.

(** The streams of an address by their SSRCs, and those of many addresses. *)
Definition addr_ssrcs (r : R) (k : stream_block) (a : nat) : list (nat * bytes) :=
  map (pair a)
    (match k with
     | Dlrr => map (fun i => send_ssrc a i r) (seq 0 (addr_sends r a))
     | _ => map (fun i => recv_ssrc a i r) (seq 0 (addr_recvs r a))
     end).

Definition all_ssrcs (r : R) (k : stream_block) (l : list nat) : list (nat * bytes) :=
  concat (map (addr_ssrcs r k) l).

(** Those that are left of the current address. *)
Definition left_ssrcs (c : Communicator R) (k : stream_block) : list (nat * bytes) :=
  map (pair (c_dest_addr_index c))
    (match k with Dlrr => next_sends c (sends_left c) | _ => next_recvs c (recvs_left c) end).

Lemma addr_streams_same r r' a :
  same_streams r r' -> addr_sends r' a = addr_sends r a /\ addr_recvs r' a = addr_recvs r a.
Proof.
  intros Hs. unfold addr_sends, addr_recvs.
  by rewrite (same_sending _ _ Hs), (same_receiving _ _ Hs), (same_send_streams _ _ Hs), (same_recv_streams _ _ Hs).
Qed.

Lemma next_same c c' n :
  c_dest_addr_index c' = c_dest_addr_index c -> c_send_stream_index c' = c_send_stream_index c ->
  c_recv_stream_index c' = c_recv_stream_index c -> same_streams (c_reporter c) (c_reporter c') ->
  next_sends c' n = next_sends c n /\ next_recvs c' n = next_recvs c n.
Proof.
  intros Ea Es Er Hs. unfold next_sends, next_recvs. rewrite Ea, Es, Er.
  split; apply map_ext; intros i; apply Hs.
Qed.

Lemma reports_about_same c c' ks kr ps :
  c_dest_addr_index c' = c_dest_addr_index c -> c_send_stream_index c' = c_send_stream_index c ->
  c_recv_stream_index c' = c_recv_stream_index c -> same_streams (c_reporter c) (c_reporter c') ->
  reports_about c' ks kr ps -> reports_about c ks kr ps.
Proof.
  intros Ea Es Er Hs Hr k. rewrite (Hr k).
  destruct (next_same c c' ks) as [E1 _]; try done. destruct (next_same c c' kr) as [_ E2]; try done.
  by rewrite E1, E2.
Qed.

(** A packet takes the first of those that are left. *)
Lemma left_split s q c c' ps k :
  advanced s q c c' -> reports_about c s q ps ->
  left_ssrcs c k = map (pair (c_dest_addr_index c)) (about k ps) ++ left_ssrcs c' k.
Proof.
  intros [_ [Ea _] [_ Es] [_ Er] Hs [Is Ir]] Hps. unfold left_ssrcs. rewrite (Hps k), Ea, <- map_app. f_equal.
  unfold next_sends, next_recvs. rewrite Es, Er, Is, Ir, Ea, !seq_app, !map_app.
  destruct k; f_equal; apply map_ext; intros i; symmetry; apply Hs.
Qed.

Lemma addr_ssrcs_same r r' k a : same_streams r r' -> addr_ssrcs r' k a = addr_ssrcs r k a.
Proof.
  intros Hs. unfold addr_ssrcs. destruct (addr_streams_same r r' a Hs) as [-> ->].
  destruct k; f_equal; apply map_ext; intros i; apply Hs.
Qed.

Lemma all_ssrcs_same r r' k l : same_streams r r' -> all_ssrcs r' k l = all_ssrcs r k l.
Proof. intros Hs. unfold all_ssrcs. f_equal. apply map_ext. intros a. by apply addr_ssrcs_same. Qed.

Lemma carries_same config r r' p d : same_streams r r' -> carries config r' p d -> carries config r p d.
Proof. intros Hs (HV & Hu & Hd & Hp). split_and!; try done. by rewrite Hd, (same_dest _ _ Hs). Qed.

(** The payload buffer. *)
Definition buffer_ok (mem : bytes) (payload : Slice) : Prop :=
  slice_in mem payload /\ Forall is_byte mem /\ (min_payload <= slice_capacity payload)%nat.

(** One round of the loop: the builder gets a compound packet [ps] that reports on as
    many streams as the limit allows. *)
Lemma payload_round c mem payload :
  ready c -> buffer_ok mem payload ->
  exists ps r b, good c r /\ valid_compound (c_config c) ps 0 = true
    /\ reported_recvs ps = Nat.min (recvs_left c) (c_max_pkt_streams c - 1)
    /\ reported_sends ps = Nat.min (sends_left c) (c_max_pkt_streams c - reported_recvs ps - 1)
    /\ (length (enc_compound ps 0) <= 332 + 100 * reported_recvs ps + 12 * reported_sends ps)%nat
    /\ reports_about c (reported_sends ps) (reported_recvs ps) ps
    /\ (forall fuel, generate_packet_payload host (S fuel) PacketType_Reports c mem payload =
         let c1 := at_ c r (reported_sends ps) (reported_recvs ps) in
         let cur := (reported_sends ps + reported_recvs ps)%nat in
         if negb (is_ok b) then
           if (cur <=? 1)%nat then ret (StatusNoSpace, c_set_max 1 c1, b_mem b, b_result b)
           else generate_packet_payload host fuel PacketType_Reports (c_set_max (cur - 1) c1) (b_mem b) (b_result b)
         else
           ret (StatusOK, c_set_streams (c_send_stream_count c) (c_send_stream_index c + reported_sends ps)
                  (c_recv_stream_count c) (c_recv_stream_index c + reported_recvs ps) c1, b_mem b, b_result b))
    /\ if (length (enc_compound ps 0) <=? slice_capacity payload)%nat
       then is_ok b = true /\ buffer_ok (b_mem b) (b_result b)
            /\ sl_size (b_result b) = length (enc_compound ps 0)
            /\ slice_of (b_mem b) (sl_off (b_result b)) (sl_size (b_result b)) = enc_compound ps 0
            /\ length (b_mem b) = length mem
       else is_ok b = false /\ buffer_ok (b_mem b) (b_result b)
            /\ slice_capacity (b_result b) = slice_capacity payload
            /\ length (b_mem b) = length mem.
Proof.
  intros Hc (Hin & Hb & Hcap).
  destruct (reports_payload_spec host c (ready_addr _ Hc) (ready_send _ Hc) (ready_recv _ Hc)) with (r := c_reporter c)
    as (ps & r & HV & Hkr & Hks & Hlen & HT & Hr & E).
  { pose proof (ready_max _ Hc). lia. }
  { apply Hc. }
  { split; [apply Hc|done]. }
  destruct (build_correct host (c_config c) mem payload ps 0) as (b & Hbuild & Hres); try done.
  exists ps, r, b. split_and!; try done.
  - intros fuel. cbn [generate_packet_payload]. change (c_config (c_set_cur 0 0 c)) with (c_config c).
    change (c_set_cur 0 0 c) with (at_ c (c_reporter c) 0 0). cbn [generate_payload].
    unfold build in Hbuild. destruct (builder_new (c_config c) mem payload) as [b0|]; [|done].
    cbn [lift res_bind run_bind ret]. rewrite E. cbn [res_bind] in Hbuild.
    destruct (each (build_pkt host) ps b0) as [b1|]; [|done]. cbn [res_bind Nat.eqb] in Hbuild.
    cbn [lift res_bind run_bind ret]. destruct (builder_delete b1) as [u|]; [|done]. cbn [res_bind] in Hbuild.
    injection Hbuild as ->. done.
  - pose proof (slice_in_data _ _ Hin) as Hd. pose proof Hin as (_ & _ & Hbs).
    assert (slice_capacity payload = length mem - sl_off payload)%nat as Hcp
      by (unfold slice_capacity; by rewrite Hd, Hbs).
    cbv zeta in Hres. destruct (length (enc_compound ps 0) <=? slice_capacity payload)%nat eqn:El.
    + apply Nat.leb_le in El. destruct Hres as (Hok & Hr1 & Hm1 & Hb1 & Hw).
      pose proof (slice_in_fits _ _ Hin). unfold buffer_ok, slice_in, slice_wf, slice_bool, slice_capacity, sl_off in *.
      rewrite Hr1, Hd in *. simpl in *. rewrite Hm1. split_and!; try done; lia.
    + destruct Hres as (Hok & Hm1 & Hb1 & n & Hr1 & Hn).
      unfold buffer_ok, slice_in, slice_wf, slice_bool, slice_capacity, sl_off in *.
      rewrite Hr1, Hd in *. simpl in *. rewrite Hm1. split_and!; try done; lia.
Qed.

(** The search ends with a packet that fits and that reports on some stream, if one is
    left. *)
Lemma payload_ok fuel c mem payload :
  ready c -> buffer_ok mem payload -> (c_max_pkt_streams c <= fuel)%nat ->
  exists c' mem' payload' ps,
    generate_packet_payload host fuel PacketType_Reports c mem payload = ret (StatusOK, c', mem', payload')
    /\ ready c' /\ advanced (reported_sends ps) (reported_recvs ps) c c'
    /\ valid_compound (c_config c) ps 0 = true
    /\ buffer_ok mem' payload' /\ length mem' = length mem
    /\ sl_size payload' = length (enc_compound ps 0)
    /\ slice_of mem' (sl_off payload') (sl_size payload') = enc_compound ps 0
    /\ reports_about c (reported_sends ps) (reported_recvs ps) ps
    /\ (0 < sends_left c + recvs_left c -> 0 < reported_sends ps + reported_recvs ps)%nat.
Proof.
  revert c mem payload. induction fuel as [|fuel IH]; intros c mem payload Hc Hbuf Hf;
    pose proof (ready_max _ Hc) as Hm; [lia|].
  destruct (payload_round c mem payload Hc Hbuf)
    as (ps & r & b & [Hg Hss] & HV & Hkr & Hks & Hlen & HT & E & Hres). rewrite E. cbv zeta.
  set (c1 := at_ c r (reported_sends ps) (reported_recvs ps)) in *.
  destruct (length (enc_compound ps 0) <=? slice_capacity payload)%nat eqn:El.
  - destruct Hres as (-> & Hbuf' & Hsz & Hw & Hl). cbn [negb].
    set (c' := c_set_streams _ _ _ _ c1). exists c', (b_mem b), (b_result b), ps. split; [done|].
    destruct (addr_streams_same _ _ (c_dest_addr_index c) Hss) as [Ha1 Ha2].
    split_and!; try done; [|split; try done|].
    + split; cbn [c' c1 at_ c_set_streams c_set_cur c_set_reporter c_reporter c_dest_addr_index c_send_stream_count
        c_recv_stream_count c_max_pkt_streams c_config]; try apply Hc; try done.
      * rewrite (same_addresses _ _ Hss). apply Hc.
      * rewrite Ha1. apply Hc.
      * rewrite Ha2. apply Hc.
    + split; [done|]. unfold sends_left, c', c1, at_. simpl. unfold sends_left in Hks. lia.
    + split; [done|]. unfold recvs_left, c', c1, at_. simpl. unfold recvs_left in Hkr. lia.
    + lia.
  - destruct Hres as (-> & Hbuf' & Hcap & Hl). cbn [negb]. apply Nat.leb_gt in El.
    destruct Hbuf as (_ & _ & Hmin). unfold min_payload in Hmin.
    rewrite (proj2 (Nat.leb_gt _ _)) by lia.
    set (c2 := c_set_max _ c1).
    destruct (addr_streams_same _ _ (c_dest_addr_index c) Hss) as [Ha1 Ha2].
    assert (ready c2) as Hc2.
    { split; cbn [c2 c1 at_ c_set_max c_set_cur c_set_reporter c_reporter c_dest_addr_index c_send_stream_count
        c_recv_stream_count c_max_pkt_streams c_config]; try apply Hc; try done.
      - rewrite (same_addresses _ _ Hss). apply Hc.
      - rewrite Ha1. apply Hc.
      - rewrite Ha2. apply Hc.
      - lia. }
    destruct (IH c2 (b_mem b) (b_result b) Hc2 Hbuf') as (c' & mem' & payload' & ps' & -> & Hc' & Hadv & HV' & Hb' & Hl' & Hz' & Hw' & HT' & Hp');
      [cbn [c2 c_set_max c_max_pkt_streams]; lia|].
    exists c', mem', payload', ps'. split_and!; try done; [|by rewrite Hl'|by apply (reports_about_same c c2)].
    destruct Hadv as [A1 A2 A3 A4 A5 A6]. split; try done. by transitivity (c_reporter c2).
Qed.

(** * One packet *)

Context {F W : Type} `{SteadyFactory F} `{FifoWriter W}.

#[local] Notation gstate := (@GenState R F W).
#[local] Notation generate := (generate_packet host rtcp_composer_prepare).

(** Filling the packet: the payload is copied to its start. *)
Lemma fill_ok mem payload packet_mem ps c :
  ready c -> buffer_ok mem payload -> length packet_mem = length mem ->
  valid_compound (c_config c) ps 0 = true ->
  slice_of mem (sl_off payload) (sl_size payload) = enc_compound ps 0 ->
  sl_size payload = length (enc_compound ps 0) -> (0 < sl_size payload)%nat ->
  exists p r, fill_packet rtcp_composer_prepare (with_mem Packet_new packet_mem)
      (slice_whole (length packet_mem)) payload mem c = Ok (StatusOK, p, c_set_reporter r c)
    /\ good c r /\ carries (c_config c) (c_reporter c) p (c_dest_addr_index c, ps).
Proof.
  intros Hc (Hin & Hb & _) Hl HV Hw Hsz Hpos. pose proof (slice_in_fits _ _ Hin) as Hfit.
  destruct (generate_dest_address_ok (c_dest_addr_index c) (dest_of (c_dest_addr_index c) (c_reporter c)) (c_reporter c)) as (addr & r & Ea & Hd & Hg & Hs);
    [apply Hc|split; [apply Hc|reflexivity]|].
  unfold fill_packet, slice_whole. rewrite slice_reslice_ok by lia. cbn [res_bind].
  unfold rtcp_composer_prepare. rewrite slice_reslice_ok by lia. cbn [res_bind].
  rewrite add_flags_ok by done. cbn [res_bind]. rewrite add_flags_ok by done.
  cbn [res_bind negb flags_ with_flags with_mem Packet_new udp_ rtp_ fec_ buffer_ pkt_mem].
  rewrite add_flags_ok by done. cbn [res_bind]. unfold set_buffer. cbn [buffer_ with_flags slice_bool slice_empty sl_data panic_if].
  unfold panic_if at 1. cbn [slice_empty res_bind]. unfold packet_rtcp.
  assert (forall q : Packet, flags_ q = Z.lor (Z.lor (Z.lor 0 FlagControl) FlagRTCP) FlagPrepared ->
    has_flags q FlagRTCP = true) as Hrtcp by (intros q Hq; unfold has_flags; by rewrite Hq).
  rewrite Hrtcp by done. cbn [rtcp_payload with_buffer with_flags slice_bool sl_data sl_size].
  rewrite Nat.sub_0_r, Nat.eqb_refl. cbn [slice_bool sl_data negb orb panic_if].
  unfold panic_if. cbn [slice_data sl_data res_bind]. unfold slice_data. cbn [sl_data res_bind].
  rewrite (slice_in_data _ _ Hin). cbn [res_bind]. rewrite add_flags_ok by done. cbn [res_bind].
  unfold ask. rewrite Ea. cbn [res_bind]. eexists _, r. split; [done|]. split; [done|].
  split; [done|]. split; [done|]. split; [exact Hd|]. eexists. split; [done|].
  cbn [pkt_mem with_udp with_flags with_mem sl_off sl_data default sl_size with_buffer].
  rewrite Hw. unfold sl_off. simpl. rewrite Hsz. apply slice_overwrite_same. lia.
Qed.

Lemma compound_nonempty config ps : valid_compound config ps 0 = true -> (0 < length (enc_compound ps 0))%nat.
Proof.
  intros HV. rewrite enc_compound_unpadded. destruct ps as [|p ps].
  - unfold valid_compound in HV. by rewrite andb_false_r in HV.
  - unfold unpadded. cbn [map concat]. rewrite length_app, length_enc_pkt. unfold pkt_size. lia.
Qed.

Lemma packet_ok fuel c (f : F) (w : W) :
  ready c -> (31 <= fuel)%nat ->
  exists p c' f' ps,
    generate fuel PacketType_Reports (mkGenState c f w) = ret (StatusOK, Some p, mkGenState c' f' w)
    /\ ready c' /\ advanced (reported_sends ps) (reported_recvs ps) c c'
    /\ carries (c_config c) (c_reporter c) p (c_dest_addr_index c, ps)
    /\ reports_about c (reported_sends ps) (reported_recvs ps) ps
    /\ (0 < sends_left c + recvs_left c -> 0 < reported_sends ps + reported_recvs ps)%nat.
Proof.
  intros Hc Hf. unfold generate_packet. cbn [g_factory g_comm g_writer].
  destruct (steady_packet f) as (f1 & ->). cbn [negb].
  destruct (steady_buffer f1) as (mem & f2 & -> & Hl & Hb).
  unfold slice_whole at 1. rewrite slice_reslice_ok by lia. cbn [lift res_bind run_bind ret].
  pose proof (buffer_size_min (F := F)) as Hmin.
  destruct (payload_ok fuel c mem (mkSlice (Some (0 + 0)%nat) (0 - 0) (length mem)))
    as (c1 & mem1 & payload & ps & -> & Hc1 & Hadv & HV & Hbuf & Hl1 & Hsz & Hw & HT & Hprog); [done| | |].
  { unfold buffer_ok, slice_in, slice_wf, slice_bool, slice_capacity. simpl. split_and!; try done; lia. }
  { pose proof (ready_max _ Hc). lia. }
  cbn [run_bind ret res_bind]. destruct (steady_buffer f2) as (pm & f3 & -> & Hlp & Hbp).
  assert (valid_compound (c_config c1) ps 0 = true) as HV1 by (by rewrite (adv_config _ _ _ _ Hadv)).
  destruct (fill_ok mem1 payload pm ps c1) as (p & r & -> & [Hg Hs] & Hcar); try done; [lia|..].
  { rewrite Hsz. by apply (compound_nonempty (c_config c)). }
  cbn [lift res_bind run_bind ret]. rewrite (adv_config _ _ _ _ Hadv), (proj1 (adv_addr _ _ _ _ Hadv)) in Hcar.
  apply (carries_same _ _ _ _ _ (adv_streams _ _ _ _ Hadv)) in Hcar.
  eexists p, (c_set_reporter r c1), f3, ps. split; [done|].
  destruct (addr_streams_same _ _ (c_dest_addr_index c1) Hs) as [Ha1 Ha2].
  split_and!; try done.
  - split; cbn [c_set_reporter c_reporter c_dest_addr_index c_send_stream_count c_recv_stream_count
      c_max_pkt_streams c_config]; try apply Hc1; try done.
    + rewrite (same_addresses _ _ Hs). apply Hc1.
    + rewrite Ha1. apply Hc1.
    + rewrite Ha2. apply Hc1.
  - destruct Hadv as [A1 A2 A3 A4 A5 A6]. split; try done. by transitivity (c_reporter c1).
Qed.

(** * All packets *)

(** The addresses after the current one, and their streams. *)
Definition later (r : R) (a : nat) : list nat := seq (a + 1) (num_dest_addresses r - (a + 1)).

Definition total (f : nat -> nat) (l : list nat) : nat := list_sum (map f l).

Definition work (r : R) (a : nat) : nat := 1 + addr_sends r a + addr_recvs r a.

Lemma total_same f g l : (forall a, f a = g a) -> total f l = total g l.
Proof. intros Hfg. unfold total. f_equal. apply map_ext. exact Hfg. Qed.

Lemma total_cons f a l : total f (a :: l) = (f a + total f l)%nat.
Proof. done. Qed.

Lemma total_streams r r' l :
  same_streams r r' ->
  total (addr_sends r') l = total (addr_sends r) l /\ total (addr_recvs r') l = total (addr_recvs r) l
  /\ total (work r') l = total (work r) l.
Proof.
  intros Hs. split_and!; apply total_same; intros a; unfold work;
    destruct (addr_streams_same r r' a Hs) as [E1 E2]; by rewrite ?E1, ?E2.
Qed.

(** The packets written from a state on are about exactly these streams. *)
Definition reports_on (fuel : nat) (g : gstate) (config : BuilderConfig) (r : R)
    (ssrcs : stream_block -> list (nat * bytes)) : Prop :=
  exists g' pkts descs,
    generate_loop host rtcp_composer_prepare fuel PacketType_Reports g = ret (StatusOK, g')
    /\ content (g_writer g') = content (g_writer g) ++ pkts
    /\ Forall2 (carries config r) pkts descs
    /\ (forall k, sent_about k descs = ssrcs k)
    /\ generating (c_reporter (g_comm g')).

(** One round of the loop, when [continue_packet_generation_] has left [c] and said
    yes. *)
Lemma round_ok fuel c0 c f w ssrcs :
  continue_packet_generation c0 = (true, c) -> ready c -> (31 <= fuel)%nat ->
  (forall c' f' w' s' q' ps, ready c' -> advanced s' q' c c' -> reports_about c s' q' ps ->
     (0 < sends_left c + recvs_left c -> 0 < s' + q')%nat ->
     exists rest, (forall k, ssrcs k = map (pair (c_dest_addr_index c)) (about k ps) ++ rest k)
       /\ reports_on fuel (mkGenState c' f' w') (c_config c') (c_reporter c') rest) ->
  reports_on (S fuel) (mkGenState c0 f w) (c_config c) (c_reporter c) ssrcs.
Proof.
  intros Hcont Hc Hf Hrest. unfold reports_on. cbn [generate_loop g_comm]. rewrite Hcont.
  cbn [negb]. unfold g_set_comm at 1. cbn [g_factory g_writer].
  destruct (packet_ok (S fuel) c f w Hc) as (p & c1 & f1 & ps & -> & Hc1 & Hadv & Hcar & HT & Hprog); [lia|].
  cbn [run_bind ret res_bind]. unfold write_generated_packet. cbn [g_writer g_comm g_factory].
  destruct (fifo_write w p) as (w1 & -> & Hw1). cbn [lift res_bind run_bind ret g_comm].
  set (c2 := c_set_counts _ _ _ c1).
  assert (ready c2) as Hc2 by (destruct Hc1; by split).
  assert (advanced (reported_sends ps) (reported_recvs ps) c c2) as Hadv2 by (destruct Hadv; by split).
  destruct (Hrest c2 f1 w1 _ _ ps Hc2 Hadv2 HT Hprog) as (rest & Erest & g' & pkts & descs & E & Hw & Hall & Hs & Hg).
  unfold g_set_comm. cbn [g_factory g_writer]. rewrite E.
  exists g', (p :: pkts), ((c_dest_addr_index c, ps) :: descs). split; [done|]. cbn [g_writer] in *.
  rewrite Hw, Hw1, <- app_assoc. split; [done|]. rewrite (adv_config _ _ _ _ Hadv2) in Hall.
  split; [|split; [intros k; by rewrite Erest, <- (Hs k)|done]].
  constructor; [done|]. eapply Forall2_impl; [exact Hall|]. intros q d.
  apply carries_same, (adv_streams _ _ _ _ Hadv2).
Qed.

Lemma later_cons r a : (a + 1 < num_dest_addresses r)%nat -> later r a = (a + 1)%nat :: later r (a + 1).
Proof.
  intros Ha. unfold later. replace (num_dest_addresses r - (a + 1))%nat
    with (S (num_dest_addresses r - (a + 1 + 1)))%nat by lia.
  cbn [seq]. f_equal. f_equal. lia.
Qed.

Lemma later_same r r' a : same_streams r r' -> later r' a = later r a.
Proof. intros Hs. unfold later. by rewrite (same_addresses _ _ Hs). Qed.

(** The first packet for the address [a]. *)
Definition at_addr (a : nat) (c : Communicator R) : Communicator R :=
  let r := c_reporter c in
  c_set_streams (addr_sends r a) 0 (addr_recvs r a) 0
    (c_set_cur 0 0 (c_set_addr (num_dest_addresses r) a c)).

Lemma at_addr_ready c a :
  generating (c_reporter c) -> (a < num_dest_addresses (c_reporter c))%nat ->
  (2 <= c_max_pkt_streams c <= 31)%nat -> enable_sr_rr (c_config c) = true -> enable_xr (c_config c) = true ->
  ready (at_addr a c).
Proof. intros. by split. Qed.

Definition work_left (c : Communicator R) : nat :=
  sends_left c + recvs_left c + total (work (c_reporter c)) (later (c_reporter c) (c_dest_addr_index c)).

(** From a state on, all streams that are left are reported. *)
Definition covers (fuel : nat) (g : gstate) : Prop :=
  let c := g_comm g in
  let l := later (c_reporter c) (c_dest_addr_index c) in
  reports_on fuel g (c_config c) (c_reporter c) (fun k => left_ssrcs c k ++ all_ssrcs (c_reporter c) k l).

(** The packets after the current one. *)
Lemma rest_ok n fuel c c' f' w' s' q' ps :
  (forall c f w, ready c -> c_dest_addr_count c = num_dest_addresses (c_reporter c) ->
     (work_left c < n)%nat -> covers fuel (mkGenState c f w)) ->
  ready c' -> advanced s' q' c c' -> reports_about c s' q' ps -> (work_left c < n + (s' + q'))%nat ->
  c_dest_addr_count c = num_dest_addresses (c_reporter c) ->
  let l := later (c_reporter c) (c_dest_addr_index c) in
  exists rest,
    (forall k, left_ssrcs c k ++ all_ssrcs (c_reporter c) k l
               = map (pair (c_dest_addr_index c)) (about k ps) ++ rest k)
    /\ reports_on fuel (mkGenState c' f' w') (c_config c') (c_reporter c') rest.
Proof.
  intros IH Hc' Hadv HT Hn Hcnt l. pose proof Hadv as [A1 [A2 A2'] [A3 A3'] [A4 A4'] A5 A6].
  destruct (total_streams _ _ l A5) as (T1 & T2 & T3). subst l.
  eexists. split; cycle 1.
  - apply (IH c' f' w' Hc'); [by rewrite A2', (same_addresses _ _ A5)|].
    unfold work_left in *. rewrite A2, (later_same _ _ _ A5), T3. lia.
  - intros k. cbn [g_comm]. rewrite A2, (later_same _ _ _ A5), (all_ssrcs_same _ _ _ _ A5), app_assoc.
    by rewrite (left_split _ _ _ _ _ k Hadv HT).
Qed.

Lemma left_at_addr a c k : left_ssrcs (at_addr a c) k = addr_ssrcs (c_reporter c) k a.
Proof.
  unfold left_ssrcs, addr_ssrcs, next_sends, next_recvs, sends_left, recvs_left. cbn. by rewrite !Nat.sub_0_r.
Qed.

Lemma loop_ok n : forall fuel c f w,
  ready c -> c_dest_addr_count c = num_dest_addresses (c_reporter c) ->
  (work_left c <= n)%nat -> (32 + n <= fuel)%nat -> covers fuel (mkGenState c f w).
Proof.
  induction n as [n IH] using lt_wf_ind. intros fuel c f w Hc Hcnt Hn Hf.
  destruct fuel as [|fuel]; [lia|]. pose proof (ready_addr _ Hc) as Ha.
  assert (forall k, (k <= n)%nat -> forall c f w, ready c ->
    c_dest_addr_count c = num_dest_addresses (c_reporter c) -> (work_left c < k)%nat ->
    covers fuel (mkGenState c f w)) as Hrest.
  { intros k Hk c' f' w' Hc' Hcnt' Hn'. apply (IH (work_left c')); [lia|done|done|lia|lia]. }
  unfold covers. cbn [g_comm].
  destruct (decide (0 < sends_left c + recvs_left c)%nat) as [Hleft|Hnone].
  - apply (round_ok fuel c c); [|done|lia|].
    + unfold continue_packet_generation. unfold sends_left, recvs_left in Hleft.
      destruct (Nat.leb_spec (c_send_stream_count c) (c_send_stream_index c));
        destruct (Nat.leb_spec (c_recv_stream_count c) (c_recv_stream_index c)); done || lia.
    + intros c' f' w' s' q' ps Hc' Hadv HT Hprog. apply (rest_ok n fuel c c' f' w' s' q' ps); try done; [by apply Hrest|].
      specialize (Hprog Hleft). lia.
  - assert (sends_left c = O /\ recvs_left c = O) as [Hs0 Hr0] by lia.
    set (a := c_dest_addr_index c) in *. set (r := c_reporter c) in *.
    assert (forall k, left_ssrcs c k = []) as Hl0.
    { intros k. unfold left_ssrcs. rewrite Hs0, Hr0. by destruct k. }
    assert (continue_packet_generation c =
      if (num_dest_addresses r <=? a + 1)%nat then (false, c_set_addr (num_dest_addresses r) (a + 1) c)
      else (true, at_addr (a + 1) c)) as Hcont.
    { unfold continue_packet_generation. unfold sends_left, recvs_left in Hs0, Hr0.
      rewrite (proj2 (Nat.leb_le _ _)), (proj2 (Nat.leb_le _ _)) by lia. cbn [andb].
      rewrite Hcnt. fold r a. rewrite (proj2 (Nat.eqb_neq _ _)) by lia. done. }
    destruct (Nat.leb_spec (num_dest_addresses r) (a + 1)) as [Hend|Hmore].
    + assert (later r a = []) as -> by (unfold later; by replace (num_dest_addresses r - (a + 1))%nat with O by lia).
      eexists _, [], []. cbn [generate_loop g_comm]. rewrite Hcont. cbn [negb].
      split; [done|]. cbn [g_set_comm g_writer g_comm]. rewrite app_nil_r. split_and!; try done; [|apply Hc].
      intros k. by rewrite Hl0.
    + rewrite (later_cons r a Hmore). pose proof (ready_config _ Hc) as [Hc1 Hc2].
      assert (ready (at_addr (a + 1) c)) as Hat
        by (apply at_addr_ready; try done; [apply Hc|apply (ready_max _ Hc)]).
      change (c_config c) with (c_config (at_addr (a + 1) c)).
      change r with (c_reporter (at_addr (a + 1) c)) at 1.
      apply (round_ok fuel c (at_addr (a + 1) c)); [done|done|lia|].
      intros c' f' w' s' q' ps Hc' Hadv HT Hprog.
      assert (sends_left (at_addr (a + 1) c) = addr_sends r (a + 1)
        /\ recvs_left (at_addr (a + 1) c) = addr_recvs r (a + 1)) as [L1 L2]
        by (unfold sends_left, recvs_left; cbn; by rewrite !Nat.sub_0_r).
      destruct (rest_ok n fuel (at_addr (a + 1) c) c' f' w' s' q' ps) as (rest & E1 & Hr); try done.
      { by apply Hrest. }
      { unfold work_left in *. rewrite L1, L2. rewrite Hs0, Hr0 in Hn. fold a r in Hn.
        rewrite (later_cons r a Hmore), total_cons in Hn.
        assert (work r (a + 1) = 1 + addr_sends r (a + 1) + addr_recvs r (a + 1))%nat by done.
        change (c_reporter (at_addr (a + 1) c)) with r. change (c_dest_addr_index (at_addr (a + 1) c)) with (a + 1)%nat.
        lia. }
      exists rest. split; [|done]. intros k. rewrite <- E1, Hl0, left_at_addr. done.
Qed.

(** From the first call of [continue_packet_generation_]. *)
Lemma start_ok fuel c f w :
  generating (c_reporter c) -> (2 <= c_max_pkt_streams c <= 31)%nat ->
  enable_sr_rr (c_config c) = true -> enable_xr (c_config c) = true ->
  let r := c_reporter c in
  let l := seq 0 (num_dest_addresses r) in
  (33 + total (work r) l <= fuel)%nat ->
  reports_on fuel (mkGenState (c_set_addr 0 0 (c_set_streams 0 0 0 0 c)) f w) (c_config c) r
    (fun k => all_ssrcs r k l).
Proof.
  intros Hg Hm Hc1 Hc2 r l Hf. set (cs := c_set_addr 0 0 (c_set_streams 0 0 0 0 c)).
  destruct fuel as [|fuel]; [lia|]. destruct (num_dest_addresses r) as [|N] eqn:HN.
  - eexists _, [], []. cbn [generate_loop g_comm].
    assert (continue_packet_generation cs = (false, c_set_addr 0 0 cs)) as ->
      by (unfold continue_packet_generation; cbn; fold r; by rewrite !HN).
    split; [done|]. cbn [g_set_comm g_writer g_comm]. rewrite app_nil_r. by split_and!.
  - assert (continue_packet_generation cs = (true, at_addr 0 cs)) as Hcont.
    { unfold continue_packet_generation, at_addr, addr_sends, addr_recvs. cbn. fold r. rewrite HN. cbn. done. }
    assert (ready (at_addr 0 cs)) as Hat by (apply at_addr_ready; try done; cbn; fold r; lia).
    change (c_config c) with (c_config (at_addr 0 cs)).
    change r with (c_reporter (at_addr 0 cs)) at 1.
    assert (l = O :: later r 0) as El
      by (unfold l, later; rewrite HN; cbn [seq Nat.add]; by rewrite Nat.sub_succ, Nat.sub_0_r).
    rewrite El, !total_cons in *.
    apply (round_ok fuel cs (at_addr 0 cs)); [done|done|lia|].
    intros c' f' w' s' q' ps Hc' Hadv HT Hprog.
    assert (sends_left (at_addr 0 cs) = addr_sends r 0 /\ recvs_left (at_addr 0 cs) = addr_recvs r 0) as [L1 L2]
      by (unfold sends_left, recvs_left; cbn; by rewrite !Nat.sub_0_r).
    assert (work r 0 = 1 + addr_sends r 0 + addr_recvs r 0)%nat as Hw0 by done.
    set (n := (work r 0 + total (work r) (later r 0))%nat) in *.
    destruct (rest_ok n fuel (at_addr 0 cs) c' f' w' s' q' ps) as (rest & E1 & Hr); try done.
    { intros c2 f2 w2 Hr2 Hcnt2 Hn2. apply (loop_ok (work_left c2)); done || lia. }
    { unfold work_left. rewrite L1, L2. change (c_reporter (at_addr 0 cs)) with r.
      change (c_dest_addr_index (at_addr 0 cs)) with O. lia. }
    exists rest. split; [|done]. intros k. rewrite <- E1, left_at_addr. done.
Qed.

End Live.

Lemma reports_cover_streams (host : cpu_endian) {R F W : Type}
    `{GenerationReporter R} `{SteadyFactory F} `{FifoWriter W}
    (c : Communicator R) (f : F) (w : W) (r : R) (time : Z) (allow : bool) (fuel : nat) :
  begin_generation time (c_reporter c) = Ok (StatusOK, r) -> generating r ->
  (2 <= c_max_pkt_streams c <= 31)%nat ->
  enable_sr_rr (c_config c) = true -> enable_xr (c_config c) = true ->
  let addrs := seq 0 (num_dest_addresses r) in
  (33 + total (work r) addrs <= fuel)%nat ->
  exists status g' pkts descs,
    generate_packets host rtcp_composer_prepare fuel allow PacketType_Reports time (mkGenState c f w)
      = ret (status, g')
    /\ content (g_writer g') = content w ++ pkts
    /\ Forall2 (carries (c_config c) r) pkts descs
    /\ (forall k, sent_about k descs = all_ssrcs r k addrs)
    /\ finished (c_reporter (g_comm g')).
Proof.
  intros Hbegin Hg Hm Hc1 Hc2 addrs Hf. unfold generate_packets, begin_packet_generation. cbn [g_comm].
  rewrite Hbegin. cbn [lift res_bind run_bind ret]. unfold g_set_comm at 1. cbn [g_factory g_writer].
  destruct (start_ok host fuel (c_set_reporter r c) f w) as (g' & pkts & descs & E & Hw & Hall & Hs & Hg'); try done.
  unfold g_set_comm at 1. cbn [g_factory g_writer]. rewrite E. cbn [run_bind ret res_bind].
  unfold end_packet_generation, ask. destruct (end_generation_ok _ Hg') as (status & r' & -> & Hfin).
  cbn [lift res_bind run_bind ret]. eexists _, _, pkts, descs. split; [done|]. split_and!; try done.
  by destruct allow.
Qed.

(** C16: a round of reports ends, and it covers every stream once.  When the buffers of the
    packet factory hold a payload with two streams (532 bytes), SR/RR and XR are enabled and
    the limit of streams per packet is from 2 to 31, generation writes finitely many packets.
    Each carries the encoding of a valid compound packet to the address of an index, and the
    packets for the addresses, in order, hold exactly one reception report and one block of
    each kind of metrics for every receiving stream, and one DLRR sub-block for every sending
    stream, in the order of the reporter's indexes and each with the SSRC that the reporter
    promises for that index.  The reporter is left as its [end_generation] promises. *)
Theorem rtcp_reports_cover_streams (host : cpu_endian) {R F W : Type}
    `{GenerationReporter R} `{SteadyFactory F} `{FifoWriter W}
    (c : Communicator R) (f : F) (w : W) (r : R) (time : Z) (allow : bool) (fuel : nat) :
  begin_generation time (c_reporter c) = Ok (StatusOK, r) -> generating r ->
  (2 <= c_max_pkt_streams c <= 31)%nat ->
  enable_sr_rr (c_config c) = true -> enable_xr (c_config c) = true ->
  let addrs := seq 0 (num_dest_addresses r) in
  (33 + total (work r) addrs <= fuel)%nat ->
  exists status g' pkts descs,
    generate_packets host rtcp_composer_prepare fuel allow PacketType_Reports time (mkGenState c f w)
      = ret (status, g')
    /\ content (g_writer g') = content w ++ pkts
    /\ Forall2 (carries (c_config c) r) pkts descs
    /\ (forall k, sent_about k descs = all_ssrcs r k addrs)
    /\ finished (c_reporter (g_comm g')).
Proof. exact (reports_cover_streams host c f w r time allow fuel). Qed.

(** * A reporter and a factory that keep the promises *)

(** The numbers of sending and receiving streams of every destination address. *)
Definition fleet : Type := list (nat * nat).

(** The SSRC of a stream, in network order. *)
Definition fleet_ssrc (a i : nat) : bytes := be_bytes 4 (Z.of_nat (256 * a + i)).

#[global] Instance fleet_reporter : IReporter fleet := {|
  begin_processing _ _ r := Ok (StatusOK, r);
  process_cname _ _ r := Ok r;
  process_sr _ r := Ok r;
  process_reception_block _ _ r := Ok r;
  process_dlrr_subblock _ _ r := Ok r;
  process_rrtr_block _ _ r := Ok r;
  process_measurement_info_block _ _ r := Ok r;
  process_delay_metrics_block _ _ r := Ok r;
  process_queue_metrics_block _ _ r := Ok r;
  process_goodbye _ r := Ok r;
  end_processing r := Ok (StatusOK, r);
  is_sending _ := true;
  is_receiving _ := true;
  begin_generation _ r := Ok (StatusOK, r);
  num_dest_addresses r := length r;
  num_sending_streams a r := (nth a r (O, O)).1;
  num_receiving_streams a r := (nth a r (O, O)).2;
  generate_dest_address a r := Ok (Some (Z.of_nat a), r);
  generate_cname r := Ok (7, (SDES_CNAME, [99; 110]), r);
  generate_sr r := Ok (new_header RTCP_SR ++ replicate 24 0, r);
  generate_rr r := Ok (new_header RTCP_RR ++ replicate 4 0, r);
  generate_reception_block a i r := Ok (fleet_ssrc a i ++ replicate 20 0, r);
  generate_xr r := Ok (new_header RTCP_XR ++ replicate 4 0, r);
  generate_dlrr_subblock a i r := Ok (fleet_ssrc a i ++ replicate 8 0, r);
  generate_rrtr_block r := Ok (new_block XR_RRTR 0 ++ replicate 8 0, r);
  generate_measurement_info_block a i r :=
    Ok (new_block XR_MEASUREMENT_INFO 0 ++ fleet_ssrc a i ++ replicate 24 0, r);
  generate_delay_metrics_block a i r :=
    Ok (new_block XR_DELAY_METRICS 0 ++ fleet_ssrc a i ++ replicate 20 0, r);
  generate_queue_metrics_block a i r :=
    Ok (new_block XR_QUEUE_METRICS 0 ++ fleet_ssrc a i ++ replicate 8 0, r);
  need_goodbye _ := false;
  generate_goodbye_ssrc r := Ok (7, r);
  end_generation r := Ok (StatusOK, r);
|}.

#[global] Instance fleet_streams : ReportedStreams fleet := {|
  dest_of a _ := Some (Z.of_nat a);
  send_ssrc a i _ := fleet_ssrc a i;
  recv_ssrc a i _ := fleet_ssrc a i;
|}.

Lemma bytes_of_len_intro n bs : length bs = n -> Forall is_byte bs -> bytes_of_len n bs = true.
Proof.
  intros Hl Hb. unfold bytes_of_len. rewrite Hl, Nat.eqb_refl. simpl.
  apply forallb_forall. intros x Hx. rewrite Forall_forall in Hb. by apply bool_decide_eq_true_2, Hb, list_elem_of_In.
Qed.

Lemma blank_bytes n : Forall is_byte (replicate n 0).
Proof. apply Forall_replicate. by vm_compute. Qed.

Lemma fleet_body a i n : bytes_of_len (4 + n) (fleet_ssrc a i ++ replicate n 0) = true.
Proof.
  apply bytes_of_len_intro.
  - unfold fleet_ssrc. by rewrite length_app, length_be_bytes, length_replicate.
  - apply Forall_app. split; [apply be_bytes_Forall|apply blank_bytes].
Qed.

Lemma fleet_tag a i n : take 4 (fleet_ssrc a i ++ replicate n 0) = fleet_ssrc a i.
Proof. unfold fleet_ssrc. by rewrite take_app_le, take_ge by (rewrite length_be_bytes; lia). Qed.

Lemma fleet_answer {A} (P : A -> Prop) (x : A) (r : fleet) :
  P x -> exists y r', Ok (x, r) = Ok (y, r') /\ P y /\ True /\ same_streams r r'.
Proof. intros HP. by exists x, r. Qed.

Lemma fleet_block t mk a i n ssrc :
  t = XR_MEASUREMENT_INFO /\ mk = BlkMeasurementInfo /\ n = 24%nat
  \/ t = XR_DELAY_METRICS /\ mk = BlkDelayMetrics /\ n = 20%nat
  \/ t = XR_QUEUE_METRICS /\ mk = BlkQueueMetrics /\ n = 8%nat ->
  ssrc = fleet_ssrc a i -> is_stream_block t mk ssrc (new_block t 0 ++ fleet_ssrc a i ++ replicate n 0).
Proof.
  intros Hk ->. exists 0, (fleet_ssrc a i ++ replicate n 0). split; [done|]. split; [|apply fleet_tag].
  pose proof (fleet_body a i n) as Hb. by destruct Hk as [(-> & -> & ->)|[(-> & -> & ->)|(-> & -> & ->)]].
Qed.

#[global] Instance fleet_generation : GenerationReporter fleet.
Proof.
  refine {| generating := fun _ => True; finished := fun _ => True |}.
  - intros a dest r _ [_ <-]. by apply fleet_answer.
  - intros r _ _. apply fleet_answer. split; [done|]. vm_compute. reflexivity.
  - intros r _ _. apply fleet_answer. eexists. split; [reflexivity|].
    apply bytes_of_len_intro; [apply length_replicate|apply blank_bytes].
  - intros r _ _. apply fleet_answer. eexists. split; [reflexivity|].
    apply bytes_of_len_intro; [apply length_replicate|apply blank_bytes].
  - intros a i ssrc r _ (_ & _ & _ & <-). apply fleet_answer. split; [apply (fleet_body a i 20)|apply fleet_tag].
  - intros r _ _. apply fleet_answer. eexists. split; [reflexivity|].
    apply bytes_of_len_intro; [apply length_replicate|apply blank_bytes].
  - intros a i ssrc r _ (_ & _ & _ & <-). apply fleet_answer. split; [apply (fleet_body a i 8)|apply fleet_tag].
  - intros r _ _. apply fleet_answer. exists 0, (replicate 8 0). split; [reflexivity|]. vm_compute. reflexivity.
  - intros a i ssrc r _ (_ & _ & _ & <-). apply fleet_answer, fleet_block; [tauto|done].
  - intros a i ssrc r _ (_ & _ & _ & <-). apply fleet_answer, fleet_block; [tauto|done].
  - intros a i ssrc r _ (_ & _ & _ & <-). apply fleet_answer, fleet_block; [tauto|done].
  - intros r _ _. apply fleet_answer. vm_compute. split; congruence.
  - intros r _. by eexists _, _.
Defined.

(** Buffers of 600 bytes, without end. *)
#[global] Instance unit_factory : IPacketFactory unit := {|
  new_packet u := (true, u);
  new_packet_buffer u := (Some (replicate 600 0), u)
|}.

#[global] Instance unit_steady : SteadyFactory unit.
Proof.
  refine {| buffer_size := 600 |}.
  - apply Nat.leb_le. vm_compute. reflexivity.
  - intros f. by exists f.
  - intros f. exists (replicate 600 0), f. split; [done|]. split; [apply length_replicate|].
    apply Forall_replicate. vm_compute. split; congruence.
Defined.

(** Two addresses with 3 sending and 40 receiving streams and with 1 of each. *)
Lemma rtcp_reports_cover_streams_witness :
  let c := communicator_new (mkBuilderConfig true true true) 1 ([(3, 40); (1, 1)]%nat : fleet) in
  exists status g' pkts descs,
    generate_packets CPU_LE rtcp_composer_prepare 100 false PacketType_Reports 1 (mkGenState c tt (mkQueue []))
      = ret (status, g')
    /\ queue_list (g_writer g') = pkts
    /\ Forall2 (carries (c_config c) (c_reporter c)) pkts descs
    /\ sent_about Dlrr descs = [(0%nat, [0; 0; 0; 0]); (0%nat, [0; 0; 0; 1]); (0%nat, [0; 0; 0; 2]); (1%nat, [0; 0; 1; 0])]
    /\ length (sent_about Reception descs) = 41%nat.
Proof.
  cbv zeta.
  destruct (rtcp_reports_cover_streams CPU_LE
    (communicator_new (mkBuilderConfig true true true) 1 ([(3, 40); (1, 1)]%nat : fleet)) tt (mkQueue [])
    [(3, 40); (1, 1)]%nat 1 false 100) as (status & g' & pkts & descs & E & Hw & Hall & Hs & _);
    [reflexivity|exact I|vm_compute; lia|reflexivity|reflexivity|vm_compute; lia|].
  exists status, g', pkts, descs. split; [exact E|]. split; [exact Hw|]. split; [exact Hall|].
  rewrite !Hs. split; reflexivity.
Defined.
