(* ===== verification/RtcpGenerateStuck.v ===== *)
(** When generation does not make progress.  A goodbye packet does not report on any
    stream, and with a limit of one stream per packet no report does; the loop over the
    packets waits for the streams to be reported and can only be left by a failure. *)

From S2P Require Import Prelude Bytes Slice Packet Io FecWriter.
From S2P Require Import RtcpHeaders RtcpTraverser RtcpTraverserSafe RtcpBuilder RtcpWire.
From S2P Require Import RtcpCommunicator RtcpGenerate RtcpGenerateSafe RtcpGenerateLive.

Section Stuck.

Context (host : cpu_endian) {R F W : Type} `{IReporter R} `{IPacketFactory F} `{IWriter W}.
Context (prepare : Packet -> Slice -> nat -> res (bool * Packet * Slice)).

(** The kinds of packets that report on no stream. *)
Definition reports_none (packet_type : PacketType) (c : Communicator R) : Prop :=
  packet_type = PacketType_Goodbye \/ (c_max_pkt_streams c <= 1)%nat.

(** Only the reporter changed. *)
Definition keeps (c : Communicator R) (x : res (Communicator R * Builder)) : Prop :=
  match x with Panic => True | Ok (c', _) => exists r, c' = c_set_reporter r c end.

Lemma keeps_ret c b : keeps c (Ok (c, b)).
Proof. exists (c_reporter c). by destruct c. Qed.

Lemma keeps_ask {A} (f : R -> res (A * R)) c k :
  (forall x r, keeps (c_set_reporter r c) (k x (c_set_reporter r c))) ->
  keeps c (let* '(x, c) := ask f c in k x c).
Proof.
  intros Hk. unfold ask. destruct (f (c_reporter c)) as [[x r]|]; [|done]. cbn [res_bind].
  specialize (Hk x r). destruct (k x (c_set_reporter r c)) as [[c' b']|]; [|done]. simpl in *.
  destruct Hk as [r' ->]. by exists r'.
Qed.

Lemma keeps_build c (x : res Builder) k :
  (forall b, keeps c (k b)) -> keeps c (let* b := x in k b).
Proof. intros Hk. destruct x as [b|]; [apply Hk|done]. Qed.

Lemma keeps_then c x k :
  keeps c x -> (forall r b, keeps (c_set_reporter r c) (k (c_set_reporter r c) b)) ->
  keeps c (let* '(c, b) := x in k c b).
Proof.
  intros Hx Hk. destruct x as [[c1 b1]|]; [|done]. destruct Hx as [r ->]. cbn [res_bind].
  specialize (Hk r b1). destruct (k (c_set_reporter r c) b1) as [[c' b']|]; [|done]. simpl in *.
  destruct Hk as [r' ->]. by exists r'.
Qed.

Lemma keeps_if (t : bool) c x y : keeps c x -> keeps c y -> keeps c (if t then x else y).
Proof. by destruct t. Qed.

Lemma keeps_description c b : keeps c (generate_description host c b).
Proof.
  apply keeps_build. intros b1. unfold ask. destruct (generate_cname (c_reporter c)) as [[[ssrc item] r]|]; [|done].
  cbn [res_bind]. destruct (begin_sdes_chunk host ssrc b1) as [b2|]; [|done]. cbn [res_bind].
  destruct (add_sdes_item item.1 item.2 b2) as [b3|]; [|done]. cbn [res_bind].
  destruct (end_sdes_chunk b3) as [b4|]; [|done]. cbn [res_bind].
  destruct (end_sdes host b4) as [b5|]; [|done]. by exists r.
Qed.

Lemma keeps_goodbye c b : keeps c (generate_goodbye_ host c b).
Proof.
  apply keeps_build. intros b1. apply keeps_ask. intros ssrc r.
  apply keeps_build. intros b2. apply keeps_build. intros b3. apply keeps_ret.
Qed.

(** Without room for a stream the loops end at once. *)
Lemma keeps_send add c b : (c_max_pkt_streams c <= 1)%nat -> keeps c (send_streams add c b).
Proof.
  intros Hm. unfold send_streams. destruct (_ - _)%nat; cbn [stream_loop]; [apply keeps_ret|].
  unfold next_send_stream. rewrite (proj2 (Nat.leb_le _ _)) by lia. apply keeps_ret.
Qed.

Lemma keeps_recv add c b : (c_max_pkt_streams c <= 1)%nat -> keeps c (recv_streams add c b).
Proof.
  intros Hm. unfold recv_streams. destruct (_ - _)%nat; cbn [stream_loop]; [apply keeps_ret|].
  unfold next_recv_stream. rewrite (proj2 (Nat.leb_le _ _)) by lia. apply keeps_ret.
Qed.

Ltac keep :=
  repeat first
    [ apply keeps_ret | apply keeps_description | apply keeps_goodbye
    | apply keeps_send; assumption | apply keeps_recv; assumption
    | apply keeps_if | apply keeps_ask; intros | apply keeps_then; intros | apply keeps_build; intros ].

Lemma keeps_payload packet_type c b :
  reports_none packet_type c -> keeps c (generate_payload host packet_type c b).
Proof.
  destruct packet_type; cbn [generate_payload].
  - intros [Hd|Hm]; [done|]. unfold generate_reports_payload.
    apply keeps_then; [apply keeps_if; [unfold generate_standard_report|]; keep|intros r1 b1].
    apply keeps_then; [apply keeps_if; [unfold generate_extended_report|]; keep|intros r2 b2].
    apply keeps_then; [apply keeps_if; keep|intros r3 b3]. keep.
  - intros _. unfold generate_goodbye_payload, generate_empty_report. keep.
Qed.

(** Every stream that was left is still left. *)
Definition same_left (c c' : Communicator R) : Prop :=
  c_send_stream_count c' = c_send_stream_count c /\ c_send_stream_index c' = c_send_stream_index c
  /\ c_recv_stream_count c' = c_recv_stream_count c /\ c_recv_stream_index c' = c_recv_stream_index c
  /\ c_max_pkt_streams c' = c_max_pkt_streams c.

Lemma payload_keeps fuel packet_type c mem s c' mem' s' :
  reports_none packet_type c ->
  generate_packet_payload host fuel packet_type c mem s = ret (StatusOK, c', mem', s') -> same_left c c'.
Proof.
  intros Hn. destruct fuel as [|fuel]; [done|]. cbn [generate_packet_payload].
  set (c1 := c_set_cur 0 0 c). destruct (builder_new (c_config c1) mem s) as [b0|]; [|done].
  cbn [lift res_bind run_bind ret].
  pose proof (keeps_payload packet_type c1 b0 Hn) as Hk.
  destruct (generate_payload host packet_type c1 b0) as [[c2 b]|]; [|done]. cbn [lift res_bind run_bind ret].
  destruct Hk as [r ->]. destruct (builder_delete b) as [u|]; [|done]. cbn [lift res_bind run_bind ret].
  cbn [c1 c_set_cur c_set_reporter c_cur_pkt_send_stream c_cur_pkt_recv_stream Nat.add].
  destruct (negb (is_ok b)); [done|]. intros E. injection E as <- _ _. unfold same_left. cbn.
  by rewrite !Nat.add_0_r.
Qed.

Lemma fill_keeps packet s1 s2 m c st p c' :
  fill_packet prepare packet s1 s2 m c = Ok (st, p, c') -> exists r : R, c' = c_set_reporter r c.
Proof.
  unfold fill_packet. intros E. destruct (slice_reslice s1 0 0) as [s1'|]; [|done]. cbn [res_bind] in E.
  destruct (prepare packet s1' (sl_size s2)) as [[[ok pk] s3]|]; [|done]. cbn [res_bind] in E.
  destruct ok; cbn [negb] in E; [|injection E as <- <- <-; exists (c_reporter c); by destruct c].
  destruct (add_flags pk FlagPrepared) as [pk1|]; [|done]. cbn [res_bind] in E.
  destruct (set_buffer pk1 s3) as [pk2|]; [|done]. cbn [res_bind] in E.
  destruct (packet_rtcp pk2) as [pl|]; [|done]. unfold panic_if in E. case_if_in E; [done|].
  destruct (slice_data pl) as [dst|]; [|done]. cbn [res_bind] in E.
  destruct (slice_data s2) as [src|]; [|done]. cbn [res_bind] in E.
  destruct (add_flags _ FlagUDP) as [pk3|]; [|done]. cbn [res_bind] in E. unfold ask in E.
  destruct (generate_dest_address (c_dest_addr_index c) (c_reporter c)) as [[addr r]|]; [|done].
  cbn [res_bind] in E. injection E as _ _ <-. by exists r.
Qed.

#[local] Notation gstate := (@GenState R F W).

Lemma packet_keeps fuel packet_type (g : gstate) p (g' : gstate) :
  reports_none packet_type (g_comm g) ->
  generate_packet host prepare fuel packet_type g = ret (StatusOK, p, g') -> same_left (g_comm g) (g_comm g').
Proof.
  intros Hn. unfold generate_packet. destruct (new_packet (g_factory g)) as [[|] f1]; cbn [negb]; [|done].
  destruct (new_packet_buffer f1) as [[mem|] f2]; [|done].
  destruct (slice_reslice (slice_whole (length mem)) 0 0) as [s|]; [|done]. cbn [lift res_bind run_bind ret].
  destruct (generate_packet_payload host fuel packet_type (g_comm g) mem s) as [[[[[st c1] m1] s1]|]|] eqn:E; try done.
  cbn [run_bind]. destruct st; try done. cbn [run_bind].
  apply (payload_keeps _ _ _ _ _ _ _ _ Hn) in E.
  destruct (new_packet_buffer f2) as [[pm|] f3]; [|done].
  destruct (fill_packet prepare (with_mem Packet_new pm) (slice_whole (length pm)) s1 m1 c1)
    as [[[st2 p2] c2]|] eqn:Ef; [|done]. cbn [lift res_bind run_bind ret].
  intros E2. injection E2 as -> _ <-. cbn [g_comm g_set_comm].
  destruct (fill_keeps _ _ _ _ _ _ _ _ Ef) as [r ->]. exact E.
Qed.

(** The loop is left only by a failure. *)
Lemma loop_stuck fuel packet_type (g : gstate) status g' :
  reports_none packet_type (g_comm g) -> (0 < sends_left (g_comm g) + recvs_left (g_comm g))%nat ->
  generate_loop host prepare fuel packet_type g = ret (status, g') -> status <> StatusOK.
Proof.
  revert g. induction fuel as [|fuel IH]; intros g Hn Hleft; [done|]. cbn [generate_loop].
  assert (continue_packet_generation (g_comm g) = (true, g_comm g)) as ->.
  { unfold continue_packet_generation, sends_left, recvs_left in *.
    destruct (Nat.leb_spec (c_send_stream_count (g_comm g)) (c_send_stream_index (g_comm g)));
      destruct (Nat.leb_spec (c_recv_stream_count (g_comm g)) (c_recv_stream_index (g_comm g))); done || lia. }
  cbn [negb]. set (g1 := g_set_comm (g_comm g) g).
  destruct (generate_packet host prepare (S fuel) packet_type g1) as [[[[st p] g2]|]|] eqn:E; try done.
  cbn [run_bind]. destruct st; try (intros E2; injection E2 as <- _; done).
  apply (packet_keeps _ _ g1 _ g2 Hn) in E. destruct E as (E1 & E2 & E3 & E4 & E5).
  unfold write_generated_packet. destruct (write (g_writer g2) p) as [[st w]|]; [|done].
  cbn [lift res_bind run_bind ret]. destruct st; try (intros E; injection E as <- _; done).
  apply IH.
  - cbn [g_comm g_set_comm c_set_counts]. destruct Hn as [Hn|Hn]; [by left|right].
    cbn. by rewrite E5.
  - unfold sends_left, recvs_left in *. cbn. by rewrite E1, E2, E3, E4.
Qed.

End Stuck.

(** C37: generation that reports on no stream never completes.  A round of goodbyes, or
    a round of reports when the limit of streams per packet has sunk to one, which
    happens when a packet with two streams does not fit, does not return success as
    long as the first destination address has a stream: it writes packets until the
    factory, the composer or the writer fails. *)
Theorem rtcp_generation_stuck (host : cpu_endian) {R F W : Type}
    `{IReporter R} `{IPacketFactory F} `{IWriter W}
    (prepare : Packet -> Slice -> nat -> res (bool * Packet * Slice))
    (c : Communicator R) (f : F) (w : W) (r : R) (time : Z) (allow : bool) (fuel : nat)
    (packet_type : PacketType) (status : StatusCode) (g' : GenState) :
  reports_none packet_type c ->
  begin_generation time (c_reporter c) = Ok (StatusOK, r) -> (0 < num_dest_addresses r)%nat ->
  (0 < addr_sends r 0 + addr_recvs r 0)%nat ->
  generate_packets host prepare fuel allow packet_type time (mkGenState c f w) = ret (status, g') ->
  status <> StatusOK.
Proof.
  intros Hn Hbegin Haddr Hstreams. unfold generate_packets, begin_packet_generation. cbn [g_comm].
  rewrite Hbegin. cbn [lift res_bind run_bind ret]. unfold g_set_comm at 1. cbn [g_factory g_writer].
  set (cs := c_set_addr 0 0 (c_set_streams 0 0 0 0 (c_set_reporter r c))).
  destruct (generate_loop host prepare fuel packet_type (mkGenState cs f w)) as [[[st g1]|]|] eqn:E; try done.
  cbn [run_bind].
  assert (st <> StatusOK) as Hst.
  { destruct fuel as [|fuel]; [done|]. cbn [generate_loop g_comm] in E.
    assert (continue_packet_generation cs = (true, at_addr 0 cs)) as Hc.
    { unfold continue_packet_generation, at_addr, addr_sends, addr_recvs. cbn.
      destruct (num_dest_addresses r); [lia|done]. }
    assert (continue_packet_generation (at_addr 0 cs) = (true, at_addr 0 cs)) as Hc'.
    { unfold continue_packet_generation. cbn.
      destruct (Nat.leb_spec (addr_sends r 0) 0), (Nat.leb_spec (addr_recvs r 0) 0); done || lia. }
    apply (loop_stuck host prepare (S fuel) packet_type (mkGenState (at_addr 0 cs) f w) st g1).
    - exact Hn.
    - unfold sends_left, recvs_left. cbn. lia.
    - cbn [generate_loop g_comm]. rewrite Hc'. rewrite Hc in E. exact E. }
  destruct (end_packet_generation (g_comm g1)) as [[st2 c2]|]; [|done]. cbn [lift res_bind run_bind ret].
  intros E2. injection E2 as <- _. by destruct st.
Qed.

(** A factory with a limited number of packets. *)
#[global] Instance limited_factory : IPacketFactory nat := {|
  new_packet n := match n with O => (false, O) | S n => (true, n) end;
  new_packet_buffer n := (Some (replicate 200 0), n)
|}.

(** A round of goodbyes for an address with one receiving stream, and a round of reports
    with a limit of one stream: both write every packet there is and then fail. *)
Lemma rtcp_generation_stuck_witness :
  let c max := c_set_max max (communicator_new (mkBuilderConfig true true true) 1 ([(O, 1%nat)] : fleet)) in
  let run max type := generate_packets CPU_LE rtcp_composer_prepare 10 false type 1
    (mkGenState (c max) 5%nat (mkQueue [])) in
  (exists g, run 31%nat PacketType_Goodbye = ret (StatusNoMem, g) /\ length (queue_list (g_writer g)) = 5%nat)
  /\ (exists g, run 1%nat PacketType_Reports = ret (StatusNoMem, g) /\ length (queue_list (g_writer g)) = 5%nat)
  /\ StatusNoMem <> StatusOK.
Proof.
  cbv zeta. split; [eexists; split; vm_compute; reflexivity|].
  split; [eexists; split; vm_compute; reflexivity|].
  eapply (rtcp_generation_stuck CPU_LE rtcp_composer_prepare
    (communicator_new (mkBuilderConfig true true true) 1 ([(O, 1%nat)] : fleet)) 5%nat (mkQueue [])
    [(O, 1%nat)] 1 false 10 PacketType_Goodbye StatusNoMem);
    [left; reflexivity|reflexivity|vm_compute; lia|vm_compute; lia|vm_compute; reflexivity].
Defined.
