(* ===== verification/RtcpReporter.v ===== *)
(** The RTCP reporter (src/internal_modules/roc_rtcp/reporter.cpp): what the communicator
    tells about received reports and asks for when it generates reports is kept here, in
    one object per remote participant (stream) and one per destination address.

    Streams and addresses are objects in a store: a pointer to one is a number, and reading
    through a pointer to an object that was removed is [Panic].  A pointer into the array
    of local receiver reports is an index with the number of times the array was resized
    when the pointer was taken; reading through it after another resize is [Panic].  The
    hash maps are the lists of their elements in the order of iteration, which is the order
    of insertion (as HashmapRefines.v shows of core::Hashmap); the lists ordered by
    time are lists, and as in list_impl.cpp removing an object that is not in the list or
    inserting one that is already panics.  A socket address is a number, [None] being the
    empty address.  A CNAME is a string without its terminating zero.

    Every allocation, and every operation that may have to allocate, succeeds or fails as a
    parameter says.  What it says of the insertion into a hash map is also whether the map
    has to grow while its last rehashing has stalled: then core::Hashmap panics.  Whether it
    stalls depends on buckets and hashes, which lists do not have; HashmapRefines.v shows
    that it only does after the removal of the last element that was still to be moved. *)

From stdpp Require Import gmap.
From Stdlib Require Import QArith.
From S2P Require Import Prelude Bytes Ntp Float32 Io RtcpNtp RtcpHeaders RtcpTraverser.
From S2P Require Import RtcpBuilder RtcpCommunicator RtcpEstimators.

#[local] Open Scope Z_scope.

(** * Reports *)

(** The strings are [const char*]. *)
Module SendReport.

Record t : Type := mk {
  sender_cname : option bytes;
  sender_source_id : Z;
  report_timestamp : Z;
  stream_timestamp : Z;
  sample_rate : Z;
  packet_count : Z;
  byte_count : Z;
  clock_offset : Z;
  rtt : Z
}.

Definition make : t := mk None 0 0 0 0 0 0 0 0.

End SendReport.

Module RecvReport.

Record t : Type := mk {
  receiver_cname : option bytes;
  receiver_source_id : Z;
  sender_source_id : Z;
  report_timestamp : Z;
  sample_rate : Z;
  ext_first_seqnum : Z;
  ext_last_seqnum : Z;
  packet_count : Z;
  cum_loss : Z;
  jitter : Z;
  niq_latency : Z;
  niq_stalling : Z;
  e2e_latency : Z;
  clock_offset : Z;
  rtt : Z
}.

Definition make : t := mk None 0 0 0 0 0 0 0 0 0 0 0 0 0 0.

(** Assignments. *)
Definition set_origin cn rs ss r :=
  mk cn rs ss (report_timestamp r) (sample_rate r) (ext_first_seqnum r) (ext_last_seqnum r)
    (packet_count r) (cum_loss r) (jitter r) (niq_latency r) (niq_stalling r) (e2e_latency r)
    (clock_offset r) (rtt r).

Definition set_sender ss r := set_origin (receiver_cname r) (receiver_source_id r) ss r.

Definition set_block loss last jit r :=
  mk (receiver_cname r) (receiver_source_id r) (sender_source_id r) (report_timestamp r)
    (sample_rate r) (ext_first_seqnum r) last (packet_count r) loss jit (niq_latency r)
    (niq_stalling r) (e2e_latency r) (clock_offset r) (rtt r).

Definition set_timestamp ts r :=
  mk (receiver_cname r) (receiver_source_id r) (sender_source_id r) ts (sample_rate r)
    (ext_first_seqnum r) (ext_last_seqnum r) (packet_count r) (cum_loss r) (jitter r)
    (niq_latency r) (niq_stalling r) (e2e_latency r) (clock_offset r) (rtt r).

Definition set_count first cnt r :=
  mk (receiver_cname r) (receiver_source_id r) (sender_source_id r) (report_timestamp r)
    (sample_rate r) first (ext_last_seqnum r) cnt (cum_loss r) (jitter r) (niq_latency r)
    (niq_stalling r) (e2e_latency r) (clock_offset r) (rtt r).

Definition set_latency lat stall e2e r :=
  mk (receiver_cname r) (receiver_source_id r) (sender_source_id r) (report_timestamp r)
    (sample_rate r) (ext_first_seqnum r) (ext_last_seqnum r) (packet_count r) (cum_loss r)
    (jitter r) lat stall e2e (clock_offset r) (rtt r).

Definition set_rtt (m : RttEstimator.RttMetrics) r :=
  mk (receiver_cname r) (receiver_source_id r) (sender_source_id r) (report_timestamp r)
    (sample_rate r) (ext_first_seqnum r) (ext_last_seqnum r) (packet_count r) (cum_loss r)
    (jitter r) (niq_latency r) (niq_stalling r) (e2e_latency r)
    (RttEstimator.clock_offset m) (RttEstimator.rtt m).

End RecvReport.

(** * Participant *)

Inductive ParticipantReportMode : Type := Report_ToAddress | Report_Back.

#[global] Instance ParticipantReportMode_eq_dec : EqDecision ParticipantReportMode.
Proof. solve_decision. Defined.

Record ParticipantInfo : Type := mkParticipantInfo {
  info_cname : option bytes;
  info_source_id : Z;
  info_report_mode : ParticipantReportMode;
  info_report_address : option Z
}.

(** The pipeline that the reporter works for.  [query_recv_streams] is given the buffer
    that it fills. *)
Class IParticipant (P : Type) : Type := {
  participant_info : P -> ParticipantInfo;
  change_source_id : P -> P;
  has_send_stream : P -> bool;
  query_send_stream : Z -> P -> SendReport.t * P;
  notify_send_stream : Z -> RecvReport.t -> P -> StatusCode * P;
  num_recv_streams : P -> nat;
  query_recv_streams : list RecvReport.t -> Z -> P -> list RecvReport.t * P;
  notify_recv_stream : Z -> SendReport.t -> P -> StatusCode * P;
  halt_recv_stream : Z -> P -> P
}.

(** * Streams, addresses and the state of the reporter *)

Module Reporter.

Definition MaxCnameLen : nat := MaxTextLen.

(** The members of [Stream] about our sending to the participant and its receiver reports. *)
Record SendSide : Type := mkSendSide {
  has_remote_recv_report : bool;
  remote_recv_report : RecvReport.t;
  remote_recv_rtt : RttEstimator.t;
  remote_recv_packet_count : PacketCounter.t;
  last_local_sr : Z;
  last_remote_rr : Z;
  last_remote_rr_ntp : Z;
  last_remote_dlsr : Z
}.

(** The members of [Stream] about our receiving from the participant. *)
Record RecvSide : Type := mkRecvSide {
  has_remote_send_report : bool;
  remote_send_report : SendReport.t;
  remote_send_rtt : RttEstimator.t;
  remote_send_packet_count : PacketCounter.t;
  remote_send_byte_count : PacketCounter.t;
  last_local_rr : Z;
  last_remote_sr : Z;
  last_remote_sr_ntp : Z;
  last_remote_dlrr : Z
}.

Record Stream : Type := mkStream {
  source_id : Z;
  cname : bytes;
  send_side : SendSide;
  recv_side : RecvSide;
  local_recv_report : option (nat * nat);
  local_recv_loss : LossEstimator.t;
  remote_address : option Z;
  last_update : Z;
  is_looped : bool
}.

Definition new_stream (source_id report_time : Z) : Stream :=
  mkStream source_id []
    (mkSendSide false RecvReport.make RttEstimator.make PacketCounter.make 0 0 0 0)
    (mkRecvSide false SendReport.make RttEstimator.make PacketCounter.make PacketCounter.make
       0 0 0 0)
    None LossEstimator.make None report_time false.

(** [dest_address] is [remote_address]. *)
Record Address : Type := mkAddress {
  dest_address : option Z;
  send_stream_index : list nat;
  recv_stream_index : list nat;
  last_rebuild : Z
}.

Definition new_address (addr : option Z) (report_time : Z) : Address :=
  mkAddress addr [] [] report_time.

Inductive ReportState : Type := State_Idle | State_Processing | State_Generating.

#[global] Instance ReportState_eq_dec : EqDecision ReportState.
Proof. solve_decision. Defined.

Inductive CreateMode : Type := AutoCreate | NoAutoCreate.

(** The members of [Reporter], in three groups. *)
Record Local : Type := mkLocal {
  participant_report_mode_ : ParticipantReportMode;
  participant_report_addr_ : option Z;
  local_cname_ : bytes;
  local_source_id_ : Z;
  has_local_send_report_ : bool;
  local_send_report_ : SendReport.t;
  local_recv_reports_ : list RecvReport.t;
  recv_epoch : nat
}.

Record Tables : Type := mkTables {
  streams : gmap nat Stream;
  stream_map_ : list nat;
  stream_lru_ : list nat;
  addresses : gmap nat Address;
  address_map_ : list nat;
  address_lru_ : list nat;
  address_index_ : list nat;
  next_id : nat;
  need_rebuild_index_ : bool
}.

Record Session : Type := mkSession {
  current_sr_ : Z;
  current_rr_ : Z;
  collision_detected_ : bool;
  collision_reported_ : bool;
  report_state_ : ReportState;
  report_error_ : StatusCode;
  report_addr_ : option Z;
  report_time_ : Z
}.

Record t (P : Type) : Type := mk {
  participant_ : P;
  loc : Local;
  tab : Tables;
  ses : Session;
  inactivity_timeout : Z;
  valid_ : bool;
  grants : nat -> grant;
  asked : nat
}.
Arguments mk {P}.
Arguments participant_ {P}.
Arguments loc {P}.
Arguments tab {P}.
Arguments ses {P}.
Arguments inactivity_timeout {P}.
Arguments valid_ {P}.
Arguments grants {P}.
Arguments asked {P}.

(** ** Assignments *)

Definition set_cname x s :=
  mkStream (source_id s) x (send_side s) (recv_side s) (local_recv_report s) (local_recv_loss s)
    (remote_address s) (last_update s) (is_looped s).

Definition set_send_side x s :=
  mkStream (source_id s) (cname s) x (recv_side s) (local_recv_report s) (local_recv_loss s)
    (remote_address s) (last_update s) (is_looped s).

Definition set_recv_side x s :=
  mkStream (source_id s) (cname s) (send_side s) x (local_recv_report s) (local_recv_loss s)
    (remote_address s) (last_update s) (is_looped s).

Definition set_local_recv_report x s :=
  mkStream (source_id s) (cname s) (send_side s) (recv_side s) x (local_recv_loss s)
    (remote_address s) (last_update s) (is_looped s).

Definition set_local_recv_loss x s :=
  mkStream (source_id s) (cname s) (send_side s) (recv_side s) (local_recv_report s) x
    (remote_address s) (last_update s) (is_looped s).

Definition set_remote_address x s :=
  mkStream (source_id s) (cname s) (send_side s) (recv_side s) (local_recv_report s)
    (local_recv_loss s) x (last_update s) (is_looped s).

Definition set_last_update x s :=
  mkStream (source_id s) (cname s) (send_side s) (recv_side s) (local_recv_report s)
    (local_recv_loss s) (remote_address s) x (is_looped s).

Definition set_is_looped x s :=
  mkStream (source_id s) (cname s) (send_side s) (recv_side s) (local_recv_report s)
    (local_recv_loss s) (remote_address s) (last_update s) x.

Definition set_send_stream_index x a :=
  mkAddress (dest_address a) x (recv_stream_index a) (last_rebuild a).

Definition set_recv_stream_index x a :=
  mkAddress (dest_address a) (send_stream_index a) x (last_rebuild a).

Definition set_last_rebuild x a :=
  mkAddress (dest_address a) (send_stream_index a) (recv_stream_index a) x.

Definition set_local_source_id_ x l :=
  mkLocal (participant_report_mode_ l) (participant_report_addr_ l) (local_cname_ l) x
    (has_local_send_report_ l) (local_send_report_ l) (local_recv_reports_ l) (recv_epoch l).

Definition set_has_local_send_report_ x l :=
  mkLocal (participant_report_mode_ l) (participant_report_addr_ l) (local_cname_ l)
    (local_source_id_ l) x (local_send_report_ l) (local_recv_reports_ l) (recv_epoch l).

Definition set_local_send_report_ x l :=
  mkLocal (participant_report_mode_ l) (participant_report_addr_ l) (local_cname_ l)
    (local_source_id_ l) (has_local_send_report_ l) x (local_recv_reports_ l) (recv_epoch l).

Definition set_local_recv_reports_ x l :=
  mkLocal (participant_report_mode_ l) (participant_report_addr_ l) (local_cname_ l)
    (local_source_id_ l) (has_local_send_report_ l) (local_send_report_ l) x (recv_epoch l).

(** The array of reports resized. *)
Definition resize_recv_reports n l :=
  mkLocal (participant_report_mode_ l) (participant_report_addr_ l) (local_cname_ l)
    (local_source_id_ l) (has_local_send_report_ l) (local_send_report_ l)
    (take n (local_recv_reports_ l)
     ++ replicate (n - length (local_recv_reports_ l)) RecvReport.make)
    (S (recv_epoch l)).

Definition set_streams x t :=
  mkTables x (stream_map_ t) (stream_lru_ t) (addresses t) (address_map_ t) (address_lru_ t)
    (address_index_ t) (next_id t) (need_rebuild_index_ t).

Definition set_stream_map_ x t :=
  mkTables (streams t) x (stream_lru_ t) (addresses t) (address_map_ t) (address_lru_ t)
    (address_index_ t) (next_id t) (need_rebuild_index_ t).

Definition set_stream_lru_ x t :=
  mkTables (streams t) (stream_map_ t) x (addresses t) (address_map_ t) (address_lru_ t)
    (address_index_ t) (next_id t) (need_rebuild_index_ t).

Definition set_addresses x t :=
  mkTables (streams t) (stream_map_ t) (stream_lru_ t) x (address_map_ t) (address_lru_ t)
    (address_index_ t) (next_id t) (need_rebuild_index_ t).

Definition set_address_map_ x t :=
  mkTables (streams t) (stream_map_ t) (stream_lru_ t) (addresses t) x (address_lru_ t)
    (address_index_ t) (next_id t) (need_rebuild_index_ t).

Definition set_address_lru_ x t :=
  mkTables (streams t) (stream_map_ t) (stream_lru_ t) (addresses t) (address_map_ t) x
    (address_index_ t) (next_id t) (need_rebuild_index_ t).

Definition set_address_index_ x t :=
  mkTables (streams t) (stream_map_ t) (stream_lru_ t) (addresses t) (address_map_ t)
    (address_lru_ t) x (next_id t) (need_rebuild_index_ t).

Definition set_next_id x t :=
  mkTables (streams t) (stream_map_ t) (stream_lru_ t) (addresses t) (address_map_ t)
    (address_lru_ t) (address_index_ t) x (need_rebuild_index_ t).

Definition set_need_rebuild_index_ x t :=
  mkTables (streams t) (stream_map_ t) (stream_lru_ t) (addresses t) (address_map_ t)
    (address_lru_ t) (address_index_ t) (next_id t) x.

Definition set_current_sr_ x s :=
  mkSession x (current_rr_ s) (collision_detected_ s) (collision_reported_ s) (report_state_ s)
    (report_error_ s) (report_addr_ s) (report_time_ s).

Definition set_current_rr_ x s :=
  mkSession (current_sr_ s) x (collision_detected_ s) (collision_reported_ s) (report_state_ s)
    (report_error_ s) (report_addr_ s) (report_time_ s).

Definition set_collision_detected_ x s :=
  mkSession (current_sr_ s) (current_rr_ s) x (collision_reported_ s) (report_state_ s)
    (report_error_ s) (report_addr_ s) (report_time_ s).

Definition set_collision_reported_ x s :=
  mkSession (current_sr_ s) (current_rr_ s) (collision_detected_ s) x (report_state_ s)
    (report_error_ s) (report_addr_ s) (report_time_ s).

Definition set_report_state_ x s :=
  mkSession (current_sr_ s) (current_rr_ s) (collision_detected_ s) (collision_reported_ s) x
    (report_error_ s) (report_addr_ s) (report_time_ s).

Definition set_report_error_ x s :=
  mkSession (current_sr_ s) (current_rr_ s) (collision_detected_ s) (collision_reported_ s)
    (report_state_ s) x (report_addr_ s) (report_time_ s).

Definition set_report_addr_ x s :=
  mkSession (current_sr_ s) (current_rr_ s) (collision_detected_ s) (collision_reported_ s)
    (report_state_ s) (report_error_ s) x (report_time_ s).

Definition set_report_time_ x s :=
  mkSession (current_sr_ s) (current_rr_ s) (collision_detected_ s) (collision_reported_ s)
    (report_state_ s) (report_error_ s) (report_addr_ s) x.


(** * Methods *)

Section Methods.

Context {P : Type} `{IParticipant P} (host : cpu_endian).
(** How many identifiers [resolve_collision_] tries; if all of them are taken, the result
    is [Panic], like that of any other loop of the reporter that does not end. *)
Context (attempts : nat).

(** A method changes the state and may panic. *)
Definition M (A : Type) : Type := t P -> res (A * t P).

#[local] Instance M_ret : MRet M := fun A a r => Ok (a, r).
#[local] Instance M_bind : MBind M := fun A B f m r => let* '(a, r) := m r in f a r.

Definition panics {A} : M A := fun _ => Panic.

Definition panic_when (b : bool) : M () := if b then panics else mret ().

Definition lift_res {A} (x : res A) : M A := fun r => let* a := x in Ok (a, r).

Definition get : M (t P) := fun r => Ok (r, r).

Definition get_loc {A} (f : Local -> A) : M A := fun r => Ok (f (loc r), r).
Definition get_tab {A} (f : Tables -> A) : M A := fun r => Ok (f (tab r), r).
Definition get_ses {A} (f : Session -> A) : M A := fun r => Ok (f (ses r), r).

Definition with_loc (f : Local -> Local) : M () := fun r =>
  Ok ((), mk (participant_ r) (f (loc r)) (tab r) (ses r) (inactivity_timeout r) (valid_ r)
            (grants r) (asked r)).

Definition with_tab (f : Tables -> Tables) : M () := fun r =>
  Ok ((), mk (participant_ r) (loc r) (f (tab r)) (ses r) (inactivity_timeout r) (valid_ r)
            (grants r) (asked r)).

Definition with_ses (f : Session -> Session) : M () := fun r =>
  Ok ((), mk (participant_ r) (loc r) (tab r) (f (ses r)) (inactivity_timeout r) (valid_ r)
            (grants r) (asked r)).

(** A call of the participant. *)
Definition call {A} (f : P -> A * P) : M A := fun r =>
  let '(a, p) := f (participant_ r) in
  Ok (a, mk p (loc r) (tab r) (ses r) (inactivity_timeout r) (valid_ r) (grants r) (asked r)).

Definition call_ (f : P -> P) : M () := call (fun p => ((), f p)).

(** An operation that may have to allocate. *)
Definition ask : M bool := fun r =>
  Ok (is_granted (grants r (asked r)),
      mk (participant_ r) (loc r) (tab r) (ses r) (inactivity_timeout r) (valid_ r)
        (grants r) (S (asked r))).

(** The insertion into a hash map of a key that it does not have: it panics when the map has
    to grow and its last rehashing was left unfinished. *)
Definition ask_insert : M bool := fun r =>
  match grants r (asked r) with
  | Stalled => Panic
  | _ => ask r
  end.

Definition rebuild_needed : M () := with_tab (set_need_rebuild_index_ true).

(** ** The stores and the lists *)

Definition stream_at (i : nat) : M Stream := fun r =>
  match streams (tab r) !! i with Some s => Ok (s, r) | None => Panic end.

Definition upd_stream (i : nat) (f : Stream -> Stream) : M () :=
  s ← stream_at i;
  with_tab (fun tb => set_streams (<[i := f s]> (streams tb)) tb).

Definition address_at (i : nat) : M Address := fun r =>
  match addresses (tab r) !! i with Some a => Ok (a, r) | None => Panic end.

Definition upd_address (i : nat) (f : Address -> Address) : M () :=
  a ← address_at i;
  with_tab (fun tb => set_addresses (<[i := f a]> (addresses tb)) tb).

(** The first element of a map that satisfies [p]. *)
Fixpoint find_id {A} (store : gmap nat A) (p : A -> bool) (ids : list nat) : option nat :=
  match ids with
  | [] => None
  | i :: ids =>
      match store !! i with
      | Some a => if p a then Some i else find_id store p ids
      | None => find_id store p ids
      end
  end.

Definition without (i : nat) (l : list nat) : list nat := filter (fun j => j <> i) l.

Definition remove_id (i : nat) (l : list nat) : res (list nat) :=
  if decide (i ∈ l) then Ok (without i l) else Panic.

Definition push_front_id (i : nat) (l : list nat) : res (list nat) :=
  if decide (i ∈ l) then Panic else Ok (i :: l).

(** ** Streams and addresses *)

Definition no_memory : M () := with_ses (set_report_error_ StatusNoMem).

Definition find_stream_ (source_id : Z) (mode : CreateMode) : M (option nat) :=
  found ← get_tab (fun tb =>
    find_id (streams tb) (fun s => Reporter.source_id s =? source_id) (stream_map_ tb));
  match found, mode with
  | Some i, _ => mret (Some i)
  | None, NoAutoCreate => mret None
  | None, AutoCreate =>
      (** [new (stream_pool_) Stream] *)
      ok ← ask;
      if negb ok then no_memory;; mret None
      else
        (** [stream_map_.insert] *)
        ok ← ask_insert;
        if negb ok then no_memory;; mret None
        else
          i ← get_tab next_id;
          time ← get_ses report_time_;
          with_tab (fun tb =>
            set_next_id (S i)
              (set_streams (<[i := new_stream source_id time]> (streams tb))
                 (set_stream_map_ (stream_map_ tb ++ [i]) tb)));;
          lru ← get_tab stream_lru_;
          lru ← lift_res (push_front_id i lru);
          with_tab (set_stream_lru_ lru);;
          rebuild_needed;;
          mret (Some i)
  end.

(** The object is destroyed when the map drops it. *)
Definition remove_stream_ (i : nat) : M () :=
  lru ← get_tab stream_lru_;
  lru ← lift_res (remove_id i lru);
  with_tab (set_stream_lru_ lru);;
  ids ← get_tab stream_map_;
  ids ← lift_res (remove_id i ids);
  with_tab (fun tb => set_stream_map_ ids (set_streams (delete i (streams tb)) tb));;
  rebuild_needed.

Definition update_stream_ (i : nat) : M () :=
  s ← stream_at i;
  time ← get_ses report_time_;
  if last_update s =? time then mret ()
  else
    upd_stream i (set_last_update time);;
    lru ← get_tab stream_lru_;
    lru ← lift_res (remove_id i lru);
    lru ← lift_res (push_front_id i lru);
    with_tab (set_stream_lru_ lru).

Definition find_address_ (remote_address : option Z) (mode : CreateMode) : M (option nat) :=
  found ← get_tab (fun tb =>
    find_id (addresses tb) (fun a => bool_decide (dest_address a = remote_address))
      (address_map_ tb));
  match found, mode with
  | Some i, _ => mret (Some i)
  | None, NoAutoCreate => mret None
  | None, AutoCreate =>
      ok ← ask;
      if negb ok then no_memory;; mret None
      else
        ok ← ask_insert;
        if negb ok then no_memory;; mret None
        else
          i ← get_tab next_id;
          time ← get_ses report_time_;
          with_tab (fun tb =>
            set_next_id (S i)
              (set_addresses (<[i := new_address remote_address time]> (addresses tb))
                 (set_address_map_ (address_map_ tb ++ [i]) tb)));;
          lru ← get_tab address_lru_;
          lru ← lift_res (push_front_id i lru);
          with_tab (set_address_lru_ lru);;
          mret (Some i)
  end.

Definition remove_address_ (i : nat) : M () :=
  lru ← get_tab address_lru_;
  lru ← lift_res (remove_id i lru);
  with_tab (set_address_lru_ lru);;
  ids ← get_tab address_map_;
  ids ← lift_res (remove_id i ids);
  with_tab (fun tb => set_address_map_ ids (set_addresses (delete i (addresses tb)) tb)).

Definition rebuild_address_ (i : nat) : M () :=
  a ← address_at i;
  time ← get_ses report_time_;
  if last_rebuild a =? time then mret ()
  else
    upd_address i (set_last_rebuild time);;
    lru ← get_tab address_lru_;
    lru ← lift_res (remove_id i lru);
    lru ← lift_res (push_front_id i lru);
    with_tab (set_address_lru_ lru);;
    upd_address i (fun a => set_recv_stream_index [] (set_send_stream_index [] a)).

(** ** Collisions *)

Definition is_idle (st : ReportState) : bool := bool_decide (st = State_Idle).
Definition is_processing (st : ReportState) : bool := bool_decide (st = State_Processing).
Definition is_generating (st : ReportState) : bool := bool_decide (st = State_Generating).

(** The call order checks. *)
Definition expect (p : ReportState -> bool) : M () :=
  st ← get_ses report_state_;
  panic_when (negb (p st)).

Definition collision : M () :=
  with_ses (fun s => set_collision_reported_ false (set_collision_detected_ true s)).

Definition detect_collision_ (source_id : Z) : M () :=
  detected ← get_ses collision_detected_;
  if (detected : bool) then mret ()
  else
    local ← get_loc local_source_id_;
    if negb (source_id =? local) then mret ()
    else
      found ← find_stream_ source_id NoAutoCreate;
      match found with
      | Some i =>
          s ← stream_at i;
          if is_looped s then mret ()
          else
            cn ← get_loc local_cname_;
            if bool_decide (cname s = cn) then upd_stream i (set_is_looped true)
            else collision
      | None => collision
      end.

(** [for (;;)]: a new SSRC that no stream has. *)
Fixpoint change_source (n : nat) : M () :=
  match n with
  | O => panics
  | S n =>
      call_ change_source_id;;
      r ← get;
      let id := info_source_id (participant_info (participant_ r)) in
      with_loc (set_local_source_id_ id);;
      found ← find_stream_ id NoAutoCreate;
      match found with Some _ => change_source n | None => mret () end
  end.

Definition set_send_report (f : RecvReport.t -> RecvReport.t) (s : SendSide) : SendSide :=
  mkSendSide (has_remote_recv_report s) (f (remote_recv_report s)) (remote_recv_rtt s)
    (remote_recv_packet_count s) (last_local_sr s) (last_remote_rr s) (last_remote_rr_ntp s)
    (last_remote_dlsr s).

Fixpoint update_sender_ids (id : Z) (ids : list nat) : M () :=
  match ids with
  | [] => mret ()
  | i :: ids =>
      s ← stream_at i;
      (if has_remote_recv_report (send_side s)
       then upd_stream i (set_send_side
              (set_send_report (RecvReport.set_sender id) (send_side s)))
       else mret ());;
      update_sender_ids id ids
  end.

Definition resolve_collision_ : M () :=
  detected ← get_ses collision_detected_;
  if negb detected then mret ()
  else
    reported ← get_ses collision_reported_;
    panic_when (negb reported);;
    change_source attempts;;
    id ← get_loc local_source_id_;
    ids ← get_tab stream_map_;
    update_sender_ids id ids;;
    with_ses (fun s => set_collision_reported_ false (set_collision_detected_ false s)).

(** ** Timeouts *)

(** An iteration that changes nothing is repeated for ever; any other one removes a stream
    or marks it as updated, so twice the number of streams bounds the number of
    iterations of a loop that ends. *)
Fixpoint timeouts (n : nat) (deadline : Z) : M () :=
  lru ← get_tab stream_lru_;
  match last lru with
  | None => mret ()
  | Some i =>
      s ← stream_at i;
      if deadline <? last_update s then mret ()
      else
        match n with
        | O => panics
        | S n =>
            (if negb (has_remote_recv_report (send_side s))
                && negb (has_remote_send_report (recv_side s))
             then update_stream_ i
             else call_ (halt_recv_stream (source_id s));; remove_stream_ i);;
            timeouts n deadline
        end
  end.

Definition detect_timeouts_ : M () :=
  r ← get;
  let deadline := s64 (report_time_ (ses r) - inactivity_timeout r) in
  timeouts (2 * length (stream_lru_ (tab r))) deadline.

(** ** Reports of the participant *)

Definition validate_send_report_ (report : SendReport.t) : M () :=
  id ← get_loc local_source_id_;
  cn ← get_loc local_cname_;
  time ← get_ses report_time_;
  panic_when (negb (SendReport.sender_source_id report =? id));;
  panic_when (negb (bool_decide (SendReport.sender_cname report = Some cn)));;
  panic_when (negb (SendReport.report_timestamp report =? time));;
  panic_when (SendReport.sample_rate report =? 0);;
  panic_when (negb (SendReport.clock_offset report =? 0) || negb (SendReport.rtt report =? 0)).

Definition validate_recv_report_ (report : RecvReport.t) : M () :=
  id ← get_loc local_source_id_;
  time ← get_ses report_time_;
  panic_when (negb (RecvReport.receiver_source_id report =? id));;
  panic_when (negb (RecvReport.report_timestamp report =? time));;
  panic_when (RecvReport.sample_rate report =? 0);;
  panic_when (negb (RecvReport.clock_offset report =? 0) || negb (RecvReport.rtt report =? 0)).

(** The loop over the reports. *)
Fixpoint check_recv_reports (reports : list RecvReport.t) : M () :=
  match reports with
  | [] => mret ()
  | report :: reports =>
      validate_recv_report_ report;;
      need ← get_tab need_rebuild_index_;
      (if (need : bool) then mret ()
       else
         found ← find_stream_ (RecvReport.sender_source_id report) NoAutoCreate;
         match found with
         | None => rebuild_needed
         | Some i =>
             s ← stream_at i;
             if negb (source_id s =? RecvReport.sender_source_id report) then rebuild_needed
             else mret ()
         end);;
      check_recv_reports reports
  end.

Definition query_streams_ : M StatusCode :=
  r ← get;
  time ← get_ses report_time_;
  (if has_send_stream (participant_ r) then
     report ← call (query_send_stream time);
     with_loc (fun l => set_has_local_send_report_ true (set_local_send_report_ report l));;
     validate_send_report_ report
   else with_loc (set_has_local_send_report_ false));;
  r ← get;
  let recv_count := num_recv_streams (participant_ r) in
  size ← get_loc (fun l => length (local_recv_reports_ l));
  ok ← (if (size =? recv_count)%nat then mret true
        else
          ok ← ask;
          if negb ok then mret false
          else
            with_loc (resize_recv_reports recv_count);;
            rebuild_needed;;
            mret true);
  if negb ok then mret StatusNoMem
  else if (recv_count =? 0)%nat then mret StatusOK
  else
    buffer ← get_loc local_recv_reports_;
    reports ← call (query_recv_streams buffer time);
    panic_when (negb (length reports =? length buffer)%nat);;
    with_loc (set_local_recv_reports_ reports);;
    check_recv_reports reports;;
    mret StatusOK.

(** ** The index *)

(** Address to which the reports for a stream go. *)
Definition report_address (s : Stream) : M (option Z) :=
  mode ← get_loc participant_report_mode_;
  addr ← get_loc participant_report_addr_;
  mret (match mode with Report_ToAddress => addr | Report_Back => remote_address s end).

(** Appending a stream to one of the arrays of an address; [false] if there is no
    memory. *)
Definition push_send_stream (i a : nat) : M bool :=
  ok ← ask;
  if negb ok then mret false
  else
    upd_address a (fun addr => set_send_stream_index (send_stream_index addr ++ [i]) addr);;
    mret true.

Definition push_recv_stream (i a : nat) : M bool :=
  ok ← ask;
  if negb ok then mret false
  else
    upd_address a (fun addr => set_recv_stream_index (recv_stream_index addr ++ [i]) addr);;
    mret true.

(** The loop over [stream_map_]. *)
Fixpoint rebuild_send_streams (ids : list nat) : M StatusCode :=
  match ids with
  | [] => mret StatusOK
  | i :: ids =>
      s ← stream_at i;
      if is_looped s then rebuild_send_streams ids
      else if negb (has_remote_recv_report (send_side s))
              || (RecvReport.report_timestamp (remote_recv_report (send_side s)) =? 0)
      then rebuild_send_streams ids
      else
        addr ← report_address s;
        found ← find_address_ addr AutoCreate;
        match found with
        | None => mret StatusNoMem
        | Some a =>
            rebuild_address_ a;;
            ok ← push_send_stream i a;
            if negb ok then mret StatusNoMem else rebuild_send_streams ids
        end
  end.

Definition rebuild_sending : M StatusCode :=
  has ← get_loc has_local_send_report_;
  if negb has then mret StatusOK
  else
    mode ← get_loc participant_report_mode_;
    ok ← (match mode with
          | Report_ToAddress =>
              addr ← get_loc participant_report_addr_;
              found ← find_address_ addr AutoCreate;
              match found with
              | None => mret false
              | Some a => rebuild_address_ a;; mret true
              end
          | Report_Back => mret true
          end);
    if negb ok then mret StatusNoMem
    else
      ids ← get_tab stream_map_;
      rebuild_send_streams ids.

(** The loop over [local_recv_reports_], from the index [idx] on. *)
Fixpoint rebuild_receiving (idx : nat) (reports : list RecvReport.t) : M StatusCode :=
  match reports with
  | [] => mret StatusOK
  | report :: reports =>
      found ← find_stream_ (RecvReport.sender_source_id report) AutoCreate;
      match found with
      | None => mret StatusNoMem
      | Some i =>
          s ← stream_at i;
          mode ← get_loc participant_report_mode_;
          if is_looped s then rebuild_receiving (S idx) reports
          else if bool_decide (mode = Report_Back)
                  && (negb (has_remote_send_report (recv_side s))
                      || (SendReport.report_timestamp (remote_send_report (recv_side s)) =? 0))
          then rebuild_receiving (S idx) reports
          else
            addr ← report_address s;
            found ← find_address_ addr AutoCreate;
            match found with
            | None => mret StatusNoMem
            | Some a =>
                rebuild_address_ a;;
                ok ← push_recv_stream i a;
                if negb ok then mret StatusNoMem
                else
                  epoch ← get_loc recv_epoch;
                  upd_stream i (set_local_recv_report (Some (epoch, idx)));;
                  rebuild_receiving (S idx) reports
            end
      end
  end.

(** [while (Address* address = address_lru_.back())]: every iteration removes an address. *)
Fixpoint prune_addresses (n : nat) : M () :=
  lru ← get_tab address_lru_;
  match n, last lru with
  | S n, Some a =>
      addr ← address_at a;
      time ← get_ses report_time_;
      if last_rebuild addr =? time then mret ()
      else remove_address_ a;; prune_addresses n
  | _, _ => mret ()
  end.

Fixpoint fill_address_index (ids : list nat) : M StatusCode :=
  match ids with
  | [] => mret StatusOK
  | a :: ids =>
      ok ← ask;
      if negb ok then mret StatusNoMem
      else
        with_tab (fun tb => set_address_index_ (address_index_ tb ++ [a]) tb);;
        fill_address_index ids
  end.

(** The next step, unless the previous one failed. *)
Definition and_then (x : M StatusCode) (y : M StatusCode) : M StatusCode :=
  status ← x;
  match status with StatusOK => y | _ => mret status end.

Definition rebuild_index_ : M StatusCode :=
  need ← get_tab need_rebuild_index_;
  panic_when (negb need);;
  with_tab (set_address_index_ []);;
  and_then rebuild_sending
    (reports ← get_loc local_recv_reports_;
     and_then (rebuild_receiving 0 reports)
       (lru ← get_tab address_lru_;
        prune_addresses (length lru);;
        (** [address_index_.grow_exp] *)
        ok ← ask;
        if negb ok then mret StatusNoMem
        else
          ids ← get_tab address_map_;
          fill_address_index ids)).

Definition refresh_streams_ : M StatusCode :=
  and_then query_streams_
    (need ← get_tab need_rebuild_index_;
     if negb need then mret StatusOK
     else
       and_then rebuild_index_
         (with_tab (set_need_rebuild_index_ false);; mret StatusOK)).

(** ** Notifications *)

(** The CNAME of a report about a remote stream is a pointer to that of the stream. *)
Definition deref_send_report (s : Stream) : SendReport.t :=
  let r := remote_send_report (recv_side s) in
  SendReport.mk (if SendReport.sender_cname r then Some (cname s) else None)
    (SendReport.sender_source_id r) (SendReport.report_timestamp r)
    (SendReport.stream_timestamp r) (SendReport.sample_rate r) (SendReport.packet_count r)
    (SendReport.byte_count r) (SendReport.clock_offset r) (SendReport.rtt r).

Definition deref_recv_report (s : Stream) : RecvReport.t :=
  let r := remote_recv_report (send_side s) in
  RecvReport.set_origin (if RecvReport.receiver_cname r then Some (cname s) else None)
    (RecvReport.receiver_source_id r) (RecvReport.sender_source_id r) r.

(** The loop from the front of [stream_lru_]. *)
Fixpoint notify_from (is_sending : bool) (lru : list nat) : M StatusCode :=
  match lru with
  | [] => mret StatusOK
  | i :: lru =>
      s ← stream_at i;
      time ← get_ses report_time_;
      if negb (last_update s =? time) then mret StatusOK
      else if is_looped s then notify_from is_sending lru
      else
        and_then
          (if has_remote_recv_report (send_side s) && is_sending
           then call (notify_send_stream (source_id s) (deref_recv_report s))
           else mret StatusOK)
          (and_then
             (if has_remote_send_report (recv_side s)
              then call (notify_recv_stream (source_id s) (deref_send_report s))
              else mret StatusOK)
             (notify_from is_sending lru))
  end.

Definition notify_streams_ : M StatusCode :=
  time ← get_ses report_time_;
  if time =? 0 then mret StatusOK
  else
    r ← get;
    let is_sending := has_send_stream (participant_ r) in
    lru ← get_tab stream_lru_;
    notify_from is_sending lru.

(** ** Processing *)

Definition check_valid : M () := r ← get; panic_when (negb (valid_ r)).

(** Report timestamps differ from the previous one. *)
Definition set_time (report_time : Z) : M () :=
  with_ses (fun s =>
    set_report_time_ (if negb (report_time =? report_time_ s) then report_time
                      else s64 (report_time + 1)) s).

(** [State_Idle] again if the streams could not be refreshed. *)
Definition begin_refresh : M StatusCode :=
  status ← refresh_streams_;
  match status with
  | StatusOK => mret StatusOK
  | _ => with_ses (set_report_state_ State_Idle);; mret status
  end.

Definition begin_processing (report_addr : option Z) (report_time : Z) : M StatusCode :=
  check_valid;;
  expect is_idle;;
  panic_when (report_time <=? 0);;
  with_ses (fun s =>
    set_report_addr_ report_addr
      (set_report_error_ StatusOK (set_report_state_ State_Processing s)));;
  set_time report_time;;
  begin_refresh.

(** [strcpy] into the array of [MaxCnameLen + 1] characters. *)
Definition copy_cname (i : nat) (text : bytes) : M () :=
  panic_when (MaxCnameLen <? length text)%nat;;
  upd_stream i (set_cname text).

Definition process_cname (ssrc : Z) (text : bytes) : M () :=
  expect is_processing;;
  if bool_decide (text = []) then mret ()
  else
    found ← find_stream_ ssrc AutoCreate;
    match found with
    | None => mret ()
    | Some i =>
        s ← stream_at i;
        if bool_decide (cname s = text) then mret ()
        else
          found ← (if bool_decide (cname s = []) then mret (Some i)
                   else
                     call_ (halt_recv_stream (source_id s));;
                     remove_stream_ i;;
                     find_stream_ ssrc AutoCreate);
          match found with
          | None => mret ()
          | Some i =>
              copy_cname i text;;
              rebuild_needed;;
              detect_collision_ ssrc;;
              update_stream_ i
          end
    end.

(** A report about a stream came from [report_addr_]. *)
Definition update_address (i : nat) : M () :=
  s ← stream_at i;
  addr ← get_ses report_addr_;
  if bool_decide (remote_address s = addr) then mret ()
  else upd_stream i (set_remote_address addr);; rebuild_needed.

Definition sr_recv_side (sr : bytes) (time : Z) (s : Stream) : RecvSide :=
  let v := recv_side s in
  let r := remote_send_report v in
  let '(packets, packet_counter) :=
    PacketCounter.update 0 (sr_packet_count host sr 0) (remote_send_packet_count v) in
  let '(octets, byte_counter) :=
    PacketCounter.update 0 (sr_byte_count host sr 0) (remote_send_byte_count v) in
  mkRecvSide true
    (SendReport.mk (Some (cname s)) (source_id s) (ntp_2_unix (sr_ntp_timestamp host sr 0))
       (sr_rtp_timestamp host sr 0) (SendReport.sample_rate r) packets octets
       (SendReport.clock_offset r) (SendReport.rtt r))
    (remote_send_rtt v) packet_counter byte_counter (last_local_rr v)
    time (sr_ntp_timestamp host sr 0) (last_remote_dlrr v).

Definition process_sr (sr : bytes) : M () :=
  expect is_processing;;
  let send_source_id := sr_ssrc host sr 0 in
  detect_collision_ send_source_id;;
  found ← find_stream_ send_source_id AutoCreate;
  match found with
  | None => mret ()
  | Some i =>
      s ← stream_at i;
      time ← get_ses report_time_;
      (if has_remote_send_report (recv_side s) then mret () else rebuild_needed);;
      upd_stream i (set_recv_side (sr_recv_side sr time s));;
      update_address i;;
      update_stream_ i
  end.

Definition blk_send_side (blk : bytes) (local_id jitter : Z) (sr_time : option (Z * Z)) (s : Stream)
  : SendSide :=
  let v := send_side s in
  mkSendSide true
    (RecvReport.set_block (rrb_cum_loss host blk 0) (rrb_last_seqnum host blk 0) jitter
       (RecvReport.set_origin (Some (cname s)) (source_id s) local_id (remote_recv_report v)))
    (remote_recv_rtt v) (remote_recv_packet_count v)
    (match sr_time with Some (last_sr, _) => last_sr | None => last_local_sr v end)
    (last_remote_rr v) (last_remote_rr_ntp v)
    (match sr_time with Some (_, dlsr) => dlsr | None => last_remote_dlsr v end).

(** The time [value] of a report block, near [current]; [None] if we sent no report. *)
Definition extend_time (current value : Z) : res (option Z) :=
  if current =? 0 then Ok None
  else
    let* base := unix_2_ntp current in
    let* ntp := ntp_extend base value in
    Ok (Some (ntp_2_unix ntp)).

Definition process_reception_block (ssrc : Z) (blk : bytes) : M () :=
  expect is_processing;;
  let send_source_id := rrb_ssrc host blk 0 in
  let recv_source_id := ssrc in
  detect_collision_ recv_source_id;;
  has ← get_loc has_local_send_report_;
  local ← get_loc local_source_id_;
  if negb has || negb (send_source_id =? local) then mret ()
  else
    found ← find_stream_ recv_source_id AutoCreate;
    match found with
    | None => mret ()
    | Some i =>
        s ← stream_at i;
        (if has_remote_recv_report (send_side s) then mret () else rebuild_needed);;
        rate ← get_loc (fun l => SendReport.sample_rate (local_send_report_ l));
        jitter ← lift_res (stream_timestamp_2_ns (rrb_jitter host blk 0) rate);
        current_sr ← get_ses current_sr_;
        last_sr ← lift_res (extend_time current_sr (rrb_last_sr host blk 0));
        let dlsr := ntp_2_nanoseconds (rrb_delay_last_sr host blk 0) in
        upd_stream i (set_send_side
          (blk_send_side blk local jitter ((fun x => (x, dlsr)) <$> last_sr) s));;
        update_address i;;
        update_stream_ i
    end.

(** The RTT estimate of the stream and the report that shows it. *)
Definition dlrr_recv_side (rr_time : option Z) (dlrr : Z) (s : Stream) : RecvSide :=
  let v := recv_side s in
  let r := remote_send_report v in
  let last_local_rr' := default (last_local_rr v) rr_time in
  let last_remote_dlrr' := match rr_time with Some _ => dlrr | None => last_remote_dlrr v end in
  let '(report, rtt) :=
    if negb (last_local_rr' =? 0) && negb (last_remote_sr v =? 0) then
      let rtt := RttEstimator.update last_local_rr'
                   (s64 (SendReport.report_timestamp r - last_remote_dlrr'))
                   (SendReport.report_timestamp r) (last_remote_sr v) (remote_send_rtt v) in
      let m := RttEstimator.metrics_ rtt in
      (if RttEstimator.has_metrics_ rtt
       then SendReport.mk (SendReport.sender_cname r) (SendReport.sender_source_id r)
              (SendReport.report_timestamp r) (SendReport.stream_timestamp r)
              (SendReport.sample_rate r) (SendReport.packet_count r) (SendReport.byte_count r)
              (RttEstimator.clock_offset m) (RttEstimator.rtt m)
       else r, rtt)
    else (r, remote_send_rtt v) in
  mkRecvSide (has_remote_send_report v) report rtt (remote_send_packet_count v)
    (remote_send_byte_count v) last_local_rr' (last_remote_sr v) (last_remote_sr_ntp v)
    last_remote_dlrr'.

Definition process_dlrr_subblock (xr blk : bytes) : M () :=
  expect is_processing;;
  let send_source_id := xr_ssrc host xr 0 in
  let recv_source_id := dls_ssrc host blk 0 in
  detect_collision_ send_source_id;;
  local ← get_loc local_source_id_;
  if negb (recv_source_id =? local) then mret ()
  else
    found ← find_stream_ send_source_id NoAutoCreate;
    match found with
    | None => mret ()
    | Some i =>
        s ← stream_at i;
        if negb (has_remote_send_report (recv_side s)) then mret ()
        else
          current_rr ← get_ses current_rr_;
          last_rr ← lift_res (extend_time current_rr (dls_last_rr host blk 0));
          let dlrr := ntp_2_nanoseconds (dls_delay_last_rr host blk 0) in
          upd_stream i (set_recv_side (dlrr_recv_side last_rr dlrr s));;
          update_stream_ i
    end.

Definition rrtr_send_side (ntp time : Z) (s : Stream) : SendSide :=
  let v := send_side s in
  let r := RecvReport.set_timestamp (ntp_2_unix ntp) (remote_recv_report v) in
  let '(report, rtt) :=
    if negb (last_local_sr v =? 0) && negb (time =? 0) then
      let rtt := RttEstimator.update (last_local_sr v)
                   (s64 (RecvReport.report_timestamp r - last_remote_dlsr v))
                   (RecvReport.report_timestamp r) time (remote_recv_rtt v) in
      (if RttEstimator.has_metrics_ rtt
       then RecvReport.set_rtt (RttEstimator.metrics_ rtt) r else r, rtt)
    else (r, remote_recv_rtt v) in
  mkSendSide (has_remote_recv_report v) report rtt (remote_recv_packet_count v)
    (last_local_sr v) time ntp (last_remote_dlsr v).

(** The blocks of a receiver's XR are for a stream that its report block has matched. *)
Definition update_matched (recv_source_id : Z) (f : Stream -> Stream) : M () :=
  found ← find_stream_ recv_source_id NoAutoCreate;
  match found with
  | None => mret ()
  | Some i =>
      s ← stream_at i;
      if negb (has_remote_recv_report (send_side s)) then mret ()
      else
        upd_stream i f;;
        update_stream_ i
  end.

Definition process_rrtr_block (xr blk : bytes) : M () :=
  expect is_processing;;
  let recv_source_id := xr_ssrc host xr 0 in
  detect_collision_ recv_source_id;;
  time ← get_ses report_time_;
  update_matched recv_source_id
    (fun s => set_send_side (rrtr_send_side (rrtr_ntp_timestamp host blk 0) time s) s).

(** A block that names our SSRC as the sender. *)
Definition process_metrics (recv_source_id send_source_id : Z) (f : Stream -> Stream) : M () :=
  expect is_processing;;
  detect_collision_ recv_source_id;;
  local ← get_loc local_source_id_;
  if negb (send_source_id =? local) then mret ()
  else update_matched recv_source_id f.

Definition measurement_send_side (first_seq : Z) (s : Stream) : SendSide :=
  let v := send_side s in
  let r := remote_recv_report v in
  let '(count, counter) :=
    PacketCounter.update first_seq (u32 (RecvReport.ext_last_seqnum r + 1))
      (remote_recv_packet_count v) in
  mkSendSide (has_remote_recv_report v) (RecvReport.set_count first_seq count r)
    (remote_recv_rtt v) counter (last_local_sr v) (last_remote_rr v) (last_remote_rr_ntp v)
    (last_remote_dlsr v).

Definition process_measurement_info_block (xr blk : bytes) : M () :=
  process_metrics (xr_ssrc host xr 0) (mi_ssrc host blk 0)
    (fun s => set_send_side (measurement_send_side (mi_first_seq host blk 0) s) s).

Definition process_delay_metrics_block (xr blk : bytes) : M () :=
  process_metrics (xr_ssrc host xr 0) (dm_ssrc host blk 0)
    (fun s =>
       set_send_side
         (set_send_report
            (fun r =>
               if dm_has_e2e_latency host blk 0
               then RecvReport.set_latency (RecvReport.niq_latency r) (RecvReport.niq_stalling r)
                      (ntp_2_nanoseconds (dm_e2e_latency host blk 0)) r
               else r) (send_side s)) s).

Definition process_queue_metrics_block (xr blk : bytes) : M () :=
  process_metrics (xr_ssrc host xr 0) (qm_ssrc host blk 0)
    (fun s =>
       set_send_side
         (set_send_report
            (fun r =>
               RecvReport.set_latency
                 (if qm_has_niq_latency host blk 0
                  then ntp_2_nanoseconds (qm_niq_latency host blk 0)
                  else RecvReport.niq_latency r)
                 (if qm_has_niq_stalling host blk 0
                  then ntp_2_nanoseconds (qm_niq_stalling host blk 0)
                  else RecvReport.niq_stalling r)
                 (RecvReport.e2e_latency r) r) (send_side s)) s).

Definition process_goodbye (ssrc : Z) : M () :=
  expect is_processing;;
  found ← find_stream_ ssrc NoAutoCreate;
  match found with Some i => remove_stream_ i | None => mret () end;;
  call_ (halt_recv_stream ssrc).

Definition end_processing : M StatusCode :=
  expect is_processing;;
  detect_timeouts_;;
  code ← notify_streams_;
  with_ses (set_report_state_ State_Idle);;
  match code with StatusOK => get_ses report_error_ | _ => mret code end.

(** ** Generation *)

Definition is_sending : M bool :=
  check_valid;;
  r ← get;
  mret (has_send_stream (participant_ r)).

Definition is_receiving : M bool :=
  check_valid;;
  r ← get;
  mret (negb (num_recv_streams (participant_ r) =? 0)%nat).

Definition total_destinations : M nat :=
  check_valid;; get_tab (fun tb => length (address_map_ tb)).

Definition total_streams : M nat :=
  check_valid;; get_tab (fun tb => length (stream_map_ tb)).

Definition begin_generation (report_time : Z) : M StatusCode :=
  check_valid;;
  expect is_idle;;
  panic_when (report_time <=? 0);;
  with_ses (fun s => set_report_error_ StatusOK (set_report_state_ State_Generating s));;
  set_time report_time;;
  begin_refresh.

Definition num_dest_addresses : M nat :=
  expect is_generating;; get_tab (fun tb => length (address_index_ tb)).

(** [*address_index_[addr_index]] *)
Definition address_by_index (addr_index : nat) : M Address :=
  ids ← get_tab address_index_;
  a ← lift_res (array_get ids addr_index);
  address_at a.

Definition num_sending_streams (addr_index : nat) : M nat :=
  expect is_generating;;
  a ← address_by_index addr_index;
  mret (length (send_stream_index a)).

Definition num_receiving_streams (addr_index : nat) : M nat :=
  expect is_generating;;
  a ← address_by_index addr_index;
  mret (length (recv_stream_index a)).

Definition generate_dest_address (addr_index : nat) : M (option Z) :=
  expect is_generating;;
  a ← address_by_index addr_index;
  mret (dest_address a).

Definition generate_cname : M (Z * (Z * bytes)) :=
  expect is_generating;;
  id ← get_loc local_source_id_;
  cn ← get_loc local_cname_;
  mret (id, (SDES_CNAME, cn)).

Definition blank (n : nat) : bytes := replicate n 0.

Definition generate_sr : M bytes :=
  expect is_generating;;
  sending ← is_sending;
  panic_when (negb sending);;
  sr ← lift_res (sr_reset host (blank sizeof_SenderReportPacket) 0);
  id ← get_loc local_source_id_;
  let sr := sr_set_ssrc host sr 0 id in
  time ← get_ses report_time_;
  ntp ← lift_res (unix_2_ntp time);
  let sr := sr_set_ntp_timestamp host sr 0 ntp in
  report ← get_loc local_send_report_;
  let sr := sr_set_rtp_timestamp host sr 0 (SendReport.stream_timestamp report) in
  let sr := sr_set_packet_count host sr 0 (u32 (SendReport.packet_count report)) in
  let sr := sr_set_byte_count host sr 0 (u32 (SendReport.byte_count report)) in
  with_ses (set_current_sr_ time);;
  mret sr.

Definition generate_rr : M bytes :=
  expect is_generating;;
  rr ← lift_res (rr_reset host (blank sizeof_ReceiverReportPacket) 0);
  id ← get_loc local_source_id_;
  let rr := rr_set_ssrc host rr 0 id in
  time ← get_ses report_time_;
  with_ses (set_current_rr_ time);;
  mret rr.

(** [address_index_[addr_index]->recv_stream_index[stream_index]] *)
Definition recv_stream_by_index (addr_index stream_index : nat) : M nat :=
  a ← address_by_index addr_index;
  lift_res (array_get (recv_stream_index a) stream_index).

Definition send_stream_by_index (addr_index stream_index : nat) : M nat :=
  a ← address_by_index addr_index;
  lift_res (array_get (send_stream_index a) stream_index).

(** [*stream->local_recv_report] *)
Definition local_report (s : Stream) : M RecvReport.t :=
  epoch ← get_loc recv_epoch;
  reports ← get_loc local_recv_reports_;
  match local_recv_report s with
  | Some (e, idx) => if (e =? epoch)%nat then lift_res (array_get reports idx) else panics
  | None => panics
  end.

(** The time of the last report of the peer and the delay since then, if there was one. *)
Definition last_report (last now : Z) : res (option Z) :=
  if (0 <? last) && (last <=? now) then
    let* delay := nanoseconds_2_ntp (s64 (now - last)) in
    Ok (Some delay)
  else Ok None.

Definition require_receiving : M () :=
  receiving ← is_receiving;
  panic_when (negb receiving).

Definition generate_reception_block (addr_index stream_index : nat) : M bytes :=
  expect is_generating;;
  require_receiving;;
  i ← recv_stream_by_index addr_index stream_index;
  let blk := rrb_reset host (blank sizeof_ReceptionReportBlock) 0 in
  s ← stream_at i;
  let blk := rrb_set_ssrc host blk 0 (source_id s) in
  report ← local_report s;
  let blk := rrb_set_last_seqnum host blk 0 (RecvReport.ext_last_seqnum report) in
  let blk := rrb_set_cum_loss host blk 0 (RecvReport.cum_loss report) in
  let '(fract_loss, loss) :=
    LossEstimator.update (RecvReport.packet_count report) (RecvReport.cum_loss report)
      (local_recv_loss s) in
  upd_stream i (set_local_recv_loss loss);;
  let blk := rrb_set_fract_loss host blk 0 fract_loss in
  blk ← (if 0 <? RecvReport.jitter report then
           jitter ← lift_res (ns_2_stream_timestamp (RecvReport.jitter report)
                                (RecvReport.sample_rate report));
           mret (rrb_set_jitter host blk 0 jitter)
         else mret blk);
  time ← get_ses report_time_;
  delay ← lift_res (last_report (last_remote_sr (recv_side s)) time);
  mret (match delay with
        | Some delay =>
            rrb_set_delay_last_sr host
              (rrb_set_last_sr host blk 0 (last_remote_sr_ntp (recv_side s))) 0 delay
        | None => blk
        end).

Definition generate_xr : M bytes :=
  expect is_generating;;
  sending ← is_sending;
  receiving ← is_receiving;
  panic_when (negb sending && negb receiving);;
  xr ← lift_res (xr_reset host (blank sizeof_XrPacket) 0);
  id ← get_loc local_source_id_;
  mret (xr_set_ssrc host xr 0 id).

Definition generate_dlrr_subblock (addr_index stream_index : nat) : M bytes :=
  expect is_generating;;
  sending ← is_sending;
  panic_when (negb sending);;
  i ← send_stream_by_index addr_index stream_index;
  let blk := dls_reset host (blank sizeof_XrDlrrSubblock) 0 in
  s ← stream_at i;
  let blk := dls_set_ssrc host blk 0 (source_id s) in
  time ← get_ses report_time_;
  delay ← lift_res (last_report (last_remote_rr (send_side s)) time);
  mret (match delay with
        | Some delay =>
            dls_set_delay_last_rr host
              (dls_set_last_rr host blk 0 (last_remote_rr_ntp (send_side s))) 0 delay
        | None => blk
        end).

Definition generate_rrtr_block : M bytes :=
  expect is_generating;;
  require_receiving;;
  let blk := rrtr_reset host (blank sizeof_XrRrtrBlock) 0 in
  time ← get_ses report_time_;
  ntp ← lift_res (unix_2_ntp time);
  mret (rrtr_set_ntp_timestamp host blk 0 ntp).

Definition generate_measurement_info_block (addr_index stream_index : nat) : M bytes :=
  require_receiving;;
  i ← recv_stream_by_index addr_index stream_index;
  let blk := mi_reset host (blank sizeof_XrMeasurementInfoBlock) 0 in
  s ← stream_at i;
  report ← local_report s;
  let blk := mi_set_ssrc host blk 0 (source_id s) in
  let blk := mi_set_first_seq host blk 0 (u16 (RecvReport.ext_first_seqnum report)) in
  let blk := mi_set_interval_first_seq host blk 0 (RecvReport.ext_last_seqnum report) in
  let blk := mi_set_interval_last_seq host blk 0 (RecvReport.ext_last_seqnum report) in
  let blk := mi_set_interval_duration host blk 0 0 in
  mret (mi_set_cum_duration host blk 0 0).

Definition MetricFlag_SampledValue : Z := 1.

Definition generate_delay_metrics_block (addr_index stream_index : nat) : M bytes :=
  require_receiving;;
  i ← recv_stream_by_index addr_index stream_index;
  let blk := dm_reset host (blank sizeof_XrDelayMetricsBlock) 0 in
  s ← stream_at i;
  let blk := dm_set_ssrc host blk 0 (source_id s) in
  let blk := dm_set_metric_flag blk 0 MetricFlag_SampledValue in
  let rtt := remote_send_rtt (recv_side s) in
  blk ← (if RttEstimator.has_metrics_ rtt then
           ntp ← lift_res (nanoseconds_2_ntp (RttEstimator.rtt (RttEstimator.metrics_ rtt)));
           mret (dm_set_max_rtt host (dm_set_min_rtt host (dm_set_mean_rtt host blk 0 ntp) 0 ntp)
                   0 ntp)
         else mret blk);
  report ← local_report s;
  if 0 <? RecvReport.e2e_latency report then
    ntp ← lift_res (nanoseconds_2_ntp (RecvReport.e2e_latency report));
    mret (dm_set_e2e_latency host blk 0 ntp)
  else mret blk.

Definition generate_queue_metrics_block (addr_index stream_index : nat) : M bytes :=
  require_receiving;;
  i ← recv_stream_by_index addr_index stream_index;
  let blk := qm_reset host (blank sizeof_XrQueueMetricsBlock) 0 in
  s ← stream_at i;
  let blk := qm_set_ssrc host blk 0 (source_id s) in
  let blk := qm_set_metric_flag blk 0 MetricFlag_SampledValue in
  report ← local_report s;
  if 0 <? RecvReport.niq_latency report then
    latency ← lift_res (nanoseconds_2_ntp (RecvReport.niq_latency report));
    stalling ← lift_res (nanoseconds_2_ntp (RecvReport.niq_stalling report));
    mret (qm_set_niq_stalling host (qm_set_niq_latency host blk 0 latency) 0 stalling)
  else mret blk.

Definition need_goodbye : M bool := expect is_generating;; get_ses collision_detected_.

Definition generate_goodbye : M Z :=
  expect is_generating;;
  id ← get_loc local_source_id_;
  detected ← get_ses collision_detected_;
  (if (detected : bool) then with_ses (set_collision_reported_ true) else mret ());;
  mret id.

Definition end_generation : M StatusCode :=
  expect is_generating;;
  with_ses (set_report_state_ State_Idle);;
  resolve_collision_;;
  detect_timeouts_;;
  get_ses report_error_.

(** The answer of a query in a state where it does not panic. *)
Definition answer {A} (m : M A) (d : A) (r : t P) : A :=
  match m r with Ok (a, _) => a | Panic => d end.

(** The effect of a method without result. *)
Definition void (m : M ()) (r : t P) : res (t P) := let* x := m r in Ok x.2.

End Methods.

(** ** Construction and destruction *)

(** [config_.inactivity_timeout] is the only part of the configuration that is read. *)
Definition make {P} `{IParticipant P} (timeout : Z) (p : P) (grants : nat -> grant) : t P :=
  let info := participant_info p in
  let cn := default [] (info_cname info) in
  let ok := negb (bool_decide (cn = [])) && (length cn <=? MaxCnameLen)%nat in
  mk p
    (mkLocal (info_report_mode info) (info_report_address info)
       (if ok then cn else []) (if ok then info_source_id info else 0)
       false SendReport.make [] 0)
    (mkTables ∅ [] [] ∅ [] [] [] 0 true)
    (mkSession 0 0 false false State_Idle StatusOK None 0)
    timeout ok grants 0.

Definition destroy {P} (r : t P) : res () :=
  panic_if (negb (is_idle (report_state_ (ses r)))) (Ok ()).

End Reporter.

(** * The reporter of the communicator *)

(** The queries of the interface are total: where the method panics, they have some
    answer, which the communicator never asks for, since it makes them only between
    [begin_generation] and [end_generation]. *)
#[global] Instance reporter_ireporter {P} `{IParticipant P} (host : cpu_endian) (attempts : nat)
  : IReporter (Reporter.t P) :=
  {|
  begin_processing := Reporter.begin_processing;
  process_cname ssrc item := Reporter.void (Reporter.process_cname ssrc item.2);
  process_sr sr := Reporter.void (Reporter.process_sr host sr);
  process_reception_block ssrc blk := Reporter.void (Reporter.process_reception_block host ssrc blk);
  process_dlrr_subblock xr blk := Reporter.void (Reporter.process_dlrr_subblock host xr blk);
  process_rrtr_block xr blk := Reporter.void (Reporter.process_rrtr_block host xr blk);
  process_measurement_info_block xr blk :=
    Reporter.void (Reporter.process_measurement_info_block host xr blk);
  process_delay_metrics_block xr blk := Reporter.void (Reporter.process_delay_metrics_block host xr blk);
  process_queue_metrics_block xr blk := Reporter.void (Reporter.process_queue_metrics_block host xr blk);
  process_goodbye ssrc := Reporter.void (Reporter.process_goodbye ssrc);
  end_processing := Reporter.end_processing;
  is_sending := Reporter.answer Reporter.is_sending false;
  is_receiving := Reporter.answer Reporter.is_receiving false;
  begin_generation := Reporter.begin_generation;
  num_dest_addresses := Reporter.answer Reporter.num_dest_addresses O;
  num_sending_streams a := Reporter.answer (Reporter.num_sending_streams a) O;
  num_receiving_streams a := Reporter.answer (Reporter.num_receiving_streams a) O;
  generate_dest_address := Reporter.generate_dest_address;
  generate_cname := Reporter.generate_cname;
  generate_sr := Reporter.generate_sr host;
  generate_rr := Reporter.generate_rr host;
  generate_reception_block := Reporter.generate_reception_block host;
  generate_xr := Reporter.generate_xr host;
  generate_dlrr_subblock := Reporter.generate_dlrr_subblock host;
  generate_rrtr_block := Reporter.generate_rrtr_block host;
  generate_measurement_info_block := Reporter.generate_measurement_info_block host;
  generate_delay_metrics_block := Reporter.generate_delay_metrics_block host;
  generate_queue_metrics_block := Reporter.generate_queue_metrics_block host;
  need_goodbye := Reporter.answer Reporter.need_goodbye false;
  generate_goodbye_ssrc := Reporter.generate_goodbye;
  end_generation := Reporter.end_generation attempts;
|}.
