(* ===== verification/RtcpReporterInv.v ===== *)
(** The invariant of the RTCP reporter and how its methods keep it: the maps, the lists
    ordered by time and the stores hold the same streams and addresses, so that no method
    that is called in the right order meets a dangling pointer or a list it cannot update. *)

From stdpp Require Import gmap.
From S2P Require Import Prelude Bytes Ntp Float32 Io RtcpNtp RtcpHeaders RtcpTraverser.
From S2P Require Import RtcpBuilder RtcpWire RtcpEstimators RtcpReporter.
Import Reporter.

#[local] Open Scope Z_scope.

(** * A store, the order of iteration and the order by time *)

Record store_ok {A} (store : gmap nat A) (ids lru : list nat) (next : nat) : Prop := {
  so_nodup : NoDup ids;
  so_perm : lru ≡ₚ ids;
  so_dom i : is_Some (store !! i) <-> i ∈ ids;
  so_fresh i : i ∈ ids -> (i < next)%nat;
}.

Lemma without_elem i j l : j ∈ without i l <-> j <> i /\ j ∈ l.
Proof. unfold without. by rewrite list_elem_of_filter. Qed.

Lemma without_perm i l l' : l ≡ₚ l' -> without i l ≡ₚ without i l'.
Proof. unfold without. by intros ->. Qed.

Lemma without_nodup i l : NoDup l -> NoDup (without i l).
Proof. apply NoDup_filter. Qed.

Lemma without_cons_perm i l : NoDup l -> i ∈ l -> i :: without i l ≡ₚ l.
Proof.
  intros Hn Hi. apply NoDup_Permutation; [|done|].
  - constructor; [rewrite without_elem; tauto|by apply without_nodup].
  - intros j. rewrite elem_of_cons, without_elem. destruct (decide (j = i)) as [->|]; tauto.
Qed.

Section Store.

Context {A : Type} (store : gmap nat A) (ids lru : list nat) (next : nat).
Hypothesis Hok : store_ok store ids lru next.

Lemma store_lru_elem i : i ∈ lru <-> i ∈ ids.
Proof using Hok. by rewrite (so_perm _ _ _ _ Hok). Qed.

Lemma store_live i : i ∈ ids -> exists a, store !! i = Some a.
Proof using Hok. apply (so_dom _ _ _ _ Hok). Qed.

Lemma store_lru_live i : i ∈ lru -> exists a, store !! i = Some a.
Proof using Hok. rewrite store_lru_elem. apply store_live. Qed.

Lemma store_new_not_elem : next ∉ lru.
Proof using Hok. rewrite store_lru_elem. intros Hi%(so_fresh _ _ _ _ Hok). lia. Qed.

Lemma store_grow n : (next <= n)%nat -> store_ok store ids lru n.
Proof using Hok.
  intros Hn. destruct Hok as [H1 H2 H3 H4]. split; [done|done|done|].
  intros i Hi%H4. lia.
Qed.

Lemma store_create a : store_ok (<[next := a]> store) (ids ++ [next]) (next :: lru) (S next).
Proof using Hok.
  pose proof store_new_not_elem as Hnew. rewrite store_lru_elem in Hnew.
  destruct Hok as [H1 H2 H3 H4]. split.
  - apply NoDup_app. split_and!; [done|set_solver|apply NoDup_singleton].
  - rewrite <- Permutation_cons_append. by constructor.
  - intros i. rewrite elem_of_app, list_elem_of_singleton, lookup_insert_is_Some, H3.
    destruct (decide (next = i)); naive_solver.
  - intros i [Hi%H4| ->%list_elem_of_singleton]%elem_of_app; lia.
Qed.

Lemma store_update i a a' : store !! i = Some a -> store_ok (<[i := a']> store) ids lru next.
Proof using Hok.
  intros Hi. destruct Hok as [H1 H2 H3 H4]. split; [done|done| |done].
  intros j. rewrite lookup_insert_is_Some, <- H3. split; [|destruct (decide (i = j)); auto].
  intros [<-|[_ ?]]; [by eexists|done].
Qed.

Lemma store_touch i : i ∈ ids -> store_ok store ids (i :: without i lru) next.
Proof using Hok.
  intros Hi. destruct Hok as [H1 H2 H3 H4]. split; [done| |done|done].
  rewrite without_cons_perm; [done|by rewrite H2|by rewrite H2].
Qed.

Lemma store_remove i : store_ok (delete i store) (without i ids) (without i lru) next.
Proof using Hok.
  destruct Hok as [H1 H2 H3 H4]. split.
  - by apply without_nodup.
  - by apply without_perm.
  - intros j. rewrite lookup_delete_is_Some, without_elem, H3. naive_solver.
  - intros j [_ Hj]%without_elem. by apply H4.
Qed.

End Store.

Lemma remove_id_ok i l : i ∈ l -> remove_id i l = Ok (without i l).
Proof. intros. unfold remove_id. by rewrite decide_True. Qed.

Lemma push_front_id_ok i l : i ∉ l -> push_front_id i l = Ok (i :: l).
Proof. intros. unfold push_front_id. by rewrite decide_False. Qed.

Lemma find_id_elem {A} (store : gmap nat A) p ids i :
  find_id store p ids = Some i -> i ∈ ids /\ exists a, store !! i = Some a /\ p a = true.
Proof.
  induction ids as [|j ids IH]; simpl; [done|]. rewrite elem_of_cons.
  destruct (store !! j) as [a|] eqn:E; [destruct (p a) eqn:Ep|]; naive_solver.
Qed.

Lemma find_id_none {A} (store : gmap nat A) p ids i a :
  find_id store p ids = None -> i ∈ ids -> store !! i = Some a -> p a = false.
Proof.
  induction ids as [|j ids IH]; simpl; [intros _ []%not_elem_of_nil|].
  intros Hf Hi Ha. apply elem_of_cons in Hi as [->|Hi].
  - rewrite Ha in Hf. by destruct (p a).
  - apply IH; [|done|done]. destruct (store !! j) as [b|]; [by destruct (p b)|done].
Qed.

(** * The invariant of the tables *)

Definition stream_ok (s : Stream) : Prop := RttEstimator.wf (remote_send_rtt (recv_side s)).

Record tables_ok (tb : Tables) : Prop := {
  tables_streams : store_ok (streams tb) (stream_map_ tb) (stream_lru_ tb) (next_id tb);
  tables_addresses : store_ok (addresses tb) (address_map_ tb) (address_lru_ tb) (next_id tb);
  tables_stream_ok i s : streams tb !! i = Some s -> stream_ok s;
}.

(** * What the participant promises *)

(** The reports of the participant have to say whose they are and when they were made;
    reports of receiving streams have durations that the report blocks can hold. *)
Record valid_send_report (info : ParticipantInfo) (time : Z) (r : SendReport.t) : Prop := {
  vs_source : SendReport.sender_source_id r = info_source_id info;
  vs_cname : SendReport.sender_cname r = info_cname info;
  vs_time : SendReport.report_timestamp r = time;
  vs_rate : 0 < SendReport.sample_rate r;
  vs_offset : SendReport.clock_offset r = 0;
  vs_rtt : SendReport.rtt r = 0;
}.

Record valid_recv_report (info : ParticipantInfo) (time : Z) (r : RecvReport.t) : Prop := {
  vr_source : RecvReport.receiver_source_id r = info_source_id info;
  vr_time : RecvReport.report_timestamp r = time;
  vr_rate : 0 < RecvReport.sample_rate r;
  vr_offset : RecvReport.clock_offset r = 0;
  vr_rtt : RecvReport.rtt r = 0;
  vr_jitter : 0 <= RecvReport.jitter r
    -> exists ts, ns_2_stream_timestamp (RecvReport.jitter r) (RecvReport.sample_rate r) = Ok ts;
  vr_stalling : 0 <= RecvReport.niq_stalling r;
}.

(** A call leaves the participant with the same name and identifier. *)
Definition keeps_info `{IParticipant P} (p p' : P) : Prop :=
  participant_info p' = participant_info p.

(** A query does not open or close streams. *)
Definition keeps_streams `{IParticipant P} (p p' : P) : Prop :=
  has_send_stream p' = has_send_stream p /\ num_recv_streams p' = num_recv_streams p.

Class ParticipantContract (P : Type) `{IParticipant P} : Type := {
  good : P -> Prop;
  participant_info_ok p : good p ->
    is_u 32 (info_source_id (participant_info p))
    /\ forall cn, info_cname (participant_info p) = Some cn -> is_text cn = true /\ cn <> [];
  query_send_stream_ok time p : good p -> has_send_stream p = true ->
    let '(report, p') := query_send_stream time p in
    valid_send_report (participant_info p) time report
    /\ good p' /\ keeps_info p p' /\ keeps_streams p p';
  query_recv_streams_ok buffer time p : good p -> length buffer = num_recv_streams p ->
    let '(reports, p') := query_recv_streams buffer time p in
    length reports = length buffer
    /\ Forall (valid_recv_report (participant_info p) time) reports
    /\ good p' /\ keeps_info p p' /\ keeps_streams p p';
  notify_send_stream_ok id report p : good p ->
    let p' := (notify_send_stream id report p).2 in good p' /\ keeps_info p p';
  notify_recv_stream_ok id report p : good p ->
    let p' := (notify_recv_stream id report p).2 in good p' /\ keeps_info p p';
  halt_recv_stream_ok id p : good p ->
    let p' := halt_recv_stream id p in good p' /\ keeps_info p p';
}.

(** * Reasoning about methods *)

Section Rules.

Context {P : Type} `{IParticipant P}.

#[local] Existing Instance M_ret.
#[local] Existing Instance M_bind.

Implicit Types (r : t P).

(** The method [m] called in the state [r] returns, with an answer and a state for which
    [Q] holds. *)
Definition wp {A} (m : M A) (r : t P) (Q : A -> t P -> Prop) : Prop :=
  exists a r', m r = Ok (a, r') /\ Q a r'.

Lemma method_mono {A} (m : M A) r (Q Q' : A -> t P -> Prop) :
  wp m r Q -> (forall a r', Q a r' -> Q' a r') -> wp m r Q'.
Proof. intros (a & r' & E & HQ) HQ'. exists a, r'. auto. Qed.

Lemma method_bind {A B} (m : M A) (f : A -> M B) r Q :
  wp m r (fun a r' => wp (f a) r' Q) -> wp (m ≫= f) r Q.
Proof.
  intros (a & r' & E & b & r'' & E' & HQ). exists b, r''. split; [|done].
  unfold mbind, M_bind. by rewrite E.
Qed.

Lemma method_ret {A} (a : A) r (Q : A -> t P -> Prop) : Q a r -> wp (mret a) r Q.
Proof. intros HQ. by exists a, r. Qed.

Lemma wp_get r (Q : t P -> t P -> Prop) : Q r r -> wp get r Q.
Proof. intros HQ. by exists r, r. Qed.

Lemma wp_get_loc {A} (f : Local -> A) r (Q : A -> t P -> Prop) :
  Q (f (loc r)) r -> wp (get_loc f) r Q.
Proof. intros HQ. by eexists _, _. Qed.

Lemma wp_get_tab {A} (f : Tables -> A) r (Q : A -> t P -> Prop) :
  Q (f (tab r)) r -> wp (get_tab f) r Q.
Proof. intros HQ. by eexists _, _. Qed.

Lemma wp_get_ses {A} (f : Session -> A) r (Q : A -> t P -> Prop) :
  Q (f (ses r)) r -> wp (get_ses f) r Q.
Proof. intros HQ. by eexists _, _. Qed.

Lemma wp_lift_res {A} (x : res A) a r (Q : A -> t P -> Prop) :
  x = Ok a -> Q a r -> wp (lift_res x) r Q.
Proof. intros E HQ. unfold lift_res. exists a, r. by rewrite E. Qed.

Lemma wp_panic_when (b : bool) r (Q : () -> t P -> Prop) :
  b = false -> Q () r -> wp (panic_when b) r Q.
Proof. intros -> HQ. by eexists _, _. Qed.

Definition next_asked r : t P :=
  mk (participant_ r) (loc r) (tab r) (ses r) (inactivity_timeout r) (valid_ r) (grants r)
    (S (asked r)).

Lemma wp_ask r (Q : bool -> t P -> Prop) : (forall ok, Q ok (next_asked r)) -> wp ask r Q.
Proof. intros HQ. by eexists _, _. Qed.

Lemma wp_ask_insert r (Q : bool -> t P -> Prop) :
  (forall k, grants r k <> Stalled) -> (forall ok, Q ok (next_asked r)) -> wp ask_insert r Q.
Proof.
  intros Hg HQ. eexists _, _. split; [|apply (HQ (is_granted (grants r (asked r))))].
  unfold ask_insert, ask. pose proof (Hg (asked r)). by destruct (grants r (asked r)).
Qed.

Lemma wp_stream_at i s r (Q : Stream -> t P -> Prop) :
  streams (tab r) !! i = Some s -> Q s r -> wp (stream_at i) r Q.
Proof. intros E HQ. exists s, r. unfold stream_at. by rewrite E. Qed.

Lemma wp_address_at i a r (Q : Address -> t P -> Prop) :
  addresses (tab r) !! i = Some a -> Q a r -> wp (address_at i) r Q.
Proof. intros E HQ. exists a, r. unfold address_at. by rewrite E. Qed.

Definition set_participant (p : P) r : t P :=
  mk p (loc r) (tab r) (ses r) (inactivity_timeout r) (valid_ r) (grants r) (asked r).

Definition set_loc (l : Local) r : t P :=
  mk (participant_ r) l (tab r) (ses r) (inactivity_timeout r) (valid_ r) (grants r) (asked r).

Definition set_tab (tb : Tables) r : t P :=
  mk (participant_ r) (loc r) tb (ses r) (inactivity_timeout r) (valid_ r) (grants r) (asked r).

Definition set_ses (s : Session) r : t P :=
  mk (participant_ r) (loc r) (tab r) s (inactivity_timeout r) (valid_ r) (grants r) (asked r).

Lemma wp_with_loc f r (Q : () -> t P -> Prop) : Q () (set_loc (f (loc r)) r) -> wp (with_loc f) r Q.
Proof. intros HQ. by eexists _, _. Qed.

Lemma wp_with_tab f r (Q : () -> t P -> Prop) : Q () (set_tab (f (tab r)) r) -> wp (with_tab f) r Q.
Proof. intros HQ. by eexists _, _. Qed.

Lemma wp_with_ses f r (Q : () -> t P -> Prop) : Q () (set_ses (f (ses r)) r) -> wp (with_ses f) r Q.
Proof. intros HQ. by eexists _, _. Qed.

Lemma wp_call {A} (f : P -> A * P) r (Q : A -> t P -> Prop) :
  Q (f (participant_ r)).1 (set_participant (f (participant_ r)).2 r) -> wp (call f) r Q.
Proof. intros HQ. unfold call. eexists _, _. split; [|done]. by destruct (f (participant_ r)). Qed.

Lemma wp_upd_stream i f s r (Q : () -> t P -> Prop) :
  streams (tab r) !! i = Some s ->
  Q () (set_tab (set_streams (<[i := f s]> (streams (tab r))) (tab r)) r) ->
  wp (upd_stream i f) r Q.
Proof.
  intros E HQ. unfold upd_stream. apply method_bind, (wp_stream_at i s); [done|].
  by apply wp_with_tab.
Qed.

Lemma wp_upd_address i f a r (Q : () -> t P -> Prop) :
  addresses (tab r) !! i = Some a ->
  Q () (set_tab (set_addresses (<[i := f a]> (addresses (tab r))) (tab r)) r) ->
  wp (upd_address i f) r Q.
Proof.
  intros E HQ. unfold upd_address. apply method_bind, (wp_address_at i a); [done|].
  by apply wp_with_tab.
Qed.

Lemma wp_expect p r (Q : () -> t P -> Prop) :
  p (report_state_ (ses r)) = true -> Q () r -> wp (expect p) r Q.
Proof. intros E HQ. apply method_bind, wp_get_ses, wp_panic_when; [by rewrite E|done]. Qed.

End Rules.

(** One step of a method: what the rules above say of the first command. *)
Ltac wp1 :=
  match goal with
  | |- wp (_ ≫= _) _ _ => apply method_bind
  | |- wp (mret _) _ _ => apply method_ret
  | |- wp get _ _ => apply wp_get
  | |- wp (get_loc _) _ _ => apply wp_get_loc
  | |- wp (get_tab _) _ _ => apply wp_get_tab
  | |- wp (get_ses _) _ _ => apply wp_get_ses
  | |- wp (with_loc _) _ _ => apply wp_with_loc
  | |- wp (with_tab _) _ _ => apply wp_with_tab
  | |- wp (with_ses _) _ _ => apply wp_with_ses
  | |- wp rebuild_needed _ _ => apply wp_with_tab
  | |- wp no_memory _ _ => apply wp_with_ses
  | |- wp collision _ _ => apply wp_with_ses
  | |- wp (call _) _ _ => apply wp_call
  | |- wp ask _ _ => apply wp_ask; intros []
  | |- wp (let _ := _ in _) _ _ => cbv zeta
  end; cbv beta.

Ltac wps := repeat wp1.

(** * The invariant *)

Section Invariant.

Context {P : Type} `{ParticipantContract P}.

#[local] Existing Instance M_ret.
#[local] Existing Instance M_bind.

Implicit Types (r : t P).

Record inv r : Prop := {
  inv_tables : tables_ok (tab r);
  inv_good : good (participant_ r);
  inv_source : info_source_id (participant_info (participant_ r)) = local_source_id_ (loc r);
  inv_cname : info_cname (participant_info (participant_ r)) = Some (local_cname_ (loc r));
  inv_rate : has_local_send_report_ (loc r) = true ->
    0 < SendReport.sample_rate (local_send_report_ (loc r));
  inv_sr : 0 <= current_sr_ (ses r) < 2 ^ 63;
  inv_rr : 0 <= current_rr_ (ses r) < 2 ^ 63;
  inv_time : 0 <= report_time_ (ses r) < 2 ^ 63;
  inv_timeout : 0 < inactivity_timeout r < 2 ^ 63;
  inv_valid : valid_ r = true;
  inv_grants k : grants r k <> Stalled;
}.

Definition live (i : nat) r : Prop := is_Some (streams (tab r) !! i).

Definition needs_rebuild r : Prop := need_rebuild_index_ (tab r) = true.

(** The streams and their pointers to local reports are there still. *)
Definition keeps_reports r r' : Prop := forall i s, streams (tab r) !! i = Some s ->
  exists s', streams (tab r') !! i = Some s' /\ local_recv_report s' = local_recv_report s.

(** A step of a call that leaves the index alone: the invariant holds again and the call
    goes on; a change of the streams that the index refers to asks for a rebuild. *)
Record step r r' : Prop := {
  step_inv : inv r';
  step_loc : loc r' = loc r;
  step_state : report_state_ (ses r') = report_state_ (ses r);
  step_time : report_time_ (ses r') = report_time_ (ses r);
  step_addresses : addresses (tab r') = addresses (tab r);
  step_address_map : address_map_ (tab r') = address_map_ (tab r);
  step_address_lru : address_lru_ (tab r') = address_lru_ (tab r);
  step_address_index : address_index_ (tab r') = address_index_ (tab r);
  step_need : needs_rebuild r -> needs_rebuild r';
  step_reports : needs_rebuild r' \/ keeps_reports r r';
}.

(** A step that removes no stream. *)
Record grows r r' : Prop := {
  grows_step : step r r';
  grows_reports : keeps_reports r r';
  grows_participant : participant_ r' = participant_ r;
}.

Lemma keeps_reports_refl r r' : streams (tab r') = streams (tab r) -> keeps_reports r r'.
Proof. intros E i s Hs. exists s. by rewrite E. Qed.

Lemma keeps_reports_trans r1 r2 r3 :
  keeps_reports r1 r2 -> keeps_reports r2 r3 -> keeps_reports r1 r3.
Proof.
  intros H12 H23 i s (s2 & Hs2 & E2)%H12. apply H23 in Hs2 as (s3 & Hs3 & E3).
  exists s3. split; [done|congruence].
Qed.

Lemma step_refl r : inv r -> step r r.
Proof. split; try done. right. by apply keeps_reports_refl. Qed.

Lemma step_trans r1 r2 r3 : step r1 r2 -> step r2 r3 -> step r1 r3.
Proof.
  intros [] [? ? ? ? ? ? ? ? Hn [?|?]]; split; try congruence; try (by auto).
  destruct step_reports0; [left; by apply Hn|right]. by eapply keeps_reports_trans.
Qed.

Lemma grows_refl r : inv r -> grows r r.
Proof. intros. split; [by apply step_refl|by apply keeps_reports_refl|done]. Qed.

Lemma grows_trans r1 r2 r3 : grows r1 r2 -> grows r2 r3 -> grows r1 r3.
Proof.
  intros [] []. split; [by eapply step_trans|by eapply keeps_reports_trans|congruence].
Qed.

Lemma grows_inv r r' : grows r r' -> inv r'.
Proof. intros Hg. apply Hg. Qed.

Lemma grows_live i r r' : grows r r' -> live i r -> live i r'.
Proof. intros [_ HL _] [s Hs]. apply HL in Hs as (s' & Hs' & _). by exists s'. Qed.

Lemma inv_set_tab tb r : inv r -> tables_ok tb -> inv (set_tab tb r).
Proof. by intros [] ?. Qed.

Lemma grows_asked r : inv r -> grows r (next_asked r).
Proof.
  intros [???????????]. split; [|by apply keeps_reports_refl|done].
  split; try done. right. by apply keeps_reports_refl.
Qed.

Lemma grows_asked2 r : inv r -> grows r (next_asked (next_asked r)).
Proof.
  intros Hr. pose proof (grows_asked r Hr) as Hg. eapply grows_trans; [done|].
  by apply grows_asked, (grows_inv r).
Qed.

Lemma tables_ok_need b tb : tables_ok tb -> tables_ok (set_need_rebuild_index_ b tb).
Proof. by intros []. Qed.

Lemma grows_need r : inv r -> grows r (set_tab (set_need_rebuild_index_ true (tab r)) r).
Proof.
  intros Hr. split; [|by apply keeps_reports_refl|done]. split; try done; [|by left].
  apply inv_set_tab; [done|]. by apply tables_ok_need, inv_tables.
Qed.

(** Changes of the error status and of the collision flags. *)
Lemma grows_ses s r :
  inv r -> current_sr_ s = current_sr_ (ses r) -> current_rr_ s = current_rr_ (ses r) ->
  report_time_ s = report_time_ (ses r) -> report_state_ s = report_state_ (ses r) ->
  grows r (set_ses s r).
Proof.
  intros [] E1 E2 E3 E4. split; [|by apply keeps_reports_refl|done].
  split; try done; [split; simpl; try done; congruence|]. right. by apply keeps_reports_refl.
Qed.

End Invariant.
