(* ===== verification/RtcpReporterOps.v ===== *)
(** The parts of the RTCP reporter keep its invariant: finding, updating and removing
    streams and addresses, detecting collisions and timeouts.  At the start of processing
    and of generation it queries its participant and rebuilds the index of addresses and
    streams if it has to; if time does not go back, the index then refers only to streams
    that exist, and those it reports about have a current local report. *)

From stdpp Require Import gmap.
From S2P Require Import Prelude Bytes Ntp Float32 Io RtcpNtp RtcpHeaders RtcpTraverser.
From S2P Require Import RtcpEstimators RtcpReporter RtcpReporterInv.
Import Reporter.

#[local] Open Scope Z_scope.

Section Ops.

Context {P : Type} `{ParticipantContract P}.

#[local] Existing Instance M_ret.
#[local] Existing Instance M_bind.

Implicit Types (r : t P).

(** * Streams *)

Lemma live_lru i r : inv r -> live i r -> i ∈ stream_lru_ (tab r) /\ i ∈ stream_map_ (tab r).
Proof.
  intros Hr Hi. pose proof (tables_streams _ (inv_tables _ Hr)) as Ht.
  rewrite (store_lru_elem _ _ _ _ Ht). by split; apply (so_dom _ _ _ _ Ht).
Qed.

Lemma find_stream_ok source_id mode r :
  inv r ->
  wp (find_stream_ source_id mode) r (fun found r' =>
    grows r r' /\ forall i, found = Some i ->
      exists s, streams (tab r') !! i = Some s /\ Reporter.source_id s = source_id).
Proof.
  intros Hr. unfold find_stream_. wps.
  destruct (find_id _ _ _) as [i|] eqn:E.
  { apply find_id_elem in E as (_ & s & Hs & Hid). reflect_bools. wps.
    split; [by apply grows_refl|]. intros ? [= <-]. eauto. }
  destruct mode; [|wps; split; [by apply grows_refl|done]].
  wps; cbn [negb]; wps; [apply wp_ask_insert; [apply Hr|intros []]|]; cbn [negb]; wps.
  - eapply wp_lift_res.
    { apply push_front_id_ok. simpl. apply (store_new_not_elem _ _ _ _ (tables_streams _ (inv_tables _ Hr))). }
    wps. cbn [tab set_tab]. split.
    + split.
      * split; try done; [|by left].
        destruct Hr as [Ht ? ? ? ? ? ? ? ? ? ?]. split; try done. simpl.
        destruct Ht as [Hs Ha Hok]. split; simpl.
        -- by apply store_create.
        -- apply store_grow with (next_id (tab r)); [done|lia].
        -- intros i s. destruct (decide (next_id (tab r) = i)) as [<-|].
           ++ rewrite lookup_insert_eq. intros [= <-]. by apply RttEstimator.wf_make.
           ++ rewrite lookup_insert_ne by done. apply Hok.
      * intros i s Hs. exists s. split; [|done]. simpl.
        rewrite lookup_insert_ne; [done|]. intros <-.
        apply (store_new_not_elem _ _ _ _ (tables_streams _ (inv_tables _ Hr))).
        apply (live_lru _ r Hr). by exists s.
      * done.
    + intros i [= <-]. eexists. simpl. by rewrite lookup_insert_eq.
  - split; [|done]. pose proof (grows_asked2 r Hr) as Hg. eapply grows_trans; [done|].
    by apply grows_ses; [apply (grows_inv r)|..].
  - split; [|done]. pose proof (grows_asked r Hr) as Hg. eapply grows_trans; [done|].
    by apply grows_ses; [apply (grows_inv r)|..].
Qed.

Lemma keeps_reports_insert i s s' r r' :
  streams (tab r) !! i = Some s -> streams (tab r') = <[i := s']> (streams (tab r)) ->
  local_recv_report s' = local_recv_report s -> keeps_reports r r'.
Proof.
  intros Hs E Er j sj Hj. rewrite E. destruct (decide (i = j)) as [<-|].
  - exists s'. rewrite lookup_insert_eq. split; [done|congruence].
  - exists sj. by rewrite lookup_insert_ne.
Qed.

(** An update of a stream that keeps its round-trip time valid and does not touch its
    pointer to a local report. *)
Definition harmless (f : Stream -> Stream) : Prop :=
  forall s, stream_ok s -> stream_ok (f s) /\ local_recv_report (f s) = local_recv_report s.

Lemma upd_stream_ok i f r :
  inv r -> live i r -> harmless f ->
  wp (upd_stream i f) r (fun _ r' => grows r r').
Proof.
  intros Hr [s Hs] Hf. apply (wp_upd_stream i f s); [done|].
  destruct (inv_tables _ Hr) as [Ht Ha Hok]. split.
  - split; try done.
    + apply inv_set_tab; [done|]. split; simpl; [by apply store_update with s|done|].
      intros j s'. destruct (decide (i = j)) as [<-|].
      * rewrite lookup_insert_eq. intros [= <-]. eapply Hf, Hok, Hs.
      * rewrite lookup_insert_ne by done. apply Hok.
    + right. apply (keeps_reports_insert i s (f s)); [done|done|]. eapply Hf, Hok, Hs.
  - apply (keeps_reports_insert i s (f s)); [done|done|]. eapply Hf, Hok, Hs.
  - done.
Qed.

Lemma remove_stream_ok i r :
  inv r -> live i r -> wp (remove_stream_ i) r (fun _ r' => step r r'
    /\ tab r' = set_need_rebuild_index_ true
         (set_stream_map_ (without i (stream_map_ (tab r)))
            (set_streams (delete i (streams (tab r)))
               (set_stream_lru_ (without i (stream_lru_ (tab r))) (tab r))))).
Proof.
  intros Hr Hi. pose proof (live_lru i r Hr Hi) as [Hl Hm].
  unfold remove_stream_. wps. eapply wp_lift_res; [by apply remove_id_ok|]. wps.
  eapply wp_lift_res; [by apply remove_id_ok|]. wps. split; [|done].
  split; try done; [|by left]. destruct Hr as [[Hs Ha Hok] ? ? ? ? ? ? ? ? ?]. split; try done.
  split; simpl; [by apply store_remove|done|].
  intros j s [_ Hj]%lookup_delete_Some. eauto.
Qed.

Lemma update_stream_moves i s r :
  inv r -> streams (tab r) !! i = Some s -> last_update s <> report_time_ (ses r) ->
  wp (update_stream_ i) r (fun _ r' => grows r r'
    /\ tab r' = set_stream_lru_ (i :: without i (stream_lru_ (tab r)))
                 (set_streams (<[i := set_last_update (report_time_ (ses r)) s]> (streams (tab r)))
                    (tab r))).
Proof.
  intros Hr Hs Hne. pose proof (live_lru i r Hr ltac:(by exists s)) as [Hl Hm].
  unfold update_stream_. wps. apply (wp_stream_at i s); [done|]. wps.
  rewrite (proj2 (Z.eqb_neq _ _)) by done. wps.
  apply (wp_upd_stream i _ s); [done|]. wps. cbn [tab set_tab stream_lru_ set_streams].
  eapply wp_lift_res; [by apply remove_id_ok|].
  wps. eapply wp_lift_res; [apply push_front_id_ok; rewrite without_elem; tauto|]. wps.
  split; [|done]. destruct (inv_tables _ Hr) as [Ht Ha Hok]. split.
  - split; try done.
    + destruct Hr. split; try done. split; simpl.
      * apply store_touch; [by apply store_update with s|done].
      * done.
      * intros j s'. destruct (decide (i = j)) as [<-|].
        -- rewrite lookup_insert_eq. intros [= <-]. apply (Hok i s Hs).
        -- rewrite lookup_insert_ne by done. apply Hok.
    + right.
      by apply (keeps_reports_insert i s (set_last_update (report_time_ (ses r)) s)).
  - by apply (keeps_reports_insert i s (set_last_update (report_time_ (ses r)) s)).
  - done.
Qed.

Lemma update_stream_ok i r :
  inv r -> live i r -> wp (update_stream_ i) r (fun _ r' => grows r r').
Proof.
  intros Hr [s Hs]. destruct (decide (last_update s = report_time_ (ses r))) as [E|E].
  - unfold update_stream_. wps. apply (wp_stream_at i s); [done|]. wps.
    rewrite E, Z.eqb_refl. wps. by apply grows_refl.
  - eapply method_mono; [by apply (update_stream_moves i s)|]. by intros ?? [? _].
Qed.

Lemma halt_ok id r :
  inv r -> wp (call_ (halt_recv_stream id)) r (fun _ r' => step r r' /\ tab r' = tab r).
Proof.
  intros Hr. apply wp_call. simpl. split; [|done].
  destruct (halt_recv_stream_ok id (participant_ r) (inv_good _ Hr)) as [Hg Hk].
  destruct Hr. split; try done; [|right; by apply keeps_reports_refl].
  split; simpl; try done; by rewrite Hk.
Qed.

(** * Collisions *)

Lemma detect_collision_ok source_id r :
  inv r -> wp (detect_collision_ source_id) r (fun _ r' => grows r r').
Proof.
  intros Hr. unfold detect_collision_. wps.
  destruct (collision_detected_ (ses r)); [wps; by apply grows_refl|]. wps.
  case_if; wps; [by apply grows_refl|].
  eapply method_mono; [by apply find_stream_ok|]. intros [i|] r1 [Hg Hi].
  - destruct (Hi i eq_refl) as (s & Hs & _). wps. apply (wp_stream_at i s); [done|].
    destruct (is_looped s); [by wps|]. wps. case_bool_decide.
    + eapply method_mono; [apply upd_stream_ok|].
      * by apply grows_inv in Hg.
      * by exists s.
      * by intros ??.
      * intros ? r2 Hg'. by eapply grows_trans.
    + wps. eapply grows_trans; [done|]. by apply grows_ses; [apply grows_inv in Hg|..].
  - wps. eapply grows_trans; [done|]. by apply grows_ses; [apply grows_inv in Hg|..].
Qed.

(** * Timeouts *)

(** The streams that the loop has to visit. *)
Definition stale (deadline : Z) (store : gmap nat Stream) (i : nat) : bool :=
  match store !! i with Some s => last_update s <=? deadline | None => false end.

Definition stale_count (deadline : Z) (store : gmap nat Stream) (l : list nat) : nat :=
  length (filter (fun i => stale deadline store i = true) l).

Lemma stale_count_le deadline store l : (stale_count deadline store l <= length l)%nat.
Proof. apply length_filter. Qed.

Lemma stale_count_ext deadline store store' l :
  (forall j, j ∈ l -> stale deadline store' j = stale deadline store j) ->
  stale_count deadline store' l = stale_count deadline store l.
Proof.
  unfold stale_count. induction l as [|i l IH]; intros Hl; [done|].
  rewrite !filter_cons, (Hl i) by (by left). 
  specialize (IH (fun j Hj => Hl j (list_elem_of_further _ _ _ Hj))).
  destruct (decide _); simpl; by rewrite IH.
Qed.

Lemma stale_count_without deadline store store' i l :
  NoDup l -> i ∈ l -> stale deadline store i = true ->
  (forall j, j <> i -> stale deadline store' j = stale deadline store j) ->
  stale_count deadline store l = S (stale_count deadline store' (without i l)).
Proof.
  intros Hn Hi Hs Hj. unfold stale_count.
  assert (length (filter (fun j => stale deadline store j = true) l)
          = length (filter (fun j => stale deadline store j = true) (i :: without i l))) as ->.
  { apply Permutation_length. by rewrite without_cons_perm. }
  rewrite filter_cons_True by done. simpl. f_equal. symmetry. apply stale_count_ext.
  intros j [Hne _]%without_elem. by apply Hj.
Qed.

Lemma timeouts_ok n deadline r :
  inv r -> deadline < report_time_ (ses r) ->
  (stale_count deadline (streams (tab r)) (stream_lru_ (tab r)) <= n)%nat ->
  wp (timeouts n deadline) r (fun _ r' => step r r').
Proof.
  revert r. induction n as [|n IH]; intros r Hr Hd Hn.
  - simpl. wps. destruct (last (stream_lru_ (tab r))) as [i|] eqn:E; [|wps; by apply step_refl].
    apply last_Some_elem_of in E.
    destruct (store_lru_live _ _ _ _ (tables_streams _ (inv_tables _ Hr)) i E) as [s Hs].
    wps. apply (wp_stream_at i s); [done|]. case_if; [wps; by apply step_refl|].
    exfalso. pose proof (so_nodup _ _ _ _ (tables_streams _ (inv_tables _ Hr))).
    rewrite (stale_count_without _ _ (streams (tab r)) i) in Hn; try done; [lia| |].
    + by rewrite (so_perm _ _ _ _ (tables_streams _ (inv_tables _ Hr))).
    + unfold stale. rewrite Hs. by apply Z.leb_le.
  - cbn [timeouts]. wps.
    destruct (last (stream_lru_ (tab r))) as [i|] eqn:E; [|wps; by apply step_refl].
    apply last_Some_elem_of in E.
    destruct (store_lru_live _ _ _ _ (tables_streams _ (inv_tables _ Hr)) i E) as [s Hs].
    wps. apply (wp_stream_at i s); [done|]. case_if; [wps; by apply step_refl|].
    assert (NoDup (stream_lru_ (tab r))) as Hnd.
    { rewrite (so_perm _ _ _ _ (tables_streams _ (inv_tables _ Hr))).
      apply (so_nodup _ _ _ _ (tables_streams _ (inv_tables _ Hr))). }
    assert (stale deadline (streams (tab r)) i = true) as Hst
      by (unfold stale; rewrite Hs; by apply Z.leb_le).
    wps. destruct (negb _ && negb _).
    + eapply method_mono; [apply (update_stream_moves i s); [done|done|lia]|].
      intros ? r1 [[Hstep _ _] Ht]. eapply method_mono; [apply IH|].
      * apply Hstep.
      * by rewrite (step_time _ _ Hstep).
      * rewrite Ht. simpl.
        rewrite (stale_count_without _ _ (<[i:=set_last_update (report_time_ (ses r)) s]> (streams (tab r))) i)
          in Hn; try done.
        -- unfold stale_count in *. rewrite filter_cons_False; [lia|].
           unfold stale. rewrite lookup_insert_eq. simpl. rewrite Z.leb_le. lia.
        -- intros j Hj. unfold stale. by rewrite lookup_insert_ne.
      * intros ? r2 Hs2. by eapply step_trans.
    + wps. eapply method_mono; [by apply halt_ok|]. intros ? r1 [Hstep1 Ht1].
      eapply method_mono; [apply remove_stream_ok|].
      * apply Hstep1.
      * unfold live. rewrite Ht1. by exists s.
      * intros ? r2 [Hstep2 Ht2]. eapply method_mono; [apply IH|].
        -- apply Hstep2.
        -- by rewrite (step_time _ _ Hstep2), (step_time _ _ Hstep1).
        -- rewrite Ht2, Ht1. simpl.
           rewrite (stale_count_without _ _ (delete i (streams (tab r))) i) in Hn; try done; [lia|].
           intros j Hj. unfold stale. by rewrite lookup_delete_ne.
        -- intros ? r3 Hs3. eapply step_trans; [exact Hstep1|]. by eapply step_trans.
Qed.

Lemma detect_timeouts_ok r : inv r -> wp detect_timeouts_ r (fun _ r' => step r r').
Proof.
  intros Hr. unfold detect_timeouts_. wps.
  destruct (inv_time _ Hr), (inv_timeout _ Hr).
  rewrite wrap_s_small by (unfold is_s; lia). apply timeouts_ok; [done|lia|].
  etransitivity; [apply stale_count_le|lia].
Qed.

End Ops.

Section Refresh.

Context {P : Type} `{ParticipantContract P}.

#[local] Existing Instance M_ret.
#[local] Existing Instance M_bind.

Implicit Types (r : t P).

(** * Reports of the participant *)

(** The local reports are current. *)
Record reports_ready r : Prop := {
  ready_reports : Forall (valid_recv_report (participant_info (participant_ r)) (report_time_ (ses r)))
    (local_recv_reports_ (loc r));
  ready_count : length (local_recv_reports_ (loc r)) = num_recv_streams (participant_ r);
  ready_sending : has_local_send_report_ (loc r) = has_send_stream (participant_ r);
}.

Record queried r r' : Prop := {
  queried_inv : inv r';
  queried_ses : ses r' = ses r;
  queried_tab : exists b, tab r' = set_need_rebuild_index_ b (tab r) /\ (needs_rebuild r -> b = true);
  queried_keeps : needs_rebuild r' \/
    recv_epoch (loc r') = recv_epoch (loc r)
    /\ length (local_recv_reports_ (loc r')) = length (local_recv_reports_ (loc r));
}.

Lemma set_need_eta tb : tb = set_need_rebuild_index_ (need_rebuild_index_ tb) tb.
Proof. by destruct tb. Qed.

Lemma queried_refl r : inv r -> queried r r.
Proof.
  intros Hr. split; try done; [|by right]. exists (need_rebuild_index_ (tab r)).
  split; [apply set_need_eta|done].
Qed.

Lemma queried_trans r1 r2 r3 : queried r1 r2 -> queried r2 r3 -> queried r1 r3.
Proof.
  intros [I1 S1 (b1 & T1 & N1) K1] [I2 S2 (b2 & T2 & N2) K2]. split; [done|congruence| |].
  - exists b2. rewrite T2, T1. split; [done|]. intros Hn%N1. apply N2. unfold needs_rebuild.
    by rewrite T1.
  - destruct K2 as [?|[E2 L2]]; [by left|]. destruct K1 as [K1|[E1 L1]].
    + left. unfold needs_rebuild. rewrite T2. by apply N2.
    + right. split; congruence.
Qed.

Lemma queried_need r : inv r -> queried r (set_tab (set_need_rebuild_index_ true (tab r)) r).
Proof.
  intros Hr. split; try done; [| |by left].
  - by apply (grows_inv r), grows_need.
  - by exists true.
Qed.

Lemma find_existing id r :
  wp (find_stream_ id NoAutoCreate) r (fun found r' => r' = r /\ forall i, found = Some i -> live i r).
Proof.
  unfold find_stream_. wps. destruct (find_id _ _ _) as [i|] eqn:E; wps; split; try done.
  intros ? [= <-]. apply find_id_elem in E as (_ & s & Hs & _). by exists s.
Qed.

Lemma validate_recv_report_ok report r :
  inv r -> valid_recv_report (participant_info (participant_ r)) (report_time_ (ses r)) report ->
  wp (validate_recv_report_ report) r (fun _ r' => r' = r).
Proof.
  intros Hr [Hsrc Ht Hrate Ho Hrtt _ _]. unfold validate_recv_report_. wps.
  rewrite (inv_source _ Hr) in Hsrc.
  apply wp_panic_when; [by rewrite Hsrc, Z.eqb_refl|]. wps.
  apply wp_panic_when; [by rewrite Ht, Z.eqb_refl|]. wps.
  apply wp_panic_when; [apply Z.eqb_neq; lia|]. apply wp_panic_when; [by rewrite Ho, Hrtt|done].
Qed.

Lemma validate_send_report_ok report r :
  inv r -> valid_send_report (participant_info (participant_ r)) (report_time_ (ses r)) report ->
  wp (validate_send_report_ report) r (fun _ r' => r' = r).
Proof.
  intros Hr [Hsrc Hcn Ht Hrate Ho Hrtt]. unfold validate_send_report_. wps.
  rewrite (inv_source _ Hr) in Hsrc. rewrite (inv_cname _ Hr) in Hcn.
  apply wp_panic_when; [by rewrite Hsrc, Z.eqb_refl|]. wps.
  apply wp_panic_when; [by rewrite Hcn, bool_decide_true|]. wps.
  apply wp_panic_when; [by rewrite Ht, Z.eqb_refl|]. wps.
  apply wp_panic_when; [apply Z.eqb_neq; lia|]. apply wp_panic_when; [by rewrite Ho, Hrtt|done].
Qed.

Lemma check_recv_reports_ok reports r :
  inv r -> Forall (valid_recv_report (participant_info (participant_ r)) (report_time_ (ses r))) reports ->
  wp (check_recv_reports reports) r (fun _ r' =>
    r' = r \/ r' = set_tab (set_need_rebuild_index_ true (tab r)) r).
Proof.
  intros Hr Hv.
  assert (forall r', r' = r \/ r' = set_tab (set_need_rebuild_index_ true (tab r)) r ->
    wp (check_recv_reports reports) r' (fun _ r' =>
      r' = r \/ r' = set_tab (set_need_rebuild_index_ true (tab r)) r)) as Hgen; [|apply Hgen; by left].
  induction Hv as [|report reports Hrep Hv IH]; intros r' Hr'; simpl; [by wps|]. wps.
  assert (inv r' /\ participant_ r' = participant_ r /\ ses r' = ses r) as (Hi' & Ep & Es).
  { destruct Hr' as [->| ->]; split_and!; try done. by apply (grows_inv r), grows_need. }
  eapply method_mono; [apply validate_recv_report_ok; [done|by rewrite Ep, Es]|]. intros ? ? ->. wps.
  assert (forall r2, r2 = r' \/ r2 = set_tab (set_need_rebuild_index_ true (tab r')) r' ->
    wp (check_recv_reports reports) r2 (fun _ r' =>
      r' = r \/ r' = set_tab (set_need_rebuild_index_ true (tab r)) r)) as Hrest.
  { intros r2 Hr2. apply IH. destruct Hr2 as [->| ->]; [done|]. right. by destruct Hr' as [->| ->]. }
  destruct (need_rebuild_index_ (tab r')); wps; [apply Hrest; by left|].
  eapply method_mono; [apply find_existing|]. intros [i|] ? [-> Hl]; wps; [|apply Hrest; by right].
  destruct (Hl i eq_refl) as [s Hs]. apply (wp_stream_at i s); [done|].
  case_if; wps; apply Hrest; [by right|by left].
Qed.

(** The participant has been asked. *)
Lemma inv_asked_participant p' r :
  inv r -> good p' -> keeps_info (participant_ r) p' -> inv (set_participant p' r).
Proof. intros [] Hg Hk. split; simpl; try done; by rewrite Hk. Qed.

Lemma inv_set_loc l r :
  inv r -> local_source_id_ l = local_source_id_ (loc r) -> local_cname_ l = local_cname_ (loc r) ->
  (has_local_send_report_ l = true -> 0 < SendReport.sample_rate (local_send_report_ l)) ->
  inv (set_loc l r).
Proof. intros [] E1 E2 Hl. split; simpl; try done; congruence. Qed.

(** The first part of [query_streams_]. *)
Lemma query_send_ok r :
  inv r ->
  wp (if has_send_stream (participant_ r) then
        report ← call (query_send_stream (report_time_ (ses r)));
        with_loc (fun l => set_has_local_send_report_ true (set_local_send_report_ report l));;
        validate_send_report_ report
      else with_loc (set_has_local_send_report_ false)) r
    (fun _ r' => queried r r' /\ tab r' = tab r
       /\ has_local_send_report_ (loc r') = has_send_stream (participant_ r')).
Proof.
  intros Hr. destruct (has_send_stream (participant_ r)) eqn:Es; wps.
  - pose proof (query_send_stream_ok (report_time_ (ses r)) (participant_ r) (inv_good _ Hr) Es) as Hq.
    destruct (query_send_stream _ _) as [report p']. destruct Hq as (Hv & Hg & Hk & Hst & _).
    set (r' := set_loc _ _).
    assert (inv r') as Hr'.
    { apply inv_set_loc; [by apply inv_asked_participant|done|done|]. intros _. apply (vs_rate _ _ _ Hv). }
    eapply method_mono; [apply validate_send_report_ok; [done|]|].
    { simpl. by rewrite Hk. }
    intros ? ? ->. split_and!; [|done|simpl; congruence].
    split; [done|done| |by right]. exists (need_rebuild_index_ (tab r)).
    split; [apply set_need_eta|done].
  - split_and!; [|done|by simpl; rewrite Es].
    split; [by apply inv_set_loc|done| |by right]. exists (need_rebuild_index_ (tab r)).
    split; [apply set_need_eta|done].
Qed.

Lemma query_streams_ok r :
  inv r -> wp query_streams_ r (fun status r' => queried r r' /\ (status = StatusOK -> reports_ready r')).
Proof.
  intros Hr. unfold query_streams_. wps. eapply method_mono; [by apply query_send_ok|].
  intros ? r1 (Hq1 & _ & Hsend). wps.
  pose proof (queried_inv _ _ Hq1) as Hr1.
  assert (wp (if (length (local_recv_reports_ (loc r1)) =? num_recv_streams (participant_ r1))%nat
              then mret true
              else
                ok ← ask;
                if negb ok then mret false
                else
                  with_loc (resize_recv_reports (num_recv_streams (participant_ r1)));;
                  rebuild_needed;; mret true) r1
    (fun ok r' => queried r r' /\ participant_ r' = participant_ r1
       /\ has_local_send_report_ (loc r') = has_send_stream (participant_ r1)
       /\ (ok = true -> length (local_recv_reports_ (loc r')) = num_recv_streams (participant_ r1))))
    as Hresize.
  { case_if; wps.
    - split_and!; try done. intros _. by apply Nat.eqb_eq.
    - cbn [negb]. wps. split_and!; try done.
      + eapply queried_trans; [done|]. split; try done; [|by exists true|by left].
        apply inv_set_tab; [|apply tables_ok_need, (inv_tables r1 Hr1)].
        apply inv_set_loc; [by apply (grows_inv r1), grows_asked|done..|]. apply (inv_rate _ Hr1).
      + intros _. simpl. rewrite length_app, length_take, length_replicate. lia.
    - cbn [negb]. wps. split_and!; try done. eapply queried_trans; [done|].
      split; [by apply (grows_inv r1), grows_asked|done| |by right].
      exists (need_rebuild_index_ (tab r1)). split; [apply set_need_eta|done]. }
  eapply method_mono; [exact Hresize|]. intros ok r2 (Hq2 & Ep2 & Hsend2 & Hlen).
  destruct ok; cbn [negb]; [|wps; by split]. specialize (Hlen eq_refl).
  destruct (Nat.eqb_spec (num_recv_streams (participant_ r1)) 0) as [E0|E0]; wps.
  { split; [done|]. intros _. split; [|by rewrite Ep2|by rewrite Ep2].
    rewrite E0 in Hlen. by apply nil_length_inv in Hlen as ->. }
  pose proof (queried_inv _ _ Hq2) as Hr2.
  pose proof (query_recv_streams_ok (local_recv_reports_ (loc r2)) (report_time_ (ses r))
    (participant_ r2) (inv_good _ Hr2) ltac:(by rewrite Ep2)) as Hq.
  destruct (query_recv_streams _ _ _) as [reports p']. destruct Hq as (Hl & Hv & Hg & Hk & Hst).
  cbn [fst snd]. apply wp_panic_when; [by rewrite Hl, Nat.eqb_refl|]. wps.
  set (r3 := set_loc _ _).
  assert (inv r3) as Hr3.
  { apply inv_set_loc; [by apply inv_asked_participant|done|done|apply (inv_rate _ Hr2)]. }
  assert (queried r2 r3) as Hq3.
  { split; [done|done| |by right]. exists (need_rebuild_index_ (tab r2)).
    split; [apply set_need_eta|done]. }
  assert (report_time_ (ses r3) = report_time_ (ses r)) as Et by (simpl; by rewrite (queried_ses _ _ Hq2)).
  assert (Forall (valid_recv_report (participant_info (participant_ r3)) (report_time_ (ses r3))) reports)
    as Hv3 by (rewrite Et; simpl; by rewrite Hk).
  assert (reports_ready r3) as Hready.
  { split; [done|simpl; rewrite Hl, (proj2 Hst); congruence|].
    simpl. rewrite (proj1 Hst). congruence. }
  eapply method_mono; [by apply check_recv_reports_ok|]. intros ? r4 Hr4. wps.
  pose proof (queried_trans _ _ _ Hq2 Hq3) as Hq13. destruct Hr4 as [->| ->]; [by split|].
  split; [|intros _; by destruct Hready].
  eapply queried_trans; [done|]. by apply queried_need.
Qed.

End Refresh.
