(* ===== verification/RtcpReporterProcess.v ===== *)
(** Processing reports: the RTCP reporter accepts every block of a received report. *)

From stdpp Require Import gmap.
From S2P Require Import Prelude Bytes Ntp Float32 Io RtcpNtp RtcpHeaders RtcpTraverser.
From S2P Require Import RtcpCommunicator RtcpRecorder RtcpProcessingSafe.
From S2P Require Import RtcpEstimators RtcpReporter RtcpReporterInv RtcpReporterOps.
Import Reporter.

#[local] Open Scope Z_scope.

(** * Fields of the blocks *)

Lemma load32_range host m off :
  Forall is_byte m -> (off + 4 <= length m)%nat -> is_u 32 (ntoh32u host (load host 4 m off)).
Proof.
  intros Hm Hoff. unfold ntoh32u. rewrite load32_net by done.
  pose proof (be_value_range (slice_of m off 4) (slice_of_Forall _ _ _ _ Hm)) as R.
  by rewrite length_slice_of in R.
Qed.

Lemma unix_2_ntp_ok time : 0 <= time < 2 ^ 63 -> exists n, unix_2_ntp time = Ok n.
Proof.
  intros Ht. unfold unix_2_ntp, nanoseconds_2_ntp, panic_if.
  change (Era1 * Second) with 2085978496000000000. change (UnixEpoch * Second) with 2208988800000000000.
  case_if; rewrite wrap_s_small by (unfold is_s; lia); case_if; try lia; by eexists.
Qed.

Lemma nanoseconds_2_ntp_ok ns : 0 <= ns -> exists n, nanoseconds_2_ntp ns = Ok n.
Proof. intros Hns. unfold nanoseconds_2_ntp, panic_if. case_if; [lia|by eexists]. Qed.

Lemma ntp_extend_ok base v : is_u 32 v -> exists n, ntp_extend base (u64 (Z.shiftl v 16)) = Ok n.
Proof.
  intros Hv. unfold ntp_extend, panic_if.
  rewrite Z.shiftl_mul_pow2, wrap_u_small by (unfold is_u in *; lia).
  rewrite <- (Z.mod_small v (2 ^ 32)), land_outer by (unfold is_u in *; lia).
  cbn [Z.eqb negb]. repeat case_if; by eexists.
Qed.

Lemma extend_time_ok current v :
  0 <= current < 2 ^ 63 -> is_u 32 v ->
  exists x, extend_time current (u64 (Z.shiftl v 16)) = Ok x.
Proof.
  intros Hc Hv. unfold extend_time. case_if; [by eexists|].
  destruct (unix_2_ntp_ok current Hc) as [b ->]. cbn [res_bind].
  destruct (ntp_extend_ok b v Hv) as [n ->]. by eexists.
Qed.

(** * The handlers *)

Section Process.

Context {P : Type} `{ParticipantContract P} (host : cpu_endian).

#[local] Existing Instance M_ret.
#[local] Existing Instance M_bind.

Implicit Types (r : t P).

(** A call of a handler. *)
Definition accepts (m : M ()) : Prop := forall r,
  inv r -> report_state_ (ses r) = State_Processing -> wp m r (fun _ r' => step r r').

Lemma update_address_ok i r : inv r -> live i r -> wp (update_address i) r (fun _ r' => grows r r').
Proof.
  intros Hr Hi. pose proof Hi as [s Hs]. unfold update_address. wps.
  apply (wp_stream_at i s); [done|]. wps. case_bool_decide; [wps; by apply grows_refl|]. wps.
  eapply method_mono; [apply upd_stream_ok; [done|done|by intros ??]|]. intros ? r' Hg. wps.
  eapply grows_trans; [exact Hg|]. by apply grows_need, (grows_inv r).
Qed.

Lemma expect_processing r (Q : () -> t P -> Prop) :
  report_state_ (ses r) = State_Processing -> Q () r -> wp (expect is_processing) r Q.
Proof. intros E. apply wp_expect. by rewrite E. Qed.

Lemma process_cname_step ssrc text :
  (length text <= MaxTextLen)%nat -> accepts (Reporter.process_cname ssrc text).
Proof.
  intros Hlen r Hr Hst. unfold Reporter.process_cname. wps. apply expect_processing; [done|].
  case_bool_decide; [wps; by apply step_refl|]. wps.
  eapply method_mono; [by apply find_stream_ok|]. intros [i|] r1 [Hg Hi]; [|wps; apply Hg].
  destruct (Hi i eq_refl) as (s & Hs & _). wps. apply (wp_stream_at i s); [done|].
  case_bool_decide; [wps; apply Hg|]. wps.
  assert (wp (if bool_decide (cname s = []) then mret (Some i)
              else call_ (halt_recv_stream (source_id s));; remove_stream_ i;; find_stream_ ssrc AutoCreate)
            r1 (fun found r' => step r r' /\ forall j, found = Some j -> live j r')) as Hfound.
  { case_bool_decide; wps.
    - split; [apply Hg|]. intros ? [= <-]. by exists s.
    - eapply method_mono; [apply halt_ok, Hg|]. intros ? r2 [Hs2 Ht2]. wps.
      eapply method_mono; [apply remove_stream_ok; [apply Hs2|unfold live; rewrite Ht2; by exists s]|].
      intros ? r3 [Hs3 _]. eapply method_mono; [apply find_stream_ok, Hs3|].
      intros found r4 [Hg4 Hf]. split.
      + eapply step_trans; [apply Hg|]. eapply step_trans; [done|]. eapply step_trans; [done|]. apply Hg4.
      + intros j E. destruct (Hf j E) as (s' & ? & _). by exists s'. }
  eapply method_mono; [exact Hfound|]. intros [j|] r2 [Hs2 Hj]; [|by wps].
  specialize (Hj j eq_refl). unfold copy_cname. wps. apply wp_panic_when.
  { apply Nat.ltb_ge. done. }
  eapply method_mono; [apply upd_stream_ok; [apply Hs2|done|by intros ??]|]. intros ? r3 Hg3. wps.
  pose proof (grows_need r3 (grows_inv _ _ Hg3)) as Hg4. set (r4 := set_tab _ r3) in *.
  eapply method_mono; [apply detect_collision_ok, (grows_inv _ _ Hg4)|]. intros ? r5 Hg5.
  pose proof (grows_trans _ _ _ Hg3 (grows_trans _ _ _ Hg4 Hg5)) as Hg25.
  eapply method_mono; [apply update_stream_ok; [apply Hg25|by apply (grows_live j r2)]|].
  intros ? r6 Hg6. eapply step_trans; [done|]. eapply step_trans; [apply Hg25|apply Hg6].
Qed.

(** An update of a stream, its address and its place in the list. *)
Lemma update_report_ok i f r :
  inv r -> live i r -> harmless f ->
  wp (upd_stream i f;; update_address i;; update_stream_ i) r (fun _ r' => step r r').
Proof.
  intros Hr Hi Hf. wps. eapply method_mono; [by apply upd_stream_ok|]. intros ? r1 Hg1. wps.
  eapply method_mono; [apply update_address_ok; [apply Hg1|by apply (grows_live i r)]|]. intros ? r2 Hg2.
  pose proof (grows_trans _ _ _ Hg1 Hg2) as Hg.
  eapply method_mono; [apply update_stream_ok; [apply Hg|by apply (grows_live i r)]|].
  intros ? r3 Hg3. eapply step_trans; [apply Hg|apply Hg3].
Qed.

Lemma update_place_ok i f r :
  inv r -> live i r -> harmless f ->
  wp (upd_stream i f;; update_stream_ i) r (fun _ r' => step r r').
Proof.
  intros Hr Hi Hf. wps. eapply method_mono; [by apply upd_stream_ok|]. intros ? r1 Hg1.
  eapply method_mono; [apply update_stream_ok; [apply Hg1|by apply (grows_live i r)]|].
  intros ? r3 Hg3. eapply step_trans; [apply Hg1|apply Hg3].
Qed.

Lemma sr_side_harmless sr time s : stream_ok s -> harmless (set_recv_side (sr_recv_side host sr time s)).
Proof.
  intros Hs s' _. split; [|done]. unfold stream_ok, sr_recv_side in *.
  destruct (PacketCounter.update _ _ _), (PacketCounter.update _ _ _). done.
Qed.

Lemma process_sr_step sr : accepts (Reporter.process_sr host sr).
Proof.
  intros r Hr Hst. unfold Reporter.process_sr. wps. apply expect_processing; [done|]. wps.
  eapply method_mono; [by apply detect_collision_ok|]. intros ? r1 Hg1. wps.
  eapply method_mono; [apply find_stream_ok, Hg1|]. intros [i|] r2 [Hg2 Hi];
    [|wps; eapply step_trans; [apply Hg1|apply Hg2]].
  destruct (Hi i eq_refl) as (s & Hs & _). wps. apply (wp_stream_at i s); [done|]. wps.
  pose proof (grows_trans _ _ _ Hg1 Hg2) as Hg.
  assert (stream_ok s) as Hso by apply (tables_stream_ok _ (inv_tables _ (grows_inv _ _ Hg)) i s Hs).
  assert (forall r3, grows r2 r3 ->
    wp (upd_stream i (set_recv_side (sr_recv_side host sr (report_time_ (ses r2)) s));;
        update_address i;; update_stream_ i) r3 (fun _ r' => step r r')) as Hrest.
  { intros r3 Hg3. eapply method_mono; [apply update_report_ok|].
    - apply Hg3.
    - apply (grows_live i r2); [done|by exists s].
    - by apply sr_side_harmless.
    - intros ? r4 Hs4. eapply step_trans; [apply Hg|]. eapply step_trans; [apply Hg3|done]. }
  destruct (has_remote_send_report (recv_side s)); apply method_ret || apply wp_with_tab; apply Hrest.
  - by apply grows_refl, (grows_inv r).
  - by apply grows_need, (grows_inv r).
Qed.

Lemma process_reception_block_step ssrc blk :
  is_bytes sizeof_ReceptionReportBlock blk -> accepts (Reporter.process_reception_block host ssrc blk).
Proof.
  intros [Hlen Hb] r Hr Hst. unfold Reporter.process_reception_block, sizeof_ReceptionReportBlock in *.
  wps. apply expect_processing; [done|]. wps.
  eapply method_mono; [by apply detect_collision_ok|]. intros ? r1 Hg1. wps.
  destruct (negb _ || negb _) eqn:Eh; [wps; apply Hg1|].
  apply orb_false_iff in Eh as [Eh _]. apply negb_false_iff in Eh. wps.
  eapply method_mono; [apply find_stream_ok, Hg1|]. intros [i|] r2 [Hg2 Hi];
    [|wps; eapply step_trans; [apply Hg1|apply Hg2]].
  destruct (Hi i eq_refl) as (s & Hs & _). wps. apply (wp_stream_at i s); [done|]. wps.
  pose proof (grows_trans _ _ _ Hg1 Hg2) as Hg.
  assert (forall r3, grows r2 r3 -> wp (
    rate ← get_loc (fun l => SendReport.sample_rate (local_send_report_ l));
    jitter ← lift_res (stream_timestamp_2_ns (rrb_jitter host blk 0) rate);
    current_sr ← get_ses current_sr_;
    last_sr ← lift_res (extend_time current_sr (rrb_last_sr host blk 0));
    let dlsr := ntp_2_nanoseconds (rrb_delay_last_sr host blk 0) in
    upd_stream i (set_send_side
      (blk_send_side host blk (local_source_id_ (loc r1)) jitter ((fun x => (x, dlsr)) <$> last_sr) s));;
    update_address i;; update_stream_ i) r3 (fun _ r' => step r r')) as Hrest.
  { intros r3 Hg3. wps.
    assert (loc r3 = loc r1) as El
      by (by rewrite (step_loc _ _ (grows_step _ _ Hg3)), (step_loc _ _ (grows_step _ _ Hg2))).
    destruct (stream_timestamp_2_ns_ok (rrb_jitter host blk 0)
      (SendReport.sample_rate (local_send_report_ (loc r3)))) as (j & Ej & _).
    { apply load32_range; [done|lia]. }
    { apply (inv_rate _ (grows_inv _ _ Hg3)). by rewrite El. }
    apply (wp_lift_res _ j); [done|]. wps.
    destruct (extend_time_ok (current_sr_ (ses r3)) (ntoh32u host (load host 4 blk 16)))
      as [x Ex]; [apply (inv_sr _ (grows_inv _ _ Hg3))|apply load32_range; [done|lia]|].
    apply (wp_lift_res _ x); [done|]. cbv zeta.
    eapply method_mono; [apply update_report_ok|].
    - apply Hg3.
    - apply (grows_live i r2); [done|by exists s].
    - by intros s' ?.
    - intros ? r4 Hs4. eapply step_trans; [apply Hg|]. eapply step_trans; [apply Hg3|done]. }
  destruct (has_remote_recv_report (send_side s)); apply method_ret || apply wp_with_tab; apply Hrest.
  - by apply grows_refl, (grows_inv r).
  - by apply grows_need, (grows_inv r).
Qed.

Lemma dlrr_side_ok x dlrr s :
  stream_ok s -> RttEstimator.wf (remote_send_rtt (dlrr_recv_side x dlrr s)).
Proof.
  intros Hs. unfold dlrr_recv_side. destruct (negb _ && negb _); simpl; [|done].
  by apply RttEstimator.wf_update.
Qed.

Lemma process_dlrr_subblock_step xr blk :
  is_bytes sizeof_XrDlrrSubblock blk -> accepts (Reporter.process_dlrr_subblock host xr blk).
Proof.
  intros [Hlen Hb] r Hr Hst. unfold Reporter.process_dlrr_subblock, sizeof_XrDlrrSubblock in *.
  wps. apply expect_processing; [done|]. wps.
  eapply method_mono; [by apply detect_collision_ok|]. intros ? r1 Hg1. wps.
  case_if; wps; [apply Hg1|].
  eapply method_mono; [apply find_stream_ok, Hg1|]. intros [i|] r2 [Hg2 Hi];
    [|wps; eapply step_trans; [apply Hg1|apply Hg2]].
  pose proof (grows_trans _ _ _ Hg1 Hg2) as Hg.
  destruct (Hi i eq_refl) as (s & Hs & _). wps. apply (wp_stream_at i s); [done|].
  case_if; wps; [apply Hg|].
  destruct (extend_time_ok (current_rr_ (ses r2)) (ntoh32u host (load host 4 blk 4)))
    as [x Ex]; [apply (inv_rr _ (grows_inv _ _ Hg))|apply load32_range; [done|lia]|].
  apply (wp_lift_res _ x); [done|]. cbv zeta.
  eapply method_mono; [apply update_place_ok|].
  - apply Hg.
  - by exists s.
  - intros s' _. split; [|done]. apply dlrr_side_ok.
    apply (tables_stream_ok _ (inv_tables _ (grows_inv _ _ Hg)) i s Hs).
  - intros ? r3 Hs3. eapply step_trans; [apply Hg|done].
Qed.

Lemma update_matched_ok id f r :
  inv r -> harmless f -> wp (update_matched id f) r (fun _ r' => step r r').
Proof.
  intros Hr Hf. unfold update_matched. wps.
  eapply method_mono; [by apply find_stream_ok|]. intros [i|] r2 [Hg Hi]; [|wps; apply Hg].
  destruct (Hi i eq_refl) as (s & Hs & _). wps. apply (wp_stream_at i s); [done|].
  case_if; [wps; apply Hg|].
  eapply method_mono; [apply update_place_ok; [apply Hg|by exists s|done]|].
  intros ? r3 Hs3. eapply step_trans; [apply Hg|done].
Qed.

Lemma process_rrtr_block_step xr blk : accepts (Reporter.process_rrtr_block host xr blk).
Proof.
  intros r Hr Hst. unfold Reporter.process_rrtr_block. wps. apply expect_processing; [done|]. wps.
  eapply method_mono; [by apply detect_collision_ok|]. intros ? r1 Hg1. wps.
  eapply method_mono; [apply update_matched_ok; [apply Hg1|by intros ??]|].
  intros ? r3 Hs3. eapply step_trans; [apply Hg1|done].
Qed.

Lemma process_metrics_step recv send f : harmless f -> accepts (process_metrics recv send f).
Proof.
  intros Hf r Hr Hst. unfold process_metrics. wps. apply expect_processing; [done|]. wps.
  eapply method_mono; [by apply detect_collision_ok|]. intros ? r1 Hg1. wps.
  case_if; wps; [apply Hg1|].
  eapply method_mono; [apply update_matched_ok; [apply Hg1|done]|].
  intros ? r3 Hs3. eapply step_trans; [apply Hg1|done].
Qed.

Lemma process_goodbye_step ssrc : accepts (Reporter.process_goodbye ssrc).
Proof.
  intros r Hr Hst. unfold Reporter.process_goodbye. wps. apply expect_processing; [done|]. wps.
  eapply method_mono; [by apply find_stream_ok|]. intros found r1 [Hg Hi].
  assert (wp (match found with Some i => remove_stream_ i | None => mret () end) r1
            (fun _ r' => step r r')) as Hrem.
  { destruct found as [i|]; [|wps; apply Hg]. destruct (Hi i eq_refl) as (s & Hs & _).
    eapply method_mono; [apply remove_stream_ok; [apply Hg|by exists s]|].
    intros ? r2 [Hs2 _]. eapply step_trans; [apply Hg|done]. }
  wps. eapply method_mono; [exact Hrem|]. intros ? r2 Hs2.
  eapply method_mono; [apply halt_ok, Hs2|]. intros ? r3 [Hs3 _]. exact (step_trans _ _ _ Hs2 Hs3).
Qed.

(** * The end of the processing *)

Lemma notify_call_ok (f : P -> StatusCode * P) r :
  inv r ->
  (forall p, good p -> let p' := (f p).2 in good p' /\ keeps_info p p') ->
  wp (call f) r (fun _ r' => step r r' /\ tab r' = tab r).
Proof.
  intros Hr Hf. apply wp_call. split; [|done].
  destruct (Hf (participant_ r) (inv_good _ Hr)) as [Hg Hk]. destruct Hr.
  split; try done; [|right; by apply keeps_reports_refl]. split; simpl; try done; by rewrite Hk.
Qed.

Lemma and_then_ok x y r (Q : t P -> Prop) :
  wp x r (fun _ r' => Q r') -> (forall r', Q r' -> wp y r' (fun _ r'' => Q r'')) ->
  wp (and_then x y) r (fun _ r' => Q r').
Proof.
  intros Hx Hy. unfold and_then. wps. eapply method_mono; [exact Hx|]. intros st r' HQ.
  destruct st; try (wps; done). by apply Hy.
Qed.

Lemma notify_from_ok sending lru r :
  inv r -> (forall i, i ∈ lru -> live i r) ->
  wp (notify_from sending lru) r (fun _ r' => step r r' /\ tab r' = tab r).
Proof.
  intros Hr Hl.
  assert (forall r', step r r' /\ tab r' = tab r ->
    wp (notify_from sending lru) r' (fun _ r' => step r r' /\ tab r' = tab r)) as Hgen.
  2:{ apply Hgen. split; [by apply step_refl|done]. }
  induction lru as [|i lru IH]; intros r' [Hs' Ht']; simpl; [by wps|]. wps.
  destruct (Hl i ltac:(by left)) as [s Hs]. apply (wp_stream_at i s); [by rewrite Ht'|]. wps.
  case_if; [by wps|]. assert (forall j, j ∈ lru -> live j r) as Hl' by (intros; apply Hl; by right).
  destruct (is_looped s); [by apply IH|].
  assert (forall (b : bool) (f : P -> StatusCode * P) r', step r r' /\ tab r' = tab r ->
    (forall p, good p -> let p' := (f p).2 in good p' /\ keeps_info p p') ->
    wp (if b then call f else mret StatusOK) r' (fun _ r' => step r r' /\ tab r' = tab r)) as Hcall.
  { intros b f r2 [Hs2 Ht2] Hf. destruct b; [|by wps].
    eapply method_mono; [apply notify_call_ok; [apply Hs2|done]|]. intros ? r3 [Hs3 Ht3].
    split; [by eapply step_trans|congruence]. }
  apply and_then_ok; [apply Hcall; [done|intros p; apply notify_send_stream_ok]|].
  intros r2 H2. apply and_then_ok; [apply Hcall; [done|intros p; apply notify_recv_stream_ok]|].
  intros r3 H3. by apply IH.
Qed.

Lemma notify_streams_ok r : inv r -> wp notify_streams_ r (fun _ r' => step r r').
Proof.
  intros Hr. unfold notify_streams_. wps. case_if; wps; [by apply step_refl|].
  eapply method_mono; [apply notify_from_ok; [done|]|by intros ?? []].
  intros i Hi. apply (store_lru_live _ _ _ _ (tables_streams _ (inv_tables _ Hr))) in Hi as [s Hs].
  by exists s.
Qed.

(** The call that ends: as [step], in the idle state. *)
Definition idle_step r r' : Prop :=
  exists r1, step r r1 /\ r' = set_ses (set_report_state_ State_Idle (ses r1)) r1.

Lemma inv_state st r : inv r -> inv (set_ses (set_report_state_ st (ses r)) r).
Proof. by intros []. Qed.

Lemma end_processing_step r :
  inv r -> report_state_ (ses r) = State_Processing ->
  wp Reporter.end_processing r (fun _ r' => idle_step r r').
Proof.
  intros Hr Hst. unfold Reporter.end_processing. wps. apply expect_processing; [done|]. wps.
  eapply method_mono; [by apply detect_timeouts_ok|]. intros ? r1 Hs1. wps.
  eapply method_mono; [apply notify_streams_ok, Hs1|]. intros code r2 Hs2. wps.
  assert (idle_step r (set_ses (set_report_state_ State_Idle (ses r2)) r2)) as Hi.
  { exists r2. split; [exact (step_trans _ _ _ Hs1 Hs2)|done]. }
  destruct code; by wps.
Qed.

End Process.
