(* ===== verification/RtcpReporterIndex.v ===== *)
(** The index that the RTCP reporter rebuilds: the addresses to which reports go and the
    streams reported to each of them.  If the time of the rebuild differs from the times of
    the previous ones, every stream of the index exists and has a current local report. *)

From stdpp Require Import gmap.
From S2P Require Import Prelude Bytes Ntp Float32 Io RtcpNtp RtcpHeaders RtcpTraverser.
From S2P Require Import RtcpEstimators RtcpReporter RtcpReporterInv RtcpReporterOps.
Import Reporter.

#[local] Open Scope Z_scope.

Section Index.

Context {P : Type} `{ParticipantContract P}.

#[local] Existing Instance M_ret.
#[local] Existing Instance M_bind.

Implicit Types (r : t P).

(** * The index *)

(** The stream has a local report. *)
Definition has_report r (i : nat) : Prop :=
  exists s idx, streams (tab r) !! i = Some s
    /\ local_recv_report s = Some (recv_epoch (loc r), idx)
    /\ (idx < length (local_recv_reports_ (loc r)))%nat.

Definition entries_ok r (a : Address) : Prop :=
  Forall (fun i => live i r) (send_stream_index a) /\ Forall (has_report r) (recv_stream_index a).

Definition index_ok r : Prop := forall a, a ∈ address_index_ (tab r) ->
  exists addr, addresses (tab r) !! a = Some addr /\ entries_ok r addr.

Lemma has_report_mono r r' i : loc r' = loc r -> keeps_reports r r' -> has_report r i -> has_report r' i.
Proof.
  intros El Hk (s & idx & Hs & Hr & Hi). destruct (Hk i s Hs) as (s' & Hs' & Er).
  exists s', idx. rewrite El. split; [done|]. split; [congruence|done].
Qed.

Lemma entries_mono r r' a : loc r' = loc r -> keeps_reports r r' -> entries_ok r a -> entries_ok r' a.
Proof.
  intros El Hk [Hs Hr]. split.
  - eapply Forall_impl; [exact Hs|]. intros i [s Hi]. destruct (Hk i s Hi) as (s' & ? & _). by exists s'.
  - eapply Forall_impl; [exact Hr|]. intros i. by apply has_report_mono.
Qed.

(** * A rebuild in progress *)

(** The address was rebuilt at the given time. *)
Definition rebuilt (time : Z) (m : gmap nat Address) (a : nat) : Prop :=
  exists addr, m !! a = Some addr /\ last_rebuild addr = time.

Lemma rebuilt_insert_ne time m a b x :
  a <> b -> rebuilt time (<[a := x]> m) b <-> rebuilt time m b.
Proof. intros. unfold rebuilt. by rewrite lookup_insert_ne. Qed.

Lemma rebuilt_insert_eq time m a x : rebuilt time (<[a := x]> m) a <-> last_rebuild x = time.
Proof. unfold rebuilt. rewrite lookup_insert_eq. naive_solver. Qed.

(** The rebuilt addresses come first. *)
Definition rebuilt_first (time : Z) (m : gmap nat Address) (lru : list nat) : Prop :=
  exists l1 l2, lru = l1 ++ l2 /\ Forall (rebuilt time m) l1 /\ Forall (fun a => ~ rebuilt time m a) l2.

Lemma rebuilt_first_create time m lru a x :
  a ∉ lru -> last_rebuild x = time -> rebuilt_first time m lru ->
  rebuilt_first time (<[a := x]> m) (a :: lru).
Proof.
  intros Ha Hx (l1 & l2 & -> & H1 & H2). exists (a :: l1), l2.
  apply not_elem_of_app in Ha as [Ha1 Ha2]. split_and!; [done| |].
  - constructor; [by apply rebuilt_insert_eq|]. rewrite Forall_forall in H1 |- *. intros b Hb.
    apply rebuilt_insert_ne; [by intros ->|auto].
  - rewrite Forall_forall in H2 |- *. intros b Hb. rewrite rebuilt_insert_ne by (by intros ->). auto.
Qed.

Lemma without_not_elem i l : i ∉ l -> without i l = l.
Proof.
  intros Hi. unfold without. induction l as [|j l IH]; [done|].
  apply not_elem_of_cons in Hi as [Hj Hi]. rewrite filter_cons_True by done. by rewrite IH.
Qed.

Lemma rebuilt_first_touch time m lru a x :
  a ∈ lru -> ~ rebuilt time m a -> last_rebuild x = time -> rebuilt_first time m lru ->
  rebuilt_first time (<[a := x]> m) (a :: without a lru).
Proof.
  intros Ha Hn Hx (l1 & l2 & -> & H1 & H2). exists (a :: l1), (without a l2).
  assert (a ∉ l1) as Ha1. { intros Hin. rewrite Forall_forall in H1. by apply Hn, H1. }
  split_and!.
  - unfold without. rewrite filter_app. fold (without a l1) (without a l2). by rewrite without_not_elem.
  - constructor; [by apply rebuilt_insert_eq|]. rewrite Forall_forall in H1 |- *. intros b Hb.
    apply rebuilt_insert_ne; [by intros ->|auto].
  - rewrite Forall_forall in H2 |- *. intros b [Hne Hb]%without_elem.
    rewrite rebuilt_insert_ne by done. auto.
Qed.

(** An update of an address that does not change the time. *)
Lemma rebuilt_first_update time m lru a x y :
  m !! a = Some y -> last_rebuild x = last_rebuild y -> rebuilt_first time m lru ->
  rebuilt_first time (<[a := x]> m) lru.
Proof.
  intros Hy Hx (l1 & l2 & -> & H1 & H2). exists l1, l2. split; [done|].
  assert (forall b, rebuilt time (<[a := x]> m) b <-> rebuilt time m b) as Heq.
  { intros b. destruct (decide (a = b)) as [<-|]; [|by apply rebuilt_insert_ne].
    rewrite rebuilt_insert_eq, Hx. unfold rebuilt. rewrite Hy. naive_solver. }
  split; eapply Forall_impl; try eassumption; intros b; by rewrite Heq.
Qed.

(** [r0] is the state in which the rebuild started; [fresh] says that no address had its
    time, [filling] that the array of addresses is being filled. *)
Context (r0 : t P) (fresh filling : Prop).

Abbreviation now := (report_time_ (ses r0)).

Record building r : Prop := {
  b_inv : inv r;
  b_loc : loc r = loc r0;
  b_participant : participant_ r = participant_ r0;
  b_state : report_state_ (ses r) = report_state_ (ses r0);
  b_time : report_time_ (ses r) = now;
  b_need : needs_rebuild r;
  b_index : filling \/ address_index_ (tab r) = [];
  b_first : fresh -> rebuilt_first now (addresses (tab r)) (address_lru_ (tab r));
  b_le a addr : fresh -> addresses (tab r) !! a = Some addr -> last_rebuild addr <= now;
  b_entries a addr : fresh -> addresses (tab r) !! a = Some addr -> last_rebuild addr = now ->
    entries_ok r addr;
}.

(** What does not touch the addresses. *)
Lemma building_grows r r' : building r -> grows r r' -> building r'.
Proof.
  intros [] [[] Hk Hp]. split; [done|congruence|congruence|congruence|congruence|by auto|..].
  - by rewrite step_address_index.
  - by rewrite step_addresses, step_address_lru.
  - by rewrite step_addresses.
  - rewrite step_addresses. intros a addr Hf Ha Ht. eapply entries_mono; eauto.
Qed.

(** Changes of the address tables that keep the streams. *)
Lemma building_addresses tb r :
  building r -> streams tb = streams (tab r) -> tables_ok tb -> need_rebuild_index_ tb = true ->
  (filling \/ address_index_ tb = []) ->
  (fresh -> rebuilt_first now (addresses tb) (address_lru_ tb)) ->
  (forall a addr, fresh -> addresses tb !! a = Some addr ->
     last_rebuild addr <= now /\ (last_rebuild addr = now -> entries_ok r addr)) ->
  building (set_tab tb r).
Proof.
  intros [] Es Ht Hn Hi Hf He. split; try done; [by apply inv_set_tab| |].
  { intros a addr Hfr Ha. eapply He; eauto. }
  intros a addr Hfr Ha Hl. eapply (entries_mono r); [done|by apply keeps_reports_refl|].
  by apply (He a addr).
Qed.

Lemma building_asked r : building r -> building (next_asked r).
Proof. intros Hb. eapply building_grows; [exact Hb|apply grows_asked, Hb]. Qed.

Lemma building_ses s r :
  building r -> current_sr_ s = current_sr_ (ses r) -> current_rr_ s = current_rr_ (ses r) ->
  report_time_ s = report_time_ (ses r) -> report_state_ s = report_state_ (ses r) ->
  building (set_ses s r).
Proof. intros Hb ????. eapply building_grows; [exact Hb|]. apply grows_ses; [apply Hb|done..]. Qed.

Definition known (a : nat) r : Prop := is_Some (addresses (tab r) !! a).

Lemma find_address_ok x r :
  building r ->
  wp (find_address_ x AutoCreate) r (fun found r' => building r'
    /\ streams (tab r') = streams (tab r) /\ forall a, found = Some a -> known a r').
Proof.
  intros Hb. unfold find_address_. wps. destruct (find_id _ _ _) as [a|] eqn:E.
  { wps. split_and!; [done|done|]. intros ? [= <-].
    apply find_id_elem in E as (_ & addr & Ha & _). by exists addr. }
  pose proof (tables_addresses _ (inv_tables _ (b_inv _ Hb))) as Hst.
  pose proof (store_new_not_elem _ _ _ _ Hst) as Hnew.
  wps; cbn [negb]; wps; [apply wp_ask_insert; [apply (b_inv _ Hb)|intros []]|]; cbn [negb]; wps.
  - eapply wp_lift_res; [by apply push_front_id_ok|]. wps.
    pose proof (building_asked _ (building_asked _ Hb)) as Hb2. set (r2 := next_asked _) in *.
    split_and!; [|done|].
    + match goal with |- building (set_tab ?tb _) => apply (building_addresses tb r2 Hb2) end;
        [done| | |apply (b_index _ Hb)| |].
      * destruct (inv_tables _ (b_inv _ Hb)) as [Hs Ha Hok]. split; simpl.
        -- apply store_grow with (next_id (tab r)); [done|lia].
        -- by apply store_create.
        -- done.
      * apply (b_need _ Hb).
      * intros Hf. simpl. apply rebuilt_first_create; [done|simpl; apply (b_time _ Hb)|apply (b_first _ Hb Hf)].
      * intros a addr Hf. simpl. destruct (decide (next_id (tab r) = a)) as [<-|].
        -- rewrite lookup_insert_eq. intros [= <-]. simpl. rewrite (b_time _ Hb). by split.
        -- rewrite lookup_insert_ne by done. intros Ha.
           split; [by apply (b_le _ Hb2 a)|by apply (b_entries _ Hb2 a)].
    + intros a [= <-]. unfold known. simpl. by rewrite lookup_insert_eq.
  - split_and!; [|done|done]. by apply building_ses; [apply building_asked, building_asked|..].
  - split_and!; [|done|done]. by apply building_ses; [apply building_asked|..].
Qed.

Lemma known_lru a r : inv r -> known a r -> a ∈ address_lru_ (tab r) /\ a ∈ address_map_ (tab r).
Proof.
  intros Hr Ha. pose proof (tables_addresses _ (inv_tables _ Hr)) as Ht.
  rewrite (store_lru_elem _ _ _ _ Ht). by split; apply (so_dom _ _ _ _ Ht).
Qed.

Lemma rebuild_address_ok a r :
  building r -> known a r ->
  wp (rebuild_address_ a) r (fun _ r' => building r' /\ streams (tab r') = streams (tab r)
    /\ rebuilt now (addresses (tab r')) a).
Proof.
  intros Hb Ha. pose proof (known_lru a r (b_inv _ Hb) Ha) as [Hl Hm]. destruct Ha as [addr Ha].
  unfold rebuild_address_. wps. apply (wp_address_at a addr); [done|]. wps.
  destruct (Z.eqb_spec (last_rebuild addr) (report_time_ (ses r))) as [E|E]; wps.
  { split_and!; [done|done|]. exists addr. by rewrite E, (b_time _ Hb). }
  apply (wp_upd_address a _ addr); [done|]. wps. cbn [tab set_tab address_lru_ set_addresses].
  eapply wp_lift_res; [by apply remove_id_ok|]. wps.
  eapply wp_lift_res; [apply push_front_id_ok; rewrite without_elem; tauto|]. wps.
  eapply wp_upd_address; [simpl; by rewrite lookup_insert_eq|].
  split_and!; [|done|].
  - match goal with |- building (set_tab ?tb _) => apply (building_addresses tb r Hb) end;
      [done| | |apply (b_index _ Hb)| |].
    + destruct (inv_tables _ (b_inv _ Hb)) as [Hs Has Hok]. split; simpl; [done| |done].
      rewrite insert_insert_eq. apply store_touch; [by apply store_update with addr|done].
    + apply (b_need _ Hb).
    + intros Hf. simpl. rewrite insert_insert_eq.
      apply rebuilt_first_touch; [done| |apply (b_time _ Hb)|by apply (b_first _ Hb)].
      intros (addr' & Ha' & Et). rewrite (b_time _ Hb) in E. congruence.
    + intros b addr' Hf. simpl. rewrite insert_insert_eq. destruct (decide (a = b)) as [<-|].
      * rewrite lookup_insert_eq. intros [= <-]. simpl. rewrite (b_time _ Hb). by split.
      * rewrite lookup_insert_ne by done. intros Hb'.
        split; [by apply (b_le _ Hb b)|by apply (b_entries _ Hb b)].
  - simpl. rewrite insert_insert_eq. apply rebuilt_insert_eq. apply (b_time _ Hb).
Qed.

(** An update of the streams of an address. *)
Lemma building_entries a addr addr' r :
  building r -> addresses (tab r) !! a = Some addr -> last_rebuild addr' = last_rebuild addr ->
  (fresh -> last_rebuild addr = now -> entries_ok r addr') ->
  building (set_tab (set_addresses (<[a := addr']> (addresses (tab r))) (tab r)) r).
Proof.
  intros Hb Ha El He. apply building_addresses; [done|done| |apply (b_need _ Hb)|apply (b_index _ Hb)| |].
  - destruct (inv_tables _ (b_inv _ Hb)) as [Hs Has Hok]. split; simpl; [done| |done].
    by apply store_update with addr.
  - intros Hf. simpl. apply rebuilt_first_update with addr; [done|done|by apply (b_first _ Hb)].
  - intros b x Hf. simpl. destruct (decide (a = b)) as [<-|].
    + rewrite lookup_insert_eq. intros [= <-]. rewrite El.
      split; [by apply (b_le _ Hb a)|by apply He].
    + rewrite lookup_insert_ne by done. intros Hx.
      split; [by apply (b_le _ Hb b)|by apply (b_entries _ Hb b)].
Qed.

Lemma push_send_stream_ok i a r :
  building r -> live i r -> rebuilt now (addresses (tab r)) a ->
  wp (push_send_stream i a) r (fun _ r' => building r' /\ streams (tab r') = streams (tab r)).
Proof.
  intros Hb Hi (addr & Ha & Et). unfold push_send_stream. wps; cbn [negb]; wps.
  - apply (wp_upd_address a _ addr); [done|]. wps. split; [|done].
    apply (building_entries a addr _ (next_asked r)); [by apply building_asked|done|done|].
    intros Hf _. destruct (b_entries _ Hb a addr Hf Ha Et) as [Hs Hr].
    split; simpl; [|exact Hr]. apply Forall_app. split; [exact Hs|]. by apply Forall_singleton.
  - split; [by apply building_asked|done].
Qed.

(** The stream is given its report after it was added. *)
Lemma push_recv_stream_ok i s idx a r :
  building r -> streams (tab r) !! i = Some s -> rebuilt now (addresses (tab r)) a ->
  (idx < length (local_recv_reports_ (loc r)))%nat ->
  wp (push_recv_stream i a) r (fun ok r' => loc r' = loc r /\ streams (tab r') = streams (tab r)
    /\ if ok then
         building (set_tab (set_streams (<[i := set_local_recv_report (Some (recv_epoch (loc r), idx)) s]>
                                           (streams (tab r'))) (tab r')) r')
       else building r').
Proof.
  intros Hb Hs (addr & Ha & Et) Hidx. unfold push_recv_stream. wps; cbn [negb]; wps.
  2:{ split_and!; [done|done|]. by apply building_asked. }
  apply (wp_upd_address a _ addr); [done|]. wps. split_and!; [done|done|].
  set (s' := set_local_recv_report _ s).
  pose proof (building_asked _ Hb) as Hb1. set (r1 := next_asked r) in *.
  set (r2 := set_tab (set_streams (<[i := s']> (streams (tab r))) (tab r)) r1).
  assert (forall j, has_report r j -> has_report r2 j) as Hmono.
  { intros j (sj & k & Hj & Ek & Hk). destruct (decide (i = j)) as [<-|].
    - exists s', idx. simpl. by rewrite lookup_insert_eq.
    - exists sj, k. simpl. by rewrite lookup_insert_ne. }
  assert (forall x, entries_ok r x -> entries_ok r2 x) as Hent.
  { intros x [Hx1 Hx2]. split; [|by eapply Forall_impl; [exact Hx2|]].
    eapply Forall_impl; [exact Hx1|]. intros j Hj. unfold live. simpl.
    apply lookup_insert_is_Some. destruct (decide (i = j)); [by left|by right]. }
  assert (building r2) as Hb2.
  { destruct Hb1. split; try done.
    - apply inv_set_tab; [done|]. destruct (inv_tables _ (b_inv _ Hb)) as [Hst Has Hok].
      split; simpl; [by apply store_update with s|done|]. intros j sj.
      destruct (decide (i = j)) as [<-|].
      + rewrite lookup_insert_eq. intros [= <-]. apply (Hok i s Hs).
      + rewrite lookup_insert_ne by done. apply Hok.
    - intros b x Hf Hx Ex. apply Hent. by apply (b_entries _ Hb b). }
  apply (building_entries a addr _ r2 Hb2 Ha); [done|]. intros Hf _.
  destruct (b_entries _ Hb2 a addr Hf Ha Et) as [He1 He2]. split; simpl; [exact He1|].
  apply Forall_app. split; [exact He2|]. apply Forall_singleton.
  exists s', idx. simpl. by rewrite lookup_insert_eq.
Qed.

(** * The loops *)

Lemma report_address_ok s r : wp (report_address s) r (fun _ r' => r' = r).
Proof. unfold report_address. by wps. Qed.

Lemma rebuild_send_streams_ok ids r :
  building r -> (forall i, i ∈ ids -> live i r) ->
  wp (rebuild_send_streams ids) r (fun _ r' => building r').
Proof.
  revert r. induction ids as [|i ids IH]; intros r Hb Hl; simpl; [by wps|]. wps.
  assert (forall r', building r' -> streams (tab r') = streams (tab r) ->
    wp (rebuild_send_streams ids) r' (fun _ r' => building r')) as Hrec.
  { intros r' Hb' Es. apply IH; [done|]. intros j Hj. unfold live. rewrite Es. apply Hl. by right. }
  destruct (Hl i ltac:(by left)) as [s Hs]. apply (wp_stream_at i s); [done|].
  case_if; [by apply Hrec|]. case_if; [by apply Hrec|]. wps.
  eapply method_mono; [apply report_address_ok|]. intros x ? ->. wps.
  eapply method_mono; [by apply find_address_ok|]. intros [a|] r1 (Hb1 & Es1 & Ha); [|by wps]. wps.
  eapply method_mono; [apply rebuild_address_ok; [done|by apply Ha]|]. intros ? r2 (Hb2 & Es2 & Hr2). wps.
  eapply method_mono; [apply push_send_stream_ok; [done|unfold live; rewrite Es2, Es1; by exists s|done]|].
  intros ok r3 [Hb3 Es3]. destruct ok; cbn [negb]; [|by wps]. apply Hrec; [done|congruence].
Qed.

Lemma rebuild_sending_ok r : building r -> wp rebuild_sending r (fun _ r' => building r').
Proof.
  intros Hb. unfold rebuild_sending. wps. case_if; wps; [done|].
  assert (wp (match participant_report_mode_ (loc r) with
          | Report_ToAddress =>
              addr ← get_loc participant_report_addr_;
              found ← find_address_ addr AutoCreate;
              match found with
              | None => mret false
              | Some a => rebuild_address_ a;; mret true
              end
          | Report_Back => mret true
          end) r (fun _ r' => building r')) as Hfirst.
  { destruct (participant_report_mode_ (loc r)); wps; [|done].
    eapply method_mono; [by apply find_address_ok|]. intros [a|] r1 (Hb1 & Es1 & Ha); wps; [|done].
    eapply method_mono; [apply rebuild_address_ok; [done|by apply Ha]|]. intros ? r2 (Hb2 & _). by wps. }
  eapply method_mono; [exact Hfirst|]. intros ok r1 Hb1. destruct ok; cbn [negb]; wps; [|done].
  apply rebuild_send_streams_ok; [done|]. intros i Hi.
  destruct (store_live _ _ _ _ (tables_streams _ (inv_tables _ (b_inv _ Hb1))) i Hi) as [s Hs]. by exists s.
Qed.

Lemma rebuild_receiving_ok idx reports r :
  building r -> (idx + length reports <= length (local_recv_reports_ (loc r0)))%nat ->
  wp (rebuild_receiving idx reports) r (fun _ r' => building r').
Proof.
  revert idx r. induction reports as [|report reports IH]; intros idx r Hb Hlen; simpl in *; [by wps|]. wps.
  eapply method_mono; [apply find_stream_ok, Hb|]. intros [i|] r1 [Hg Hi];
    pose proof (building_grows _ _ Hb Hg) as Hb1; [|by wps].
  destruct (Hi i eq_refl) as (s & Hs & _). wps. apply (wp_stream_at i s); [done|]. wps.
  case_if; [apply IH; [done|lia]|]. case_if; [apply IH; [done|lia]|]. wps.
  eapply method_mono; [apply report_address_ok|]. intros x ? ->. wps.
  eapply method_mono; [by apply find_address_ok|]. intros [a|] r2 (Hb2 & Es2 & Ha); [|by wps]. wps.
  eapply method_mono; [apply rebuild_address_ok; [done|by apply Ha]|]. intros ? r3 (Hb3 & Es3 & Hr3). wps.
  assert (streams (tab r3) !! i = Some s) as Hs3 by (by rewrite Es3, Es2).
  eapply method_mono; [apply (push_recv_stream_ok i s idx); [done|done|done|rewrite (b_loc _ Hb3); lia]|].
  intros ok r4 (El4 & Es4 & Hb4). destruct ok; cbn [negb]; wps; [|done].
  apply (wp_upd_stream i _ s); [by rewrite Es4|]. rewrite El4. apply IH; [done|lia].
Qed.

(** * The end of the rebuild *)

Lemma rebuilt_first_remove time m lru a :
  rebuilt_first time m lru -> rebuilt_first time (delete a m) (without a lru).
Proof.
  intros (l1 & l2 & -> & H1 & H2). exists (without a l1), (without a l2).
  assert (forall b, b <> a -> rebuilt time (delete a m) b <-> rebuilt time m b) as Heq.
  { intros b Hne. unfold rebuilt. by rewrite lookup_delete_ne. }
  split; [unfold without; by rewrite filter_app|].
  rewrite Forall_forall in H1, H2. rewrite !Forall_forall.
  split; intros b [Hne Hb]%without_elem; rewrite Heq by done; auto.
Qed.

Lemma rebuilt_first_last time m lru a :
  rebuilt_first time m lru -> last lru = Some a -> rebuilt time m a -> Forall (rebuilt time m) lru.
Proof.
  intros (l1 & l2 & -> & H1 & H2) Hl Ha. destruct l2 as [|b l2 _] using rev_ind; [by rewrite app_nil_r|].
  rewrite app_assoc, last_snoc in Hl. injection Hl as ->.
  apply Forall_app in H2 as [_ H2]. rewrite Forall_singleton in H2. by destruct (H2 Ha).
Qed.

Lemma remove_address_building a r :
  building r -> known a r ->
  wp (remove_address_ a) r (fun _ r' => building r'
    /\ length (address_lru_ (tab r')) < length (address_lru_ (tab r)))%nat.
Proof.
  intros Hb Ha. pose proof (known_lru a r (b_inv _ Hb) Ha) as [Hl Hm].
  unfold remove_address_. wps. eapply wp_lift_res; [by apply remove_id_ok|]. wps.
  eapply wp_lift_res; [by apply remove_id_ok|]. wps. split.
  - match goal with |- building (set_tab ?tb _) => apply (building_addresses tb r Hb) end;
      [done| | |apply (b_index _ Hb)| |].
    + destruct (inv_tables _ (b_inv _ Hb)) as [Hs Has Hok]. split; simpl; [done| |done].
      by apply store_remove.
    + apply (b_need _ Hb).
    + intros Hf. simpl. by apply rebuilt_first_remove, (b_first _ Hb).
    + intros b x Hf. simpl. intros [_ Hx]%lookup_delete_Some. split; [by apply (b_le _ Hb b)|by apply (b_entries _ Hb b)].
  - simpl. assert (a :: without a (address_lru_ (tab r)) ≡ₚ address_lru_ (tab r)) as Hp.
    { apply without_cons_perm; [|done].
      rewrite (so_perm _ _ _ _ (tables_addresses _ (inv_tables _ (b_inv _ Hb)))).
      apply (so_nodup _ _ _ _ (tables_addresses _ (inv_tables _ (b_inv _ Hb)))). }
    apply Permutation_length in Hp. simpl in Hp. lia.
Qed.

(** All addresses that are left were rebuilt. *)
Definition all_rebuilt r : Prop :=
  forall a addr, addresses (tab r) !! a = Some addr -> last_rebuild addr = now.

Lemma prune_addresses_ok n r :
  building r -> (length (address_lru_ (tab r)) <= n)%nat ->
  wp (prune_addresses n) r (fun _ r' => building r' /\ (fresh -> all_rebuilt r')).
Proof.
  revert r. induction n as [|n IH]; intros r Hb Hn; cbn [prune_addresses]; wps.
  - split; [done|]. intros _ a addr Ha. apply Nat.le_0_r, nil_length_inv in Hn.
    destruct (known_lru a r (b_inv _ Hb)) as [Hin _]; [by exists addr|]. rewrite Hn in Hin.
    by apply not_elem_of_nil in Hin.
  - destruct (last (address_lru_ (tab r))) as [a|] eqn:E; wps.
    + pose proof E as Hin%last_Some_elem_of.
      destruct (store_lru_live _ _ _ _ (tables_addresses _ (inv_tables _ (b_inv _ Hb))) a Hin) as [addr Ha].
      apply (wp_address_at a addr); [done|]. wps. case_if; wps.
      * split; [done|]. intros Hf b x Hx.
        pose proof (rebuilt_first_last _ _ _ a (b_first _ Hb Hf) E) as Hall.
        rewrite Forall_forall in Hall. destruct (Hall ltac:(exists addr; rewrite Heqb; split; [done|apply Hb]) b)
          as (x' & Hx' & <-); [apply (known_lru b r (b_inv _ Hb)); by exists x|]. congruence.
      * eapply method_mono; [apply remove_address_building; [done|by exists addr]|]. intros ? r1 [Hb1 Hlt].
        apply IH; [done|lia].
    + split; [done|]. intros _ a addr Ha. apply last_None in E.
      destruct (known_lru a r (b_inv _ Hb)) as [Hin _]; [by exists addr|]. rewrite E in Hin.
      by apply not_elem_of_nil in Hin.
Qed.

Lemma fill_address_index_ok ids r :
  filling -> building r ->
  wp (fill_address_index ids) r (fun status r' => building r'
    /\ addresses (tab r') = addresses (tab r)
    /\ (status = StatusOK -> address_index_ (tab r') = address_index_ (tab r) ++ ids)).
Proof.
  intros Hfill. revert r. induction ids as [|a ids IH]; intros r Hb; simpl.
  { wps. split_and!; [done|done|by rewrite app_nil_r]. }
  wps; cbn [negb]; wps.
  - eapply method_mono; [apply IH|].
    + apply (building_addresses _ (next_asked r) (building_asked _ Hb)); [done| |apply (b_need _ Hb)|by left|apply (b_first _ Hb)|].
      * by destruct (inv_tables _ (b_inv _ Hb)).
      * intros b x Hf Hx. split; [by apply (b_le _ Hb b)|by apply (b_entries _ Hb b)].
    + intros st r' (Hb' & Ea & Hi). split_and!; [done|done|]. intros E. rewrite (Hi E). simpl.
      by rewrite <- app_assoc.
  - split_and!; [by apply building_asked|done|done].
Qed.

End Index.

Section Rebuild.

Context {P : Type} `{ParticipantContract P}.

#[local] Existing Instance M_ret.
#[local] Existing Instance M_bind.

Implicit Types (r : t P).

(** No address was rebuilt at the time of the call. *)
Definition fresh_time r : Prop := forall a addr,
  addresses (tab r) !! a = Some addr -> last_rebuild addr < report_time_ (ses r).

Lemma and_then_wp x y r (Q : StatusCode -> t P -> Prop) :
  wp x r (fun status r' => if decide (status = StatusOK) then wp y r' Q else Q status r') ->
  wp (and_then x y) r Q.
Proof.
  intros Hx. unfold and_then. wps. eapply method_mono; [exact Hx|]. intros st r'. cbv beta.
  destruct st; simpl; intros HQ; by wps.
Qed.

Lemma building_start r :
  inv r -> needs_rebuild r -> building r (fresh_time r) False (set_tab (set_address_index_ [] (tab r)) r).
Proof.
  intros Hr Hn. split; try done.
  - apply inv_set_tab; [done|]. by destruct (inv_tables _ Hr).
  - by right.
  - intros Hf. exists [], (address_lru_ (tab r)). split_and!; [done|done|]. rewrite Forall_forall.
    intros a _ (addr & Ha & Et). specialize (Hf a addr Ha). simpl in *. lia.
  - intros a addr Hf Ha. specialize (Hf a addr Ha). simpl in *. lia.
  - intros a addr Hf Ha Et. specialize (Hf a addr Ha). simpl in *. lia.
Qed.

Lemma building_fill r0 fresh r : building r0 fresh False r -> building r0 fresh True r.
Proof. intros []. split; try done. by left. Qed.

Lemma rebuild_index_ok r :
  inv r -> needs_rebuild r ->
  wp rebuild_index_ r (fun status r' => building r (fresh_time r) True r'
    /\ (status = StatusOK -> fresh_time r -> index_ok r')).
Proof.
  intros Hr Hn. unfold rebuild_index_. wps. apply wp_panic_when; [by rewrite Hn|]. wps.
  pose proof (building_start r Hr Hn) as Hb1. set (r1 := set_tab _ r) in *. clearbody r1.
  apply and_then_wp. eapply method_mono; [by apply (rebuild_sending_ok r (fresh_time r) False)|].
  intros st r2 Hb2. destruct (decide (st = StatusOK)) as [_|Hne];
    [|split; [by apply building_fill|done]]. wps.
  apply and_then_wp. eapply method_mono.
  { apply (rebuild_receiving_ok r (fresh_time r) False); [done|]. by rewrite (b_loc _ _ _ _ Hb2). }
  intros st3 r3 Hb3. destruct (decide (st3 = StatusOK)) as [_|Hne];
    [|split; [by apply building_fill|done]]. wps.
  eapply method_mono; [by apply (prune_addresses_ok r (fresh_time r) False)|]. intros ? r4 [Hb4 Hall]. wps.
  - cbn [negb]. wps. pose proof (building_fill _ _ _ (building_asked _ _ _ _ Hb4)) as Hb5.
    eapply method_mono; [by apply (fill_address_index_ok r (fresh_time r) True)|].
    intros st' r6 (Hb6 & Ea & Hi). split; [done|]. intros E Hf b Hin. rewrite (Hi E) in Hin.
    destruct (b_index _ _ _ _ Hb4) as [[]|E0]. simpl in Hin. rewrite E0 in Hin.
    destruct (store_live _ _ _ _ (tables_addresses _ (inv_tables _ (b_inv _ _ _ _ Hb4))) b Hin) as [addr Ha].
    exists addr. rewrite Ea. split; [done|]. apply (b_entries _ _ _ _ Hb6 b addr Hf); [by rewrite Ea|].
    by apply (Hall Hf b).
  - cbn [negb]. wps. split; [|done]. by apply building_fill, building_asked.
Qed.

End Rebuild.
