(* ===== verification/RtcpReporterGenerate.v ===== *)
(** The RTCP reporter keeps the promises that the communicator relies on when it takes
    received packets apart, for every participant that answers its queries properly.
    Generating reports, it fills every header and block that the
    communicator asks for, as long as its index is right and no collision is pending. *)

From stdpp Require Import gmap.
From S2P Require Import Prelude Bytes Ntp Float32 Slice Packet Io RtcpNtp RtcpHeaders RtcpTraverser.
From S2P Require Import RtcpTraverserSafe RtcpBuilder RtcpWire RtcpCommunicator RtcpRecorder.
From S2P Require Import RtcpProcessingSafe RtcpGenerate RtcpGenerateSafe.
From S2P Require Import RtcpEstimators RtcpReporter RtcpReporterInv RtcpReporterOps RtcpReporterProcess.
From S2P Require Import RtcpReporterIndex.
Import Reporter.

#[local] Open Scope Z_scope.

Section Begin.

Context {P : Type} `{ParticipantContract P}.

#[local] Existing Instance M_ret.
#[local] Existing Instance M_bind.

Implicit Types (r : t P).

(** * The index between calls *)

(** The index is correct or will be rebuilt, and no address was rebuilt in the future. *)
Definition indexed r : Prop :=
  (needs_rebuild r \/ index_ok r)
  /\ forall a addr, addresses (tab r) !! a = Some addr -> last_rebuild addr <= report_time_ (ses r).

Lemma index_ok_mono r r' :
  index_ok r -> address_index_ (tab r') = address_index_ (tab r) ->
  addresses (tab r') = addresses (tab r) ->
  (forall addr, entries_ok r addr -> entries_ok r' addr) -> index_ok r'.
Proof.
  intros Hi Ei Ea He a Hin. rewrite Ei in Hin. destruct (Hi a Hin) as (addr & Ha & Hent).
  exists addr. rewrite Ea. auto.
Qed.

Lemma step_indexed r r' : step r r' -> indexed r -> indexed r'.
Proof.
  intros Hs [Hi Hle]. split.
  - destruct (step_reports _ _ Hs) as [?|Hk]; [by left|].
    destruct Hi as [Hn|Hi]; [left; by apply (step_need _ _ Hs)|]. right.
    eapply index_ok_mono; [exact Hi|apply Hs|apply Hs|]. intros addr.
    apply entries_mono; [apply Hs|done].
  - intros a addr. rewrite (step_addresses _ _ Hs), (step_time _ _ Hs). apply Hle.
Qed.

Lemma queried_indexed r r' : queried r r' -> needs_rebuild r \/ index_ok r -> needs_rebuild r' \/ index_ok r'.
Proof.
  intros [Hi Es (b & Et & Hb) Hk] Hr. destruct Hk as [?|[Ee El]]; [by left|].
  destruct Hr as [Hn|Hx]; [left; unfold needs_rebuild; rewrite Et; by apply Hb|]. right.
  eapply index_ok_mono; [exact Hx|by rewrite Et|by rewrite Et|]. intros addr [H1 H2]. split.
  - eapply Forall_impl; [exact H1|]. intros i. unfold live. by rewrite Et.
  - eapply Forall_impl; [exact H2|]. intros i (s & idx & Hs & Hrep & Hidx).
    exists s, idx. rewrite Et, Ee, El. done.
Qed.

Record refreshed r (status : StatusCode) r' : Prop := {
  refreshed_inv : inv r';
  refreshed_state : report_state_ (ses r') = report_state_ (ses r);
  refreshed_time : report_time_ (ses r') = report_time_ (ses r);
  refreshed_reports : status = StatusOK -> reports_ready r';
  refreshed_index : needs_rebuild r \/ index_ok r -> fresh_time r -> indexed r';
  refreshed_ok : needs_rebuild r \/ index_ok r -> fresh_time r -> status = StatusOK -> index_ok r';
}.

Lemma refresh_streams_ok r : inv r -> wp refresh_streams_ r (refreshed r).
Proof.
  intros Hr. unfold refresh_streams_. apply and_then_wp.
  eapply method_mono; [by apply query_streams_ok|]. intros st r1 [Hq Hready].
  pose proof (queried_inv _ _ Hq) as Hr1. pose proof (queried_ses _ _ Hq) as Es1.
  destruct (queried_tab _ _ Hq) as (b & Et1 & _).
  assert (fresh_time r -> fresh_time r1) as Hfr.
  { unfold fresh_time. by rewrite Et1, Es1. }
  assert (fresh_time r -> forall a addr, addresses (tab r1) !! a = Some addr ->
            last_rebuild addr <= report_time_ (ses r1)) as Hle.
  { intros Hf a addr Ha. apply Z.lt_le_incl, (Hfr Hf a addr Ha). }
  destruct (decide (st = StatusOK)) as [->|Hne].
  2:{ split; [done|by rewrite Es1|by rewrite Es1|done| |by intros _ _ ?].
      intros Hi Hf. split; [by apply (queried_indexed r)|by apply Hle]. }
  specialize (Hready eq_refl). wps. destruct (need_rebuild_index_ (tab r1)) eqn:En; cbn [negb].
  2:{ wps. split; [done|by rewrite Es1|by rewrite Es1|done|..].
      - intros Hi Hf. split; [by apply (queried_indexed r)|by apply Hle].
      - intros Hi Hf _. destruct (queried_indexed r r1 Hq Hi) as [Hn|?]; [|done].
        unfold needs_rebuild in Hn. congruence. }
  apply and_then_wp. eapply method_mono; [by apply rebuild_index_ok|]. intros st r2 [Hb Hix].
  assert (fresh_time r1 -> forall a addr, addresses (tab r2) !! a = Some addr ->
            last_rebuild addr <= report_time_ (ses r2)) as Hle2.
  { intros Hf a addr Ha. rewrite (b_time _ _ _ _ Hb). by apply (b_le _ _ _ _ Hb a). }
  assert (report_state_ (ses r2) = report_state_ (ses r)) as Est
    by (by rewrite (b_state _ _ _ _ Hb), Es1).
  assert (report_time_ (ses r2) = report_time_ (ses r)) as Etm
    by (by rewrite (b_time _ _ _ _ Hb), Es1).
  destruct (decide (st = StatusOK)) as [->|Hne].
  - wps. assert (reports_ready r2) as Hrd2.
    { destruct Hready as [Hv Hc Hs]. split; rewrite ?(b_loc _ _ _ _ Hb), ?(b_participant _ _ _ _ Hb);
        rewrite ?Etm; rewrite ?Es1 in Hv; done. }
    split; [|done|done|by intros _; destruct Hrd2| |].
    + apply inv_set_tab; [apply Hb|]. apply tables_ok_need, (inv_tables r2), Hb.
    + intros Hi Hf. split; [right; by apply Hix, Hfr|]. by apply Hle2, Hfr.
    + intros Hi Hf _. by apply Hix, Hfr.
  - split; [apply Hb|done|done|done| |by intros _ _ ?]. intros Hi Hf. split; [left; apply Hb|]. by apply Hle2, Hfr.
Qed.

(** * The start of a call *)

(** [report_time_] after [set_time]. *)
Lemma set_time_range time old :
  is_time time -> 0 < (if negb (time =? old) then time else s64 (time + 1)) < 2 ^ 63.
Proof.
  unfold is_time. intros Ht. case_if; [lia|]. rewrite wrap_s_small by (unfold is_s; lia). lia.
Qed.

Lemma set_time_advances time old :
  is_time time -> old <= time -> old < (if negb (time =? old) then time else s64 (time + 1)).
Proof.
  unfold is_time. intros Ht Hle. case_if; [lia|]. rewrite wrap_s_small by (unfold is_s; lia). lia.
Qed.

(** A call was started in the state [st]; if time did not go back the index is right. *)
Record started (st : ReportState) (time : Z) r (status : StatusCode) r' : Prop := {
  started_inv : inv r';
  started_state : report_state_ (ses r') = if decide (status = StatusOK) then st else State_Idle;
  started_time : time <= report_time_ (ses r') <= time + 1;
  started_pos : 0 < report_time_ (ses r');
  started_reports : status = StatusOK -> reports_ready r';
  started_indexed : indexed r -> report_time_ (ses r) <= time -> indexed r';
  started_index : indexed r -> report_time_ (ses r) <= time -> status = StatusOK -> index_ok r';
}.

Lemma begin_ok st time r0 r :
  inv r0 -> is_time time -> tab r = tab r0 -> loc r = loc r0 -> participant_ r = participant_ r0 ->
  inactivity_timeout r = inactivity_timeout r0 -> valid_ r = valid_ r0 -> grants r = grants r0 ->
  current_sr_ (ses r) = current_sr_ (ses r0) -> current_rr_ (ses r) = current_rr_ (ses r0) ->
  report_time_ (ses r) = report_time_ (ses r0) -> report_state_ (ses r) = st ->
  wp (set_time time;; begin_refresh) r (started st time r0).
Proof.
  intros Hr Ht Etab Eloc Ep Eto Ev Eg Esr Err Etm Est. unfold set_time. wps.
  set (r1 := set_ses _ r).
  set (now := if negb (time =? report_time_ (ses r)) then time else s64 (time + 1)) in *.
  assert (0 < now < 2 ^ 63) as Hnow by (by apply set_time_range).
  assert (time <= now <= time + 1) as Hnear.
  { subst now. unfold is_time in Ht. case_if; [lia|]. rewrite wrap_s_small by (unfold is_s; lia). lia. }
  assert (report_time_ (ses r1) = now) as En by done.
  assert (report_state_ (ses r1) = st) as Es by done.
  assert (inv r1) as Hr1.
  { destruct Hr. split; simpl; try congruence; try lia. by rewrite Eloc. }
  assert (indexed r0 -> report_time_ (ses r0) <= time ->
    (needs_rebuild r1 \/ index_ok r1) /\ fresh_time r1) as Hpre.
  { intros [Hi Hle] Hmono. split.
    - destruct Hi as [Hn|Hi]; [left|right]; unfold needs_rebuild; simpl; [by rewrite Etab|].
      eapply index_ok_mono; [exact Hi|simpl; by rewrite Etab..|]. intros addr.
      apply entries_mono; [done|]. apply keeps_reports_refl. simpl. by rewrite Etab.
    - intros a addr. simpl. rewrite Etab. intros Ha. specialize (Hle a addr Ha).
      eapply Z.le_lt_trans; [exact Hle|]. change (report_time_ (ses r0) < now). subst now.
      rewrite Etm. by apply set_time_advances. }
  clearbody r1 now. unfold begin_refresh. wps. eapply method_mono; [by apply refresh_streams_ok|].
  intros status r2 Hf. destruct (decide (status = StatusOK)) as [->|Hne].
  - wps. split; try apply Hf; try done; rewrite ?(refreshed_time _ _ _ Hf), ?En; try lia.
    + simpl. by rewrite (refreshed_state _ _ _ Hf).
    + intros Hi Hm. destruct (Hpre Hi Hm). by apply Hf.
    + intros Hi Hm _. destruct (Hpre Hi Hm). by apply Hf.
  - assert (wp (with_ses (set_report_state_ State_Idle);; mret status) r2 (started st time r0)) as Hw.
    { wps. split; simpl; rewrite ?decide_False by done; rewrite ?(refreshed_time _ _ _ Hf), ?En; try done.
      - apply inv_state, Hf.
      - lia.
      - intros Hi Hm. destruct (Hpre Hi Hm) as [Hi1 Hf1].
        destruct (refreshed_index _ _ _ Hf Hi1 Hf1) as [Hix Hle]. split; [|done].
        destruct Hix as [?|Hix]; [by left|right]. eapply index_ok_mono; [exact Hix|done..]. }
    by destruct status.
Qed.

Lemma begin_processing_started addr time r :
  inv r -> report_state_ (ses r) = State_Idle -> is_time time ->
  wp (Reporter.begin_processing addr time) r (started State_Processing time r).
Proof.
  intros Hr Hst Ht. unfold Reporter.begin_processing, check_valid. wps.
  apply wp_panic_when; [by rewrite (inv_valid _ Hr)|]. wps.
  apply wp_expect; [by rewrite Hst|]. wps.
  apply wp_panic_when; [apply Z.leb_gt; unfold is_time in Ht; lia|].
  apply method_bind, wp_with_ses. by apply begin_ok.
Qed.

Lemma begin_generation_started time r :
  inv r -> report_state_ (ses r) = State_Idle -> is_time time ->
  wp (Reporter.begin_generation time) r (started State_Generating time r).
Proof.
  intros Hr Hst Ht. unfold Reporter.begin_generation, check_valid. wps.
  apply wp_panic_when; [by rewrite (inv_valid _ Hr)|]. wps.
  apply wp_expect; [by rewrite Hst|]. wps.
  apply wp_panic_when; [apply Z.leb_gt; unfold is_time in Ht; lia|].
  apply method_bind, wp_with_ses. by apply begin_ok.
Qed.

End Begin.

(** * Bytes of the objects *)

(** An object of [4 + n] bytes that starts with [h]. *)
Definition starts (h : bytes) (n : nat) (m : bytes) : Prop :=
  take 4 m = h /\ length m = (4 + n)%nat /\ Forall is_byte m.

Lemma starts_store e h n m k off v :
  starts h n m -> (4 <= off)%nat -> (off + k <= 4 + n)%nat -> starts h n (store e k m off v).
Proof.
  intros (Ht & Hl & Hb) H4 Hoff. unfold store. 
  assert (forall bs, length bs = k -> Forall is_byte bs -> starts h n (overwrite m off bs)) as Hov.
  { intros bs Hlb Hbs. split_and!.
    - unfold overwrite. rewrite take_app_le by (rewrite length_take; lia).
      rewrite take_take. by replace (Nat.min 4 off) with 4%nat by lia.
    - rewrite length_overwrite; lia.
    - by apply overwrite_Forall. }
  destruct e; apply Hov; auto using length_le_bytes, length_be_bytes, le_bytes_Forall, be_bytes_Forall.
Qed.

Lemma starts_split h n m : starts h n m -> exists body, m = h ++ body /\ bytes_of_len n body = true.
Proof.
  intros (Ht & Hl & Hb). exists (drop 4 m). split; [by rewrite <- Ht, take_drop|].
  unfold bytes_of_len. rewrite length_drop, Hl. apply andb_true_iff. split; [apply Nat.eqb_eq; lia|].
  apply forallb_forall. intros b Hin%list_elem_of_In. apply bool_decide_eq_true.
  rewrite Forall_forall in Hb. apply Hb. by apply subseteq_drop in Hin.
Qed.

Lemma starts_bytes n m : length m = n -> Forall is_byte m -> bytes_of_len n m = true.
Proof.
  intros Hl Hb. unfold bytes_of_len. rewrite Hl, Nat.eqb_refl. apply forallb_forall.
  intros b Hin%list_elem_of_In. apply bool_decide_eq_true. rewrite Forall_forall in Hb. by apply Hb.
Qed.

Lemma starts_ts e h n m k off v : starts h n m -> (4 <= off)%nat -> (off + k <= 4 + n)%nat ->
  xb_type_specific (store e k m off v) 0 = xb_type_specific m 0.
Proof.
  intros Hs H4 Hoff. pose proof (starts_store e h n m k off v Hs H4 Hoff) as (Ht' & _).
  destruct Hs as (Ht & _). unfold xb_type_specific. rewrite !list_lookup_total_alt.
  rewrite <- (lookup_take_lt _ 4), Ht', <- Ht, lookup_take_lt by lia. done.
Qed.

(** The four bytes at [p] of an object. *)
Definition field (p : nat) (m : bytes) : bytes := slice_of m p 4.

Lemma reverse_octets_32_wrap v : reverse_octets_32 (u32 v) = reverse_octets_32 v.
Proof.
  assert (forall c, Z.land (Z.ones 32) c = c -> Z.land (u32 v) c = Z.land v c) as Hc.
  { intros c Hc. unfold wrap_u. by rewrite <- Z.land_ones, <- Z.land_assoc, Hc by lia. }
  unfold reverse_octets_32. by rewrite !Hc by reflexivity.
Qed.

Lemma le_bytes_wrap n v : le_bytes n (wrap_u (8 * Z.of_nat n) v) = le_bytes n v.
Proof.
  unfold wrap_u. revert v. induction n as [|n IH]; intros v; [done|]. cbn [le_bytes].
  replace (2 ^ (8 * Z.of_nat (S n))) with (256 * 2 ^ (8 * Z.of_nat n))
    by (replace (8 * Z.of_nat (S n)) with (8 + 8 * Z.of_nat n) by lia; by rewrite Z.pow_add_r by lia).
  rewrite Z.rem_mul_r by lia. rewrite <- (IH (v / 256)). f_equal.
  - rewrite Z.add_mod, Z.mul_comm, Z.mod_mul, Z.add_0_r by lia. by rewrite !Z.mod_mod by lia.
  - f_equal. rewrite Z.add_comm, Z.mul_comm, Z.div_add_l by lia.
    rewrite (Z.div_small (v mod 256)) by (apply Z.mod_pos_bound; lia). lia.
Qed.

(** A field in network order, whatever the value. *)
Lemma store_ssrc e m p v : store e 4 m p (hton32u e v) = overwrite m p (be_bytes 4 v).
Proof.
  destruct e; [|done]. unfold hton32u, swap_native_be. rewrite <- reverse_octets_32_wrap.
  pose proof (store32_net CPU_LE m p (u32 v)) as E. cbn [swap_native_be] in E.
  rewrite E by (apply wrap_u_range; lia). f_equal. unfold be_bytes. f_equal. apply (le_bytes_wrap 4).
Qed.

Lemma field_ssrc e m p v : (p + 4 <= length m)%nat -> field p (store e 4 m p (hton32u e v)) = be_bytes 4 v.
Proof.
  intros Hp. rewrite store_ssrc. unfold field. rewrite <- (length_be_bytes 4 v) at 2.
  apply slice_overwrite_same. by rewrite length_be_bytes.
Qed.

Lemma field_store e k m off v p :
  (off + k <= length m)%nat -> (p + 4 <= off \/ off + k <= p)%nat -> field p (store e k m off v) = field p m.
Proof.
  intros Hl Hd. unfold field, store.
  destruct e; apply slice_overwrite_disjoint; rewrite ?length_le_bytes, ?length_be_bytes; lia.
Qed.

(** An object that starts with [h] and has the SSRC [ssrc] next. *)
Definition starts_with (h : bytes) (n : nat) (ssrc m : bytes) : Prop := starts h n m /\ field 4 m = ssrc.

Lemma starts_with_ssrc e h n m v :
  starts h n m -> (4 <= n)%nat -> starts_with h n (be_bytes 4 v) (store e 4 m 4 (hton32u e v)).
Proof.
  intros Hm Hn. split; [by apply starts_store; [|lia|lia]|]. apply field_ssrc.
  destruct Hm as (_ & -> & _). lia.
Qed.

Lemma starts_with_store e h n ssrc m k off v :
  starts_with h n ssrc m -> (8 <= off)%nat -> (off + k <= 4 + n)%nat ->
  starts_with h n ssrc (store e k m off v).
Proof.
  intros [Hm Hf] H8 Hoff. split; [by apply starts_store; [|lia|]|].
  rewrite field_store; [done|destruct Hm as (_ & -> & _); lia|lia].
Qed.

(** * The state while reports are generated *)

Section Generate.

Context {P : Type} `{ParticipantContract P} (host : cpu_endian) (attempts : nat).

#[local] Existing Instance M_ret.
#[local] Existing Instance M_bind.
#[local] Instance this_reporter : IReporter (t P) := reporter_ireporter host attempts.

(** The address of an index, and the SSRC of a stream of it. *)
Definition indexed_address (a : nat) (r : t P) : option Address :=
  match address_index_ (tab r) !! a with Some i => addresses (tab r) !! i | None => None end.

Definition stream_ssrc (ids : option (list nat)) (i : nat) (r : t P) : bytes :=
  match ids ≫= (.!! i) with
  | Some j => match streams (tab r) !! j with Some s => be_bytes 4 (source_id s) | None => [] end
  | None => []
  end.

#[export] Instance reporter_streams : ReportedStreams (t P) := {|
  dest_of a r := indexed_address a r ≫= dest_address;
  send_ssrc a i r := stream_ssrc (send_stream_index <$> indexed_address a r) i r;
  recv_ssrc a i r := stream_ssrc (recv_stream_index <$> indexed_address a r) i r;
|}.

Implicit Types (r : t P).

Record is_filling r : Prop := {
  filling_inv : inv r;
  filling_state : report_state_ (ses r) = State_Generating;
  filling_indexed : indexed r;
  filling_index : index_ok r;
  filling_reports : reports_ready r;
  filling_collision : collision_detected_ (ses r) = false;
  filling_time : 0 < report_time_ (ses r);
}.

(** What the communicator sees stays the same. *)
Record same_view r r' : Prop := {
  view_participant : participant_ r' = participant_ r;
  view_loc : loc r' = loc r;
  view_valid : valid_ r' = valid_ r;
  view_timeout : inactivity_timeout r' = inactivity_timeout r;
  view_addresses : addresses (tab r') = addresses (tab r);
  view_sources i : source_id <$> streams (tab r') !! i = source_id <$> streams (tab r) !! i;
  view_index : address_index_ (tab r') = address_index_ (tab r);
  view_state : report_state_ (ses r') = report_state_ (ses r);
  view_time : report_time_ (ses r') = report_time_ (ses r);
  view_collision : collision_detected_ (ses r') = collision_detected_ (ses r);
}.

Lemma same_view_streams r r' : same_view r r' -> same_streams r r'.
Proof.
  intros [Ep El Ev Eo Ea Esrc Ei Es Et Ec].
  assert (forall a, indexed_address a r' = indexed_address a r) as Hix
    by (intros a; unfold indexed_address; by rewrite Ei, Ea).
  assert (forall ids i, stream_ssrc ids i r' = stream_ssrc ids i r) as Hss.
  { intros ids i. unfold stream_ssrc. destruct (ids ≫= (.!! i)) as [j|]; [|done].
    specialize (Esrc j). destruct (streams (tab r') !! j), (streams (tab r) !! j); try done.
    cbn in Esrc. congruence. }
  split; simpl; intros; rewrite ?Hss, ?Hix; try done; unfold answer, Reporter.is_sending, Reporter.is_receiving, check_valid,
    Reporter.num_dest_addresses, Reporter.num_sending_streams, Reporter.num_receiving_streams,
    Reporter.need_goodbye, expect, get, get_tab, get_ses, panic_when, mbind, M_bind; simpl;
    rewrite ?Ev, ?Es; repeat case_if; simpl; rewrite ?Ep, ?Ei, ?Ec; try done.
  all: unfold address_by_index, get_tab, lift_res, address_at, mbind, M_bind; simpl; rewrite Ei;
    destruct (array_get (address_index_ (tab r)) a); [|done]; simpl; rewrite Ea;
    by destruct (addresses (tab r) !! _).
Qed.

Lemma same_view_refl r : same_view r r.
Proof. done. Qed.

(** The result of filling an object. *)
Definition fills {A} (ok : A -> Prop) r (x : A) r' : Prop := ok x /\ is_filling r' /\ same_view r r'.

Lemma fills_refl {A} (ok : A -> Prop) r x : is_filling r -> ok x -> fills ok r x r.
Proof. intros. split_and!; try done. Qed.

Lemma expect_generating r (Q : () -> t P -> Prop) :
  is_filling r -> Q () r -> wp (expect is_generating) r Q.
Proof. intros Hr. apply wp_expect. by rewrite (filling_state _ Hr). Qed.

Lemma is_sending_wp r (Q : bool -> t P -> Prop) :
  inv r -> Q (has_send_stream (participant_ r)) r -> wp Reporter.is_sending r Q.
Proof.
  intros Hr HQ. unfold Reporter.is_sending, check_valid. wps.
  apply wp_panic_when; [by rewrite (inv_valid _ Hr)|]. by wps.
Qed.

Lemma is_receiving_wp r (Q : bool -> t P -> Prop) :
  inv r -> Q (negb (num_recv_streams (participant_ r) =? 0)%nat) r -> wp Reporter.is_receiving r Q.
Proof.
  intros Hr HQ. unfold Reporter.is_receiving, check_valid. wps.
  apply wp_panic_when; [by rewrite (inv_valid _ Hr)|]. by wps.
Qed.

Lemma wp_answer {A} (m : M A) d r (Q : A -> t P -> Prop) :
  wp m r Q -> exists r', Q (answer m d r) r'.
Proof. intros (a & r' & E & HQ). exists r'. unfold answer. by rewrite E. Qed.

Lemma sending_eq r : inv r -> RtcpCommunicator.is_sending r = has_send_stream (participant_ r).
Proof.
  intros Hr. destruct (wp_answer Reporter.is_sending false r
    (fun b _ => b = has_send_stream (participant_ r))) as [_ E]; [by apply is_sending_wp|done].
Qed.

Lemma receiving_eq r :
  inv r -> RtcpCommunicator.is_receiving r = negb (num_recv_streams (participant_ r) =? 0)%nat.
Proof.
  intros Hr. destruct (wp_answer Reporter.is_receiving false r
    (fun b _ => b = negb (num_recv_streams (participant_ r) =? 0)%nat)) as [_ E];
    [by apply is_receiving_wp|done].
Qed.

Lemma require_receiving_wp r (Q : () -> t P -> Prop) :
  inv r -> RtcpCommunicator.is_receiving r = true -> Q () r -> wp require_receiving r Q.
Proof.
  intros Hr E HQ. rewrite receiving_eq in E by done. unfold require_receiving. wps.
  apply is_receiving_wp; [done|]. rewrite E. by apply wp_panic_when.
Qed.

(** ** The index *)

Lemma num_dest_eq r : is_filling r -> RtcpCommunicator.num_dest_addresses r = length (address_index_ (tab r)).
Proof.
  intros Hr. destruct (wp_answer Reporter.num_dest_addresses O r
    (fun n _ => n = length (address_index_ (tab r)))) as [_ E]; [|done].
  unfold Reporter.num_dest_addresses. wps. apply expect_generating; [done|]. by wps.
Qed.

Lemma address_by_index_ok a r :
  is_filling r -> (a < RtcpCommunicator.num_dest_addresses r)%nat ->
  exists addr, indexed_address a r = Some addr /\ entries_ok r addr
    /\ forall Q : Address -> t P -> Prop, Q addr r -> wp (address_by_index a) r Q.
Proof.
  intros Hr Ha. rewrite num_dest_eq in Ha by done. apply lookup_lt_is_Some_2 in Ha as [i Hi].
  destruct (filling_index _ Hr i) as (addr & Haddr & Hent); [by apply list_elem_of_lookup_2 with a|].
  exists addr. split; [unfold indexed_address; by rewrite Hi|]. split; [done|].
  intros Q HQ. unfold address_by_index. wps.
  apply (wp_lift_res _ i); [unfold array_get; by rewrite Hi|]. by apply (wp_address_at i addr).
Qed.

Lemma recv_stream_ok a i r :
  is_filling r -> (a < RtcpCommunicator.num_dest_addresses r)%nat ->
  (i < RtcpCommunicator.num_receiving_streams a r)%nat ->
  exists j, has_report r j
    /\ (forall s, streams (tab r) !! j = Some s -> recv_ssrc a i r = be_bytes 4 (source_id s))
    /\ forall Q : nat -> t P -> Prop, Q j r -> wp (recv_stream_by_index a i) r Q.
Proof.
  intros Hr Ha Hi. destruct (address_by_index_ok a r Hr Ha) as (addr & Hix & [_ Hent] & Hwp).
  destruct (wp_answer (Reporter.num_receiving_streams a) O r
    (fun n _ => n = length (recv_stream_index addr))) as [_ E].
  { unfold Reporter.num_receiving_streams. wps. apply expect_generating; [done|]. wps. apply Hwp. by wps. }
  assert (i < length (recv_stream_index addr))%nat as Hlt by (by rewrite <- E).
  apply lookup_lt_is_Some_2 in Hlt as [j Hj]. rewrite Forall_forall in Hent. exists j.
  split; [by apply Hent, list_elem_of_lookup_2 with i|].
  split; [intros s Hs; simpl; unfold stream_ssrc; rewrite Hix; simpl; by rewrite Hj, Hs|]. intros Q HQ.
  unfold recv_stream_by_index. wps. apply Hwp. apply (wp_lift_res _ j); [unfold array_get; by rewrite Hj|done].
Qed.

Lemma send_stream_ok a i r :
  is_filling r -> (a < RtcpCommunicator.num_dest_addresses r)%nat ->
  (i < RtcpCommunicator.num_sending_streams a r)%nat ->
  exists j, live j r
    /\ (forall s, streams (tab r) !! j = Some s -> send_ssrc a i r = be_bytes 4 (source_id s))
    /\ forall Q : nat -> t P -> Prop, Q j r -> wp (send_stream_by_index a i) r Q.
Proof.
  intros Hr Ha Hi. destruct (address_by_index_ok a r Hr Ha) as (addr & Hix & [Hent _] & Hwp).
  destruct (wp_answer (Reporter.num_sending_streams a) O r
    (fun n _ => n = length (send_stream_index addr))) as [_ E].
  { unfold Reporter.num_sending_streams. wps. apply expect_generating; [done|]. wps. apply Hwp. by wps. }
  assert (i < length (send_stream_index addr))%nat as Hlt by (by rewrite <- E).
  apply lookup_lt_is_Some_2 in Hlt as [j Hj]. rewrite Forall_forall in Hent. exists j.
  split; [by apply Hent, list_elem_of_lookup_2 with i|].
  split; [intros s Hs; simpl; unfold stream_ssrc; rewrite Hix; simpl; by rewrite Hj, Hs|]. intros Q HQ.
  unfold send_stream_by_index. wps. apply Hwp. apply (wp_lift_res _ j); [unfold array_get; by rewrite Hj|done].
Qed.

Lemma local_report_ok j r :
  is_filling r -> has_report r j ->
  exists s report, streams (tab r) !! j = Some s
    /\ valid_recv_report (participant_info (participant_ r)) (report_time_ (ses r)) report
    /\ forall Q : RecvReport.t -> t P -> Prop, Q report r -> wp (local_report s) r Q.
Proof.
  intros Hr (s & idx & Hs & El & Hidx). apply lookup_lt_is_Some_2 in Hidx as [report Hrep].
  exists s, report. split; [done|]. split.
  - pose proof (ready_reports _ (filling_reports _ Hr)) as Hv. rewrite Forall_forall in Hv.
    by apply Hv, list_elem_of_lookup_2 with idx.
  - intros Q HQ. unfold local_report. wps. rewrite El, Nat.eqb_refl.
    apply (wp_lift_res _ report); [unfold array_get; by rewrite Hrep|done].
Qed.

Lemma last_report_ok last r :
  inv r -> exists x, last_report last (report_time_ (ses r)) = Ok x.
Proof.
  intros Hr. unfold last_report. case_if; [|by eexists].
  destruct (inv_time _ Hr). rewrite wrap_s_small by (unfold is_s; lia).
  destruct (nanoseconds_2_ntp_ok (report_time_ (ses r) - last)) as [n ->]; [lia|]. by eexists.
Qed.

(** ** Changes of the state *)

Lemma filling_view r r' :
  is_filling r -> same_view r r' -> inv r' -> keeps_reports r r' ->
  is_filling r'.
Proof.
  intros [Hi Hs [Hx Hle] Hix Hrep Hc Ht] [Ep El Ev Eo Ea Esrc Ei Es Et Ec] Hi' Hk.
  assert (index_ok r') as Hix'.
  { eapply index_ok_mono; [exact Hix|done|done|]. intros addr. by apply entries_mono. }
  split; [done|congruence| |done| |congruence|by rewrite Et].
  - split; [by right|]. rewrite Ea, Et. done.
  - destruct Hrep. split; rewrite ?El, ?Ep, ?Et; done.
Qed.

Lemma filling_ses s r :
  is_filling r -> report_state_ s = report_state_ (ses r) -> report_time_ s = report_time_ (ses r) ->
  collision_detected_ s = collision_detected_ (ses r) ->
  0 <= current_sr_ s < 2 ^ 63 -> 0 <= current_rr_ s < 2 ^ 63 ->
  is_filling (set_ses s r) /\ same_view r (set_ses s r).
Proof.
  intros Hr Es Et Ec Hsr Hrr. assert (same_view r (set_ses s r)) as Hv by done.
  split; [|done]. eapply filling_view; [done|done| |by apply keeps_reports_refl].
  destruct (filling_inv _ Hr). split; simpl; try done; congruence.
Qed.

(** ** The objects *)

Lemma generate_dest_address_fills a r :
  is_filling r -> (a < RtcpCommunicator.num_dest_addresses r)%nat ->
  wp (Reporter.generate_dest_address a) r (fills (fun addr => addr = dest_of a r) r).
Proof.
  intros Hr Ha. unfold Reporter.generate_dest_address. wps. apply expect_generating; [done|]. wps.
  destruct (address_by_index_ok a r Hr Ha) as (addr & Hix & _ & Hwp). apply Hwp. wps.
  apply fills_refl; [done|]. simpl. by rewrite Hix.
Qed.

Lemma generate_cname_fills r :
  is_filling r ->
  wp Reporter.generate_cname r
    (fills (fun x : Z * (Z * bytes) => x.2.1 = SDES_CNAME /\ valid_chunk (x.1, [x.2]) = true) r).
Proof.
  intros Hr. unfold Reporter.generate_cname. wps. apply expect_generating; [done|]. wps.
  apply fills_refl; [done|]. split; [done|]. pose proof (filling_inv _ Hr) as Hi.
  destruct (participant_info_ok (participant_ r) (inv_good _ Hi)) as [Hu Hcn].
  destruct (Hcn _ (inv_cname _ Hi)) as [Htext Hne]. rewrite (inv_source _ Hi) in Hu.
  unfold valid_chunk, is_u32, valid_item. simpl. rewrite bool_decide_true by done. simpl.
  rewrite Htext. destruct (local_cname_ (loc r)); [done|]. done.
Qed.

Lemma starts_header t n m : starts (new_header t) n m -> is_header t n m.
Proof. apply starts_split. Qed.

Lemma starts_block t ts n mk m :
  (forall body, valid_block (mk ts body) = bytes_of_len n body) ->
  starts (new_block t ts) n m -> is_block t mk m.
Proof. intros Hv (body & -> & Hb)%starts_split. exists ts, body. split; [done|]. by rewrite Hv. Qed.

Lemma starts_with_block t ts n mk ssrc m :
  (forall body, valid_block (mk ts body) = bytes_of_len n body) ->
  starts_with (new_block t ts) n ssrc m -> is_stream_block t mk ssrc m.
Proof.
  intros Hv [Hs <-]. pose proof Hs as (body & -> & Hb)%starts_split. exists ts, body.
  split; [done|]. by rewrite Hv.
Qed.

Lemma starts_blank h n : Forall is_byte h -> length h = 4%nat -> starts h n (h ++ replicate n 0).
Proof.
  intros Hh Hl. split_and!.
  - by apply take_app_length'.
  - rewrite length_app, length_replicate. lia.
  - apply Forall_app. split; [done|]. apply Forall_replicate. vm_compute. split; congruence.
Qed.

(** Objects that are filled with the value for absent metrics. *)
Lemma starts_unavail h n k :
  Forall is_byte h -> length h = 4%nat -> starts h (n + k) (h ++ replicate n 0 ++ replicate k 255).
Proof.
  intros Hh Hl. split_and!.
  - by apply take_app_length'.
  - rewrite !length_app, !length_replicate. lia.
  - repeat (apply Forall_app; split; [done || (apply Forall_replicate; by vm_compute)|]).
    apply Forall_replicate. by vm_compute.
Qed.

Ltac stores := repeat (apply starts_store; [|lia|lia]).
Ltac stores_with := repeat (apply starts_with_store; [|lia|lia]).

Lemma generate_sr_fills r :
  is_filling r -> RtcpCommunicator.is_sending r = true ->
  wp (Reporter.generate_sr host) r (fills (is_header RTCP_SR 24) r).
Proof.
  intros Hr Hs. pose proof (filling_inv _ Hr) as Hi. rewrite sending_eq in Hs by done.
  unfold Reporter.generate_sr. wps. apply expect_generating; [done|]. wps.
  apply is_sending_wp; [done|]. rewrite Hs. wps. apply wp_panic_when; [done|]. wps.
  apply (wp_lift_res _ (new_header RTCP_SR ++ replicate 24 0));
    [destruct host; vm_compute; reflexivity|]. wps.
  destruct (unix_2_ntp_ok (report_time_ (ses r)) (inv_time _ Hi)) as [ntp Hn].
  apply (wp_lift_res _ ntp); [done|]. wps.
  destruct (filling_ses (set_current_sr_ (report_time_ (ses r)) (ses r)) r Hr) as [Hf Hv];
    [done|done|done|apply (inv_time _ Hi)|apply (inv_rr _ Hi)|].
  split_and!; [|done|done]. apply starts_header.
  unfold sr_set_byte_count, sr_set_packet_count, sr_set_rtp_timestamp, sr_set_ntp_timestamp,
    ntp64_set_value, sr_set_ssrc. stores. apply starts_blank; [|done].
  by repeat constructor.
Qed.

Lemma generate_rr_fills r :
  is_filling r -> wp (Reporter.generate_rr host) r (fills (is_header RTCP_RR 4) r).
Proof.
  intros Hr. pose proof (filling_inv _ Hr) as Hi.
  unfold Reporter.generate_rr. wps. apply expect_generating; [done|]. wps.
  apply (wp_lift_res _ (new_header RTCP_RR ++ replicate 4 0));
    [destruct host; vm_compute; reflexivity|]. wps.
  destruct (filling_ses (set_current_rr_ (report_time_ (ses r)) (ses r)) r Hr) as [Hf Hv];
    [done|done|done|apply (inv_sr _ Hi)|apply (inv_time _ Hi)|].
  split_and!; [|done|done]. apply starts_header. unfold rr_set_ssrc. stores.
  apply starts_blank; [|done]. by repeat constructor.
Qed.

Lemma generate_xr_fills r :
  is_filling r -> RtcpCommunicator.is_sending r = true \/ RtcpCommunicator.is_receiving r = true ->
  wp (Reporter.generate_xr host) r (fills (is_header RTCP_XR 4) r).
Proof.
  intros Hr Hs. pose proof (filling_inv _ Hr) as Hi. rewrite sending_eq, receiving_eq in Hs by done.
  unfold Reporter.generate_xr. wps. apply expect_generating; [done|]. wps.
  apply is_sending_wp; [done|]. wps. apply is_receiving_wp; [done|]. wps.
  apply wp_panic_when; [destruct Hs as [-> | ->]; by rewrite ?andb_false_r|]. wps.
  apply (wp_lift_res _ (new_header RTCP_XR ++ replicate 4 0));
    [destruct host; vm_compute; reflexivity|]. wps.
  apply fills_refl; [done|]. apply starts_header. unfold xr_set_ssrc. stores.
  apply starts_blank; [|done]. by repeat constructor.
Qed.

Lemma generate_rrtr_block_fills r :
  is_filling r -> RtcpCommunicator.is_receiving r = true ->
  wp (Reporter.generate_rrtr_block host) r (fills (is_block XR_RRTR BlkRrtr) r).
Proof.
  intros Hr Hs. pose proof (filling_inv _ Hr) as Hi.
  unfold Reporter.generate_rrtr_block. wps. apply expect_generating; [done|]. wps.
  apply require_receiving_wp; [done|done|]. wps.
  destruct (unix_2_ntp_ok (report_time_ (ses r)) (inv_time _ Hi)) as [ntp Hn].
  apply (wp_lift_res _ ntp); [done|]. wps. apply fills_refl; [done|].
  apply (starts_block _ 0 8); [done|].
  replace (rrtr_reset host (blank sizeof_XrRrtrBlock) 0) with (new_block XR_RRTR 0 ++ replicate 8 0)
    by (destruct host; vm_compute; reflexivity).
  unfold rrtr_set_ntp_timestamp, ntp64_set_value. stores. apply starts_blank; [|done]. by repeat constructor.
Qed.

Lemma generate_measurement_info_block_fills a i r :
  is_filling r -> RtcpCommunicator.is_receiving r = true ->
  (a < RtcpCommunicator.num_dest_addresses r)%nat -> (i < RtcpCommunicator.num_receiving_streams a r)%nat ->
  wp (Reporter.generate_measurement_info_block host a i) r
    (fills (is_stream_block XR_MEASUREMENT_INFO BlkMeasurementInfo (recv_ssrc a i r)) r).
Proof.
  intros Hr Hs Ha Hi. unfold Reporter.generate_measurement_info_block. wps.
  apply require_receiving_wp; [apply Hr|done|]. wps.
  destruct (recv_stream_ok a i r Hr Ha Hi) as (j & Hj & Htag & Hwp). apply Hwp. wps.
  destruct (local_report_ok j r Hr Hj) as (s & report & Hsj & _ & Hrep).
  apply (wp_stream_at j s); [done|]. wps. apply Hrep. wps. apply fills_refl; [done|].
  rewrite (Htag s Hsj). apply (starts_with_block _ 0 28); [done|].
  replace (mi_reset host (blank sizeof_XrMeasurementInfoBlock) 0)
    with (new_block XR_MEASUREMENT_INFO 0 ++ replicate 28 0) by (destruct host; vm_compute; reflexivity).
  unfold mi_set_cum_duration, mi_set_interval_duration, mi_set_interval_last_seq,
    mi_set_interval_first_seq, mi_set_first_seq, mi_set_ssrc, ntp64_set_value, ntp32_set_value.
  stores_with. apply starts_with_ssrc; [|lia]. apply starts_blank; [|done]. by repeat constructor.
Qed.

(** The metric flag is in the byte of type-specific bits. *)
Lemma starts_flag t n ssrc m :
  starts_with (new_block t 0) n ssrc m ->
  starts_with (new_block t 64) n ssrc (xb_set_type_specific m 0
    (set_bit_field 8 (xb_type_specific m 0) MetricFlag_SampledValue 6 0x03)).
Proof.
  intros [(Ht & Hl & Hb) Hf]. destruct m as [|b0 [|b1 [|b2 [|b3 m]]]]; try done.
  simpl in Ht. injection Ht as -> -> -> ->. simpl in Hl. split; [|exact Hf]. split_and!; [done|simpl; lia|].
  apply Forall_cons in Hb as [? Hb]. apply Forall_cons in Hb as [? Hb].
  change (Forall is_byte (t :: 64 :: 0 :: 0 :: m)). constructor; [done|].
  constructor; [by vm_compute|exact Hb].
Qed.

Lemma generate_delay_metrics_block_fills a i r :
  is_filling r -> RtcpCommunicator.is_receiving r = true ->
  (a < RtcpCommunicator.num_dest_addresses r)%nat -> (i < RtcpCommunicator.num_receiving_streams a r)%nat ->
  wp (Reporter.generate_delay_metrics_block host a i) r
    (fills (is_stream_block XR_DELAY_METRICS BlkDelayMetrics (recv_ssrc a i r)) r).
Proof.
  intros Hr Hs Ha Hi. unfold Reporter.generate_delay_metrics_block. wps.
  apply require_receiving_wp; [apply Hr|done|]. wps.
  destruct (recv_stream_ok a i r Hr Ha Hi) as (j & Hj & Htag & Hwp). apply Hwp. wps.
  destruct (local_report_ok j r Hr Hj) as (s & report & Hsj & _ & Hrep).
  apply (wp_stream_at j s); [done|]. wps.
  replace (dm_reset host (blank sizeof_XrDelayMetricsBlock) 0)
    with (new_block XR_DELAY_METRICS 0 ++ replicate 4 0 ++ replicate 20 255) by (destruct host; vm_compute; reflexivity).
  set (blk := dm_set_metric_flag _ _ _).
  assert (starts_with (new_block XR_DELAY_METRICS 64) 24 (recv_ssrc a i r) blk) as Hblk.
  { subst blk. rewrite (Htag s Hsj). apply starts_flag. unfold dm_set_ssrc. apply starts_with_ssrc; [|lia].
    apply (starts_unavail _ 4 20); [|done]. by repeat constructor. }
  clearbody blk.
  assert (wp (if RttEstimator.has_metrics_ (remote_send_rtt (recv_side s)) then
      ntp ← lift_res (nanoseconds_2_ntp (RttEstimator.rtt (RttEstimator.metrics_ (remote_send_rtt (recv_side s)))));
      mret (dm_set_max_rtt host (dm_set_min_rtt host (dm_set_mean_rtt host blk 0 ntp) 0 ntp) 0 ntp)
    else mret blk) r (fun b r' => starts_with (new_block XR_DELAY_METRICS 64) 24 (recv_ssrc a i r) b /\ r' = r)) as Hrtt.
  { destruct (RttEstimator.has_metrics_ _); wps; [|done].
    pose proof (tables_stream_ok _ (inv_tables _ (filling_inv _ Hr)) j s Hsj) as Hok.
    destruct (nanoseconds_2_ntp_ok _ Hok) as [ntp Hn]. apply (wp_lift_res _ ntp); [done|]. wps.
    split; [|done]. unfold dm_set_max_rtt, dm_set_min_rtt, dm_set_mean_rtt, ntp32_set_value. by stores_with. }
  eapply method_mono; [exact Hrtt|]. intros b ? [Hb ->]. wps. apply Hrep. case_if; wps.
  - destruct (nanoseconds_2_ntp_ok (RecvReport.e2e_latency report)) as [ntp Hn]; [lia|].
    apply (wp_lift_res _ ntp); [done|]. wps. apply fills_refl; [done|].
    apply (starts_with_block _ 64 24); [done|]. unfold dm_set_e2e_latency, ntp64_set_value. by stores_with.
  - apply fills_refl; [done|]. by apply (starts_with_block _ 64 24).
Qed.

Lemma generate_queue_metrics_block_fills a i r :
  is_filling r -> RtcpCommunicator.is_receiving r = true ->
  (a < RtcpCommunicator.num_dest_addresses r)%nat -> (i < RtcpCommunicator.num_receiving_streams a r)%nat ->
  wp (Reporter.generate_queue_metrics_block host a i) r
    (fills (is_stream_block XR_QUEUE_METRICS BlkQueueMetrics (recv_ssrc a i r)) r).
Proof.
  intros Hr Hs Ha Hi. unfold Reporter.generate_queue_metrics_block. wps.
  apply require_receiving_wp; [apply Hr|done|]. wps.
  destruct (recv_stream_ok a i r Hr Ha Hi) as (j & Hj & Htag & Hwp). apply Hwp. wps.
  destruct (local_report_ok j r Hr Hj) as (s & report & Hsj & Hv & Hrep).
  apply (wp_stream_at j s); [done|]. wps. apply Hrep.
  replace (qm_reset host (blank sizeof_XrQueueMetricsBlock) 0)
    with (new_block XR_QUEUE_METRICS 0 ++ replicate 4 0 ++ replicate 8 255) by (destruct host; vm_compute; reflexivity).
  set (blk := qm_set_metric_flag _ _ _).
  assert (starts_with (new_block XR_QUEUE_METRICS 64) 12 (recv_ssrc a i r) blk) as Hblk.
  { subst blk. rewrite (Htag s Hsj). apply starts_flag. unfold qm_set_ssrc. apply starts_with_ssrc; [|lia].
    apply (starts_unavail _ 4 8); [|done]. by repeat constructor. }
  clearbody blk. case_if; wps.
  - destruct (nanoseconds_2_ntp_ok (RecvReport.niq_latency report)) as [x Hx]; [lia|].
    apply (wp_lift_res _ x); [done|]. wps.
    destruct (nanoseconds_2_ntp_ok (RecvReport.niq_stalling report)) as [y Hy]; [apply (vr_stalling _ _ _ Hv)|].
    apply (wp_lift_res _ y); [done|]. wps. apply fills_refl; [done|].
    apply (starts_with_block _ 64 12); [done|].
    unfold qm_set_niq_stalling, qm_set_niq_latency, ntp32_set_value. by stores_with.
  - apply fills_refl; [done|]. by apply (starts_with_block _ 64 12).
Qed.

(** Objects without a header. *)
Lemma is_bytes_store e n m k off v :
  is_bytes n m -> (off + k <= n)%nat -> is_bytes n (store e k m off v).
Proof.
  intros [Hl Hb] Hoff. unfold store.
  assert (forall bs, length bs = k -> Forall is_byte bs -> is_bytes n (overwrite m off bs)) as Hov.
  { intros bs Hlb Hbs. split; [rewrite length_overwrite; lia|by apply overwrite_Forall]. }
  destruct e; apply Hov; auto using length_le_bytes, length_be_bytes, le_bytes_Forall, be_bytes_Forall.
Qed.

Lemma is_bytes_blank n : is_bytes n (replicate n 0).
Proof. split; [apply length_replicate|]. apply Forall_replicate. by vm_compute. Qed.

(** An object that starts with the SSRC. *)
Definition tagged (n : nat) (ssrc m : bytes) : Prop := is_bytes n m /\ field 0 m = ssrc.

Lemma tagged_ssrc e n m v :
  is_bytes n m -> (4 <= n)%nat -> tagged n (be_bytes 4 v) (store e 4 m 0 (hton32u e v)).
Proof.
  intros Hm Hn. split; [by apply is_bytes_store; [|lia]|]. apply field_ssrc. destruct Hm as [-> _]. lia.
Qed.

Lemma tagged_store e n ssrc m k off v :
  tagged n ssrc m -> (4 <= off)%nat -> (off + k <= n)%nat -> tagged n ssrc (store e k m off v).
Proof.
  intros [Hm Hf] H4 Hoff. split; [by apply is_bytes_store|]. rewrite field_store; [done| |lia].
  destruct Hm as [-> _]. lia.
Qed.

Lemma tagged_bytes n ssrc m : tagged n ssrc m -> bytes_of_len n m = true /\ take 4 m = ssrc.
Proof. intros [[Hl Hb] <-]. split; [by apply starts_bytes|done]. Qed.

Ltac stores_in := repeat (apply tagged_store; [|lia|lia]).

Lemma filling_loss j s loss r :
  is_filling r -> streams (tab r) !! j = Some s ->
  let r' := set_tab (set_streams (<[j := set_local_recv_loss loss s]> (streams (tab r))) (tab r)) r in
  is_filling r' /\ same_view r r'.
Proof.
  intros Hr Hs r'. assert (same_view r r') as Hv.
  { split; try done. intros i. simpl. destruct (decide (j = i)) as [<-|]; [|by rewrite lookup_insert_ne].
    by rewrite lookup_insert_eq, Hs. }
  split; [|done].
  eapply filling_view; [done|done| |].
  - apply inv_set_tab; [apply Hr|]. destruct (inv_tables _ (filling_inv _ Hr)) as [Ht Ha Hok].
    split; simpl; [by apply store_update with s|done|]. intros k sk. destruct (decide (j = k)) as [<-|].
    + rewrite lookup_insert_eq. intros [= <-]. apply (Hok j s Hs).
    + rewrite lookup_insert_ne by done. apply Hok.
  - by apply (keeps_reports_insert j s (set_local_recv_loss loss s)).
Qed.

Lemma generate_reception_block_fills a i r :
  is_filling r -> RtcpCommunicator.is_receiving r = true ->
  (a < RtcpCommunicator.num_dest_addresses r)%nat -> (i < RtcpCommunicator.num_receiving_streams a r)%nat ->
  wp (Reporter.generate_reception_block host a i) r 
    (fills (fun blk => bytes_of_len 24 blk = true /\ take 4 blk = recv_ssrc a i r) r).
Proof.
  intros Hr Hs Ha Hi. unfold Reporter.generate_reception_block. wps.
  apply expect_generating; [done|]. wps. apply require_receiving_wp; [apply Hr|done|]. wps.
  destruct (recv_stream_ok a i r Hr Ha Hi) as (j & Hj & Htag & Hwp). apply Hwp. wps.
  destruct (local_report_ok j r Hr Hj) as (s & report & Hsj & Hv & Hrep).
  apply (wp_stream_at j s); [done|]. wps. apply Hrep. wps.
  destruct (LossEstimator.update _ _ _) as [fract loss]. wps.
  apply (wp_upd_stream j _ s); [done|].
  destruct (filling_loss j s loss r Hr Hsj) as [Hr' Hview]. cbv zeta in *. set (r' := set_tab _ r) in *.
  replace (rrb_reset host (blank sizeof_ReceptionReportBlock) 0) with (replicate 24 0)
    by (destruct host; vm_compute; reflexivity). wps.
  set (blk := rrb_set_fract_loss _ _ _ _).
  assert (tagged 24 (recv_ssrc a i r) blk) as Hblk.
  { subst blk. rewrite (Htag s Hsj). unfold rrb_set_fract_loss, rrb_set_cum_loss, rrb_set_last_seqnum, rrb_set_ssrc.
    stores_in. apply tagged_ssrc; [apply is_bytes_blank|lia]. }
  clearbody blk.
  assert (wp (if 0 <? RecvReport.jitter report then
      jitter ← lift_res (ns_2_stream_timestamp (RecvReport.jitter report) (RecvReport.sample_rate report));
      mret (rrb_set_jitter host blk 0 jitter)
    else mret blk) r' (fun b r2 => tagged 24 (recv_ssrc a i r) b /\ r2 = r')) as Hjit.
  { case_if; wps; [|done]. destruct (vr_jitter _ _ _ Hv) as [ts Hts]; [lia|].
    apply (wp_lift_res _ ts); [done|]. wps. split; [|done]. unfold rrb_set_jitter. by stores_in. }
  eapply method_mono; [exact Hjit|]. intros b ? [Hb ->]. wps.
  destruct (last_report_ok (last_remote_sr (recv_side s)) r' (filling_inv _ Hr')) as [x Hx].
  apply (wp_lift_res _ x); [done|]. wps. split; [|by split].
  apply tagged_bytes.
  destruct x; [|done]. unfold rrb_set_delay_last_sr, rrb_set_last_sr, ntp32_set_value. by stores_in.
Qed.

Lemma generate_dlrr_subblock_fills a i r :
  is_filling r -> RtcpCommunicator.is_sending r = true ->
  (a < RtcpCommunicator.num_dest_addresses r)%nat -> (i < RtcpCommunicator.num_sending_streams a r)%nat ->
  wp (Reporter.generate_dlrr_subblock host a i) r 
    (fills (fun blk => bytes_of_len 12 blk = true /\ take 4 blk = send_ssrc a i r) r).
Proof.
  intros Hr Hs Ha Hi. unfold Reporter.generate_dlrr_subblock. wps.
  apply expect_generating; [done|]. wps. rewrite sending_eq in Hs by apply Hr.
  apply is_sending_wp; [apply Hr|]. rewrite Hs. wps. apply wp_panic_when; [done|]. wps.
  destruct (send_stream_ok a i r Hr Ha Hi) as (j & [s Hsj] & Htag & Hwp). apply Hwp. wps.
  apply (wp_stream_at j s); [done|]. wps.
  replace (dls_reset host (blank sizeof_XrDlrrSubblock) 0) with (replicate 12 0)
    by (destruct host; vm_compute; reflexivity).
  destruct (last_report_ok (last_remote_rr (send_side s)) r (filling_inv _ Hr)) as [x Hx].
  apply (wp_lift_res _ x); [done|]. wps. apply fills_refl; [done|].
  set (blk := dls_set_ssrc _ _ _ _).
  assert (tagged 12 (send_ssrc a i r) blk) as Hblk.
  { subst blk. rewrite (Htag s Hsj). unfold dls_set_ssrc. apply tagged_ssrc; [apply is_bytes_blank|lia]. }
  clearbody blk. apply tagged_bytes.
  destruct x; [|done]. unfold dls_set_delay_last_rr, dls_set_last_rr, ntp32_set_value. by stores_in.
Qed.

Lemma generate_goodbye_fills r :
  is_filling r -> wp Reporter.generate_goodbye r (fills (fun ssrc => is_u 32 ssrc) r).
Proof.
  intros Hr. unfold Reporter.generate_goodbye. wps. apply expect_generating; [done|]. wps.
  rewrite (filling_collision _ Hr). wps. apply fills_refl; [done|].
  pose proof (filling_inv _ Hr) as Hi. rewrite <- (inv_source _ Hi).
  apply (participant_info_ok (participant_ r) (inv_good _ Hi)).
Qed.

(** ** The end *)

Definition at_rest r : Prop := inv r /\ report_state_ (ses r) = State_Idle /\ indexed r.

Lemma end_generation_rests r :
  is_filling r -> wp (Reporter.end_generation attempts) r (fun _ r' => at_rest r').
Proof.
  intros Hr. unfold Reporter.end_generation, resolve_collision_. wps.
  apply expect_generating; [done|]. wps. simpl. rewrite (filling_collision _ Hr). cbn [negb]. wps.
  set (r1 := set_ses _ r).
  assert (inv r1) as Hi1 by apply inv_state, Hr.
  assert (indexed r1) as Hx1.
  { destruct (filling_indexed _ Hr) as [Hx Hle]. split; [|done].
    destruct Hx as [?|Hx]; [by left|right]. eapply index_ok_mono; [exact Hx|done..]. }
  eapply method_mono; [by apply detect_timeouts_ok|]. intros ? r2 Hs2. wps.
  split_and!; [apply Hs2|by rewrite (step_state _ _ Hs2)|by apply (step_indexed r1)].
Qed.

End Generate.
