(* ===== verification/RtcpReporterSession.v ===== *)
(** The communicator with the real reporter: any sequence of received packets is
    processed, a round of reports covers every stream of the index, and a collision that
    nobody can be told about ends the process. *)

From stdpp Require Import gmap.
From S2P Require Import Prelude Bytes Ntp Float32 Slice Packet Io Compose FecWriter RtcpNtp RtcpHeaders.
From S2P Require Import RtcpTraverser RtcpTraverserSafe RtcpBuilder RtcpWire RtcpBuilderEncodes.
From S2P Require Import RtcpBuilderCorrect RtcpCommunicator RtcpRecorder RtcpProcessingSafe RtcpDecodes.
From S2P Require Import RtcpRoundtrip RtcpGenerate RtcpGenerateSafe RtcpGenerateLive.
From S2P Require Import RtcpEstimators RtcpReporter RtcpReporterInv RtcpReporterOps RtcpReporterProcess.
From S2P Require Import RtcpReporterIndex RtcpReporterGenerate.

#[local] Open Scope Z_scope.

(** * Collisions and the start of a call *)

(** Refreshing the streams does not touch the collision flags. *)
Section Quiet.

Import Reporter.

Context {P : Type} `{IParticipant P}.

#[local] Existing Instance M_ret.
#[local] Existing Instance M_bind.

Definition flags (r : t P) : bool * bool := (collision_detected_ (ses r), collision_reported_ (ses r)).

Definition quiet {A} (m : M A) : Prop := forall r a r', m r = Ok (a, r') -> flags r' = flags r.

Lemma quiet_bind {A B} (m : M A) (f : A -> M B) : quiet m -> (forall a, quiet (f a)) -> quiet (m ≫= f).
Proof.
  intros Hm Hf r b r'. unfold mbind, M_bind. destruct (m r) as [[a r1]|] eqn:E; simpl; [|done].
  intros E'. rewrite (Hf a r1 b r' E'). by apply (Hm r a).
Qed.

Lemma quiet_ret {A} (a : A) : quiet (mret a).
Proof. by intros r b r' [= _ <-]. Qed.

Lemma quiet_panics {A} : quiet (@panics P A).
Proof. done. Qed.

Lemma quiet_panic_when b : quiet (panic_when b).
Proof. destruct b; [done|apply quiet_ret]. Qed.

Lemma quiet_lift {A} (x : res A) : quiet (lift_res x).
Proof. intros r b r'. unfold lift_res. destruct x; simpl; [by intros [= _ <-]|done]. Qed.

Lemma quiet_get : quiet get.
Proof. by intros r b r' [= _ <-]. Qed.

Lemma quiet_get_loc {A} (f : Local -> A) : quiet (get_loc f).
Proof. by intros r b r' [= _ <-]. Qed.

Lemma quiet_get_tab {A} (f : Tables -> A) : quiet (get_tab f).
Proof. by intros r b r' [= _ <-]. Qed.

Lemma quiet_get_ses {A} (f : Session -> A) : quiet (get_ses f).
Proof. by intros r b r' [= _ <-]. Qed.

Lemma quiet_with_loc f : quiet (with_loc f).
Proof. by intros r b r' [= _ <-]. Qed.

Lemma quiet_with_tab f : quiet (with_tab f).
Proof. by intros r b r' [= _ <-]. Qed.

Lemma quiet_with_ses f :
  (forall s, collision_detected_ (f s) = collision_detected_ s /\ collision_reported_ (f s) = collision_reported_ s) ->
  quiet (with_ses f).
Proof. intros Hf r b r' [= _ <-]. unfold flags. simpl. by destruct (Hf (ses r)) as [-> ->]. Qed.

Lemma quiet_call {A} (f : P -> A * P) : quiet (call f).
Proof. intros r b r'. unfold call. destruct (f (participant_ r)). by intros [= _ <-]. Qed.

Lemma quiet_ask : quiet ask.
Proof. by intros r b r' [= _ <-]. Qed.

Lemma quiet_ask_insert : quiet ask_insert.
Proof. intros r b r'. unfold ask_insert, ask. by destruct (grants r (asked r)); intros [= _ <-]. Qed.

Lemma quiet_stream_at i : quiet (stream_at i).
Proof. intros r b r'. unfold stream_at. destruct (_ !! _); [by intros [= _ <-]|done]. Qed.

Lemma quiet_address_at i : quiet (address_at i).
Proof. intros r b r'. unfold address_at. destruct (_ !! _); [by intros [= _ <-]|done]. Qed.

Ltac quiet :=
  repeat (
    match goal with
    | |- quiet (let _ := _ in _) => cbv zeta
    | |- quiet (_ ≫= _) => apply quiet_bind; [|intros]
    | |- quiet (mret _) => apply quiet_ret
    | |- quiet panics => apply quiet_panics
    | |- quiet (panic_when _) => apply quiet_panic_when
    | |- quiet (lift_res _) => apply quiet_lift
    | |- quiet get => apply quiet_get
    | |- quiet (get_loc _) => apply quiet_get_loc
    | |- quiet (get_tab _) => apply quiet_get_tab
    | |- quiet (get_ses _) => apply quiet_get_ses
    | |- quiet (with_loc _) => apply quiet_with_loc
    | |- quiet (with_tab _) => apply quiet_with_tab
    | |- quiet rebuild_needed => apply quiet_with_tab
    | |- quiet no_memory => by apply quiet_with_ses
    | |- quiet (call _) => apply quiet_call
    | |- quiet ask => apply quiet_ask
    | |- quiet ask_insert => apply quiet_ask_insert
    | |- quiet (stream_at _) => apply quiet_stream_at
    | |- quiet (address_at _) => apply quiet_address_at
    | |- quiet (match ?x with _ => _ end) => destruct x
    | H : context [quiet _] |- quiet _ => apply H
    end).

Lemma quiet_find_stream id mode : quiet (find_stream_ id mode).
Proof. unfold find_stream_. quiet. Qed.

Lemma quiet_find_address x mode : quiet (find_address_ x mode).
Proof. unfold find_address_. quiet. Qed.

Lemma quiet_upd_stream i f : quiet (upd_stream i f).
Proof. unfold upd_stream. quiet. Qed.

Lemma quiet_rebuild_address a : quiet (rebuild_address_ a).
Proof. unfold rebuild_address_, upd_address. quiet. Qed.

Lemma quiet_check reports : quiet (check_recv_reports reports).
Proof.
  induction reports; simpl; quiet; [unfold validate_recv_report_; quiet|apply quiet_find_stream].
Qed.

Lemma quiet_query : quiet query_streams_.
Proof. unfold query_streams_, validate_send_report_. quiet. apply quiet_check. Qed.

Lemma quiet_send_streams ids : quiet (rebuild_send_streams ids).
Proof.
  induction ids; simpl; unfold report_address, push_send_stream, upd_address; quiet;
    apply quiet_find_address || apply quiet_rebuild_address.
Qed.

Lemma quiet_receiving reports : forall idx, quiet (rebuild_receiving idx reports).
Proof.
  induction reports; intros idx; simpl; unfold report_address, push_recv_stream, upd_address; quiet;
    apply quiet_find_address || apply quiet_rebuild_address || apply quiet_find_stream
    || apply quiet_upd_stream.
Qed.

Lemma quiet_prune n : quiet (prune_addresses n).
Proof. induction n; simpl; unfold remove_address_; quiet. Qed.

Lemma quiet_fill ids : quiet (fill_address_index ids).
Proof. induction ids; simpl; quiet. Qed.

Lemma quiet_and_then x y : quiet x -> quiet y -> quiet (and_then x y).
Proof. intros. unfold and_then. quiet. Qed.

Lemma quiet_refresh : quiet refresh_streams_.
Proof.
  apply quiet_and_then; [apply quiet_query|]. quiet. apply quiet_and_then; [|quiet].
  unfold rebuild_index_. quiet. apply quiet_and_then.
  - unfold rebuild_sending. quiet; apply quiet_find_address || apply quiet_rebuild_address || apply quiet_send_streams.
  - quiet. apply quiet_and_then; [apply quiet_receiving|]. quiet; [apply quiet_prune|apply quiet_fill].
Qed.

Lemma quiet_begin_generation time : quiet (Reporter.begin_generation time).
Proof.
  unfold Reporter.begin_generation, check_valid, expect, set_time, begin_refresh. quiet;
    apply quiet_refresh || (by apply quiet_with_ses).
Qed.

End Quiet.

Section Session.

Context {P : Type} `{ParticipantContract P} (host : cpu_endian) (attempts : nat).

#[local] Instance session_reporter : IReporter (Reporter.t P) := reporter_ireporter host attempts.

Implicit Types (r : Reporter.t P).

(** * The promises of the reporter *)

(** With [tracked], times do not go back and the index is watched. *)
Definition in_state (tracked : bool) (st : Reporter.ReportState) r : Prop :=
  inv r /\ Reporter.report_state_ (Reporter.ses r) = st /\ (tracked = true -> indexed r).

Definition may_begin_at (tracked : bool) (time : Z) r : Prop :=
  is_time time /\ (tracked = true -> Reporter.report_time_ (Reporter.ses r) <= time).

Lemma accepts_in_state tracked (m : Reporter.M ()) r :
  accepts m -> in_state tracked Reporter.State_Processing r ->
  exists r', Reporter.void m r = Ok r' /\ in_state tracked Reporter.State_Processing r'.
Proof.
  intros Hm (Hi & Hs & Hx). destruct (Hm r Hi Hs) as (a & r' & E & Hstep). exists r'.
  unfold Reporter.void. rewrite E. split; [done|]. split_and!; [apply Hstep| |].
  - by rewrite (step_state _ _ Hstep).
  - intros Ht. by apply (step_indexed r), Hx.
Qed.

Lemma begin_processing_in_state tracked addr time r :
  in_state tracked Reporter.State_Idle r -> may_begin_at tracked time r ->
  exists status r', begin_processing addr time r = Ok (status, r')
    /\ (if decide (status = StatusOK) then in_state tracked Reporter.State_Processing r'
        else in_state tracked Reporter.State_Idle r').
Proof.
  intros (Hi & Hs & Hx) [Ht Hm].
  destruct (begin_processing_started addr time r Hi Hs Ht) as (status & r' & E & Hst).
  exists status, r'. split; [exact E|]. pose proof (started_state _ _ _ _ _ Hst) as Est.
  assert (tracked = true -> indexed r') as Hx' by (intros Etr; apply Hst; auto).
  destruct (decide _); (split_and!; [apply Hst|done|done]).
Qed.

Lemma end_processing_in_state tracked r :
  in_state tracked Reporter.State_Processing r ->
  exists status r', end_processing r = Ok (status, r') /\ in_state tracked Reporter.State_Idle r'.
Proof.
  intros (Hi & Hs & Hx). destruct (end_processing_step r Hi Hs) as (status & r' & E & r1 & Hstep & ->).
  eexists _, _. split; [exact E|]. split_and!; [apply inv_state, Hstep|done|]. intros Etr.
  destruct (step_indexed r r1 Hstep (Hx Etr)) as [Hix Hle]. split; [|done].
  destruct Hix as [?|Hix]; [by left|right]. eapply index_ok_mono; [exact Hix|done..].
Qed.

#[local] Instance reporter_processing (tracked : bool) : ProcessingReporter (Reporter.t P).
Proof.
  refine {| idle := in_state tracked Reporter.State_Idle;
            processing := in_state tracked Reporter.State_Processing;
            may_begin := may_begin_at tracked |}.
  - apply begin_processing_in_state.
  - intros ssrc text r Hr Hne Hlen. by apply accepts_in_state; [apply process_cname_step|].
  - intros sr r Hr Hb. by apply accepts_in_state; [apply process_sr_step|].
  - intros ssrc blk r Hr Hb. by apply accepts_in_state; [apply process_reception_block_step|].
  - intros xr blk r Hr Hx Hb. by apply accepts_in_state; [apply process_dlrr_subblock_step|].
  - intros xr blk r Hr Hx Hb. by apply accepts_in_state; [apply process_rrtr_block_step|].
  - intros xr blk r Hr Hx Hb. by apply accepts_in_state; [apply process_metrics_step|].
  - intros xr blk r Hr Hx Hb. by apply accepts_in_state; [apply process_metrics_step|].
  - intros xr blk r Hr Hx Hb. by apply accepts_in_state; [apply process_metrics_step|].
  - intros ssrc r Hr. by apply accepts_in_state; [apply process_goodbye_step|].
  - apply end_processing_in_state.
Defined.

Lemma fills_answers {A} (ok : A -> Prop) (m : Reporter.M A) r :
  wp m r (fills ok r) -> exists x r', m r = Ok (x, r') /\ ok x /\ is_filling r' /\ same_streams r r'.
Proof.
  intros (x & r' & E & Hx & Hf & Hv). exists x, r'. split_and!; try done.
  by apply (same_view_streams host attempts).
Qed.

#[local] Instance reporter_generation : GenerationReporter (Reporter.t P).
Proof.
  refine {| generating := is_filling; finished := at_rest |}.
  - intros a dest r Hr [Ha <-]. apply fills_answers. eapply generate_dest_address_fills; eassumption.
  - intros r Hr _. apply fills_answers. eapply generate_cname_fills; eassumption.
  - intros r Hr Hs. apply fills_answers. eapply generate_sr_fills; eassumption.
  - intros r Hr _. apply fills_answers. eapply generate_rr_fills; eassumption.
  - intros a i ssrc r Hr (Hs & Ha & Hi & <-). apply fills_answers. eapply generate_reception_block_fills; eassumption.
  - intros r Hr Hs. apply fills_answers. eapply generate_xr_fills; eassumption.
  - intros a i ssrc r Hr (Hs & Ha & Hi & <-). apply fills_answers. eapply generate_dlrr_subblock_fills; eassumption.
  - intros r Hr Hs. apply fills_answers. eapply generate_rrtr_block_fills; eassumption.
  - intros a i ssrc r Hr (Hs & Ha & Hi & <-). apply fills_answers. eapply generate_measurement_info_block_fills; eassumption.
  - intros a i ssrc r Hr (Hs & Ha & Hi & <-). apply fills_answers. eapply generate_delay_metrics_block_fills; eassumption.
  - intros a i ssrc r Hr (Hs & Ha & Hi & <-). apply fills_answers. eapply generate_queue_metrics_block_fills; eassumption.
  - intros r Hr _. apply fills_answers. eapply generate_goodbye_fills; eassumption.
  - intros r Hr. destruct (end_generation_rests attempts r Hr) as (status & r' & E & Hrest).
    by exists status, r'.
Defined.

(** * A new reporter *)

Lemma store_ok_empty {A} n : store_ok (∅ : gmap nat A) [] [] n.
Proof.
  split; [constructor|done| |by intros i ?%not_elem_of_nil].
  intros i. rewrite lookup_empty. split; [by intros [? ?]|by intros ?%not_elem_of_nil].
Qed.

Lemma make_at_rest timeout (p : P) grants :
  good p -> Reporter.valid_ (Reporter.make timeout p grants) = true -> 0 < timeout < 2 ^ 63 ->
  (forall k, grants k <> Stalled) -> at_rest (Reporter.make timeout p grants).
Proof.
  intros Hg Hv Ht Hst. split_and!; [|done|split; [by left|done]]. simpl in Hv.
  split; simpl; rewrite ?Hv; try done.
  - split; simpl; [apply store_ok_empty..|]. by intros i s ?%lookup_empty_Some.
  - destruct (info_cname (participant_info p)); [done|]. by simpl in Hv.
Qed.

(** * Received packets *)

(** A datagram as the network layer hands it over: any bytes in the buffer. *)
Record rtcp_datagram (p : Packet) : Prop := {
  datagram_udp : has_flags p FlagUDP = true;
  datagram_rtcp : exists payload, packet_rtcp p = Some payload /\ slice_in (pkt_mem p) payload;
  datagram_bytes : Forall is_byte (pkt_mem p);
}.

Definition packet_fuel (p : Packet) : nat :=
  match packet_rtcp p with Some payload => fuel_for payload | None => O end.

(** Packets received one after the other, each at its time. *)
Fixpoint receive_all (l : list (Packet * Z)) (c : Communicator (Reporter.t P))
  : run (Communicator (Reporter.t P)) :=
  match l with
  | [] => ret c
  | (p, time) :: l =>
      let! x := process_packet host (packet_fuel p) (Some p) time c in
      receive_all l x.2
  end.

Lemma receive_all_ok l c :
  in_state false Reporter.State_Idle (c_reporter c) ->
  Forall (fun x => rtcp_datagram x.1 /\ is_time x.2) l ->
  exists c', receive_all l c = ret c'
    /\ in_state false Reporter.State_Idle (c_reporter c')
    /\ c_processed_packet_count c' = (c_processed_packet_count c + length l)%nat.
Proof.
  intros Hc Hl. revert c Hc. induction Hl as [|[p time] l [Hd Ht] Hl IH]; intros c Hc.
  { exists c. split_and!; [done|done|simpl; lia]. }
  cbn [receive_all fst snd] in *. destruct Hd as [Hu (payload & Hp & Hs) Hb].
  destruct (process_packet_safe (H0 := reporter_processing false) host p payload time c)
    as (status & c1 & E & Hi & Hn); try done.
  { unfold is_time in Ht. lia. }
  unfold packet_fuel. rewrite Hp, E. cbn [run_bind ret snd].
  destruct (IH c1 Hi) as (c2 & E2 & Hi2 & Hn2). exists c2. split_and!; [done|done|]. simpl. lia.
Qed.

End Session.

(** C11: whatever an attacker sends, the RTCP reporter survives it.  For every participant
    that keeps its contract, any sequence of datagrams with any bytes, arriving at any
    times, is processed to the end, from the construction of the reporter on: no handler
    panics, copies a name past the end of a buffer, follows a dangling pointer or loops,
    no matter which allocations fail, as long as no hash map of the reporter has to grow
    while its last rehashing is unfinished. *)
Theorem rtcp_reporter_survives {P : Type} `{ParticipantContract P} (host : cpu_endian) (attempts : nat)
    (p : P) (timeout : Z) (grants : nat -> grant) (config : BuilderConfig) (interval : Z)
    (l : list (Packet * Z)) :
  good p -> Reporter.valid_ (Reporter.make timeout p grants) = true -> 0 < timeout < 2 ^ 63 ->
  (forall k, grants k <> Stalled) ->
  Forall (fun x => rtcp_datagram x.1 /\ is_time x.2) l ->
  exists c', receive_all host attempts l
      (communicator_new config interval (Reporter.make timeout p grants)) = ret c'
    /\ c_processed_packet_count c' = length l
    /\ Reporter.destroy (c_reporter c') = Ok ().
Proof.
  intros Hg Hv Ht Hst Hl. destruct (make_at_rest timeout p grants Hg Hv Ht Hst) as (Hi & Hs & _).
  destruct (receive_all_ok host attempts l (communicator_new config interval (Reporter.make timeout p grants)))
    as (c' & E & (_ & Hs' & _) & Hn); [by split_and!|done|].
  exists c'. split_and!; [done|done|]. unfold Reporter.destroy. by rewrite Hs'.
Qed.

(** * Generated reports *)

Section Reports.

Context {P : Type} `{ParticipantContract P} (host : cpu_endian) (attempts : nat).
Context {F W : Type} `{SteadyFactory F} `{FifoWriter W}.

#[local] Instance reports_reporter : IReporter (Reporter.t P) := reporter_ireporter host attempts.

Implicit Types (r : Reporter.t P).

Lemma begin_generation_filling time r :
  at_rest r -> Reporter.collision_detected_ (Reporter.ses r) = false ->
  is_time time -> Reporter.report_time_ (Reporter.ses r) <= time ->
  exists status r', begin_generation time r = Ok (status, r')
    /\ (if decide (status = StatusOK) then is_filling r' else at_rest r').
Proof.
  intros (Hi & Hs & Hx) Hc Ht Hm.
  destruct (begin_generation_started time r Hi Hs Ht) as (status & r' & E & Hst).
  exists status, r'. split; [exact E|]. apply quiet_begin_generation in E. unfold flags in E.
  injection E as Ec _. pose proof (started_state _ _ _ _ _ Hst) as Est.
  destruct (decide (status = StatusOK)) as [E|E].
  - split; [apply Hst|done|by apply Hst|by apply Hst|by apply Hst|congruence|apply Hst].
  - split_and!; [apply Hst|done|by apply Hst].
Qed.

(** C12: a round of reports reaches every stream of the reporter's index, and no other.
    The participant keeps its contract, the reporter is at rest (no hash map of it has to
    grow while its last rehashing is unfinished), has no collision to report and is not asked
    at an earlier time than before, SR/RR and XR are enabled, the buffers of the packet
    factory hold 532 bytes, and the limit of streams per packet is from 2 to 31.  Then the reporter either refuses because memory
    ran out, or has its communicator write packets to the addresses of its index, in order,
    that hold for every receiving stream of the address one reception report and one block
    of each kind of metrics, and for every sending stream one DLRR sub-block, each with the
    SSRC of that stream; it is at rest again afterwards.  No block is filled through a
    dangling pointer to a stream or to a report. *)
Theorem rtcp_reporter_reports (c : Communicator (Reporter.t P)) (f : F) (w : W) (time : Z) :
  at_rest (c_reporter c) -> Reporter.collision_detected_ (Reporter.ses (c_reporter c)) = false ->
  is_time time -> Reporter.report_time_ (Reporter.ses (c_reporter c)) <= time ->
  (2 <= c_max_pkt_streams c <= 31)%nat ->
  enable_sr_rr (c_config c) = true -> enable_xr (c_config c) = true ->
  exists status r, begin_generation time (c_reporter c) = Ok (status, r) /\
    if decide (status = StatusOK) then
      let addrs := seq 0 (num_dest_addresses r) in
      forall (allow : bool) (fuel : nat), (33 + total (work r) addrs <= fuel)%nat ->
      exists status g' pkts descs,
        generate_packets host rtcp_composer_prepare fuel allow PacketType_Reports time (mkGenState c f w)
          = ret (status, g')
        /\ content (g_writer g') = content w ++ pkts
        /\ Forall2 (carries (c_config c) r) pkts descs
        /\ (forall k, sent_about k descs = all_ssrcs r k addrs)
        /\ at_rest (c_reporter (g_comm g'))
    else at_rest r.
Proof.
  intros Hr Hc Ht Hm Hmax Hsr Hxr.
  destruct (begin_generation_filling time (c_reporter c) Hr Hc Ht Hm) as (status & r & E & Hst).
  exists status, r. split; [done|]. destruct (decide (status = StatusOK)) as [->|]; [|done].
  intros addrs allow fuel Hf.
  exact (reports_cover_streams (H1 := reporter_generation host attempts) host c f w r time allow fuel
    E Hst Hmax Hsr Hxr Hf).
Qed.

(** A collision that is found while there is no one to report to ends the process.
    When another participant has used our SSRC and the round of reports finds no
    destination address, no BYE is generated, and the reporter panics at the end of the
    round because its own request for a BYE was not met. *)
Theorem unreported_collision_panics (c : Communicator (Reporter.t P)) (f : F) (w : W)
    (r : Reporter.t P) (time : Z) (allow : bool) (fuel : nat) :
  at_rest (c_reporter c) -> is_time time ->
  Reporter.collision_detected_ (Reporter.ses (c_reporter c)) = true ->
  Reporter.collision_reported_ (Reporter.ses (c_reporter c)) = false ->
  begin_generation time (c_reporter c) = Ok (StatusOK, r) ->
  Reporter.address_index_ (Reporter.tab r) = [] ->
  generate_packets host rtcp_composer_prepare (S fuel) allow PacketType_Reports time (mkGenState c f w)
    = Panic.
Proof.
  intros (Hi & Hs & _) Ht Hd Hrep E Hempty.
  destruct (begin_generation_started time (c_reporter c) Hi Hs Ht) as (status & r' & E' & Hst).
  assert (Reporter.begin_generation time (c_reporter c) = Ok (StatusOK, r)) as E1 by exact E.
  rewrite E1 in E'. injection E' as <- <-. pose proof (started_state _ _ _ _ _ Hst) as Est. simpl in Est.
  apply quiet_begin_generation in E1. injection E1 as Ed Er.
  unfold generate_packets, begin_packet_generation. cbn [g_comm]. rewrite E.
  cbn [lift res_bind run_bind ret generate_loop].
  unfold continue_packet_generation, g_set_comm. cbn [g_comm g_factory g_writer].
  assert (num_dest_addresses r = O) as Hn.
  { unfold num_dest_addresses, reports_reporter, reporter_ireporter, Reporter.answer,
      Reporter.num_dest_addresses, Reporter.expect, Reporter.get_ses, Reporter.get_tab,
      Reporter.panic_when, mbind, Reporter.M_bind. simpl. rewrite Est. simpl. by rewrite Hempty. }
  cbn [c_set_addr c_set_streams c_set_reporter c_send_stream_count c_send_stream_index
    c_recv_stream_count c_recv_stream_index c_dest_addr_count c_dest_addr_index c_reporter
    Nat.leb Nat.eqb andb]. rewrite Hn. cbn [Nat.leb negb run_bind ret g_comm].
  unfold end_packet_generation, ask. cbn [c_reporter c_set_addr c_set_streams c_set_reporter].
  assert (end_generation r = Panic) as ->; [|done].
  unfold end_generation, reports_reporter, reporter_ireporter, Reporter.end_generation,
    Reporter.resolve_collision_, Reporter.expect, Reporter.get_ses, Reporter.with_ses, mbind,
    Reporter.M_bind. simpl. rewrite Est. simpl. rewrite Ed, Hd. simpl. by rewrite Er, Hrep.
Qed.

End Reports.

(** * A participant that keeps its contract *)

Record Endpoint : Type := mkEndpoint {
  ep_id : Z;
  ep_mode : ParticipantReportMode;
  ep_sending : bool;
  ep_senders : list Z;
}.

Definition ep_cname : bytes := [114; 111; 99].

#[global] Instance endpoint_participant : IParticipant Endpoint := {|
  participant_info p := mkParticipantInfo (Some ep_cname) (ep_id p) (ep_mode p) (Some 100);
  change_source_id p := mkEndpoint (u32 (ep_id p + 1)) (ep_mode p) (ep_sending p) (ep_senders p);
  has_send_stream := ep_sending;
  query_send_stream time p := (SendReport.mk (Some ep_cname) (ep_id p) time 0 48000 5 500 0 0, p);
  notify_send_stream _ _ p := (StatusOK, p);
  num_recv_streams p := length (ep_senders p);
  query_recv_streams _ time p :=
    (map (fun s => RecvReport.mk (Some ep_cname) (ep_id p) s time 48000 0 9 10 1 0 0 0 0 0 0)
       (ep_senders p), p);
  notify_recv_stream _ _ p := (StatusOK, p);
  halt_recv_stream _ p := p;
|}.

#[global] Instance endpoint_contract : ParticipantContract Endpoint.
Proof.
  refine {| good := fun p => is_u 32 (ep_id p) |}.
  - intros p Hp. split; [exact Hp|]. intros cn [= <-]. split; [vm_compute; reflexivity|done].
  - intros time p Hp Hs. split_and!; try done.
  - intros buffer time p Hp Hl. split_and!; try done; [by rewrite length_map|].
    apply Forall_map, Forall_true. intros s. split; try done. intros _. eexists. vm_compute. reflexivity.
  - intros id report p Hp. by split.
  - intros id report p Hp. by split.
  - intros id p Hp. by split.
Defined.

(** A sender report with the SSRC 5. *)
Definition sample_sender_report : Packet :=
  let m := [0x80; 200; 0; 6; 0; 0; 0; 5] ++ replicate 20 1 in
  mkPacket (Z.lor FlagUDP (Z.lor FlagControl FlagRTCP)) UDP_zero RTP_zero FEC_zero
    (slice_whole 28) (slice_whole 28) m.

Lemma sample_datagram : rtcp_datagram sample_sender_report.
Proof. split; [reflexivity|exists (slice_whole 28); split; [reflexivity|closed]|closed]. Qed.

Definition sample_receiver : Endpoint := mkEndpoint 5 Report_Back false [].

Lemma rtcp_reporter_survives_witness :
  exists c', receive_all CPU_LE 1 [(sample_sender_report, 10); (sample_rtcp_packet, 3)]
      (communicator_new (mkBuilderConfig true true true) 1
         (Reporter.make 1000 sample_receiver (fun n => if Nat.even n then Granted else NoMemory))) = ret c'
    /\ c_processed_packet_count c' = 2%nat.
Proof.
  destruct (rtcp_reporter_survives CPU_LE 1 sample_receiver 1000 (fun n => if Nat.even n then Granted else NoMemory)
    (mkBuilderConfig true true true) 1 [(sample_sender_report, 10); (sample_rtcp_packet, 3)])
    as (c' & E & Hn & _).
  - vm_compute. split; congruence.
  - reflexivity.
  - lia.
  - intros k. by destruct (Nat.even k).
  - constructor; [split; [exact sample_datagram|unfold is_time; simpl; lia]|].
    constructor; [|constructor]. split; [|unfold is_time; simpl; lia].
    split; [reflexivity|exists (slice_whole 12); split; [reflexivity|closed]|closed].
  - exists c'. split; [exact E|exact Hn].
Defined.

(** A peer that sends and receives from two senders. *)
Definition sample_peer : Endpoint := mkEndpoint 5 Report_ToAddress true [7; 8].

Lemma rtcp_reporter_reports_witness :
  let c := communicator_new (mkBuilderConfig true true true) 1
             (Reporter.make 1000 sample_peer (fun _ => Granted)) in
  exists (r : Reporter.t Endpoint) status g' pkts descs,
    generate_packets (H := reports_reporter CPU_LE 1) CPU_LE rtcp_composer_prepare 100 false
      PacketType_Reports 10 (mkGenState c tt (mkQueue [])) = ret (status, g')
    /\ queue_list (g_writer g') = pkts
    /\ Forall2 (carries (c_config c) r) pkts descs
    /\ sent_about QueueMetrics descs = [(0%nat, [0; 0; 0; 7]); (0%nat, [0; 0; 0; 8])]
    /\ at_rest (c_reporter (g_comm g')).
Proof.
  cbv zeta.
  destruct (rtcp_reporter_reports CPU_LE 1
    (communicator_new (mkBuilderConfig true true true) 1 (Reporter.make 1000 sample_peer (fun _ => Granted)))
    tt (mkQueue []) 10) as (status & r & E & H).
  - apply make_at_rest; [vm_compute; split; congruence|reflexivity|lia|done].
  - reflexivity.
  - unfold is_time. lia.
  - vm_compute. congruence.
  - vm_compute. lia.
  - reflexivity.
  - reflexivity.
  - vm_compute in E. injection E as <- <-. cbn [decide] in H.
    destruct (H false 100%nat) as (status & g' & pkts & descs & Eg & Hw & Hall & Hq & Hrest);
      [vm_compute; lia|].
    eexists _, status, g', pkts, descs. split; [exact Eg|]. split; [exact Hw|]. split; [exact Hall|].
    split; [rewrite Hq; vm_compute; reflexivity|exact Hrest].
Defined.

(** The receiver of [sample_receiver] after a sender report that carries its own SSRC. *)
Lemma unreported_collision_panics_witness :
  exists c,
    process_packet (H := reports_reporter CPU_LE 1) CPU_LE (packet_fuel sample_sender_report)
      (Some sample_sender_report) 10
      (communicator_new (mkBuilderConfig true true true) 1
         (Reporter.make 1000 sample_receiver (fun _ => Granted))) = ret (StatusOK, c)
    /\ generate_packets (H := reports_reporter CPU_LE 1) CPU_LE rtcp_composer_prepare 100 false
         PacketType_Reports 20 (mkGenState c tt (mkQueue [])) = Panic.
Proof.
  destruct (make_at_rest 1000 sample_receiver (fun _ => Granted)) as (Hi & Hs & Hx);
    [vm_compute; split; congruence|reflexivity|lia|done|].
  destruct (process_packet_safe (H0 := reporter_processing CPU_LE 1 true) CPU_LE sample_sender_report
    (slice_whole 28) 10 (communicator_new (mkBuilderConfig true true true) 1
         (Reporter.make 1000 sample_receiver (fun _ => Granted))))
    as (status & c & E & (Hi' & Hs' & Hx') & _); [reflexivity|reflexivity|closed|closed|lia| | |].
  { split; [unfold is_time; lia|]. intros _. vm_compute. congruence. }
  { split; [exact Hi|]. split; [exact Hs|]. intros _. exact Hx. }
  vm_compute in E. injection E as <- <-. eexists. split; [vm_compute; reflexivity|].
  eapply (unreported_collision_panics CPU_LE 1).
  - split; [exact Hi'|]. split; [exact Hs'|]. by apply Hx'.
  - unfold is_time. lia.
  - reflexivity.
  - reflexivity.
  - vm_compute. reflexivity.
  - reflexivity.
Defined.
