(* ===== verification/RingQueue.v ===== *)
(** roc_core/ring_queue.h: the queue on a continuous memory buffer.

    The buffer is the memory of the [buff_len_] slots, a slot being [None] while it holds
    no live object (raw memory, or an object that was destroyed).  [begin_] and [end_] are
    [size_t]s, and their arithmetic wraps as the code's does.

    [deque_step] is what the queue promises to its clients; [ring_queue_refines] shows that
    every sequence of operations on the queue has the outcomes of the specification. *)

From S2P Require Import Prelude.

(** Indices that run around the buffer. *)
Lemma mod_around (n a : Z) :
  0 < n -> 0 <= a < 2 * n -> a mod n = if a <? n then a else a - n.
Proof.
  intros Hn Ha. case_if; [apply Z.mod_small; lia|]. symmetry. apply Z.mod_unique with 1; lia.
Qed.

Module RingQueue.

Section Queue.

Context {T : Type}.

Record t : Type := mk {
  buff_ : option (list (option T));
  buff_len_ : Z;
  begin_ : Z;
  end_ : Z
}.

(** The constructor; [memory] says whether the arena has the memory for the buffer. *)
Definition make (memory : bool) (max_len : Z) : res t :=
  if max_len =? 0 then Panic
  else
    Ok {| buff_ := if memory then Some (repeat None (Z.to_nat max_len)) else None;
          buff_len_ := max_len; begin_ := 0; end_ := 0 |}.

Definition is_valid (q : t) : bool := if buff_ q then true else false.

Definition capacity (q : t) : Z := buff_len_ q.

Definition size (q : t) : Z := u64 (end_ q - begin_ q + buff_len_ q) mod buff_len_ q.

Definition is_empty (q : t) : bool := begin_ q =? end_ q.

Definition is_full (q : t) : bool := size q =? capacity q.

(** The index before [i], as [back], [push_front] and [pop_back] compute it. *)
Definition prev (q : t) (i : Z) : Z := u64 (i - 1 + buff_len_ q) mod buff_len_ q.

Definition next (q : t) (i : Z) : Z := u64 (i + 1) mod buff_len_ q.

(** Reading, constructing and destroying the object at [buff_[i]].  A null buffer, an index
    out of the buffer or a slot without an object have no behaviour in the language. *)
Definition read (q : t) (i : Z) : res T :=
  match buff_ q with
  | Some b => match b !! Z.to_nat i with Some (Some x) => Ok x | _ => Panic end
  | None => Panic
  end.

Definition store (q : t) (i : Z) (s : option T) : res (list (option T)) :=
  match buff_ q with
  | Some b => array_set b (Z.to_nat i) s
  | None => Panic
  end.

Definition front (q : t) : res T :=
  if is_empty q then Panic else read q (begin_ q).

Definition back (q : t) : res T :=
  if is_empty q then Panic else read q (prev q (end_ q)).

Definition push_front (q : t) (x : T) : res t :=
  if is_full q then Panic
  else
    let i := prev q (begin_ q) in
    let* b := store q i (Some x) in
    Ok {| buff_ := Some b; buff_len_ := buff_len_ q; begin_ := i; end_ := end_ q |}.

Definition pop_front (q : t) : res t :=
  if is_empty q then Panic
  else
    let* b := store q (begin_ q) None in
    Ok {| buff_ := Some b; buff_len_ := buff_len_ q;
          begin_ := next q (begin_ q); end_ := end_ q |}.

Definition push_back (q : t) (x : T) : res t :=
  if is_full q then Panic
  else
    let* b := store q (end_ q) (Some x) in
    Ok {| buff_ := Some b; buff_len_ := buff_len_ q;
          begin_ := begin_ q; end_ := next q (end_ q) |}.

(** The destructor is called on the slot at [end_], which is one past the last element. *)
Definition pop_back (q : t) : res t :=
  if is_empty q then Panic
  else
    let* b := store q (end_ q) None in
    Ok {| buff_ := Some b; buff_len_ := buff_len_ q;
          begin_ := begin_ q; end_ := prev q (end_ q) |}.

(** * The queue as a list *)

(** The slot of the [i]-th element. *)
Definition slot (q : t) (i : nat) : nat :=
  Z.to_nat ((begin_ q + Z.of_nat i) mod buff_len_ q).

(** [q] holds [l]: one slot of the buffer is always left over. *)
Record holds (q : t) (l : list T) : Prop := {
  h_len : 0 < buff_len_ q < 2 ^ 63;
  h_begin : 0 <= begin_ q < buff_len_ q;
  h_size : Z.of_nat (length l) < buff_len_ q;
  h_end : end_ q = (begin_ q + Z.of_nat (length l)) mod buff_len_ q;
  h_buff : exists b, buff_ q = Some b /\ Z.of_nat (length b) = buff_len_ q /\
    forall i x, l !! i = Some x -> b !! slot q i = Some (Some x)
}.

(** * The specification *)

Inductive op : Type :=
| Front
| Back
| PushFront (x : T)
| PopFront
| PushBack (x : T)
| PopBack
| Size
| IsEmpty
| IsFull.

Inductive out : Type :=
| Done
| Element (x : T)
| Count (n : Z)
| Answer (b : bool).

(** The bounded deque.  The last slot is never used: [IsFull] is false on every queue that
    can be reached, and a push onto a queue of [cap - 1] elements makes it empty. *)
Definition bounded (cap : Z) (l : list T) : list T :=
  if Z.of_nat (length l) =? cap then [] else l.

Definition deque_step (cap : Z) (l : list T) (o : op) : res (list T * out) :=
  match o with
  | Front => match l with x :: _ => Ok (l, Element x) | [] => Panic end
  | Back => match last l with Some x => Ok (l, Element x) | None => Panic end
  | PushFront x => Ok (bounded cap (x :: l), Done)
  | PopFront => match l with _ :: l => Ok (l, Done) | [] => Panic end
  | PushBack x => Ok (bounded cap (l ++ [x]), Done)
  | PopBack => match l with [] => Panic | _ => Ok (removelast l, Done) end
  | Size => Ok (l, Count (Z.of_nat (length l)))
  | IsEmpty => Ok (l, Answer (bool_decide (l = [])))
  | IsFull => Ok (l, Answer false)
  end.

Definition queue_step (q : t) (o : op) : res (t * out) :=
  match o with
  | Front => let* x := front q in Ok (q, Element x)
  | Back => let* x := back q in Ok (q, Element x)
  | PushFront x => let* q := push_front q x in Ok (q, Done)
  | PopFront => let* q := pop_front q in Ok (q, Done)
  | PushBack x => let* q := push_back q x in Ok (q, Done)
  | PopBack => let* q := pop_back q in Ok (q, Done)
  | Size => Ok (q, Count (size q))
  | IsEmpty => Ok (q, Answer (is_empty q))
  | IsFull => Ok (q, Answer (is_full q))
  end.

(** The outcomes of a sequence of operations, [Panic] if one of them panics. *)
Fixpoint outcomes {S} (step : S -> op -> res (S * out)) (s : S) (os : list op)
  : res (list out) :=
  match os with
  | [] => Ok []
  | o :: os =>
      let* ' (s, r) := step s o in
      let* rs := outcomes step s os in
      Ok (r :: rs)
  end.

(** * Lemmas on the operations *)

Implicit Types (q : t) (l : list T) (x : T).

Lemma slot_lt q l i : holds q l -> (slot q i < Z.to_nat (buff_len_ q))%nat.
Proof.
  intros []. unfold slot. pose proof (Z.mod_pos_bound (begin_ q + Z.of_nat i) (buff_len_ q)).
  lia.
Qed.

Lemma slot_inj q l i j :
  holds q l -> Z.of_nat i < buff_len_ q -> Z.of_nat j < buff_len_ q ->
  slot q i = slot q j -> i = j.
Proof.
  intros [] Hi Hj. unfold slot. rewrite !mod_around by lia. repeat case_if; lia.
Qed.

Lemma prev_around q i :
  0 < buff_len_ q < 2 ^ 63 -> 0 <= i < buff_len_ q ->
  prev q i = if i =? 0 then buff_len_ q - 1 else i - 1.
Proof.
  intros. unfold prev. rewrite wrap_u_small by (unfold is_u; lia).
  rewrite mod_around by lia. repeat case_if; lia.
Qed.

Lemma next_around q i :
  0 < buff_len_ q < 2 ^ 63 -> 0 <= i < buff_len_ q ->
  next q i = if i =? buff_len_ q - 1 then 0 else i + 1.
Proof.
  intros. unfold next. rewrite wrap_u_small by (unfold is_u; lia).
  rewrite mod_around by lia. repeat case_if; lia.
Qed.

Lemma end_around q l :
  holds q l ->
  end_ q = if begin_ q + Z.of_nat (length l) <? buff_len_ q
           then begin_ q + Z.of_nat (length l)
           else begin_ q + Z.of_nat (length l) - buff_len_ q.
Proof. intros []. rewrite h_end0. apply mod_around; lia. Qed.

Lemma end_slot q l : holds q l -> Z.to_nat (end_ q) = slot q (length l).
Proof. intros []. unfold slot. by rewrite h_end0. Qed.

Lemma size_length q l : holds q l -> size q = Z.of_nat (length l).
Proof.
  intros Hq. pose proof (end_around q l Hq) as He. destruct Hq. unfold size.
  rewrite wrap_u_small by (unfold is_u; case_if_in He; lia).
  rewrite mod_around by (case_if_in He; lia). case_if_in He; case_if; lia.
Qed.

Lemma is_empty_spec q l : holds q l -> is_empty q = bool_decide (l = []).
Proof.
  intros Hq. pose proof (end_around q l Hq) as He. destruct Hq. unfold is_empty.
  case_bool_decide as E; [subst l; cbn in He; case_if_in He; lia|].
  destruct l; [done|]. cbn [length] in *. case_if_in He; lia.
Qed.

(** The overflow test never fires. *)
Lemma is_full_false q l : holds q l -> is_full q = false.
Proof.
  intros Hq. unfold is_full, capacity. rewrite (size_length q l) by done.
  destruct Hq. lia.
Qed.

Lemma is_empty_cons q x l : holds q (x :: l) -> is_empty q = false.
Proof. intros Hq. by rewrite (is_empty_spec q _ Hq). Qed.

Lemma is_empty_app q l x : holds q (l ++ [x]) -> is_empty q = false.
Proof.
  intros Hq. rewrite (is_empty_spec q _ Hq). apply bool_decide_eq_false. by destruct l.
Qed.

Lemma read_ok q l i x :
  holds q l -> l !! i = Some x -> read q (Z.of_nat (slot q i)) = Ok x.
Proof.
  intros [] Hx. destruct h_buff0 as (b & Hb & _ & Hl). unfold read.
  by rewrite Hb, Nat2Z.id, (Hl i x).
Qed.

Lemma store_ok q l i s :
  holds q l -> exists b, buff_ q = Some b /\
    store q (Z.of_nat (slot q i)) s = Ok (<[slot q i := s]> b).
Proof.
  intros Hq. pose proof (slot_lt q l i Hq). destruct Hq.
  destruct h_buff0 as (b & Hb & Hn & _). exists b. split; [done|].
  unfold store. rewrite Hb, Nat2Z.id. apply array_set_ok. lia.
Qed.

Lemma begin_slot q l : holds q l -> begin_ q = Z.of_nat (slot q 0).
Proof. intros []. unfold slot. rewrite Z.add_0_r, Z.mod_small; lia. Qed.

Lemma end_slot_Z q l : holds q l -> end_ q = Z.of_nat (slot q (length l)).
Proof.
  intros Hq. rewrite <- (end_slot q l Hq). pose proof (end_around q l Hq) as He.
  destruct Hq. case_if_in He; lia.
Qed.

Lemma front_ok q x l : holds q (x :: l) -> front q = Ok x.
Proof.
  intros Hq. unfold front. rewrite (is_empty_cons q x l Hq), (begin_slot q _ Hq).
  by eapply read_ok.
Qed.

Lemma prev_end q l x : holds q (l ++ [x]) -> prev q (end_ q) = Z.of_nat (slot q (length l)).
Proof.
  intros Hq. pose proof (end_around q _ Hq) as He. destruct Hq.
  rewrite length_app in *. cbn [length] in *. unfold slot.
  rewrite mod_around by lia. rewrite prev_around by (case_if_in He; lia).
  case_if_in He; repeat case_if; lia.
Qed.

Lemma back_ok q l x : holds q (l ++ [x]) -> back q = Ok x.
Proof.
  intros Hq. unfold back. rewrite (is_empty_app q l x Hq), (prev_end q l x Hq).
  apply (read_ok _ _ _ _ Hq). by rewrite lookup_app_r, Nat.sub_diag.
Qed.

(** Writing a slot that is not one of the elements. *)
Lemma buff_frame q l j s (b : list (option T)) :
  holds q l -> Z.of_nat j < buff_len_ q -> (length l <= j)%nat ->
  (forall i x, l !! i = Some x -> b !! slot q i = Some (Some x)) ->
  forall i x, l !! i = Some x -> (<[slot q j := s]> b) !! slot q i = Some (Some x).
Proof.
  intros Hq Hj Hlj Hb i x Hi. pose proof (lookup_lt_Some _ _ _ Hi).
  rewrite list_lookup_insert_ne; [by apply Hb|]. intros E.
  apply (slot_inj q l) in E; [lia|done|lia|]. destruct Hq; lia.
Qed.

Lemma push_back_ok q l x :
  holds q l ->
  exists q', push_back q x = Ok q' /\ buff_len_ q' = buff_len_ q /\
    holds q' (bounded (buff_len_ q) (l ++ [x])).
Proof.
  intros Hq. unfold push_back. rewrite (is_full_false q l Hq), (end_slot_Z q l Hq).
  destruct (store_ok q l (length l) (Some x) Hq) as (b & Hb & ->). cbn [res_bind].
  eexists. split; [done|]. split; [done|].
  rewrite <- (end_slot_Z q l Hq). pose proof (end_around q l Hq) as He.
  pose proof (slot_lt q l (length l) Hq) as Hs.
  pose proof Hq as [Hn Hbg Hsz Hend (b' & Hb' & Hlb & Hl)].
  rewrite Hb in Hb'. injection Hb' as <-. unfold bounded. rewrite length_app.
  cbn [length]. case_if.
  - (* the ring is full: begin and end coincide *)
    split; cbn; [lia|lia|lia| |].
    + rewrite next_around by (case_if_in He; lia). rewrite Z.add_0_r, Z.mod_small by lia.
      case_if_in He; case_if; lia.
    + exists (<[slot q (length l) := Some x]> b). rewrite length_insert. done.
  - split; cbn; rewrite ?length_app; cbn [length]; [lia|lia|lia| |].
    + rewrite next_around by (case_if_in He; lia). rewrite mod_around by lia.
      case_if_in He; repeat case_if; lia.
    + eexists. split; [done|]. rewrite length_insert. split; [done|].
      intros i y [Hy|[Hi Hy]]%lookup_app_Some.
      * by apply (buff_frame q l (length l) (Some x) b Hq ltac:(lia) ltac:(lia) Hl).
      * apply list_lookup_singleton_Some in Hy as [Hi' ->].
        replace i with (length l) by lia. apply list_lookup_insert_eq. lia.
Qed.

Lemma push_front_ok q l x :
  holds q l ->
  exists q', push_front q x = Ok q' /\ buff_len_ q' = buff_len_ q /\
    holds q' (bounded (buff_len_ q) (x :: l)).
Proof.
  intros Hq. unfold push_front. rewrite (is_full_false q l Hq).
  assert (Hp : prev q (begin_ q) = Z.of_nat (slot q (Z.to_nat (buff_len_ q - 1)))).
  { destruct Hq. rewrite prev_around by lia. unfold slot.
    rewrite mod_around by lia. repeat case_if; lia. }
  rewrite Hp. destruct (store_ok q l (Z.to_nat (buff_len_ q - 1)) (Some x) Hq) as (b & Hb & ->).
  cbn [res_bind]. eexists. split; [done|]. split; [done|]. rewrite <- Hp.
  pose proof (end_around q l Hq) as He.
  pose proof (slot_lt q l (Z.to_nat (buff_len_ q - 1)) Hq) as Hs.
  pose proof Hq as [Hn Hbg Hsz Hend (b' & Hb' & Hlb & Hl)].
  rewrite Hb in Hb'. injection Hb' as <-. unfold bounded. cbn [length].
  assert (Hpr := prev_around q (begin_ q) Hn Hbg). case_if.
  - split; cbn; [lia|case_if_in Hpr; lia|lia| |].
    + rewrite Z.add_0_r, Z.mod_small by (case_if_in Hpr; lia).
      case_if_in He; case_if_in Hpr; lia.
    + eexists. split; [done|]. rewrite length_insert. done.
  - split; cbn; [lia|case_if_in Hpr; lia|lia| |].
    + rewrite mod_around by (case_if_in Hpr; lia).
      case_if_in He; case_if_in Hpr; case_if; lia.
    + eexists. split; [done|]. rewrite length_insert. split; [done|].
    match goal with |- context [Some ?b'] => set (b1 := b') end. unfold slot. cbn.
      intros [|i] y Hy; cbn in Hy.
      * injection Hy as <-. rewrite Z.add_0_r, Z.mod_small by (case_if_in Hpr; lia).
        rewrite Hp, Nat2Z.id. apply list_lookup_insert_eq. lia.
      * pose proof (lookup_lt_Some _ _ _ Hy).
        replace (Z.to_nat ((prev q (begin_ q) + Z.of_nat (S i)) mod buff_len_ q)) with (slot q i).
        { apply (buff_frame q l _ _ b Hq); [lia|lia|done|done]. }
        unfold slot. rewrite !mod_around by (case_if_in Hpr; lia).
        case_if_in Hpr; repeat case_if; lia.
Qed.

Lemma pop_front_ok q x l :
  holds q (x :: l) ->
  exists q', pop_front q = Ok q' /\ buff_len_ q' = buff_len_ q /\ holds q' l.
Proof.
  intros Hq. unfold pop_front. rewrite (is_empty_cons q x l Hq).
  destruct (store_ok q (x :: l) 0 None Hq) as (b & Hb & Hst).
  rewrite <- (begin_slot q _ Hq) in Hst. rewrite Hst. cbn [res_bind].
  eexists. split; [done|]. split; [done|]. pose proof (end_around q _ Hq) as He.
  pose proof Hq as [Hn Hbg Hsz Hend (b' & Hb' & Hlb & Hl)].
  rewrite Hb in Hb'. injection Hb' as <-. cbn [length] in *.
  assert (Hnx := next_around q (begin_ q) Hn Hbg).
  split; cbn; [lia|case_if_in Hnx; lia|lia| |].
  - rewrite mod_around by (case_if_in Hnx; lia). case_if_in He; case_if_in Hnx; case_if; lia.
  - eexists. split; [done|]. rewrite length_insert. split; [done|].
    match goal with |- context [Some ?b'] => set (b1 := b') end. unfold slot. cbn.
    intros i y Hy. pose proof (lookup_lt_Some _ _ _ Hy).
    replace (Z.to_nat ((next q (begin_ q) + Z.of_nat i) mod buff_len_ q)) with (slot q (S i)).
    2: { unfold slot. rewrite !mod_around by (case_if_in Hnx; lia).
         case_if_in Hnx; repeat case_if; lia. }
    unfold b1. rewrite list_lookup_insert_ne; [by apply Hl|].
    intros E. apply (slot_inj q _ _ _ Hq) in E; lia.
Qed.

Lemma pop_back_ok q l x :
  holds q (l ++ [x]) ->
  exists q', pop_back q = Ok q' /\ buff_len_ q' = buff_len_ q /\ holds q' l.
Proof.
  intros Hq. unfold pop_back. rewrite (is_empty_app q l x Hq).
  destruct (store_ok q _ (length (l ++ [x])) None Hq) as (b & Hb & Hst).
  rewrite <- (end_slot_Z q _ Hq) in Hst. rewrite Hst. cbn [res_bind].
  eexists. split; [done|]. split; [done|]. rewrite (prev_end q l x Hq).
  pose proof (slot_lt q _ (length l) Hq) as Hs.
  pose proof Hq as [Hn Hbg Hsz Hend (b' & Hb' & Hlb & Hl)].
  rewrite Hb in Hb'. injection Hb' as <-.
  split; cbn; [lia|lia|rewrite length_app in Hsz; lia| |].
  - unfold slot. rewrite Z2Nat.id; [done|].
    pose proof (Z.mod_pos_bound (begin_ q + Z.of_nat (length l)) (buff_len_ q)). lia.
  - eexists. split; [done|]. rewrite length_insert. split; [done|].
    intros i y Hy.
    apply (buff_frame q (l ++ [x]) (length (l ++ [x])) None b Hq ltac:(lia) ltac:(lia) Hl).
    by apply lookup_app_l_Some.
Qed.

Lemma make_ok n :
  0 < n < 2 ^ 63 -> exists q, make true n = Ok q /\ buff_len_ q = n /\ holds q [].
Proof.
  intros Hn. unfold make. rewrite (proj2 (Z.eqb_neq n 0)) by lia.
  eexists. split; [done|]. split; [done|]. split; cbn; [lia|lia|lia|done|].
  eexists. split; [done|]. rewrite repeat_length. split; [lia|]. done.
Qed.

(** One operation follows the specification. *)
Lemma queue_step_ok q l o :
  holds q l ->
  match deque_step (buff_len_ q) l o with
  | Ok (l', r) =>
      exists q', queue_step q o = Ok (q', r) /\ buff_len_ q' = buff_len_ q /\ holds q' l'
  | Panic => queue_step q o = Panic
  end.
Proof.
  intros Hq. pose proof (is_empty_spec q l Hq) as He. destruct o; cbn.
  - destruct l as [|y l]; [by unfold front; rewrite He|].
    rewrite (front_ok q y l Hq). cbn. eauto.
  - destruct l as [|y l _] using rev_ind; [by cbn; unfold back; rewrite He|].
    rewrite last_snoc, (back_ok q l y Hq). cbn. eauto.
  - destruct (push_front_ok q l x Hq) as (q' & -> & ? & ?). cbn. eauto.
  - destruct l as [|y l]; [by unfold pop_front; rewrite He|].
    destruct (pop_front_ok q y l Hq) as (q' & -> & ? & ?). cbn. eauto.
  - destruct (push_back_ok q l x Hq) as (q' & -> & ? & ?). cbn. eauto.
  - destruct l as [|y l _] using rev_ind; [by cbn; unfold pop_back; rewrite He|].
    rewrite removelast_last. destruct (pop_back_ok q l y Hq) as (q' & -> & ? & ?).
    destruct (l ++ [y]) eqn:E; [by destruct l|]. cbn. eauto.
  - rewrite (size_length q l Hq). eauto.
  - rewrite He. eauto.
  - rewrite (is_full_false q l Hq). eauto.
Qed.

Lemma outcomes_ok q l os :
  holds q l -> outcomes queue_step q os = outcomes (deque_step (buff_len_ q)) l os.
Proof.
  revert q l. induction os as [|o os IH]; intros q l Hq; cbn; [done|].
  pose proof (queue_step_ok q l o Hq) as Ho.
  destruct (deque_step (buff_len_ q) l o) as [[l' r]|]; [|by rewrite Ho].
  destruct Ho as (q' & -> & Hn & Hq'). cbn. by rewrite (IH q' l' Hq'), Hn.
Qed.

(** C34: a ring queue with a buffer of [n] slots behaves as the bounded deque: from its
    construction on, any sequence of pushes, pops and reads at both ends has the outcomes of
    [deque_step n], a panic included.  So the queue holds up to [n - 1] elements in order,
    and its overflow test never fires: pushing one more element onto [n - 1] of them, which
    the documentation excludes for a full queue, loses them all. *)
Theorem ring_queue_refines n q os :
  0 < n < 2 ^ 63 -> make true n = Ok q ->
  outcomes queue_step q os = outcomes (deque_step n) [] os.
Proof.
  intros Hn Hq. destruct (make_ok n Hn) as (q' & Hq' & Hlen & Hh).
  rewrite Hq in Hq'. injection Hq' as <-. rewrite <- Hlen. by apply outcomes_ok.
Qed.

End Queue.

Arguments t T : clear implicits.
Arguments op T : clear implicits.
Arguments out T : clear implicits.

(** A ring of two slots: the second push empties it, and the next read panics. *)
Lemma ring_queue_refines_witness :
  exists q, make true 2 = Ok q /\
    outcomes queue_step q [PushBack 7; Front; PushBack 8; IsFull; Size] =
      Ok [Done; Element 7; Done; Answer false; Count 0] /\
    outcomes queue_step q [PushBack 7; PushBack 8; Back] = Panic.
Proof.
  eexists. split; [reflexivity|].
  split; rewrite (ring_queue_refines 2 _ _ ltac:(lia) eq_refl); reflexivity.
Defined.

(** The destructor of the element that [pop_back] removes is not called: its slot still
    holds the object, while the slot after it is destroyed a second time. *)
Lemma pop_back_keeps_object :
  exists q q1 q2 : t Z,
    make true 3 = Ok q /\ push_back q 5 = Ok q1 /\ pop_back q1 = Ok q2 /\
    is_empty q2 = true /\ buff_ q2 = Some [Some 5; None; None].
Proof. do 3 eexists. repeat split. Qed.

End RingQueue.
