(* ===== verification/MpscQueue.v ===== *)
(** The lock-free queue of many producers and one consumer
    (src/internal_modules/roc_core/mpsc_queue_impl.cpp, mpsc_queue.h, mpsc_queue_node.h).

    A call is a sequence of atomic accesses to the shared memory.  Every thread is at some
    point of its call, a step performs the next access of one thread, and an execution is
    any sequence of steps of any threads: the accesses interleave in every possible way.
    The memory is sequentially consistent; that the weaker orders of the source make no
    difference is not part of the model.

    Elements that are not in the queue may be in another one, whose threads change them at
    any time. *)

From stdpp Require Import gmap functions.
From S2P Require Import Prelude.

#[local] Open Scope nat_scope.

Module MpscQueue.

(** * Memory *)

(** [MpscQueueData*] *)
Inductive Node : Type :=
| Stub
| Elem (n : nat).

#[global] Instance Node_eq_dec : EqDecision Node.
Proof. solve_decision. Defined.

(** The members [next] of all nodes and [queue] of the elements, with the queues numbered,
    and those of the queue. *)
Record Memory : Type := mkMemory {
  next : Node -> option Node;
  queue : nat -> option nat;
  tail_ : Node;
  head_ : Node
}.

Definition set_next (n : Node) (x : option Node) (m : Memory) : Memory :=
  mkMemory (<[n := x]> (next m)) (queue m) (tail_ m) (head_ m).

Definition set_queue (n : nat) (x : option nat) (m : Memory) : Memory :=
  mkMemory (next m) (<[n := x]> (queue m)) (tail_ m) (head_ m).

Definition set_tail (x : Node) (m : Memory) : Memory :=
  mkMemory (next m) (queue m) x (head_ m).

Definition set_head (x : Node) (m : Memory) : Memory :=
  mkMemory (next m) (queue m) (tail_ m) x.

Section Queue.

(** The number of this queue. *)
Context (this : nat).

(** * Calls *)

Definition change_owner_ (n : nat) (from to : option nat) (m : Memory) : res Memory :=
  if decide (queue m n = from) then Ok (set_queue n to m) else Panic.

(** [push_node_]: about to clear [next], to exchange the tail, to link the new node. *)
Inductive PushNode : Type :=
| Clear (n : Node)
| Exchange (n : Node)
| Link (prev n : Node).

(** The next access of [push_node_]; [None] when it returns. *)
Definition push_node_ (p : PushNode) (m : Memory) : option PushNode * Memory :=
  match p with
  | Clear n => (Some (Exchange n), set_next n None m)
  | Exchange n => (Some (Link (tail_ m) n), set_tail n m)
  | Link prev n => (None, set_next prev (Some n) m)
  end.

(** [push_back] *)
Inductive PushBack : Type :=
| ChangeOwner (n : nat)
| Pushing (p : PushNode).

(** [pop_front]: about to
    - load [head_] and [head->next];
    - compare the tail with the stub;
    - move [head_] past the stub and load the next node again;
    - compare the tail with the head, and push the stub;
    - load [head->next], with the number of times that [try_wait_next_] still does so;
    - move [head_];
    - release the removed node. *)
Inductive PopFront : Type :=
| LoadHead
| LoadNext (head : Node)
| CheckEmpty (head : Node)
| SkipStub (nxt : Node)
| ReloadNext (head : Node)
| CheckTail (head : Node)
| PushStub (p : PushNode) (head : Node)
| WaitNext (head : Node) (tries : nat)
| MoveHead (head nxt : Node)
| Release (head : Node).

(** What a thread does that others can see: [push_back] takes effect, [pop_front] returns
    an element, finds the queue empty, or gives up because of a [push_back] in progress. *)
Inductive Event : Type :=
| Pushed (n : nat)
| Popped (n : nat)
| FoundEmpty
| GaveUp.

(** Attempts of [try_wait_next_]. *)
Definition Attempts : nat := 3.

(** With [head] not the stub and its [next] loaded. *)
Definition have_next (head : Node) (nxt : option Node) : PopFront :=
  match nxt with Some nxt => MoveHead head nxt | None => CheckTail head end.

(** With [next] found by waiting. *)
Definition found_next (head nxt : Node) : PopFront :=
  if decide (head = Stub) then SkipStub nxt else MoveHead head nxt.

(** The next access of [pop_front]; no [PopFront] when it returns. *)
Definition pop_front (can_spin : bool) (p : PopFront) (m : Memory)
  : res (option PopFront * Memory * list Event) :=
  match p with
  | LoadHead => Ok (Some (LoadNext (head_ m)), m, [])
  | LoadNext head =>
      let p :=
        if decide (head = Stub) then
          match next m head with Some nxt => SkipStub nxt | None => CheckEmpty head end
        else have_next head (next m head) in
      Ok (Some p, m, [])
  | CheckEmpty head =>
      if decide (tail_ m = head) then Ok (None, m, [FoundEmpty])
      else Ok (Some (WaitNext head Attempts), m, [])
  | SkipStub nxt => Ok (Some (ReloadNext nxt), set_head nxt m, [])
  | ReloadNext head => Ok (Some (have_next head (next m head)), m, [])
  | CheckTail head =>
      if decide (tail_ m = head) then Ok (Some (PushStub (Clear Stub) head), m, [])
      else Ok (Some (WaitNext head Attempts), m, [])
  | PushStub p head =>
      let '(p, m) := push_node_ p m in
      Ok (Some (match p with Some p => PushStub p head | None => WaitNext head Attempts end), m, [])
  | WaitNext head tries =>
      match next m head with
      | Some nxt => Ok (Some (found_next head nxt), m, [])
      | None =>
          match tries with
          | S (S tries) => Ok (Some (WaitNext head (S tries)), m, [])
          | _ => if can_spin then Ok (Some (WaitNext head 0), m, []) else Ok (None, m, [GaveUp])
          end
      end
  | MoveHead head nxt => Ok (Some (Release head), set_head nxt m, [])
  | Release head =>
      match head with
      | Elem n => let* m := change_owner_ n (Some this) None m in Ok (None, m, [Popped n])
      | Stub => Panic
      end
  end.

(** * Threads *)

(** The producers in a call, and the consumer if it is in a call. *)
Record System : Type := mkSystem {
  memory : Memory;
  producers : gmap nat PushBack;
  consumer : option (bool * PopFront)
}.

(** An idle producer [t] calls [push_back], a producer does its next access, the idle
    consumer calls [pop_front], it does its next access, or another queue changes an element
    that is not in this one. *)
Inductive Action : Type :=
| CallPush (t n : nat)
| StepPush (t : nat)
| CallPop (can_spin : bool)
| StepPop
| Other (n : nat) (nxt : option Node) (owner : option nat).

Definition step_push (t : nat) (s : System) : res (System * list Event) :=
  match producers s !! t with
  | None => Ok (s, [])
  | Some (ChangeOwner n) =>
      let* m := change_owner_ n None (Some this) (memory s) in
      Ok (mkSystem m (<[t := Pushing (Clear (Elem n))]> (producers s)) (consumer s), [])
  | Some (Pushing p) =>
      let '(p', m) := push_node_ p (memory s) in
      Ok (mkSystem m
            (match p' with
             | Some p' => <[t := Pushing p']> (producers s)
             | None => delete t (producers s)
             end) (consumer s),
          match p with Exchange (Elem n) => [Pushed n] | _ => [] end)
  end.

Definition step_pop (s : System) : res (System * list Event) :=
  match consumer s with
  | None => Ok (s, [])
  | Some (can_spin, p) =>
      let* '(p, m, events) := pop_front can_spin p (memory s) in
      Ok (mkSystem m (producers s) ((fun p => (can_spin, p)) <$> p), events)
  end.

Definition step (a : Action) (s : System) : res (System * list Event) :=
  match a with
  | CallPush t n =>
      match producers s !! t with
      | None => Ok (mkSystem (memory s) (<[t := ChangeOwner n]> (producers s)) (consumer s), [])
      | Some _ => Ok (s, [])
      end
  | StepPush t => step_push t s
  | CallPop can_spin =>
      match consumer s with
      | None => Ok (mkSystem (memory s) (producers s) (Some (can_spin, LoadHead)), [])
      | Some _ => Ok (s, [])
      end
  | StepPop => step_pop s
  | Other n nxt owner =>
      if decide (queue (memory s) n = Some this \/ owner = Some this) then Ok (s, [])
      else Ok (mkSystem (set_queue n owner (set_next (Elem n) nxt (memory s)))
                 (producers s) (consumer s), [])
  end.

(** An execution. *)
Fixpoint exec (acts : list Action) (s : System) : res (System * list Event) :=
  match acts with
  | [] => Ok (s, [])
  | a :: acts =>
      let* '(s, e1) := step a s in
      let* '(s, e2) := exec acts s in
      Ok (s, e1 ++ e2)
  end.

(** * Construction and destruction *)

(** The elements may be in any state when the queue is created, except in the queue. *)
Definition make (nxt : nat -> option Node) (owner : nat -> option nat) : System :=
  mkSystem (mkMemory (fun n => match n with Stub => None | Elem n => nxt n end) owner Stub Stub)
    ∅ None.

Definition destroy (s : System) : res () :=
  if decide (head_ (memory s) = Stub) then Ok () else Panic.

End Queue.

End MpscQueue.
