(* ===== verification/MpscQueueFifo.v ===== *)
(** Every execution of the queue of MpscQueue.v is one of a sequential queue: the invariant
    that ties the linked nodes and the calls in progress to the sequence of waiting
    elements, and what the consumer can rely on when it runs alone. *)

From stdpp Require Import gmap functions.
From S2P Require Import Prelude MpscQueue.

#[local] Open Scope nat_scope.

Import MpscQueue.

(** * The linked nodes *)

Section Nodes.

Context (this : nat).

(** [L] are the nodes from the head to the tail; [lk a b] says that a call is about to
    link [b] behind [a]. *)
Record linked (m : Memory) (lk : Node -> Node -> Prop) (L : list Node) : Prop := {
  l_head : head L = Some (head_ m);
  l_last : last L = Some (tail_ m);
  l_nodup : NoDup L;
  l_end : next m (tail_ m) = None;
  l_next : forall i a b, L !! i = Some a -> L !! S i = Some b ->
    next m a = Some b \/ (next m a = None /\ lk a b);
  l_link : forall a b, lk a b -> next m a = None /\ exists i, L !! i = Some a /\ L !! S i = Some b;
  l_owner : forall n, Elem n ∈ L -> queue m n = Some this
}.

Lemma linked_iff m lk lk' L :
  (forall a b, lk a b <-> lk' a b) -> linked m lk L -> linked m lk' L.
Proof.
  intros E []. split; try done; intros.
  - destruct (l_next0 i a b) as [|[? ?%E]]; auto.
  - by apply l_link0, E.
Qed.

Lemma linked_tail m lk L : linked m lk L -> tail_ m ∈ L.
Proof. intros H. by apply last_Some_elem_of, H. Qed.

Lemma linked_outside m lk L n x :
  n ∉ L -> linked m lk L -> linked (set_next n x m) lk L.
Proof.
  intros Hn H. pose proof (linked_tail _ _ _ H) as Ht. destruct H. split; try done; cbn.
  - rewrite fn_lookup_insert_ne; [done|set_solver].
  - intros i a b Ha Hb. rewrite fn_lookup_insert_ne; [eauto|].
    intros ->. by apply list_elem_of_lookup_2, Hn in Ha.
  - intros a b Hab. destruct (l_link0 a b Hab) as (E & i & Ha & Hb).
    rewrite fn_lookup_insert_ne; [eauto|]. intros ->. by apply list_elem_of_lookup_2, Hn in Ha.
Qed.

Lemma linked_queue m lk L n x :
  (Elem n ∈ L -> x = Some this) -> linked m lk L -> linked (set_queue n x m) lk L.
Proof.
  intros Hn []. split; try done; cbn. intros n' Hn'. destruct (decide (n = n')) as [->|].
  - rewrite fn_lookup_insert. auto.
  - rewrite fn_lookup_insert_ne; auto.
Qed.

(** A node becomes the tail. *)
Lemma linked_append m lk L n :
  n ∉ L -> next m n = None -> (forall e, n = Elem e -> queue m e = Some this) -> linked m lk L ->
  linked (set_tail n m) (fun a b => lk a b \/ (a = tail_ m /\ b = n)) (L ++ [n]).
Proof.
  intros Hn Hx Hq H. pose proof (linked_tail _ _ _ H) as Ht. destruct H. split; cbn.
  - by destruct L.
  - apply last_snoc.
  - apply NoDup_app. split_and!; [done|set_solver|apply NoDup_singleton].
  - done.
  - intros i a b Ha Hb. apply lookup_app_Some in Hb as [Hb|[Hl Hb]].
    + rewrite lookup_app_l in Ha by (apply lookup_lt_Some in Hb; lia).
      destruct (l_next0 i a b) as [|[]]; auto.
    + apply list_lookup_singleton_Some in Hb as [E <-].
      rewrite lookup_app_l in Ha by (apply lookup_lt_Some in Ha; rewrite length_app in Ha; simpl in Ha; lia).
      assert (a = tail_ m) as ->; [|auto].
      rewrite last_lookup in l_last0. replace (pred (length L)) with i in l_last0 by lia. congruence.
  - intros a b [Hab|[-> ->]].
    + destruct (l_link0 a b Hab) as (E & i & Ha & Hb). split; [done|]. exists i.
      split; by apply lookup_app_l_Some.
    + split; [done|]. rewrite last_lookup in l_last0. exists (pred (length L)).
      assert (length L <> 0) by (destruct L; [set_solver|done]).
      split; [by apply lookup_app_l_Some|].
      apply lookup_app_Some. right. split; [lia|]. by replace (S (pred (length L)) - length L) with 0 by lia.
  - intros e [He|He%list_elem_of_singleton]%elem_of_app; auto.
Qed.

(** A link is made. *)
Lemma linked_link m lk L a b :
  lk a b -> linked m lk L ->
  linked (set_next a (Some b) m) (fun a' b' => lk a' b' /\ (a' <> a \/ b' <> b)) L.
Proof.
  intros Hab []. destruct (l_link0 a b Hab) as (Ea & i & Ha & Hb).
  assert (forall c, lk a c -> c = b) as Hu.
  { intros c Hc. destruct (l_link0 a c Hc) as (_ & j & Ha' & Hc').
    rewrite (NoDup_lookup L i j a) in Hb by done. congruence. }
  split; try done; cbn.
  - rewrite fn_lookup_insert_ne; [done|]. intros ->.
    rewrite last_lookup in l_last0.
    assert (i = pred (length L)) by by eapply NoDup_lookup.
    apply lookup_lt_Some in Hb. lia.
  - intros j a' b' Ha' Hb'. destruct (decide (a = a')) as [<-|Hne].
    + rewrite fn_lookup_insert. left. f_equal.
      rewrite (NoDup_lookup L i j a) in Hb by done. congruence.
    + rewrite fn_lookup_insert_ne by done. destruct (l_next0 j a' b') as [|[]]; auto.
  - intros a' b' [H Hne]. destruct (decide (a = a')) as [<-|].
    + apply Hu in H. naive_solver.
    + rewrite fn_lookup_insert_ne by done. auto.
Qed.

(** The head moves on. *)
Lemma linked_pop m lk h L b :
  next m h = Some b -> linked m lk (h :: L) ->
  h = head_ m /\ h ∉ L /\ linked (set_head b m) lk L.
Proof.
  intros Hb []. split; [by injection l_head0|]. apply NoDup_cons in l_nodup0 as [Hh HL].
  split; [done|]. assert (head L = Some b) as HL0.
  { destruct L as [|c L]; [|].
    - injection l_last0 as E. congruence.
    - destruct (l_next0 0 h c) as [|[]]; cbn; congruence. }
  split; cbn; try done.
  - by destruct L.
  - intros i a c Ha Hc. by apply (l_next0 (S i)).
  - intros a c Hac. destruct (l_link0 a c Hac) as (E & [|i] & Ha & Hc); [cbn in Ha; congruence|].
    eauto.
  - intros n Hn. apply l_owner0. by right.
Qed.

Lemma linked_one m lk L : linked m lk L -> tail_ m = head_ m -> L = [head_ m].
Proof.
  intros [] E. destruct L as [|a [|b L]]; [done|by injection l_head0 as ->|].
  injection l_head0 as ->. rewrite last_cons_cons in l_last0.
  apply last_Some_elem_of in l_last0. rewrite E in l_last0. by apply NoDup_cons in l_nodup0 as [].
Qed.

Lemma linked_two m lk L :
  linked m lk L -> tail_ m <> head_ m -> exists b L', L = head_ m :: b :: L'.
Proof.
  intros [] E. destruct L as [|a [|b L]]; [done|cbn in *; congruence|]. injection l_head0 as ->. eauto.
Qed.

Lemma linked_head m lk L : linked m lk L -> exists L', L = head_ m :: L'.
Proof. intros []. destruct L; [done|]. injection l_head0 as ->. eauto. Qed.

End Nodes.

(** * The invariant *)

Section Invariant.

Context (this : nat).

Definition target (p : PushNode) : Node :=
  match p with Clear n | Exchange n | Link _ n => n end.

(** A call is about to link [b] behind [a]. *)
Definition linking (s : System) (a b : Node) : Prop :=
  (exists t, producers s !! t = Some (Pushing (Link a b)))
  \/ (exists spin h, consumer s = Some (spin, PushStub (Link a b) h)).

(** A node that is not among [L] yet. *)
Definition push_ok (m : Memory) (L : list Node) (p : PushNode) : Prop :=
  match p with
  | Clear n => n ∉ L
  | Exchange n => n ∉ L /\ next m n = None
  | Link _ n => n ∈ L
  end.

Definition producer_ok (m : Memory) (L : list Node) (c : PushBack) : Prop :=
  match c with
  | ChangeOwner _ => True
  | Pushing p => push_ok m L p /\ exists n, target p = Elem n /\ queue m n = Some this
  end.

Definition consumer_ok (s : System) (L : list Node) (c : PopFront) : Prop :=
  let m := memory s in
  match c with
  | LoadHead => True
  | LoadNext h => h = head_ m
  | CheckEmpty h => h = head_ m /\ h = Stub
  | SkipStub nxt => head_ m = Stub /\ next m Stub = Some nxt
  | ReloadNext h | CheckTail h => h = head_ m /\ h <> Stub
  | PushStub p h => h = head_ m /\ h <> Stub /\ push_ok m L p /\ target p = Stub /\
      match p with Link _ _ => tail_ m <> head_ m | _ => True end
  | WaitNext h _ => h = head_ m /\ tail_ m <> head_ m
  | MoveHead h nxt => h = head_ m /\ h <> Stub /\ next m h = Some nxt
  | Release h => exists n, h = Elem n /\ queue m n = Some this /\ h ∉ L
      /\ forall t p, producers s !! t = Some (Pushing p) -> target p <> h
  end.

Record inv (s : System) (L : list Node) : Prop := {
  inv_linked : linked this (memory s) (linking s) L;
  inv_producer : forall t c, producers s !! t = Some c -> producer_ok (memory s) L c;
  inv_unique : forall t1 t2 p1 p2, producers s !! t1 = Some (Pushing p1) ->
    producers s !! t2 = Some (Pushing p2) -> target p1 = target p2 -> t1 = t2;
  inv_consumer : forall spin c, consumer s = Some (spin, c) -> consumer_ok s L c
}.

(** The elements in the queue: one that is being returned is still there. *)
Definition elements (L : list Node) : list nat :=
  omap (fun n => match n with Stub => None | Elem n => Some n end) L.

Definition waiting (s : System) (L : list Node) : list nat :=
  match consumer s with Some (_, Release (Elem n)) => [n] | _ => [] end ++ elements L.

(** * The sequential queue *)

Definition effect (e : Event) (q : list nat) : option (list nat) :=
  match e, q with
  | Pushed n, _ => Some (q ++ [n])
  | Popped n, m :: q => if decide (m = n) then Some q else None
  | Popped n, [] => None
  | FoundEmpty, [] => Some []
  | FoundEmpty, _ => None
  | GaveUp, _ => Some q
  end.

Fixpoint replay (es : list Event) (q : list nat) : option (list nat) :=
  match es with
  | [] => Some q
  | e :: es => match effect e q with Some q => replay es q | None => None end
  end.

Lemma mpsc_replay_app es1 es2 q :
  replay (es1 ++ es2) q = match replay es1 q with Some q => replay es2 q | None => None end.
Proof.
  revert q. induction es1 as [|e es1 IH]; intros q; cbn; [done|]. by destruct (effect e q).
Qed.

Lemma elements_app L1 L2 : elements (L1 ++ L2) = elements L1 ++ elements L2.
Proof. apply omap_app. Qed.

(** * Steps of the producers *)

(** Calls that are not affected by a change of memory or of the nodes. *)
Lemma push_ok_mono m m' L L' p :
  push_ok m L p -> (forall n, n = target p -> n ∈ L' <-> n ∈ L) ->
  (forall n, p = Exchange n -> next m' n = next m n) -> push_ok m' L' p.
Proof. destruct p; cbn; intros H HL Hn; rewrite ?HL, ?Hn by done; done. Qed.

Lemma mpsc_make_inv nxt owner :
  (forall n, owner n <> Some this) -> inv (make nxt owner) [Stub].
Proof.
  intros Ho. split; cbn.
  - split; cbn; try done.
    + apply NoDup_singleton.
    + intros a b [[t Ht]|(spin & h & Hc)]; [cbn in Ht; by rewrite lookup_empty in Ht|done].
    + intros n Hn. set_solver.
  - intros t c. by rewrite lookup_empty.
  - intros t1 t2 p1 p2. by rewrite lookup_empty.
  - done.
Qed.

Lemma call_push_inv s L t n :
  producers s !! t = None -> inv s L ->
  inv (mkSystem (memory s) (<[t := ChangeOwner n]> (producers s)) (consumer s)) L.
Proof.
  intros Ht []. split; cbn.
  - eapply linked_iff; [|exact inv_linked0]. intros a b. unfold linking. cbn. split.
    + intros [[t' E]|]; [|by right]. left. exists t'. rewrite lookup_insert_ne; congruence.
    + intros [[t' E]|]; [|by right]. left. exists t'. apply lookup_insert_Some in E as [[]|[]]; congruence.
  - intros t' c [[<- <-]|[]]%lookup_insert_Some; eauto. done.
  - intros t1 t2 p1 p2 H1 H2. apply lookup_insert_Some in H1 as [[]|[_ H1]]; [congruence|].
    apply lookup_insert_Some in H2 as [[]|[_ H2]]; [congruence|]. eauto.
  - intros spin c Hc. specialize (inv_consumer0 spin c Hc). destruct c; cbn in *; try done.
    destruct inv_consumer0 as (e & ? & ? & ? & Hp). exists e. split_and!; try done.
    intros t' p [[]|[_ Hq]]%lookup_insert_Some; [congruence|eauto].
Qed.

(** The producer [t] goes from [c] to [c'] with the same node. *)
Lemma unique_replace (ps : gmap nat PushBack) t p p' :
  ps !! t = Some (Pushing p) -> target p' = target p ->
  (forall t1 t2 p1 p2, ps !! t1 = Some (Pushing p1) -> ps !! t2 = Some (Pushing p2) ->
    target p1 = target p2 -> t1 = t2) ->
  forall t1 t2 p1 p2, <[t := Pushing p']> ps !! t1 = Some (Pushing p1) ->
    <[t := Pushing p']> ps !! t2 = Some (Pushing p2) -> target p1 = target p2 -> t1 = t2.
Proof.
  intros Hp Ht Hu t1 t2 p1 p2 H1 H2 E.
  apply lookup_insert_Some in H1, H2.
  destruct H1 as [[<- [= <-]]|[N1 H1]], H2 as [[<- [= <-]]|[N2 H2]]; [done| | |by eauto].
  - eapply Hu; [exact Hp|exact H2|congruence].
  - eapply Hu; [exact H1|exact Hp|congruence].
Qed.

(** The links in progress when the producer [t] does not make or finish one. *)
Lemma linking_replace s m t c c' :
  producers s !! t = Some c -> (forall a b, c <> Pushing (Link a b)) ->
  (forall a b, c' <> Pushing (Link a b)) ->
  forall a b, linking s a b <-> linking (mkSystem m (<[t := c']> (producers s)) (consumer s)) a b.
Proof.
  intros Ht Hc Hc' a b. unfold linking. cbn. split; intros [[t' E]|]; auto; left; exists t'.
  - rewrite lookup_insert_ne; [done|]. intros ->. naive_solver.
  - apply lookup_insert_Some in E as [[_ E]|[_ E]]; [naive_solver|done].
Qed.

(** Nothing happens to a consumer when producers move on with the node [n] of one of them:
    it may become the tail and may be linked. *)
Lemma consumer_keeps s L m' L' ps' n c :
  consumer_ok s L c -> (exists t p, producers s !! t = Some (Pushing p) /\ target p = n) ->
  (forall t' q, ps' !! t' = Some (Pushing q) ->
     exists t'' q', producers s !! t'' = Some (Pushing q') /\ target q' = target q) ->
  head_ m' = head_ (memory s) -> (tail_ m' = tail_ (memory s) \/ tail_ m' <> head_ m') ->
  queue m' = queue (memory s) ->
  (forall x, x ∈ L' -> x ∈ L \/ x = n) -> (forall x, x ∈ L -> x ∈ L') -> n <> Stub ->
  (forall a x, next (memory s) a = Some x -> a ∈ L -> next m' a = Some x) ->
  (next (memory s) Stub = None -> Stub ∉ L -> next m' Stub = None) ->
  head_ (memory s) ∈ L -> consumer_ok (mkSystem m' ps' (consumer s)) L' c.
Proof.
  intros Hc (t & p & Ht & En) Hps Hh Htl Hq HL' HL Hs Hn Hstub Hin.
  assert (forall q, target q = Stub -> push_ok (memory s) L q -> push_ok m' L' q) as Hpush.
  { intros q Eq. destruct q; cbn in *; subst; [intros H [|]%HL'; congruence| |auto].
    intros [H ?]. split; [|auto]. intros [|]%HL'; congruence. }
  destruct c; cbn in *; rewrite ?Hh, ?Hq; try done.
  - destruct Hc as [E ?]. rewrite E in Hin. auto.
  - destruct Hc as (-> & ? & ? & ? & E). split_and!; try done; [by apply Hpush|].
    destruct p0; try done. destruct Htl as [->|]; [done|congruence].
  - destruct Hc as [-> ?]. split; [done|]. destruct Htl as [->|]; [done|congruence].
  - destruct Hc as (-> & ? & ?). auto.
  - destruct Hc as (e & -> & ? & He & Hp). exists e. split_and!; [done|done| |].
    + intros [|E]%HL'; [done|]. apply (Hp _ _ Ht). congruence.
    + intros t' q (t'' & q' & H1 & <-)%Hps. by eapply Hp.
Qed.

(** After a step of [push_node_] of the producer [t]. *)
Lemma replace_targets (ps : gmap nat PushBack) t p p' :
  ps !! t = Some (Pushing p) -> target p' = target p ->
  forall t' q, <[t := Pushing p']> ps !! t' = Some (Pushing q) ->
  exists t'' q', ps !! t'' = Some (Pushing q') /\ target q' = target q.
Proof.
  intros Ht E t' q [[<- [= <-]]|[_ H]]%lookup_insert_Some; eauto.
Qed.

Lemma change_owner_inv s L t n :
  producers s !! t = Some (ChangeOwner n) -> queue (memory s) n = None -> inv s L ->
  inv (mkSystem (set_queue n (Some this) (memory s))
         (<[t := Pushing (Clear (Elem n))]> (producers s)) (consumer s)) L.
Proof.
  intros Ht Hn []. assert (Elem n ∉ L) as HL.
  { intros H%(l_owner _ _ _ _ inv_linked0). congruence. }
  assert (forall t' p, producers s !! t' = Some (Pushing p) -> target p <> Elem n) as Hother.
  { intros t' p Hp E. destruct (inv_producer0 _ _ Hp) as [_ (e & E1 & E2)]. congruence. }
  assert (forall e, queue (memory s) e = Some this -> <[n:=Some this]> (queue (memory s)) e = Some this)
    as Hq.
  { intros e He. rewrite fn_lookup_insert_ne by congruence. done. }
  split; cbn.
  - apply linked_queue; [done|]. eapply linked_iff; [|exact inv_linked0].
    apply (linking_replace s _ t (ChangeOwner n)); done.
  - intros t' c [[<- <-]|[_ Hc]]%lookup_insert_Some; cbn.
    + split; [done|]. exists n. by rewrite fn_lookup_insert.
    + specialize (inv_producer0 _ _ Hc). destruct c as [|p]; [done|]. destruct inv_producer0 as [Hp (e & E & He)].
      split; [by destruct p|]. eauto.
  - intros t1 t2 p1 p2 H1 H2 E. apply lookup_insert_Some in H1, H2.
    destruct H1 as [[<- [= <-]]|[N1 H1]], H2 as [[<- [= <-]]|[N2 H2]]; [done| | |by eauto].
    + by destruct (Hother _ _ H2).
    + by destruct (Hother _ _ H1).
  - intros spin c Hc. specialize (inv_consumer0 spin c Hc). destruct c; cbn in *; try done.
    destruct inv_consumer0 as (e & -> & ? & ? & Hp). exists e. split_and!; auto.
    intros t' p [[_ [= <-]]|[_ H']]%lookup_insert_Some; [cbn; congruence|eauto].
Qed.

(** The other producers have other nodes. *)
Lemma producers_keep s L m' L' t p t' c :
  inv s L -> producers s !! t = Some (Pushing p) -> producers s !! t' = Some c -> t' <> t ->
  queue m' = queue (memory s) -> (forall x, x <> target p -> x ∈ L' <-> x ∈ L) ->
  (forall a, a <> target p -> a ∉ L -> next m' a = next (memory s) a) -> producer_ok m' L' c.
Proof.
  intros [] Ht Ht' Hne Hq HL Hn. specialize (inv_producer0 _ _ Ht') as Hc.
  destruct c as [|q]; [done|]. destruct Hc as [Hp (e & E & He)].
  assert (target q <> target p) as Hd by (intros E'; by apply Hne; eapply inv_unique0).
  split; [|exists e; by rewrite Hq].
  eapply push_ok_mono; [exact Hp|intros ? ->; by apply HL|].
  intros n ->. apply Hn; [done|]. apply Hp.
Qed.

Lemma producer_clear_inv s L t n :
  producers s !! t = Some (Pushing (Clear n)) -> inv s L ->
  inv (mkSystem (set_next n None (memory s)) (<[t := Pushing (Exchange n)]> (producers s))
         (consumer s)) L.
Proof.
  intros Ht HI. destruct (inv_producer _ _ HI _ _ Ht) as [Hn (e & E & He)]. cbn in Hn, E. subst n.
  assert (head_ (memory s) ∈ L) as Hh.
  { destruct (linked_head _ _ _ _ (inv_linked _ _ HI)) as [L' ->]. by left. }
  split; cbn.
  - apply linked_outside; [done|]. eapply linked_iff; [|apply HI].
    by apply (linking_replace s _ t (Pushing (Clear (Elem e)))).
  - intros t' c [[<- <-]|[Hne Hc]]%lookup_insert_Some; cbn.
    + rewrite fn_lookup_insert. eauto.
    + eapply (producers_keep s L); eauto; cbn.
      intros a Ha _. by rewrite fn_lookup_insert_ne.
  - eapply unique_replace; [exact Ht|done|apply HI].
  - intros spin c Hc. eapply (consumer_keeps s L) with (n := Elem e); cbn; eauto.
    + by eapply inv_consumer.
    + by eapply replace_targets.
    + intros a x Ha HaL. rewrite fn_lookup_insert_ne; [done|congruence].
Qed.

Lemma producer_exchange_inv s L t n :
  producers s !! t = Some (Pushing (Exchange n)) -> inv s L ->
  inv (mkSystem (set_tail n (memory s))
         (<[t := Pushing (Link (tail_ (memory s)) n)]> (producers s)) (consumer s)) (L ++ [n]).
Proof.
  intros Ht HI. destruct (inv_producer _ _ HI _ _ Ht) as [[Hn Hx] (e & E & He)]. cbn in E. subst n.
  assert (head_ (memory s) ∈ L) as Hh.
  { destruct (linked_head _ _ _ _ (inv_linked _ _ HI)) as [L' ->]. by left. }
  split; cbn.
  - eapply linked_iff; [|apply linked_append; [done|done| |apply HI]].
    2: { by intros ? [= <-]. }
    intros a b. unfold linking. cbn. split.
    + intros [[[t' E]|]|[-> ->]]; [|by right|].
      * left. exists t'. rewrite lookup_insert_ne; [done|]. congruence.
      * left. exists t. apply lookup_insert_eq.
    + intros [[t' E]|]; [|by left; right]. apply lookup_insert_Some in E as [[_ [= <- <-]]|[_ E]]; eauto.
  - intros t' c [[<- <-]|[Hne Hc]]%lookup_insert_Some; cbn.
    + split; [set_solver|]. eauto.
    + eapply (producers_keep s L); eauto; cbn. set_solver.
  - eapply unique_replace; [exact Ht|done|apply HI].
  - intros spin c Hc. eapply (consumer_keeps s L) with (n := Elem e); cbn; eauto.
    + by eapply inv_consumer.
    + by eapply replace_targets.
    + right. congruence.
    + set_solver.
    + set_solver.
Qed.

Lemma producer_link_inv s L t a n :
  producers s !! t = Some (Pushing (Link a n)) -> inv s L ->
  inv (mkSystem (set_next a (Some n) (memory s)) (delete t (producers s)) (consumer s)) L.
Proof.
  intros Ht HI. destruct (inv_producer _ _ HI _ _ Ht) as [_ (e & E & He)]. cbn in E. subst n.
  assert (linking s a (Elem e)) as Hl by (left; eauto).
  assert (head_ (memory s) ∈ L) as Hh.
  { destruct (linked_head _ _ _ _ (inv_linked _ _ HI)) as [L' ->]. by left. }
  destruct (l_link _ _ _ _ (inv_linked _ _ HI) _ _ Hl) as (Ha & i & Hi & _).
  assert (a ∈ L) as HaL by by eapply list_elem_of_lookup_2.
  split; cbn.
  - eapply linked_iff; [|by apply linked_link; [exact Hl|apply HI]].
    intros a' b'. unfold linking. cbn. split.
    + intros [[[t' E]|] Hne]; [|by right]. left. exists t'. rewrite lookup_delete_ne; [done|].
      intros ->. naive_solver.
    + intros [[t' E]|(spin & h & E)].
      * apply lookup_delete_Some in E as [Hne E]. split; [eauto|]. right. intros ->.
        apply Hne. eapply inv_unique; [exact HI|exact Ht|exact E|done].
      * split; [eauto|]. right. intros ->.
        destruct (inv_consumer _ _ HI _ _ E) as (_ & _ & _ & E' & _). done.
  - intros t' c [Hne Hc]%lookup_delete_Some. eapply (producers_keep s L); eauto; cbn.
    intros a' _ Ha'. rewrite fn_lookup_insert_ne; [done|congruence].
  - intros t1 t2 p1 p2 [_ H1]%lookup_delete_Some [_ H2]%lookup_delete_Some.
    by eapply inv_unique.
  - intros spin c Hc. eapply (consumer_keeps s L) with (n := Elem e); cbn; eauto.
    + by eapply inv_consumer.
    + intros t' q [_ H]%lookup_delete_Some. eauto.
    + intros a' x Hx _. rewrite fn_lookup_insert_ne; [done|congruence].
    + intros Hx Hs. rewrite fn_lookup_insert_ne; [done|congruence].
Qed.

(** * Steps of the consumer *)

Definition links_stub (c : option (bool * PopFront)) : Prop :=
  exists spin a b h, c = Some (spin, PushStub (Link a b) h).

(** The links in progress when the consumer does not make or finish one. *)
Lemma linking_consumer s m c' :
  ~ links_stub (consumer s) -> ~ links_stub c' ->
  forall a b, linking s a b <-> linking (mkSystem m (producers s) c') a b.
Proof.
  intros Hc Hc' a b. unfold linking, links_stub in *. cbn.
  split; intros [?|(spin & h & E)]; eauto; naive_solver.
Qed.

(** The consumer has changed memory and moved on. *)
Lemma consumer_step_inv s L m' L' c' :
  inv s L -> ~ links_stub (consumer s) -> ~ links_stub c' ->
  linked this m' (linking s) L' ->
  (forall t c, producers s !! t = Some c -> producer_ok m' L' c) ->
  (forall spin c, c' = Some (spin, c) -> consumer_ok (mkSystem m' (producers s) c') L' c) ->
  inv (mkSystem m' (producers s) c') L'.
Proof.
  intros HI Hl Hl' Hm Hp Hc. split; cbn; [|done|apply HI|done].
  eapply linked_iff; [|exact Hm]. by apply linking_consumer.
Qed.

Lemma consumer_local_inv s L c' :
  inv s L -> ~ links_stub (consumer s) -> ~ links_stub c' ->
  (forall spin c, c' = Some (spin, c) -> consumer_ok s L c) ->
  inv (mkSystem (memory s) (producers s) c') L.
Proof.
  intros HI Hl Hl' Hc. apply (consumer_step_inv s L); [done|done|done|apply HI|apply HI|].
  intros spin c E. specialize (Hc spin c E). by destruct c.
Qed.

(** The head moves from [h] to [b]. *)
Lemma consumer_pop_inv s L c' h b :
  inv s L -> ~ links_stub (consumer s) -> ~ links_stub c' ->
  h = head_ (memory s) -> next (memory s) h = Some b ->
  exists L', L = h :: L' /\ h ∉ L' /\ b <> h /\
    (forall t p, producers s !! t = Some (Pushing p) -> target p <> h) /\
    ((forall spin c, c' = Some (spin, c) ->
       consumer_ok (mkSystem (set_head b (memory s)) (producers s) c') L' c) ->
     inv (mkSystem (set_head b (memory s)) (producers s) c') L').
Proof.
  intros HI Hl Hl' Hh Hb. destruct (linked_head _ _ _ _ (inv_linked _ _ HI)) as [L' ->]. subst h.
  destruct (linked_pop _ _ _ _ _ _ Hb (inv_linked _ _ HI)) as (_ & Hn & HL).
  assert (forall t p, producers s !! t = Some (Pushing p) -> target p <> head_ (memory s)) as Ht.
  { intros t p Hp E. destruct (inv_producer _ _ HI _ _ Hp) as [Hok (e & E' & He)].
    destruct p as [n|n|a n]; cbn in *; subst; [set_solver|set_solver|].
    assert (linking s a (head_ (memory s))) as Hlk by (left; eauto; congruence).
    destruct (l_link _ _ _ _ (inv_linked _ _ HI) _ _ Hlk) as (_ & i & _ & Hi).
    by eapply Hn, (list_elem_of_lookup_2 _ i). }
  assert (b <> head_ (memory s)).
  { intros ->. apply Hn. apply (head_Some_elem_of _ _ (l_head _ _ _ _ HL)). }
  exists L'. split_and!; [done|done|done|done|].
  intros Hc. apply (consumer_step_inv s (head_ (memory s) :: L')); try done.
  intros t c Hc'. specialize (inv_producer _ _ HI _ _ Hc') as Hok. destruct c as [|p]; [done|].
  destruct Hok as [Hok He]. split; [|done]. eapply push_ok_mono; [exact Hok| |done].
  intros n ->. pose proof (Ht _ _ Hc'). set_solver.
Qed.

(** The producers do not touch the stub. *)
Lemma producers_not_stub s L m' L' t c :
  inv s L -> producers s !! t = Some c -> queue m' = queue (memory s) ->
  (forall x, x <> Stub -> x ∈ L' <-> x ∈ L) ->
  (forall n, n <> Stub -> n ∉ L -> next m' n = next (memory s) n) -> producer_ok m' L' c.
Proof.
  intros HI Hc Hq HL Hn. specialize (inv_producer _ _ HI _ _ Hc) as Hok. destruct c as [|p]; [done|].
  destruct Hok as [Hok (e & E & He)]. split; [|exists e; by rewrite Hq].
  eapply push_ok_mono; [exact Hok|intros ? ->; apply HL; congruence|].
  intros n ->. apply Hn; [cbn in E; congruence|]. apply Hok.
Qed.

Lemma stub_clear_inv s L spin n h :
  consumer s = Some (spin, PushStub (Clear n) h) -> inv s L ->
  inv (mkSystem (set_next n None (memory s)) (producers s)
         (Some (spin, PushStub (Exchange n) h))) L.
Proof.
  intros Hc HI. destruct (inv_consumer _ _ HI _ _ Hc) as (Hh & Hs & HL & E & _). cbn in HL, E. subst n.
  apply (consumer_step_inv s L); [done| | | | |].
  - rewrite Hc. intros (? & ? & ? & ? & ?); done.
  - intros (? & ? & ? & ? & ?); done.
  - apply linked_outside; [done|apply HI].
  - intros t c Ht. eapply (producers_not_stub s L); eauto. intros x Hx _. cbn.
    by rewrite fn_lookup_insert_ne.
  - intros ? ? [= <- <-]. cbn. rewrite fn_lookup_insert. split_and!; done.
Qed.

Lemma stub_exchange_inv s L spin n h :
  consumer s = Some (spin, PushStub (Exchange n) h) -> inv s L ->
  inv (mkSystem (set_tail n (memory s)) (producers s)
         (Some (spin, PushStub (Link (tail_ (memory s)) n) h))) (L ++ [n]).
Proof.
  intros Hc HI. destruct (inv_consumer _ _ HI _ _ Hc) as (Hh & Hs & [HL Hx] & E & _). cbn in E. subst n.
  split; cbn.
  - eapply linked_iff; [|by apply linked_append; [..|apply HI]].
    intros a b. unfold linking. cbn. rewrite Hc. naive_solver.
  - intros t c Ht. eapply (producers_not_stub s L); eauto. set_solver.
  - apply HI.
  - intros ? ? [= <- <-]. cbn. split_and!; [done|done|set_solver|done|congruence].
Qed.

Lemma stub_link_inv s L spin a n h :
  consumer s = Some (spin, PushStub (Link a n) h) -> inv s L ->
  inv (mkSystem (set_next a (Some n) (memory s)) (producers s)
         (Some (spin, WaitNext h Attempts))) L.
Proof.
  intros Hc HI. destruct (inv_consumer _ _ HI _ _ Hc) as (Hh & Hs & HL & E & Ht). cbn in E. subst n.
  assert (linking s a Stub) as Hl by (right; eauto).
  destruct (l_link _ _ _ _ (inv_linked _ _ HI) _ _ Hl) as (Ha & i & Hi & _).
  assert (a ∈ L) as HaL by by eapply list_elem_of_lookup_2.
  split; cbn.
  - eapply linked_iff; [|by apply linked_link; [exact Hl|apply HI]].
    intros a' b'. unfold linking. cbn. rewrite Hc. split; [naive_solver|].
    intros [[t E]|]; [|naive_solver]. split; [eauto|]. right. intros ->.
    destruct (inv_producer _ _ HI _ _ E) as [_ (e & E' & _)]. done.
  - intros t c E. eapply (producers_not_stub s L); eauto. intros x _ Hx. cbn.
    rewrite fn_lookup_insert_ne; [done|congruence].
  - apply HI.
  - intros ? ? [= <- <-]. cbn. done.
Qed.

(** The step keeps the invariant and does to the waiting elements what its events say. *)
Definition good_step (s : System) (L : list Node) (r : res (System * list Event)) : Prop :=
  exists s' es L', r = Ok (s', es) /\ inv s' L' /\ replay es (waiting s L) = Some (waiting s' L').

(** Accesses that change nothing for others. *)
Definition is_local (c : PopFront) : Prop :=
  match c with PushStub (Link _ _) _ | Release _ => False | _ => True end.

Lemma local_no_link c : match c with Some (_, c) => is_local c | None => True end -> ~ links_stub c.
Proof. intros H (? & ? & ? & ? & ->). done. Qed.

Lemma local_waiting s L spin c : consumer s = Some (spin, c) -> is_local c -> waiting s L = elements L.
Proof. intros E H. unfold waiting. rewrite E. by destruct c. Qed.

Lemma local_step s L spin c c' :
  consumer s = Some (spin, c) -> is_local c -> is_local c' -> inv s L -> consumer_ok s L c' ->
  good_step s L (Ok (mkSystem (memory s) (producers s) (Some (spin, c')), [])).
Proof.
  intros Hc Hl Hl' HI Hok. eexists _, _, L. split; [done|]. split.
  - apply consumer_local_inv; [done|rewrite Hc; by apply local_no_link|by apply local_no_link|].
    by intros ? ? [= <- <-].
  - cbn [replay]. f_equal. rewrite (local_waiting s L spin c) by done. by rewrite (local_waiting _ _ spin c').
Qed.

Lemma return_step s L spin c e :
  consumer s = Some (spin, c) -> is_local c -> inv s L -> effect e (elements L) = Some (elements L) ->
  good_step s L (Ok (mkSystem (memory s) (producers s) None, [e])).
Proof.
  intros Hc Hl HI He. eexists _, _, L. split; [done|]. split.
  - apply consumer_local_inv; [done|rewrite Hc; by apply local_no_link|by apply local_no_link|done].
  - cbn. rewrite (local_waiting s L spin c) by done. by rewrite He.
Qed.

Lemma skip_stub_step s L spin nxt :
  consumer s = Some (spin, SkipStub nxt) -> inv s L ->
  good_step s L (Ok (mkSystem (set_head nxt (memory s)) (producers s) (Some (spin, ReloadNext nxt)), [])).
Proof.
  intros Hc HI. destruct (inv_consumer _ _ HI _ _ Hc) as [Hh Hn].
  destruct (consumer_pop_inv s L (Some (spin, ReloadNext nxt)) Stub nxt) as (L' & -> & HL & Hne & _ & HI');
    try done.
  { rewrite Hc. by apply local_no_link. }
  { by apply local_no_link. }
  eexists _, _, L'. split; [done|]. split; [apply HI'; by intros ? ? [= <- <-]|].
  cbn. f_equal. by rewrite (local_waiting s _ spin (SkipStub nxt)).
Qed.

Lemma move_head_step s L spin h nxt :
  consumer s = Some (spin, MoveHead h nxt) -> inv s L ->
  good_step s L (Ok (mkSystem (set_head nxt (memory s)) (producers s) (Some (spin, Release h)), [])).
Proof.
  intros Hc HI. destruct (inv_consumer _ _ HI _ _ Hc) as (Hh & Hs & Hn).
  destruct h as [|n]; [done|].
  destruct (consumer_pop_inv s L (Some (spin, Release (Elem n))) (Elem n) nxt) as (L' & -> & HL & Hne & Ht & HI');
    try done.
  { rewrite Hc. by apply local_no_link. }
  { intros (? & ? & ? & ? & ?); done. }
  eexists _, _, L'. split; [done|]. split.
  - apply HI'. intros ? ? [= <- <-]. exists n. split_and!; try done. cbn.
    apply (l_owner _ _ _ _ (inv_linked _ _ HI)). by left.
  - cbn. f_equal. by rewrite (local_waiting s _ spin (MoveHead (Elem n) nxt)).
Qed.

Lemma release_step s L spin h :
  consumer s = Some (spin, Release h) -> inv s L -> good_step s L (step_pop this s).
Proof.
  intros Hc HI. destruct (inv_consumer _ _ HI _ _ Hc) as (n & -> & Hq & HL & Ht).
  unfold step_pop. rewrite Hc. cbn. unfold change_owner_. rewrite decide_True by done. cbn.
  eexists _, _, L. split; [done|]. split.
  - apply (consumer_step_inv s L); [done| | | | |done].
    + rewrite Hc. intros (? & ? & ? & ? & ?); done.
    + by apply local_no_link.
    + apply linked_queue; [done|apply HI].
    + intros t c E. specialize (inv_producer _ _ HI _ _ E) as Hok. destruct c as [|p]; [done|].
      destruct Hok as [Hok (e & E1 & E2)]. split; [by destruct p|]. exists e. split; [done|]. cbn.
      rewrite fn_lookup_insert_ne; [done|]. intros ->. by eapply Ht.
  - unfold waiting. rewrite Hc. cbn. by rewrite decide_True.
Qed.

Lemma push_stub_step s L spin p h :
  consumer s = Some (spin, PushStub p h) -> inv s L -> good_step s L (step_pop this s).
Proof.
  intros Hc HI. unfold step_pop. rewrite Hc. cbn.
  assert (waiting s L = elements L) as Hw by (unfold waiting; by rewrite Hc).
  destruct p as [n|n|a n]; cbn; eexists _, _, _; (split; [done|]).
  - split; [by apply stub_clear_inv|]. cbn. by rewrite Hw.
  - split; [by apply stub_exchange_inv|]. cbn. rewrite Hw. unfold waiting. cbn.
    destruct (inv_consumer _ _ HI _ _ Hc) as (_ & _ & _ & E & _). cbn in E. subst n.
    by rewrite elements_app, app_nil_r.
  - split; [by eapply stub_link_inv|]. cbn. by rewrite Hw.
Qed.

(** One access of the consumer. *)
Lemma mpsc_step_pop_ok s L : inv s L -> good_step s L (step_pop this s).
Proof.
  intros HI. destruct (consumer s) as [[spin c]|] eqn:Hc.
  2: { unfold step_pop. rewrite Hc. by exists s, [], L. }
  pose proof (inv_consumer _ _ HI _ _ Hc) as Hok.
  destruct c as [|h|h|nxt|h|h|p h|h k|h nxt|h];
    [| | | | | |by eapply push_stub_step| | |by eapply release_step];
    unfold step_pop; rewrite Hc; cbn in Hok |- *.
  - by eapply local_step.
  - subst h. case_decide as Hs; [rewrite Hs; destruct (next (memory s) Stub) eqn:En|].
    + eapply local_step; try done.
    + by eapply local_step.
    + unfold have_next. destruct (next (memory s) (head_ (memory s))) eqn:En; by eapply local_step.
  - destruct Hok as [Hh ->]. case_decide as Ht.
    + eapply return_step; try done.
      rewrite (linked_one _ _ _ _ (inv_linked _ _ HI)) by congruence. by rewrite <- Hh.
    + eapply local_step; try done. cbn. split; congruence.
  - by eapply skip_stub_step.
  - destruct Hok as [Hh Hs]. unfold have_next. destruct (next (memory s) h) eqn:En; by eapply local_step.
  - destruct Hok as [Hh Hs]. case_decide as Ht.
    + eapply local_step; try done. cbn. split_and!; try done.
      rewrite (linked_one _ _ _ _ (inv_linked _ _ HI)) by congruence. set_solver.
    + eapply local_step; try done. cbn. split; congruence.
  - destruct Hok as [Hh Ht]. destruct (next (memory s) h) as [nxt|] eqn:En.
    + unfold found_next. case_decide as Hs; (eapply local_step; [done|done|done|done|]); cbn;
        split_and!; congruence.
    + destruct k as [|[|k]]; [| |by eapply local_step];
        (destruct spin; [by eapply local_step|by eapply return_step]).
  - by eapply move_head_step.
Qed.

(** * Executions *)

(** A producer adds an element that is in a queue already. *)
Definition double_push (a : Action) (s : System) : Prop :=
  exists t n, a = StepPush t /\ producers s !! t = Some (ChangeOwner n) /\ queue (memory s) n <> None.

Lemma mpsc_step_push_ok t s L :
  inv s L -> good_step s L (step_push this t s)
    \/ (step_push this t s = Panic /\ double_push (StepPush t) s).
Proof.
  intros HI. unfold step_push. destruct (producers s !! t) as [[n|p]|] eqn:Ht.
  - unfold change_owner_. case_decide as Hq; cbn; [left|right].
    + eexists _, _, L. split; [done|]. split; [by apply change_owner_inv|done].
    + split; [done|]. exists t, n. done.
  - left. destruct (inv_producer _ _ HI _ _ Ht) as [_ (e & E & _)].
    destruct p as [n|n|a n]; cbn in *; subst n.
    + eexists _, _, L. split; [done|]. split; [by apply producer_clear_inv|done].
    + eexists _, _, (L ++ [Elem e]). split; [done|]. split; [by apply producer_exchange_inv|].
      unfold waiting. cbn. by rewrite elements_app, app_assoc.
    + eexists _, _, L. split; [done|]. split; [by apply producer_link_inv|done].
  - left. by exists s, [], L.
Qed.

Lemma other_inv s L n nxt owner :
  queue (memory s) n <> Some this -> owner <> Some this -> inv s L ->
  inv (mkSystem (set_queue n owner (set_next (Elem n) nxt (memory s))) (producers s) (consumer s)) L.
Proof.
  intros Hn Ho HI. assert (Elem n ∉ L) as HL.
  { by intros H%(l_owner _ _ _ _ (inv_linked _ _ HI)). }
  assert (forall e, queue (memory s) e = Some this -> <[n:=owner]> (queue (memory s)) e = Some this) as Hq.
  { intros e He. rewrite fn_lookup_insert_ne; [done|congruence]. }
  assert (forall a, a <> Elem n -> <[Elem n:=nxt]> (next (memory s)) a = next (memory s) a) as Hx.
  { intros a Ha. by rewrite fn_lookup_insert_ne. }
  assert (head_ (memory s) ∈ L) as Hh.
  { destruct (linked_head _ _ _ _ (inv_linked _ _ HI)) as [L' ->]. by left. }
  split; cbn.
  - apply linked_queue; [done|]. apply linked_outside; [done|apply HI].
  - intros t c Ht. specialize (inv_producer _ _ HI _ _ Ht) as Hok. destruct c as [|p]; [done|].
    destruct Hok as [Hok (e & E & He)]. split; [|eauto].
    eapply push_ok_mono; [exact Hok|done|]. intros a ->. apply Hx. cbn in E. congruence.
  - apply HI.
  - intros spin c Hc. specialize (inv_consumer _ _ HI _ _ Hc) as Hok.
    destruct c; cbn in *; rewrite ?Hx by congruence; try done.
    + destruct Hok as (? & ? & Hp & E & ?). split_and!; try done.
      eapply push_ok_mono; [exact Hp|done|]. intros a ->. apply Hx. cbn in E. congruence.
    + destruct Hok as (-> & ? & ?). rewrite Hx by congruence. done.
    + destruct Hok as (e & -> & He & ? & ?). exists e. auto.
Qed.

Lemma mpsc_step_ok a s L :
  inv s L -> good_step s L (step this a s) \/ (step this a s = Panic /\ double_push a s).
Proof.
  intros HI. destruct a as [t n|t|spin| |n nxt owner]; cbn.
  - left. destruct (producers s !! t) eqn:Ht; [by exists s, [], L|].
    eexists _, _, L. split; [done|]. split; [by apply call_push_inv|done].
  - by apply mpsc_step_push_ok.
  - left. destruct (consumer s) eqn:Hc; [by exists s, [], L|].
    eexists _, _, L. split; [done|]. split; [|unfold waiting; by rewrite Hc].
    apply consumer_local_inv; [done|by rewrite Hc; apply local_no_link|by apply local_no_link|].
    by intros ? ? [= <- <-].
  - left. by apply mpsc_step_pop_ok.
  - left. case_decide as Hd; [by exists s, [], L|].
    eexists _, _, L. split; [done|]. split; [apply other_inv; tauto|done].
Qed.

Lemma mpsc_exec_ok acts s L :
  inv s L ->
  match exec this acts s with
  | Ok (s', es) => exists L', inv s' L' /\ replay es (waiting s L) = Some (waiting s' L')
  | Panic => exists pre a post s1 es,
      acts = pre ++ a :: post /\ exec this pre s = Ok (s1, es) /\ double_push a s1
  end.
Proof.
  revert s L. induction acts as [|a acts IH]; intros s L HI; cbn; [by exists L|].
  destruct (mpsc_step_ok a s L HI) as [(s1 & e1 & L1 & Hs & HI1 & H1)|[-> Hd]]; cbn.
  - rewrite Hs. cbn. specialize (IH s1 L1 HI1). destruct (exec this acts s1) as [[s2 e2]|]; cbn.
    + destruct IH as (L2 & HI2 & H2). exists L2. split; [done|]. by rewrite mpsc_replay_app, H1.
    + destruct IH as (pre & b & post & s3 & es & -> & E & Hd).
      exists (a :: pre), b, post, s3, (e1 ++ es). split; [done|]. split; [|done]. cbn.
      rewrite Hs. cbn. by rewrite E.
  - by exists [], a, acts, s, [].
Qed.

(** * The consumer alone *)

Lemma mpsc_exec_cons a acts s :
  exec this (a :: acts) s =
    (let* '(s, e1) := step this a s in let* '(s, e2) := exec this acts s in Ok (s, e1 ++ e2)).
Proof. done. Qed.

Lemma exec_idle k m : exec this (repeat StepPop k) (mkSystem m ∅ None) = Ok (mkSystem m ∅ None, []).
Proof. induction k as [|k IH]; [done|]. cbn. by rewrite IH. Qed.

(** The consumer, at [c], returns within [k] accesses. *)
Definition returns (m : Memory) (c : bool * PopFront) (k : nat) (e : Event) : Prop :=
  forall k', k <= k' -> exists m', exec this (repeat StepPop k') (mkSystem m ∅ (Some c))
    = Ok (mkSystem m' ∅ None, [e]) /\ (e = FoundEmpty -> head_ m' = Stub).

Lemma returns_step m m' spin c c' k e :
  pop_front this spin c m = Ok (Some c', m', []) -> returns m' (spin, c') k e ->
  returns m (spin, c) (S k) e.
Proof.
  intros Hs Hr [|k'] Hk; [lia|]. destruct (Hr k') as (m2 & E & He); [lia|].
  exists m2. split; [|done]. cbn. unfold step_pop. cbn. rewrite Hs. cbn. by rewrite E.
Qed.

Lemma returns_last m m' spin c e :
  pop_front this spin c m = Ok (None, m', [e]) -> (e = FoundEmpty -> head_ m' = Stub) ->
  returns m (spin, c) 1 e.
Proof.
  intros Hs He [|k'] Hk; [lia|]. exists m'. split; [|done]. cbn. unfold step_pop. cbn. rewrite Hs. cbn.
  by rewrite exec_idle.
Qed.

Lemma returns_move m spin n nxt :
  queue m n = Some this -> returns m (spin, MoveHead (Elem n) nxt) 2 (Popped n).
Proof.
  intros Hq. eapply returns_step; [done|]. eapply returns_last; [|done]. cbn. unfold change_owner_.
  by rewrite decide_True.
Qed.

Lemma returns_check m spin n :
  queue m n = Some this -> tail_ m = Elem n -> returns m (spin, CheckTail (Elem n)) 7 (Popped n).
Proof.
  intros Hq Ht. eapply returns_step; [cbn; by rewrite decide_True|].
  do 3 (eapply returns_step; [reflexivity|]).
  eapply returns_step; [cbn; rewrite Ht, fn_lookup_insert; reflexivity|].
  by apply returns_move.
Qed.

(** With [Elem n] at the head and all links made. *)
Lemma returns_next m spin n L :
  linked this m (fun _ _ => False) (Elem n :: L) ->
  returns m (spin, have_next (Elem n) (next m (Elem n))) 7 (Popped n).
Proof.
  intros HL. assert (queue m n = Some this) as Hq by (apply HL; by left).
  destruct L as [|b L].
  - pose proof (l_last _ _ _ _ HL) as [= Ht]. pose proof (l_end _ _ _ _ HL) as He.
    rewrite <- Ht in He. rewrite He. by apply returns_check.
  - destruct (l_next _ _ _ _ HL 0 (Elem n) b) as [->|[_ []]]; [done|done|].
    intros k Hk. apply (returns_move m spin n b Hq). lia.
Qed.

Lemma mpsc_pop_alone m spin L :
  linked this m (fun _ _ => False) L ->
  returns m (spin, LoadHead) 11
    (match elements L with n :: _ => Popped n | [] => FoundEmpty end).
Proof.
  intros HL. destruct (linked_head _ _ _ _ HL) as [L' E]. rewrite E in HL |- *. clear E.
  eapply returns_step; [done|].
  destruct (head_ m) as [|n] eqn:Hh.
  - destruct L' as [|b L'].
    + pose proof (l_last _ _ _ _ HL) as [= Ht]. pose proof (l_end _ _ _ _ HL) as He.
      rewrite <- Ht in He. intros k Hk.
      apply (returns_step m m spin (LoadNext Stub) (CheckEmpty Stub) 1); [cbn; by rewrite He| |lia].
      eapply returns_last; [cbn; by rewrite decide_True|done].
    + assert (next m Stub = Some b) as Hn by (destruct (l_next _ _ _ _ HL 0 Stub b) as [|[_ []]]; done).
      destruct (linked_pop _ _ _ _ _ _ Hn HL) as (_ & Hs & HL').
      assert (exists n, b = Elem n) as [n ->] by (destruct b; [set_solver|eauto]).
      eapply returns_step; [cbn; by rewrite Hn|].
      eapply returns_step; [done|]. eapply returns_step; [done|].
      apply (returns_next _ spin n L'). by destruct HL'; split.
  - intros k Hk. apply (returns_step m m spin (LoadNext (Elem n)) (have_next (Elem n) (next m (Elem n))) 7); [done| |lia].
    by eapply returns_next.
Qed.

End Invariant.

(** * Theorems *)

Definition pushed (es : list Event) : list nat :=
  omap (fun e => match e with Pushed n => Some n | _ => None end) es.

Definition popped (es : list Event) : list nat :=
  omap (fun e => match e with Popped n => Some n | _ => None end) es.

Lemma mpsc_replay_fifo es q q' : replay es q = Some q' -> q ++ pushed es = popped es ++ q'.
Proof.
  unfold pushed, popped.
  revert q. induction es as [|e es IH]; intros q; cbn; [intros [= ->]; by rewrite app_nil_r|].
  destruct e as [n|n| |], q as [|m q]; cbn; try done;
    try (intros H%IH; cbn in H; by rewrite <- ?app_assoc in H).
  case_decide as E; [|done]. intros H%IH. subst m. by rewrite H.
Qed.

(** C19: the queue is linearizable.  However the accesses of its producers, of its consumer
    and of other queues interleave, the calls have the outcomes that a sequential queue
    would have if each took effect at one moment between its start and its end: elements
    are returned once each and in the order of the exchanges of the tail, and the consumer
    is told that the queue is empty only when it is.  The consumer never panics, and a
    producer only if its element is in a queue already. *)
Theorem mpsc_queue_linearizable (this : nat) (nxt : nat -> option Node) (owner : nat -> option nat)
    (acts : list Action) :
  (forall n, owner n <> Some this) ->
  match exec this acts (make nxt owner) with
  | Ok (s, es) => exists q, replay es [] = Some q /\ pushed es = popped es ++ q
  | Panic => exists pre a post s es,
      acts = pre ++ a :: post /\ exec this pre (make nxt owner) = Ok (s, es) /\ double_push a s
  end.
Proof.
  intros Ho. pose proof (mpsc_exec_ok this acts _ _ (mpsc_make_inv this nxt owner Ho)) as H.
  destruct (exec this acts (make nxt owner)) as [[s es]|]; [|done].
  destruct H as (L & _ & H). eexists. split; [exact H|]. by apply mpsc_replay_fifo in H.
Qed.

Definition sample_schedule : list Action :=
  [CallPush 0 7; CallPush 1 8; StepPush 0; StepPush 1; StepPush 1; StepPush 0; StepPush 1; StepPush 0;
   CallPop true] ++ repeat StepPop 5 ++ [StepPush 1; StepPop; StepPop; StepPush 0] ++ repeat StepPop 10
  ++ [CallPop true] ++ repeat StepPop 20 ++ [CallPop true] ++ repeat StepPop 20.

Lemma mpsc_queue_linearizable_witness :
  exists s es, exec 0 sample_schedule (make (fun _ => None) (fun _ => None)) = Ok (s, es)
    /\ pushed es = [8; 7] /\ popped es = [8; 7] /\ exists q, pushed es = popped es ++ q.
Proof.
  pose proof (mpsc_queue_linearizable 0 (fun _ => None) (fun _ => None) sample_schedule) as H.
  destruct (exec 0 sample_schedule (make (fun _ => None) (fun _ => None))) as [[s es]|] eqn:E.
  - exists s, es. split; [reflexivity|]. vm_compute in E. injection E as <- <-.
    destruct H as (q & _ & Hq); [discriminate|]. split; [reflexivity|]. split; [reflexivity|].
    exists q. exact Hq.
  - vm_compute in E. discriminate E.
Defined.

(** C33: the queue does not get stuck.  From every reachable state in which no [push_back] is
    in progress, the consumer that runs alone returns after at most eleven accesses, also
    when it may not spin: with the next element if there is one, and otherwise with the
    answer that the queue is empty, which can then be destroyed. *)
Theorem mpsc_queue_pop_alone (this : nat) (nxt : nat -> option Node) (owner : nat -> option nat)
    (acts : list Action) (s : System) (es : list Event) (can_spin : bool) :
  (forall n, owner n <> Some this) ->
  exec this acts (make nxt owner) = Ok (s, es) -> producers s = ∅ -> consumer s = None ->
  exists q s', pushed es = popped es ++ q
    /\ exec this (CallPop can_spin :: repeat StepPop 11) s
         = Ok (s', [match q with n :: _ => Popped n | [] => FoundEmpty end])
    /\ consumer s' = None /\ (q = [] -> destroy s' = Ok ()).
Proof.
  intros Ho E Hp Hc. pose proof (mpsc_exec_ok this acts _ _ (mpsc_make_inv this nxt owner Ho)) as H.
  rewrite E in H. destruct H as (L & HI & H). apply mpsc_replay_fifo in H.
  exists (waiting s L). unfold waiting in H |- *. rewrite Hc in H |- *. cbn [app] in H |- *.
  destruct s as [m ps c]. cbn in Hp, Hc. subst ps c.
  destruct (mpsc_pop_alone this m can_spin L) with (k' := 11) as (m' & E' & He); [|lia|].
  { eapply linked_iff; [|apply HI]. intros a b. split; [|done].
    intros [[t Ht]|(spin & h & Ht)]; cbn in Ht; [by rewrite lookup_empty in Ht|done]. }
  exists (mkSystem m' ∅ None). split_and!; [done| |done|].
  - rewrite mpsc_exec_cons. cbn [step consumer memory producers res_bind]. rewrite E'. done.
  - intros Eq. rewrite Eq in He. unfold destroy. cbn. by rewrite He, decide_True.
Qed.

Lemma mpsc_queue_pop_alone_witness :
  exists q s s', exec 0 [CallPush 1 5; StepPush 1; StepPush 1; StepPush 1; StepPush 1]
      (make (fun _ => None) (fun _ => None)) = Ok (s, [Pushed 5])
    /\ [5] = q /\ exec 0 (CallPop false :: repeat StepPop 11) s = Ok (s', [Popped 5]).
Proof.
  destruct (mpsc_queue_pop_alone 0 (fun _ => None) (fun _ => None)
    [CallPush 1 5; StepPush 1; StepPush 1; StepPush 1; StepPush 1]
    (mkSystem (mkMemory (<[Stub := Some (Elem 5)]> (<[Elem 5 := None]> (next (memory
       (make (fun _ => None) (fun _ => None)))))) (<[5 := Some 0]> (fun _ => None)) (Elem 5) Stub) ∅ None)
    [Pushed 5] false) as (q & s' & Hq & E & _).
  - discriminate.
  - reflexivity.
  - reflexivity.
  - reflexivity.
  - cbn in Hq. subst q. eexists _, _, s'. split; [|split; [reflexivity|exact E]]. reflexivity.
Defined.
