(* ===== verification/Seqlock.v ===== *)
(** The sequence lock (src/internal_modules/roc_core/seqlock_impl.cpp, seqlock_impl.h,
    seqlock.h): a value that many threads read without blocking those that store it.

    The value is copied byte by byte, and every access to a byte or to the version is one
    step of one thread; steps of threads interleave in any way.  Memory is sequentially
    consistent, so the fences do nothing here.  [stores] counts the completed stores; the
    program does not read it. *)

From stdpp Require Import gmap.
From S2P Require Import Prelude Bytes.

Module Seqlock.

(** * Memory *)

Record Memory : Type := mkMemory {
  ver_ : Z;
  val_ : bytes;
  stores : nat
}.

Definition set_ver (x : Z) (m : Memory) : Memory := mkMemory x (val_ m) (stores m).

(** [dst_ptr[n] = src_ptr[n]] *)
Definition copy_byte (n : nat) (src dst : bytes) : bytes :=
  match src !! n with Some b => <[n := b]> dst | None => dst end.

Definition set_byte (n : nat) (src : bytes) (m : Memory) : Memory :=
  mkMemory (ver_ m) (copy_byte n src (val_ m)) (stores m).

Definition seqlock_version_is_valid (ver : Z) : bool := Z.land ver 1 =? 0.

(** * Stores *)

Inductive Store : Type :=
| StLoad (exclusive : bool) (value : bytes)
| StSwap (ver0 : Z) (value : bytes)
| StMark (ver0 : Z) (value : bytes)
| StCopy (ver0 : Z) (value : bytes) (n : nat)
| StPublish (ver0 : Z) (value : bytes).

Definition new_value (p : Store) : bytes :=
  match p with StLoad _ v | StSwap _ v | StMark _ v | StCopy _ v _ | StPublish _ v => v end.

(** The loop of [volatile_copy]. *)
Definition st_copy (ver0 : Z) (value : bytes) (n : nat) : Store :=
  if (n <? length value)%nat then StCopy ver0 value n else StPublish ver0 value.

(** The next access of [try_store] and [exclusive_store]; the result when it returns is the
    new version, or [None] for failure. *)
Definition store_step (p : Store) (m : Memory) : (Store + option Z) * Memory :=
  match p with
  | StLoad false value =>
      let ver0 := ver_ m in
      (if negb (seqlock_version_is_valid ver0) then inr None else inl (StSwap ver0 value), m)
  | StSwap ver0 value =>
      if ver_ m =? ver0 then (inl (st_copy ver0 value 0), set_ver (u32 (ver0 + 1)) m)
      else (inr None, m)
  | StLoad true value => (inl (StMark (ver_ m) value), m)
  | StMark ver0 value => (inl (st_copy ver0 value 0), set_ver (u32 (ver0 + 1)) m)
  | StCopy ver0 value n => (inl (st_copy ver0 value (S n)), set_byte n value m)
  | StPublish ver0 value =>
      let ver := u32 (ver0 + 2) in
      (inr (Some ver), mkMemory ver (val_ m) (S (stores m)))
  end.

(** * Loads *)

(** [since] is the number of stores that were complete when the attempt started. *)
Inductive Load : Type :=
| LdLoad
| LdCopy (ver0 : Z) (value : bytes) (n since : nat)
| LdCheck (ver0 : Z) (value : bytes) (since : nat).

Definition ld_copy (size : nat) (ver0 : Z) (value : bytes) (n since : nat) : Load :=
  if (n <? size)%nat then LdCopy ver0 value n since else LdCheck ver0 value since.

(** The next access of [try_load_] for a value of [size] bytes; when it returns, its result,
    the copy, the version, and [since]. *)
Definition try_load_ (size : nat) (p : Load) (m : Memory) : Load + (bool * bytes * Z * nat) :=
  match p with
  | LdLoad => inl (ld_copy size (ver_ m) (replicate size 0) 0 (stores m))
  | LdCopy ver0 value n since => inl (ld_copy size ver0 (copy_byte n (val_ m) value) (S n) since)
  | LdCheck ver0 value since =>
      let ver := ver_ m in
      inr (((Z.land ver0 1 =? 0) && (ver0 =? ver), value, ver, since))
  end.

(** [try_load_repeat] makes three attempts, [wait_load] any number. *)
Inductive Attempts : Type := Repeat (more : nat) | Wait.

Definition try_load_repeat : Attempts * Load := (Repeat 2, LdLoad).

Definition wait_load : Attempts * Load := (Wait, LdLoad).

Definition next_attempt (a : Attempts) : option Attempts :=
  match a with Wait => Some Wait | Repeat (S n) => Some (Repeat n) | Repeat O => None end.

(** * Threads *)

Record System : Type := mkSystem {
  memory : Memory;
  writers : gmap nat Store;
  readers : gmap nat (Attempts * Load)
}.

(** What calls return.  A load tells how many stores were complete when its last attempt
    started and when it ended. *)
Inductive Event : Type :=
| Stored (value : bytes) (ver : Z)
| StoreFailed
| Loaded (value : bytes) (ver : Z) (since upto : nat)
| LoadFailed.

(** Calls of idle threads and steps of threads in a call.  An exclusive store is only called
    when no other store is in progress, and no other store is called until it has changed
    the version. *)
Inductive Action : Type :=
| CallStore (t : nat) (exclusive : bool) (value : bytes)
| StepStore (t : nat)
| CallLoad (t : nat) (wait : bool)
| StepLoad (t : nat).

Section Size.

Context (size : nat).

Definition is_exclusive (p : Store) : bool :=
  match p with StLoad true _ | StMark _ _ => true | _ => false end.

(** Which stores a client may call. *)
Definition may_store (exclusive : bool) (s : System) : bool :=
  if exclusive then bool_decide (writers s = ∅)
  else bool_decide (map_Forall (fun _ p => is_exclusive p = false) (writers s)).

Definition step_store (t : nat) (s : System) : System * list Event :=
  match writers s !! t with
  | None => (s, [])
  | Some p =>
      match store_step p (memory s) with
      | (inl p, m) => (mkSystem m (<[t := p]> (writers s)) (readers s), [])
      | (inr r, m) =>
          (mkSystem m (delete t (writers s)) (readers s),
           [match r with Some ver => Stored (new_value p) ver | None => StoreFailed end])
      end
  end.

Definition step_load (t : nat) (s : System) : System * list Event :=
  match readers s !! t with
  | None => (s, [])
  | Some (a, p) =>
      match try_load_ size p (memory s) with
      | inl p => (mkSystem (memory s) (writers s) (<[t := (a, p)]> (readers s)), [])
      | inr (true, value, ver, since) =>
          (mkSystem (memory s) (writers s) (delete t (readers s)),
           [Loaded value ver since (stores (memory s))])
      | inr (false, _, _, _) =>
          match next_attempt a with
          | Some a => (mkSystem (memory s) (writers s) (<[t := (a, LdLoad)]> (readers s)), [])
          | None => (mkSystem (memory s) (writers s) (delete t (readers s)), [LoadFailed])
          end
      end
  end.

Definition step (a : Action) (s : System) : System * list Event :=
  match a with
  | CallStore t exclusive value =>
      if bool_decide (writers s !! t = None) && may_store exclusive s && (length value =? size)%nat
      then (mkSystem (memory s) (<[t := StLoad exclusive value]> (writers s)) (readers s), [])
      else (s, [])
  | StepStore t => step_store t s
  | CallLoad t wait =>
      if bool_decide (readers s !! t = None)
      then (mkSystem (memory s) (writers s)
              (<[t := if wait then wait_load else try_load_repeat]> (readers s)), [])
      else (s, [])
  | StepLoad t => step_load t s
  end.

Fixpoint exec (acts : list Action) (s : System) : System * list Event :=
  match acts with
  | [] => (s, [])
  | a :: acts => let '(s, e1) := step a s in let '(s, e2) := exec acts s in (s, e1 ++ e2)
  end.

(** [Seqlock(T value)] *)
Definition make (value : bytes) : System := mkSystem (mkMemory 0 value 0) ∅ ∅.

Definition version (s : System) : Z := ver_ (memory s).

End Size.

End Seqlock.
