(* ===== verification/SeqlockSafe.v ===== *)
(** A load from the sequence lock of Seqlock.v never returns a mixture of two values. *)

From stdpp Require Import gmap.
From S2P Require Import Prelude Bytes Seqlock.

Import Seqlock.

Local Ltac versions :=
  unfold wrap_u; change (2 ^ 32) with 4294967296; Z.div_mod_to_equations; lia.

Lemma version_even k : seqlock_version_is_valid (u32 (2 * k)) = true.
Proof.
  unfold seqlock_version_is_valid.
  change 1 with (Z.ones 1). rewrite Z.land_ones by lia. apply Z.eqb_eq.
  change (2 ^ 1) with 2. versions.
Qed.

Lemma version_odd k : seqlock_version_is_valid (u32 (2 * k + 1)) = false.
Proof.
  unfold seqlock_version_is_valid.
  change 1 with (Z.ones 1) at 2. rewrite Z.land_ones by lia. apply Z.eqb_neq.
  change (2 ^ 1) with 2. versions.
Qed.

Lemma version_next k : u32 (u32 (2 * k) + 1) = u32 (2 * k + 1).
Proof. versions. Qed.

Lemma version_publish (k : nat) : u32 (u32 (2 * Z.of_nat k) + 2) = u32 (2 * Z.of_nat (S k)).
Proof. versions. Qed.

Lemma version_inj (a b : nat) :
  (a <= b)%nat -> Z.of_nat b - Z.of_nat a < 2 ^ 31 -> u32 (2 * Z.of_nat a) = u32 (2 * Z.of_nat b) -> a = b.
Proof. versions. Qed.

Lemma length_copy_byte n src dst : length (copy_byte n src dst) = length dst.
Proof. unfold copy_byte. destruct (src !! n); [apply length_insert|done]. Qed.

Lemma take_copy_byte n src dst :
  length src = length dst -> take n dst = take n src ->
  take (S n) (copy_byte n src dst) = take (S n) src.
Proof.
  intros Hl Ht. unfold copy_byte. destruct (src !! n) as [b|] eqn:E.
  - rewrite (take_S_r _ _ b E). rewrite (take_S_r _ _ b).
    + rewrite take_insert_ge by lia. by rewrite Ht.
    + apply list_lookup_insert_eq. apply lookup_lt_Some in E. lia.
  - apply lookup_ge_None in E. by rewrite take_ge in Ht |- * by lia; rewrite !take_ge in * by lia.
Qed.

(** * The invariant *)

Section Invariant.

Context (size : nat).

(** In the part of a store between the two changes of the version. *)
Definition holding (p : Store) : bool :=
  match p with StCopy _ _ _ | StPublish _ _ => true | _ => false end.

Definition free (s : System) : Prop := map_Forall (fun _ p => holding p = false) (writers s).

Definition ver_before (s : System) : Z := u32 (2 * Z.of_nat (stores (memory s))).

(** The thread [t] alone holds the lock. *)
Definition holds (s : System) (t : nat) (ver0 : Z) : Prop :=
  ver0 = ver_before s
  /\ ver_ (memory s) = u32 (2 * Z.of_nat (stores (memory s)) + 1)
  /\ forall t' p, writers s !! t' = Some p -> holding p = true -> t' = t.

Definition writer_ok (s : System) (t : nat) (p : Store) : Prop :=
  length (new_value p) = size /\
  match p with
  | StLoad false _ => True
  | StSwap ver0 _ => seqlock_version_is_valid ver0 = true
  | StLoad true _ => writers s = {[t := p]}
  | StMark ver0 _ => writers s = {[t := p]} /\ ver0 = ver_ (memory s)
  | StCopy ver0 v n => holds s t ver0 /\ (n < size)%nat /\ take n (val_ (memory s)) = take n v
  | StPublish ver0 v => holds s t ver0 /\ val_ (memory s) = v
  end.

(** The first [n] bytes have been read. *)
Definition read_ok (s : System) (ver0 : Z) (value : bytes) (n since : nat) : Prop :=
  length value = size /\ (since <= stores (memory s))%nat /\
  (seqlock_version_is_valid ver0 = true ->
   ver0 = u32 (2 * Z.of_nat since)
   /\ (since = stores (memory s) -> free s -> take n value = take n (val_ (memory s)))).

Definition reader_ok (s : System) (p : Load) : Prop :=
  match p with
  | LdLoad => True
  | LdCopy ver0 value n since => (n < size)%nat /\ read_ok s ver0 value n since
  | LdCheck ver0 value since => read_ok s ver0 value size since
  end.

(** [hist] are the initial value and those of the completed stores. *)
Record inv (s : System) (hist : list bytes) : Prop := {
  inv_hist : length hist = S (stores (memory s));
  inv_val : length (val_ (memory s)) = size;
  inv_free : free s -> ver_ (memory s) = ver_before s /\ last hist = Some (val_ (memory s));
  inv_writer : forall t p, writers s !! t = Some p -> writer_ok s t p;
  inv_reader : forall t a p, readers s !! t = Some (a, p) -> reader_ok s p
}.

Lemma seqlock_make_inv value : length value = size -> inv (make value) [value].
Proof.
  intros H. by split.
Qed.

(** ** Readers *)

(** Nothing that a reader relies on has changed, or it will find out. *)
Lemma reader_mono s s' p :
  reader_ok s p ->
  (stores (memory s) < stores (memory s'))%nat
    \/ (stores (memory s') = stores (memory s)
        /\ (free s' -> free s /\ val_ (memory s') = val_ (memory s))) ->
  reader_ok s' p.
Proof.
  intros Hp Hs. assert (forall ver0 value n since, read_ok s ver0 value n since ->
    read_ok s' ver0 value n since) as H.
  { intros ver0 value n since (Hl & Hi & Hv). split; [done|]. split; [lia|].
    intros Hver. destruct (Hv Hver) as [-> Ht]. split; [done|]. intros E F.
    destruct Hs as [|[E' Hf]]; [lia|]. destruct (Hf F) as [F' ->]. apply Ht; [congruence|done]. }
  destruct p; cbn in *; [done| |by apply H]. destruct Hp. auto.
Qed.

Lemma valid_free s hist : inv s hist -> seqlock_version_is_valid (ver_ (memory s)) = true -> free s.
Proof.
  intros HI Hv t p Ht. destruct (inv_writer _ _ HI _ _ Ht) as [_ Hp].
  destruct p; try done; destruct Hp as [(_ & E & _) _]; rewrite E, version_odd in Hv; done.
Qed.

Lemma ld_copy_ok s ver0 value n since :
  (n <= size)%nat -> read_ok s ver0 value n since -> reader_ok s (ld_copy size ver0 value n since).
Proof.
  intros Hn Hr. unfold ld_copy. destruct (Nat.ltb_spec n size); cbn; [done|].
  by replace size with n by lia.
Qed.

(** An access of a load that does not end it. *)
Lemma load_continues s hist p p' :
  inv s hist -> reader_ok s p -> try_load_ size p (memory s) = inl p' -> reader_ok s p'.
Proof.
  intros HI Hp E. destruct p as [|ver0 value n since|]; cbn in E; [| |done]; injection E as <-.
  - apply ld_copy_ok; [lia|]. split; [apply length_replicate|]. split; [done|].
    intros Hv. split; [|done]. apply (inv_free _ _ HI). by eapply valid_free.
  - destruct Hp as (Hn & Hl & Hs & Hv). apply ld_copy_ok; [lia|].
    split; [by rewrite length_copy_byte|]. split; [done|]. intros H. destruct (Hv H) as [-> Ht].
    split; [done|]. intros E F. apply take_copy_byte; [by rewrite Hl, (inv_val _ _ HI)|auto].
Qed.

(** A load that succeeds has read the current value, unless the version has wrapped. *)
Lemma load_succeeds s hist p value ver since :
  inv s hist -> reader_ok s p -> try_load_ size p (memory s) = inr (true, value, ver, since) ->
  (since <= stores (memory s))%nat
  /\ (Z.of_nat (stores (memory s)) - Z.of_nat since < 2 ^ 31 ->
      since = stores (memory s) /\ hist !! since = Some value /\ ver = u32 (2 * Z.of_nat since)).
Proof.
  intros HI Hp E. destruct p as [| |ver0 v i]; cbn in E; [done|done|].
  injection E as Ev <- <- <-. apply andb_true_iff in Ev as [Hv E%Z.eqb_eq].
  destruct Hp as (Hl & Hs & Hok). split; [done|]. intros Hw.
  destruct (Hok Hv) as [E0 Ht]. assert (free s) as F by (eapply valid_free; [done|]; by rewrite <- E).
  destruct (inv_free _ _ HI F) as [Ever Hlast].
  unfold ver_before in Ever. assert (i = stores (memory s)) as Ei by (apply version_inj; [done|done|congruence]).
  split; [done|]. split; [|congruence]. rewrite last_lookup, (inv_hist _ _ HI) in Hlast.
  rewrite Ei. cbn in Hlast. rewrite Hlast. f_equal. specialize (Ht Ei F).
  rewrite !take_ge in Ht by (rewrite ?Hl, ?(inv_val _ _ HI); lia). done.
Qed.

(** ** Writers *)

(** A store that waits for the version to be even. *)
Definition idle (p : Store) : Prop :=
  length (new_value p) = size /\
  match p with
  | StLoad false _ => True
  | StSwap ver0 _ => seqlock_version_is_valid ver0 = true
  | _ => False
  end.

Lemma idle_ok s t p : idle p -> writer_ok s t p.
Proof. intros [? H]. split; [done|]. by destruct p as [[] ?| | | |]. Qed.

(** While one thread stores or is about to, the others wait. *)
Lemma others_idle s hist t p t' p' :
  inv s hist -> writers s !! t = Some p -> writers s !! t' = Some p' -> t' <> t ->
  holding p = true \/ is_exclusive p = true \/ free s -> idle p'.
Proof.
  intros HI Ht Ht' Hne Hp. destruct (inv_writer _ _ HI _ _ Ht) as [_ Hok].
  destruct (inv_writer _ _ HI _ _ Ht') as [Hl Hok']. split; [done|].
  assert (forall q, writers s = {[t' := q]} -> False) as Hsole'.
  { intros q E. rewrite E, lookup_singleton_ne in Ht by done. done. }
  assert (forall q, writers s = {[t := q]} -> False) as Hsole.
  { intros q E. rewrite E, lookup_singleton_ne in Ht' by done. done. }
  assert (holding p' = true -> False) as Hh.
  { intros H. destruct Hp as [Hp|[Hp|Hp]]; [| |by rewrite (Hp _ _ Ht') in H].
    - destruct p; try done; destruct Hok as [(_ & _ & Hu) _]; by apply Hne, (Hu _ _ Ht').
    - destruct p as [[] ?| | | |]; try done; [eauto|]. destruct Hok. eauto. }
  destruct p' as [[] ?| | | |]; try done;
    first [by apply Hh|by eapply Hsole'|destruct Hok'; by eapply Hsole'].
Qed.

(** The lock is held by [t] from now on or still. *)
Lemma take_lock s hist t p p' m :
  inv s hist -> writers s !! t = Some p -> holding p = true \/ is_exclusive p = true \/ free s ->
  holding p' = true -> writer_ok (mkSystem m (<[t := p']> (writers s)) (readers s)) t p' ->
  stores m = stores (memory s) -> length (val_ m) = size ->
  inv (mkSystem m (<[t := p']> (writers s)) (readers s)) hist.
Proof.
  intros HI Ht Hp Hp' Hok Hn Hl. split; cbn.
  - rewrite Hn. apply HI.
  - done.
  - intros F. specialize (F t p'). cbn in F. rewrite lookup_insert_eq in F. rewrite F in Hp' by done. done.
  - intros t' q [[<- <-]|[Hne Hq]]%lookup_insert_Some; [done|]. apply idle_ok.
    by apply (others_idle s hist t p t').
  - intros t' a q Hq. eapply reader_mono; [by eapply inv_reader|]. right. split; [done|].
    intros F. specialize (F t p'). cbn in F. rewrite lookup_insert_eq in F. rewrite F in Hp' by done. done.
Qed.

(** [t] waits, gives up, or has nothing to do with the lock. *)
Lemma keep_lock s hist (ws : gmap nat Store) t p :
  inv s hist -> writers s !! t = Some p -> holding p = false ->
  (forall t', t' <> t -> ws !! t' = writers s !! t') ->
  (forall p', ws !! t = Some p' -> holding p' = false /\ writer_ok (mkSystem (memory s) ws (readers s)) t p') ->
  inv (mkSystem (memory s) ws (readers s)) hist.
Proof.
  intros HI Ht Hp Hws Hok.
  assert (free (mkSystem (memory s) ws (readers s)) -> free s) as HF.
  { intros F t' q Hq. destruct (decide (t' = t)) as [->|Hne]; [congruence|].
    apply (F t'). cbn. by rewrite Hws. }
  split; cbn; [apply HI|apply HI|intros F%HF; by apply HI| |].
  - intros t' q Hq. destruct (decide (t' = t)) as [->|Hne]; [by apply Hok|].
    rewrite Hws in Hq by done. destruct (inv_writer _ _ HI _ _ Hq) as [Hl Hq'].
    assert (forall q', writers s = {[t' := q']} -> False) as Hsole.
    { intros q' E. rewrite E, lookup_singleton_ne in Ht by done. done. }
    assert (forall ver0, holds s t' ver0 -> holds (mkSystem (memory s) ws (readers s)) t' ver0) as Hh.
    { intros ver0 (? & ? & Hu). split_and!; [done|done|]. cbn. intros t2 p2 H2 Hp2.
      destruct (decide (t2 = t)) as [->|]; [destruct (Hok _ H2); congruence|].
      rewrite Hws in H2 by done. eauto. }
    split; [done|]. destruct q as [[] ?| | | |]; cbn in *; try done.
    + by destruct (Hsole _ Hq').
    + by destruct (Hsole _ (proj1 Hq')).
    + destruct Hq' as (? & ? & ?). auto.
    + destruct Hq' as (? & ?). auto.
  - intros t' a q Hq. eapply reader_mono; [by eapply inv_reader|]. right. auto.
Qed.

Lemma sole_free s t p : writers s = {[t := p]} -> holding p = false -> free s.
Proof. intros E Hp t' q. rewrite E. by intros [<- <-]%lookup_singleton_Some. Qed.

Lemma copying_ok t p' ver0 v n m rs ws :
  p' = st_copy ver0 v n -> length v = size -> (n <= size)%nat ->
  holds (mkSystem m ws rs) t ver0 -> length (val_ m) = size -> take n (val_ m) = take n v ->
  holding p' = true /\ writer_ok (mkSystem m ws rs) t p' .
Proof.
  intros -> Hv Hn Hh Hm Ht. unfold st_copy. rewrite Hv.
  destruct (Nat.ltb_spec n size); [done|]. split; [done|]. split; [done|]. split; [done|]. cbn.
  by rewrite !take_ge in Ht by lia.
Qed.

(** The thread that holds the lock next to others that wait. *)
Lemma holds_replace s hist t p p' m :
  inv s hist -> writers s !! t = Some p -> holding p = true \/ is_exclusive p = true \/ free s ->
  stores m = stores (memory s) -> ver_ m = u32 (2 * Z.of_nat (stores m) + 1) ->
  holds (mkSystem m (<[t := p']> (writers s)) (readers s)) t (ver_before s).
Proof.
  intros HI Ht Hp Hn Hv. split; [unfold ver_before; cbn; by rewrite Hn|]. split; [done|].
  cbn. intros t' q [[<- <-]|[Hne Hq]]%lookup_insert_Some Hh; [done|].
  assert (idle q) as [_ Hi] by by apply (others_idle s hist t p t').
  by destruct q.
Qed.

Lemma publish_inv s hist t ver0 v :
  inv s hist -> writers s !! t = Some (StPublish ver0 v) ->
  inv (mkSystem (mkMemory (u32 (ver0 + 2)) (val_ (memory s)) (S (stores (memory s))))
         (delete t (writers s)) (readers s)) (hist ++ [v]).
Proof.
  intros HI Ht. destruct (inv_writer _ _ HI _ _ Ht) as [Hl [(-> & _ & _) Hv]].
  split; cbn.
  - rewrite length_app, (inv_hist _ _ HI). simpl. lia.
  - apply HI.
  - intros _. split; [apply version_publish|]. by rewrite last_snoc, Hv.
  - intros t' q [Hne Hq]%lookup_delete_Some. apply idle_ok.
    eapply (others_idle s hist t); eauto.
  - intros t' a q Hq. eapply reader_mono; [by eapply inv_reader|]. left. cbn. lia.
Qed.

(** The lock is taken or a byte is copied. *)
Lemma lock_step s hist t p ver0 v n m :
  inv s hist -> writers s !! t = Some p -> holding p = true \/ is_exclusive p = true \/ free s ->
  ver0 = ver_before s -> stores m = stores (memory s) ->
  ver_ m = u32 (2 * Z.of_nat (stores m) + 1) -> length v = size -> (n <= size)%nat ->
  length (val_ m) = size -> take n (val_ m) = take n v ->
  inv (mkSystem m (<[t := st_copy ver0 v n]> (writers s)) (readers s)) hist.
Proof.
  intros HI Ht Hp -> Hn Hv Hl Hns Hm Htk.
  destruct (copying_ok t (st_copy (ver_before s) v n) (ver_before s) v n m (readers s)
    (<[t := st_copy (ver_before s) v n]> (writers s))) as [Hh Hok]; try done.
  { by eapply holds_replace. }
  by eapply take_lock.
Qed.

Definition stored (es : list Event) : list bytes :=
  omap (fun e => match e with Stored v _ => Some v | _ => None end) es.

Lemma step_store_ok t s hist :
  inv s hist -> inv (step_store t s).1 (hist ++ stored (step_store t s).2).
Proof.
  intros HI. unfold step_store. destruct (writers s !! t) as [p|] eqn:Ht; [|cbn; by rewrite app_nil_r].
  destruct (inv_writer _ _ HI _ _ Ht) as [Hl Hok].
  assert (holding p = false -> inv (mkSystem (memory s) (delete t (writers s)) (readers s)) hist) as Hgive.
  { intros Hp. eapply keep_lock; [done|done|done| |].
    - intros t' Hne. by rewrite lookup_delete_ne.
    - intros p'. by rewrite lookup_delete_eq. }
  assert (forall p', holding p = false -> holding p' = false ->
    writer_ok (mkSystem (memory s) (<[t:=p']> (writers s)) (readers s)) t p' ->
    inv (mkSystem (memory s) (<[t:=p']> (writers s)) (readers s)) hist) as Hgo.
  { intros p' Hp Hp' Hw. eapply keep_lock; [done|done|done| |].
    - intros t' Hne. by rewrite lookup_insert_ne.
    - intros q. rewrite lookup_insert_eq. by intros [= <-]. }
  destruct p as [[] v|ver0 v|ver0 v|ver0 v n|ver0 v]; cbn in Hl, Hok |- *.
  - rewrite app_nil_r. apply Hgo; [done|done|]. split; [done|]. cbn. by rewrite Hok, insert_singleton_eq.
  - destruct (seqlock_version_is_valid (ver_ (memory s))) eqn:Hv; cbn; rewrite app_nil_r; auto.
    apply Hgo; done.
  - destruct (ver_ (memory s) =? ver0) eqn:E; cbn; rewrite app_nil_r; [|auto].
    apply Z.eqb_eq in E. subst ver0. assert (free s) as F by by eapply valid_free.
    destruct (inv_free _ _ HI F) as [Ev _].
    eapply lock_step; cbn; eauto; [|lia|apply HI]. rewrite Ev. apply version_next.
  - rewrite app_nil_r. destruct Hok as [Hs ->]. assert (free s) as F by by eapply sole_free.
    destruct (inv_free _ _ HI F) as [Ev _].
    eapply lock_step; cbn; eauto; [|lia|apply HI]. rewrite Ev. apply version_next.
  - rewrite app_nil_r. destruct Hok as ((-> & Ev & _) & Hn & Htk).
    eapply lock_step; cbn; eauto.
    + by rewrite length_copy_byte, (inv_val _ _ HI).
    + apply take_copy_byte; [by rewrite Hl, (inv_val _ _ HI)|done].
  - by eapply publish_inv.
Qed.

(** * Executions *)

Lemma same_memory s hist rs :
  inv s hist -> (forall t a p, rs !! t = Some (a, p) -> reader_ok s p) ->
  inv (mkSystem (memory s) (writers s) rs) hist.
Proof. intros [] H. by split. Qed.

(** The end of a load. *)
Definition load_event (hist : list bytes) (s : System) (e : Event) : Prop :=
  match e with
  | Loaded v ver since upto =>
      upto = stores (memory s) /\ (since <= upto)%nat
      /\ (Z.of_nat upto - Z.of_nat since < 2 ^ 31 ->
          since = upto /\ hist !! upto = Some v /\ ver = u32 (2 * Z.of_nat upto))
  | _ => True
  end.

Lemma step_load_ok t s hist :
  inv s hist ->
  inv (step_load size t s).1 hist /\ Forall (load_event hist s) (step_load size t s).2
  /\ stored (step_load size t s).2 = [].
Proof.
  intros HI. unfold step_load. destruct (readers s !! t) as [[a p]|] eqn:Ht; [|done].
  pose proof (inv_reader _ _ HI _ _ _ Ht) as Hp.
  assert (forall a' p', reader_ok s p' ->
    inv (mkSystem (memory s) (writers s) (<[t:=(a', p')]> (readers s))) hist) as Hgo.
  { intros a' p' Hp'. apply same_memory; [done|].
    intros t' b q [[<- [= <- <-]]|[_ Hq]]%lookup_insert_Some; [done|by eapply inv_reader]. }
  assert (inv (mkSystem (memory s) (writers s) (delete t (readers s))) hist) as Hend.
  { apply same_memory; [done|]. intros t' b q [_ Hq]%lookup_delete_Some. by eapply inv_reader. }
  destruct (try_load_ size p (memory s)) as [p'|[[[[] v] ver] since]] eqn:E.
  - split; [|done]. apply Hgo. by eapply load_continues.
  - split; [done|]. split; [|done]. apply Forall_singleton.
    destruct (load_succeeds s hist p v ver since) as [Hs Hv]; try done.
    split; [done|]. split; [done|]. intros Hw. destruct (Hv Hw) as (-> & ? & ?). done.
  - destruct (next_attempt a); [by split; [apply Hgo|]|]. split; [done|]. by repeat constructor.
Qed.

Lemma step_store_events t s : Forall (fun e => match e with Loaded _ _ _ _ => False | _ => True end) (step_store t s).2
  /\ (length (step_store t s).2 <= 1)%nat.
Proof.
  unfold step_store. destruct (writers s !! t); [|by split; [|simpl; lia]].
  destruct (store_step _ _) as [[]]; cbn; [by split; [|lia]|]. split; [|lia].
  repeat constructor. by destruct o.
Qed.

Lemma seqlock_step_ok a s hist :
  inv s hist ->
  inv (step size a s).1 (hist ++ stored (step size a s).2)
  /\ Forall (load_event hist s) (step size a s).2 /\ (length (step size a s).2 <= 1)%nat.
Proof.
  intros HI. destruct a as [t ex v|t|t w|t]; cbn [step].
  - case_match eqn:E; cbn; rewrite app_nil_r; [|by split_and!; [| |lia]].
    split_and!; [|done|lia]. apply andb_true_iff in E as [[E1%bool_decide_eq_true E2]%andb_true_iff E3%Nat.eqb_eq].
    assert (forall p', <[t:=StLoad ex v]> (writers s) !! t = Some p' ->
      holding p' = false) as Hh by (intros p'; rewrite lookup_insert_eq; by intros [= <-]).
    assert (free (mkSystem (memory s) (<[t:=StLoad ex v]> (writers s)) (readers s)) -> free s) as HF.
    { intros F t' q Hq. apply (F t'). cbn. rewrite lookup_insert_ne; [done|congruence]. }
    split; cbn; [apply HI|apply HI|intros F%HF; by apply HI| |].
    + intros t' q [[<- <-]|[Hne Hq]]%lookup_insert_Some.
      * split; [done|]. destruct ex; [|done]. cbn in E2. apply bool_decide_eq_true in E2. cbn.
        rewrite E2. by rewrite insert_empty.
      * destruct (inv_writer _ _ HI _ _ Hq) as [Hl Hok]. split; [done|].
        assert (ex = false /\ is_exclusive q = false) as [-> Hx].
        { destruct ex; cbn in E2; apply bool_decide_eq_true in E2; [by rewrite E2 in Hq|].
          split; [done|]. by apply (E2 t'). }
        assert (forall ver0, holds s t' ver0 ->
          holds (mkSystem (memory s) (<[t:=StLoad false v]> (writers s)) (readers s)) t' ver0) as Hhold.
        { intros ver0 (? & ? & Hu). split_and!; [done|done|]. cbn.
          intros t2 p2 [[_ <-]|[_ H2]]%lookup_insert_Some Hp2; [done|eauto]. }
        destruct q as [[] ?| | | |]; cbn in *; try done; destruct Hok; auto.
    + intros t' a q Hq. eapply reader_mono; [by eapply inv_reader|]. right. auto.
  - pose proof (step_store_ok t s hist HI) as H. destruct (step_store_events t s) as [He Hl].
    split_and!; [done| |done]. eapply Forall_impl; [exact He|]. by intros [].
  - case_match; cbn; rewrite app_nil_r; split_and!; try done; try lia.
    apply same_memory; [done|].
    intros t' b q [[<- E]|[_ Hq]]%lookup_insert_Some; [|by eapply inv_reader].
    destruct w; by injection E as <- <-.
  - destruct (step_load_ok t s hist HI) as (? & ? & ->). rewrite app_nil_r. split_and!; [done|done|].
    unfold step_load. repeat case_match; simpl; lia.
Qed.

Lemma seqlock_exec_ok acts s hist :
  inv s hist ->
  inv (exec size acts s).1 (hist ++ stored (exec size acts s).2)
  /\ forall pre v ver since upto post,
       (exec size acts s).2 = pre ++ Loaded v ver since upto :: post ->
       length (hist ++ stored pre) = S upto /\ (since <= upto)%nat
       /\ (Z.of_nat upto - Z.of_nat since < 2 ^ 31 ->
           since = upto /\ last (hist ++ stored pre) = Some v /\ ver = u32 (2 * Z.of_nat upto)).
Proof.
  revert s hist. induction acts as [|a acts IH]; intros s hist HI; cbn.
  { rewrite app_nil_r. split; [done|]. by intros [|] * E. }
  destruct (seqlock_step_ok a s hist HI) as (HI1 & He & Hl). destruct (step size a s) as [s1 e1]; cbn in *.
  destruct (IH s1 _ HI1) as [HI2 H2]. destruct (exec size acts s1) as [s2 e2]; cbn in *.
  unfold stored in *. rewrite omap_app, app_assoc. split; [done|].
  intros pre v ver since upto post E.
  destruct e1 as [|e [|? ?]]; [| |simpl in Hl; lia].
  - cbn in *. rewrite app_nil_r in H2. eauto.
  - destruct pre as [|e' pre]; cbn in E; injection E as -> E.
    + cbn. rewrite app_nil_r. apply Forall_singleton in He as (-> & Hs & Hv).
      rewrite (inv_hist _ _ HI). split; [done|]. split; [done|]. intros Hw.
      destruct (Hv Hw) as (-> & Hlk & ->). split; [done|]. split; [|done].
      by rewrite last_lookup, (inv_hist _ _ HI).
    + specialize (H2 _ _ _ _ _ _ E). cbn in *. rewrite <- app_assoc in H2.
      destruct e'; exact H2.
Qed.

(** * A load alone *)

Lemma seqlock_exec_cons a acts s :
  exec size (a :: acts) s =
    let '(s, e1) := step size a s in let '(s, e2) := exec size acts s in (s, e1 ++ e2).
Proof. done. Qed.

(** With [k] bytes left to copy. *)
Lemma copy_alone k : forall n t a m rs buf since,
  rs !! t = None -> seqlock_version_is_valid (ver_ m) = true -> (n + k)%nat = size ->
  length buf = size -> length (val_ m) = size -> take n buf = take n (val_ m) ->
  exec size (repeat (StepLoad t) (S k))
    (mkSystem m ∅ (<[t := (a, ld_copy size (ver_ m) buf n since)]> rs))
  = (mkSystem m ∅ rs, [Loaded (val_ m) (ver_ m) since (stores m)]).
Proof.
  induction k as [|k IH]; intros n t a m rs buf since Hrs Hv Hn Hb Hm Ht.
  - rewrite !take_ge in Ht by lia. subst buf. cbn. unfold step_load. cbn. rewrite lookup_insert_eq.
    unfold ld_copy. rewrite (proj2 (Nat.ltb_ge _ _)) by lia. cbn.
    unfold seqlock_version_is_valid in Hv. rewrite Hv, Z.eqb_refl. cbn.
    by rewrite delete_insert_eq, delete_id.
  - change (repeat (StepLoad t) (S (S k))) with (StepLoad t :: repeat (StepLoad t) (S k)).
    rewrite seqlock_exec_cons.
    replace (step size (StepLoad t) _) with
      (mkSystem m ∅ (<[t := (a, ld_copy size (ver_ m) (copy_byte n (val_ m) buf) (S n) since)]> rs), @nil Event).
    + rewrite IH; try done; [lia|by rewrite length_copy_byte|]. apply take_copy_byte; [lia|done].
    + cbn. unfold step_load. cbn. rewrite lookup_insert_eq. unfold ld_copy at 2.
      rewrite (proj2 (Nat.ltb_lt n size)) by lia. cbn. by rewrite insert_insert_eq.
Qed.

Lemma load_alone s hist t wait :
  inv s hist -> writers s = ∅ -> readers s !! t = None ->
  exec size (CallLoad t wait :: repeat (StepLoad t) (size + 2)) s
  = (s, [Loaded (val_ (memory s)) (ver_ (memory s)) (stores (memory s)) (stores (memory s))]).
Proof.
  intros HI Hw Ht. destruct s as [m ws rs]. cbn in Hw, Ht |- *. subst ws.
  assert (free (mkSystem m ∅ rs)) as F by done. destruct (inv_free _ _ HI F) as [Ev _].
  rewrite bool_decide_eq_true_2 by done.
  replace (if wait then Seqlock.wait_load else try_load_repeat)
    with ((if wait then Wait else Repeat 2), LdLoad) by by destruct wait.
  replace (size + 2)%nat with (S (S size)) by lia.
  change (repeat (StepLoad t) (S (S size))) with (StepLoad t :: repeat (StepLoad t) (S size)).
  rewrite seqlock_exec_cons.
  replace (step size (StepLoad t) _) with
    (mkSystem m ∅ (<[t := (if wait then Wait else Repeat 2, ld_copy size (ver_ m) (replicate size 0) 0 (stores m))]> rs),
     @nil Event).
  2: { cbn. unfold step_load. cbn. rewrite lookup_insert_eq. cbn. by rewrite insert_insert_eq. }
  rewrite copy_alone; try done.
  - cbn in Ev. rewrite Ev. apply version_even.
  - apply length_replicate.
  - apply HI.
Qed.

End Invariant.

(** * Theorem *)

(** C20: a load from the sequence lock is never torn and never stale.  However the accesses
    to the bytes and to the version interleave, a load that succeeds returns the value of
    the last store that is complete when it returns, with the version of that store,
    provided that less than 2^31 stores complete during its last attempt (with more the
    32-bit version repeats).  When no store is in progress, a load that runs alone
    succeeds at its first attempt. *)
Theorem seqlock_untorn (size : nat) (value : bytes) (acts : list Action) :
  length value = size ->
  let s := (exec size acts (make value)).1 in
  let es := (exec size acts (make value)).2 in
  (forall pre v ver since upto post, es = pre ++ Loaded v ver since upto :: post ->
     upto = length (stored pre) /\ (since <= upto)%nat
     /\ (Z.of_nat upto - Z.of_nat since < 2 ^ 31 ->
         since = upto /\ last (value :: stored pre) = Some v /\ ver = u32 (2 * Z.of_nat upto)))
  /\ (writers s = ∅ -> forall t wait, readers s !! t = None -> exists v ver upto,
        exec size (CallLoad t wait :: repeat (StepLoad t) (size + 2)) s = (s, [Loaded v ver upto upto])
        /\ last (value :: stored es) = Some v /\ ver = version s).
Proof.
  intros Hl s es. destruct (seqlock_exec_ok size acts _ _ (seqlock_make_inv size value Hl)) as [HI H]. fold s es in HI, H.
  split.
  - intros pre v ver since upto post E. destruct (H _ _ _ _ _ _ E) as (Hu & Hs & Hv).
    injection Hu as Hu. done.
  - intros Hw t wait Ht. exists (val_ (memory s)), (ver_ (memory s)), (stores (memory s)).
    split; [by eapply load_alone|]. split; [|done].
    apply (inv_free _ _ _ HI). intros t' p. by rewrite Hw, lookup_empty.
Qed.

Lemma seqlock_untorn_witness :
  exists s, exec 2 ([CallStore 1 false [3; 4]; StepStore 1; StepStore 1; CallLoad 2 false; StepLoad 2; StepStore 1;
      StepLoad 2; StepLoad 2; StepStore 1; StepStore 1; StepLoad 2] ++ repeat (StepLoad 2) 4) (make [1; 2])
    = (s, [Stored [3; 4] 2; Loaded [3; 4] 2 1 1])
    /\ last ([1; 2] :: stored [Stored [3; 4] 2]) = Some [3; 4].
Proof.
  destruct (seqlock_untorn 2 [1; 2] ([CallStore 1 false [3; 4]; StepStore 1; StepStore 1; CallLoad 2 false;
    StepLoad 2; StepStore 1; StepLoad 2; StepLoad 2; StepStore 1; StepStore 1; StepLoad 2]
    ++ repeat (StepLoad 2) 4)) as [H _]; [reflexivity|].
  eexists. split; [vm_compute; reflexivity|].
  destruct (H [Stored [3; 4] 2] [3; 4] 2 1%nat 1%nat []) as (_ & _ & H'); [vm_compute; reflexivity|].
  apply H'. lia.
Defined.
