(* ===== verification/SpscRingBuffer.v ===== *)
(** The ring buffer of one producer and one consumer
    (src/internal_modules/roc_core/spsc_byte_buffer.cpp, spsc_byte_buffer.h,
    spsc_ring_buffer.h).

    Every access to a position or to a chunk is one step of the producer or of the consumer,
    and their steps interleave in any way over sequentially consistent memory.  A chunk
    holds an object or raw memory: constructing an object over a live one and reading raw
    memory are [Panic]. *)

From S2P Require Import Prelude.

Module SpscRingBuffer.

Section Buffer.

Context {A : Type}.

(** * SpscByteBuffer *)

Record Memory : Type := mkMemory {
  chunks_ : list (option A);
  read_pos_ : Z;
  write_pos_ : Z
}.

Definition chunk_count_ (m : Memory) : nat := length (chunks_ m).

(** With [n_chunks] chunks and a guard. *)
Definition make_memory (n_chunks : nat) : Memory := mkMemory (replicate (S n_chunks) None) 0 1.

(** [is_empty], with both positions loaded. *)
Definition is_empty (wr_pos rd_pos : Z) : bool := u32 (rd_pos + 1) =? wr_pos.

Definition chunk_index (pos : Z) (m : Memory) : nat :=
  Z.to_nat (pos mod Z.of_nat (chunk_count_ m)).

(** [begin_write], with both positions loaded. *)
Definition begin_write (wr_pos rd_pos : Z) (m : Memory) : option nat :=
  if Z.of_nat (chunk_count_ m) <=? u32 (wr_pos - rd_pos) then None
  else Some (chunk_index wr_pos m).

Definition end_write (m : Memory) : Memory :=
  mkMemory (chunks_ m) (read_pos_ m) (u32 (write_pos_ m + 1)).

(** [begin_read], with both positions loaded. *)
Definition begin_read (rd_pos wr_pos : Z) (m : Memory) : option nat :=
  if u32 (rd_pos + 1) =? wr_pos then None else Some (chunk_index (u32 (rd_pos + 1)) m).

Definition end_read (m : Memory) : Memory :=
  mkMemory (chunks_ m) (u32 (read_pos_ m + 1)) (write_pos_ m).

(** [new (ptr) T(element)] *)
Definition construct (i : nat) (a : A) (m : Memory) : res Memory :=
  match chunks_ m !! i with
  | Some None => Ok (mkMemory (<[i := Some a]> (chunks_ m)) (read_pos_ m) (write_pos_ m))
  | _ => Panic
  end.

(** Copying an object and calling its destructor. *)
Definition fetch (i : nat) (m : Memory) : res (A * Memory) :=
  match chunks_ m !! i with
  | Some (Some a) => Ok (a, mkMemory (<[i := None]> (chunks_ m)) (read_pos_ m) (write_pos_ m))
  | _ => Panic
  end.

(** * SpscRingBuffer *)

(** [push_back]: about to load the write position, the read position, to construct the
    element, to advance the write position. *)
Inductive PushBack : Type :=
| PbWritePos (a : A)
| PbReadPos (a : A) (wr_pos : Z)
| PbConstruct (a : A) (chunk : nat)
| PbEndWrite (a : A).

(** [pop_front]: about to load the read position, the write position, to fetch the element,
    to advance the read position. *)
Inductive PopFront : Type :=
| PfReadPos
| PfWritePos (rd_pos : Z)
| PfFetch (chunk : nat)
| PfEndRead (a : A).

(** What the calls return. *)
Inductive Event : Type :=
| Pushed (a : A)
| Full
| Popped (a : A)
| Empty.

Definition push_back (p : PushBack) (m : Memory) : res (option PushBack * Memory * list Event) :=
  match p with
  | PbWritePos a => Ok (Some (PbReadPos a (write_pos_ m)), m, [])
  | PbReadPos a wr_pos =>
      match begin_write wr_pos (read_pos_ m) m with
      | None => Ok (None, m, [Full])
      | Some i => Ok (Some (PbConstruct a i), m, [])
      end
  | PbConstruct a i => let* m := construct i a m in Ok (Some (PbEndWrite a), m, [])
  | PbEndWrite a => Ok (None, end_write m, [Pushed a])
  end.

Definition pop_front (p : PopFront) (m : Memory) : res (option PopFront * Memory * list Event) :=
  match p with
  | PfReadPos => Ok (Some (PfWritePos (read_pos_ m)), m, [])
  | PfWritePos rd_pos =>
      match begin_read rd_pos (write_pos_ m) m with
      | None => Ok (None, m, [Empty])
      | Some i => Ok (Some (PfFetch i), m, [])
      end
  | PfFetch i => let* '(a, m) := fetch i m in Ok (Some (PfEndRead a), m, [])
  | PfEndRead a => Ok (None, end_read m, [Popped a])
  end.

Record System : Type := mkSystem {
  memory : Memory;
  producer : option PushBack;
  consumer : option PopFront
}.

Inductive Action : Type :=
| CallPush (a : A)
| StepPush
| CallPop
| StepPop.

Definition step (x : Action) (s : System) : res (System * list Event) :=
  match x with
  | CallPush a =>
      match producer s with
      | None => Ok (mkSystem (memory s) (Some (PbWritePos a)) (consumer s), [])
      | Some _ => Ok (s, [])
      end
  | StepPush =>
      match producer s with
      | None => Ok (s, [])
      | Some p =>
          let* '(p, m, es) := push_back p (memory s) in Ok (mkSystem m p (consumer s), es)
      end
  | CallPop =>
      match consumer s with
      | None => Ok (mkSystem (memory s) (producer s) (Some PfReadPos), [])
      | Some _ => Ok (s, [])
      end
  | StepPop =>
      match consumer s with
      | None => Ok (s, [])
      | Some p =>
          let* '(p, m, es) := pop_front p (memory s) in Ok (mkSystem m (producer s) p, es)
      end
  end.

Fixpoint exec (acts : list Action) (s : System) : res (System * list Event) :=
  match acts with
  | [] => Ok (s, [])
  | a :: acts =>
      let* '(s, e1) := step a s in
      let* '(s, e2) := exec acts s in
      Ok (s, e1 ++ e2)
  end.

Definition make (n_elements : nat) : System := mkSystem (make_memory n_elements) None None.

(** The loop of the destructor, for at most [n] elements. *)
Fixpoint destroy (n : nat) (m : Memory) : res Memory :=
  match begin_read (read_pos_ m) (write_pos_ m) m with
  | None => Ok m
  | Some i =>
      match n with
      | O => Panic
      | S n => let* x := fetch i m in destroy n (end_read x.2)
      end
  end.

End Buffer.

Arguments Memory : clear implicits.
Arguments System : clear implicits.
Arguments Action : clear implicits.
Arguments Event : clear implicits.
Arguments PushBack : clear implicits.

End SpscRingBuffer.
