(* ===== verification/SpscRingBufferFifo.v ===== *)
(** The ring buffer of SpscRingBuffer.v is a bounded queue in every execution, as long as
    the 32-bit positions stay in step with the chunks; when they wrap and the number of
    chunks does not divide 2^32, they do not. *)

From S2P Require Import Prelude SpscRingBuffer.

Import SpscRingBuffer.

#[local] Open Scope nat_scope.

(** * Positions *)

Lemma u32_of_nat (k : nat) : (Z.of_nat k < 2 ^ 32)%Z -> u32 (Z.of_nat k) = Z.of_nat k.
Proof. intros H. unfold wrap_u. apply Z.mod_small. lia. Qed.

(** Either the number of chunks divides 2^32 or the position has not wrapped. *)
Definition in_step (count pos : nat) : Prop :=
  (2 ^ 32 mod Z.of_nat count = 0)%Z \/ (Z.of_nat pos < 2 ^ 32)%Z.

Lemma index_in_step (count pos : nat) :
  count <> 0 -> in_step count pos ->
  Z.to_nat (u32 (Z.of_nat pos) mod Z.of_nat count) = pos mod count.
Proof.
  intros Hc [Hd|Hp].
  - unfold wrap_u. rewrite Z.mod_divide in Hd by lia. destruct Hd as [k Hk].
    assert ((Z.of_nat pos mod 2 ^ 32) mod Z.of_nat count = Z.of_nat pos mod Z.of_nat count)%Z as ->.
    { rewrite Hk at 1. rewrite (Z.mul_comm k). destruct (Z.eq_dec k 0) as [->|]; [lia|].
      rewrite Z.rem_mul_r by lia. rewrite Z.mul_comm, Z.mod_add by lia. apply Z.mod_mod. lia. }
    rewrite <- Nat2Z.inj_mod. apply Nat2Z.id.
  - rewrite u32_of_nat by done. rewrite <- Nat2Z.inj_mod. apply Nat2Z.id.
Qed.

(** Positions less than [count] apart have different chunks. *)
Lemma mod_distinct (count p d1 d2 : nat) :
  d1 < count -> d2 < count -> (p + d1) mod count = (p + d2) mod count -> d1 = d2.
Proof.
  intros H1 H2 E.
  pose proof (Nat.div_mod (p + d1) count ltac:(lia)). pose proof (Nat.div_mod (p + d2) count ltac:(lia)).
  rewrite E in H. destruct (Nat.lt_trichotomy ((p + d1) / count) ((p + d2) / count)) as [|[|]]; nia.
Qed.

Section Fifo.

Context {A : Type}.

(** * The invariant *)

Definition at_end_read (c : option (@PopFront A)) : bool :=
  match c with Some (PfEndRead _) => true | _ => false end.

Definition at_end_write (p : option (PushBack A)) : option A :=
  match p with Some (PbEndWrite a) => Some a | _ => None end.

(** What the chunk [d] chunks after the first waiting element holds. *)
Definition content (q : list A) (s : System A) (d : nat) : option A :=
  match q !! d with
  | Some a => if (d =? 0) && at_end_read (consumer s) then None else Some a
  | None => if d =? length q then at_end_write (producer s) else None
  end.

Section Size.

(** The number of elements, and the number of chunks. *)
Context (n : nat).
Notation count := (S n).

Definition index (pos : nat) : nat := pos mod count.
#[local] Arguments index : simpl never.

(** [rd] elements have been returned and [q] are waiting. *)
Record inv (s : System A) (rd : nat) (q : list A) : Prop := {
  inv_count : length (chunks_ (memory s)) = count;
  inv_fits : length q <= n;
  inv_rd : read_pos_ (memory s) = u32 (Z.of_nat rd);
  inv_wr : write_pos_ (memory s) = u32 (Z.of_nat (S (rd + length q)));
  inv_chunks : forall d, d < count -> chunks_ (memory s) !! index (S (rd + d)) = Some (content q s d);
  inv_producer : match producer s with
    | Some (PbReadPos _ wr) => wr = u32 (Z.of_nat (S (rd + length q)))
    | Some (PbConstruct _ i) => length q < n /\ i = index (S (rd + length q))
    | Some (PbEndWrite _) => length q < n
    | _ => True
    end;
  inv_consumer : match consumer s with
    | Some (PfWritePos r) => r = u32 (Z.of_nat rd)
    | Some (PfFetch i) => q <> [] /\ i = index (S rd)
    | Some (PfEndRead a) => head q = Some a
    | _ => True
    end
}.

(** ** The bounded queue *)

Definition effect (e : Event A) (q : list A) (q' : list A) : Prop :=
  match e with
  | Pushed a => length q < n /\ q' = q ++ [a]
  | Full => length q = n /\ q' = q
  | Popped a => q = a :: q'
  | Empty => q = [] /\ q' = []
  end.

Inductive replay : list A -> list (Event A) -> list A -> Prop :=
| replay_nil q : replay q [] q
| replay_cons e es q1 q2 q3 : effect e q1 q2 -> replay q2 es q3 -> replay q1 (e :: es) q3.

Lemma replay_one e q q' : effect e q q' -> replay q [e] q'.
Proof. intros H. by eapply replay_cons, replay_nil. Qed.

Lemma spsc_replay_app es1 es2 q1 q2 q3 : replay q1 es1 q2 -> replay q2 es2 q3 -> replay q1 (es1 ++ es2) q3.
Proof. induction 1; [done|]. intros. econstructor; eauto. Qed.

Lemma index_lt pos : index pos < count.
Proof. apply Nat.mod_upper_bound. lia. Qed.

Lemma index_inj p d1 d2 : d1 < count -> d2 < count -> index (S (p + d1)) = index (S (p + d2)) -> d1 = d2.
Proof. apply (mod_distinct count (S p)). Qed.

(** ** Steps *)

(** A step that changes no memory. *)
Lemma local_inv s rd q p c :
  inv s rd q -> at_end_write p = at_end_write (producer s) ->
  at_end_read c = at_end_read (consumer s) ->
  match p with
  | Some (PbReadPos _ wr) => wr = u32 (Z.of_nat (S (rd + length q)))
  | Some (PbConstruct _ i) => length q < n /\ i = index (S (rd + length q))
  | Some (PbEndWrite _) => length q < n
  | _ => True
  end ->
  match c with
  | Some (PfWritePos r) => r = u32 (Z.of_nat rd)
  | Some (PfFetch i) => q <> [] /\ i = index (S rd)
  | Some (PfEndRead a) => head q = Some a
  | _ => True
  end ->
  inv (mkSystem (memory s) p c) rd q.
Proof.
  intros [] Hp Hc Hp' Hc'. split; try done. cbn. intros d Hd. rewrite inv_chunks0 by done.
  unfold content. cbn. by rewrite Hp, Hc.
Qed.

Lemma content_end s q : content q s (length q) = at_end_write (producer s).
Proof. unfold content. by rewrite lookup_ge_None_2, Nat.eqb_refl by lia. Qed.

Lemma construct_inv s rd q a i :
  producer s = Some (PbConstruct a i) -> inv s rd q ->
  exists m, construct i a (memory s) = Ok m
    /\ inv (mkSystem m (Some (PbEndWrite a)) (consumer s)) rd q.
Proof.
  intros Hp HI. pose proof (inv_producer _ _ _ HI) as Hpr. rewrite Hp in Hpr. destruct Hpr as [Hn ->].
  pose proof (inv_chunks _ _ _ HI (length q) ltac:(lia)) as Hc.
  rewrite content_end, Hp in Hc. cbn in Hc. unfold construct. rewrite Hc.
  eexists. split; [done|]. destruct HI. split; cbn; try done; [by rewrite length_insert|].
  intros d Hd. destruct (decide (d = length q)) as [->|Hne].
  - rewrite list_lookup_insert_eq by (rewrite inv_count0; apply index_lt).
    by rewrite content_end.
  - rewrite list_lookup_insert_ne, inv_chunks0 by (try done; intros E; apply Hne; apply index_inj in E; lia).
    unfold content. cbn. destruct (q !! d) eqn:E; [done|].
    by rewrite (proj2 (Nat.eqb_neq _ _)) by done.
Qed.

Lemma fetch_inv s rd q i :
  consumer s = Some (PfFetch i) -> inv s rd q ->
  exists a m, fetch i (memory s) = Ok (a, m) /\ inv (mkSystem m (producer s) (Some (PfEndRead a))) rd q.
Proof.
  intros Hp HI. pose proof (inv_consumer _ _ _ HI) as Hpr. rewrite Hp in Hpr. destruct Hpr as [Hq ->].
  destruct q as [|a q]; [done|].
  pose proof (inv_chunks _ _ _ HI 0 ltac:(lia)) as Hc. rewrite Nat.add_0_r in Hc.
  unfold content in Hc. rewrite Hp in Hc. cbn in Hc. unfold fetch. rewrite Hc.
  eexists a, _. split; [done|]. destruct HI. split; cbn; try done; [by rewrite length_insert|].
  intros d Hd. destruct (decide (d = 0)) as [->|Hne].
  - by rewrite Nat.add_0_r, list_lookup_insert_eq by (rewrite inv_count0; apply index_lt).
  - rewrite list_lookup_insert_ne, inv_chunks0.
    + unfold content. destruct d as [|d]; [done|]. cbn. done.
    + done.
    + intros E. apply Hne. rewrite <- (Nat.add_0_r rd) in E at 1. apply index_inj in E; lia.
Qed.

Lemma end_write_inv s rd q a :
  producer s = Some (PbEndWrite a) -> inv s rd q ->
  length q < n /\ inv (mkSystem (end_write (memory s)) None (consumer s)) rd (q ++ [a]).
Proof.
  intros Hp HI. pose proof (inv_producer _ _ _ HI) as Hpr. rewrite Hp in Hpr. split; [done|].
  destruct HI. split; cbn; try done.
  - rewrite length_app. simpl. lia.
  - rewrite inv_wr0, length_app. simpl. unfold wrap_u. rewrite Zplus_mod_idemp_l. f_equal. lia.
  - intros d Hd. rewrite inv_chunks0 by done. f_equal. unfold content. cbn. rewrite Hp. cbn.
    destruct (Nat.lt_trichotomy d (length q)) as [H|[->|H]].
    + destruct (lookup_lt_is_Some_2 q d H) as [x Hx]. by rewrite lookup_app_l, Hx by done.
    + rewrite lookup_ge_None_2, list_lookup_middle, Nat.eqb_refl by lia.
      destruct (at_end_read (consumer s)) eqn:Ec; [|by rewrite andb_false_r].
      destruct (consumer s) as [[]|]; try done. destruct q; [done|]. by rewrite andb_true_r.
    + rewrite !lookup_ge_None_2 by (rewrite ?length_app; simpl; lia).
      rewrite (proj2 (Nat.eqb_neq _ _)) by lia. by destruct (d =? _).
  - destruct (consumer s) as [[]|]; try done.
    + destruct inv_consumer0 as [? ->]. split; [by destruct q|done].
    + by destruct q.
Qed.

Lemma end_read_inv s rd q a :
  consumer s = Some (PfEndRead a) -> inv s rd q ->
  exists q', q = a :: q' /\ inv (mkSystem (end_read (memory s)) (producer s) None) (S rd) q'.
Proof.
  intros Hp HI. pose proof (inv_consumer _ _ _ HI) as Hpr. rewrite Hp in Hpr.
  destruct q as [|b q]; [done|]. injection Hpr as ->. exists q. split; [done|].
  destruct HI. simpl in inv_fits0. split; cbn; try done.
  - lia.
  - rewrite inv_rd0. unfold wrap_u. rewrite Zplus_mod_idemp_l. f_equal. lia.
  - rewrite inv_wr0. do 2 f_equal. simpl. lia.
  - intros d Hd. destruct (decide (d = n)) as [->|].
    + replace (index (S (S (rd + n)))) with (index (S (rd + 0))).
      * rewrite inv_chunks0 by lia. unfold content. rewrite Hp. cbn.
        rewrite lookup_ge_None_2 by lia. by rewrite (proj2 (Nat.eqb_neq _ _)) by lia.
      * unfold index. replace (S (S (rd + n))) with (S (rd + 0) + 1 * count) by lia.
        by rewrite Nat.Div0.mod_add.
    + replace (S (S (rd + d))) with (S (rd + S d)) by lia. rewrite inv_chunks0 by lia.
      unfold content. cbn. destruct (q !! d); [by rewrite andb_false_r|done].
  - destruct (producer s) as [[]|]; try done; cbn in *; [|destruct inv_producer0 as [? ->]].
    + rewrite inv_producer0. do 2 f_equal. lia.
    + split; [lia|]. f_equal. lia.
Qed.

(** ** Executions *)

Hypothesis Hn : (Z.of_nat count < 2 ^ 32)%Z.

Lemma begin_write_space s rd q :
  inv s rd q ->
  begin_write (u32 (Z.of_nat (S (rd + length q)))) (read_pos_ (memory s)) (memory s)
  = if decide (length q = n) then None
    else Some (Z.to_nat (u32 (Z.of_nat (S (rd + length q))) mod Z.of_nat count)).
Proof.
  intros HI. unfold begin_write, chunk_index, chunk_count_.
  rewrite (inv_rd _ _ _ HI), (inv_count _ _ _ HI). pose proof (inv_fits _ _ _ HI).
  assert (u32 (u32 (Z.of_nat (S (rd + length q))) - u32 (Z.of_nat rd)) = Z.of_nat (S (length q))) as ->.
  { unfold wrap_u. rewrite <- Zminus_mod. rewrite Z.mod_small; lia. }
  case_decide; [rewrite (proj2 (Z.leb_le _ _)) by lia|rewrite (proj2 (Z.leb_gt _ _)) by lia]; done.
Qed.

Lemma begin_write_ok s rd q :
  inv s rd q -> in_step count (S (rd + length q)) ->
  begin_write (u32 (Z.of_nat (S (rd + length q)))) (read_pos_ (memory s)) (memory s)
  = if decide (length q = n) then None else Some (index (S (rd + length q))).
Proof. intros HI Hp. rewrite begin_write_space by done. by rewrite index_in_step. Qed.

Lemma begin_read_ok s rd q :
  inv s rd q -> (q <> [] -> in_step count (S rd)) ->
  begin_read (u32 (Z.of_nat rd)) (write_pos_ (memory s)) (memory s)
  = if decide (q = []) then None else Some (index (S rd)).
Proof.
  intros HI Hp. unfold begin_read, chunk_index, chunk_count_.
  rewrite (inv_wr _ _ _ HI), (inv_count _ _ _ HI). pose proof (inv_fits _ _ _ HI).
  assert (u32 (u32 (Z.of_nat rd) + 1) = u32 (Z.of_nat (S rd))) as ->.
  { unfold wrap_u. rewrite Zplus_mod_idemp_l. f_equal. lia. }
  case_decide as Hq.
  - subst q. rewrite Nat.add_0_r. by rewrite Z.eqb_refl.
  - rewrite (proj2 (Z.eqb_neq _ _)); [by rewrite index_in_step by auto|].
    assert (0 < length q) by (destruct q; [done|simpl; lia]).
    unfold wrap_u. change (2 ^ 32)%Z with 4294967296%Z in *. Z.div_mod_to_equations. lia.
Qed.

(** Positions that can come up. *)
Definition busy (s : System A) : nat := match producer s with Some _ => 1 | None => 0 end.

Definition steady (s : System A) (rd : nat) (q : list A) (more : nat) : Prop :=
  (2 ^ 32 mod Z.of_nat count = 0)%Z \/ (Z.of_nat (rd + length q + busy s + more) < 2 ^ 32)%Z.

Lemma steady_push s rd q more :
  steady s rd q more -> producer s <> None -> in_step count (S (rd + length q)).
Proof. unfold steady, busy. destruct (producer s); [|done]. intros [|] _; [by left|right; lia]. Qed.

Lemma steady_pop s rd q more : steady s rd q more -> q <> [] -> in_step count (S rd).
Proof. intros [|H] Hq; [by left|right]. destruct q; [done|]. simpl in H. lia. Qed.

Definition calls (acts : list (Action A)) : nat :=
  list_sum (map (fun x => match x with CallPush _ => 1 | _ => 0 end) acts).

(** One step: what it returns, and that positions only grow with calls. *)
Definition good_step (s : System A) (rd : nat) (q : list A) (more : nat)
    (r : res (System A * list (Event A))) : Prop :=
  exists s' es rd' q', r = Ok (s', es) /\ inv s' rd' q' /\ replay q es q'
    /\ rd' + length q' + busy s' <= rd + length q + busy s + more.

Lemma spsc_step_push_ok s rd q more :
  inv s rd q -> steady s rd q more -> good_step s rd q 0 (step StepPush s).
Proof.
  intros HI Hs. cbn. destruct (producer s) as [p|] eqn:Hp.
  2: { exists s, [], rd, q. split_and!; [done|done|constructor|lia]. }
  pose proof (inv_consumer _ _ _ HI) as Hc. pose proof (inv_producer _ _ _ HI) as Hpr. rewrite Hp in Hpr.
  unfold good_step, busy. rewrite Hp.
  destruct p as [a|a wr|a i|a]; cbn.
  - eexists _, _, rd, q. split; [done|]. split_and!; [|constructor|cbn; lia].
    apply local_inv; try done; [by rewrite Hp|]. apply HI.
  - subst wr. rewrite (begin_write_ok s rd q HI) by (eapply steady_push; [done|congruence]).
    case_decide; eexists _, _, rd, q; (split; [done|]); split_and!; cbn; try lia; try apply replay_nil.
    + apply local_inv; try done. by rewrite Hp.
    + by eapply replay_one.
    + apply local_inv; try done; [by rewrite Hp|]. pose proof (inv_fits _ _ _ HI). split; [lia|done].
  - destruct (construct_inv s rd q a i Hp HI) as (m & -> & HI'). cbn.
    eexists _, _, rd, q. split; [done|]. split_and!; [done|constructor|cbn; lia].
  - destruct (end_write_inv s rd q a Hp HI) as [Hl HI'].
    eexists _, _, rd, (q ++ [a]). split; [done|].
    split_and!; [done|by apply replay_one|rewrite length_app; cbn; lia].
Qed.

Lemma spsc_step_pop_ok s rd q more :
  inv s rd q -> steady s rd q more -> good_step s rd q 0 (step StepPop s).
Proof.
  intros HI Hs. cbn. destruct (consumer s) as [p|] eqn:Hp.
  2: { exists s, [], rd, q. split_and!; [done|done|constructor|lia]. }
  pose proof (inv_producer _ _ _ HI) as Hc. pose proof (inv_consumer _ _ _ HI) as Hpr. rewrite Hp in Hpr.
  unfold good_step, busy.
  destruct p as [|r|i|a]; cbn.
  - eexists _, _, rd, q. split; [done|]. split_and!; [|constructor|cbn; lia].
    apply local_inv; try done; [by rewrite Hp|]. apply HI.
  - subst r. rewrite (begin_read_ok s rd q HI) by by eapply steady_pop.
    case_decide as Hq; eexists _, _, rd, q; (split; [done|]); split_and!; cbn; try lia; try apply replay_nil.
    + apply local_inv; try done. by rewrite Hp.
    + by eapply replay_one.
    + apply local_inv; try done. by rewrite Hp.
  - destruct (fetch_inv s rd q i Hp HI) as (a & m & -> & HI'). cbn.
    eexists _, _, rd, q. split; [done|]. split_and!; [done|constructor|cbn; lia].
  - destruct (end_read_inv s rd q a Hp HI) as (q' & -> & HI').
    eexists _, _, (S rd), q'. split; [done|]. split_and!; [done|by apply replay_one|cbn; lia].
Qed.

Lemma spsc_exec_ok acts : forall s rd q,
  inv s rd q -> steady s rd q (calls acts) ->
  exists s' es rd' q', exec acts s = Ok (s', es) /\ inv s' rd' q' /\ replay q es q'
    /\ rd' + length q' + busy s' <= rd + length q + busy s + calls acts.
Proof.
  induction acts as [|x acts IH]; intros s rd q HI Hs; cbn [exec].
  { exists s, [], rd, q. split_and!; [done|done|constructor|unfold calls; cbn; lia]. }
  assert (exists k, calls (x :: acts) = k + calls acts /\ good_step s rd q k (step x s))
    as (k & Hk & s1 & e1 & rd1 & q1 & -> & HI1 & Hr1 & Hb1).
  { destruct x as [a| | |]; [exists 1|exists 0|exists 0|exists 0]; (split; [done|]).
    - cbn. destruct (producer s) eqn:Hp; eexists _, [], rd, q; (split; [done|]).
      + split_and!; [done|constructor|lia].
      + split_and!; [|constructor|unfold busy; rewrite Hp; cbn; lia].
        apply local_inv; try done; [by rewrite Hp|apply HI].
    - by eapply spsc_step_push_ok.
    - cbn. destruct (consumer s) eqn:Hp; eexists _, [], rd, q; (split; [done|]).
      + split_and!; [done|constructor|lia].
      + split_and!; [|constructor|unfold busy; cbn; lia].
        apply local_inv; try done; [by rewrite Hp|apply HI].
    - by eapply spsc_step_pop_ok. }
  cbn [res_bind]. destruct (IH s1 rd1 q1 HI1) as (s2 & e2 & rd2 & q2 & -> & HI2 & Hr2 & Hb2).
  { destruct Hs as [|Hs]; [by left|right]. rewrite Hk in Hs. lia. }
  cbn [res_bind]. eexists _, _, rd2, q2. split; [done|]. split_and!; [done|by eapply spsc_replay_app|lia].
Qed.

Lemma spsc_make_inv : inv (make n) 0 [].
Proof.
  split; cbn; try done.
  - by rewrite length_replicate.
  - lia.
  - intros d Hd. change (None :: replicate n None) with (replicate (S n) (@None A)).
    rewrite lookup_replicate_2 by apply index_lt. f_equal. unfold content. cbn. by destruct (d =? 0).
Qed.

Lemma exec_app (acts1 acts2 : list (Action A)) s :
  exec (acts1 ++ acts2) s =
    (let* '(s, e1) := exec acts1 s in let* '(s, e2) := exec acts2 s in Ok (s, e1 ++ e2)).
Proof.
  revert s. induction acts1 as [|x acts1 IH]; intros s; cbn.
  - by destruct (exec acts2 s) as [[]|].
  - destruct (step x s) as [[s1 e1]|]; cbn; [|done]. rewrite IH.
    destruct (exec acts1 s1) as [[s2 e2]|]; cbn; [|done].
    destruct (exec acts2 s2) as [[s3 e3]|]; cbn; [|done]. by rewrite app_assoc.
Qed.

(** ** Calls that run alone *)

Definition do_push (a : A) : list (Action A) := CallPush a :: repeat StepPush 4.

Definition do_pop : list (Action A) := CallPop :: repeat StepPop 4.

Lemma push_alone m rd q a :
  inv (mkSystem m None None) rd q -> length q < n -> in_step count (S (rd + length q)) ->
  exists m', exec (do_push a) (mkSystem m None None) = Ok (mkSystem m' None None, [Pushed a])
    /\ inv (mkSystem m' None None) rd (q ++ [a]).
Proof.
  intros HI Hl Hp. pose proof (begin_write_ok _ _ _ HI Hp) as Hb. cbn [memory] in Hb.
  rewrite decide_False in Hb by lia. pose proof (inv_wr _ _ _ HI) as Hw. cbn in Hw.
  destruct (construct_inv (mkSystem m (Some (PbConstruct a (index (S (rd + length q))))) None) rd q a
    (index (S (rd + length q)))) as (m1 & E1 & HI1); [done|by apply (local_inv _ _ _ _ _ HI)|].
  destruct (end_write_inv (mkSystem m1 (Some (PbEndWrite a)) None) rd q a eq_refl HI1) as [_ HI2].
  exists (end_write m1). split; [|exact HI2]. cbn in E1. cbn. rewrite Hw, Hb. cbn. by rewrite E1.
Qed.

Lemma spsc_pop_alone m rd q a :
  inv (mkSystem m None None) rd (a :: q) -> in_step count (S rd) ->
  exists m', exec do_pop (mkSystem m None None) = Ok (mkSystem m' None None, [Popped a])
    /\ inv (mkSystem m' None None) (S rd) q.
Proof.
  intros HI Hp. pose proof (begin_read_ok _ _ _ HI (fun _ => Hp)) as Hb. cbn [memory] in Hb.
  rewrite decide_False in Hb by done. pose proof (inv_rd _ _ _ HI) as Hr. cbn in Hr.
  destruct (fetch_inv (mkSystem m None (Some (PfFetch (index (S rd))))) rd (a :: q) (index (S rd)))
    as (b & m1 & E1 & HI1); [done|by apply (local_inv _ _ _ _ _ HI)|].
  destruct (end_read_inv (mkSystem m1 None (Some (PfEndRead b))) rd (a :: q) b eq_refl HI1) as (q' & [= <- <-] & HI2).
  exists (end_read m1). split; [|exact HI2]. cbn in E1. cbn. rewrite Hr, Hb. cbn. by rewrite E1.
Qed.

(** ** Destruction *)

Lemma destroy_ok q : forall m rd k,
  inv (mkSystem m None None) rd q -> (q <> [] -> in_step count (rd + length q)) -> length q <= k ->
  exists m', destroy k m = Ok m'.
Proof.
  induction q as [|a q IH]; intros m rd k HI Hp Hk.
  - pose proof (begin_read_ok _ _ _ HI ltac:(done)) as Hb. cbn [memory] in Hb.
    rewrite <- (inv_rd _ _ _ HI) in Hb. cbn in Hb. destruct k; cbn; rewrite Hb; eauto.
  - assert (in_step count (S rd)) as Hp'.
    { destruct (Hp ltac:(done)) as [|H]; [by left|right]. simpl in H. lia. }
    pose proof (begin_read_ok _ _ _ HI (fun _ => Hp')) as Hb. cbn [memory] in Hb.
    rewrite decide_False in Hb by done. rewrite <- (inv_rd _ _ _ HI) in Hb. cbn in Hb.
    destruct (fetch_inv (mkSystem m None (Some (PfFetch (index (S rd))))) rd (a :: q) (index (S rd)))
      as (b & m1 & E1 & HI1); [done|by apply (local_inv _ _ _ _ _ HI)|].
    destruct (end_read_inv (mkSystem m1 None (Some (PfEndRead b))) rd (a :: q) b eq_refl HI1) as (q' & [= <- <-] & HI2).
    cbn in E1. destruct k as [|k]; [simpl in Hk; lia|]. cbn. rewrite Hb, E1. cbn.
    apply (IH _ (S rd)); [exact HI2| |simpl in Hk; lia].
    intros _. replace (S rd + length q) with (rd + length (a :: q)) by (simpl; lia). by apply Hp.
Qed.

(** ** The wrap of the positions *)

(** [k] elements through the empty buffer. *)
Lemma rounds_ok (a : A) k : forall m rd,
  0 < n -> inv (mkSystem m None None) rd [] -> (Z.of_nat (rd + k) < 2 ^ 32)%Z ->
  exists acts m' es, exec acts (mkSystem m None None) = Ok (mkSystem m' None None, es)
    /\ inv (mkSystem m' None None) (rd + k) [].
Proof.
  induction k as [|k IH]; intros m rd Hpos HI Hk.
  { exists [], m, []. by rewrite Nat.add_0_r. }
  destruct (push_alone m rd [] a HI) as (m1 & E1 & HI1); [done|right; cbn; lia|].
  destruct (spsc_pop_alone m1 rd [] a HI1) as (m2 & E2 & HI2); [right; lia|].
  destruct (IH m2 (S rd) Hpos HI2) as (acts & m3 & es & E3 & HI3); [lia|].
  exists (do_push a ++ do_pop ++ acts), m3, ([Pushed a] ++ [Popped a] ++ es).
  rewrite !exec_app, E1. cbn [res_bind]. rewrite exec_app, E2. cbn [res_bind]. rewrite E3. split; [done|].
  by replace (rd + S k) with (S rd + k) by lia.
Qed.

(** [k] elements into the buffer. *)
Lemma spsc_fill_ok (a : A) k : forall m rd q,
  inv (mkSystem m None None) rd q -> length q + k <= n -> (Z.of_nat (rd + length q + k) < 2 ^ 32)%Z ->
  exists acts m' es, exec acts (mkSystem m None None) = Ok (mkSystem m' None None, es)
    /\ inv (mkSystem m' None None) rd (q ++ replicate k a).
Proof.
  induction k as [|k IH]; intros m rd q HI Hl Hk.
  { exists [], m, []. by rewrite app_nil_r. }
  destruct (push_alone m rd q a HI) as (m1 & E1 & HI1); [lia|right; lia|].
  destruct (IH m1 rd (q ++ [a]) HI1) as (acts & m2 & es & E2 & HI2); [rewrite length_app; simpl; lia..|].
  exists (do_push a ++ acts), m2, ([Pushed a] ++ es). rewrite exec_app, E1. cbn [res_bind]. rewrite E2.
  split; [done|]. by rewrite <- app_assoc in HI2.
Qed.

(** The position after the last one is 0 again; its chunk may be occupied. *)
Lemma wrap_panics m rd q a :
  inv (mkSystem m None None) rd q -> length q < n -> (Z.of_nat (S (rd + length q)) = 2 ^ 32)%Z ->
  (exists d, d < length q /\ index (S (rd + d)) = 0) ->
  exec [CallPush a; StepPush; StepPush; StepPush] (mkSystem m None None) = Panic.
Proof.
  intros HI Hl Hw (d & Hd & Hi). pose proof (begin_write_space _ _ _ HI) as Hb. cbn [memory] in Hb.
  rewrite decide_False in Hb by lia. pose proof (inv_wr _ _ _ HI) as Hwr. cbn in Hwr.
  assert (u32 (Z.of_nat (S (rd + length q))) = 0%Z) as E0 by (rewrite Hw; done).
  rewrite E0 in Hb, Hwr. rewrite Zmod_0_l in Hb. change (Z.to_nat 0) with 0 in Hb. pose proof (inv_chunks _ _ _ HI d ltac:(lia)) as Hc. rewrite Hi in Hc.
  cbn [memory] in Hc. unfold content in Hc. cbn in Hc.
  destruct (lookup_lt_is_Some_2 q d Hd) as [x Hx]. rewrite Hx, andb_false_r in Hc.
  cbn. rewrite Hwr, Hb. cbn. unfold construct. by rewrite Hc.
Qed.

End Size.

End Fifo.

(** * Theorems *)

Definition pushed {A} (es : list (Event A)) : list A :=
  omap (fun e => match e with Pushed a => Some a | _ => None end) es.

Definition popped {A} (es : list (Event A)) : list A :=
  omap (fun e => match e with Popped a => Some a | _ => None end) es.

Lemma spsc_replay_fifo {A} n (q q' : list A) es : replay n q es q' -> q ++ pushed es = popped es ++ q'.
Proof.
  unfold pushed, popped. induction 1 as [|[a| |a|] es q1 q2 q3 He Hr IH]; cbn in *.
  - by rewrite app_nil_r.
  - destruct He as [_ ->]. by rewrite <- app_assoc in IH.
  - by destruct He as [_ ->].
  - subst q1. cbn. by rewrite IH.
  - by destruct He as [-> ->].
Qed.

(** C21: the ring buffer is a queue of [n] elements.  However the accesses of the producer
    and of the consumer interleave, no element is constructed over a live one or read from
    raw memory, elements are returned once each and in order, a call is refused only when
    the queue is full or empty, and the buffer can be destroyed when both threads are done.
    This holds for any number of calls if [n] plus one divides 2^32, and for 2^32 - 1 calls
    of [push_back] otherwise. *)
Theorem spsc_ring_buffer_fifo {A : Type} (n : nat) (acts : list (Action A)) :
  (Z.of_nat (S n) < 2 ^ 32)%Z ->
  (2 ^ 32 mod Z.of_nat (S n) = 0)%Z \/ (Z.of_nat (calls acts) < 2 ^ 32)%Z ->
  exists s es q, exec acts (make n) = Ok (s, es)
    /\ replay n [] es q /\ pushed es = popped es ++ q /\ length q <= n
    /\ (producer s = None -> consumer s = None -> exists m, destroy n (memory s) = Ok m).
Proof.
  intros Hn Hc. destruct (spsc_exec_ok n Hn acts (make n) 0 [] (spsc_make_inv n Hn)) as (s & es & rd & q & E & HI & Hr & Hb).
  { destruct Hc as [|Hc]; [by left|right; exact Hc]. }
  exists s, es, q. split; [done|]. split; [done|]. split; [by apply spsc_replay_fifo in Hr|].
  pose proof (inv_fits _ _ _ _ HI) as Hl. split; [done|].
  intros Hp Hcs. destruct s as [m p c]. cbn in Hp, Hcs. subst p c. cbn [memory].
  eapply (destroy_ok n Hn q m rd n HI); [|done].
  intros _. destruct Hc as [|Hc]; [by left|right]. cbn in Hb. lia.
Qed.

Lemma spsc_ring_buffer_fifo_witness :
  exists s, exec [CallPush 7; StepPush; CallPop; StepPop; StepPush; StepPop; StepPush; StepPush;
      CallPop; StepPop; StepPop; StepPop; StepPop] (make 3) = Ok (s, [Empty; Pushed 7; Popped 7])
    /\ exists q, pushed [Empty; Pushed 7; Popped 7] = popped [Empty; Pushed 7; Popped 7] ++ q.
Proof.
  destruct (spsc_ring_buffer_fifo 3 [CallPush 7; StepPush; CallPop; StepPop; StepPush; StepPop; StepPush;
    StepPush; CallPop; StepPop; StepPop; StepPop; StepPop]) as (s & es & q & E & _ & H & _).
  - reflexivity.
  - left. reflexivity.
  - vm_compute in E. injection E as <- <-. eexists. split; [reflexivity|]. exists q. exact H.
Defined.


