(* ===== verification/MovStatsWindow.v ===== *)
(** The statistics of roc_core/mov_stats.h are those of the window.

    The two queues are wedges: a queue holds the samples of the window that no later sample
    beats, so its first element is the extremum of the window.  [wedge] is that list,
    [slide_wedge] shows that one step of the queue keeps it, and the ring buffers are the
    window rotated by the cursor. *)

From stdpp Require Import sorting.
From S2P Require Import Prelude RingQueue MovStats.
Import MovStats.

(** The last [w] samples. *)
Definition window (w : nat) (xs : list Z) : list Z := drop (length xs - w) xs.

(** The window after one more sample. *)
Definition shift (w : nat) (V : list Z) (x : Z) : list Z :=
  (if decide (length V < w)%nat then V else tail V) ++ [x].

Definition sum (l : list Z) : Z := foldr Z.add 0 l.

(** The reference definitions of the statistics. *)
Definition maximum (V : list Z) : Z :=
  match V with [] => 0 | v :: V => foldr Z.max v V end.

Definition minimum (V : list Z) : Z :=
  match V with [] => 0 | v :: V => foldr Z.min v V end.

Definition average (V : list Z) : Z :=
  match V with [] => 0 | _ => Z.quot (sum V) (Z.of_nat (length V)) end.

(** * Windows *)

Lemma tail_drop_S {A} n (l : list A) : tail (drop n l) = drop (S n) l.
Proof. revert l. induction n as [|n IH]; intros [|y l]; cbn; by rewrite ?IH. Qed.

Lemma window_snoc w xs x : (0 < w)%nat -> window w (xs ++ [x]) = shift w (window w xs) x.
Proof.
  intros Hw. unfold window, shift. rewrite length_app, length_drop. cbn [length].
  case_decide.
  - replace (length xs + 1 - w)%nat with 0%nat by lia.
    by replace (length xs - w)%nat with 0%nat by lia.
  - rewrite drop_app_le by lia. f_equal. rewrite tail_drop_S. f_equal. lia.
Qed.

(** * Wedges *)

Section Wedge.

Variable worse : Z -> Z -> bool.

Hypothesis worse_irrefl : forall a, worse a a = false.
Hypothesis worse_trans : forall a b c, worse a b = true -> worse b c = true -> worse a c = true.
Hypothesis worse_total : forall a b, worse a b = false -> worse b a = false -> a = b.

(** The samples that no later sample beats. *)
Fixpoint wedge (V : list Z) : list Z :=
  match V with
  | [] => []
  | v :: V => if existsb (worse v) V then wedge V else v :: wedge V
  end.

Lemma worse_mix a b x : worse a x = true -> worse b x = false -> worse a b = true.
Proof using worse_trans worse_total.
  intros Ha Hb. destruct (worse x b) eqn:Exb; [by eapply worse_trans|].
  by rewrite <- (worse_total x b Exb Hb).
Qed.

Definition survives (x : Z) (v : Z) : Prop := worse v x = false.

#[local] Instance survives_dec x v : Decision (survives x v).
Proof. unfold survives. apply _. Defined.

Lemma wedge_snoc V x : wedge (V ++ [x]) = filter (survives x) (wedge V) ++ [x].
Proof.
  induction V as [|v V IH]; cbn; [done|]. rewrite existsb_app, IH. cbn.
  rewrite orb_false_r. destruct (existsb (worse v) V) eqn:E; cbn [orb]; [done|].
  destruct (worse v x) eqn:Ex.
  - rewrite filter_cons_False; [done|]. unfold survives. congruence.
  - by rewrite filter_cons_True.
Qed.

Lemma wedge_elem V u : u ∈ wedge V -> u ∈ V.
Proof.
  induction V as [|v V IH]; cbn; [done|]. destruct existsb; set_solver.
Qed.

Lemma wedge_length V : (length (wedge V) <= length V)%nat.
Proof. induction V as [|v V IH]; cbn; [lia|]. destruct existsb; cbn; lia. Qed.

Lemma existsb_worse_false v V u : existsb (worse v) V = false -> u ∈ V -> worse v u = false.
Proof.
  intros E Hu. destruct (worse v u) eqn:Ev; [|done]. rewrite <- E. symmetry.
  apply existsb_exists. exists u. by rewrite <- list_elem_of_In.
Qed.

(** The first element of the wedge is the extremum of the window. *)
Lemma wedge_best V :
  V <> [] -> exists m l, wedge V = m :: l /\ m ∈ V /\ forall u, u ∈ V -> worse m u = false.
Proof.
  induction V as [|v V IH]; intros HV; [done|]. cbn. destruct (existsb (worse v) V) eqn:E.
  - apply existsb_exists in E as (u & Hu%list_elem_of_In & Hvu).
    destruct IH as (m & l & Hw & Hm & Hbest); [by intros ->; inversion Hu|].
    exists m, l. split; [done|]. split; [by right|].
    intros u' [->|Hu']%elem_of_cons; [|by apply Hbest].
    destruct (worse m v) eqn:Emv; [|done].
    by rewrite <- (worse_trans _ _ _ Emv Hvu), Hbest.
  - exists v, (wedge V). split; [done|]. split; [by left|].
    intros u [->|Hu]%elem_of_cons; [done|]. by eapply existsb_worse_false.
Qed.

(** The wedge after the oldest sample has left. *)
Lemma wedge_evict v V :
  wedge (v :: V) = v :: wedge V \/
  (wedge (v :: V) = wedge V /\ exists m l, wedge V = m :: l /\ m <> v).
Proof.
  cbn. destruct (existsb (worse v) V) eqn:E; [right|by left]. split; [done|].
  apply existsb_exists in E as (u & Hu%list_elem_of_In & Hvu).
  destruct (wedge_best V) as (m & l & Hw & _ & Hbest); [by intros ->; inversion Hu|].
  exists m, l. split; [done|]. intros ->. rewrite Hbest in Hvu by done. done.
Qed.

Definition steady (l : list Z) : Prop := StronglySorted (fun a b => worse a b = false) l.

Lemma wedge_steady V : steady (wedge V).
Proof.
  induction V as [|v V IH]; cbn; [constructor|]. destruct existsb eqn:E; [done|].
  constructor; [done|]. apply Forall_forall. intros u Hu%wedge_elem.
  by eapply existsb_worse_false.
Qed.

Lemma list_filter_all (P : Z -> Prop) `{forall z, Decision (P z)} (l : list Z) :
  (forall a, a ∈ l -> P a) -> filter P l = l.
Proof.
  induction l as [|a l IH]; intros Hl; [done|].
  rewrite filter_cons_True by (apply Hl; left). f_equal. apply IH.
  intros b Hb. apply Hl. by right.
Qed.

Lemma list_filter_none (P : Z -> Prop) `{forall z, Decision (P z)} (l : list Z) :
  (forall a, a ∈ l -> P a -> False) -> filter P l = [].
Proof.
  induction l as [|a l IH]; intros Hl; [done|].
  rewrite filter_cons_False by (intros Ha; apply (Hl a); [left|done]). apply IH.
  intros b Hb. apply Hl. by right.
Qed.

(** What survives [x] is a prefix: the loop may stop at the first survivor. *)
Lemma survives_prefix l b x :
  steady (l ++ [b]) -> survives x b -> filter (survives x) (l ++ [b]) = l ++ [b].
Proof.
  unfold survives. intros Hl Hb. apply list_filter_all.
  intros a [Ha| ->%list_elem_of_singleton]%elem_of_app; [|done].
  destruct (worse a x) eqn:Ea; [|done].
  assert (Hab : worse a b = false).
  { induction l as [|a' l IH]; [set_solver|]. inversion_clear Hl as [|? ? Hs Hf].
    apply elem_of_cons in Ha as [->|Ha]; [|by apply IH].
    rewrite Forall_forall in Hf. apply Hf. set_solver. }
  by rewrite (worse_mix a b x) in Hab.
Qed.

Lemma pop_worse_ok fuel q l x :
  RingQueue.holds q l -> steady l -> (length l < fuel)%nat ->
  exists q', pop_worse worse fuel q x = ret q' /\
    RingQueue.buff_len_ q' = RingQueue.buff_len_ q /\
    RingQueue.holds q' (filter (survives x) l).
Proof.
  revert q l. induction fuel as [|fuel IH]; intros q l Hq Hl Hf; [lia|]. cbn.
  destruct l as [|b l _] using rev_ind.
  { rewrite (RingQueue.is_empty_spec q [] Hq). cbn. eauto. }
  rewrite (RingQueue.is_empty_app q l b Hq), (RingQueue.back_ok q l b Hq). cbn [res_bind].
  destruct (worse b x) eqn:Eb.
  - destruct (RingQueue.pop_back_ok q l b Hq) as (q1 & -> & Hn1 & Hq1). cbn [res_bind].
    rewrite length_app in Hf. cbn in Hf.
    destruct (IH q1 l Hq1) as (q' & -> & Hn & Hq'); [|lia|].
    { by eapply StronglySorted_app_1_l. }
    exists q'. split; [done|]. split; [congruence|].
    rewrite filter_app, filter_cons_False, app_nil_r; [done|]. unfold survives. congruence.
  - exists q. split; [done|]. split; [done|]. by rewrite survives_prefix.
Qed.

(** The part of a step after the oldest sample has left: [x] goes in. *)
Lemma slide_push w q V x curr :
  (length V < w)%nat -> RingQueue.buff_len_ q = Z.of_nat w + 1 ->
  RingQueue.holds q (wedge V) -> (V <> [] -> head (wedge V) = Some curr) ->
  exists q1 q', pop_worse worse (S (Z.to_nat (RingQueue.capacity q))) q x = ret q1 /\
    RingQueue.push_back q1 x = Ok q' /\
    RingQueue.buff_len_ q' = RingQueue.buff_len_ q /\
    RingQueue.holds q' (wedge (V ++ [x])) /\
    head (wedge (V ++ [x])) = Some (if RingQueue.is_empty q1 then x else curr).
Proof using All.
  intros Hw Hn Hq Hc. pose proof (wedge_length V).
  destruct (pop_worse_ok (S (Z.to_nat (RingQueue.capacity q))) q (wedge V) x Hq)
    as (q1 & -> & Hn1 & Hq1); [apply wedge_steady|unfold RingQueue.capacity; lia|].
  destruct (RingQueue.push_back_ok q1 _ x Hq1) as (q' & Hp & Hn' & Hq').
  exists q1, q'. split; [done|]. split; [done|]. split; [congruence|].
  pose proof (length_filter (survives x) (wedge V)).
  rewrite wedge_snoc. unfold RingQueue.bounded in Hq'.
  rewrite length_app in Hq'. cbn [length] in Hq'.
  rewrite (proj2 (Z.eqb_neq _ _)) in Hq' by lia. split; [done|].
  rewrite (RingQueue.is_empty_spec q1 _ Hq1). case_bool_decide as E; [by rewrite E|].
  assert (V <> []) as HV by (intros ->; done). specialize (Hc HV).
  pose proof (wedge_steady V) as Hst.
  destruct (wedge V) as [|m l]; [done|]. injection Hc as ->.
  destruct (decide (survives x curr)) as [Hs|Hs]; [by rewrite filter_cons_True|].
  exfalso. apply E. rewrite filter_cons_False by done.
  apply list_filter_none. intros u Hu Hux. apply Hs. unfold survives in *.
  destruct (worse curr x) eqn:Ecx; [|done].
  inversion_clear Hst as [|? ? _ Hf]. rewrite Forall_forall in Hf.
  specialize (Hf u Hu). by rewrite (worse_mix curr u x Ecx Hux) in Hf.
Qed.

(** One step of a queue, when its first element is compared with the sample that leaves the
    window, or with a value that is not in the window. *)
Lemma slide_wedge w q V curr x x_old :
  (0 < w)%nat -> (length V <= w)%nat -> RingQueue.buff_len_ q = Z.of_nat w + 1 ->
  RingQueue.holds q (wedge V) -> (V <> [] -> head (wedge V) = Some curr) ->
  (if decide (length V < w)%nat then x_old ∉ V else head V = Some x_old) ->
  exists q' curr', slide worse q curr x x_old = ret (q', curr') /\
    RingQueue.buff_len_ q' = RingQueue.buff_len_ q /\
    RingQueue.holds q' (wedge (shift w V x)) /\ head (wedge (shift w V x)) = Some curr'.
Proof using All.
  intros Hw HV Hn Hq Hc Hx. unfold slide, shift.
  destruct V as [|v V].
  { rewrite (RingQueue.is_empty_spec q _ Hq), decide_True by (cbn; lia).
    destruct (RingQueue.push_back_ok q _ x Hq) as (q' & Hp & Hn' & Hq').
    unfold RingQueue.bounded in Hq'.
    change (Z.of_nat (length (wedge [] ++ [x]))) with 1 in Hq'.
    rewrite (proj2 (Z.eqb_neq _ _)) in Hq' by lia.
    rewrite bool_decide_true by done. rewrite Hp. exists q', x. done. }
  destruct (wedge_best (v :: V)) as (m & l & Em & Hm & _); [done|].
  assert (m = curr) as -> by (specialize (Hc ltac:(done)); rewrite Em in Hc; cbn in Hc; congruence).
  rewrite Em in Hq. rewrite (RingQueue.is_empty_cons q _ _ Hq), (RingQueue.front_ok q _ _ Hq).
  cbn [res_bind]. case_decide as HVw.
  - rewrite (proj2 (Z.eqb_neq curr x_old)) by (intros ->; done). cbn [ret run_bind].
    rewrite <- Em in Hq.
    destruct (slide_push w q (v :: V) x curr HVw Hn Hq Hc) as (q1 & q' & -> & Hp & Hn' & Hq' & Hh).
    cbn [ret run_bind]. rewrite Hp. cbn [res_bind]. eauto 10.
  - cbn in Hx. injection Hx as ->. cbn [tail].
    destruct (wedge_evict x_old V) as [E|[E (m & l' & Em' & Hne)]].
    + rewrite Em in E. injection E as -> ->. rewrite Z.eqb_refl.
      destruct (RingQueue.pop_front_ok q _ _ Hq) as (q0 & -> & Hn0 & Hq0). cbn [res_bind].
      set (curr0 := match wedge V with [] => x | c :: _ => c end).
      assert ((if RingQueue.is_empty q0 then ret (q0, x)
               else let* f := RingQueue.front q0 in ret (q0, f)) = ret (q0, curr0)) as ->.
      { unfold curr0. destruct (wedge V) as [|c l] eqn:EV.
        - by rewrite (RingQueue.is_empty_spec q0 _ Hq0).
        - by rewrite (RingQueue.is_empty_cons q0 _ _ Hq0), (RingQueue.front_ok q0 _ _ Hq0). }
      cbn [ret run_bind].
      destruct (slide_push w q0 V x curr0) as (q1 & q' & -> & Hp & Hn' & Hq' & Hh);
        [cbn in *; lia|congruence|done| |].
      { intros HV'. unfold curr0. destruct (wedge_best V HV') as (c & l & -> & _). done. }
      cbn [ret run_bind]. rewrite Hp. cbn [res_bind].
      do 2 eexists. split; [done|]. split; [congruence|]. done.
    + rewrite Em in E. rewrite Em' in E. injection E as -> ->.
      rewrite (proj2 (Z.eqb_neq m x_old)) by done. cbn [ret run_bind].
      rewrite <- Em' in Hq.
      destruct (slide_push w q V x m) as (q1 & q' & -> & Hp & Hn' & Hq' & Hh);
        [cbn in *; lia|done|done|by rewrite Em'|].
      cbn [ret run_bind]. rewrite Hp. cbn [res_bind]. eauto 10.
Qed.

End Wedge.

(** * Ring buffers *)

(** The buffer of a window [W] with the cursor at [i]. *)
Definition rot (W : list Z) (i : nat) : list Z :=
  drop (length W - i) W ++ take (length W - i) W.

Lemma rot_length W i : length (rot W i) = length W.
Proof. unfold rot. rewrite length_app, length_drop, length_take. lia. Qed.

Lemma rot_get x W i : (i < S (length W))%nat -> rot (x :: W) i !! i = Some x.
Proof.
  intros Hi. unfold rot. rewrite lookup_app_r; rewrite length_drop; cbn [length]; [|lia].
  replace (S (length W) - i)%nat with (S (length W - i)) by lia. cbn.
  by replace (i - (length W - (length W - i)))%nat with 0%nat by lia.
Qed.

Lemma rot_set x y W i :
  (i < S (length W))%nat ->
  <[i := y]> (rot (x :: W) i) = rot (W ++ [y]) (if bool_decide (S i = S (length W)) then 0 else S i).
Proof.
  intros Hi. unfold rot. rewrite length_app. cbn [length].
  replace (S (length W) - i)%nat with (S (length W - i)) by lia. cbn [drop take].
  rewrite insert_app_r_alt; rewrite length_drop; [|lia].
  replace (i - (length W - (length W - i)))%nat with 0%nat by lia. cbn [insert list_insert].
  case_bool_decide.
  - replace (length W - i)%nat with 0%nat by lia.
    rewrite drop_0, take_0, Nat.sub_0_r, drop_ge, take_ge; rewrite ?length_app; cbn; done || lia.
  - replace (length W + 1 - S i)%nat with (length W - i)%nat by lia.
    rewrite drop_app_le, take_app_le by lia. by rewrite <- app_assoc.
Qed.

(** The window with the zeros that the buffers hold before the first samples. *)
Definition padded (w : nat) (V : list Z) : list Z := repeat 0 (w - length V) ++ V.

Lemma padded_length w V : (length V <= w)%nat -> length (padded w V) = w.
Proof. intros. unfold padded. rewrite length_app, repeat_length. lia. Qed.

Lemma padded_shift w V x :
  (0 < w)%nat -> (length V <= w)%nat ->
  exists x_old W, padded w V = x_old :: W /\ padded w (shift w V x) = W ++ [x] /\
    (if decide (length V < w)%nat then x_old = 0 else head V = Some x_old).
Proof.
  intros Hw HV. unfold padded, shift. case_decide.
  - exists 0, (repeat 0 (w - length V - 1) ++ V). split.
    { destruct (w - length V)%nat as [|n] eqn:E; [lia|]. cbn. by rewrite Nat.sub_0_r. }
    split; [|done]. rewrite length_app. cbn [length]. rewrite <- app_assoc.
    do 2 f_equal. lia.
  - destruct V as [|v V]; [cbn in *; lia|]. exists v, V. cbn [length tail] in *.
    rewrite length_app. cbn [length]. split; [|split; [|done]].
    + replace (w - S (length V))%nat with 0%nat by lia. done.
    + replace (w - (length V + 1))%nat with 0%nat by lia. done.
Qed.

(** * Sums *)

Definition sq (x : Z) : Z := x * x.

Lemma sum_app l1 l2 : sum (l1 ++ l2) = sum l1 + sum l2.
Proof. induction l1 as [|x l1 IH]; cbn; [done|]. unfold sum in *. lia. Qed.

Lemma sum_padded w V : sum (padded w V) = sum V.
Proof.
  unfold padded. rewrite sum_app. induction (w - length V)%nat as [|n IH]; [done|].
  unfold sum in *. cbn. lia.
Qed.

Lemma sum_sq_padded w V : sum (map sq (padded w V)) = sum (map sq V).
Proof.
  unfold padded. rewrite map_app, sum_app. induction (w - length V)%nat as [|n IH]; [done|].
  unfold sum, sq in *. cbn. lia.
Qed.

Lemma sum_bound B l :
  Forall (fun x => Z.abs x <= B) l -> Z.abs (sum l) <= Z.of_nat (length l) * B.
Proof. induction 1; cbn [length]; [done|]. unfold sum in *. cbn. lia. Qed.

Lemma int64_ok z : Z.abs z < 2 ^ 63 -> int64 z = Ok z.
Proof. intros. unfold int64. rewrite bool_decide_true; [done|]. unfold is_s. lia. Qed.

(** * Extrema *)

Lemma maximum_spec V : V <> [] -> maximum V ∈ V /\ forall u, u ∈ V -> u <= maximum V.
Proof.
  destruct V as [|v V]; [done|]. intros _. cbn. induction V as [|x V [IHin IHle]]; cbn.
  { split; [left|]. intros u [->|Hu]%elem_of_cons; [lia|inversion Hu]. }
  split.
  - destruct (Z.max_spec x (foldr Z.max v V)) as [[_ ->]|[_ ->]]; [|right; left].
    apply elem_of_cons in IHin as [->|IHin]; [left|by do 2 right].
  - intros u [->|[->|Hu]%elem_of_cons]%elem_of_cons; [|lia|].
    + specialize (IHle v (list_elem_of_here _ _)). lia.
    + specialize (IHle u (list_elem_of_further _ _ _ Hu)). lia.
Qed.

Lemma minimum_spec V : V <> [] -> minimum V ∈ V /\ forall u, u ∈ V -> minimum V <= u.
Proof.
  destruct V as [|v V]; [done|]. intros _. cbn. induction V as [|x V [IHin IHle]]; cbn.
  { split; [left|]. intros u [->|Hu]%elem_of_cons; [lia|inversion Hu]. }
  split.
  - destruct (Z.min_spec x (foldr Z.min v V)) as [[_ ->]|[_ ->]]; [right; left|].
    apply elem_of_cons in IHin as [->|IHin]; [left|by do 2 right].
  - intros u [->|[->|Hu]%elem_of_cons]%elem_of_cons; [|lia|].
    + specialize (IHle v (list_elem_of_here _ _)). lia.
    + specialize (IHle u (list_elem_of_further _ _ _ Hu)). lia.
Qed.

Lemma maximum_unique V m : m ∈ V -> (forall u, u ∈ V -> u <= m) -> maximum V = m.
Proof.
  intros Hm Hb. destruct (maximum_spec V) as [Hin Hle]; [by intros ->; inversion Hm|].
  specialize (Hb _ Hin). specialize (Hle _ Hm). lia.
Qed.

Lemma minimum_unique V m : m ∈ V -> (forall u, u ∈ V -> m <= u) -> minimum V = m.
Proof.
  intros Hm Hb. destruct (minimum_spec V) as [Hin Hle]; [by intros ->; inversion Hm|].
  specialize (Hb _ Hin). specialize (Hle _ Hm). lia.
Qed.

(** * The invariant *)

Section Stats.

Variables (w : nat) (B : Z).

Hypothesis w_pos : (0 < w)%nat.
Hypothesis w_size : Z.of_nat w + 1 < 2 ^ 63.
Hypothesis B_pos : 0 < B.
Hypothesis no_overflow : Z.of_nat w * (B * B) < 2 ^ 62.

(** [V] is the window of [s]. *)
Record inv (s : t) (V : list Z) : Prop := {
  i_win : win_len_ s = w;
  i_len : (length V <= w)%nat;
  i_cursor : (buffer_i_ s < w)%nat;
  i_buffer : buffer_ s = rot (padded w V) (buffer_i_ s);
  i_buffer2 : buffer2_ s = rot (map sq (padded w V)) (buffer_i_ s);
  i_sum : movsum_ s = sum V;
  i_sum2 : movsum2_ s = sum (map sq V);
  i_full : full_ s = bool_decide (length V = w);
  i_count : (length V < w)%nat -> buffer_i_ s = length V;
  i_max_len : RingQueue.buff_len_ (queue_max_ s) = Z.of_nat w + 1;
  i_max : RingQueue.holds (queue_max_ s) (wedge Z.ltb V);
  i_curr_max : V <> [] -> head (wedge Z.ltb V) = Some (curr_max_ s);
  i_min_len : RingQueue.buff_len_ (queue_min_ s) = Z.of_nat w + 1;
  i_min : RingQueue.holds (queue_min_ s) (wedge Z.gtb V);
  i_curr_min : V <> [] -> head (wedge Z.gtb V) = Some (curr_min_ s)
}.

Abbreviation small := (Forall (fun x => Z.abs x <= B)).

Lemma shift_length V x : (length V <= w)%nat -> (length (shift w V x) <= w)%nat.
Proof using All.
  intros. unfold shift. case_decide; rewrite length_app; cbn [length]; [lia|].
  destruct V; cbn [length tail] in *; lia.
Qed.

Lemma shift_full V x :
  (length V <= w)%nat ->
  length (shift w V x) = (if decide (length V < w)%nat then S (length V) else w).
Proof using All.
  intros. unfold shift. case_decide; rewrite length_app; cbn [length]; [lia|].
  destruct V; cbn [length tail] in *; lia.
Qed.

Lemma shift_small V x : small V -> Z.abs x <= B -> small (shift w V x).
Proof using All.
  intros HV Hx. unfold shift. apply Forall_app. split; [|by constructor].
  case_decide; [done|]. destruct HV; [constructor|done].
Qed.

Lemma sum_sq_bound V : small V -> Z.abs (sum (map sq V)) <= Z.of_nat (length V) * (B * B).
Proof using All.
  intros HV. rewrite <- (length_map sq V). apply sum_bound. apply Forall_map.
  eapply Forall_impl; [done|]. cbn. unfold sq. nia.
Qed.

Lemma sums_fit V :
  small V -> (length V <= w)%nat ->
  Z.abs (sum V) < 2 ^ 63 /\ Z.abs (sum (map sq V)) < 2 ^ 63.
Proof using All.
  intros HV Hl. pose proof (sum_bound B V HV). pose proof (sum_sq_bound V HV). nia.
Qed.

(** The rings and the sums after one sample. *)
Lemma add_rings s V x :
  inv s V -> small V -> Z.abs x <= B ->
  exists x_old,
    (if decide (length V < w)%nat then x_old = 0 else head V = Some x_old) /\
    let i := buffer_i_ s in
    let i' := if bool_decide (S i = win_len_ s) then 0%nat else S i in
    array_get (buffer_ s) i = Ok x_old /\
    array_set (buffer_ s) i x = Ok (rot (padded w (shift w V x)) i') /\
    array_get (buffer2_ s) i = Ok (sq x_old) /\
    array_set (buffer2_ s) i (sq x) = Ok (rot (map sq (padded w (shift w V x))) i') /\
    Z.abs x_old <= B /\
    movsum_ s + (x - x_old) = sum (shift w V x) /\
    movsum2_ s + (sq x - sq x_old) = sum (map sq (shift w V x)).
Proof using All.
  intros [] HV Hx. destruct (padded_shift w V x w_pos i_len0) as (x_old & W & HW & HW' & Hold).
  exists x_old. split; [done|]. cbn. rewrite i_win0.
  assert (HlW : w = S (length W)) by (rewrite <- (padded_length w V i_len0), HW; done).
  rewrite i_buffer0, i_buffer3, HW, HW', map_app. cbn [map].
  assert (Hlm : length (map sq W) = length W) by apply length_map.
  replace (bool_decide (S (buffer_i_ s) = w))
    with (bool_decide (S (buffer_i_ s) = S (length W))) by (apply bool_decide_ext; lia).
  split; [apply array_get_ok, rot_get; lia|].
  split; [rewrite array_set_ok by (rewrite rot_length; cbn; lia); f_equal; apply rot_set; lia|].
  split; [apply array_get_ok, rot_get; lia|].
  split.
  { rewrite array_set_ok by (rewrite rot_length; cbn; lia). f_equal. rewrite <- Hlm.
    apply rot_set. lia. }
  split.
  { case_decide; [subst x_old; lia|]. destruct HV; cbn in Hold; congruence || by injection Hold as <-. }
  rewrite i_sum0, i_sum3, <- (sum_padded w V), <- (sum_padded w (shift w V x)).
  rewrite <- (sum_sq_padded w V), <- (sum_sq_padded w (shift w V x)), HW, HW', map_app, !sum_app.
  unfold sum. cbn. lia.
Qed.

Lemma x_old_new V x_old :
  (if decide (length V < w)%nat then x_old = 0 else head V = Some x_old) ->
  ((length V < w)%nat -> 0 ∉ V) ->
  if decide (length V < w)%nat then x_old ∉ V else head V = Some x_old.
Proof using All. case_decide; [intros ->; auto|auto]. Qed.

Lemma slide_max_wedge q V curr x x_old :
  (length V <= w)%nat -> RingQueue.buff_len_ q = Z.of_nat w + 1 ->
  RingQueue.holds q (wedge Z.ltb V) -> (V <> [] -> head (wedge Z.ltb V) = Some curr) ->
  (if decide (length V < w)%nat then x_old ∉ V else head V = Some x_old) ->
  exists q' curr', slide Z.ltb q curr x x_old = ret (q', curr') /\
    RingQueue.buff_len_ q' = RingQueue.buff_len_ q /\
    RingQueue.holds q' (wedge Z.ltb (shift w V x)) /\
    head (wedge Z.ltb (shift w V x)) = Some curr'.
Proof using All. intros. apply slide_wedge; try done; intros; lia. Qed.

Lemma slide_min_wedge q V curr x x_old :
  (length V <= w)%nat -> RingQueue.buff_len_ q = Z.of_nat w + 1 ->
  RingQueue.holds q (wedge Z.gtb V) -> (V <> [] -> head (wedge Z.gtb V) = Some curr) ->
  (if decide (length V < w)%nat then x_old ∉ V else head V = Some x_old) ->
  exists q' curr', slide Z.gtb q curr x x_old = ret (q', curr') /\
    RingQueue.buff_len_ q' = RingQueue.buff_len_ q /\
    RingQueue.holds q' (wedge Z.gtb (shift w V x)) /\
    head (wedge Z.gtb (shift w V x)) = Some curr'.
Proof using All. intros. apply slide_wedge; try done; intros; lia. Qed.

Lemma add_ok s V x :
  inv s V -> small V -> Z.abs x <= B -> ((length V < w)%nat -> 0 ∉ V) ->
  exists s', add s x = ret s' /\ inv s' (shift w V x).
Proof using All.
  intros Hs HV Hx H0.
  destruct (add_rings s V x Hs HV Hx)
    as (x_old & Hold & Hg & Hst & Hg2 & Hst2 & HB & Hsum & Hsum2).
  pose proof (shift_full V x (i_len _ _ Hs)) as Hlen.
  destruct (sums_fit (shift w V x)) as [Hfit Hfit2];
    [by apply shift_small|apply shift_length, Hs|].
  assert (HBB : 2 * (B * B) < 2 ^ 63) by nia. pose proof (i_cursor _ _ Hs) as Hcur.
  unfold add. fold (sq x). rewrite (int64_ok (sq x)) by (unfold sq; nia). cbn [res_bind].
  rewrite Hg, Hst, Hg2, Hst2. cbn [res_bind].
  rewrite (int64_ok (x - x_old)) by nia. cbn [res_bind]. rewrite Hsum.
  rewrite (int64_ok (sum _)) by done. cbn [res_bind].
  rewrite (int64_ok (sq x - sq x_old)) by (unfold sq; nia). cbn [res_bind].
  rewrite Hsum2, (int64_ok (sum _)) by done. cbn [res_bind].
  pose proof (x_old_new V x_old Hold H0) as Hx_old. destruct Hs.
  unfold slide_max_. cbn [queue_max_ curr_max_].
  destruct (slide_max_wedge (queue_max_ s) V (curr_max_ s) x x_old)
    as (q1 & c1 & -> & Hn1 & Hq1 & Hc1); try done.
  unfold slide_min_. cbn [ret run_bind queue_min_ curr_min_].
  destruct (slide_min_wedge (queue_min_ s) V (curr_min_ s) x x_old)
    as (q2 & c2 & -> & Hn2 & Hq2 & Hc2); try done.
  eexists. split; [done|]. clear Hg Hst Hg2 Hst2 Hold Hx_old. rewrite i_win0.
  split; cbn; try congruence; try done.
  - by apply shift_length.
  - clear i_full0. case_bool_decide; lia.
  - rewrite i_full0, Hlen. clear i_full0. case_decide; repeat case_bool_decide; try done; lia.
  - rewrite Hlen. clear i_full0. case_decide; case_bool_decide; lia.
Qed.

(** Samples after [xs0] were added. *)
Lemma feed_ok s xs0 xs :
  inv s (window w xs0) -> small (xs0 ++ xs) -> 0 ∉ take (w - 1) (xs0 ++ xs) ->
  exists s', feed s xs = ret s' /\ inv s' (window w (xs0 ++ xs)).
Proof using All.
  revert s xs0. induction xs as [|x xs IH]; intros s xs0 Hs HB H0.
  { rewrite app_nil_r. eexists. done. }
  cbn. apply Forall_app in HB as [HB0 [HBx HB]%Forall_cons].
  destruct (add_ok s (window w xs0) x) as (s1 & -> & Hs1).
  - done.
  - by apply Forall_drop.
  - done.
  - unfold window. rewrite length_drop. intros Hl Hin. apply H0.
    rewrite take_app, elem_of_app. left.
    rewrite take_ge by lia. by replace (length xs0 - w)%nat with 0%nat in Hin by lia.
  - cbn [ret run_bind]. rewrite cons_middle, app_assoc in *. apply IH.
    + by rewrite window_snoc.
    + rewrite !Forall_app, Forall_singleton. done.
    + done.
Qed.

Lemma make_inv : exists s, make all_memory w = Ok s /\ inv s [].
Proof using All.
  unfold make. rewrite wrap_u_small by (unfold is_u; lia).
  destruct (RingQueue.make_ok (T := Z) (Z.of_nat w + 1)) as (q & Hq & Hn & Hh); [lia|].
  cbn [m_queue_max m_queue_min m_buffer m_buffer2 all_memory]. rewrite Hq. cbn [res_bind].
  rewrite decide_False by lia.
  assert (RingQueue.is_valid q = true) as ->.
  { unfold RingQueue.is_valid. destruct Hh as [_ _ _ _ (b & -> & _)]. done. }
  cbn [negb orb]. eexists. split; [done|].
  assert (Hpad : padded w [] = repeat 0 w) by (unfold padded; rewrite app_nil_r; f_equal; cbn; lia).
  assert (Hmap : map sq (repeat 0 w) = repeat 0 w) by (rewrite map_repeat; done).
  assert (Hrot : rot (repeat 0 w) 0 = repeat 0 w).
  { unfold rot. rewrite Nat.sub_0_r, drop_ge, take_ge by lia. done. }
  split; cbn; rewrite ?Hpad, ?Hmap, ?Hrot; try done; try lia.
  symmetry. apply bool_decide_eq_false. lia.
Qed.

(** The statistics of the invariant's window. *)
Lemma inv_max s V : inv s V -> V <> [] -> mov_max s = maximum V.
Proof using All.
  intros Hs HV. destruct (wedge_best Z.ltb) with V as (m & l & Hm & Hin & Hb); try done; try lia.
  pose proof (i_curr_max _ _ Hs HV) as Hc. rewrite Hm in Hc. injection Hc as ->.
  unfold mov_max. symmetry. apply maximum_unique; [done|].
  intros u Hu. specialize (Hb u Hu). lia.
Qed.

Lemma inv_min s V : inv s V -> V <> [] -> mov_min s = minimum V.
Proof using All.
  intros Hs HV. destruct (wedge_best Z.gtb) with V as (m & l & Hm & Hin & Hb); try done; try lia.
  pose proof (i_curr_min _ _ Hs HV) as Hc. rewrite Hm in Hc. injection Hc as ->.
  unfold mov_min. symmetry. apply minimum_unique; [done|].
  intros u Hu. specialize (Hb u Hu). lia.
Qed.

Lemma inv_avg s V : inv s V -> mov_avg s = average V.
Proof using All.
  intros []. unfold mov_avg, average. rewrite i_full0, i_sum0, i_win0. clear i_full0.
  case_bool_decide as Hw; [destruct V; [cbn in Hw; lia|by rewrite Hw]|].
  rewrite i_count0 by lia. by destruct V.
Qed.

Lemma observe_window xs :
  small xs -> 0 ∉ take (w - 1) xs -> xs <> [] ->
  observe w xs = ret (minimum (window w xs), maximum (window w xs), average (window w xs)).
Proof using All.
  intros HB H0 Hxs. unfold observe. destruct make_inv as (s & -> & Hs). cbn [res_bind].
  destruct (feed_ok s [] xs) as (s' & -> & Hs'); [done|done|done|]. cbn [ret run_bind app] in *.
  assert (window w xs <> []) as HV.
  { intros E%(f_equal length). unfold window in E. rewrite length_drop in E.
    destruct xs; cbn in *; [done|lia]. }
  by rewrite (inv_min _ _ Hs' HV), (inv_max _ _ Hs' HV), (inv_avg _ _ Hs').
Qed.

End Stats.

(** C32: after samples [xs] of which the first [w - 1] are not 0, and that are at most [B]
    in magnitude with [w * B * B < 2^62], the minimum, the maximum and the average that the
    incremental computation reports are those of the last [w] samples, computed from
    scratch, and no panic, no overflow of the accumulators and no overflow of the queues
    happened.  The hypothesis on zeros is needed: while the window fills up, the sample that
    leaves it is read from the zeroed buffer, so a zero is taken for the one that leaves
    (see [zero_leaves_early]). *)
Theorem mov_stats_window w B xs :
  (0 < w)%nat -> Z.of_nat w + 1 < 2 ^ 63 -> 0 < B -> Z.of_nat w * (B * B) < 2 ^ 62 ->
  Forall (fun x => Z.abs x <= B) xs -> 0 ∉ take (w - 1) xs -> xs <> [] ->
  observe w xs = ret (minimum (window w xs), maximum (window w xs), average (window w xs)).
Proof. intros. by apply observe_window with B. Qed.

Lemma mov_stats_window_witness : observe 3 [4; 1; -3; 0; 2; 2; -7] = ret (-7, 2, -1).
Proof.
  rewrite (mov_stats_window 3 7 [4; 1; -3; 0; 2; 2; -7]);
    [reflexivity|lia|lia|lia|lia|closed|closed|discriminate].
Defined.

(** A zero that is still in the window is dropped: the minimum of [0; 1] is reported as 1
    in a window of five, and the minimum of the full window [0; 1] of two as well. *)
Lemma zero_leaves_early :
  observe 5 [0; 1] = ret (1, 1, 0) /\ observe 2 [0; 0; 1] = ret (1, 1, 0).
Proof. split; reflexivity. Qed.

(** After the window was extended, the samples beyond the cursor, which the new sum leaves
    out, are subtracted again when the cursor passes them, and the window keeps its old
    length: of the samples 10, 20, 30 | 40, the average of the last two is 35. *)
Lemma extended_window_wrong :
  (let* s := make all_memory 2 in
   let! s := feed s [10; 20; 30] in
   let* ' (s, ok) := extend_win s true true 4 in
   let! s := feed s [40] in
   ret (ok, win_len_ s, mov_avg s)) = ret (true, 2%nat, 25).
Proof. reflexivity. Qed.
