(* ===== verification/Strings.v ===== *)
(** Growing arrays and strings: roc_core/array.h ([core::Array]), roc_core/string_buffer.cpp
    ([StringBuffer]) and roc_core/string_builder.cpp ([StringBuilder] and its writers).

    A [char] is the value of its byte.  Sizes are [nat]s: an array is in memory, so no size
    comes near [2^64].  The arena is a parameter of the model: whether the [n]-th allocation
    that is asked for succeeds is any function of [n].

    [StringBuilder.represents] says what a builder holds after the string [p] was appended
    to it; [StringBuilder.append__ok] shows that appending keeps it, for every
    kind of buffer, size of the buffer and pattern of allocation failures. *)

From S2P Require Import Prelude.

(** core::IArena *)
Record arena : Type := { grants : nat -> bool; asked : nat }.

Definition ask (a : arena) : arena * bool :=
  ({| grants := grants a; asked := S (asked a) |}, grants a (asked a)).

Module Array.

Section Array.

Context {T : Type} (EmbeddedCapacity : nat).

Record t : Type := mk { data_ : list T; capacity_ : nat; arena_ : arena }.

Definition make (a : arena) : t := {| data_ := []; capacity_ := 0; arena_ := a |}.

Definition size (a : t) : nat := length (data_ a).

(** [allocate_]: the embedded memory, or memory of the arena. *)
Definition allocate_ (a : t) (n_elems : nat) : arena * bool :=
  if decide (n_elems <= EmbeddedCapacity)%nat then (arena_ a, true) else ask (arena_ a).

Definition grow (a : t) (min_capacity : nat) : t * bool :=
  if decide (min_capacity <= capacity_ a)%nat then (a, true)
  else
    let ' (ar, ok) := allocate_ a min_capacity in
    if ok then ({| data_ := data_ a; capacity_ := min_capacity; arena_ := ar |}, true)
    else ({| data_ := data_ a; capacity_ := capacity_ a; arena_ := ar |}, false).

(** The loops of [next_capacity_]. *)
Fixpoint enlarge (step : nat -> nat) (fuel min_size new_capacity : nat) : nat :=
  match fuel with
  | O => new_capacity
  | S fuel =>
      if decide (new_capacity < min_size)%nat
      then enlarge step fuel min_size (step new_capacity)
      else new_capacity
  end.

Definition next_capacity_ (a : t) (min_size : nat) : nat :=
  if decide (capacity_ a < 1024)%nat
  then enlarge (fun c => if decide (c = 0) then 2 else c * 2)%nat (S min_size) min_size (capacity_ a)
  else enlarge (fun c => c + c / 4)%nat (S min_size) min_size (capacity_ a).

Definition grow_exp (a : t) (min_capacity : nat) : t * bool :=
  if decide (min_capacity <= capacity_ a)%nat then (a, true)
  else grow a (next_capacity_ a min_capacity).

(** [init] is the value of [T()]. *)
Definition resize (init : T) (a : t) (new_size : nat) : t * bool :=
  let ' (a, ok) := grow a new_size in
  if ok then
    ({| data_ := take new_size (data_ a) ++ repeat init (new_size - size a);
        capacity_ := capacity_ a; arena_ := arena_ a |}, true)
  else (a, false).

Definition push_back (a : t) (value : T) : t * bool :=
  let ' (a, ok) := grow_exp a (size a + 1) in
  if ok then
    ({| data_ := data_ a ++ [value]; capacity_ := capacity_ a; arena_ := arena_ a |}, true)
  else (a, false).

Definition pop_back (a : t) : res t :=
  match data_ a with
  | [] => Panic
  | l => Ok {| data_ := removelast l; capacity_ := capacity_ a; arena_ := arena_ a |}
  end.

(** [operator[]] as the target of an assignment. *)
Definition set (a : t) (i : nat) (x : T) : res t :=
  let* l := array_set (data_ a) i x in
  Ok {| data_ := l; capacity_ := capacity_ a; arena_ := arena_ a |}.

(** The loops end with room for what was asked. *)
Lemma enlarge_enough (step : nat -> nat) (fuel min_size c : nat) :
  (forall c, c < min_size -> c < step c)%nat -> (min_size <= c + fuel)%nat ->
  (min_size <= enlarge step fuel min_size c)%nat.
Proof.
  intros Hs. revert c. induction fuel as [|fuel IH]; intros c Hc; cbn; [lia|].
  case_decide as Hlt; [|lia]. apply IH. specialize (Hs c Hlt). lia.
Qed.

End Array.

Arguments t T : clear implicits.

End Array.

Module StringBuffer.

(** [Array<char, 32> data_] *)
Abbreviation t := (Array.t Z).

Definition embedded : nat := 32.

Definition len (b : t) : nat := Array.size b - 1.

(** [c_str], up to the size of the array. *)
Definition c_str (b : t) : list Z := Array.data_ b.

Definition clear (b : t) : res t :=
  let ' (b, ok) := Array.resize embedded 0 b 1 in
  if ok then Array.set b 0 0 else Panic.

Definition make (a : arena) : res t := clear (Array.make a).

(** [memcpy] into the array. *)
Definition copy (b : t) (pos : nat) (str : list Z) : res t :=
  if decide (pos + length str <= Array.size b)%nat then
    Ok {| Array.data_ := take pos (Array.data_ b) ++ str ++ drop (pos + length str) (Array.data_ b);
          Array.capacity_ := Array.capacity_ b; Array.arena_ := Array.arena_ b |}
  else Panic.

Definition assign (b : t) (str : list Z) : res (t * bool) :=
  let ' (b, ok) := Array.resize embedded 0 b (length str + 1) in
  if ok then
    let* b := if decide (length str = 0%nat) then Ok b else copy b 0 str in
    let* b := Array.set b (length str) 0 in
    Ok (b, true)
  else
    let* b := clear b in
    Ok (b, false).

(** The position where the new characters go, [None] for NULL. *)
Definition extend (b : t) (n_chars : nat) : res (t * option nat) :=
  let orig_sz := Array.size b in
  let ' (b, ok) :=
    if decide (0 < n_chars)%nat then Array.resize embedded 0 b (orig_sz + n_chars)
    else (b, true) in
  if ok then Ok (b, Some (orig_sz - 1)%nat)
  else
    let* b := clear b in
    Ok (b, None).

Definition grow (b : t) (desired_len : nat) : t * bool :=
  Array.grow embedded b (desired_len + 1).

Definition grow_exp (b : t) (desired_len : nat) : t * bool :=
  Array.grow_exp embedded b (desired_len + 1).

End StringBuffer.

Module StringBuilder.

(** [StaticBufferWriter]: the memory [buf_] points to, [None] for NULL.
    [DynamicBufferWriter]: the string buffer it refers to. *)
Inductive writer : Type :=
| StaticBufferWriter (buf_ : option (list Z)) (buf_max_size_ buf_cur_size_ : nat)
    (buf_wr_ptr_ : option nat)
| DynamicBufferWriter (buf_ : StringBuffer.t) (buf_wr_ptr_ : option nat).

Definition writer_reset (w : writer) : res (writer * bool) :=
  match w with
  | StaticBufferWriter (Some b) 0 _ _ => Ok (w, false)
  | StaticBufferWriter None max _ _ => Ok (StaticBufferWriter None max 1 None, true)
  | StaticBufferWriter (Some b) max _ _ =>
      let* b := array_set b 0 0 in
      Ok (StaticBufferWriter (Some b) max 1 None, true)
  | DynamicBufferWriter b _ =>
      let* b := StringBuffer.clear b in
      Ok (DynamicBufferWriter b None, true)
  end.

Definition is_noop (w : writer) : bool :=
  match w with
  | StaticBufferWriter None _ _ _ => true
  | _ => false
  end.

Definition grow_by (w : writer) (n_chars : nat) : writer * bool :=
  match w with
  | StaticBufferWriter _ _ _ _ => (w, true)
  | DynamicBufferWriter b p =>
      let ' (b, ok) := StringBuffer.grow_exp b (StringBuffer.len b + n_chars) in
      (DynamicBufferWriter b p, ok)
  end.

(** The result is [None] for -1. *)
Definition extend_by (w : writer) (n_chars : nat) : res (writer * option nat) :=
  match w with
  | StaticBufferWriter (Some _) 0 _ _ => Ok (w, None)
  | StaticBufferWriter None 0 _ _ => Ok (w, Some n_chars)
  | StaticBufferWriter buf max cur p =>
      let max_chars := (max - cur)%nat in
      let n_chars := if decide (max_chars < n_chars)%nat then max_chars else n_chars in
      match buf with
      | None => Ok (StaticBufferWriter None max (cur + n_chars) p, Some n_chars)
      | Some b =>
          let* b := array_set b (cur + n_chars - 1) 0 in
          Ok (StaticBufferWriter (Some b) max (cur + n_chars) (Some (cur - 1)%nat), Some n_chars)
      end
  | DynamicBufferWriter b _ =>
      let* ' (b, p) := StringBuffer.extend b n_chars in
      Ok (DynamicBufferWriter b p, if p then Some n_chars else None)
  end.

Definition write_ptr (w : writer) : option nat :=
  match w with
  | StaticBufferWriter _ _ _ p => p
  | DynamicBufferWriter _ p => p
  end.

(** [memcpy(write_ptr, str, ...)] *)
Definition memcpy (w : writer) (pos : nat) (str : list Z) : res writer :=
  match w with
  | StaticBufferWriter (Some b) max cur p =>
      if decide (pos + length str <= length b)%nat then
        Ok (StaticBufferWriter (Some (take pos b ++ str ++ drop (pos + length str) b)) max cur p)
      else Panic
  | StaticBufferWriter None _ _ _ => Panic
  | DynamicBufferWriter b p =>
      let* b := StringBuffer.copy b pos str in
      Ok (DynamicBufferWriter b p)
  end.

Record t : Type := mk {
  writer_ : writer;
  n_processed_ : nat;
  n_written_ : nat;
  truncation_error_ : bool;
  write_error_ : bool
}.

Definition needed_size (s : t) : nat := n_processed_ s + 1.

Definition actual_size (s : t) : nat :=
  if is_noop (writer_ s) || write_error_ s then 0 else n_written_ s + 1.

Definition is_ok (s : t) : bool := negb (truncation_error_ s) && negb (write_error_ s).

Definition reset_ (s : t) : res t :=
  if write_error_ s then Ok (mk (writer_ s) 0 0 (truncation_error_ s) true)
  else
    let* ' (w, ok) := writer_reset (writer_ s) in
    if ok then Ok (mk w 0 0 false false) else Ok (mk w 0 0 (truncation_error_ s) true).

Definition initialize_ (w : writer) : res t := reset_ (mk w 0 0 false false).

(** The constructors. *)
Definition make_static (buf : option (list Z)) (bufsz : nat) : res t :=
  initialize_ (StaticBufferWriter buf bufsz 1 None).

Definition make_dynamic (buf : StringBuffer.t) : res t :=
  initialize_ (DynamicBufferWriter buf None).

(** The part of [append_] that copies the characters. *)
Definition write_out (w : writer) (written write_size : nat) (str : list Z)
  : res (writer * nat) :=
  if decide (0 < write_size)%nat then
    match write_ptr w with
    | Some p =>
        let* w := memcpy w p (take write_size str) in
        Ok (w, written + write_size)%nat
    | None => Ok (w, written)
    end
  else Ok (w, written).

Definition append_ (s : t) (str : list Z) (grow : bool) : res (t * bool) :=
  let fin s := Ok (s, is_ok s) in
  let n := (n_processed_ s + length str)%nat in
  if write_error_ s then fin (mk (writer_ s) n (n_written_ s) (truncation_error_ s) true)
  else
    let ' (w, grown) := if grow then grow_by (writer_ s) (length str) else (writer_ s, true) in
    if negb grown then fin (mk w n (n_written_ s) (truncation_error_ s) true)
    else if decide (length str = 0%nat) then
      fin (mk w n (n_written_ s) (truncation_error_ s) false)
    else
      let* ' (w, write_size) := extend_by w (length str) in
      match write_size with
      | None => fin (mk w n (n_written_ s) (truncation_error_ s) true)
      | Some write_size =>
          let* ' (w, written) := write_out w (n_written_ s) write_size str in
          fin (mk w n written
                 (if decide (write_size < length str)%nat then true else truncation_error_ s)
                 false)
      end.

Definition assign_str (s : t) (str : list Z) : res (t * bool) :=
  let* s := reset_ s in
  append_ s str false.

Definition append_str (s : t) (str : list Z) : res (t * bool) := append_ s str true.

Definition append_char (s : t) (ch : Z) : res (t * bool) := append_ s [ch] true.

(** [0123456789ABCDEF[d]] *)
Definition hex_digit (d : Z) : Z := if d <? 10 then 48 + d else 55 + d.

(** The digits of [number], the last one first; [tmp] has 128 places. *)
Fixpoint digits (fuel : nat) (number base : Z) : list Z :=
  match fuel with
  | O => []
  | S fuel =>
      hex_digit (number mod base) ::
        (if 0 <? number / base then digits fuel (number / base) base else [])
  end.

Definition append_uint (s : t) (number base : Z) : res (t * bool) :=
  if (2 <=? base) && (base <=? 16) then append_ s (rev (digits 128 number base)) true
  else Panic.

(** * What a builder holds *)

(** The string [p] was appended since the last reset.  A static buffer of [max] bytes holds
    the first [max - 1] characters and the terminating zero; a string buffer holds all of
    them, unless an allocation failed; a null buffer counts. *)
Definition represents (s : t) (p : list Z) : Prop :=
  n_processed_ s = length p /\
  match writer_ s with
  | StaticBufferWriter None 0 _ q =>
      q = None /\ write_error_ s = false /\ truncation_error_ s = false
  | StaticBufferWriter None max cur q =>
      q = None /\ write_error_ s = false /\ cur = S (length p `min` (max - 1)) /\
      truncation_error_ s = bool_decide (max - 1 < length p)%nat
  | StaticBufferWriter (Some b) 0 _ _ => write_error_ s = true
  | StaticBufferWriter (Some b) max cur _ =>
      write_error_ s = false /\ length b = max /\ cur = S (length p `min` (max - 1)) /\
      take cur b = take (max - 1) p ++ [0] /\
      n_written_ s = (length p `min` (max - 1))%nat /\
      truncation_error_ s = bool_decide (max - 1 < length p)%nat
  | DynamicBufferWriter b _ =>
      truncation_error_ s = false /\
      (write_error_ s = false -> Array.data_ b = p ++ [0] /\ n_written_ s = length p)
  end.

(** The C string in the buffer: up to the first zero. *)
Definition text (s : t) : list Z :=
  let c_string := fix go l :=
    match l with [] => [] | c :: l => if c =? 0 then [] else c :: go l end in
  match writer_ s with
  | StaticBufferWriter (Some b) _ _ _ => c_string b
  | StaticBufferWriter None _ _ _ => []
  | DynamicBufferWriter b _ => c_string (Array.data_ b)
  end.

Lemma clear_ok (b : StringBuffer.t) :
  exists b', StringBuffer.clear b = Ok b' /\ Array.data_ b' = [0].
Proof.
  unfold StringBuffer.clear, Array.resize, Array.grow, Array.allocate_.
  case_decide as Hc; cbn [Array.data_ Array.capacity_ Array.arena_].
  2: rewrite decide_True by (unfold StringBuffer.embedded; lia).
  all: unfold Array.set, Array.size; cbn [Array.data_];
    destruct (Array.data_ b) as [|x [|y l]]; cbn; eauto.
Qed.

Lemma resize_data (b : StringBuffer.t) n :
  (Array.size b <= n)%nat ->
  match Array.resize StringBuffer.embedded 0 b n with
  | (b', true) => Array.data_ b' = Array.data_ b ++ repeat 0 (n - Array.size b)
  | (b', false) => Array.data_ b' = Array.data_ b
  end.
Proof.
  intros Hn. unfold Array.resize, Array.grow, Array.allocate_, ask.
  unfold Array.size in Hn.
  repeat (case_decide || destruct (grants _ _) || cbn); try done; by rewrite take_ge by done.
Qed.

Lemma grow_exp_data (b : StringBuffer.t) n :
  Array.data_ (StringBuffer.grow_exp b n).1 = Array.data_ b.
Proof.
  unfold StringBuffer.grow_exp, Array.grow_exp, Array.grow, Array.allocate_, ask.
  repeat (case_decide || destruct (grants _ _) || cbn); done.
Qed.

(** Writing [u] after the string [v] of a static buffer. *)
Lemma splice (b v u : list Z) (n : nat) :
  n = (length v + length u)%nat -> (n < length b)%nat ->
  take (S (length v)) b = v ++ [0] ->
  take (S n) (take (length v) (<[n := 0]> b) ++ u ++ drop n (<[n := 0]> b)) = (v ++ u) ++ [0].
Proof.
  intros Hn Hl Hv. rewrite take_insert_ge by lia.
  assert (take (length v) b = v) as ->.
  { apply (f_equal (take (length v))) in Hv. rewrite take_take in Hv.
    rewrite Nat.min_l in Hv by lia. rewrite Hv, take_app_le, take_ge; done || lia. }
  rewrite (drop_S _ 0 n) by (apply list_lookup_insert_eq; lia).
  rewrite app_assoc, take_app, take_ge by (rewrite length_app; lia). f_equal.
  rewrite length_app. by replace (S n - (length v + length u))%nat with 1%nat by lia.
Qed.

(** Extending a static buffer that holds [v] by the characters [u]. *)
Lemma static_write b m v u written q :
  length b = S m -> (length v + length u <= m)%nat -> take (S (length v)) b = v ++ [0] ->
  exists b1, array_set b (length v + length u) 0 = Ok b1 /\
    exists b2, length b2 = S m /\
      take (S (length v + length u)) b2 = (v ++ u) ++ [0] /\
      forall str, take (length u) str = u ->
        write_out (StaticBufferWriter (Some b1) (S m) q (Some (length v)))
          written (length u) str =
        Ok (StaticBufferWriter (Some b2) (S m) q (Some (length v)), written + length u)%nat.
Proof.
  intros Hb Hl Hv. set (n := (length v + length u)%nat).
  exists (<[n := 0]> b). split; [apply array_set_ok; lia|].
  exists (take (length v) (<[n := 0]> b) ++ u ++ drop n (<[n := 0]> b)).
  split; [rewrite !length_app, length_take, length_drop, length_insert; lia|].
  split; [apply splice; done || lia|]. intros str Hu. unfold write_out. cbn [write_ptr memcpy].
  case_decide as H0.
  - rewrite Hu. rewrite decide_True by (rewrite length_insert; lia). done.
  - destruct u; [|cbn in H0; lia]. cbn [app length]. unfold n. cbn [length].
    by rewrite Nat.add_0_r, take_drop, Nat.add_0_r.
Qed.

Lemma grow_by_static buf max cur q n (grow : bool) :
  (if grow then grow_by (StaticBufferWriter buf max cur q) n
   else (StaticBufferWriter buf max cur q, true)) = (StaticBufferWriter buf max cur q, true).
Proof. by destruct grow. Qed.

Lemma append_static b m cur q s p str grow :
  writer_ s = StaticBufferWriter (Some b) (S m) cur q -> represents s p ->
  exists s', append_ s str grow = Ok (s', is_ok s') /\ represents s' (p ++ str).
Proof.
  intros Hw [Hn Hr]. rewrite Hw in Hr. cbn in Hr. rewrite Nat.sub_0_r in Hr.
  destruct Hr as (He & Hlb & Hcur & Hb & Hwr & Htr).
  unfold append_, represents. rewrite He, Hw, length_app, Hn, grow_by_static.
  cbn [negb]. destruct (decide (length str = 0%nat)) as [Hk|Hk].
  { eexists. split; [done|]. destruct str; [|done]. cbn.
    rewrite app_nil_r, Nat.add_0_r, Nat.sub_0_r. done. }
  cbn [extend_by]. set (n := if decide (S m - cur < length str)%nat then _ else _).
  assert (Hnk : n = (length str `min` (m - length p `min` m))%nat)
    by (unfold n; destruct (decide (S m - cur < length str)%nat); lia).
  assert (Htp : length (take m p) = (length p `min` m)%nat) by (rewrite length_take; lia).
  assert (Htn : length (take n str) = n) by (rewrite length_take; lia).
  assert (Hpre : take m p ++ take n str = take m (p ++ str)).
  { rewrite take_app. f_equal. rewrite Hnk. destruct (decide (length str <= m - length p)%nat).
    - rewrite !take_ge; done || lia.
    - f_equal. lia. }
  destruct (static_write b m (take m p) (take n str) (n_written_ s) (cur + n)%nat)
    as (b1 & Hset & b2 & Hlb2 & Hb2 & Hout); [done|lia|by rewrite Htp, <- Hcur|].
  rewrite Htp, Htn in *. replace (cur + n - 1)%nat with (length p `min` m + n)%nat by lia.
  rewrite Hset. cbn [res_bind]. replace (cur - 1)%nat with (length p `min` m)%nat by lia.
  rewrite Hout by done. cbn [res_bind]. eexists. split; [done|]. cbn.
  rewrite Nat.sub_0_r, Hpre in *. split; [done|]. split; [done|]. split; [done|].
  replace (cur + n)%nat with (S (length p `min` m + n)) by lia.
  split; [lia|]. split; [done|]. split; [lia|].
  rewrite Htr. clear Htr. case_decide; repeat case_bool_decide; done || lia.
Qed.

Lemma append_null max cur q s p str grow :
  writer_ s = StaticBufferWriter None max cur q -> represents s p ->
  exists s', append_ s str grow = Ok (s', is_ok s') /\ represents s' (p ++ str).
Proof.
  intros Hw [Hn Hr]. rewrite Hw in Hr. cbn in Hr.
  assert (Hq : q = None) by (destruct max; tauto). subst q.
  assert (He : write_error_ s = false) by (destruct max; tauto).
  unfold append_, represents. rewrite He, Hw, length_app, Hn, grow_by_static. cbn [negb].
  destruct (decide (length str = 0%nat)) as [Hk|Hk].
  { eexists. split; [done|]. destruct str; [|done]. cbn. rewrite Nat.add_0_r. split; [done|]. destruct max; tauto. }
  destruct max as [|m]; cbn [extend_by res_bind]; unfold write_out; cbn [write_ptr].
  - rewrite decide_True by lia. cbn [res_bind]. eexists. split; [done|]. cbn.
    rewrite decide_False by lia. tauto.
  - destruct Hr as (_ & _ & Hcur & Htr). cbn in Hcur, Htr. rewrite Nat.sub_0_r in *.
    match goal with |- context [res_bind (if ?c then Ok ?x else Ok ?x)] =>
      replace (if c then Ok x else Ok x) with (Ok x) by (by destruct c) end.
    cbn [res_bind]. eexists. split; [done|]. cbn. rewrite Nat.sub_0_r.
    do 3 (split; [done|]). rewrite Htr. clear Htr.
    split; [destruct (decide (S m - cur < length str)%nat); lia|].
    destruct (decide (S m - cur < length str)%nat); case_decide; repeat case_bool_decide; done || lia.
Qed.

Lemma append_failed s p str grow :
  write_error_ s = true -> represents s p ->
  exists s', append_ s str grow = Ok (s', is_ok s') /\ represents s' (p ++ str).
Proof.
  intros He [Hn Hr]. unfold append_, represents. rewrite He, Hn, length_app. eexists.
  split; [done|]. cbn. split; [done|].
  destruct (writer_ s) as [[b|] [|m] ? ?|b ?]; rewrite ?He in Hr; intuition congruence.
Qed.

Lemma append_dynamic b q s p str grow :
  writer_ s = DynamicBufferWriter b q -> write_error_ s = false -> represents s p ->
  exists s', append_ s str grow = Ok (s', is_ok s') /\ represents s' (p ++ str).
Proof.
  intros Hw He [Hn Hr]. rewrite Hw in Hr. destruct Hr as [Htr Hd].
  destruct (Hd He) as [Hdata Hwr]. unfold append_, represents. rewrite He, Hw, length_app, Hn.
  destruct (if grow then _ else _) as [w ok] eqn:Eg.
  assert (exists b', w = DynamicBufferWriter b' q /\ Array.data_ b' = p ++ [0]) as (b' & -> & Hb').
  { destruct grow; [|injection Eg as <- <-; eauto]. cbn in Eg.
    pose proof (grow_exp_data b (StringBuffer.len b + length str)) as Hg.
    destruct (StringBuffer.grow_exp b _) as [b' ok']. injection Eg as <- <-.
    exists b'. split; [done|]. cbn in Hg. congruence. }
  destruct ok; cbn [negb]; [|eexists; split; [done|]; cbn; done].
  destruct (decide (length str = 0%nat)) as [Hk|Hk].
  { eexists. split; [done|]. destruct str; [|done]. cbn. rewrite app_nil_r, Nat.add_0_r. done. }
  cbn [extend_by]. unfold StringBuffer.extend. rewrite decide_True by lia.
  assert (Hsz : Array.size b' = S (length p)).
  { unfold Array.size. rewrite Hb', length_app. cbn. lia. }
  pose proof (resize_data b' (Array.size b' + length str) ltac:(lia)) as Hrs.
  destruct (Array.resize _ _ b' _) as [b2 [|]].
  - cbn [res_bind]. unfold write_out. rewrite decide_True by lia. cbn [write_ptr memcpy].
    unfold StringBuffer.copy. rewrite take_ge by done.
    rewrite decide_True by (unfold Array.size at 2; rewrite Hrs, length_app, repeat_length; fold (Array.size b'); lia).
    cbn [res_bind]. eexists. split; [done|]. cbn. split; [done|].
    rewrite decide_False by lia. split; [done|]. intros _. split; [|lia].
    rewrite Hrs, Hb', Hsz. replace (S (length p) - 1)%nat with (length p) by lia.
    replace (S (length p) + length str - S (length p))%nat with (length str) by lia.
    rewrite <- !app_assoc, take_app_length. f_equal. f_equal.
    rewrite drop_app_ge by lia. replace (length p + length str - length p)%nat with (length str) by lia.
    clear. induction str as [|c str IH]; [done|]. cbn in *.
    by rewrite <- repeat_cons in IH || rewrite IH.
  - destruct (clear_ok b2) as (b3 & -> & _). cbn [res_bind]. eexists. split; [done|]. cbn. done.
Qed.

(** Appending appends, whatever the buffer. *)
Lemma append__ok s p str grow :
  represents s p ->
  exists s', append_ s str grow = Ok (s', is_ok s') /\ represents s' (p ++ str).
Proof.
  intros Hr. destruct (write_error_ s) eqn:He; [by apply append_failed|].
  destruct (writer_ s) as [[b|] max cur q|b q] eqn:Hw.
  - destruct max as [|m]; [|by eapply append_static].
    destruct Hr as [_ Hr]. rewrite Hw in Hr. congruence.
  - by eapply append_null.
  - by eapply append_dynamic.
Qed.

(** A reset forgets the string; a write error stays. *)
Lemma reset_ok s p : represents s p -> exists s', reset_ s = Ok s' /\ represents s' [].
Proof.
  intros [_ Hr]. unfold reset_. destruct (write_error_ s) eqn:He.
  { eexists. split; [done|]. split; [done|]. cbn.
    destruct (writer_ s) as [[b|] [|m] cur q|b q]; intuition congruence. }
  destruct (writer_ s) as [[b|] [|m] cur q|b q]; cbn [writer_reset res_bind]; try congruence.
  - destruct Hr as (_ & Hl & _). rewrite array_set_ok by lia. cbn [res_bind].
    eexists. split; [done|]. split; [done|]. cbn. rewrite length_insert, Nat.sub_0_r, take_nil.
    destruct b; [done|]. cbn. rewrite take_0. done.
  - eexists. done.
  - eexists. done.
  - destruct (clear_ok b) as (b' & -> & Hb'). cbn [res_bind]. eexists. done.
Qed.

Lemma make_static_ok buf bufsz :
  (forall b, buf = Some b -> length b = bufsz) ->
  exists s, make_static buf bufsz = Ok s /\ represents s [].
Proof.
  intros Hb. unfold make_static, initialize_, reset_. cbn [write_error_ writer_ truncation_error_].
  destruct buf as [b|]; [|by destruct bufsz; eexists].
  destruct bufsz as [|m]; cbn [writer_reset res_bind]; [by eexists|].
  specialize (Hb b eq_refl). rewrite array_set_ok by lia. cbn [res_bind].
  eexists. split; [done|]. split; [done|]. cbn. rewrite length_insert, Nat.sub_0_r, take_nil.
  destruct b; [done|]. cbn. rewrite take_0. done.
Qed.

Lemma make_dynamic_ok buf : exists s, make_dynamic buf = Ok s /\ represents s [].
Proof.
  unfold make_dynamic, initialize_, reset_. cbn [write_error_ writer_ writer_reset].
  destruct (clear_ok buf) as (b & -> & Hb). cbn [res_bind]. eexists. done.
Qed.

(** A builder that reports no error, and that is not over a null buffer, holds the string. *)
Lemma text_ok s p :
  represents s p -> 0 ∉ p -> is_ok s = true -> is_noop (writer_ s) = false -> text s = p.
Proof.
  intros [_ Hr] Hp Hok Hno. unfold is_ok in Hok. reflect_bools. unfold text.
  set (c_string := fix go l := match l with [] => [] | c :: l => _ end).
  assert (Hc : forall l, 0 ∉ p -> c_string (p ++ 0 :: l) = p).
  { clear. induction p as [|c p IH]; intros l Hp; [done|]. cbn.
    rewrite (proj2 (Z.eqb_neq c 0)) by (intros ->; apply Hp; left).
    f_equal. apply IH. intros H. apply Hp. by right. }
  destruct (writer_ s) as [[b|] [|m] cur q|b q]; try done; [congruence|..].
  - destruct Hr as (_ & Hl & Hcur & Hb & _ & Htr).
    rewrite H in Htr. symmetry in Htr. apply bool_decide_eq_false in Htr.
    rewrite (take_ge p) in Hb by lia. rewrite <- (take_drop cur b), Hb, <- app_assoc.
    by apply Hc.
  - destruct Hr as [_ Hd]. destruct (Hd ltac:(done)) as [-> _]. by apply Hc.
Qed.

(** [append_char] as the callers use it, without looking at the result. *)
Definition put (s : t) (ch : Z) : res t :=
  let* r := append_char s ch in
  Ok (fst r).

Lemma put_ok s p ch : represents s p -> exists s', put s ch = Ok s' /\ represents s' (p ++ [ch]).
Proof.
  intros Hr. unfold put, append_char. destruct (append__ok s p [ch] true Hr) as (s' & -> & Hs').
  eexists. done.
Qed.

End StringBuilder.
