(* ===== verification/Pct.v ===== *)
(** roc_address/pct.cpp: percent-encoding of strings (RFC 3986).

    The functions write to a [core::StringBuilder] and leave it to the caller to ask the
    builder whether everything fit.  A [char] is the value of its byte, and [isalnum],
    [isxdigit] and the like are those of the "C" locale.

    [pct_roundtrip] shows that decoding inverts encoding through any two builders. *)

From S2P Require Import Prelude Strings.
Import StringBuilder.

(** * <ctype.h> *)

Definition between (lo hi c : Z) : bool := (lo <=? c) && (c <=? hi).

Definition isdigit (c : Z) : bool := between 48 57 c.

Definition isalnum (c : Z) : bool := isdigit c || between 65 90 c || between 97 122 c.

Definition isxdigit (c : Z) : bool := isdigit c || between 65 70 c || between 97 102 c.

Definition tolower (c : Z) : Z := if between 65 90 c then c + 32 else c.

Definition one_of (l : list Z) (c : Z) : bool := existsb (Z.eqb c) l.

(** * Classes of characters *)

(** - _ . ~ *)
Definition is_unreserved (c : Z) : bool := isalnum c || one_of [45; 95; 46; 126] c.

(** ! $ & ' ( ) * + , ; = *)
Definition is_subdelim (c : Z) : bool := one_of [33; 36; 38; 39; 40; 41; 42; 43; 44; 59; 61] c.

(** : @ *)
Definition is_pchar (c : Z) : bool := is_unreserved c || is_subdelim c || one_of [58; 64] c.

(** / *)
Definition is_segment_char (c : Z) : bool := is_pchar c || (c =? 47).

(** . : [ ] *)
Definition is_ip_literal_char (c : Z) : bool := isxdigit c || one_of [46; 58; 91; 93] c.

Definition is_regname_char (c : Z) : bool := is_unreserved c || is_subdelim c.

Definition is_host_char (c : Z) : bool := is_ip_literal_char c || is_regname_char c.

(** * Hexadecimal digits *)

Definition to_hex (c : Z) : Z := hex_digit (Z.land c 0xf).

Definition nibble (c : Z) : Z := if isdigit c then c - 48 else tolower c - 97 + 10.

(** [char(h << 4 | l)] *)
Definition from_hex (hi lo : Z) : Z := u8 (Z.lor (Z.shiftl (nibble hi) 4) (nibble lo)).

(** * Encoding and decoding *)

Inductive PctMode : Type :=
| PctNonUnreserved
| PctNonHost
| PctNonPath.

Definition skip_encoding (mode : PctMode) : Z -> bool :=
  match mode with
  | PctNonUnreserved => is_unreserved
  | PctNonHost => is_host_char
  | PctNonPath => is_segment_char
  end.

(** The result is the builder and the value that is returned. *)
Fixpoint pct_encode (dst : t) (src : list Z) (mode : PctMode) : res (t * bool) :=
  match src with
  | [] => Ok (dst, true)
  | c :: src =>
      if c =? 0 then Ok (dst, false)
      else if skip_encoding mode c then
        let* dst := put dst c in
        pct_encode dst src mode
      else
        let* dst := put dst 37 in
        let* dst := put dst (to_hex (Z.shiftr c 4)) in
        let* dst := put dst (to_hex (Z.land c 0xf)) in
        pct_encode dst src mode
  end.

Fixpoint pct_decode (dst : t) (src : list Z) : res (t * bool) :=
  match src with
  | [] => Ok (dst, true)
  | c :: src =>
      if c =? 0 then Ok (dst, false)
      else if c =? 37 then
        match src with
        | hi :: lo :: src =>
            if negb (isxdigit hi) || negb (isxdigit lo) then Ok (dst, false)
            else
              let c := from_hex hi lo in
              if c =? 0 then Ok (dst, false)
              else
                let* dst := put dst c in
                pct_decode dst src
        | _ => Ok (dst, false)
        end
      else
        let* dst := put dst c in
        pct_decode dst src
  end.

(** * The strings *)

(** What is appended for one character. *)
Definition encoded_char (mode : PctMode) (c : Z) : list Z :=
  if skip_encoding mode c then [c]
  else [37; to_hex (Z.shiftr c 4); to_hex (Z.land c 0xf)].

Definition encoded (mode : PctMode) (s : list Z) : list Z := concat (map (encoded_char mode) s).

Definition is_char (c : Z) : Prop := 0 < c < 256.

Lemma pct_encode_ok mode s dst p :
  represents dst p -> Forall is_char s ->
  exists dst', pct_encode dst s mode = Ok (dst', true) /\ represents dst' (p ++ encoded mode s).
Proof.
  intros Hr Hs. revert dst p Hr. induction Hs as [|c s Hc Hs IH]; intros dst p Hr; cbn.
  { rewrite app_nil_r. eauto. }
  unfold is_char in Hc. rewrite (proj2 (Z.eqb_neq c 0)) by lia. unfold encoded_char.
  destruct (skip_encoding mode c).
  - destruct (put_ok dst p c Hr) as (d1 & -> & H1). cbn [res_bind].
    destruct (IH d1 _ H1) as (d & -> & Hd). exists d. split; [done|].
    by rewrite <- app_assoc in Hd.
  - destruct (put_ok dst p 37 Hr) as (d1 & -> & H1). cbn [res_bind].
    destruct (put_ok d1 _ (to_hex (Z.shiftr c 4)) H1) as (d2 & -> & H2). cbn [res_bind].
    destruct (put_ok d2 _ (to_hex (Z.land c 15)) H2) as (d3 & -> & H3). cbn [res_bind].
    destruct (IH d3 _ H3) as (d & -> & Hd). exists d. split; [done|].
    by rewrite <- !app_assoc in Hd.
Qed.

(** All 255 characters, for the facts that are checked one by one. *)
Definition all_chars : list Z := map Z.of_nat (seq 1 255).

Lemma is_char_all c : is_char c -> c ∈ all_chars.
Proof.
  intros Hc. unfold all_chars. apply list_elem_of_In, in_map_iff. exists (Z.to_nat c).
  unfold is_char in Hc. split; [lia|]. apply in_seq. lia.
Qed.

Lemma encoded_char_decodes c :
  is_char c ->
  isxdigit (to_hex (Z.shiftr c 4)) = true /\ isxdigit (to_hex (Z.land c 0xf)) = true /\
  from_hex (to_hex (Z.shiftr c 4)) (to_hex (Z.land c 0xf)) = c.
Proof.
  intros Hc%is_char_all. revert c Hc.
  assert (H : Forall (fun c =>
    isxdigit (to_hex (Z.shiftr c 4)) = true /\ isxdigit (to_hex (Z.land c 0xf)) = true /\
    from_hex (to_hex (Z.shiftr c 4)) (to_hex (Z.land c 0xf)) = c) all_chars).
  { apply (bool_decide_unpack _). vm_compute. exact I. }
  rewrite Forall_forall in H. exact H.
Qed.

Lemma pct_decode_ok mode s dst p :
  represents dst p -> Forall is_char s ->
  exists dst', pct_decode dst (encoded mode s) = Ok (dst', true) /\ represents dst' (p ++ s).
Proof.
  intros Hr Hs. revert dst p Hr. induction Hs as [|c s Hc Hs IH]; intros dst p Hr.
  { cbn. rewrite app_nil_r. eauto. }
  change (encoded mode (c :: s)) with (encoded_char mode c ++ encoded mode s).
  destruct (put_ok dst p c Hr) as (d1 & Hput & H1).
  destruct (IH d1 _ H1) as (d & Hd & Hrd). rewrite <- app_assoc in Hrd.
  exists d. split; [|done]. unfold encoded_char.
  destruct (encoded_char_decodes c Hc) as (Hx1 & Hx2 & Hx). unfold is_char in Hc.
  destruct (skip_encoding mode c) eqn:Esk; cbn [app pct_decode].
  - rewrite (proj2 (Z.eqb_neq c 0)) by lia.
    assert (c <> 37) as Hne by (intros ->; by destruct mode).
    rewrite (proj2 (Z.eqb_neq c 37)) by done. rewrite Hput. exact Hd.
  - rewrite Hx1, Hx2, Hx. cbn [negb orb Z.eqb Pos.eqb].
    rewrite (proj2 (Z.eqb_neq c 0)) by lia. rewrite Hput. exact Hd.
Qed.

Lemma encoded_zero_free mode s : Forall is_char s -> 0 ∉ encoded mode s.
Proof.
  induction 1 as [|c s Hc Hs IH]; [by intros Hin; inversion Hin|].
  change (encoded mode (c :: s)) with (encoded_char mode c ++ encoded mode s).
  rewrite elem_of_app. intros [Hin|Hin]; [|done].
  destruct (encoded_char_decodes c Hc) as (Hx1 & Hx2 & _). unfold encoded_char, is_char in *.
  destruct (skip_encoding mode c).
  - apply list_elem_of_singleton in Hin. lia.
  - repeat (apply elem_of_cons in Hin as [Hin|Hin]; [discriminate Hin || (rewrite <- Hin in *; done)|]).
    inversion Hin.
Qed.

(** What may appear in an encoded string. *)
Definition allowed (mode : PctMode) (c : Z) : bool :=
  skip_encoding mode c || (c =? 37) || isxdigit c.

Lemma encoded_allowed mode s :
  Forall is_char s -> Forall (fun c => allowed mode c = true) (encoded mode s).
Proof.
  induction 1 as [|c s Hc Hs IH]; [constructor|].
  change (encoded mode (c :: s)) with (encoded_char mode c ++ encoded mode s).
  apply Forall_app. split; [|done]. destruct (encoded_char_decodes c Hc) as (Hx1 & Hx2 & _).
  unfold encoded_char, allowed. destruct (skip_encoding mode c) eqn:E.
  - constructor; [by rewrite E|constructor].
  - repeat constructor; rewrite ?Hx1, ?Hx2, ?orb_true_r; done.
Qed.

(** Encoding a string of non-zero bytes always succeeds, in every mode and with every
    kind of string builder; unless the builder reports that the text did not fit, the text
    has only characters that the mode leaves alone, percent signs and hexadecimal digits,
    and decoding it with a second builder succeeds and gives back the string, again unless
    that builder reports an error. *)
Theorem pct_roundtrip mode s d1 d2 :
  represents d1 [] -> represents d2 [] -> Forall is_char s ->
  exists e, pct_encode d1 s mode = Ok (e, true) /\
    (is_ok e = true -> is_noop (writer_ e) = false ->
     Forall (fun c => allowed mode c = true) (text e) /\
     exists d, pct_decode d2 (text e) = Ok (d, true) /\ needed_size d = (length s + 1)%nat /\
       (is_ok d = true -> is_noop (writer_ d) = false -> text d = s)).
Proof.
  intros H1 H2 Hs. destruct (pct_encode_ok mode s d1 [] H1 Hs) as (e & He & Hre).
  exists e. split; [done|]. intros Hok Hno.
  rewrite (text_ok e _ Hre (encoded_zero_free mode s Hs) Hok Hno).
  split; [by apply encoded_allowed|].
  destruct (pct_decode_ok mode s d2 [] H2 Hs) as (d & Hd & Hrd).
  exists d. split; [done|]. split; [unfold needed_size; by rewrite (proj1 Hrd)|].
  apply text_ok; [done|]. intros Hin. rewrite Forall_forall in Hs. by destruct (Hs 0 Hin).
Qed.

(** "a b%/" through a buffer of 16 bytes, then through a string buffer whose arena has no
    memory: the text fits the embedded 32 bytes. *)
Lemma pct_roundtrip_witness :
  exists d1 d2 e d,
    make_static (Some (repeat 255 16)) 16 = Ok d1 /\
    make_dynamic (Array.make {| grants := fun _ => false; asked := 0 |}) = Ok d2 /\
    pct_encode d1 [97; 32; 98; 37; 47] PctNonPath = Ok (e, true) /\
    text e = [97; 37; 50; 48; 98; 37; 50; 53; 47] /\
    pct_decode d2 (text e) = Ok (d, true) /\ text d = [97; 32; 98; 37; 47].
Proof.
  destruct (make_static_ok (Some (repeat 255 16)) 16) as (d1 & E1 & H1); [by intros b [= <-]|].
  destruct (make_dynamic_ok (Array.make {| grants := fun _ => false; asked := 0 |}))
    as (d2 & E2 & H2).
  destruct (pct_roundtrip PctNonPath [97; 32; 98; 37; 47] d1 d2 H1 H2 ltac:(closed))
    as (e & He & Hrest).
  exists d1, d2, e. vm_compute in E1, E2. injection E1 as <-. injection E2 as <-.
  vm_compute in He. injection He as <-.
  destruct (Hrest eq_refl eq_refl) as (_ & d & Hd & _ & Htext).
  vm_compute in Hd. injection Hd as <-. specialize (Htext eq_refl eq_refl).
  match type of Htext with text ?d = _ => exists d end.
  do 5 (split; [vm_compute; reflexivity|]). exact Htext.
Defined.

(** A string with a zero byte is refused, and so is a truncated or malformed escape. *)
Lemma pct_decode_refuses dst hi lo :
  pct_decode dst [37] = Ok (dst, false) /\ pct_decode dst [37; hi] = Ok (dst, false) /\
  (isxdigit hi && isxdigit lo = false -> pct_decode dst [37; hi; lo] = Ok (dst, false)) /\
  pct_decode dst [37; 48; 48] = Ok (dst, false) /\ pct_decode dst [0] = Ok (dst, false).
Proof.
  do 2 (split; [done|]). split; [|done]. intros E. cbn [pct_decode Z.eqb Pos.eqb].
  apply andb_false_iff in E as [->| ->]; cbn [negb orb]; [done|]. by rewrite orb_true_r.
Qed.
