(* ===== verification/SessionRouter.v ===== *)
(** The session router of a receiver slot (roc_pipeline/receiver_session_router.cpp):
    which session the packets of a sender go to, by SSRC, by source address or by CNAME.

    Routes and their hash map nodes are objects in a store: a route is a number, and an
    access to a route that was removed is [Panic].  A socket address and a session pointer
    are numbers, [None] being the empty address and NULL.  The hash maps are finite maps
    from keys to routes (HashmapRefines.v shows that core::Hashmap is a map); a node that is
    embedded in a route remembers the key it was inserted with, [None] while it is in no
    map, since the key is a field of the route and is read again when the node is inserted.
    As in hashmap_impl.cpp, inserting a node that is a member already or a second node with
    an equal key panics.

    Every allocation, and every insertion, which may have to allocate, succeeds or fails as
    a parameter says; or, of an insertion, it says that the map has to grow while its last
    rehashing has stalled, where core::Hashmap panics.  Whether it has depends on buckets and
    hashes, which finite maps do not have; HashmapRefines.v shows that it only does after
    the removal of the last element that was still to be moved. *)

From stdpp Require Import gmap.
From S2P Require Import Prelude.

Module SessionRouter.

Record Route : Type := mkRoute {
  session : option Z;
  source_addr : option Z;
  cname : list Z;
  has_main_source_id : bool;
  main_source_id : Z;
  source_nodes : list Z;
  address_node : option (option Z);
  cname_node : option (list Z);
  session_node : option (option Z)
}.

Definition new_route : Route := mkRoute None None [] false 0 [] None None None.

Record t : Type := mkRouter {
  routes : gmap nat Route;
  route_list_ : list nat;
  next_route : nat;
  source_route_map_ : gmap Z nat;
  address_route_map_ : gmap (option Z) nat;
  cname_route_map_ : gmap (list Z) nat;
  session_route_map_ : gmap (option Z) nat;
  grants : nat -> grant;
  asked : nat
}.

Definition make (grants : nat -> grant) : t := mkRouter ∅ [] 0 ∅ ∅ ∅ ∅ grants 0.

(** * Assignments *)

Definition set_session x rt :=
  mkRoute x (source_addr rt) (cname rt) (has_main_source_id rt) (main_source_id rt)
    (source_nodes rt) (address_node rt) (cname_node rt) (session_node rt).

Definition set_addr x rt :=
  mkRoute (session rt) x (cname rt) (has_main_source_id rt) (main_source_id rt)
    (source_nodes rt) (address_node rt) (cname_node rt) (session_node rt).

Definition set_cname x rt :=
  mkRoute (session rt) (source_addr rt) x (has_main_source_id rt) (main_source_id rt)
    (source_nodes rt) (address_node rt) (cname_node rt) (session_node rt).

Definition set_main x i rt :=
  mkRoute (session rt) (source_addr rt) (cname rt) x i
    (source_nodes rt) (address_node rt) (cname_node rt) (session_node rt).

Definition set_nodes x rt :=
  mkRoute (session rt) (source_addr rt) (cname rt) (has_main_source_id rt) (main_source_id rt)
    x (address_node rt) (cname_node rt) (session_node rt).

Definition set_address_node x rt :=
  mkRoute (session rt) (source_addr rt) (cname rt) (has_main_source_id rt) (main_source_id rt)
    (source_nodes rt) x (cname_node rt) (session_node rt).

Definition set_cname_node x rt :=
  mkRoute (session rt) (source_addr rt) (cname rt) (has_main_source_id rt) (main_source_id rt)
    (source_nodes rt) (address_node rt) x (session_node rt).

Definition set_session_node x rt :=
  mkRoute (session rt) (source_addr rt) (cname rt) (has_main_source_id rt) (main_source_id rt)
    (source_nodes rt) (address_node rt) (cname_node rt) x.

Definition set_routes x st :=
  mkRouter x (route_list_ st) (next_route st) (source_route_map_ st) (address_route_map_ st)
    (cname_route_map_ st) (session_route_map_ st) (grants st) (asked st).

Definition set_source_map x st :=
  mkRouter (routes st) (route_list_ st) (next_route st) x (address_route_map_ st)
    (cname_route_map_ st) (session_route_map_ st) (grants st) (asked st).

Definition set_address_map x st :=
  mkRouter (routes st) (route_list_ st) (next_route st) (source_route_map_ st) x
    (cname_route_map_ st) (session_route_map_ st) (grants st) (asked st).

Definition set_cname_map x st :=
  mkRouter (routes st) (route_list_ st) (next_route st) (source_route_map_ st)
    (address_route_map_ st) x (session_route_map_ st) (grants st) (asked st).

Definition set_session_map x st :=
  mkRouter (routes st) (route_list_ st) (next_route st) (source_route_map_ st)
    (address_route_map_ st) (cname_route_map_ st) x (grants st) (asked st).

(** * The store and the maps *)

Definition get (st : t) (r : nat) : res Route :=
  match routes st !! r with Some rt => Ok rt | None => Panic end.

Definition upd (st : t) (r : nat) (f : Route -> Route) : res t :=
  let* rt := get st r in
  Ok (set_routes (<[r := f rt]> (routes st)) st).

(** An allocation. *)
Definition ask (st : t) : t * bool :=
  (mkRouter (routes st) (route_list_ st) (next_route st) (source_route_map_ st)
     (address_route_map_ st) (cname_route_map_ st) (session_route_map_ st)
     (grants st) (S (asked st)), is_granted (grants st (asked st))).

(** The insertion into a hash map: it panics when the map has to grow and its last rehashing
    was left unfinished. *)
Definition ask_insert (st : t) : res (t * bool) :=
  match grants st (asked st) with
  | Stalled => Panic
  | _ => Ok (ask st)
  end.

(** The checks of [Hashmap::insert]. *)
Definition insert_node {K} `{Countable K} (m : gmap K nat) (node : option K) (key : K) (r : nat)
  : res (gmap K nat) :=
  match node, m !! key with
  | None, None => Ok (<[key := r]> m)
  | _, _ => Panic
  end.

Definition insert_source (st : t) (r : nat) (source_id : Z) : res (t * bool) :=
  let* ' (st, ok) := ask_insert st in
  if ok then
    let* m := insert_node (source_route_map_ st) None source_id r in
    Ok (set_source_map m st, true)
  else Ok (st, false).

Definition insert_address (st : t) (r : nat) : res (t * bool) :=
  let* ' (st, ok) := ask_insert st in
  if ok then
    let* rt := get st r in
    let* m := insert_node (address_route_map_ st) (address_node rt) (source_addr rt) r in
    let* st := upd st r (set_address_node (Some (source_addr rt))) in
    Ok (set_address_map m st, true)
  else Ok (st, false).

Definition insert_cname (st : t) (r : nat) : res (t * bool) :=
  let* ' (st, ok) := ask_insert st in
  if ok then
    let* rt := get st r in
    let* m := insert_node (cname_route_map_ st) (cname_node rt) (cname rt) r in
    let* st := upd st r (set_cname_node (Some (cname rt))) in
    Ok (set_cname_map m st, true)
  else Ok (st, false).

Definition insert_session (st : t) (r : nat) : res (t * bool) :=
  let* ' (st, ok) := ask_insert st in
  if ok then
    let* rt := get st r in
    let* m := insert_node (session_route_map_ st) (session_node rt) (session rt) r in
    let* st := upd st r (set_session_node (Some (session rt))) in
    Ok (set_session_map m st, true)
  else Ok (st, false).

(** [if (map.contains(node)) map.remove(node);] *)
Definition remove_address (st : t) (r : nat) : res t :=
  let* rt := get st r in
  match address_node rt with
  | Some k =>
      let* st := upd st r (set_address_node None) in
      Ok (set_address_map (delete k (address_route_map_ st)) st)
  | None => Ok st
  end.

Definition remove_cname (st : t) (r : nat) : res t :=
  let* rt := get st r in
  match cname_node rt with
  | Some k =>
      let* st := upd st r (set_cname_node None) in
      Ok (set_cname_map (delete k (cname_route_map_ st)) st)
  | None => Ok st
  end.

Definition remove_session_node (st : t) (r : nat) : res t :=
  let* rt := get st r in
  match session_node rt with
  | Some k =>
      let* st := upd st r (set_session_node None) in
      Ok (set_session_map (delete k (session_route_map_ st)) st)
  | None => Ok st
  end.

(** * Routes *)

Definition num_routes (st : t) : nat := length (route_list_ st).

(** The loop over the SSRCs, from the last one. *)
Definition remove_sources (r : nat) (l : list Z) (m : gmap Z nat) : gmap Z nat :=
  foldr (fun s m => if decide (m !! s = Some r) then delete s m else m) m l.

Definition remove_route_ (st : t) (r : nat) : res t :=
  let* rt := get st r in
  let st := set_source_map (remove_sources r (source_nodes rt) (source_route_map_ st)) st in
  let* st := upd st r (set_nodes []) in
  let* st := remove_cname st r in
  let* st := remove_address st r in
  let* st := remove_session_node st r in
  if decide (r ∈ route_list_ st) then
    Ok (mkRouter (delete r (routes st)) (filter (.≠ r) (route_list_ st)) (next_route st)
          (source_route_map_ st) (address_route_map_ st) (cname_route_map_ st)
          (session_route_map_ st) (grants st) (asked st))
  else Panic.

(** [remove_all_routes_], from the last route. *)
Fixpoint remove_all_routes_ (fuel : nat) (st : t) : res t :=
  match last (route_list_ st), fuel with
  | None, _ => Ok st
  | Some r, S fuel =>
      let* st := remove_route_ st r in
      remove_all_routes_ fuel st
  | Some _, O => Panic
  end.

Definition collect_route_ (st : t) (r : nat) : res t :=
  let* rt := get st r in
  if decide (length (source_nodes rt) = 0%nat) then remove_route_ st r else Ok st.

(** After a failed step of [create_route_] and [add_session]. *)
Definition fail_route (st : t) (r : nat) : res (t * StatusCode) :=
  let* st := remove_route_ st r in
  Ok (st, StatusNoMem).

(** [new (route_pool_) Route] and [route_list_.push_back] *)
Definition alloc_route (st : t) : t * option nat :=
  let ' (st, ok) := ask st in
  let r := next_route st in
  if ok then
    (mkRouter (<[r := new_route]> (routes st)) (route_list_ st ++ [r]) (S r)
       (source_route_map_ st) (address_route_map_ st) (cname_route_map_ st)
       (session_route_map_ st) (grants st) (asked st), Some r)
  else (st, None).

(** The four parts of [create_route_]: the result is false when one of them fails. *)
Definition route_add_source (st : t) (r : nat) (source_id : Z) : res (t * bool) :=
  let ' (st, ok) := ask st in
  if ok then
    let* st := upd st r (fun rt => set_nodes (source_nodes rt ++ [source_id]) rt) in
    let* ' (st, ok) := insert_source st r source_id in
    if ok then
      let* st := upd st r (set_main true source_id) in
      Ok (st, true)
    else Ok (st, false)
  else Ok (st, false).

Definition route_add_cname (st : t) (r : nat) (cname : list Z) : res (t * bool) :=
  let* st := upd st r (set_cname cname) in
  insert_cname st r.

Definition route_add_address (st : t) (r : nat) (addr : option Z) : res (t * bool) :=
  match addr with
  | Some _ =>
      let* st := upd st r (set_addr addr) in
      insert_address st r
  | None => Ok (st, true)
  end.

Definition route_add_session (st : t) (r : nat) (session : option Z) : res (t * bool) :=
  match session with
  | Some _ =>
      let* st := upd st r (set_session session) in
      insert_session st r
  | None => Ok (st, true)
  end.

Definition create_route_ (st : t) (source_id : Z) (source_addr : option Z)
    (cname : option (list Z)) (session : option Z) : res (t * StatusCode) :=
  let ' (st, r) := alloc_route st in
  match r with
  | None => Ok (st, StatusNoMem)
  | Some r =>
      let* ' (st, ok) := route_add_source st r source_id in
      if negb ok then fail_route st r
      else
        let* ' (st, ok) :=
          match cname with
          | Some c => route_add_cname st r c
          | None => Ok (st, true)
          end in
        if negb ok then fail_route st r
        else
          let* ' (st, ok) := route_add_address st r source_addr in
          if negb ok then fail_route st r
          else
            let* ' (st, ok) := route_add_session st r session in
            if negb ok then fail_route st r else Ok (st, StatusOK)
  end.

(** * Sessions *)

(** The session of the route of a node that was found. *)
Definition route_session (st : t) (node : option nat) : res (option Z) :=
  match node with
  | Some r => let* rt := get st r in Ok (session rt)
  | None => Ok None
  end.

Definition find_by_source (st : t) (source_id : Z) : res (option Z) :=
  route_session st (source_route_map_ st !! source_id).

Definition find_by_address (st : t) (source_addr : option Z) : res (option Z) :=
  match source_addr with
  | Some _ => route_session st (address_route_map_ st !! source_addr)
  | None => Panic
  end.

Definition has_session (st : t) (session : Z) : bool :=
  bool_decide (is_Some (session_route_map_ st !! Some session)).

Definition remove_session (st : t) (session : Z) : res t :=
  match session_route_map_ st !! Some session with
  | Some r => remove_route_ st r
  | None => Ok st
  end.

(** * SSRCs *)

(** Remove an SSRC that was found from the map and from its route. *)
Definition drop_source (st : t) (r : nat) (source_id : Z) : res t :=
  let st := set_source_map (delete source_id (source_route_map_ st)) st in
  upd st r (fun rt => set_nodes (filter (.≠ source_id) (source_nodes rt)) rt).

Definition is_main (rt : Route) (source_id : Z) : bool :=
  has_main_source_id rt && (main_source_id rt =? source_id).

Definition unlink_source (st : t) (source_id : Z) : res t :=
  match source_route_map_ st !! source_id with
  | None => Ok st
  | Some r =>
      let* st := drop_source st r source_id in
      let* rt := get st r in
      let* st := if is_main rt source_id then upd st r (set_main false 0) else Ok st in
      collect_route_ st r
  end.

Definition add_session (st : t) (sess source_id : Z) (addr : option Z) : res (t * StatusCode) :=
  if bool_decide (is_Some addr) && bool_decide (is_Some (address_route_map_ st !! addr))
  then Ok (st, StatusConflict)
  else if bool_decide (is_Some (session_route_map_ st !! Some sess)) then Ok (st, StatusConflict)
  else
    match source_route_map_ st !! source_id with
    | None => create_route_ st source_id addr None (Some sess)
    | Some r =>
        let* rt := get st r in
        match source_addr rt, session rt with
        | None, None =>
            let* ' (st, ok) := route_add_address st r addr in
            if negb ok then fail_route st r
            else
              let* ' (st, ok) := route_add_session st r (Some sess) in
              if negb ok then fail_route st r else Ok (st, StatusOK)
        | _, _ =>
            let* st := unlink_source st source_id in
            create_route_ st source_id addr None (Some sess)
        end
    end.

(** The two halves of [move_route_session_]: the result is false when one of them fails. *)
Definition move_address (st : t) (old new : nat) : res (t * bool) :=
  let* st := remove_address st old in
  let* st := remove_address st new in
  let* rt := get st old in
  let* st := upd st new (set_addr (source_addr rt)) in
  let* st := upd st old (set_addr None) in
  insert_address st new.

Definition move_session (st : t) (old new : nat) : res (t * bool) :=
  let* st := remove_session_node st old in
  let* st := remove_session_node st new in
  let* rt := get st old in
  let* st := upd st new (set_session (session rt)) in
  let* st := upd st old (set_session None) in
  insert_session st new.

Definition move_route_session_ (st : t) (old new : nat) : res (t * StatusCode) :=
  let* ' (st, ok) := move_address st old new in
  if negb ok then Ok (st, StatusNoMem)
  else
    let* ' (st, ok) := move_session st old new in
    if negb ok then Ok (st, StatusNoMem) else Ok (st, StatusOK).

(** [relink_source_], with the call of [link_source]. *)
Definition relink_with (link : t -> Z -> list Z -> res (t * StatusCode))
    (st : t) (source_id : Z) (cname : list Z) : res (t * StatusCode) :=
  match source_route_map_ st !! source_id with
  | None => Panic
  | Some old =>
      let* st := drop_source st old source_id in
      let* ' (st, code) := link st source_id cname in
      if negb (bool_decide (code = StatusOK)) then Ok (st, code)
      else
        let* old_rt := get st old in
        if is_main old_rt source_id then
          match source_route_map_ st !! source_id with
          | None => Panic
          | Some new =>
              let* ' (st, code) := move_route_session_ st old new in
              if negb (bool_decide (code = StatusOK)) then
                let* st := remove_route_ st new in
                Ok (st, code)
              else
                let* st := upd st new (set_main true source_id) in
                let* st := upd st old (set_main false 0) in
                let* st := collect_route_ st old in
                Ok (st, StatusOK)
          end
        else
          let* st := collect_route_ st old in
          Ok (st, StatusOK)
  end.

(** The last branch of [link_source]: an SSRC joins the route of a CNAME. *)
Definition join_route (st : t) (r : nat) (source_id : Z) : res (t * StatusCode) :=
  let ' (st, ok) := ask st in
  if negb ok then Ok (st, StatusNoMem)
  else
    let* st := upd st r (fun rt => set_nodes (source_nodes rt ++ [source_id]) rt) in
    let* ' (st, ok) := insert_source st r source_id in
    if ok then Ok (st, StatusOK)
    else
      let* st := upd st r (fun rt => set_nodes (filter (.≠ source_id) (source_nodes rt)) rt) in
      Ok (st, StatusNoMem).

(** [link_source] and [relink_source_] call each other; the inner call finds no SSRC and
    does not relink again, so a depth of two is enough. *)
Fixpoint link_source_ (depth : nat) (st : t) (source_id : Z) (name : list Z)
  : res (t * StatusCode) :=
  match depth with
  | O => Panic
  | S depth =>
      let relink := relink_with (link_source_ depth) in
      match source_route_map_ st !! source_id, cname_route_map_ st !! name with
      | None, None => create_route_ st source_id None (Some name) None
      | Some s, Some c => if decide (s = c) then Ok (st, StatusOK) else relink st source_id name
      | Some s, None =>
          let* rt := get st s in
          if negb (bool_decide (cname rt = [])) then relink st source_id name
          else
            let* ' (st, ok) := route_add_cname st s name in
            if ok then Ok (st, StatusOK)
            else
              let* st := upd st s (set_cname []) in
              Ok (st, StatusNoMem)
      | None, Some c => join_route st c source_id
      end
  end.

(** rtcp::MaxCnameLen *)
Definition MaxCnameLen : nat := 255.

Definition link_source (st : t) (source_id : Z) (name : list Z) : res (t * StatusCode) :=
  if bool_decide (name = []) || bool_decide (MaxCnameLen < length name)%nat then Panic
  else link_source_ 2 st source_id name.

(** * Sequences of operations *)

Inductive op : Type :=
| AddSession (sess source_id : Z) (addr : option Z)
| RemoveSession (sess : Z)
| LinkSource (source_id : Z) (name : list Z)
| UnlinkSource (source_id : Z).

Definition exec (st : t) (o : op) : res (t * StatusCode) :=
  match o with
  | AddSession sess s a => add_session st sess s a
  | RemoveSession sess => let* st := remove_session st sess in Ok (st, StatusOK)
  | LinkSource s c => link_source st s c
  | UnlinkSource s => let* st := unlink_source st s in Ok (st, StatusOK)
  end.

Fixpoint exec_all (st : t) (os : list op) : res t :=
  match os with
  | [] => Ok st
  | o :: os => let* p := exec st o in exec_all (fst p) os
  end.

End SessionRouter.
