(* ===== verification/SessionRouterSafe.v ===== *)
(** The session router keeps its four maps and its routes consistent.

    [inv_but X] is the invariant, except that the routes in [X] may be in the middle of an
    operation; [inv] is [inv_but []].  The operations are followed step by step: a step on
    the route [x] keeps [inv_but (x :: X)], and at the end of an operation [x] is put back
    in order ([inv_close]) or removed ([remove_route_ok]). *)

From stdpp Require Import gmap.
From S2P Require Import Prelude SessionRouter.
Import SessionRouter.

(** * Maps whose nodes are embedded in the routes *)

(** The map finds exactly the routes by the keys their nodes were inserted with. *)
Definition keyed {K} `{Countable K} (node : Route -> option K) (m : gmap K nat)
    (rs : gmap nat Route) : Prop :=
  forall k r, m !! k = Some r <-> exists rt, rs !! r = Some rt /\ node rt = Some k.

Section Keyed.

Context {K : Type} `{Countable K} (node : Route -> option K).

Implicit Types (m : gmap K nat) (rs : gmap nat Route).

Lemma keyed_same m rs x rt rt' :
  keyed node m rs -> rs !! x = Some rt -> node rt' = node rt -> keyed node m (<[x := rt']> rs).
Proof.
  intros Hm Hx E k r. rewrite (Hm k r). destruct (decide (r = x)) as [->|Hne].
  - rewrite lookup_insert_eq. split.
    + intros (rt0 & Hrt0 & Hk). exists rt'. split; [done|]. congruence.
    + intros (rt0 & [= <-] & Hk). exists rt. split; [done|]. congruence.
  - by rewrite lookup_insert_ne.
Qed.

Lemma keyed_add m rs x rt rt' k :
  keyed node m rs -> rs !! x = Some rt -> node rt = None -> m !! k = None ->
  node rt' = Some k -> keyed node (<[k := x]> m) (<[x := rt']> rs).
Proof.
  intros Hm Hx E Hk E' k' r. destruct (decide (k' = k)) as [->|Hne].
  - rewrite lookup_insert_eq. split.
    + intros [= <-]. exists rt'. by rewrite lookup_insert_eq.
    + intros (rt0 & Hr & Hn). destruct (decide (r = x)) as [->|Hr']; [done|].
      rewrite lookup_insert_ne in Hr by done.
      assert (m !! k = Some r) by (apply Hm; eauto). congruence.
  - rewrite lookup_insert_ne by done. rewrite (Hm k' r).
    destruct (decide (r = x)) as [->|Hr].
    + rewrite lookup_insert_eq. split; intros (rt0 & Hr0 & Hn); [|congruence].
      rewrite Hx in Hr0. congruence.
    + by rewrite lookup_insert_ne.
Qed.

Lemma keyed_del m rs x rt rt' k :
  keyed node m rs -> rs !! x = Some rt -> node rt = Some k -> node rt' = None ->
  keyed node (delete k m) (<[x := rt']> rs).
Proof.
  intros Hm Hx E E' k' r. destruct (decide (k' = k)) as [->|Hne].
  - rewrite lookup_delete_eq. split; [done|]. intros (rt0 & Hr & Hn).
    destruct (decide (r = x)) as [->|Hr']; [rewrite lookup_insert_eq in Hr; congruence|].
    rewrite lookup_insert_ne in Hr by done.
    assert (m !! k = Some r) by (apply Hm; eauto).
    assert (m !! k = Some x) by (apply Hm; eauto). congruence.
  - rewrite lookup_delete_ne by done. rewrite (Hm k' r).
    destruct (decide (r = x)) as [->|Hr].
    + rewrite lookup_insert_eq. split; intros (rt0 & Hr0 & Hn); congruence.
    + by rewrite lookup_insert_ne.
Qed.

Lemma keyed_new m rs x rt :
  keyed node m rs -> rs !! x = None -> node rt = None -> keyed node m (<[x := rt]> rs).
Proof.
  intros Hm Hx E k r. rewrite (Hm k r). destruct (decide (r = x)) as [->|Hne].
  - rewrite lookup_insert_eq. split; intros (rt0 & Hr0 & Hn); congruence.
  - by rewrite lookup_insert_ne.
Qed.

Lemma keyed_forget m rs x rt :
  keyed node m rs -> rs !! x = Some rt -> node rt = None -> keyed node m (delete x rs).
Proof.
  intros Hm Hx E k r. rewrite (Hm k r). destruct (decide (r = x)) as [->|Hne].
  - rewrite lookup_delete_eq. split; intros (rt0 & Hr0 & Hn); congruence.
  - by rewrite lookup_delete_ne.
Qed.

Lemma keyed_lookup m rs x rt k :
  keyed node m rs -> rs !! x = Some rt -> node rt = Some k -> m !! k = Some x.
Proof. intros Hm Hx E. apply Hm. eauto. Qed.

End Keyed.

(** * The invariant *)

(** The nodes of a route are in the maps exactly when the route has the key. *)
Definition tidy (rt : Route) : Prop :=
  address_node rt = match source_addr rt with Some a => Some (Some a) | None => None end /\
  cname_node rt = match cname rt with [] => None | c => Some c end /\
  session_node rt = match session rt with Some s => Some (Some s) | None => None end.

Definition good (st : t) (r : nat) (rt : Route) : Prop :=
  tidy rt /\ NoDup (source_nodes rt) /\
  forall s, s ∈ source_nodes rt -> source_route_map_ st !! s = Some r.

Record inv_but (X : list nat) (st : t) : Prop := {
  b_list : NoDup (route_list_ st);
  b_dom : forall r, r ∈ route_list_ st <-> is_Some (routes st !! r);
  b_next : forall r, is_Some (routes st !! r) -> (r < next_route st)%nat;
  b_address : keyed address_node (address_route_map_ st) (routes st);
  b_cname : keyed cname_node (cname_route_map_ st) (routes st);
  b_session : keyed session_node (session_route_map_ st) (routes st);
  b_source : forall s r, source_route_map_ st !! s = Some r ->
    exists rt, routes st !! r = Some rt /\ s ∈ source_nodes rt;
  b_good : forall r rt, r ∉ X -> routes st !! r = Some rt -> good st r rt;
  b_grants : forall n, grants st n <> Stalled
}.

Abbreviation inv := (inv_but []).

Definition up (st : t) (x : nat) (rt : Route) : t := set_routes (<[x := rt]> (routes st)) st.

Lemma get_ok st x rt : routes st !! x = Some rt -> get st x = Ok rt.
Proof. unfold get. by intros ->. Qed.

Lemma upd_ok st x rt f : routes st !! x = Some rt -> upd st x f = Ok (up st x (f rt)).
Proof. intros Hx. unfold upd. by rewrite (get_ok st x rt Hx). Qed.

Lemma inv_weaken X Y st : inv_but X st -> X ⊆ Y -> inv_but Y st.
Proof. intros [] HXY. split; try done. intros r rt Hr. apply b_good0. set_solver. Qed.

Lemma inv_close x X st :
  inv_but (x :: X) st -> (forall rt, routes st !! x = Some rt -> good st x rt) -> inv_but X st.
Proof.
  intros [] Hx. split; try done. intros r rt Hr Hrt.
  destruct (decide (r = x)) as [->|Hne]; [by apply Hx|]. apply b_good0; [|done].
  by intros [?|?]%elem_of_cons.
Qed.

(** A change of the route [x] and of the maps that hold its nodes. *)
Lemma inv_set x X st rt rt' am cm sm n :
  inv_but (x :: X) st -> routes st !! x = Some rt ->
  keyed address_node am (<[x := rt']> (routes st)) ->
  keyed cname_node cm (<[x := rt']> (routes st)) ->
  keyed session_node sm (<[x := rt']> (routes st)) ->
  (forall s, source_route_map_ st !! s = Some x -> s ∈ source_nodes rt') ->
  inv_but (x :: X)
    (mkRouter (<[x := rt']> (routes st)) (route_list_ st) (next_route st)
       (source_route_map_ st) am cm sm (grants st) n).
Proof.
  intros [] Hx Ha Hc Hs Hn. split; cbn; try done.
  - intros r. rewrite b_dom0. destruct (decide (r = x)) as [->|Hne].
    + by rewrite lookup_insert_eq, Hx.
    + by rewrite lookup_insert_ne.
  - intros r Hr. apply b_next0. destruct (decide (r = x)) as [->|Hne]; [by rewrite Hx|].
    by rewrite lookup_insert_ne in Hr.
  - intros s r Hr. destruct (decide (r = x)) as [->|Hne].
    + exists rt'. rewrite lookup_insert_eq. auto.
    + rewrite lookup_insert_ne by done. by apply b_source0.
  - intros r rt0 Hr Hrt0. rewrite lookup_insert_ne in Hrt0 by set_solver.
    by apply b_good0.
Qed.

Lemma source_elem X st s x rt :
  inv_but X st -> routes st !! x = Some rt -> source_route_map_ st !! s = Some x ->
  s ∈ source_nodes rt.
Proof. intros Hi Hx Hs. destruct (b_source _ _ Hi s x Hs) as (rt0 & E & Hin). congruence. Qed.

(** A change of fields of [x] that leaves its nodes alone. *)
Lemma inv_up x X st rt rt' :
  inv_but (x :: X) st -> routes st !! x = Some rt ->
  address_node rt' = address_node rt -> cname_node rt' = cname_node rt ->
  session_node rt' = session_node rt ->
  (forall s, source_route_map_ st !! s = Some x -> s ∈ source_nodes rt') ->
  inv_but (x :: X) (up st x rt').
Proof.
  intros Hi Hx Ha Hc Hs Hn. eapply (inv_set x X st rt rt'); try done.
  all: destruct Hi; by eapply keyed_same.
Qed.

Lemma inv_ask X st : inv_but X st -> inv_but X (fst (ask st)).
Proof. by intros []. Qed.

(** Inserting the nodes of [x]: the insertion fails, or the node is in its map. *)
Lemma insert_address_ok x X st rt :
  inv_but (x :: X) st -> routes st !! x = Some rt -> address_node rt = None ->
  address_route_map_ st !! source_addr rt = None ->
  exists st' ok, insert_address st x = Ok (st', ok) /\ inv_but (x :: X) st' /\
    routes st' = (if ok then <[x := set_address_node (Some (source_addr rt)) rt]> (routes st)
                  else routes st) /\
    address_route_map_ st' = (if ok then <[source_addr rt := x]> (address_route_map_ st)
                              else address_route_map_ st) /\
    source_route_map_ st' = source_route_map_ st /\ cname_route_map_ st' = cname_route_map_ st /\
    session_route_map_ st' = session_route_map_ st.
Proof.
  intros Hi Hx Hnode Hk. unfold insert_address, ask_insert. cbn [ask].
  pose proof (b_grants _ _ Hi (asked st)).
  destruct (grants st (asked st)) eqn:Eg; cbn [res_bind]; unfold ask; rewrite ?Eg; cbn [is_granted];
    [|eexists _, false; split; [done|]; split; [by apply inv_ask|done]|done].
  unfold get, upd, get. cbn [routes address_route_map_]. rewrite Hx. cbn [res_bind].
  rewrite Hnode. unfold insert_node. rewrite Hk. cbn [res_bind routes]. rewrite ?Hx. cbn [res_bind].
  eexists _, true. split; [done|]. split; [|done].
  eapply (inv_set x X st rt); try done.
  - destruct Hi. by eapply keyed_add.
  - destruct Hi. by eapply keyed_same.
  - destruct Hi. by eapply keyed_same.
  - intros s Hs. exact (source_elem _ _ s x rt Hi Hx Hs).
Qed.

Lemma insert_cname_ok x X st rt :
  inv_but (x :: X) st -> routes st !! x = Some rt -> cname_node rt = None ->
  cname_route_map_ st !! cname rt = None ->
  exists st' ok, insert_cname st x = Ok (st', ok) /\ inv_but (x :: X) st' /\
    routes st' = (if ok then <[x := set_cname_node (Some (cname rt)) rt]> (routes st)
                  else routes st) /\
    cname_route_map_ st' = (if ok then <[cname rt := x]> (cname_route_map_ st)
                            else cname_route_map_ st) /\
    source_route_map_ st' = source_route_map_ st /\
    address_route_map_ st' = address_route_map_ st /\
    session_route_map_ st' = session_route_map_ st.
Proof.
  intros Hi Hx Hnode Hk. unfold insert_cname, ask_insert. cbn [ask].
  pose proof (b_grants _ _ Hi (asked st)).
  destruct (grants st (asked st)) eqn:Eg; cbn [res_bind]; unfold ask; rewrite ?Eg; cbn [is_granted];
    [|eexists _, false; split; [done|]; split; [by apply inv_ask|done]|done].
  unfold get, upd, get. cbn [routes cname_route_map_]. rewrite Hx. cbn [res_bind].
  rewrite Hnode. unfold insert_node. rewrite Hk. cbn [res_bind routes]. rewrite ?Hx. cbn [res_bind].
  eexists _, true. split; [done|]. split; [|done].
  eapply (inv_set x X st rt); try done.
  - destruct Hi. by eapply keyed_same.
  - destruct Hi. by eapply keyed_add.
  - destruct Hi. by eapply keyed_same.
  - intros s Hs. exact (source_elem _ _ s x rt Hi Hx Hs).
Qed.

Lemma insert_session_ok x X st rt :
  inv_but (x :: X) st -> routes st !! x = Some rt -> session_node rt = None ->
  session_route_map_ st !! session rt = None ->
  exists st' ok, insert_session st x = Ok (st', ok) /\ inv_but (x :: X) st' /\
    routes st' = (if ok then <[x := set_session_node (Some (session rt)) rt]> (routes st)
                  else routes st) /\
    session_route_map_ st' = (if ok then <[session rt := x]> (session_route_map_ st)
                              else session_route_map_ st) /\
    source_route_map_ st' = source_route_map_ st /\
    address_route_map_ st' = address_route_map_ st /\
    cname_route_map_ st' = cname_route_map_ st.
Proof.
  intros Hi Hx Hnode Hk. unfold insert_session, ask_insert. cbn [ask].
  pose proof (b_grants _ _ Hi (asked st)).
  destruct (grants st (asked st)) eqn:Eg; cbn [res_bind]; unfold ask; rewrite ?Eg; cbn [is_granted];
    [|eexists _, false; split; [done|]; split; [by apply inv_ask|done]|done].
  unfold get, upd, get. cbn [routes session_route_map_]. rewrite Hx. cbn [res_bind].
  rewrite Hnode. unfold insert_node. rewrite Hk. cbn [res_bind routes]. rewrite ?Hx. cbn [res_bind].
  eexists _, true. split; [done|]. split; [|done].
  eapply (inv_set x X st rt); try done.
  - destruct Hi. by eapply keyed_same.
  - destruct Hi. by eapply keyed_same.
  - destruct Hi. by eapply keyed_add.
  - intros s Hs. exact (source_elem _ _ s x rt Hi Hx Hs).
Qed.

(** Removing the nodes of [x]. *)
Lemma remove_address_ok x X st rt :
  inv_but (x :: X) st -> routes st !! x = Some rt ->
  exists st', remove_address st x = Ok st' /\ inv_but (x :: X) st' /\
    routes st' = <[x := set_address_node None rt]> (routes st) /\
    address_route_map_ st' =
      match address_node rt with Some k => delete k (address_route_map_ st) | None => address_route_map_ st end /\
    source_route_map_ st' = source_route_map_ st /\
    cname_route_map_ st' = cname_route_map_ st /\
    session_route_map_ st' = session_route_map_ st /\
    route_list_ st' = route_list_ st.
Proof.
  intros Hi Hx. unfold remove_address. rewrite (get_ok st x rt Hx). cbn [res_bind].
  destruct (address_node rt) as [k|] eqn:Hk.
  2: { exists st. do 2 (split; [done|]). split; [|done]. symmetry. apply insert_id.
       rewrite Hx. f_equal. rewrite <- Hk. by destruct rt. }
  rewrite (upd_ok st x rt _ Hx). cbn [res_bind]. eexists. split; [done|]. split; [|done].
  eapply (inv_set x X st rt); try done.
  - destruct Hi. by eapply keyed_del.
  - destruct Hi. by eapply keyed_same.
  - destruct Hi. by eapply keyed_same.
  - intros s Hs. exact (source_elem _ _ s x rt Hi Hx Hs).
Qed.

Lemma remove_cname_ok x X st rt :
  inv_but (x :: X) st -> routes st !! x = Some rt ->
  exists st', remove_cname st x = Ok st' /\ inv_but (x :: X) st' /\
    routes st' = <[x := set_cname_node None rt]> (routes st) /\
    cname_route_map_ st' =
      match cname_node rt with Some k => delete k (cname_route_map_ st) | None => cname_route_map_ st end /\
    source_route_map_ st' = source_route_map_ st /\
    address_route_map_ st' = address_route_map_ st /\
    session_route_map_ st' = session_route_map_ st /\
    route_list_ st' = route_list_ st.
Proof.
  intros Hi Hx. unfold remove_cname. rewrite (get_ok st x rt Hx). cbn [res_bind].
  destruct (cname_node rt) as [k|] eqn:Hk.
  2: { exists st. do 2 (split; [done|]). split; [|done]. symmetry. apply insert_id.
       rewrite Hx. f_equal. rewrite <- Hk. by destruct rt. }
  rewrite (upd_ok st x rt _ Hx). cbn [res_bind]. eexists. split; [done|]. split; [|done].
  eapply (inv_set x X st rt); try done.
  - destruct Hi. by eapply keyed_same.
  - destruct Hi. by eapply keyed_del.
  - destruct Hi. by eapply keyed_same.
  - intros s Hs. exact (source_elem _ _ s x rt Hi Hx Hs).
Qed.

Lemma remove_session_node_ok x X st rt :
  inv_but (x :: X) st -> routes st !! x = Some rt ->
  exists st', remove_session_node st x = Ok st' /\ inv_but (x :: X) st' /\
    routes st' = <[x := set_session_node None rt]> (routes st) /\
    session_route_map_ st' =
      match session_node rt with Some k => delete k (session_route_map_ st) | None => session_route_map_ st end /\
    source_route_map_ st' = source_route_map_ st /\
    address_route_map_ st' = address_route_map_ st /\
    cname_route_map_ st' = cname_route_map_ st /\
    route_list_ st' = route_list_ st.
Proof.
  intros Hi Hx. unfold remove_session_node. rewrite (get_ok st x rt Hx). cbn [res_bind].
  destruct (session_node rt) as [k|] eqn:Hk.
  2: { exists st. do 2 (split; [done|]). split; [|done]. symmetry. apply insert_id.
       rewrite Hx. f_equal. rewrite <- Hk. by destruct rt. }
  rewrite (upd_ok st x rt _ Hx). cbn [res_bind]. eexists. split; [done|]. split; [|done].
  eapply (inv_set x X st rt); try done.
  - destruct Hi. by eapply keyed_same.
  - destruct Hi. by eapply keyed_same.
  - destruct Hi. by eapply keyed_del.
  - intros s Hs. exact (source_elem _ _ s x rt Hi Hx Hs).
Qed.

(** * Removing a route *)

Lemma remove_sources_lookup r l m s :
  remove_sources r l m !! s = if decide (s ∈ l /\ m !! s = Some r) then None else m !! s.
Proof.
  induction l as [|s' l IH].
  { rewrite decide_False; [done|]. intros [Hin _]. inversion Hin. }
  change (remove_sources r (s' :: l) m) with
    (if decide (remove_sources r l m !! s' = Some r) then delete s' (remove_sources r l m)
     else remove_sources r l m).
  destruct (decide (remove_sources r l m !! s' = Some r)) as [Hd|Hd].
  - destruct (decide (s = s')) as [->|Hne].
    + rewrite lookup_delete_eq. rewrite IH in Hd. case_decide as Hd'; [done|].
      rewrite decide_True; [done|]. split; [left|done].
    + rewrite lookup_delete_ne, IH by done. apply decide_ext. rewrite elem_of_cons. naive_solver.
  - destruct (decide (s = s')) as [->|Hne].
    + rewrite IH in *. destruct (decide (s' ∈ l /\ m !! s' = Some r)) as [[? ?]|Hn].
      * rewrite decide_True; [done|]. split; [by right|done].
      * rewrite decide_False; [done|]. intros [_ ?]. congruence.
    + rewrite IH. apply decide_ext. rewrite elem_of_cons. naive_solver.
Qed.

(** The maps without the route [x]. *)
Definition without {K} `{Countable K} (x : nat) (m m' : gmap K nat) : Prop :=
  forall k, m' !! k = if decide (m !! k = Some x) then None else m !! k.

Lemma without_node {K} `{Countable K} (node : Route -> option K) m rs x rt :
  keyed node m rs -> rs !! x = Some rt ->
  without x m (match node rt with Some k => delete k m | None => m end).
Proof.
  intros Hm Hx k. destruct (node rt) as [k0|] eqn:E.
  - destruct (decide (k = k0)) as [->|Hne].
    + rewrite lookup_delete_eq, decide_True; [done|]. by eapply keyed_lookup.
    + rewrite lookup_delete_ne by done. case_decide as Hk; [|done].
      apply Hm in Hk as (rt0 & ? & ?). congruence.
  - case_decide as Hk; [|done]. apply Hm in Hk as (rt0 & ? & ?). congruence.
Qed.

(** A route that is in no map any more leaves the list. *)
Lemma forget_ok x X st rt :
  inv_but (x :: X) st -> routes st !! x = Some rt -> address_node rt = None ->
  cname_node rt = None -> session_node rt = None -> source_nodes rt = [] ->
  inv_but X
    (mkRouter (delete x (routes st)) (filter (.≠ x) (route_list_ st)) (next_route st)
       (source_route_map_ st) (address_route_map_ st) (cname_route_map_ st)
       (session_route_map_ st) (grants st) (asked st)).
Proof.
  intros Hi Hx Ha Hc Hs Hn. destruct Hi. split; cbn.
  - by apply NoDup_filter.
  - intros r. rewrite list_elem_of_filter, b_dom0, lookup_delete_is_Some. naive_solver.
  - intros r [_ Hr]%lookup_delete_is_Some. by apply b_next0.
  - by eapply keyed_forget.
  - by eapply keyed_forget.
  - by eapply keyed_forget.
  - intros s r Hr. destruct (b_source0 s r Hr) as (rt0 & Hrt0 & Hin). exists rt0.
    split; [|done]. rewrite lookup_delete_ne; [done|]. intros <-.
    rewrite Hx in Hrt0. injection Hrt0 as <-. rewrite Hn in Hin. inversion Hin.
  - intros r rt0 Hr [Hne Hrt0]%lookup_delete_Some. apply b_good0; [|done].
    intros [?|?]%elem_of_cons; [congruence|done].
  - exact b_grants0.
Qed.

Lemma remove_route_ok x X st :
  inv_but (x :: X) st -> is_Some (routes st !! x) ->
  exists st', remove_route_ st x = Ok st' /\ inv_but X st' /\
    routes st' = delete x (routes st) /\
    without x (source_route_map_ st) (source_route_map_ st') /\
    without x (address_route_map_ st) (address_route_map_ st') /\
    without x (cname_route_map_ st) (cname_route_map_ st') /\
    without x (session_route_map_ st) (session_route_map_ st').
Proof.
  intros Hi [rt Hx]. unfold remove_route_. rewrite (get_ok st x rt Hx). cbn [res_bind].
  set (sm := remove_sources x (source_nodes rt) (source_route_map_ st)).
  assert (Hsm : without x (source_route_map_ st) sm).
  { intros s. unfold sm. rewrite remove_sources_lookup.
    destruct (decide (source_route_map_ st !! s = Some x)) as [Hs|Hs].
    - rewrite decide_True; [done|]. split; [|done]. by eapply source_elem.
    - rewrite decide_False; [done|]. tauto. }
  set (st0 := set_source_map sm st).
  rewrite (upd_ok st0 x rt _ Hx). cbn [res_bind].
  set (st1 := up st0 x (set_nodes [] rt)).
  assert (Hi1 : inv_but (x :: X) st1).
  { assert (inv_but (x :: X) st0) as Hi0.
    { destruct Hi. split; try done.
      - intros s r Hr. cbn in Hr. rewrite (Hsm s) in Hr. case_decide; [done|]. by apply b_source0.
      - intros r rt0 Hr Hrt0. destruct (b_good0 r rt0 Hr Hrt0) as (Ht & Hd & Hs).
        split; [done|]. split; [done|]. intros s Hin. cbn. rewrite (Hsm s), (Hs s Hin).
        rewrite decide_False; [done|]. intros [= ->]. apply Hr. left. }
    eapply (inv_up x X st0 rt); try done. cbn. intros s Hs. rewrite (Hsm s) in Hs.
    by case_decide. }
  assert (Hx1 : routes st1 !! x = Some (set_nodes [] rt)) by (cbn; apply lookup_insert_eq).
  destruct (remove_cname_ok x X st1 _ Hi1 Hx1) as (st2 & -> & Hi2 & Hr2 & Hc2 & Hs2 & Ha2 & Hx2 & Hl2).
  assert (Hx2' : routes st2 !! x = Some (set_cname_node None (set_nodes [] rt)))
    by (rewrite Hr2; apply lookup_insert_eq). cbn [res_bind].
  destruct (remove_address_ok x X st2 _ Hi2 Hx2') as (st3 & -> & Hi3 & Hr3 & Ha3 & Hs3 & Hc3 & Hx3 & Hl3).
  assert (Hx3' : routes st3 !! x = Some (set_address_node None (set_cname_node None (set_nodes [] rt))))
    by (rewrite Hr3; apply lookup_insert_eq). cbn [res_bind].
  destruct (remove_session_node_ok x X st3 _ Hi3 Hx3') as (st4 & -> & Hi4 & Hr4 & Hx4 & Hs4 & Ha4 & Hc4 & Hl4).
  cbn [res_bind]. rewrite decide_True.
  2: { apply Hi4. rewrite Hr4, lookup_insert_eq. eauto. }
  assert (Hx4' : routes st4 !! x = Some (set_session_node None (set_address_node None
      (set_cname_node None (set_nodes [] rt))))) by (rewrite Hr4; apply lookup_insert_eq).
  eexists. split; [done|]. split; [by eapply (forget_ok x X st4)|]. cbn.
  split; [rewrite Hr4, Hr3, Hr2; cbn; by rewrite !insert_insert_eq, delete_insert_eq|].
  rewrite Hs4, Hs3, Hs2, Ha4, Ha3, Ha2, Hc4, Hc3, Hc2, Hx4, Hx3, Hx2. cbn.
  split; [done|]. destruct Hi. split; [by eapply without_node|]. split; by eapply without_node.
Qed.

(** * SSRCs *)

Lemma insert_source_ok x X st rt s :
  inv_but (x :: X) st -> routes st !! x = Some rt -> s ∈ source_nodes rt ->
  source_route_map_ st !! s = None ->
  exists st' ok, insert_source st x s = Ok (st', ok) /\ inv_but (x :: X) st' /\
    routes st' = routes st /\
    source_route_map_ st' = (if ok then <[s := x]> (source_route_map_ st)
                             else source_route_map_ st) /\
    address_route_map_ st' = address_route_map_ st /\
    cname_route_map_ st' = cname_route_map_ st /\
    session_route_map_ st' = session_route_map_ st.
Proof.
  intros Hi Hx Hin Hs. unfold insert_source, ask_insert. cbn [ask].
  pose proof (b_grants _ _ Hi (asked st)).
  destruct (grants st (asked st)) eqn:Eg; cbn [res_bind]; unfold ask; rewrite ?Eg; cbn [is_granted];
    [|eexists _, false; split; [done|]; split; [by apply inv_ask|done]|done].
  cbn [source_route_map_ insert_node]. rewrite Hs. cbn [res_bind].
  eexists _, true. split; [done|]. split; [|done]. destruct Hi. split; cbn; try done.
  - intros s' r Hr. destruct (decide (s' = s)) as [->|Hne].
    + rewrite lookup_insert_eq in Hr. injection Hr as <-. eauto.
    + rewrite lookup_insert_ne in Hr by done. by apply b_source0.
  - intros r rt0 Hr Hrt0. destruct (b_good0 r rt0 Hr Hrt0) as (Ht & Hd & Hs').
    split; [done|]. split; [done|]. intros s' Hin'. specialize (Hs' s' Hin'). cbn.
    rewrite lookup_insert_ne; [done|]. intros <-. congruence.
Qed.

Lemma drop_source_ok st x rt s :
  inv st -> routes st !! x = Some rt -> source_route_map_ st !! s = Some x ->
  exists st', drop_source st x s = Ok st' /\ inv st' /\
    routes st' = <[x := set_nodes (filter (.≠ s) (source_nodes rt)) rt]> (routes st) /\
    source_route_map_ st' = delete s (source_route_map_ st) /\
    address_route_map_ st' = address_route_map_ st /\
    cname_route_map_ st' = cname_route_map_ st /\
    session_route_map_ st' = session_route_map_ st.
Proof.
  intros Hi Hx Hs. unfold drop_source.
  set (st0 := set_source_map (delete s (source_route_map_ st)) st).
  rewrite (upd_ok st0 x rt _ Hx). eexists. split; [done|]. split; [|done].
  pose proof (b_good _ _ Hi x rt (not_elem_of_nil x) Hx) as (Ht & Hd & Hg).
  apply (inv_close x).
  - eapply (inv_up x [] st0 rt); try done.
    + destruct (inv_weaken _ [x] _ Hi ltac:(set_solver)). split; try done.
      * intros s' r Hr. cbn in Hr. apply lookup_delete_Some in Hr as [_ Hr]. by apply b_source0.
      * intros r rt0 Hr Hrt0. destruct (b_good0 r rt0 Hr Hrt0) as (Ht' & Hd' & Hg').
        split; [done|]. split; [done|]. intros s' Hin. cbn. rewrite lookup_delete_ne; [by apply Hg'|].
        intros <-. specialize (Hg' _ Hin). rewrite Hs in Hg'. injection Hg' as <-. apply Hr. left.
    + cbn. intros s' [Hne Hs']%lookup_delete_Some. apply list_elem_of_filter. split; [done|].
      by eapply source_elem.
  - cbn. intros rt0. rewrite lookup_insert_eq. intros [= <-]. split; [done|].
    split; [by apply NoDup_filter|]. cbn. intros s' [Hne Hin]%list_elem_of_filter.
    rewrite lookup_delete_ne by done. by apply Hg.
Qed.

(** * Building a route *)

Lemma alloc_route_ok st :
  inv st ->
  exists st' r, alloc_route st = (st', r) /\ inv st' /\
    source_route_map_ st' = source_route_map_ st /\
    address_route_map_ st' = address_route_map_ st /\
    cname_route_map_ st' = cname_route_map_ st /\
    session_route_map_ st' = session_route_map_ st /\
    routes st' = match r with Some r => <[r := new_route]> (routes st) | None => routes st end /\
    (forall x, r = Some x -> routes st !! x = None).
Proof.
  intros Hi. unfold alloc_route. cbn [ask].
  destruct (is_granted (grants st (asked st))); [|eexists _, None; split; [done|]; by destruct Hi].
  cbn [next_route]. eexists _, (Some (next_route st)). split; [done|].
  assert (Hf : routes st !! next_route st = None).
  { apply eq_None_not_Some. intros Hs%(b_next _ _ Hi). lia. }
  split; [|by repeat split; intros; simplify_eq].
  destruct Hi. split; cbn.
  - apply NoDup_app. split; [done|]. split; [|apply NoDup_singleton].
    intros r Hr ->%list_elem_of_singleton. apply b_dom0 in Hr. rewrite Hf in Hr. by destruct Hr.
  - intros r. rewrite elem_of_app, list_elem_of_singleton, b_dom0.
    destruct (decide (r = next_route st)) as [->|Hne].
    + rewrite lookup_insert_eq. naive_solver.
    + rewrite lookup_insert_ne by done. naive_solver.
  - intros r. destruct (decide (r = next_route st)) as [->|Hne]; [lia|].
    rewrite lookup_insert_ne by done. intros Hr%b_next0. lia.
  - by apply keyed_new.
  - by apply keyed_new.
  - by apply keyed_new.
  - intros s r Hr. destruct (b_source0 s r Hr) as (rt & Hrt & Hin). exists rt.
    rewrite lookup_insert_ne; [done|]. intros <-. congruence.
  - intros r rt _ Hrt. destruct (decide (r = next_route st)) as [->|Hne].
    + rewrite lookup_insert_eq in Hrt. injection Hrt as <-. split; [done|]. split; [constructor|].
      intros s Hs. inversion Hs.
    + rewrite lookup_insert_ne in Hrt by done. by apply b_good0; [set_solver|].
  - exact b_grants0.
Qed.

(** The state between the steps that build or change the route [x]: [rt] is its content, the
    other routes are those of [st0]. *)
Record at_route (st0 st : t) (x : nat) (rt : Route) : Prop := {
  a_inv : inv_but [x] st;
  a_here : routes st !! x = Some rt;
  a_frame : forall r, r <> x -> routes st !! r = routes st0 !! r
}.

Lemma at_route_start st x rt : inv st -> routes st !! x = Some rt -> at_route st st x rt.
Proof. intros Hi Hx. split; [|done|done]. apply (inv_weaken _ _ _ Hi). set_solver. Qed.

Lemma at_route_end st0 st x rt : at_route st0 st x rt -> good st x rt -> inv st.
Proof. intros [Hi Hx _] Hg. apply (inv_close x); [done|]. intros rt' Hx'. congruence. Qed.

Lemma at_route_up st0 st x rt rt' :
  at_route st0 st x rt ->
  address_node rt' = address_node rt -> cname_node rt' = cname_node rt ->
  session_node rt' = session_node rt ->
  (forall s, s ∈ source_nodes rt -> s ∈ source_nodes rt') ->
  at_route st0 (up st x rt') x rt'.
Proof.
  intros [Hi Hx Hf] Ha Hc Hs Hn. split; cbn.
  - eapply (inv_up x [] st rt); try done. intros s Hs'. apply Hn. by eapply source_elem.
  - apply lookup_insert_eq.
  - intros r Hr. rewrite lookup_insert_ne by done. auto.
Qed.

Lemma at_route_set st0 st st' x rt rt' :
  at_route st0 st x rt -> inv_but [x] st' -> routes st' = <[x := rt']> (routes st) ->
  at_route st0 st' x rt'.
Proof.
  intros [Hi Hx Hf] Hi' Hr. split; [done|rewrite Hr; apply lookup_insert_eq|].
  intros r Hne. rewrite Hr, lookup_insert_ne by done. auto.
Qed.

Lemma at_route_same st0 st st' x rt :
  at_route st0 st x rt -> inv_but [x] st' -> routes st' = routes st -> at_route st0 st' x rt.
Proof. intros [Hi Hx Hf] Hi' Hr. split; [done|by rewrite Hr|]. intros r Hne. rewrite Hr. auto. Qed.

(** The last resort of every step: the route is removed. *)
Lemma fail_route_ok st0 st x rt :
  at_route st0 st x rt ->
  exists st', fail_route st x = Ok (st', StatusNoMem) /\ inv st' /\
    (forall r, r <> x -> routes st' !! r = routes st0 !! r) /\ routes st' !! x = None.
Proof.
  intros [Hi Hx Hf]. unfold fail_route.
  destruct (remove_route_ok x [] st Hi ltac:(eauto)) as (st' & -> & Hi' & Hr & _).
  cbn [res_bind]. exists st'. split; [done|]. split; [done|]. rewrite Hr. split.
  - intros r Hne. rewrite lookup_delete_ne by done. auto.
  - apply lookup_delete_eq.
Qed.

Lemma route_add_source_ok st0 st x rt s :
  at_route st0 st x rt -> source_route_map_ st !! s = None ->
  exists st' ok rt', route_add_source st x s = Ok (st', ok) /\ at_route st0 st' x rt' /\
    (ok = true -> rt' = set_main true s (set_nodes (source_nodes rt ++ [s]) rt) /\
                  source_route_map_ st' = <[s := x]> (source_route_map_ st)) /\
    address_route_map_ st' = address_route_map_ st /\
    cname_route_map_ st' = cname_route_map_ st /\
    session_route_map_ st' = session_route_map_ st.
Proof.
  intros Ha Hs. unfold route_add_source. cbn [ask].
  destruct (is_granted (grants st (asked st))).
  2: { eexists _, false, rt. split; [done|]. split; [|done].
       eapply at_route_same; [done|by apply inv_ask, Ha|done]. }
  set (st1 := mkRouter _ _ _ _ _ _ _ _ _).
  assert (Ha1 : at_route st0 st1 x rt) by (eapply at_route_same; [done|by apply inv_ask, Ha|done]).
  rewrite (upd_ok st1 x rt _ (a_here _ _ _ _ Ha1)). cbn [res_bind].
  set (rt2 := set_nodes (source_nodes rt ++ [s]) rt).
  assert (Ha2 : at_route st0 (up st1 x rt2) x rt2).
  { eapply at_route_up; try done. cbn. intros s' ?. apply elem_of_app. by left. }
  destruct (insert_source_ok x [] (up st1 x rt2) rt2 s) as
    (st3 & ok & -> & Hi3 & Hr3 & Hs3 & Ham & Hcm & Hxm); [apply Ha2|apply Ha2| |done|].
  { cbn. apply elem_of_app. right. by apply list_elem_of_singleton. }
  cbn [res_bind]. assert (Ha3 : at_route st0 st3 x rt2) by (by eapply at_route_same).
  destruct ok.
  - rewrite (upd_ok st3 x rt2 _ (a_here _ _ _ _ Ha3)). cbn [res_bind].
    eexists _, true, _. split; [done|]. split; [by eapply at_route_up|]. done.
  - eexists _, false, _. split; [done|]. split; [done|]. done.
Qed.

Lemma route_add_cname_ok st0 st x rt c :
  at_route st0 st x rt -> cname_node rt = None -> cname_route_map_ st !! c = None ->
  exists st' ok rt', route_add_cname st x c = Ok (st', ok) /\ at_route st0 st' x rt' /\
    rt' = (if ok then set_cname_node (Some c) (set_cname c rt) else set_cname c rt) /\
    source_route_map_ st' = source_route_map_ st /\
    address_route_map_ st' = address_route_map_ st /\
    session_route_map_ st' = session_route_map_ st.
Proof.
  intros Ha Hn Hc. unfold route_add_cname. rewrite (upd_ok st x rt _ (a_here _ _ _ _ Ha)).
  cbn [res_bind]. assert (Ha1 : at_route st0 (up st x (set_cname c rt)) x (set_cname c rt))
    by (by eapply at_route_up).
  destruct (insert_cname_ok x [] _ _ (a_inv _ _ _ _ Ha1) (a_here _ _ _ _ Ha1))
    as (st' & ok & -> & Hi' & Hr & Hcm & Hsm & Ham & Hxm); [done|done|].
  exists st', ok. eexists. split; [done|]. split; [|done].
  destruct ok; [by eapply at_route_set|by eapply at_route_same].
Qed.

Lemma route_add_address_ok st0 st x rt addr :
  at_route st0 st x rt -> address_node rt = None -> source_addr rt = None ->
  (is_Some addr -> address_route_map_ st !! addr = None) ->
  exists st' ok rt', route_add_address st x addr = Ok (st', ok) /\ at_route st0 st' x rt' /\
    (ok = true -> rt' = set_address_node (Some <$> addr) (set_addr addr rt)) /\
    source_route_map_ st' = source_route_map_ st /\
    cname_route_map_ st' = cname_route_map_ st /\
    session_route_map_ st' = session_route_map_ st.
Proof.
  intros Ha Hn He Hk. unfold route_add_address. destruct addr as [a|].
  2: { exists st, true, rt. do 2 (split; [done|]). split; [|done]. intros _.
       destruct rt. cbn in Hn, He. by subst. }
  rewrite (upd_ok st x rt _ (a_here _ _ _ _ Ha)). cbn [res_bind].
  assert (Ha1 : at_route st0 (up st x (set_addr (Some a) rt)) x (set_addr (Some a) rt))
    by (by eapply at_route_up).
  destruct (insert_address_ok x [] _ _ (a_inv _ _ _ _ Ha1) (a_here _ _ _ _ Ha1))
    as (st' & ok & -> & Hi' & Hr & Ham & Hsm & Hcm & Hxm); [done|cbn; eauto|].
  destruct ok.
  - exists st', true. eexists. split; [done|]. split; [by eapply at_route_set|]. done.
  - exists st', false. eexists. split; [done|]. split; [by eapply at_route_same|]. done.
Qed.

Lemma route_add_session_ok st0 st x rt sess :
  at_route st0 st x rt -> session_node rt = None -> session rt = None ->
  (is_Some sess -> session_route_map_ st !! sess = None) ->
  exists st' ok rt', route_add_session st x sess = Ok (st', ok) /\ at_route st0 st' x rt' /\
    (ok = true -> rt' = set_session_node (Some <$> sess) (set_session sess rt)) /\
    source_route_map_ st' = source_route_map_ st.
Proof.
  intros Ha Hn He Hk. unfold route_add_session. destruct sess as [a|].
  2: { exists st, true, rt. do 2 (split; [done|]). split; [|done]. intros _.
       destruct rt. cbn in Hn, He. by subst. }
  rewrite (upd_ok st x rt _ (a_here _ _ _ _ Ha)). cbn [res_bind].
  assert (Ha1 : at_route st0 (up st x (set_session (Some a) rt)) x (set_session (Some a) rt))
    by (by eapply at_route_up).
  destruct (insert_session_ok x [] _ _ (a_inv _ _ _ _ Ha1) (a_here _ _ _ _ Ha1))
    as (st' & ok & -> & Hi' & Hr & Hxm & Hsm & Ham & Hcm); [done|cbn; eauto|].
  destruct ok.
  - exists st', true. eexists. split; [done|]. split; [by eapply at_route_set|]. done.
  - exists st', false. eexists. split; [done|]. split; [by eapply at_route_same|]. done.
Qed.

(** The routes of [st0] are unchanged in [st]. *)
Definition keeps (st0 st : t) : Prop :=
  forall r, is_Some (routes st0 !! r) -> routes st !! r = routes st0 !! r.

Lemma at_route_keeps st0 st x rt :
  at_route st0 st x rt -> routes st0 !! x = None -> keeps st0 st.
Proof. intros Ha Hx r [rt' Hr]. apply (a_frame _ _ _ _ Ha). intros ->. congruence. Qed.

(** A new route was built. *)
Definition built (st0 st : t) (x : nat) (s : Z) (addr : option Z) (c : option (list Z))
    (sess : option Z) : Prop :=
  source_route_map_ st !! s = Some x /\
  exists rt, routes st !! x = Some rt /\ source_addr rt = addr /\ cname rt = default [] c /\
    session rt = sess /\ is_main rt s = true.

Lemma create_route_ok st s addr c sess :
  inv st -> source_route_map_ st !! s = None ->
  (is_Some addr -> address_route_map_ st !! addr = None) ->
  (forall name, c = Some name -> name <> [] /\ cname_route_map_ st !! name = None) ->
  (is_Some sess -> session_route_map_ st !! sess = None) ->
  exists st' code, create_route_ st s addr c sess = Ok (st', code) /\ inv st' /\ keeps st st' /\
    (code = StatusOK -> exists x, routes st !! x = None /\ built st st' x s addr c sess).
Proof.
  intros Hi Hs Ha Hc Hx. unfold create_route_.
  destruct (alloc_route_ok st Hi) as (st1 & [x|] & -> & Hi1 & Es & Ea & Ec & Ex & Er & Hf).
  2: { eexists _, _. split; [done|]. split; [done|]. split; [|done]. intros r _. by rewrite Er. }
  specialize (Hf x eq_refl).
  assert (A1 : at_route st st1 x new_route).
  { split; [by apply (inv_weaken _ _ _ Hi1); set_solver|rewrite Er; apply lookup_insert_eq|].
    intros r Hr. by rewrite Er, lookup_insert_ne. }
  assert (Hfail : forall st2 rt2, at_route st st2 x rt2 ->
    exists st' code, fail_route st2 x = Ok (st', code) /\ inv st' /\ keeps st st' /\
    (code = StatusOK -> exists x, routes st !! x = None /\ built st st' x s addr c sess)).
  { intros st2 rt2 A2. destruct (fail_route_ok st st2 x rt2 A2) as (st' & -> & Hi' & Hfr & _).
    eexists _, _. split; [done|]. split; [done|]. split; [|done].
    intros r [rt Hr]. apply Hfr. intros ->. congruence. }
  destruct (route_add_source_ok st st1 x new_route s A1 ltac:(by rewrite Es))
    as (st2 & ok & rt2 & -> & A2 & Hok & Ea2 & Ec2 & Ex2). cbn [res_bind].
  destruct ok; cbn [negb]; [|by eapply Hfail]. destruct (Hok eq_refl) as [-> Es2]. clear Hok.
  assert (exists st3 ok rt3,
    match c with Some c => route_add_cname st2 x c | None => Ok (st2, true) end = Ok (st3, ok) /\
    at_route st st3 x rt3 /\
    (ok = true -> rt3 = set_cname_node c (set_cname (default [] c)
                          (set_main true s (set_nodes [s] new_route)))) /\
    source_route_map_ st3 = source_route_map_ st2 /\
    address_route_map_ st3 = address_route_map_ st2 /\
    session_route_map_ st3 = session_route_map_ st2)
    as (st3 & ok & rt3 & -> & A3 & Hok & Es3 & Ea3 & Ex3).
  { destruct c as [name|]; [|by eexists st2, true, _].
    destruct (route_add_cname_ok st st2 x _ name A2) as (st3 & ok & rt3 & -> & A3 & E3 & Hrest);
      [done|rewrite Ec2, Ec; by apply Hc|].
    exists st3, ok, rt3. split; [done|]. split; [done|]. split; [|done]. intros ->. done. }
  cbn [res_bind]. destruct ok; cbn [negb]; [|by eapply Hfail]. specialize (Hok eq_refl). subst rt3.
  destruct (route_add_address_ok st st3 x _ addr A3) as (st4 & ok & rt4 & -> & A4 & Hok & Es4 & Ec4 & Ex4);
    [done|done|by rewrite Ea3, Ea2, Ea|].
  cbn [res_bind]. destruct ok; cbn [negb]; [|by eapply Hfail]. specialize (Hok eq_refl). subst rt4.
  destruct (route_add_session_ok st st4 x _ sess A4) as (st5 & ok & rt5 & -> & A5 & Hok & Es5);
    [done|done|by rewrite Ex4, Ex3, Ex2, Ex|].
  cbn [res_bind]. destruct ok; cbn [negb]; [|by eapply Hfail]. specialize (Hok eq_refl). subst rt5.
  assert (Hsx : source_route_map_ st5 !! s = Some x).
  { rewrite Es5, Es4, Es3, Es2. apply lookup_insert_eq. }
  eexists _, _. split; [done|]. split; [|split; [by eapply at_route_keeps|]].
  - eapply at_route_end; [done|]. split; [|split].
    + split; [by destruct addr|]. split; [|by destruct sess]. cbn.
      destruct c as [[|z l]|]; [|done|done]. by destruct (Hc [] eq_refl).
    + apply NoDup_singleton.
    + cbn. by intros s' ->%list_elem_of_singleton.
  - intros _. exists x. split; [done|]. split; [done|]. eexists. split; [apply A5|].
    cbn. repeat split. unfold is_main. cbn. by rewrite Z.eqb_refl.
Qed.

(** * The operations *)

Lemma inv_set_main st x rt b i :
  inv st -> routes st !! x = Some rt -> inv (up st x (set_main b i rt)).
Proof.
  intros Hi Hx. pose proof (at_route_start st x rt Hi Hx) as A.
  destruct (b_good _ _ Hi x rt (not_elem_of_nil x) Hx) as (Ht & Hd & Hs).
  eapply at_route_end; [by eapply (at_route_up _ _ _ rt)|]. done.
Qed.

(** What a route that is removed takes with it. *)
Record shrinks (x : nat) (st st' : t) : Prop := {
  s_routes : forall r, r <> x -> routes st' !! r = routes st !! r;
  s_source : without x (source_route_map_ st) (source_route_map_ st')
             \/ source_route_map_ st' = source_route_map_ st;
  s_cname : forall k r, r <> x -> cname_route_map_ st !! k = Some r ->
            cname_route_map_ st' !! k = Some r;
  s_address : forall k, address_route_map_ st !! k = None -> address_route_map_ st' !! k = None;
  s_session : forall k, session_route_map_ st !! k = None -> session_route_map_ st' !! k = None
}.

Lemma shrinks_source x st st' s r :
  shrinks x st st' -> r <> x -> source_route_map_ st !! s = Some r ->
  source_route_map_ st' !! s = Some r.
Proof.
  intros Hsh Hne Hs. destruct (s_source _ _ _ Hsh) as [Hw|E]; [|congruence].
  rewrite (Hw s), Hs. rewrite decide_False; congruence.
Qed.

Lemma shrinks_source_none x st st' s :
  shrinks x st st' -> source_route_map_ st !! s = None -> source_route_map_ st' !! s = None.
Proof.
  intros Hsh Hs. destruct (s_source _ _ _ Hsh) as [Hw|E]; [|congruence].
  rewrite (Hw s), Hs. by case_decide.
Qed.

Lemma without_none {K} `{Countable K} x (m m' : gmap K nat) k :
  without x m m' -> m !! k = None -> m' !! k = None.
Proof. intros Hw Hk. rewrite (Hw k), Hk. by case_decide. Qed.

Lemma remove_route_shrinks st x :
  inv st -> is_Some (routes st !! x) ->
  exists st', remove_route_ st x = Ok st' /\ inv st' /\ shrinks x st st' /\
    routes st' !! x = None.
Proof.
  intros Hi Hx.
  destruct (remove_route_ok x [] st) as (st' & -> & Hi' & Hr & Hs & Ha & Hc & Hx');
    [apply (inv_weaken _ _ _ Hi); set_solver|done|].
  exists st'. split; [done|]. split; [done|]. rewrite Hr. split; [|apply lookup_delete_eq].
  split; [..|by intros; eapply without_none|by intros; eapply without_none].
  - intros r Hne. rewrite Hr. by rewrite lookup_delete_ne.
  - by left.
  - intros k r Hne Hk. rewrite (Hc k), Hk. rewrite decide_False; congruence.
Qed.

Lemma collect_route_ok st x rt :
  inv st -> routes st !! x = Some rt ->
  exists st', collect_route_ st x = Ok st' /\ inv st' /\ shrinks x st st'.
Proof.
  intros Hi Hx. unfold collect_route_. rewrite (get_ok st x rt Hx). cbn [res_bind].
  case_decide.
  - destruct (remove_route_shrinks st x Hi ltac:(eauto)) as (st' & -> & Hi' & Hsh & _). eauto.
  - exists st. split; [done|]. split; [done|]. split; try done. by right.
Qed.

Lemma unlink_source_ok st s :
  inv st ->
  exists st', unlink_source st s = Ok st' /\ inv st' /\ source_route_map_ st' !! s = None /\
    (forall k, address_route_map_ st !! k = None -> address_route_map_ st' !! k = None) /\
    (forall k, session_route_map_ st !! k = None -> session_route_map_ st' !! k = None).
Proof.
  intros Hi. unfold unlink_source. destruct (source_route_map_ st !! s) as [x|] eqn:Hs.
  2: { exists st. done. }
  destruct (b_source _ _ Hi s x Hs) as (rt & Hx & _).
  destruct (drop_source_ok st x rt s Hi Hx Hs) as (st1 & -> & Hi1 & Er & Es & Ea & Ec & Ex).
  cbn [res_bind]. set (rt1 := set_nodes _ _) in Er.
  assert (Hx1 : routes st1 !! x = Some rt1) by (rewrite Er; apply lookup_insert_eq).
  rewrite (get_ok st1 x rt1 Hx1). cbn [res_bind].
  assert (exists st2 rt2, (if is_main rt1 s then upd st1 x (set_main false 0) else Ok st1) = Ok st2 /\
    inv st2 /\ routes st2 !! x = Some rt2 /\ source_route_map_ st2 = source_route_map_ st1 /\
    address_route_map_ st2 = address_route_map_ st1 /\
    session_route_map_ st2 = session_route_map_ st1)
    as (st2 & rt2 & -> & Hi2 & Hx2 & Es2 & Ea2 & Ex2).
  { destruct (is_main rt1 s); [|by eexists st1, rt1].
    rewrite (upd_ok st1 x rt1 _ Hx1). eexists _, _. split; [done|].
    split; [by apply inv_set_main|]. split; [apply lookup_insert_eq|done]. }
  cbn [res_bind]. destruct (collect_route_ok st2 x rt2 Hi2 Hx2) as (st3 & -> & Hi3 & Hsh).
  exists st3. split; [done|]. split; [done|]. split.
  - apply (shrinks_source_none x st2); [done|]. rewrite Es2, Es. apply lookup_delete_eq.
  - split; intros k Hk.
    + apply (s_address _ _ _ Hsh). congruence.
    + apply (s_session _ _ _ Hsh). congruence.
Qed.

(** [sess] is the session of the SSRC [s] and of the address. *)
Definition registered (st : t) (sess s : Z) (addr : option Z) : Prop :=
  find_by_source st s = Ok (Some sess) /\ has_session st sess = true /\
  (is_Some addr -> find_by_address st addr = Ok (Some sess)).

Lemma registered_ok st sess s addr x rt :
  inv st -> source_route_map_ st !! s = Some x -> routes st !! x = Some rt ->
  session rt = Some sess -> source_addr rt = addr -> registered st sess s addr.
Proof.
  intros Hi Hs Hx Hsess Haddr.
  destruct (b_good _ _ Hi x rt (not_elem_of_nil x) Hx) as ((Ta & _ & Ts) & _).
  split; [|split].
  - unfold find_by_source. rewrite Hs. cbn. rewrite (get_ok st x rt Hx). cbn. congruence.
  - unfold has_session. apply bool_decide_eq_true. exists x.
    apply (b_session _ _ Hi). exists rt. by rewrite Ts, Hsess.
  - intros [a ->]. unfold find_by_address.
    rewrite (keyed_lookup address_node _ _ x rt (Some a) (b_address _ _ Hi) Hx)
      by (by rewrite Ta, Haddr).
    cbn. rewrite (get_ok st x rt Hx). cbn. congruence.
Qed.

(** The three ways [add_session] goes on after its checks. *)
Lemma add_session_new st sess s addr :
  inv st -> source_route_map_ st !! s = None ->
  (is_Some addr -> address_route_map_ st !! addr = None) ->
  session_route_map_ st !! Some sess = None ->
  exists st' code, create_route_ st s addr None (Some sess) = Ok (st', code) /\ inv st' /\
    (code = StatusOK -> registered st' sess s addr).
Proof.
  intros Hi Hs Ha Hx.
  destruct (create_route_ok st s addr None (Some sess)) as (st' & code & -> & Hi' & _ & Hok);
    try done.
  exists st', code. split; [done|]. split; [done|]. intros ->.
  destruct (Hok eq_refl) as (x & _ & Hsx & rt & Hrt & ? & _ & ? & _). by eapply registered_ok.
Qed.

Lemma add_session_replace st sess s addr :
  inv st -> (is_Some addr -> address_route_map_ st !! addr = None) ->
  session_route_map_ st !! Some sess = None ->
  exists st' code,
    (let* st := unlink_source st s in create_route_ st s addr None (Some sess)) =
      Ok (st', code) /\ inv st' /\ (code = StatusOK -> registered st' sess s addr).
Proof.
  intros Hi Ha Hx. destruct (unlink_source_ok st s Hi) as (st1 & -> & Hi1 & Hs1 & Ha1 & Hx1).
  cbn [res_bind]. apply add_session_new; auto.
Qed.

Lemma add_session_attach st sess s addr x rt :
  inv st -> (is_Some addr -> address_route_map_ st !! addr = None) ->
  session_route_map_ st !! Some sess = None -> source_route_map_ st !! s = Some x ->
  routes st !! x = Some rt -> source_addr rt = None -> session rt = None ->
  exists st' code,
    (let* ' (st, ok) := route_add_address st x addr in
     if negb ok then fail_route st x
     else
       let* ' (st, ok) := route_add_session st x (Some sess) in
       if negb ok then fail_route st x else Ok (st, StatusOK)) =
      Ok (st', code) /\ inv st' /\ (code = StatusOK -> registered st' sess s addr).
Proof.
  intros Hi Ha Hk Hs Hx Eaddr Esess. pose proof (at_route_start st x rt Hi Hx) as A.
  destruct (b_good _ _ Hi x rt (not_elem_of_nil x) Hx) as ((Ta & Tc & Ts) & Hd & Hg).
  rewrite Eaddr in Ta. rewrite Esess in Ts.
  destruct (route_add_address_ok st st x rt addr A) as (st1 & ok & rt1 & -> & A1 & Hok & Es1 & _ & Ex1);
    [done|done|done|].
  cbn [res_bind]. destruct ok; cbn [negb].
  2: { destruct (fail_route_ok st st1 x rt1 A1) as (st' & -> & Hi' & _). by eexists _, _. }
  specialize (Hok eq_refl). subst rt1.
  destruct (route_add_session_ok st st1 x _ (Some sess) A1) as (st2 & ok & rt2 & -> & A2 & Hok & Es2);
    [done|done|by rewrite Ex1|].
  cbn [res_bind]. destruct ok; cbn [negb].
  2: { destruct (fail_route_ok st st2 x rt2 A2) as (st' & -> & Hi' & _). by eexists _, _. }
  specialize (Hok eq_refl). subst rt2.
  assert (Hi2 : inv st2).
  { eapply at_route_end; [done|]. split; [|split; [done|]].
    - split; [by destruct addr|]. split; [exact Tc|done].
    - cbn. intros s' Hs'. rewrite Es2, Es1. by apply Hg. }
  eexists _, _. split; [done|]. split; [done|]. intros _.
  eapply (registered_ok st2 sess s addr x); [done|by rewrite Es2, Es1|apply A2|done|done].
Qed.

Lemma add_session_ok st sess s addr :
  inv st ->
  exists st' code, add_session st sess s addr = Ok (st', code) /\ inv st' /\
    (code = StatusOK -> registered st' sess s addr).
Proof.
  intros Hi. unfold add_session.
  destruct (bool_decide (is_Some addr) && _) eqn:E1; [by eexists _, _|].
  assert (Ha : is_Some addr -> address_route_map_ st !! addr = None).
  { intros Haddr. apply andb_false_iff in E1 as [E1|E1]; apply bool_decide_eq_false in E1; [done|].
    by apply eq_None_not_Some. }
  clear E1. case_bool_decide as E2; [by eexists _, _|]. apply eq_None_not_Some in E2.
  destruct (source_route_map_ st !! s) as [x|] eqn:Hs; [|by apply add_session_new].
  destruct (b_source _ _ Hi s x Hs) as (rt & Hx & Hin). rewrite (get_ok st x rt Hx).
  cbn [res_bind]. destruct (source_addr rt) as [a|] eqn:Eaddr; [by apply add_session_replace|].
  destruct (session rt) as [ss|] eqn:Esess; [by apply add_session_replace|].
  by eapply add_session_attach.
Qed.

Lemma remove_session_ok st sess :
  inv st -> exists st', remove_session st sess = Ok st' /\ inv st' /\ has_session st' sess = false.
Proof.
  intros Hi. unfold remove_session, has_session.
  destruct (session_route_map_ st !! Some sess) as [x|] eqn:Hs.
  2: { exists st. split; [done|]. split; [done|]. rewrite Hs. by apply bool_decide_eq_false. }
  pose proof Hs as (rt & Hx & _)%(b_session _ _ Hi).
  destruct (remove_route_ok x [] st) as (st' & -> & Hi' & _ & _ & _ & _ & Hw);
    [apply (inv_weaken _ _ _ Hi); set_solver|eauto|].
  exists st'. split; [done|]. split; [done|]. rewrite (Hw (Some sess)), Hs, decide_True by done.
  by apply bool_decide_eq_false.
Qed.

(** * Moving the session between two routes *)

(** The state while the session moves from [old] to [new]. *)
Record at_pair (st0 st : t) (old : nat) (ro : Route) (new : nat) (rn : Route) : Prop := {
  p_inv : inv_but [new; old] st;
  p_ne : old <> new;
  p_old : routes st !! old = Some ro;
  p_new : routes st !! new = Some rn;
  p_source : source_route_map_ st = source_route_map_ st0;
  p_cname : cname_route_map_ st = cname_route_map_ st0
}.

Lemma inv_swap x y st : inv_but [x; y] st -> inv_but [y; x] st.
Proof. intros Hi. apply (inv_weaken _ _ _ Hi). set_solver. Qed.

Lemma pair_new st0 st st' old ro new rn rn' :
  at_pair st0 st old ro new rn -> inv_but [new; old] st' ->
  routes st' = <[new := rn']> (routes st) ->
  source_route_map_ st' = source_route_map_ st -> cname_route_map_ st' = cname_route_map_ st ->
  at_pair st0 st' old ro new rn'.
Proof.
  intros [] Hi' Hr Hs Hc. split; [done|done|..|congruence|congruence]; rewrite Hr.
  - by rewrite lookup_insert_ne.
  - apply lookup_insert_eq.
Qed.

Lemma pair_old st0 st st' old ro new rn ro' :
  at_pair st0 st old ro new rn -> inv_but [old; new] st' ->
  routes st' = <[old := ro']> (routes st) ->
  source_route_map_ st' = source_route_map_ st -> cname_route_map_ st' = cname_route_map_ st ->
  at_pair st0 st' old ro' new rn.
Proof.
  intros [] Hi' Hr Hs Hc. split; [by apply inv_swap|done|..|congruence|congruence]; rewrite Hr.
  - apply lookup_insert_eq.
  - by rewrite lookup_insert_ne.
Qed.

Lemma pair_up_new st0 st old ro new rn rn' :
  at_pair st0 st old ro new rn -> source_nodes rn' = source_nodes rn ->
  address_node rn' = address_node rn -> cname_node rn' = cname_node rn ->
  session_node rn' = session_node rn -> at_pair st0 (up st new rn') old ro new rn'.
Proof.
  intros P En Ea Ec Es. eapply pair_new; [done| |done|done|done]. destruct P.
  eapply inv_up; try done. intros s Hs. rewrite En. by eapply source_elem.
Qed.

Lemma pair_up_old st0 st old ro new rn ro' :
  at_pair st0 st old ro new rn -> source_nodes ro' = source_nodes ro ->
  address_node ro' = address_node ro -> cname_node ro' = cname_node ro ->
  session_node ro' = session_node ro -> at_pair st0 (up st old ro') old ro' new rn.
Proof.
  intros P En Ea Ec Es. eapply pair_old; [done| |done|done|done]. destruct P.
  eapply inv_up; [by apply inv_swap|done..|]. intros s Hs. rewrite En. by eapply source_elem.
Qed.

(** First half: the addresses. *)
Lemma move_address_ok st0 st old ro new rn a :
  at_pair st0 st old ro new rn -> address_node ro = Some (Some a) -> source_addr ro = Some a ->
  exists st' ok rn',
    move_address st old new = Ok (st', ok) /\
    at_pair st0 st' old (set_addr None (set_address_node None ro)) new rn' /\
    (ok = true -> rn' = set_address_node (Some (Some a)) (set_addr (Some a) rn)).
Proof.
  intros P Hn Ha. unfold move_address.
  destruct (remove_address_ok old [new] st ro) as (st1 & -> & Hi1 & Hr1 & Em1 & Es1 & Ec1 & Ex1 & _);
    [apply inv_swap, P|apply P|].
  cbn [res_bind]. assert (P1 := pair_old _ _ st1 _ _ _ _ _ P Hi1 Hr1 Es1 Ec1).
  destruct (remove_address_ok new [old] st1 rn) as (st2 & -> & Hi2 & Hr2 & Em2 & Es2 & Ec2 & Ex2 & _);
    [apply P1|apply P1|].
  cbn [res_bind]. assert (P2 := pair_new _ _ st2 _ _ _ _ _ P1 Hi2 Hr2 Es2 Ec2).
  rewrite (get_ok st2 old _ (p_old _ _ _ _ _ _ P2)). cbn [res_bind source_addr set_address_node].
  rewrite (upd_ok st2 new _ _ (p_new _ _ _ _ _ _ P2)). cbn [res_bind].
  eapply (pair_up_new _ _ _ _ _ _ (set_addr (source_addr ro) (set_address_node None rn))) in P2 as P3;
    [|done|done|done|done].
  rewrite (upd_ok _ old _ _ (p_old _ _ _ _ _ _ P3)). cbn [res_bind].
  eapply (pair_up_old _ _ _ _ _ _ (set_addr None (set_address_node None ro))) in P3 as P4;
    [|done|done|done|done].
  destruct (insert_address_ok new [old] _ _ (p_inv _ _ _ _ _ _ P4) (p_new _ _ _ _ _ _ P4))
    as (st5 & ok & -> & Hi5 & Hr5 & Em5 & Es5 & Ec5 & Ex5); [done| |].
  { cbn. rewrite Em2, Em1, Hn, Ha.
    destruct (address_node rn); [apply lookup_delete_None; right|]; apply lookup_delete_eq. }
  destruct ok.
  - eexists _, true, _. split; [done|]. split; [exact (pair_new _ _ st5 _ _ _ _ _ P4 Hi5 Hr5 Es5 Ec5)|].
    intros _. by rewrite Ha.
  - eexists _, false, (set_addr (source_addr ro) (set_address_node None rn)). split; [done|]. split; [|done]. eapply (pair_new _ _ st5 _ _ _ _ _ P4 Hi5); [|done|done].
    rewrite Hr5. symmetry. apply insert_id. exact (p_new _ _ _ _ _ _ P4).
Qed.

(** Second half: the sessions. *)
Lemma move_session_ok st0 st old ro new rn a :
  at_pair st0 st old ro new rn -> session_node ro = Some (Some a) -> session ro = Some a ->
  exists st' ok rn',
    move_session st old new = Ok (st', ok) /\
    at_pair st0 st' old (set_session None (set_session_node None ro)) new rn' /\
    (ok = true -> rn' = set_session_node (Some (Some a)) (set_session (Some a) rn)).
Proof.
  intros P Hn Ha. unfold move_session.
  destruct (remove_session_node_ok old [new] st ro)
    as (st1 & -> & Hi1 & Hr1 & Em1 & Es1 & Ea1 & Ec1 & _); [apply inv_swap, P|apply P|].
  cbn [res_bind]. assert (P1 := pair_old _ _ st1 _ _ _ _ _ P Hi1 Hr1 Es1 Ec1).
  destruct (remove_session_node_ok new [old] st1 rn)
    as (st2 & -> & Hi2 & Hr2 & Em2 & Es2 & Ea2 & Ec2 & _); [apply P1|apply P1|].
  cbn [res_bind]. assert (P2 := pair_new _ _ st2 _ _ _ _ _ P1 Hi2 Hr2 Es2 Ec2).
  rewrite (get_ok st2 old _ (p_old _ _ _ _ _ _ P2)). cbn [res_bind session set_session_node].
  rewrite (upd_ok st2 new _ _ (p_new _ _ _ _ _ _ P2)). cbn [res_bind].
  eapply (pair_up_new _ _ _ _ _ _ (set_session (session ro) (set_session_node None rn))) in P2 as P3;
    [|done|done|done|done].
  rewrite (upd_ok _ old _ _ (p_old _ _ _ _ _ _ P3)). cbn [res_bind].
  eapply (pair_up_old _ _ _ _ _ _ (set_session None (set_session_node None ro))) in P3 as P4;
    [|done|done|done|done].
  destruct (insert_session_ok new [old] _ _ (p_inv _ _ _ _ _ _ P4) (p_new _ _ _ _ _ _ P4))
    as (st5 & ok & -> & Hi5 & Hr5 & Em5 & Es5 & Ea5 & Ec5); [done| |].
  { cbn. rewrite Em2, Em1, Hn, Ha.
    destruct (session_node rn); [apply lookup_delete_None; right|]; apply lookup_delete_eq. }
  destruct ok.
  - eexists _, true, _. split; [done|]. split; [exact (pair_new _ _ st5 _ _ _ _ _ P4 Hi5 Hr5 Es5 Ec5)|]. intros _. by rewrite Ha.
  - eexists _, false, (set_session (session ro) (set_session_node None rn)). split; [done|]. split; [|done]. eapply (pair_new _ _ st5 _ _ _ _ _ P4 Hi5); [|done|done].
    rewrite Hr5. symmetry. apply insert_id. exact (p_new _ _ _ _ _ _ P4).
Qed.

(** [move_route_session_] leaves the old route in order, and the new one when it succeeds. *)
Lemma move_route_session_ok st old ro new rn a sess :
  inv st -> old <> new -> routes st !! old = Some ro -> routes st !! new = Some rn ->
  source_addr ro = Some a -> session ro = Some sess ->
  exists st' code ro' rn', move_route_session_ st old new = Ok (st', code) /\
    at_pair st st' old ro' new rn' /\ inv_but [new] st' /\
    (code = StatusOK -> inv st' /\ source_addr rn' = Some a /\ session rn' = Some sess).
Proof.
  intros Hi Hne Ho Hn Ea Es. unfold move_route_session_.
  destruct (b_good _ _ Hi old ro (not_elem_of_nil old) Ho) as ((Ta & Tc & Ts) & Hd & Hg).
  destruct (b_good _ _ Hi new rn (not_elem_of_nil new) Hn) as ((Ta' & Tc' & Ts') & Hd' & Hg').
  rewrite Ea in Ta. rewrite Es in Ts.
  assert (P : at_pair st st old ro new rn)
    by (split; try done; apply (inv_weaken _ _ _ Hi); set_solver).
  destruct (move_address_ok st st old ro new rn a P) as (st1 & ok & rn1 & -> & P1 & Hok);
    [done|done|].
  cbn [res_bind].
  destruct ok; cbn [negb].
  2: { eexists _, _, _, _. split; [done|]. split; [done|]. split; [|done].
       apply (inv_close old); [apply inv_swap, P1|].
       intros rt Hrt. rewrite (p_old _ _ _ _ _ _ P1) in Hrt. injection Hrt as <-.
       split; [split; [done|]; split; [exact Tc|cbn; by rewrite Ts, Es]|]. split; [done|].
       cbn. rewrite (p_source _ _ _ _ _ _ P1). exact Hg. }
  specialize (Hok eq_refl). subst rn1.
  destruct (move_session_ok st st1 old _ new _ sess P1) as (st2 & ok & rn2 & -> & P2 & Hok);
    [done|done|].
  cbn [res_bind].
  assert (Hi2 : inv_but [new] st2).
  { apply (inv_close old); [apply inv_swap, P2|].
    intros rt Hrt. rewrite (p_old _ _ _ _ _ _ P2) in Hrt. injection Hrt as <-.
    split; [split; [done|]; split; [exact Tc|done]|]. split; [done|].
    cbn. rewrite (p_source _ _ _ _ _ _ P2). exact Hg. }
  destruct ok; cbn [negb]; [|by eexists _, _, _, _].
  specialize (Hok eq_refl). subst rn2. eexists _, _, _, _. split; [done|]. split; [done|].
  split; [done|]. intros _. split; [|done]. apply (inv_close new); [done|].
  intros rt Hrt. rewrite (p_new _ _ _ _ _ _ P2) in Hrt. injection Hrt as <-.
  split; [split; [done|]; split; [exact Tc'|done]|]. split; [done|].
  cbn. rewrite (p_source _ _ _ _ _ _ P2). exact Hg'.
Qed.

(** * Linking an SSRC with a CNAME *)

Lemma join_route_ok st c rt s :
  inv st -> routes st !! c = Some rt -> source_route_map_ st !! s = None ->
  exists st' code, join_route st c s = Ok (st', code) /\ inv st' /\
    (forall r, r <> c -> routes st' !! r = routes st !! r) /\
    cname_route_map_ st' = cname_route_map_ st /\
    (code = StatusOK -> source_route_map_ st' !! s = Some c).
Proof.
  intros Hi Hc Hs. unfold join_route. cbn [ask].
  pose proof (at_route_start st c rt Hi Hc) as A.
  destruct (b_good _ _ Hi c rt (not_elem_of_nil c) Hc) as (Ht & Hd & Hg).
  assert (Hns : s ∉ source_nodes rt) by (intros Hin%Hg; congruence).
  destruct (is_granted (grants st (asked st))); cbn [negb].
  2: { eexists _, _. split; [done|]. split; [by apply inv_ask|]. done. }
  set (st1 := mkRouter _ _ _ _ _ _ _ _ _).
  assert (A1 : at_route st st1 c rt) by (eapply at_route_same; [done|by apply inv_ask, A|done]).
  rewrite (upd_ok st1 c rt _ (a_here _ _ _ _ A1)). cbn [res_bind].
  set (rt2 := set_nodes (source_nodes rt ++ [s]) rt).
  assert (A2 : at_route st (up st1 c rt2) c rt2).
  { eapply at_route_up; try done. cbn. intros s' ?. apply elem_of_app. by left. }
  destruct (insert_source_ok c [] (up st1 c rt2) rt2 s) as
    (st3 & ok & -> & Hi3 & Hr3 & Hs3 & Ham & Hcm & Hxm); [apply A2|apply A2| |done|].
  { cbn. apply elem_of_app. right. by apply list_elem_of_singleton. }
  cbn [res_bind]. assert (A3 : at_route st st3 c rt2) by (by eapply at_route_same).
  destruct ok.
  - eexists _, _. split; [done|]. split; [|split; [apply A3|]].
    + eapply at_route_end; [done|]. split; [done|]. split; cbn.
      * apply NoDup_app. split; [done|]. split; [|apply NoDup_singleton].
        by intros s' Hin ->%list_elem_of_singleton.
      * intros s' [Hin| ->%list_elem_of_singleton]%elem_of_app; rewrite Hs3; cbn.
        -- rewrite lookup_insert_ne; [by apply Hg|]. by intros <-.
        -- apply lookup_insert_eq.
    + split; [done|]. intros _. rewrite Hs3. apply lookup_insert_eq.
  - rewrite (upd_ok st3 c rt2 _ (a_here _ _ _ _ A3)). cbn [res_bind].
    eexists _, _. split; [done|].
    assert (Hrt : set_nodes (filter (.≠ s) (source_nodes rt2)) rt2 = rt).
    { unfold rt2. destruct rt. unfold set_nodes. cbn in *. f_equal.
      rewrite filter_app, filter_id by done. rewrite filter_cons_False by (by intros H).
      by rewrite filter_nil, app_nil_r. }
    rewrite Hrt. split; [|split; [|done]].
    + apply (inv_close c).
      * eapply (inv_up c [] st3 rt2); try done; [apply A3|].
        intros s' Hs'. rewrite Hs3 in Hs'. exact (source_elem _ st s' c rt Hi Hc Hs').
      * cbn. intros rt'. rewrite lookup_insert_eq. intros [= <-]. split; [done|].
        split; [done|]. cbn. intros s' Hs'. rewrite Hs3. by apply Hg.
    + cbn. intros r Hr. rewrite lookup_insert_ne by done. by apply A3.
Qed.

(** [s] and [name] lead to the same route, [r]. *)
Definition linked_to (st : t) (s : Z) (name : list Z) (r : nat) : Prop :=
  source_route_map_ st !! s = Some r /\ cname_route_map_ st !! name = Some r.

Lemma link_fresh_ok d st s name :
  inv st -> name <> [] -> source_route_map_ st !! s = None ->
  exists st' code, link_source_ (S d) st s name = Ok (st', code) /\ inv st' /\
    (forall r, is_Some (routes st !! r) -> cname_route_map_ st !! name <> Some r ->
      routes st' !! r = routes st !! r /\ (forall x, linked_to st' s name x -> x <> r)) /\
    (code = StatusOK -> exists x, linked_to st' s name x).
Proof.
  intros Hi Hn Hs. cbn [link_source_]. rewrite Hs.
  destruct (cname_route_map_ st !! name) as [c|] eqn:Hc.
  - pose proof Hc as (rt & Hrt & _)%(b_cname _ _ Hi).
    destruct (join_route_ok st c rt s Hi Hrt Hs) as (st' & code & -> & Hi' & Hf & Ecm & Hok).
    exists st', code. split; [done|]. split; [done|]. split.
    + intros r _ Hr. split; [apply Hf; congruence|]. intros x [_ Hx]. congruence.
    + intros ->. exists c. split; [by apply Hok|]. congruence.
  - destruct (create_route_ok st s None (Some name) None) as (st' & code & -> & Hi' & Hk & Hok);
      [done|done|by intros [? [=]]|by intros ? [= <-]|by intros [? [=]]|].
    assert (Hlink : code = StatusOK -> exists x, routes st !! x = None /\ linked_to st' s name x).
    { intros ->. destruct (Hok eq_refl) as (x & Hx & Hsx & rt & Hrt & _ & Hcn & _). exists x.
      split; [done|]. split; [done|]. apply (b_cname _ _ Hi'). exists rt. split; [done|].
      destruct (b_good _ _ Hi' x rt (not_elem_of_nil x) Hrt) as ((_ & Tc & _) & _).
      rewrite Tc, Hcn. cbn. by destruct name. }
    exists st', code. split; [done|]. split; [done|]. split.
    + intros r Hr _. split; [by apply Hk|]. intros x [Hsx _] ->.
      destruct (b_source _ _ Hi' s r Hsx) as (rt & Hrt & Hin). rewrite (Hk r Hr) in Hrt.
      destruct (b_good _ _ Hi r rt (not_elem_of_nil r) Hrt) as (_ & _ & Hg).
      specialize (Hg s Hin). congruence.
    + intros E. destruct (Hlink E) as (x & _ & Hx). eauto.
Qed.

(** The last part of a relink: the old route goes if it has no SSRC left. *)
Lemma relink_collect st old ro s name new :
  inv st -> routes st !! old = Some ro -> linked_to st s name new -> new <> old ->
  exists st', (let* st := collect_route_ st old in Ok (st, StatusOK)) = Ok (st', StatusOK) /\
    inv st' /\ linked_to st' s name new.
Proof.
  intros Hi Ho [Hs Hc] Hne. destruct (collect_route_ok st old ro Hi Ho) as (st' & -> & Hi' & Hsh).
  exists st'. split; [done|]. split; [done|]. split.
  - by eapply shrinks_source.
  - by eapply s_cname.
Qed.

Lemma relink_ok d st s name old ro :
  inv st -> name <> [] -> source_route_map_ st !! s = Some old -> routes st !! old = Some ro ->
  cname_route_map_ st !! name <> Some old ->
  (is_main ro s = true -> is_Some (source_addr ro) /\ is_Some (session ro)) ->
  exists st' code, relink_with (link_source_ (S d)) st s name = Ok (st', code) /\ inv st' /\
    (code = StatusOK -> exists x, linked_to st' s name x).
Proof.
  intros Hi Hn Hs Ho Hc Hmain. unfold relink_with. rewrite Hs.
  destruct (drop_source_ok st old ro s Hi Ho Hs) as (st1 & -> & Hi1 & Er & Es & Ea & Ec & Ex).
  cbn [res_bind]. set (ro1 := set_nodes _ _) in Er.
  assert (Ho1 : routes st1 !! old = Some ro1) by (rewrite Er; apply lookup_insert_eq).
  destruct (link_fresh_ok d st1 s name Hi1 Hn) as (st2 & code & -> & Hi2 & Hf & Hok);
    [rewrite Es; apply lookup_delete_eq|].
  cbn [res_bind]. case_bool_decide as Ecode; cbn [negb]; [|by eexists _, _].
  destruct (Hok Ecode) as (new & Hlink).
  destruct (Hf old) as [Ho2 Hne]; [eauto|congruence|]. specialize (Hne new Hlink).
  rewrite Ho1 in Ho2. rewrite (get_ok st2 old ro1 Ho2). cbn [res_bind].
  replace (is_main ro1 s) with (is_main ro s) by done.
  destruct (is_main ro s) eqn:Em.
  2: { destruct (relink_collect st2 old ro1 s name new) as (st' & -> & Hi' & Hl'); try done.
       eexists _, _. split; [done|]. split; [done|]. eauto. }
  destruct (Hmain eq_refl) as [[a Haddr] [sess Hsess]].
  destruct Hlink as [Hsx Hcx]. rewrite Hsx.
  destruct (b_source _ _ Hi2 s new Hsx) as (rn & Hnew & _).
  destruct (move_route_session_ok st2 old ro1 new rn a sess)
    as (st3 & code3 & ro3 & rn3 & -> & P3 & Hi3 & Hok3); try done.
  cbn [res_bind]. case_bool_decide as Ecode3; cbn [negb].
  2: { destruct (remove_route_ok new [] st3 Hi3) as (st' & -> & Hi' & _).
       { rewrite (p_new _ _ _ _ _ _ P3). eauto. }
       eexists _, _. split; [done|]. done. }
  destruct (Hok3 Ecode3) as (Hi3' & _). clear Hi3.
  rewrite (upd_ok st3 new rn3 _ (p_new _ _ _ _ _ _ P3)). cbn [res_bind].
  pose proof (inv_set_main st3 new rn3 true s Hi3' (p_new _ _ _ _ _ _ P3)) as Hi4.
  set (st4 := up st3 new _) in *.
  assert (Ho4 : routes st4 !! old = Some ro3).
  { cbn. rewrite lookup_insert_ne by done. apply P3. }
  rewrite (upd_ok st4 old ro3 _ Ho4). cbn [res_bind].
  pose proof (inv_set_main st4 old ro3 false 0 Hi4 Ho4) as Hi5.
  destruct (relink_collect (up st4 old (set_main false 0 ro3)) old (set_main false 0 ro3) s name new)
    as (st' & -> & Hi' & Hl'); [done|cbn; apply lookup_insert_eq| |done|].
  { split; cbn; [by rewrite (p_source _ _ _ _ _ _ P3)|by rewrite (p_cname _ _ _ _ _ _ P3)]. }
  eexists _, _. split; [done|]. split; [done|]. eauto.
Qed.

(** * What the router promises *)

(** [link_source] moves [s] to another route. *)
Definition relinks (st : t) (s : Z) (name : list Z) : bool :=
  match source_route_map_ st !! s, cname_route_map_ st !! name with
  | Some r, Some c => negb (bool_decide (r = c))
  | Some r, None =>
      match routes st !! r with Some rt => negb (bool_decide (cname rt = [])) | None => false end
  | None, _ => false
  end.

(** The caller's part: a CNAME is not empty and not too long, and an SSRC that a route was
    created for changes its CNAME only while that route has an address and a session. *)
Definition allowed_op (st : t) (o : op) : bool :=
  match o with
  | LinkSource s name =>
      negb (bool_decide (name = [])) && bool_decide (length name <= MaxCnameLen)%nat &&
      match source_route_map_ st !! s with
      | Some r =>
          match routes st !! r with
          | Some rt =>
              negb (relinks st s name && is_main rt s) ||
              (bool_decide (is_Some (source_addr rt)) && bool_decide (is_Some (session rt)))
          | None => true
          end
      | None => true
      end
  | _ => true
  end.

Lemma link_source_S d st s name :
  link_source_ (S d) st s name =
  match source_route_map_ st !! s, cname_route_map_ st !! name with
  | None, None => create_route_ st s None (Some name) None
  | Some r, Some c =>
      if decide (r = c) then Ok (st, StatusOK) else relink_with (link_source_ d) st s name
  | Some r, None =>
      let* rt := get st r in
      if negb (bool_decide (cname rt = [])) then relink_with (link_source_ d) st s name
      else
        let* ' (st, ok) := route_add_cname st r name in
        if ok then Ok (st, StatusOK)
        else let* st := upd st r (set_cname []) in Ok (st, StatusNoMem)
  | None, Some c => join_route st c s
  end.
Proof. done. Qed.

Lemma link_source_ok st s name :
  inv st -> allowed_op st (LinkSource s name) = true ->
  exists st' code, link_source st s name = Ok (st', code) /\ inv st' /\
    (code = StatusOK -> exists x, linked_to st' s name x).
Proof.
  intros Hi Hall. cbn in Hall. apply andb_true_iff in Hall as [Hall Hg].
  apply andb_true_iff in Hall as [Hn Hl]. apply negb_true_iff, bool_decide_eq_false in Hn.
  apply bool_decide_eq_true in Hl. unfold link_source.
  rewrite bool_decide_false by done. rewrite bool_decide_false by lia. cbn [orb].
  destruct (source_route_map_ st !! s) as [old|] eqn:Hs.
  2: { destruct (link_fresh_ok 1 st s name Hi Hn Hs) as (st' & code & -> & Hi' & _ & Hok). eauto. }
  destruct (b_source _ _ Hi s old Hs) as (ro & Ho & _). rewrite Ho in Hg.
  assert (Hmain : relinks st s name = true -> is_main ro s = true ->
    is_Some (source_addr ro) /\ is_Some (session ro)).
  { intros Hre Hm. rewrite Hre, Hm in Hg. cbn in Hg. apply andb_true_iff in Hg as [Ha Hb].
    apply bool_decide_eq_true in Ha, Hb. done. }
  rewrite link_source_S. unfold relinks in Hmain. rewrite Hs in *.
  destruct (cname_route_map_ st !! name) as [c|] eqn:Hc.
  - destruct (decide (old = c)) as [<-|E].
    + eexists _, _. split; [done|]. split; [done|]. intros _. by exists old.
    + rewrite bool_decide_false in Hmain by done.
      eapply relink_ok; try done; [congruence|]. by apply Hmain.
  - rewrite Ho in Hmain. rewrite (get_ok st old ro Ho). cbn [res_bind].
    case_bool_decide as E; cbn [negb] in *; [|eapply relink_ok; try done; [congruence|by apply Hmain]].
    destruct (b_good _ _ Hi old ro (not_elem_of_nil old) Ho) as ((Ta & Tc & Ts) & Hd & Hgs).
    rewrite E in Tc.
    destruct (route_add_cname_ok st st old ro name (at_route_start st old ro Hi Ho) Tc Hc)
      as (st1 & ok & rt1 & -> & A1 & E1 & Es & Ea & Ex).
    cbn [res_bind]. destruct ok; subst rt1.
    + eexists _, _. split; [done|]. assert (Hi1 : inv st1).
      { eapply at_route_end; [done|]. split; [|split; [done|cbn; by rewrite Es]].
        split; [exact Ta|]. split; [cbn; by destruct name|exact Ts]. }
      split; [done|]. intros _. exists old. split; [by rewrite Es|].
      apply (b_cname _ _ Hi1). eexists. split; [apply A1|done].
    + rewrite (upd_ok st1 old _ _ (a_here _ _ _ _ A1)). cbn [res_bind].
      eexists _, _. split; [done|]. split; [|done].
      eapply (at_route_end st); [by eapply at_route_up|]. split; [|split; [done|cbn; by rewrite Es]].
      split; [exact Ta|]. split; [exact Tc|exact Ts].
Qed.

(** The states a caller can bring the router to, when the [n]-th allocation or insertion
    finds what [g n] says. *)
Inductive reachable (g : nat -> grant) : t -> Prop :=
| reach_make : reachable g (make g)
| reach_exec st o st' code :
    reachable g st -> allowed_op st o = true -> exec st o = Ok (st', code) -> reachable g st'.

(** What an operation that reports success has achieved. *)
Definition achieved (st : t) (o : op) : Prop :=
  match o with
  | AddSession sess s addr => registered st sess s addr
  | RemoveSession sess => has_session st sess = false
  | LinkSource s name => exists r, linked_to st s name r
  | UnlinkSource s => source_route_map_ st !! s = None
  end.

Lemma exec_ok st o :
  inv st -> allowed_op st o = true ->
  exists st' code, exec st o = Ok (st', code) /\ inv st' /\ (code = StatusOK -> achieved st' o).
Proof.
  intros Hi Hall. destruct o as [sess s addr|sess|s name|s]; cbn [exec achieved].
  - by apply add_session_ok.
  - destruct (remove_session_ok st sess Hi) as (st' & -> & Hi' & Hs). eauto 10.
  - by apply link_source_ok.
  - destruct (unlink_source_ok st s Hi) as (st' & -> & Hi' & Hs & _). eauto 10.
Qed.

Lemma router_make_inv g : (forall n, g n <> Stalled) -> inv (make g).
Proof.
  intros Hg. split; cbn; try done.
  - constructor.
  - intros r. rewrite lookup_empty. split; [intros H; inversion H|intros [? [=]]].
  - intros r [? [=]].
  - intros k r. rewrite !lookup_empty. split; [done|]. by intros (rt & ? & _).
  - intros k r. rewrite !lookup_empty. split; [done|]. by intros (rt & ? & _).
  - intros k r. rewrite !lookup_empty. split; [done|]. by intros (rt & ? & _).
Qed.

Lemma reachable_inv g st : (forall n, g n <> Stalled) -> reachable g st -> inv st.
Proof.
  intros Hg. induction 1 as [|st o st' code Hr IH Hall He]; [by apply router_make_inv|].
  destruct (exec_ok st o IH Hall) as (st1 & code1 & E & Hi & _). congruence.
Qed.

(** C17: as long as no hash map of the router has to grow while its last rehashing is
    unfinished, and no SSRC that a route was created for changes its CNAME while that route
    has no address or no session: in every state that the operations can lead to, whatever
    allocations failed, the four maps and the routes agree: an SSRC, an address, a CNAME or a
    session is found exactly if a route has it, and then in that route only.  Every further
    operation of this kind ends without a panic in such a state again, and when it reports
    success, then: a session that was added is found by its SSRC and by its address; a
    session that was removed is not found; an SSRC that was linked is in the same route as
    the CNAME; an SSRC that was unlinked is in no route. *)
Theorem session_router_safe g st o :
  (forall n, g n <> Stalled) -> reachable g st -> allowed_op st o = true ->
  exists st' code, exec st o = Ok (st', code) /\ inv st' /\ (code = StatusOK -> achieved st' o).
Proof. intros Hg Hr. apply exec_ok. by eapply reachable_inv. Qed.

(** The state after a sequence of operations, with enough memory. *)
Definition ran (os : list op) : t :=
  match exec_all (make (fun _ => Granted)) os with Ok st => st | Panic => make (fun _ => Granted) end.

(** The main SSRC of a session changes its CNAME: the session goes with it. *)
Lemma session_router_safe_witness :
  let st := ran [LinkSource 1 [97]; AddSession 7 1 (Some 9)] in
  exists st', exec st (LinkSource 1 [98]) = Ok (st', StatusOK) /\ inv st' /\
    (exists r, linked_to st' 1 [98] r) /\ find_by_source st' 1 = Ok (Some 7).
Proof.
  intros st. set (st' := ran [LinkSource 1 [97]; AddSession 7 1 (Some 9); LinkSource 1 [98]]).
  assert (R1 : reachable (fun _ => Granted) (ran [LinkSource 1 [97]])).
  { apply (reach_exec _ (make (fun _ => Granted)) (LinkSource 1 [97]) _ StatusOK);
      [apply reach_make|vm_compute; reflexivity|vm_compute; reflexivity]. }
  assert (R2 : reachable (fun _ => Granted) st).
  { apply (reach_exec _ (ran [LinkSource 1 [97]]) (AddSession 7 1 (Some 9)) _ StatusOK);
      [exact R1|vm_compute; reflexivity|vm_compute; reflexivity]. }
  assert (E : exec st (LinkSource 1 [98]) = Ok (st', StatusOK)) by (vm_compute; reflexivity).
  assert (F : find_by_source st' 1 = Ok (Some 7)) by (vm_compute; reflexivity).
  clearbody st'.
  destruct (session_router_safe (fun _ => Granted) st (LinkSource 1 [98]) (fun n => ltac:(discriminate)) R2)
    as (st1 & code & He & Hi & Ha);
    [vm_compute; reflexivity|].
  rewrite E in He. injection He as <- <-. exists st'. split; [exact E|]. split; [exact Hi|].
  split; [exact (Ha eq_refl)|exact F].
Defined.
