(* ===== verification/SessionRouterPanic.v ===== *)
(** When the session router aborts the receiver: an SSRC that has no session yet changes its
    CNAME.  [move_route_session_] inserts the address node of the new route although the
    address is empty, and the session node although the session is NULL; the next insertion
    of one of these nodes, or of another node with an empty key, panics. *)

From stdpp Require Import gmap.
From S2P Require Import Prelude SessionRouter SessionRouterSafe.
Import SessionRouter.

(** Maps are looked up by the lemmas on finite maps, never by evaluation. *)
#[local] Strategy 1000 [gmap_lookup gmap_partial_alter map_insert map_delete gmap_empty].

(** Look a key up in a map that is given by its entries. *)
Ltac lookup_step :=
  match goal with
  | |- context [?m !! ?k] =>
      first
        [ rewrite (lookup_empty k)
        | rewrite lookup_insert_eq
        | rewrite lookup_insert_ne by congruence
        | rewrite lookup_delete_eq
        | rewrite lookup_delete_ne by congruence ]
  end.

(** Run the router on a state that is given explicitly. *)
Ltac run_router :=
  repeat
    (progress
      (unfold upd, get, route_add_source, route_add_cname, insert_source, insert_address, ask_insert,
         insert_cname, insert_session, remove_address, remove_cname, remove_session_node,
         move_route_session_, move_address, move_session, drop_source;
       cbn -[lookup insert delete decide bool_decide filter link_source link_source_
             relink_with remove_sources add_session collect_route_])
     || lookup_step || rewrite Z.eqb_refl || rewrite insert_insert_eq).

Lemma filter_self (s : Z) : filter (.≠ s) [s] = [].
Proof. rewrite filter_cons_False by (by intros H). apply filter_nil. Qed.

Lemma link_source_unfold st s name :
  name <> [] -> (length name <= MaxCnameLen)%nat -> link_source st s name = link_source_ 2 st s name.
Proof.
  intros Hn Hl. unfold link_source. rewrite bool_decide_false by done.
  by rewrite bool_decide_false by lia.
Qed.

(** The route of an SSRC that a CNAME was announced for, and that has no session. *)
Definition linked (s : Z) (l : list Z) (c : list Z) : Route :=
  mkRoute None None c true s l None (Some c) None.

(** The same with both nodes in their maps, under empty keys. *)
Definition stranded (s : Z) (c : list Z) : Route :=
  mkRoute None None c true s [s] (Some None) (Some c) (Some None).

Abbreviation granted := (fun _ : nat => Granted).

Section Relink.

Variables (s : Z) (a b : list Z).

(** [s] was linked to [a]. *)
Definition one_link : t :=
  mkRouter (<[0%nat := linked s [s] a]> ∅) [0%nat] 1 (<[s := 0%nat]> ∅) ∅ (<[a := 0%nat]> ∅) ∅ granted 4.

(** [s] left its route and was linked to [b]. *)
Definition two_links : t :=
  mkRouter (<[1%nat := linked s [s] b]> (<[0%nat := linked s [] a]> ∅)) [0%nat; 1%nat] 2
    (<[s := 1%nat]> (delete s (<[s := 0%nat]> ∅))) ∅ (<[b := 1%nat]> (<[a := 0%nat]> ∅)) ∅ granted 8.

(** The (missing) session was moved to the new route. *)
Definition moved (rs : gmap nat Route) : t :=
  mkRouter rs [0%nat; 1%nat] 2
    (<[s := 1%nat]> (delete s (<[s := 0%nat]> ∅))) (<[None := 1%nat]> ∅)
    (<[b := 1%nat]> (<[a := 0%nat]> ∅)) (<[None := 1%nat]> ∅) granted 10.

Lemma one_link_ok : a <> [] -> link_source_ 2 (make granted) s a = Ok (one_link, StatusOK).
Proof. intros Ha. rewrite link_source_S. run_router. reflexivity. Qed.

Lemma two_links_ok :
  a <> [] -> b <> [] -> a <> b ->
  exists st, drop_source one_link 0 s = Ok st /\ link_source_ 1 st s b = Ok (two_links, StatusOK).
Proof.
  intros Ha Hb Hab. eexists. split; [run_router; reflexivity|].
  rewrite link_source_S. unfold one_link. rewrite filter_self. run_router. reflexivity.
Qed.

Lemma moved_ok :
  exists rs, move_route_session_ two_links 0 1 = Ok (moved rs, StatusOK) /\
    rs !! 0%nat = Some (linked s [] a) /\ rs !! 1%nat = Some (stranded s b).
Proof.
  eexists. split; [unfold two_links; run_router; reflexivity|]. split; repeat lookup_step; reflexivity.
Qed.

Lemma collected_ok rs :
  a <> b -> rs !! 0%nat = Some (linked s [] a) -> rs !! 1%nat = Some (stranded s b) ->
  exists st,
    (let* st := upd (moved rs) 1 (set_main true s) in
     let* st := upd st 0 (set_main false 0) in
     collect_route_ st 0) = Ok st /\
    routes st !! 1%nat = Some (stranded s b) /\ source_route_map_ st !! s = Some 1%nat /\
    address_route_map_ st = <[None := 1%nat]> ∅ /\
    session_route_map_ st = <[None := 1%nat]> ∅ /\ grants st = granted.
Proof.
  intros Hab H0 H1. rewrite (upd_ok (moved rs) 1 _ _ H1). cbn [res_bind].
  rewrite (upd_ok _ 0 (linked s [] a)) by (cbn; by rewrite lookup_insert_ne). cbn [res_bind].
  unfold collect_route_, up, moved. run_router. rewrite decide_True by done.
  unfold remove_route_. run_router. rewrite decide_True by left.
  eexists. split; [reflexivity|]. cbn [routes source_route_map_]. split.
  - repeat lookup_step. reflexivity.
  - split; [exact (lookup_insert_eq _ _ _)|]. done.
Qed.

(** The state after both announcements. *)
Lemma relinked_state :
  a <> [] -> b <> [] -> a <> b ->
  exists st, relink_with (link_source_ 1) one_link s b = Ok (st, StatusOK) /\
    routes st !! 1%nat = Some (stranded s b) /\ source_route_map_ st !! s = Some 1%nat /\
    address_route_map_ st = <[None := 1%nat]> ∅ /\
    session_route_map_ st = <[None := 1%nat]> ∅ /\ grants st = granted.
Proof.
  intros Ha Hb Hab. unfold relink_with.
  destruct (two_links_ok Ha Hb Hab) as (st1 & E1 & E2).
  destruct moved_ok as (rs & E3 & H0 & H1).
  destruct (collected_ok rs Hab H0 H1) as (st & E4 & Hst).
  replace (source_route_map_ one_link !! s) with (Some 0%nat) by (symmetry; apply lookup_insert_eq).
  rewrite E1. cbn [res_bind]. rewrite E2. cbn [res_bind].
  rewrite (bool_decide_true (StatusOK = StatusOK)) by done. cbn [negb].
  rewrite (get_ok two_links 0 (linked s [] a))
    by (unfold two_links; cbn [routes]; repeat lookup_step; reflexivity).
  cbn [res_bind linked is_main has_main_source_id main_source_id andb]. rewrite Z.eqb_refl.
  replace (source_route_map_ two_links !! s) with (Some 1%nat) by (symmetry; apply lookup_insert_eq).
  rewrite E3. cbn [res_bind]. rewrite (bool_decide_true (StatusOK = StatusOK)) by done. cbn [negb].
  exists st. split; [|done]. destruct (upd (moved rs) 1 _) as [st2|]; [|discriminate E4].
  cbn [res_bind] in *. destruct (upd st2 0 _) as [st3|]; [|discriminate E4].
  cbn [res_bind] in *. by rewrite E4.
Qed.

End Relink.

(** An SSRC that announces a CNAME and then another one before its first media packet,
    with all memory available, leaves the router in a state in which registering a session
    for it panics: the address node of its route is in the map already, under the empty
    address. *)
Theorem session_router_relink_panics s a b sess addr :
  a <> [] -> b <> [] -> a <> b ->
  (length a <= MaxCnameLen)%nat -> (length b <= MaxCnameLen)%nat ->
  exec_all (make granted) [LinkSource s a; LinkSource s b; AddSession sess s (Some addr)] = Panic.
Proof.
  intros Ha Hb Hab Hla Hlb. cbn [exec_all exec].
  rewrite link_source_unfold, one_link_ok by done. cbn [res_bind fst].
  rewrite link_source_unfold, link_source_S by done.
  replace (source_route_map_ (one_link s a) !! s) with (Some 0%nat)
    by (symmetry; apply lookup_insert_eq).
  replace (cname_route_map_ (one_link s a) !! b) with (None : option nat)
    by (unfold one_link; cbn [cname_route_map_]; repeat lookup_step; reflexivity).
  rewrite (get_ok _ 0 (linked s [s] a)) by (apply lookup_insert_eq).
  cbn [res_bind linked cname]. rewrite (bool_decide_false (a = [])) by done. cbn [negb].
  destruct (relinked_state s a b Ha Hb Hab) as (st & -> & Hr & Hs & Ham & Hsm & Hg).
  cbn [res_bind fst]. unfold add_session.
  rewrite Ham, Hsm, Hs. repeat lookup_step.
  rewrite (bool_decide_false (is_Some (None : option nat))) by (by intros [? ?]).
  rewrite andb_false_r, (get_ok st 1 _ Hr). cbn [res_bind stranded source_addr session].
  unfold route_add_address, insert_address, ask_insert. rewrite (upd_ok st 1 _ _ Hr).
  assert (Hu : grants (up st 1 (set_addr (Some addr) (stranded s b))) = granted) by exact Hg.
  cbn [res_bind]. rewrite Hu. unfold ask. cbn [res_bind]. rewrite Hu. cbn [is_granted].
  rewrite (get_ok _ 1 (set_addr (Some addr) (stranded s b))) by (apply lookup_insert_eq).
  reflexivity.
Qed.

Lemma session_router_relink_panics_witness :
  exec_all (make granted)
    [LinkSource 1 [97]; LinkSource 1 [98]; AddSession 7 1 (Some 9)] = Panic.
Proof. apply (session_router_relink_panics 1 [97] [98] 7 9); closed || (vm_compute; lia). Defined.

(** Two such SSRCs are enough without any session: the second empty address is a duplicate. *)
Lemma two_relinks_panic :
  exec_all (make granted)
    [LinkSource 1 [97]; LinkSource 1 [98]; LinkSource 2 [99]; LinkSource 2 [100]] = Panic.
Proof. vm_compute. reflexivity. Qed.
