(* ===== verification/ChannelSet.v ===== *)
(** Channel sets (src/internal_modules/roc_audio/channel_set.cpp, channel_set.h,
    channel_defs.h): sets of up to 1024 channels as bits of 64-bit words, with the number of
    channels and the first and last one computed after every change. *)

From S2P Require Import Prelude.

#[local] Open Scope nat_scope.

Module ChannelSet.

(** * Data *)

Inductive ChannelLayout : Type := ChanLayout_None | ChanLayout_Surround | ChanLayout_Multitrack.

#[global] Instance ChannelLayout_eq_dec : EqDecision ChannelLayout.
Proof. solve_decision. Defined.

Inductive ChannelOrder : Type := ChanOrder_None | ChanOrder_Smpte | ChanOrder_Alsa | ChanOrder_Max.

#[global] Instance ChannelOrder_eq_dec : EqDecision ChannelOrder.
Proof. solve_decision. Defined.

(** [ChannelPosition] *)
Definition ChanPos_FrontLeft : Z := 0.
Definition ChanPos_FrontCenter : Z := 2.
Definition ChanPos_FrontRight : Z := 4.
Definition ChanPos_SideLeft : Z := 5.
Definition ChanPos_SideRight : Z := 6.
Definition ChanPos_BackLeft : Z := 7.
Definition ChanPos_BackCenter : Z := 8.
Definition ChanPos_BackRight : Z := 9.
Definition ChanPos_Max : nat := 17.

(** Several positions as a [ChannelMask]. *)
Definition mask_of (positions : list Z) : Z :=
  fold_left (fun m p => Z.lor m (Z.shiftl 1 p)) positions 0%Z.

Definition ChanMask_Surround_Mono : Z := mask_of [ChanPos_FrontCenter].
Definition ChanMask_Surround_Stereo : Z := mask_of [ChanPos_FrontLeft; ChanPos_FrontRight].
Definition ChanMask_Surround_3_0 : Z :=
  mask_of [ChanPos_FrontLeft; ChanPos_FrontCenter; ChanPos_FrontRight].
Definition ChanMask_Surround_4_0 : Z :=
  mask_of [ChanPos_FrontLeft; ChanPos_FrontRight; ChanPos_BackLeft; ChanPos_BackRight].
Definition ChanMask_Surround_5_0 : Z :=
  mask_of [ChanPos_FrontLeft; ChanPos_FrontCenter; ChanPos_FrontRight;
           ChanPos_BackLeft; ChanPos_BackRight].
Definition ChanMask_Surround_6_0 : Z :=
  mask_of [ChanPos_FrontLeft; ChanPos_FrontCenter; ChanPos_FrontRight;
           ChanPos_BackLeft; ChanPos_BackCenter; ChanPos_BackRight].
Definition ChanMask_Surround_7_0 : Z :=
  mask_of [ChanPos_FrontLeft; ChanPos_FrontCenter; ChanPos_FrontRight;
           ChanPos_SideLeft; ChanPos_SideRight; ChanPos_BackLeft; ChanPos_BackRight].

Definition WordBits : nat := 64.
Definition NumWords : nat := 16.
Definition MaxChannels : nat := 1024.

Record t : Type := mk {
  words_ : list Z;
  num_chans_ : nat;
  first_chan_ : nat;
  last_chan_ : nat;
  layout_ : ChannelLayout;
  order_ : ChannelOrder
}.

(** * The index *)

Record Index : Type := mkIndex {
  ix_num : nat;
  ix_first : nat;
  ix_last : nat;
  has_first : bool;
  nch : nat
}.

(** The body of the inner loop. *)
Definition index_bit (word : Z) (ix : Index) (b : nat) : Index :=
  if Z.testbit word (Z.of_nat b)
  then mkIndex (S (ix_num ix)) (if has_first ix then ix_first ix else nch ix) (nch ix) true
         (S (nch ix))
  else mkIndex (ix_num ix) (ix_first ix) (ix_last ix) (has_first ix) (S (nch ix)).

(** The body of the outer loop. *)
Definition index_word (ix : Index) (word : Z) : Index :=
  if Z.eqb word 0
  then mkIndex (ix_num ix) (ix_first ix) (ix_last ix) (has_first ix) (nch ix + WordBits)
  else fold_left (index_bit word) (seq 0 WordBits) ix.

(** Assigning the words and calling [index_chans_]. *)
Definition index_chans_ (words : list Z) (cs : t) : t :=
  let ix := fold_left index_word words (mkIndex 0 0 0 false 0) in
  mk words (ix_num ix) (ix_first ix) (ix_last ix) (layout_ cs) (order_ cs).

(** [clear_chans_], with [words_[0]] assigned. *)
Definition mask_words (mask : Z) : list Z := mask :: replicate (NumWords - 1) 0%Z.

Definition set_word_bit (n : nat) (enabled : bool) (words : list Z) : list Z :=
  let bit := Z.shiftl 1 (Z.of_nat (n mod WordBits)) in
  alter (fun w => if enabled then Z.lor w bit else Z.ldiff w bit) (n / WordBits) words.

(** * Operations *)

Definition empty : t :=
  index_chans_ (mask_words 0) (mk [] 0 0 0 ChanLayout_None ChanOrder_None).

(** [ChannelSet(layout, order, mask)] *)
Definition make (layout : ChannelLayout) (order : ChannelOrder) (mask : Z) : res t :=
  panic_if (bool_decide (layout = ChanLayout_None))
    (panic_if (negb (if bool_decide (layout = ChanLayout_Surround)
                     then bool_decide (order <> ChanOrder_None)
                     else bool_decide (order = ChanOrder_None)))
       (panic_if (Z.eqb mask 0)
          (Ok (index_chans_ (mask_words mask) (mk [] 0 0 0 layout order))))).

(** [operator==] *)
Definition eqb (a b : t) : bool :=
  bool_decide (layout_ a = layout_ b) && bool_decide (order_ a = order_ b)
  && bool_decide (words_ a = words_ b).

Definition is_valid (cs : t) : bool :=
  match layout_ cs with
  | ChanLayout_None => false
  | ChanLayout_Surround =>
      negb (bool_decide (order_ cs = ChanOrder_None \/ order_ cs = ChanOrder_Max))
      && negb (num_chans_ cs =? 0) && negb (ChanPos_Max <=? last_chan_ cs)
  | ChanLayout_Multitrack =>
      bool_decide (order_ cs = ChanOrder_None) && negb (num_chans_ cs =? 0)
  end.

Definition clear (cs : t) : t :=
  index_chans_ (mask_words 0)
    (mk (words_ cs) (num_chans_ cs) (first_chan_ cs) (last_chan_ cs) ChanLayout_None ChanOrder_None).

Definition set_layout (layout : ChannelLayout) (cs : t) : res t :=
  panic_if (bool_decide (layout = ChanLayout_None))
    (Ok (mk (words_ cs) (num_chans_ cs) (first_chan_ cs) (last_chan_ cs) layout (order_ cs))).

Definition set_order (order : ChannelOrder) (cs : t) : t :=
  mk (words_ cs) (num_chans_ cs) (first_chan_ cs) (last_chan_ cs) (layout_ cs) order.

Definition max_channels : nat := MaxChannels.

Definition num_channels (cs : t) : nat := num_chans_ cs.

Definition word_at (cs : t) (i : nat) : Z := default 0%Z (words_ cs !! i).

Definition has_channel (n : nat) (cs : t) : res bool :=
  panic_if (MaxChannels <=? n)
    (Ok (Z.testbit (word_at cs (n / WordBits)) (Z.of_nat (n mod WordBits)))).

Definition first_channel (cs : t) : res nat :=
  panic_if (num_chans_ cs =? 0) (Ok (first_chan_ cs)).

Definition last_channel (cs : t) : res nat :=
  panic_if (num_chans_ cs =? 0) (Ok (last_chan_ cs)).

Definition is_equal (mask : Z) (cs : t) : bool :=
  if WordBits <=? last_chan_ cs then false else Z.eqb (word_at cs 0) mask.

Definition is_subset (mask : Z) (cs : t) : bool :=
  if WordBits <=? last_chan_ cs then false
  else Z.eqb (Z.land (word_at cs 0) mask) (word_at cs 0).

Definition is_superset (mask : Z) (cs : t) : bool :=
  if WordBits <=? last_chan_ cs then true
  else Z.eqb (Z.land (word_at cs 0) mask) mask.

Definition set_mask (mask : Z) (cs : t) : t := index_chans_ (mask_words mask) cs.

(** The loop over [from .. to]. *)
Definition toggle_words (from to : nat) (enabled : bool) (words : list Z) : list Z :=
  fold_left (fun ws n => set_word_bit n enabled ws) (seq from (S to - from)) words.

Definition set_range (from to : nat) (cs : t) : res t :=
  panic_if ((MaxChannels <=? from) || (MaxChannels <=? to))
    (panic_if (to <? from) (Ok (index_chans_ (toggle_words from to true (mask_words 0)) cs))).

Definition set_count (count : nat) (cs : t) : res t :=
  panic_if (MaxChannels <=? count)
    match count with
    | 0 => Ok (set_mask 0 cs)
    | 1 => Ok (set_mask ChanMask_Surround_Mono cs)
    | 2 => Ok (set_mask ChanMask_Surround_Stereo cs)
    | 3 => Ok (set_mask ChanMask_Surround_3_0 cs)
    | 4 => Ok (set_mask ChanMask_Surround_4_0 cs)
    | 5 => Ok (set_mask ChanMask_Surround_5_0 cs)
    | 6 => Ok (set_mask ChanMask_Surround_6_0 cs)
    | 7 => Ok (set_mask ChanMask_Surround_7_0 cs)
    | _ => set_range 0 (count - 1) cs
    end.

Definition toggle_channel (n : nat) (enabled : bool) (cs : t) : res t :=
  panic_if (MaxChannels <=? n) (Ok (index_chans_ (set_word_bit n enabled (words_ cs)) cs)).

Definition toggle_channel_range (from to : nat) (enabled : bool) (cs : t) : res t :=
  panic_if ((MaxChannels <=? from) || (MaxChannels <=? to))
    (panic_if (to <? from) (Ok (index_chans_ (toggle_words from to enabled (words_ cs)) cs))).

Definition bitwise_and (other cs : t) : t :=
  index_chans_ (zip_with Z.land (words_ cs) (words_ other)) cs.

Definition bitwise_or (other cs : t) : t :=
  index_chans_ (zip_with Z.lor (words_ cs) (words_ other)) cs.

Definition bitwise_xor (other cs : t) : t :=
  index_chans_ (zip_with Z.lxor (words_ cs) (words_ other)) cs.

Definition num_bytes : nat := NumWords * 8.

Definition byte_at (n : nat) (cs : t) : res Z :=
  panic_if (num_bytes <=? n)
    (Ok (Z.land (Z.shiftr (word_at cs (n / 8)) (Z.of_nat (n mod 8 * 8))) 0xff)).

End ChannelSet.
