(* ===== verification/ChannelSetRefines.v ===== *)
(** What channel sets promise: they are sets of numbers below 1024, and the computed number
    of channels, first and last channel are those of the set. *)

From Stdlib Require Import Sorted.
From stdpp Require Import gmap fin_sets.
From S2P Require Import Prelude ChannelSet.
Import ChannelSet.

#[local] Open Scope nat_scope.

(** * Bits *)

(** Channel [n] of the words. *)
Definition channel_bit (ws : list Z) (n : nat) : bool :=
  Z.testbit (default 0%Z (ws !! (n / WordBits))) (Z.of_nat (n mod WordBits)).

(** The channels in ascending order. *)
Definition channels (ws : list Z) : list nat :=
  filter (fun n => channel_bit ws n = true) (seq 0 MaxChannels).

Definition words_ok (ws : list Z) : Prop := length ws = NumWords /\ Forall (is_u 64) ws.

(** The abstract set. *)
Definition chans (cs : t) : gset nat := list_to_set (channels (words_ cs)).

Definition channel_set_ok (cs : t) : Prop :=
  words_ok (words_ cs)
  /\ num_chans_ cs = length (channels (words_ cs))
  /\ first_chan_ cs = default 0 (head (channels (words_ cs)))
  /\ last_chan_ cs = default 0 (last (channels (words_ cs))).

Lemma elem_of_channels ws n : n ∈ channels ws <-> n < MaxChannels /\ channel_bit ws n = true.
Proof. unfold channels. rewrite list_elem_of_filter, elem_of_seq. cbn. intuition lia. Qed.

Lemma elem_of_chans cs n : n ∈ chans cs <-> n < MaxChannels /\ channel_bit (words_ cs) n = true.
Proof. unfold chans. rewrite elem_of_list_to_set. apply elem_of_channels. Qed.

Lemma NoDup_channels ws : NoDup (channels ws).
Proof. apply NoDup_filter, NoDup_seq. Qed.

(** * The index *)

(** One channel in either loop. *)
Definition index_step (ix : Index) (set : bool) : Index :=
  if set then mkIndex (S (ix_num ix)) (if has_first ix then ix_first ix else nch ix) (nch ix) true
         (S (nch ix))
  else mkIndex (ix_num ix) (ix_first ix) (ix_last ix) (has_first ix) (S (nch ix)).

Definition word_bits (w : Z) : list bool := (fun b => Z.testbit w (Z.of_nat b)) <$> seq 0 WordBits.

Lemma index_bits_fold w l ix :
  fold_left (index_bit w) l ix = fold_left index_step ((fun b => Z.testbit w (Z.of_nat b)) <$> l) ix.
Proof. revert ix. induction l as [|b l IH]; intros ix; [done|]. cbn. rewrite IH. done. Qed.

Lemma index_step_false n ix :
  fold_left index_step (replicate n false) ix
  = mkIndex (ix_num ix) (ix_first ix) (ix_last ix) (has_first ix) (nch ix + n).
Proof.
  revert ix. induction n as [|n IH]; intros ix; cbn [replicate fold_left].
  - by rewrite Nat.add_0_r, <- (Nat.add_0_r (nch ix)); destruct ix; cbn; rewrite Nat.add_0_r.
  - rewrite IH. cbn. f_equal. lia.
Qed.

Lemma index_word_bits ix w : index_word ix w = fold_left index_step (word_bits w) ix.
Proof.
  unfold index_word. destruct (Z.eqb_spec w 0) as [->|_]; [|by rewrite index_bits_fold].
  replace (word_bits 0) with (replicate WordBits false); [by rewrite index_step_false|reflexivity].
Qed.

Lemma index_words_bits ws ix :
  fold_left index_word ws ix = fold_left index_step (mjoin (word_bits <$> ws)) ix.
Proof.
  revert ix. induction ws as [|w ws IH]; intros ix; [done|]. cbn [fmap list_fmap mjoin list_join fold_left].
  rewrite fold_left_app, IH, index_word_bits. done.
Qed.

(** The loops visit the channels in order. *)
Lemma join_word_bits ws : length ws = NumWords -> mjoin (word_bits <$> ws) = channel_bit ws <$> seq 0 MaxChannels.
Proof.
  intros Hl. unfold NumWords in Hl.
  do 16 (destruct ws as [|? ws]; [discriminate Hl|]). destruct ws; [|discriminate Hl]. reflexivity.
Qed.

(** The index after the first [k] channels. *)
Lemma index_prefix f k :
  fold_left index_step (f <$> seq 0 k) (mkIndex 0 0 0 false 0)
  = let l := filter (fun n => f n = true) (seq 0 k) in
    mkIndex (length l) (default 0 (head l)) (default 0 (last l)) (negb (bool_decide (l = []))) k.
Proof.
  induction k as [|k IH]; [done|]. rewrite seq_S, fmap_app, fold_left_app, IH. cbn zeta.
  rewrite filter_app. cbn [fmap list_fmap fold_left Nat.add]. unfold index_step.
  destruct (f k) eqn:E; cbn [ix_num ix_first ix_last has_first nch].
  - rewrite filter_cons_True, filter_nil by done. rewrite length_app, last_snoc.
    destruct (filter _ (seq 0 k)) as [|x l]; cbn; f_equal; lia.
  - rewrite filter_cons_False, filter_nil, app_nil_r by congruence. done.
Qed.

Lemma index_chans_ok ws cs :
  words_ok ws ->
  channel_set_ok (index_chans_ ws cs)
  /\ words_ (index_chans_ ws cs) = ws /\ layout_ (index_chans_ ws cs) = layout_ cs
  /\ order_ (index_chans_ ws cs) = order_ cs.
Proof.
  intros Hw. unfold index_chans_. rewrite index_words_bits, join_word_bits by apply Hw.
  rewrite index_prefix. split; [|done]. split; [done|]. done.
Qed.

Lemma chans_index ws cs n :
  words_ok ws -> n ∈ chans (index_chans_ ws cs) <-> n < MaxChannels /\ channel_bit ws n = true.
Proof. intros Hw. destruct (index_chans_ok ws cs Hw) as (_ & E & _). by rewrite elem_of_chans, E. Qed.

(** * Changing words *)

Lemma mask_words_ok mask : is_u 32 mask -> words_ok (mask_words mask).
Proof.
  intros Hm. split; [done|]. constructor; [unfold is_u in *; lia|].
  apply Forall_replicate. done.
Qed.

Lemma channel_bit_mask mask n :
  is_u 32 mask -> channel_bit (mask_words mask) n = Z.testbit mask (Z.of_nat n).
Proof.
  intros Hm. unfold channel_bit, mask_words, WordBits.
  destruct (n / 64) as [|k] eqn:E.
  - change ((mask :: replicate (NumWords - 1) 0%Z) !! 0) with (Some mask).
    apply Nat.div_small_iff in E; [|done]. by rewrite Nat.mod_small.
  - change ((mask :: replicate (NumWords - 1) 0%Z) !! S k) with (replicate (NumWords - 1) 0%Z !! k).
    assert (default 0%Z (replicate (NumWords - 1) 0%Z !! k) = 0%Z) as ->.
    { destruct (_ !! k) as [x|] eqn:Ex; [|done]. by apply lookup_replicate in Ex as [-> _]. }
    rewrite Z.bits_0. symmetry. destruct Hm as [H0 Hm].
    destruct (Z.eq_dec mask 0) as [->|]; [apply Z.bits_0|].
    apply Z.bits_above_log2; [done|]. apply Z.log2_lt_pow2; [lia|].
    assert (64 <= n) by (destruct (decide (n < 64)) as [Hn|]; [apply Nat.div_small in Hn; lia|lia]).
    eapply Z.lt_le_trans; [exact Hm|]. apply Z.pow_le_mono_r; lia.
Qed.

Lemma is_u64_bits w : is_u 64 w <-> (0 <= w)%Z /\ forall n, (64 <= n)%Z -> Z.testbit w n = false.
Proof.
  split.
  - intros [H0 H]. split; [done|]. intros n Hn. destruct (Z.eq_dec w 0) as [->|]; [apply Z.bits_0|].
    apply Z.bits_above_log2; [done|]. apply Z.log2_lt_pow2; [lia|].
    eapply Z.lt_le_trans; [exact H|]. apply Z.pow_le_mono_r; lia.
  - intros [H0 H]. split; [done|]. destruct (Z_lt_le_dec w (2 ^ 64)) as [|Hge]; [done|].
    assert (64 <= Z.log2 w)%Z as Hl by (apply Z.log2_le_pow2; lia).
    specialize (H _ Hl). rewrite Z.bit_log2 in H by lia. done.
Qed.

Lemma word_bit_ok n : n < 64 -> is_u 64 (Z.shiftl 1 (Z.of_nat n)).
Proof.
  intros Hn. rewrite Z.shiftl_1_l. split; [lia|]. apply Z.pow_lt_mono_r; lia.
Qed.

Lemma word_mod n : n mod WordBits < 64.
Proof. apply Nat.mod_upper_bound. done. Qed.

Lemma set_word_bit_ok n enabled ws : words_ok ws -> words_ok (set_word_bit n enabled ws).
Proof.
  intros [Hl Hf]. unfold set_word_bit. split; [by rewrite length_alter|].
  apply Forall_alter; [done|]. intros w _ Hw.
  pose proof (word_bit_ok _ (word_mod n)) as Hb. rewrite is_u64_bits in *.
  destruct Hw as [Hw0 Hw], Hb as [Hb0 Hb]. destruct enabled; split.
  - by apply Z.lor_nonneg.
  - intros i Hi. by rewrite Z.lor_spec, Hw, Hb.
  - apply Z.ldiff_nonneg. lia.
  - intros i Hi. by rewrite Z.ldiff_spec, Hw.
Qed.

Lemma same_channel n m : n / WordBits = m / WordBits -> n mod WordBits = m mod WordBits -> n = m.
Proof. intros Hd Hm. rewrite (Nat.div_mod_eq n WordBits), (Nat.div_mod_eq m WordBits). congruence. Qed.

Lemma channel_bit_set n enabled ws m :
  words_ok ws -> n < MaxChannels ->
  channel_bit (set_word_bit n enabled ws) m = if decide (m = n) then enabled else channel_bit ws m.
Proof.
  intros [Hl _] Hn. unfold channel_bit, set_word_bit.
  assert (n / WordBits < length ws) as Hi.
  { rewrite Hl. apply Nat.Div0.div_lt_upper_bound. exact Hn. }
  destruct (lookup_lt_is_Some_2 _ _ Hi) as [w Hw].
  destruct (decide (m / WordBits = n / WordBits)) as [Ed|Ed].
  - rewrite Ed, list_lookup_alter_eq, Hw. cbn [fmap option_fmap option_map default from_option id].
    assert (Z.testbit (Z.shiftl 1 (Z.of_nat (n mod WordBits))) (Z.of_nat (m mod WordBits))
            = bool_decide (m = n)) as Eb.
    { rewrite Z.shiftl_1_l, Z.pow2_bits_eqb by lia. apply eq_bool_prop_intro.
      rewrite !Is_true_true, Z.eqb_eq, bool_decide_eq_true. split; [|by intros ->].
      intros E. apply same_channel; [done|lia]. }
    destruct enabled; rewrite ?Z.lor_spec, ?Z.ldiff_spec, Eb; case_decide as E;
      [rewrite bool_decide_true by done|rewrite bool_decide_false by done
      |rewrite bool_decide_true by done|rewrite bool_decide_false by done];
      by rewrite ?orb_true_r, ?orb_false_r, ?andb_false_r, ?andb_true_r.
  - rewrite list_lookup_alter_ne by done. rewrite decide_False by (intros ->; done). done.
Qed.

Lemma toggle_words_ok from to enabled ws : words_ok ws -> words_ok (toggle_words from to enabled ws).
Proof.
  unfold toggle_words. generalize (seq from (S to - from)) as l. intros l. revert ws.
  induction l as [|n l IH]; intros ws Hw; [done|]. cbn. by apply IH, set_word_bit_ok.
Qed.

Lemma channel_bit_toggle from to enabled ws m :
  words_ok ws -> to < MaxChannels ->
  channel_bit (toggle_words from to enabled ws) m
  = if decide (from <= m <= to) then enabled else channel_bit ws m.
Proof.
  intros Hw Hto. unfold toggle_words.
  assert (forall l ws, words_ok ws -> Forall (fun n => n < MaxChannels) l ->
    channel_bit (fold_left (fun ws n => set_word_bit n enabled ws) l ws) m
    = if decide (m ∈ l) then enabled else channel_bit ws m) as H.
  { intros l. induction l as [|n l IH]; intros ws' Hw' Hf; [done|].
    apply Forall_cons in Hf as [Hn Hf]. cbn [fold_left].
    rewrite IH by (by try apply set_word_bit_ok). rewrite channel_bit_set by done.
    do 2 case_decide; try case_decide; set_solver. }
  rewrite H; [|done|].
  - apply decide_ext. rewrite elem_of_seq. lia.
  - apply Forall_forall. intros n Hn. apply elem_of_seq in Hn. lia.
Qed.

Lemma zip_words_ok (f : Z -> Z -> Z) (g : bool -> bool -> bool) ws ws' :
  (forall a b n, Z.testbit (f a b) n = g (Z.testbit a n) (Z.testbit b n)) -> g false false = false ->
  (forall a b, 0 <= a -> 0 <= b -> 0 <= f a b)%Z ->
  words_ok ws -> words_ok ws' ->
  words_ok (zip_with f ws ws')
  /\ forall n, channel_bit (zip_with f ws ws') n = g (channel_bit ws n) (channel_bit ws' n).
Proof.
  intros Hf Hg Hp [Hl Hu] [Hl' Hu']. split.
  - split; [rewrite length_zip_with; lia|].
    apply Forall_lookup. intros i x Hx. apply lookup_zip_with_Some in Hx as (a & b & -> & Ha & Hb).
    eapply Forall_lookup_1 in Hu, Hu'; [|done..]. rewrite is_u64_bits in *.
    destruct Hu as [Ha0 Hu], Hu' as [Hb0 Hu']. split; [by apply Hp|].
    intros n Hn. by rewrite Hf, Hu, Hu'.
  - intros n. unfold channel_bit. rewrite lookup_zip_with.
    destruct (decide (n / WordBits < NumWords)) as [Hi|Hi].
    + destruct (lookup_lt_is_Some_2 ws (n / WordBits)) as [a ->]; [lia|].
      destruct (lookup_lt_is_Some_2 ws' (n / WordBits)) as [b ->]; [lia|]. cbn. apply Hf.
    + rewrite !lookup_ge_None_2 by lia. cbn. by rewrite Z.bits_0.
Qed.

(** * Operations on sets *)

(** The channels of a mask. *)
Definition mask_set (mask : Z) : gset nat :=
  list_to_set (filter (fun n => Z.testbit mask (Z.of_nat n) = true) (seq 0 32)).

Definition range_set (from to : nat) : gset nat := list_to_set (seq from (S to - from)).

Lemma elem_of_mask_set mask n :
  is_u 32 mask -> n ∈ mask_set mask <-> Z.testbit mask (Z.of_nat n) = true.
Proof.
  intros [H0 Hm]. unfold mask_set. rewrite elem_of_list_to_set, list_elem_of_filter, elem_of_seq.
  split; [tauto|]. intros Hb. split; [done|]. cbn.
  destruct (decide (n < 32)) as [|Hn]; [lia|]. exfalso.
  destruct (Z.eq_dec mask 0) as [->|]; [by rewrite Z.bits_0 in Hb|].
  rewrite Z.bits_above_log2 in Hb; [done|done|]. apply Z.log2_lt_pow2; [lia|].
  eapply Z.lt_le_trans; [exact Hm|]. apply Z.pow_le_mono_r; lia.
Qed.

Lemma elem_of_range_set from to n : n ∈ range_set from to <-> from <= n <= to.
Proof. unfold range_set. rewrite elem_of_list_to_set, elem_of_seq. lia. Qed.

(** The operations that change a set. *)
Inductive Op : Type :=
| OpSetLayout (layout : ChannelLayout)
| OpSetOrder (order : ChannelOrder)
| OpClear
| OpSetMask (mask : Z)
| OpSetRange (from to : nat)
| OpSetCount (count : nat)
| OpToggle (n : nat) (enabled : bool)
| OpToggleRange (from to : nat) (enabled : bool)
| OpAnd (other : t)
| OpOr (other : t)
| OpXor (other : t).

Definition run_op (op : Op) (cs : t) : res t :=
  match op with
  | OpSetLayout layout => set_layout layout cs
  | OpSetOrder order => Ok (set_order order cs)
  | OpClear => Ok (clear cs)
  | OpSetMask mask => Ok (set_mask mask cs)
  | OpSetRange from to => set_range from to cs
  | OpSetCount count => set_count count cs
  | OpToggle n enabled => toggle_channel n enabled cs
  | OpToggleRange from to enabled => toggle_channel_range from to enabled cs
  | OpAnd other => Ok (bitwise_and other cs)
  | OpOr other => Ok (bitwise_or other cs)
  | OpXor other => Ok (bitwise_xor other cs)
  end.

(** The channels that are meant by a number of channels. *)
Definition count_set (count : nat) : gset nat :=
  match count with
  | 1 => {[2]}
  | 2 => {[0; 4]}
  | 3 => {[0; 2; 4]}
  | 4 => {[0; 4; 7; 9]}
  | 5 => {[0; 2; 4; 7; 9]}
  | 6 => {[0; 2; 4; 7; 8; 9]}
  | 7 => {[0; 2; 4; 5; 6; 7; 9]}
  | _ => set_seq 0 count
  end.

(** The same on sets; [None] where the operation panics. *)
Definition spec_op (op : Op) (s : gset nat) : option (gset nat) :=
  let range from to s := if decide (from <= to < MaxChannels) then Some s else None in
  match op with
  | OpSetLayout layout => if decide (layout = ChanLayout_None) then None else Some s
  | OpSetOrder _ => Some s
  | OpClear => Some ∅
  | OpSetMask mask => Some (mask_set mask)
  | OpSetRange from to => range from to (range_set from to)
  | OpSetCount count =>
      if decide (count < MaxChannels) then Some (count_set count) else None
  | OpToggle n enabled =>
      range n n (if enabled then {[n]} ∪ s else s ∖ {[n]})
  | OpToggleRange from to enabled =>
      range from to (if enabled then range_set from to ∪ s else s ∖ range_set from to)
  | OpAnd other => Some (s ∩ chans other)
  | OpOr other => Some (s ∪ chans other)
  | OpXor other => Some ((s ∖ chans other) ∪ (chans other ∖ s))
  end.

Definition op_ok (op : Op) : Prop :=
  match op with
  | OpSetMask mask => is_u 32 mask
  | OpAnd other | OpOr other | OpXor other => channel_set_ok other
  | _ => True
  end.

(** A set with new words that stand for [s]. *)
Lemma index_chans_set ws cs (s : gset nat) :
  words_ok ws -> (forall n, n ∈ s <-> n < MaxChannels /\ channel_bit ws n = true) ->
  channel_set_ok (index_chans_ ws cs) /\ chans (index_chans_ ws cs) = s.
Proof.
  intros Hw Hs. split; [by apply index_chans_ok|]. apply set_eq. intros n.
  by rewrite chans_index, Hs.
Qed.

Lemma mask_below mask n : is_u 32 mask -> Z.testbit mask (Z.of_nat n) = true -> n < 32.
Proof.
  intros Hm Hb. apply elem_of_mask_set in Hb; [|done]. unfold mask_set in Hb.
  rewrite elem_of_list_to_set, list_elem_of_filter, elem_of_seq in Hb. lia.
Qed.

Lemma set_mask_ok mask cs :
  is_u 32 mask -> channel_set_ok (set_mask mask cs) /\ chans (set_mask mask cs) = mask_set mask.
Proof.
  intros Hm. apply index_chans_set; [by apply mask_words_ok|]. intros n.
  rewrite elem_of_mask_set, channel_bit_mask by done. unfold MaxChannels. split; [|tauto].
  intros Hb. pose proof (mask_below _ _ Hm Hb). split; [lia|done].
Qed.

(** The guards of the operations on ranges. *)
Lemma range_guard {A} from to (k : res A) :
  panic_if ((MaxChannels <=? from) || (MaxChannels <=? to)) (panic_if (to <? from) k)
  = if decide (from <= to < MaxChannels) then k else Panic.
Proof.
  unfold panic_if.
  destruct (Nat.leb_spec MaxChannels from), (Nat.leb_spec MaxChannels to), (Nat.ltb_spec to from);
    cbn [orb]; case_decide; done || lia.
Qed.

Lemma set_range_ok from to cs :
  from <= to < MaxChannels ->
  exists cs', set_range from to cs = Ok cs' /\ channel_set_ok cs' /\ chans cs' = range_set from to.
Proof.
  intros Hr. unfold set_range. rewrite range_guard, decide_True by done.
  eexists. split; [done|]. pose proof (mask_words_ok 0 ltac:(done)) as H0. apply index_chans_set.
  - by apply toggle_words_ok.
  - intros n. rewrite channel_bit_toggle, elem_of_range_set by (try done; lia).
    case_decide; [split; [lia|tauto]|]. rewrite channel_bit_mask, Z.bits_0 by done. naive_solver.
Qed.

Lemma range_set_single n : range_set n n = {[n]}.
Proof. apply set_eq. intros m. rewrite elem_of_range_set, elem_of_singleton. lia. Qed.

Lemma toggle_range_ok from to enabled cs :
  channel_set_ok cs -> from <= to < MaxChannels ->
  let ws := toggle_words from to enabled (words_ cs) in
  channel_set_ok (index_chans_ ws cs)
  /\ chans (index_chans_ ws cs)
     = if enabled then range_set from to ∪ chans cs else chans cs ∖ range_set from to.
Proof.
  intros [Hw _] Hr ws. apply index_chans_set; [by apply toggle_words_ok|].
  intros n. subst ws. rewrite channel_bit_toggle by (try done; lia).
  destruct enabled; [rewrite elem_of_union|rewrite elem_of_difference];
    rewrite elem_of_range_set, elem_of_chans; case_decide; intuition (lia || congruence).
Qed.

Lemma set_count_ok count cs :
  count < MaxChannels ->
  exists cs', set_count count cs = Ok cs' /\ channel_set_ok cs'
    /\ chans cs' = count_set count.
Proof.
  intros Hc. unfold set_count, panic_if.
  destruct (MaxChannels <=? count) eqn:E; [apply Nat.leb_le in E; lia|]. clear E.
  assert (forall mask s, is_u 32 mask -> mask_set mask = s ->
    exists cs', Ok (set_mask mask cs) = Ok cs' /\ channel_set_ok cs' /\ chans cs' = s) as Hm.
  { intros mask s Hm <-. destruct (set_mask_ok mask cs Hm) as [H <-]. eauto. }
  do 8 (destruct count as [|count]; [apply Hm; [closed|apply (bool_decide_unpack _); vm_compute; exact I]|]).
  destruct (set_range_ok 0 (S (S (S (S (S (S (S (S count))))))) - 1) cs ltac:(lia)) as (cs' & E & H & Hs).
  exists cs'. split; [done|]. split; [done|]. rewrite Hs. unfold count_set. apply set_eq. intros n.
  rewrite elem_of_range_set, elem_of_set_seq. lia.
Qed.

Lemma run_op_ok op cs :
  channel_set_ok cs -> op_ok op ->
  match run_op op cs, spec_op op (chans cs) with
  | Ok cs', Some s => channel_set_ok cs' /\ chans cs' = s
  | Panic, None => True
  | _, _ => False
  end.
Proof.
  intros Hcs Ho. pose proof Hcs as [Hw _]. destruct op; cbn [run_op op_ok spec_op] in *.
  - unfold set_layout, panic_if. case_bool_decide; case_decide; try contradiction; [exact I|].
    split; [exact Hcs|reflexivity].
  - split; [exact Hcs|reflexivity].
  - apply (set_mask_ok 0 (mk (words_ cs) 0 0 0 ChanLayout_None ChanOrder_None)). closed.
  - by apply set_mask_ok.
  - case_decide as Hr.
    + by destruct (set_range_ok from to cs Hr) as (cs' & -> & ?).
    + unfold set_range. by rewrite range_guard, decide_False by done.
  - destruct (decide (count < MaxChannels)) as [Hc|Hc].
    + destruct (set_count_ok count cs Hc) as (cs' & -> & H). exact H.
    + unfold set_count, panic_if.
      by rewrite (proj2 (Nat.leb_le _ _)) by lia.
  - unfold toggle_channel, panic_if. case_decide as Hr.
    + rewrite (proj2 (Nat.leb_gt _ _)) by lia. rewrite <- range_set_single.
      pose proof (toggle_range_ok n n enabled cs Hcs Hr) as H.
      unfold toggle_words in H. rewrite Nat.sub_succ_l, Nat.sub_diag in H by done. exact H.
    + by rewrite (proj2 (Nat.leb_le _ _)) by lia.
  - unfold toggle_channel_range. rewrite range_guard. case_decide; [by apply toggle_range_ok|done].
  - destruct Ho as [Hw' _].
    destruct (zip_words_ok Z.land andb _ _ Z.land_spec eq_refl ltac:(intros; apply Z.land_nonneg; lia) Hw Hw') as [H1 H2].
    apply index_chans_set; [done|]. intros n. rewrite H2, elem_of_intersection, !elem_of_chans, andb_true_iff. tauto.
  - destruct Ho as [Hw' _].
    destruct (zip_words_ok Z.lor orb _ _ Z.lor_spec eq_refl ltac:(intros; apply Z.lor_nonneg; lia) Hw Hw') as [H1 H2].
    apply index_chans_set; [done|]. intros n. rewrite H2, elem_of_union, !elem_of_chans, orb_true_iff. tauto.
  - destruct Ho as [Hw' _].
    destruct (zip_words_ok Z.lxor xorb _ _ Z.lxor_spec eq_refl ltac:(intros; apply Z.lxor_nonneg; lia) Hw Hw') as [H1 H2].
    apply index_chans_set; [done|]. intros n.
    rewrite H2, elem_of_union, !elem_of_difference, !elem_of_chans.
    destruct (channel_bit (words_ cs) n), (channel_bit (words_ other) n); cbn; intuition congruence.
Qed.

(** * Observers *)

Lemma channels_sorted ws : StronglySorted lt (channels ws).
Proof.
  unfold channels. generalize 0 as k. generalize MaxChannels as m. intros m. induction m as [|m IH]; intros k; cbn [seq filter list_filter]; [constructor|].
  case_decide; [constructor|]; [apply IH| |apply IH].
  apply Forall_forall. intros n Hn. apply list_elem_of_filter in Hn as [_ Hn]. apply elem_of_seq in Hn. lia.
Qed.

Lemma sorted_bounds (l : list nat) :
  StronglySorted lt l -> forall n, n ∈ l -> default 0 (head l) <= n <= default 0 (last l).
Proof.
  induction 1 as [|x l Hl IH Hx]; intros n Hn; [by apply elem_of_nil in Hn|].
  rewrite Forall_forall in Hx. change (default 0 (head (x :: l))) with x. apply elem_of_cons in Hn as [->|Hn].
  - split; [done|]. destruct l as [|y l]; [done|]. rewrite last_cons_cons.
    assert (y ∈ y :: l) as Hy by left. specialize (Hx y Hy). specialize (IH y Hy). lia.
  - specialize (IH n Hn). specialize (Hx n Hn). destruct l as [|y l]; [by apply elem_of_nil in Hn|].
    rewrite last_cons_cons. lia.
Qed.

Lemma last_bound cs :
  channel_set_ok cs -> forall n, n ∈ chans cs -> first_chan_ cs <= n <= last_chan_ cs.
Proof.
  intros (_ & _ & -> & ->) n Hn. apply sorted_bounds; [apply channels_sorted|].
  unfold chans in Hn. by rewrite elem_of_list_to_set in Hn.
Qed.

Lemma ends_in cs :
  channel_set_ok cs -> num_chans_ cs <> 0 -> first_chan_ cs ∈ chans cs /\ last_chan_ cs ∈ chans cs.
Proof.
  intros (_ & Hn & -> & ->) Hne. unfold chans. rewrite !elem_of_list_to_set.
  destruct (channels (words_ cs)) as [|x l] eqn:E; [by rewrite Hn in Hne|].
  split; [left|]. destruct (last (x :: l)) as [y|] eqn:El; [by apply last_Some_elem_of in El|].
  by apply last_None in El.
Qed.

Lemma chans_empty cs : channel_set_ok cs -> num_chans_ cs = 0 <-> chans cs = ∅.
Proof.
  intros (_ & -> & _). unfold chans. rewrite length_zero_iff_nil. split; [by intros ->|].
  intros H. destruct (channels (words_ cs)) as [|x l]; [done|]. set_solver.
Qed.

(** ** Comparison with masks *)

Lemma word0_bit cs n :
  channel_set_ok cs -> (0 <= n)%Z ->
  Z.testbit (word_at cs 0) n = true <-> (n < 64)%Z /\ Z.to_nat n ∈ chans cs.
Proof.
  intros [[Hl Hu] _] Hn. unfold word_at. rewrite elem_of_chans. unfold channel_bit, WordBits, MaxChannels.
  destruct (words_ cs !! 0) as [w|] eqn:E; [|apply lookup_ge_None in E; rewrite Hl in E; cbv in E; lia].
  cbn [default from_option id]. eapply Forall_lookup_1, is_u64_bits in Hu as [_ Hu]; [|exact E].
  destruct (Z_lt_le_dec n 64) as [Hlt|Hge]; [|rewrite Hu by lia; split; [done|lia]].
  rewrite Nat.div_small, E, Nat.mod_small, Z2Nat.id by lia. cbn. split; [split; [lia|split; [lia|done]]|tauto].
Qed.

Lemma mask_bit mask n :
  is_u 32 mask -> (0 <= n)%Z -> Z.testbit mask n = true <-> (n < 64)%Z /\ Z.to_nat n ∈ mask_set mask.
Proof.
  intros Hm Hn. rewrite elem_of_mask_set, Z2Nat.id by done. split; [|tauto]. intros Hb. split; [|done].
  rewrite <- (Z2Nat.id n Hn) in Hb. apply mask_below in Hb; [|done]. lia.
Qed.

Lemma testbit_subset a b (A B : gset nat) :
  (0 <= a)%Z -> (0 <= b)%Z ->
  (forall n, (0 <= n)%Z -> Z.testbit a n = true <-> (n < 64)%Z /\ Z.to_nat n ∈ A) ->
  (forall n, (0 <= n)%Z -> Z.testbit b n = true <-> (n < 64)%Z /\ Z.to_nat n ∈ B) ->
  Z.land a b = a <-> (forall n, n < 64 -> n ∈ A -> n ∈ B).
Proof.
  intros Ha0 Hb0 Ha Hb. split.
  - intros E n Hn HA.
    assert (Z.testbit a (Z.of_nat n) = true) as Hbit by (apply Ha; [lia|]; rewrite Nat2Z.id; split; [lia|done]).
    rewrite <- E, Z.land_spec in Hbit. apply andb_true_iff in Hbit as [_ Hbit].
    apply Hb in Hbit as [_ Hbit]; [|lia]. by rewrite Nat2Z.id in Hbit.
  - intros H. apply Z.bits_inj'. intros n Hn. rewrite Z.land_spec.
    destruct (Z.testbit a n) eqn:E; [|done]. apply Ha in E as [Hlt HA]; [|done].
    cbn. apply Hb; [done|]. split; [done|]. apply H; [lia|done].
Qed.

Lemma word0_nonneg cs : channel_set_ok cs -> (0 <= word_at cs 0)%Z.
Proof.
  intros [[_ Hu] _]. unfold word_at. destruct (words_ cs !! 0) as [w|] eqn:E; [|done].
  by eapply Forall_lookup_1 in Hu as [? _]; [|exact E].
Qed.

Lemma mask_set_below mask n : is_u 32 mask -> n ∈ mask_set mask -> n < 64.
Proof. intros Hm Hn. apply elem_of_mask_set, mask_below in Hn; [lia|done..]. Qed.

Lemma chans_below cs n : channel_set_ok cs -> last_chan_ cs < WordBits -> n ∈ chans cs -> n < 64.
Proof. intros Hcs Hl Hn. apply last_bound in Hn; [|done]. unfold WordBits in Hl. lia. Qed.

Lemma last_above cs :
  channel_set_ok cs -> WordBits <= last_chan_ cs -> last_chan_ cs ∈ chans cs.
Proof.
  intros Hcs Hl. apply ends_in; [done|]. intros E. apply chans_empty in E; [|done].
  destruct Hcs as (_ & _ & _ & El). unfold chans in E. unfold WordBits in Hl.
  destruct (channels (words_ cs)) as [|x l]; [cbn in El; lia|set_solver].
Qed.

Lemma is_subset_ok mask cs :
  channel_set_ok cs -> is_u 32 mask -> is_subset mask cs = bool_decide (chans cs ⊆ mask_set mask).
Proof.
  intros Hcs Hm. unfold is_subset. destruct (Nat.leb_spec WordBits (last_chan_ cs)) as [Hl|Hl].
  - symmetry. apply bool_decide_false. intros H. apply last_above in Hl as Hin; [|done].
    apply H, mask_set_below in Hin; [|done]. unfold WordBits in Hl. lia.
  - apply eq_bool_prop_intro. rewrite Is_true_true, Z.eqb_eq, bool_decide_spec.
    rewrite (testbit_subset _ _ (chans cs) (mask_set mask));
      [|by apply word0_nonneg|apply Hm|intros; by apply word0_bit|intros; by apply mask_bit].
    split; [|set_solver]. intros H n Hn. apply H; [|done]. by eapply chans_below.
Qed.

Lemma is_superset_ok mask cs :
  channel_set_ok cs -> is_u 32 mask ->
  is_superset mask cs = bool_decide (mask_set mask ⊆ chans cs \/ WordBits <= last_chan_ cs).
Proof.
  intros Hcs Hm. unfold is_superset. destruct (Nat.leb_spec WordBits (last_chan_ cs)) as [Hl|Hl].
  - symmetry. apply bool_decide_true. by right.
  - apply eq_bool_prop_intro. rewrite Is_true_true, Z.eqb_eq, bool_decide_spec, Z.land_comm.
    rewrite (testbit_subset _ _ (mask_set mask) (chans cs));
      [|apply Hm|by apply word0_nonneg|intros; by apply mask_bit|intros; by apply word0_bit].
    split; [|intros [?|?]; [set_solver|lia]]. intros H. left. intros n Hn. apply H; [|done].
    by eapply mask_set_below.
Qed.

Lemma is_equal_ok mask cs :
  channel_set_ok cs -> is_u 32 mask -> is_equal mask cs = bool_decide (chans cs = mask_set mask).
Proof.
  intros Hcs Hm. unfold is_equal. destruct (Nat.leb_spec WordBits (last_chan_ cs)) as [Hl|Hl].
  - symmetry. apply bool_decide_false. intros H. apply last_above in Hl as Hin; [|done].
    rewrite H in Hin. apply mask_set_below in Hin; [|done]. unfold WordBits in Hl. lia.
  - apply eq_bool_prop_intro. rewrite Is_true_true, Z.eqb_eq, bool_decide_spec. split.
    + intros E. apply set_eq. intros n. destruct (decide (n < 64)) as [Hn|Hn].
      * pose proof (word0_bit cs (Z.of_nat n) Hcs ltac:(lia)) as H1.
        pose proof (mask_bit mask (Z.of_nat n) Hm ltac:(lia)) as H2.
        rewrite Nat2Z.id in H1, H2. rewrite E in H1. split; intros Hin; [apply H2, H1|apply H1, H2]; split; lia || done.
      * split; intros Hin; exfalso; apply Hn; [by eapply chans_below|by eapply mask_set_below].
    + intros E. apply Z.bits_inj'. intros n Hn. apply eq_bool_prop_intro.
      by rewrite !Is_true_true, word0_bit, mask_bit, E.
Qed.

(** ** Everything that can be observed *)

Definition observes (cs : t) (s : gset nat) : Prop :=
  num_channels cs = size s
  /\ (forall n, has_channel n cs = if decide (n < MaxChannels) then Ok (bool_decide (n ∈ s)) else Panic)
  /\ (s = ∅ -> first_channel cs = Panic /\ last_channel cs = Panic)
  /\ (s <> ∅ -> exists a b, first_channel cs = Ok a /\ last_channel cs = Ok b
        /\ a ∈ s /\ b ∈ s /\ forall n, n ∈ s -> a <= n <= b)
  /\ (forall mask, is_u 32 mask ->
        is_equal mask cs = bool_decide (s = mask_set mask)
        /\ is_subset mask cs = bool_decide (s ⊆ mask_set mask)
        /\ is_superset mask cs = bool_decide (mask_set mask ⊆ s \/ set_Exists (fun n => 64 <= n) s))
  /\ (forall n, n < num_bytes -> exists b, byte_at n cs = Ok b
        /\ forall i, i < 8 -> Z.testbit b (Z.of_nat i) = bool_decide (8 * n + i ∈ s)).

Lemma has_channel_ok cs n :
  has_channel n cs = if decide (n < MaxChannels) then Ok (bool_decide (n ∈ chans cs)) else Panic.
Proof.
  unfold has_channel, panic_if, word_at. destruct (Nat.leb_spec MaxChannels n); case_decide; try lia; [done|].
  f_equal. apply eq_bool_prop_intro. rewrite Is_true_true, bool_decide_spec, elem_of_chans. tauto.
Qed.

Lemma byte_at_ok cs n :
  n < num_bytes -> exists b, byte_at n cs = Ok b
    /\ forall i, i < 8 -> Z.testbit b (Z.of_nat i) = bool_decide (8 * n + i ∈ chans cs).
Proof.
  intros Hn. unfold byte_at, panic_if. destruct (Nat.leb_spec num_bytes n) as [|_]; [lia|].
  eexists. split; [done|]. intros i Hi. unfold num_bytes, NumWords in Hn.
  rewrite Z.land_spec, Z.shiftr_spec by lia. change 0xff%Z with (Z.ones 8).
  rewrite Z.ones_spec_low, andb_true_r by lia. unfold word_at.
  apply eq_bool_prop_intro. rewrite Is_true_true, bool_decide_spec, elem_of_chans.
  unfold channel_bit, WordBits, MaxChannels.
  pose proof (Nat.div_mod_eq n 8). pose proof (Nat.mod_upper_bound n 8 ltac:(done)).
  replace ((8 * n + i) / 64) with (n / 8) by (apply (Nat.div_unique _ _ _ (8 * (n mod 8) + i)); lia).
  replace ((8 * n + i) mod 64) with (8 * (n mod 8) + i) by (apply (Nat.mod_unique _ _ (n / 8)); lia).
  replace (Z.of_nat i + Z.of_nat (n mod 8 * 8))%Z with (Z.of_nat (8 * (n mod 8) + i)) by lia.
  split; [split; [lia|done]|tauto].
Qed.

Lemma channel_set_observes cs : channel_set_ok cs -> observes cs (chans cs).
Proof.
  intros Hcs. unfold observes. split_and!.
  - unfold num_channels. destruct Hcs as (_ & -> & _). unfold chans. rewrite size_list_to_set; [done|apply NoDup_channels].
  - intros n. apply has_channel_ok.
  - intros E. apply chans_empty in E; [|done]. unfold first_channel, last_channel. by rewrite E.
  - intros E. assert (num_chans_ cs <> 0) as Hne by (by rewrite chans_empty).
    destruct (ends_in cs Hcs Hne). exists (first_chan_ cs), (last_chan_ cs).
    unfold first_channel, last_channel. rewrite (proj2 (Nat.eqb_neq _ _) Hne).
    split_and!; try done. by apply last_bound.
  - intros mask Hm. split_and!; [by apply is_equal_ok|by apply is_subset_ok|].
    rewrite is_superset_ok by done. apply bool_decide_ext.
    assert (WordBits <= last_chan_ cs <-> set_Exists (fun n => 64 <= n) (chans cs)) as ->; [|done].
    split; [intros Hl; exists (last_chan_ cs); split; [by apply last_above|done]|].
    intros (n & Hn & Hge). apply last_bound in Hn; [|done]. unfold WordBits. lia.
  - intros n. apply byte_at_ok.
Qed.

(** * Theorem *)

Fixpoint run_ops (ops : list Op) (cs : t) : res t :=
  match ops with [] => Ok cs | op :: ops => let* cs := run_op op cs in run_ops ops cs end.

Fixpoint spec_ops (ops : list Op) (s : gset nat) : option (gset nat) :=
  match ops with [] => Some s | op :: ops => s ← spec_op op s; spec_ops ops s end.

Lemma run_ops_ok ops cs :
  channel_set_ok cs -> Forall op_ok ops ->
  match run_ops ops cs, spec_ops ops (chans cs) with
  | Ok cs', Some s => channel_set_ok cs' /\ chans cs' = s
  | Panic, None => True
  | _, _ => False
  end.
Proof.
  revert cs. induction ops as [|op ops IH]; intros cs Hcs Ho; [split; [exact Hcs|reflexivity]|].
  apply Forall_cons in Ho as [Ho Hos]. cbn [run_ops spec_ops].
  pose proof (run_op_ok op cs Hcs Ho) as H.
  destruct (run_op op cs) as [cs'|], (spec_op op (chans cs)) as [s|]; try done.
  destruct H as [Hcs' <-]. cbn [res_bind]. by apply IH.
Qed.

Lemma empty_ok : channel_set_ok empty /\ chans empty = ∅.
Proof. apply (set_mask_ok 0 (mk [] 0 0 0 ChanLayout_None ChanOrder_None)). closed. Qed.

(** C25: a channel set is a set of numbers below 1024.  Any sequence of operations on an
    empty set panics exactly where an argument is out of range, and otherwise leaves the
    words and the cached number of channels, first and last channel consistent: all
    observers and serialized bytes are those of the set that the same operations make on
    sets of numbers.  The comparisons with a mask of 32 channels are equality, inclusion
    and, as long as the set has no channel from 64 on, reverse inclusion; [is_superset] is
    always true of a set with a channel from 64 on. *)
Theorem channel_set_refines (ops : list Op) :
  Forall op_ok ops ->
  match run_ops ops empty, spec_ops ops ∅ with
  | Ok cs, Some s => channel_set_ok cs /\ observes cs s
  | Panic, None => True
  | _, _ => False
  end.
Proof.
  intros Ho. destruct empty_ok as [He E]. pose proof (run_ops_ok ops empty He Ho) as H. rewrite E in H. clear E He.
  destruct (run_ops ops empty) as [cs|], (spec_ops ops ∅) as [s|]; try done.
  destruct H as [Hcs <-]. split; [done|]. by apply channel_set_observes.
Qed.

Definition sample_ops : list Op :=
  [OpSetLayout ChanLayout_Multitrack; OpSetRange 3 70; OpToggleRange 4 69 false].

Definition sample_set : t :=
  mk ([8%Z; 64%Z] ++ replicate 14 0%Z) 2 3 70 ChanLayout_Multitrack ChanOrder_None.

Lemma channel_set_refines_witness :
  run_ops sample_ops empty = Ok sample_set /\ exists s, observes sample_set s.
Proof.
  assert (run_ops sample_ops empty = Ok sample_set) as E by (vm_compute; reflexivity).
  split; [exact E|]. pose proof (channel_set_refines sample_ops) as H. rewrite E in H.
  destruct (spec_ops sample_ops ∅) as [s|].
  - exists s. destruct H as [_ H]; [repeat constructor|exact H].
  - destruct H. repeat constructor.
Defined.
