(* ===== verification/PcmFormat.v ===== *)
(** PCM formats (src/internal_modules/roc_audio/pcm_format.cpp, pcm_format.h): how samples
    are packed into bytes and converted between formats.

    pcm_format.cpp has one struct for every code and one for every pair of codes, written by
    pcm_format_gen.py from one template each; here a code has its attributes, and each
    template is one function of them.

    A sample is an integer of the type of its code; a sample of a floating-point code is
    the integer with its bits.  Floating-point operations are those of the Standard
    Library's specification of IEEE 754.  A buffer is a list of bytes; an access outside of
    it and the conversion of a NaN to an integer are [Panic]. *)

From Stdlib Require Import SpecFloat.
From S2P Require Import Prelude Bytes.

Module Pcm.

(** * Codes *)

Inductive PcmCode : Type :=
| SInt8 | UInt8 | SInt16 | UInt16
| SInt18 | UInt18 | SInt18_3 | UInt18_3 | SInt18_4 | UInt18_4
| SInt20 | UInt20 | SInt20_3 | UInt20_3 | SInt20_4 | UInt20_4
| SInt24 | UInt24 | SInt24_4 | UInt24_4
| SInt32 | UInt32 | SInt64 | UInt64
| Float32 | Float64.

#[global] Instance PcmCode_eq_dec : EqDecision PcmCode.
Proof. solve_decision. Defined.

Inductive PcmEndian : Type := Native | Big | Little.

#[global] Instance PcmEndian_eq_dec : EqDecision PcmEndian.
Proof. solve_decision. Defined.

Inductive PcmFormat : Type :=
| PcmFormat_Invalid
| Format (code : PcmCode) (endian : PcmEndian).

#[global] Instance PcmFormat_eq_dec : EqDecision PcmFormat.
Proof. solve_decision. Defined.

Definition is_integer (c : PcmCode) : bool :=
  match c with Float32 | Float64 => false | _ => true end.

Definition is_signed (c : PcmCode) : bool :=
  match c with
  | UInt8 | UInt16 | UInt18 | UInt18_3 | UInt18_4 | UInt20 | UInt20_3 | UInt20_4
  | UInt24 | UInt24_4 | UInt32 | UInt64 => false
  | _ => true
  end.

(** Significant bits. *)
Definition width (c : PcmCode) : Z :=
  match c with
  | SInt8 | UInt8 => 8
  | SInt16 | UInt16 => 16
  | SInt18 | UInt18 | SInt18_3 | UInt18_3 | SInt18_4 | UInt18_4 => 18
  | SInt20 | UInt20 | SInt20_3 | UInt20_3 | SInt20_4 | UInt20_4 => 20
  | SInt24 | UInt24 | SInt24_4 | UInt24_4 => 24
  | SInt32 | UInt32 | Float32 => 32
  | SInt64 | UInt64 | Float64 => 64
  end.

(** Bits in the buffer. *)
Definition packed_width (c : PcmCode) : Z :=
  match c with
  | SInt18_3 | UInt18_3 | SInt20_3 | UInt20_3 => 24
  | SInt18_4 | UInt18_4 | SInt20_4 | UInt20_4 | SInt24_4 | UInt24_4 => 32
  | _ => width c
  end.

(** Bits of the type. *)
Definition unpacked_width (c : PcmCode) : Z :=
  match c with
  | SInt8 | UInt8 => 8
  | SInt16 | UInt16 => 16
  | SInt64 | UInt64 | Float64 => 64
  | _ => 32
  end.

Definition bit_depth (c : PcmCode) : Z :=
  match c with Float32 => 25 | Float64 => 53 | _ => width c end.

(** ** Traits *)

Record PcmTraits : Type := mkTraits {
  t_is_valid : bool;
  t_is_integer : bool;
  t_is_signed : bool;
  t_is_little : bool;
  t_canon_id : PcmFormat;
  t_bit_depth : Z;
  t_bit_width : Z
}.

(** Native samples have the byte order of the CPU. *)
Definition resolve_endian (host : cpu_endian) (e : PcmEndian) : PcmEndian :=
  match e, host with
  | Native, CPU_BE => Big
  | Native, CPU_LE => Little
  | e, _ => e
  end.

Definition pcm_format_traits (host : cpu_endian) (f : PcmFormat) : PcmTraits :=
  match f with
  | PcmFormat_Invalid => mkTraits false false false false PcmFormat_Invalid 0 0
  | Format c e =>
      let e := resolve_endian host e in
      mkTraits true (is_integer c) (is_signed c) (bool_decide (e = Little)) (Format c e)
        (bit_depth c) (packed_width c)
  end.

(** * Values *)

(** The conversion to the type of the code. *)
Definition as_type (c : PcmCode) (v : Z) : Z :=
  if is_integer c && is_signed c then wrap_s (unpacked_width c) v else wrap_u (unpacked_width c) v.

(** The limits of the signed code of the same width. *)
Definition signed_min (c : PcmCode) : Z := - 2 ^ (width c - 1).

Definition signed_max (c : PcmCode) : Z := 2 ^ (width c - 1) - 1.

(** [pcm_sign_converter] *)
Definition to_signed (c : PcmCode) (arg : Z) : Z :=
  let smax := signed_max c in
  if smax + 1 <=? arg then wrap_s (unpacked_width c) (arg - smax - 1)
  else wrap_s (unpacked_width c) (arg - smax - 1).

Definition from_signed (c : PcmCode) (arg : Z) : Z :=
  let smax := signed_max c in
  if 0 <=? arg then wrap_u (unpacked_width c) (wrap_u (unpacked_width c) arg + smax + 1)
  else wrap_u (unpacked_width c) (arg + smax + 1).

(** ** Floating-point numbers *)

(** Bits of the mantissa field and of the exponent field. *)
Definition mantissa_bits (c : PcmCode) : Z := match c with Float32 => 23 | _ => 52 end.

Definition exponent_bits (c : PcmCode) : Z := match c with Float32 => 8 | _ => 11 end.

Definition f_prec (c : PcmCode) : Z := mantissa_bits c + 1.

Definition f_emax (c : PcmCode) : Z := 2 ^ (exponent_bits c - 1).

Definition f_of_bits (c : PcmCode) (bits : Z) : spec_float :=
  let s := Z.testbit bits (mantissa_bits c + exponent_bits c) in
  let ex := Z.land (Z.shiftr bits (mantissa_bits c)) (Z.ones (exponent_bits c)) in
  let ma := Z.land bits (Z.ones (mantissa_bits c)) in
  if ex =? 0 then
    match ma with
    | Zpos m => S754_finite s m (emin (f_prec c) (f_emax c))
    | _ => S754_zero s
    end
  else if ex =? Z.ones (exponent_bits c) then
    if ma =? 0 then S754_infinity s else S754_nan
  else
    match ma + 2 ^ mantissa_bits c with
    | Zpos m => S754_finite s m (ex + emin (f_prec c) (f_emax c) - 1)
    | _ => S754_nan
    end.

Definition f_to_bits (c : PcmCode) (f : spec_float) : Z :=
  let sign (s : bool) := if s then 2 ^ (mantissa_bits c + exponent_bits c) else 0 in
  match f with
  | S754_zero s => sign s
  | S754_infinity s => sign s + Z.ones (exponent_bits c) * 2 ^ mantissa_bits c
  | S754_nan => Z.ones (exponent_bits c) * 2 ^ mantissa_bits c + 2 ^ (mantissa_bits c - 1)
  | S754_finite s m e =>
      if Zpos m <? 2 ^ mantissa_bits c then sign s + Zpos m
      else sign s + (e - emin (f_prec c) (f_emax c) + 1) * 2 ^ mantissa_bits c
           + (Zpos m - 2 ^ mantissa_bits c)
  end.

(** An integer as a [float] or [double]. *)
Definition f_of_Z (c : PcmCode) (z : Z) : spec_float :=
  binary_normalize (f_prec c) (f_emax c) z 0 false.

(** Conversion of a [float] or [double] to either. *)
Definition f_convert (c : PcmCode) (f : spec_float) : spec_float :=
  match f with
  | S754_finite s m e => binary_normalize (f_prec c) (f_emax c) (cond_Zopp s (Zpos m)) e s
  | f => f
  end.

Definition d_mul (x y : spec_float) : spec_float := SFmul (f_prec Float64) (f_emax Float64) x y.

Definition d_add (x y : spec_float) : spec_float := SFadd (f_prec Float64) (f_emax Float64) x y.

Definition d_div (x y : spec_float) : spec_float := SFdiv (f_prec Float64) (f_emax Float64) x y.

Definition d_of_Z : Z -> spec_float := f_of_Z Float64.

(** [(double)max + 1.0] *)
Definition d_limit (c : PcmCode) : spec_float := d_add (d_of_Z (signed_max c)) (d_of_Z 1).

(** The integer part. *)
Definition f_trunc (f : spec_float) : res Z :=
  match f with
  | S754_zero _ => Ok 0
  | S754_finite s m e => Ok (cond_Zopp s (if 0 <=? e then Zpos m * 2 ^ e else Zpos m / 2 ^ (- e)))
  | _ => Panic
  end.

(** * Conversion between codes *)

(** [pcm_code_converter]. *)

Definition float_2_int (o : PcmCode) (x : spec_float) : res Z :=
  let d := d_mul (f_convert Float64 x) (d_limit o) in
  if SFltb d (d_of_Z (signed_min o)) then Ok (signed_min o)
  else if SFleb (d_limit o) d then Ok (signed_max o)
  else let* v := f_trunc d in Ok (wrap_s (unpacked_width o) v).

Definition int_2_float (i o : PcmCode) (v : Z) : spec_float :=
  f_convert o (d_mul (d_of_Z v) (d_div (d_of_Z 1) (d_limit i))).

(** Between signed integers of different widths. *)
Definition downscale (i o : PcmCode) (v : Z) : Z :=
  let d := width i - width o in
  if wrap_s (unpacked_width i) (signed_max i - Z.shiftl 1 (d - 1)) <? v then signed_max o
  else wrap_s (unpacked_width o)
         (Z.shiftr (wrap_u (unpacked_width i) (v + Z.shiftl 1 (d - 1))) d).

Definition upscale (i o : PcmCode) (v : Z) : Z :=
  wrap_s (unpacked_width o) (Z.shiftl (wrap_u (unpacked_width o) v) (width o - width i)).

Definition convert (i o : PcmCode) (arg : Z) : res Z :=
  if bool_decide (i = o) then Ok arg
  else if negb (is_signed i) && negb (is_signed o) then
    Ok (if width o =? width i then arg
        else if width o <? width i then wrap_u (unpacked_width o) (Z.shiftr arg (width i - width o))
        else wrap_u (unpacked_width o)
               (Z.shiftl (wrap_u (unpacked_width o) arg) (width o - width i)))
  else
    let v := if is_signed i then arg else to_signed i arg in
    let* out :=
      match is_integer i, is_integer o with
      | false, false => Ok (f_to_bits o (f_convert o (f_of_bits i v)))
      | true, false => Ok (f_to_bits o (int_2_float i o v))
      | false, true => float_2_int o (f_of_bits i v)
      | true, true =>
          Ok (if width o =? width i then v
              else if width o <? width i then downscale i o v
              else upscale i o v)
      end in
    Ok (if is_signed o then out else from_signed o out).

(** * Packing *)

(** [p.octets.octet<n>] of a value, and the value with given octets, lowest first. *)
Definition octet (n : nat) (v : Z) : Z := Z.land (Z.shiftr v (8 * Z.of_nat n)) 0xff.

Definition of_octets (c : PcmCode) (os : list Z) : Z := as_type c (le_value os).

Definition get_byte (buffer : bytes) (i : nat) : res Z := array_get buffer i.

Definition set_byte (buffer : bytes) (i : nat) (b : Z) : res bytes := array_set buffer i b.

(** Buffers are written and read at bit offsets, which are returned. *)
Definition pcm_aligned_write (buffer : bytes) (bit_offset : nat) (arg : Z) : res (bytes * nat) :=
  let* buffer := set_byte buffer (bit_offset / 8) arg in
  Ok (buffer, bit_offset + 8)%nat.

Definition pcm_aligned_read (buffer : bytes) (bit_offset : nat) : res (Z * nat) :=
  let* ret := get_byte buffer (bit_offset / 8) in
  Ok (ret, bit_offset + 8)%nat.

Definition pcm_unaligned_write (buffer : bytes) (bit_offset bit_length : nat) (arg : Z)
    : res (bytes * nat) :=
  let byte_index := (bit_offset / 8)%nat in
  let bit_index := (bit_offset mod 8)%nat in
  let* buffer := if (bit_index =? 0)%nat then set_byte buffer byte_index 0 else Ok buffer in
  let* b := get_byte buffer byte_index in
  let* buffer := set_byte buffer byte_index
    (Z.lor b (u8 (Z.shiftr (Z.shiftl arg (8 - Z.of_nat bit_length)) (Z.of_nat bit_index)))) in
  let* buffer :=
    if (8 <? bit_index + bit_length)%nat
    then set_byte buffer (byte_index + 1) (u8 (Z.shiftl arg (Z.of_nat bit_index)))
    else Ok buffer in
  Ok (buffer, bit_offset + bit_length)%nat.

Definition pcm_unaligned_read (buffer : bytes) (bit_offset bit_length : nat) : res (Z * nat) :=
  let byte_index := (bit_offset / 8)%nat in
  let bit_index := (bit_offset mod 8)%nat in
  let* b := get_byte buffer byte_index in
  let ret := u8 (Z.shiftr (Z.shiftl b (Z.of_nat bit_index)) (8 - Z.of_nat bit_length)) in
  let* ret :=
    if (8 <? bit_index + bit_length)%nat then
      let* b := get_byte buffer (byte_index + 1) in
      Ok (Z.lor ret (u8 (Z.shiftr (Z.shiftr b (8 - Z.of_nat bit_index)) (8 - Z.of_nat bit_length))))
    else Ok ret in
  Ok (ret, bit_offset + bit_length)%nat.

Definition is_aligned (c : PcmCode) : bool := packed_width c mod 8 =? 0.

Definition packed_octets (c : PcmCode) : nat := Z.to_nat ((packed_width c + 7) / 8).

Definition unpacked_octets (c : PcmCode) : nat := Z.to_nat (unpacked_width c / 8).

(** The octets in the order in which they are in the buffer. *)
Definition octet_order (e : PcmEndian) (n : nat) : list nat :=
  match e with Big => reverse (seq 0 n) | _ => seq 0 n end.

(** The bits of an octet. *)
Definition octet_bits (c : PcmCode) (n : nat) : nat :=
  if (n =? packed_octets c - 1)%nat then Z.to_nat (packed_width c - 8 * Z.of_nat n) else 8%nat.

Definition write_octet (c : PcmCode) (buffer : bytes) (bit_offset n : nat) (arg : Z) : res (bytes * nat) :=
  if is_aligned c then pcm_aligned_write buffer bit_offset arg
  else pcm_unaligned_write buffer bit_offset (octet_bits c n) arg.

Definition read_octet (c : PcmCode) (buffer : bytes) (bit_offset n : nat) : res (Z * nat) :=
  if (packed_octets c <=? n)%nat then Ok (0, bit_offset)
  else if is_aligned c then pcm_aligned_read buffer bit_offset
  else pcm_unaligned_read buffer bit_offset (octet_bits c n).

Definition value_mask (c : PcmCode) : Z := Z.ones (width c).

Definition zeroise_padding (c : PcmCode) (v : Z) : Z :=
  if width c <? packed_width c then as_type c (Z.land v (value_mask c)) else v.

Definition sign_extend (c : PcmCode) (v : Z) : Z :=
  if is_signed c && (width c <? unpacked_width c) then
    if negb (Z.land v (2 ^ (width c - 1)) =? 0)
    then as_type c (Z.lor v (Z.ones (unpacked_width c) - Z.ones (width c))) else v
  else v.

Fixpoint write_octets (c : PcmCode) (v : Z) (order : list nat) (buffer : bytes) (bit_offset : nat)
    : res (bytes * nat) :=
  match order with
  | [] => Ok (buffer, bit_offset)
  | n :: order =>
      let* '(buffer, bit_offset) := write_octet c buffer bit_offset n (octet n v) in
      write_octets c v order buffer bit_offset
  end.

(** [pcm_packer<code, endian>::pack] *)
Definition pack (c : PcmCode) (e : PcmEndian) (buffer : bytes) (bit_offset : nat) (arg : Z)
    : res (bytes * nat) :=
  write_octets c (zeroise_padding c arg) (octet_order e (packed_octets c)) buffer bit_offset.

(** The octets that are read, in their order, assigned to their places. *)
Fixpoint read_octets (c : PcmCode) (order : list nat) (buffer : bytes) (bit_offset : nat)
    (os : list Z) : res (list Z * nat) :=
  match order with
  | [] => Ok (os, bit_offset)
  | n :: order =>
      let* '(o, bit_offset) := read_octet c buffer bit_offset n in
      read_octets c order buffer bit_offset (<[n := o]> os)
  end.

(** [pcm_packer<code, endian>::unpack] *)
Definition unpack (c : PcmCode) (e : PcmEndian) (buffer : bytes) (bit_offset : nat) : res (Z * nat) :=
  let n := unpacked_octets c in
  let* '(os, bit_offset) := read_octets c (octet_order e n) buffer bit_offset (replicate n 0) in
  Ok (sign_extend c (zeroise_padding c (of_octets c os)), bit_offset).

(** * Mapping *)

(** [pcm_mapper<...>::map] *)
Fixpoint pcm_map (ic : PcmCode) (ie : PcmEndian) (oc : PcmCode) (oe : PcmEndian)
    (in_data : bytes) (in_bit_off : nat) (out_data : bytes) (out_bit_off n_samples : nat)
    : res (nat * bytes * nat) :=
  match n_samples with
  | O => Ok (in_bit_off, out_data, out_bit_off)
  | S n =>
      let* '(v, in_bit_off) := unpack ic ie in_data in_bit_off in
      let* v := convert ic oc v in
      let* '(out_data, out_bit_off) := pack oc oe out_data out_bit_off v in
      pcm_map ic ie oc oe in_data in_bit_off out_data out_bit_off n
  end.

(** [pcm_format_mapfn] *)
Definition pcm_format_mapfn (host : cpu_endian) (i o : PcmFormat)
    : option (bytes -> nat -> bytes -> nat -> nat -> res (nat * bytes * nat)) :=
  match i, o with
  | Format ic ie, Format oc oe =>
      Some (pcm_map ic (resolve_endian host ie) oc (resolve_endian host oe))
  | _, _ => None
  end.

End Pcm.
