(* ===== verification/PcmFormatCorrect.v ===== *)
(** What PCM conversions compute: in formats whose samples are whole bytes, packing and
    unpacking are inverse, conversions between integer formats scale, round and clip, and a
    mapping converts the samples of whole buffers. *)

From S2P Require Import Prelude Bytes PcmFormat.
Import Pcm.

#[local] Open Scope Z_scope.

(** * Octets *)

Lemma le_value_le_bytes_mod n v : le_value (le_bytes n v) = v mod 2 ^ (8 * Z.of_nat n).
Proof.
  revert v. induction n as [|n IH]; intros v; [cbn; by rewrite Z.mod_1_r|].
  cbn [le_bytes le_value]. rewrite IH, pow2_bytes_S.
  pose proof (pow2_pos (8 * Z.of_nat n) ltac:(lia)) as Hp.
  rewrite (Z.mul_comm 256 (2 ^ _)), (Zmult_comm (2 ^ _) 256).
  rewrite Z.rem_mul_r by lia. done.
Qed.

Lemma le_value_app bs bs' : le_value (bs ++ bs') = le_value bs + 2 ^ (8 * Z.of_nat (length bs)) * le_value bs'.
Proof.
  induction bs as [|b bs IH]; cbn [app le_value length]; [cbn; lia|]. rewrite IH, pow2_bytes_S. lia.
Qed.

Lemma le_value_zeros bs n : le_value (bs ++ replicate n 0) = le_value bs.
Proof.
  rewrite le_value_app. assert (le_value (replicate n 0) = 0) as -> by (induction n; cbn; lia). lia.
Qed.

Lemma octet_eq n v : octet n v = (v / 2 ^ (8 * Z.of_nat n)) mod 256.
Proof.
  unfold octet. change 0xff with (Z.ones 8). rewrite Z.land_ones, Z.shiftr_div_pow2 by lia. done.
Qed.

Lemma octets_le_bytes n v : (fun i => octet i v) <$> seq 0 n = le_bytes n v.
Proof.
  apply list_eq. intros i. rewrite list_lookup_fmap.
  revert v i. assert (forall j v i, (fun k => octet k v) <$> (seq j n !! i) = le_bytes n (v / 2 ^ (8 * Z.of_nat j)) !! i) as H.
  { induction n as [|n IH]; intros j v i; [done|]. cbn [seq le_bytes].
    destruct i as [|i]; [cbn; by rewrite octet_eq|]. cbn [lookup list_lookup].
    change (seq (S j) n !! i) with (list_lookup i (seq (S j) n)) || idtac.
    etransitivity; [apply (IH (S j) v i)|]. do 2 f_equal.
    rewrite pow2_bytes_S, Z.mul_comm, Z.div_div by (pose proof (pow2_pos (8 * Z.of_nat j)); lia). done. }
  intros v i. rewrite (H 0%nat). by rewrite Z.div_1_r.
Qed.

(** * Formats of whole bytes *)

Definition in_order (e : PcmEndian) (bs : bytes) : bytes :=
  match e with Big => reverse bs | _ => bs end.

Definition encode_sample (c : PcmCode) (e : PcmEndian) (v : Z) : bytes :=
  in_order e (le_bytes (packed_octets c) (zeroise_padding c v)).

Definition decode_sample (c : PcmCode) (e : PcmEndian) (bs : bytes) : Z :=
  sign_extend c (zeroise_padding c (as_type c (le_value (in_order e bs)))).

Lemma length_in_order e bs : length (in_order e bs) = length bs.
Proof. destruct e; [done|apply length_reverse|done]. Qed.

Lemma length_encode_sample c e v : length (encode_sample c e v) = packed_octets c.
Proof. unfold encode_sample. by rewrite length_in_order, length_le_bytes. Qed.

Lemma in_order_involutive e bs : in_order e (in_order e bs) = bs.
Proof. destruct e; [done|apply reverse_involutive|done]. Qed.

Lemma aligned_offset k : (8 * k / 8 = k)%nat.
Proof. rewrite Nat.mul_comm. by apply Nat.div_mul. Qed.

Lemma write_octets_ok c v order buffer k :
  is_aligned c = true -> (k + length order <= length buffer)%nat ->
  write_octets c v order buffer (8 * k)
  = Ok (overwrite buffer k ((fun n => octet n v) <$> order), (8 * (k + length order))%nat).
Proof.
  intros Ha. revert buffer k. induction order as [|n order IH]; intros buffer k Hk; cbn [write_octets].
  - cbn [fmap list_fmap length]. by rewrite overwrite_nil, Nat.add_0_r.
  - unfold write_octet. rewrite Ha. unfold pcm_aligned_write, set_byte. cbn [length] in Hk.
    rewrite aligned_offset, array_set_ok by lia. cbn [res_bind].
    replace (8 * k + 8)%nat with (8 * (k + 1))%nat by lia.
    rewrite IH by (rewrite length_insert; lia). cbn [fmap list_fmap length].
    assert (<[k := octet n v]> buffer = overwrite buffer k [octet n v]) as ->.
    { unfold overwrite. cbn [length app]. rewrite insert_take_drop by lia. by rewrite Nat.add_1_r. }
    f_equal. f_equal; [|lia].
    change (k + 1)%nat with (k + length [octet n v])%nat.
    rewrite overwrite_app by (cbn; rewrite length_fmap; lia). done.
Qed.

Lemma pack_ok c e buffer k v :
  is_aligned c = true -> (k + packed_octets c <= length buffer)%nat ->
  pack c e buffer (8 * k) v
  = Ok (overwrite buffer k (encode_sample c e v), (8 * (k + packed_octets c))%nat).
Proof.
  intros Ha Hk. unfold pack.
  assert (length (octet_order e (packed_octets c)) = packed_octets c) as El.
  { destruct e; cbn [octet_order]; rewrite ?length_reverse; apply length_seq. }
  rewrite write_octets_ok, El by (done || lia). do 3 f_equal.
  unfold encode_sample. rewrite <- octets_le_bytes. destruct e; cbn [octet_order in_order]; [done| |done].
  apply fmap_reverse.
Qed.

(** ** Reading *)

Lemma read_octet_ok c buffer k n :
  is_aligned c = true -> (n < packed_octets c)%nat -> (k < length buffer)%nat ->
  read_octet c buffer (8 * k) n = Ok (buffer !!! k, (8 * (k + 1))%nat).
Proof.
  intros Ha Hn Hk. unfold read_octet, pcm_aligned_read, get_byte.
  rewrite (proj2 (Nat.leb_gt _ _)), Ha, aligned_offset by lia.
  rewrite (array_get_ok _ _ (buffer !!! k)) by (by apply list_lookup_lookup_total_lt). cbn. do 2 f_equal. lia.
Qed.

Lemma read_octets_skip c order buffer o os :
  Forall (fun n => packed_octets c <= n)%nat order ->
  read_octets c order buffer o os = Ok (fold_left (fun os n => <[n := 0]> os) order os, o).
Proof.
  intros H. revert os. induction H as [|n order Hn _ IH]; intros os; [done|].
  cbn [read_octets fold_left]. unfold read_octet. rewrite (proj2 (Nat.leb_le _ _)) by done.
  cbn [res_bind]. apply IH.
Qed.

Lemma read_octets_app c o1 o2 buffer o os :
  read_octets c (o1 ++ o2) buffer o os
  = let* '(os, o) := read_octets c o1 buffer o os in read_octets c o2 buffer o os.
Proof.
  revert o os. induction o1 as [|n o1 IH]; intros o os; [done|]. cbn [app read_octets].
  destruct (read_octet c buffer o n) as [[b o']|]; [|done]. cbn [res_bind]. apply IH.
Qed.

Lemma read_octets_ok c order buffer k os :
  is_aligned c = true -> Forall (fun n => n < packed_octets c)%nat order ->
  (k + length order <= length buffer)%nat ->
  read_octets c order buffer (8 * k) os
  = Ok (fold_left (fun os '(n, b) => <[n := b]> os) (zip order (slice_of buffer k (length order))) os,
        (8 * (k + length order))%nat).
Proof.
  intros Ha H. revert k os. induction H as [|n order Hn _ IH]; intros k os Hk; cbn [read_octets length].
  - cbn. do 2 f_equal. lia.
  - cbn [length] in Hk. rewrite read_octet_ok by (done || lia). cbn [res_bind]. rewrite IH by lia.
    assert (slice_of buffer k (S (length order)) = (buffer !!! k) :: slice_of buffer (k + 1) (length order)) as ->.
    { unfold slice_of. erewrite drop_S by (apply list_lookup_lookup_total_lt; lia).
      cbn [take]. by rewrite Nat.add_1_r. }
    cbn [zip zip_with fold_left]. do 2 f_equal. lia.
Qed.

(** The octets that are not in the buffer are zero. *)
Lemma read_all_octets c e buffer k :
  is_aligned c = true -> (k + packed_octets c <= length buffer)%nat ->
  read_octets c (octet_order e (unpacked_octets c)) buffer (8 * k) (replicate (unpacked_octets c) 0)
  = Ok (in_order e (slice_of buffer k (packed_octets c)) ++ replicate (unpacked_octets c - packed_octets c) 0,
        (8 * (k + packed_octets c))%nat).
Proof.
  intros Ha Hk.
  pose proof (length_slice_of buffer k (packed_octets c) Hk) as Hl.
  set (low := octet_order e (packed_octets c)).
  set (high := seq (packed_octets c) (unpacked_octets c - packed_octets c)).
  assert (length low = packed_octets c /\ Forall (fun n => n < packed_octets c)%nat low) as [Ell Hlow].
  { split.
    - subst low. destruct e; cbn [octet_order]; rewrite ?length_reverse; apply length_seq.
    - apply Forall_forall. subst low. intros i Hi. destruct e; cbn [octet_order] in Hi;
        rewrite ?elem_of_reverse in Hi; apply elem_of_seq in Hi; lia. }
  assert (octet_order e (unpacked_octets c) = match e with Big => reverse high ++ low | _ => low ++ high end) as ->.
  { subst low high. destruct c, e; reflexivity || discriminate Ha. }
  assert (forall l, (l = high \/ l = reverse high) -> Forall (fun n => packed_octets c <= n)%nat l) as Hhigh.
  { intros l Hlh. apply Forall_forall. intros i Hi.
    assert (i ∈ high) as Hi'.
    { destruct Hlh as [-> | ->]; [exact Hi|]. by rewrite elem_of_reverse in Hi. }
    subst high. apply elem_of_seq in Hi'. lia. }
  destruct e; rewrite read_octets_app;
    [rewrite read_octets_ok by (done || lia); cbn [res_bind]; rewrite read_octets_skip by (apply Hhigh; tauto)
    |rewrite read_octets_skip by (apply Hhigh; tauto); cbn [res_bind]; rewrite read_octets_ok by (done || lia)
    |rewrite read_octets_ok by (done || lia); cbn [res_bind]; rewrite read_octets_skip by (apply Hhigh; tauto)];
    rewrite Ell in *; clear Ell Hlow Hhigh; f_equal; f_equal;
    generalize dependent (slice_of buffer k (packed_octets c)); intros bs Hl; subst low high;
    destruct c; try discriminate Ha; vm_compute in Hl;
    repeat (destruct bs as [|? bs]; try discriminate Hl); reflexivity.
Qed.

Lemma unpack_ok c e buffer k :
  is_aligned c = true -> (k + packed_octets c <= length buffer)%nat ->
  unpack c e buffer (8 * k)
  = Ok (decode_sample c e (slice_of buffer k (packed_octets c)), (8 * (k + packed_octets c))%nat).
Proof.
  intros Ha Hk. unfold unpack. rewrite read_all_octets by done. cbn [res_bind].
  unfold of_octets. by rewrite le_value_zeros.
Qed.

(** * Samples *)

(** The number that a sample stands for. *)
Definition canonical (c : PcmCode) (v : Z) : Z :=
  if is_integer c && is_signed c then wrap_s (width c) v else wrap_u (width c) v.

Definition is_sample (c : PcmCode) (v : Z) : Prop :=
  if is_integer c && is_signed c then is_s (width c) v else is_u (width c) v.

Lemma width_pos c : 0 < width c.
Proof. destruct c; done. Qed.

Lemma canonical_range c v : is_sample c (canonical c v).
Proof.
  pose proof (width_pos c). unfold is_sample, canonical.
  destruct (_ && _); [apply wrap_s_range|apply wrap_u_range]; lia.
Qed.

Lemma canonical_small c v : is_sample c v -> canonical c v = v.
Proof.
  pose proof (width_pos c). unfold is_sample, canonical.
  destruct (_ && _); intros; [by apply wrap_s_small|by apply wrap_u_small].
Qed.

Lemma canonical_cong c v w : v mod 2 ^ width c = w mod 2 ^ width c -> canonical c v = canonical c w.
Proof.
  pose proof (width_pos c). unfold canonical. intros E.
  destruct (_ && _); [by apply wrap_s_of_cong|exact E].
Qed.

Lemma mod_mod_pow v a b : 0 <= a <= b -> (v mod 2 ^ b) mod 2 ^ a = v mod 2 ^ a.
Proof.
  intros H. apply Z.bits_inj'. intros n Hn.
  destruct (Z_lt_le_dec n a) as [Hlt|Hge].
  - rewrite !Z.mod_pow2_bits_low by lia. done.
  - rewrite !Z.mod_pow2_bits_high by lia. done.
Qed.

Lemma as_type_mod c v a : 0 <= a <= unpacked_width c -> (as_type c v) mod 2 ^ a = v mod 2 ^ a.
Proof.
  intros Ha. rewrite <- (mod_mod_pow _ a (unpacked_width c)) by lia.
  rewrite <- (mod_mod_pow v a (unpacked_width c)) by lia. f_equal. unfold as_type.
  assert (0 < unpacked_width c) by (destruct c; done).
  destruct (_ && _); [by apply wrap_s_cong|apply wrap_u_cong].
Qed.

Lemma widths c : width c <= packed_width c <= unpacked_width c \/ is_aligned c = false.
Proof. destruct c; try (left; done); by right. Qed.

Lemma zeroise_mod c v : (zeroise_padding c v) mod 2 ^ width c = v mod 2 ^ width c.
Proof.
  pose proof (width_pos c). assert (width c <= unpacked_width c) by (destruct c; done).
  unfold zeroise_padding. case_if; [|done]. rewrite as_type_mod by lia.
  unfold value_mask. rewrite Z.land_ones by lia. by rewrite Z.mod_mod by (apply Z.pow_nonzero; lia).
Qed.

Lemma as_type_small c z : width c < unpacked_width c -> 0 <= z < 2 ^ width c -> as_type c z = z.
Proof.
  intros Hw Hz. pose proof (width_pos c).
  assert (2 ^ width c <= 2 ^ (unpacked_width c - 1)) by (apply Z.pow_le_mono_r; lia).
  rewrite <- (wrap_s_small (unpacked_width c) z) at 2; unfold is_s; try lia.
  unfold as_type. destruct (_ && _); [done|].
  pose proof (pow2_half (unpacked_width c) ltac:(lia)).
  rewrite wrap_u_small, wrap_s_small; unfold is_u, is_s; lia.
Qed.

Lemma as_type_idem c z : as_type c (as_type c z) = as_type c z.
Proof.
  assert (0 < unpacked_width c) by (destruct c; done). unfold as_type. destruct (_ && _).
  - apply wrap_s_small, wrap_s_range; lia.
  - apply wrap_u_small, wrap_u_range; lia.
Qed.

(** The value is not negative or fills its type. *)
Lemma unpacked_range c v :
  is_aligned c = true ->
  let x := zeroise_padding c (as_type c (v mod 2 ^ packed_width c)) in
  if width c <? unpacked_width c then 0 <= x < 2 ^ width c else x = as_type c x.
Proof.
  intros Ha x. subst x. pose proof (width_pos c). destruct (widths c) as [Hw|]; [|congruence].
  pose proof (pow2_pos (width c) ltac:(lia)).
  unfold zeroise_padding. destruct (Z.ltb_spec (width c) (packed_width c)) as [Hp|Hp].
  - rewrite (proj2 (Z.ltb_lt _ _)) by lia. unfold value_mask. rewrite Z.land_ones by lia.
    rewrite as_type_small; [by apply Z.mod_pos_bound|lia|by apply Z.mod_pos_bound].
  - replace (packed_width c) with (width c) by lia.
    destruct (Z.ltb_spec (width c) (unpacked_width c)) as [Hu|Hu]; [|by rewrite as_type_idem].
    rewrite as_type_small; [by apply Z.mod_pos_bound|lia|by apply Z.mod_pos_bound].
Qed.

Lemma lor_high w u x : 0 <= w <= u -> 0 <= x < 2 ^ w -> Z.lor x (Z.ones u - Z.ones w) = x + (2 ^ u - 2 ^ w).
Proof.
  intros Hw Hx. assert (Z.ones u - Z.ones w = Z.shiftl (Z.ones (u - w)) w) as ->.
  { rewrite Z.shiftl_mul_pow2, !Z.ones_equiv by lia. rewrite <- !Z.sub_1_r, Z.mul_sub_distr_r, <- Z.pow_add_r by lia.
    replace (u - w + w) with u by lia. lia. }
  rewrite <- Z.lxor_lor, <- Z.add_nocarry_lxor.
  - f_equal. rewrite Z.shiftl_mul_pow2, Z.ones_equiv, <- Z.sub_1_r, Z.mul_sub_distr_r, <- Z.pow_add_r by lia.
    replace (u - w + w) with u by lia. lia.
  - apply Z.bits_inj'. intros n Hn. rewrite Z.land_spec, Z.bits_0, Z.shiftl_spec by lia.
    destruct (Z_lt_le_dec n w); [by rewrite (Z.testbit_neg_r _ (n - w)), andb_false_r by lia|].
    rewrite (is_u_bits_high w x n) by (unfold is_u; lia). done.
  - apply Z.bits_inj'. intros n Hn. rewrite Z.land_spec, Z.bits_0, Z.shiftl_spec by lia.
    destruct (Z_lt_le_dec n w); [by rewrite (Z.testbit_neg_r _ (n - w)), andb_false_r by lia|].
    rewrite (is_u_bits_high w x n) by (unfold is_u; lia). done.
Qed.

Lemma sign_extend_small c x :
  width c < unpacked_width c -> is_integer c = true -> 0 <= x < 2 ^ width c ->
  sign_extend c x = canonical c x.
Proof.
  intros Hw Hi Hx. unfold sign_extend, canonical. rewrite Hi, (proj2 (Z.ltb_lt _ _) Hw), andb_true_r.
  destruct (is_signed c) eqn:Hs; cbn [andb]; [|by rewrite wrap_u_small].
  pose proof (width_pos c). pose proof (pow2_half (width c) ltac:(lia)).
  pose proof (Z.land_ones x (width c) ltac:(lia)).
  assert (Z.land x (2 ^ (width c - 1)) = if 2 ^ (width c - 1) <=? x then 2 ^ (width c - 1) else 0) as ->.
  { apply Z.bits_inj'. intros n Hn. rewrite Z.land_spec, Z.pow2_bits_eqb by lia.
    destruct (Z.eqb_spec (width c - 1) n) as [<-|Hne].
    - rewrite andb_true_r. destruct (Z.leb_spec (2 ^ (width c - 1)) x) as [Hge|Hlt].
      + rewrite Z.pow2_bits_true by lia. rewrite Z.testbit_true by lia.
        assert (x / 2 ^ (width c - 1) = 1) as ->; [|done].
        symmetry. apply Z.div_unique with (x - 2 ^ (width c - 1)); lia.
      + rewrite Z.bits_0. apply (is_u_bits_high (width c - 1)); unfold is_u; lia.
    - rewrite andb_false_r. case_if; [|by rewrite Z.bits_0]. rewrite Z.pow2_bits_false; lia. }
  destruct (Z.leb_spec (2 ^ (width c - 1)) x) as [Hge|Hlt].
  - rewrite (proj2 (Z.eqb_neq _ _)) by lia. cbn [negb]. rewrite lor_high by lia.
    assert (2 ^ width c <= 2 ^ (unpacked_width c - 1)) by (apply Z.pow_le_mono_r; lia).
    pose proof (pow2_half (unpacked_width c) ltac:(lia)).
    unfold as_type. rewrite Hi, Hs. cbn [andb].
    rewrite (wrap_s_unique (unpacked_width c) _ (x - 2 ^ width c) 1) by (unfold is_s; lia).
    symmetry. apply wrap_s_unique with 1; unfold is_s; lia.
  - rewrite Z.eqb_refl. cbn [negb]. symmetry. apply wrap_s_small; unfold is_s; lia.
Qed.

(** Whatever the value and the format, what is read back is what the value stands for. *)
Lemma decode_encode c e v : is_aligned c = true -> decode_sample c e (encode_sample c e v) = canonical c v.
Proof.
  intros Ha. unfold decode_sample, encode_sample.
  rewrite in_order_involutive, le_value_le_bytes_mod.
  assert (8 * Z.of_nat (packed_octets c) = packed_width c) as -> by (destruct c; done || discriminate Ha).
  pose proof (unpacked_range c (zeroise_padding c v) Ha) as Hr. cbn zeta in Hr.
  pose proof (width_pos c). destruct (widths c) as [Hw|]; [|congruence].
  assert ((zeroise_padding c (as_type c (zeroise_padding c v mod 2 ^ packed_width c))) mod 2 ^ width c
          = v mod 2 ^ width c) as Hm.
  { rewrite zeroise_mod, as_type_mod, mod_mod_pow, zeroise_mod by lia. done. }
  destruct (Z.ltb_spec (width c) (unpacked_width c)) as [Hu|Hu].
  - rewrite sign_extend_small; [by apply canonical_cong|done|by destruct c|done].
  - unfold sign_extend. rewrite (proj2 (Z.ltb_ge _ _)), andb_false_r by lia.
    rewrite Hr. rewrite <- (canonical_cong c _ _ Hm). unfold canonical, as_type.
    replace (unpacked_width c) with (width c) by (destruct c; done || (cbv in Hu; by destruct Hu) || lia).
    done.
Qed.

(** * Conversion between integer formats *)

(** A number of [w] signed bits as one of [w'] bits: rounded to the nearest, halves up, and
    clipped, or multiplied. *)
Definition rescale (w w' s : Z) : Z :=
  if w' =? w then s
  else if w' <? w then Z.min (2 ^ (w' - 1) - 1) ((s + 2 ^ (w - w' - 1)) / 2 ^ (w - w'))
  else s * 2 ^ (w' - w).

(** Between unsigned formats, samples are cut instead of rounded. *)
Definition rescale_unsigned (w w' u : Z) : Z :=
  if w' <? w then u / 2 ^ (w - w') else u * 2 ^ (w' - w).

Definition convert_spec (i o : PcmCode) (v : Z) : Z :=
  if negb (is_signed i) && negb (is_signed o) then rescale_unsigned (width i) (width o) v
  else
    let s := if is_signed i then v else v - 2 ^ (width i - 1) in
    let s' := rescale (width i) (width o) s in
    if is_signed o then s' else s' + 2 ^ (width o - 1).

Lemma width_unpacked c : 0 < width c <= unpacked_width c.
Proof. destruct c; done. Qed.

Lemma wrap_s_mod w z a : 0 <= a <= w -> 0 < w -> (wrap_s w z) mod 2 ^ a = z mod 2 ^ a.
Proof.
  intros Ha Hw. rewrite <- (mod_mod_pow _ a w), wrap_s_cong, mod_mod_pow by lia. done.
Qed.

Lemma wrap_u_mod w z a : 0 <= a <= w -> (wrap_u w z) mod 2 ^ a = z mod 2 ^ a.
Proof. intros Ha. rewrite <- (mod_mod_pow _ a w), wrap_u_cong, mod_mod_pow by lia. done. Qed.

Lemma from_signed_mod o v : (from_signed o v) mod 2 ^ width o = (v + 2 ^ (width o - 1)) mod 2 ^ width o.
Proof.
  pose proof (width_unpacked o). unfold from_signed, signed_max.
  case_if; rewrite wrap_u_mod by lia; [|by f_equal; lia].
  replace (wrap_u (unpacked_width o) v + (2 ^ (width o - 1) - 1) + 1)
    with (wrap_u (unpacked_width o) v + 2 ^ (width o - 1)) by lia.
  rewrite Zplus_mod, wrap_u_mod, <- Zplus_mod by lia. done.
Qed.

Lemma to_signed_eq i v : is_u (width i) v -> to_signed i v = v - 2 ^ (width i - 1).
Proof.
  pose proof (width_unpacked i). pose proof (pow2_half (width i) ltac:(lia)).
  assert (2 ^ (width i - 1) <= 2 ^ (unpacked_width i - 1)) by (apply Z.pow_le_mono_r; lia).
  intros Hv. unfold is_u in Hv. unfold to_signed, signed_max.
  replace (v - (2 ^ (width i - 1) - 1) - 1) with (v - 2 ^ (width i - 1)) by lia.
  case_if; (apply wrap_s_small; unfold is_s; lia).
Qed.

Lemma signed_sample_range i v :
  is_integer i = true -> is_sample i v ->
  is_s (width i) (if is_signed i then v else v - 2 ^ (width i - 1)).
Proof.
  intros Hi. unfold is_sample. rewrite Hi. cbn [andb]. pose proof (width_pos i).
  pose proof (pow2_half (width i) ltac:(lia)). destruct (is_signed i); [done|].
  unfold is_u, is_s. lia.
Qed.

Lemma downscale_mod i o s :
  width o < width i -> is_s (width i) s ->
  (downscale i o s) mod 2 ^ width o = (rescale (width i) (width o) s) mod 2 ^ width o.
Proof.
  intros Hw Hs. pose proof (width_unpacked i) as Hi. pose proof (width_unpacked o) as Ho.
  unfold rescale. rewrite (proj2 (Z.eqb_neq _ _)), (proj2 (Z.ltb_lt _ _)) by lia.
  unfold downscale, signed_max. rewrite !Z.shiftl_1_l.
  remember (width i - width o) as d eqn:Ed.
  pose proof (pow2_pos (d - 1) ltac:(lia)) as Hd1. pose proof (pow2_half d ltac:(lia)) as Hd.
  assert (2 ^ (width i - 1) = 2 ^ d * 2 ^ (width o - 1)) as Ew.
  { rewrite <- Z.pow_add_r by lia. f_equal. lia. }
  pose proof (pow2_pos (width o - 1) ltac:(lia)).
  assert (2 ^ (width i - 1) <= 2 ^ (unpacked_width i - 1)) by (apply Z.pow_le_mono_r; lia).
  assert (2 ^ d <= 2 ^ (width i - 1)) by (apply Z.pow_le_mono_r; lia).
  unfold is_s in Hs. rewrite (wrap_s_small (unpacked_width i)) by (unfold is_s; lia).
  destruct (Z.ltb_spec (2 ^ (width i - 1) - 1 - 2 ^ (d - 1)) s) as [Hc|Hc].
  - assert (2 ^ (width o - 1) <= (s + 2 ^ (d - 1)) / 2 ^ d) by (apply Z.div_le_lower_bound; lia).
    rewrite Z.min_l by lia. done.
  - assert ((s + 2 ^ (d - 1)) / 2 ^ d < 2 ^ (width o - 1)) by (apply Z.div_lt_upper_bound; lia).
    rewrite Z.min_r by lia. rewrite wrap_s_mod by lia. rewrite Z.shiftr_div_pow2 by lia.
    unfold wrap_u. set (x := s + 2 ^ (d - 1)).
    pose proof (pow2_pos (unpacked_width i) ltac:(lia)) as Hu.
    pose proof (Z.div_mod x (2 ^ unpacked_width i) ltac:(lia)) as Ex.
    assert (2 ^ unpacked_width i = 2 ^ (unpacked_width i - d - width o) * 2 ^ width o * 2 ^ d) as Eu.
    { rewrite <- !Z.pow_add_r by lia. f_equal. lia. }
    set (k := x / 2 ^ unpacked_width i) in *.
    replace (x mod 2 ^ unpacked_width i)
      with (x + (- (k * 2 ^ (unpacked_width i - d - width o)) * 2 ^ width o) * 2 ^ d)
      by (rewrite Ex at 1; rewrite Eu at 1; ring).
    rewrite Z.div_add by lia. rewrite Z.mod_add by (apply Z.pow_nonzero; lia). done.
Qed.

Lemma upscale_mod i o s :
  width i < width o ->
  (upscale i o s) mod 2 ^ width o = (rescale (width i) (width o) s) mod 2 ^ width o.
Proof.
  intros Hw. pose proof (width_unpacked o). pose proof (width_pos i).
  unfold rescale. rewrite (proj2 (Z.eqb_neq _ _)), (proj2 (Z.ltb_ge _ _)) by lia.
  unfold upscale. rewrite wrap_s_mod, Z.shiftl_mul_pow2 by lia.
  rewrite Zmult_mod, wrap_u_mod, <- Zmult_mod by lia. done.
Qed.

Lemma convert_ok i o v :
  is_integer i = true -> is_integer o = true -> is_sample i v ->
  exists r, convert i o v = Ok r /\ canonical o r = canonical o (convert_spec i o v).
Proof.
  intros Hi Ho Hv. pose proof (width_unpacked i). pose proof (width_unpacked o).
  unfold convert. case_bool_decide as Eio.
  - subst o. eexists. split; [done|]. apply canonical_cong. f_equal. unfold convert_spec, rescale, rescale_unsigned.
    rewrite Z.eqb_refl, Z.ltb_irrefl, Z.sub_diag, Z.mul_1_r. destruct (is_signed i); cbn; lia.
  - destruct (negb (is_signed i) && negb (is_signed o)) eqn:Eu.
    + eexists. split; [done|]. apply canonical_cong. unfold convert_spec, rescale_unsigned. rewrite Eu.
      destruct (Z.eqb_spec (width o) (width i)) as [E|E].
      { rewrite E, Z.ltb_irrefl, Z.sub_diag. f_equal. lia. }
      case_if; rewrite wrap_u_mod by lia.
      * by rewrite Z.shiftr_div_pow2 by lia.
      * rewrite Z.shiftl_mul_pow2 by lia. rewrite Zmult_mod, wrap_u_mod, <- Zmult_mod by lia. done.
    + rewrite Hi, Ho. cbn [res_bind].
      pose proof (signed_sample_range i v Hi Hv) as Hs.
      assert ((if is_signed i then v else to_signed i v) = if is_signed i then v else v - 2 ^ (width i - 1)) as ->.
      { destruct (is_signed i) eqn:Es; [done|]. apply to_signed_eq.
        unfold is_sample in Hv. by rewrite Es, andb_false_r in Hv. }
      eexists. split; [done|]. apply canonical_cong. unfold convert_spec. rewrite Eu. cbn zeta.
      set (s := if is_signed i then v else v - 2 ^ (width i - 1)) in *. clearbody s.
      assert ((if width o =? width i then s else if width o <? width i then downscale i o s else upscale i o s)
              mod 2 ^ width o = rescale (width i) (width o) s mod 2 ^ width o) as E.
      { destruct (Z.eqb_spec (width o) (width i)) as [Ew|Ew].
        - unfold rescale. by rewrite Ew, Z.eqb_refl.
        - destruct (Z.ltb_spec (width o) (width i)); [by apply downscale_mod|apply upscale_mod; lia]. }
      destruct (is_signed o); [done|].
      rewrite from_signed_mod, Zplus_mod, E, <- Zplus_mod. done.
Qed.

Lemma rescale_range w w' s : 0 < w -> 0 < w' -> is_s w s -> is_s w' (rescale w w' s).
Proof.
  intros Hw Hw' Hs. unfold is_s in *. unfold rescale. pose proof (pow2_pos (w' - 1) ltac:(lia)).
  destruct (Z.eqb_spec w' w) as [->|E]; [lia|]. destruct (Z.ltb_spec w' w) as [Hlt|Hge].
  - assert (2 ^ (w - 1) = 2 ^ (w - w') * 2 ^ (w' - 1)) as Ew by (rewrite <- Z.pow_add_r by lia; f_equal; lia).
    pose proof (pow2_pos (w - w' - 1) ltac:(lia)). pose proof (pow2_pos (w - w') ltac:(lia)).
    assert (- 2 ^ (w' - 1) <= (s + 2 ^ (w - w' - 1)) / 2 ^ (w - w')) by (apply Z.div_le_lower_bound; lia).
    lia.
  - assert (2 ^ (w' - 1) = 2 ^ (w' - w) * 2 ^ (w - 1)) as Ew by (rewrite <- Z.pow_add_r by lia; f_equal; lia).
    pose proof (pow2_pos (w' - w) ltac:(lia)). nia.
Qed.

Lemma convert_spec_range i o v :
  is_integer i = true -> is_integer o = true -> is_sample i v -> is_sample o (convert_spec i o v).
Proof.
  intros Hi Ho Hv. pose proof (signed_sample_range i v Hi Hv) as Hs.
  unfold is_sample in *. rewrite Hi in Hv. rewrite Ho. cbn [andb] in *. unfold convert_spec.
  pose proof (width_pos i). pose proof (width_pos o).
  destruct (is_signed i) eqn:Ei, (is_signed o) eqn:Eo; cbn [negb andb]; cbn zeta.
  - by apply rescale_range.
  - pose proof (rescale_range (width i) (width o) v ltac:(lia) ltac:(lia) Hs) as Hr.
    pose proof (pow2_half (width o) ltac:(lia)). unfold is_s, is_u in *. lia.
  - by apply rescale_range.
  - unfold is_u, rescale_unsigned in *. destruct (Z.ltb_spec (width o) (width i)).
    + pose proof (pow2_pos (width i - width o) ltac:(lia)).
      split; [apply Z.div_pos; lia|]. apply Z.div_lt_upper_bound; [lia|].
      rewrite <- Z.pow_add_r by lia. replace (width i - width o + width o) with (width i) by lia. lia.
    + pose proof (pow2_pos (width o - width i) ltac:(lia)).
      replace (width o) with (width o - width i + width i) at 3 by lia. rewrite Z.pow_add_r by lia. nia.
Qed.

(** Nothing is lost on the way to a wider format and back. *)
Lemma rescale_inverse w w' s : 0 < w <= w' -> is_s w s -> rescale w' w (rescale w w' s) = s.
Proof.
  intros Hw Hs. unfold rescale. destruct (Z.eqb_spec w' w) as [->|E]; [by rewrite Z.eqb_refl|].
  rewrite (proj2 (Z.eqb_neq _ _)), (proj2 (Z.ltb_lt _ _)), (proj2 (Z.ltb_ge _ _)) by lia.
  pose proof (pow2_pos (w' - w - 1) ltac:(lia)). pose proof (pow2_half (w' - w) ltac:(lia)).
  rewrite Z.add_comm, Z.div_add by lia. rewrite Z.div_small by lia. unfold is_s in Hs. lia.
Qed.

Lemma convert_spec_inverse i o v :
  is_integer i = true -> is_integer o = true -> width i <= width o -> is_sample i v ->
  convert_spec o i (convert_spec i o v) = v.
Proof.
  intros Hi Ho Hw Hv. pose proof (signed_sample_range i v Hi Hv) as Hs. pose proof (width_pos i).
  unfold convert_spec.
  destruct (is_signed i) eqn:Ei, (is_signed o) eqn:Eo; cbn [negb andb]; cbn zeta;
    rewrite ?Z.add_simpl_r, ?rescale_inverse by (done || lia); try lia.
  unfold rescale_unsigned. rewrite (proj2 (Z.ltb_ge (width o) (width i))) by lia.
  case_if; [apply Z.div_mul, Z.pow_nonzero; lia|].
  replace (width o - width i) with 0 by lia. replace (width i - width o) with 0 by lia. lia.
Qed.

(** * Mapping *)

(** The [n] samples of a buffer from byte [k]. *)
Fixpoint samples (c : PcmCode) (e : PcmEndian) (buffer : bytes) (k n : nat) : list Z :=
  match n with
  | O => []
  | S n => decode_sample c e (slice_of buffer k (packed_octets c))
           :: samples c e buffer (k + packed_octets c) n
  end.

(** Samples as bytes. *)
Definition encode_samples (c : PcmCode) (e : PcmEndian) (vs : list Z) : bytes :=
  mjoin (encode_sample c e <$> vs).

Lemma encode_samples_cons c e v vs :
  encode_samples c e (v :: vs) = encode_sample c e v ++ encode_samples c e vs.
Proof. done. Qed.

Lemma length_samples c e buffer k n : length (samples c e buffer k n) = n.
Proof. revert k. induction n as [|n IH]; intros k; cbn; [done|]. by rewrite IH. Qed.

Lemma length_encode_samples c e vs : length (encode_samples c e vs) = (length vs * packed_octets c)%nat.
Proof.
  induction vs as [|v vs IH]; [done|].
  rewrite encode_samples_cons, length_app, length_encode_sample, IH. done.
Qed.

Lemma samples_app c e buffer k n n' :
  samples c e buffer k (n + n') = samples c e buffer k n ++ samples c e buffer (k + n * packed_octets c) n'.
Proof.
  revert k. induction n as [|n IH]; intros k; cbn; [by rewrite Nat.add_0_r|].
  rewrite IH. do 3 f_equal. lia.
Qed.

Lemma samples_ext c e b b' k n :
  (forall i, k <= i < k + n * packed_octets c -> b !! i = b' !! i)%nat ->
  samples c e b k n = samples c e b' k n.
Proof.
  revert k. induction n as [|n IH]; intros k H; [done|]. cbn [samples]. f_equal.
  - f_equal. apply list_eq. intros i. unfold slice_of. destruct (decide (i < packed_octets c)%nat).
    + rewrite !lookup_take_lt, !lookup_drop by done. apply H. lia.
    + by rewrite !lookup_take_ge by lia.
  - apply IH. intros i Hi. apply H. lia.
Qed.

Lemma samples_encode c e vs buffer k :
  is_aligned c = true -> (k + length vs * packed_octets c <= length buffer)%nat ->
  samples c e (overwrite buffer k (encode_samples c e vs)) k (length vs) = canonical c <$> vs.
Proof.
  intros Ha. revert buffer k. induction vs as [|v vs IH]; intros buffer k Hk; [done|].
  cbn [length samples fmap list_fmap] in *. rewrite encode_samples_cons.
  rewrite <- overwrite_app by (rewrite length_encode_samples, length_encode_sample; lia).
  rewrite length_encode_sample. f_equal.
  - rewrite slice_overwrite_disjoint.
    + rewrite <- (length_encode_sample c e v).
      rewrite slice_overwrite_same by (rewrite length_encode_sample; lia). by apply decode_encode.
    + rewrite length_overwrite, length_encode_samples by (rewrite length_encode_sample; lia). lia.
    + left. lia.
  - apply IH. rewrite length_overwrite by (rewrite length_encode_sample; lia). lia.
Qed.

Lemma pcm_map_ok ic ie oc oe (f : Z -> Z) in_data k out_data k' n :
  is_aligned ic = true -> is_aligned oc = true ->
  (k + n * packed_octets ic <= length in_data)%nat ->
  (k' + n * packed_octets oc <= length out_data)%nat ->
  Forall (fun v => convert ic oc v = Ok (f v)) (samples ic ie in_data k n) ->
  pcm_map ic ie oc oe in_data (8 * k) out_data (8 * k') n
  = Ok ((8 * (k + n * packed_octets ic))%nat,
        overwrite out_data k' (encode_samples oc oe (f <$> samples ic ie in_data k n)),
        (8 * (k' + n * packed_octets oc))%nat).
Proof.
  intros Hi Ho. revert k k' out_data. induction n as [|n IH]; intros k k' out_data Hk Hk' Hf.
  - cbn. unfold encode_samples. cbn. rewrite overwrite_nil. do 2 f_equal; [f_equal|]; lia.
  - cbn [pcm_map samples] in *. apply Forall_cons in Hf as [Hv Hf].
    rewrite unpack_ok by (done || lia). cbn [res_bind]. rewrite Hv. cbn [res_bind].
    rewrite pack_ok by (done || lia). cbn [res_bind].
    rewrite IH by (done || rewrite ?length_overwrite by (rewrite length_encode_sample; lia); lia).
    cbn [fmap list_fmap]. rewrite encode_samples_cons.
    do 2 f_equal; [f_equal|]; try lia.
    rewrite <- overwrite_app by (rewrite length_encode_samples, length_fmap, length_samples, length_encode_sample; lia).
    by rewrite length_encode_sample.
Qed.

(** * Mapping buffers *)

(** What is read is a sample. *)
Lemma decode_sample_range c e bs :
  is_aligned c = true -> length bs = packed_octets c -> Forall is_byte bs -> is_sample c (decode_sample c e bs).
Proof.
  intros Ha Hl Hb. unfold decode_sample.
  assert (le_value (in_order e bs) = le_value (in_order e bs) mod 2 ^ packed_width c) as ->.
  { pose proof (le_value_range (in_order e bs)) as Hr. rewrite length_in_order, Hl in Hr.
    replace (8 * Z.of_nat (packed_octets c)) with (packed_width c) in Hr by (destruct c; done || discriminate Ha).
    symmetry. apply Z.mod_small, Hr. unfold in_order. by destruct e; [|apply Forall_reverse|]. }
  pose proof (unpacked_range c (le_value (in_order e bs)) Ha) as Hr. cbn zeta in Hr.
  destruct (Z.ltb_spec (width c) (unpacked_width c)) as [Hu|Hu].
  - rewrite sign_extend_small; [apply canonical_range|done|by destruct c|done].
  - unfold sign_extend. rewrite (proj2 (Z.ltb_ge _ _)), andb_false_r by lia. rewrite Hr.
    unfold as_type, is_sample.
    replace (unpacked_width c) with (width c) by (destruct c; done || (cbv in Hu; by destruct Hu) || lia).
    case_if; [apply wrap_s_range|apply wrap_u_range]; pose proof (width_pos c); lia.
Qed.

Lemma is_sample_samples c e buffer k n :
  is_aligned c = true -> (k + n * packed_octets c <= length buffer)%nat -> Forall is_byte buffer ->
  Forall (is_sample c) (samples c e buffer k n).
Proof.
  intros Ha Hk Hb. revert k Hk. induction n as [|n IH]; intros k Hk; constructor.
  - apply decode_sample_range; [done|apply length_slice_of; lia|by apply slice_of_Forall].
  - apply IH. lia.
Qed.

Lemma encode_samples_bytes c e vs : Forall is_byte (encode_samples c e vs).
Proof.
  induction vs as [|v vs IH]; [constructor|]. rewrite encode_samples_cons. apply Forall_app. split; [|done].
  unfold encode_sample, in_order. destruct e; [|apply Forall_reverse|]; apply le_bytes_Forall.
Qed.

(** A conversion that does not panic. *)
Definition converted (i o : PcmCode) (v : Z) : Z :=
  match convert i o v with Ok r => r | Panic => 0 end.

Lemma map_converts ic ie oc oe in_data k out_data k' n :
  is_integer ic = true -> is_integer oc = true -> is_aligned ic = true -> is_aligned oc = true ->
  (k + n * packed_octets ic <= length in_data)%nat ->
  (k' + n * packed_octets oc <= length out_data)%nat -> Forall is_byte in_data ->
  exists out, pcm_map ic ie oc oe in_data (8 * k) out_data (8 * k') n
      = Ok ((8 * (k + n * packed_octets ic))%nat, out, (8 * (k' + n * packed_octets oc))%nat)
    /\ samples oc oe out k' n = convert_spec ic oc <$> samples ic ie in_data k n
    /\ length out = length out_data /\ take k' out = take k' out_data
    /\ drop (k' + n * packed_octets oc) out = drop (k' + n * packed_octets oc) out_data
    /\ (Forall is_byte out_data -> Forall is_byte out).
Proof.
  intros Hi Ho Hai Hao Hin Hout Hb. pose proof (is_sample_samples ic ie in_data k n Hai Hin Hb) as Hs.
  rewrite (pcm_map_ok _ _ _ _ (converted ic oc)); try done.
  2:{ eapply Forall_impl; [exact Hs|]. intros v Hv. unfold converted.
      by destruct (convert_ok ic oc v Hi Ho Hv) as (r & -> & _). }
  assert (length (encode_samples oc oe (converted ic oc <$> samples ic ie in_data k n)) = (n * packed_octets oc)%nat) as Hl.
  { by rewrite length_encode_samples, length_fmap, length_samples. }
  eexists. split; [done|]. split.
  - pose proof (samples_encode oc oe (converted ic oc <$> samples ic ie in_data k n) out_data k' Hao) as He.
    rewrite length_fmap, length_samples in He. rewrite He by lia. rewrite <- list_fmap_compose.
    apply list_fmap_ext. intros j v Hv. cbn. apply Forall_lookup_1 with (i := j) (x := v) in Hs; [|done].
    unfold converted. destruct (convert_ok ic oc v Hi Ho Hs) as (r & -> & ->).
    apply canonical_small. by apply convert_spec_range.
  - rewrite length_overwrite by lia. split; [done|]. unfold overwrite. rewrite Hl.
    split; [|split].
    + rewrite take_app_le by (rewrite length_take; lia). by rewrite take_take, Nat.min_id.
    + rewrite app_assoc. rewrite drop_app_ge by (rewrite length_app, length_take; lia).
      rewrite length_app, length_take. rewrite drop_drop. f_equal. lia.
    + intros H. apply Forall_app. split; [by apply Forall_take|]. apply Forall_app.
      split; [apply encode_samples_bytes|by apply Forall_drop].
Qed.

(** The map of [pcm_format_mapfn] between two codes. *)
Definition mapfn (host : cpu_endian) (ic : PcmCode) (ie : PcmEndian) (oc : PcmCode) (oe : PcmEndian)
    (in_data : bytes) (in_bit_off : nat) (out_data : bytes) (out_bit_off n : nat) : res (nat * bytes * nat) :=
  match pcm_format_mapfn host (Format ic ie) (Format oc oe) with
  | Some f => f in_data in_bit_off out_data out_bit_off n
  | None => Panic
  end.

(** The samples of a buffer in native byte order are in that of the CPU. *)
Definition samples_in (host : cpu_endian) (c : PcmCode) (e : PcmEndian) (buffer : bytes) (k n : nat) : list Z :=
  samples c (resolve_endian host e) buffer k n.

(** ** Packing without padding *)

(** Four bits from the middle of a byte: the whole byte is returned. *)
Lemma pcm_unaligned_read_half buffer i b :
  get_byte buffer i = Ok b -> 0 <= b < 2 ^ 8 ->
  pcm_unaligned_read buffer (8 * i + 4) 4 = Ok (b, (8 * i + 8)%nat).
Proof.
  intros Hg Hb. unfold pcm_unaligned_read.
  replace ((8 * i + 4) / 8)%nat with i by (rewrite Nat.mul_comm, Nat.div_add_l by done; cbn; lia).
  replace ((8 * i + 4) mod 8)%nat with 4%nat
    by (rewrite Nat.add_comm, Nat.mul_comm, Nat.Div0.mod_add; done).
  rewrite Hg. cbn [res_bind Nat.add Nat.ltb Nat.leb].
  rewrite Z.shiftr_shiftl_l by lia. cbn [Z.of_nat Z.sub Pos.of_succ_nat Pos.succ].
  change (8 - 4) with 4. rewrite Z.sub_diag, Z.shiftl_0_r, wrap_u_small by exact Hb.
  do 2 f_equal. lia.
Qed.

Lemma pcm_unaligned_read_whole buffer i b :
  get_byte buffer i = Ok b -> 0 <= b < 2 ^ 8 ->
  pcm_unaligned_read buffer (8 * i) 8 = Ok (b, (8 * i + 8)%nat).
Proof.
  intros Hg Hb. unfold pcm_unaligned_read. rewrite aligned_offset.
  replace ((8 * i) mod 8)%nat with 0%nat by (rewrite Nat.mul_comm, Nat.Div0.mod_mul; done).
  rewrite Hg. cbn [res_bind Nat.add Nat.ltb Nat.leb].
  change (8 - Z.of_nat 8) with 0. rewrite Z.shiftl_0_r, Z.shiftr_0_r, wrap_u_small by exact Hb. done.
Qed.

(** * Properties *)

(** C23: Mapping [n] samples between two integer formats of whole bytes, in any byte orders
    and from and to any byte offsets, reads exactly the samples of the input, writes each of
    them converted (rounded to the nearest and saturated when the output is narrower, or cut
    between unsigned formats), and leaves the rest of the output as it was. *)
Theorem pcm_map_converts_samples host ic ie oc oe in_data k out_data k' n :
  is_integer ic = true -> is_integer oc = true -> is_aligned ic = true -> is_aligned oc = true ->
  (k + n * packed_octets ic <= length in_data)%nat ->
  (k' + n * packed_octets oc <= length out_data)%nat -> Forall is_byte in_data ->
  exists out, mapfn host ic ie oc oe in_data (8 * k) out_data (8 * k') n
      = Ok ((8 * (k + n * packed_octets ic))%nat, out, (8 * (k' + n * packed_octets oc))%nat)
    /\ samples_in host oc oe out k' n = convert_spec ic oc <$> samples_in host ic ie in_data k n
    /\ length out = length out_data /\ take k' out = take k' out_data
    /\ drop (k' + n * packed_octets oc) out = drop (k' + n * packed_octets oc) out_data.
Proof.
  intros Hi Ho Hai Hao Hin Hout Hb.
  destruct (map_converts ic (resolve_endian host ie) oc (resolve_endian host oe) in_data k out_data k' n)
    as (out & E & Hs & Hl & Ht & Hd & _); try done.
  by exists out.
Qed.

(** Three 16-bit samples of a little-endian buffer, after two bytes of it, to 24 bits in
    big-endian order and to 8 unsigned bits. *)
Lemma pcm_map_converts_samples_witness :
  let buffer := [9; 9; 0x34; 0x12; 0xff; 0xff; 0xff; 0x7f] in
  (exists out, mapfn CPU_LE SInt16 Little SInt24 Big buffer 16 (replicate 9 0) 0 3
      = Ok (64%nat, out, 72%nat)
    /\ samples_in CPU_LE SInt24 Big out 0 3 = convert_spec SInt16 SInt24 <$> [0x1234; -1; 32767])
  /\ convert_spec SInt16 SInt24 <$> [0x1234; -1; 32767] = [0x123400; -256; 0x7fff00]
  /\ (exists out, mapfn CPU_LE SInt16 Native UInt8 Native buffer 16 (replicate 3 0) 0 3
      = Ok (64%nat, out, 24%nat)
    /\ samples_in CPU_LE UInt8 Native out 0 3 = convert_spec SInt16 UInt8 <$> [0x1234; -1; 32767])
  /\ convert_spec SInt16 UInt8 <$> [0x1234; -1; 32767] = [0x92; 0x80; 0xff].
Proof.
  assert (Forall is_byte [9; 9; 0x34; 0x12; 0xff; 0xff; 0xff; 0x7f]) as Hb
    by (repeat constructor; unfold is_byte, is_u; lia).
  split_and!; try reflexivity.
  - destruct (pcm_map_converts_samples CPU_LE SInt16 Little SInt24 Big
      [9; 9; 0x34; 0x12; 0xff; 0xff; 0xff; 0x7f] 2 (replicate 9 0) 0 3) as (out & E & Hs & _);
      [reflexivity..|vm_compute; lia|vm_compute; lia|exact Hb|].
    exists out. split; [exact E|]. exact Hs.
  - destruct (pcm_map_converts_samples CPU_LE SInt16 Native UInt8 Native
      [9; 9; 0x34; 0x12; 0xff; 0xff; 0xff; 0x7f] 2 (replicate 3 0) 0 3) as (out & E & Hs & _);
      [reflexivity..|vm_compute; lia|vm_compute; lia|exact Hb|].
    exists out. split; [exact E|]. exact Hs.
Defined.

(** C24: Mapping samples of an integer format of whole bytes to one that is at least as
    wide, in any byte orders, and back loses nothing: the samples are those that the input
    had. *)
Theorem pcm_widening_roundtrip host ic ie oc oe in_data mid out n :
  is_integer ic = true -> is_integer oc = true -> is_aligned ic = true -> is_aligned oc = true ->
  width ic <= width oc ->
  length in_data = (n * packed_octets ic)%nat -> length mid = (n * packed_octets oc)%nat ->
  length out = (n * packed_octets ic)%nat -> Forall is_byte in_data -> Forall is_byte mid ->
  exists mid' out' p q r, mapfn host ic ie oc oe in_data 0 mid 0 n = Ok (p, mid', q)
    /\ mapfn host oc oe ic ie mid' 0 out 0 n = Ok (q, out', r)
    /\ samples_in host ic ie out' 0 n = samples_in host ic ie in_data 0 n.
Proof.
  intros Hi Ho Hai Hao Hw Hin Hmid Hout Hb Hbm. unfold mapfn, samples_in. cbn [pcm_format_mapfn].
  set (ie' := resolve_endian host ie). set (oe' := resolve_endian host oe).
  destruct (map_converts ic ie' oc oe' in_data 0 mid 0 n) as (mid' & E1 & Hs1 & Hl1 & _ & _ & Hb1); try done; try lia.
  destruct (map_converts oc oe' ic ie' mid' 0 out 0 n) as (out' & E2 & Hs2 & _); try done; try lia.
  { by apply Hb1. }
  eexists mid', out', _, _, _. split; [exact E1|]. split; [exact E2|]. rewrite Hs2, Hs1, <- list_fmap_compose.
  pose proof (is_sample_samples ic ie' in_data 0 n Hai ltac:(lia) Hb) as Hs.
  rewrite <- (list_fmap_id (samples ic ie' in_data 0 n)) at 2. apply list_fmap_ext. intros j v Hv. cbn.
  rewrite Forall_lookup in Hs. by apply convert_spec_inverse; [..|by apply (Hs j)].
Qed.

(** Two unsigned 20-bit samples of three bytes, through 32 signed bits. *)
Lemma pcm_widening_roundtrip_witness :
  exists mid' out' p q r,
    mapfn CPU_BE UInt20_3 Native SInt32 Little [0x0f; 0xff; 0xfe; 0; 0; 1] 0 (replicate 8 0) 0 2 = Ok (p, mid', q)
    /\ mapfn CPU_BE SInt32 Little UInt20_3 Native mid' 0 (replicate 6 0) 0 2 = Ok (q, out', r)
    /\ samples_in CPU_BE UInt20_3 Native out' 0 2 = [0xffffe; 1].
Proof.
  apply (pcm_widening_roundtrip CPU_BE UInt20_3 Native SInt32 Little [0x0f; 0xff; 0xfe; 0; 0; 1]
    (replicate 8 0) (replicate 6 0) 2); try reflexivity.
  - done.
  - repeat constructor; unfold is_byte, is_u; lia.
  - repeat constructor; unfold is_byte, is_u; lia.
Defined.

(** C38: Big-endian unsigned samples of 20 bits that are packed without padding are not
    read as they are: in a pair of them, whose second sample starts in the middle of the
    third byte, the second sample takes that whole byte as its top bits, with the last four
    bits of the first sample; when these are not all zero, it is not a 20-bit sample. *)
Theorem pcm_packed_20_bit_mixes_samples b0 b1 b2 b3 b4 :
  Forall is_byte [b0; b1; b2; b3; b4] -> 16 <= b2 ->
  exists v, unpack UInt20 Big [b0; b1; b2; b3; b4] 20 = Ok (v, 40%nat)
    /\ v = b2 * 2 ^ 16 + b3 * 2 ^ 8 + b4 /\ ~ is_sample UInt20 v.
Proof.
  intros Hb Hge. assert (forall i, (i < 5)%nat -> is_byte ([b0; b1; b2; b3; b4] !!! i)) as Hi.
  { intros i Hi. apply (Forall_lookup_total_1 is_byte); [done|]. exact Hi. }
  exists (b2 * 2 ^ 16 + b3 * 2 ^ 8 + b4).
  pose proof (Hi 2%nat ltac:(lia)) as H2. pose proof (Hi 3%nat ltac:(lia)) as H3.
  pose proof (Hi 4%nat ltac:(lia)) as H4. cbn in H2, H3, H4. unfold is_byte, is_u in H2, H3, H4.
  split; [|split; [done|unfold is_sample, is_u; cbn; lia]].
  unfold unpack. cbn [octet_order unpacked_octets].
  change (reverse (seq 0 (unpacked_octets UInt20))) with [3; 2; 1; 0]%nat.
  change (replicate (unpacked_octets UInt20) 0) with [0; 0; 0; 0].
  cbn [read_octets]. unfold read_octet. change (is_aligned UInt20) with false.
  change (packed_octets UInt20) with 3%nat. cbn [Nat.leb res_bind].
  change (octet_bits UInt20 2) with 4%nat. change (octet_bits UInt20 1) with 8%nat.
  change (octet_bits UInt20 0) with 8%nat.
  change 20%nat with (8 * 2 + 4)%nat. erewrite pcm_unaligned_read_half by (reflexivity || exact H2).
  cbn [res_bind Nat.mul Nat.add]. change 24%nat with (8 * 3)%nat.
  erewrite pcm_unaligned_read_whole by (reflexivity || exact H3).
  cbn [res_bind Nat.mul Nat.add]. change 32%nat with (8 * 4)%nat.
  erewrite pcm_unaligned_read_whole by (reflexivity || exact H4).
  cbn [res_bind]. do 2 f_equal. cbn [insert list_insert]. unfold of_octets, as_type. cbn [is_integer is_signed andb le_value].
  rewrite wrap_u_small by (cbn; unfold is_u; lia).
  unfold zeroise_padding, sign_extend. cbn [width packed_width is_signed andb]. 
  replace (20 <? 20) with false by done. lia.
Qed.

(** The second sample is 0x00001; the first one ends with 0xf. *)
Lemma pcm_packed_20_bit_mixes_samples_witness :
  exists v, unpack UInt20 Big [0xab; 0xcd; 0xf0; 0; 1] 20 = Ok (v, 40%nat) /\ v = 0xf00001
    /\ ~ is_sample UInt20 v.
Proof.
  apply (pcm_packed_20_bit_mixes_samples 0xab 0xcd 0xf0 0 1); [|lia].
  repeat constructor; unfold is_byte, is_u; lia.
Defined.
