(* ===== verification/SampleSpec.v ===== *)
(** Sample specifications (src/internal_modules/roc_audio/sample_spec.cpp, sample_format.h):
    the rate, format and channels of a stream of samples, and the conversions between
    numbers of samples, stream timestamps, bytes and nanoseconds, in [float]. *)

From Stdlib Require Import QArith.
From S2P Require Import Prelude Bytes Ntp Float32 ChannelSet PcmFormat.
Import Pcm.

#[local] Open Scope Z_scope.

Module SampleSpec.

Inductive SampleFormat : Type := SampleFormat_Invalid | SampleFormat_Pcm | SampleFormat_Opus.

#[global] Instance SampleFormat_eq_dec : EqDecision SampleFormat.
Proof. solve_decision. Defined.

Record t : Type := mk {
  sample_rate_ : Z;           (* size_t *)
  sample_fmt_ : SampleFormat;
  pcm_fmt_ : PcmFormat;
  pcm_width_ : Z;
  channel_set_ : ChannelSet.t
}.

(** * Conversions *)

Definition ns_2_fract_samples (ns sample_rate : Z) : Z :=
  roundf (f32_mul (f32_div (f32_of_Z ns) (f32_of_Z Second)) (f32_of_Z sample_rate)).

(** [T] is given by its limits and the conversion to it. *)
Definition ns_2_int_samples (min_val max_val : Z) (to_T : Z -> Z) (ns sample_rate multiplier : Z) : Z :=
  let mul := to_T multiplier in
  let val := ns_2_fract_samples ns sample_rate in
  let product := f32_mul (inject_Z val) (f32_of_Z multiplier) in
  if Qle_bool product (f32_of_Z min_val) then Z.quot min_val mul * mul
  else if Qle_bool (f32_of_Z max_val) product then Z.quot max_val mul * mul
  else to_T (to_T val * mul).

(** The first argument is a [float]. *)
Definition nsamples_2_ns (n_samples : Q) (sample_rate : Z) : Z :=
  let min_val := - 2 ^ 63 in
  let max_val := 2 ^ 63 - 1 in
  let val := roundf (f32_mul (f32_div n_samples (f32_of_Z sample_rate)) (f32_of_Z Second)) in
  if Qle_bool (inject_Z val) (f32_of_Z min_val) then min_val
  else if Qle_bool (f32_of_Z max_val) (inject_Z val) then max_val
  else val.

Definition get_pcm_canon_format (host : cpu_endian) (fmt : PcmFormat) : PcmFormat :=
  match fmt with
  | PcmFormat_Invalid => PcmFormat_Invalid
  | fmt => t_canon_id (pcm_format_traits host fmt)
  end.

Definition get_pcm_sample_width (host : cpu_endian) (fmt : PcmFormat) : Z :=
  match fmt with
  | PcmFormat_Invalid => 0
  | fmt => t_bit_width (pcm_format_traits host fmt)
  end.

Section Spec.

Context (host : cpu_endian).

(** * Fields *)

Definition empty : t := mk 0 SampleFormat_Invalid PcmFormat_Invalid 0 ChannelSet.empty.

(** [SampleSpec(sample_rate, pcm_fmt, channel_set)] *)
Definition make (sample_rate : Z) (pcm_fmt : PcmFormat) (channel_set : ChannelSet.t) : res t :=
  let width := get_pcm_sample_width host pcm_fmt in
  panic_if (sample_rate =? 0)
    (panic_if (bool_decide (pcm_fmt = PcmFormat_Invalid) || (width =? 0))
       (panic_if (negb (ChannelSet.is_valid channel_set))
          (Ok (mk sample_rate SampleFormat_Pcm pcm_fmt width channel_set)))).

(** [SampleSpec(sample_rate, pcm_fmt, layout, order, mask)] *)
Definition make_layout (sample_rate : Z) (pcm_fmt : PcmFormat) (layout : ChannelSet.ChannelLayout)
    (order : ChannelSet.ChannelOrder) (mask : Z) : res t :=
  let* channel_set := ChannelSet.make layout order mask in
  make sample_rate pcm_fmt channel_set.

(** [operator==] *)
Definition eqb (a b : t) : bool :=
  bool_decide (sample_fmt_ a = sample_fmt_ b)
  && (negb (bool_decide (sample_fmt_ a = SampleFormat_Pcm))
      || bool_decide (pcm_fmt_ a = pcm_fmt_ b)
      || bool_decide (get_pcm_canon_format host (pcm_fmt_ a) = get_pcm_canon_format host (pcm_fmt_ b)))
  && (sample_rate_ a =? sample_rate_ b) && ChannelSet.eqb (channel_set_ a) (channel_set_ b).

Definition is_valid (s : t) : bool :=
  negb (bool_decide (sample_fmt_ s = SampleFormat_Invalid))
  && Bool.eqb (bool_decide (sample_fmt_ s = SampleFormat_Pcm))
       (negb (bool_decide (pcm_fmt_ s = PcmFormat_Invalid)))
  && negb (sample_rate_ s =? 0) && ChannelSet.is_valid (channel_set_ s).

Definition num_channels (s : t) : nat := ChannelSet.num_channels (channel_set_ s).

Definition is_empty (s : t) : bool :=
  bool_decide (sample_fmt_ s = SampleFormat_Invalid) && bool_decide (pcm_fmt_ s = PcmFormat_Invalid)
  && (sample_rate_ s =? 0) && (num_channels s =? 0)%nat.

(** [Sample_RawFormat] *)
Definition Sample_RawFormat : PcmFormat := Format Float32 Native.

Definition is_raw (s : t) : bool :=
  bool_decide (sample_fmt_ s = SampleFormat_Pcm) && bool_decide (pcm_fmt_ s = Sample_RawFormat).

Definition clear (s : t) : t :=
  mk 0 SampleFormat_Invalid PcmFormat_Invalid 0 (ChannelSet.clear (channel_set_ s)).

Definition set_sample_format (fmt : SampleFormat) (s : t) : t :=
  if bool_decide (fmt = SampleFormat_Pcm)
  then mk (sample_rate_ s) fmt (pcm_fmt_ s) (pcm_width_ s) (channel_set_ s)
  else mk (sample_rate_ s) fmt PcmFormat_Invalid 0 (channel_set_ s).

Definition pcm_format (s : t) : PcmFormat :=
  if bool_decide (sample_fmt_ s = SampleFormat_Pcm) then pcm_fmt_ s else PcmFormat_Invalid.

Definition set_pcm_format (fmt : PcmFormat) (s : t) : t :=
  mk (sample_rate_ s) (sample_fmt_ s) fmt (get_pcm_sample_width host fmt) (channel_set_ s).

Definition set_sample_rate (rate : Z) (s : t) : t :=
  mk rate (sample_fmt_ s) (pcm_fmt_ s) (pcm_width_ s) (channel_set_ s).

Definition set_channel_set (cs : ChannelSet.t) (s : t) : t :=
  mk (sample_rate_ s) (sample_fmt_ s) (pcm_fmt_ s) (pcm_width_ s) cs.

Definition use_defaults (default_pcm_fmt : PcmFormat) (layout : ChannelSet.ChannelLayout)
    (order : ChannelSet.ChannelOrder) (mask rate : Z) (s : t) : res t :=
  let s :=
    if bool_decide (sample_fmt_ s = SampleFormat_Invalid /\ default_pcm_fmt <> PcmFormat_Invalid)
    then set_pcm_format default_pcm_fmt (set_sample_format SampleFormat_Pcm s) else s in
  let* s :=
    if negb (ChannelSet.is_valid (channel_set_ s)) && negb (bool_decide (layout = ChannelSet.ChanLayout_None))
    then
      let* cs := ChannelSet.set_layout layout (channel_set_ s) in
      Ok (set_channel_set (ChannelSet.set_mask mask (ChannelSet.set_order order cs)) s)
    else Ok s in
  Ok (if (sample_rate_ s =? 0) && negb (rate =? 0) then set_sample_rate rate s else s).

(** * Lengths *)

Definition ns_2_samples_per_chan (ns : Z) (s : t) : res Z :=
  panic_if (negb (is_valid s)) (panic_if (ns <? 0)
    (Ok (ns_2_int_samples 0 (2 ^ 64 - 1) u64 ns (sample_rate_ s) 1))).

Definition samples_per_chan_2_ns (n : Z) (s : t) : res Z :=
  panic_if (negb (is_valid s)) (Ok (nsamples_2_ns (f32_of_Z n) (sample_rate_ s))).

Definition fract_samples_per_chan_2_ns (n : Q) (s : t) : res Z :=
  panic_if (negb (is_valid s)) (Ok (nsamples_2_ns n (sample_rate_ s))).

Definition ns_2_samples_overall (ns : Z) (s : t) : res Z :=
  panic_if (negb (is_valid s)) (panic_if (ns <? 0)
    (Ok (ns_2_int_samples 0 (2 ^ 64 - 1) u64 ns (sample_rate_ s) (Z.of_nat (num_channels s))))).

Definition samples_overall_2_ns (n : Z) (s : t) : res Z :=
  panic_if (negb (is_valid s))
    (panic_if (negb (n mod Z.of_nat (num_channels s) =? 0))
       (Ok (nsamples_2_ns (f32_div (f32_of_Z n) (f32_of_Z (Z.of_nat (num_channels s)))) (sample_rate_ s)))).

Definition fract_samples_overall_2_ns (n : Q) (s : t) : res Z :=
  panic_if (negb (is_valid s))
    (Ok (nsamples_2_ns (f32_div n (f32_of_Z (Z.of_nat (num_channels s)))) (sample_rate_ s))).

Definition ns_2_stream_timestamp (ns : Z) (s : t) : res Z :=
  panic_if (negb (is_valid s)) (panic_if (ns <? 0)
    (Ok (ns_2_int_samples 0 (2 ^ 32 - 1) u32 ns (sample_rate_ s) 1))).

Definition stream_timestamp_2_ns (sts : Z) (s : t) : res Z :=
  panic_if (negb (is_valid s)) (Ok (nsamples_2_ns (f32_of_Z sts) (sample_rate_ s))).

Definition ns_2_stream_timestamp_delta (ns : Z) (s : t) : res Z :=
  panic_if (negb (is_valid s))
    (Ok (ns_2_int_samples (- 2 ^ 31) (2 ^ 31 - 1) s32 ns (sample_rate_ s) 1)).

Definition stream_timestamp_delta_2_ns (sts : Z) (s : t) : res Z :=
  panic_if (negb (is_valid s)) (Ok (nsamples_2_ns (f32_of_Z sts) (sample_rate_ s))).

Definition bytes_2_stream_timestamp (n : Z) (s : t) : res Z :=
  panic_if (negb (is_valid s))
    (panic_if (negb (bool_decide (sample_fmt_ s = SampleFormat_Pcm)))
       (panic_if (negb (pcm_width_ s mod 8 =? 0))
          (Ok (u32 (n / (pcm_width_ s / 8) / Z.of_nat (num_channels s)))))).

Definition stream_timestamp_2_bytes (duration : Z) (s : t) : res Z :=
  panic_if (negb (is_valid s))
    (panic_if (negb (bool_decide (sample_fmt_ s = SampleFormat_Pcm)))
       (panic_if (negb (pcm_width_ s mod 8 =? 0))
          (Ok (u64 (duration * (pcm_width_ s / 8) * Z.of_nat (num_channels s)))))).

Definition bytes_2_ns (n : Z) (s : t) : res Z :=
  let* sts := bytes_2_stream_timestamp n s in stream_timestamp_2_ns sts s.

Definition ns_2_bytes (ns : Z) (s : t) : res Z :=
  let* sts := ns_2_stream_timestamp ns s in stream_timestamp_2_bytes sts s.

End Spec.

End SampleSpec.
