(* ===== verification/Frame.v ===== *)
(** Audio frames (src/internal_modules/roc_audio/frame.cpp, frame.h) and the codec
    interfaces (iframe_encoder.h, iframe_decoder.h).

    A [sample_t] is the integer with the bits of the [float].  A frame is its samples, all
    channels interleaved; frames of bytes in another format are not modelled. *)

From S2P Require Import Prelude Bytes Packet.

(** * Frame *)

Module Frame.

Abbreviation sample_t := Z.

Definition FlagNotRaw : Z := Z.shiftl 1 0.
Definition FlagNotBlank : Z := Z.shiftl 1 1.
Definition FlagNotComplete : Z := Z.shiftl 1 2.
Definition FlagPacketDrops : Z := Z.shiftl 1 3.

Record t : Type := mk {
  samples_ : list sample_t;
  flags_ : Z;
  duration_ : Z;              (* uint32_t *)
  capture_timestamp_ : Z      (* int64_t, nanoseconds *)
}.

(** [Frame(samples, num_samples)] *)
Definition make (samples : list sample_t) : t := mk samples 0 0 0.

Definition set_flags (flags : Z) (f : t) : t :=
  mk (samples_ f) flags (duration_ f) (capture_timestamp_ f).

Definition is_raw (f : t) : bool := Z.land (flags_ f) FlagNotRaw =? 0.

Definition raw_samples (f : t) : res (list sample_t) :=
  panic_if (negb (is_raw f)) (Ok (samples_ f)).

Definition num_raw_samples (f : t) : res nat :=
  panic_if (negb (is_raw f)) (Ok (length (samples_ f))).

(** Writing through [raw_samples()]. *)
Definition set_samples (samples : list sample_t) (f : t) : t :=
  mk samples (flags_ f) (duration_ f) (capture_timestamp_ f).

Definition has_duration (f : t) : bool := negb (duration_ f =? 0).

Definition duration (f : t) : res Z := panic_if (duration_ f =? 0) (Ok (duration_ f)).

Definition set_duration (d : Z) (f : t) : res t :=
  panic_if (d =? 0) (Ok (mk (samples_ f) (flags_ f) d (capture_timestamp_ f))).

Definition has_capture_timestamp (f : t) : bool := negb (capture_timestamp_ f =? 0).

Definition set_capture_timestamp (ts : Z) (f : t) : res t :=
  panic_if (ts <? 0) (Ok (mk (samples_ f) (flags_ f) (duration_ f) ts)).

End Frame.

(** * Codecs *)

(** [read] returns the number of samples per channel and the samples. *)
Class IFrameDecoder (D : Type) : Type := {
  decoder_position : D -> Z;
  decoder_available : D -> Z;
  decoder_begin : D -> Z -> bytes -> res D;
  decoder_read : D -> nat -> res (nat * list Frame.sample_t * D);
  decoder_shift : D -> nat -> res (nat * D);
  decoder_end : D -> res D
}.

(** [begin] is given the size of the frame; [write], the bytes of the frame, and the samples
    with their number per channel, and returns the number that it encoded and the new bytes. *)
Class IFrameEncoder (E : Type) : Type := {
  encoded_byte_count : E -> nat -> nat;
  encoder_begin : E -> nat -> res E;
  encoder_write : E -> bytes -> list Frame.sample_t -> nat -> res (nat * bytes * E);
  encoder_end : E -> res E
}.

(** One sample of every channel. *)
Abbreviation block := (list Frame.sample_t).

(** ** What a decoder promises

    A frame at a stream position decodes to a position and a sequence of blocks.  [reading d
    pos rest] says that decoder [d] is between [begin] and [end], at position [pos] with
    [rest] still to be read. *)
Class FrameDecoder (D : Type) `{IFrameDecoder D} (n_chans : nat) : Type := {
  idle : D -> Prop;
  reading : D -> Z -> list block -> Prop;
  accepts : bytes -> Prop;
  decode : Z -> bytes -> Z * list block;
  decode_ok ts data :
    is_u 32 ts -> accepts data ->
    is_u 32 (decode ts data).1 /\ Z.of_nat (length (decode ts data).2) < 2 ^ 31
    /\ Forall (fun b => length b = n_chans) (decode ts data).2;
  begin_ok d ts data :
    idle d -> is_u 32 ts -> accepts data ->
    exists d', decoder_begin d ts data = Ok d' /\ reading d' (decode ts data).1 (decode ts data).2;
  reading_ok d pos rest :
    reading d pos rest -> decoder_position d = pos /\ decoder_available d = Z.of_nat (length rest);
  read_ok d pos rest n :
    reading d pos rest ->
    let k := Nat.min n (length rest) in
    exists d', decoder_read d n = Ok (k, mjoin (take k rest), d')
      /\ reading d' (u32 (pos + Z.of_nat k)) (drop k rest);
  shift_ok d pos rest n :
    reading d pos rest ->
    let k := Nat.min n (length rest) in
    exists d', decoder_shift d n = Ok (k, d') /\ reading d' (u32 (pos + Z.of_nat k)) (drop k rest);
  end_ok d pos rest : reading d pos rest -> exists d', decoder_end d = Ok d' /\ idle d'
}.

(** ** What an encoder promises

    [encode] is the frame that samples make when each is [encodable], and [writing e size xs] says that encoder [e] is
    between [begin] and [end] of a frame of [size] bytes, with [xs] written so far. *)
Class FrameEncoder (E : Type) `{IFrameEncoder E} (n_chans : nat) : Type := {
  ready : E -> Prop;
  writing : E -> nat -> list Frame.sample_t -> Prop;
  encodable : Frame.sample_t -> Prop;
  encode : list Frame.sample_t -> bytes;
  size_of : nat -> nat;
  size_of_0 : size_of 0 = 0%nat;
  size_of_mono n m : (n <= m)%nat -> (size_of n <= size_of m)%nat;
  encode_size xs n : length xs = (n * n_chans)%nat -> length (encode xs) = size_of n;
  ready_count e n : ready e -> encoded_byte_count e n = size_of n;
  writing_count e size xs n : writing e size xs -> encoded_byte_count e n = size_of n;
  encoder_begin_ok e size :
    ready e -> exists e', encoder_begin e size = Ok e' /\ writing e' size [];
  encoder_write_ok e size xs ys frame m n :
    writing e size xs -> length frame = size -> length xs = (m * n_chans)%nat ->
    length ys = (n * n_chans)%nat -> (size_of (m + n) <= size)%nat ->
    Forall encodable ys -> take (size_of m) frame = encode xs ->
    exists e' frame', encoder_write e frame ys n = Ok (n, frame', e')
      /\ writing e' size (xs ++ ys) /\ length frame' = size
      /\ take (size_of (m + n)) frame' = encode (xs ++ ys);
  encoder_end_ok e size xs : writing e size xs -> exists e', encoder_end e = Ok e' /\ ready e'
}.
