(* ===== verification/PcmCodec.v ===== *)
(** The PCM codecs (src/internal_modules/roc_audio/pcm_mapper.cpp, pcm_encoder.cpp,
    pcm_decoder.cpp and their headers): mapping samples between bytes and raw frames.

    The samples of a frame are the bytes of their memory in the byte order [host] of the CPU.
    A frame of bytes that a codec points to is a list; without one the pointer is null.
    [size_t] is unbounded.  A mapper writes to a buffer of zeros; what it wrote is returned. *)

From S2P Require Import Prelude Bytes PcmFormat ChannelSet SampleSpec Frame.
Import Pcm.

(** * Mapper *)

Module PcmMapper.

Record t : Type := mk {
  input_fmt_ : PcmFormat;
  output_fmt_ : PcmFormat;
  input_traits_ : PcmTraits;
  output_traits_ : PcmTraits;
  map_func_ : bytes -> nat -> bytes -> nat -> nat -> res (nat * bytes * nat)
}.

Definition make (host : cpu_endian) (input_fmt output_fmt : PcmFormat) : res t :=
  let input_traits := pcm_format_traits host input_fmt in
  let output_traits := pcm_format_traits host output_fmt in
  panic_if (negb (t_is_valid input_traits))
    (panic_if (negb (t_is_valid output_traits))
      match pcm_format_mapfn host input_fmt output_fmt with
      | Some f => Ok (mk input_fmt output_fmt input_traits output_traits f)
      | None => Panic
      end).

Definition input_bit_width (m : t) : nat := Z.to_nat (t_bit_width (input_traits_ m)).

Definition output_bit_width (m : t) : nat := Z.to_nat (t_bit_width (output_traits_ m)).

Definition input_sample_count (m : t) (input_bytes : nat) : nat := input_bytes * 8 / input_bit_width m.

Definition output_sample_count (m : t) (output_bytes : nat) : nat := output_bytes * 8 / output_bit_width m.

Definition input_byte_count (m : t) (input_samples : nat) : nat := (input_samples * input_bit_width m + 7) / 8.

Definition output_byte_count (m : t) (output_samples : nat) : nat := (output_samples * output_bit_width m + 7) / 8.

Definition input_bit_count (m : t) (input_samples : nat) : nat := input_samples * input_bit_width m.

Definition output_bit_count (m : t) (output_samples : nat) : nat := output_samples * output_bit_width m.

(** Returns the number of samples and, for input and output, the offsets after them. *)
Definition map (m : t) (in_data : bytes) (in_byte_size in_bit_off : nat) (out_data : bytes)
    (out_byte_size out_bit_off n_samples : nat) : res (nat * nat * bytes * nat) :=
  panic_if (in_byte_size * 8 <? in_bit_off)%nat
    (panic_if (out_byte_size * 8 <? out_bit_off)%nat
      (let n_samples := Nat.min n_samples ((in_byte_size * 8 - in_bit_off) / input_bit_width m) in
       let n_samples := Nat.min n_samples ((out_byte_size * 8 - out_bit_off) / output_bit_width m) in
       if (n_samples =? 0)%nat then Ok (n_samples, in_bit_off, out_data, out_bit_off)
       else
         let* '(in_bit_off, out_data, out_bit_off) :=
           map_func_ m in_data in_bit_off out_data out_bit_off n_samples in
         Ok (n_samples, in_bit_off, out_data, out_bit_off))).

End PcmMapper.

(** * Raw samples *)

Definition sizeof_sample : nat := 4.

(** The memory of samples, and the samples in memory. *)
Definition sample_bytes (host : cpu_endian) (xs : list Frame.sample_t) : bytes :=
  mjoin ((fun x => match host with CPU_LE => le_bytes sizeof_sample x | CPU_BE => be_bytes sizeof_sample x end)
         <$> xs).

Definition samples_at (host : cpu_endian) (m : bytes) (n : nat) : list Frame.sample_t :=
  (fun i => load host sizeof_sample m (i * sizeof_sample)) <$> seq 0 n.

(** * Decoder *)

Module PcmDecoder.

Record t : Type := mk {
  pcm_mapper_ : PcmMapper.t;
  n_chans_ : nat;
  stream_pos_ : Z;              (* uint32_t *)
  stream_avail_ : Z;            (* uint32_t *)
  frame_data_ : option bytes;   (* with frame_byte_size_ *)
  frame_bit_off_ : nat
}.

Definition make (host : cpu_endian) (sample_spec : SampleSpec.t) : res t :=
  let* m := PcmMapper.make host (SampleSpec.pcm_format sample_spec) SampleSpec.Sample_RawFormat in
  Ok (mk m (SampleSpec.num_channels sample_spec) 0 0 None 0).

Definition position (d : t) : Z := stream_pos_ d.

Definition available (d : t) : Z := stream_avail_ d.

(** The division by zero panics. *)
Definition decoded_sample_count (d : t) (frame_size : nat) : res nat :=
  panic_if (n_chans_ d =? 0)%nat (Ok (PcmMapper.input_sample_count (pcm_mapper_ d) frame_size / n_chans_ d)%nat).

Definition begin (d : t) (frame_position : Z) (frame_data : bytes) : res t :=
  match frame_data_ d with
  | Some _ => Panic
  | None =>
      let* n := decoded_sample_count d (length frame_data) in
      Ok (mk (pcm_mapper_ d) (n_chans_ d) frame_position (u32 (Z.of_nat n)) (Some frame_data) (frame_bit_off_ d))
  end.

Definition read (host : cpu_endian) (d : t) (n_samples : nat) : res (nat * list Frame.sample_t * t) :=
  match frame_data_ d with
  | None => Panic
  | Some frame_data =>
      let n_samples := Nat.min n_samples (Z.to_nat (stream_avail_ d)) in
      let* '(n_mapped, frame_bit_off, out, samples_bit_off) :=
        PcmMapper.map (pcm_mapper_ d) frame_data (length frame_data) (frame_bit_off_ d)
          (replicate (n_samples * n_chans_ d * sizeof_sample) 0) (n_samples * n_chans_ d * sizeof_sample) 0
          (n_samples * n_chans_ d) in
      panic_if (n_chans_ d =? 0)%nat
        (let n_mapped_samples := (n_mapped / n_chans_ d)%nat in
         panic_if (negb (samples_bit_off mod 8 =? 0)%nat)
           (panic_if (n_samples <? n_mapped_samples)%nat
             (Ok (n_mapped_samples, samples_at host out n_mapped,
                  mk (pcm_mapper_ d) (n_chans_ d) (u32 (stream_pos_ d + Z.of_nat n_mapped_samples))
                    (u32 (stream_avail_ d - Z.of_nat n_mapped_samples)) (frame_data_ d) frame_bit_off))))
  end.

Definition shift (d : t) (n_samples : nat) : res (nat * t) :=
  match frame_data_ d with
  | None => Panic
  | Some _ =>
      let n_samples := Nat.min n_samples (Z.to_nat (stream_avail_ d)) in
      Ok (n_samples,
          mk (pcm_mapper_ d) (n_chans_ d) (u32 (stream_pos_ d + Z.of_nat n_samples))
            (u32 (stream_avail_ d - Z.of_nat n_samples)) (frame_data_ d)
            (frame_bit_off_ d + PcmMapper.input_bit_count (pcm_mapper_ d) (n_samples * n_chans_ d)))
  end.

Definition end_ (d : t) : res t :=
  match frame_data_ d with
  | None => Panic
  | Some _ => Ok (mk (pcm_mapper_ d) (n_chans_ d) (stream_pos_ d) 0 None 0)
  end.

Definition decoder (host : cpu_endian) : IFrameDecoder t := {|
  decoder_position := position;
  decoder_available := available;
  decoder_begin := begin;
  decoder_read := read host;
  decoder_shift := shift;
  decoder_end := end_
|}.

End PcmDecoder.

(** * Encoder *)

Module PcmEncoder.

Record t : Type := mk {
  pcm_mapper_ : PcmMapper.t;
  n_chans_ : nat;
  frame_data_ : bool;           (* whether it points to a frame *)
  frame_byte_size_ : nat;
  frame_bit_off_ : nat
}.

Definition make (host : cpu_endian) (sample_spec : SampleSpec.t) : res t :=
  let* m := PcmMapper.make host SampleSpec.Sample_RawFormat (SampleSpec.pcm_format sample_spec) in
  Ok (mk m (SampleSpec.num_channels sample_spec) false 0 0).

Definition encoded_byte_count (e : t) (num_samples : nat) : nat :=
  PcmMapper.output_byte_count (pcm_mapper_ e) (num_samples * n_chans_ e).

Definition begin (e : t) (frame_size : nat) : res t :=
  panic_if (frame_data_ e) (Ok (mk (pcm_mapper_ e) (n_chans_ e) true frame_size (frame_bit_off_ e))).

(** [frame] is the frame that was given to [begin]. *)
Definition write (host : cpu_endian) (e : t) (frame : bytes) (samples : list Frame.sample_t) (n_samples : nat)
    : res (nat * bytes * t) :=
  panic_if (negb (frame_data_ e))
    (let* '(n_mapped, samples_bit_off, frame, frame_bit_off) :=
       PcmMapper.map (pcm_mapper_ e) (sample_bytes host samples) (n_samples * n_chans_ e * sizeof_sample) 0 frame
         (frame_byte_size_ e) (frame_bit_off_ e) (n_samples * n_chans_ e) in
     panic_if (n_chans_ e =? 0)%nat
       (let n_mapped_samples := (n_mapped / n_chans_ e)%nat in
        panic_if (negb (samples_bit_off mod 8 =? 0)%nat)
          (panic_if (n_samples <? n_mapped_samples)%nat
            (Ok (n_mapped_samples, frame,
                 mk (pcm_mapper_ e) (n_chans_ e) (frame_data_ e) (frame_byte_size_ e) frame_bit_off))))).

Definition end_ (e : t) : res t :=
  panic_if (negb (frame_data_ e)) (Ok (mk (pcm_mapper_ e) (n_chans_ e) false 0 0)).

Definition encoder (host : cpu_endian) : IFrameEncoder t := {|
  Frame.encoded_byte_count := encoded_byte_count;
  encoder_begin := begin;
  encoder_write := write host;
  encoder_end := end_
|}.

End PcmEncoder.
