(* ===== verification/PcmCodecOk.v ===== *)
(** The PCM codecs keep the contracts of the codec interfaces, for every format whose
    samples are whole bytes. *)

From S2P Require Import Prelude Bytes ChannelSet PcmFormat PcmFormatCorrect SampleSpec Frame PcmCodec.
Import Pcm.

#[local] Open Scope Z_scope.

(** * Blocks *)

(** The first [n] blocks of samples. *)
Fixpoint blocks (chans n : nat) (xs : list Frame.sample_t) : list block :=
  match n with
  | O => []
  | S n => take chans xs :: blocks chans n (drop chans xs)
  end.

Lemma length_blocks chans n xs : length (blocks chans n xs) = n.
Proof. revert xs. induction n as [|n IH]; intros xs; cbn; [done|]. by rewrite IH. Qed.

Lemma blocks_Forall chans n xs :
  (n * chans <= length xs)%nat -> Forall (fun b => length b = chans) (blocks chans n xs).
Proof.
  revert xs. induction n as [|n IH]; intros xs Hl; cbn; constructor.
  - rewrite length_take. lia.
  - apply IH. rewrite length_drop. lia.
Qed.

Lemma blocks_join chans n xs : (n * chans <= length xs)%nat -> mjoin (blocks chans n xs) = take (n * chans) xs.
Proof.
  revert xs. induction n as [|n IH]; intros xs Hl; [done|].
  change (mjoin (blocks chans (S n) xs)) with (take chans xs ++ mjoin (blocks chans n (drop chans xs))).
  rewrite IH by (rewrite length_drop; lia). change (S n * chans)%nat with (chans + n * chans)%nat.
  rewrite <- (take_drop chans (take (chans + n * chans) xs)), take_take, skipn_firstn_comm. do 2 f_equal; lia.
Qed.

Lemma blocks_take chans k n xs : (k <= n)%nat -> take k (blocks chans n xs) = blocks chans k xs.
Proof.
  revert n xs. induction k as [|k IH]; intros [|n] xs Hk; [done..|lia|]. cbn. by rewrite IH by lia.
Qed.

Lemma blocks_drop chans k n xs : drop k (blocks chans n xs) = blocks chans (n - k) (drop (k * chans) xs).
Proof.
  revert n xs. induction k as [|k IH]; intros n xs; [by rewrite Nat.sub_0_r|].
  destruct n as [|n]; [done|]. cbn [blocks drop Nat.sub]. rewrite IH, drop_drop. done.
Qed.

Lemma blocks_ext chans n xs ys : take (n * chans) xs = take (n * chans) ys -> blocks chans n xs = blocks chans n ys.
Proof.
  revert xs ys. induction n as [|n IH]; intros xs ys E; [done|]. cbn [blocks]. f_equal.
  - apply (f_equal (take chans)) in E. rewrite !take_take in E. by rewrite !Nat.min_l in E by lia.
  - apply IH. apply (f_equal (drop chans)) in E. rewrite !skipn_firstn_comm in E.
    replace (S n * chans - chans)%nat with (n * chans)%nat in E by lia. done.
Qed.

(** * The memory of samples *)

Section Codec.

Context (host : cpu_endian).

Abbreviation raw_endian := (resolve_endian host Native).

Lemma sample_bytes_eq xs : sample_bytes host xs = encode_samples Float32 raw_endian xs.
Proof. unfold sample_bytes, encode_samples. f_equal. by destruct host. Qed.

Lemma samples_at_eq m k n :
  Forall is_byte m -> (k * sizeof_sample + n * sizeof_sample <= length m)%nat ->
  (fun i => load host sizeof_sample m (i * sizeof_sample)) <$> seq k n
  = samples Float32 raw_endian m (k * sizeof_sample) n.
Proof.
  intros Hb. revert k. induction n as [|n IH]; intros k Hk; [done|]. cbn [seq fmap list_fmap samples].
  f_equal.
  - change (packed_octets Float32) with sizeof_sample. unfold load. fold (slice_of m (k * sizeof_sample) sizeof_sample).
    set (bs := slice_of m (k * sizeof_sample) sizeof_sample).
    assert (length bs = sizeof_sample) as Hl by (apply length_slice_of; lia).
    assert (Forall is_byte bs) as Hbs by (by apply slice_of_Forall).
    unfold decode_sample. change (sign_extend Float32) with (fun v : Z => v). cbv beta.
    change (zeroise_padding Float32) with (fun v : Z => v). cbv beta.
    change (as_type Float32) with (wrap_u 32).
    destruct host; cbn [resolve_endian in_order]; rewrite wrap_u_small; try done.
    + pose proof (le_value_range bs Hbs) as Hr. by rewrite Hl in Hr.
    + pose proof (le_value_range (reverse bs) ltac:(by apply Forall_reverse)) as Hr. by rewrite length_reverse, Hl in Hr.
  - change (packed_octets Float32) with sizeof_sample.
    replace (k * sizeof_sample + sizeof_sample)%nat with (S k * sizeof_sample)%nat by lia. apply IH. lia.
Qed.

Lemma overwrite_whole (m xs : bytes) : length m = length xs -> overwrite m 0 xs = xs.
Proof. intros H. unfold overwrite. cbn [take app]. rewrite drop_ge by lia. apply app_nil_r. Qed.

Lemma samples_whole c e vs : is_aligned c = true -> samples c e (encode_samples c e vs) 0 (length vs) = canonical c <$> vs.
Proof.
  intros Ha. rewrite <- (samples_encode c e vs (encode_samples c e vs) 0 Ha)
    by (rewrite length_encode_samples; lia).
  by rewrite overwrite_whole.
Qed.

Lemma samples_at_encode vs n :
  length vs = n -> samples_at host (encode_samples Float32 raw_endian vs) n = canonical Float32 <$> vs.
Proof.
  intros <-. unfold samples_at.
  rewrite samples_at_eq by (apply encode_samples_bytes || (rewrite length_encode_samples; change (packed_octets Float32) with sizeof_sample; lia)).
  by apply samples_whole.
Qed.

(** * A format *)

Context (c : PcmCode) (e : PcmEndian) (chans : nat).
Context (aligned : is_aligned c = true) (chans_pos : (0 < chans)%nat).

Abbreviation octets := (packed_octets c).
Abbreviation endian := (resolve_endian host e).

Lemma octets_pos : (0 < octets)%nat.
Proof. clear. destruct c; cbv; lia. Qed.

Lemma width_octets : Z.to_nat (packed_width c) = (8 * octets)%nat.
Proof. destruct c; try discriminate aligned; reflexivity. Qed.

Definition from_raw_mapper : PcmMapper.t :=
  PcmMapper.mk SampleSpec.Sample_RawFormat (Format c e) (pcm_format_traits host SampleSpec.Sample_RawFormat)
    (pcm_format_traits host (Format c e)) (pcm_map Float32 raw_endian c endian).

Definition to_raw_mapper : PcmMapper.t :=
  PcmMapper.mk (Format c e) SampleSpec.Sample_RawFormat (pcm_format_traits host (Format c e))
    (pcm_format_traits host SampleSpec.Sample_RawFormat) (pcm_map c endian Float32 raw_endian).

Lemma from_raw_make : PcmMapper.make host SampleSpec.Sample_RawFormat (Format c e) = Ok from_raw_mapper.
Proof. done. Qed.

Lemma to_raw_make : PcmMapper.make host (Format c e) SampleSpec.Sample_RawFormat = Ok to_raw_mapper.
Proof. done. Qed.

(** ** The decoder *)

(** A sample of the format as a raw sample. *)
Definition raw_of (v : Z) : Frame.sample_t := canonical Float32 (converted c Float32 v).

Lemma convert_to_raw v : convert c Float32 v = Ok (converted c Float32 v).
Proof.
  unfold converted, convert. case_bool_decide; [done|].
  case_if; [done|]. by destruct (is_integer c).
Qed.

Lemma input_samples L : (PcmMapper.input_sample_count to_raw_mapper L = L / octets)%nat.
Proof.
  unfold PcmMapper.input_sample_count, PcmMapper.input_bit_width. cbn [PcmMapper.input_traits_ to_raw_mapper pcm_format_traits t_bit_width].
  rewrite width_octets, (Nat.mul_comm 8). apply Nat.Div0.div_mul_cancel_r. done.
Qed.

Lemma map_to_raw data k n :
  (k + n * octets <= length data)%nat -> (0 < n)%nat ->
  PcmMapper.map to_raw_mapper data (length data) (8 * k) (replicate (n * sizeof_sample) 0) (n * sizeof_sample) 0 n
  = Ok (n, (8 * (k + n * octets))%nat, encode_samples Float32 raw_endian (converted c Float32 <$> samples c endian data k n),
        (8 * (n * sizeof_sample))%nat).
Proof.
  intros Hk Hn. unfold PcmMapper.map, panic_if. pose proof octets_pos.
  rewrite (proj2 (Nat.ltb_ge (length data * 8) _)) by nia. cbn [Nat.ltb Nat.leb].
  unfold PcmMapper.input_bit_width, PcmMapper.output_bit_width.
  cbn [PcmMapper.input_traits_ PcmMapper.output_traits_ to_raw_mapper pcm_format_traits t_bit_width].
  rewrite width_octets. change (Z.to_nat (t_bit_width (pcm_format_traits host SampleSpec.Sample_RawFormat))) with 32%nat.
  rewrite (Nat.min_l n) by (apply Nat.div_le_lower_bound; nia).
  rewrite (Nat.min_l n) by (apply Nat.div_le_lower_bound; unfold sizeof_sample; nia).
  rewrite (proj2 (Nat.eqb_neq n 0)) by lia. cbn [PcmMapper.map_func_].
  pose proof (pcm_map_ok c endian Float32 raw_endian (converted c Float32) data k (replicate (n * sizeof_sample) 0) 0 n) as E.
  change (8 * 0)%nat with 0%nat in E. change (packed_octets Float32) with sizeof_sample in E.
  cbn [PcmMapper.map_func_ to_raw_mapper]. rewrite length_replicate in E. rewrite E; try done.
  - cbn [res_bind Nat.add]. do 3 f_equal. apply overwrite_whole.
    rewrite length_replicate, length_encode_samples, length_fmap, length_samples. done.
  - apply Forall_true. apply convert_to_raw.
Qed.

Lemma map_to_raw_none data k : (8 * k <= length data * 8)%nat ->
  PcmMapper.map to_raw_mapper data (length data) (8 * k) [] 0 0 0 = Ok (0%nat, (8 * k)%nat, [], 0%nat).
Proof.
  intros Hk. unfold PcmMapper.map, panic_if. rewrite (proj2 (Nat.ltb_ge (length data * 8) _)) by lia. done.
Qed.

Definition decoder_wf (d : PcmDecoder.t) : Prop :=
  PcmDecoder.pcm_mapper_ d = to_raw_mapper /\ PcmDecoder.n_chans_ d = chans.

(** The raw samples of [n] blocks of a frame, from block [k]. *)
Definition raw_blocks (data : bytes) (k n : nat) : list block :=
  blocks chans n (raw_of <$> samples c endian data (k * chans * octets) (n * chans)).

Lemma length_raw_blocks data k n : length (raw_blocks data k n) = n.
Proof. apply length_blocks. Qed.

Lemma raw_blocks_take data k n m : (m <= n)%nat -> take m (raw_blocks data k n) = raw_blocks data k m.
Proof.
  intros Hm. unfold raw_blocks. rewrite blocks_take by done. apply blocks_ext.
  replace (n * chans)%nat with (m * chans + (n - m) * chans)%nat by nia.
  rewrite samples_app, fmap_app, take_app_le by (rewrite length_fmap, length_samples; lia). done.
Qed.

Lemma raw_blocks_drop data k n m :
  (m <= n)%nat -> drop m (raw_blocks data k n) = raw_blocks data (k + m) (n - m).
Proof.
  intros Hm. unfold raw_blocks. rewrite blocks_drop. f_equal.
  replace (n * chans)%nat with (m * chans + (n - m) * chans)%nat by nia.
  rewrite samples_app, fmap_app, drop_app_ge by (rewrite length_fmap, length_samples; lia).
  rewrite length_fmap, length_samples, Nat.sub_diag, drop_0. do 2 f_equal. nia.
Qed.

Lemma raw_blocks_join data k n :
  mjoin (raw_blocks data k n) = raw_of <$> samples c endian data (k * chans * octets) (n * chans).
Proof.
  unfold raw_blocks. rewrite blocks_join by (rewrite length_fmap, length_samples; lia).
  apply take_ge. rewrite length_fmap, length_samples. lia.
Qed.

(** The number of blocks in a frame. *)
Definition frame_blocks (L : nat) : nat := (L / octets / chans)%nat.

Lemma frame_blocks_fit L : (frame_blocks L * chans * octets <= L)%nat.
Proof.
  unfold frame_blocks. pose proof octets_pos.
  pose proof (Nat.Div0.mul_div_le (L / octets) chans). pose proof (Nat.Div0.mul_div_le L octets). nia.
Qed.

Definition decoder_reading (d : PcmDecoder.t) (pos : Z) (rest : list block) : Prop :=
  decoder_wf d /\ exists data k n,
    PcmDecoder.frame_data_ d = Some data /\ PcmDecoder.frame_bit_off_ d = (8 * (k * chans * octets))%nat
    /\ PcmDecoder.stream_pos_ d = pos /\ PcmDecoder.stream_avail_ d = Z.of_nat n
    /\ Z.of_nat n < 2 ^ 31 /\ ((k + n) * chans * octets <= length data)%nat
    /\ rest = raw_blocks data k n.

Definition decoder_idle (d : PcmDecoder.t) : Prop :=
  decoder_wf d /\ PcmDecoder.frame_data_ d = None /\ PcmDecoder.frame_bit_off_ d = 0%nat.

Definition decoder_accepts (data : bytes) : Prop := Z.of_nat (length data) < 2 ^ 31.

Definition decode_frame (ts : Z) (data : bytes) : Z * list block :=
  (ts, raw_blocks data 0 (frame_blocks (length data))).

Lemma frame_blocks_small data : decoder_accepts data -> Z.of_nat (frame_blocks (length data)) < 2 ^ 31.
Proof.
  unfold decoder_accepts. pose proof (frame_blocks_fit (length data)). pose proof octets_pos. nia.
Qed.

Lemma decoder_begin_ok d ts data :
  decoder_idle d -> is_u 32 ts -> decoder_accepts data ->
  exists d', PcmDecoder.begin d ts data = Ok d' /\ decoder_reading d' ts (raw_blocks data 0 (frame_blocks (length data))).
Proof.
  intros ((Hm & Hc) & Hd & Ho) Hts Ha. unfold PcmDecoder.begin. rewrite Hd.
  unfold PcmDecoder.decoded_sample_count. rewrite Hm, Hc, input_samples.
  rewrite (proj2 (Nat.eqb_neq chans 0)) by lia. cbn [panic_if res_bind].
  fold (frame_blocks (length data)). pose proof (frame_blocks_small data Ha).
  eexists. split; [done|]. split; [done|]. exists data, 0%nat, (frame_blocks (length data)).
  pose proof (frame_blocks_fit (length data)).
  split_and!; try done. cbn. rewrite wrap_u_small by (unfold is_u; lia). done.
Qed.

Lemma decoder_read_ok d pos rest n :
  decoder_reading d pos rest ->
  let k := Nat.min n (length rest) in
  exists d', PcmDecoder.read host d n = Ok (k, mjoin (take k rest), d')
    /\ decoder_reading d' (u32 (pos + Z.of_nat k)) (drop k rest).
Proof.
  intros ((Hm & Hc) & data & j & m & Hd & Ho & Hp & Ha & Hl & Hfit & ->).
  rewrite length_raw_blocks. cbv zeta. set (k := Nat.min n m). unfold PcmDecoder.read. rewrite Hd, Ha, Nat2Z.id. fold k.
  rewrite Hm, Hc, Ho. rewrite (proj2 (Nat.eqb_neq chans 0)) by lia. cbn [panic_if].
  assert (PcmMapper.map to_raw_mapper data (length data) (8 * (j * chans * octets))
      (replicate (k * chans * sizeof_sample) 0) (k * chans * sizeof_sample) 0 (k * chans)
    = Ok ((k * chans)%nat, (8 * ((j + k) * chans * octets))%nat,
          encode_samples Float32 raw_endian (converted c Float32 <$> samples c endian data (j * chans * octets) (k * chans)),
          (8 * (k * chans * sizeof_sample))%nat)) as ->.
  { destruct (decide (k = 0%nat)) as [->|Hk].
    - rewrite map_to_raw_none by nia. rewrite Nat.add_0_r. done.
    - rewrite map_to_raw by nia. do 4 f_equal. nia. }
  cbn [res_bind]. rewrite Nat.div_mul by lia.
  replace ((8 * (k * chans * sizeof_sample)) mod 8)%nat with 0%nat by (rewrite Nat.mul_comm, Nat.Div0.mod_mul; done).
  cbn [Nat.eqb negb panic_if]. rewrite Nat.ltb_irrefl.
  rewrite samples_at_encode by (by rewrite length_fmap, length_samples).
  rewrite <- list_fmap_compose. fold raw_of.
  rewrite raw_blocks_take, raw_blocks_drop, raw_blocks_join by lia.
  eexists. split; [reflexivity|]. split; [done|]. exists data, (j + k)%nat, (m - k)%nat.
  split_and!; try done; cbn; [by rewrite Hp|rewrite wrap_u_small by (unfold is_u; lia); lia|lia|nia].
Qed.

Lemma decoder_shift_ok d pos rest n :
  decoder_reading d pos rest ->
  let k := Nat.min n (length rest) in
  exists d', PcmDecoder.shift d n = Ok (k, d') /\ decoder_reading d' (u32 (pos + Z.of_nat k)) (drop k rest).
Proof.
  intros ((Hm & Hc) & data & j & m & Hd & Ho & Hp & Ha & Hl & Hfit & ->).
  rewrite length_raw_blocks. cbv zeta. set (k := Nat.min n m). unfold PcmDecoder.shift. rewrite Hd, Ha, Nat2Z.id. fold k.
  eexists. split; [reflexivity|]. split; [done|]. exists data, (j + k)%nat, (m - k)%nat.
  rewrite raw_blocks_drop by lia.
  split_and!; try done; cbn; [|by rewrite Hp|rewrite wrap_u_small by (unfold is_u; lia); lia|lia|nia].
  rewrite Ho, Hm, Hc. unfold PcmMapper.input_bit_count, PcmMapper.input_bit_width.
  cbn [PcmMapper.input_traits_ to_raw_mapper pcm_format_traits t_bit_width]. rewrite width_octets. nia.
Qed.

#[export] Instance pcm_decoder_contract : @FrameDecoder PcmDecoder.t (PcmDecoder.decoder host) chans.
Proof.
  refine (@Build_FrameDecoder PcmDecoder.t (PcmDecoder.decoder host) chans decoder_idle decoder_reading
    decoder_accepts decode_frame _ _ _ _ _ _).
  - intros ts data Hts Ha. cbn [decode_frame fst snd]. rewrite length_raw_blocks.
    split_and!; [done|by apply frame_blocks_small|].
    apply blocks_Forall. rewrite length_fmap, length_samples. done.
  - intros d ts data Hi Hts Ha. by apply decoder_begin_ok.
  - intros d pos rest (_ & data & k & n & _ & _ & Hp & Ha & _ & _ & ->). rewrite length_raw_blocks. done.
  - intros d pos rest n H. by apply decoder_read_ok.
  - intros d pos rest n H. by apply decoder_shift_ok.
  - intros d pos rest (Hw & data & k & n & Hd & _). cbn. unfold PcmDecoder.end_. rewrite Hd. by eexists.
Defined.

(** ** The encoder *)

(** A raw sample in the format. *)
Definition of_raw (x : Frame.sample_t) : Z := converted Float32 c x.

(** A sample that is no NaN when the format has integers. *)
Definition raw_encodable (x : Frame.sample_t) : Prop :=
  is_u 32 x /\ convert Float32 c x = Ok (of_raw x).

Definition encode_frame (xs : list Frame.sample_t) : bytes := encode_samples c endian (of_raw <$> xs).

Lemma length_encode_frame xs : length (encode_frame xs) = (length xs * octets)%nat.
Proof. unfold encode_frame. by rewrite length_encode_samples, length_fmap. Qed.

Lemma encode_frame_app xs ys : encode_frame (xs ++ ys) = encode_frame xs ++ encode_frame ys.
Proof. unfold encode_frame, encode_samples. by rewrite !fmap_app, join_app. Qed.

Lemma canonical_raw xs : Forall raw_encodable xs -> canonical Float32 <$> xs = xs.
Proof.
  intros H. rewrite <- (list_fmap_id xs) at 2. apply list_fmap_ext. intros j x Hx. change (canonical Float32 x = x).
  apply canonical_small. exact (proj1 (Forall_lookup_1 _ _ _ _ H Hx)).
Qed.

Lemma map_from_raw xs frame k :
  Forall raw_encodable xs -> (k + length xs * octets <= length frame)%nat -> xs <> [] ->
  PcmMapper.map from_raw_mapper (sample_bytes host xs) (length xs * sizeof_sample) 0 frame (length frame) (8 * k) (length xs)
  = Ok (length xs, (8 * (length xs * sizeof_sample))%nat, overwrite frame k (encode_frame xs),
        (8 * (k + length xs * octets))%nat).
Proof.
  intros Hx Hk Hne. assert (0 < length xs)%nat as Hn by (destruct xs; [done|cbn; lia]).
  unfold PcmMapper.map, panic_if. pose proof octets_pos.
  rewrite (proj2 (Nat.ltb_ge (length frame * 8) _)) by nia. cbn [Nat.ltb Nat.leb].
  unfold PcmMapper.input_bit_width, PcmMapper.output_bit_width.
  cbn [PcmMapper.input_traits_ PcmMapper.output_traits_ from_raw_mapper pcm_format_traits t_bit_width].
  rewrite width_octets. change (Z.to_nat (t_bit_width (pcm_format_traits host SampleSpec.Sample_RawFormat))) with 32%nat.
  rewrite (Nat.min_l (length xs)) by (apply Nat.div_le_lower_bound; unfold sizeof_sample; nia).
  rewrite (Nat.min_l (length xs)) by (apply Nat.div_le_lower_bound; nia).
  rewrite (proj2 (Nat.eqb_neq (length xs) 0)) by lia.
  pose proof (samples_whole Float32 raw_endian xs eq_refl) as Hs. rewrite canonical_raw in Hs by done.
  pose proof (pcm_map_ok Float32 raw_endian c endian of_raw (sample_bytes host xs) 0 frame k (length xs)) as E.
  change (8 * 0)%nat with 0%nat in E. change (packed_octets Float32) with sizeof_sample in E.
  cbn [PcmMapper.map_func_ from_raw_mapper]. rewrite sample_bytes_eq in *. rewrite Hs in E.
  rewrite E; try done.
  - rewrite length_encode_samples. done.
  - eapply Forall_impl; [exact Hx|]. by intros x [_ ?].
Qed.

Definition encoder_wf (e' : PcmEncoder.t) : Prop :=
  PcmEncoder.pcm_mapper_ e' = from_raw_mapper /\ PcmEncoder.n_chans_ e' = chans.

Definition encoder_ready (e' : PcmEncoder.t) : Prop :=
  encoder_wf e' /\ PcmEncoder.frame_data_ e' = false /\ PcmEncoder.frame_bit_off_ e' = 0%nat.

Definition encoder_writing (e' : PcmEncoder.t) (size : nat) (xs : list Frame.sample_t) : Prop :=
  encoder_wf e' /\ PcmEncoder.frame_data_ e' = true /\ PcmEncoder.frame_byte_size_ e' = size
  /\ PcmEncoder.frame_bit_off_ e' = (8 * (length xs * octets))%nat.

Definition frame_size (n : nat) : nat := (n * chans * octets)%nat.

Lemma encoder_count e' n : encoder_wf e' -> PcmEncoder.encoded_byte_count e' n = frame_size n.
Proof.
  intros [Hm Hc]. unfold PcmEncoder.encoded_byte_count, PcmMapper.output_byte_count, PcmMapper.output_bit_width.
  rewrite Hm, Hc. cbn [PcmMapper.output_traits_ from_raw_mapper pcm_format_traits t_bit_width].
  rewrite width_octets. unfold frame_size.
  replace (n * chans * (8 * octets) + 7)%nat with (n * chans * octets * 8 + 7)%nat by lia.
  rewrite Nat.div_add_l by done. change (7 / 8)%nat with 0%nat. lia.
Qed.

Lemma encoder_write_ok' e' size xs ys frame m n :
  encoder_writing e' size xs -> length frame = size -> length xs = (m * chans)%nat ->
  length ys = (n * chans)%nat -> (frame_size (m + n) <= size)%nat -> Forall raw_encodable ys ->
  take (frame_size m) frame = encode_frame xs ->
  exists e'' frame', PcmEncoder.write host e' frame ys n = Ok (n, frame', e'')
    /\ encoder_writing e'' size (xs ++ ys) /\ length frame' = size
    /\ take (frame_size (m + n)) frame' = encode_frame (xs ++ ys).
Proof.
  intros ((Hm & Hc) & Hd & Hs & Ho) Hf Hx Hy Hsize Hys Htake. unfold frame_size in *.
  unfold PcmEncoder.write. rewrite Hd, Hm, Hc, Hs, Ho. rewrite (proj2 (Nat.eqb_neq chans 0)) by lia.
  cbn [negb panic_if].
  pose proof (length_encode_frame ys) as Hle.
  assert (PcmMapper.map from_raw_mapper (sample_bytes host ys) (n * chans * sizeof_sample) 0 frame size
      (8 * (length xs * octets)) (n * chans)
    = Ok ((n * chans)%nat, (8 * (n * chans * sizeof_sample))%nat,
          overwrite frame (length xs * octets) (encode_frame ys), (8 * (length xs * octets + n * chans * octets))%nat)) as ->.
  { rewrite <- Hy, <- Hf. destruct (decide (ys = [])) as [->|Hne].
    - change (encode_frame []) with ([] : bytes). rewrite overwrite_nil.
      change (length ([] : list Frame.sample_t)) with 0%nat. rewrite !Nat.mul_0_l, Nat.add_0_r.
      unfold PcmMapper.map, panic_if. rewrite (proj2 (Nat.ltb_ge (length frame * 8) _)); [done|].
      rewrite Hx, Hf. etransitivity; [|apply Nat.mul_le_mono_r, Hsize]. nia.
    - rewrite map_from_raw; [done|done| |done]. rewrite Hx, Hy, Hf. etransitivity; [|exact Hsize]. nia. }
  cbn [res_bind]. rewrite Nat.div_mul by lia.
  replace ((8 * (n * chans * sizeof_sample)) mod 8)%nat with 0%nat by (rewrite Nat.mul_comm, Nat.Div0.mod_mul; done).
  cbn [Nat.eqb negb]. rewrite Nat.ltb_irrefl.
  eexists _, _. split; [reflexivity|]. split; [|split].
  - split; [done|]. split_and!; try done. cbn. rewrite length_app, Hy. nia.
  - rewrite length_overwrite; [done|]. rewrite Hle. nia.
  - rewrite encode_frame_app, <- Htake. unfold overwrite. rewrite app_assoc.
    rewrite take_app_le.
    + rewrite take_ge; [by rewrite Hx|]. rewrite length_app, length_take, Hle. nia.
    + rewrite length_app, length_take, Hle. nia.
Qed.

#[export] Instance pcm_encoder_contract : @FrameEncoder PcmEncoder.t (PcmEncoder.encoder host) chans.
Proof.
  refine (@Build_FrameEncoder PcmEncoder.t (PcmEncoder.encoder host) chans encoder_ready encoder_writing
    raw_encodable encode_frame frame_size _ _ _ _ _ _ _ _).
  - done.
  - intros n m Hn. unfold frame_size. by do 2 apply Nat.mul_le_mono_r.
  - intros xs n Hl. rewrite length_encode_frame, Hl. done.
  - intros e' n [Hw _]. by apply encoder_count.
  - intros e' size xs n [Hw _]. by apply encoder_count.
  - intros e' size (Hw & Hd & Ho). cbn. unfold PcmEncoder.begin. rewrite Hd. eexists. split; [done|].
    split; [done|]. done.
  - intros e' size xs ys frame m n. apply encoder_write_ok'.
  - intros e' size xs (Hw & Hd & _). cbn. unfold PcmEncoder.end_. rewrite Hd. by eexists.
Defined.

(** ** Encoding and decoding *)

(** What is left of a raw sample after the format. *)
Definition requantized (x : Frame.sample_t) : Frame.sample_t := raw_of (canonical c (of_raw x)).

Lemma decode_encode_frame ts xs n :
  length xs = (n * chans)%nat -> decode_frame ts (encode_frame xs) = (ts, blocks chans n (requantized <$> xs)).
Proof.
  intros Hl. unfold decode_frame, raw_blocks, frame_blocks. rewrite length_encode_frame, Hl.
  pose proof octets_pos. rewrite Nat.div_mul by lia. rewrite Nat.div_mul by lia. do 2 f_equal.
  pose proof (samples_whole c endian (of_raw <$> xs) aligned) as Hs. rewrite length_fmap, Hl in Hs.
  unfold encode_frame. cbn [Nat.mul]. rewrite Hs, <- !list_fmap_compose. done.
Qed.

Lemma make_decoder_idle sample_spec :
  SampleSpec.pcm_format sample_spec = Format c e -> SampleSpec.num_channels sample_spec = chans ->
  exists d, PcmDecoder.make host sample_spec = Ok d /\ decoder_idle d.
Proof. intros Hf Hc. unfold PcmDecoder.make. rewrite Hf, Hc, to_raw_make. by eexists. Qed.

Lemma make_encoder_ready sample_spec :
  SampleSpec.pcm_format sample_spec = Format c e -> SampleSpec.num_channels sample_spec = chans ->
  exists e', PcmEncoder.make host sample_spec = Ok e' /\ encoder_ready e'.
Proof. intros Hf Hc. unfold PcmEncoder.make. rewrite Hf, Hc, from_raw_make. by eexists. Qed.

End Codec.

(** * An example *)

(** Two channels at 1000 samples per second: raw samples, and 16 bits on the network. *)
Definition stereo : ChannelSet.t :=
  ChannelSet.mk (17 :: replicate 15 0) 2 0 4 ChannelSet.ChanLayout_Surround ChannelSet.ChanOrder_Smpte.

Definition raw_stereo : SampleSpec.t :=
  SampleSpec.mk 1000 SampleSpec.SampleFormat_Pcm SampleSpec.Sample_RawFormat 32 stereo.

Definition net_stereo : SampleSpec.t :=
  SampleSpec.mk 1000 SampleSpec.SampleFormat_Pcm (Format SInt16 Big) 16 stereo.

Lemma stereo_pos : (0 < SampleSpec.num_channels raw_stereo)%nat.
Proof. cbv. lia. Qed.

(** The codecs of a little-endian machine. *)
Definition le_mapper_to_raw : PcmMapper.t := to_raw_mapper CPU_LE SInt16 Big.

Definition le_decoder : PcmDecoder.t := PcmDecoder.mk le_mapper_to_raw 2 0 0 None 0.

Definition le_encoder : PcmEncoder.t := PcmEncoder.mk (from_raw_mapper CPU_LE SInt16 Big) 2 false 0 0.
