(* ===== verification/Depacketizer.v ===== *)
(** The depacketizer (src/internal_modules/roc_audio/depacketizer.cpp, depacketizer.h): makes
    a continuous stream of samples of the packets it reads, placing each at its position in
    the stream, filling gaps and dropping what comes too late.

    The buffer of a frame is a list and a pointer into it is an index; writing outside is
    [Panic].  Sums and differences of capture timestamps wrap.  The loops that fetch packets
    and that fill the frame take fuel and return [Panic] without it.  Statistics that are
    only logged are kept, the logging is left out. *)

From S2P Require Import Prelude Units Bytes Slice Packet Io ChannelSet SampleSpec Frame.

#[local] Open Scope Z_scope.

Module Depacketizer.

Section Depacketizer.

Context {R D : Type} `{IReader R} `{IFrameDecoder D}.

(** Fixed at construction; [beep_sample] is the [n]-th sample of a beep. *)
Context (spec : SampleSpec.t) (beep_ : bool) (beep_sample : nat -> Frame.sample_t).

Definition num_channels : nat := SampleSpec.num_channels spec.

(** * State *)

Record t : Type := mk {
  reader_ : R;
  payload_decoder_ : D;
  packet_ : PacketPtr;
  stream_ts_ : Z;             (* uint32_t *)
  next_capture_ts_ : Z;       (* int64_t *)
  valid_capture_ts_ : bool;
  zero_samples_ : Z;          (* uint32_t *)
  missing_samples_ : Z;       (* uint32_t *)
  packet_samples_ : Z;        (* uint32_t *)
  first_packet_ : bool;
  valid_ : bool
}.

Definition set_reader (x : R) (d : t) : t :=
  mk x (payload_decoder_ d) (packet_ d) (stream_ts_ d) (next_capture_ts_ d) (valid_capture_ts_ d)
    (zero_samples_ d) (missing_samples_ d) (packet_samples_ d) (first_packet_ d) (valid_ d).

Definition set_decoder (x : D) (d : t) : t :=
  mk (reader_ d) x (packet_ d) (stream_ts_ d) (next_capture_ts_ d) (valid_capture_ts_ d)
    (zero_samples_ d) (missing_samples_ d) (packet_samples_ d) (first_packet_ d) (valid_ d).

Definition set_packet (x : PacketPtr) (d : t) : t :=
  mk (reader_ d) (payload_decoder_ d) x (stream_ts_ d) (next_capture_ts_ d) (valid_capture_ts_ d)
    (zero_samples_ d) (missing_samples_ d) (packet_samples_ d) (first_packet_ d) (valid_ d).

Definition set_stream_ts (x : Z) (d : t) : t :=
  mk (reader_ d) (payload_decoder_ d) (packet_ d) x (next_capture_ts_ d) (valid_capture_ts_ d)
    (zero_samples_ d) (missing_samples_ d) (packet_samples_ d) (first_packet_ d) (valid_ d).

Definition set_capture (next : Z) (valid : bool) (d : t) : t :=
  mk (reader_ d) (payload_decoder_ d) (packet_ d) (stream_ts_ d) next valid
    (zero_samples_ d) (missing_samples_ d) (packet_samples_ d) (first_packet_ d) (valid_ d).

Definition set_counters (zero missing packet : Z) (d : t) : t :=
  mk (reader_ d) (payload_decoder_ d) (packet_ d) (stream_ts_ d) (next_capture_ts_ d)
    (valid_capture_ts_ d) zero missing packet (first_packet_ d) (valid_ d).

Definition set_first_packet (x : bool) (d : t) : t :=
  mk (reader_ d) (payload_decoder_ d) (packet_ d) (stream_ts_ d) (next_capture_ts_ d)
    (valid_capture_ts_ d) (zero_samples_ d) (missing_samples_ d) (packet_samples_ d) x (valid_ d).

Record FrameInfo : Type := mkInfo {
  n_decoded_samples : nat;
  n_filled_samples : nat;
  n_dropped_packets : nat;
  capture_ts : Z
}.

Definition info_empty : FrameInfo := mkInfo 0 0 0 0.

Definition info_decoded (n : nat) (i : FrameInfo) : FrameInfo :=
  mkInfo (n_decoded_samples i + n) (n_filled_samples i) (n_dropped_packets i) (capture_ts i).

Definition info_filled (n : nat) (i : FrameInfo) : FrameInfo :=
  mkInfo (n_decoded_samples i) (n_filled_samples i + n) (n_dropped_packets i) (capture_ts i).

Definition info_dropped (n : nat) (i : FrameInfo) : FrameInfo :=
  mkInfo (n_decoded_samples i) (n_filled_samples i) (n_dropped_packets i + n) (capture_ts i).

Definition info_capture (ts : Z) (i : FrameInfo) : FrameInfo :=
  mkInfo (n_decoded_samples i) (n_filled_samples i) (n_dropped_packets i) ts.

(** Constructor. *)
Definition make (reader : R) (decoder : D) : res t :=
  panic_if (negb (SampleSpec.is_valid spec) || negb (SampleSpec.is_raw spec))
    (Ok (mk reader decoder None 0 0 false 0 0 0 true true)).

Definition is_started (d : t) : bool := negb (first_packet_ d).

Definition next_timestamp (d : t) : Z := if first_packet_ d then 0 else stream_ts_ d.

(** * Packets *)

(** [read_packet_] *)
Definition next_packet_ (d : t) : res (PacketPtr * t) :=
  let* '(code, pp, r) := read (reader_ d) in
  let d := set_reader r d in
  match code with
  | StatusOK => Ok (pp, d)
  | _ => Ok (None, d)
  end.

(** The bytes from [payload().data()]. *)
Definition payload_data (p : Packet) : res bytes :=
  let* payload := packet_payload p in
  let* data := slice_data payload in
  Ok (slice_of (pkt_mem p) data (sl_size payload)).

(** The loop of [update_packet_]; returns the position of the packet that it keeps and the
    number of packets that it drops. *)
Fixpoint fetch_packet_ (fuel : nat) (n_dropped : nat) (d : t) : res (Z * nat * t) :=
  match fuel with
  | O => Panic
  | S fuel =>
      let* '(pp, d) := next_packet_ d in
      let d := set_packet pp d in
      match pp with
      | None => Ok (0, n_dropped, d)
      | Some p =>
          let* data := payload_data p in
          let* dec := decoder_begin (payload_decoder_ d) (packet_stream_timestamp p) data in
          let d := set_decoder dec d in
          let pkt_timestamp := decoder_position dec in
          if first_packet_ d then Ok (pkt_timestamp, n_dropped, d)
          else
            let pkt_end := u32 (pkt_timestamp + decoder_available dec) in
            if stream_timestamp_lt (stream_ts_ d) pkt_end then Ok (pkt_timestamp, n_dropped, d)
            else
              let* dec := decoder_end dec in
              fetch_packet_ fuel (S n_dropped) (set_decoder dec d)
      end
  end.

(** [update_packet_] after the loop, with a packet. *)
Definition start_packet_ (pkt_timestamp : Z) (p : Packet) (d : t) : res t :=
  let next := packet_capture_timestamp p in
  let d := set_capture next (valid_capture_ts_ d || negb (next =? 0)) d in
  let d := if first_packet_ d then set_first_packet false (set_stream_ts pkt_timestamp d) else d in
  if stream_timestamp_lt pkt_timestamp (stream_ts_ d) then
    let diff_samples := stream_timestamp_diff (stream_ts_ d) pkt_timestamp in
    panic_if (diff_samples <? 0)
      (let* d :=
         if valid_capture_ts_ d then
           let* ns := SampleSpec.samples_per_chan_2_ns diff_samples spec in
           Ok (set_capture (s64 (next_capture_ts_ d + ns)) true d)
         else Ok d in
       let* '(n, dec) := decoder_shift (payload_decoder_ d) (Z.to_nat diff_samples) in
       panic_if (negb (n =? Z.to_nat diff_samples)%nat) (Ok (set_decoder dec d)))
  else Ok d.

Definition update_packet_ (fuel : nat) (info : FrameInfo) (d : t) : res (FrameInfo * t) :=
  match packet_ d with
  | Some _ => Ok (info, d)
  | None =>
      let* '(pkt_timestamp, n_dropped, d) := fetch_packet_ fuel 0 d in
      let info := info_dropped n_dropped info in
      match packet_ d with
      | None => Ok (info, d)
      | Some p => let* d := start_packet_ pkt_timestamp p d in Ok (info, d)
      end
  end.

(** * Samples *)

Definition write_samples (ptr : nat) (xs buf : list Frame.sample_t) : res (list Frame.sample_t) :=
  panic_if (length buf <? ptr + length xs)%nat (Ok (overwrite buf ptr xs)).

(** [write_beep] and [write_zeros]. *)
Definition missing (n : nat) : list Frame.sample_t :=
  if beep_ then beep_sample <$> seq 0 n else replicate n 0.

Definition read_missing_samples_ (ptr end_ : nat) (buf : list Frame.sample_t) (d : t)
    : res (nat * list Frame.sample_t * t) :=
  let num_samples := ((end_ - ptr) / num_channels)%nat in
  let n := Z.of_nat num_samples in
  let* buf := write_samples ptr (missing (num_samples * num_channels)) buf in
  let d := set_stream_ts (u32 (stream_ts_ d + n)) d in
  let d :=
    if first_packet_ d
    then set_counters (u32 (zero_samples_ d + n)) (missing_samples_ d) (packet_samples_ d) d
    else set_counters (zero_samples_ d) (u32 (missing_samples_ d + n)) (packet_samples_ d) d in
  Ok (ptr + num_samples * num_channels, buf, d)%nat.

Definition read_packet_samples_ (ptr end_ : nat) (buf : list Frame.sample_t) (d : t)
    : res (nat * list Frame.sample_t * t) :=
  let requested_samples := ((end_ - ptr) / num_channels)%nat in
  let* '(decoded_samples, xs, dec) := decoder_read (payload_decoder_ d) requested_samples in
  let* buf := write_samples ptr xs buf in
  let n := Z.of_nat decoded_samples in
  let d := set_stream_ts (u32 (stream_ts_ d + n)) (set_decoder dec d) in
  let d := set_counters (zero_samples_ d) (missing_samples_ d) (u32 (packet_samples_ d + n)) d in
  let* d :=
    if (decoded_samples <? requested_samples)%nat then
      let* dec := decoder_end (payload_decoder_ d) in
      Ok (set_packet None (set_decoder dec d))
    else Ok d in
  Ok (ptr + decoded_samples * num_channels, buf, d)%nat.

(** Setting the capture timestamp of the frame when it is not known yet. *)
Definition mark_capture (cond : bool) (info : FrameInfo) (d : t) : res FrameInfo :=
  if cond && (capture_ts info =? 0) && valid_capture_ts_ d then
    let* ns := SampleSpec.samples_overall_2_ns (Z.of_nat (n_filled_samples info)) spec in
    Ok (info_capture (s64 (next_capture_ts_ d - ns)) info)
  else Ok info.

Definition advance_capture (n : nat) (d : t) : res t :=
  if valid_capture_ts_ d then
    let* ns := SampleSpec.samples_overall_2_ns (Z.of_nat n) spec in
    Ok (set_capture (s64 (next_capture_ts_ d + ns)) true d)
  else Ok d.

(** The part of [read_samples_] before the next packet. *)
Definition read_gap_ (ptr end_ : nat) (buf : list Frame.sample_t) (info : FrameInfo) (d : t)
    : res (nat * list Frame.sample_t * FrameInfo * t) :=
  let next_timestamp := decoder_position (payload_decoder_ d) in
  if stream_ts_ d =? next_timestamp then Ok (ptr, buf, info, d)
  else
    panic_if (negb (stream_timestamp_lt (stream_ts_ d) next_timestamp))
      (let mis_samples := (num_channels
         * Z.to_nat (stream_timestamp_diff next_timestamp (stream_ts_ d)))%nat in
       let n_samples := Nat.min mis_samples (end_ - ptr) in
       let* '(ptr, buf, d) := read_missing_samples_ ptr (ptr + n_samples) buf d in
       let info := info_filled n_samples info in
       let* info := mark_capture true info d in
       Ok (ptr, buf, info, d)).

(** The part of [read_samples_] with the samples of the packet. *)
Definition play_packet_ (ptr end_ : nat) (buf : list Frame.sample_t) (info : FrameInfo) (d : t)
    : res (nat * list Frame.sample_t * FrameInfo * t) :=
  if (ptr <? end_)%nat then
    let* '(new_ptr, buf, d) := read_packet_samples_ ptr end_ buf d in
    let n_samples := (new_ptr - ptr)%nat in
    let info := info_decoded n_samples info in
    let* info := mark_capture (negb (n_samples =? 0)%nat) info d in
    let* d := advance_capture n_samples d in
    Ok (new_ptr, buf, info_filled n_samples info, d)
  else Ok (ptr, buf, info, d).

Definition read_samples_ (fuel ptr end_ : nat) (buf : list Frame.sample_t) (info : FrameInfo) (d : t)
    : res (nat * list Frame.sample_t * FrameInfo * t) :=
  let* '(info, d) := update_packet_ fuel info d in
  match packet_ d with
  | Some _ =>
      let* '(ptr, buf, info, d) := read_gap_ ptr end_ buf info d in
      play_packet_ ptr end_ buf info d
  | None =>
      let n_samples := (end_ - ptr)%nat in
      let* info := mark_capture true info d in
      let* d := advance_capture n_samples d in
      let info := info_filled n_samples info in
      let* '(ptr, buf, d) := read_missing_samples_ ptr end_ buf d in
      Ok (ptr, buf, info, d)
  end.

(** The loop of [read_frame_]. *)
Fixpoint read_loop_ (fuel fetch_fuel ptr end_ : nat) (buf : list Frame.sample_t) (info : FrameInfo) (d : t)
    : res (nat * list Frame.sample_t * FrameInfo * t) :=
  if (end_ <=? ptr)%nat then Ok (ptr, buf, info, d)
  else
    match fuel with
    | O => Panic
    | S fuel =>
        let* '(ptr, buf, info, d) := read_samples_ fetch_fuel ptr end_ buf info d in
        read_loop_ fuel fetch_fuel ptr end_ buf info d
    end.

Definition set_frame_props_ (frame : Frame.t) (info : FrameInfo) : res Frame.t :=
  let* n := Frame.num_raw_samples frame in
  let flags := 0 in
  let flags := if negb (n_decoded_samples info =? 0)%nat then Z.lor flags Frame.FlagNotBlank else flags in
  let flags := if (n_decoded_samples info <? n)%nat then Z.lor flags Frame.FlagNotComplete else flags in
  let flags := if negb (n_dropped_packets info =? 0)%nat then Z.lor flags Frame.FlagPacketDrops else flags in
  let frame := Frame.set_flags flags frame in
  let* frame := Frame.set_duration (u32 (Z.of_nat (n / num_channels))) frame in
  if 0 <? capture_ts info then Frame.set_capture_timestamp (capture_ts info) frame else Ok frame.

Definition read_frame_ (fuel : nat) (frame : Frame.t) (d : t) : res (Frame.t * t) :=
  let* buf := Frame.raw_samples frame in
  let* n := Frame.num_raw_samples frame in
  panic_if (negb (n mod num_channels =? 0)%nat)
    (let* '(ptr, buf, info, d) := read_loop_ fuel fuel 0 n buf info_empty d in
     panic_if (negb (ptr =? n)%nat)
       (let* frame := set_frame_props_ (Frame.set_samples buf frame) info in
        Ok (frame, d))).

(** [read]; it always returns true. *)
Definition read (fuel : nat) (frame : Frame.t) (d : t) : res (Frame.t * t) := read_frame_ fuel frame d.

End Depacketizer.

Arguments t : clear implicits.

End Depacketizer.
