(* ===== verification/DepacketizerStream.v ===== *)
(** What the depacketizer promises: the frames that are read play the packets at their
    positions in the stream, whatever the sizes of the frames and whenever packets arrive. *)

From S2P Require Import Prelude Units Bytes Slice Packet Io ChannelSet PcmFormat SampleSpec Frame PcmCodec PcmCodecOk Depacketizer.

#[local] Open Scope Z_scope.

(** * The stream *)

(** What is to be played: the position of the next block and the packets as positions with
    blocks. *)
Record stream : Type := mkStream {
  started : bool;
  at_ : Z;
  pending : list (Z * list block)
}.

Definition stream_start : stream := mkStream false 0 [].

(** A packet that ends at or before a position. *)
Definition late (ts : Z) (x : Z * list block) : bool :=
  negb (stream_timestamp_lt ts (u32 (x.1 + Z.of_nat (length x.2)))).

Fixpoint drop_late (ts : Z) (l : list (Z * list block)) : list (Z * list block) :=
  match l with
  | [] => []
  | x :: l' => if late ts x then drop_late ts l' else l
  end.

(** The next block, or [None] where there is none.  The stream starts at the first packet;
    from then on packets that are late are skipped, and so are the blocks of a packet before
    the position; before the start of a packet there is a gap. *)
Definition play1 (s : stream) : option block * stream :=
  let ts := match started s, pending s with false, (pos, _) :: _ => pos | _, _ => at_ s end in
  let st := match pending s with [] => started s | _ => true end in
  let next := u32 (ts + 1) in
  match drop_late ts (pending s) with
  | [] => (None, mkStream st next [])
  | (pos, blocks) :: l =>
      if stream_timestamp_lt ts pos then (None, mkStream st next ((pos, blocks) :: l))
      else
        match drop (Z.to_nat (stream_timestamp_diff ts pos)) blocks with
        | [] => (None, mkStream st next l)
        | b :: rest => (Some b, mkStream st next ((next, rest) :: l))
        end
  end.

Fixpoint play (n : nat) (s : stream) : list (option block) * stream :=
  match n with
  | O => ([], s)
  | S n => let '(o, s) := play1 s in let '(os, s) := play n s in (o :: os, s)
  end.

(** The packets that are skipped at the next block because they are late.  What is left of
    a packet that was played to its end is not one of them. *)
Fixpoint skipped (ts : Z) (l : list (Z * list block)) : nat :=
  match l with
  | [] => 0
  | x :: l' =>
      if late ts x then ((if decide (x.2 = []) then 0 else 1) + skipped ts l')%nat else 0
  end.

Definition skips1 (s : stream) : nat :=
  if started s then skipped (at_ s) (pending s) else 0.

(** The packets that are skipped during the next [n] blocks. *)
Fixpoint skips (n : nat) (s : stream) : nat :=
  match n with
  | O => 0
  | S n => (skips1 s + skips n (play1 s).2)%nat
  end.

Lemma skips_app n m s : skips (n + m) s = (skips n s + skips m (play n s).2)%nat.
Proof.
  revert s. induction n as [|n IH]; intros s; [done|]. cbn [Nat.add skips play].
  destruct (play1 s) as [o s1]. cbn [snd]. rewrite IH. destruct (play n s1). cbn [snd]. lia.
Qed.

Lemma play_app n m s :
  play (n + m) s = let '(os, s) := play n s in let '(os', s) := play m s in (os ++ os', s).
Proof.
  revert s. induction n as [|n IH]; intros s; cbn [Nat.add play]; [by destruct (play m s)|].
  destruct (play1 s) as [o s1]. rewrite IH. destruct (play n s1) as [os s2].
  by destruct (play m s2) as [os' s3].
Qed.

Lemma length_play n s : length (play n s).1 = n.
Proof.
  revert s. induction n as [|n IH]; intros s; [done|]. cbn [play].
  destruct (play1 s) as [o s1]. specialize (IH s1). destruct (play n s1). cbn in *. lia.
Qed.

(** ** Timestamps *)

Lemma sts_diff_add a d : - 2 ^ 31 <= d < 2 ^ 31 -> stream_timestamp_diff (u32 (a + d)) a = d.
Proof.
  intros Hd. unfold stream_timestamp_diff. rewrite <- (wrap_s_add_wrap 32 a d) at 2 by (done || exact Hd).
  apply wrap_s_of_cong; [done|]. apply wrap_u_cong.
Qed.

Lemma u32_add a b c : u32 (u32 (a + b) + c) = u32 (a + (b + c)).
Proof. unfold wrap_u. rewrite Zplus_mod_idemp_l. f_equal. lia. Qed.

(** The distance between two timestamps. *)
Lemma sts_diff_cases a b :
  is_u 32 a -> is_u 32 b ->
  exists d, stream_timestamp_diff b a = d /\ - 2 ^ 31 <= d < 2 ^ 31 /\ b = u32 (a + d).
Proof.
  intros Ha Hb. exists (stream_timestamp_diff b a). split; [done|].
  pose proof (wrap_s_range 32 (u32 (b - a)) ltac:(done)) as Hr. split; [exact Hr|].
  unfold stream_timestamp_diff. destruct (wrap_s_multiple 32 (u32 (b - a))) as [k ->]; [done|].
  unfold wrap_u. rewrite Z.add_assoc, Z.mod_add by done. rewrite Zplus_mod_idemp_r.
  replace (a + (b - a)) with b by lia. symmetry. by apply Z.mod_small.
Qed.

Lemma sts_lt_add a d : - 2 ^ 31 <= d < 2 ^ 31 -> stream_timestamp_lt (u32 (a + d)) a = (d <? 0).
Proof. intros Hd. unfold stream_timestamp_lt. by rewrite sts_diff_add. Qed.

Lemma sts_diff_sub a d : - 2 ^ 31 < d < 2 ^ 31 -> stream_timestamp_diff a (u32 (a + d)) = - d.
Proof.
  intros Hd. unfold stream_timestamp_diff.
  rewrite <- (wrap_s_small 32 (- d)) by (unfold is_s; lia). apply wrap_s_of_cong; [done|].
  unfold wrap_u. rewrite Zmod_mod, Zminus_mod_idemp_r. f_equal. lia.
Qed.

Lemma sts_lt_sub a d : - 2 ^ 31 < d < 2 ^ 31 -> stream_timestamp_lt a (u32 (a + d)) = (0 <? d).
Proof. intros Hd. unfold stream_timestamp_lt. rewrite sts_diff_sub by done. lia. Qed.

(** ** Packets in the stream *)

Definition entry_ok (x : Z * list block) : Prop := is_u 32 x.1 /\ Z.of_nat (length x.2) < 2 ^ 31.

(** Whether a packet is late, with its distance from the position. *)
Lemma late_cases ts pos (blocks : list block) :
  is_u 32 ts -> entry_ok (pos, blocks) -> blocks <> [] ->
  exists d, pos = u32 (ts + d) /\ - 2 ^ 31 <= d < 2 ^ 31
    /\ (late ts (pos, blocks) = false -> 0 < d + Z.of_nat (length blocks) <= 2 ^ 31).
Proof.
  intros Hts [Hpos Hl] Hne. cbn in *. destruct (sts_diff_cases ts pos Hts Hpos) as (d & _ & Hd & ->).
  exists d. split_and!; [done|lia|lia|].
  assert (0 < length blocks)%nat by (destruct blocks; [done|cbn; lia]).
  unfold late. cbn [fst snd]. rewrite u32_add. intros Hn. apply negb_false_iff in Hn.
  unfold stream_timestamp_lt in Hn. apply Z.ltb_lt in Hn.
  set (x := d + Z.of_nat (length blocks)) in *.
  destruct (Z_lt_le_dec x (2 ^ 31)) as [Hx|Hx]; [rewrite sts_diff_sub in Hn by lia; lia|].
  destruct (Z.eq_dec x (2 ^ 31)) as [E|E]; [lia|]. exfalso.
  assert (stream_timestamp_diff ts (u32 (ts + x)) = 2 ^ 32 - x) as Hx'; [|lia].
  unfold stream_timestamp_diff. apply wrap_s_unique with 0; [done|unfold is_s; lia|].
  unfold wrap_u. rewrite Zminus_mod_idemp_r. replace (ts - (ts + x)) with (2 ^ 32 - x + (-1) * 2 ^ 32) by lia.
  rewrite Z.mod_add by done. rewrite Z.mod_small; lia.
Qed.

Lemma late_not ts d (blocks : list block) :
  0 < d + Z.of_nat (length blocks) <= 2 ^ 31 -> late ts (u32 (ts + d), blocks) = false.
Proof.
  intros Hx. unfold late. cbn [fst snd]. rewrite u32_add. apply negb_false_iff.
  set (x := d + Z.of_nat (length blocks)) in *. unfold stream_timestamp_lt. apply Z.ltb_lt.
  destruct (Z.eq_dec x (2 ^ 31)) as [->|E]; [|rewrite sts_diff_sub; lia].
  unfold stream_timestamp_diff, wrap_u. rewrite Zminus_mod_idemp_r.
  replace (ts - (ts + 2 ^ 31)) with (- 2 ^ 31) by lia. done.
Qed.

Lemma late_end ts : late ts (ts, []) = true.
Proof.
  unfold late. cbn [fst snd length]. unfold stream_timestamp_lt, stream_timestamp_diff, wrap_u.
  rewrite Zminus_mod_idemp_r. replace (ts - (ts + Z.of_nat 0)) with 0 by lia. done.
Qed.

(** ** Stretches of the stream *)

(** Before the start of the next packet. *)
Lemma play_gap n ts d blocks l :
  Z.of_nat n <= d < 2 ^ 31 -> d + Z.of_nat (length blocks) <= 2 ^ 31 ->
  play n (mkStream true ts ((u32 (ts + d), blocks) :: l))
  = (replicate n None, mkStream true (if decide (n = 0%nat) then ts else u32 (ts + Z.of_nat n))
                         ((u32 (ts + d), blocks) :: l)).
Proof.
  revert ts d. induction n as [|n IH]; intros ts d Hn Hd; [done|].
  cbn [play]. unfold play1. cbn [started pending at_ drop_late]. rewrite late_not by lia.
  rewrite sts_lt_sub by lia. rewrite (proj2 (Z.ltb_lt 0 d)) by lia.
  replace (u32 (ts + d)) with (u32 (u32 (ts + 1) + (d - 1))) by (rewrite u32_add; f_equal; lia).
  rewrite IH by lia. cbn [replicate]. do 2 f_equal.
  case_decide; subst; [done|]. rewrite u32_add. f_equal. lia.
Qed.

Lemma skips_gap n ts d blocks l :
  Z.of_nat n <= d < 2 ^ 31 -> d + Z.of_nat (length blocks) <= 2 ^ 31 ->
  skips n (mkStream true ts ((u32 (ts + d), blocks) :: l)) = 0%nat.
Proof.
  revert ts d. induction n as [|n IH]; intros ts d Hn Hd; [done|].
  cbn [skips]. unfold skips1. cbn [started at_ pending skipped]. rewrite late_not by lia.
  pose proof (play_gap 1 ts d blocks l ltac:(lia) Hd) as H1. cbn [play] in H1.
  destruct (play1 _) as [o s1]. injection H1 as _ ->. cbn [snd Nat.add].
  replace (u32 (ts + d)) with (u32 (u32 (ts + 1) + (d - 1))) by (rewrite u32_add; f_equal; lia).
  apply IH; lia.
Qed.

(** Within a packet. *)
Lemma play_run n ts blocks l :
  is_u 32 ts -> (n <= length blocks)%nat -> Z.of_nat (length blocks) < 2 ^ 31 ->
  play n (mkStream true ts ((ts, blocks) :: l))
  = (Some <$> take n blocks,
     mkStream true (u32 (ts + Z.of_nat n)) ((u32 (ts + Z.of_nat n), drop n blocks) :: l)).
Proof.
  revert ts blocks. induction n as [|n IH]; intros ts blocks Hts Hn Hl.
  - cbn. rewrite Z.add_0_r, wrap_u_small by done. done.
  - destruct blocks as [|b blocks]; [cbn in Hn; lia|]. cbn [play]. unfold play1.
    cbn [started pending at_ drop_late].
    assert (u32 (ts + 0) = ts) as E0 by (rewrite Z.add_0_r; by apply wrap_u_small).
    pose proof (late_not ts 0 (b :: blocks) ltac:(cbn [length] in *; lia)) as Hlt. rewrite E0 in Hlt. rewrite Hlt.
    pose proof (sts_lt_sub ts 0 ltac:(lia)) as Hl0. rewrite E0 in Hl0. rewrite Hl0.
    pose proof (sts_diff_sub ts 0 ltac:(lia)) as Hd0. rewrite E0 in Hd0. rewrite Hd0.
    change (drop (Z.to_nat (- 0)) (b :: blocks)) with (b :: blocks). change (0 <? 0) with false. cbv match.
    cbn [length] in Hn, Hl. rewrite IH by (try apply wrap_u_range; lia).
    cbn [take fmap list_fmap drop]. rewrite u32_add. do 3 f_equal; [|do 2 f_equal]; repeat (f_equal; try lia).
Qed.

Lemma skips_run n ts blocks l :
  is_u 32 ts -> (n <= length blocks)%nat -> Z.of_nat (length blocks) < 2 ^ 31 ->
  skips n (mkStream true ts ((ts, blocks) :: l)) = 0%nat.
Proof.
  revert ts blocks. induction n as [|n IH]; intros ts blocks Hts Hn Hl; [done|].
  assert (u32 (ts + 0) = ts) as E0 by (rewrite Z.add_0_r; by apply wrap_u_small).
  pose proof (late_not ts 0 blocks ltac:(lia)) as Hlt. rewrite E0 in Hlt.
  cbn [skips]. unfold skips1. cbn [started at_ pending skipped]. rewrite Hlt.
  pose proof (play_run 1 ts blocks l Hts ltac:(lia) Hl) as H1. cbn [play] in H1.
  destruct (play1 _) as [o s1]. injection H1 as _ ->. cbn [snd Nat.add].
  apply IH; [by apply wrap_u_range|rewrite length_drop; lia..].
Qed.

(** Without packets. *)
Lemma play_silence n b ts l :
  (b = true -> drop_late ts l = []) -> (b = false -> l = []) ->
  play n (mkStream b ts l)
  = (replicate n None, if decide (n = 0%nat) then mkStream b ts l else mkStream b (u32 (ts + Z.of_nat n)) []).
Proof.
  revert ts l. induction n as [|n IH]; intros ts l H1 H2; [done|]. cbn [play].
  assert (play1 (mkStream b ts l) = (None, mkStream b (u32 (ts + 1)) [])) as ->.
  { unfold play1. cbn [started pending at_]. destruct b.
    - rewrite H1 by done. by destruct l.
    - by rewrite H2 by done. }
  rewrite IH by done. cbn [replicate]. f_equal.
  repeat case_decide; subst; try done; f_equal; rewrite ?u32_add; f_equal; lia.
Qed.

Lemma skips_silence n b ts l :
  (b = true -> drop_late ts l = []) -> (b = false -> l = []) ->
  skips (S n) (mkStream b ts l) = if b then skipped ts l else 0%nat.
Proof.
  intros H1 H2. cbn [skips]. unfold skips1. cbn [started at_ pending].
  assert (play1 (mkStream b ts l) = (None, mkStream b (u32 (ts + 1)) [])) as ->.
  { pose proof (play_silence 1 b ts l H1 H2) as E. cbn [play] in E.
    destruct (play1 _) as [o s1]. injection E as -> ->. done. }
  cbn [snd]. assert (forall k ts, skips k (mkStream b ts []) = 0%nat) as E0.
  { clear. intros k. induction k as [|k IH]; intros ts; [done|]. cbn [skips]. unfold skips1. cbn.
    destruct b; cbn; by rewrite IH. }
  rewrite E0. lia.
Qed.

(** * The depacketizer *)

(** A reader that returns what was written to it in order, and then nothing. *)
Class FifoQueue (R : Type) `{IReader R} `{FifoWriter R} : Prop :=
  fifo_read (r : R) :
    match content r with
    | [] => exists code r', read r = Ok (code, None, r') /\ content r' = []
    | p :: l => exists r', read r = Ok (StatusOK, Some p, r') /\ content r' = l
    end.

#[global] Instance Queue_fifo_queue : FifoQueue Queue.
Proof.
  intros [l]. destruct l as [|p l]; cbn.
  - by exists StatusNoData, (mkQueue []).
  - by exists (mkQueue l).
Qed.

Section Refinement.

Context {R D : Type} `{HR : IReader R} `{HW : IWriter R} `{HF : !FifoWriter R} `{HQ : !FifoQueue R} `{HD : IFrameDecoder D}.
Context (spec : SampleSpec.t) (beep_ : bool) (beep_sample : nat -> Frame.sample_t).

Abbreviation chans := (Depacketizer.num_channels spec).

Context `{HL : !FrameDecoder D chans}.
Context (spec_valid : SampleSpec.is_valid spec = true) (spec_raw : SampleSpec.is_raw spec = true).
Context (chans_pos : (0 < chans)%nat).

Abbreviation depacketizer := (Depacketizer.t R D).
Import Depacketizer.

(** What the depacketizer expects of a packet: a payload that the decoder accepts and that
    holds at least one block. *)
Definition packet_ok (p : Packet) : Prop :=
  exists data, payload_data p = Ok data /\ accepts data /\ is_u 32 (packet_stream_timestamp p)
    /\ (decode (packet_stream_timestamp p) data).2 <> [].

Definition packet_entry (p : Packet) : Z * list block :=
  match payload_data p with
  | Ok data => decode (packet_stream_timestamp p) data
  | Panic => (0, [])
  end.

(** The depacketizer at a position of the stream. *)
Definition at_stream (d : depacketizer) (s : stream) : Prop :=
  Forall packet_ok (content (reader_ d))
  /\ started s = negb (first_packet_ d)
  /\ is_u 32 (stream_ts_ d)
  /\ at_ s = stream_ts_ d
  /\ let waiting := packet_entry <$> content (reader_ d) in
     match packet_ d with
     | None =>
         idle (payload_decoder_ d)
         /\ (pending s = waiting \/ first_packet_ d = false /\ pending s = (stream_ts_ d, []) :: waiting)
     | Some _ =>
         first_packet_ d = false
         /\ exists dist rest, reading (payload_decoder_ d) (u32 (stream_ts_ d + dist)) rest
              /\ 0 <= dist < 2 ^ 31 /\ Z.of_nat (length rest) < 2 ^ 31
              /\ dist + Z.of_nat (length rest) <= 2 ^ 31
              /\ Forall (fun b => length b = chans) rest
              /\ pending s = (u32 (stream_ts_ d + dist), rest) :: waiting
     end.

(** ** Rendering *)

(** How a block of the stream looks in a frame. *)
Definition shows (o : option block) (b : block) : Prop :=
  length b = chans
  /\ match o with Some x => b = x | None => beep_ = false -> b = replicate chans 0 end.

Definition renders (os : list (option block)) (xs : list Frame.sample_t) : Prop :=
  exists bs, xs = mjoin bs /\ Forall2 shows os bs.

Lemma renders_nil : renders [] [].
Proof. by exists []. Qed.

Lemma renders_app os os' xs xs' : renders os xs -> renders os' xs' -> renders (os ++ os') (xs ++ xs').
Proof.
  intros (bs & -> & H1) (bs' & -> & H2). exists (bs ++ bs'). split; [by rewrite join_app|].
  by apply Forall2_app.
Qed.

Lemma renders_length os xs : renders os xs -> length xs = (length os * chans)%nat.
Proof.
  intros (bs & -> & H). induction H as [|o b os bs [Hb _] _ IH]; [done|].
  change (mjoin (b :: bs)) with (b ++ mjoin bs). rewrite length_app, Hb, IH. done.
Qed.

Lemma renders_packet n rest :
  Forall (fun b => length b = chans) rest -> renders (Some <$> take n rest) (mjoin (take n rest)).
Proof.
  intros H. exists (take n rest). split; [done|]. apply Forall2_fmap_l.
  assert (Forall (fun b => length b = chans) (take n rest)) as H' by (by apply Forall_take).
  induction H'; constructor; done.
Qed.

Lemma renders_missing n : renders (replicate n None) (missing beep_ beep_sample (n * chans)).
Proof.
  assert (forall xs, length xs = (n * chans)%nat -> (beep_ = false -> xs = replicate (n * chans) 0) ->
    renders (replicate n None) xs) as Hx.
  { clear. induction n as [|n IH]; intros xs Hl Hz.
    - destruct xs; [apply renders_nil|discriminate Hl].
    - rewrite <- (take_drop chans xs). apply (renders_app [None]).
      + exists [take chans xs]. split; [cbn; by rewrite app_nil_r|]. constructor; [|constructor].
        split; [rewrite length_take; lia|]. intros Hb. rewrite (Hz Hb), take_replicate. f_equal. lia.
      + apply IH; [rewrite length_drop; lia|]. intros Hb. rewrite (Hz Hb), drop_replicate. f_equal. lia. }
  unfold missing. destruct beep_ eqn:Eb.
  - apply Hx; [|done]. by rewrite length_fmap, length_seq.
  - apply Hx; [by rewrite length_replicate|done].
Qed.

(** ** Fetching packets *)

Abbreviation entries r := (packet_entry <$> content r).

(** The depacketizer with another reader state, decoder state and packet. *)
Abbreviation refetched r x pp d := (set_packet pp (set_decoder x (set_reader r d))).

(** What fetching leads to: nothing that can be played, or a packet in the decoder; with the
    number of packets that were dropped. *)
Inductive fetched (d : depacketizer) : Z -> nat -> depacketizer -> Prop :=
| fetched_none ts r x :
    content r = [] -> idle x ->
    (if first_packet_ d then content (reader_ d) = [] else drop_late (stream_ts_ d) (entries (reader_ d)) = []) ->
    fetched d ts (if first_packet_ d then 0%nat else skipped (stream_ts_ d) (entries (reader_ d)))
      (refetched r x None d)
| fetched_some r x p pos blocks :
    packet_ok p -> packet_entry p = (pos, blocks) -> reading x pos blocks ->
    Forall packet_ok (content r) -> (length (content r) < length (content (reader_ d)))%nat ->
    (if first_packet_ d then entries (reader_ d) = (pos, blocks) :: entries r
     else late (stream_ts_ d) (pos, blocks) = false
          /\ drop_late (stream_ts_ d) (entries (reader_ d)) = (pos, blocks) :: entries r) ->
    fetched d pos (if first_packet_ d then 0%nat else skipped (stream_ts_ d) (entries (reader_ d)))
      (refetched r x (Some p) d).

Lemma packet_entry_ok p :
  packet_ok p -> entry_ok (packet_entry p) /\ (packet_entry p).2 <> []
    /\ Forall (fun b => length b = chans) (packet_entry p).2.
Proof.
  intros (data & E & Ha & Hts & Hne). unfold packet_entry. rewrite E.
  destruct (decode_ok (packet_stream_timestamp p) data Hts Ha) as (H1 & H2 & H3). split_and!; done.
Qed.

Lemma fetch_packet_ok fuel n d :
  (length (content (reader_ d)) < fuel)%nat -> Forall packet_ok (content (reader_ d)) ->
  idle (payload_decoder_ d) -> packet_ d = None ->
  exists ts k d', fetch_packet_ fuel n d = Ok (ts, (n + k)%nat, d') /\ fetched d ts k d'.
Proof.
  revert n d. induction fuel as [|fuel IH]; intros n d Hf Hok Hi Hp; [lia|].
  cbn [fetch_packet_]. unfold next_packet_.
  pose proof (fifo_read (reader_ d)) as Hr. destruct (content (reader_ d)) as [|p l] eqn:Ec.
  - destruct Hr as (code & r' & -> & Er). cbn [res_bind]. exists 0, 0%nat, (refetched r' (payload_decoder_ d) None d).
    rewrite Nat.add_0_r. split; [by destruct code|].
    assert (0%nat = if first_packet_ d then 0%nat else skipped (stream_ts_ d) (entries (reader_ d))) as ->
      by (rewrite Ec; by destruct (first_packet_ d)).
    apply fetched_none; [done|done|]. rewrite Ec. by destruct (first_packet_ d).
  - destruct Hr as (r' & -> & Er). cbn [res_bind]. apply Forall_cons in Hok as [Hp1 Hl].
    pose proof (packet_entry_ok p Hp1) as (He & Hne & _).
    pose proof Hp1 as (data & Edata & Ha & Hts & _). rewrite Edata. cbn [res_bind].
    change (payload_decoder_ (set_packet (Some p) (set_reader r' d))) with (payload_decoder_ d).
    destruct (begin_ok _ _ data Hi Hts Ha) as (x & -> & Hx). cbn [res_bind].
    pose proof (reading_ok _ _ _ Hx) as [-> ->].
    assert (packet_entry p = decode (packet_stream_timestamp p) data) as Ep by (unfold packet_entry; by rewrite Edata).
    destruct (decode (packet_stream_timestamp p) data) as [pos blocks] eqn:Ed. cbn [fst snd] in *.
    change (first_packet_ (set_decoder x (set_packet (Some p) (set_reader r' d)))) with (first_packet_ d).
    change (stream_ts_ (set_decoder x (set_packet (Some p) (set_reader r' d)))) with (stream_ts_ d).
    assert (forall b, first_packet_ d = b -> (b = false -> late (stream_ts_ d) (pos, blocks) = false) ->
      fetched d pos 0 (refetched r' x (Some p) d)) as Hsome.
    { intros b Eb Hlate.
      assert (0%nat = if first_packet_ d then 0%nat else skipped (stream_ts_ d) (entries (reader_ d))) as ->.
      { rewrite Eb, Ec. destruct b; [done|]. cbn [fmap list_fmap skipped]. by rewrite Ep, Hlate. }
      eapply fetched_some; try done; rewrite ?Er, ?Ec; [done|cbn; lia|].
      cbn [fmap list_fmap]. rewrite Ep, Eb. destruct b; [done|]. specialize (Hlate eq_refl).
      split; [done|]. cbn [drop_late]. by rewrite Hlate. }
    destruct (first_packet_ d) eqn:Efirst.
    + exists pos, 0%nat, (refetched r' x (Some p) d). rewrite Nat.add_0_r. split; [done|]. by apply (Hsome true).
    + destruct (stream_timestamp_lt (stream_ts_ d) (u32 (pos + Z.of_nat (length blocks)))) eqn:Elt.
      * exists pos, 0%nat, (refetched r' x (Some p) d). rewrite Nat.add_0_r. split; [done|]. apply (Hsome false); [done|].
        intros _. unfold late. cbn [fst snd]. by rewrite Elt.
      * destruct (end_ok _ _ _ Hx) as (x' & -> & Hx'). cbn [res_bind].
        set (d1 := set_decoder x' (set_decoder x (set_packet (Some p) (set_reader r' d)))).
        (* the packet of d1 is overwritten by the next read *)
        assert (forall k, fetch_packet_ fuel k d1 = fetch_packet_ fuel k (refetched r' x' None d)) as Eq.
        { intros k. destruct fuel; [done|]. cbn [fetch_packet_]. unfold next_packet_.
          change (reader_ d1) with r'. change (reader_ (refetched r' x' None d)) with r'.
          destruct (Io.read r') as [[[code pp] r2]|]; [|done]. cbn [res_bind]. by destruct code. }
        rewrite Eq. destruct (IH (S n) (refetched r' x' None d)) as (ts & k & d' & E & Hd').
        { change (reader_ (refetched r' x' None d)) with r'. rewrite Er. cbn in Hf. lia. }
        { change (reader_ (refetched r' x' None d)) with r'. by rewrite Er. }
        { done. } { done. }
        exists ts, (S k), d'. split; [by rewrite Nat.add_succ_r|].
        assert (late (stream_ts_ d) (packet_entry p) = true) as Hlate.
        { rewrite Ep. unfold late. cbn [fst snd]. by rewrite Elt. }
        assert (skipped (stream_ts_ d) (entries (reader_ d))
                = S (skipped (stream_ts_ d) (entries r'))) as Hskip.
        { rewrite Ec, Er. cbn [fmap list_fmap skipped]. by rewrite Hlate, decide_False. }
        inversion Hd' as [ts' r2 x2 H1 H2 H3 H4|r2 x2 p2 pos2 blocks2 H1 H2 H3 H4 H5 H6 H7]; subst;
          change (reader_ (refetched r' x' None d)) with r' in *;
          change (first_packet_ (refetched r' x' None d)) with (first_packet_ d) in *;
          change (stream_ts_ (refetched r' x' None d)) with (stream_ts_ d) in *; rewrite Efirst in *.
        -- rewrite <- Hskip.
           assert (skipped (stream_ts_ d) (entries (reader_ d))
                   = if first_packet_ d then 0%nat else skipped (stream_ts_ d) (entries (reader_ d))) as ->
             by (by rewrite Efirst).
           apply (fetched_none d ts r2 x2 H1 H2). rewrite Efirst, Ec. cbn [fmap list_fmap drop_late].
           rewrite Hlate. exact H3.
        -- rewrite <- Hskip.
           assert (skipped (stream_ts_ d) (entries (reader_ d))
                   = if first_packet_ d then 0%nat else skipped (stream_ts_ d) (entries (reader_ d))) as ->
             by (by rewrite Efirst).
           apply (fetched_some d r2 x2 p2 ts blocks2); try done.
           ++ rewrite Ec. cbn [length]. lia.
           ++ rewrite Efirst, Ec. cbn [fmap list_fmap drop_late]. rewrite Hlate. exact H6.
Qed.

(** With a packet in the decoder, [dist] before it and [rest] left of it. *)
Definition holding (d : depacketizer) (dist : Z) (rest : list block) : Prop :=
  packet_ d <> None /\ first_packet_ d = false /\ is_u 32 (stream_ts_ d)
  /\ Forall packet_ok (content (reader_ d))
  /\ reading (payload_decoder_ d) (u32 (stream_ts_ d + dist)) rest
  /\ 0 <= dist < 2 ^ 31 /\ Z.of_nat (length rest) < 2 ^ 31
  /\ dist + Z.of_nat (length rest) <= 2 ^ 31
  /\ Forall (fun b => length b = chans) rest.

Definition held_stream (d : depacketizer) (dist : Z) (rest : list block) : stream :=
  mkStream true (stream_ts_ d) ((u32 (stream_ts_ d + dist), rest) :: entries (reader_ d)).

Lemma holding_at_stream d dist rest : holding d dist rest -> at_stream d (held_stream d dist rest).
Proof.
  intros (Hp & Hf & Hts & Hok & Hx & Hd & Hl & Hs & Hc). unfold at_stream, held_stream. cbn [started at_ pending].
  rewrite Hf. split_and!; try done. cbn zeta. destruct (packet_ d); [|done]. split; [done|].
  exists dist, rest. done.
Qed.

Lemma drop_late_idem ts l : drop_late ts (drop_late ts l) = drop_late ts l.
Proof.
  induction l as [|x l IH]; [done|]. cbn [drop_late]. destruct (late ts x) eqn:E; [done|]. cbn. by rewrite E.
Qed.

Lemma play_drop_late n ts l l' :
  drop_late ts l = drop_late ts l' -> l <> [] -> l' <> [] ->
  play (S n) (mkStream true ts l) = play (S n) (mkStream true ts l').
Proof.
  intros E Hl Hl'. cbn [play]. assert (play1 (mkStream true ts l) = play1 (mkStream true ts l')) as ->; [|done].
  unfold play1. cbn [started pending at_]. rewrite E. by destruct l, l'.
Qed.

Lemma play1_skip ts k blocks l :
  (k < length blocks)%nat -> Z.of_nat (length blocks) < 2 ^ 31 -> is_u 32 ts ->
  play1 (mkStream true ts ((u32 (ts + - Z.of_nat k), blocks) :: l))
  = play1 (mkStream true ts ((ts, drop k blocks) :: l)).
Proof.
  intros Hk Hl Hts. unfold play1. cbn [started pending at_ drop_late].
  rewrite late_not by lia. rewrite sts_lt_sub, sts_diff_sub by lia.
  rewrite (proj2 (Z.ltb_ge 0 _)) by lia. rewrite Z.opp_involutive, Nat2Z.id.
  assert (u32 (ts + 0) = ts) as E0 by (rewrite Z.add_0_r; by apply wrap_u_small).
  assert (late ts (ts, drop k blocks) = false) as ->.
  { rewrite <- E0 at 2. apply late_not. rewrite length_drop. lia. }
  assert (stream_timestamp_lt ts ts = false) as ->.
  { rewrite <- E0 at 2. rewrite sts_lt_sub by lia. done. }
  assert (stream_timestamp_diff ts ts = 0) as ->.
  { rewrite <- E0 at 2. rewrite sts_diff_sub by lia. done. }
  change (drop (Z.to_nat 0) (drop k blocks)) with (drop k blocks). done.
Qed.

Lemma play_skip n ts k blocks l :
  (k < length blocks)%nat -> Z.of_nat (length blocks) < 2 ^ 31 -> is_u 32 ts ->
  play (S n) (mkStream true ts ((u32 (ts + - Z.of_nat k), blocks) :: l))
  = play (S n) (mkStream true ts ((ts, drop k blocks) :: l)).
Proof. intros. cbn [play]. by rewrite play1_skip. Qed.

Lemma skips_skip n ts l k blocks l' :
  drop_late ts l = (u32 (ts + - Z.of_nat k), blocks) :: l' ->
  (k < length blocks)%nat -> Z.of_nat (length blocks) < 2 ^ 31 -> is_u 32 ts ->
  skips (S n) (mkStream true ts l)
  = (skipped ts l + skips (S n) (mkStream true ts ((ts, drop k blocks) :: l')))%nat.
Proof.
  intros Hl Hk Hb Hts. cbn [skips]. unfold skips1 at 1 2. cbn [started at_ pending].
  assert (skipped ts ((ts, drop k blocks) :: l') = 0%nat) as ->.
  { pose proof (late_not ts 0 (drop k blocks)) as E. rewrite length_drop, Z.add_0_r in E.
    rewrite (wrap_u_small 32 ts) in E by done. cbn [skipped]. by rewrite E by lia. }
  rewrite <- (play1_skip ts k blocks l') by done.
  assert (play1 (mkStream true ts l)
          = play1 (mkStream true ts ((u32 (ts + - Z.of_nat k), blocks) :: l'))) as ->; [|done].
  unfold play1. cbn [started pending at_]. rewrite <- Hl, drop_late_idem.
  destruct l; [discriminate Hl|]. rewrite Hl. reflexivity.
Qed.

Lemma skips_ahead n ts l dist blocks l' :
  drop_late ts l = (u32 (ts + dist), blocks) :: l' ->
  0 < dist + Z.of_nat (length blocks) <= 2 ^ 31 ->
  skips (S n) (mkStream true ts l)
  = (skipped ts l + skips (S n) (mkStream true ts ((u32 (ts + dist), blocks) :: l')))%nat.
Proof.
  intros Hl Hb. cbn [skips]. unfold skips1 at 1 2. cbn [started at_ pending skipped].
  rewrite late_not by done.
  assert (play1 (mkStream true ts l)
          = play1 (mkStream true ts ((u32 (ts + dist), blocks) :: l'))) as ->; [|done].
  unfold play1. cbn [started pending at_]. rewrite <- Hl, drop_late_idem.
  destruct l; [discriminate Hl|]. rewrite Hl. reflexivity.
Qed.

(** Taking up a fetched packet at distance [dist]. *)
Lemma start_packet_ok (d : depacketizer) x p dist (blocks : list block) :
  is_u 32 (stream_ts_ d) -> reading x (u32 (stream_ts_ d + dist)) blocks -> payload_decoder_ d = x ->
  packet_ d = Some p -> first_packet_ d = false ->
  - 2 ^ 31 < dist < 2 ^ 31 -> (dist < 0 -> - dist < Z.of_nat (length blocks)) ->
  exists d' : depacketizer, start_packet_ spec (u32 (stream_ts_ d + dist)) p d = Ok d'
    /\ reader_ d' = reader_ d /\ packet_ d' = packet_ d /\ stream_ts_ d' = stream_ts_ d
    /\ first_packet_ d' = false
    /\ reading (payload_decoder_ d') (u32 (stream_ts_ d + Z.max 0 dist)) (drop (Z.to_nat (- dist)) blocks).
Proof.
  intros Hts Hx Ex Hp Hf Hd Hl. unfold start_packet_. cbv zeta.
  set (d1 := set_capture _ _ d). change (first_packet_ d1) with (first_packet_ d). rewrite Hf.
  change (stream_ts_ d1) with (stream_ts_ d).
  rewrite sts_lt_add by lia. destruct (Z.ltb_spec dist 0) as [Hneg|Hpos].
  - rewrite sts_diff_sub by lia. unfold panic_if. rewrite (proj2 (Z.ltb_ge (- dist) 0)) by lia.
    unfold SampleSpec.samples_per_chan_2_ns. rewrite spec_valid. cbn [negb panic_if].
    match goal with |- exists d', res_bind ?m _ = _ /\ _ => assert (exists c v, m = Ok (set_capture c v d)) as (c & v & ->) end.
    { destruct (valid_capture_ts_ d1); eexists _, _; reflexivity. }
    cbn [res_bind]. change (payload_decoder_ (set_capture c v d)) with (payload_decoder_ d). rewrite Ex.
    destruct (shift_ok x _ _ (Z.to_nat (- dist)) Hx) as (x' & -> & Hx'). cbn [res_bind].
    rewrite Nat.min_l in * by lia. rewrite Nat.eqb_refl. cbn [negb].
    eexists. split; [done|]. split_and!; try done.
    change (reading x' (u32 (stream_ts_ d + Z.max 0 dist)) (drop (Z.to_nat (- dist)) blocks)).
    rewrite u32_add in Hx'. replace (dist + Z.of_nat (Z.to_nat (- dist))) with (Z.max 0 dist) in Hx' by lia. done.
  - exists d1. split_and!; try done. change (payload_decoder_ d1) with (payload_decoder_ d). rewrite Ex.
    rewrite Z.max_r by lia. replace (Z.to_nat (- dist)) with 0%nat by lia. done.
Qed.

(** The packets that the depacketizer still has, with the one in the decoder. *)
Definition packets_left (d : depacketizer) : nat :=
  length (content (reader_ d)) + match packet_ d with Some _ => 1 | None => 0 end.

(** With nothing to play. *)
Definition silent (d : depacketizer) : Prop :=
  packet_ d = None /\ is_u 32 (stream_ts_ d) /\ content (reader_ d) = [] /\ idle (payload_decoder_ d).

(** Only the number of dropped packets is changed. *)
Definition same_info (i i' : FrameInfo) : Prop :=
  n_decoded_samples i' = n_decoded_samples i /\ n_filled_samples i' = n_filled_samples i
  /\ capture_ts i' = capture_ts i.

(** The number of dropped packets grows by [k]. *)
Definition drops (k : nat) (i i' : FrameInfo) : Prop :=
  n_dropped_packets i' = (n_dropped_packets i + k)%nat.

Lemma late_head_drop ts (l : list (Z * list block)) x l' :
  drop_late ts l = x :: l' -> l <> [] /\ late ts x = false.
Proof.
  induction l as [|y l IH]; [done|]. cbn [drop_late]. destruct (late ts y) eqn:E.
  - intros H. split; [done|]. by apply IH.
  - intros H. injection H as -> ->. done.
Qed.

Lemma update_packet_ok fuel info d s :
  at_stream d s -> (length (content (reader_ d)) < fuel)%nat ->
  exists info' d', update_packet_ spec fuel info d = Ok (info', d') /\ same_info info info'
    /\ ((silent d' /\ stream_ts_ d' = stream_ts_ d /\ first_packet_ d' = first_packet_ d
         /\ drops (if started s then skipped (at_ s) (pending s) else 0) info info'
         /\ (first_packet_ d = false -> drop_late (at_ s) (pending s) = [])
         /\ (first_packet_ d = true -> pending s = []))
        \/ exists dist rest, holding d' dist rest /\ (packets_left d' <= packets_left d)%nat
             /\ (forall n, play (S n) s = play (S n) (held_stream d' dist rest))
             /\ (exists k, drops k info info'
                  /\ (forall n, skips (S n) s = k + skips (S n) (held_stream d' dist rest))%nat
                  /\ (rest = [] -> k = 0%nat))
             /\ (rest = [] -> s = held_stream d' dist rest)).
Proof.
  intros (Hok & Hst & Hts & Hat & Hpk) Hf. cbn zeta in Hpk. unfold update_packet_.
  destruct (packet_ d) as [p|] eqn:Ep.
  { destruct Hpk as (Hfirst & dist & rest & Hx & Hd & Hl & Hs & Hc & Hpend).
    exists info, d. split; [done|]. split; [done|]. right. exists dist, rest.
    split; [unfold holding; rewrite Ep; split_and!; (done || lia)|]. split; [done|].
    assert (s = held_stream d dist rest) as ->;
      [|split; [done|split; [|done]]; exists 0%nat; split; [symmetry; apply Nat.add_0_r|done]].
    unfold held_stream. rewrite <- Hpend, <- Hat. destruct s as [st at' pend].
    cbn in *. by rewrite Hst, Hfirst. }
  destruct Hpk as [Hi Hpend].
  destruct (fetch_packet_ok fuel 0 d Hf Hok Hi Ep) as (ts & n' & d1 & -> & Hfd). cbn [res_bind Nat.add].
  assert (first_packet_ d = false -> skipped (at_ s) (pending s) = skipped (stream_ts_ d) (entries (reader_ d)))
    as Hskip.
  { intros Hfirst. rewrite Hat. destruct Hpend as [-> |[_ ->]]; [done|]. cbn [skipped].
    rewrite late_end. cbn [snd]. by rewrite decide_True. }
  inversion Hfd as [ts' r x Hr Hx Hdrop|r x p pos blocks Hp He Hx Hr Hlen Hpd]; subst ts n' d1;
    set (n' := if first_packet_ d then 0%nat else skipped (stream_ts_ d) (entries (reader_ d))).
  - exists (info_dropped n' info), (refetched r x None d). split; [done|]. split; [done|]. left.
    split; [done|]. split; [done|]. split; [done|]. split.
    { unfold drops. cbn. subst n'. rewrite Hst. destruct (first_packet_ d); [done|]. cbn [negb].
      by rewrite Hskip. }
    rewrite Hat. split; intros Hfirst; rewrite Hfirst in Hdrop.
    + destruct Hpend as [-> |[_ ->]]; [done|]. cbn [drop_late]. by rewrite late_end.
    + destruct Hpend as [-> |[? _]]; [by rewrite Hdrop|congruence].
  - set (d1 := refetched r x (Some p) d) in *. change (packet_ d1) with (Some p). cbv iota.
    pose proof (packet_entry_ok p Hp) as (Heok & Hne & Hchans). rewrite He in Heok, Hne, Hchans. cbn [snd] in *.
    assert (length (content (reader_ d1)) < packets_left d)%nat as Hleft.
    { unfold packets_left. rewrite Ep. change (reader_ d1) with r. lia. }
    destruct (first_packet_ d) eqn:Efirst.
    + (* the stream starts *)
      assert (pending s = (pos, blocks) :: entries r) as Hpend'.
      { destruct Hpend as [-> |[? _]]; [done|congruence]. }
      assert (start_packet_ spec pos p d1
        = start_packet_ spec (u32 (pos + 0)) p (set_first_packet false (set_stream_ts pos d1))) as ->.
      { rewrite Z.add_0_r, wrap_u_small by apply Heok. unfold start_packet_. cbv zeta.
        change (first_packet_ (set_capture _ _ d1)) with (first_packet_ d).
        change (first_packet_ (set_capture _ _ (set_first_packet false (set_stream_ts pos d1)))) with false.
        rewrite Efirst. done. }
      set (d2 := set_first_packet false (set_stream_ts pos d1)).
      pose proof (start_packet_ok d2 x p 0 blocks) as Hstart. change (stream_ts_ d2) with pos in Hstart.
      destruct Hstart as (d3 & -> & Er & Epk & Ets & Ef & Hx3); try done; try apply Heok; try lia.
      { rewrite Z.add_0_r, wrap_u_small by apply Heok. exact Hx. }
      cbn [res_bind]. exists (info_dropped n' info), d3. split; [done|]. split; [done|]. right.
      exists 0, blocks. change (reader_ d2) with r in *.
      change (packet_ d2) with (Some p) in *. cbn [Z.max Z.compare Z.opp Z.to_nat drop] in Hx3.
      split; [|split; [|split; [|split]]].
      * unfold holding. rewrite Epk, Er, Ets, Ef. split_and!; try done; try apply Heok; try lia.
        destruct Heok. cbn in *. lia.
      * unfold packets_left at 1. rewrite Epk, Er. change (reader_ d1) with r in Hleft. lia.
      * intros n. unfold held_stream. rewrite Ets, Er, Z.add_0_r, (wrap_u_small 32 pos) by apply Heok.
        cbn [play]. destruct s as [st at' pend]. cbn [pending started] in *. subst pend.
        assert (st = false) as -> by done. done.
      * exists 0%nat. split; [done|]. split; [|done]. intros n.
        unfold held_stream. rewrite Ets, Er, Z.add_0_r, (wrap_u_small 32 pos) by apply Heok.
        destruct s as [st at' pend]. cbn [pending started] in *. subst pend.
        assert (st = false) as -> by done. cbn [skips Nat.add]. unfold skips1. cbn [started at_ pending].
        assert (skipped pos ((pos, blocks) :: entries r) = 0%nat) as ->.
        { pose proof (late_not pos 0 blocks) as E. rewrite Z.add_0_r, (wrap_u_small 32 pos) in E by apply Heok.
          cbn [skipped]. rewrite E; [done|]. destruct Heok as [_ Hl]. cbn [snd] in Hl.
          destruct blocks; [done|cbn [length] in *; lia]. }
        done.
      * by intros ->.
    + (* the stream goes on *)
      destruct Hpd as [Hlate Hdrop].
      assert (exists l, pending s = l /\ drop_late (at_ s) l = (pos, blocks) :: entries r) as (l & Epl & Hl).
      { exists (pending s). split; [done|]. rewrite Hat. destruct Hpend as [-> |[_ ->]]; [done|].
        cbn [drop_late]. by rewrite late_end. }
      destruct (late_cases (stream_ts_ d) pos blocks Hts Heok Hne) as (dist & Epos & Hdist & Hin).
      specialize (Hin Hlate). destruct Heok as [_ Hlen31]. cbn [snd] in Hlen31.
      rewrite Epos. rewrite Epos in Hx, Hl.
      pose proof (start_packet_ok d1 x p dist blocks) as Hstart.
      change (stream_ts_ d1) with (stream_ts_ d) in Hstart.
      destruct Hstart as (d3 & -> & Er & Epk & Ets & Ef & Hx3); try done; try lia.
      cbn [res_bind]. exists (info_dropped n' info), d3. split; [done|]. split; [done|]. right.
      exists (Z.max 0 dist), (drop (Z.to_nat (- dist)) blocks).
      change (reader_ d1) with r in *.
      change (packet_ d1) with (Some p) in *.
      split; [|split; [|split; [|split]]].
      * unfold holding. rewrite Epk, Er, Ets, Ef. split_and!; try done; rewrite ?length_drop; try lia.
        by apply Forall_drop.
      * unfold packets_left at 1. rewrite Epk, Er. lia.
      * intros n. unfold held_stream. rewrite Ets, Er.
        destruct s as [st at' pend]. cbn [pending started at_] in *. subst pend at'.
        assert (st = true) as -> by done.
        transitivity (play (S n) (mkStream true (stream_ts_ d) ((u32 (stream_ts_ d + dist), blocks) :: entries r))).
        { apply play_drop_late; [rewrite <- Hl; symmetry; apply drop_late_idem| |done].
          by apply late_head_drop in Hl as [? _]. }
        destruct (Z_lt_le_dec dist 0) as [Hneg|Hpos].
        -- replace dist with (- Z.of_nat (Z.to_nat (- dist))) at 1 by lia.
           rewrite play_skip by (done || lia). do 4 f_equal. rewrite Z.max_l, Z.add_0_r by lia.
           symmetry. by apply wrap_u_small.
        -- rewrite Z.max_r by lia. replace (Z.to_nat (- dist)) with 0%nat by lia. done.
      * exists n'. split; [done|]. split.
        2: { intros Hnil. exfalso. apply (f_equal length) in Hnil. rewrite length_drop in Hnil. cbn in Hnil.
             destruct blocks; [done|cbn [length] in *; lia]. }
        intros n. unfold held_stream. rewrite Ets, Er. subst n'. rewrite <- Hskip by done.
        destruct s as [st at' pend]. cbn [pending started at_] in *. subst pend at'.
        assert (st = true) as -> by done.
        destruct (Z_lt_le_dec dist 0) as [Hneg|Hpos].
        -- replace dist with (- Z.of_nat (Z.to_nat (- dist))) in Hl by lia.
           rewrite (skips_skip n _ _ _ _ _ Hl) by (done || lia). do 5 f_equal.
           rewrite Z.max_l, Z.add_0_r by lia. symmetry. by apply wrap_u_small.
        -- rewrite (skips_ahead n _ _ _ _ _ Hl) by lia. do 5 f_equal; [|].
           ++ by rewrite Z.max_r by lia.
           ++ replace (Z.to_nat (- dist)) with 0%nat by lia. done.
      * intros Hnil. exfalso. apply (f_equal length) in Hnil. rewrite length_drop in Hnil. cbn in Hnil.
        destruct blocks; [done|cbn [length] in *; lia].
Qed.

(** ** Samples *)

(** The depacketizers differ at most in timestamps of captures and statistics. *)
Definition same_play (d d' : depacketizer) : Prop :=
  reader_ d' = reader_ d /\ payload_decoder_ d' = payload_decoder_ d /\ packet_ d' = packet_ d
  /\ stream_ts_ d' = stream_ts_ d /\ first_packet_ d' = first_packet_ d.

Lemma blocks_mod k : (Z.of_nat (k * chans)) mod Z.of_nat chans = 0.
Proof. rewrite Nat2Z.inj_mul. apply Z.mod_mul. lia. Qed.

Lemma samples_overall_ok k : exists ns, SampleSpec.samples_overall_2_ns (Z.of_nat (k * chans)) spec = Ok ns.
Proof.
  unfold SampleSpec.samples_overall_2_ns. rewrite spec_valid. cbn [negb panic_if].
  change (Z.of_nat (SampleSpec.num_channels spec)) with (Z.of_nat chans).
  rewrite blocks_mod. eexists. reflexivity.
Qed.

Lemma mark_capture_ok c info (d : depacketizer) k :
  n_filled_samples info = (k * chans)%nat ->
  exists info', mark_capture spec c info d = Ok info'
    /\ n_decoded_samples info' = n_decoded_samples info /\ n_filled_samples info' = n_filled_samples info
    /\ n_dropped_packets info' = n_dropped_packets info.
Proof.
  intros Hk. unfold mark_capture. case_if; [|by exists info].
  rewrite Hk. destruct (samples_overall_ok k) as [ns ->]. eexists. split; [done|]. cbn. done.
Qed.

Lemma advance_capture_ok k (d : depacketizer) :
  exists d', advance_capture spec (k * chans) d = Ok d' /\ same_play d d'.
Proof.
  unfold advance_capture. case_if; [|by exists d].
  destruct (samples_overall_ok k) as [ns ->]. eexists. split; [done|]. done.
Qed.

Lemma write_samples_ok ptr xs buf :
  (ptr + length xs <= length buf)%nat -> write_samples ptr xs buf = Ok (overwrite buf ptr xs).
Proof. intros Hl. unfold write_samples, panic_if. by rewrite (proj2 (Nat.ltb_ge _ _)). Qed.

Lemma blocks_div p e : (p <= e)%nat -> ((e * chans - p * chans) / chans = e - p)%nat.
Proof. intros Hp. rewrite <- Nat.mul_sub_distr_r. by apply Nat.div_mul; lia. Qed.

Lemma read_missing_ok p e buf (d : depacketizer) :
  (p <= e)%nat -> (e * chans <= length buf)%nat ->
  exists d', read_missing_samples_ spec beep_ beep_sample (p * chans) (e * chans) buf d
      = Ok ((e * chans)%nat, overwrite buf (p * chans) (missing beep_ beep_sample ((e - p) * chans)), d')
    /\ same_play (set_stream_ts (u32 (stream_ts_ d + Z.of_nat (e - p))) d) d'.
Proof.
  intros Hp Hb. unfold read_missing_samples_. rewrite blocks_div by done.
  pose proof (renders_length _ _ (renders_missing (e - p))) as Hl. rewrite length_replicate in Hl.
  rewrite write_samples_ok by (rewrite Hl; nia). cbn [res_bind].
  eexists. split; [do 3 f_equal; nia|].
  change (first_packet_ (set_stream_ts _ d)) with (first_packet_ d). by destruct (first_packet_ d).
Qed.

Lemma read_packet_samples_ok p e buf d rest :
  (p < e)%nat -> (e * chans <= length buf)%nat -> holding d 0 rest ->
  let k := Nat.min (e - p) (length rest) in
  exists d' : depacketizer, read_packet_samples_ spec (p * chans) (e * chans) buf d
      = Ok (((p + k) * chans)%nat, overwrite buf (p * chans) (mjoin (take k rest)), d')
    /\ reader_ d' = reader_ d /\ first_packet_ d' = false
    /\ stream_ts_ d' = u32 (stream_ts_ d + Z.of_nat k)
    /\ (if (k <? e - p)%nat then packet_ d' = None /\ idle (payload_decoder_ d')
        else packet_ d' = packet_ d
             /\ reading (payload_decoder_ d') (u32 (stream_ts_ d' + 0)) (drop k rest)).
Proof.
  intros Hp Hb (Hpk & Hf & Hts & Hok & Hx & Hd & Hl & Hs & Hc) k. unfold read_packet_samples_.
  rewrite blocks_div by lia.
  destruct (read_ok _ _ _ (e - p)%nat Hx) as (x' & -> & Hx'). cbn [res_bind]. fold k. fold k in Hx'.
  pose proof (renders_length _ _ (renders_packet k rest Hc)) as Hlen.
  rewrite length_fmap, length_take in Hlen. assert (k `min` length rest = k)%nat as Ek by lia. rewrite Ek in Hlen.
  rewrite write_samples_ok by (rewrite Hlen; nia). cbn [res_bind].
  rewrite Z.add_0_r, (wrap_u_small 32 (stream_ts_ d)) in Hx' by done.
  assert (u32 (u32 (stream_ts_ d + Z.of_nat k) + 0) = u32 (stream_ts_ d + Z.of_nat k)) as E0.
  { rewrite u32_add. f_equal. lia. }
  destruct (k <? e - p)%nat.
  - cbn [payload_decoder_ set_counters set_stream_ts set_decoder].
    destruct (end_ok _ _ _ Hx') as (x2 & -> & Hx2). cbn [res_bind].
    eexists. split; [cbn [res_bind]; rewrite Nat.mul_add_distr_r; reflexivity|]. split_and!; try done.
  - eexists. split; [cbn [res_bind]; rewrite Nat.mul_add_distr_r; reflexivity|]. cbn. rewrite E0. split_and!; try done.
Qed.

(** ** One round of the loop *)

(** The number of blocks that were decoded. *)
Definition decoded (os : list (option block)) : nat := length (omap id os).

Lemma decoded_app os os' : decoded (os ++ os') = (decoded os + decoded os')%nat.
Proof. unfold decoded. by rewrite omap_app, length_app. Qed.

Lemma decoded_none n : decoded (replicate n None) = 0%nat.
Proof. unfold decoded. induction n; [done|]. by cbn. Qed.

Lemma decoded_some l : decoded (Some <$> l) = length l.
Proof. unfold decoded. induction l as [|x l IH]; [done|]. cbn. by rewrite IH. Qed.

Lemma read_gap_ok p e buf info d dist rest :
  (p <= e)%nat -> (e * chans <= length buf)%nat -> holding d dist rest ->
  (exists f, n_filled_samples info = (f * chans)%nat) ->
  let g := Nat.min (Z.to_nat dist) (e - p) in
  exists xs info' d', read_gap_ spec beep_ beep_sample (p * chans) (e * chans) buf info d
      = Ok (((p + g) * chans)%nat, overwrite buf (p * chans) xs, info', d')
    /\ play g (held_stream d dist rest) = (replicate g None, held_stream d' (dist - Z.of_nat g) rest)
    /\ skips g (held_stream d dist rest) = 0%nat
    /\ renders (replicate g None) xs
    /\ n_decoded_samples info' = n_decoded_samples info
    /\ n_dropped_packets info' = n_dropped_packets info
    /\ (exists f, n_filled_samples info' = (f * chans)%nat)
    /\ holding d' (dist - Z.of_nat g) rest /\ packets_left d' = packets_left d
    /\ reader_ d' = reader_ d.
Proof.
  intros Hp Hb Hh [f Hf] g. pose proof Hh as (Hpk & Hfirst & Hts & Hok & Hx & Hd & Hl & Hs & Hc).
  unfold read_gap_. destruct (reading_ok _ _ _ Hx) as [-> _].
  destruct (Z.eq_dec dist 0) as [->|Hne].
  - assert (g = 0%nat) as -> by lia. rewrite Z.add_0_r, (wrap_u_small 32 (stream_ts_ d)), Z.eqb_refl by done.
    exists [], info, d. rewrite overwrite_nil, Nat.add_0_r. cbn [replicate play].
    split_and!; try done; [apply renders_nil|by exists f].
  - assert (stream_ts_ d <> u32 (stream_ts_ d + dist)) as Hneq.
    { intros E. pose proof (sts_diff_add (stream_ts_ d) dist ltac:(lia)) as H1. rewrite <- E in H1.
      unfold stream_timestamp_diff in H1. rewrite Z.sub_diag in H1. cbv in H1. lia. }
    rewrite (proj2 (Z.eqb_neq _ _) Hneq), sts_lt_sub, (proj2 (Z.ltb_lt 0 dist)) by lia.
    cbn [negb panic_if]. rewrite sts_diff_add by lia. rewrite <- Nat.mul_sub_distr_r.
    replace (Nat.min (chans * Z.to_nat dist) ((e - p) * chans)) with (g * chans)%nat by (subst g; nia).
    rewrite <- Nat.mul_add_distr_r.
    destruct (read_missing_ok p (p + g) buf d) as (d1 & -> & Hd1); [lia|subst g; nia|].
    replace (p + g - p)%nat with g in * by lia. cbn [res_bind].
    destruct (mark_capture_ok true (info_filled (g * chans) info) d1 (f + g)) as (info' & -> & Hi1 & Hi2 & Hi3).
    { cbn. rewrite Hf. lia. }
    cbn [res_bind]. exists (missing beep_ beep_sample (g * chans)), info', d1.
    destruct Hd1 as (Er & Ex & Epk & Ets & Ef).
    cbn [reader_ payload_decoder_ packet_ stream_ts_ first_packet_ set_stream_ts] in Er, Ex, Epk, Ets, Ef.
    assert (u32 (stream_ts_ d1 + (dist - Z.of_nat g)) = u32 (stream_ts_ d + dist)) as Epos.
    { rewrite Ets, u32_add. f_equal. lia. }
    split; [done|]. split; [|split; [apply skips_gap; lia|split; [apply renders_missing|]]].
    + unfold held_stream. rewrite play_gap by lia. rewrite Er, Epos, Ets. do 2 f_equal.
      case_decide as E; [|done]. rewrite E, Z.add_0_r. symmetry. by apply wrap_u_small.
    + split; [done|]. split; [done|]. split; [exists (f + g)%nat; rewrite Hi2; cbn; lia|].
      split; [|split; [unfold packets_left; by rewrite Er, Epk|done]].
      unfold holding. rewrite Epk, Ef, Er, Ex, Epos, Ets. split_and!; try done; try lia.
      apply wrap_u_range. done.
Qed.

Lemma holding_same_play d d' dist rest : same_play d d' -> holding d dist rest -> holding d' dist rest.
Proof.
  intros (Er & Ex & Ep & Et & Ef) Hh. unfold holding. rewrite Er, Ex, Ep, Et, Ef. exact Hh.
Qed.

(** The samples of the packet in the decoder, with their effect on the stream. *)
Lemma play_packet_ok p e buf info d rest :
  (p < e)%nat -> (e * chans <= length buf)%nat -> holding d 0 rest ->
  (exists f, n_filled_samples info = (f * chans)%nat) ->
  let k := Nat.min (e - p) (length rest) in
  exists info' d' s', play_packet_ spec (p * chans) (e * chans) buf info d
      = Ok (((p + k) * chans)%nat, overwrite buf (p * chans) (mjoin (take k rest)), info', d')
    /\ play k (held_stream d 0 rest) = (Some <$> take k rest, s')
    /\ skips k (held_stream d 0 rest) = 0%nat
    /\ at_stream d' s'
    /\ n_decoded_samples info' = (n_decoded_samples info + k * chans)%nat
    /\ n_dropped_packets info' = n_dropped_packets info
    /\ (exists f, n_filled_samples info' = (f * chans)%nat)
    /\ (p + k = e /\ packets_left d' <= packets_left d \/ packets_left d' < packets_left d)%nat.
Proof.
  intros Hp Hb Hh [f Hf] k. pose proof Hh as (Hpk & Hfirst & Hts & Hok & Hx & Hd & Hl & Hs & Hc).
  unfold play_packet_. rewrite (proj2 (Nat.ltb_lt _ _)) by nia.
  destruct (read_packet_samples_ok p e buf d rest Hp Hb Hh) as (d1 & -> & Er & Ef & Et & Hend).
  fold k in Et, Hend |- *. cbn [res_bind].
  replace ((p + k) * chans - p * chans)%nat with (k * chans)%nat by nia.
  destruct (mark_capture_ok (negb (k * chans =? 0)%nat) (info_decoded (k * chans) info) d1 f) as (info' & -> & Hi1 & Hi2 & Hi3).
  { exact Hf. }
  cbn [res_bind]. destruct (advance_capture_ok k d1) as (d2 & -> & Hsame). cbn [res_bind].
  exists (info_filled (k * chans) info'), d2, (mkStream true (u32 (stream_ts_ d + Z.of_nat k))
    ((u32 (stream_ts_ d + Z.of_nat k), drop k rest) :: entries (reader_ d))).
  split; [done|]. split.
  { unfold held_stream. rewrite Z.add_0_r, (wrap_u_small 32 (stream_ts_ d)) by done. apply play_run; [done|lia|done]. }
  split.
  { unfold held_stream. rewrite Z.add_0_r, (wrap_u_small 32 (stream_ts_ d)) by done.
    apply skips_run; [done|lia|done]. }
  split; [|split; [cbn; rewrite Hi1; done|split; [done|
    split; [exists (f + k)%nat; cbn; rewrite Hi2; cbn; lia|]]]].
  - destruct Hsame as (Sr & Sx & Sp & St & Sf). destruct (k <? e - p)%nat eqn:Ek.
    + destruct Hend as [Hnone Hidle]. unfold at_stream. cbn [started at_ pending].
      rewrite Sr, Sx, Sp, St, Sf, Er, Ef, Et, Hnone. split_and!; try done; [by apply wrap_u_range|].
      right. split; [done|]. rewrite drop_ge by (apply Nat.ltb_lt in Ek; lia). done.
    + destruct Hend as [Hsome Hread]. unfold at_stream. cbn [started at_ pending].
      rewrite Sr, Sx, Sp, St, Sf, Er, Ef, Hsome. split_and!; try done; [rewrite Et; by apply wrap_u_range|].
      destruct (packet_ d); [|done]. split; [done|]. exists 0, (drop k rest).
      split; [exact Hread|]. rewrite length_drop. split_and!; try lia; [by apply Forall_drop|].
      rewrite Et, Z.add_0_r, (wrap_u_small 32 (u32 _)) by (by apply wrap_u_range). done.
  - destruct Hsame as (Sr & Sx & Sp & St & Sf). unfold packets_left. rewrite Sr, Sp, Er.
    destruct (packet_ d); [|done]. destruct (k <? e - p)%nat eqn:Ek.
    + destruct Hend as [-> _]. right. lia.
    + destruct Hend as [-> _]. left. apply Nat.ltb_ge in Ek. lia.
Qed.

(** ** A round of the loop *)

Lemma read_samples_ok fuel p e buf info d s :
  (p < e)%nat -> (e * chans <= length buf)%nat -> at_stream d s ->
  (length (content (reader_ d)) < fuel)%nat ->
  (exists f, n_filled_samples info = (f * chans)%nat) ->
  exists k os xs info' d' s', read_samples_ spec beep_ beep_sample fuel (p * chans) (e * chans) buf info d
      = Ok (((p + k) * chans)%nat, overwrite buf (p * chans) xs, info', d')
    /\ play k s = (os, s') /\ renders os xs /\ at_stream d' s'
    /\ n_decoded_samples info' = (n_decoded_samples info + decoded os * chans)%nat
    /\ n_dropped_packets info' = (n_dropped_packets info + skips k s)%nat
    /\ (exists f, n_filled_samples info' = (f * chans)%nat)
    /\ (p + k <= e)%nat
    /\ (p + k = e /\ packets_left d' <= packets_left d \/ packets_left d' < packets_left d)%nat.
Proof.
  intros Hp Hb Hat Hfuel Hf. unfold read_samples_.
  destruct (update_packet_ok fuel info d s Hat Hfuel) as (info1 & d1 & -> & (Hsi1 & Hsi2 & _) & Hcase).
  cbn [res_bind]. rewrite <- Hsi1. rewrite <- Hsi2 in Hf. clear Hsi1 Hsi2 Hfuel.
  destruct Hcase as [(Hsil & Ets & Ef & Hdrops & Hst & Hns)|(dist & rest & Hh & Hleft & Hplay & (nd & Hdrops & Hskips & Hnd) & Hnil)].
  - destruct Hsil as (Epk & Hts1 & Ec & Hi). rewrite Epk. rewrite <- Nat.mul_sub_distr_r.
    destruct Hf as [f Hf]. destruct (mark_capture_ok true info1 d1 f Hf) as (info2 & -> & Hi1 & Hi2 & Hi3).
    cbn [res_bind]. destruct (advance_capture_ok (e - p) d1) as (d2 & -> & Hsame). cbn [res_bind].
    destruct (read_missing_ok p e buf d2) as (d3 & -> & Hd3); [lia|done|]. cbn [res_bind].
    destruct Hsame as (Sr & Sx & Sp & St & Sf). destruct Hd3 as (Tr & Tx & Tp & Tt & Tf).
    cbn [reader_ payload_decoder_ packet_ stream_ts_ first_packet_ set_stream_ts] in Tr, Tx, Tp, Tt, Tf.
    destruct Hat as (_ & Hstart & _ & Eat & _).
    exists (e - p)%nat, (replicate (e - p) None), (missing beep_ beep_sample ((e - p) * chans)),
      (info_filled ((e - p) * chans) info2), d3, (mkStream (started s) (u32 (at_ s + Z.of_nat (e - p))) []).
    split; [do 4 f_equal; nia|]. split.
    { destruct s as [st at' pend]. cbn [started at_ pending] in *. rewrite play_silence.
      - by rewrite decide_False by lia.
      - intros ->. apply Hst. by destruct (first_packet_ d).
      - intros ->. apply Hns. by destruct (first_packet_ d). }
    split; [apply renders_missing|]. split.
    { unfold at_stream. cbn [started at_ pending]. rewrite Tr, Tx, Tp, Tt, Tf, Sr, Sx, Sp, St, Sf, Epk, Ec, Ets, Ef, Eat.
      split_and!; try done; [by apply wrap_u_range|]. by left. }
    cbn [n_decoded_samples n_filled_samples n_dropped_packets info_filled].
    rewrite decoded_none, Hi1, Hi2, Hi3, Hf.
    split; [lia|]. split.
    { rewrite Hdrops. f_equal. assert (e - p = S (pred (e - p)))%nat as -> by lia.
      destruct s as [st at' pend]. cbn [started at_ pending] in *. symmetry. apply skips_silence.
      - intros ->. apply Hst. by destruct (first_packet_ d).
      - intros ->. apply Hns. by destruct (first_packet_ d). } split; [exists (f + (e - p))%nat; lia|]. split; [lia|]. left. split; [lia|].
    unfold packets_left. rewrite Tr, Tp, Sr, Sp, Ec, Epk. cbn. lia.
  - pose proof Hh as (Hpk & _). destruct (packet_ d1) eqn:Epk; [clear Hpk|done].
    destruct (read_gap_ok p e buf info1 d1 dist rest) as
      (xs & info2 & d2 & -> & Hg & Hsk & Hr & Hdec & Hdp & Hf2 & Hh2 & Hleft2 & Er2); [lia|done|done|done|].
    set (g := Nat.min (Z.to_nat dist) (e - p)) in *. cbn [res_bind].
    destruct (decide (p + g = e)%nat) as [Hge|Hge].
    + exists g, (replicate g None), xs, info2, d2, (held_stream d2 (dist - Z.of_nat g) rest).
      unfold play_packet_. rewrite (proj2 (Nat.ltb_ge _ _)) by nia. split; [done|].
      split. { assert (g = S (pred g)) as E by lia. rewrite E, Hplay, <- E at 1. exact Hg. }
      split; [done|]. split; [by apply holding_at_stream|].
      rewrite decoded_none, Hdec. split; [lia|]. split.
      { rewrite Hdp, Hdrops. f_equal. assert (g = S (pred g)) as E by lia.
        rewrite E, Hskips, <- E, Hsk. lia. }
      split; [done|]. split; [lia|]. left. lia.
    + assert (dist - Z.of_nat g = 0) as Eg.
      { destruct Hh as (_ & _ & _ & _ & _ & Hdist & _). lia. }
      rewrite Eg in Hg, Hh2.
      pose proof (renders_length _ _ Hr) as Hxs. rewrite length_replicate in Hxs.
      destruct (play_packet_ok (p + g) e (overwrite buf (p * chans) xs) info2 d2 rest) as
        (info3 & d3 & s' & -> & Hp3 & Hsk3 & Hat3 & Hdec3 & Hdp3 & Hf3 & Hend); [lia|rewrite length_overwrite; nia|done|done|].
      set (k := Nat.min (e - (p + g)) (length rest)) in *.
      pose proof Hh2 as (_ & _ & _ & _ & _ & _ & _ & _ & Hc).
      exists (g + k)%nat, (replicate g None ++ (Some <$> take k rest)), (xs ++ mjoin (take k rest)), info3, d3, s'.
      split.
      { rewrite <- overwrite_app; [by rewrite Hxs, <- Nat.mul_add_distr_r, Nat.add_assoc|].
        pose proof (renders_length _ _ (renders_packet k rest Hc)) as Hys.
        rewrite length_fmap, length_take in Hys. nia. }
      split.
      { assert (play (g + k) s = play (g + k) (held_stream d1 dist rest)) as ->.
        - destruct (g + k)%nat as [|n] eqn:En; [|apply Hplay].
          rewrite (Hnil ltac:(apply nil_length_inv; lia)). done.
        - rewrite play_app, Hg, Hp3. done. }
      split; [apply renders_app; [done|by apply renders_packet]|]. split; [done|].
      rewrite Hdec3, Hdec, decoded_app, decoded_none, decoded_some, length_take.
      split; [lia|]. split.
      { rewrite Hdp3, Hdp, Hdrops. f_equal.
        assert (skips (g + k) (held_stream d1 dist rest) = 0%nat) as E0.
        { rewrite skips_app, Hsk, Hg. cbn [snd]. by rewrite Hsk3. }
        destruct (g + k)%nat as [|m] eqn:En.
        - rewrite Hnd by (apply nil_length_inv; lia). done.
        - rewrite Hskips, E0. lia. } split; [done|]. split; [lia|]. rewrite Nat.add_assoc. lia.
Qed.

(** ** The loop *)

Lemma content_le_left d : (length (content (reader_ d)) <= packets_left d)%nat.
Proof. unfold packets_left. lia. Qed.

Lemma read_loop_ok fuel ff p e buf info d s :
  (p <= e)%nat -> (e * chans <= length buf)%nat -> at_stream d s ->
  (packets_left d < ff)%nat -> (p < e -> packets_left d < fuel)%nat ->
  (exists f, n_filled_samples info = (f * chans)%nat) ->
  exists os xs info' d' s',
    read_loop_ spec beep_ beep_sample fuel ff (p * chans) (e * chans) buf info d
      = Ok ((e * chans)%nat, overwrite buf (p * chans) xs, info', d')
    /\ play (e - p) s = (os, s') /\ renders os xs /\ at_stream d' s'
    /\ n_decoded_samples info' = (n_decoded_samples info + decoded os * chans)%nat
    /\ n_dropped_packets info' = (n_dropped_packets info + skips (e - p) s)%nat
    /\ (packets_left d' <= packets_left d)%nat.
Proof.
  revert p buf info d s. induction fuel as [|fuel IH]; intros p buf info d s Hp Hb Hat Hff Hfuel Hf.
  all: cbn [read_loop_]; destruct (decide (p = e)) as [->|Hne].
  1, 3: rewrite (proj2 (Nat.leb_le _ _)) by lia; exists [], [], info, d, s;
    rewrite Nat.sub_diag, overwrite_nil; split_and!; first [done | apply renders_nil | cbn; lia].
  - specialize (Hfuel ltac:(lia)). lia.
  - rewrite (proj2 (Nat.leb_gt _ _)) by nia. pose proof (content_le_left d).
    destruct (read_samples_ok ff p e buf info d s) as
      (k & os & xs & info1 & d1 & s1 & -> & Hplay & Hr & Hat1 & Hdec & Hdp & Hf1 & Hk & Hend); try done; try lia.
    cbn [res_bind]. pose proof (length_play k s) as Hlo. rewrite Hplay in Hlo. cbn [fst] in Hlo.
    pose proof (renders_length _ _ Hr) as Hlx.
    destruct (IH (p + k)%nat (overwrite buf (p * chans) xs) info1 d1 s1) as
      (os' & xs' & info' & d' & s' & -> & Hplay' & Hr' & Hat' & Hdec' & Hdp' & Hleft); try done; try lia.
    { rewrite length_overwrite; [done|]. rewrite Hlx, Hlo. nia. }
    exists (os ++ os'), (xs ++ xs'), info', d', s'.
    pose proof (length_play (e - (p + k)) s1) as Hlo'. rewrite Hplay' in Hlo'. cbn [fst] in Hlo'.
    pose proof (renders_length _ _ Hr') as Hlx'.
    split.
    { rewrite <- overwrite_app; [|rewrite Hlx, Hlx', Hlo, Hlo'; nia].
      by rewrite Hlx, Hlo, <- Nat.mul_add_distr_r. }
    split.
    { replace (e - p)%nat with (k + (e - (p + k)))%nat by lia. by rewrite play_app, Hplay, Hplay'. }
    split; [by apply renders_app|]. split; [done|]. split; [|split; [|lia]].
    + rewrite Hdec', Hdec, decoded_app. lia.
    + rewrite Hdp', Hdp. replace (e - p)%nat with (k + (e - (p + k)))%nat by lia.
      rewrite skips_app, Hplay. cbn [snd]. lia.
Qed.

(** ** Frames *)

(** A frame that shows blocks of the stream, before which packets were skipped: its samples,
    its length and its flags. *)
Definition frame_shows (x : list (option block) * nat) (f : Frame.t) : Prop :=
  let '(os, n_skipped) := x in
  renders os (Frame.samples_ f)
  /\ Frame.is_raw f = true
  /\ Frame.duration_ f = Z.of_nat (length os)
  /\ (Z.land (Frame.flags_ f) Frame.FlagNotBlank <> 0 <-> Exists is_Some os)
  /\ (Z.land (Frame.flags_ f) Frame.FlagNotComplete <> 0 <-> Exists (.= None) os)
  /\ (Z.land (Frame.flags_ f) Frame.FlagPacketDrops <> 0 <-> (0 < n_skipped)%nat).

Lemma decoded_le os : (decoded os <= length os)%nat.
Proof. unfold decoded. induction os as [|[x|] os IH]; cbn in *; lia. Qed.

Lemma decoded_pos os : decoded os <> 0%nat <-> Exists is_Some os.
Proof.
  unfold decoded. induction os as [|[x|] os IH]; rewrite ?Exists_cons; cbn.
  - by rewrite Exists_nil.
  - split; [|done]. intros _. left. by eexists.
  - unfold id in IH at 1. rewrite IH. split; [by right|]. intros [[? ?]|H]; done.
Qed.

Lemma decoded_lt os : (decoded os < length os)%nat <-> Exists (.= None) os.
Proof.
  induction os as [|[x|] os IH]; rewrite ?Exists_cons.
  - rewrite Exists_nil. cbn. lia.
  - unfold decoded in *. cbn. rewrite <- IH. split; [right; lia|]. intros [?|?]; [done|lia].
  - pose proof (decoded_le os). unfold decoded in *. cbn. split; [by left|lia].
Qed.

Lemma set_frame_props_ok f info os :
  renders os (Frame.samples_ f) -> Frame.is_raw f = true -> os <> [] -> is_u 32 (Z.of_nat (length os)) ->
  n_decoded_samples info = (decoded os * chans)%nat ->
  exists f', set_frame_props_ spec f info = Ok f' /\ frame_shows (os, n_dropped_packets info) f'.
Proof.
  intros Hr Hraw Hne Hu Hdec. pose proof (renders_length _ _ Hr) as Hl. unfold set_frame_props_.
  unfold Frame.num_raw_samples. rewrite Hraw. cbn [negb panic_if res_bind]. rewrite Hl, Nat.div_mul by lia.
  rewrite wrap_u_small by done. unfold Frame.set_duration.
  assert (0 < length os)%nat by (destruct os; [done|cbn; lia]).
  rewrite (proj2 (Z.eqb_neq _ _)) by lia. cbn [panic_if res_bind].
  set (flags := (if negb (n_dropped_packets info =? 0)%nat then _ else _) : Z).
  assert (forall c, frame_shows (os, n_dropped_packets info) (Frame.mk (Frame.samples_ f) flags (Z.of_nat (length os)) c)) as Hshows.
  { intros c. unfold frame_shows, Frame.is_raw. cbn [Frame.samples_ Frame.flags_ Frame.duration_].
    rewrite <- decoded_pos, <- decoded_lt. subst flags. rewrite Hdec.
    pose proof (decoded_le os).
    destruct (Nat.eqb_spec (decoded os * chans) 0); destruct (Nat.ltb_spec (decoded os * chans) (length os * chans));
      destruct (Nat.eqb_spec (n_dropped_packets info) 0); cbn [negb];
      (split; [done|]; split; [done|]; split; [done|]); split_and!; split; intros; try done; try nia. }
  case_if; [|by eexists]. unfold Frame.set_capture_timestamp.
  rewrite (proj2 (Z.ltb_ge _ _)) by lia. by eexists.
Qed.

Lemma read_frame_ok fuel f n d s :
  at_stream d s -> (packets_left d < fuel)%nat ->
  Frame.is_raw f = true -> length (Frame.samples_ f) = (n * chans)%nat -> 0 < Z.of_nat n < 2 ^ 32 ->
  exists os f' d' s', read spec beep_ beep_sample fuel f d = Ok (f', d')
    /\ play n s = (os, s') /\ frame_shows (os, skips n s) f' /\ at_stream d' s'
    /\ (packets_left d' <= packets_left d)%nat.
Proof.
  intros Hat Hfuel Hraw Hl Hn. unfold read, read_frame_, Frame.raw_samples, Frame.num_raw_samples.
  rewrite Hraw. cbn [negb panic_if res_bind]. rewrite Hl, Nat.Div0.mod_mul. cbn [Nat.eqb negb].
  destruct (read_loop_ok fuel fuel 0 n (Frame.samples_ f) info_empty d s) as
    (os & xs & info & d' & s' & E & Hplay & Hr & Hat' & Hdec & Hdp & Hleft); try done; try lia.
  { by exists 0%nat. }
  rewrite Nat.mul_0_l in E. rewrite E. cbn [res_bind]. rewrite Nat.eqb_refl. cbn [negb].
  rewrite Nat.sub_0_r in Hplay.
  pose proof (length_play n s) as Hlo. rewrite Hplay in Hlo. cbn [fst] in Hlo.
  pose proof (renders_length _ _ Hr) as Hlx.
  assert (overwrite (Frame.samples_ f) 0 xs = xs) as ->.
  { unfold overwrite. cbn [take app]. rewrite drop_ge by (rewrite Hlx, Hl; nia). apply app_nil_r. }
  destruct (set_frame_props_ok (Frame.set_samples xs f) info os) as (f' & -> & Hshow); try done.
  { intros E1. rewrite E1 in Hlo. cbn in Hlo. lia. } { unfold is_u. lia. }
  cbn [res_bind]. rewrite Nat.sub_0_r in Hdp. cbn [n_dropped_packets info_empty Nat.add] in Hdp.
  rewrite Hdp in Hshow. by exists os, f', d', s'.
Qed.

(** ** Packets that arrive *)

(** A packet at the end of what is to be played. *)
Definition arrive (x : Z * list block) (s : stream) : stream := mkStream (started s) (at_ s) (pending s ++ [x]).

Lemma arrive_ok p d s :
  at_stream d s -> packet_ok p ->
  exists r, write (reader_ d) (Some p) = Ok (StatusOK, r)
    /\ at_stream (set_reader r d) (arrive (packet_entry p) s)
    /\ packets_left (set_reader r d) = S (packets_left d).
Proof.
  intros (Hok & Hst & Hts & Hat & Hpk) Hp. destruct (fifo_write (reader_ d) p) as (r & -> & Ec).
  exists r. split; [done|]. unfold at_stream, packets_left, arrive.
  cbn [set_reader reader_ payload_decoder_ packet_ stream_ts_ first_packet_ started at_ pending].
  rewrite Ec, length_app, fmap_app. cbn [fmap list_fmap length]. split; [|lia].
  split; [apply Forall_app; by split; [|constructor]|]. split_and!; try done. cbn zeta in *.
  destruct (packet_ d).
  - destruct Hpk as (Hf & dist & rest & H1 & H2 & H3 & H4 & H5 & ->). split; [done|].
    exists dist, rest. split_and!; try done; lia.
  - destruct Hpk as [Hi [-> |[Hf ->]]]; split; try done; [by left|by right].
Qed.

(** ** Sessions *)

(** A packet is put to the queue, or a frame of given contents is read. *)
Inductive operation : Type :=
| Arrive (p : Packet)
| ReadFrame (buf : list Frame.sample_t).

Fixpoint run (fuel : nat) (ops : list operation) (d : depacketizer) : res (list Frame.t * depacketizer) :=
  match ops with
  | [] => Ok ([], d)
  | Arrive p :: ops =>
      let* '(code, r) := write (reader_ d) (Some p) in
      run fuel ops (set_reader r d)
  | ReadFrame buf :: ops =>
      let* '(f, d) := read spec beep_ beep_sample fuel (Frame.make buf) d in
      let* '(fs, d) := run fuel ops d in
      Ok (f :: fs, d)
  end.

(** The same on the stream: the blocks of each frame and the number of packets that are
    skipped during it. *)
Fixpoint play_ops (ops : list operation) (s : stream) : list (list (option block) * nat) :=
  match ops with
  | [] => []
  | Arrive p :: ops => play_ops ops (arrive (packet_entry p) s)
  | ReadFrame buf :: ops =>
      let n := (length buf / chans)%nat in
      let '(os, s') := play n s in (os, skips n s) :: play_ops ops s'
  end.

Definition operation_ok (o : operation) : Prop :=
  match o with
  | Arrive p => packet_ok p
  | ReadFrame buf =>
      (length buf mod chans = 0)%nat /\ 0 < Z.of_nat (length buf / chans) < 2 ^ 32
  end.

Fixpoint arrivals (ops : list operation) : nat :=
  match ops with
  | [] => 0
  | Arrive _ :: ops => S (arrivals ops)
  | ReadFrame _ :: ops => arrivals ops
  end.

Lemma depack_run_ok fuel ops d s :
  at_stream d s -> Forall operation_ok ops -> (packets_left d + arrivals ops < fuel)%nat ->
  exists fs d', run fuel ops d = Ok (fs, d') /\ Forall2 frame_shows (play_ops ops s) fs.
Proof.
  intros Hat Hops. revert d s Hat. induction Hops as [|o ops Ho _ IH]; intros d s Hat Hfuel.
  { exists [], d. split; [done|]. constructor. }
  destruct o as [p|buf]; cbn [run play_ops].
  - destruct (arrive_ok p d s Hat Ho) as (r & -> & Hat' & Hleft). cbn [res_bind]. apply IH; [done|].
    rewrite Hleft. cbn [arrivals] in Hfuel. lia.
  - destruct Ho as [Hmod Hn].
    assert (length buf = length buf / chans * chans)%nat as Hl.
    { pose proof (Nat.div_mod (length buf) chans ltac:(lia)). lia. }
    cbn [arrivals] in Hfuel.
    destruct (read_frame_ok fuel (Frame.make buf) (length buf / chans) d s) as
      (os & f & d' & s' & -> & -> & Hshow & Hat' & Hleft); try done; try lia.
    cbn [res_bind]. destruct (IH d' s' Hat') as (fs & d2 & -> & Hfs); [lia|].
    cbn [res_bind]. exists (f :: fs), d2. split; [done|]. by constructor.
Qed.

Lemma make_at_stream reader decoder d :
  make spec reader decoder = Ok d -> content reader = [] -> idle decoder -> at_stream d stream_start.
Proof.
  unfold make. rewrite spec_valid, spec_raw. cbn [negb orb panic_if]. intros E Hr Hi. injection E as <-.
  unfold at_stream. cbn. rewrite Hr. split_and!; first [done | by left].
Qed.

End Refinement.

(** C9: Whatever packets with at least one block arrive, in whatever order and at whatever
    times, and whatever the sizes of the frames that are read, the depacketizer does not
    panic, and the frames show one stream: it starts at the first packet, each block of a
    packet is at its stream timestamp (which wraps), packets that are late are dropped and
    the late part of a packet is cut, and what is missing is silence or beeps.  Every frame
    has the asked length, is not blank when it shows a block of a packet, is incomplete when
    a block is missing, and tells when packets were dropped. *)
Theorem depacketizer_plays_stream {R D : Type} `{IReader R} `{IWriter R} `{!FifoWriter R} `{!FifoQueue R}
    `{IFrameDecoder D} (spec : SampleSpec.t) (beep_ : bool) (beep_sample : nat -> Frame.sample_t)
    `{!FrameDecoder D (Depacketizer.num_channels spec)}
    (reader : R) (decoder : D) (ops : list operation) (fuel : nat) :
  SampleSpec.is_valid spec = true -> SampleSpec.is_raw spec = true ->
  (0 < Depacketizer.num_channels spec)%nat -> content reader = [] -> idle decoder ->
  Forall (operation_ok (D := D) spec) ops -> (arrivals ops < fuel)%nat ->
  exists d fs d', Depacketizer.make spec reader decoder = Ok d
    /\ run spec beep_ beep_sample fuel ops d = Ok (fs, d')
    /\ Forall2 (frame_shows spec beep_) (play_ops (D := D) spec ops stream_start) fs.
Proof.
  intros Hv Hr Hc Hcont Hi Hops Hfuel.
  assert (exists d, Depacketizer.make spec reader decoder = Ok d /\ Depacketizer.reader_ d = reader
    /\ Depacketizer.packet_ d = None) as (d & Hd & Er & Ep).
  { unfold Depacketizer.make. rewrite Hv, Hr. by eexists. }
  destruct (depack_run_ok spec beep_ beep_sample Hv Hc fuel ops d stream_start) as (fs & d' & Hrun & Hfs); try done.
  { by eapply make_at_stream. }
  { unfold packets_left. rewrite Er, Ep, Hcont. cbn. lia. }
  exists d, fs, d'. done.
Qed.

(** A packet whose payload is the whole buffer. *)
Definition plain_packet (ts : Z) (payload : bytes) : Packet :=
  mkPacket FlagRTP UDP_zero (mkRTP 0 0 ts 0 0 false 0 slice_empty (slice_whole (length payload)) slice_empty)
    FEC_zero slice_empty (slice_whole (length payload)) payload.

(** Two packets of two blocks, the second one overlapping the end of the first, and one that
    is late are read in frames of one, two and three blocks, the first of them before a packet
    has arrived. *)
Definition overlapping_session : list operation :=
  [ReadFrame (replicate 4 1); Arrive (plain_packet 0xffffffff [0x40; 0; 0; 0; 0x20; 0; 0; 0]);
   ReadFrame (replicate 2 1); Arrive (plain_packet 0 [0x7f; 0; 0; 0; 0x10; 0; 0; 0]);
   Arrive (plain_packet 0xfffffff0 [1; 0; 0; 0; 1; 0; 0; 0]); ReadFrame (replicate 6 1)].

#[local] Instance le_frame_decoder : IFrameDecoder PcmDecoder.t := PcmDecoder.decoder CPU_LE.

#[local] Instance le_frame_decoder_ok : FrameDecoder PcmDecoder.t (Depacketizer.num_channels raw_stereo) :=
  pcm_decoder_contract CPU_LE Pcm.SInt16 Pcm.Big 2 eq_refl stereo_pos.

Lemma plain_packet_ok ts payload : is_u 32 ts -> length payload = 8%nat -> packet_ok raw_stereo (plain_packet ts payload).
Proof.
  intros Hts Hl. exists payload. split; [|split; [|split]].
  - change (Ok (take (length payload) payload) = Ok payload). by rewrite take_ge.
  - change (Z.of_nat (length payload) < 2 ^ 31). rewrite Hl. done.
  - exact Hts.
  - change ((decode_frame CPU_LE Pcm.SInt16 Pcm.Big 2 ts payload).2 <> []).
    unfold decode_frame. rewrite Hl. cbn [snd]. intros E. apply (f_equal length) in E.
    rewrite length_raw_blocks in E. discriminate E.
Qed.

Lemma depacketizer_plays_stream_witness :
  (exists d fs d', Depacketizer.make raw_stereo (mkQueue []) le_decoder = Ok d
    /\ run raw_stereo false (fun _ => 0) 4 overlapping_session d = Ok (fs, d')
    /\ Forall2 (frame_shows raw_stereo false) (play_ops raw_stereo overlapping_session stream_start) fs)
  /\ play_ops raw_stereo overlapping_session stream_start
     = [([None; None], 0%nat); ([Some [0x3f000000; 0]], 0%nat);
        ([Some [0x3e800000; 0]; Some [0x3e000000; 0]; None], 1%nat)].
Proof.
  split; [|vm_compute; reflexivity].
  apply (depacketizer_plays_stream raw_stereo false (fun _ => 0) (mkQueue []) le_decoder overlapping_session 4).
  - reflexivity.
  - reflexivity.
  - exact stereo_pos.
  - reflexivity.
  - split; [split; reflexivity|split; reflexivity].
  - apply Forall_cons; split; [split; [reflexivity|vm_compute; split; reflexivity]|].
    apply Forall_cons; split; [apply plain_packet_ok; [vm_compute; split; [discriminate|reflexivity]|reflexivity]|].
    apply Forall_cons; split; [split; [reflexivity|vm_compute; split; reflexivity]|].
    do 2 (apply Forall_cons; split; [apply plain_packet_ok; [vm_compute; split; [discriminate|reflexivity]|reflexivity]|]).
    apply Forall_cons; split; [split; [reflexivity|vm_compute; split; reflexivity]|].
    constructor.
  - vm_compute. reflexivity.
Defined.
