(* ===== verification/Packetizer.v ===== *)
(** The packetizer (src/internal_modules/roc_audio/packetizer.cpp, packetizer.h): cuts the
    stream of samples of the frames that are written into packets of equal length.

    The composer, the specification and the address-free buffers are as in the FEC writer.
    The duration of a packet that is written wraps as a stream timestamp, the counters of the
    metrics as [uint64_t], and capture timestamps as [int64_t]. *)

From S2P Require Import Prelude Units Bytes Slice Packet Io Compose FecWriter RtpStream.
From S2P Require Import ChannelSet SampleSpec Frame.

#[local] Open Scope Z_scope.

(** ISequencer (src/internal_modules/roc_packet/isequencer.h) *)
Class ISequencer (S : Type) : Type :=
  next : S -> Packet -> Z -> Z -> res (Packet * S).

Definition rtp_sequencer : ISequencer Sequencer := sequencer_next.

#[global] Existing Instance rtp_sequencer.

Module Packetizer.

Record Metrics : Type := mkMetrics {
  packet_count : Z;           (* uint64_t *)
  payload_count : Z           (* uint64_t *)
}.

Section Packetizer.

Context {W S E F : Type} `{IWriter W} `{ISequencer S} `{IFrameEncoder E} `{IPacketFactory F}.

(** Fixed at construction. *)
Context (composer_ : IComposer) (sample_spec_ : SampleSpec.t).

Definition num_channels : nat := SampleSpec.num_channels sample_spec_.

Record t : Type := mk {
  writer_ : W;
  sequencer_ : S;
  payload_encoder_ : E;
  packet_factory_ : F;
  samples_per_packet_ : nat;
  payload_size_ : nat;
  packet_ : PacketPtr;
  packet_pos_ : nat;
  packet_cts_ : Z;            (* int64_t *)
  capture_ts_ : Z;            (* int64_t *)
  metrics_ : Metrics;
  valid_ : bool
}.

(** Constructor. *)
Definition make (writer : W) (sequencer : S) (payload_encoder : E) (packet_factory : F) (packet_length : Z)
    : res t :=
  let d n size valid :=
    mk writer sequencer payload_encoder packet_factory n size None 0 0 0 (mkMetrics 0 0) valid in
  panic_if (negb (SampleSpec.is_valid sample_spec_) || negb (SampleSpec.is_raw sample_spec_))
    (if packet_length <=? 0 then Ok (d 0%nat 0%nat false)
     else
       let* sts := SampleSpec.ns_2_stream_timestamp packet_length sample_spec_ in
       if sts <=? 0 then Ok (d 0%nat 0%nat false)
       else
         let n := Z.to_nat sts in
         Ok (d n (encoded_byte_count payload_encoder n) true)).

Definition is_valid (d : t) : bool := valid_ d.

Definition sample_rate : Z := SampleSpec.sample_rate_ sample_spec_.

Definition metrics (d : t) : Metrics := metrics_ d.

(** * Assignments *)

Definition set_factory (x : F) (d : t) : t :=
  mk (writer_ d) (sequencer_ d) (payload_encoder_ d) x (samples_per_packet_ d) (payload_size_ d) (packet_ d)
    (packet_pos_ d) (packet_cts_ d) (capture_ts_ d) (metrics_ d) (valid_ d).

Definition set_encoder (x : E) (d : t) : t :=
  mk (writer_ d) (sequencer_ d) x (packet_factory_ d) (samples_per_packet_ d) (payload_size_ d) (packet_ d)
    (packet_pos_ d) (packet_cts_ d) (capture_ts_ d) (metrics_ d) (valid_ d).

Definition set_sequencer (x : S) (d : t) : t :=
  mk (writer_ d) x (payload_encoder_ d) (packet_factory_ d) (samples_per_packet_ d) (payload_size_ d) (packet_ d)
    (packet_pos_ d) (packet_cts_ d) (capture_ts_ d) (metrics_ d) (valid_ d).

Definition set_writer (x : W) (d : t) : t :=
  mk x (sequencer_ d) (payload_encoder_ d) (packet_factory_ d) (samples_per_packet_ d) (payload_size_ d) (packet_ d)
    (packet_pos_ d) (packet_cts_ d) (capture_ts_ d) (metrics_ d) (valid_ d).

Definition set_packet (x : PacketPtr) (pos : nat) (cts : Z) (d : t) : t :=
  mk (writer_ d) (sequencer_ d) (payload_encoder_ d) (packet_factory_ d) (samples_per_packet_ d) (payload_size_ d)
    x pos cts (capture_ts_ d) (metrics_ d) (valid_ d).

Definition set_capture (x : Z) (d : t) : t :=
  mk (writer_ d) (sequencer_ d) (payload_encoder_ d) (packet_factory_ d) (samples_per_packet_ d) (payload_size_ d)
    (packet_ d) (packet_pos_ d) (packet_cts_ d) x (metrics_ d) (valid_ d).

Definition set_metrics (x : Metrics) (d : t) : t :=
  mk (writer_ d) (sequencer_ d) (payload_encoder_ d) (packet_factory_ d) (samples_per_packet_ d) (payload_size_ d)
    (packet_ d) (packet_pos_ d) (packet_cts_ d) (capture_ts_ d) x (valid_ d).

(** * Packets *)

Definition create_packet_ (d : t) : res (PacketPtr * t) :=
  let '(ok, factory) := new_packet (packet_factory_ d) in
  let d := set_factory factory d in
  if negb ok then Ok (None, d)
  else
    let* packet := add_flags Packet_new FlagAudio in
    let '(mem, factory) := new_packet_buffer (packet_factory_ d) in
    let d := set_factory factory d in
    match mem with
    | None => Ok (None, d)
    | Some mem =>
        let* '(ok, packet, buffer) :=
          composer_prepare composer_ (with_mem packet mem) (slice_whole (length mem)) (payload_size_ d) in
        if negb ok then Ok (None, d)
        else
          let* packet := add_flags packet FlagPrepared in
          let* packet := set_buffer packet buffer in
          Ok (Some packet, d)
    end.

Definition begin_packet_ (d : t) : res (bool * t) :=
  let* '(pp, d) := create_packet_ d in
  match pp with
  | None => Ok (false, d)
  | Some p =>
      let d := set_packet (Some p) 0 (capture_ts_ d) d in
      let* payload := packet_payload p in
      let* _ := slice_data payload in
      let* enc := encoder_begin (payload_encoder_ d) (sl_size payload) in
      Ok (true, set_encoder enc d)
  end.

Definition pad_packet_ (p : Packet) (written_payload_size : nat) (d : t) : res Packet :=
  if (written_payload_size =? payload_size_ d)%nat then Ok p
  else
    let* '(ok, p) := composer_pad composer_ p (payload_size_ d - written_payload_size) in
    if ok then Ok p else Panic.

Definition end_packet_ (d : t) : res t :=
  match packet_ d with
  | None => Panic
  | Some p =>
      let written_payload_size := encoded_byte_count (payload_encoder_ d) (packet_pos_ d) in
      panic_if (payload_size_ d <? written_payload_size)%nat
        (let* enc := encoder_end (payload_encoder_ d) in
         let d := set_encoder enc d in
         let* '(p, seq) := next (sequencer_ d) p (packet_cts_ d) (u32 (Z.of_nat (packet_pos_ d))) in
         let d := set_sequencer seq d in
         let* p :=
           if (packet_pos_ d <? samples_per_packet_ d)%nat
           then pad_packet_ p written_payload_size d else Ok p in
         let* '(code, writer) := write (writer_ d) (Some p) in
         let d := set_writer writer d in
         match code with
         | StatusOK =>
             let d := set_metrics
               (mkMetrics (u64 (packet_count (metrics_ d) + 1))
                  (u64 (payload_count (metrics_ d) + Z.of_nat written_payload_size))) d in
             Ok (set_packet None 0 0 d)
         | _ => Panic
         end)
  end.

(** * Frames *)

(** Encoding samples into the payload of the packet. *)
Definition encode_samples (samples : list Frame.sample_t) (n_requested : nat) (d : t) : res (nat * t) :=
  match packet_ d with
  | None => Panic
  | Some p =>
      let* payload := packet_payload p in
      let* data := slice_data payload in
      let* '(n_encoded, bs, enc) :=
        encoder_write (payload_encoder_ d) (slice_of (pkt_mem p) data (sl_size payload)) samples n_requested in
      let p := with_mem p (overwrite (pkt_mem p) data bs) in
      Ok (n_encoded, set_packet (Some p) (packet_pos_ d) (packet_cts_ d) (set_encoder enc d))
  end.

(** The loop of [write], with the samples from [buffer_ptr].  Each turn takes at least one
    of [buffer_samples], so this is fuel enough; with no fuel left it panics. *)
Fixpoint write_loop (fuel : nat) (buffer : list Frame.sample_t) (buffer_samples : nat) (d : t) : res t :=
  if (buffer_samples =? 0)%nat then Ok d
  else
    match fuel with
    | O => Panic
    | Datatypes.S fuel =>
        let* '(ok, d) :=
          match packet_ d with
          | None => begin_packet_ d
          | Some _ => Ok (true, d)
          end in
        if negb ok then Ok d
        else
          let n_requested := Nat.min buffer_samples (samples_per_packet_ d - packet_pos_ d) in
          let* '(n_encoded, d) := encode_samples (take (n_requested * num_channels) buffer) n_requested d in
          panic_if (negb (n_encoded =? n_requested)%nat)
            (let d := set_packet (packet_ d) (packet_pos_ d + n_encoded) (packet_cts_ d) d in
             let* d :=
               if negb (capture_ts_ d =? 0) then
                 let* ns := SampleSpec.samples_per_chan_2_ns (Z.of_nat n_encoded) sample_spec_ in
                 Ok (set_capture (s64 (capture_ts_ d + ns)) d)
               else Ok d in
             let* d := if (packet_pos_ d =? samples_per_packet_ d)%nat then end_packet_ d else Ok d in
             write_loop fuel (drop (n_encoded * num_channels) buffer) (buffer_samples - n_encoded) d)
    end.

Definition write (frame : Frame.t) (d : t) : res t :=
  let* n := Frame.num_raw_samples frame in
  panic_if (negb (n mod num_channels =? 0)%nat)
    (let* buffer := Frame.raw_samples frame in
     let d := set_capture (Frame.capture_timestamp_ frame) d in
     write_loop (n / num_channels) buffer (n / num_channels) d).

Definition flush (d : t) : res t :=
  match packet_ d with
  | Some _ => end_packet_ d
  | None => Ok d
  end.

End Packetizer.

Arguments t : clear implicits.

End Packetizer.
