(* ===== verification/PacketizerStream.v ===== *)
(** What the packetizer promises: however the samples are cut into frames, the packets that
    it writes carry them in order, in packets of the configured length, numbered by the
    sequencer without a gap. *)

From S2P Require Import Prelude Units Bytes Slice Packet Io Compose FecHeaders Wire FecWriter FecWriterStream RtpStream.
From S2P Require Import ChannelSet PcmFormat SampleSpec Frame Depacketizer PcmCodec PcmCodecOk Packetizer.

#[local] Open Scope Z_scope.

(** * Composers for media packets *)

Definition media_composer (c : IComposer) : Prop :=
  c = RtpComposer None \/ exists pid, c = FecComposer pid Source Footer (Some (RtpComposer None)).

(** What a composer needs besides the payload. *)
Definition overhead (c : IComposer) : nat :=
  match c with FecComposer pid _ _ _ => 12 + pid_size pid | RtpComposer _ => 12 end.

(** A packet with a payload of [size] bytes after the RTP header. *)
Definition media_packet (size : nat) (p : Packet) : Prop :=
  has_flags p FlagRTP = true /\ has_flags p FlagAudio = true /\ slice_bool (buffer_ p) = true
  /\ rtp_padding (rtp_ p) = slice_empty
  /\ rtp_payload (rtp_ p) = mkSlice (Some 12%nat) size (length (pkt_mem p))
  /\ (12 + size <= length (pkt_mem p))%nat.

Lemma media_prepare c m size :
  media_composer c -> (overhead c + size <= length m)%nat ->
  exists p buffer, composer_prepare c (with_mem (with_flags Packet_new FlagAudio) m) (slice_whole (length m)) size
      = Ok (true, p, buffer)
    /\ has_flags p FlagPrepared = false /\ buffer_ p = slice_empty /\ slice_bool buffer = true
    /\ forall p', p' = with_buffer (with_flags p (Z.lor (flags_ p) FlagPrepared)) buffer -> media_packet size p'.
Proof.
  unfold slice_whole. intros [->|[pid ->]] Hl; cbn [overhead] in Hl.
  - rewrite rtp_prepare_layout by (done || lia). eexists _, _. split; [reflexivity|].
    split; [done|]. split; [done|]. split; [done|]. intros p' ->. unfold media_packet. split_and!; first [done | cbn; lia].
  - rewrite fec_rtp_prepare_layout by (done || lia). eexists _, _. split; [reflexivity|].
    split; [done|]. split; [done|]. split; [done|]. intros p' ->. unfold media_packet. split_and!; first [done | cbn; lia].
Qed.

Lemma media_pad c p k ps :
  media_composer c -> media_packet (k + ps) p ->
  exists p', composer_pad c p ps = Ok (true, p')
    /\ pkt_mem p' = pkt_mem p /\ flags_ p' = flags_ p /\ buffer_ p' = buffer_ p
    /\ rtp_payload (rtp_ p') = mkSlice (Some 12%nat) k (length (pkt_mem p))
    /\ source_id (rtp_ p') = source_id (rtp_ p) /\ seqnum (rtp_ p') = seqnum (rtp_ p)
    /\ stream_timestamp (rtp_ p') = stream_timestamp (rtp_ p) /\ duration (rtp_ p') = duration (rtp_ p)
    /\ payload_type (rtp_ p') = payload_type (rtp_ p).
Proof.
  intros Hc (HR & _ & _ & Hp & Hl & _).
  assert (composer_pad c p ps = composer_pad (RtpComposer None) p ps) as -> by (by destruct Hc as [->|[pid ->]]).
  rewrite (rtp_pad_layout p 12 _ k ps HR Hp Hl). eexists. split; [reflexivity|]. done.
Qed.

(** * Cutting *)

(** The complete pieces of [k] samples, and the rest. *)
Definition cut (k : nat) (xs : list Frame.sample_t) : list (list Frame.sample_t) * list Frame.sample_t :=
  (blocks k (length xs / k) xs, drop (length xs / k * k) xs).

Lemma cut_short k xs : (length xs < k)%nat -> cut k xs = ([], xs).
Proof. intros Hl. unfold cut. by rewrite Nat.div_small. Qed.

Lemma cut_full k xs ys :
  length xs = k -> (0 < k)%nat -> cut k (xs ++ ys) = (xs :: (cut k ys).1, (cut k ys).2).
Proof.
  intros Hl Hk. unfold cut. rewrite length_app, Hl.
  replace (k + length ys)%nat with (1 * k + length ys)%nat by lia. rewrite Nat.div_add_l by lia.
  cbn [Nat.add blocks fst snd]. rewrite take_app_le, drop_app_ge, take_ge by lia.
  rewrite Hl, Nat.sub_diag, drop_0. f_equal.
  rewrite drop_app_ge by lia. f_equal. lia.
Qed.

Lemma cut_rest k xs : (0 < k)%nat -> (length (cut k xs).2 < k)%nat.
Proof.
  intros Hk. cbn [cut snd]. rewrite length_drop. pose proof (Nat.div_mod (length xs) k ltac:(lia)).
  pose proof (Nat.mod_upper_bound (length xs) k ltac:(lia)). lia.
Qed.

Section Packetizer.

Context {W E F : Type} `{HW : IWriter W} `{HF : !FifoWriter W} `{HE : IFrameEncoder E} `{HP : IPacketFactory F}.
Context (composer_ : IComposer) (sample_spec_ : SampleSpec.t).

Abbreviation chans := (Packetizer.num_channels sample_spec_).

Context `{HC : !FrameEncoder E chans}.
Context (n size : nat).
Context `{HS : !SupplyingFactory F (overhead composer_ + size)}.
Context (media : media_composer composer_) (spec_valid : SampleSpec.is_valid sample_spec_ = true).
Context (chans_pos : (0 < chans)%nat) (n_pos : (0 < n)%nat) (n_small : Z.of_nat n < 2 ^ 32).
Context (size_eq : size = size_of n).

Abbreviation packetizer := (Packetizer.t W Sequencer E F).
Import Packetizer.

(** ** What is sent *)

(** The sequencer after a packet of [m] samples per channel. *)
Definition advance (m : nat) (s : Sequencer) : Sequencer :=
  mkSequencer (seq_identity s) (seq_payload_type s) (u16 (seq_seqnum s + 1))
    (u32 (seq_stream_ts s + Z.of_nat m)) (seq_valid s).

Definition piece_length (xs : list Frame.sample_t) : nat := length xs / chans.

(** A packet with samples, with the numbers that the sequencer has next. *)
Definition carries (s : Sequencer) (xs : list Frame.sample_t) (p : Packet) : Prop :=
  has_flags p FlagRTP = true /\ has_flags p FlagAudio = true
  /\ source_id (rtp_ p) = id_ssrc (seq_identity s) /\ payload_type (rtp_ p) = seq_payload_type s
  /\ seqnum (rtp_ p) = seq_seqnum s /\ stream_timestamp (rtp_ p) = seq_stream_ts s
  /\ duration (rtp_ p) = Z.of_nat (piece_length xs)
  /\ Depacketizer.payload_data p = Ok (encode xs).

Fixpoint sent (s : Sequencer) (pieces : list (list Frame.sample_t)) (ps : list Packet) : Prop :=
  match pieces, ps with
  | [], [] => True
  | xs :: pieces, p :: ps => carries s xs p /\ sent (advance (piece_length xs) s) pieces ps
  | _, _ => False
  end.

Definition advance_all (s : Sequencer) (pieces : list (list Frame.sample_t)) : Sequencer :=
  fold_left (fun s xs => advance (piece_length xs) s) pieces s.

Lemma sent_app s pieces ps xs p :
  sent s pieces ps -> carries (advance_all s pieces) xs p -> sent s (pieces ++ [xs]) (ps ++ [p]).
Proof.
  revert s ps. induction pieces as [|ys pieces IH]; intros s [|q ps] Hs Hc; try done.
  destruct Hs as [Hq Hs]. split; [done|]. by apply IH.
Qed.

Lemma advance_all_identity s pieces : seq_identity (advance_all s pieces) = seq_identity s.
Proof. revert s. induction pieces as [|xs l IH]; intros s; [done|].
  change (advance_all s (xs :: l)) with (advance_all (advance (piece_length xs) s) l). by rewrite IH.
Qed.

(** ** The packet that is being filled *)

Definition filling (d : packetizer) (acc : list Frame.sample_t) (m : nat) : Prop :=
  exists p, packet_ d = Some p /\ media_packet size p /\ writing (payload_encoder_ d) size acc
    /\ packet_pos_ d = m /\ length acc = (m * chans)%nat /\ (m <= n)%nat
    /\ take (size_of m) (slice_of (pkt_mem p) 12 size) = encode acc.

(** What the packetizer keeps for all packets. *)
Definition configured (d : packetizer) : Prop :=
  samples_per_packet_ d = n /\ payload_size_ d = size /\ id_valid (seq_identity (sequencer_ d)) = true.

(** What was sent, with the samples that wait for the rest of their packet. *)
Definition at_cut (d : packetizer) (s0 : Sequencer) (pieces : list (list Frame.sample_t))
    (acc : list Frame.sample_t) : Prop :=
  configured d /\ sent s0 pieces (content (writer_ d)) /\ sequencer_ d = advance_all s0 pieces
  /\ (acc = [] /\ packet_ d = None /\ ready (payload_encoder_ d)
      \/ exists m, (0 < m < n)%nat /\ filling d acc m).

Lemma packet_payload_media k p :
  media_packet k p -> packet_payload p = Ok (mkSlice (Some 12%nat) k (length (pkt_mem p))).
Proof.
  intros (HR & _ & Hb & _ & Hl & _). unfold packet_payload, packet_rtp. by rewrite Hb, HR, Hl.
Qed.

Lemma create_packet_ok (d : packetizer) :
  payload_size_ d = size ->
  exists p f, create_packet_ composer_ d = Ok (Some p, set_factory f d) /\ media_packet size p.
Proof.
  intros Hs. unfold create_packet_. destruct (factory_packet (packet_factory_ d)) as [f1 ->]. cbn [negb].
  rewrite add_flags_ok by done. cbn [res_bind].
  change (packet_factory_ (set_factory f1 d)) with f1.
  destruct (factory_buffer f1) as (m & f2 & -> & Hm).
  change (payload_size_ (set_factory f2 (set_factory f1 d))) with (payload_size_ d). rewrite Hs.
  change (Z.lor (flags_ Packet_new) FlagAudio) with FlagAudio.
  destruct (media_prepare composer_ m size media Hm) as (p & buffer & -> & Hf & Hb & Hbuf & Hp).
  cbn [res_bind negb]. rewrite add_flags_ok by done. cbn [res_bind]. unfold set_buffer.
  cbn [buffer_ with_flags]. rewrite Hb. cbn [slice_bool slice_empty sl_data panic_if res_bind].
  eexists _, f2. split; [reflexivity|]. by apply Hp.
Qed.

Lemma begin_packet_ok (d : packetizer) :
  configured d -> packet_ d = None -> ready (payload_encoder_ d) ->
  exists d', begin_packet_ composer_ d = Ok (true, d') /\ filling d' [] 0 /\ configured d'
    /\ writer_ d' = writer_ d /\ sequencer_ d' = sequencer_ d.
Proof.
  intros (Hn & Hs & Hv) Hp Hr. unfold begin_packet_.
  destruct (create_packet_ok d Hs) as (p & f & -> & Hm). cbn [res_bind].
  rewrite (packet_payload_media _ _ Hm). cbn [res_bind slice_data sl_data sl_size].
  destruct (encoder_begin_ok (payload_encoder_ d) size Hr) as (enc & He & Hw).
  change (payload_encoder_ (set_packet (Some p) 0 (capture_ts_ (set_factory f d)) (set_factory f d)))
    with (payload_encoder_ d).
  rewrite He. cbn [res_bind]. eexists. split; [reflexivity|]. split; [|done].
  exists p. split_and!; try done; try lia.
  pose proof (encode_size [] 0 eq_refl) as H0. rewrite size_of_0 in *.
  apply nil_length_inv in H0. by rewrite H0.
Qed.

(** What the filling of a packet leaves as it is. *)
Definition same_env (d d' : packetizer) : Prop :=
  writer_ d' = writer_ d /\ sequencer_ d' = sequencer_ d
  /\ samples_per_packet_ d' = samples_per_packet_ d /\ payload_size_ d' = payload_size_ d.

Lemma encode_samples_ok (d : packetizer) acc m ys k :
  filling d acc m -> length ys = (k * chans)%nat -> (m + k <= n)%nat -> Forall encodable ys ->
  exists d', encode_samples ys k d = Ok (k, d')
    /\ (forall cts, filling (set_packet (packet_ d') (packet_pos_ d' + k) cts d') (acc ++ ys) (m + k))
    /\ same_env d d'.
Proof.
  intros (p & Hp & Hm & Hw & Hpos & Hl & _ & Ht) Hy Hk Hys. unfold encode_samples. rewrite Hp.
  rewrite (packet_payload_media _ _ Hm). cbn [res_bind slice_data sl_data sl_size].
  pose proof Hm as (HR & HA & Hb & Hpad & Hpl & Hfit).
  destruct (encoder_write_ok (payload_encoder_ d) size acc ys (slice_of (pkt_mem p) 12 size) m k) as
    (enc & bs & -> & Hw' & Hbs & Ht'); try done.
  { by apply length_slice_of. }
  { rewrite size_eq. by apply size_of_mono. }
  cbn [res_bind]. eexists. split; [reflexivity|]. split; [|done]. intros cts.
  exists (with_mem p (overwrite (pkt_mem p) 12 bs)).
  assert (length (overwrite (pkt_mem p) 12 bs) = length (pkt_mem p)) as Hmem by (rewrite length_overwrite; lia).
  split; [done|]. split.
  { unfold media_packet. cbn [pkt_mem with_mem rtp_ buffer_]. rewrite Hmem. done. }
  split; [done|]. split; [cbn; by rewrite Hpos|]. rewrite length_app, Hl, Hy. split; [lia|]. split; [done|].
  cbn [pkt_mem with_mem]. rewrite <- Hbs. rewrite slice_overwrite_same by lia. done.
Qed.

Lemma end_packet_ok (d : packetizer) acc m :
  configured d -> filling d acc m ->
  exists d' p, end_packet_ composer_ d = Ok d' /\ packet_ d' = None /\ ready (payload_encoder_ d')
    /\ content (writer_ d') = content (writer_ d) ++ [p] /\ carries (sequencer_ d) acc p
    /\ sequencer_ d' = advance (piece_length acc) (sequencer_ d)
    /\ samples_per_packet_ d' = n /\ payload_size_ d' = size.
Proof.
  intros (Hn & Hs & Hv) (p & Hp & Hm & Hw & Hpos & Hl & Hle & Ht). unfold end_packet_. rewrite Hp.
  rewrite (writing_count _ _ _ _ Hw), Hpos, Hs.
  assert (size_of m <= size)%nat as Hsize by (rewrite size_eq; by apply size_of_mono).
  unfold panic_if. rewrite (proj2 (Nat.ltb_ge _ _)) by done.
  destruct (encoder_end_ok _ _ _ Hw) as (enc & -> & Hr). cbn [res_bind].
  change (sequencer_ (set_encoder enc d)) with (sequencer_ d).
  change (packet_cts_ (set_encoder enc d)) with (packet_cts_ d).
  change (packet_pos_ (set_encoder enc d)) with (packet_pos_ d). rewrite Hpos.
  pose proof Hm as (HR & HA & Hb & Hpad & Hpl & Hfit).
  unfold next, rtp_sequencer. rewrite numbered_next by done. cbn [res_bind].
  assert (piece_length acc = m) as Hpiece by (unfold piece_length; rewrite Hl; by apply Nat.div_mul; lia).
  set (p1 := with_rtp p _). set (d1 := set_sequencer _ (set_encoder enc d)).
  change (packet_pos_ d1) with (packet_pos_ d). change (samples_per_packet_ d1) with (samples_per_packet_ d).
  change (writer_ d1) with (writer_ d). rewrite Hpos, Hn.
  assert (encode acc = slice_of (pkt_mem p) 12 (size_of m)) as Henc.
  { rewrite <- Ht. unfold slice_of. rewrite take_take. f_equal. lia. }
  assert (u32 (Z.of_nat m) = Z.of_nat m) as Hdur by (apply wrap_u_small; unfold is_u; lia).
  assert (exists p2, (if (m <? n)%nat then pad_packet_ composer_ p1 (size_of m) d1 else Ok p1) = Ok p2
    /\ carries (sequencer_ d) acc p2) as (p2 & -> & Hc).
  { assert (size_of m = size -> carries (sequencer_ d) acc p1) as Hsame.
    { intros Esz. unfold carries. rewrite Hpiece. subst p1. cbn [rtp_ with_rtp source_id payload_type seqnum
        stream_timestamp duration]. split_and!; try done.
      unfold Depacketizer.payload_data, packet_payload, packet_rtp. cbn [buffer_ with_rtp].
      change (has_flags (with_rtp p _) FlagRTP) with (has_flags p FlagRTP). rewrite Hb, HR.
      cbn [negb panic_if rtp_ rtp_payload]. rewrite Hpl. cbn [res_bind slice_data sl_data sl_size pkt_mem].
      by rewrite Henc, Esz. }
    destruct (Nat.ltb_spec m n) as [Hlt|Hge].
    - unfold pad_packet_. change (payload_size_ d1) with (payload_size_ d). rewrite Hs.
      destruct (Nat.eqb_spec (size_of m) size) as [Esz|Esz]; [exists p1; split; [done|by apply Hsame]|].
      destruct (media_pad composer_ p1 (size_of m) (size - size_of m) media) as
        (p2 & -> & E1 & E2 & E3 & E4 & E5 & E6 & E7 & E8 & E9).
      { replace (size_of m + (size - size_of m))%nat with size by lia. exact Hm. }
      cbn [res_bind]. exists p2. split; [done|]. unfold carries. rewrite Hpiece, E5, E6, E7, E8, E9.
      unfold has_flags. rewrite E2. split_and!; try done.
      unfold Depacketizer.payload_data, packet_payload, packet_rtp, has_flags. rewrite E3, E2.
      change (flags_ p1) with (flags_ p). change (buffer_ p1) with (buffer_ p). rewrite Hb.
      fold (has_flags p FlagRTP). rewrite HR. cbn [negb panic_if]. rewrite E4.
      cbn [res_bind slice_data sl_data sl_size]. rewrite E1. by rewrite Henc.
    - exists p1. split; [done|]. apply Hsame. rewrite size_eq. f_equal. lia. }
  cbn [res_bind]. destruct (fifo_write (writer_ d) p2) as (w & -> & Ew). cbn [res_bind].
  eexists _, p2. split; [reflexivity|]. split_and!; try done.
  cbn. unfold advance. by rewrite Hpiece, Hdur.
Qed.

(** ** Writing *)

Lemma write_loop_ok fuel (d : packetizer) s0 pieces acc ys b :
  at_cut d s0 pieces acc -> length ys = (b * chans)%nat -> (b <= fuel)%nat -> Forall encodable ys ->
  exists d', write_loop composer_ sample_spec_ fuel ys b d = Ok d'
    /\ at_cut d' s0 (pieces ++ (cut (n * chans) (acc ++ ys)).1) (cut (n * chans) (acc ++ ys)).2.
Proof.
  revert d pieces acc ys b. induction fuel as [|fuel IH]; intros d pieces acc ys b Hat Hy Hb Hys.
  all: assert (length acc < n * chans)%nat as Hacc
    by (destruct Hat as (_ & _ & _ & [[-> _]|(m & Hm & p & _ & _ & _ & _ & -> & _)]); [cbn|]; nia).
  all: cbn [write_loop]; destruct (Nat.eqb_spec b 0) as [->|Hne].
  1, 3: assert (ys = []) as -> by (by apply nil_length_inv);
    exists d; rewrite app_nil_r, cut_short by done; cbn [fst snd]; rewrite app_nil_r; done.
  { lia. }
  destruct Hat as (Hcfg & Hsent & Hseq & Hcase).
  assert (exists d1 m, (match packet_ d with None => begin_packet_ composer_ d | Some _ => Ok (true, d) end) = Ok (true, d1)
    /\ filling d1 acc m /\ (m < n)%nat /\ configured d1 /\ writer_ d1 = writer_ d /\ sequencer_ d1 = sequencer_ d)
    as (d1 & m & -> & Hfill & Hmn & Hcfg1 & Ew1 & Es1).
  { destruct Hcase as [(-> & Hp & Hr)|(m & Hm & Hfill)].
    - rewrite Hp. destruct (begin_packet_ok d Hcfg Hp Hr) as (d1 & -> & Hf & Hc1 & Ew & Es). exists d1, 0%nat. done.
    - exists d, m. pose proof Hfill as (p & -> & _). split_and!; try done. lia. }
  cbn [res_bind negb]. pose proof Hfill as (_ & _ & _ & _ & Hpos & Hlacc & _). rewrite Hpos.
  pose proof Hcfg1 as (Hn & Hs & Hv). rewrite Hn. set (k := Nat.min b (n - m)).
  destruct (encode_samples_ok d1 acc m (take (k * chans) ys) k) as (d2 & -> & Hf2 & He2).
  { done. } { rewrite length_take. subst k. nia. } { subst k. lia. } { by apply Forall_take. }
  cbn [res_bind]. rewrite Nat.eqb_refl. cbn [negb panic_if]. cbv zeta.
  set (d3 := set_packet (packet_ d2) (packet_pos_ d2 + k) (packet_cts_ d2) d2).
  match goal with |- context [res_bind (if negb (capture_ts_ d3 =? 0) then ?x else ?y)] =>
    assert (exists c, (if negb (capture_ts_ d3 =? 0) then x else y) = Ok (set_capture c d3)) as (c & ->) end.
  { destruct (negb (capture_ts_ d3 =? 0)).
    - unfold SampleSpec.samples_per_chan_2_ns. rewrite spec_valid. by eexists.
    - exists (capture_ts_ d3). by destruct d3. }
  cbn [res_bind]. set (d4 := set_capture c d3).
  assert (filling d4 (acc ++ take (k * chans) ys) (m + k)) as Hf4 by exact (Hf2 (packet_cts_ d2)).
  assert (same_env d1 d4) as (Ew4 & Es4 & En4 & Ez4) by exact He2.
  assert (configured d4) as Hcfg4 by (unfold configured; by rewrite Es4, En4, Ez4).
  pose proof Hf4 as (_ & _ & _ & _ & Hpos4 & Hl4 & _). rewrite Hpos4.
  rewrite En4, Hn.
  assert (acc ++ ys = (acc ++ take (k * chans) ys) ++ drop (k * chans) ys) as -> by (by rewrite <- app_assoc, take_drop).
  set (acc' := acc ++ take (k * chans) ys) in *.
  assert (length (drop (k * chans) ys) = ((b - k) * chans)%nat) as Hy2 by (rewrite length_drop; nia).
  assert (Forall encodable (drop (k * chans) ys)) as Hys2 by (by apply Forall_drop).
  assert (0 < k)%nat as Hk by (subst k; lia).
  destruct (Nat.eqb_spec (m + k) n) as [Efull|Epart].
  - destruct (end_packet_ok d4 acc' (m + k) Hcfg4 Hf4) as (d5 & p & -> & Hp5 & Hr5 & Ec5 & Hc5 & Es5 & En5 & Ez5).
    cbn [res_bind].
    destruct (IH d5 (pieces ++ [acc']) [] (drop (k * chans) ys) (b - k)%nat) as (d' & -> & Hat'); try done; try lia.
    { split; [|split; [|split]].
      - unfold configured. rewrite Es5, Es4, Es1. cbn [advance seq_identity]. by destruct Hcfg as (_ & _ & ?).
      - rewrite Ec5, Ew4, Ew1. apply sent_app; [done|]. by rewrite <- Hseq, <- Es1, <- Es4.
      - rewrite Es5, Es4, Es1, Hseq. unfold advance_all. by rewrite fold_left_app.
      - by left. }
    exists d'. split; [done|]. cbn [app] in Hat'. rewrite cut_full by nia. cbn [fst snd].
    by rewrite cons_middle, app_assoc.
  - assert (b - k = 0)%nat as Eb by (subst k; lia). cbn [res_bind].
    destruct (IH d4 pieces acc' (drop (k * chans) ys) (b - k)%nat) as (d' & -> & Hat'); try done; try lia.
    { split; [done|]. rewrite Ew4, Ew1, Es4, Es1. split; [done|]. split; [done|]. right.
      exists (m + k)%nat. split; [subst k; lia|done]. }
    by exists d'.
Qed.

Lemma write_ok (d : packetizer) s0 pieces acc f :
  at_cut d s0 pieces acc -> Frame.is_raw f = true -> (length (Frame.samples_ f) mod chans = 0)%nat ->
  Forall encodable (Frame.samples_ f) ->
  exists d', write composer_ sample_spec_ f d = Ok d'
    /\ at_cut d' s0 (pieces ++ (cut (n * chans) (acc ++ Frame.samples_ f)).1) (cut (n * chans) (acc ++ Frame.samples_ f)).2.
Proof.
  intros Hat Hraw Hmod Henc. unfold write, Frame.num_raw_samples, Frame.raw_samples.
  rewrite Hraw. cbn [negb panic_if res_bind]. rewrite Hmod. cbn [Nat.eqb negb].
  apply write_loop_ok; [exact Hat| |done|done].
  pose proof (Nat.div_mod (length (Frame.samples_ f)) chans ltac:(lia)). lia.
Qed.

Lemma flush_ok (d : packetizer) s0 pieces acc :
  at_cut d s0 pieces acc ->
  exists d', flush composer_ d = Ok d' /\ at_cut d' s0 (pieces ++ match acc with [] => [] | _ => [acc] end) [].
Proof.
  intros (Hcfg & Hsent & Hseq & Hcase). unfold flush. destruct Hcase as [(-> & Hp & Hr)|(m & Hm & Hfill)].
  - rewrite Hp. exists d. rewrite app_nil_r. split; [done|]. split; [done|]. split; [done|]. split; [done|]. by left.
  - pose proof Hfill as (p & Hp & _ & _ & _ & Hl & _). rewrite Hp.
    destruct (end_packet_ok d acc m Hcfg Hfill) as (d5 & p5 & -> & Hp5 & Hr5 & Ec5 & Hc5 & Es5 & En5 & Ez5).
    exists d5. split; [done|]. destruct acc as [|x acc']; [cbn in Hl; nia|]. set (acc := x :: acc') in *.
    split; [|split; [|split]].
    + unfold configured. rewrite Es5. cbn [advance seq_identity]. by destruct Hcfg as (_ & _ & ?).
    + rewrite Ec5. apply sent_app; [done|]. by rewrite <- Hseq.
    + rewrite Es5, Hseq. unfold advance_all. by rewrite fold_left_app.
    + by left.
Qed.

(** ** Sessions *)

(** A frame of samples that were captured at a time (zero when it is not known) is written, or
    the packet that is being filled is sent as it is. *)
Inductive operation : Type :=
| Write (samples : list Frame.sample_t) (capture : Z)
| Flush.

Fixpoint run (ops : list operation) (d : packetizer) : res packetizer :=
  match ops with
  | [] => Ok d
  | Write xs capture :: ops =>
      let* f := Frame.set_capture_timestamp capture (Frame.make xs) in
      let* d := write composer_ sample_spec_ f d in
      run ops d
  | Flush :: ops => let* d := flush composer_ d in run ops d
  end.

(** The pieces that the packets of a session hold. *)
Fixpoint pieces_of (ops : list operation) (acc : list Frame.sample_t) : list (list Frame.sample_t) :=
  match ops with
  | [] => []
  | Write xs _ :: ops => let '(l, acc) := cut (n * chans) (acc ++ xs) in l ++ pieces_of ops acc
  | Flush :: ops => (match acc with [] => [] | _ => [acc] end) ++ pieces_of ops []
  end.

Definition operation_ok (o : operation) : Prop :=
  match o with
  | Write xs capture => (length xs mod chans = 0)%nat /\ Forall encodable xs /\ 0 <= capture
  | Flush => True
  end.

Lemma pack_run_ok ops (d : packetizer) s0 pieces acc :
  at_cut d s0 pieces acc -> Forall operation_ok ops ->
  exists d' acc', run ops d = Ok d' /\ at_cut d' s0 (pieces ++ pieces_of ops acc) acc'.
Proof.
  intros Hat Hops. revert d pieces acc Hat. induction Hops as [|o ops Ho _ IH]; intros d pieces acc Hat.
  { exists d, acc. cbn. by rewrite app_nil_r. }
  destruct o as [xs cts|]; cbn [run pieces_of].
  - destruct Ho as (Hmod & Henc & Hcts). unfold Frame.set_capture_timestamp.
    rewrite (proj2 (Z.ltb_ge _ _)) by done. cbn [panic_if res_bind Frame.make Frame.samples_ Frame.flags_ Frame.duration_].
    destruct (write_ok d s0 pieces acc (Frame.mk xs 0 0 cts) Hat eq_refl Hmod Henc) as (d1 & -> & Hat1).
    cbn [res_bind]. destruct (IH d1 _ _ Hat1) as (d' & acc' & Erun & Hat'). exists d', acc'. split; [done|].
    rewrite <- app_assoc in Hat'. exact Hat'.
  - destruct (flush_ok d s0 pieces acc Hat) as (d1 & -> & Hat1).
    cbn [res_bind]. destruct (IH d1 _ _ Hat1) as (d' & acc' & Erun & Hat'). exists d', acc'. split; [done|].
    rewrite <- app_assoc in Hat'. exact Hat'.
Qed.

(** What is written by a session. *)
Definition written (ops : list operation) : list Frame.sample_t :=
  mjoin ((fun o => match o with Write xs _ => xs | Flush => [] end) <$> ops).

Lemma cut_join k xs : (0 < k)%nat -> mjoin (cut k xs).1 ++ (cut k xs).2 = xs.
Proof.
  intros Hk. cbn [cut fst snd]. pose proof (Nat.div_mod (length xs) k ltac:(lia)).
  rewrite blocks_join by lia. apply take_drop.
Qed.

Lemma pieces_written ops acc :
  (length acc < n * chans)%nat ->
  exists rest, mjoin (pieces_of ops acc) ++ rest = acc ++ written ops /\ (length rest < n * chans)%nat.
Proof.
  revert acc. induction ops as [|[xs cts|] ops IH]; intros acc Hacc.
  - exists acc. cbn. by rewrite app_nil_r.
  - cbn [pieces_of]. pose proof (cut_join (n * chans) (acc ++ xs) ltac:(nia)) as Hj.
    pose proof (cut_rest (n * chans) (acc ++ xs) ltac:(nia)) as Hr.
    destruct (cut (n * chans) (acc ++ xs)) as [l acc1]. cbn [fst snd] in *.
    destruct (IH acc1 Hr) as (rest & Erest & Hrest). exists rest. split; [|done].
    change (written (Write xs cts :: ops)) with (xs ++ written ops).
    rewrite join_app, <- app_assoc, Erest, !app_assoc. by rewrite Hj.
  - cbn [pieces_of]. destruct (IH []) as (rest & Erest & Hrest); [cbn; nia|]. exists rest. split; [|done].
    change (written (Flush :: ops)) with (written ops).
    rewrite join_app, <- app_assoc, Erest. destruct acc as [|x acc]; [done|]. cbn. by rewrite app_nil_r.
Qed.

(** Every piece is one block or more, and not more than a packet holds. *)
Definition piece_ok (xs : list Frame.sample_t) : Prop :=
  exists m, length xs = (m * chans)%nat /\ (0 < m <= n)%nat.

Lemma pieces_ok ops acc m :
  length acc = (m * chans)%nat -> (m < n)%nat -> Forall operation_ok ops -> Forall piece_ok (pieces_of ops acc).
Proof.
  intros Hacc Hm Hops. revert acc m Hacc Hm. induction Hops as [|[xs cts|] ops Ho _ IH]; intros acc m Hacc Hm;
    cbn [pieces_of]; [constructor| |].
  - destruct Ho as [Hmod _]. pose proof (Nat.div_mod (length xs) chans ltac:(lia)) as Hd. rewrite Hmod, Nat.add_0_r in Hd.
    set (b := (length xs / chans)%nat) in *.
    assert (length (acc ++ xs) = ((m + b) * chans)%nat) as Hl by (rewrite length_app; nia).
    assert (length (acc ++ xs) / (n * chans) = (m + b) / n)%nat as Hq.
    { rewrite Hl. apply Nat.Div0.div_mul_cancel_r. lia. }
    unfold cut. rewrite Hq. pose proof (Nat.div_mod (m + b) n ltac:(lia)) as Hdm.
    pose proof (Nat.mod_upper_bound (m + b) n ltac:(lia)). apply Forall_app. split.
    + eapply Forall_impl; [apply blocks_Forall|]; [rewrite Hl; nia|].
      cbv beta. intros ys Hys. exists n. rewrite Hys. lia.
    + apply (IH _ ((m + b) mod n)%nat); [|done]. rewrite length_drop, Hl. nia.
  - apply Forall_app. split; [|apply (IH [] 0%nat); [done|lia]].
    destruct acc as [|x acc]; constructor; [|constructor]. exists m. split; [done|]. cbn in Hacc. nia.
Qed.

End Packetizer.

Lemma ns_2_stream_timestamp_range ns spec sts :
  SampleSpec.ns_2_stream_timestamp ns spec = Ok sts -> sts < 2 ^ 32.
Proof.
  unfold SampleSpec.ns_2_stream_timestamp, panic_if. repeat case_if; try done. intros [= <-].
  unfold SampleSpec.ns_2_int_samples. change (u32 1) with 1. rewrite !Z.quot_1_r.
  repeat case_if; try lia. rewrite Z.mul_1_r. apply wrap_u_range. done.
Qed.

(** A packetizer that was constructed as valid. *)
Lemma make_at_cut {W E F : Type} `{IWriter W} `{!FifoWriter W} `{IFrameEncoder E} `{IPacketFactory F}
    (spec : SampleSpec.t) `{!FrameEncoder E (Packetizer.num_channels spec)}
    (writer : W) (sequencer : Sequencer) (encoder : E) (factory : F) (packet_length : Z) d :
  Packetizer.make spec writer sequencer encoder factory packet_length = Ok d -> Packetizer.is_valid d = true ->
  id_valid (seq_identity sequencer) = true -> content writer = [] -> ready encoder ->
  let n := Packetizer.samples_per_packet_ d in
  SampleSpec.is_valid spec = true /\ (0 < n)%nat /\ Z.of_nat n < 2 ^ 32
  /\ Packetizer.payload_size_ d = size_of n /\ at_cut spec n (size_of n) d sequencer [] [].
Proof.
  intros Hmake Hvalid Hid Hcont Hready n. unfold Packetizer.make in Hmake.
  destruct (SampleSpec.is_valid spec) eqn:Hspec; [|done]. destruct (SampleSpec.is_raw spec); [|done].
  cbn [negb orb panic_if] in Hmake.
  destruct (packet_length <=? 0); [injection Hmake as <-; done|].
  destruct (SampleSpec.ns_2_stream_timestamp packet_length spec) as [sts|] eqn:Ests; [|done].
  cbn [res_bind] in Hmake. destruct (Z.leb_spec sts 0) as [|Hpos]; [injection Hmake as <-; done|].
  apply ns_2_stream_timestamp_range in Ests.
  injection Hmake as <-. cbn [Packetizer.samples_per_packet_] in n. subst n.
  pose proof (ready_count encoder (Z.to_nat sts) Hready) as Hcount.
  split_and!; try done; try lia; try exact Hcount.
  split; [done|]. split; [|split; [done|by left]].
  change (sent spec sequencer [] (content writer)). by rewrite Hcont.
Qed.

(** C10: However samples are cut into frames, captured at whatever times, and whenever
    it is flushed, a packetizer that was constructed as valid does not panic, and the
    packets that it writes carry exactly the samples that were written, in order, short
    of those that wait for the rest of their packet: each packet has the encoding of its
    samples as payload (padding excluded), at most the configured number of blocks and
    at least one, the sequence number after that of the packet before and the stream
    timestamp at the end of it. *)
Theorem packetizer_carries_stream {W E F : Type} `{IWriter W} `{!FifoWriter W} `{IFrameEncoder E} `{IPacketFactory F}
    (composer_ : IComposer) (spec : SampleSpec.t) `{!FrameEncoder E (Packetizer.num_channels spec)}
    (writer : W) (sequencer : Sequencer) (encoder : E) (factory : F) (packet_length : Z) d ops :
  Packetizer.make spec writer sequencer encoder factory packet_length = Ok d -> Packetizer.is_valid d = true ->
  SupplyingFactory F (overhead composer_ + size_of (Packetizer.samples_per_packet_ d)) ->
  media_composer composer_ -> (0 < Packetizer.num_channels spec)%nat ->
  id_valid (seq_identity sequencer) = true -> content writer = [] -> ready encoder ->
  Forall (operation_ok spec) ops ->
  let pieces := pieces_of spec (Packetizer.samples_per_packet_ d) ops [] in
  exists d' rest, run composer_ spec ops d = Ok d'
    /\ sent spec sequencer pieces (content (Packetizer.writer_ d'))
    /\ mjoin pieces ++ rest = written ops
    /\ (length rest < Packetizer.samples_per_packet_ d * Packetizer.num_channels spec)%nat
    /\ Forall (piece_ok spec (Packetizer.samples_per_packet_ d)) pieces.
Proof.
  intros Hmake Hvalid Hsup Hmedia Hchans Hid Hcont Hready Hops pieces.
  destruct (make_at_cut spec writer sequencer encoder factory packet_length d) as (Hspec & Hn & Hn32 & _ & Hat); try done.
  set (n := Packetizer.samples_per_packet_ d) in *.
  destruct (pack_run_ok composer_ spec n (size_of n) Hmedia Hspec Hchans Hn Hn32 eq_refl ops d sequencer [] [] Hat Hops)
    as (d' & acc' & Hrun & Hat').
  destruct (pieces_written spec n (size_of n) Hchans Hn eq_refl ops [] ltac:(cbn; nia)) as (rest & Hrest & Hlen).
  exists d', rest. destruct Hat' as (_ & Hsent & _). split; [exact Hrun|]. split; [exact Hsent|].
  split; [exact Hrest|]. split; [exact Hlen|].
  apply (pieces_ok spec n (size_of n) Hchans Hn Hn32 eq_refl ops [] 0); [done|exact Hn|done].
Qed.

#[local] Instance le_frame_encoder : IFrameEncoder PcmEncoder.t := PcmEncoder.encoder CPU_LE.

#[local] Instance le_frame_encoder_ok : FrameEncoder PcmEncoder.t (Packetizer.num_channels raw_stereo) :=
  pcm_encoder_contract CPU_LE Pcm.SInt16 Pcm.Big 2 eq_refl stereo_pos.

(** A sequencer whose next stream timestamp is the last one before the wrap. *)
Definition last_sequencer : Sequencer := mkSequencer (mkIdentity 7 true) 10 65535 0xffffffff true.

(** Packets of two blocks: three blocks in two frames, the last one flushed. *)
Definition three_blocks : list operation :=
  [Write [0x3f000000; 0; 0x3e800000; 0] 1700000000000000000; Write [0x3e000000; 0] 0; Flush].

Definition two_block_packetizer : Packetizer.t Queue Sequencer PcmEncoder.t unit :=
  Packetizer.mk (mkQueue []) last_sequencer le_encoder tt 2 8 None 0 0 0 (Packetizer.mkMetrics 0 0) true.

Lemma two_block_packetizer_made :
  Packetizer.make raw_stereo (mkQueue []) last_sequencer le_encoder tt 2000000 = Ok two_block_packetizer.
Proof.
  unfold Packetizer.make.
  assert (SampleSpec.ns_2_stream_timestamp 2000000 raw_stereo = Ok 2) as -> by (vm_compute; reflexivity).
  reflexivity.
Qed.

(** What is sent in a session. *)
Definition sent_queue (r : res (Packetizer.t Queue Sequencer PcmEncoder.t unit)) : list (res bytes * Z) :=
  match r with
  | Ok d => (fun p => (Depacketizer.payload_data p, packet_stream_timestamp p)) <$> queue_list (Packetizer.writer_ d)
  | Panic => []
  end.

Lemma packetizer_carries_stream_witness :
  (exists d' rest, run (RtpComposer None) raw_stereo three_blocks two_block_packetizer = Ok d'
    /\ sent raw_stereo last_sequencer (pieces_of raw_stereo 2 three_blocks []) (content (Packetizer.writer_ d'))
    /\ mjoin (pieces_of raw_stereo 2 three_blocks []) ++ rest = written three_blocks
    /\ (length rest < 4)%nat
    /\ Forall (piece_ok raw_stereo 2) (pieces_of raw_stereo 2 three_blocks []))
  /\ sent_queue (run (RtpComposer None) raw_stereo three_blocks two_block_packetizer)
     = [(Ok [0x40; 0; 0; 0; 0x20; 0; 0; 0], 0xffffffff); (Ok [0x10; 0; 0; 0], 1)].
Proof.
  split; [|vm_compute; reflexivity].
  apply (packetizer_carries_stream (RtpComposer None) raw_stereo (mkQueue []) last_sequencer le_encoder tt
    2000000 two_block_packetizer three_blocks two_block_packetizer_made); try reflexivity.
  - apply unit_supplies. vm_compute. repeat constructor.
  - by left.
  - exact stereo_pos.
  - split; [split; reflexivity|split; reflexivity].
  - assert (forall x, In x [0x3f000000; 0; 0x3e800000; 0x3e000000] -> raw_encodable Pcm.SInt16 x) as Hx.
    { intros x Hx. repeat destruct Hx as [<-|Hx]; try done; (split; [vm_compute; split; [discriminate|reflexivity]|vm_compute; reflexivity]). }
    apply Forall_cons; split; [split; [reflexivity|split; [repeat (apply Forall_cons; split; [apply Hx; cbn; tauto|]); constructor|done]]|].
    apply Forall_cons; split; [split; [reflexivity|split; [repeat (apply Forall_cons; split; [apply Hx; cbn; tauto|]); constructor|done]]|].
    apply Forall_cons; split; [exact I|]. constructor.
Defined.
