(* ===== verification/AudioStreaming.v ===== *)
(** From the packetizer to the depacketizer: the samples that a sender writes are the samples
    that a receiver reads, up to the precision of the format on the network. *)

From S2P Require Import Prelude Units Bytes Slice Packet Io Compose FecHeaders Wire FecWriter FecWriterStream RtpStream.
From S2P Require Import ChannelSet PcmFormat PcmFormatCorrect SampleSpec Frame PcmCodec PcmCodecOk.
From S2P Require Import Depacketizer DepacketizerStream Packetizer PacketizerStream.
Import Pcm.

#[local] Open Scope Z_scope.

(** * Streams without gaps *)

(** Packets of which each begins where the one before ends. *)
Fixpoint consecutive (ts : Z) (l : list (list block)) : list (Z * list block) :=
  match l with
  | [] => []
  | bs :: l => (ts, bs) :: consecutive (u32 (ts + Z.of_nat (length bs))) l
  end.

Definition playable (bs : list block) : Prop := bs <> [] /\ Z.of_nat (length bs) < 2 ^ 31.

(** After a packet that was played to its end. *)
Lemma play_consecutive_led M l ts :
  is_u 32 ts -> Forall playable l ->
  (play (length (mjoin l) + M) (mkStream true ts ((ts, []) :: consecutive ts l))).1
  = (Some <$> mjoin l) ++ replicate M None.
Proof.
  intros Hts Hl. revert ts Hts. induction Hl as [|bs l [Hne Hbs] Hl IH]; intros ts Hts.
  - cbn [consecutive mjoin list_join length Nat.add fmap list_fmap app]. rewrite play_silence; [done| |done].
    intros _. cbn [drop_late]. by rewrite late_end.
  - change (mjoin (bs :: l)) with (bs ++ mjoin l). rewrite length_app, <- Nat.add_assoc.
    assert (exists k, length bs = S k) as [k Ek] by (destruct bs; [done|by eexists]).
    assert (play (length bs + (length (mjoin l) + M)) (mkStream true ts ((ts, []) :: consecutive ts (bs :: l)))
      = play (length bs + (length (mjoin l) + M)) (mkStream true ts (consecutive ts (bs :: l)))) as ->.
    { rewrite Ek. cbn [Nat.add]. apply play_drop_late; [|done|done]. cbn [drop_late]. by rewrite late_end. }
    cbn [consecutive]. rewrite play_app, play_run by (done || lia). rewrite take_ge, drop_ge by lia.
    specialize (IH (u32 (ts + Z.of_nat (length bs))) ltac:(by apply wrap_u_range)).
    destruct (play (length (mjoin l) + M) _) as [os s'] eqn:E. cbn [fst] in *. rewrite IH.
    by rewrite fmap_app, app_assoc.
Qed.

(** From the start of the stream. *)
Lemma play_consecutive M l ts :
  is_u 32 ts -> Forall playable l ->
  (play (length (mjoin l) + M) (mkStream false 0 (consecutive ts l))).1 = (Some <$> mjoin l) ++ replicate M None.
Proof.
  intros Hts Hl. destruct Hl as [|bs l [Hne Hbs] Hl].
  - cbn [consecutive mjoin list_join length Nat.add fmap list_fmap app]. by rewrite play_silence.
  - rewrite <- (play_consecutive_led M (bs :: l) ts) by (done || by constructor).
    assert (exists k, length (mjoin (bs :: l)) + M = S k)%nat as [k ->].
    { change (mjoin (bs :: l)) with (bs ++ mjoin l). rewrite length_app. destruct bs; [done|]. by eexists. }
    rewrite (play_drop_late k ts _ (consecutive ts (bs :: l))); [|cbn [drop_late]; by rewrite late_end|done|done].
    done.
Qed.

Lemma play_prefix n m s : (play n s).1 = take n (play (n + m) s).1.
Proof.
  rewrite play_app. pose proof (length_play n s) as Hl. destruct (play n s) as [os s1]. destruct (play m s1) as [os' s2].
  cbn [fst] in *. rewrite take_app_le by lia. symmetry. apply take_ge. lia.
Qed.

(** Any number of blocks from the start: what there is, and then nothing. *)
Lemma play_resize T l ts :
  is_u 32 ts -> Forall playable l ->
  (play T (mkStream false 0 (consecutive ts l))).1 = resize T None (Some <$> mjoin l).
Proof.
  intros Hts Hl. rewrite (play_prefix T (length (mjoin l))), Nat.add_comm, play_consecutive by done.
  rewrite resize_spec, take_app, take_replicate, length_fmap. do 2 f_equal. lia.
Qed.

Section Render.

Context {R D : Type} `{IReader R} `{IFrameDecoder D} (spec : SampleSpec.t).

Abbreviation chans := (Depacketizer.num_channels spec).

Context `{!FrameDecoder D chans} (chans_pos : (0 < chans)%nat).

(** The samples that show blocks of the stream, without beeps. *)
Definition samples_of (os : list (option block)) : list Frame.sample_t :=
  mjoin (default (replicate chans 0) <$> os).

Lemma renders_samples os xs : renders spec false os xs -> xs = samples_of os.
Proof.
  intros (bs & -> & Hs). unfold samples_of. induction Hs as [|o b os bs [_ Ho] _ IH]; [done|].
  change (mjoin (b :: bs)) with (b ++ mjoin bs). cbn [fmap list_fmap mjoin list_join]. f_equal; [|exact IH].
  destruct o; [done|]. by apply Ho.
Qed.

Lemma frames_samples oss fs :
  Forall2 (frame_shows spec false) oss fs -> mjoin (Frame.samples_ <$> fs) = samples_of (mjoin oss.*1).
Proof.
  intros Hs. unfold samples_of. induction Hs as [|[os k] f oss fs (Hr & _) _ IH]; [done|].
  apply renders_samples in Hr.
  change (mjoin (Frame.samples_ <$> f :: fs)) with (Frame.samples_ f ++ mjoin (Frame.samples_ <$> fs)).
  change (mjoin ((os, k) :: oss).*1) with (os ++ mjoin oss.*1). by rewrite IH, Hr, fmap_app, join_app.
Qed.

Lemma samples_of_resize T bs :
  Forall (fun b => length b = chans) bs ->
  samples_of (resize T None (Some <$> bs)) = resize (T * chans) 0 (mjoin bs).
Proof.
  intros Hb. revert T. induction Hb as [|b bs Hb _ IH]; intros T.
  - cbn [fmap list_fmap mjoin list_join]. rewrite !resize_nil. unfold samples_of. rewrite fmap_replicate. cbn [default].
    clear. induction T as [|T IH]; [done|].
    change (mjoin (replicate (S T) ?b)) with (b ++ mjoin (replicate T b)). by rewrite IH, <- replicate_add.
  - destruct T as [|T]; [by rewrite !resize_0|].
    change (resize (S T) None (Some <$> b :: bs)) with (Some b :: resize T None (Some <$> bs)).
    change (samples_of (Some b :: ?l)) with (b ++ samples_of l). change (mjoin (b :: bs)) with (b ++ mjoin bs).
    rewrite IH. cbn [Nat.mul]. rewrite resize_app_ge by lia. f_equal. f_equal. lia.
Qed.

Lemma play_ops_arrive (ps : list Packet) ops s :
  play_ops spec ((Arrive <$> ps) ++ ops) s
  = play_ops spec ops (mkStream (started s) (at_ s) (pending s ++ (packet_entry spec <$> ps))).
Proof.
  revert s. induction ps as [|p ps IH]; intros s; cbn [fmap list_fmap app play_ops].
  - rewrite app_nil_r. by destruct s.
  - rewrite IH. unfold arrive. cbn [started at_ pending]. by rewrite <- app_assoc.
Qed.

Definition total (bufs : list (list Frame.sample_t)) : nat := sum_list (length <$> bufs).

Lemma play_ops_reads bufs s :
  Forall (fun b => length b mod chans = 0)%nat bufs ->
  (total bufs mod chans = 0)%nat
  /\ mjoin (play_ops spec (ReadFrame <$> bufs) s).*1 = (play (total bufs / chans) s).1.
Proof.
  intros Hb. revert s. induction Hb as [|b bufs Hb _ IH]; intros s.
  - unfold total. cbn [fmap list_fmap sum_list sum_list_with]. by rewrite Nat.Div0.div_0_l, Nat.Div0.mod_0_l.
  - change (total (b :: bufs)) with (length b + total bufs)%nat. cbn [fmap list_fmap play_ops].
    pose proof (Nat.div_mod (length b) chans ltac:(lia)) as Hd. rewrite Hb, Nat.add_0_r in Hd.
    set (k := (length b / chans)%nat) in *. rewrite Hd.
    replace (chans * k + total bufs)%nat with (k * chans + total bufs)%nat by lia.
    rewrite Nat.div_add_l by lia. rewrite Nat.add_comm, Nat.Div0.mod_add.
    destruct (IH s) as [Hm _]. split; [done|]. rewrite play_app.
    destruct (play k s) as [os s1]. destruct (IH s1) as [_ IH1].
    cbn [fmap list_fmap fst]. change (mjoin (os :: ?l)) with (os ++ mjoin l). rewrite IH1. by destruct (play _ s1).
Qed.

End Render.

(** * PCM on both ends *)

Section Pcm.

(** The byte orders of the two machines, the format on the network and the samples of both
    ends. *)
Context (host1 host2 : cpu_endian) (c : PcmCode) (e : PcmEndian) (spec : SampleSpec.t).
Context (aligned : is_aligned c = true) (same_order : resolve_endian host1 e = resolve_endian host2 e).

Abbreviation chans := (SampleSpec.num_channels spec).

Context (chans_pos : (0 < chans)%nat).

Definition sender_encoder : IFrameEncoder PcmEncoder.t := PcmEncoder.encoder host1.

Definition receiver_decoder : IFrameDecoder PcmDecoder.t := PcmDecoder.decoder host2.

#[local] Existing Instance sender_encoder.
#[local] Existing Instance receiver_decoder.

Definition sender_encoder_ok : FrameEncoder PcmEncoder.t (Packetizer.num_channels spec) :=
  pcm_encoder_contract host1 c e chans aligned chans_pos.

Definition receiver_decoder_ok : FrameDecoder PcmDecoder.t (Depacketizer.num_channels spec) :=
  pcm_decoder_contract host2 c e chans aligned chans_pos.

#[local] Existing Instance sender_encoder_ok.
#[local] Existing Instance receiver_decoder_ok.

(** The blocks that a receiver has of samples that were sent. *)
Definition received (xs : list Frame.sample_t) : list block :=
  blocks chans (length xs / chans) (requantized c <$> xs).

Lemma received_join pieces :
  Forall (fun xs => length xs mod chans = 0)%nat pieces ->
  mjoin (mjoin (received <$> pieces)) = requantized c <$> mjoin pieces.
Proof.
  induction 1 as [|xs pieces Hx _ IH]; [done|].
  change (mjoin (received <$> xs :: pieces)) with (received xs ++ mjoin (received <$> pieces)).
  change (mjoin (xs :: pieces)) with (xs ++ mjoin pieces). rewrite join_app, fmap_app, IH. f_equal.
  pose proof (Nat.div_mod (length xs) chans ltac:(lia)). unfold received.
  rewrite blocks_join by (rewrite length_fmap; lia). apply take_ge. rewrite length_fmap. lia.
Qed.

(** What a packet that carries samples is for the receiver. *)
Lemma carried_entry s xs p n :
  carries spec s xs p -> piece_ok spec n xs -> is_u 32 (seq_stream_ts s) ->
  Z.of_nat (n * chans * packed_octets c) < 2 ^ 31 ->
  DepacketizerStream.packet_ok spec p
  /\ packet_entry spec p = (seq_stream_ts s, received xs)
  /\ playable (received xs) /\ length (received xs) = piece_length spec xs.
Proof.
  intros (HR & _ & _ & _ & _ & Hts & _ & Hp) (m & Hm & Hmn) Hs Hsize.
  change (Packetizer.num_channels spec) with chans in Hm.
  assert (piece_length spec xs = m) as Epiece.
  { unfold piece_length. change (Packetizer.num_channels spec) with chans. rewrite Hm. apply Nat.div_mul. lia. }
  assert (packet_stream_timestamp p = seq_stream_ts s) as Ets.
  { unfold packet_stream_timestamp, packet_rtp. by rewrite HR. }
  assert (length (received xs) = m) as Hl.
  { unfold received. rewrite length_blocks. exact Epiece. }
  assert (encode xs = encode_frame host2 c e xs) as Eenc.
  { change (encode_frame host1 c e xs = encode_frame host2 c e xs). unfold encode_frame. by rewrite same_order. }
  rewrite Eenc in Hp.
  assert (decode (seq_stream_ts s) (encode_frame host2 c e xs) = (seq_stream_ts s, received xs)) as Edec.
  { change (decode_frame host2 c e chans (seq_stream_ts s) (encode_frame host2 c e xs) = (seq_stream_ts s, received xs)).
    unfold received. unfold piece_length in Epiece. change (Packetizer.num_channels spec) with chans in Epiece.
    rewrite Epiece. by apply decode_encode_frame. }
  assert (received xs <> []) as Hne.
  { intros E. rewrite E in Hl. cbn in Hl. lia. }
  pose proof (octets_pos c).
  split; [|split; [|split; [|by rewrite Epiece]]].
  - exists (encode_frame host2 c e xs). rewrite Ets, Edec. split; [exact Hp|]. split; [|done].
    change (decoder_accepts (encode_frame host2 c e xs)). unfold decoder_accepts.
    rewrite length_encode_frame, Hm.
    apply Z.le_lt_trans with (2 := Hsize). apply inj_le. apply Nat.mul_le_mono_r, Nat.mul_le_mono_r. lia.
  - unfold packet_entry. rewrite Hp, Ets. exact Edec.
  - split; [done|]. rewrite Hl.
    assert (m <= n * chans)%nat by nia. assert (n * chans <= n * chans * packed_octets c)%nat by nia. lia.
Qed.

Lemma sent_entries n s pieces ps :
  sent spec s pieces ps -> Forall (piece_ok spec n) pieces -> is_u 32 (seq_stream_ts s) ->
  Z.of_nat (n * chans * packed_octets c) < 2 ^ 31 ->
  Forall (DepacketizerStream.packet_ok spec) ps
  /\ packet_entry spec <$> ps = consecutive (seq_stream_ts s) (received <$> pieces)
  /\ Forall playable (received <$> pieces).
Proof.
  intros Hsent Hok Hs Hsize. revert s ps Hsent Hs.
  induction Hok as [|xs pieces Hx _ IH]; intros s [|p ps] Hsent Hs; try done; try (by repeat constructor).
  destruct Hsent as [Hp Hsent].
  destruct (carried_entry s xs p n Hp Hx Hs Hsize) as (H1 & H2 & H3 & H4).
  destruct (IH (advance (piece_length spec xs) s) ps Hsent) as (H5 & H6 & H7).
  { cbn. by apply wrap_u_range. }
  split; [by constructor|]. split; [|by constructor].
  cbn [fmap list_fmap consecutive]. rewrite H2, H4. f_equal. exact H6.
Qed.

Lemma run_arrivals (ps : list Packet) (bufs : list (list Frame.sample_t)) :
  arrivals ((Arrive <$> ps) ++ (ReadFrame <$> bufs)) = length ps.
Proof.
  induction ps as [|p ps IH]; cbn [fmap list_fmap app arrivals length]; [|by rewrite <- IH].
  by induction bufs.
Qed.

Lemma length_sent s pieces ps : sent spec s pieces ps -> length ps = length pieces.
Proof.
  revert s ps. induction pieces as [|xs pieces IH]; intros s [|p ps] Hs; try done.
  destruct Hs as [_ Hs]. cbn. by rewrite (IH _ _ Hs).
Qed.

(** A buffer for one block or more. *)
Definition buffer_ok (b : list Frame.sample_t) : Prop :=
  (length b mod chans = 0)%nat /\ 0 < Z.of_nat (length b / chans) < 2 ^ 32.

(** C8: What a sender writes to a packetizer is what a receiver reads from a depacketizer:
    with a PCM format on the network whose samples are whole bytes and have the same byte
    order on the two machines (a format of big or little endian samples on any machines, one
    of native samples on machines of the same byte order), whatever the packet length and
    the sizes of the frames that are written and read, the frames that are read show the
    samples of the packets in order, each as the format keeps it, and silence after them. *)
Theorem audio_reaches_receiver (net : SampleSpec.t) {F} `{IPacketFactory F} (composer_ : IComposer)
    (sequencer : Sequencer) (factory : F) (packet_length : Z)
    (encoder : PcmEncoder.t) (decoder : PcmDecoder.t) pk dp ops bufs fuel :
  SampleSpec.pcm_format net = Format c e -> SampleSpec.num_channels net = chans ->
  PcmEncoder.make host1 net = Ok encoder -> PcmDecoder.make host2 net = Ok decoder ->
  Packetizer.make spec (mkQueue []) sequencer encoder factory packet_length = Ok pk -> Packetizer.is_valid pk = true ->
  Depacketizer.make spec (mkQueue []) decoder = Ok dp ->
  media_composer composer_ -> SupplyingFactory F (overhead composer_ + Packetizer.payload_size_ pk) ->
  Z.of_nat (Packetizer.payload_size_ pk) < 2 ^ 31 ->
  id_valid (seq_identity sequencer) = true -> is_u 32 (seq_stream_ts sequencer) ->
  Forall (PacketizerStream.operation_ok spec) ops -> Forall buffer_ok bufs ->
  let pieces := pieces_of spec (Packetizer.samples_per_packet_ pk) ops [] in
  (length pieces < fuel)%nat ->
  exists pk' fs dp',
    PacketizerStream.run composer_ spec ops pk = Ok pk'
    /\ DepacketizerStream.run spec false (fun _ => 0) fuel
         ((Arrive <$> content (Packetizer.writer_ pk')) ++ (ReadFrame <$> bufs)) dp = Ok (fs, dp')
    /\ mjoin (Frame.samples_ <$> fs) = resize (total bufs) 0 (requantized c <$> mjoin pieces).
Proof.
  intros Hfmt Hnum Henc Hdec Hpk Hvalid Hdp Hmedia Hsup Hsize Hid Hts Hops Hbufs pieces Hfuel.
  destruct (make_encoder_ready host1 c e chans net Hfmt Hnum) as (? & Henc' & Hready).
  rewrite Henc in Henc'. injection Henc' as <-.
  destruct (make_decoder_idle host2 c e chans net Hfmt Hnum) as (? & Hdec' & Hidle).
  rewrite Hdec in Hdec'. injection Hdec' as <-.
  destruct (make_at_cut spec (mkQueue []) sequencer encoder factory packet_length pk) as (Hspec & Hn & Hn32 & Hps & Hat); try done.
  rewrite Hps in Hsup, Hsize. set (n := Packetizer.samples_per_packet_ pk) in *.
  destruct (pack_run_ok composer_ spec n (size_of n) Hmedia Hspec chans_pos Hn Hn32 eq_refl ops pk sequencer [] [] Hat Hops)
    as (pk' & acc' & Hrun & Hat').
  pose proof (pieces_ok spec n (size_of n) chans_pos Hn Hn32 eq_refl ops [] 0 eq_refl Hn Hops) as Hpieces.
  fold pieces in Hpieces. destruct Hat' as (_ & Hsent & _). cbn [app] in Hsent. fold pieces in Hsent.
  destruct (sent_entries n sequencer pieces _ Hsent Hpieces Hts Hsize) as (Hpackets & Hentries & Hplay).
  set (ps := content (Packetizer.writer_ pk')) in *.
  assert (SampleSpec.is_raw spec = true /\ DepacketizerStream.packets_left dp = 0%nat) as [Hraw Hleft].
  { unfold Depacketizer.make in Hdp. destruct (SampleSpec.is_raw spec); [|by destruct (SampleSpec.is_valid spec)].
    rewrite Hspec in Hdp. injection Hdp as <-. done. }
  assert (Forall (DepacketizerStream.operation_ok spec) ((Arrive <$> ps) ++ (ReadFrame <$> bufs))) as Hrops.
  { apply Forall_app. split; apply Forall_fmap; [exact Hpackets|exact Hbufs]. }
  assert (at_stream spec dp stream_start) as Hatd by (by apply (make_at_stream spec Hspec Hraw (mkQueue []) decoder)).
  destruct (depack_run_ok spec false (fun _ => 0) Hspec chans_pos fuel _ dp stream_start Hatd Hrops) as (fs & dp' & Hrun' & Hfs).
  { rewrite Hleft, run_arrivals, (length_sent _ _ _ Hsent). exact Hfuel. }
  exists pk', fs, dp'. split; [exact Hrun|]. split; [exact Hrun'|].
  rewrite (frames_samples spec _ _ Hfs), play_ops_arrive, Hentries.
  assert (Forall (fun b => length b mod chans = 0)%nat bufs) as Hmod.
  { eapply Forall_impl; [exact Hbufs|]. by intros b [? _]. }
  destruct (play_ops_reads spec chans_pos bufs
    (mkStream false 0 (consecutive (seq_stream_ts sequencer) (received <$> pieces))) Hmod) as [Ht Hreads].
  cbn [started at_ pending stream_start app]. rewrite Hreads, play_resize by done.
  rewrite (samples_of_resize spec chans_pos).
  - rewrite received_join.
    + f_equal. pose proof (Nat.div_mod (total bufs) chans ltac:(lia)).
      change (Depacketizer.num_channels spec) with chans in *. lia.
    + eapply Forall_impl; [exact Hpieces|]. intros xs (m & -> & _). by apply Nat.Div0.mod_mul.
  - apply Forall_join, Forall_fmap. eapply Forall_impl; [exact Hpieces|]. intros xs (m & Hm & _). cbn.
    apply blocks_Forall. rewrite length_fmap. change (Packetizer.num_channels spec) with chans in Hm.
    rewrite Hm, Nat.div_mul by lia. done.
Qed.

End Pcm.

(** A little-endian sender and a big-endian receiver of 16-bit samples. *)
Definition be_decoder : PcmDecoder.t := PcmDecoder.mk (to_raw_mapper CPU_BE SInt16 Big) 2 0 0 None 0.

Definition be_depacketizer : Depacketizer.t Queue PcmDecoder.t :=
  Depacketizer.mk (mkQueue []) be_decoder None 0 0 false 0 0 0 true true.

Lemma three_blocks_encodable : Forall (fun x => raw_encodable SInt16 x) [0x3f000000; 0; 0x3e800000; 0; 0x3e000000; 0].
Proof.
  repeat (apply Forall_cons; split;
    [split; [vm_compute; split; [discriminate|reflexivity]|vm_compute; reflexivity]|]).
  constructor.
Qed.

(** The three blocks are read as two frames of two blocks. *)
Lemma audio_reaches_receiver_witness :
  (exists pk' fs dp',
    @PacketizerStream.run _ _ _ _ (sender_encoder CPU_LE) _ (RtpComposer None) raw_stereo three_blocks two_block_packetizer = Ok pk'
    /\ @DepacketizerStream.run _ _ _ _ (receiver_decoder CPU_BE) raw_stereo false (fun _ => 0) 3
         ((Arrive <$> content (Packetizer.writer_ pk')) ++ (ReadFrame <$> [replicate 4 1; replicate 4 1])) be_depacketizer
       = Ok (fs, dp')
    /\ mjoin (Frame.samples_ <$> fs)
       = resize 8 0 (requantized SInt16 <$> mjoin [[0x3f000000; 0; 0x3e800000; 0]; [0x3e000000; 0]]))
  /\ resize 8 0 (requantized SInt16 <$> mjoin [[0x3f000000; 0; 0x3e800000; 0]; [0x3e000000; 0]])
     = [0x3f000000; 0; 0x3e800000; 0; 0x3e000000; 0; 0; 0].
Proof.
  split; [|vm_compute; reflexivity].
  apply (audio_reaches_receiver CPU_LE CPU_BE SInt16 Big raw_stereo eq_refl eq_refl stereo_pos net_stereo
    (RtpComposer None) last_sequencer tt 2000000 le_encoder be_decoder two_block_packetizer be_depacketizer three_blocks
    [replicate 4 1; replicate 4 1] 3); try reflexivity.
  - by left.
  - apply unit_supplies. vm_compute. repeat constructor.
  - split; [discriminate|reflexivity].
  - pose proof three_blocks_encodable as Hx. change ([?a; ?b; ?c; ?d; ?e; ?f]) with ([a; b; c; d] ++ [e; f]) in Hx.
    apply Forall_app in Hx as [Hx1 Hx2].
    apply Forall_cons; split; [split; [reflexivity|split; [exact Hx1|done]]|].
    apply Forall_cons; split; [split; [reflexivity|split; [exact Hx2|done]]|].
    apply Forall_cons; split; [exact I|]. constructor.
  - repeat (apply Forall_cons; split; [split; [reflexivity|split; reflexivity]|]). constructor.
  - vm_compute. reflexivity.
Defined.
